(* ===== verification/_CoqProject ===== *)
-Q . S2P
Prelude.v
Ring.v
RingConc.v
Pool.v
PoolProofs.v
PoolCreate.v
Buffer.v
Packet.v
Parse.v
Queue.v
QueueProofs.v
QueueSpec.v
Schedule.v
ScheduleProofs.v
ScheduleSpec.v
Locks.v
Hash.v
Mask.v
Thread.v
Tables.v
Timer.v
TimerProofs.v
RecLock.v
Classify.v
ClassifyProofs.v
ClassifySpec.v
District.v
DistrictProofs.v
DistrictSpec.v
Shm.v
ShmProofs.v
ShmSpec.v
PktIo.v
PktIoProofs.v
PktLoop.v
PktLoopProofs.v
PktIoSpec.v
Chksum.v
Init.v
Crypto.v
CryptoProofs.v
CryptoSpec.v
OdpTime.v
Hugepage.v
HugepageProofs.v
