(* ===== verification/Prelude.v ===== *)
(** * OpenDataPlane 1.7: a verification of the linux-generic platform

    The subject is the C code of src/odp/odp1.7: the OpenDataPlane (ODP) 1.7
    library for networking data planes, in its reference platform
    platform/linux-generic, and the helper library helper/.  The other
    directories of the repository hold packaging of other software.

    ** The program and its parts

    An application allocates buffers and packets from pools (odp_pool.c,
    odp_buffer.c, odp_packet.c), passes them as events through queues
    (odp_queue.c), and takes them back either by polling a queue or from the
    scheduler (odp_schedule.c), which chooses a queue by priority, group and
    synchronisation type.  Packet interfaces (odp_packet_io.c) fill input queues
    and drain output queues; received frames go through the parser
    (odp_packet.c).  Timers (odp_timer.c) post time-out events to queues.
    Classification (odp_classification.c) chooses the queue of a received
    packet.  Underneath are thread numbers and masks (odp_thread.c,
    odp_cpumask.c, odp_thrmask.c), shared memory (odp_shared_memory.c), locks
    and barriers, time (odp_time.c) and a hash function (odp_hash.c).  Shared
    memory that has to be physically contiguous comes from the districts of the
    hisilicon platform (mem/odp_mmdistrict.c), which are cut from huge pages
    (mem/odp_memops.c).  Crypto (odp_crypto.c) enciphers and authenticates
    packets by OpenSSL.  The components are started and terminated in order by
    odp_init.c.  The helper library adds rings between threads (helper/ring.c),
    hash and linear tables, and checksums of headers.

    ** How the code is modelled

    A C function is a function of the state it changes.  Failure of the program
    (a null or dangling dereference, an access outside an array or outside the
    reserved memory, ODP_ABORT, a failed ODP_ASSERT, which is compiled in by
    default) is [None]; an error the code reports is a value.  Integers are [Z]
    with the wrap-around of their width written out ([u8] .. [u64], [s32] and
    the operators of [c_scope] in this file).  Pointers that identify objects
    are addresses or table indices, 0 being NULL; linked lists are the pointers
    of the code and not Rocq lists, and their theorems relate them to lists.
    Calls outside the repository (shared memory of the system, packet
    interfaces, the processor number) are arguments of the definitions.

    Where the code is lock-free, or is itself a lock, a thread has a program
    counter and a step is one access to shared memory: RingConc, Locks, RecLock,
    TimerProofs.  Elsewhere a call is one step, because the code runs it under
    a lock.  Memory is sequentially consistent throughout.

    ** The files

    - Prelude: machine integers, access to lists by [Z], sums over lists,
      shared automation.
    - Ring, Module Ring: odph_ring_t, creation and lookup, single-producer and
      single-consumer operations, water mark, status ([odph_ring_*] of
      helper/ring.c).  Theorem: the ring is a bounded queue, which reports its
      water mark as exceeded one object early.
    - RingConc, Module RingConc: the multi-producer and multi-consumer paths as
      steps ([p_step], [c_step]).  Theorems, when no thread is overtaken by 2^32
      reservations: every object is delivered once and in order, nothing is lost
      at rest, every run can be completed and no thread retries for ever, and a
      call that runs alone is the single-producer call.
    - Pool, PoolProofs, PoolCreate: include/odp_pool_internal.h and odp_pool.c.
      Pool has the free lists, the caches of the threads and allocation;
      PoolProofs conservation of buffers and blocks and the functional theorems;
      PoolCreate creation, lookup and destruction with the layout of memory.
    - Buffer: handles and segments (include/odp_buffer_inlines.h).
    - Packet: the data window, copying, segments, allocation (odp_packet.c).
    - Parse: the parser and the packet flags (odp_packet.c,
      odp_packet_flags.c).
    - Queue, QueueProofs, QueueSpec: odp_queue.c with ordered queues, the
      queue side of odp_packet_io.c and the routines of the scheduler that
      queues call.  The class [Platform] of Queue states what queues use of
      pools and packet interfaces.  QueueProofs relates queues to lists;
      QueueSpec has the theorems.
    - Schedule, ScheduleProofs, ScheduleSpec: odp_schedule.c.  ScheduleProofs
      has the invariant of where the command of each queue is; ScheduleSpec the
      theorems on a call, on waiting, on any number of threads, and on groups,
      for applications without ordered queues and packet input.
    - Locks, Modules Ticket, RwLock, Barrier: odp_ticketlock.c, odp_rwlock.c,
      odp_barrier.c.  RecLock, Modules RecLock, RecRwLock: odp_spinlock.c,
      odp_spinlock_recursive.c, odp_rwlock_recursive.c.  Theorems: exclusion and
      progress in every interleaving.
    - Hash: odp_hash.c against bit-serial CRC-32C.
    - Mask, Thread: odp_cpumask.c (and odp_thrmask.c, which forwards to it) and
      odp_thread.c.
    - Tables, Modules OdphList, HashTable, LinearTable:
      helper/odph_list_internal.h, helper/hashtable.c, helper/lineartable.c.
      Theorems: the hash table is a finite map; a linear table holds nothing.
    - Timer, TimerProofs: odp_timer.c.  Theorems: events are in one place in
      every interleaving; an armed timer delivers at its tick, to the queue it
      was allocated with, when nobody calls meanwhile.
    - Classify, ClassifyProofs, ClassifySpec: odp_classification.c with
      odp_classification_inlines.h, _odp_packet_cls_enq of
      pktio/pktio_common.c and loopback_recv of pktio/loop.c.  The class
      [PacketWorld] of Classify states what classification uses of packets,
      pools and queues.  ClassifyProofs has the invariant of the tables and that
      classification returns; ClassifySpec that in a fresh configuration of
      rules on single fields the first rule that holds decides, and the inputs on
      which the code does otherwise.
    - District, DistrictProofs, DistrictSpec: physically contiguous memory,
      platform/linux-hisilicon/mem/odp_mmdistrict.c.  DistrictProofs has the
      invariant of fragments and districts; DistrictSpec that reservations are
      apart and succeed when there is room, and the translation between virtual
      and physical addresses.
    - Shm, ShmProofs, ShmSpec: odp_shared_memory.c.  The class [ShmSys] of Shm
      stands for the system calls, [ShmLaws] of ShmProofs for what they promise.
      Theorems: blocks are apart and found by name, and contiguous blocks are
      contiguous, over the districts.
    - PktIo, PktIoProofs: the table of packet interfaces, odp_packet_io.c.  A
      driver is a record of functions; the class [PktioLaws] of PktIoProofs is the
      contract between the table and drivers, with the phase of each
      interface.  Theorem: the table keeps the contract and is a map of names.
      PktLoop, PktLoopProofs: the loop driver, pktio/loop.c, an instance of the
      contract given the laws of queues ([LoopLaws]); the drivers behind it in the
      table are a parameter and take no device.  Theorem: without classification
      it is a FIFO.
      PktIoSpec: queues to run it on, and the inputs on which the code does
      otherwise.
    - Chksum: the checksum functions of helper/include/odp/helper (chksum.h, ip.h,
      udp.h), on the packets of Packet.  Theorems: the routine computes the
      Internet checksum of RFC 1071; updating makes a header valid and changes of a
      word are detected.
    - Init: odp_init.c.  Theorem: what a failure undoes, and what shut-down
      terminates.
    - Crypto, CryptoProofs, CryptoSpec: odp_crypto.c.  The classes [OpenSSL] and
      [CryptoWorld] of Crypto stand for the library and for packets and queues,
      [OpenSSLLaws] and [CryptoWorldLaws] of CryptoSpec for what they promise.
      CryptoProofs has the invariant of the table of sessions, CryptoSpec that
      decoding undoes encoding, and the errors that are not handled.
    - OdpTime: odp_time.c, odp_cpu.c, arch/linux/odp_cpu_arch.c.  The clock is a
      parameter.  Theorem: times behave as numbers of nanoseconds, and waiting
      returns at the first reading that is late enough.
    - Hugepage, HugepageProofs: platform/linux-hisilicon/mem/odp_memops.c, the
      memory of the districts.  The class [HugeSys] of Hugepage stands for the
      system calls.  Theorems: pages are sorted; the fragments made of them are a
      layout on which the districts start; no more pages are used than there
      are.

    A theorem that carries a claim number (C1, C2, ...) is followed by a
    concrete instance, named after it with the suffix _witness, where it has
    hypotheses; where the instance needs a world to run in, it is in the last
    file of the component.  Theorems without a number that show a defect of the code at a
    concrete input are next to the component they are about.

    ** Conditions

    The hypotheses of a theorem are in its comment.  Those that stand for something
    the code does not ensure have a theorem next to them that shows what happens
    otherwise: a 32-bit index or ticket that comes round while a thread sleeps
    ([stale_exchange_overfills], [trylock_comes_round]), requests of no object
    ([mp_enqueue_zero_hangs]), pools of no buffer ([pool_create_zero_overflows]),
    a timer that is freed while its event is delivered ([timer_free_race]), rules
    on offsets near 2^32 and terms without an implementation ([custom_frame_wraps],
    [terms_not_implemented]), districts that are given back
    ([unreserve_keeps_physical], [unreserve_full_table]), alignment 0 of shared
    memory ([reserve_align_zero]), and more starts of interfaces than the scheduler
    has commands ([start_stop_exhausts]).  Where a comment in the repository says
    otherwise than the code, the theorem is about the code and the comment is
    contradicted by a theorem of its own ([water_mark_reached_not_exceeded],
    [pull_across_segments], [from_str_replaces], [schedule_misses_event],
    [chksum_network_order] and others).

    ** Fuel and bounds

    Loops over lists of the state recurse on a counter: the number of buffers of
    a pool, of headers on a queue, of commands on the priority queues, of nodes
    of a table.  The theorems that a call returns (allocation, enqueue, dequeue,
    scheduling, parsing, table calls) show that the counter is large enough in
    every state the invariant allows.  The reset of a timer without an event
    uses one round of its loop in the sequential call, where nobody interferes,
    and is a loop of steps in the concurrent model.  An endless wait of the
    scheduler has as many rounds as the theorem is given.

    ** Not modelled

    - The drivers of packet interfaces other than loop (pktio/), and printing
      of an interface; the signal and thread set-up of timers, system
      information, process helpers: system calls and device access.
    - The algorithms of OpenSSL, which odp_crypto.c calls.
    - The hisilicon platform but for its memory districts and huge pages:
      register and PCI access of one device; attaching a second process to the
      huge pages.
    - Timers on platforms without a 16-byte compare-and-swap.
    - Weak memory, and interference inside calls that run under a lock.
    - Examples and tests.

*)

From stdpp Require Export base numbers list gmap strings.
From Stdlib Require Export ZArith Lia.

#[global] Set Default Goal Selector "!".
Open Scope Z_scope.

(** * Machine integers *)

(** [wrap w x] is the value an unsigned [w]-bit C object holds after [x] is
    stored in it. *)
Definition wrap (w x : Z) : Z := x mod 2 ^ w.

Definition u8 (x : Z) : Z := wrap 8 x.
Definition u16 (x : Z) : Z := wrap 16 x.
Definition u32 (x : Z) : Z := wrap 32 x.
Definition u64 (x : Z) : Z := wrap 64 x.

(** Two's complement reading of an unsigned 32-bit pattern ([(int)x]). *)
Definition s32 (x : Z) : Z := (x + 2 ^ 31) mod 2 ^ 32 - 2 ^ 31.

Definition is_u8 (x : Z) : Prop := 0 <= x < 2 ^ 8.
Definition is_u16 (x : Z) : Prop := 0 <= x < 2 ^ 16.
Definition is_u32 (x : Z) : Prop := 0 <= x < 2 ^ 32.
Definition is_u64 (x : Z) : Prop := 0 <= x < 2 ^ 64.

Declare Scope c_scope.
Delimit Scope c_scope with c.
Notation "x +u32 y" := (u32 (x + y)) (at level 50, left associativity) : c_scope.
Notation "x -u32 y" := (u32 (x - y)) (at level 50, left associativity) : c_scope.
Notation "x *u32 y" := (u32 (x * y)) (at level 40, left associativity) : c_scope.
Notation "x +u64 y" := (u64 (x + y)) (at level 50, left associativity) : c_scope.
Notation "x -u64 y" := (u64 (x - y)) (at level 50, left associativity) : c_scope.
Notation "x *u64 y" := (u64 (x * y)) (at level 40, left associativity) : c_scope.
Notation "x & y" := (Z.land x y) (at level 45, left associativity) : c_scope.
Open Scope c_scope.

Create HintDb cint.

(** [cint] unfolds the machine-integer layer and leaves the goal to [lia] with
    the division equations. *)
Ltac unfold_cint :=
  unfold is_u8, is_u16, is_u32, is_u64, s32, u8, u16, u32, u64, wrap in *;
  change (2 ^ 8) with 256 in *;
  change (2 ^ 16) with 65536 in *;
  change (2 ^ 31) with 2147483648 in *;
  change (2 ^ 32) with 4294967296 in *;
  change (2 ^ 64) with 18446744073709551616 in *.
Ltac cint := unfold_cint; Z.div_mod_to_equations; lia.

Lemma wrap_small w x : 0 <= x < 2 ^ w -> wrap w x = x.
Proof. apply Z.mod_small. Qed.

Lemma wrap_bound w x : 0 <= w -> 0 <= wrap w x < 2 ^ w.
Proof. intros. apply Z.mod_pos_bound. lia. Qed.

Lemma u8_small x : is_u8 x -> u8 x = x.
Proof. apply wrap_small. Qed.
Lemma u32_small x : is_u32 x -> u32 x = x.
Proof. apply wrap_small. Qed.
Lemma u64_small x : is_u64 x -> u64 x = x.
Proof. apply wrap_small. Qed.
Lemma s32_small x : 0 <= x < 2 ^ 31 -> s32 x = x.
Proof. intros. unfold s32. rewrite Z.mod_small; lia. Qed.
Lemma u32_bound x : is_u32 (u32 x).
Proof. apply wrap_bound. lia. Qed.
Lemma u64_bound x : is_u64 (u64 x).
Proof. apply wrap_bound. lia. Qed.
Lemma u16_bound x : is_u16 (u16 x).
Proof. apply wrap_bound. lia. Qed.
Lemma u8_bound x : is_u8 (u8 x).
Proof. apply wrap_bound. lia. Qed.

#[export] Hint Resolve u32_bound u64_bound u16_bound u8_bound : cint.

Lemma u32_idem x : u32 (u32 x) = u32 x.
Proof. apply u32_small, u32_bound. Qed.
Lemma u32_add_l x y : u32 (u32 x + y) = u32 (x + y).
Proof. apply Zplus_mod_idemp_l. Qed.
Lemma u32_add_r x y : u32 (x + u32 y) = u32 (x + y).
Proof. apply Zplus_mod_idemp_r. Qed.
Lemma u32_sub_l x y : u32 (u32 x - y) = u32 (x - y).
Proof. apply Zminus_mod_idemp_l. Qed.
Lemma u32_sub_r x y : u32 (x - u32 y) = u32 (x - y).
Proof. apply Zminus_mod_idemp_r. Qed.
Create Rewrite HintDb u32.
#[export] Hint Rewrite u32_idem u32_add_l u32_add_r u32_sub_l u32_sub_r : u32.

(** Equality of two 32-bit expressions that agree up to a multiple of 2^32. *)
Lemma u32_cong x y k : x = y + k * 2 ^ 32 -> u32 x = u32 y.
Proof. intros ->. unfold u32, wrap. apply Z_mod_plus_full. Qed.

Lemma u32_inj_small x y : u32 x = u32 y -> -(2 ^ 32) < x - y < 2 ^ 32 -> x = y.
Proof.
  unfold u32, wrap. intros H Hb.
  assert ((x - y) mod 2 ^ 32 = 0) as Hd.
  { rewrite Zminus_mod, H, Z.sub_diag. done. }
  apply Z.mod_divide in Hd; [|lia]. destruct Hd as [k Hk].
  assert (k = 0) by nia. lia.
Qed.

(** Masking with [2^k - 1] is reduction modulo [2^k]. *)
Lemma land_pow2_mask x k : 0 <= k -> Z.land x (2 ^ k - 1) = x mod 2 ^ k.
Proof. intros. rewrite <- Z.land_ones by lia. rewrite Z.ones_equiv. by rewrite Z.sub_1_r. Qed.

Lemma mod_pow2_le x j k : 0 <= j <= k -> (x mod 2 ^ k) mod 2 ^ j = x mod 2 ^ j.
Proof.
  intros. rewrite <- !Z.land_ones by lia.
  rewrite <- Z.land_assoc. f_equal.
  rewrite Z.land_comm. rewrite Z.land_ones by lia.
  apply Z.mod_small. rewrite Z.ones_equiv.
  assert (2 ^ j <= 2 ^ k) by (apply Z.pow_le_mono_r; lia).
  assert (0 < 2 ^ j) by lia. lia.
Qed.

(** Masking with [2^w - 2^k] clears the low [k] bits of a [w]-bit value. *)
Lemma land_high_mask n w k :
  0 <= k <= w -> 0 <= n < 2 ^ w -> Z.land n (2 ^ w - 2 ^ k) = n - n mod 2 ^ k.
Proof.
  intros Hk Hn.
  assert (Z.ldiff (Z.ones w) (Z.ones k) = 2 ^ w - 2 ^ k) as <-.
  { rewrite Z.ldiff_ones_r, Z.shiftl_mul_pow2, Z.shiftr_div_pow2 by lia.
    rewrite Z.ones_equiv. rewrite <- Z.sub_1_r.
    replace (2 ^ w) with (2 ^ (w - k) * 2 ^ k) by (rewrite <- Z.pow_add_r by lia; f_equal; lia).
    replace (2 ^ (w - k) * 2 ^ k - 1) with ((2 ^ k - 1) + (2 ^ (w - k) - 1) * 2 ^ k) by lia.
    rewrite Z.div_add by lia. rewrite Z.div_small by lia. lia. }
  rewrite Z.ldiff_land, Z.land_assoc, (Z.land_ones n) by lia.
  rewrite Z.mod_small by lia. rewrite <- Z.ldiff_land.
  rewrite Z.ldiff_ones_r, Z.shiftl_mul_pow2, Z.shiftr_div_pow2 by lia.
  pose proof (Z.div_mod n (2 ^ k)). lia.
Qed.

(** Bit fields: a value below [2^k] or-ed with a multiple of [2^k]. *)
Lemma land_disjoint a b k : 0 <= k -> 0 <= a < 2 ^ k -> Z.land a (b * 2 ^ k) = 0.
Proof.
  intros Hk Ha. rewrite <- Z.shiftl_mul_pow2 by lia. apply Z.bits_inj'. intros i Hi.
  rewrite Z.land_spec, Z.bits_0, Z.shiftl_spec by lia.
  destruct (decide (i < k)) as [Hik|Hik].
  - by rewrite (Z.testbit_neg_r b), andb_false_r by lia.
  - rewrite <- (Z.mod_small a (2 ^ k)) by lia.
    by rewrite Z.mod_pow2_bits_high by lia.
Qed.

Lemma lor_disjoint a b k : 0 <= k -> 0 <= a < 2 ^ k -> Z.lor a (b * 2 ^ k) = a + b * 2 ^ k.
Proof.
  intros Hk Ha. pose proof (land_disjoint a b k Hk Ha) as H.
  rewrite Z.add_nocarry_lxor by done. by rewrite Z.lxor_lor.
Qed.

(** * Strings *)

(** A string that fits is not cut. *)
Lemma substring_all s n : (String.length s <= n)%nat -> String.substring 0 n s = s.
Proof. revert n. induction s as [|c s IH]; intros [|n] H; simpl in *; [done|done|lia|]. f_equal. apply IH. lia. Qed.

(** * Arrays

    C arrays are lists; an access outside the array is [None], so that a
    definition that returns [Some _] has made no out-of-bounds access. *)

Definition zget {A} (l : list A) (i : Z) : option A :=
  if bool_decide (0 <= i) then l !! Z.to_nat i else None.

Definition zset {A} (l : list A) (i : Z) (x : A) : option (list A) :=
  if bool_decide (0 <= i < Z.of_nat (length l))
  then Some (<[Z.to_nat i:=x]> l) else None.

Definition zlen {A} (l : list A) : Z := Z.of_nat (length l).

Lemma zget_Some {A} (l : list A) i : 0 <= i < zlen l -> exists x, zget l i = Some x.
Proof.
  unfold zget, zlen. intros. rewrite bool_decide_eq_true_2 by lia.
  apply lookup_lt_is_Some. lia.
Qed.

Lemma zget_of_nat {A} (l : list A) (i : nat) : zget l (Z.of_nat i) = l !! i.
Proof. unfold zget. rewrite bool_decide_eq_true_2 by lia. by rewrite Nat2Z.id. Qed.

Lemma zget_nonneg {A} (l : list A) i : 0 <= i -> zget l i = l !! Z.to_nat i.
Proof. intros. unfold zget. by rewrite bool_decide_eq_true_2. Qed.

Lemma zget_bound {A} (l : list A) i x : zget l i = Some x -> 0 <= i < zlen l.
Proof.
  unfold zget, zlen. case_bool_decide; [|done].
  intros ?%lookup_lt_Some. lia.
Qed.

Lemma zset_Some {A} (l : list A) i x :
  0 <= i < zlen l -> zset l i x = Some (<[Z.to_nat i:=x]> l).
Proof. unfold zset, zlen. intros. by rewrite bool_decide_eq_true_2. Qed.

Lemma zset_inv {A} (l l' : list A) i x :
  zset l i x = Some l' -> 0 <= i < zlen l /\ l' = <[Z.to_nat i:=x]> l.
Proof. unfold zset, zlen. case_bool_decide; naive_solver. Qed.

Lemma zset_len {A} (l l' : list A) i x : zset l i x = Some l' -> zlen l' = zlen l.
Proof. intros [_ ->]%zset_inv. unfold zlen. by rewrite length_insert. Qed.

Lemma zget_zset {A} (l l' : list A) i j x :
  zset l i x = Some l' ->
  zget l' j = if bool_decide (i = j) then Some x else zget l j.
Proof.
  intros [? ->]%zset_inv. unfold zlen in *. case_bool_decide; subst.
  - rewrite zget_nonneg by lia. apply list_lookup_insert_eq. lia.
  - unfold zget. case_bool_decide; [|done].
    apply list_lookup_insert_ne. lia.
Qed.

Lemma zget_insert {A} (l : list A) i j x :
  0 <= i < zlen l -> zget (<[Z.to_nat i := x]> l) j = if bool_decide (i = j) then Some x else zget l j.
Proof. intros Hi. apply (zget_zset l _ i j x). by apply zset_Some. Qed.

Lemma find_app {A} (f : A -> bool) (l1 l2 : list A) :
  List.find f (l1 ++ l2) =
  match List.find f l1 with Some x => Some x | None => List.find f l2 end.
Proof. induction l1 as [|a l1 IH]; simpl; [done|]. destruct (f a); [done|apply IH]. Qed.

Lemma find_ext_in {A} (f g : A -> bool) (l : list A) :
  (forall x, x ∈ l -> f x = g x) -> List.find f l = List.find g l.
Proof.
  induction l as [|a l IH]; intros H; simpl; [done|].
  rewrite (H a) by set_solver. rewrite IH by set_solver. done.
Qed.

(** * Case analysis on the boolean tests of the code *)

Ltac zbool :=
  repeat match goal with
  | H : (_ <? _) = true |- _ => apply Z.ltb_lt in H
  | H : (_ <? _) = false |- _ => apply Z.ltb_ge in H
  | H : (_ <=? _) = true |- _ => apply Z.leb_le in H
  | H : (_ <=? _) = false |- _ => apply Z.leb_gt in H
  | H : (_ =? _) = true |- _ => apply Z.eqb_eq in H
  | H : (_ =? _) = false |- _ => apply Z.eqb_neq in H
  | H : (_ >? _) = true |- _ => rewrite Z.gtb_ltb in H
  | H : (_ >? _) = false |- _ => rewrite Z.gtb_ltb in H
  | H : (_ >=? _) = true |- _ => rewrite Z.geb_leb in H
  | H : (_ >=? _) = false |- _ => rewrite Z.geb_leb in H
  | H : (_ && _)%bool = true |- _ => apply andb_true_iff in H as [? ?]
  | H : (_ || _)%bool = false |- _ => apply orb_false_iff in H as [? ?]
  | H : negb _ = true |- _ => apply negb_true_iff in H
  | H : negb _ = false |- _ => apply negb_false_iff in H
  end.

(** Split the next [if] of the goal (or of a hypothesis) and reflect it. *)
Ltac if_case :=
  match goal with
  | |- context [if ?b then _ else _] =>
      lazymatch type of b with bool => destruct b eqn:?; zbool end
  end.
Ltac if_case_in H :=
  match type of H with
  | context [if ?b then _ else _] =>
      lazymatch type of b with bool => destruct b eqn:?; zbool end
  end.

(** * Sums over the threads of a system *)

Definition zsum {A} (f : A -> Z) (l : list A) : Z := foldr (fun a n => f a + n) 0 l.

Lemma zsum_insert {A} (f : A -> Z) (l : list A) i a b :
  l !! i = Some a -> zsum f (<[i := b]> l) = zsum f l - f a + f b.
Proof.
  revert i. induction l as [|x l IH]; intros [|i] Hi; simplify_eq/=; [lia|].
  rewrite (IH i) by done. lia.
Qed.

Lemma zsum_le {A} (f g : A -> Z) (l : list A) :
  (forall a, a ∈ l -> f a <= g a) -> zsum f l <= zsum g l.
Proof.
  induction l as [|x l IH]; intros Hle; simpl; [lia|].
  specialize (Hle x ltac:(set_solver)) as Hx. specialize (IH ltac:(intros; apply Hle; set_solver)). lia.
Qed.

Lemma zsum_const {A} (c : Z) (l : list A) : zsum (fun _ => c) l = c * zlen l.
Proof. unfold zlen. induction l as [|x l IH]; simpl; lia. Qed.

(** A nonnegative summand is at most the sum. *)
Lemma zsum_elem {A} (f : A -> Z) (l : list A) i a :
  (forall x, x ∈ l -> 0 <= f x) -> l !! i = Some a -> f a <= zsum f l.
Proof.
  revert i. induction l as [|x l IH]; intros [|i] Hpos Hi; simplify_eq/=.
  - pose proof (zsum_le (fun _ => 0) f l ltac:(intros; apply Hpos; set_solver)) as H.
    rewrite zsum_const in H. lia.
  - specialize (IH i ltac:(intros; apply Hpos; set_solver) Hi).
    specialize (Hpos x ltac:(set_solver)). lia.
Qed.

(** Two different summands. *)
Lemma zsum_elem2 {A} (f : A -> Z) (l : list A) i j a b :
  (forall x, x ∈ l -> 0 <= f x) -> i <> j -> l !! i = Some a -> l !! j = Some b ->
  f a + f b <= zsum f l.
Proof.
  revert i j. induction l as [|x l IH]; intros [|i] [|j] Hpos Hne Hi Hj; simplify_eq/=.
  - pose proof (zsum_elem f l j b ltac:(intros; apply Hpos; set_solver) Hj). lia.
  - pose proof (zsum_elem f l i a ltac:(intros; apply Hpos; set_solver) Hi). lia.
  - specialize (IH i j ltac:(intros; apply Hpos; set_solver) ltac:(congruence) Hi Hj).
    specialize (Hpos x ltac:(set_solver)). lia.
Qed.

Lemma zsum_sub {A} (f g : A -> Z) (l : list A) : zsum (fun a => f a - g a) l = zsum f l - zsum g l.
Proof. induction l as [|x l IH]; simpl; lia. Qed.

(** Summands of at most 1 that reach the number of threads are all 1. *)
Lemma zsum_full {A} (f : A -> Z) (l : list A) :
  (forall a, a ∈ l -> f a <= 1) -> zsum f l = zlen l -> forall a, a ∈ l -> f a = 1.
Proof.
  intros Hle Hs a [i Hi]%list_elem_of_lookup.
  pose proof (zsum_elem (fun a => 1 - f a) l i a) as H. rewrite zsum_sub, zsum_const in H.
  specialize (Hle a ltac:(by eapply list_elem_of_lookup_2)) as Ha.
  assert (1 - f a <= 1 * zlen l - zsum f l) by (apply H; [intros x Hx; specialize (Hle x Hx); lia|done]). lia.
Qed.

Lemma zsum_lt_exists {A} (f : A -> Z) (c : Z) (l : list A) :
  zsum f l < c * zlen l -> exists i a, l !! i = Some a /\ f a < c.
Proof.
  unfold zlen. induction l as [|x l IH]; simpl; intros Hs; [lia|].
  destruct (decide (f x < c)) as [Hx|Hx]; [by exists 0%nat, x|].
  destruct IH as (i & a & Hi & Ha); [lia|]. by exists (S i), a.
Qed.
