(* ===== verification/Ring.v ===== *)
(** The ring of [helper/ring.c]: a power-of-two array of pointers with
    free-running 32-bit producer and consumer indices.

    This file models the ring structure, its creation, the single-producer and
    single-consumer paths with their unrolled copy loops, the water mark, the
    status queries and the list of named rings, and proves that the operations
    implement a bounded first-in first-out queue. *)

From S2P Require Import Prelude.
Open Scope Z_scope.
Open Scope c_scope.

Module Ring.

Definition EINVAL : Z := 22.
Definition ENOENT : Z := 2.
Definition ENOBUFS : Z := 105.
Definition EDQUOT : Z := 122.

Definition ODPH_RING_NAMESIZE : Z := 32.
Definition ODPH_RING_F_SP_ENQ : Z := 1.
Definition ODPH_RING_F_SC_DEQ : Z := 2.
(** [1 << 31] seen as the unsigned pattern it is or-ed with. *)
Definition ODPH_RING_QUOT_EXCEED : Z := 2 ^ 31.
Definition ODPH_RING_SZ_MASK : Z := 0x0fffffff.

Inductive odph_ring_queue_behavior :=
  | ODPH_RING_QUEUE_FIXED
  | ODPH_RING_QUEUE_VARIABLE.

(** [struct prod] of [odph_ring_t]. *)
Record prod_t := Prod {
  p_watermark : Z;
  p_sp_enqueue : bool;
  p_size : Z;
  p_mask : Z;
  p_head : Z;
  p_tail : Z
}.

(** [struct cons] of [odph_ring_t]. *)
Record cons_t := Cons {
  c_sc_dequeue : bool;
  c_size : Z;
  c_mask : Z;
  c_head : Z;
  c_tail : Z
}.

(** [odph_ring_t]; [r_ring] is the flexible array member that follows it. *)
Record odph_ring_t := Mk_ring {
  r_name : string;
  r_flags : Z;
  r_prod : prod_t;
  r_cons : cons_t;
  r_ring : list Z
}.

Definition set_p_head (h : Z) (p : prod_t) : prod_t :=
  Prod (p_watermark p) (p_sp_enqueue p) (p_size p) (p_mask p) h (p_tail p).
Definition set_p_tail (t : Z) (p : prod_t) : prod_t :=
  Prod (p_watermark p) (p_sp_enqueue p) (p_size p) (p_mask p) (p_head p) t.
Definition set_p_watermark (w : Z) (p : prod_t) : prod_t :=
  Prod w (p_sp_enqueue p) (p_size p) (p_mask p) (p_head p) (p_tail p).
Definition set_c_head (h : Z) (c : cons_t) : cons_t :=
  Cons (c_sc_dequeue c) (c_size c) (c_mask c) h (c_tail c).
Definition set_c_tail (t : Z) (c : cons_t) : cons_t :=
  Cons (c_sc_dequeue c) (c_size c) (c_mask c) (c_head c) t.
Definition with_prod (f : prod_t -> prod_t) (r : odph_ring_t) : odph_ring_t :=
  Mk_ring (r_name r) (r_flags r) (f (r_prod r)) (r_cons r) (r_ring r).
Definition with_cons (f : cons_t -> cons_t) (r : odph_ring_t) : odph_ring_t :=
  Mk_ring (r_name r) (r_flags r) (r_prod r) (f (r_cons r)) (r_ring r).
Definition with_ring (l : list Z) (r : odph_ring_t) : odph_ring_t :=
  Mk_ring (r_name r) (r_flags r) (r_prod r) (r_cons r) l.

(** * The copy loops *)

(** [dst[d] = src[s]] *)
Definition copy_one (dst src : list Z) (d s : Z) : option (list Z) :=
  x ← zget src s; zset dst d x.

(** [k] iterations of [dst[d++] = src[s++]]. *)
Fixpoint copy_n (k : nat) (dst src : list Z) (d s : Z) : option (list Z) :=
  match k with
  | O => Some dst
  | S k => dst ← copy_one dst src d s; copy_n k dst src (d + 1) (s + 1)
  end.

(** [k] iterations of the loop unrolled by four; the final indices are
    returned, the [switch] that follows goes on from them. *)
Fixpoint copy_by4 (k : nat) (dst src : list Z) (d s : Z)
    : option (list Z * Z * Z) :=
  match k with
  | O => Some (dst, d, s)
  | S k =>
      dst ← copy_one dst src d s;
      dst ← copy_one dst src (d + 1) (s + 1);
      dst ← copy_one dst src (d + 2) (s + 2);
      dst ← copy_one dst src (d + 3) (s + 3);
      copy_by4 k dst src (d + 4) (s + 4)
  end.

(** [n & ~(unsigned)0x3] divided by the stride of the unrolled loop. *)
Definition by4_iterations (n : Z) : nat := Z.to_nat (Z.land n 0xfffffffc / 4).

(** [ENQUEUE_PTRS()]: store [n] objects from index [prod_head] on. *)
Definition ENQUEUE_PTRS (ring obj_table : list Z) (size mask prod_head n : Z)
    : option (list Z) :=
  let idx := Z.land prod_head mask in
  if idx +u32 n <? size then
    '(ring, idx, i) ← copy_by4 (by4_iterations n) ring obj_table idx 0;
    copy_n (Z.to_nat (Z.land n 3)) ring obj_table idx i
  else
    ring ← copy_n (Z.to_nat (size - idx)) ring obj_table idx 0;
    copy_n (Z.to_nat (n - (size - idx))) ring obj_table 0 (size - idx).

(** [DEQUEUE_PTRS()]: copy [n] objects from index [cons_head] on. *)
Definition DEQUEUE_PTRS (obj_table ring : list Z) (size mask cons_head n : Z)
    : option (list Z) :=
  let idx := Z.land cons_head mask in
  if idx +u32 n <? size then
    '(obj_table, i, idx) ← copy_by4 (by4_iterations n) obj_table ring 0 idx;
    copy_n (Z.to_nat (Z.land n 3)) obj_table ring i idx
  else
    obj_table ← copy_n (Z.to_nat (size - idx)) obj_table ring 0 idx;
    copy_n (Z.to_nat (n - (size - idx))) obj_table ring (size - idx) 0.

(** * Operations *)

Definition RING_VAL_IS_POWER_2 (x : Z) : bool := Z.land (x -u32 1) x =? 0.

(** The structure [odph_ring_create] initialises in the memory [mem] that
    [odp_shm_addr] returned. *)
Definition ring_init (name : string) (count flags : Z) (mem : list Z) : odph_ring_t :=
  Mk_ring (String.substring 0 (Z.to_nat (ODPH_RING_NAMESIZE - 1)) name) flags
    (Prod count (negb (Z.land flags ODPH_RING_F_SP_ENQ =? 0)) count (count -u32 1) 0 0)
    (Cons (negb (Z.land flags ODPH_RING_F_SC_DEQ =? 0)) count (count -u32 1) 0 0)
    mem.

Definition odph_ring_set_water_mark (r : odph_ring_t) (count : Z) : odph_ring_t * Z :=
  if count >=? p_size (r_prod r) then (r, - EINVAL)
  else
    let count := if count =? 0 then p_size (r_prod r) else count in
    (with_prod (set_p_watermark count) r, 0).

(** Return value of the two enqueue functions once [n] objects are stored. *)
Definition enqueue_ret (r : odph_ring_t) (free_entries n : Z)
    (behavior : odph_ring_queue_behavior) : Z :=
  if (u32 (p_mask (r_prod r) + 1) -u32 free_entries +u32 n) >? p_watermark (r_prod r)
  then match behavior with
       | ODPH_RING_QUEUE_FIXED => - EDQUOT
       | ODPH_RING_QUEUE_VARIABLE => s32 (Z.lor n ODPH_RING_QUOT_EXCEED)
       end
  else match behavior with
       | ODPH_RING_QUEUE_FIXED => 0
       | ODPH_RING_QUEUE_VARIABLE => s32 n
       end.

(** How many entries an operation that asks for [n] out of [avail] moves, or
    the value it returns at once. *)
Definition actual_entries (n avail err : Z) (behavior : odph_ring_queue_behavior) : Z + Z :=
  if n >? avail then
    match behavior with
    | ODPH_RING_QUEUE_FIXED => inr (- err)
    | ODPH_RING_QUEUE_VARIABLE => if avail =? 0 then inr 0 else inl avail
    end
  else inl n.

Definition sp_do_enqueue (r : odph_ring_t) (obj_table : list Z) (n : Z)
    (behavior : odph_ring_queue_behavior) : option (odph_ring_t * Z) :=
  let mask := p_mask (r_prod r) in
  let prod_head := p_head (r_prod r) in
  let cons_tail := c_tail (r_cons r) in
  let free_entries := mask +u32 cons_tail -u32 prod_head in
  match actual_entries n free_entries ENOBUFS behavior with
  | inr ret => Some (r, ret)
  | inl n =>
      let prod_next := prod_head +u32 n in
      let r := with_prod (set_p_head prod_next) r in
      ring ← ENQUEUE_PTRS (r_ring r) obj_table (p_size (r_prod r)) mask prod_head n;
      let r := with_ring ring r in
      let ret := enqueue_ret r free_entries n behavior in
      Some (with_prod (set_p_tail prod_next) r, ret)
  end.

(** The caller's [obj_table] is returned with the objects written to it. *)
Definition sc_do_dequeue (r : odph_ring_t) (obj_table : list Z) (n : Z)
    (behavior : odph_ring_queue_behavior) : option (odph_ring_t * list Z * Z) :=
  let mask := p_mask (r_prod r) in
  let cons_head := c_head (r_cons r) in
  let prod_tail := p_tail (r_prod r) in
  let entries := prod_tail -u32 cons_head in
  match actual_entries n entries ENOENT behavior with
  | inr ret => Some (r, obj_table, ret)
  | inl n =>
      let cons_next := cons_head +u32 n in
      let r := with_cons (set_c_head cons_next) r in
      obj_table ← DEQUEUE_PTRS obj_table (r_ring r) (c_size (r_cons r)) mask cons_head n;
      Some (with_cons (set_c_tail cons_next) r, obj_table,
            match behavior with
            | ODPH_RING_QUEUE_FIXED => 0
            | ODPH_RING_QUEUE_VARIABLE => s32 n
            end)
  end.

Definition odph_ring_sp_enqueue_bulk (r : odph_ring_t) (obj_table : list Z) (n : Z) :=
  sp_do_enqueue r obj_table n ODPH_RING_QUEUE_FIXED.
Definition odph_ring_sp_enqueue_burst (r : odph_ring_t) (obj_table : list Z) (n : Z) :=
  sp_do_enqueue r obj_table n ODPH_RING_QUEUE_VARIABLE.
Definition odph_ring_sc_dequeue_bulk (r : odph_ring_t) (obj_table : list Z) (n : Z) :=
  sc_do_dequeue r obj_table n ODPH_RING_QUEUE_FIXED.
Definition odph_ring_sc_dequeue_burst (r : odph_ring_t) (obj_table : list Z) (n : Z) :=
  sc_do_dequeue r obj_table n ODPH_RING_QUEUE_VARIABLE.

Definition odph_ring_full (r : odph_ring_t) : bool :=
  Z.land (c_tail (r_cons r) -u32 p_tail (r_prod r) -u32 1) (p_mask (r_prod r)) =? 0.
Definition odph_ring_empty (r : odph_ring_t) : bool :=
  c_tail (r_cons r) =? p_tail (r_prod r).
Definition odph_ring_count (r : odph_ring_t) : Z :=
  Z.land (p_tail (r_prod r) -u32 c_tail (r_cons r)) (p_mask (r_prod r)).
Definition odph_ring_free_count (r : odph_ring_t) : Z :=
  Z.land (c_tail (r_cons r) -u32 p_tail (r_prod r) -u32 1) (p_mask (r_prod r)).

(** * The list of named rings *)

(** Rings live in shared memory at an address; [odp_ring_list] links them. *)
Record ring_env := Mk_env {
  env_mem : gmap Z odph_ring_t;
  odp_ring_list : list Z
}.

Definition odph_ring_tailq_init (e : ring_env) : ring_env := Mk_env (env_mem e) [].

(** [shm] stands for [odp_shm_reserve] followed by [odp_shm_addr]: given the
    name and the size it returns no block (NULL), or an address and what the
    ring array of the block holds. *)
Definition odph_ring_create (shm : string -> Z -> option (Z * list Z))
    (sizeof_ring : Z) (e : ring_env) (name : string) (count flags : Z)
    : ring_env * option Z :=
  if negb (RING_VAL_IS_POWER_2 count) || (count >? ODPH_RING_SZ_MASK) then (e, None)
  else
    let ring_name := String.substring 0 (Z.to_nat (ODPH_RING_NAMESIZE - 1)) name in
    let ring_size := count * 8 + sizeof_ring in
    match shm ring_name ring_size with
    | Some (r, mem) =>
        (Mk_env (<[r := ring_init name count flags mem]> (env_mem e))
                (odp_ring_list e ++ [r]), Some r)
    | None => (e, None)
    end.

(** [strncmp(a, b, n) == 0] on NUL-terminated strings. *)
Definition strncmp_eq (a b : string) (n : nat) : bool :=
  bool_decide (take n (String.list_ascii_of_string a ++ [Ascii.zero]) =
               take n (String.list_ascii_of_string b ++ [Ascii.zero])).

Definition odph_ring_lookup (e : ring_env) (name : string) : option Z :=
  List.find (fun r => match env_mem e !! r with
                      | Some d => strncmp_eq name (r_name d) (Z.to_nat ODPH_RING_NAMESIZE)
                      | None => false
                      end) (odp_ring_list e).

(** * The copy loops move one contiguous block *)

Lemma copy_one_spec dst src d s :
  0 <= d < zlen dst -> 0 <= s < zlen src ->
  exists dst', copy_one dst src d s = Some dst' /\ zlen dst' = zlen dst /\
    forall j, zget dst' j = if bool_decide (d = j) then zget src s else zget dst j.
Proof.
  intros Hd Hs. unfold copy_one.
  destruct (zget_Some src s Hs) as [x Hx]. rewrite Hx. simpl.
  rewrite (zset_Some dst d x Hd). eexists. split_and!; [done| |].
  - unfold zlen. by rewrite length_insert.
  - intros j. by rewrite (zget_zset dst _ d j x (zset_Some dst d x Hd)).
Qed.

Lemma copy_n_spec k dst src d s :
  0 <= d -> d + Z.of_nat k <= zlen dst -> 0 <= s -> s + Z.of_nat k <= zlen src ->
  exists dst', copy_n k dst src d s = Some dst' /\ zlen dst' = zlen dst /\
    forall j, zget dst' j =
      if bool_decide (d <= j < d + Z.of_nat k) then zget src (s + (j - d)) else zget dst j.
Proof.
  revert dst d s. induction k as [|k IH]; intros dst d s Hd Hdk Hs Hsk.
  - exists dst. split_and!; [done..|]. intros j. by rewrite bool_decide_eq_false_2 by lia.
  - destruct (copy_one_spec dst src d s) as (dst1 & H1 & Hl1 & Hg1); [lia..|].
    destruct (IH dst1 (d + 1) (s + 1)) as (dst2 & H2 & Hl2 & Hg2); [lia..|].
    exists dst2. simpl. rewrite H1. simpl. split_and!; [done|lia|].
    intros j. rewrite Hg2, Hg1. repeat case_bool_decide; try lia; try done.
    + f_equal. lia.
    + f_equal. lia.
Qed.

Lemma copy_n_app a b dst src d s :
  copy_n (a + b) dst src d s =
  (dst' ← copy_n a dst src d s; copy_n b dst' src (d + Z.of_nat a) (s + Z.of_nat a)).
Proof.
  revert dst d s. induction a as [|a IH]; intros dst d s.
  - simpl. f_equal; lia.
  - simpl. destruct (copy_one dst src d s) as [dst'|]; [|done]. simpl. rewrite IH.
    destruct (copy_n a dst' src (d + 1) (s + 1)); simpl; [|done]. f_equal; lia.
Qed.

Lemma copy_by4_eq k dst src d s :
  copy_by4 k dst src d s =
  (dst' ← copy_n (4 * k) dst src d s;
   Some (dst', d + 4 * Z.of_nat k, s + 4 * Z.of_nat k)).
Proof.
  revert dst d s. induction k as [|k IH]; intros dst d s.
  - simpl. by rewrite !Z.add_0_r.
  - replace (4 * S k)%nat with (4 + 4 * k)%nat by lia. rewrite copy_n_app.
    remember (4 * k)%nat as m eqn:Hm. cbn [copy_by4 copy_n].
    replace (d + 1 + 1) with (d + 2) by lia. replace (s + 1 + 1) with (s + 2) by lia.
    replace (d + 2 + 1) with (d + 3) by lia. replace (s + 2 + 1) with (s + 3) by lia.
    destruct (copy_one dst src d s) as [dst1|]; [|done]. simpl.
    destruct (copy_one dst1 src (d + 1) (s + 1)) as [dst2|]; [|done]. simpl.
    destruct (copy_one dst2 src (d + 2) (s + 2)) as [dst3|]; [|done]. simpl.
    destruct (copy_one dst3 src (d + 3) (s + 3)) as [dst4|]; [|done]. simpl.
    rewrite IH. change (Z.of_nat 4) with 4.
    destruct (copy_n m dst4 src (d + 4) (s + 4)); simpl; [|done].
    do 2 f_equal; [f_equal|]; lia.
Qed.

(** The unrolled loop and the [switch] after it copy exactly [n] objects. *)
Lemma by4_remainder n :
  is_u32 n -> (4 * by4_iterations n + Z.to_nat (Z.land n 3))%nat = Z.to_nat n.
Proof.
  intros Hn. unfold by4_iterations.
  change 0xfffffffc with (2 ^ 32 - 2 ^ 2). rewrite land_high_mask by (unfold is_u32 in *; lia).
  change 3 with (2 ^ 2 - 1). rewrite land_pow2_mask by lia. change (2 ^ 2) with 4.
  cint.
Qed.

Lemma copy_fast_eq n dst src d s :
  is_u32 n ->
  ('(dst', d', s') ← copy_by4 (by4_iterations n) dst src d s;
   copy_n (Z.to_nat (Z.land n 3)) dst' src d' s') = copy_n (Z.to_nat n) dst src d s.
Proof.
  intros Hn. rewrite <- (by4_remainder n Hn), copy_n_app, copy_by4_eq.
  destruct (copy_n (4 * by4_iterations n) dst src d s); [|done].
  simpl. f_equal; lia.
Qed.

(** * Ring slots *)

(** The [n] objects stored from free-running index [start] on. *)
Definition slots (ring : list Z) (mask start : Z) (n : nat) : list Z :=
  (fun i => default 0 (zget ring (Z.land (start + Z.of_nat i) mask))) <$> seq 0 n.

Lemma slots_length ring mask start n : length (slots ring mask start n) = n.
Proof. unfold slots. by rewrite length_fmap, length_seq. Qed.

Lemma slots_app ring mask start a b :
  slots ring mask start (a + b) =
  slots ring mask start a ++ slots ring mask (start + Z.of_nat a) b.
Proof.
  unfold slots. rewrite seq_app, fmap_app. f_equal.
  replace (seq (0 + a) b) with (Nat.add a <$> seq 0 b) by (rewrite fmap_add_seq; f_equal; lia).
  rewrite <- list_fmap_compose.
  apply list_fmap_ext. intros i x _. simpl. do 3 f_equal. lia.
Qed.

Lemma slots_ext ring ring' mask start start' n :
  (forall i, 0 <= i < Z.of_nat n ->
     zget ring (Z.land (start + i) mask) = zget ring' (Z.land (start' + i) mask)) ->
  slots ring mask start n = slots ring' mask start' n.
Proof.
  intros H. unfold slots. apply list_fmap_ext. intros i x Hx.
  apply lookup_seq in Hx. simpl. rewrite H by lia. done.
Qed.

Lemma slots_take ring mask start n src :
  (n <= length src)%nat ->
  (forall i, 0 <= i < Z.of_nat n -> zget ring (Z.land (start + i) mask) = zget src i) ->
  slots ring mask start n = take n src.
Proof.
  intros Hn H. apply list_eq. intros i. unfold slots. rewrite list_lookup_fmap.
  destruct (decide (i < n)%nat) as [Hi|Hi].
  - rewrite (proj2 (lookup_seq 0 n i (0 + i)%nat)) by lia. simpl.
    rewrite H by lia. rewrite zget_of_nat, lookup_take_lt by lia.
    destruct (lookup_lt_is_Some_2 src i) as [x ->]; [lia|done].
  - rewrite !lookup_ge_None_2; [done|rewrite length_take; lia|].
    rewrite length_seq. lia.
Qed.

(** Slot arithmetic modulo a power of two. *)
Lemma mod_slot_case a b m :
  0 < m -> 0 <= a < m ->
  (a - b) mod m = if bool_decide (b mod m <= a) then a - b mod m else a - b mod m + m.
Proof.
  intros Hm Ha. pose proof (Z.mod_pos_bound b m Hm).
  rewrite <- Zminus_mod_idemp_r. case_bool_decide.
  - apply Z.mod_small. lia.
  - rewrite <- (Z_mod_plus_full _ 1), Z.mul_1_l. apply Z.mod_small. lia.
Qed.

Lemma ENQUEUE_PTRS_spec ring obj k head n :
  0 <= k <= 27 -> zlen ring = 2 ^ k -> 0 <= n < 2 ^ k -> n <= zlen obj ->
  exists ring', ENQUEUE_PTRS ring obj (2 ^ k) (2 ^ k - 1) head n = Some ring' /\
    zlen ring' = 2 ^ k /\
    forall j, 0 <= j < 2 ^ k ->
      zget ring' j = if bool_decide ((j - head) mod 2 ^ k < n)
                     then zget obj ((j - head) mod 2 ^ k) else zget ring j.
Proof.
  intros Hk Hlen Hn Hobj. unfold ENQUEUE_PTRS. rewrite land_pow2_mask by lia.
  assert (2 ^ k <= 2 ^ 27) by (apply Z.pow_le_mono_r; lia).
  pose proof (Z.mod_pos_bound head (2 ^ k) ltac:(lia)) as Hidx.
  rewrite u32_small by (unfold is_u32; lia).
  destruct (_ <? _) eqn:E; zbool.
  - rewrite copy_fast_eq by (unfold is_u32; lia).
    destruct (copy_n_spec (Z.to_nat n) ring obj (head mod 2 ^ k) 0)
      as (r1 & H1 & Hl1 & Hg1); [lia..|].
    exists r1. split_and!; [done|lia|]. intros j Hj. rewrite Hg1, mod_slot_case by lia.
    repeat case_bool_decide; try lia; f_equal; lia.
  - destruct (copy_n_spec (Z.to_nat (2 ^ k - head mod 2 ^ k)) ring obj (head mod 2 ^ k) 0)
      as (r1 & H1 & Hl1 & Hg1); [lia..|].
    destruct (copy_n_spec (Z.to_nat (n - (2 ^ k - head mod 2 ^ k))) r1 obj 0
                (2 ^ k - head mod 2 ^ k)) as (r2 & H2 & Hl2 & Hg2); [lia..|].
    exists r2. rewrite H1. simpl. split_and!; [done|lia|].
    intros j Hj. rewrite Hg2, Hg1, mod_slot_case by lia.
    repeat case_bool_decide; try lia; f_equal; lia.
Qed.

Lemma DEQUEUE_PTRS_spec ring obj k head n :
  0 <= k <= 27 -> zlen ring = 2 ^ k -> 0 <= n < 2 ^ k -> n <= zlen obj ->
  exists obj', DEQUEUE_PTRS obj ring (2 ^ k) (2 ^ k - 1) head n = Some obj' /\
    zlen obj' = zlen obj /\
    forall i, zget obj' i = if bool_decide (0 <= i < n)
                            then zget ring ((head + i) mod 2 ^ k) else zget obj i.
Proof.
  intros Hk Hlen Hn Hobj. unfold DEQUEUE_PTRS. rewrite land_pow2_mask by lia.
  assert (2 ^ k <= 2 ^ 27) by (apply Z.pow_le_mono_r; lia).
  pose proof (Z.mod_pos_bound head (2 ^ k) ltac:(lia)) as Hidx.
  assert (forall i, 0 <= i < n -> (head + i) mod 2 ^ k =
            if bool_decide (head mod 2 ^ k + i < 2 ^ k) then head mod 2 ^ k + i
            else head mod 2 ^ k + i - 2 ^ k) as Hmod.
  { intros i Hi. rewrite <- Zplus_mod_idemp_l. case_bool_decide.
    - apply Z.mod_small. lia.
    - rewrite <- (Z_mod_plus_full _ (-1)). rewrite Z.mod_small; lia. }
  rewrite u32_small by (unfold is_u32; lia).
  destruct (_ <? _) eqn:E; zbool.
  - rewrite copy_fast_eq by (unfold is_u32; lia).
    destruct (copy_n_spec (Z.to_nat n) obj ring 0 (head mod 2 ^ k))
      as (o1 & H1 & Hl1 & Hg1); [lia..|].
    exists o1. split_and!; [done|lia|]. intros j. rewrite Hg1.
    repeat case_bool_decide; try lia; [|done]. rewrite Hmod by lia.
    rewrite bool_decide_eq_true_2 by lia. f_equal. lia.
  - destruct (copy_n_spec (Z.to_nat (2 ^ k - head mod 2 ^ k)) obj ring 0 (head mod 2 ^ k))
      as (o1 & H1 & Hl1 & Hg1); [lia..|].
    destruct (copy_n_spec (Z.to_nat (n - (2 ^ k - head mod 2 ^ k))) o1 ring
                (2 ^ k - head mod 2 ^ k) 0) as (o2 & H2 & Hl2 & Hg2); [lia..|].
    exists o2. rewrite H1. simpl. split_and!; [done|lia|].
    intros j. rewrite Hg2, Hg1.
    repeat case_bool_decide; try lia; try done; rewrite Hmod by lia;
      [rewrite bool_decide_eq_false_2 by lia|rewrite bool_decide_eq_true_2 by lia];
      f_equal; lia.
Qed.

(** * Well-formed rings and their contents *)

(** The geometry [odph_ring_create] fixes. *)
Definition ring_geom (r : odph_ring_t) (k : Z) : Prop :=
  0 <= k <= 27 /\ p_size (r_prod r) = 2 ^ k /\ c_size (r_cons r) = 2 ^ k /\
  p_mask (r_prod r) = 2 ^ k - 1 /\ c_mask (r_cons r) = 2 ^ k - 1 /\
  zlen (r_ring r) = 2 ^ k /\ 1 <= p_watermark (r_prod r) <= 2 ^ k.

(** Number of stored objects: the distance of the tails modulo 2^32. *)
Definition ring_used (r : odph_ring_t) : Z := p_tail (r_prod r) -u32 c_tail (r_cons r).

(** A ring no operation is in progress on. *)
Definition ring_wf (r : odph_ring_t) : Prop :=
  (exists k, ring_geom r k) /\ ring_used r <= p_mask (r_prod r) /\
  is_u32 (p_head (r_prod r)) /\ is_u32 (c_head (r_cons r)) /\
  p_tail (r_prod r) = p_head (r_prod r) /\ c_tail (r_cons r) = c_head (r_cons r).

Definition contents (r : odph_ring_t) : list Z :=
  slots (r_ring r) (p_mask (r_prod r)) (c_tail (r_cons r)) (Z.to_nat (ring_used r)).

(** * The bounded queue a ring implements *)

(** [cap] objects at most, a water mark, the stored objects oldest first. As
    helper/include/odp/helper/ring.h documents it, an enqueue reports that the
    quota is exceeded when more objects than the mark are stored; a mark equal
    to the capacity is never exceeded. *)
Record bqueue := Bqueue { bq_cap : Z; bq_wm : Z; bq_objs : list Z }.

Definition bq_of (r : odph_ring_t) : bqueue :=
  Bqueue (p_mask (r_prod r)) (p_watermark (r_prod r) - 1) (contents r).

Definition bq_enqueue (q : bqueue) (objs : list Z) (n : Z)
    (b : odph_ring_queue_behavior) : bqueue * Z :=
  let free := bq_cap q - zlen (bq_objs q) in
  match actual_entries n free ENOBUFS b with
  | inr ret => (q, ret)
  | inl m =>
      (Bqueue (bq_cap q) (bq_wm q) (bq_objs q ++ take (Z.to_nat m) objs),
       if zlen (bq_objs q) + m >? bq_wm q
       then match b with
            | ODPH_RING_QUEUE_FIXED => - EDQUOT
            | ODPH_RING_QUEUE_VARIABLE => m - 2 ^ 31
            end
       else match b with ODPH_RING_QUEUE_FIXED => 0 | ODPH_RING_QUEUE_VARIABLE => m end)
  end.

Definition bq_dequeue (q : bqueue) (n : Z) (b : odph_ring_queue_behavior)
    : bqueue * list Z * Z :=
  match actual_entries n (zlen (bq_objs q)) ENOENT b with
  | inr ret => (q, [], ret)
  | inl m =>
      (Bqueue (bq_cap q) (bq_wm q) (drop (Z.to_nat m) (bq_objs q)),
       take (Z.to_nat m) (bq_objs q),
       match b with ODPH_RING_QUEUE_FIXED => 0 | ODPH_RING_QUEUE_VARIABLE => m end)
  end.

(** * Refinement *)

Lemma actual_entries_inl n avail err b m :
  0 <= n -> 0 <= avail -> actual_entries n avail err b = inl m -> m = Z.min n avail.
Proof.
  unfold actual_entries. intros Hn Ha H.
  destruct (n >? avail) eqn:E; zbool.
  - destruct b; [done|]. destruct (avail =? 0); [done|]. simplify_eq. lia.
  - simplify_eq. lia.
Qed.

Lemma contents_len r : zlen (contents r) = ring_used r.
Proof.
  unfold contents, zlen. rewrite slots_length.
  pose proof (u32_bound (p_tail (r_prod r) - c_tail (r_cons r))) as H.
  unfold ring_used, is_u32 in *. lia.
Qed.

(** [prod_tail - cons_tail] after the producer index moved by [n]. *)
Lemma used_after_add p c n :
  0 <= n -> (p -u32 c) + n < 2 ^ 32 -> (p +u32 n) -u32 c = (p -u32 c) + n.
Proof. intros Hn H. cint. Qed.

Lemma used_after_sub p c n :
  0 <= n <= (p -u32 c) -> p -u32 (c +u32 n) = (p -u32 c) - n.
Proof. intros Hn. cint. Qed.

Lemma free_entries_eq k p c :
  0 <= k <= 27 -> (p -u32 c) <= 2 ^ k - 1 ->
  (2 ^ k - 1) +u32 c -u32 p = (2 ^ k - 1) - (p -u32 c).
Proof.
  intros Hk H. assert (2 ^ k <= 2 ^ 27) by (apply Z.pow_le_mono_r; lia).
  assert (0 < 2 ^ k) by lia. revert H. generalize dependent (2 ^ k). intros s Hs Hs' H.
  change (2 ^ 27) with 134217728 in *. cint.
Qed.

Lemma mod_pow2_u32 x k : 0 <= k <= 27 -> u32 x mod 2 ^ k = x mod 2 ^ k.
Proof. intros. unfold u32, wrap. apply mod_pow2_le. lia. Qed.

Lemma enqueue_slots ring ring' obj k c u n :
  0 <= k <= 27 -> 0 <= u -> 0 <= n -> u + n < 2 ^ k -> n <= zlen obj ->
  (forall j, 0 <= j < 2 ^ k ->
      zget ring' j = if bool_decide ((j - (c + u)) mod 2 ^ k < n)
                     then zget obj ((j - (c + u)) mod 2 ^ k) else zget ring j) ->
  slots ring' (2 ^ k - 1) c (Z.to_nat (u + n)) =
  slots ring (2 ^ k - 1) c (Z.to_nat u) ++ take (Z.to_nat n) obj.
Proof.
  intros Hk Hu Hn Hun Hobj Hg. rewrite Z2Nat.inj_add, slots_app by lia.
  assert (forall i, 0 <= i < u + n ->
            ((c + i) mod 2 ^ k - (c + u)) mod 2 ^ k =
            if bool_decide (i < u) then i - u + 2 ^ k else i - u) as Hm.
  { intros i Hi. rewrite Zminus_mod_idemp_l.
    replace (c + i - (c + u)) with (i - u) by lia. case_bool_decide.
    - rewrite <- (Z_mod_plus_full _ 1), Z.mul_1_l. apply Z.mod_small. lia.
    - apply Z.mod_small. lia. }
  f_equal.
  - apply slots_ext. intros i Hi. rewrite land_pow2_mask by lia.
    rewrite Hg by (apply Z.mod_pos_bound; lia). rewrite Hm by lia.
    rewrite bool_decide_eq_false_2; [done|]. rewrite bool_decide_eq_true_2 by lia. lia.
  - apply slots_take; [unfold zlen in *; lia|]. intros i Hi.
    rewrite land_pow2_mask by lia. rewrite Hg by (apply Z.mod_pos_bound; lia).
    rewrite <- Z.add_assoc, Hm by lia. rewrite (bool_decide_eq_false_2 (_ < u)) by lia.
    rewrite bool_decide_eq_true_2 by lia. f_equal. lia.
Qed.

Lemma lor_quot_exceed n : 0 <= n < 2 ^ 31 -> s32 (Z.lor n ODPH_RING_QUOT_EXCEED) = n - 2 ^ 31.
Proof.
  intros Hn. unfold ODPH_RING_QUOT_EXCEED.
  pose proof (lor_disjoint n 1 31 ltac:(lia) Hn) as H. rewrite Z.mul_1_l in H.
  rewrite H. cint.
Qed.

(** The slot after the stored objects is the producer's. *)
Lemma head_slot r k j :
  0 <= k <= 27 -> p_tail (r_prod r) = p_head (r_prod r) ->
  (j - p_head (r_prod r)) mod 2 ^ k = (j - (c_tail (r_cons r) + ring_used r)) mod 2 ^ k.
Proof.
  intros Hk Hpt. rewrite <- Hpt, <- (Zminus_mod_idemp_r _ (_ + _)), <- Zminus_mod_idemp_r.
  do 2 f_equal. rewrite <- (Zplus_mod_idemp_r (ring_used r)). unfold ring_used.
  rewrite mod_pow2_u32, Zplus_mod_idemp_r by lia. f_equal. lia.
Qed.

Lemma enqueue_ret_eq r k u m b :
  0 <= k <= 27 -> p_mask (r_prod r) = 2 ^ k - 1 -> 0 <= u -> 0 <= m -> u + m <= 2 ^ k - 1 ->
  enqueue_ret r (2 ^ k - 1 - u) m b =
  if u + m >? p_watermark (r_prod r) - 1
  then match b with ODPH_RING_QUEUE_FIXED => - EDQUOT | ODPH_RING_QUEUE_VARIABLE => m - 2 ^ 31 end
  else match b with ODPH_RING_QUEUE_FIXED => 0 | ODPH_RING_QUEUE_VARIABLE => m end.
Proof.
  intros Hk Hpm Hu Hm Hum. assert (2 ^ k <= 2 ^ 27) by (apply Z.pow_le_mono_r; lia).
  unfold enqueue_ret. rewrite Hpm.
  replace (u32 (2 ^ k - 1 + 1)) with (2 ^ k) by (rewrite u32_small; unfold is_u32; lia).
  rewrite (u32_small (_ - _)) by (unfold is_u32; lia).
  rewrite u32_small by (unfold is_u32; lia).
  rewrite lor_quot_exceed by lia.
  replace (s32 m) with m by (unfold s32; rewrite Z.mod_small; lia).
  repeat if_case; lia || done.
Qed.

(** The single-producer enqueue performs no out-of-bounds access and
    implements the enqueue of the bounded queue, for every count and both
    behaviours, whatever the values the free-running indices have reached; the
    ring stays well formed. *)
Lemma sp_do_enqueue_refines (r : odph_ring_t) (objs : list Z) (n : Z)
    (b : odph_ring_queue_behavior) :
  ring_wf r -> is_u32 n -> n <= zlen objs ->
  exists r' ret, sp_do_enqueue r objs n b = Some (r', ret) /\ ring_wf r' /\
    (bq_of r', ret) = bq_enqueue (bq_of r) objs n b.
Proof.
  intros ([k Hgeom] & Hused & Hph & Hch & Hpt & Hct) Hn Hobjs.
  pose proof Hgeom as (Hk & Hps & Hcs & Hpm & Hcm & Hlen & Hwm).
  assert (0 < 2 ^ k <= 2 ^ 27) as Hpow by (split; [lia|apply Z.pow_le_mono_r; lia]).
  pose proof (contents_len r) as Hcl.
  assert (0 <= ring_used r < 2 ^ 32) as Hu32 by apply u32_bound.
  unfold sp_do_enqueue, bq_enqueue, bq_of. simpl. rewrite Hcl.
  assert (p_mask (r_prod r) +u32 c_tail (r_cons r) -u32 p_head (r_prod r) =
          p_mask (r_prod r) - ring_used r) as Hfree.
  { rewrite <- Hpt, Hpm. unfold ring_used in *. apply free_entries_eq; lia. }
  rewrite Hfree.
  destruct (actual_entries n _ ENOBUFS b) as [m|ret] eqn:Ha.
  2: { exists r, ret. split_and!; [done| |done]. split_and!; eauto. }
  apply actual_entries_inl in Ha; [|unfold is_u32 in Hn; lia..].
  assert (0 <= m) by (unfold is_u32 in Hn; lia).
  rewrite Hpm in Ha, Hused |- *. rewrite Hps.
  destruct (ENQUEUE_PTRS_spec (r_ring r) objs k (p_head (r_prod r)) m)
    as (ring' & Henq & Hlen' & Hget); [lia..|]. rewrite Henq. simpl.
  assert (p_tail (r_prod r) +u32 m -u32 c_tail (r_cons r) = ring_used r + m) as Hu'.
  { unfold ring_used in *. apply used_after_add; lia. }
  eexists _, _. split_and!; [done| |].
  - split_and!; simpl.
    + exists k. unfold ring_geom. simpl. rewrite Hpm. split_and!; done || lia.
    + unfold ring_used. simpl. rewrite <- Hpt, Hu'. rewrite Hpm. lia.
    + apply u32_bound.
    + done.
    + done.
    + done.
  - f_equal.
    + unfold contents, ring_used. simpl. rewrite Hpm, <- Hpt, Hu'.
      fold (ring_used r). f_equal.
      apply enqueue_slots; [lia..|]. intros j Hj. rewrite Hget by lia.
      by rewrite (head_slot r k j Hk Hpt).
    + rewrite (enqueue_ret_eq _ k) by (simpl; done || lia). done.
Qed.

Lemma dequeue_slots ring obj obj' k c m :
  0 <= k <= 27 -> 0 <= m <= zlen obj -> zlen ring = 2 ^ k -> zlen obj' = zlen obj ->
  (forall i, zget obj' i = if bool_decide (0 <= i < m)
                           then zget ring ((c + i) mod 2 ^ k) else zget obj i) ->
  obj' = slots ring (2 ^ k - 1) c (Z.to_nat m) ++ drop (Z.to_nat m) obj.
Proof.
  intros Hk Hm Hlen Hlen' Hg. apply list_eq. intros i.
  rewrite <- (zget_of_nat obj'), Hg. case_bool_decide as Hi.
  - rewrite lookup_app_l by (rewrite slots_length; lia). unfold slots.
    rewrite list_lookup_fmap, (proj2 (lookup_seq 0 _ i (0 + i)%nat)) by lia. simpl.
    rewrite land_pow2_mask by lia.
    destruct (zget_Some ring ((c + Z.of_nat i) mod 2 ^ k)) as [x ->]; [|done].
    rewrite Hlen. apply Z.mod_pos_bound. lia.
  - rewrite lookup_app_r, slots_length, lookup_drop, zget_of_nat
      by (rewrite slots_length; lia). f_equal. lia.
Qed.

(** Taking [m] of [u] objects leaves the [u - m] from the moved index on. *)
Lemma slots_split_head ring k h u m :
  0 <= k <= 27 -> 0 <= m <= u ->
  slots ring (2 ^ k - 1) h (Z.to_nat u) =
  slots ring (2 ^ k - 1) h (Z.to_nat m) ++
  slots ring (2 ^ k - 1) (h +u32 m) (Z.to_nat (u - m)).
Proof.
  intros Hk Hm.
  replace (Z.to_nat u) with (Z.to_nat m + Z.to_nat (u - m))%nat by lia.
  rewrite slots_app. f_equal. apply slots_ext. intros i Hi.
  rewrite !land_pow2_mask by lia. f_equal.
  rewrite <- (Zplus_mod_idemp_l (u32 _)), mod_pow2_u32, Zplus_mod_idemp_l by lia.
  f_equal. lia.
Qed.

(** The single-consumer dequeue performs no out-of-bounds access, writes
    the oldest objects to the front of the caller's table and leaves the rest
    of the table alone, and implements the dequeue of the bounded queue. *)
Lemma sc_do_dequeue_refines (r : odph_ring_t) (tbl : list Z) (n : Z)
    (b : odph_ring_queue_behavior) :
  ring_wf r -> is_u32 n -> n <= zlen tbl ->
  exists r' out ret,
    sc_do_dequeue r tbl n b = Some (r', out ++ drop (length out) tbl, ret) /\
    ring_wf r' /\ (bq_of r', out, ret) = bq_dequeue (bq_of r) n b.
Proof.
  intros ([k Hgeom] & Hused & Hph & Hch & Hpt & Hct) Hn Htbl.
  pose proof Hgeom as (Hk & Hps & Hcs & Hpm & Hcm & Hlen & Hwm).
  assert (0 < 2 ^ k <= 2 ^ 27) as Hpow by (split; [lia|apply Z.pow_le_mono_r; lia]).
  pose proof (contents_len r) as Hcl.
  assert (0 <= ring_used r < 2 ^ 32) as Hu32 by apply u32_bound.
  unfold sc_do_dequeue, bq_dequeue, bq_of. simpl. rewrite Hcl.
  replace (p_tail (r_prod r) -u32 c_head (r_cons r)) with (ring_used r)
    by (unfold ring_used; by rewrite Hct).
  destruct (actual_entries n _ ENOENT b) as [m|ret] eqn:Ha.
  2: { exists r, [], ret. split_and!; [done| |done]. split_and!; eauto. }
  apply actual_entries_inl in Ha; [|unfold is_u32 in Hn; lia..].
  assert (0 <= m) by (unfold is_u32 in Hn; lia).
  rewrite Hpm in Hused |- *. rewrite Hcs.
  destruct (DEQUEUE_PTRS_spec (r_ring r) tbl k (c_head (r_cons r)) m)
    as (tbl' & Hdeq & Hlen' & Hget); [lia..|]. rewrite Hdeq. simpl.
  rewrite (dequeue_slots (r_ring r) tbl tbl' k (c_head (r_cons r)) m) by (done || lia).
  assert (p_tail (r_prod r) -u32 (c_head (r_cons r) +u32 m) = ring_used r - m) as Hu'.
  { rewrite <- Hct. unfold ring_used in *. apply used_after_sub; lia. }
  pose proof (slots_split_head (r_ring r) k (c_head (r_cons r)) (ring_used r) m Hk ltac:(lia))
    as Hsplit.
  eexists _, (slots (r_ring r) (2 ^ k - 1) (c_head (r_cons r)) (Z.to_nat m)), _.
  rewrite slots_length. split_and!; [done| |].
  - split_and!; simpl; try done.
    + exists k. unfold ring_geom. simpl. split_and!; done || lia.
    + unfold ring_used. simpl. rewrite Hu', Hpm. lia.
    + apply u32_bound.
  - unfold contents, ring_used. simpl. rewrite Hpm, Hct, Hu'.
    rewrite <- Hct. fold (ring_used r). rewrite Hct, Hsplit.
    rewrite take_app_length', drop_app_length' by (by rewrite slots_length).
    do 2 f_equal. destruct b; [done|]. unfold s32. rewrite Z.mod_small; lia.
Qed.

(** * Water mark, status queries, creation *)

(** Setting the mark to [count], or disabling it with 0. With [d = 0] this is
    the documented operation, where exactly [count] objects do not exceed the
    mark; with [d = 1] the mark is one lower, as the ring applies it. *)
Definition bq_set_water_mark (d : Z) (q : bqueue) (count : Z) : bqueue * Z :=
  if count >? bq_cap q then (q, - EINVAL)
  else (Bqueue (bq_cap q) (if count =? 0 then bq_cap q else count - d) (bq_objs q), 0).

Lemma set_water_mark_refines r count :
  ring_wf r -> 0 <= count ->
  ring_wf (fst (odph_ring_set_water_mark r count)) /\
  (bq_of (fst (odph_ring_set_water_mark r count)), snd (odph_ring_set_water_mark r count)) =
  bq_set_water_mark 1 (bq_of r) count.
Proof.
  intros ([k Hgeom] & Hused & Hrest) Hc.
  pose proof Hgeom as (Hk & Hps & Hcs & Hpm & Hcm & Hlen & Hwm).
  unfold odph_ring_set_water_mark, bq_set_water_mark. simpl. rewrite Hps, Hpm.
  destruct (count >=? 2 ^ k) eqn:E; zbool; simpl.
  - destruct (count >? 2 ^ k - 1) eqn:E2; zbool; [|lia]. split; [|done].
    split_and!; [eauto|by rewrite Hpm in *|apply Hrest..].
  - destruct (count >? 2 ^ k - 1) eqn:E2; zbool; [lia|]. split.
    + split_and!; simpl; try apply Hrest; [|done]. exists k. unfold ring_geom. simpl.
      destruct (count =? 0) eqn:E0; zbool; split_and!; done || lia.
    + unfold bq_of, contents, ring_used. simpl. rewrite Hpm.
      do 2 f_equal. destruct (count =? 0); simpl; lia.
Qed.

(** The four status queries report the state of the bounded queue: its
    length, the room left, and whether it is empty or full. *)
Theorem ring_status_correct (r : odph_ring_t) :
  ring_wf r ->
  odph_ring_count r = zlen (contents r) /\
  odph_ring_free_count r = p_mask (r_prod r) - zlen (contents r) /\
  odph_ring_empty r = bool_decide (contents r = []) /\
  odph_ring_full r = bool_decide (zlen (contents r) = p_mask (r_prod r)).
Proof.
  intros ([k (Hk & Hps & Hcs & Hpm & Hcm & Hlen & Hwm)] & Hused & Hph & Hch & Hpt & Hct).
  assert (0 < 2 ^ k <= 2 ^ 27) as Hpow by (split; [lia|apply Z.pow_le_mono_r; lia]).
  rewrite contents_len. rewrite Hpm in Hused |- *.
  assert (0 <= ring_used r) by apply u32_bound.
  unfold odph_ring_count, odph_ring_free_count, odph_ring_empty, odph_ring_full.
  fold (ring_used r). rewrite Hpm, !land_pow2_mask by lia.
  rewrite (Z.mod_small (ring_used r)) by lia.
  assert ((c_tail (r_cons r) -u32 p_tail (r_prod r) -u32 1) mod 2 ^ k =
          2 ^ k - 1 - ring_used r) as ->.
  { rewrite u32_sub_l, mod_pow2_u32 by lia.
    replace (c_tail (r_cons r) - p_tail (r_prod r) - 1) with
      (-1 - (p_tail (r_prod r) - c_tail (r_cons r))) by lia.
    rewrite <- Zminus_mod_idemp_r.
    rewrite <- (mod_pow2_u32 (p_tail (r_prod r) - c_tail (r_cons r)) k) by lia.
    fold (ring_used r).
    rewrite (Z.mod_small (ring_used r)), <- (Z_mod_plus_full _ 1) by lia.
    rewrite Z.mod_small; lia. }
  split_and!; [done|done| |].
  - assert ((c_tail (r_cons r) =? p_tail (r_prod r)) = (ring_used r =? 0)) as ->.
    { unfold ring_used. rewrite Hpt, Hct. unfold is_u32 in *.
      destruct (Z.eqb_spec (c_head (r_cons r)) (p_head (r_prod r))) as [->|Hne].
      - by rewrite Z.sub_diag.
      - symmetry. apply Z.eqb_neq. intros H0. apply Hne. symmetry.
        apply (u32_inj_small _ _); [|lia].
        revert H0. clear. intros. cint. }
    pose proof (contents_len r) as Hl. unfold zlen in Hl.
    case_bool_decide as Hc; [rewrite Hc in Hl; simpl in Hl; apply Z.eqb_eq; lia|].
    apply Z.eqb_neq. intros H0. apply Hc, nil_length_inv. lia.
  - case_bool_decide; [apply Z.eqb_eq|apply Z.eqb_neq]; lia.
Qed.

(** The creation check accepts exactly zero and the powers of two. *)
Lemma power_2_check x : 0 < x < 2 ^ 32 ->
  RING_VAL_IS_POWER_2 x = true <-> exists k, 0 <= k /\ x = 2 ^ k.
Proof.
  intros Hx. unfold RING_VAL_IS_POWER_2. rewrite u32_small by (unfold is_u32; lia).
  rewrite Z.eqb_eq. split.
  - intros H. exists (Z.log2 x). split; [apply Z.log2_nonneg|].
    pose proof (Z.log2_spec x ltac:(lia)) as [Hlo Hhi].
    destruct (decide (x = 2 ^ Z.log2 x)) as [|Hne]; [done|exfalso].
    assert (Z.testbit (Z.land (x - 1) x) (Z.log2 x) = true) as Ht.
    { rewrite Z.land_spec, (Z.bit_log2 x) by lia.
      assert (Z.log2 (x - 1) = Z.log2 x) as <- by (apply Z.log2_unique; [apply Z.log2_nonneg|lia]).
      assert (0 < 2 ^ Z.log2 x) by (apply Z.pow_pos_nonneg; [lia|apply Z.log2_nonneg]).
      rewrite Z.bit_log2; [done|]. lia. }
    rewrite H, Z.bits_0 in Ht. done.
  - intros (k & Hk & ->). rewrite Z.land_comm, land_pow2_mask by lia.
    by rewrite Z.mod_same by lia.
Qed.

(** Whatever name, flags and memory it is given, creation with a count in
    1 .. 0x0fffffff that passes the power-of-two check yields a well-formed
    empty ring with room for count - 1 objects and the water mark disabled. *)
Lemma ring_create_wf (name : string) (count flags : Z) (mem : list Z) :
  0 < count -> RING_VAL_IS_POWER_2 count = true -> (count >? ODPH_RING_SZ_MASK) = false ->
  zlen mem = count ->
  ring_wf (ring_init name count flags mem) /\
  bq_of (ring_init name count flags mem) = Bqueue (count - 1) (count - 1) [].
Proof.
  intros Hpos Hpow Hmax Hmem. zbool. unfold ODPH_RING_SZ_MASK in *.
  apply power_2_check in Hpow as (k & Hk & ->); [|lia].
  assert (k <= 27).
  { destruct (Z.le_gt_cases k 27); [done|].
    assert (2 ^ 28 <= 2 ^ k) by (apply Z.pow_le_mono_r; lia). lia. }
  assert (2 ^ k -u32 1 = 2 ^ k - 1) as Hm by (apply u32_small; unfold is_u32; lia).
  unfold ring_wf, bq_of, contents, ring_used. simpl. rewrite Hm.
  change (0 -u32 0) with 0. simpl. split; [|done].
  split_and!; try done; try lia; try (unfold is_u32; lia).
  exists k. unfold ring_geom. simpl. rewrite Hm. split_and!; done || lia.
Qed.

(** * Sequences of operations *)

Inductive ring_op :=
  | Op_enqueue (objs : list Z) (n : Z) (b : odph_ring_queue_behavior)
  | Op_dequeue (tbl : list Z) (n : Z) (b : odph_ring_queue_behavior)
  | Op_set_water_mark (count : Z).

(** The caller's obligations: counts are unsigned and no larger than the table. *)
Definition op_ok (o : ring_op) : Prop :=
  match o with
  | Op_enqueue objs n _ => is_u32 n /\ n <= zlen objs
  | Op_dequeue tbl n _ => is_u32 n /\ n <= zlen tbl
  | Op_set_water_mark count => is_u32 count
  end.

(** Run an operation; the result is the table afterwards (for a dequeue) and
    the return value. *)
Definition ring_exec (r : odph_ring_t) (o : ring_op) : option (odph_ring_t * (list Z * Z)) :=
  match o with
  | Op_enqueue objs n b =>
      '(r, ret) ← sp_do_enqueue r objs n b; Some (r, ([], ret))
  | Op_dequeue tbl n b =>
      '(r, tbl, ret) ← sc_do_dequeue r tbl n b; Some (r, (tbl, ret))
  | Op_set_water_mark count =>
      let '(r, ret) := odph_ring_set_water_mark r count in Some (r, ([], ret))
  end.

Definition bq_exec (d : Z) (q : bqueue) (o : ring_op) : bqueue * (list Z * Z) :=
  match o with
  | Op_enqueue objs n b => let '(q, ret) := bq_enqueue q objs n b in (q, ([], ret))
  | Op_dequeue tbl n b =>
      let '(q, out, ret) := bq_dequeue q n b in (q, (out ++ drop (length out) tbl, ret))
  | Op_set_water_mark count =>
      let '(q, ret) := bq_set_water_mark d q count in (q, ([], ret))
  end.

Fixpoint ring_run (r : odph_ring_t) (ops : list ring_op) : option (list (list Z * Z)) :=
  match ops with
  | [] => Some []
  | o :: ops =>
      '(r, res) ← ring_exec r o; rest ← ring_run r ops; Some (res :: rest)
  end.

Fixpoint bq_run (d : Z) (q : bqueue) (ops : list ring_op) : list (list Z * Z) :=
  match ops with
  | [] => []
  | o :: ops => let '(q, res) := bq_exec d q o in res :: bq_run d q ops
  end.

Lemma ring_exec_refines r o :
  ring_wf r -> op_ok o ->
  exists r', ring_exec r o = Some (r', snd (bq_exec 1 (bq_of r) o)) /\ ring_wf r' /\
             bq_of r' = fst (bq_exec 1 (bq_of r) o).
Proof.
  intros Hwf Hok. destruct o as [objs n b|tbl n b|count]; simpl in *.
  - destruct Hok as [Hn Hlen].
    destruct (sp_do_enqueue_refines r objs n b Hwf Hn Hlen) as (r' & ret & H & Hwf' & Hq).
    exists r'. rewrite H. simpl. by rewrite <- Hq.
  - destruct Hok as [Hn Hlen].
    destruct (sc_do_dequeue_refines r tbl n b Hwf Hn Hlen) as (r' & out & ret & H & Hwf' & Hq).
    exists r'. rewrite H. simpl. by rewrite <- Hq.
  - destruct (set_water_mark_refines r count Hwf) as [Hwf' Hq]; [unfold is_u32 in Hok; lia|].
    destruct (odph_ring_set_water_mark r count) as [r' ret]. simpl in *.
    exists r'. by rewrite <- Hq.
Qed.

Lemma ring_run_refines r ops :
  ring_wf r -> Forall op_ok ops -> ring_run r ops = Some (bq_run 1 (bq_of r) ops).
Proof.
  intros Hwf Hops. revert r Hwf. induction Hops as [|o ops Ho _ IH]; intros r Hwf; [done|].
  destruct (ring_exec_refines r o Hwf Ho) as (r' & H & Hwf' & Hq).
  simpl. rewrite H. simpl. rewrite (IH r' Hwf'), Hq. simpl.
  by destruct (bq_exec 1 (bq_of r) o).
Qed.

(** The operations that set no water mark (0 disables it). *)
Definition no_mark (o : ring_op) : Prop :=
  match o with Op_set_water_mark count => count = 0 | _ => True end.

(** Without a mark the documented queue and the one with marks one lower are
    the same. *)
Lemma bq_run_no_mark d d' q ops :
  Forall no_mark ops -> bq_run d q ops = bq_run d' q ops.
Proof.
  intros H. revert q. induction H as [|o ops Ho _ IH]; intros q; [done|]. cbn [bq_run].
  assert (bq_exec d q o = bq_exec d' q o) as ->.
  { destruct o as [| |c]; [done..|]. simpl in Ho. subst c. simpl.
    unfold bq_set_water_mark. simpl. done. }
  destruct (bq_exec d' q o) as [q' res]. by rewrite IH.
Qed.


Definition witness_ops : list ring_op :=
  [Op_enqueue [11; 12; 13; 14; 15] 5 ODPH_RING_QUEUE_FIXED;
   Op_enqueue [21; 22; 23] 3 ODPH_RING_QUEUE_VARIABLE;
   Op_dequeue [0; 0; 0; 0] 4 ODPH_RING_QUEUE_FIXED;
   Op_set_water_mark 2;
   Op_enqueue [31; 32; 33; 34; 35] 5 ODPH_RING_QUEUE_VARIABLE;
   Op_dequeue [9; 9; 9; 9; 9; 9; 9; 9; 9] 9 ODPH_RING_QUEUE_VARIABLE].


(** The water mark is reported as exceeded when it is reached: two objects on
    a ring with a mark of two, where the documented queue reports success
    (helper/ring.c:269 and :328 subtract the free entries from [mask + 1], while
    they are counted from [mask]). *)
Theorem water_mark_reached_not_exceeded :
  ring_run (ring_init "r" 8 3 (replicate 8 0))
    [Op_set_water_mark 2; Op_enqueue [11; 12] 2 ODPH_RING_QUEUE_FIXED] =
    Some [([], 0); ([], - EDQUOT)] /\
  bq_run 0 (Bqueue 7 7 [])
    [Op_set_water_mark 2; Op_enqueue [11; 12] 2 ODPH_RING_QUEUE_FIXED] =
    [([], 0); ([], 0)].
Proof. split; vm_compute; reflexivity. Qed.

Lemma ring_status_correct_witness :
  odph_ring_count (ring_init "r" 8 0 (replicate 8 0)) = 0.
Proof.
  destruct (ring_status_correct (ring_init "r" 8 0 (replicate 8 0))) as [H _]; [|exact H].
  apply ring_create_wf; [lia|reflexivity..].
Defined.

(** Creation accepts the size 0, which the documentation excludes, and the
    ring it makes lets a single object be enqueued outside its (empty) array. *)
Theorem ring_create_zero_overflows (shm : string -> Z -> option (Z * list Z))
    (sz : Z) (e : ring_env) (name : string) (flags addr : Z) (mem : list Z) (obj : Z) :
  shm (String.substring 0 31 name) sz = Some (addr, mem) -> zlen mem = 0 ->
  snd (odph_ring_create shm sz e name 0 flags) = Some addr /\
  sp_do_enqueue (ring_init name 0 flags mem) [obj] 1 ODPH_RING_QUEUE_FIXED = None.
Proof.
  intros Hshm Hmem. destruct mem; [|done]. unfold odph_ring_create.
  change (negb (RING_VAL_IS_POWER_2 0) || (0 >? ODPH_RING_SZ_MASK))%bool with false.
  cbv beta iota zeta. change (0 * 8 + sz) with sz.
  change (Z.to_nat (ODPH_RING_NAMESIZE - 1)) with 31%nat. by rewrite Hshm.
Qed.

Lemma ring_create_zero_overflows_witness :
  snd (odph_ring_create (fun _ _ => Some (4096, [])) 384 (Mk_env ∅ []) "z" 0 0) = Some 4096 /\
  sp_do_enqueue (ring_init "z" 0 0 []) [7] 1 ODPH_RING_QUEUE_FIXED = None.
Proof.
  apply (ring_create_zero_overflows (fun _ _ => Some (4096, [])) 384 (Mk_env ∅ []) "z" 0 4096);
    reflexivity.
Defined.

(** * Lookup by name *)

Lemma list_ascii_substring s n :
  String.list_ascii_of_string (String.substring 0 n s) =
  take n (String.list_ascii_of_string s).
Proof.
  revert n. induction s as [|a s IH]; intros [|n]; simpl; [done..|]. by rewrite IH.
Qed.

(** A name matches its own truncation to 31 characters only when nothing was
    truncated. *)
Lemma strncmp_truncated s :
  Ascii.zero ∉ String.list_ascii_of_string s ->
  strncmp_eq s (String.substring 0 31 s) 32 =
  bool_decide (length (String.list_ascii_of_string s) < 32)%nat.
Proof.
  intros Hz. unfold strncmp_eq. rewrite list_ascii_substring.
  generalize dependent (String.list_ascii_of_string s). intros l Hz.
  apply bool_decide_ext. split.
  - intros H. destruct (decide (length l < 32)%nat) as [|Hge]; [done|].
    exfalso. apply (f_equal (fun l => l !! 31%nat)) in H.
    rewrite !lookup_take_lt, lookup_app_l in H by lia.
    rewrite lookup_app_r in H by (rewrite length_take; lia).
    rewrite length_take, Nat.min_l in H by lia. simpl in H.
    apply Hz, list_elem_of_lookup. eauto.
  - intros H. by rewrite (take_ge l) by lia.
Qed.

(** A ring that [odph_ring_create] returned is found by
    [odph_ring_lookup] under its name when the name has at most 31 characters
    and no earlier ring in the list matches it, and is not found under its own
    name when the name is longer. *)
Theorem ring_create_lookup (shm : string -> Z -> option (Z * list Z)) (sz : Z)
    (e e' : ring_env) (name : string) (count flags r : Z) :
  Ascii.zero ∉ String.list_ascii_of_string name ->
  odph_ring_lookup e name = None -> r ∉ odp_ring_list e ->
  odph_ring_create shm sz e name count flags = (e', Some r) ->
  odph_ring_lookup e' name =
  if bool_decide (length (String.list_ascii_of_string name) < 32)%nat then Some r else None.
Proof.
  intros Hz Hnone Hfresh Hcreate. unfold odph_ring_create in Hcreate.
  destruct (negb _ || _)%bool; [done|].
  destruct (shm _ _) as [[addr mem]|]; [|done]. simplify_eq.
  unfold odph_ring_lookup in *. simpl. rewrite find_app.
  rewrite (find_ext_in _ (fun r0 => match env_mem e !! r0 with
                        | Some d => strncmp_eq name (r_name d) (Z.to_nat ODPH_RING_NAMESIZE)
                        | None => false end) (odp_ring_list e)).
  2: { intros x Hx. rewrite lookup_insert_ne; [done|set_solver]. }
  rewrite Hnone. simpl. rewrite lookup_insert_eq. simpl.
  change (Z.to_nat (ODPH_RING_NAMESIZE - 1)) with 31%nat.
  change (Z.to_nat ODPH_RING_NAMESIZE) with 32%nat.
  by rewrite strncmp_truncated.
Qed.

Lemma ring_create_lookup_witness :
  odph_ring_lookup (Mk_env {[64 := ring_init "rx" 2 0 [0; 0]]} [64]) "rx" = Some 64 /\
  odph_ring_lookup
    (Mk_env {[64 := ring_init "a-name-of-thirty-three-characters" 2 0 [0; 0]]} [64])
    "a-name-of-thirty-three-characters" = None.
Proof.
  split.
  - refine (ring_create_lookup (fun _ _ => Some (64, [0; 0])) 384 (Mk_env ∅ []) _ "rx" 2 0 64
              _ _ _ _); [apply (bool_decide_unpack _); reflexivity|reflexivity| |reflexivity].
    apply not_elem_of_nil.
  - refine (ring_create_lookup (fun _ _ => Some (64, [0; 0])) 384 (Mk_env ∅ []) _
              "a-name-of-thirty-three-characters" 2 0 64
              _ _ _ _); [apply (bool_decide_unpack _); reflexivity|reflexivity| |reflexivity].
    apply not_elem_of_nil.
Defined.

End Ring.
