(* ===== verification/RingConc.v ===== *)
(** The multi-producer and multi-consumer paths of [helper/ring.c] as an
    interleaving of threads.

    A thread runs one [__odph_ring_mp_do_enqueue] or
    [__odph_ring_mc_do_dequeue]; every access to the shared ring structure (a
    load, the compare-and-exchange, the store of one pointer) is one step, so
    that every interleaving of the accesses is an execution.  Memory is
    sequentially consistent: the fences of the code are no steps.  *)

From Stdlib Require Import Relation_Operators Wellfounded.
From S2P Require Import Prelude Ring.

Open Scope Z_scope.
Open Scope c_scope.

Module RingConc.
Import Ring.

(** Where a thread is.  The arguments are the locals the code keeps; [gh] is
    auxiliary: the value of the index before reduction modulo 2^32 at the time
    the thread loaded it.  It never influences a step. *)
Inductive pc :=
  | P_start (objs : list Z) (max : Z) (b : odph_ring_queue_behavior)
  | P_head (objs : list Z) (max : Z) (b : odph_ring_queue_behavior) (prod_head gh : Z)
  | P_cas (objs : list Z) (max : Z) (b : odph_ring_queue_behavior)
      (prod_head n free_entries gh : Z)
  | P_copy (objs : list Z) (b : odph_ring_queue_behavior)
      (prod_head n free_entries i gh : Z)
  | P_wait (objs : list Z) (prod_head n ret gh : Z)
  | P_publish (objs : list Z) (prod_head n ret gh : Z)
  | P_ret (objs : list Z) (n ret gh : Z)
  | P_fail (ret : Z)
  | C_start (max : Z) (b : odph_ring_queue_behavior)
  | C_head (max : Z) (b : odph_ring_queue_behavior) (cons_head gh : Z)
  | C_cas (max : Z) (b : odph_ring_queue_behavior) (cons_head n gh : Z)
  | C_copy (b : odph_ring_queue_behavior) (cons_head n gh : Z) (out : list Z)
  | C_wait (b : odph_ring_queue_behavior) (cons_head n gh : Z) (out : list Z)
  | C_publish (b : odph_ring_queue_behavior) (cons_head n gh : Z) (out : list Z)
  | C_ret (n ret gh : Z) (out : list Z)
  | C_fail (ret : Z).

(** The ring, the threads, and the auxiliary state: the unbounded counterparts
    of the four indices, the value they started from, and every object a
    producer has reserved a slot for, in slot order. *)
Record mstate := Mstate {
  m_ring : odph_ring_t;
  m_threads : gmap nat pc;
  g_base : Z;
  g_ph : Z;
  g_pt : Z;
  g_ch : Z;
  g_ct : Z;
  g_log : list Z
}.

Definition set_pc (t : nat) (p : pc) (s : mstate) : mstate :=
  Mstate (m_ring s) (<[t := p]> (m_threads s)) (g_base s)
    (g_ph s) (g_pt s) (g_ch s) (g_ct s) (g_log s).

(** One step of a producer thread. *)
Definition p_step (s : mstate) (t : nat) (p : pc) : option mstate :=
  let r := m_ring s in
  let mask := p_mask (r_prod r) in
  match p with
  | P_start objs max b => Some (set_pc t (P_head objs max b (p_head (r_prod r)) (g_ph s)) s)
  | P_head objs max b prod_head gh =>
      let free_entries := mask +u32 c_tail (r_cons r) -u32 prod_head in
      match actual_entries max free_entries ENOBUFS b with
      | inr ret => Some (set_pc t (P_fail ret) s)
      | inl n => Some (set_pc t (P_cas objs max b prod_head n free_entries gh) s)
      end
  | P_cas objs max b prod_head n free_entries gh =>
      if p_head (r_prod r) =? prod_head then
        Some (Mstate (with_prod (set_p_head (prod_head +u32 n)) r)
                (<[t := P_copy objs b prod_head n free_entries 0 gh]> (m_threads s))
                (g_base s) (g_ph s + n) (g_pt s) (g_ch s) (g_ct s)
                (g_log s ++ take (Z.to_nat n) objs))
      else Some (set_pc t (P_start objs max b) s)
  | P_copy objs b prod_head n free_entries i gh =>
      if i <? n then
        x ← zget objs i;
        ring ← zset (r_ring r) (Z.land (prod_head +u32 i) mask) x;
        Some (Mstate (with_ring ring r)
                (<[t := P_copy objs b prod_head n free_entries (i + 1) gh]> (m_threads s))
                (g_base s) (g_ph s) (g_pt s) (g_ch s) (g_ct s) (g_log s))
      else Some (set_pc t (P_wait objs prod_head n (enqueue_ret r free_entries n b) gh) s)
  | P_wait objs prod_head n ret gh =>
      if p_tail (r_prod r) =? prod_head
      then Some (set_pc t (P_publish objs prod_head n ret gh) s)
      else Some s
  | P_publish objs prod_head n ret gh =>
      Some (Mstate (with_prod (set_p_tail (prod_head +u32 n)) r)
              (<[t := P_ret objs n ret gh]> (m_threads s))
              (g_base s) (g_ph s) (gh + n) (g_ch s) (g_ct s) (g_log s))
  | _ => None
  end.

(** One step of a consumer thread. *)
Definition c_step (s : mstate) (t : nat) (p : pc) : option mstate :=
  let r := m_ring s in
  let mask := p_mask (r_prod r) in
  match p with
  | C_start max b => Some (set_pc t (C_head max b (c_head (r_cons r)) (g_ch s)) s)
  | C_head max b cons_head gh =>
      let entries := p_tail (r_prod r) -u32 cons_head in
      match actual_entries max entries ENOENT b with
      | inr ret => Some (set_pc t (C_fail ret) s)
      | inl n => Some (set_pc t (C_cas max b cons_head n gh) s)
      end
  | C_cas max b cons_head n gh =>
      if c_head (r_cons r) =? cons_head then
        Some (Mstate (with_cons (set_c_head (cons_head +u32 n)) r)
                (<[t := C_copy b cons_head n gh []]> (m_threads s))
                (g_base s) (g_ph s) (g_pt s) (g_ch s + n) (g_ct s) (g_log s))
      else Some (set_pc t (C_start max b) s)
  | C_copy b cons_head n gh out =>
      if zlen out <? n then
        x ← zget (r_ring r) (Z.land (cons_head +u32 zlen out) mask);
        Some (set_pc t (C_copy b cons_head n gh (out ++ [x])) s)
      else Some (set_pc t (C_wait b cons_head n gh out) s)
  | C_wait b cons_head n gh out =>
      if c_tail (r_cons r) =? cons_head
      then Some (set_pc t (C_publish b cons_head n gh out) s)
      else Some s
  | C_publish b cons_head n gh out =>
      Some (Mstate (with_cons (set_c_tail (cons_head +u32 n)) r)
              (<[t := C_ret n (match b with
                               | ODPH_RING_QUEUE_FIXED => 0
                               | ODPH_RING_QUEUE_VARIABLE => s32 n
                               end) gh out]> (m_threads s))
              (g_base s) (g_ph s) (g_pt s) (g_ch s) (gh + n) (g_log s))
  | _ => None
  end.

(** A step of thread [t]; [None] for a thread that has returned or that made
    an access outside the ring. *)
Definition step (s : mstate) (t : nat) : option mstate :=
  match m_threads s !! t with
  | Some p => match p_step s t p with Some s' => Some s' | None => c_step s t p end
  | None => None
  end.

Definition returned (p : pc) : bool :=
  match p with P_ret _ _ _ _ | P_fail _ | C_ret _ _ _ _ | C_fail _ => true | _ => false end.

(** * The invariant *)

(** Slots a thread has reserved: first index and number. *)
Definition p_range (p : pc) : option (Z * Z) :=
  match p with
  | P_copy _ _ _ n _ _ gh | P_wait _ _ n _ gh | P_publish _ _ n _ gh | P_ret _ n _ gh =>
      Some (gh, n)
  | _ => None
  end.

Definition c_range (p : pc) : option (Z * Z) :=
  match p with
  | C_copy _ _ n gh _ | C_wait _ _ n gh _ | C_publish _ _ n gh _ | C_ret n _ gh _ =>
      Some (gh, n)
  | _ => None
  end.

Definition disjoint_ranges (f : pc -> option (Z * Z)) (m : gmap nat pc) : Prop :=
  forall t1 t2 p1 p2 h1 n1 h2 n2, t1 <> t2 -> m !! t1 = Some p1 -> m !! t2 = Some p2 ->
    f p1 = Some (h1, n1) -> f p2 = Some (h2, n2) -> h1 + n1 <= h2 \/ h2 + n2 <= h1.

Definition covered (f : pc -> option (Z * Z)) (m : gmap nat pc) (lo hi : Z) : Prop :=
  forall a, lo <= a < hi ->
    exists t p h n, m !! t = Some p /\ f p = Some (h, n) /\ h <= a < h + n.

Section ranges.
Context (f : pc -> option (Z * Z)) (m : gmap nat pc).

Lemma disjoint_same t p p' : m !! t = Some p -> f p' = f p -> disjoint_ranges f m -> disjoint_ranges f (<[t := p']> m).
Proof.
  intros Ht Hf Hd t1 t2 p1 p2 h1 n1 h2 n2 Hne H1 H2 Hf1 Hf2.
  rewrite lookup_insert in H1, H2.
  repeat case_decide; simplify_eq.
  - apply (Hd t1 t2 p1 p h1 n1 h2 n2); congruence.
  - apply (Hd t1 t2 p p2 h1 n1 h2 n2); congruence.
  - by apply (Hd t1 t2 p1 p2).
Qed.

Lemma covered_same t p p' lo hi :
  m !! t = Some p -> f p' = f p -> covered f m lo hi -> covered f (<[t := p']> m) lo hi.
Proof.
  intros Ht Hf Hc a Ha. destruct (Hc a Ha) as (t1 & p1 & h & n & H1 & Hf1 & Hb).
  destruct (decide (t = t1)) as [<-|Hne].
  - exists t, p', h, n. rewrite lookup_insert_eq. simplify_eq. by rewrite Hf.
  - exists t1, p1, h, n. by rewrite lookup_insert_ne.
Qed.

Lemma disjoint_new t p' hi n :
  f p' = Some (hi, n) ->
  (forall t2 p2 h2 n2, m !! t2 = Some p2 -> f p2 = Some (h2, n2) -> h2 + n2 <= hi) ->
  disjoint_ranges f m -> disjoint_ranges f (<[t := p']> m).
Proof.
  intros Hf Hall Hd t1 t2 p1 p2 h1 n1 h2 n2 Hne H1 H2 Hf1 Hf2.
  rewrite lookup_insert in H1, H2. repeat case_decide; simplify_eq.
  - left. by eapply Hall.
  - right. by eapply Hall.
  - by apply (Hd t1 t2 p1 p2).
Qed.

Lemma covered_new t p p' lo hi n :
  m !! t = Some p -> f p = None -> f p' = Some (hi, n) ->
  covered f m lo hi -> covered f (<[t := p']> m) lo (hi + n).
Proof.
  intros Ht Hnone Hf Hc a Ha. destruct (decide (a < hi)) as [Hlt|Hge].
  - destruct (Hc a) as (t1 & p1 & h & n1 & H1 & Hf1 & Hb); [lia|].
    exists t1, p1, h, n1. rewrite lookup_insert_ne; [done|]. congruence.
  - exists t, p', hi, n. rewrite lookup_insert_eq. split_and!; done || lia.
Qed.
End ranges.

Section invariant.
Context (k : Z).

(** Slot [a] holds the object that was reserved for it. *)
Definition valid (s : mstate) (a : Z) : Prop :=
  zget (r_ring (m_ring s)) (a mod 2 ^ k) = zget (g_log s) (a - g_base s).

(** The objects reserved for the [n] slots from [a] on. *)
Definition seg (s : mstate) (a n : Z) : list Z :=
  take (Z.to_nat n) (drop (Z.to_nat (a - g_base s)) (g_log s)).

(** A producer that owns [n] slots from [gh] on and has filled [i] of them. *)
Definition p_owns (s : mstate) (objs : list Z) (prod_head n i gh : Z) : Prop :=
  prod_head = u32 gh /\ 1 <= n <= zlen objs /\ 0 <= i <= n /\
  g_pt s <= gh /\ gh + n <= g_ph s /\ seg s gh n = take (Z.to_nat n) objs /\
  forall a, gh <= a < gh + i -> valid s a.

Definition c_owns (s : mstate) (cons_head n gh : Z) (out : list Z) : Prop :=
  cons_head = u32 gh /\ 1 <= n /\ zlen out <= n /\
  g_ct s <= gh /\ gh + n <= g_ch s /\ out = seg s gh (zlen out).

(** What is known of a thread at each program point. *)
Definition pc_ok (s : mstate) (p : pc) : Prop :=
  match p with
  | P_start objs max _ => 1 <= max < 2 ^ 32 /\ max <= zlen objs
  | P_head objs max _ prod_head gh =>
      (1 <= max < 2 ^ 32 /\ max <= zlen objs) /\ prod_head = u32 gh /\ g_base s <= gh <= g_ph s
  | P_cas objs max _ prod_head n _ gh =>
      (1 <= max < 2 ^ 32 /\ max <= zlen objs) /\ prod_head = u32 gh /\ g_base s <= gh <= g_ph s /\
      1 <= n <= max /\ (gh = g_ph s -> gh + n <= g_ct s + (2 ^ k - 1))
  | P_copy objs _ prod_head n _ i gh => p_owns s objs prod_head n i gh
  | P_wait objs prod_head n _ gh => p_owns s objs prod_head n n gh
  | P_publish objs prod_head n _ gh => p_owns s objs prod_head n n gh /\ g_pt s = gh
  | P_ret objs n _ gh =>
      1 <= n <= zlen objs /\ g_base s <= gh /\ gh + n <= g_pt s /\
      seg s gh n = take (Z.to_nat n) objs
  | P_fail _ => True
  | C_start max _ => 1 <= max < 2 ^ 32
  | C_head max _ cons_head gh => 1 <= max < 2 ^ 32 /\ cons_head = u32 gh /\ g_base s <= gh <= g_ch s
  | C_cas max _ cons_head n gh =>
      1 <= max < 2 ^ 32 /\ cons_head = u32 gh /\ g_base s <= gh <= g_ch s /\
      1 <= n <= max /\ (gh = g_ch s -> gh + n <= g_pt s)
  | C_copy _ cons_head n gh out => c_owns s cons_head n gh out
  | C_wait _ cons_head n gh out => c_owns s cons_head n gh out /\ zlen out = n
  | C_publish _ cons_head n gh out =>
      (c_owns s cons_head n gh out /\ zlen out = n) /\ g_ct s = gh
  | C_ret n _ gh out =>
      1 <= n /\ g_base s <= gh /\ gh + n <= g_ct s /\ out = seg s gh n
  | C_fail _ => True
  end.

(** The ring and the auxiliary state agree. *)
Record shared_ok (s : mstate) : Prop := {
  so_geom : ring_geom (m_ring s) k;
  so_ph : p_head (r_prod (m_ring s)) = u32 (g_ph s);
  so_pt : p_tail (r_prod (m_ring s)) = u32 (g_pt s);
  so_ch : c_head (r_cons (m_ring s)) = u32 (g_ch s);
  so_ct : c_tail (r_cons (m_ring s)) = u32 (g_ct s);
  so_order : g_base s <= g_ct s <= g_ch s /\ g_ch s <= g_pt s <= g_ph s /\
             g_ph s <= g_ct s + (2 ^ k - 1);
  so_log : zlen (g_log s) = g_ph s - g_base s;
  so_slots : forall a, g_ct s <= a < g_pt s -> valid s a
}.

Record inv (s : mstate) : Prop := {
  inv_shared : shared_ok s;
  inv_pcs : forall t p, m_threads s !! t = Some p -> pc_ok s p;
  inv_pdisj : disjoint_ranges p_range (m_threads s);
  inv_cdisj : disjoint_ranges c_range (m_threads s);
  inv_pcover : covered p_range (m_threads s) (g_base s) (g_ph s);
  inv_ccover : covered c_range (m_threads s) (g_base s) (g_ch s)
}.

(** No thread is overtaken by 2^32 reservations between loading an index and
    its compare-and-exchange. *)
Definition window_ok (s : mstate) : Prop :=
  forall t p, m_threads s !! t = Some p ->
    match p with
    | P_head _ _ _ _ gh | P_cas _ _ _ _ _ _ gh => g_ph s - gh < 2 ^ 32
    | C_head _ _ _ gh | C_cas _ _ _ _ gh => g_ch s - gh < 2 ^ 32
    | _ => True
    end.

Lemma p_range_bound s p h n :
  pc_ok s p -> shared_ok s -> p_range p = Some (h, n) -> g_base s <= h /\ 1 <= n /\ h + n <= g_ph s.
Proof.
  intros Hok Hs Hr. destruct (so_order s Hs) as (? & ? & ?).
  destruct p; simplify_eq/=; unfold p_owns in *; lia.
Qed.

Lemma c_range_bound s p h n :
  pc_ok s p -> shared_ok s -> c_range p = Some (h, n) -> g_base s <= h /\ 1 <= n /\ h + n <= g_ch s.
Proof.
  intros Hok Hs Hr. destruct (so_order s Hs) as (? & ? & ?).
  destruct p; simplify_eq/=; unfold c_owns in *; lia.
Qed.

(** A step that only moves thread [t], keeping its ranges. *)
Lemma inv_set_pc s t p p' :
  inv s -> m_threads s !! t = Some p -> p_range p' = p_range p -> c_range p' = c_range p ->
  pc_ok s p' -> inv (set_pc t p' s).
Proof.
  intros [Hs Hpcs Hpd Hcd Hpc Hcc] Ht Hp Hc Hok. split; simpl.
  - by destruct Hs; split.
  - intros t2 p2 H2. rewrite lookup_insert in H2. case_decide; simplify_eq; [done|].
    exact (Hpcs t2 p2 H2).
  - by apply (disjoint_same _ _ _ p).
  - by apply (disjoint_same _ _ _ p).
  - by apply (covered_same _ _ _ p).
  - by apply (covered_same _ _ _ p).
Qed.

(** A step that also changes the shared state: the other threads must be
    unaffected by it. *)
Lemma inv_intro s s' t p p' :
  inv s -> m_threads s !! t = Some p -> m_threads s' = <[t := p']> (m_threads s) ->
  g_base s' = g_base s -> shared_ok s' -> pc_ok s' p' ->
  (forall t2 p2, t2 <> t -> m_threads s !! t2 = Some p2 -> pc_ok s p2 -> pc_ok s' p2) ->
  (p_range p' = p_range p /\ g_ph s' = g_ph s \/
   exists n, p_range p = None /\ p_range p' = Some (g_ph s, n) /\ g_ph s' = g_ph s + n) ->
  (c_range p' = c_range p /\ g_ch s' = g_ch s \/
   exists n, c_range p = None /\ c_range p' = Some (g_ch s, n) /\ g_ch s' = g_ch s + n) ->
  inv s'.
Proof.
  intros [Hs Hpcs Hpd Hcd Hpc Hcc] Ht Hth Hb Hs' Hok Hothers Hpr Hcr.
  split; [done|..]; rewrite Hth, ?Hb.
  - intros t2 p2 H2. rewrite lookup_insert in H2. case_decide; simplify_eq; [done|].
    apply (Hothers t2 p2); eauto.
  - destruct Hpr as [[Hpr _]|(n & _ & Hpr & _)]; [by apply (disjoint_same _ _ _ p)|].
    apply (disjoint_new _ _ t p' (g_ph s) n); [done| |done].
    intros t2 p2 h2 n2 H2 Hr2. apply (p_range_bound s p2 h2 n2); eauto.
  - destruct Hcr as [[Hcr _]|(n & _ & Hcr & _)]; [by apply (disjoint_same _ _ _ p)|].
    apply (disjoint_new _ _ t p' (g_ch s) n); [done| |done].
    intros t2 p2 h2 n2 H2 Hr2. apply (c_range_bound s p2 h2 n2); eauto.
  - destruct Hpr as [[Hpr ->]|(n & Hn & Hpr & ->)]; [by apply (covered_same _ _ _ p)|].
    by apply (covered_new _ _ _ p).
  - destruct Hcr as [[Hcr ->]|(n & Hn & Hcr & ->)]; [by apply (covered_same _ _ _ p)|].
    by apply (covered_new _ _ _ p).
Qed.

Lemma seg_append s s' x a n :
  g_base s' = g_base s -> g_log s' = g_log s ++ x -> g_base s <= a -> 0 <= n ->
  a + n <= g_base s + zlen (g_log s) -> seg s' a n = seg s a n.
Proof.
  intros Hb Hl Ha Hn Hlen. unfold seg, zlen in *. rewrite Hb, Hl.
  rewrite drop_app_le by lia. rewrite take_app_le; [done|]. rewrite length_drop. lia.
Qed.

Lemma valid_append s s' x a :
  g_base s' = g_base s -> g_log s' = g_log s ++ x -> r_ring (m_ring s') = r_ring (m_ring s) ->
  a < g_base s + zlen (g_log s) -> valid s a -> valid s' a.
Proof.
  intros Hb Hl Hr Ha. unfold valid, zget, zlen in *. rewrite Hb, Hl, Hr. intros ->.
  case_bool_decide; [|done]. rewrite lookup_app_l; [done|lia].
Qed.

(** What the other threads need from a step of one thread. *)
Record frame (s s' : mstate) (p : pc) : Prop := {
  fr_base : g_base s' = g_base s;
  fr_log : exists x, g_log s' = g_log s ++ x;
  fr_ph : g_ph s <= g_ph s';
  fr_pt : g_pt s <= g_pt s';
  fr_ch : g_ch s <= g_ch s';
  fr_ct : g_ct s <= g_ct s';
  fr_valid : forall h n a, p_range p = Some (h, n) -> g_pt s <= h -> h <= a < h + n ->
    valid s a -> valid s' a;
  fr_prod : forall h n, p_range p = Some (h, n) -> g_pt s <= h ->
    g_pt s' <= h /\ (g_pt s = h -> g_pt s' = h);
  fr_cons : forall h n, c_range p = Some (h, n) -> g_ct s <= h ->
    g_ct s' <= h /\ (g_ct s = h -> g_ct s' = h)
}.

Lemma p_owns_frame s s' p objs ph n i gh :
  shared_ok s -> frame s s' p -> p_range p = Some (gh, n) ->
  p_owns s objs ph n i gh -> p_owns s' objs ph n i gh.
Proof.
  intros Hs [Hb [x Hx] ? ? ? ? Hv Hp _] Hr (? & ? & ? & ? & ? & Hseg & Hval).
  destruct (so_order s Hs) as (? & ? & ?). pose proof (so_log s Hs).
  destruct (Hp _ _ Hr) as [? _]; [lia|].
  split_and!; try done; try lia.
  - rewrite (seg_append s s' x); [done..|lia|lia|lia].
  - intros a Ha. eapply Hv; [done|lia|lia|]. apply Hval. lia.
Qed.

Lemma c_owns_frame s s' p ch n gh out :
  shared_ok s -> frame s s' p -> c_range p = Some (gh, n) ->
  c_owns s ch n gh out -> c_owns s' ch n gh out.
Proof.
  intros Hs [Hb [x Hx] ? ? ? ? _ _ Hc] Hr (? & ? & ? & ? & ? & Hseg).
  destruct (so_order s Hs) as (? & ? & ?). pose proof (so_log s Hs).
  destruct (Hc _ _ Hr) as [? _]; [lia|].
  split_and!; try done; try lia.
  rewrite (seg_append s s' x); [done..|lia| |lia]. unfold zlen. lia.
Qed.

Lemma pc_ok_frame s s' p : shared_ok s -> frame s s' p -> pc_ok s p -> pc_ok s' p.
Proof.
  intros Hs Hfr Hok. pose proof Hfr as [Hb [x Hx] ? ? ? ? Hv Hp Hc].
  destruct (so_order s Hs) as (? & ? & ?). pose proof (so_log s Hs) as Hlog.
  destruct p; simpl in *.
  - done.
  - lia.
  - destruct Hok as (? & ? & ? & ? & Hroom). split_and!; lia.
  - by eapply p_owns_frame.
  - by eapply p_owns_frame.
  - destruct Hok as [Hown Hpt]. split; [by eapply p_owns_frame|].
    apply (Hp gh n); [done|lia|done].
  - destruct Hok as (? & ? & ? & Hseg). split_and!; try lia.
    rewrite (seg_append s s' x); [done..|lia|lia|lia].
  - done.
  - done.
  - lia.
  - destruct Hok as (? & ? & ? & ? & Hroom). split_and!; lia.
  - by eapply c_owns_frame.
  - destruct Hok as [Hown Hl]. split; [by eapply c_owns_frame|done].
  - destruct Hok as [[Hown Hl] Hct]. split; [split; [by eapply c_owns_frame|done]|].
    apply (Hc gh n); [done|lia|done].
  - destruct Hok as (? & ? & ? & Hseg). split_and!; try lia.
    rewrite (seg_append s s' x); [done..|lia|lia|lia].
  - done.
Qed.

Lemma inv_p_cas s t objs max b ph n free gh :
  inv s -> m_threads s !! t = Some (P_cas objs max b ph n free gh) ->
  g_ph s - gh < 2 ^ 32 -> p_head (r_prod (m_ring s)) = ph ->
  inv (Mstate (with_prod (set_p_head (ph +u32 n)) (m_ring s))
         (<[t := P_copy objs b ph n free 0 gh]> (m_threads s))
         (g_base s) (g_ph s + n) (g_pt s) (g_ch s) (g_ct s)
         (g_log s ++ take (Z.to_nat n) objs)).
Proof.
  intros Hinv Ht Hwin Hcas. pose proof (inv_shared s Hinv) as Hs.
  pose proof (inv_pcs s Hinv t _ Ht) as (Hmax & Hph & Hle & Hn & Hroom).
  pose proof Hs as [Hgeom Hsph Hspt Hsch Hsct Hord Hlog Hslots].
  assert (gh = g_ph s) as ->.
  { apply u32_inj_small; [congruence|lia]. }
  specialize (Hroom eq_refl).
  assert (length (take (Z.to_nat n) objs) = Z.to_nat n) as Htl.
  { rewrite length_take. unfold zlen in *. lia. }
  eapply (inv_intro s _ t); [done|done|reflexivity|done|..].
  - split; simpl; try done; try lia.
    + by rewrite Hph, u32_add_l.
    + unfold zlen in *. rewrite length_app, Htl. lia.
    + intros a Ha. eapply valid_append; [..|by apply Hslots]; simpl; [done..|lia].
  - unfold pc_ok, p_owns. simpl. split_and!; try done; try lia.
    unfold seg. simpl. rewrite drop_app_length', take_ge; [done|lia|].
    unfold zlen in Hlog. lia.
  - intros t2 p2 Hne H2 Hok. apply (pc_ok_frame s); [done| |done].
    split; simpl; try done; try lia; [by eexists|].
    intros h m a Hr Hpt Ha Hv. pose proof (p_range_bound s p2 h m Hok Hs Hr).
    eapply valid_append; [..|done]; simpl; [done..|lia].
  - right. by exists n.
  - by left.
Qed.

Lemma mod_window a b :
  0 <= k -> a mod 2 ^ k = b mod 2 ^ k -> - 2 ^ k < a - b < 2 ^ k -> a = b.
Proof.
  intros Hk H Hb. assert ((a - b) mod 2 ^ k = 0) as Hd.
  { rewrite Zminus_mod, H, Z.sub_diag. apply Z.mod_0_l. lia. }
  apply Z.mod_divide in Hd; [|lia]. destruct Hd as [q Hq].
  assert (q = 0) by nia. lia.
Qed.

(** The store of one object fills its slot and no other live one. *)
Lemma inv_p_write s t objs b ph n free i gh x ring :
  inv s -> m_threads s !! t = Some (P_copy objs b ph n free i gh) -> i < n ->
  zget objs i = Some x ->
  zset (r_ring (m_ring s)) (Z.land (ph +u32 i) (p_mask (r_prod (m_ring s)))) x = Some ring ->
  inv (Mstate (with_ring ring (m_ring s))
         (<[t := P_copy objs b ph n free (i + 1) gh]> (m_threads s))
         (g_base s) (g_ph s) (g_pt s) (g_ch s) (g_ct s) (g_log s)).
Proof.
  intros Hinv Ht Hi Hx Hset. pose proof (inv_shared s Hinv) as Hs.
  pose proof (inv_pcs s Hinv t _ Ht) as (Hph & Hn & Hin & Hpt & Hgn & Hseg & Hval).
  pose proof Hs as [Hgeom Hsph Hspt Hsch Hsct Hord Hlog Hslots].
  pose proof Hgeom as (Hk & Hps & Hcs & Hpm & Hcm & Hlen & Hwm).
  set (s' := Mstate _ _ _ _ _ _ _ _).
  assert (Z.land (ph +u32 i) (p_mask (r_prod (m_ring s))) = (gh + i) mod 2 ^ k) as Hidx.
  { rewrite Hpm, land_pow2_mask, mod_pow2_u32, Hph by lia.
    by rewrite <- Zplus_mod_idemp_l, mod_pow2_u32, Zplus_mod_idemp_l by lia. }
  rewrite Hidx in Hset.
  assert (forall a, g_ct s <= a < g_ph s -> (a = gh + i \/ valid s a) -> valid s' a) as Hkeep.
  { intros a Ha Hor. unfold valid, s'. simpl. rewrite (zget_zset _ _ _ _ _ Hset).
    case_bool_decide as Heq.
    - apply mod_window in Heq; [|lia..]. subst a. rewrite <- Hx.
      transitivity (zget (take (Z.to_nat n) objs) i).
      { rewrite !zget_nonneg by lia. by rewrite lookup_take_lt by lia. }
      rewrite <- Hseg. unfold seg. rewrite !zget_nonneg, lookup_take_lt, lookup_drop by lia.
      f_equal. lia.
    - destruct Hor as [->|Hv]; [done|exact Hv]. }
  eapply (inv_intro s s' t); [done|done|reflexivity|done|..].
  - split; try done; simpl.
    + unfold ring_geom. simpl. split_and!; try done; try lia.
      rewrite (zset_len _ _ _ _ Hset). done.
    + intros a Ha. apply Hkeep; [lia|right; by apply Hslots].
  - unfold pc_ok, p_owns. simpl. split_and!; try done; try lia.
    intros a Ha. apply Hkeep; [lia|].
    destruct (decide (a = gh + i)); [by left|right; apply Hval; lia].
  - intros t2 p2 Hne H2 Hok. apply (pc_ok_frame s); [done| |done].
    split; simpl; try done; try lia; [by exists []; rewrite app_nil_r|].
    intros h m a Hr Hpt2 Ha Hv. pose proof (p_range_bound s p2 h m Hok Hs Hr).
    apply Hkeep; [lia|by right].
  - by left.
  - by left.
Qed.

Lemma inv_p_publish s t objs ph n ret gh :
  inv s -> m_threads s !! t = Some (P_publish objs ph n ret gh) ->
  inv (Mstate (with_prod (set_p_tail (ph +u32 n)) (m_ring s))
         (<[t := P_ret objs n ret gh]> (m_threads s))
         (g_base s) (g_ph s) (gh + n) (g_ch s) (g_ct s) (g_log s)).
Proof.
  intros Hinv Ht. pose proof (inv_shared s Hinv) as Hs.
  pose proof (inv_pcs s Hinv t _ Ht) as [(Hph & Hn & _ & Hpt & Hgn & Hseg & Hval) Heq].
  pose proof Hs as [Hgeom Hsph Hspt Hsch Hsct Hord Hlog Hslots].
  eapply (inv_intro s _ t); [done|done|reflexivity|done|..].
  - split; simpl; try done; try lia.
    + by rewrite Hph, u32_add_l.
    + intros a Ha. destruct (decide (a < g_pt s)); [apply Hslots; lia|apply Hval; lia].
  - unfold pc_ok. simpl. split_and!; done || lia.
  - intros t2 p2 Hne H2 Hok. apply (pc_ok_frame s); [done| |done].
    split; simpl; try done; try lia; [by exists []; rewrite app_nil_r|].
    intros h m Hr Hpt2. pose proof (p_range_bound s p2 h m Hok Hs Hr).
    destruct (inv_pdisj s Hinv t2 t p2 _ h m gh n Hne H2 Ht Hr eq_refl); lia.
  - by left.
  - by left.
Qed.

Lemma inv_c_cas s t max b ch n gh :
  inv s -> m_threads s !! t = Some (C_cas max b ch n gh) ->
  g_ch s - gh < 2 ^ 32 -> c_head (r_cons (m_ring s)) = ch ->
  inv (Mstate (with_cons (set_c_head (ch +u32 n)) (m_ring s))
         (<[t := C_copy b ch n gh []]> (m_threads s))
         (g_base s) (g_ph s) (g_pt s) (g_ch s + n) (g_ct s) (g_log s)).
Proof.
  intros Hinv Ht Hwin Hcas. pose proof (inv_shared s Hinv) as Hs.
  pose proof (inv_pcs s Hinv t _ Ht) as (Hmax & Hch & Hle & Hn & Hroom).
  pose proof Hs as [Hgeom Hsph Hspt Hsch Hsct Hord Hlog Hslots].
  assert (gh = g_ch s) as -> by (apply u32_inj_small; [congruence|lia]).
  specialize (Hroom eq_refl).
  eapply (inv_intro s _ t); [done|done|reflexivity|done|..].
  - split; simpl; try done; try lia. by rewrite Hch, u32_add_l.
  - unfold pc_ok, c_owns, zlen. simpl. split_and!; try done; lia.
  - intros t2 p2 Hne H2 Hok. apply (pc_ok_frame s); [done| |done].
    split; simpl; try done; try lia. by exists []; rewrite app_nil_r.
  - by left.
  - right. by exists n.
Qed.

Lemma inv_c_publish s t b ch n gh out ret :
  inv s -> m_threads s !! t = Some (C_publish b ch n gh out) ->
  inv (Mstate (with_cons (set_c_tail (ch +u32 n)) (m_ring s))
         (<[t := C_ret n ret gh out]> (m_threads s))
         (g_base s) (g_ph s) (g_pt s) (g_ch s) (gh + n) (g_log s)).
Proof.
  intros Hinv Ht. pose proof (inv_shared s Hinv) as Hs.
  pose proof (inv_pcs s Hinv t _ Ht) as [[(Hch & Hn & _ & Hct & Hgn & Hseg) Hl] Heq].
  pose proof Hs as [Hgeom Hsph Hspt Hsch Hsct Hord Hlog Hslots].
  eapply (inv_intro s _ t); [done|done|reflexivity|done|..].
  - split; simpl; try done; try lia.
    + by rewrite Hch, u32_add_l.
    + intros a Ha. apply Hslots. lia.
  - unfold pc_ok. simpl. split_and!; try done; try lia. by rewrite <- Hl.
  - intros t2 p2 Hne H2 Hok. apply (pc_ok_frame s); [done| |done].
    split; simpl; try done; try lia; [by exists []; rewrite app_nil_r|].
    intros h m Hr Hct2. pose proof (c_range_bound s p2 h m Hok Hs Hr).
    destruct (inv_cdisj s Hinv t2 t p2 _ h m gh n Hne H2 Ht Hr eq_refl); lia.
  - by left.
  - by left.
Qed.

Lemma actual_entries_pos n avail err b m :
  1 <= n -> 0 <= avail -> actual_entries n avail err b = inl m -> 1 <= m <= n /\ m <= avail.
Proof.
  intros Hn Ha H. unfold actual_entries in H. destruct (n >? avail) eqn:E; zbool.
  - destruct b; [done|]. destruct (avail =? 0) eqn:E0; zbool; [done|]. simplify_eq. lia.
  - simplify_eq. lia.
Qed.

Lemma inv_p_step s t p s' :
  inv s -> window_ok s -> m_threads s !! t = Some p -> p_step s t p = Some s' -> inv s'.
Proof.
  intros Hinv Hwin Ht Hstep. pose proof (inv_shared s Hinv) as Hs.
  pose proof (inv_pcs s Hinv t p Ht) as Hok. specialize (Hwin t p Ht).
  pose proof Hs as [(Hk & _ & _ & Hpm & _) Hsph Hspt _ Hsct Hord _ _].
  destruct p as [objs max b|objs max b ph gh|objs max b ph n free gh
    |objs b ph n free i gh|objs ph n ret gh|objs ph n ret gh| | | | | | | | | |]; simpl in Hstep; try done.
  - simplify_eq. eapply inv_set_pc; [done..|]. simpl in *. split_and!; done || lia.
  - destruct Hok as (Hmax & Hph & Hle).
    destruct (actual_entries max _ ENOBUFS b) as [n|ret] eqn:Ha; simplify_eq.
    2: { by eapply inv_set_pc. }
    eapply inv_set_pc; [done..|]. apply actual_entries_pos in Ha; [|lia|apply u32_bound].
    split_and!; try done; try lia. intros Heq. subst.
    enough (p_mask (r_prod (m_ring s)) +u32 c_tail (r_cons (m_ring s)) -u32 u32 (g_ph s) =
            g_ct s + (2 ^ k - 1) - g_ph s) by lia.
    rewrite Hpm, Hsct, u32_add_r, u32_sub_l, u32_sub_r, u32_small; [lia|].
    assert (2 ^ k <= 2 ^ 27) by (apply Z.pow_le_mono_r; lia). unfold is_u32. lia.
  - destruct (_ =? ph) eqn:E; zbool; simplify_eq.
    + by apply (inv_p_cas s t objs max b _ n free gh).
    + eapply inv_set_pc; [done..|]. apply Hok.
  - destruct (i <? n) eqn:E; zbool.
    + destruct (zget objs i) as [x|] eqn:Hx; simpl in Hstep; [|done].
      destruct (zset _ _ _) as [ring|] eqn:Hset; simpl in Hstep; [|done]. simplify_eq.
      by apply (inv_p_write s t objs b ph n free i gh x).
    + simplify_eq. eapply inv_set_pc; [done..|]. simpl in *.
      destruct Hok as (? & ? & ? & ? & ? & ? & Hv). split_and!; try done; try lia.
      intros a Ha. apply Hv. lia.
  - destruct (_ =? ph) eqn:E; zbool; simplify_eq; [|done].
    eapply inv_set_pc; [done..|]. split; [done|].
    destruct Hok as (Hph & Hn & _ & Hpt & Hgn & _). rewrite Hspt in Hph.
    apply u32_inj_small; [done|].
    assert (2 ^ k <= 2 ^ 27) by (apply Z.pow_le_mono_r; lia). lia.
  - simplify_eq. by apply inv_p_publish.
Qed.

(** Reading a reserved slot extends the output by the object reserved for it. *)
Lemma c_copy_ok s ch n gh out x :
  shared_ok s -> c_owns s ch n gh out -> zlen out < n ->
  zget (r_ring (m_ring s)) (Z.land (ch +u32 zlen out) (p_mask (r_prod (m_ring s)))) = Some x ->
  c_owns s ch n gh (out ++ [x]).
Proof.
  intros Hs (Hch & Hn & Hl & Hct & Hgn & Hseg) Hlt Hx.
  pose proof Hs as [(Hk & _ & _ & Hpm & _) _ _ _ _ Hord Hlog Hslots].
  assert (0 <= zlen out) by (unfold zlen; lia).
  rewrite Hpm, land_pow2_mask, mod_pow2_u32, Hch in Hx by lia.
  rewrite <- Zplus_mod_idemp_l, mod_pow2_u32, Zplus_mod_idemp_l in Hx by lia.
  rewrite (Hslots (gh + zlen out)) in Hx by lia.
  unfold c_owns. assert (zlen (out ++ [x]) = zlen out + 1) as ->.
  { unfold zlen. rewrite length_app. simpl. lia. }
  split_and!; try done; try lia. unfold seg in *.
  replace (Z.to_nat (zlen out + 1)) with (S (Z.to_nat (zlen out))) by lia.
  rewrite (take_S_r _ _ x); [by rewrite <- Hseg|].
  rewrite lookup_drop. rewrite zget_nonneg in Hx by lia. rewrite <- Hx. f_equal. lia.
Qed.

Lemma inv_c_step s t p s' :
  inv s -> window_ok s -> m_threads s !! t = Some p -> c_step s t p = Some s' -> inv s'.
Proof.
  intros Hinv Hwin Ht Hstep. pose proof (inv_shared s Hinv) as Hs.
  pose proof (inv_pcs s Hinv t p Ht) as Hok. specialize (Hwin t p Ht).
  pose proof Hs as [(Hk & _ & _ & Hpm & _) _ Hspt Hsch Hsct Hord _ _].
  assert (2 ^ k <= 2 ^ 27) by (apply Z.pow_le_mono_r; lia).
  destruct p as [| | | | | | | |max b|max b ch gh|max b ch n gh
    |b ch n gh out|b ch n gh out|b ch n gh out| |]; simpl in Hstep; try done.
  - simplify_eq. eapply inv_set_pc; [done..|]. simpl in *. split_and!; done || lia.
  - destruct Hok as (Hmax & Hch & Hle).
    destruct (actual_entries max _ ENOENT b) as [n|ret] eqn:Ha; simplify_eq.
    2: { by eapply inv_set_pc. }
    eapply inv_set_pc; [done..|]. apply actual_entries_pos in Ha; [|lia|apply u32_bound].
    split_and!; try done; try lia. intros Heq. subst.
    enough (p_tail (r_prod (m_ring s)) -u32 u32 (g_ch s) = g_pt s - g_ch s) by lia.
    rewrite Hspt. autorewrite with u32. rewrite u32_small; [lia|]. unfold is_u32. lia.
  - destruct (_ =? ch) eqn:E; zbool; simplify_eq.
    + by apply (inv_c_cas s t max b _ n gh).
    + eapply inv_set_pc; [done..|]. apply Hok.
  - destruct (zlen out <? n) eqn:E; zbool.
    + destruct (zget _ _) as [x|] eqn:Hx; simpl in Hstep; [|done]. simplify_eq.
      eapply inv_set_pc; [done..|]. by apply c_copy_ok.
    + simplify_eq. eapply inv_set_pc; [done..|]. split; [done|].
      destruct Hok as (_ & _ & ? & _). lia.
  - destruct (_ =? ch) eqn:E; zbool; simplify_eq; [|done].
    eapply inv_set_pc; [done..|]. split; [done|].
    destruct Hok as [(Hch & Hn & _ & Hct & Hgn & _) _]. rewrite Hsct in Hch.
    apply u32_inj_small; [done|]. lia.
  - simplify_eq. by apply (inv_c_publish s t b).
Qed.

Lemma inv_step s t s' : inv s -> window_ok s -> step s t = Some s' -> inv s'.
Proof.
  intros Hinv Hwin Hstep. unfold step in Hstep.
  destruct (m_threads s !! t) as [p|] eqn:Ht; [|done].
  destruct (p_step s t p) eqn:Hp; simplify_eq; [by eapply inv_p_step|by eapply inv_c_step].
Qed.

(** * Executions *)

(** Every thread is at its first instruction, called with a non-empty request
    that its table covers, and the ring is empty at an arbitrary index. *)
Definition starting (p : pc) : Prop :=
  match p with
  | P_start objs max _ => 1 <= max < 2 ^ 32 /\ max <= zlen objs
  | C_start max _ => 1 <= max < 2 ^ 32
  | _ => False
  end.

Definition init_state (r : odph_ring_t) (threads : gmap nat pc) : mstate :=
  let h := p_head (r_prod r) in Mstate r threads h h h h h [].

Definition init_ok (r : odph_ring_t) (threads : gmap nat pc) : Prop :=
  ring_geom r k /\ is_u32 (p_head (r_prod r)) /\
  p_tail (r_prod r) = p_head (r_prod r) /\ c_head (r_cons r) = p_head (r_prod r) /\
  c_tail (r_cons r) = p_head (r_prod r) /\ map_Forall (fun _ p => starting p) threads.

(** States reached by interleaved steps that respect the window condition and by
    threads that start with a request of at least one object ([starting]).  The code
    guarantees neither: see [stale_exchange_overfills] and [mp_enqueue_zero_hangs]. *)
Inductive reach (s0 : mstate) : mstate -> Prop :=
  | reach_refl : reach s0 s0
  | reach_step s t s' : reach s0 s -> window_ok s -> step s t = Some s' -> reach s0 s'.

Lemma inv_init r threads : init_ok r threads -> inv (init_state r threads).
Proof.
  intros (Hg & Hu & Hpt & Hch & Hct & Hth).
  pose proof Hg as (Hk & _).
  assert (forall t p, threads !! t = Some p -> p_range p = None /\ c_range p = None) as Hnone.
  { intros t p H. specialize (Hth t p H). by destruct p. }
  split.
  - split; simpl; rewrite ?u32_small by done; try done; try lia. by rewrite Z.sub_diag.
  - simpl. intros t p H. specialize (Hth t p H). by destruct p.
  - intros t1 t2 p1 p2 h1 n1 h2 n2 _ H1 _ Hr. destruct (Hnone t1 p1 H1). congruence.
  - intros t1 t2 p1 p2 h1 n1 h2 n2 _ H1 _ Hr. destruct (Hnone t1 p1 H1). congruence.
  - intros a Ha. simpl in Ha. lia.
  - intros a Ha. simpl in Ha. lia.
Qed.

Lemma inv_reach r threads s :
  init_ok r threads -> reach (init_state r threads) s -> inv s.
Proof.
  intros Hinit H. induction H as [|s t s' _ IH Hwin Hstep]; [by apply inv_init|].
  by apply (inv_step s t).
Qed.

(** An instruction of a thread that has not returned never leaves the ring. *)
Lemma step_enabled s t p :
  inv s -> m_threads s !! t = Some p -> returned p = false -> is_Some (step s t).
Proof.
  intros Hinv Ht Hr. pose proof (inv_pcs s Hinv t p Ht) as Hok.
  pose proof (inv_shared s Hinv) as [(Hk & _ & _ & Hpm & _ & Hlen & _) _ _ _ _ _ _ _].
  assert (forall x, 0 <= Z.land x (p_mask (r_prod (m_ring s))) < zlen (r_ring (m_ring s)))
    as Hidx.
  { intros x. rewrite Hpm, Hlen, land_pow2_mask by lia. apply Z.mod_pos_bound. lia. }
  unfold step. rewrite Ht.
  destruct p as [| | |objs b ph n free i gh| | | | | | | |b ch n gh out| | | |];
    try done; simpl; try (repeat case_match; done).
  - destruct Hok as (_ & Hn & Hi & _).
    destruct (i <? n) eqn:E; zbool; [|done].
    destruct (zget_Some objs i) as [x ->]; [lia|]. simpl.
    by rewrite (zset_Some _ _ x (Hidx _)).
  - destruct (zlen out <? n) eqn:E; zbool; [|done].
    by destruct (zget_Some (r_ring (m_ring s)) _ (Hidx (ch +u32 zlen out))) as [x ->].
Qed.

(** A thread that waits for its turn to publish, and cannot yet. *)
Definition spins (s : mstate) (p : pc) : Prop :=
  match p with
  | P_wait _ prod_head _ _ _ => p_tail (r_prod (m_ring s)) <> prod_head
  | C_wait _ cons_head _ _ _ => c_tail (r_cons (m_ring s)) <> cons_head
  | _ => False
  end.

#[export] Instance spins_dec s p : Decision (spins s p).
Proof. destruct p; simpl; apply _. Defined.

Lemma step_moves s t p :
  inv s -> m_threads s !! t = Some p -> returned p = false -> ~ spins s p ->
  exists s', step s t = Some s' /\ m_threads s' <> m_threads s.
Proof.
  intros Hinv Ht Hr Hspin. destruct (step_enabled s t p Hinv Ht Hr) as [s' Hs'].
  exists s'. split; [done|]. intros Heq.
  assert (m_threads s' !! t = Some p) as Hp by congruence. clear Heq.
  unfold step in Hs'. rewrite Ht in Hs'.
  destruct p as [| | |objs b ph n free i gh| | | | | | | |b ch n gh out| | | |];
    simpl in *; repeat case_match; simplify_eq/=; zbool;
    try (rewrite lookup_insert_eq in Hp; simplify_eq); try done.
  all: try (by destruct Hspin).
  all: try (destruct (zget _ _); simplify_eq/=; try destruct (zset _ _ _); simplify_eq/=;
            rewrite lookup_insert_eq in Hp; simplify_eq; try lia).
  apply (f_equal length) in Hp. rewrite length_app in Hp. simpl in Hp. lia.
Qed.

(** While a thread waits, the one whose turn it is need not. *)
Lemma someone_runs s t p :
  inv s -> m_threads s !! t = Some p -> returned p = false ->
  exists t2 p2, m_threads s !! t2 = Some p2 /\ returned p2 = false /\ ~ spins s p2.
Proof.
  intros Hinv Ht Hr. pose proof (inv_pcs s Hinv t p Ht) as Hok.
  pose proof (inv_shared s Hinv) as [_ _ Hspt _ Hsct Hord _ _].
  destruct p as [| | | |objs ph n ret gh| | | | | | | |b ch n gh out| | |]; try done;
    try (by exists t; eexists; split_and!; [done|done|intros []]).
  - destruct Hok as (_ & Hn & _ & Hpt & Hgn & _).
    destruct (inv_pcover s Hinv (g_pt s)) as (t2 & p2 & h & m & H2 & Hr2 & Hb); [lia|].
    exists t2, p2. pose proof (inv_pcs s Hinv t2 p2 H2) as Hok2. split; [done|].
    destruct p2; simplify_eq/=; unfold p_owns in Hok2; try lia; try tauto.
    destruct Hok2 as (-> & _ & _ & ? & _). rewrite Hspt.
    assert (h = g_pt s) as -> by lia. tauto.
  - destruct Hok as [(_ & Hn & _ & Hct & Hgn & _) _].
    destruct (inv_ccover s Hinv (g_ct s)) as (t2 & p2 & h & m & H2 & Hr2 & Hb); [lia|].
    exists t2, p2. pose proof (inv_pcs s Hinv t2 p2 H2) as Hok2. split; [done|].
    destruct p2; simplify_eq/=; unfold c_owns in Hok2; try lia; try tauto.
    destruct Hok2 as [(-> & _ & _ & ? & _) _]. rewrite Hsct.
    assert (h = g_ct s) as -> by lia. tauto.
Qed.

(** Unrestricted executions; one that reserves fewer than 2^32 slots in all
    meets the window condition throughout. *)
Inductive exec (s0 : mstate) : mstate -> Prop :=
  | exec_refl : exec s0 s0
  | exec_step s t s' : exec s0 s -> step s t = Some s' -> exec s0 s'.

Lemma window_small s : inv s -> g_ph s - g_base s < 2 ^ 32 -> window_ok s.
Proof.
  intros Hinv Hsmall t p Ht. pose proof (inv_pcs s Hinv t p Ht) as Hok.
  destruct (so_order s (inv_shared s Hinv)) as (? & ? & ?).
  destruct p; simpl in *; try done; lia.
Qed.

(** Requests are never negative, window condition or not. *)
Definition nonneg_pc (p : pc) : Prop :=
  match p with
  | P_start _ max _ | P_head _ max _ _ _ => 0 <= max
  | P_cas _ max _ _ n _ _ => 0 <= max /\ 0 <= n
  | _ => True
  end.

Lemma actual_entries_nonneg n avail err b m :
  0 <= n -> 0 <= avail -> actual_entries n avail err b = inl m -> 0 <= m.
Proof. intros Hn Ha H. apply actual_entries_inl in H; lia. Qed.

Lemma step_mono s t s' :
  map_Forall (fun _ p => nonneg_pc p) (m_threads s) -> step s t = Some s' ->
  map_Forall (fun _ p => nonneg_pc p) (m_threads s') /\
  g_ph s <= g_ph s' /\ g_base s' = g_base s.
Proof.
  intros Hall Hstep. unfold step in Hstep.
  destruct (m_threads s !! t) as [p|] eqn:Ht; [|done].
  pose proof (Hall t p Ht) as Hok.
  assert (forall p', nonneg_pc p' ->
            map_Forall (fun _ p => nonneg_pc p) (<[t := p']> (m_threads s))) as Hins.
  { intros p' Hp'. apply map_Forall_insert_2; done. }
  assert (forall n a err b m, 0 <= n -> actual_entries n (u32 a) err b = inl m -> 0 <= m) as Hae.
  { intros n a err b m Hn. apply actual_entries_nonneg; [done|apply u32_bound]. }
  destruct p; simpl in *; repeat (case_match; simplify_eq/=); simplify_eq/=;
    repeat (destruct (zget _ _); simplify_eq/=; try destruct (zset _ _ _); simplify_eq/=);
    split_and!; try done; try lia; try apply Hins; simpl; try done; try lia.
  split; [done|]. by eapply Hae.
Qed.

Lemma exec_reach r threads s :
  init_ok r threads -> exec (init_state r threads) s ->
  map_Forall (fun _ p => nonneg_pc p) (m_threads s) /\
  (g_ph s - g_base s < 2 ^ 32 -> reach (init_state r threads) s).
Proof.
  intros Hinit Hexec. induction Hexec as [|s t s' _ [IHn IHr] Hstep].
  - split; [|constructor]. intros t p Ht.
    destruct Hinit as (_ & _ & _ & _ & _ & Hth). specialize (Hth t p Ht).
    destruct p; simpl in *; done || lia.
  - destruct (step_mono s t s' IHn Hstep) as (Hn' & Hph & Hb). split; [done|].
    intros Hsmall. assert (reach (init_state r threads) s) as Hr by (apply IHr; lia).
    apply (reach_step _ s t); [done| |done].
    apply window_small; [by eapply inv_reach|lia].
Qed.

(** Run the threads in the order a schedule gives. *)
Fixpoint run_schedule (s : mstate) (sched : list nat) : option mstate :=
  match sched with
  | [] => Some s
  | t :: sched => s' ← step s t; run_schedule s' sched
  end.

Lemma run_schedule_exec s0 s sched s' :
  exec s0 s -> run_schedule s sched = Some s' -> exec s0 s'.
Proof.
  revert s. induction sched as [|t sched IH]; intros s Hexec H; simpl in H; [by simplify_eq|].
  destruct (step s t) as [s1|] eqn:E; [|done]. simpl in H.
  apply (IH s1); [by econstructor|done].
Qed.

End invariant.

Lemma inv_quiescent k s :
  inv k s -> map_Forall (fun _ p => returned p = true) (m_threads s) ->
  g_ph s = g_pt s /\ g_ch s = g_ct s.
Proof.
  intros Hinv Hret. destruct (so_order k s (inv_shared k s Hinv)) as (? & ? & ?). split.
  - destruct (decide (g_ph s = g_pt s)) as [|Hne]; [done|].
    destruct (inv_pcover k s Hinv (g_pt s)) as (t & p & h & n & Ht & Hr & Hb); [lia|].
    pose proof (Hret t p Ht). pose proof (inv_pcs k s Hinv t p Ht) as Hok.
    destruct p; simplify_eq/=. lia.
  - destruct (decide (g_ch s = g_ct s)) as [|Hne]; [done|].
    destruct (inv_ccover k s Hinv (g_ct s)) as (t & p & h & n & Ht & Hr & Hb); [lia|].
    pose proof (Hret t p Ht). pose proof (inv_pcs k s Hinv t p Ht) as Hok.
    destruct p; simplify_eq/=. lia.
Qed.

(** C2: multi-producer multi-consumer exactly-once delivery.  In every
    interleaving of the accesses of concurrent bulk and burst enqueues and
    dequeues, each of at least one object, in which no thread is overtaken by
    2^32 reservations between its load of an index and its exchange ([reach]),
    there is one sequence of objects ([g_log]) such that each producer that has
    returned owns a segment of it holding exactly the objects it enqueued, each
    consumer that has returned received exactly the objects of the segment it
    owns, in order, no two producers and no two consumers own overlapping
    segments, producers' segments leave no gap in the sequence and consumers'
    segments leave no gap in the prefix that has been claimed, and that prefix
    has been published.  Executions that reserve fewer than 2^32 slots in all
    satisfy the condition ([exec_reach]); without it the theorem is false
    ([stale_exchange_overfills]). *)
Theorem mpmc_exactly_once (k : Z) (r : odph_ring_t) (threads : gmap nat pc) (s : mstate) :
  init_ok k r threads -> reach (init_state r threads) s ->
  (forall t objs n ret gh, m_threads s !! t = Some (P_ret objs n ret gh) ->
     seg s gh n = take (Z.to_nat n) objs) /\
  (forall t n ret gh out, m_threads s !! t = Some (C_ret n ret gh out) -> out = seg s gh n) /\
  disjoint_ranges p_range (m_threads s) /\ disjoint_ranges c_range (m_threads s) /\
  covered p_range (m_threads s) (g_base s) (g_base s + zlen (g_log s)) /\
  covered c_range (m_threads s) (g_base s) (g_ch s) /\
  g_ch s <= g_pt s <= g_base s + zlen (g_log s).
Proof.
  intros Hinit Hreach. pose proof (inv_reach k r threads s Hinit Hreach) as Hinv.
  pose proof (inv_shared k s Hinv) as Hs. rewrite (so_log k s Hs).
  destruct (so_order k s Hs) as (? & ? & ?).
  replace (g_base s + (g_ph s - g_base s)) with (g_ph s) by lia.
  split_and!; try lia; try apply Hinv.
  - intros t objs n ret gh Ht. apply (inv_pcs k s Hinv t _ Ht).
  - intros t n ret gh out Ht. apply (inv_pcs k s Hinv t _ Ht).
Qed.

Lemma quiescent_used k s :
  inv k s -> map_Forall (fun _ p => returned p = true) (m_threads s) ->
  ring_used (m_ring s) = g_pt s - g_ct s.
Proof.
  intros Hinv _. pose proof (inv_shared k s Hinv) as [Hg Hph Hpt Hch Hct Hord Hlog Hslots].
  pose proof Hg as (Hk & _). assert (2 ^ k <= 2 ^ 27) by (apply Z.pow_le_mono_r; lia).
  unfold ring_used. rewrite Hpt, Hct, u32_sub_l, u32_sub_r. apply u32_small.
  unfold is_u32. lia.
Qed.

Lemma quiescent_wf k s :
  inv k s -> map_Forall (fun _ p => returned p = true) (m_threads s) -> ring_wf (m_ring s).
Proof.
  intros Hinv Hret. destruct (inv_quiescent k s Hinv Hret) as [Hp Hc].
  pose proof (inv_shared k s Hinv) as [Hg Hph Hpt Hch Hct Hord Hlog Hslots].
  pose proof Hg as (Hk & Hps & Hcs & Hpm & _).
  unfold ring_wf. rewrite (quiescent_used k s Hinv Hret), Hpm, Hpt, Hph, Hch, Hct, Hp, Hc.
  split_and!; try done; try apply u32_bound; try lia. by exists k.
Qed.

(** When every thread has returned, the ring is well formed and holds, oldest
    first, exactly the objects that were enqueued and not dequeued. *)
Theorem mpmc_quiescent (k : Z) (r : odph_ring_t) (threads : gmap nat pc) (s : mstate) :
  init_ok k r threads -> reach (init_state r threads) s ->
  map_Forall (fun _ p => returned p = true) (m_threads s) ->
  ring_wf (m_ring s) /\ contents (m_ring s) = drop (Z.to_nat (g_ct s - g_base s)) (g_log s).
Proof.
  intros Hinit Hreach Hret. pose proof (inv_reach k r threads s Hinit Hreach) as Hinv.
  pose proof (inv_shared k s Hinv) as [Hg Hph Hpt Hch Hct Hord Hlog Hslots].
  pose proof Hg as (Hk & Hps & Hcs & Hpm & _).
  destruct (inv_quiescent k s Hinv Hret) as [Hp Hc].
  split; [by apply (quiescent_wf k)|].
  unfold contents. rewrite (quiescent_used k s Hinv Hret), Hpm, Hct.
  rewrite (slots_take _ _ _ _ (drop (Z.to_nat (g_ct s - g_base s)) (g_log s))).
  + apply take_ge. rewrite length_drop. unfold zlen in Hlog. lia.
  + rewrite length_drop. unfold zlen in Hlog. lia.
  + intros i Hi. rewrite land_pow2_mask by lia.
    rewrite <- Zplus_mod_idemp_l, mod_pow2_u32, Zplus_mod_idemp_l by lia.
    rewrite (Hslots (g_ct s + i)) by lia.
    rewrite !zget_nonneg, lookup_drop by lia. f_equal. lia.
Qed.

(** * Liveness *)

(** A thread between its load of the index and the exchange that will fail,
    the index having moved. *)
Definition stale (s : mstate) (p : pc) : bool :=
  match p with
  | P_head _ _ _ _ gh | P_cas _ _ _ _ _ _ gh => gh <? g_ph s
  | C_head _ _ _ gh | C_cas _ _ _ _ gh => gh <? g_ch s
  | _ => false
  end.

(** Whether a thread has still to reserve its slots (or to fail), and how many
    steps it is from there or from its return. *)
Definition unreserved (p : pc) : nat :=
  match p with
  | P_start _ _ _ | P_head _ _ _ _ _ | P_cas _ _ _ _ _ _ _
  | C_start _ _ | C_head _ _ _ _ | C_cas _ _ _ _ _ => 1
  | _ => 0
  end%nat.

Definition distance (s : mstate) (p : pc) : nat :=
  match p with
  | P_start _ _ _ | C_start _ _ => 4
  | P_head _ _ _ _ _ | C_head _ _ _ _ => if stale s p then 6 else 3
  | P_cas _ _ _ _ _ _ _ | C_cas _ _ _ _ _ => if stale s p then 5 else 2
  | P_copy _ _ _ n _ i _ => Z.to_nat (n - i) + 3
  | C_copy _ _ n _ out => Z.to_nat (n - zlen out) + 3
  | P_wait _ _ _ _ _ | C_wait _ _ _ _ _ => 2
  | P_publish _ _ _ _ _ | C_publish _ _ _ _ _ => 1
  | _ => 0
  end%nat.

Definition msum (f : pc -> nat) (m : gmap nat pc) : nat :=
  map_fold (fun _ p n => f p + n)%nat O m.

Lemma msum_delete f m t p :
  m !! t = Some p -> msum f m = (f p + msum f (delete t m))%nat.
Proof.
  intros Ht. unfold msum.
  apply (map_fold_delete_L (fun _ p n => f p + n)%nat O t p m); [lia|done].
Qed.

Lemma msum_insert f m t p p' :
  m !! t = Some p -> (msum f (<[t := p']> m) + f p = msum f m + f p')%nat.
Proof.
  intros Ht. rewrite (msum_delete f m t p Ht).
  rewrite (msum_delete f _ t p') by apply lookup_insert_eq.
  rewrite delete_insert_eq. lia.
Qed.

Lemma msum_ext f g m :
  (forall t p, m !! t = Some p -> f p = g p) -> msum f m = msum g m.
Proof.
  induction m as [|t p m Hn Hf IH] using map_first_key_ind; intros H; [done|].
  assert (forall h, msum h (<[t := p]> m) = (h p + msum h m)%nat) as Hi.
  { intros h. rewrite (msum_delete h _ t p) by apply lookup_insert_eq.
    by rewrite delete_insert_id. }
  rewrite !Hi, (H t p), IH; [done| |apply lookup_insert_eq].
  intros t2 p2 H2. apply (H t2). rewrite lookup_insert_ne; [done|]. congruence.
Qed.

Definition rank (s : mstate) : nat * nat :=
  (msum unreserved (m_threads s), msum (distance s) (m_threads s)).

(** First the threads that have not reserved, then the distances. *)
Definition lex : relation (nat * nat) := slexprod nat nat lt lt.

Lemma lex_wf : well_founded lex.
Proof. apply wf_slexprod; apply lt_wf. Qed.

(** A step of one thread that reserves nothing and moves no index lowers the
    distance; one that reserves or fails lowers the number of threads left. *)
Lemma rank_lower s s' t p p' :
  m_threads s !! t = Some p -> m_threads s' = <[t := p']> (m_threads s) ->
  (unreserved p' < unreserved p)%nat \/
  (unreserved p' = unreserved p /\ g_ph s' = g_ph s /\ g_ch s' = g_ch s /\
   (distance s p' < distance s p)%nat) ->
  lex (rank s') (rank s).
Proof.
  intros Ht Hth Hcase. unfold rank. rewrite Hth.
  pose proof (msum_insert unreserved (m_threads s) t p p' Ht) as Hu.
  destruct Hcase as [Hlt|(Heq & Hph & Hch & Hlt)]; [apply left_slex; lia|].
  assert (msum unreserved (<[t:=p']> (m_threads s)) = msum unreserved (m_threads s)) as ->
    by lia.
  apply right_slex.
  rewrite (msum_ext (distance s') (distance s)).
  - pose proof (msum_insert (distance s) (m_threads s) t p p' Ht). lia.
  - intros t2 p2 _. destruct p2; simpl; by rewrite ?Hph, ?Hch.
Qed.

Section liveness.
Context (k : Z).

Lemma p_step_lower s t p s' :
  inv k s -> window_ok s -> m_threads s !! t = Some p -> ~ spins s p ->
  p_step s t p = Some s' -> lex (rank s') (rank s).
Proof.
  intros Hinv Hwin Ht Hspin Hstep. pose proof (inv_pcs k s Hinv t p Ht) as Hok.
  specialize (Hwin t p Ht). pose proof (so_ph k s (inv_shared k s Hinv)) as Hsph.
  destruct p as [objs max b|objs max b ph gh|objs max b ph n free gh
    |objs b ph n free i gh|objs ph n ret gh|objs ph n ret gh| | | | | | | | | |];
    simpl in Hstep; try done.
  - simplify_eq. eapply rank_lower; [done|done|]. right. simpl. rewrite Z.ltb_irrefl. lia.
  - destruct (actual_entries _ _ _ _); simplify_eq; (eapply rank_lower; [done|done|]).
    + right. simpl. case_match; lia.
    + left. simpl. lia.
  - destruct (_ =? ph) eqn:E; zbool; simplify_eq; (eapply rank_lower; [done|done|]).
    + left. simpl. lia.
    + right. simpl. destruct Hok as (_ & -> & Hgh & _).
      destruct (gh <? g_ph s) eqn:E2; zbool; [lia|]. exfalso. apply E.
      rewrite Hsph. f_equal. lia.
  - destruct (i <? n) eqn:E; zbool.
    + destruct (zget objs i) as [x|]; simpl in Hstep; [|done].
      destruct (zset _ _ _) as [ring|]; simpl in Hstep; [|done]. simplify_eq.
      eapply rank_lower; [done|done|]. right. simpl. lia.
    + simplify_eq. eapply rank_lower; [done|done|]. right. simpl. lia.
  - simpl in Hspin. destruct (_ =? ph) eqn:E; zbool; [simplify_eq|by destruct Hspin].
    eapply rank_lower; [done|done|]. right. simpl. lia.
  - simplify_eq. eapply rank_lower; [done|done|]. right. simpl. lia.
Qed.

Lemma c_step_lower s t p s' :
  inv k s -> window_ok s -> m_threads s !! t = Some p -> ~ spins s p ->
  c_step s t p = Some s' -> lex (rank s') (rank s).
Proof.
  intros Hinv Hwin Ht Hspin Hstep. pose proof (inv_pcs k s Hinv t p Ht) as Hok.
  specialize (Hwin t p Ht). pose proof (so_ch k s (inv_shared k s Hinv)) as Hsch.
  destruct p as [| | | | | | | |max b|max b ch gh|max b ch n gh
    |b ch n gh out|b ch n gh out|b ch n gh out| |]; simpl in Hstep; try done.
  - simplify_eq. eapply rank_lower; [done|done|]. right. simpl. rewrite Z.ltb_irrefl. lia.
  - destruct (actual_entries _ _ _ _); simplify_eq; (eapply rank_lower; [done|done|]).
    + right. simpl. case_match; lia.
    + left. simpl. lia.
  - destruct (_ =? ch) eqn:E; zbool; simplify_eq; (eapply rank_lower; [done|done|]).
    + left. simpl. lia.
    + right. simpl. destruct Hok as (_ & -> & Hgh & _).
      destruct (gh <? g_ch s) eqn:E2; zbool; [lia|]. exfalso. apply E.
      rewrite Hsch. f_equal. lia.
  - destruct (zlen out <? n) eqn:E; zbool.
    + destruct (zget _ _) as [x|]; simpl in Hstep; [|done]. simplify_eq.
      eapply rank_lower; [done|done|]. right. simpl. unfold zlen in *. rewrite length_app. simpl. lia.
    + simplify_eq. eapply rank_lower; [done|done|]. right. simpl. lia.
  - simpl in Hspin. destruct (_ =? ch) eqn:E; zbool; [simplify_eq|by destruct Hspin].
    eapply rank_lower; [done|done|]. right. simpl. lia.
  - simplify_eq. eapply rank_lower; [done|done|]. right. simpl. lia.
Qed.

Lemma step_lower s t p s' :
  inv k s -> window_ok s -> m_threads s !! t = Some p -> ~ spins s p ->
  step s t = Some s' -> lex (rank s') (rank s).
Proof.
  intros Hinv Hwin Ht Hspin Hstep. unfold step in Hstep. rewrite Ht in Hstep.
  destruct (p_step s t p) eqn:Hp; simplify_eq; [by eapply p_step_lower|by eapply c_step_lower].
Qed.

(** A thread that spins stays where it is. *)
Lemma spin_step s t p s' :
  m_threads s !! t = Some p -> spins s p -> step s t = Some s' -> s' = s.
Proof.
  intros Ht Hspin Hstep. unfold step in Hstep. rewrite Ht in Hstep.
  destruct p; try done; simpl in *; rewrite (proj2 (Z.eqb_neq _ _) Hspin) in Hstep;
    by simplify_eq.
Qed.

Definition in_window (s : mstate) (p : pc) : Prop :=
  match p with
  | P_head _ _ _ _ gh | P_cas _ _ _ _ _ _ gh => g_ph s - gh < 2 ^ 32
  | C_head _ _ _ gh | C_cas _ _ _ _ gh => g_ch s - gh < 2 ^ 32
  | _ => True
  end.

(** What a step does to the indices: it moves none, or it reserves fewer than
    2^32 slots in an exchange of a thread that is not stale. *)
Definition indices (s s' : mstate) (p : pc) : Prop :=
  g_ph s' = g_ph s /\ g_ch s' = g_ch s \/
  stale s p = false /\ g_ph s <= g_ph s' < g_ph s + 2 ^ 32 /\ g_ch s' = g_ch s \/
  stale s p = false /\ g_ph s' = g_ph s /\ g_ch s <= g_ch s' < g_ch s + 2 ^ 32.

Definition moves_to (s s' : mstate) (t : nat) : Prop :=
  exists p', m_threads s' = <[t := p']> (m_threads s) /\ in_window s' p'.

Lemma keeps_indices s s' t p p' :
  m_threads s' = <[t := p']> (m_threads s) -> in_window s' p' ->
  g_ph s' = g_ph s -> g_ch s' = g_ch s -> indices s s' p /\ moves_to s s' t.
Proof. intros Hth Hp Hph Hch. split; [by left|]. by exists p'. Qed.

Lemma p_step_indices s t p s' :
  inv k s -> window_ok s -> m_threads s !! t = Some p -> p_step s t p = Some s' ->
  indices s s' p /\ moves_to s s' t.
Proof.
  intros Hinv Hwin Ht Hstep. pose proof (inv_pcs k s Hinv t p Ht) as Hok.
  specialize (Hwin t p Ht). pose proof (inv_shared k s Hinv) as [(Hk & _) Hph _ _ _ Hord _ _].
  assert (2 ^ k <= 2 ^ 27) by (apply Z.pow_le_mono_r; lia).
  destruct p as [objs max b|objs max b ph gh|objs max b ph n free gh
    |objs b ph n free i gh|objs ph n ret gh|objs ph n ret gh| | | | | | | | | |];
    simpl in Hstep; simplify_eq; simpl in Hwin;
    try (by eapply keeps_indices; [reflexivity|simpl; lia|..]).
  - destruct (actual_entries _ _ _ _); simplify_eq; by eapply keeps_indices.
  - destruct Hok as (_ & -> & Hgh & Hn & Hroom).
    destruct (_ =? _) eqn:E; zbool; simplify_eq; [|by eapply keeps_indices].
    assert (gh = g_ph s) as -> by (apply u32_inj_small; [congruence|lia]).
    specialize (Hroom eq_refl). split; [right; left|eexists; by split]. simpl.
    rewrite Z.ltb_irrefl. split_and!; done || lia.
  - destruct (i <? n) eqn:E; zbool; [|simplify_eq; by eapply keeps_indices].
    destruct (zget objs i) as [x|]; simpl in Hstep; [|done].
    destruct (zset _ _ _) as [ring|]; simpl in Hstep; [|done]. simplify_eq.
    by eapply keeps_indices.
  - destruct (_ =? ph) eqn:E; simplify_eq; [by eapply keeps_indices|].
    eapply keeps_indices; [symmetry; by apply insert_id|done..].
Qed.

Lemma c_step_indices s t p s' :
  inv k s -> window_ok s -> m_threads s !! t = Some p -> c_step s t p = Some s' ->
  indices s s' p /\ moves_to s s' t.
Proof.
  intros Hinv Hwin Ht Hstep. pose proof (inv_pcs k s Hinv t p Ht) as Hok.
  specialize (Hwin t p Ht). pose proof (inv_shared k s Hinv) as [(Hk & _) _ _ Hch _ Hord _ _].
  assert (2 ^ k <= 2 ^ 27) by (apply Z.pow_le_mono_r; lia).
  destruct p as [| | | | | | | |max b|max b ch gh|max b ch n gh
    |b ch n gh out|b ch n gh out|b ch n gh out| |];
    simpl in Hstep; simplify_eq; simpl in Hwin;
    try (by eapply keeps_indices; [reflexivity|simpl; lia|..]).
  - destruct (actual_entries _ _ _ _); simplify_eq; by eapply keeps_indices.
  - destruct Hok as (_ & -> & Hgh & Hn & Hroom).
    destruct (_ =? _) eqn:E; zbool; simplify_eq; [|by eapply keeps_indices].
    assert (gh = g_ch s) as -> by (apply u32_inj_small; [congruence|lia]).
    specialize (Hroom eq_refl). split; [right; right|eexists; by split]. simpl.
    rewrite Z.ltb_irrefl. split_and!; done || lia.
  - destruct (zlen out <? n) eqn:E; zbool; [|simplify_eq; by eapply keeps_indices].
    destruct (zget _ _) as [x|]; simpl in Hstep; [|done]. simplify_eq.
    by eapply keeps_indices.
  - destruct (_ =? ch) eqn:E; simplify_eq; [by eapply keeps_indices|].
    eapply keeps_indices; [symmetry; by apply insert_id|done..].
Qed.

Lemma step_indices s t p s' :
  inv k s -> window_ok s -> m_threads s !! t = Some p -> step s t = Some s' ->
  indices s s' p /\ moves_to s s' t.
Proof.
  intros Hinv Hwin Ht Hstep. unfold step in Hstep. rewrite Ht in Hstep.
  destruct (p_step s t p) eqn:Hp; simplify_eq;
    [by eapply p_step_indices|by eapply c_step_indices].
Qed.

(** When the thread is stale, or no thread is, its step leaves no thread behind
    by 2^32. *)
Lemma window_step s t p s' :
  inv k s -> window_ok s -> m_threads s !! t = Some p -> step s t = Some s' ->
  stale s p = true \/ (forall t2 p2, m_threads s !! t2 = Some p2 -> stale s p2 = false) ->
  window_ok s'.
Proof.
  intros Hinv Hwin Ht Hstep Hst.
  destruct (step_indices s t p s' Hinv Hwin Ht Hstep) as (Hidx & p' & Hth & Hp').
  intros t2 p2 H2. rewrite Hth, lookup_insert in H2. case_decide; simplify_eq; [done|].
  specialize (Hwin t2 p2 H2).
  assert (g_ph s' = g_ph s /\ g_ch s' = g_ch s \/
          stale s p2 = false /\ g_ph s' < g_ph s + 2 ^ 32 /\ g_ch s' < g_ch s + 2 ^ 32)
    as [[-> ->]|(Hf & Hph & Hch)]; [|done|].
  { destruct Hst as [Hst|Hst].
    - left. destruct Hidx as [?|[(? & _)|(? & _)]]; [done|congruence..].
    - specialize (Hst t2 p2 H2). destruct Hidx as [?|[(_ & ? & ->)|(_ & -> & ?)]]; [by left|..];
        right; split_and!; done || lia. }
  destruct p2; simpl in *; zbool; done || lia.
Qed.

(** From any state that satisfies the invariant the threads can be run until
    each has returned. *)
Lemma run_to_end s :
  inv k s -> window_ok s ->
  exists sched s', run_schedule s sched = Some s' /\ inv k s' /\ window_ok s' /\
    map_Forall (fun _ p => returned p = true) (m_threads s').
Proof.
  induction s as [s IH] using (well_founded_induction (wf_inverse_image _ _ _ rank lex_wf)).
  intros Hinv Hwin.
  destruct (decide (map_Forall (fun _ p => returned p = true) (m_threads s))) as [Hall|Hsome].
  { by exists [], s. }
  apply map_not_Forall in Hsome as (t0 & p0 & H0 & Hr0); [|apply _].
  apply not_true_is_false in Hr0.
  assert (exists t p, m_threads s !! t = Some p /\ returned p = false /\ ~ spins s p /\
    (stale s p = true \/ forall t2 p2, m_threads s !! t2 = Some p2 -> stale s p2 = false))
    as (t & p & Ht & Hr & Hspin & Hst).
  { destruct (decide (map_Forall (fun _ p => stale s p = false) (m_threads s))) as [Hf|Hs].
    - destruct (someone_runs k s t0 p0 Hinv H0 Hr0) as (t & p & Ht & Hr & Hspin).
      exists t, p. split_and!; try done. by right.
    - apply map_not_Forall in Hs as (t & p & Ht & Hs); [|apply _].
      apply not_false_is_true in Hs. exists t, p. destruct p; try done; split_and!; auto. }
  destruct (step_enabled k s t p Hinv Ht Hr) as [s1 Hs1].
  destruct (IH s1) as (sched & s' & Hrun & Hinv' & Hwin' & Hall').
  - by eapply step_lower.
  - by eapply inv_step.
  - by eapply window_step.
  - exists (t :: sched), s'. simpl. rewrite Hs1. done.
Qed.

(** A step that changes where a thread is. *)
Definition moves (s' s : mstate) : Prop :=
  inv k s /\ window_ok s /\ exists t, step s t = Some s' /\ m_threads s' <> m_threads s.

Lemma moves_wf : well_founded moves.
Proof.
  apply (wf_incl _ _ (fun s1 s2 => lex (rank s1) (rank s2)));
    [|apply (wf_inverse_image _ _ _ rank lex_wf)].
  intros s' s (Hinv & Hwin & t & Hstep & Hne).
  destruct (m_threads s !! t) as [p|] eqn:Ht; [|by unfold step in Hstep; rewrite Ht in Hstep].
  eapply step_lower; [done..| |done]. intros Hspin.
  by rewrite (spin_step s t p s' Ht Hspin Hstep) in Hne.
Qed.

End liveness.

(** C3: safety and liveness of concurrent enqueues and dequeues, each of at
    least one object, in every state reached without a thread being overtaken by
    2^32 reservations between its load of an index and its exchange.  The next
    access of a thread that has not returned is inside the ring array and the
    caller's table.  Steps that move a thread cannot go on for ever, retries of
    failed exchanges included, and a step that moves no thread is a thread
    waiting for its turn to publish, which leaves the state as it is; while a
    thread has not returned, some thread can move.  Where no thread is overtaken
    yet, the threads can be run until each of them has returned. *)
Theorem mpmc_safe_and_live (k : Z) (r : odph_ring_t) (threads : gmap nat pc) (s : mstate) :
  init_ok k r threads -> reach (init_state r threads) s -> window_ok s ->
  (forall t p, m_threads s !! t = Some p -> returned p = false ->
     (exists s', step s t = Some s' /\ (m_threads s' <> m_threads s \/ spins s p /\ s' = s)) /\
     exists t2 s', step s t2 = Some s' /\ m_threads s' <> m_threads s) /\
  Acc (moves k) s /\
  exists sched s', run_schedule s sched = Some s' /\ ring_wf (m_ring s') /\
    map_Forall (fun _ p => returned p = true) (m_threads s').
Proof.
  intros Hinit Hreach Hwin. pose proof (inv_reach k r threads s Hinit Hreach) as Hinv.
  split_and!; [|apply moves_wf|].
  - intros t p Ht Hr. split.
    + destruct (step_enabled k s t p Hinv Ht Hr) as [s' Hs']. exists s'. split; [done|].
      destruct (spins_dec s p) as [Hspin|Hspin].
      * right. split; [done|]. by apply (spin_step s t p).
      * left. destruct (step_moves k s t p Hinv Ht Hr Hspin) as (s2 & H2 & Hne). congruence.
    + destruct (someone_runs k s t p Hinv Ht Hr) as (t2 & p2 & H2 & Hr2 & Hspin).
      exists t2. by eapply step_moves.
  - destruct (run_to_end k s Hinv Hwin) as (sched & s' & Hrun & Hinv' & Hwin' & Hall).
    exists sched, s'. split_and!; [done| |done]. by apply (quiescent_wf k).
Qed.

(** Without the window condition the exchange succeeds on an index that has
    come round: a thread that slept through exactly 2^32 reservations takes slots
    according to the room there was then, also when the ring is full now. *)
Theorem stale_exchange_overfills (k : Z) (s : mstate) (t : nat) (objs : list Z) (max : Z)
    (b : odph_ring_queue_behavior) (ph n free gh : Z) :
  inv k s -> m_threads s !! t = Some (P_cas objs max b ph n free gh) ->
  g_ph s = gh + 2 ^ 32 -> g_ph s = g_ct s + (2 ^ k - 1) ->
  exists s', step s t = Some s' /\ g_ph s' > g_ct s' + (2 ^ k - 1).
Proof.
  intros Hinv Ht Hgh Hfull. pose proof (inv_pcs k s Hinv t _ Ht) as (_ & -> & _ & Hn & _).
  eexists. split.
  - unfold step. rewrite Ht. simpl. rewrite (so_ph k s (inv_shared k s Hinv)), Hgh.
    replace (u32 (gh + 2 ^ 32)) with (u32 gh) by cint.
    by rewrite Z.eqb_refl.
  - simpl. lia.
Qed.

(** * A thread that runs alone *)

Lemma zlist_ext (l1 l2 : list Z) :
  zlen l1 = zlen l2 -> (forall j, 0 <= j < zlen l1 -> zget l1 j = zget l2 j) -> l1 = l2.
Proof.
  intros Hlen H. apply list_eq. intros i. unfold zlen in *.
  destruct (decide (i < length l1)%nat).
  - rewrite <- !zget_of_nat. apply H. lia.
  - rewrite !lookup_ge_None_2; [done|lia|lia].
Qed.

(** [m] single-slot stores from object [i] on, the way the threads make them. *)
Fixpoint slot_stores (m : nat) (ring objs : list Z) (mask head i : Z) : option (list Z) :=
  match m with
  | O => Some ring
  | S m => x ← zget objs i; ring ← zset ring (Z.land (head +u32 i) mask) x;
           slot_stores m ring objs mask head (i + 1)
  end.

Lemma slot_stores_spec k m ring objs head i :
  0 <= k <= 27 -> zlen ring = 2 ^ k -> 0 <= i -> i + Z.of_nat m < 2 ^ k ->
  i + Z.of_nat m <= zlen objs ->
  exists ring', slot_stores m ring objs (2 ^ k - 1) head i = Some ring' /\
    zlen ring' = 2 ^ k /\
    forall j, 0 <= j < 2 ^ k ->
      zget ring' j = if bool_decide (i <= (j - head) mod 2 ^ k < i + Z.of_nat m)
                     then zget objs ((j - head) mod 2 ^ k) else zget ring j.
Proof.
  intros Hk. revert ring i. induction m as [|m IH]; intros ring i Hlen Hi Hm Ho.
  - exists ring. split_and!; [done..|]. intros j Hj. by rewrite bool_decide_eq_false_2 by lia.
  - destruct (zget_Some objs i) as [x Hx]; [lia|].
    set (d := Z.land (head +u32 i) (2 ^ k - 1)).
    assert (d = (head + i) mod 2 ^ k) as Hd.
    { unfold d. by rewrite land_pow2_mask, mod_pow2_u32 by lia. }
    assert (0 <= d < 2 ^ k) by (rewrite Hd; apply Z.mod_pos_bound; lia).
    destruct (IH (<[Z.to_nat d := x]> ring) (i + 1)) as (ring' & H1 & H2 & H3);
      [unfold zlen; rewrite length_insert; done|lia..|].
    exists ring'. split_and!; [|done|].
    { simpl. rewrite Hx. simpl. fold d. rewrite zset_Some by lia. done. }
    intros j Hj. rewrite H3 by lia.
    rewrite (zget_zset ring _ d j x) by (apply zset_Some; lia).
    assert (d = j <-> (j - head) mod 2 ^ k = i) as Heq.
    { rewrite Hd. split.
      - intros <-. rewrite Zminus_mod_idemp_l. replace (head + i - head) with i by lia.
        apply Z.mod_small. lia.
      - intros <-. rewrite Zplus_mod_idemp_r. replace (head + (j - head)) with j by lia.
        apply Z.mod_small. lia. }
    pose proof (Z.mod_pos_bound (j - head) (2 ^ k) ltac:(lia)).
    repeat case_bool_decide; try done; try lia. destruct Heq as [Heq _]. rewrite Heq by done. done.
Qed.

(** The unrolled copy of the code is the sequence of single-slot stores. *)
Lemma ENQUEUE_PTRS_stores k ring objs head n :
  0 <= k <= 27 -> zlen ring = 2 ^ k -> 0 <= n < 2 ^ k -> n <= zlen objs ->
  ENQUEUE_PTRS ring objs (2 ^ k) (2 ^ k - 1) head n =
  slot_stores (Z.to_nat n) ring objs (2 ^ k - 1) head 0.
Proof.
  intros Hk Hlen Hn Ho.
  destruct (ENQUEUE_PTRS_spec ring objs k head n) as (r1 & -> & Hl1 & Hg1); [done..|].
  destruct (slot_stores_spec k (Z.to_nat n) ring objs head 0) as (r2 & -> & Hl2 & Hg2);
    [done || lia..|].
  f_equal. apply zlist_ext; [lia|]. intros j Hj. rewrite Hg1, Hg2 by lia.
  pose proof (Z.mod_pos_bound (j - head) (2 ^ k) ltac:(lia)).
  repeat case_bool_decide; done || lia.
Qed.

Lemma run_schedule_app s l1 l2 :
  run_schedule s (l1 ++ l2) = (s' ← run_schedule s l1; run_schedule s' l2).
Proof.
  revert s. induction l1 as [|t l1 IH]; intros s; simpl; [done|].
  destruct (step s t); simpl; [apply IH|done].
Qed.

Lemma copy_run m s t objs b ph n free i gh ring :
  m_threads s !! t = Some (P_copy objs b ph n free i gh) -> i + Z.of_nat m = n ->
  slot_stores m (r_ring (m_ring s)) objs (p_mask (r_prod (m_ring s))) ph i = Some ring ->
  exists s', run_schedule s (replicate m t) = Some s' /\
    m_ring s' = with_ring ring (m_ring s) /\
    m_threads s' !! t = Some (P_copy objs b ph n free n gh).
Proof.
  revert s i. induction m as [|m IH]; intros s i Ht Hi Hst.
  - simpl in Hst. simplify_eq. exists s. split_and!; [done| |].
    + unfold with_ring. by destruct (m_ring s).
    + rewrite Ht. do 2 f_equal. lia.
  - simpl in Hst. destruct (zget objs i) as [x|] eqn:Hx; [|done]. simpl in Hst.
    destruct (zset _ _ x) as [ring1|] eqn:Hs1; [|done]. simpl in Hst.
    set (s1 := Mstate (with_ring ring1 (m_ring s))
                (<[t := P_copy objs b ph n free (i + 1) gh]> (m_threads s))
                (g_base s) (g_ph s) (g_pt s) (g_ch s) (g_ct s) (g_log s)).
    destruct (IH s1 (i + 1)) as (s' & Hrun & Hr & Ht'); [|lia|done|].
    { unfold s1. simpl. apply lookup_insert_eq. }
    exists s'. simpl. unfold step. rewrite Ht. unfold p_step.
    rewrite (proj2 (Z.ltb_lt i n)) by lia. rewrite Hx. simpl. rewrite Hs1. simpl.
    fold s1. done.
Qed.

Lemma step_pc s t p s' :
  m_threads s !! t = Some p -> p_step s t p = Some s' -> step s t = Some s'.
Proof. intros Ht Hp. unfold step. by rewrite Ht, Hp. Qed.

(** From the end of the copy on, nobody else holding the tail. *)
Lemma finish_alone s t objs b ph n free gh :
  m_threads s !! t = Some (P_copy objs b ph n free n gh) -> p_tail (r_prod (m_ring s)) = ph ->
  exists s', run_schedule s [t; t; t] = Some s' /\
    m_ring s' = with_prod (set_p_tail (ph +u32 n)) (m_ring s) /\
    m_threads s' !! t = Some (P_ret objs n (enqueue_ret (m_ring s) free n b) gh).
Proof.
  intros Ht Htail. set (ret := enqueue_ret (m_ring s) free n b).
  set (s1 := set_pc t (P_wait objs ph n ret gh) s).
  set (s2 := set_pc t (P_publish objs ph n ret gh) s1).
  set (s3 := Mstate (with_prod (set_p_tail (ph +u32 n)) (m_ring s))
               (<[t := P_ret objs n ret gh]> (m_threads s2))
               (g_base s) (g_ph s) (gh + n) (g_ch s) (g_ct s) (g_log s)).
  exists s3. split_and!; [|done|apply lookup_insert_eq]. simpl.
  rewrite (step_pc s t _ s1 Ht) by (simpl; by rewrite Z.ltb_irrefl). simpl.
  rewrite (step_pc s1 t (P_wait objs ph n ret gh) s2)
    by (apply lookup_insert_eq || (simpl; by rewrite Htail, Z.eqb_refl)). simpl.
  rewrite (step_pc s2 t (P_publish objs ph n ret gh) s3)
    by (apply lookup_insert_eq || done). done.
Qed.

(** A multi-producer enqueue that is not interfered with does what the
    single-producer enqueue does: same ring afterwards, same return value. *)
Theorem mp_enqueue_alone (s : mstate) (t : nat) (objs : list Z) (n : Z)
    (b : odph_ring_queue_behavior) (r' : odph_ring_t) (ret : Z) :
  ring_wf (m_ring s) -> is_u32 n -> n <= zlen objs ->
  m_threads s !! t = Some (P_start objs n b) ->
  sp_do_enqueue (m_ring s) objs n b = Some (r', ret) ->
  exists steps s', run_schedule s (replicate steps t) = Some s' /\ m_ring s' = r' /\
    (m_threads s' !! t = Some (P_fail ret) \/
     exists m gh, m_threads s' !! t = Some (P_ret objs m ret gh)).
Proof.
  intros ([k Hg] & Hused & Hph & _ & Hpt & Hct) Hn Hobjs Ht Hsp.
  pose proof Hg as (Hk & Hps & _ & Hpm & _ & Hlen & _). unfold sp_do_enqueue in Hsp.
  set (r := m_ring s) in *. set (h := p_head (r_prod r)) in *.
  set (free := p_mask (r_prod r) +u32 c_tail (r_cons r) -u32 h) in *.
  set (s1 := set_pc t (P_head objs n b h (g_ph s)) s).
  assert (step s t = Some s1) as H1 by (by apply (step_pc s t _ s1 Ht)).
  destruct (actual_entries n _ ENOBUFS b) as [m|e] eqn:Ha.
  2: { injection Hsp as <- <-. exists 2%nat, (set_pc t (P_fail e) s1). simpl.
       rewrite H1. simpl.
       rewrite (step_pc s1 t (P_head objs n b h (g_ph s)) (set_pc t (P_fail e) s1))
         by (apply lookup_insert_eq || (simpl; fold r free; by rewrite Ha)).
       split_and!; [done|done|]. left. apply lookup_insert_eq. }
  assert (m <= 2 ^ k - 1 /\ 0 <= m <= n) as Hm.
  { assert (0 <= ring_used r) by apply u32_bound.
    assert (free = 2 ^ k - 1 - ring_used r) as Hfree.
    { unfold free, ring_used. rewrite Hpm, <- Hpt. apply free_entries_eq; [lia|].
      rewrite Hpm in Hused. exact Hused. }
    apply actual_entries_inl in Ha; unfold is_u32 in *; lia. }
  simpl in Hsp. rewrite Hps, Hpm, (ENQUEUE_PTRS_stores k) in Hsp by (done || lia).
  destruct (slot_stores _ _ _ _ _ _) as [ring|] eqn:Hst; [|done]. simpl in Hsp.
  set (s2 := set_pc t (P_cas objs n b h m free (g_ph s)) s1).
  set (s3 := Mstate (with_prod (set_p_head (h +u32 m)) r)
               (<[t := P_copy objs b h m free 0 (g_ph s)]> (m_threads s2))
               (g_base s) (g_ph s + m) (g_pt s) (g_ch s) (g_ct s)
               (g_log s ++ take (Z.to_nat m) objs)).
  destruct (copy_run (Z.to_nat m) s3 t objs b h m free 0 (g_ph s) ring)
    as (s4 & H4 & Hr4 & Ht4); [apply lookup_insert_eq|lia|simpl; by rewrite Hpm|].
  destruct (finish_alone s4 t objs b h m free (g_ph s) Ht4) as (s7 & H7 & Hr7 & Ht7);
    [by rewrite Hr4|].
  exists (3 + (Z.to_nat m + 3))%nat, s7. split_and!.
  - rewrite replicate_add, run_schedule_app. simpl. rewrite H1. simpl.
    rewrite (step_pc s1 t (P_head objs n b h (g_ph s)) s2)
      by (apply lookup_insert_eq || (simpl; fold r free; by rewrite Ha)). simpl.
    rewrite (step_pc s2 t (P_cas objs n b h m free (g_ph s)) s3)
      by (apply lookup_insert_eq || (simpl; fold r h; by rewrite Z.eqb_refl)). simpl.
    by rewrite replicate_add, run_schedule_app, H4.
  - rewrite Hr7, Hr4. by injection Hsp as <- <-.
  - right. exists m, (g_ph s). rewrite Ht7, Hr4. by injection Hsp as <- <-.
Qed.

(** * Concrete executions *)

(** A four-slot ring whose indices are about to wrap around. *)
Definition wrap_ring : odph_ring_t :=
  Mk_ring "w" 0 (Prod 4 false 4 3 4294967294 4294967294)
    (Cons false 4 3 4294967294 4294967294) [0; 0; 0; 0].

Definition demo_threads : gmap nat pc :=
  {[0%nat := P_start [1; 2] 2 ODPH_RING_QUEUE_FIXED;
    1%nat := P_start [3] 1 ODPH_RING_QUEUE_FIXED;
    2%nat := C_start 2 ODPH_RING_QUEUE_VARIABLE]}.

(** Thread 1 overtakes thread 0 between its load and its exchange. *)
Definition demo_schedule : list nat :=
  [0; 0; 1; 1; 1; 0; 1; 1; 1; 1; 0; 0; 0; 0; 0; 0; 0; 0; 2; 2; 2; 2; 2; 2; 2; 2]%nat.

Definition demo_final : mstate :=
  default (init_state wrap_ring demo_threads)
    (run_schedule (init_state wrap_ring demo_threads) demo_schedule).

Lemma demo_init_ok : init_ok 2 wrap_ring demo_threads.
Proof.
  unfold init_ok, ring_geom, is_u32. simpl. split_and!; try done; try lia.
  repeat apply map_Forall_insert_2; try apply map_Forall_empty;
    unfold starting, zlen; simpl; lia.
Qed.

Lemma demo_reach : reach (init_state wrap_ring demo_threads) demo_final.
Proof.
  apply (exec_reach 2); [apply demo_init_ok| |].
  - apply (run_schedule_exec _ (init_state wrap_ring demo_threads) demo_schedule);
      [apply exec_refl|vm_compute; reflexivity].
  - vm_compute. reflexivity.
Qed.

Lemma mpmc_exactly_once_witness :
  m_threads demo_final !! 2%nat = Some (C_ret 2 2 4294967294 [3; 1]) /\
  [3; 1] = seg demo_final 4294967294 2.
Proof.
  split; [vm_compute; reflexivity|].
  destruct (mpmc_exactly_once 2 wrap_ring demo_threads demo_final demo_init_ok demo_reach)
    as (_ & Hout & _).
  apply (Hout 2%nat 2 2). vm_compute. reflexivity.
Defined.

Lemma mpmc_quiescent_witness : contents (m_ring demo_final) = [2].
Proof.
  transitivity (drop (Z.to_nat (g_ct demo_final - g_base demo_final)) (g_log demo_final));
    [|vm_compute; reflexivity].
  apply (mpmc_quiescent 2 wrap_ring demo_threads demo_final demo_init_ok demo_reach).
  apply (bool_decide_unpack _). vm_compute. reflexivity.
Defined.

Lemma mpmc_safe_and_live_witness :
  exists sched s', run_schedule (init_state wrap_ring demo_threads) sched = Some s' /\
    map_Forall (fun _ p => returned p = true) (m_threads s').
Proof.
  destruct (mpmc_safe_and_live 2 wrap_ring demo_threads (init_state wrap_ring demo_threads)
              demo_init_ok) as (_ & _ & sched & s' & Hrun & _ & Hall);
    [apply reach_refl| |by exists sched, s'].
  intros t p Ht. destruct demo_init_ok as (_ & _ & _ & _ & _ & Hth).
  specialize (Hth t p Ht). by destruct p.
Defined.

Lemma mp_enqueue_alone_witness :
  exists steps s', run_schedule (init_state wrap_ring demo_threads) (replicate steps 0%nat) = Some s' /\
    r_ring (m_ring s') = [0; 0; 1; 2].
Proof.
  destruct (mp_enqueue_alone (init_state wrap_ring demo_threads) 0 [1; 2] 2 ODPH_RING_QUEUE_FIXED
              (Mk_ring "w" 0 (Prod 4 false 4 3 0 0) (Cons false 4 3 4294967294 4294967294)
                 [0; 0; 1; 2]) 0) as (steps & s' & Hrun & Hr & _);
    [|unfold is_u32; lia|reflexivity..|exists steps, s'; by rewrite Hr].
  unfold ring_wf, is_u32, ring_used. simpl. split_and!; try done; try lia.
  exists 2. unfold ring_geom. simpl. split_and!; done || lia.
Defined.

(** A multi-producer enqueue of zero objects can hang.  A thread that asks
    for nothing still exchanges the producer head and then waits for the tail to
    reach the head it saw; once another producer has published past it, every
    other thread may have returned and the thread still spins. *)
Theorem mp_enqueue_zero_hangs :
  exists sched s, run_schedule
      (init_state wrap_ring {[0%nat := P_start [] 0 ODPH_RING_QUEUE_FIXED;
                              1%nat := P_start [5] 1 ODPH_RING_QUEUE_FIXED]}) sched = Some s /\
    (exists objs n ret gh, m_threads s !! 1%nat = Some (P_ret objs n ret gh)) /\
    (forall m, run_schedule s (replicate m 0%nat) = Some s) /\
    (exists p, m_threads s !! 0%nat = Some p /\ returned p = false).
Proof.
  exists [0; 0; 0; 1; 1; 1; 1; 1; 1; 1; 0]%nat. eexists. split; [vm_compute; reflexivity|].
  split_and!.
  - eexists _, _, _, _. vm_compute. reflexivity.
  - induction m as [|m IH]; [done|]. simpl. exact IH.
  - eexists. split; [vm_compute; reflexivity|done].
Qed.

End RingConc.
