(* ===== verification/Pool.v ===== *)
(** Buffer pools: [odp_pool_internal.h] and the allocation half of [odp_pool.c].

    Buffer headers and data blocks live at addresses; the free lists are the
    linked lists the code threads through them.  A read or write of an address
    that is no header (or no block) of the pool, or of a block pointer outside
    [addr\[\]], is [None].  The functions are the code's, one lock section after
    the other; the lock protocol itself is the subject of [Locks]. *)

From S2P Require Import Prelude.

Open Scope Z_scope.
Open Scope c_scope.

Module Pool.

Definition ODP_EVENT_BUFFER : Z := 1.
Definition ODP_EVENT_PACKET : Z := 2.
Definition ODP_EVENT_TIMEOUT : Z := 3.

Definition ODP_FREEBUF : Z := -1.
Definition NULL : Z := 0.
Definition ODP_BUFFER_INVALID : Z := 0.
Definition ODP_THREAD_COUNT_MAX : Z := 128.
(** [ODP_CONFIG_PACKET_BUF_LEN_MAX / ODP_CONFIG_PACKET_SEG_LEN_MIN] *)
Definition ODP_BUFFER_MAX_SEG : Z := 6.
Definition ODP_HDR_BACK_PTR_SIZE : Z := 0x40.

(** [odp_buffer_hdr_t], the fields the pool code uses. *)
Record buffer_hdr := Hdr {
  h_next : Z;
  h_handle : Z;
  h_zeroized : bool;
  h_hdrdata : bool;
  h_allocator : Z;
  h_type : Z;
  h_event_type : Z;
  h_size : Z;
  h_ref_count : Z;
  h_pool_hdl : Z;
  h_uarea_addr : Z;
  h_uarea_size : Z;
  h_segcount : Z;
  h_segsize : Z;
  h_addr : list Z;
  h_origin_qe : Z
}.

Definition set_h_next (v : Z) (h : buffer_hdr) : buffer_hdr :=
  Hdr v (h_handle h) (h_zeroized h) (h_hdrdata h) (h_allocator h) (h_type h) (h_event_type h)
    (h_size h) (h_ref_count h) (h_pool_hdl h) (h_uarea_addr h) (h_uarea_size h)
    (h_segcount h) (h_segsize h) (h_addr h) (h_origin_qe h).
Definition set_h_allocator (v : Z) (h : buffer_hdr) : buffer_hdr :=
  Hdr (h_next h) (h_handle h) (h_zeroized h) (h_hdrdata h) v (h_type h) (h_event_type h)
    (h_size h) (h_ref_count h) (h_pool_hdl h) (h_uarea_addr h) (h_uarea_size h)
    (h_segcount h) (h_segsize h) (h_addr h) (h_origin_qe h).
Definition set_h_size (v : Z) (h : buffer_hdr) : buffer_hdr :=
  Hdr (h_next h) (h_handle h) (h_zeroized h) (h_hdrdata h) (h_allocator h) (h_type h)
    (h_event_type h) v (h_ref_count h) (h_pool_hdl h) (h_uarea_addr h) (h_uarea_size h)
    (h_segcount h) (h_segsize h) (h_addr h) (h_origin_qe h).
Definition set_h_segs (n : Z) (addr : list Z) (h : buffer_hdr) : buffer_hdr :=
  Hdr (h_next h) (h_handle h) (h_zeroized h) (h_hdrdata h) (h_allocator h) (h_type h)
    (h_event_type h) (h_size h) (h_ref_count h) (h_pool_hdl h) (h_uarea_addr h)
    (h_uarea_size h) n (h_segsize h) addr (h_origin_qe h).
Definition set_h_alloc_info (zeroized : bool) (origin : Z) (h : buffer_hdr) : buffer_hdr :=
  Hdr (h_next h) (h_handle h) zeroized (h_hdrdata h) (h_allocator h) (h_type h)
    (h_event_type h) (h_size h) (h_ref_count h) (h_pool_hdl h) (h_uarea_addr h)
    (h_uarea_size h) (h_segcount h) (h_segsize h) (h_addr h) origin.

(** [local_cache_t] *)
Record local_cache_t := Cache {
  lc_freelist : Z;
  lc_bufallocs : Z;
  lc_buffrees : Z
}.

(** [_odp_pool_stats_t] *)
Record pool_stats := Stats {
  st_bufallocs : Z;
  st_buffrees : Z;
  st_blkallocs : Z;
  st_blkfrees : Z;
  st_bufempty : Z;
  st_blkempty : Z;
  st_high_wm_count : Z;
  st_low_wm_count : Z
}.

Definition stats_add (da df ba bf be ke hw lw : Z) (s : pool_stats) : pool_stats :=
  Stats (st_bufallocs s +u64 da) (st_buffrees s +u64 df) (st_blkallocs s +u64 ba)
    (st_blkfrees s +u64 bf) (st_bufempty s +u64 be) (st_blkempty s +u64 ke)
    (st_high_wm_count s +u64 hw) (st_low_wm_count s +u64 lw).

(** The fields of [struct pool_entry_s] that [odp_pool_create] sets once. *)
Record pool_cfg := Cfg {
  c_pool_hdl : Z;
  c_type : Z;
  c_zeroized : bool;
  c_unsegmented : bool;
  c_buf_num : Z;
  c_seg_size : Z;
  c_blk_size : Z;
  c_high_wm : Z;
  c_low_wm : Z;
  c_headroom : Z;
  c_tailroom : Z;
  c_max_size : Z;
  c_room_size : Z;
  c_buf_stride : Z;
  c_mdata_addr : Z
}.

(** A pool: configuration, the mutable fields of [struct pool_entry_s], and the
    memory of the pool (headers, the [next] word of free blocks, and the header
    back pointers stored in front of first blocks). *)
Record pool := Mk_pool {
  p_cfg : pool_cfg;
  buf_freelist : Z;
  blk_freelist : Z;
  bufcount : Z;
  blkcount : Z;
  low_wm_assert : bool;
  poolstats : pool_stats;
  local_cache : list local_cache_t;
  hdrs : gmap Z buffer_hdr;
  blks : gmap Z Z;
  back_ptrs : gmap Z Z
}.

Definition set_buf_freelist (v : Z) (p : pool) : pool :=
  Mk_pool (p_cfg p) v (blk_freelist p) (bufcount p) (blkcount p) (low_wm_assert p)
    (poolstats p) (local_cache p) (hdrs p) (blks p) (back_ptrs p).
Definition set_blk_freelist (v : Z) (p : pool) : pool :=
  Mk_pool (p_cfg p) (buf_freelist p) v (bufcount p) (blkcount p) (low_wm_assert p)
    (poolstats p) (local_cache p) (hdrs p) (blks p) (back_ptrs p).
Definition set_bufcount (v : Z) (p : pool) : pool :=
  Mk_pool (p_cfg p) (buf_freelist p) (blk_freelist p) v (blkcount p) (low_wm_assert p)
    (poolstats p) (local_cache p) (hdrs p) (blks p) (back_ptrs p).
Definition set_blkcount (v : Z) (p : pool) : pool :=
  Mk_pool (p_cfg p) (buf_freelist p) (blk_freelist p) (bufcount p) v (low_wm_assert p)
    (poolstats p) (local_cache p) (hdrs p) (blks p) (back_ptrs p).
Definition set_low_wm_assert (v : bool) (p : pool) : pool :=
  Mk_pool (p_cfg p) (buf_freelist p) (blk_freelist p) (bufcount p) (blkcount p) v
    (poolstats p) (local_cache p) (hdrs p) (blks p) (back_ptrs p).
Definition on_stats (f : pool_stats -> pool_stats) (p : pool) : pool :=
  Mk_pool (p_cfg p) (buf_freelist p) (blk_freelist p) (bufcount p) (blkcount p)
    (low_wm_assert p) (f (poolstats p)) (local_cache p) (hdrs p) (blks p) (back_ptrs p).
Definition set_caches (v : list local_cache_t) (p : pool) : pool :=
  Mk_pool (p_cfg p) (buf_freelist p) (blk_freelist p) (bufcount p) (blkcount p)
    (low_wm_assert p) (poolstats p) v (hdrs p) (blks p) (back_ptrs p).
Definition set_hdrs (v : gmap Z buffer_hdr) (p : pool) : pool :=
  Mk_pool (p_cfg p) (buf_freelist p) (blk_freelist p) (bufcount p) (blkcount p)
    (low_wm_assert p) (poolstats p) (local_cache p) v (blks p) (back_ptrs p).
Definition set_blks (v : gmap Z Z) (p : pool) : pool :=
  Mk_pool (p_cfg p) (buf_freelist p) (blk_freelist p) (bufcount p) (blkcount p)
    (low_wm_assert p) (poolstats p) (local_cache p) (hdrs p) v (back_ptrs p).
Definition set_back_ptrs (v : gmap Z Z) (p : pool) : pool :=
  Mk_pool (p_cfg p) (buf_freelist p) (blk_freelist p) (bufcount p) (blkcount p)
    (low_wm_assert p) (poolstats p) (local_cache p) (hdrs p) (blks p) v.

(** [f(buf)] for a header that must exist. *)
Definition on_hdr (buf : Z) (f : buffer_hdr -> buffer_hdr) (p : pool) : option pool :=
  h ← hdrs p !! buf; Some (set_hdrs (<[buf := f h]> (hdrs p)) p).

(** * Blocks *)

Definition get_blk (p : pool) : option (Z * pool) :=
  let myhead := blk_freelist p in
  if myhead =? NULL then Some (myhead, on_stats (stats_add 0 0 0 0 0 1 0 0) p)
  else
    next ← blks p !! myhead;
    let p := set_blk_freelist next p in
    let p := set_blkcount (blkcount p -u32 1) p in
    Some (myhead, on_stats (stats_add 0 0 1 0 0 0 0 0) p).

Definition ret_blk (p : pool) (block : Z) : option pool :=
  _ ← blks p !! block;
  let p := set_blks (<[block := blk_freelist p]> (blks p)) p in
  let p := set_blk_freelist block p in
  let p := set_blkcount (blkcount p +u32 1) p in
  Some (on_stats (stats_add 0 0 0 1 0 0 0 0) p).

(** * Buffers *)

Definition get_buf (p : pool) : option (Z * pool) :=
  let myhead := buf_freelist p in
  if myhead =? NULL then Some (myhead, on_stats (stats_add 0 0 0 0 1 0 0 0) p)
  else
    h ← hdrs p !! myhead;
    let p := set_buf_freelist (h_next h) p in
    let count := bufcount p -u32 1 in
    let p := set_bufcount count p in
    let p :=
      if (count =? c_low_wm (p_cfg p)) && negb (low_wm_assert p)
      then on_stats (stats_add 0 0 0 0 0 0 0 1) (set_low_wm_assert true p)
      else p in
    Some (myhead, on_stats (stats_add 1 0 0 0 0 0 0 0) p).

(** [while (buf->segcount > 0) ret_blk(pool, buf->addr\[--buf->segcount\])],
    [n] being the segment count. *)
Fixpoint ret_segs (n : nat) (p : pool) (buf : Z) : option pool :=
  match n with
  | O => Some p
  | S n =>
      h ← hdrs p !! buf;
      a ← zget (h_addr h) (Z.of_nat n);
      p ← on_hdr buf (set_h_segs (Z.of_nat n) (h_addr h)) p;
      p ← ret_blk p a;
      ret_segs n p buf
  end.

Definition ret_buf (p : pool) (buf : Z) : option pool :=
  h ← hdrs p !! buf;
  p ← (if negb (h_hdrdata h) && negb (h_type h =? ODP_EVENT_BUFFER) then
         p ← ret_segs (Z.to_nat (h_segcount h)) p buf;
         on_hdr buf (set_h_size 0) p
       else Some p);
  p ← on_hdr buf (set_h_allocator ODP_FREEBUF) p;
  p ← on_hdr buf (set_h_next (buf_freelist p)) p;
  let p := set_buf_freelist buf p in
  let count := bufcount p +u32 1 in
  let p := set_bufcount count p in
  let p :=
    if (count =? c_high_wm (p_cfg p)) && low_wm_assert p
    then on_stats (stats_add 0 0 0 0 0 0 1 0) (set_low_wm_assert false p)
    else p in
  Some (on_stats (stats_add 0 1 0 0 0 0 0 0) p).

(** The [do { ... } while (needed > 0)] loop that attaches blocks to [buf].
    [inl p] when a block was missing, [inr p] when all were found.  [addr\[\]] has
    [ODP_BUFFER_MAX_SEG] entries, so one iteration more than that is fuel
    enough. *)
Fixpoint attach_blks (fuel : nat) (p : pool) (buf needed : Z) : option (pool + pool) :=
  match fuel with
  | O => None
  | S fuel =>
      '(blk, p) ← get_blk p;
      if blk =? NULL then Some (inl p)
      else
        h ← hdrs p !! buf;
        addr ← zset (h_addr h) (h_segcount h) blk;
        p ← on_hdr buf (set_h_segs (h_segcount h +u32 1) addr) p;
        let needed := needed - c_seg_size (p_cfg p) in
        if needed >? 0 then attach_blks fuel p buf needed else Some (inr p)
  end.

Definition seg_fuel : nat := S (Z.to_nat ODP_BUFFER_MAX_SEG).

(** [buf->size = buf->segcount * pool->seg_size] *)
Definition update_size (p : pool) (buf : Z) : option pool :=
  h ← hdrs p !! buf;
  on_hdr buf (set_h_size (h_segcount h *u32 c_seg_size (p_cfg p))) p.

(** * Local caches *)

Definition on_cache (tid : Z) (f : local_cache_t -> local_cache_t) (p : pool) : option pool :=
  c ← zget (local_cache p) tid;
  l ← zset (local_cache p) tid (f c);
  Some (set_caches l p).

Definition get_local_buf (p : pool) (tid totsize : Z) : option (Z * pool) :=
  c ← zget (local_cache p) tid;
  let buf := lc_freelist c in
  if negb (buf =? NULL) then
    h ← hdrs p !! buf;
    p ← on_cache tid (fun c => Cache (h_next h) (lc_bufallocs c) (lc_buffrees c)) p;
    r ← (if h_size h <? totsize then
           r ← attach_blks seg_fuel p buf (totsize - h_size h);
           match r with
           | inl p =>
               p ← ret_buf p buf;
               p ← on_cache tid (fun c => Cache (lc_freelist c) (lc_bufallocs c)
                                            (lc_buffrees c -u64 1)) p;
               Some (inl p)
           | inr p => p ← update_size p buf; Some (inr p)
           end
         else Some (inr p));
    match r with
    | inl p => Some (NULL, p)
    | inr p =>
        p ← on_cache tid (fun c => Cache (lc_freelist c) (lc_bufallocs c +u64 1)
                                     (lc_buffrees c)) p;
        Some (buf, p)
    end
  else Some (buf, p).

Definition ret_local_buf (p : pool) (tid buf : Z) : option pool :=
  p ← on_hdr buf (set_h_allocator ODP_FREEBUF) p;
  c ← zget (local_cache p) tid;
  p ← on_hdr buf (set_h_next (lc_freelist c)) p;
  on_cache tid (fun c => Cache buf (lc_bufallocs c) (lc_buffrees c +u64 1)) p.

(** [while (buf != NULL)]: the number of flushed buffers is returned. *)
Fixpoint flush_loop (fuel : nat) (p : pool) (buf count : Z) : option (pool * Z) :=
  if buf =? NULL then Some (p, count)
  else
    match fuel with
    | O => None
    | S fuel =>
        h ← hdrs p !! buf;
        p ← ret_buf p buf;
        flush_loop fuel p (h_next h) (count +u32 1)
    end.

Definition flush_cache (p : pool) (tid : Z) : option pool :=
  c ← zget (local_cache p) tid;
  '(p, flush_count) ← flush_loop (size (hdrs p)) p (lc_freelist c) 0;
  let p := on_stats (stats_add (lc_bufallocs c) (lc_buffrees c -u64 flush_count) 0 0 0 0 0 0) p in
  on_cache tid (fun _ => Cache NULL 0 0) p.

(** * The allocation entry points *)

(** The branch of [buffer_alloc] taken when the local cache is empty: a header
    from the pool and the blocks it lacks.  [inl] when either is missing. *)
Definition alloc_from_pool (p : pool) (totsize : Z) : option (pool + Z * pool) :=
  '(buf, p) ← get_buf p;
  if buf =? NULL then Some (inl p)
  else
    h ← hdrs p !! buf;
    if h_size h <? totsize then
      r ← attach_blks seg_fuel p buf (totsize - h_size h);
      match r with
      | inl p => p ← ret_buf p buf; Some (inl p)
      | inr p =>
          p ← update_size p buf;
          h ← hdrs p !! buf;
          a ← zget (h_addr h) 0;
          Some (inr (buf, set_back_ptrs
                            (<[a - ODP_HDR_BACK_PTR_SIZE := buf]> (back_ptrs p)) p))
      end
    else Some (inr (buf, p)).

(** [buffer_alloc(pool, size)] on thread [tid]; the result is the header
    address or [ODP_BUFFER_INVALID]. *)
Definition buffer_alloc (p : pool) (tid size : Z) : option (Z * pool) :=
  let totsize := size +u64 c_room_size (p_cfg p) in
  if size >? c_max_size (p_cfg p) then Some (ODP_BUFFER_INVALID, p)
  else
    '(buf, p) ← get_local_buf p tid totsize;
    r ← (if buf =? NULL then alloc_from_pool p totsize else Some (inr (buf, p)));
    match r with
    | inl p => Some (ODP_BUFFER_INVALID, p)
    | inr (buf, p) =>
        p ← on_hdr buf (set_h_allocator tid) p;
        p ← on_hdr buf (set_h_alloc_info (c_zeroized (p_cfg p)) NULL) p;
        Some (buf, p)
    end.

(** [buffer_alloc_multi]: the buffers obtained before the first failure. *)
Fixpoint buffer_alloc_multi (num : nat) (p : pool) (tid size : Z) : option (list Z * pool) :=
  match num with
  | O => Some ([], p)
  | S num =>
      '(buf, p) ← buffer_alloc p tid size;
      if buf =? ODP_BUFFER_INVALID then Some ([], p)
      else '(bufs, p) ← buffer_alloc_multi num p tid size; Some (buf :: bufs, p)
  end.

(** Freeing a free buffer fails an assertion, which is compiled in unless
    debugging is disabled. *)
Definition odp_buffer_free (p : pool) (tid buf : Z) : option pool :=
  h ← hdrs p !! buf;
  if h_allocator h =? ODP_FREEBUF then None
  else if low_wm_assert p then ret_buf p buf else ret_local_buf p tid buf.

Fixpoint odp_buffer_free_multi (p : pool) (tid : Z) (bufs : list Z) : option pool :=
  match bufs with
  | [] => Some p
  | buf :: bufs => p ← odp_buffer_free p tid buf; odp_buffer_free_multi p tid bufs
  end.

(** [odp_pool_destroy] from the flush of the caches on: all caches in turn,
    then the test for outstanding buffers.  [true] when the pool goes. *)
Fixpoint flush_all (n : nat) (tid : Z) (p : pool) : option pool :=
  match n with
  | O => Some p
  | S n => p ← flush_cache p tid; flush_all n (tid + 1) p
  end.

Definition destroy_pool (p : pool) : option (bool * pool) :=
  p ← flush_all (Z.to_nat ODP_THREAD_COUNT_MAX) 0 p;
  Some (negb (bufcount p <? c_buf_num (p_cfg p)), p).

End Pool.
