(* ===== verification/PoolProofs.v ===== *)
(** Conservation of buffers and blocks: every operation of a pool keeps each
    header in exactly one place (the pool's free list, one thread's cache, or
    the application) and each block in exactly one place (the block free list or
    one header), so that no two live buffers ever share a block. *)

From S2P Require Import Prelude Pool.

Open Scope Z_scope.
Open Scope c_scope.

Module PoolProofs.
Import Pool.

(** * Linked lists *)

(** The list of addresses reached from [a] through the map of next pointers. *)
Fixpoint chain {A} (next : A -> Z) (m : gmap Z A) (a : Z) (l : list Z) : Prop :=
  match l with
  | [] => a = NULL
  | x :: l => a = x /\ x <> NULL /\ exists v, m !! x = Some v /\ chain next m (next v) l
  end.

Lemma chain_ext {A} (next : A -> Z) m m' a l :
  (forall x v, x ∈ l -> m !! x = Some v -> exists v', m' !! x = Some v' /\ next v' = next v) ->
  chain next m a l -> chain next m' a l.
Proof.
  revert a. induction l as [|x l IH]; intros a Hext Hc; simpl in *; [done|].
  destruct Hc as (-> & Hne & v & Hv & Hc). split_and!; [done..|].
  destruct (Hext x v) as (v' & Hv' & Hn); [set_solver|done|].
  exists v'. split; [done|]. rewrite Hn. apply IH; [|done].
  intros y w Hy. apply Hext. set_solver.
Qed.

Lemma chain_insert_ne {A} (next : A -> Z) m a l y v :
  y ∉ l -> chain next m a l -> chain next (<[y := v]> m) a l.
Proof.
  intros Hy. apply chain_ext. intros x w Hx Hw. exists w.
  rewrite lookup_insert_ne; [done|]. intros ->. done.
Qed.

Lemma chain_nil {A} (next : A -> Z) m l : chain next m NULL l -> l = [].
Proof. destruct l as [|x l]; [done|]. intros (H & Hne & _). congruence. Qed.

Lemma chain_cons {A} (next : A -> Z) m a l :
  chain next m a l -> a <> NULL ->
  exists v l', l = a :: l' /\ m !! a = Some v /\ chain next m (next v) l'.
Proof.
  destruct l as [|x l]; intros Hc Ha; [done|].
  destruct Hc as (-> & _ & v & Hv & Hc). by exists v, l.
Qed.

(** * Ownership of blocks *)

Definition hdr_segs (h : buffer_hdr) : list Z :=
  if h_hdrdata h then [] else take (Z.to_nat (h_segcount h)) (h_addr h).

Definition segs_of (m : gmap Z buffer_hdr) (x : Z) : list Z :=
  match m !! x with Some h => hdr_segs h | None => [] end.

Lemma flat_map_segs_ext m m' l :
  (forall x, x ∈ l -> segs_of m' x = segs_of m x) ->
  flat_map (segs_of m') l = flat_map (segs_of m) l.
Proof.
  induction l as [|x l IH]; intros H; simpl; [done|].
  rewrite H by set_solver. rewrite IH; [done|]. intros y Hy. apply H. set_solver.
Qed.

(** Changing one header changes only its share of the blocks. *)
Lemma segs_split m x h h' l :
  x ∈ l -> NoDup l -> m !! x = Some h ->
  exists R, flat_map (segs_of m) l ≡ₚ hdr_segs h ++ R /\
            flat_map (segs_of (<[x := h']> m)) l ≡ₚ hdr_segs h' ++ R.
Proof.
  intros Hx Hnd Hm. apply elem_of_Permutation in Hx as [l' Hl].
  assert (x ∉ l') as Hnot.
  { rewrite Hl in Hnd. by apply NoDup_cons in Hnd as [? _]. }
  exists (flat_map (segs_of m) l'). split.
  - rewrite (Permutation_flat_map (segs_of m) Hl). simpl. unfold segs_of at 1. by rewrite Hm.
  - rewrite (Permutation_flat_map (segs_of (<[x := h']> m)) Hl). simpl.
    unfold segs_of at 1. rewrite lookup_insert_eq.
    rewrite (flat_map_segs_ext m); [done|]. intros y Hy. unfold segs_of.
    rewrite lookup_insert_ne; [done|]. intros ->. done.
Qed.

(** * The pool invariant *)

Section pool.
(** All headers, all blocks and the configuration of the pool. *)
Context (L allb : list Z) (cfg : pool_cfg).

(** The counters are 32 bits wide. *)
Definition lens_ok : Prop :=
  Z.of_nat (length L) < 2 ^ 32 /\ Z.of_nat (length allb) < 2 ^ 32.

(** What creation guarantees of the sizes. *)
Record cfg_ok : Prop := {
  cfg_seg : 0 <= c_seg_size cfg;
  cfg_seg_max : c_seg_size cfg * ODP_BUFFER_MAX_SEG < 2 ^ 32;
  cfg_room : 0 <= c_room_size cfg;
  cfg_max : 0 <= c_max_size cfg;
  cfg_fit : c_max_size cfg + c_room_size cfg <= c_seg_size cfg * ODP_BUFFER_MAX_SEG;
  cfg_raw : c_type cfg = ODP_EVENT_BUFFER ->
            c_max_size cfg + c_room_size cfg <= c_seg_size cfg;
  cfg_lens : lens_ok
}.

(** A header whose segments are in order, whatever its size field says. *)
Record hdr_shape (h : buffer_hdr) : Prop := {
  hs_addr : zlen (h_addr h) = ODP_BUFFER_MAX_SEG;
  hs_count : 0 <= h_segcount h <= ODP_BUFFER_MAX_SEG;
  hs_type : h_type h = c_type cfg;
  hs_hdrdata : h_hdrdata h = true -> allb = []
}.

(** Outside an allocation the size is the room the segments give. *)
Definition hdr_sized (h : buffer_hdr) : Prop :=
  h_hdrdata h = false -> h_size h = h_segcount h * c_seg_size cfg.

(** [F] is the pool's free list, [C] the threads' caches, [A] the buffers in
    use and [B] the block free list; the size of [ex] is not constrained. *)
Record pinv (ex : option Z) (p : pool) (F : list Z) (C : list (list Z)) (A B : list Z) : Prop := {
  pi_cfg : p_cfg p = cfg;
  pi_all : F ++ concat C ++ A ≡ₚ L;
  pi_nodup : NoDup L;
  pi_nonnull : NULL ∉ L;
  pi_dom : forall x, x ∈ L <-> is_Some (hdrs p !! x);
  pi_free : chain h_next (hdrs p) (buf_freelist p) F;
  pi_ncaches : length (local_cache p) = length C;
  pi_caches : forall i c l, local_cache p !! i = Some c -> C !! i = Some l ->
    chain h_next (hdrs p) (lc_freelist c) l;
  pi_bufcount : bufcount p = Z.of_nat (length F);
  pi_blkfree : chain id (blks p) (blk_freelist p) B;
  pi_blkcount : blkcount p = Z.of_nat (length B);
  pi_blocks : B ++ flat_map (segs_of (hdrs p)) L ≡ₚ allb;
  pi_bnodup : NoDup allb;
  pi_bdom : forall b, b ∈ allb -> b <> NULL /\ is_Some (blks p !! b);
  pi_shape : forall x h, hdrs p !! x = Some h -> hdr_shape h;
  pi_sized : forall x h, hdrs p !! x = Some h -> ex <> Some x -> hdr_sized h;
  pi_packet : forall x h, x ∈ F -> hdrs p !! x = Some h -> h_hdrdata h = false ->
    c_type cfg <> ODP_EVENT_BUFFER -> h_segcount h = 0
}.

Lemma pinv_nodup ex p F C A B : pinv ex p F C A B -> NoDup (F ++ concat C ++ A).
Proof. intros H. rewrite (pi_all _ _ _ _ _ _ H). apply H. Qed.

Lemma blks_nodup ex p F C A B : pinv ex p F C A B -> NoDup (B ++ flat_map (segs_of (hdrs p)) L).
Proof. intros H. rewrite (pi_blocks _ _ _ _ _ _ H). apply H. Qed.

Lemma blks_len ex p F C A B :
  pinv ex p F C A B -> (length B <= length allb)%nat.
Proof.
  intros H. rewrite <- (Permutation_length (pi_blocks _ _ _ _ _ _ H)), length_app. lia.
Qed.

Lemma bufs_len ex p F C A B : pinv ex p F C A B -> (length F <= length L)%nat.
Proof. intros H. rewrite <- (Permutation_length (pi_all _ _ _ _ _ _ H)), length_app. lia. Qed.

(** A header in use is on no list. *)
Lemma in_use_not_listed ex p F C A B x :
  pinv ex p F C (x :: A) B -> (x ∉ F) /\ Forall (fun l => x ∉ l) C.
Proof.
  intros H. pose proof (pinv_nodup _ _ _ _ _ _ H) as Hnd.
  apply NoDup_app in Hnd as (_ & H1 & Hnd). apply NoDup_app in Hnd as (_ & H2 & _).
  split; [intros Hx; apply (H1 x Hx); set_solver|].
  apply Forall_forall. intros l Hl Hx. apply (H2 x); [|set_solver].
  apply list_elem_of_In, in_concat. exists l. by rewrite <- !list_elem_of_In.
Qed.

(** Statistics, back pointers and the water-mark flag are not part of it. *)
Lemma pinv_on_stats ex p F C A B f : pinv ex p F C A B -> pinv ex (on_stats f p) F C A B.
Proof. intros []. by split. Qed.
Lemma pinv_low_wm ex p F C A B v : pinv ex p F C A B -> pinv ex (set_low_wm_assert v p) F C A B.
Proof. intros []. by split. Qed.
Lemma pinv_back_ptrs ex p F C A B v : pinv ex p F C A B -> pinv ex (set_back_ptrs v p) F C A B.
Proof. intros []. by split. Qed.

(** * Header updates of a buffer in use *)

Lemma pinv_update ex ex' p F C A B B' x h h' :
  pinv ex p F C (x :: A) B -> hdrs p !! x = Some h -> hdr_shape h' ->
  (ex' <> Some x -> hdr_sized h') -> (forall y, y <> x -> ex' <> Some y -> ex <> Some y) ->
  (B' ++ hdr_segs h' ≡ₚ B ++ hdr_segs h) ->
  forall p', p_cfg p' = p_cfg p -> buf_freelist p' = buf_freelist p -> bufcount p' = bufcount p ->
    local_cache p' = local_cache p -> hdrs p' = <[x := h']> (hdrs p) ->
    chain id (blks p') (blk_freelist p') B' -> blkcount p' = Z.of_nat (length B') ->
    (forall b, is_Some (blks p !! b) -> is_Some (blks p' !! b)) ->
  pinv ex' p' F C (x :: A) B'.
Proof.
  intros Hinv Hx Hshape Hsized Hex Hperm p' Hc Hf Hn Hl Hh Hb Hbn Hbd.
  destruct (in_use_not_listed _ _ _ _ _ _ _ Hinv) as [HxF HxC].
  assert (x ∈ L) as HxL by (apply (pi_dom _ _ _ _ _ _ Hinv); eauto).
  split; rewrite ?Hc, ?Hf, ?Hn, ?Hl, ?Hh; try apply Hinv; try done.
  - intros y. rewrite lookup_insert. case_decide; [subst; by split|apply Hinv].
  - apply chain_insert_ne; [done|apply Hinv].
  - intros i c l Hi Hci. apply chain_insert_ne; [|by apply (pi_caches _ _ _ _ _ _ Hinv i)].
    rewrite Forall_forall in HxC. apply HxC, list_elem_of_lookup. eauto.
  - destruct (segs_split (hdrs p) x h h' L HxL (pi_nodup _ _ _ _ _ _ Hinv) Hx) as (R & H1 & H2).
    rewrite H2, app_assoc, Hperm, <- app_assoc, <- H1. apply Hinv.
  - intros b Hb'. destruct (pi_bdom _ _ _ _ _ _ Hinv b Hb'). split; [done|by apply Hbd].
  - intros y hy. rewrite lookup_insert. case_decide; [by intros [= <-]|apply Hinv].
  - intros y hy. rewrite lookup_insert. case_decide as Hd.
    + intros [= <-]. subst. done.
    + intros Hy He. apply (pi_sized _ _ _ _ _ _ Hinv y); [done|]. by apply Hex.
  - intros y hy HyF. rewrite lookup_insert. case_decide; [set_solver|].
    intros. by apply (pi_packet _ _ _ _ _ _ Hinv y).
Qed.

(** * Blocks *)

(** What block operations leave alone. *)
Record same_bufs (p p' : pool) : Prop := {
  sb_cfg : p_cfg p' = p_cfg p;
  sb_freelist : buf_freelist p' = buf_freelist p;
  sb_count : bufcount p' = bufcount p;
  sb_caches : local_cache p' = local_cache p;
  sb_wm : low_wm_assert p' = low_wm_assert p
}.

Lemma same_bufs_refl p : same_bufs p p.
Proof. by split. Qed.

Lemma same_bufs_trans p1 p2 p3 : same_bufs p1 p2 -> same_bufs p2 p3 -> same_bufs p1 p3.
Proof. intros [] []. split; congruence. Qed.

Lemma get_blk_nil p :
  chain id (blks p) (blk_freelist p) [] ->
  get_blk p = Some (NULL, on_stats (stats_add 0 0 0 0 0 1 0 0) p).
Proof. simpl. intros H. unfold get_blk. by rewrite H. Qed.

Lemma get_blk_cons p b B :
  chain id (blks p) (blk_freelist p) (b :: B) -> blkcount p = Z.of_nat (length (b :: B)) ->
  Z.of_nat (length (b :: B)) < 2 ^ 32 ->
  exists p', get_blk p = Some (b, p') /\ b <> NULL /\ same_bufs p p' /\
    hdrs p' = hdrs p /\ blks p' = blks p /\
    chain id (blks p') (blk_freelist p') B /\ blkcount p' = Z.of_nat (length B).
Proof.
  intros (Ha & Hb & v & Hv & Hc) Hn Hlen. unfold get_blk. rewrite Ha, Hv.
  destruct (b =? NULL) eqn:E; zbool; [done|]. simpl. eexists. split_and!; try done.
  simpl. rewrite Hn. simpl length. rewrite u32_small; unfold is_u32; simpl length in *; lia.
Qed.

Lemma ret_blk_spec p b B :
  chain id (blks p) (blk_freelist p) B -> blkcount p = Z.of_nat (length B) ->
  Z.of_nat (length (b :: B)) < 2 ^ 32 -> b <> NULL -> b ∉ B -> is_Some (blks p !! b) ->
  exists p', ret_blk p b = Some p' /\ same_bufs p p' /\ hdrs p' = hdrs p /\
    chain id (blks p') (blk_freelist p') (b :: B) /\ blkcount p' = Z.of_nat (length (b :: B)) /\
    (forall y, is_Some (blks p !! y) -> is_Some (blks p' !! y)).
Proof.
  intros Hc Hn Hlen Hb HB [v Hv]. unfold ret_blk. rewrite Hv. simpl.
  eexists. split_and!; try done; simpl.
  - exists (blk_freelist p). rewrite lookup_insert_eq.
    split; [done|]. by apply chain_insert_ne.
  - rewrite Hn. rewrite u32_small; unfold is_u32; simpl length in *; lia.
  - intros y Hy. rewrite lookup_insert. by case_decide.
Qed.

Lemma hdr_segs_snoc h b addr :
  h_hdrdata h = false -> hdr_shape h -> h_segcount h < ODP_BUFFER_MAX_SEG ->
  zset (h_addr h) (h_segcount h) b = Some addr ->
  hdr_segs (set_h_segs (h_segcount h + 1) addr h) = hdr_segs h ++ [b].
Proof.
  intros Hd [Ha Hs _ _] Hlt [Hb ->]%zset_inv. unfold hdr_segs. simpl. rewrite Hd.
  replace (Z.to_nat (h_segcount h + 1)) with (S (Z.to_nat (h_segcount h))) by lia.
  unfold zlen in *. rewrite (take_S_r _ _ b).
  - by rewrite take_insert_ge by lia.
  - apply list_lookup_insert_eq. lia.
Qed.

(** The loop that attaches blocks ends, stays inside [addr\[\]], and either
    gathers enough of them or empties the block list. *)
Lemma attach_blks_spec fuel p F C A B x h needed :
  cfg_ok -> pinv (Some x) p F C (x :: A) B -> hdrs p !! x = Some h -> 0 < needed ->
  (h_hdrdata h = false ->
     h_segcount h * c_seg_size cfg + needed <= ODP_BUFFER_MAX_SEG * c_seg_size cfg) ->
  (Z.to_nat (ODP_BUFFER_MAX_SEG - h_segcount h) < fuel)%nat ->
  exists r B' h', attach_blks fuel p x needed = Some r /\
    let p' := match r with inl p' | inr p' => p' end in
    pinv (Some x) p' F C (x :: A) B' /\ same_bufs p p' /\ hdrs p' !! x = Some h' /\
    h_hdrdata h' = h_hdrdata h /\ h_size h' = h_size h /\ h_next h' = h_next h /\
    Z.of_nat (length B) = Z.of_nat (length B') + (h_segcount h' - h_segcount h) /\
    match r with
    | inl _ => B' = [] /\ h_segcount h <= h_segcount h' /\
        h_segcount h' * c_seg_size cfg < h_segcount h * c_seg_size cfg + needed
    | inr _ => h_hdrdata h = false /\
        h_segcount h * c_seg_size cfg + needed <= h_segcount h' * c_seg_size cfg
    end /\
    (forall y, y <> x -> hdrs p' !! y = hdrs p !! y).
Proof.
  intros Hcfg. revert p B h needed. induction fuel as [|fuel IH];
    intros p B h needed Hinv Hx Hneed Hroom Hfuel; [lia|].
  pose proof (pi_shape _ _ _ _ _ _ Hinv x h Hx) as Hshape.
  simpl. destruct B as [|b B].
  - rewrite get_blk_nil by apply Hinv. simpl. eexists (inl _), [], h.
    split; [done|]. split_and!; try done; try lia. 1: by apply pinv_on_stats. all: simpl; lia.
  - pose proof (blks_len _ _ _ _ _ _ Hinv) as Hbl. destruct (cfg_lens Hcfg) as [_ Hbl2].
    destruct (get_blk_cons p b B) as (p1 & Hget & Hb & Hsame & Hh1 & Hblk1 & Hc1 & Hn1);
      [apply Hinv|apply Hinv|lia|].
    rewrite Hget. simpl. destruct (b =? NULL) eqn:E; zbool; [done|].
    assert (h_hdrdata h = false) as Hd.
    { destruct (h_hdrdata h) eqn:Hd; [|done]. exfalso.
      pose proof (pi_blocks _ _ _ _ _ _ Hinv) as Hp.
      rewrite (hs_hdrdata h Hshape Hd) in Hp. by apply Permutation_nil_r in Hp. }
    specialize (Hroom Hd). pose proof (hs_count h Hshape). pose proof (cfg_seg Hcfg).
    assert (h_segcount h < ODP_BUFFER_MAX_SEG) by nia.
    rewrite Hh1, Hx. simpl. rewrite zset_Some by (rewrite (hs_addr h Hshape); lia). simpl.
    unfold on_hdr. rewrite Hh1, Hx. simpl. rewrite u32_small by
      (unfold is_u32, ODP_BUFFER_MAX_SEG in *; lia).
    set (h1 := set_h_segs _ _ h). set (p2 := set_hdrs _ p1).
    assert (hdr_segs h1 = hdr_segs h ++ [b]) as Hsegs.
    { apply hdr_segs_snoc; try done. apply zset_Some. rewrite (hs_addr h Hshape). lia. }
    assert (hdrs p2 !! x = Some h1) as Hx2 by apply lookup_insert_eq.
    assert (pinv (Some x) p2 F C (x :: A) B) as Hinv2.
    { eapply (pinv_update (Some x) (Some x) p F C A (b :: B) B x h h1 Hinv Hx); simpl;
        try apply Hsame; try done.
      - split; simpl; [unfold zlen; rewrite length_insert; apply Hshape|lia|apply Hshape..].
      - rewrite Hsegs. solve_Permutation.
      - by rewrite Hblk1. }
    replace (p_cfg p1) with cfg by (rewrite (sb_cfg _ _ Hsame); symmetry; apply Hinv).
    assert (same_bufs p p2) as Hsame2 by (eapply same_bufs_trans; [done|by split]).
    assert (forall y, y <> x -> hdrs p2 !! y = hdrs p !! y) as Hother.
    { intros y Hy. unfold p2. simpl. by rewrite lookup_insert_ne. }
    destruct (needed - c_seg_size cfg >? 0) eqn:E2; zbool.
    + destruct (IH p2 B h1 (needed - c_seg_size cfg)) as
        (r & B' & h' & Hrun & Hpi & Hs' & Hx' & Hd' & Hsz' & Hnx' & Hcnt & Hres & Hoth);
        [done|done|lia|simpl; nia|simpl; lia|].
      exists r, B', h'. split; [done|]. split_and!; try done.
      * by eapply same_bufs_trans.
      * simpl in Hcnt |- *. lia.
      * destruct r; simpl in Hres.
        { destruct Hres as (? & ? & ?). split_and!; [done|lia|lia]. }
        split; [done|]. lia.
      * intros y Hy. by rewrite Hoth, Hother.
    + exists (inr p2), B, h1. split; [done|]. split_and!; try done; simpl; nia.
Qed.

#[local] Arguments attach_blks : simpl never.

(** * Returning a buffer *)

Lemma ret_segs_spec n p F C A B x h :
  lens_ok -> pinv (Some x) p F C (x :: A) B -> hdrs p !! x = Some h -> h_hdrdata h = false ->
  h_segcount h = Z.of_nat n ->
  exists p' B', ret_segs n p x = Some p' /\ pinv (Some x) p' F C (x :: A) B' /\ same_bufs p p' /\
    hdrs p' !! x = Some (set_h_segs 0 (h_addr h) h) /\
    (forall y, y <> x -> hdrs p' !! y = hdrs p !! y).
Proof.
  intros Hcfg. revert p B h. induction n as [|n IH]; intros p B h Hinv Hx Hd Hn.
  - exists p, B. split_and!; try done.
    rewrite Hx. f_equal. destruct h. simpl in *. by subst.
  - pose proof (pi_shape _ _ _ _ _ _ Hinv x h Hx) as Hshape.
    pose proof (hs_count h Hshape). pose proof (hs_addr h Hshape) as Hal.
    destruct (zget_Some (h_addr h) (Z.of_nat n)) as [a Ha]; [lia|].
    simpl. unfold on_hdr. rewrite Hx. simpl. rewrite Ha. simpl.
    set (h1 := set_h_segs (Z.of_nat n) (h_addr h) h). set (p1 := set_hdrs _ p).
    assert (hdr_segs h = hdr_segs h1 ++ [a]) as Hsegs.
    { unfold hdr_segs, h1. simpl. rewrite Hd, Hn, !Nat2Z.id. rewrite zget_of_nat in Ha. by apply take_S_r. }
    assert (x ∈ L) as HxL by (apply (pi_dom _ _ _ _ _ _ Hinv); eauto).
    destruct (segs_split (hdrs p) x h h1 L HxL (pi_nodup _ _ _ _ _ _ Hinv) Hx) as (R & H1 & _).
    pose proof (blks_nodup _ _ _ _ _ _ Hinv) as Hnd. rewrite H1, Hsegs in Hnd.
    assert (a ∉ B) as HaB by (apply NoDup_app in Hnd as (_ & Hdis & _);
      intros Hin; apply (Hdis a Hin); set_solver).
    assert (a ∈ allb) as Haa.
    { rewrite <- (pi_blocks _ _ _ _ _ _ Hinv), H1, Hsegs. set_solver. }
    destruct (pi_bdom _ _ _ _ _ _ Hinv a Haa) as [Hann Has].
    assert (length (a :: B) <= length allb)%nat as Hlen.
    { rewrite <- (Permutation_length (pi_blocks _ _ _ _ _ _ Hinv)), H1, Hsegs, !length_app.
      simpl. lia. }
    destruct Hcfg as [_ Hbl2].
    destruct (ret_blk_spec p1 a B) as (p2 & Hret & Hsame & Hh2 & Hc2 & Hn2 & Hd2);
      [apply Hinv|apply Hinv|lia|done..|].
    rewrite Hret. simpl.
    assert (hdrs p2 !! x = Some h1) as Hx2 by (rewrite Hh2; apply lookup_insert_eq).
    assert (pinv (Some x) p2 F C (x :: A) (a :: B)) as Hinv2.
    { eapply (pinv_update (Some x) (Some x) p F C A B (a :: B) x h h1 Hinv Hx);
        try apply Hsame; try done.
      - split; simpl; [done|lia|apply Hshape..].
      - rewrite Hsegs. solve_Permutation. }
    destruct (IH p2 (a :: B) h1) as (p3 & B' & Hrun & Hpi & Hs' & Hx' & Hoth); try done.
    exists p3, B'. split_and!; try done.
    + eapply same_bufs_trans; [|done]. eapply same_bufs_trans; [|done]. by split.
    + intros y Hy. rewrite Hoth, Hh2 by done. unfold p1. simpl. by rewrite lookup_insert_ne.
Qed.

(** * Moving headers between the lists *)

Lemma pinv_move ex p F C A B F' C' A' x h h' p' :
  pinv ex p F C A B -> hdrs p !! x = Some h ->
  hdr_segs h' = hdr_segs h -> hdr_shape h' -> hdr_sized h' -> (ex = None \/ ex = Some x) ->
  p_cfg p' = p_cfg p -> blk_freelist p' = blk_freelist p -> blkcount p' = blkcount p ->
  blks p' = blks p -> hdrs p' = <[x := h']> (hdrs p) ->
  (F' ++ concat C' ++ A' ≡ₚ F ++ concat C ++ A) ->
  chain h_next (hdrs p') (buf_freelist p') F' -> bufcount p' = Z.of_nat (length F') ->
  length (local_cache p') = length C' ->
  (forall i c l, local_cache p' !! i = Some c -> C' !! i = Some l ->
     chain h_next (hdrs p') (lc_freelist c) l) ->
  (forall y hy, y ∈ F' -> hdrs p' !! y = Some hy -> h_hdrdata hy = false ->
     c_type cfg <> ODP_EVENT_BUFFER -> h_segcount hy = 0) ->
  pinv None p' F' C' A' B.
Proof.
  intros Hinv Hx Hsegs Hshape Hsized Hex Hc Hbf Hbc Hb Hh Hperm Hf Hn Hlc Hcs Hpk.
  assert (x ∈ L) as HxL by (apply (pi_dom _ _ _ _ _ _ Hinv); eauto).
  split; rewrite ?Hc, ?Hbf, ?Hbc, ?Hb; try done; try apply Hinv.
  - rewrite Hperm. apply Hinv.
  - intros y. rewrite Hh, lookup_insert. case_decide; [subst; by split|apply Hinv].
  - rewrite Hh. destruct (segs_split (hdrs p) x h h' L HxL (pi_nodup _ _ _ _ _ _ Hinv) Hx)
      as (R & H1 & H2). rewrite H2, Hsegs, <- H1. apply Hinv.
  - intros y hy. rewrite Hh, lookup_insert. case_decide; [by intros [= <-]|apply Hinv].
  - intros y hy. rewrite Hh, lookup_insert. case_decide as Hd; [by intros [= <-]|].
    intros Hy _. apply (pi_sized _ _ _ _ _ _ Hinv y hy Hy).
    destruct Hex as [->| ->]; [done|]. congruence.
Qed.

(** The first half of [ret_buf]: blocks of a packet go back to the pool. *)
Lemma release_spec p F C A B x h :
  lens_ok -> pinv (Some x) p F C (x :: A) B -> hdrs p !! x = Some h ->
  (c_type cfg = ODP_EVENT_BUFFER -> hdr_sized h) ->
  exists p1 B1 h1,
    (if negb (h_hdrdata h) && negb (h_type h =? ODP_EVENT_BUFFER)
     then p0 ← ret_segs (Z.to_nat (h_segcount h)) p x; on_hdr x (set_h_size 0) p0
     else Some p) = Some p1 /\
    pinv (Some x) p1 F C (x :: A) B1 /\ same_bufs p p1 /\ hdrs p1 !! x = Some h1 /\ hdr_sized h1 /\
    (h_hdrdata h1 = false -> c_type cfg <> ODP_EVENT_BUFFER -> h_segcount h1 = 0) /\
    (forall y, y <> x -> hdrs p1 !! y = hdrs p !! y) /\
    h_hdrdata h1 = h_hdrdata h /\ (h_hdrdata h = true -> h_size h1 = h_size h).
Proof.
  intros Hcfg Hinv Hx Hraw. pose proof (pi_shape _ _ _ _ _ _ Hinv x h Hx) as Hshape.
  destruct (h_hdrdata h) eqn:Hd; simpl.
  { exists p, B, h. split_and!; try done; [by unfold hdr_sized; rewrite Hd|by rewrite Hd]. }
  rewrite (hs_type h Hshape).
  destruct (c_type cfg =? ODP_EVENT_BUFFER) eqn:Et; zbool; simpl.
  { exists p, B, h. split_and!; try done. by apply Hraw. }
  destruct (ret_segs_spec (Z.to_nat (h_segcount h)) p F C A B x h)
    as (p0 & B0 & H0 & Hinv0 & Hs0 & Hx0 & Ho0); try done.
  { pose proof (hs_count h Hshape). lia. }
  rewrite H0. simpl. unfold on_hdr. rewrite Hx0. simpl.
  set (h1 := set_h_size 0 _). exists (set_hdrs (<[x := h1]> (hdrs p0)) p0), B0, h1.
  split; [done|]. split_and!.
  - eapply (pinv_update (Some x) (Some x) p0 F C A B0 B0 x _ h1 Hinv0 Hx0);
      try done; try apply Hinv0. split; simpl; try apply Hshape. unfold ODP_BUFFER_MAX_SEG. lia.
  - eapply same_bufs_trans; [done|by split].
  - apply lookup_insert_eq.
  - unfold hdr_sized, h1. simpl. lia.
  - done.
  - intros y Hy. simpl. rewrite lookup_insert_ne by done. by apply Ho0.
  - done.
  - done.
Qed.

(** [ret_buf] puts a buffer in use back on the free list, with its blocks on
    the block list (unless they stay with it: raw buffers keep theirs). *)
Lemma ret_buf_spec p F C A B x h :
  lens_ok -> pinv (Some x) p F C (x :: A) B -> hdrs p !! x = Some h ->
  (c_type cfg = ODP_EVENT_BUFFER -> hdr_sized h) ->
  exists p' B', ret_buf p x = Some p' /\ pinv None p' (x :: F) C A B' /\
    local_cache p' = local_cache p /\
    (forall y, y <> x -> hdrs p' !! y = hdrs p !! y) /\
    exists h', hdrs p' !! x = Some h' /\ h_hdrdata h' = h_hdrdata h /\
      (h_hdrdata h = true -> h_size h' = h_size h).
Proof.
  intros Hcfg Hinv Hx Hraw. pose proof (pi_shape _ _ _ _ _ _ Hinv x h Hx) as Hshape.
  assert (x ∈ L) as HxL by (apply (pi_dom _ _ _ _ _ _ Hinv); eauto).
  assert (x <> NULL) as Hxn by (intros ->; by apply (pi_nonnull _ _ _ _ _ _ Hinv)).
  destruct (release_spec p F C A B x h Hcfg Hinv Hx Hraw)
    as (p1 & B1 & h1 & Hrun & Hinv1 & Hsame & Hx1 & Hsz1 & Hpk1 & Hoth1 & Hhd1 & Hz1).
  unfold ret_buf. rewrite Hx. simpl. rewrite Hrun. simpl.
  unfold on_hdr. rewrite Hx1. simpl. rewrite lookup_insert_eq. simpl. rewrite insert_insert_eq.
  destruct (in_use_not_listed _ _ _ _ _ _ _ Hinv1) as [HxF HxC].
  assert (length (x :: F) <= length L)%nat as Hlen.
  { rewrite <- (Permutation_length (pi_all _ _ _ _ _ _ Hinv1)), !length_app. simpl. lia. }
  destruct Hcfg as [Hbl2 _].
  set (h2 := set_h_next _ _). eexists _, B1. split; [done|].
  assert (hdrs p1 !! x = Some h1) as Hx1' by done.
  split_and!.
  2: { clear Hrun. if_case; simpl; apply Hsame. }
  2: { intros y Hy. rewrite <- Hoth1 by done. clear Hrun.
       if_case; simpl; by rewrite lookup_insert_ne. }
  2: { exists h2. split; [|done]. clear Hrun. if_case; simpl; apply lookup_insert_eq. }
  apply pinv_on_stats. match goal with |- pinv _ (if ?b then _ else ?q) _ _ _ _ =>
    enough (pinv None q (x :: F) C A B1) as Hq
      by (destruct b; [apply pinv_on_stats, pinv_low_wm, Hq|exact Hq]) end.
  eapply (pinv_move (Some x) p1 F C (x :: A) B1 (x :: F) C A x h1 h2 _ Hinv1 Hx1); simpl;
    try done; try by right.
  - apply (pi_shape _ _ _ _ _ _ Hinv1 x h1) in Hx1' as []. by split.
  - solve_Permutation.
  - split_and!; [done..|]. exists h2. rewrite lookup_insert_eq. split; [done|].
    apply chain_insert_ne; [done|]. apply Hinv1.
  - rewrite (pi_bufcount _ _ _ _ _ _ Hinv1), u32_small; unfold is_u32; simpl length in *; lia.
  - apply Hinv1.
  - intros i c l Hi Hl. apply chain_insert_ne; [|by apply (pi_caches _ _ _ _ _ _ Hinv1 i)].
    rewrite Forall_forall in HxC. apply HxC, list_elem_of_lookup. eauto.
  - intros y hy Hy. rewrite lookup_insert. case_decide as Hxy.
    + intros [= <-]. apply Hpk1.
    + intros Hyy. apply (pi_packet _ _ _ _ _ _ Hinv1 y hy); [|done]. set_solver.
Qed.

(** * Taking a buffer *)

Lemma pop_nodup ex p x F C A B : pinv ex p (x :: F) C A B -> x ∉ F.
Proof.
  intros H. pose proof (pinv_nodup _ _ _ _ _ _ H) as Hnd.
  simpl in Hnd. apply NoDup_cons in Hnd as [Hx _]. set_solver.
Qed.

(** [get_buf] takes the head of the free list, if there is one. *)
Lemma get_buf_spec p F C A B :
  lens_ok -> pinv None p F C A B ->
  exists b p', get_buf p = Some (b, p') /\ hdrs p' = hdrs p /\ local_cache p' = local_cache p /\
    match F with
    | [] => b = NULL /\ pinv None p' F C A B
    | x :: F' => b = x /\ x <> NULL /\ pinv None p' F' C (x :: A) B
    end.
Proof.
  intros Hcfg Hinv. pose proof (pi_free _ _ _ _ _ _ Hinv) as Hc. destruct F as [|x F].
  - simpl in Hc. unfold get_buf. rewrite Hc. simpl. eexists _, _. split_and!; try done.
    by apply pinv_on_stats.
  - pose proof Hc as (Ha & Hne & h & Hh & Hc'). unfold get_buf. rewrite Ha, Hh.
    destruct (x =? NULL) eqn:E; zbool; [done|]. simpl.
    pose proof (bufs_len _ _ _ _ _ _ Hinv) as Hlen. destruct Hcfg as [Hbl _].
    eexists _, _. split; [done|].
    match goal with |- context [if ?b then _ else ?q] =>
      assert (pinv None q F C (x :: A) B) as Hq; [|destruct b; simpl] end.
    2, 3: split_and!; try done; repeat apply pinv_on_stats; try apply pinv_low_wm; done.
    destruct Hinv. split; simpl; try done.
    + rewrite <- pi_all0. solve_Permutation.
    + rewrite pi_bufcount0, u32_small; unfold is_u32; simpl length in *; lia.
    + intros y hy Hy. apply pi_packet0. by right.
Qed.

(** * The caches *)

Lemma concat_insert_perm (C : list (list Z)) i l :
  C !! i = Some l ->
  exists R, concat C ≡ₚ l ++ R /\ forall l', concat (<[i := l']> C) ≡ₚ l' ++ R.
Proof.
  revert i. induction C as [|c C IH]; intros [|i] H; simplify_eq/=; [by exists (concat C)|].
  destruct (IH i H) as (R & H1 & H2). exists (c ++ R). split.
  - rewrite H1. solve_Permutation.
  - intros l'. rewrite H2. solve_Permutation.
Qed.

(** Thread [tid]'s cache, as the pair of its record and its list. *)
Lemma cache_lookup p F C A B ex tid :
  pinv ex p F C A B -> 0 <= tid < zlen (local_cache p) ->
  exists c l, zget (local_cache p) tid = Some c /\ C !! Z.to_nat tid = Some l /\
    chain h_next (hdrs p) (lc_freelist c) l.
Proof.
  intros Hinv Ht. destruct (zget_Some _ _ Ht) as [c Hc].
  destruct (lookup_lt_is_Some_2 C (Z.to_nat tid)) as [l Hl].
  { rewrite <- (pi_ncaches _ _ _ _ _ _ Hinv). unfold zlen in Ht. lia. }
  exists c, l. split_and!; [done..|]. rewrite zget_nonneg in Hc by lia.
  by apply (pi_caches _ _ _ _ _ _ Hinv (Z.to_nat tid)).
Qed.

(** Counters of a cache are not part of the invariant. *)
Lemma on_cache_counters ex p F C A B tid f :
  pinv ex p F C A B -> 0 <= tid < zlen (local_cache p) ->
  (forall c, lc_freelist (f c) = lc_freelist c) ->
  exists p', on_cache tid f p = Some p' /\ pinv ex p' F C A B /\ hdrs p' = hdrs p /\
    zlen (local_cache p') = zlen (local_cache p).
Proof.
  intros Hinv Ht Hf. unfold on_cache. destruct (zget_Some _ _ Ht) as [c Hc].
  rewrite Hc. simpl. rewrite zset_Some by done. simpl. eexists. split; [done|].
  assert (zlen (<[Z.to_nat tid := f c]> (local_cache p)) = zlen (local_cache p)) as Hzl.
  { unfold zlen. by rewrite length_insert. }
  split_and!; [|done|done]. rewrite zget_nonneg in Hc by lia.
  destruct Hinv. split; simpl; try done.
  - by rewrite length_insert.
  - intros i c' l Hi Hl. destruct (decide (i = Z.to_nat tid)) as [->|Hne].
    + rewrite list_lookup_insert_eq in Hi by (unfold zlen in Ht; lia). simplify_eq.
      rewrite Hf. by apply (pi_caches0 (Z.to_nat tid)).
    + rewrite list_lookup_insert_ne in Hi by done. by apply (pi_caches0 i).
Qed.

(** Popping the head of a cache. *)
Lemma cache_pop p F C A B tid x l c h :
  pinv None p F C A B -> 0 <= tid < zlen (local_cache p) ->
  zget (local_cache p) tid = Some c -> C !! Z.to_nat tid = Some (x :: l) ->
  hdrs p !! x = Some h -> chain h_next (hdrs p) (h_next h) l ->
  exists p', on_cache tid (fun c => Cache (h_next h) (lc_bufallocs c) (lc_buffrees c)) p = Some p' /\
    pinv None p' F (<[Z.to_nat tid := l]> C) (x :: A) B /\ hdrs p' = hdrs p /\
    zlen (local_cache p') = zlen (local_cache p).
Proof.
  intros Hinv Ht Hc HC Hx Hch. unfold on_cache. rewrite Hc. simpl.
  rewrite zset_Some by done. simpl. eexists. split; [done|].
  destruct (concat_insert_perm C (Z.to_nat tid) _ HC) as (R & H1 & H2).
  split_and!; [|done|unfold zlen; simpl; by rewrite length_insert].
  destruct Hinv. split; simpl; try done.
  - rewrite <- pi_all0, H1, H2. solve_Permutation.
  - by rewrite !length_insert.
  - intros i c' l' Hi Hl. destruct (decide (i = Z.to_nat tid)) as [->|Hne].
    + rewrite list_lookup_insert_eq in Hi by (unfold zlen in Ht; lia).
      rewrite list_lookup_insert_eq in Hl by (by eapply lookup_lt_Some). by simplify_eq.
    + rewrite list_lookup_insert_ne in Hi by done. rewrite list_lookup_insert_ne in Hl by done. by apply (pi_caches0 i).
Qed.

(** [ret_local_buf] puts a buffer in use on the thread's cache, blocks and all. *)
Lemma ret_local_buf_spec p F C A B tid x h l :
  pinv None p F C (x :: A) B -> 0 <= tid < zlen (local_cache p) ->
  hdrs p !! x = Some h -> C !! Z.to_nat tid = Some l ->
  exists p', ret_local_buf p tid x = Some p' /\
    pinv None p' F (<[Z.to_nat tid := x :: l]> C) A B /\
    zlen (local_cache p') = zlen (local_cache p).
Proof.
  intros Hinv Ht Hx HC.
  assert (x <> NULL) as Hxn.
  { intros ->. apply (pi_nonnull _ _ _ _ _ _ Hinv), (pi_dom _ _ _ _ _ _ Hinv). eauto. }
  destruct (in_use_not_listed _ _ _ _ _ _ _ Hinv) as [HxF HxC].
  rewrite Forall_forall in HxC.
  destruct (cache_lookup p F C (x :: A) B None tid Hinv Ht) as (c & l' & Hc & HC' & Hch).
  assert (l' = l) as -> by congruence.
  unfold ret_local_buf, on_hdr, on_cache. rewrite Hx. simpl. rewrite Hc. simpl.
  rewrite lookup_insert_eq. simpl. rewrite insert_insert_eq, Hc. simpl.
  rewrite zset_Some by done. simpl. eexists. split; [done|].
  set (h2 := set_h_next _ _).
  destruct (concat_insert_perm C (Z.to_nat tid) l HC) as (R & H1 & H2).
  split; [|unfold zlen; simpl; by rewrite length_insert].
  pose proof (pi_shape _ _ _ _ _ _ Hinv x h Hx) as [].
  eapply (pinv_move None p F C (x :: A) B F _ A x h h2 _ Hinv Hx); simpl; try done.
  - apply (pi_sized _ _ _ _ _ _ Hinv x h Hx). done.
  - by left.
  - rewrite H1, H2. solve_Permutation.
  - apply chain_insert_ne; [done|apply Hinv].
  - apply Hinv.
  - rewrite !length_insert. apply Hinv.
  - intros i c' l' Hi Hl. destruct (decide (i = Z.to_nat tid)) as [->|Hne].
    + rewrite list_lookup_insert_eq in Hi by (unfold zlen in Ht; lia).
      rewrite list_lookup_insert_eq in Hl by (by eapply lookup_lt_Some). simplify_eq/=.
      split_and!; [done..|]. exists h2. rewrite lookup_insert_eq. split; [done|].
      apply chain_insert_ne; [|done]. apply HxC, list_elem_of_lookup. eauto.
    + rewrite list_lookup_insert_ne in Hi by done. rewrite list_lookup_insert_ne in Hl by done.
      apply chain_insert_ne; [|by apply (pi_caches _ _ _ _ _ _ Hinv i)].
      apply HxC, list_elem_of_lookup. eauto.
  - intros y hy Hy. rewrite lookup_insert. case_decide; [set_solver|].
    intros Hyy. by apply (pi_packet _ _ _ _ _ _ Hinv y hy).
Qed.

(** * Allocation *)

Lemma pinv_weaken p F C A B x : pinv None p F C A B -> pinv (Some x) p F C A B.
Proof. intros []. split; try done. intros y hy Hy _. by apply (pi_sized0 y). Qed.

(** [buf->size = buf->segcount * pool->seg_size] ends the exemption. *)
Lemma update_size_spec p F C A B x h :
  cfg_ok -> pinv (Some x) p F C (x :: A) B -> hdrs p !! x = Some h ->
  exists p' h', update_size p x = Some p' /\ pinv None p' F C (x :: A) B /\
    hdrs p' !! x = Some h' /\ h_size h' = h_segcount h * c_seg_size cfg /\
    local_cache p' = local_cache p /\ zlen (h_addr h') = ODP_BUFFER_MAX_SEG.
Proof.
  intros Hcfg Hinv Hx. pose proof (pi_shape _ _ _ _ _ _ Hinv x h Hx) as [].
  pose proof (cfg_seg Hcfg). pose proof (cfg_seg_max Hcfg).
  unfold update_size, on_hdr. rewrite Hx, (pi_cfg _ _ _ _ _ _ Hinv). simpl.
  rewrite u32_small by (unfold is_u32, ODP_BUFFER_MAX_SEG in *; nia).
  set (h' := set_h_size _ h). eexists _, h'.
  split_and!; [done| |apply lookup_insert_eq|done|done|done].
  eapply (pinv_update (Some x) None p F C A B B x h h' Hinv Hx); simpl; try done;
    try apply Hinv.
  intros y Hy _ [= ->]. done.
Qed.

(** Attaching blocks to a detached buffer until it can hold [tot] bytes. *)
Lemma fill_spec p F C A B x h tot :
  cfg_ok -> pinv None p F C (x :: A) B -> hdrs p !! x = Some h -> h_size h < tot ->
  tot <= c_max_size cfg + c_room_size cfg ->
  exists r, attach_blks seg_fuel p x (tot - h_size h) = Some r /\
    match r with
    | inl p1 => exists p2 B', ret_buf p1 x = Some p2 /\ pinv None p2 (x :: F) C A B' /\
        local_cache p2 = local_cache p /\ (forall y, y <> x -> hdrs p2 !! y = hdrs p !! y) /\
        (exists h', hdrs p2 !! x = Some h' /\ h_hdrdata h' = h_hdrdata h /\
           (h_hdrdata h = true -> h_size h' = h_size h)) /\
        h_size h + Z.of_nat (length B) * c_seg_size cfg < tot
    | inr p1 => exists p2 B' h', update_size p1 x = Some p2 /\
        pinv None p2 F C (x :: A) B' /\ local_cache p2 = local_cache p /\
        hdrs p2 !! x = Some h' /\ tot <= h_size h' /\ zlen (h_addr h') = ODP_BUFFER_MAX_SEG /\
        tot <= h_size h + Z.of_nat (length B) * c_seg_size cfg
    end.
Proof.
  intros Hcfg Hinv Hx Hlt Htot. pose proof (pi_sized _ _ _ _ _ _ Hinv x h Hx ltac:(done)) as Hsz.
  pose proof (pi_shape _ _ _ _ _ _ Hinv x h Hx) as [_ Hcnt _ _]. pose proof (cfg_fit Hcfg).
  pose proof (cfg_seg Hcfg). pose proof (cfg_raw Hcfg).
  destruct (attach_blks_spec seg_fuel p F C A B x h (tot - h_size h))
    as (r & B' & h' & Hrun & Hinv1 & Hsame & Hx1 & Hd1 & Hsz1 & _ & Hlen & Hres & Hoth);
    [done|by apply pinv_weaken|done|lia| | |].
  { intros Hd. rewrite (Hsz Hd). lia. }
  { unfold seg_fuel, ODP_BUFFER_MAX_SEG in *. lia. }
  exists r. split; [done|]. destruct r as [p1|p1]; simpl in Hinv1.
  - destruct Hres as (-> & Hge & Hless).
    destruct (ret_buf_spec p1 F C A [] x h' (cfg_lens Hcfg) Hinv1 Hx1) as (p2 & B2 & Hret & Hinv2 & Hl & Ho2 & h2 & Hx2 & Hd2 & Hz2).
    { intros Ht Hd'. rewrite Hd1 in Hd'. rewrite Hsz1. specialize (Hsz Hd'). rewrite Hsz in *.
      assert (h_segcount h' = h_segcount h) by nia. congruence. }
    exists p2, B2. split_and!; try done; [rewrite Hl; apply Hsame| | |].
    + intros y Hy. by rewrite Ho2, Hoth.
    + exists h2. split_and!; [done|congruence|]. intros Hd. rewrite Hz2, Hsz1; congruence.
    + simpl in Hlen. nia.
  - destruct Hres as [Hd Hge].
    destruct (update_size_spec p1 F C A B' x h' Hcfg Hinv1 Hx1) as
      (p2 & h2 & Hup & Hinv2 & Hx2 & Hs2 & Hl2 & Ha2).
    exists p2, B', h2. split_and!; try done; [rewrite Hl2; apply Hsame| |].
    + rewrite (Hsz Hd) in Hge. lia.
    + rewrite (Hsz Hd) in Hge. rewrite (Hsz Hd).
      assert (h_segcount h' - h_segcount h <= Z.of_nat (length B)) by lia. nia.
Qed.

(** Header [x] and the free blocks are not enough for [tot] bytes. *)
Definition lacks (p : pool) (x tot : Z) : Prop :=
  exists h, hdrs p !! x = Some h /\ h_size h + blkcount p * c_seg_size (p_cfg p) < tot.

(** Blocks that leave one header are free, and free blocks that go are in it. *)
Lemma blocks_kept ex ex' p p' F F' C C' A A' B B' x h h' :
  pinv ex p F C A B -> pinv ex' p' F' C' A' B' -> hdrs p !! x = Some h -> hdrs p' !! x = Some h' ->
  (forall y, y <> x -> hdrs p' !! y = hdrs p !! y) ->
  (length B' + length (hdr_segs h') = length B + length (hdr_segs h))%nat.
Proof.
  intros Hinv Hinv' Hx Hx' Hoth.
  assert (hdrs p' = <[x := h']> (hdrs p)) as Hh.
  { apply map_eq. intros y. rewrite lookup_insert. case_decide; [by subst|]. by apply Hoth. }
  assert (x ∈ L) as HxL by (apply (pi_dom _ _ _ _ _ _ Hinv); eauto).
  destruct (segs_split (hdrs p) x h h' L HxL (pi_nodup _ _ _ _ _ _ Hinv) Hx) as (R & H1 & H2).
  pose proof (Permutation_length (pi_blocks _ _ _ _ _ _ Hinv)) as Hb.
  pose proof (Permutation_length (pi_blocks _ _ _ _ _ _ Hinv')) as Hb'.
  rewrite Hh in Hb'. rewrite length_app, H1, length_app in Hb.
  rewrite length_app, H2, length_app in Hb'. lia.
Qed.

(** What a header and the free blocks give together stays the same when the
    buffer is filled in vain and returned. *)
Lemma lacks_kept p p' F F' C C' A A' B B' x h h' tot :
  pinv None p F C A B -> pinv None p' F' C' A' B' ->
  hdrs p !! x = Some h -> hdrs p' !! x = Some h' ->
  (forall y, y <> x -> hdrs p' !! y = hdrs p !! y) ->
  h_hdrdata h' = h_hdrdata h -> (h_hdrdata h = true -> h_size h' = h_size h) ->
  lacks p x tot -> lacks p' x tot.
Proof.
  intros Hinv Hinv' Hx Hx' Hoth Hd Hz (h0 & Hx0 & Hlt). simplify_eq. exists h'. split; [done|].
  pose proof (blocks_kept _ _ _ _ _ _ _ _ _ _ _ _ x h h' Hinv Hinv' Hx Hx' Hoth) as Hlen.
  rewrite (pi_cfg _ _ _ _ _ _ Hinv), (pi_blkcount _ _ _ _ _ _ Hinv) in Hlt.
  rewrite (pi_cfg _ _ _ _ _ _ Hinv'), (pi_blkcount _ _ _ _ _ _ Hinv').
  pose proof (pi_shape _ _ _ _ _ _ Hinv x h Hx) as [Ha Hc _ Hnil].
  pose proof (pi_shape _ _ _ _ _ _ Hinv' x h' Hx') as [Ha' Hc' _ _].
  unfold hdr_segs in Hlen. rewrite Hd in Hlen. destruct (h_hdrdata h) eqn:E.
  - rewrite Hz by done. simpl in Hlen. replace (length B') with (length B) by lia. done.
  - rewrite !length_take in Hlen. unfold zlen in *.
    rewrite (pi_sized _ _ _ _ _ _ Hinv x h Hx) in Hlt by done.
    rewrite (pi_sized _ _ _ _ _ _ Hinv' x h' Hx') by done.
    replace (Z.of_nat (length B')) with (Z.of_nat (length B) + h_segcount h - h_segcount h')
      by lia. lia.
Qed.

(** [get_local_buf] leaves an empty cache alone; otherwise it takes the head of
    the cache, which goes to the free list of the pool when blocks are missing. *)
Lemma get_local_buf_spec p F C A B tid tot c :
  cfg_ok -> pinv None p F C A B -> 0 <= tid < zlen (local_cache p) ->
  tot <= c_max_size cfg + c_room_size cfg -> zget (local_cache p) tid = Some c ->
  exists b p' F' C' B', get_local_buf p tid tot = Some (b, p') /\
    zlen (local_cache p') = zlen (local_cache p) /\
    if lc_freelist c =? NULL then b = NULL /\ p' = p /\ F' = F /\ C' = C /\ B' = B
    else (b = NULL /\ pinv None p' F' C' A B' /\ buf_freelist p' = lc_freelist c /\
          lacks p (lc_freelist c) tot /\ lacks p' (lc_freelist c) tot) \/
         (b = lc_freelist c /\ b <> NULL /\ pinv None p' F' C' (b :: A) B' /\
          ~ lacks p b tot /\ exists h, hdrs p' !! b = Some h /\ tot <= h_size h).
Proof.
  intros Hcfg Hinv Ht Htot Hc0. unfold get_local_buf, lacks.
  destruct (cache_lookup p F C A B None tid Hinv Ht) as (c' & l & Hc & HC & Hch).
  rewrite Hc0 in Hc. injection Hc as <-. rename Hc0 into Hc.
  rewrite Hc. cbn [mbind option_bind]. destruct (lc_freelist c =? NULL) eqn:E; zbool.
  { rewrite E. by exists NULL, p, F, C, B. }
  destruct (chain_cons _ _ _ _ Hch E) as (h & l' & -> & Hx & Hch').
  set (x := lc_freelist c) in *. rewrite Hx. cbn [negb mbind option_bind].
  destruct (cache_pop p F C A B tid x l' c h Hinv Ht Hc HC Hx Hch') as
    (p1 & Hon & Hinv1 & Hh1 & Hl1). rewrite Hon. cbn [mbind option_bind].
  assert (hdrs p1 !! x = Some h) as Hx1 by congruence.
  pose proof (pi_cfg _ _ _ _ _ _ Hinv) as Hpc. pose proof (pi_blkcount _ _ _ _ _ _ Hinv) as Hbc.
  pose proof (cfg_seg Hcfg).
  destruct (h_size h <? tot) eqn:Es; zbool; cbn [mbind option_bind].
  - destruct (fill_spec p1 F _ A B x h tot Hcfg Hinv1 Hx1 Es Htot) as (r & Hrun & Hres).
    rewrite Hrun. cbn [mbind option_bind]. destruct r as [p2|p2].
    + destruct Hres as (p3 & B3 & Hret & Hinv3 & Hl3 & Ho3 & (h3 & Hx3 & Hd3 & Hz3) & Hlt).
      rewrite Hret. cbn [mbind option_bind].
      destruct (on_cache_counters None p3 (x :: F) _ A B3 tid
        (fun c => Cache (lc_freelist c) (lc_bufallocs c) (lc_buffrees c -u64 1)) Hinv3)
        as (p4 & Hon4 & Hinv4 & Hh4 & Hl4); [rewrite Hl3; lia|done|].
      rewrite Hon4. cbn [mbind option_bind]. eexists _, p4, _, _, B3.
      split_and!; [done|congruence|left]. split_and!; [done|done| |exists h; split; [done|by rewrite Hpc, Hbc]|].
      * pose proof (pi_free _ _ _ _ _ _ Hinv4) as [? _]. done.
      * apply (lacks_kept p1 p4 _ _ _ _ _ _ _ _ x h h3 tot Hinv1 Hinv4 Hx1); try done.
        { by rewrite Hh4. } { intros y Hy. rewrite Hh4. by apply Ho3. }
        exists h. split; [done|].
        by rewrite (pi_cfg _ _ _ _ _ _ Hinv1), (pi_blkcount _ _ _ _ _ _ Hinv1).
    + destruct Hres as (p3 & B3 & h3 & Hup & Hinv3 & Hl3 & Hx3 & Hsz3 & _ & Hge).
      rewrite Hup. cbn [mbind option_bind].
      destruct (on_cache_counters None p3 F _ (x :: A) B3 tid
        (fun c => Cache (lc_freelist c) (lc_bufallocs c +u64 1) (lc_buffrees c)) Hinv3)
        as (p4 & Hon4 & Hinv4 & Hh4 & Hl4); [rewrite Hl3; lia|done|].
      rewrite Hon4. cbn [mbind option_bind]. eexists _, p4, _, _, B3.
      split_and!; [done|congruence|right]. split_and!; try done.
      * intros (h0 & Hx0 & Hlt). rewrite Hpc, Hbc in Hlt. simplify_eq. lia.
      * exists h3. by rewrite Hh4.
  - destruct (on_cache_counters None p1 F _ (x :: A) B tid
      (fun c => Cache (lc_freelist c) (lc_bufallocs c +u64 1) (lc_buffrees c)) Hinv1)
      as (p4 & Hon4 & Hinv4 & Hh4 & Hl4); [lia|done|].
    rewrite Hon4. cbn [mbind option_bind]. eexists _, p4, _, _, B.
    split_and!; [done|congruence|right]. split_and!; try done.
    + intros (h0 & Hx0 & Hlt). rewrite Hpc, Hbc in Hlt. simplify_eq. nia.
    + exists h. by rewrite Hh4.
Qed.

(** Writing the owner and the flags of a buffer in use. *)
Lemma pinv_mark p F C A B x h h' :
  pinv None p F C (x :: A) B -> hdrs p !! x = Some h ->
  h_hdrdata h' = h_hdrdata h -> h_segcount h' = h_segcount h -> h_addr h' = h_addr h ->
  h_type h' = h_type h -> h_size h' = h_size h ->
  pinv None (set_hdrs (<[x := h']> (hdrs p)) p) F C (x :: A) B.
Proof.
  intros Hinv Hx Hd Hs Ha Ht Hz. pose proof (pi_shape _ _ _ _ _ _ Hinv x h Hx) as [].
  eapply (pinv_update None None p F C A B B x h h' Hinv Hx);
    [..|done|done|done|done|done|apply Hinv|apply Hinv|done].
  - split; rewrite ?Ha, ?Hs, ?Ht, ?Hd; done.
  - intros _. unfold hdr_sized. rewrite Hd, Hz, Hs. by apply (pi_sized _ _ _ _ _ _ Hinv x h Hx).
  - done.
  - unfold hdr_segs. by rewrite Hd, Hs, Ha.
Qed.

(** The part of [buffer_alloc] after the local cache came up empty: the head of
    the free list is taken when it and the free blocks are enough. *)
Lemma alloc_from_pool_spec p F C A B tot :
  cfg_ok -> pinv None p F C A B -> tot <= c_max_size cfg + c_room_size cfg ->
  exists r, alloc_from_pool p tot = Some r /\
    match r with
    | inl p' => (exists F' B', pinv None p' F' C A B') /\ local_cache p' = local_cache p /\
        (buf_freelist p = NULL \/ lacks p (buf_freelist p) tot)
    | inr (b, p') => b = buf_freelist p /\ b <> NULL /\ ~ lacks p b tot /\
        local_cache p' = local_cache p /\
        exists F' B' h, pinv None p' F' C (b :: A) B' /\ hdrs p' !! b = Some h /\ tot <= h_size h
    end.
Proof.
  intros Hcfg Hinv Htot. unfold alloc_from_pool. destruct (get_buf_spec p F C A B (cfg_lens Hcfg) Hinv)
    as (b & p1 & Hget & Hh1 & Hl1 & HF). rewrite Hget. cbn [mbind option_bind].
  pose proof (pi_free _ _ _ _ _ _ Hinv) as Hch. pose proof (pi_cfg _ _ _ _ _ _ Hinv) as Hpc.
  pose proof (pi_blkcount _ _ _ _ _ _ Hinv) as Hbc. pose proof (cfg_seg Hcfg).
  destruct F as [|x F].
  { destruct HF as [-> Hinv1]. simpl. eexists. split; [done|]. simpl. eauto 6. }
  destruct Hch as [Hfl _]. unfold lacks. rewrite Hfl.
  destruct HF as (-> & Hx0 & Hinv1). destruct (x =? NULL) eqn:E; zbool; [done|].
  assert (exists h, hdrs p1 !! x = Some h) as [h Hx].
  { apply (pi_dom _ _ _ _ _ _ Hinv1). rewrite <- (pi_all _ _ _ _ _ _ Hinv1). set_solver. }
  assert (hdrs p !! x = Some h) as Hxp by (by rewrite <- Hh1).
  rewrite Hx. cbn [mbind option_bind]. destruct (h_size h <? tot) eqn:Es; zbool.
  - destruct (fill_spec p1 F C A B x h tot Hcfg Hinv1 Hx Es Htot) as (r & Hrun & Hres).
    rewrite Hrun. cbn [mbind option_bind]. destruct r as [p2|p2].
    + destruct Hres as (p3 & B3 & Hret & Hinv3 & Hl3 & _ & _ & Hfew). rewrite Hret.
      eexists. split; [done|]. simpl. split_and!; [by eauto|congruence|].
      right. exists h. split_and!; [done|by rewrite Hpc, Hbc].
    + destruct Hres as (p3 & B3 & h3 & Hup & Hinv3 & Hl3 & Hx3 & Hsz3 & Ha3 & Hge).
      rewrite Hup. cbn [mbind option_bind]. rewrite Hx3. cbn [mbind option_bind].
      destruct (zget_Some (h_addr h3) 0) as [a Ha]; [rewrite Ha3; done|]. rewrite Ha.
      eexists. split; [done|]. simpl. split_and!; [done|done| |congruence|].
      * intros (h0 & Hx1 & Hlt). rewrite Hpc, Hbc in Hlt. simplify_eq. simpl in *. lia.
      * exists F, B3, h3. split_and!; try done. by apply pinv_back_ptrs.
  - eexists. split; [done|]. simpl. split_and!; try done.
    + intros (h0 & Hx1 & Hlt). rewrite Hpc, Hbc in Hlt. simplify_eq. nia.
    + by exists F, B, h.
Qed.

(** The buffer an allocation is made of: the first of the thread's cache, or of
    the pool when the cache is empty. *)
Definition candidate (p : pool) (tid : Z) : Z :=
  match zget (local_cache p) tid with
  | Some c => if lc_freelist c =? NULL then buf_freelist p else lc_freelist c
  | None => NULL
  end.

(** The cache and the pool together. *)
Lemma take_buffer_spec p F C A B tid tot :
  cfg_ok -> pinv None p F C A B -> 0 <= tid < zlen (local_cache p) ->
  tot <= c_max_size cfg + c_room_size cfg ->
  exists b p1 r, get_local_buf p tid tot = Some (b, p1) /\
    (if b =? NULL then alloc_from_pool p1 tot else Some (inr (b, p1))) = Some r /\
    match r with
    | inl p' => (exists F' C' B', pinv None p' F' C' A B') /\
        zlen (local_cache p') = zlen (local_cache p) /\
        (candidate p tid = NULL \/ lacks p (candidate p tid) tot)
    | inr (b, p') => b = candidate p tid /\ b <> NULL /\ ~ lacks p b tot /\
        zlen (local_cache p') = zlen (local_cache p) /\
        exists F' C' B' h, pinv None p' F' C' (b :: A) B' /\ hdrs p' !! b = Some h /\ tot <= h_size h
    end.
Proof.
  intros Hcfg Hinv Ht Htot. destruct (zget_Some _ _ Ht) as [c Hc].
  destruct (get_local_buf_spec p F C A B tid tot c Hcfg Hinv Ht Htot Hc)
    as (b & p1 & F1 & C1 & B1 & Hloc & Hl1 & Hcase).
  unfold candidate. rewrite Hc, Hloc. destruct (lc_freelist c =? NULL) eqn:Ec; zbool.
  - destruct Hcase as (-> & -> & -> & -> & ->).
    destruct (alloc_from_pool_spec p F C A B tot Hcfg Hinv Htot) as (r & Hr & Hres).
    exists NULL, p, r. rewrite Z.eqb_refl. split_and!; [done..|].
    destruct r as [p'|[b p']].
    + destruct Hres as ((F' & B' & Hp') & -> & Hwhy). split_and!; [eauto|done|done].
    + destruct Hres as (Hb & Hn & Hlk & -> & F' & B' & h & ? & ? & ?). split_and!; eauto 8.
  - destruct Hcase as [(-> & Hinv1 & Hfl & Hlk & Hlk1)|(-> & Hb & Hinv1 & Hlk & h & Hx & Hge)].
    + destruct (alloc_from_pool_spec p1 F1 C1 A B1 tot Hcfg Hinv1 Htot) as (r & Hr & Hres).
      exists NULL, p1, r. rewrite Z.eqb_refl. split_and!; [done..|].
      destruct r as [p'|[b p']].
      * destruct Hres as ((F' & B' & Hp') & Hl & _).
        split_and!; [eauto|congruence|by right].
      * destruct Hres as (-> & _ & Hno & _). rewrite Hfl in Hno. done.
    + exists (lc_freelist c), p1, (inr (lc_freelist c, p1)).
      rewrite (proj2 (Z.eqb_neq _ _) Ec). split_and!; try done. eauto 8.
Qed.

(** [buffer_alloc] terminates, and either returns a buffer that was not in use,
    with room for the request, or fails and leaves all buffers where they can be
    allocated again. *)
Lemma buffer_alloc_spec p F C A B tid size :
  cfg_ok -> pinv None p F C A B -> 0 <= tid < zlen (local_cache p) -> 0 <= size ->
  exists b p' F' C' B', buffer_alloc p tid size = Some (b, p') /\
    zlen (local_cache p') = zlen (local_cache p) /\
    ((b = ODP_BUFFER_INVALID /\ pinv None p' F' C' A B' /\
      (c_max_size cfg < size \/ candidate p tid = NULL \/
       lacks p (candidate p tid) (size + c_room_size cfg))) \/
     (b <> ODP_BUFFER_INVALID /\ size <= c_max_size cfg /\ pinv None p' F' C' (b :: A) B' /\
      b = candidate p tid /\ ~ lacks p b (size + c_room_size cfg) /\
      exists h, hdrs p' !! b = Some h /\ size + c_room_size cfg <= h_size h /\
        h_allocator h = tid)).
Proof.
  intros Hcfg Hinv Ht Hsz. unfold buffer_alloc. rewrite (pi_cfg _ _ _ _ _ _ Hinv).
  destruct (size >? c_max_size cfg) eqn:E; zbool.
  { exists ODP_BUFFER_INVALID, p, F, C, B. split_and!; try done. left. split_and!; try done.
    left. lia. }
  pose proof (cfg_room Hcfg). pose proof (cfg_fit Hcfg). pose proof (cfg_seg_max Hcfg).
  rewrite u64_small by (unfold is_u64; lia).
  destruct (take_buffer_spec p F C A B tid (size + c_room_size cfg) Hcfg Hinv Ht) as
    (b & p1 & r & Hloc & Hrun & Hres); [lia|].
  rewrite Hloc. cbn [mbind option_bind]. rewrite Hrun. cbn [mbind option_bind].
  destruct r as [p2|[b2 p2]].
  - destruct Hres as ((F' & C' & B' & Hp') & Hl & Hwhy).
    exists ODP_BUFFER_INVALID, p2, F', C', B'. split_and!; try done. left. split_and!; auto.
  - destruct Hres as (Hb & Hn & Hlk & Hl & F' & C' & B' & h & Hp' & Hx & Hge).
    unfold on_hdr. rewrite Hx. simpl. rewrite lookup_insert_eq. simpl. rewrite insert_insert_eq.
    eexists b2, _, F', C', B'. split; [done|]. split; [done|]. right.
    split_and!; try done.
    + by apply (pinv_mark p2 F' C' A B' b2 h).
    + eexists. simpl. rewrite lookup_insert_eq. split_and!; done.
Qed.

(** * Freeing and flushing *)

Lemma pinv_A_perm ex p F C A A' B : (A ≡ₚ A') -> pinv ex p F C A B -> pinv ex p F C A' B.
Proof. intros HA []. split; try done. by rewrite <- HA. Qed.

Lemma buffer_free_spec p F C A B tid x :
  cfg_ok -> pinv None p F C (x :: A) B -> 0 <= tid < zlen (local_cache p) ->
  (forall h, hdrs p !! x = Some h -> h_allocator h <> ODP_FREEBUF) ->
  exists p' F' C' B', odp_buffer_free p tid x = Some p' /\ pinv None p' F' C' A B' /\
    zlen (local_cache p') = zlen (local_cache p).
Proof.
  intros Hcfg Hinv Ht Ha.
  assert (exists h, hdrs p !! x = Some h) as [h Hx].
  { apply (pi_dom _ _ _ _ _ _ Hinv). rewrite <- (pi_all _ _ _ _ _ _ Hinv). set_solver. }
  unfold odp_buffer_free. rewrite Hx. cbn [mbind option_bind].
  rewrite (proj2 (Z.eqb_neq _ _) (Ha h Hx)). destruct (low_wm_assert p).
  - destruct (ret_buf_spec p F C A B x h (cfg_lens Hcfg) (pinv_weaken _ _ _ _ _ _ Hinv) Hx)
      as (p' & B' & Hret & Hinv' & Hl & _).
    { intros _. by apply (pi_sized _ _ _ _ _ _ Hinv x h Hx). }
    rewrite Hret. exists p', (x :: F), C, B'. split_and!; congruence.
  - destruct (cache_lookup p F C (x :: A) B None tid Hinv Ht) as (c & l & _ & HC & _).
    destruct (ret_local_buf_spec p F C A B tid x h l Hinv Ht Hx HC) as (p' & Hret & Hinv' & Hl).
    rewrite Hret. by eexists p', F, _, B.
Qed.

(** [flush_loop] never looks at the caches. *)
Lemma ret_segs_caches n p v x :
  ret_segs n (set_caches v p) x = set_caches v <$> ret_segs n p x.
Proof.
  revert p. induction n as [|n IH]; intros p; [done|]. simpl. unfold on_hdr. simpl.
  destruct (hdrs p !! x) as [h|]; [|done]. simpl.
  destruct (zget (h_addr h) (Z.of_nat n)) as [a|]; [|done]. simpl. unfold ret_blk. simpl.
  destruct (blks p !! a); [|done]. simpl. rewrite <- IH. done.
Qed.

Lemma ret_buf_caches p v x : ret_buf (set_caches v p) x = set_caches v <$> ret_buf p x.
Proof.
  unfold ret_buf, on_hdr. simpl. destruct (hdrs p !! x) as [h|] eqn:Hx; [|done]. simpl.
  destruct (negb (h_hdrdata h) && negb (h_type h =? ODP_EVENT_BUFFER)).
  - rewrite ret_segs_caches. destruct (ret_segs _ p x) as [q|]; [|done]. simpl.
    destruct (hdrs q !! x); [|done]. simpl. rewrite lookup_insert_eq. simpl.
    rewrite lookup_insert_eq. simpl. by case_match.
  - simpl. rewrite Hx. simpl. rewrite lookup_insert_eq. simpl. by case_match.
Qed.

Lemma flush_loop_caches fuel p v b n :
  flush_loop fuel (set_caches v p) b n =
  (fun r => (set_caches v (fst r), snd r)) <$> flush_loop fuel p b n.
Proof.
  revert p b n. induction fuel as [|fuel IH]; intros p b n; simpl; destruct (b =? NULL); try done.
  destruct (hdrs p !! b) as [h|]; [|done]. simpl. rewrite ret_buf_caches.
  destruct (ret_buf p b) as [q|]; [|done]. simpl. apply IH.
Qed.

Lemma flush_loop_spec fuel p F C A B b l n :
  cfg_ok -> pinv None p F C (l ++ A) B -> chain h_next (hdrs p) b l -> (length l <= fuel)%nat ->
  0 <= n -> n + Z.of_nat (length l) < 2 ^ 32 ->
  exists p' B', flush_loop fuel p b n = Some (p', n + Z.of_nat (length l)) /\
    pinv None p' (rev l ++ F) C A B' /\ local_cache p' = local_cache p.
Proof.
  intros Hcfg. revert p F B b l n. induction fuel as [|fuel IH];
    intros p F B b l n Hinv Hch Hfuel Hn Hlt.
  - destruct l as [|x l]; simpl in *; [|lia]. subst b. exists p, B. rewrite Z.add_0_r. done.
  - destruct l as [|x l]; simpl in Hch.
    { subst b. simpl. exists p, B. rewrite Z.add_0_r. done. }
    destruct Hch as (-> & Hne & h & Hx & Hch). simpl flush_loop.
    destruct (x =? NULL) eqn:E; zbool; [done|]. rewrite Hx. simpl.
    destruct (ret_buf_spec p F C (l ++ A) B x h (cfg_lens Hcfg) (pinv_weaken _ _ _ _ _ _ Hinv) Hx)
      as (p1 & B1 & Hret & Hinv1 & Hl1 & Hoth & _).
    { intros _. by apply (pi_sized _ _ _ _ _ _ Hinv x h Hx). }
    rewrite Hret. simpl. simpl length in *. rewrite u32_small by (unfold is_u32; lia).
    destruct (IH p1 (x :: F) B1 (h_next h) l (n + 1)) as (p2 & B2 & Hrun & Hinv2 & Hl2);
      [done| |lia|lia|lia|].
    { eapply chain_ext; [|exact Hch]. intros y v Hy Hv. exists v. rewrite Hoth; [done|].
      intros ->. pose proof (pinv_nodup _ _ _ _ _ _ Hinv) as Hnd.
      apply NoDup_app in Hnd as (_ & _ & Hnd). apply NoDup_app in Hnd as (_ & _ & Hnd).
      simpl in Hnd. apply NoDup_cons in Hnd as [Hnot _]. set_solver. }
    exists p2, B2. rewrite Hrun. split_and!; [do 2 f_equal; lia| |congruence].
    by rewrite <- app_assoc.
Qed.

Lemma cached_len ex p F C A B l :
  pinv ex p F C A B -> l ∈ C -> (length l <= size (hdrs p))%nat.
Proof.
  intros Hinv Hl. assert (NoDup l /\ forall x, x ∈ l -> x ∈ L) as [Hnd Hin].
  { pose proof (pinv_nodup _ _ _ _ _ _ Hinv) as H.
    apply NoDup_app in H as (_ & _ & H). apply NoDup_app in H as (H & _ & _).
    apply elem_of_Permutation in Hl as [C' HC]. rewrite HC in H. simpl in H.
    apply NoDup_app in H as (H & _ & _). split; [done|].
    intros x Hx. rewrite <- (pi_all _ _ _ _ _ _ Hinv), HC. simpl. set_solver. }
  rewrite <- size_dom. rewrite <- (size_list_to_set (C:=gset Z) l Hnd).
  apply subseteq_size. intros x Hx. apply elem_of_list_to_set, Hin in Hx.
  apply elem_of_dom. by apply Hinv.
Qed.

(** [flush_cache] empties one cache into the pool. *)
Lemma flush_cache_spec p F C A B tid :
  cfg_ok -> pinv None p F C A B -> 0 <= tid < zlen (local_cache p) ->
  exists p' F' B', flush_cache p tid = Some p' /\ pinv None p' F' (<[Z.to_nat tid := []]> C) A B' /\
    zlen (local_cache p') = zlen (local_cache p).
Proof.
  intros Hcfg Hinv Ht. unfold flush_cache.
  destruct (cache_lookup p F C A B None tid Hinv Ht) as (c & l & Hc & HC & Hch).
  rewrite Hc. simpl. set (v := <[Z.to_nat tid := Cache NULL 0 0]> (local_cache p)).
  destruct (concat_insert_perm C (Z.to_nat tid) l HC) as (R & H1 & H2).
  assert (pinv None (set_caches v p) F (<[Z.to_nat tid := []]> C) (l ++ A) B) as Hinv1.
  { destruct Hinv. split; simpl; try done.
    - rewrite <- pi_all0, H1, H2. solve_Permutation.
    - unfold v. by rewrite !length_insert.
    - intros i c' l' Hi Hl. destruct (decide (i = Z.to_nat tid)) as [->|Hne].
      + unfold v in Hi. rewrite list_lookup_insert_eq in Hi by (unfold zlen in Ht; lia).
        rewrite list_lookup_insert_eq in Hl by (by eapply lookup_lt_Some). by simplify_eq.
      + unfold v in Hi. rewrite list_lookup_insert_ne in Hi by done.
        rewrite list_lookup_insert_ne in Hl by done. by apply (pi_caches0 i). }
  assert (l ∈ C) as HlC by (apply list_elem_of_lookup; eauto).
  pose proof (cached_len _ _ _ _ _ _ l Hinv HlC) as Hll.
  assert (length l <= length L)%nat as HlL.
  { rewrite <- (Permutation_length (pi_all _ _ _ _ _ _ Hinv1)), !length_app. lia. }
  destruct (cfg_lens Hcfg) as [HL _].
  destruct (flush_loop_spec (size (hdrs p)) (set_caches v p) F _ A B (lc_freelist c) l 0 Hcfg Hinv1)
    as (p1 & B1 & Hrun & Hinv2 & Hl2); [done|done|lia|lia|].
  rewrite flush_loop_caches in Hrun.
  destruct (flush_loop _ p _ 0) as [[q cnt]|] eqn:Hq; [|done].
  injection Hrun as <- ->. simpl in Hl2.
  assert (local_cache q = local_cache p) as Hlq.
  { pose proof (flush_loop_caches (size (hdrs p)) p (local_cache p) (lc_freelist c) 0) as Hcomm.
    replace (set_caches (local_cache p) p) with p in Hcomm by (by destruct p).
    rewrite Hq in Hcomm. simpl in Hcomm. injection Hcomm as Heq. by rewrite Heq. }
  unfold on_cache. simpl. rewrite Hlq, Hc. simpl. rewrite zset_Some by done. simpl.
  eexists _, _, B1. split; [done|]. split; [|unfold zlen; simpl; by rewrite length_insert].
  fold v. apply (pinv_on_stats _ _ _ _ _ _
    (stats_add (lc_bufallocs c) (lc_buffrees c -u64 (0 + Z.of_nat (length l))) 0 0 0 0 0 0))
    in Hinv2. exact Hinv2.
Qed.

Lemma flush_all_spec n tid p F C A B :
  cfg_ok -> pinv None p F C A B -> 0 <= tid -> tid + Z.of_nat n <= zlen (local_cache p) ->
  exists p' F' C' B', flush_all n tid p = Some p' /\ pinv None p' F' C' A B' /\
    (forall i, (i < Z.to_nat tid)%nat -> C' !! i = C !! i) /\
    (forall i, (Z.to_nat tid <= i < Z.to_nat tid + n)%nat -> C' !! i = Some []) /\
    length C' = length C.
Proof.
  intros Hcfg. revert tid p F C B. induction n as [|n IH]; intros tid p F C B Hinv Ht Hn.
  - exists p, F, C, B. split_and!; try done. intros i Hi. lia.
  - destruct (flush_cache_spec p F C A B tid Hcfg Hinv) as (p1 & F1 & B1 & H1 & Hinv1 & Hl1);
      [lia|]. simpl. rewrite H1. simpl.
    destruct (IH (tid + 1) p1 F1 _ B1 Hinv1) as (p2 & F2 & C2 & B2 & H2 & Hinv2 & Ha & Hb & Hc);
      [lia|lia|].
    exists p2, F2, C2, B2. rewrite length_insert in Hc. split_and!; try done.
    + intros i Hi. rewrite Ha by lia. by rewrite list_lookup_insert_ne by lia.
    + intros i Hi. destruct (decide (i = Z.to_nat tid)) as [->|Hne].
      * rewrite Ha by lia. apply list_lookup_insert_eq.
        rewrite <- (pi_ncaches _ _ _ _ _ _ Hinv). unfold zlen in Hn. lia.
      * apply Hb. lia.
Qed.

Lemma concat_all_nil (C : list (list Z)) :
  (forall i, (i < length C)%nat -> C !! i = Some []) -> concat C = [].
Proof.
  induction C as [|c C IH]; intros H; [done|]. simpl.
  pose proof (H 0%nat ltac:(simpl; lia)) as H0. simplify_eq/=. apply IH. intros i Hi.
  apply (H (S i)). simpl. lia.
Qed.

Lemma destroy_pool_spec p F C A B :
  cfg_ok -> pinv None p F C A B -> zlen (local_cache p) = ODP_THREAD_COUNT_MAX ->
  exists b p' F' C' B', destroy_pool p = Some (b, p') /\ pinv None p' F' C' A B' /\
    (b = true <-> Z.of_nat (length A) + c_buf_num cfg <= Z.of_nat (length L)) /\
    length C' = length C /\ (forall i, (i < length C')%nat -> C' !! i = Some []).
Proof.
  intros Hcfg Hinv Hlen. unfold destroy_pool.
  destruct (flush_all_spec (Z.to_nat ODP_THREAD_COUNT_MAX) 0 p F C A B Hcfg Hinv)
    as (p1 & F1 & C1 & B1 & H1 & Hinv1 & _ & Hnil & Hlc); [lia|unfold zlen in *; lia|].
  rewrite H1. simpl. eexists _, p1, F1, C1, B1.
  assert (forall i, (i < length C1)%nat -> C1 !! i = Some []) as Hall.
  { intros i Hi. apply Hnil. rewrite Hlc in Hi.
    rewrite <- (pi_ncaches _ _ _ _ _ _ Hinv) in Hi. unfold zlen in *. lia. }
  split_and!; [done|done| |done|done].
  assert (concat C1 = []) as Hcn by (by apply concat_all_nil).
  pose proof (Permutation_length (pi_all _ _ _ _ _ _ Hinv1)) as HL.
  rewrite Hcn in HL. simpl in HL. rewrite length_app in HL.
  rewrite (pi_cfg _ _ _ _ _ _ Hinv1), (pi_bufcount _ _ _ _ _ _ Hinv1).
  destruct (_ <? _) eqn:E; zbool; simpl; split; intros; try done; lia.
Qed.

(** * Sequences of operations *)

(** A pool together with the buffers the application holds. *)
Inductive pool_step : pool * list Z -> pool * list Z -> Prop :=
  | Step_alloc p A tid size b p' :
      0 <= tid < zlen (local_cache p) -> 0 <= size ->
      buffer_alloc p tid size = Some (b, p') -> b <> ODP_BUFFER_INVALID ->
      pool_step (p, A) (p', b :: A)
  | Step_alloc_fails p A tid size p' :
      0 <= tid < zlen (local_cache p) -> 0 <= size ->
      buffer_alloc p tid size = Some (ODP_BUFFER_INVALID, p') -> pool_step (p, A) (p', A)
  | Step_free p A1 x A2 tid p' :
      0 <= tid < zlen (local_cache p) ->
      odp_buffer_free p tid x = Some p' -> pool_step (p, A1 ++ x :: A2) (p', A1 ++ A2)
  | Step_flush p A tid p' :
      0 <= tid < zlen (local_cache p) -> flush_cache p tid = Some p' -> pool_step (p, A) (p', A).

Definition pool_ok (s : pool * list Z) : Prop :=
  exists F C B, pinv None (fst s) F C (snd s) B.

Lemma pool_step_ok s s' : cfg_ok -> pool_ok s -> pool_step s s' -> pool_ok s'.
Proof.
  intros Hcfg (F & C & B & Hinv) Hstep.
  destruct Hstep as [p A tid size b p' Ht Hs Hrun Hb|p A tid size p' Ht Hs Hrun
    |p A1 x A2 tid p' Ht Hrun|p A tid p' Ht Hrun]; simpl in *.
  - destruct (buffer_alloc_spec p F C A B tid size Hcfg Hinv Ht Hs)
      as (b1 & p1 & F1 & C1 & B1 & Hrun1 & _ & [(-> & _)|(_ & _ & Hinv1 & _)]); [congruence|].
    rewrite Hrun in Hrun1. simplify_eq. by exists F1, C1, B1.
  - destruct (buffer_alloc_spec p F C A B tid size Hcfg Hinv Ht Hs)
      as (b1 & p1 & F1 & C1 & B1 & Hrun1 & _ & [(-> & Hinv1 & _)|(? & _)]); [|congruence].
    rewrite Hrun in Hrun1. simplify_eq. by exists F1, C1, B1.
  - apply (pinv_A_perm _ _ _ _ _ (x :: A1 ++ A2)) in Hinv; [|solve_Permutation].
    destruct (buffer_free_spec p F C (A1 ++ A2) B tid x Hcfg Hinv Ht)
      as (p1 & F1 & C1 & B1 & Hrun1 & Hinv1 & _).
    { intros h Hx Ha. unfold odp_buffer_free in Hrun. rewrite Hx in Hrun. simpl in Hrun. by rewrite Ha in Hrun. }
    rewrite Hrun in Hrun1. simplify_eq. by exists F1, C1, B1.
  - destruct (flush_cache_spec p F C A B tid Hcfg Hinv Ht) as (p1 & F1 & B1 & Hrun1 & Hinv1 & _).
    rewrite Hrun in Hrun1. simplify_eq. by eexists F1, _, B1.
Qed.

Lemma pool_ok_reach s s' : cfg_ok -> pool_ok s -> rtc pool_step s s' -> pool_ok s'.
Proof. intros Hcfg Hok H. induction H; [done|]. eauto using pool_step_ok. Qed.

(** Two buffers on one list of live headers share no block. *)
Lemma segs_disjoint ex p F C A B x y :
  pinv ex p F C A B -> x ∈ A -> y ∈ A -> x <> y ->
  forall b, b ∈ segs_of (hdrs p) x -> b ∈ segs_of (hdrs p) y -> False.
Proof.
  intros Hinv Hx Hy Hne b Hbx Hby. pose proof (blks_nodup _ _ _ _ _ _ Hinv) as Hnd.
  apply NoDup_app in Hnd as (_ & _ & Hnd).
  assert (x ∈ L /\ y ∈ L) as [HxL HyL].
  { rewrite <- (pi_all _ _ _ _ _ _ Hinv). set_solver. }
  apply elem_of_Permutation in HxL as [L1 HL1].
  rewrite (Permutation_flat_map (segs_of (hdrs p)) HL1) in Hnd. simpl in Hnd.
  apply NoDup_app in Hnd as (_ & Hd & _). apply (Hd b Hbx).
  apply list_elem_of_In, in_flat_map. exists y. rewrite <- !list_elem_of_In. split; [|done].
  rewrite HL1 in HyL. set_solver.
Qed.

End pool.

(** C4: conservation of buffers and blocks.  After any sequence of whole
    allocations, frees and cache flushes by any threads, starting from a pool in
    the state creation leaves it in, the headers of the pool are, each exactly once, on its free list, on the list of one thread's
    cache, or in use; the count of free buffers is the length of the free list;
    the blocks of the pool are, each exactly once, on the block free list, whose
    length the count of free blocks is, or in the segments of one header.  In
    particular the buffers in use are distinct and share no block. *)
Theorem pool_conservation (L allb : list Z) (cfg : pool_cfg) (p p' : pool) (A A' : list Z) :
  cfg_ok L allb cfg -> pool_ok L allb cfg (p, A) -> rtc pool_step (p, A) (p', A') ->
  NoDup L /\ NoDup allb /\
  (forall x y b, x ∈ A' -> y ∈ A' -> b ∈ segs_of (hdrs p') x -> b ∈ segs_of (hdrs p') y -> x = y) /\
  exists (F : list Z) (C : list (list Z)) (B : list Z),
    chain h_next (hdrs p') (buf_freelist p') F /\ bufcount p' = Z.of_nat (length F) /\
    Forall2 (fun c l => chain h_next (hdrs p') (lc_freelist c) l) (local_cache p') C /\
    F ++ concat C ++ A' ≡ₚ L /\
    chain id (blks p') (blk_freelist p') B /\ blkcount p' = Z.of_nat (length B) /\
    B ++ flat_map (segs_of (hdrs p')) L ≡ₚ allb.
Proof.
  intros Hcfg Hok Hsteps.
  destruct (pool_ok_reach L allb cfg _ _ Hcfg Hok Hsteps) as (F & C & B & Hinv). simpl in Hinv.
  split_and!; [apply Hinv|apply Hinv| |].
  - intros x y b Hx Hy Hbx Hby. destruct (decide (x = y)) as [|Hne]; [done|exfalso].
    by eapply (segs_disjoint L allb cfg None p' F C A' B x y).
  - exists F, C, B. split_and!; try apply Hinv.
    apply Forall2_same_length_lookup_2; [apply Hinv|].
    intros i c l. apply (pi_caches _ _ _ _ _ _ _ _ _ Hinv).
Qed.

(** C5: every allocation of at most [size] bytes, in every state reached by
    whole allocations, frees and flushes, returns (the loops end and no block
    pointer is written outside [addr\[\]]).  It fails exactly when the request is
    larger than the pool allows, when neither the thread's cache nor the pool has
    a free buffer, or when the first of them ([candidate]) and all free blocks of
    the pool are too small for the request with headroom and tailroom.  Otherwise
    it returns that buffer, which was not in use, belongs to the thread and has
    room for the request. *)
Theorem buffer_alloc_correct (L allb : list Z) (cfg : pool_cfg) (p0 p : pool) (A0 A : list Z)
    (tid size : Z) :
  cfg_ok L allb cfg -> pool_ok L allb cfg (p0, A0) -> rtc pool_step (p0, A0) (p, A) ->
  0 <= tid < zlen (local_cache p) -> 0 <= size ->
  exists b p', buffer_alloc p tid size = Some (b, p') /\
    (b = ODP_BUFFER_INVALID <->
       c_max_size cfg < size \/ candidate p tid = NULL \/
       lacks p (candidate p tid) (size + c_room_size cfg)) /\
    (b <> ODP_BUFFER_INVALID ->
       b = candidate p tid /\ (b ∉ A) /\
       exists h, hdrs p' !! b = Some h /\ size + c_room_size cfg <= h_size h /\
         (h_hdrdata h = false -> h_size h = h_segcount h * c_seg_size cfg) /\
         h_allocator h = tid).
Proof.
  intros Hcfg Hok Hsteps Ht Hs.
  destruct (pool_ok_reach L allb cfg _ _ Hcfg Hok Hsteps) as (F & C & B & Hinv). simpl in Hinv.
  destruct (buffer_alloc_spec L allb cfg p F C A B tid size Hcfg Hinv Ht Hs)
    as (b & p' & F' & C' & B' & Hrun & _ & Hcase).
  exists b, p'. split; [done|].
  destruct Hcase as [(Hb & _ & Hwhy)|(Hb & Hm & Hinv' & Hc & Hlk & h & Hx & Hge & Ha)].
  - split; [by split|]. done.
  - split.
    + split; [done|]. rewrite <- Hc. intros [?|[?|?]]; [lia|done|done].
    + intros _. split_and!; [done| |].
      * pose proof (pinv_nodup _ _ _ _ _ _ _ _ _ Hinv') as Hnd.
        apply NoDup_app in Hnd as (_ & _ & Hnd). apply NoDup_app in Hnd as (_ & _ & Hnd).
        by apply NoDup_cons in Hnd as [? _].
      * exists h. split_and!; try done. apply (pi_sized _ _ _ _ _ _ _ _ _ Hinv' b h Hx). done.
Qed.

(** [odp_pool_destroy] succeeds exactly when no more buffers are in use than
    the pool keeps for itself: it flushes every thread's cache first, so cached
    buffers never block it, and a buffer still in use always does. *)
Theorem destroy_iff_all_free (L allb : list Z) (cfg : pool_cfg) (p0 p : pool) (A0 A : list Z) :
  cfg_ok L allb cfg -> pool_ok L allb cfg (p0, A0) -> rtc pool_step (p0, A0) (p, A) ->
  zlen (local_cache p) = ODP_THREAD_COUNT_MAX ->
  exists b p', destroy_pool p = Some (b, p') /\
    (b = true <-> Z.of_nat (length A) + c_buf_num cfg <= Z.of_nat (length L)).
Proof.
  intros Hcfg Hok Hsteps Hlen.
  destruct (pool_ok_reach L allb cfg _ _ Hcfg Hok Hsteps) as (F & C & B & Hinv). simpl in Hinv.
  destruct (destroy_pool_spec L allb cfg p F C A B Hcfg Hinv Hlen)
    as (b & p' & F' & C' & B' & Hrun & _ & Hiff & _). by exists b, p'.
Qed.

End PoolProofs.
