(* ===== verification/PoolCreate.v ===== *)
(** Creation, lookup and destruction of pools: the other half of [odp_pool.c].

    [validate] is the parameter check, [create_in_slot] what [odp_pool_create]
    does once it has found a free slot, [odp_pool_create] the search.  The memory
    that [odp_shm_reserve] returns is an argument; header and block writes
    outside it are [None].  The theorems show that creation establishes the
    invariant of [PoolProofs], with headers and blocks laid out without overlap
    inside the reserved memory. *)

From S2P Require Import Prelude Pool PoolProofs.

Open Scope Z_scope.
Open Scope c_scope.

Module PoolCreate.
Import Pool PoolProofs.

Definition ODP_CONFIG_POOLS : Z := 16.
Definition ODP_CONFIG_BUFFER_ALIGN_MIN : Z := 16.
Definition ODP_CONFIG_BUFFER_ALIGN_MAX : Z := 4 * 1024.
Definition ODP_CONFIG_PACKET_HEADROOM : Z := 128.
Definition ODP_CONFIG_PACKET_TAILROOM : Z := 64.
Definition ODP_CONFIG_PACKET_SEG_LEN_MIN : Z := 1598.
Definition ODP_CONFIG_PACKET_SEG_LEN_MAX : Z := 64 * 1024.
Definition ODP_MAX_INLINE_BUF : Z := 8 * (ODP_BUFFER_MAX_SEG - 1).
Definition ODP_CACHE_LINE_SIZE : Z := 64.
Definition ODP_PAGE_SIZE : Z := 4096.
Definition ODP_BUFFER_MAX_BUFFERS : Z := 2 ^ 25.
Definition ODP_POOL_INVALID : Z := 0xffffffff.
Definition ODP_SHM_INVALID : Z := 0.
Definition ODP_POOL_NAME_LEN : nat := 32.

(** [ODP_ALIGN_ROUNDUP] on 32-bit operands, and on [size_t] ones. *)
Definition ROUNDUP32 (x align : Z) : Z :=
  align *u32 ((x +u32 align -u32 1) `div` align).
Definition ROUNDUP64 (x align : Z) : Z :=
  align *u64 ((x +u64 align -u64 1) `div` align).
(** [ODP_ALIGN_ROUNDDOWN_POWER_2] on 32-bit operands: [x & ~(align - 1)]. *)
Definition ROUNDDOWN_POWER_2 (x align : Z) : Z :=
  x & (0xffffffff - (align -u32 1)).

(** [odp_pool_param_t]: the union by the type that selects its member. *)
Inductive pool_param :=
| POOL_BUFFER (num size align : Z)
| POOL_PACKET (num len seg_len uarea_size : Z)
| POOL_TIMEOUT (num : Z)
| POOL_OTHER (type : Z).

Definition param_type (p : pool_param) : Z :=
  match p with
  | POOL_BUFFER _ _ _ => ODP_EVENT_BUFFER
  | POOL_PACKET _ _ _ _ => ODP_EVENT_PACKET
  | POOL_TIMEOUT _ => ODP_EVENT_TIMEOUT
  | POOL_OTHER t => t
  end.

(** [sizeof] of the three header strides and the offset of [addr\[\]]. *)
Record abi := Abi {
  buffer_hdr_stride : Z;
  packet_hdr_stride : Z;
  timeout_hdr_stride : Z;
  off_addr : Z
}.

(** The local variables of [odp_pool_create] once the parameters are checked. *)
Record geom := Geom {
  g_unseg : bool;
  g_headroom : Z;
  g_tailroom : Z;
  g_buf_num : Z;
  g_blk_size : Z;
  g_seg_len : Z;
  g_buf_align : Z;
  g_buf_stride : Z;
  g_p_udata_size : Z;
  g_udata_stride : Z
}.

(** [struct pool_entry_s]: what the allocator uses is in [e_pool]. *)
Record pool_entry := Entry {
  e_name : string;
  e_params : pool_param;
  e_pool_shm : Z;
  e_has_name : bool;
  e_predefined : bool;
  e_base_addr : Z;
  e_pool_size : Z;
  e_buf_align : Z;
  e_udata_size : Z;
  e_cache_pkt_hdr : Z;
  e_pool : pool
}.

Section create.
Context (A : abi).

Definition check_align (buf_align : Z) : option Z :=
  if (buf_align >? ODP_CONFIG_BUFFER_ALIGN_MAX)
     || negb (buf_align =? ROUNDDOWN_POWER_2 buf_align buf_align)
  then None
  else if buf_align =? 0 then Some ODP_CACHE_LINE_SIZE
  else if buf_align <? ODP_CONFIG_BUFFER_ALIGN_MIN then Some ODP_CONFIG_BUFFER_ALIGN_MIN
  else Some buf_align.

(** The [switch] on the type of the pool. *)
Definition sizes (params : pool_param) (buf_align : Z) : option geom :=
  match params with
  | POOL_BUFFER num size align =>
      let blk_size :=
        if (size >? ODP_MAX_INLINE_BUF) || negb (align =? 0)
        then ROUNDUP32 size buf_align else size in
      Some (Geom true 0 0 num blk_size 0 buf_align (buffer_hdr_stride A) 0 0)
  | POOL_PACKET num len seg_len uarea_size =>
      let headroom := ODP_CONFIG_PACKET_HEADROOM in
      let tailroom := ODP_CONFIG_PACKET_TAILROOM in
      let buf_num := num +u32 1 in
      let seg_len :=
        if seg_len <=? ODP_CONFIG_PACKET_SEG_LEN_MIN then ODP_CONFIG_PACKET_SEG_LEN_MIN
        else if seg_len <=? ODP_CONFIG_PACKET_SEG_LEN_MAX then seg_len
        else ODP_CONFIG_PACKET_SEG_LEN_MAX in
      let seg_len :=
        ROUNDUP32 (headroom +u32 seg_len +u32 tailroom) ODP_CONFIG_BUFFER_ALIGN_MIN in
      let blk_size := if len <=? seg_len then seg_len else ROUNDUP32 len seg_len in
      if blk_size `div` seg_len >? ODP_BUFFER_MAX_SEG then None
      else Some (Geom false headroom tailroom buf_num blk_size seg_len buf_align
                   (packet_hdr_stride A) uarea_size (ROUNDUP64 uarea_size 8 `mod` 2 ^ 32))
  | POOL_TIMEOUT num =>
      Some (Geom true 0 0 num 0 0 buf_align (timeout_hdr_stride A) 0 0)
  | POOL_OTHER _ => None
  end.

(** Everything [odp_pool_create] does before it looks for a slot. *)
Definition validate (params : pool_param) : option geom :=
  let buf_align := match params with POOL_BUFFER _ _ align => align | _ => 0 end in
  buf_align ← check_align buf_align;
  g ← sizes params buf_align;
  if g_buf_num g >? ODP_BUFFER_MAX_BUFFERS `div` (g_buf_stride g `div` ODP_CACHE_LINE_SIZE)
  then None else Some g.

(** The three regions of the reserved memory. *)
Definition block_size (g : geom) : Z :=
  if g_blk_size g <=? ODP_MAX_INLINE_BUF then 0
  else g_buf_num g *u64 (g_blk_size g +u64 ODP_HDR_BACK_PTR_SIZE).
Definition pad_size (g : geom) : Z :=
  ROUNDUP64 (block_size g) ODP_CACHE_LINE_SIZE -u64 block_size g.
Definition mdata_size (g : geom) : Z := g_buf_num g *u32 g_buf_stride g.
Definition udata_size (g : geom) : Z := g_buf_num g *u32 g_udata_stride g.
Definition pool_size (g : geom) : Z :=
  ROUNDUP64 (block_size g +u64 pad_size g +u64 mdata_size g +u64 udata_size g) ODP_PAGE_SIZE.
Definition mdata_base (base : Z) (g : geom) : Z := base + block_size g + pad_size g.

(** [odp_buffer_encode_handle]: pool id, cache line index and segment 0. *)
Definition encode_handle (pool_id mdata hdr : Z) : Z :=
  Z.lor (Z.shiftl (pool_id `mod` 2 ^ 4) 28)
        (Z.shiftl (((hdr - mdata) `div` ODP_CACHE_LINE_SIZE) `mod` 2 ^ 25) 3).

(** One buffer header as the initialisation loop leaves it before [ret_buf]
    (memory the loop does not write is 0). *)
Definition new_hdr (g : geom) (ptype pool_hdl seg_size mdata buf udat : Z) : buffer_hdr :=
  let hdrdata := g_blk_size g <=? ODP_MAX_INLINE_BUF in
  let data := hdrdata && (g_blk_size g >? 0) in
  Hdr NULL (encode_handle pool_hdl mdata buf) false hdrdata ODP_FREEBUF ptype ptype
    (if data then g_blk_size g else 0) 0 pool_hdl udat (g_p_udata_size g)
    (if data then 1 else 0) seg_size
    ((if data then buf + off_addr A + 8 else NULL) :: replicate 5 NULL) NULL.

(** [do { ... ret_buf(...) } while (buf >= mdata_base_addr)]; a header outside
    the reserved memory [[lo, hi)] is [None]. *)
Fixpoint init_hdrs (fuel : nat) (g : geom) (ptype lo hi mdata buf udat : Z) (p : pool)
    : option pool :=
  match fuel with
  | O => None
  | S fuel =>
      if (buf <? lo) || (hi <? buf + g_buf_stride g) then None
      else
        let h := new_hdr g ptype (c_pool_hdl (p_cfg p)) (c_seg_size (p_cfg p)) mdata buf udat in
        p ← ret_buf (set_hdrs (<[buf := h]> (hdrs p)) p) buf;
        let buf := buf - g_buf_stride g in
        if buf >=? mdata
        then init_hdrs fuel g ptype lo hi mdata buf (udat - g_udata_stride g) p
        else Some p
  end.

(** [do { ret_blk(...) } while (blk >= block_base_addr)]. *)
Fixpoint carve_blks (fuel : nat) (lo hi blk : Z) (p : pool) : option pool :=
  match fuel with
  | O => None
  | S fuel =>
      let stride := c_seg_size (p_cfg p) + ODP_HDR_BACK_PTR_SIZE in
      if (blk <? lo) || (hi <? blk + stride) then None
      else
        let b := blk + ODP_HDR_BACK_PTR_SIZE in
        p ← ret_blk (set_blks (<[b := NULL]> (blks p)) p) b;
        let blk := blk - stride in
        if blk >=? lo then carve_blks fuel lo hi blk p else Some p
  end.

Definition set_cfg (c : pool_cfg) (p : pool) : pool :=
  Mk_pool c (buf_freelist p) (blk_freelist p) (bufcount p) (blkcount p) (low_wm_assert p)
    (poolstats p) (local_cache p) (hdrs p) (blks p) (back_ptrs p).

(** The configuration while the headers are initialised: the watermarks, rooms
    and sizes are still those of the slot's former pool. *)
Definition cfg_init (g : geom) (params : pool_param) (mdata : Z) (c : pool_cfg) : pool_cfg :=
  Cfg (c_pool_hdl c) (param_type params) false (g_unseg g) (g_buf_num g)
    (if g_unseg g then g_blk_size g else g_seg_len g) (g_blk_size g)
    (c_high_wm c) (c_low_wm c) (c_headroom c) (c_tailroom c) (c_max_size c) (c_room_size c)
    (g_buf_stride g) mdata.

(** [pool->s.seg_size = ODP_ALIGN_ROUNDUP(pool->s.seg_size, sizeof(uint64_t))] *)
Definition cfg_seg8 (c : pool_cfg) : pool_cfg :=
  Cfg (c_pool_hdl c) (c_type c) (c_zeroized c) (c_unsegmented c) (c_buf_num c)
    (ROUNDUP64 (c_seg_size c) 8 `mod` 2 ^ 32) (c_blk_size c)
    (c_high_wm c) (c_low_wm c) (c_headroom c) (c_tailroom c) (c_max_size c) (c_room_size c)
    (c_buf_stride c) (c_mdata_addr c).

Definition cfg_final (g : geom) (buf_num : Z) (c : pool_cfg) : pool_cfg :=
  Cfg (c_pool_hdl c) (c_type c) (c_zeroized c) (c_unsegmented c) buf_num (c_seg_size c)
    (c_blk_size c) (buf_num `div` 2) (buf_num `div` 4) (g_headroom g) (g_tailroom g)
    (if g_unseg g then c_seg_size c
     else c_seg_size c *u32 ODP_BUFFER_MAX_SEG -u32 g_headroom g -u32 g_tailroom g)
    (g_headroom g +u32 g_tailroom g) (c_buf_stride c) (c_mdata_addr c).

(** The pool a slot holds after [odp_pool_create] has taken it, and the buffer
    kept as the template of packet headers (0 for other pools). *)
Definition init_pool (g : geom) (params : pool_param) (base : Z) (p : pool)
    : option (pool * Z) :=
  let mdata := mdata_base base g in
  let udata := mdata + mdata_size g in
  let hi := base + pool_size g in
  let p := Mk_pool (cfg_init g params mdata (p_cfg p)) NULL NULL 0 0 (low_wm_assert p)
             (poolstats p) (local_cache p) ∅ ∅ ∅ in
  let udat := if g_udata_stride g =? 0 then NULL
              else udata + udata_size g - g_udata_stride g in
  p ← init_hdrs (S (Z.to_nat (g_buf_num g))) g (param_type params) base hi mdata
        (udata - g_buf_stride g) udat p;
  let p := set_cfg (cfg_seg8 (p_cfg p)) p in
  p ← (if g_blk_size g >? ODP_MAX_INLINE_BUF then
         carve_blks (S (Z.to_nat (block_size g))) base hi
           (base + block_size g - c_seg_size (p_cfg p) - ODP_HDR_BACK_PTR_SIZE) p
       else Some p);
  '(ctx, buf_num, p) ←
    (match params with
     | POOL_PACKET _ _ _ _ => '(bh, p) ← get_buf p; Some (bh, g_buf_num g -u32 1, p)
     | _ => Some (NULL, g_buf_num g, p)
     end);
  let p := set_cfg (cfg_final g buf_num (p_cfg p)) p in
  Some (set_low_wm_assert false (on_stats (fun _ => Stats 0 0 0 0 0 0 0 0) p), ctx).

(** [strncpy(dst, src, ODP_POOL_NAME_LEN - 1)] with the final terminator. *)
Definition pool_name (name : option string) : string :=
  match name with
  | None => EmptyString
  | Some s => String.substring 0 (ODP_POOL_NAME_LEN - 1) s
  end.

(** The configuration when the reservation fails: [params], [flags] and
    [buf_num] have been written. *)
Definition cfg_reserved (g : geom) (params : pool_param) (c : pool_cfg) : pool_cfg :=
  Cfg (c_pool_hdl c) (param_type params) false false (g_buf_num g) (c_seg_size c)
    (c_blk_size c) (c_high_wm c) (c_low_wm c) (c_headroom c) (c_tailroom c) (c_max_size c)
    (c_room_size c) (c_buf_stride c) (c_mdata_addr c).

(** The slot is free: [inl e] when no memory could be reserved. *)
Definition create_in_slot (g : geom) (name : option string) (params : pool_param)
    (shm : option (Z * Z)) (e : pool_entry) : option (pool_entry + pool_entry) :=
  let buf_align :=
    if g_blk_size g <=? ODP_MAX_INLINE_BUF
    then (if g_blk_size g =? 0 then 0 else 8) else g_buf_align g in
  let has_name := match name with None => false | Some _ => true end in
  match shm with
  | None =>
      Some (inl (Entry (pool_name name) params (e_pool_shm e) has_name false
                   (e_base_addr e) (pool_size g) buf_align (e_udata_size e)
                   (e_cache_pkt_hdr e)
                   (set_cfg (cfg_reserved g params (p_cfg (e_pool e))) (e_pool e))))
  | Some (hdl, base) =>
      '(p, ctx) ← init_pool g params base (e_pool e);
      Some (inr (Entry (pool_name name) params hdl has_name false base (pool_size g)
                   buf_align (g_p_udata_size g) (if ctx =? NULL then e_cache_pkt_hdr e else ctx)
                   p))
  end.

(** The search for a free slot, from slot [i] on. *)
Fixpoint find_slot (tbl : list pool_entry) (i : nat) : option nat :=
  match tbl with
  | [] => None
  | e :: tbl => if e_pool_shm e =? ODP_SHM_INVALID then Some i else find_slot tbl (S i)
  end.

(** [odp_pool_create]; [shm] is what [odp_shm_reserve] returns (handle and
    address), [None] for [ODP_SHM_INVALID]. *)
Definition odp_pool_create (tbl : list pool_entry) (name : option string)
    (params : pool_param) (shm : option (Z * Z)) : option (Z * list pool_entry) :=
  match validate params with
  | None => Some (ODP_POOL_INVALID, tbl)
  | Some g =>
      match find_slot tbl 0 with
      | None => Some (ODP_POOL_INVALID, tbl)
      | Some i =>
          e ← tbl !! i;
          r ← create_in_slot g name params shm e;
          match r with
          | inl e' => Some (ODP_POOL_INVALID, <[i := e']> tbl)
          | inr e' => Some (c_pool_hdl (p_cfg (e_pool e')), <[i := e']> tbl)
          end
      end
  end.

End create.

(** [odp_pool_lookup]: the first slot with the name, in use or not. *)
Fixpoint odp_pool_lookup (tbl : list pool_entry) (name : string) : Z :=
  match tbl with
  | [] => ODP_POOL_INVALID
  | e :: tbl =>
      if bool_decide (name = e_name e) then c_pool_hdl (p_cfg (e_pool e))
      else odp_pool_lookup tbl name
  end.

(** [odp_pool_info] *)
Definition odp_pool_info (tbl : list pool_entry) (hdl : Z) : option (string * pool_param) :=
  e ← zget tbl hdl; Some (e_name e, e_params e).

Definition set_e_pool (p : pool) (e : pool_entry) : pool_entry :=
  Entry (e_name e) (e_params e) (e_pool_shm e) (e_has_name e) (e_predefined e) (e_base_addr e)
    (e_pool_size e) (e_buf_align e) (e_udata_size e) (e_cache_pkt_hdr e) p.
Definition set_e_shm (s : Z) (e : pool_entry) : pool_entry :=
  Entry (e_name e) (e_params e) s (e_has_name e) (e_predefined e) (e_base_addr e)
    (e_pool_size e) (e_buf_align e) (e_udata_size e) (e_cache_pkt_hdr e) (e_pool e).

(** [odp_pool_destroy] *)
Definition odp_pool_destroy (tbl : list pool_entry) (hdl : Z) : option (Z * list pool_entry) :=
  e ← zget tbl hdl;
  if (e_pool_shm e =? ODP_SHM_INVALID) || e_predefined e then Some (-1, tbl)
  else
    '(gone, p) ← destroy_pool (e_pool e);
    let e := set_e_pool p e in
    if negb gone then tbl ← zset tbl hdl e; Some (-1, tbl)
    else tbl ← zset tbl hdl (set_e_shm ODP_SHM_INVALID e); Some (0, tbl).

(** One slot as [odp_pool_init_global] leaves it (all else is zero). *)
Definition empty_cache : local_cache_t := Cache NULL 0 0.
Definition init_entry (i : Z) : pool_entry :=
  Entry EmptyString (POOL_OTHER 0) ODP_SHM_INVALID false false NULL 0 0 0 NULL
    (Mk_pool (Cfg i 0 false false 0 0 0 0 0 0 0 0 0 0 NULL) NULL NULL 0 0 false
       (Stats 0 0 0 0 0 0 0 0)
       (replicate (Z.to_nat ODP_THREAD_COUNT_MAX) empty_cache) ∅ ∅ ∅).
Definition odp_pool_init_global : list pool_entry :=
  map (fun i => init_entry (Z.of_nat i)) (seq 0 (Z.to_nat ODP_CONFIG_POOLS)).

(** [odp_pool_term_global]: the result code for pools (the shm part apart). *)
Definition odp_pool_term_global (tbl : list pool_entry) : Z :=
  if forallb (fun e => e_pool_shm e =? ODP_SHM_INVALID) tbl then 0 else -1.

(** [odp_buffer_alloc] on a pool of the table. *)
Definition buf_size (p : pool_param) : Z :=
  match p with
  | POOL_BUFFER _ size _ => size
  | POOL_PACKET _ len _ _ => len
  | _ => 0
  end.
Definition odp_buffer_alloc (tbl : list pool_entry) (hdl tid : Z)
    : option (Z * list pool_entry) :=
  e ← zget tbl hdl;
  '(b, p) ← buffer_alloc (e_pool e) tid (buf_size (e_params e));
  tbl ← zset tbl hdl (set_e_pool p e);
  Some (b, tbl).

(** [_odp_flush_caches], also [odp_pool_term_local]. *)
Fixpoint odp_flush_caches (tbl : list pool_entry) (tid : Z) : option (list pool_entry) :=
  match tbl with
  | [] => Some []
  | e :: tbl =>
      p ← flush_cache (e_pool e) tid;
      tbl ← odp_flush_caches tbl tid;
      Some (set_e_pool p e :: tbl)
  end.

(** * Frame properties of [ret_buf] *)

Lemma on_hdr_hdrdata x f p p' :
  on_hdr x f p = Some p' -> (forall h, h_hdrdata (f h) = h_hdrdata h) ->
  forall y, (h_hdrdata <$> hdrs p' !! y) = (h_hdrdata <$> hdrs p !! y).
Proof.
  unfold on_hdr. intros H Hf y. destruct (hdrs p !! x) as [h|] eqn:E; simplify_eq/=.
  rewrite lookup_insert. case_decide; subst; [|done]. rewrite E. simpl. by rewrite Hf.
Qed.

Lemma ret_blk_hdrs p b p' : ret_blk p b = Some p' -> hdrs p' = hdrs p.
Proof. unfold ret_blk. intros H. destruct (blks p !! b); by simplify_eq/=. Qed.

Lemma ret_segs_hdrdata n p x p' :
  ret_segs n p x = Some p' ->
  forall y, (h_hdrdata <$> hdrs p' !! y) = (h_hdrdata <$> hdrs p !! y).
Proof.
  revert p. induction n as [|n IH]; intros p H y; simpl in H; [by simplify_eq|].
  destruct (hdrs p !! x) as [h|]; [|done]. simpl in H.
  destruct (zget (h_addr h) (Z.of_nat n)) as [a|]; [|done]. simpl in H.
  destruct (on_hdr _ _ p) as [p1|] eqn:E1; [|done]. simpl in H.
  destruct (ret_blk p1 a) as [p2|] eqn:E2; [|done]. simpl in H.
  rewrite (IH _ H), (ret_blk_hdrs _ _ _ E2). exact (on_hdr_hdrdata _ _ _ _ E1 ltac:(done) y).
Qed.

Lemma ret_buf_hdrdata p x p' :
  ret_buf p x = Some p' ->
  forall y, (h_hdrdata <$> hdrs p' !! y) = (h_hdrdata <$> hdrs p !! y).
Proof.
  unfold ret_buf. intros H y. destruct (hdrs p !! x) as [h|]; [|done]. simpl in H.
  match type of H with context [mbind _ ?r] => set (r1 := r) in H end.
  assert (forall p1, r1 = Some p1 ->
    (h_hdrdata <$> hdrs p1 !! y) = (h_hdrdata <$> hdrs p !! y)) as Hr1.
  { intros p1. unfold r1. if_case; [|by intros [= ->]]. intros Hr.
    destruct (ret_segs _ p x) as [p0|] eqn:E; [|done]. simpl in Hr.
    rewrite <- (ret_segs_hdrdata _ _ _ _ E y). exact (on_hdr_hdrdata _ _ _ _ Hr ltac:(done) y). }
  destruct r1 as [p1|]; [|done]. simpl in H.
  destruct (on_hdr x (set_h_allocator _) p1) as [p2|] eqn:E2; [|done]. simpl in H.
  destruct (on_hdr x (set_h_next _) p2) as [p3|] eqn:E3; [|done]. simpl in H.
  rewrite <- (Hr1 p1), <- (on_hdr_hdrdata _ _ _ _ E2 ltac:(done) y),
    <- (on_hdr_hdrdata _ _ _ _ E3 ltac:(done) y) by done.
  clear -H. destruct (_ && _); by simplify_eq/=.
Qed.

(** * Growing the invariant *)

Definition all_hdrdata (b : bool) (p : pool) : Prop :=
  forall x h, hdrs p !! x = Some h -> h_hdrdata h = b.

Lemma pinv_add_hdr L c p F C A B x h :
  pinv L [] c None p F C A B -> x ∉ L -> x <> NULL -> hdr_shape [] c h -> hdr_segs h = [] ->
  hdr_sized c h ->
  pinv (x :: L) [] c None (set_hdrs (<[x := h]> (hdrs p)) p) F C (x :: A) B.
Proof.
  intros Hinv Hx Hn Hsh Hsg Hsz.
  assert (forall l : list Z, (forall y, y ∈ l -> y ∈ L) -> x ∉ l) as Hfresh by set_solver.
  assert (forall y, y ∈ F ++ concat C ++ A -> y ∈ L) as Hsub
    by (intros y; by rewrite (pi_all _ _ _ _ _ _ _ _ _ Hinv)).
  assert (x ∉ F) as HxF by (apply Hfresh; intros; apply Hsub; set_solver).
  split; simpl; try apply Hinv.
  - rewrite <- (pi_all _ _ _ _ _ _ _ _ _ Hinv). solve_Permutation.
  - constructor; [done|apply Hinv].
  - pose proof (pi_nonnull _ _ _ _ _ _ _ _ _ Hinv). set_solver.
  - intros y. rewrite lookup_insert. case_decide; subst.
    + split; [eauto|set_solver].
    + rewrite <- (pi_dom _ _ _ _ _ _ _ _ _ Hinv y). set_solver.
  - apply chain_insert_ne; [done|apply Hinv].
  - intros i cc l Hi Hl. apply chain_insert_ne; [|by apply (pi_caches _ _ _ _ _ _ _ _ _ Hinv i)].
    apply Hfresh. intros y Hy. apply Hsub. rewrite !elem_of_app. right; left.
    apply list_elem_of_In, in_concat. exists l. rewrite <- !list_elem_of_In.
    split; [apply list_elem_of_lookup; eauto|done].
  - rewrite (flat_map_segs_ext (hdrs p)).
    + unfold segs_of at 1. rewrite lookup_insert_eq, Hsg. apply Hinv.
    + intros y Hy. unfold segs_of. rewrite lookup_insert_ne; [done|]. intros ->. done.
  - intros y hy. rewrite lookup_insert. case_decide; [by intros [= <-]|apply Hinv].
  - intros y hy. rewrite lookup_insert. case_decide; [by intros [= <-]|apply Hinv].
  - intros y hy Hy. rewrite lookup_insert_ne; [by apply Hinv|]. intros ->. done.
Qed.

Lemma pinv_add_blk L allb c p F C A B b :
  pinv L allb c None p F C A B -> all_hdrdata false p ->
  b ∉ allb -> b <> NULL -> Z.of_nat (S (length allb)) < 2 ^ 32 ->
  exists p', ret_blk (set_blks (<[b := NULL]> (blks p)) p) b = Some p' /\
    pinv L (b :: allb) c None p' F C A (b :: B) /\ hdrs p' = hdrs p /\
    local_cache p' = local_cache p.
Proof.
  intros Hinv Hd Hb Hn Hlen. set (p1 := set_blks _ p).
  pose proof (blks_len _ _ _ _ _ _ _ _ _ Hinv) as HB.
  assert (b ∉ B) as HbB.
  { intros Hin. apply Hb. rewrite <- (pi_blocks _ _ _ _ _ _ _ _ _ Hinv). set_solver. }
  destruct (ret_blk_spec p1 b B) as (p2 & Hret & Hsame & Hh2 & Hc2 & Hn2 & Hd2).
  { apply chain_insert_ne; [done|apply Hinv]. }
  { apply Hinv. }
  { simpl length. lia. }
  { done. }
  { done. }
  { simpl. rewrite lookup_insert_eq. eauto. }
  exists p2. destruct Hsame. split_and!; try done.
  destruct Hinv. simpl in *.
  split; rewrite ?sb_cfg0, ?sb_freelist0, ?sb_count0, ?sb_caches0, ?Hh2; try done.
  - simpl. by rewrite pi_blocks0.
  - by constructor.
  - intros y Hy. apply elem_of_cons in Hy as [->|Hy]; [|destruct (pi_bdom0 y Hy) as [Hy0 Hy1]].
    all: split; [done|apply Hd2; rewrite lookup_insert; case_decide; eauto].
    done.
  - intros x h Hx. destruct (pi_shape0 x h Hx). split; try done. intros E.
    by rewrite (Hd x h Hx) in E.
Qed.

Lemma pinv_set_cfg L allb c c' p F C A B :
  pinv L allb c None p F C A B -> c_type c' = c_type c ->
  c_seg_size c' = c_seg_size c \/ all_hdrdata true p ->
  pinv L allb c' None (set_cfg c' p) F C A B.
Proof.
  intros [] Ht Hs. split; simpl; try done.
  - intros x h Hx. destruct (pi_shape0 x h Hx). split; try done; congruence.
  - intros x h Hx Hex. specialize (pi_sized0 x h Hx Hex). unfold hdr_sized in *.
    destruct Hs as [->|Hd]; [done|]. by rewrite (Hd x h Hx).
  - by rewrite Ht.
Qed.

(** * The initialisation loops *)

(** [n] objects of size [stride] from [base] on, starting with number [i]. *)
Definition slots (base stride : Z) (i n : nat) : list Z :=
  (fun k => base + Z.of_nat k * stride) <$> seq i n.

Lemma slots_cons base stride i n :
  slots base stride i (S n) = (base + Z.of_nat i * stride) :: slots base stride (S i) n.
Proof. done. Qed.

Lemma elem_of_slots base stride i n x :
  x ∈ slots base stride i n <-> exists k, (i <= k < i + n)%nat /\ x = base + Z.of_nat k * stride.
Proof.
  unfold slots. rewrite list_elem_of_fmap. setoid_rewrite elem_of_seq. naive_solver.
Qed.

Lemma slots_len base stride i n : length (slots base stride i n) = n.
Proof. unfold slots. by rewrite length_fmap, length_seq. Qed.

Lemma slots_fresh base stride i n :
  0 < stride -> base + Z.of_nat i * stride ∉ slots base stride (S i) n.
Proof. intros Hs. rewrite elem_of_slots. intros (k & Hk & E). nia. Qed.

Section loops.
Context (A : abi) (g : geom) (ptype lo hi : Z) (C : list (list Z)) (c : pool_cfg).

Definition inline (g : geom) : bool := g_blk_size g <=? ODP_MAX_INLINE_BUF.

Lemma new_hdr_ok hdl seg mdata buf udat :
  c_type c = ptype ->
  let h := new_hdr A g ptype hdl seg mdata buf udat in
  hdr_shape [] c h /\ hdr_segs h = [] /\ hdr_sized c h /\ h_hdrdata h = inline g.
Proof.
  intros Ht. unfold new_hdr, hdr_segs, hdr_sized, inline. simpl.
  split_and!; [|by destruct (_ <=? _)|by destruct (_ <=? _)|done].
  split; simpl; try done. unfold ODP_BUFFER_MAX_SEG. destruct (_ && _); lia.
Qed.

Lemma empty_blocks L p F C' A' B : pinv L [] c None p F C' A' B -> B = [].
Proof.
  intros H. pose proof (pi_blocks _ _ _ _ _ _ _ _ _ H) as HB.
  apply Permutation_nil_r, app_nil in HB. by destruct HB.
Qed.

Lemma init_hdrs_spec mdata k fuel m p udat :
  c_type c = ptype -> 0 < g_buf_stride g -> 0 < lo <= mdata ->
  mdata + Z.of_nat (S k + m) * g_buf_stride g <= hi -> Z.of_nat (S k + m) < 2 ^ 32 ->
  (k < fuel)%nat ->
  let L := slots mdata (g_buf_stride g) (S k) m in
  let L' := slots mdata (g_buf_stride g) 0 (S k + m) in
  pinv L [] c None p L C [] [] -> all_hdrdata (inline g) p ->
  exists p', init_hdrs A fuel g ptype lo hi mdata (mdata + Z.of_nat k * g_buf_stride g) udat p
             = Some p' /\
    pinv L' [] c None p' L' C [] [] /\ local_cache p' = local_cache p /\
    all_hdrdata (inline g) p'.
Proof.
  intros Ht Hst Hlo. revert k m p udat. induction fuel as [|fuel IH];
    intros k m p udat Hhi Hlen Hf L L' Hinv Hd; [lia|].
  cbn [init_hdrs]. set (x := mdata + Z.of_nat k * g_buf_stride g).
  destruct ((x <? lo) || (hi <? x + g_buf_stride g)) eqn:E.
  { exfalso. apply orb_true_iff in E as [E|E]; zbool; nia. }
  set (h := new_hdr A g ptype _ _ mdata x udat).
  destruct (new_hdr_ok (c_pool_hdl (p_cfg p)) (c_seg_size (p_cfg p)) mdata x udat Ht)
    as (Hsh & Hsg & Hsz & Hh). fold h in Hsh, Hsg, Hsz, Hh.
  assert (x ∉ L) as HxL by (by apply slots_fresh).
  pose proof (pinv_add_hdr L c p L C [] [] x h Hinv HxL ltac:(unfold NULL; nia) Hsh Hsg Hsz) as Hadd.
  set (p1 := set_hdrs _ p) in *. change (x :: L) with (slots mdata (g_buf_stride g) k (S m)) in *.
  assert (lens_ok (slots mdata (g_buf_stride g) k (S m)) []) as Hlens
    by (split; rewrite ?slots_len; simpl length; lia).
  destruct (ret_buf_spec _ _ _ p1 L C [] [] x h Hlens (pinv_weaken _ _ _ _ _ _ _ _ x Hadd))
    as (p2 & B & Hret & Hinv2 & Hl2 & _); [apply lookup_insert_eq|done|].
  rewrite Hret. simpl. pose proof (empty_blocks _ _ _ _ _ _ Hinv2) as ->.
  assert (all_hdrdata (inline g) p2) as Hd2.
  { intros y hy Hy. pose proof (ret_buf_hdrdata _ _ _ Hret y) as Hfr. rewrite Hy in Hfr.
    simpl in Hfr. rewrite lookup_insert in Hfr. case_decide; simpl in Hfr; [injection Hfr as ->; exact Hh|].
    destruct (hdrs p !! y) as [h0|] eqn:E0; simpl in Hfr; simplify_eq. rewrite Hfr. by apply (Hd y). }
  destruct k as [|k].
  - replace (x - _ >=? mdata) with false by (symmetry; rewrite Z.geb_leb; apply Z.leb_gt; nia).
    exists p2. by split_and!.
  - replace (x - _ >=? mdata) with true by (symmetry; rewrite Z.geb_leb; apply Z.leb_le; nia).
    replace (x - g_buf_stride g) with (mdata + Z.of_nat k * g_buf_stride g) by nia.
    destruct (IH k (S m) p2 (udat - g_udata_stride g)) as (p3 & Hrun & Hinv3 & Hl3 & Hd3);
      try done; try lia.
    exists p3. unfold L'. replace (S (S k) + m)%nat with (S k + S m)%nat by lia.
    split_and!; try done. by rewrite Hl3, Hl2.
Qed.

Lemma carve_blks_spec L F A0 k fuel m p r :
  0 < lo -> 0 <= c_seg_size c -> let st := c_seg_size c + ODP_HDR_BACK_PTR_SIZE in
  0 <= r < st -> lo + r + Z.of_nat (S k + m) * st <= hi -> Z.of_nat (S k + m) < 2 ^ 32 ->
  (k < fuel)%nat ->
  let bs := slots (lo + r + ODP_HDR_BACK_PTR_SIZE) st in
  pinv L (bs (S k) m) c None p F C A0 (bs (S k) m) -> all_hdrdata false p ->
  exists p', carve_blks fuel lo hi (lo + r + Z.of_nat k * st) p = Some p' /\
    pinv L (bs 0%nat (S k + m)%nat) c None p' F C A0 (bs 0%nat (S k + m)%nat) /\
    local_cache p' = local_cache p /\ hdrs p' = hdrs p.
Proof.
  intros Hlo Hseg st Hr. revert k m p. induction fuel as [|fuel IH];
    intros k m p Hhi Hlen Hf bs Hinv Hd; [lia|].
  cbn [carve_blks]. rewrite (pi_cfg _ _ _ _ _ _ _ _ _ Hinv). fold st.
  set (x := lo + r + Z.of_nat k * st). unfold ODP_HDR_BACK_PTR_SIZE in *.
  destruct ((x <? lo) || (hi <? x + st)) eqn:E.
  { exfalso. apply orb_true_iff in E as [E|E]; zbool; nia. }
  assert (x + 64 = lo + r + 64 + Z.of_nat k * st) as Hx by lia. rewrite Hx.
  destruct (pinv_add_blk L (bs (S k) m) c p F C A0 (bs (S k) m) (lo + r + 64 + Z.of_nat k * st))
    as (p1 & Hret & Hinv1 & Hh1 & Hl1); try done.
  { apply slots_fresh. lia. }
  { unfold NULL. nia. }
  { unfold bs. rewrite slots_len. lia. }
  rewrite Hret. simpl. destruct k as [|k].
  - replace (x - st >=? lo) with false by (symmetry; rewrite Z.geb_leb; apply Z.leb_gt; nia).
    exists p1. by split_and!.
  - replace (x - st >=? lo) with true by (symmetry; rewrite Z.geb_leb; apply Z.leb_le; nia).
    replace (x - st) with (lo + r + Z.of_nat k * st) by nia.
    destruct (IH k (S m) p1) as (p2 & Hrun & Hinv2 & Hl2 & Hh2); try done; try lia.
    { intros y hy. rewrite Hh1. apply Hd. }
    exists p2. replace (S (S k + m))%nat with (S k + S m)%nat by lia.
    split_and!; try done; congruence.
Qed.

End loops.

(** * Geometry *)

Lemma roundup_bounds x a : 0 <= x -> 0 < a ->
  x <= a * ((x + a - 1) `div` a) < x + a /\ (a * ((x + a - 1) `div` a)) `mod` a = 0.
Proof.
  intros Hx Ha. pose proof (Z.div_mod (x + a - 1) a). pose proof (Z.mod_pos_bound (x + a - 1) a).
  split; [lia|]. rewrite Z.mul_comm. apply Z.mod_mul. lia.
Qed.

Lemma roundup64_spec x a : 0 <= x -> 0 < a -> x + a <= 2 ^ 64 ->
  x <= ROUNDUP64 x a < x + a /\ ROUNDUP64 x a `mod` a = 0.
Proof.
  intros Hx Ha Hb. unfold ROUNDUP64, u64, wrap.
  rewrite Zminus_mod_idemp_l, (Z.mod_small (x + a - 1)) by lia.
  pose proof (roundup_bounds x a Hx Ha) as [? ?].
  destruct (decide (a * ((x + a - 1) `div` a) < 2 ^ 64)).
  { by rewrite (Z.mod_small (a * _)) by lia. }
  lia.
Qed.

Lemma roundup32_spec x a : 0 <= x -> 0 < a -> x + a <= 2 ^ 32 ->
  x <= ROUNDUP32 x a < x + a /\ ROUNDUP32 x a `mod` a = 0.
Proof.
  intros Hx Ha Hb. unfold ROUNDUP32. rewrite u32_sub_l, (u32_small (x + a - 1)) by (unfold is_u32; lia).
  pose proof (roundup_bounds x a Hx Ha) as [? ?].
  rewrite u32_small by (unfold is_u32; lia). done.
Qed.

Lemma roundup_exact x a : 0 < a -> x `mod` a = 0 -> 0 <= x -> x + a <= 2 ^ 64 -> ROUNDUP64 x a = x.
Proof.
  intros Ha Hm Hx Hb. destruct (roundup64_spec x a Hx Ha Hb) as [H1 H2].
  apply Z.mod_divide in Hm as [k ->]; [|lia]. apply Z.mod_divide in H2 as [j Hj]; [|lia].
  rewrite Hj in *. assert (j = k) by nia. by subst.
Qed.

(** Header strides are whole cache lines; parameters are 32-bit values. *)
Definition stride_ok (s : Z) : Prop := 0 < s < 2 ^ 20 /\ s `mod` ODP_CACHE_LINE_SIZE = 0.
Definition abi_ok (A : abi) : Prop :=
  stride_ok (buffer_hdr_stride A) /\ stride_ok (packet_hdr_stride A) /\
  stride_ok (timeout_hdr_stride A).

(** Raw buffers of 256 MiB and more are left out: with them the 32-bit product
    [segcount * seg_size] of the allocator could wrap. *)
Definition params_ok (p : pool_param) : Prop :=
  match p with
  | POOL_BUFFER num size align => is_u32 num /\ 0 <= size < 2 ^ 28 /\ is_u32 align
  | POOL_PACKET num len seg_len uarea => is_u32 num /\ is_u32 len /\ is_u32 seg_len /\ is_u32 uarea
  | POOL_TIMEOUT num => is_u32 num
  | POOL_OTHER _ => True
  end.

(** The segment size the pool ends up with. *)
Definition seg8 (g : geom) : Z :=
  ROUNDUP64 (if g_unseg g then g_blk_size g else g_seg_len g) 8 `mod` 2 ^ 32.

Record geom_ok (params : pool_param) (g : geom) : Prop := {
  go_stride : 0 < g_buf_stride g;
  go_num : 0 <= g_buf_num g <= 2 ^ 25;
  go_mdata : g_buf_num g * g_buf_stride g <= 2 ^ 31;
  go_blk : 0 <= g_blk_size g < 2 ^ 32;
  go_seg : 0 <= seg8 g < 2 ^ 29;
  go_seg_eq : inline g = false -> seg8 g = (if g_unseg g then g_blk_size g else g_seg_len g);
  go_fit : inline g = false -> seg8 g <= g_blk_size g <= ODP_BUFFER_MAX_SEG * seg8 g;
  go_raw : g_unseg g = true ->
    g_headroom g = 0 /\ g_tailroom g = 0 /\ param_type params <> ODP_EVENT_PACKET;
  go_pkt : g_unseg g = false ->
    g_headroom g = ODP_CONFIG_PACKET_HEADROOM /\ g_tailroom g = ODP_CONFIG_PACKET_TAILROOM /\
    ODP_CONFIG_PACKET_SEG_LEN_MIN + ODP_CONFIG_PACKET_HEADROOM + ODP_CONFIG_PACKET_TAILROOM
      <= g_seg_len g /\ seg8 g = g_seg_len g /\ param_type params = ODP_EVENT_PACKET
}.

(** [x == ODP_ALIGN_ROUNDDOWN_POWER_2(x, x)] holds of 0 and the powers of two
    (decided for every alignment the code lets through). *)
Lemma rounddown_pow2 a : 0 < a <= ODP_CONFIG_BUFFER_ALIGN_MAX ->
  a = ROUNDDOWN_POWER_2 a a <-> exists k, 0 <= k <= 12 /\ a = 2 ^ k.
Proof.
  intros Ha.
  assert (forallb (fun a => eqb (a =? ROUNDDOWN_POWER_2 a a)
            (existsb (fun k => a =? 2 ^ k) (seqZ 0 13))) (seqZ 1 4096) = true) as Hall
    by (vm_compute; reflexivity).
  rewrite forallb_forall in Hall. specialize (Hall a).
  rewrite <- list_elem_of_In, elem_of_seqZ in Hall. unfold ODP_CONFIG_BUFFER_ALIGN_MAX in Ha.
  apply eqb_prop in Hall; [|lia]. rewrite <- Z.eqb_eq, Hall, existsb_exists.
  setoid_rewrite Z.eqb_eq. setoid_rewrite <- list_elem_of_In. setoid_rewrite elem_of_seqZ.
  split; intros (k & H1 & H2); exists k; lia.
Qed.

Lemma check_align_spec a b : is_u32 a ->
  check_align a = Some b <->
  (a = 0 /\ b = ODP_CACHE_LINE_SIZE) \/
  exists k, 0 <= k <= 12 /\ a = 2 ^ k /\ b = Z.max ODP_CONFIG_BUFFER_ALIGN_MIN (2 ^ k).
Proof.
  unfold is_u32, check_align. intros Ha.
  destruct (decide (a = 0)) as [->|Hn].
  { simpl. split; [intros [= <-]; by left|]. intros [[_ ->]|(k & Hk & E & _)]; [done|].
    pose proof (Z.pow_pos_nonneg 2 k). lia. }
  destruct (a >? ODP_CONFIG_BUFFER_ALIGN_MAX) eqn:E; zbool; simpl.
  { split; [done|]. intros [[? _]|(k & Hk & -> & _)]; [done|].
    pose proof (Z.pow_le_mono_r 2 k 12). unfold ODP_CONFIG_BUFFER_ALIGN_MAX in *. lia. }
  destruct (a =? ROUNDDOWN_POWER_2 a a) eqn:Er; zbool; simpl.
  - apply rounddown_pow2 in Er as (k & Hk & ->); [|lia].
    destruct (2 ^ k =? 0) eqn:E0; zbool; [done|].
    split.
    + intros H. right. exists k. split_and!; [lia..|done|].
      unfold ODP_CONFIG_BUFFER_ALIGN_MIN in *. if_case_in H; simplify_eq; lia.
    + intros [[? _]|(j & Hj & Ejk & ->)]; [done|]. rewrite <- Ejk.
      unfold ODP_CONFIG_BUFFER_ALIGN_MIN. if_case; f_equal; lia.
  - split; [done|]. intros [[? _]|(k & Hk & -> & _)]; [done|]. exfalso. apply Er.
    apply rounddown_pow2; [lia|]. by exists k.
Qed.

Lemma check_align_range a b : is_u32 a -> check_align a = Some b ->
  ODP_CONFIG_BUFFER_ALIGN_MIN <= b <= ODP_CONFIG_BUFFER_ALIGN_MAX /\ b `mod` 8 = 0.
Proof.
  intros Ha H. apply check_align_spec in H; [|done].
  destruct H as [[_ ->]|(k & Hk & _ & ->)]; [done|].
  assert (k = 0 \/ k = 1 \/ k = 2 \/ k = 3 \/ k = 4 \/ k = 5 \/ k = 6 \/ k = 7 \/ k = 8 \/ k = 9 \/
    k = 10 \/ k = 11 \/ k = 12) as Hc by lia.
  by repeat destruct Hc as [->|Hc]; [..|rewrite Hc].
Qed.

Lemma limit_bound num stride :
  stride_ok stride -> 0 <= num -> num <= ODP_BUFFER_MAX_BUFFERS `div` (stride `div` ODP_CACHE_LINE_SIZE) ->
  num <= 2 ^ 25 /\ num * stride <= 2 ^ 31.
Proof.
  unfold stride_ok, ODP_CACHE_LINE_SIZE, ODP_BUFFER_MAX_BUFFERS. intros [Hs Hm] H0 H.
  apply Z.mod_divide in Hm as [k ->]; [|lia]. rewrite Z.div_mul in H by lia.
  pose proof (Z.mul_div_le (2 ^ 25) k). nia.
Qed.

Lemma seg8_small x : 0 <= x < 2 ^ 29 - 8 -> 0 <= ROUNDUP64 x 8 `mod` 2 ^ 32 < 2 ^ 29 /\
  (x `mod` 8 = 0 -> ROUNDUP64 x 8 `mod` 2 ^ 32 = x).
Proof.
  intros Hx. destruct (roundup64_spec x 8) as [H1 H2]; [lia..|].
  rewrite Z.mod_small by lia. split; [lia|]. intros Hm. apply roundup_exact; lia.
Qed.

Lemma pkt_seg_len (seg_len : Z) :
  let s := if seg_len <=? ODP_CONFIG_PACKET_SEG_LEN_MIN then ODP_CONFIG_PACKET_SEG_LEN_MIN
           else if seg_len <=? ODP_CONFIG_PACKET_SEG_LEN_MAX then seg_len
           else ODP_CONFIG_PACKET_SEG_LEN_MAX in
  let r := ROUNDUP32 (ODP_CONFIG_PACKET_HEADROOM +u32 s +u32 ODP_CONFIG_PACKET_TAILROOM)
             ODP_CONFIG_BUFFER_ALIGN_MIN in
  1790 <= r < 2 ^ 17 /\ r `mod` 8 = 0.
Proof.
  intros s r. assert (1598 <= s <= 65536) as Hs.
  { unfold s, ODP_CONFIG_PACKET_SEG_LEN_MIN, ODP_CONFIG_PACKET_SEG_LEN_MAX.
    repeat if_case; lia. }
  unfold ODP_CONFIG_PACKET_HEADROOM, ODP_CONFIG_PACKET_TAILROOM, ODP_CONFIG_BUFFER_ALIGN_MIN in *.
  assert (r = ROUNDUP32 (s + 192) 16) as ->.
  { unfold r. f_equal. rewrite u32_add_l, u32_small by (unfold is_u32; lia). lia. }
  destruct (roundup32_spec (s + 192) 16) as [H1 H2]; [lia..|].
  split; [lia|]. apply Z.mod_divide in H2 as [k ->]; [|lia].
  replace (k * 16) with (2 * k * 8) by lia. apply Z.mod_mul. lia.
Qed.

Lemma validate_buffer A num size align g :
  abi_ok A -> params_ok (POOL_BUFFER num size align) ->
  validate A (POOL_BUFFER num size align) = Some g -> geom_ok (POOL_BUFFER num size align) g.
Proof.
  intros (Hab & _) (Hnum & Hsize & Hal) H. unfold validate in H. simpl in H.
  destruct (check_align align) as [ba|] eqn:Ea; [|done]. simpl in H.
  apply check_align_range in Ea as [Ea Ea8]; [|done].
  unfold ODP_CONFIG_BUFFER_ALIGN_MIN, ODP_CONFIG_BUFFER_ALIGN_MAX in Ea.
  if_case_in H; [done|]. injection H as <-. simpl in *. unfold is_u32 in *.
  destruct (limit_bound num (buffer_hdr_stride A)) as [? ?]; [done|lia|lia|].
  set (blk := if _ || _ then _ else size).
  assert (0 <= blk < 2 ^ 28 + 4096 /\ (blk > ODP_MAX_INLINE_BUF -> exists k, blk = k * ba)) as [Hblk Hmul].
  { destruct (roundup32_spec size ba) as [H1 H2]; [lia..|].
    unfold blk. destruct (size >? ODP_MAX_INLINE_BUF) eqn:E1; simpl.
    - split; [lia|]. intros _. apply Z.mod_divide in H2 as [k Hk]; [|lia]. by exists k.
    - destruct (negb (align =? 0)); [|split; [|zbool]; lia].
      split; [lia|]. intros _. apply Z.mod_divide in H2 as [k Hk]; [|lia]. by exists k. }
  destruct (seg8_small blk) as [Hs8 Hs8e]; [lia|].
  destruct Hab as [Hst _].
  split; simpl; unfold seg8; simpl; try done; try lia.
  all: unfold inline; simpl; intros Hi; zbool; rewrite Hs8e.
  all: try (unfold ODP_BUFFER_MAX_SEG; lia).
  all: destruct Hmul as [k ->]; [lia|]; by rewrite Z.mul_mod, Ea8, Z.mul_0_r by lia.
Qed.

Lemma validate_packet A num len seg_len ua g :
  abi_ok A -> params_ok (POOL_PACKET num len seg_len ua) ->
  validate A (POOL_PACKET num len seg_len ua) = Some g ->
  geom_ok (POOL_PACKET num len seg_len ua) g.
Proof.
  intros (_ & Hab & _) (Hnum & Hlen & Hseg & Hua) H. unfold validate in H.
  change (check_align 0) with (Some ODP_CACHE_LINE_SIZE) in H. cbn [mbind option_bind] in H.
  unfold sizes in H. cbv zeta in H. set (s := ROUNDUP32 (_ +u32 _) _) in H.
  assert (1790 <= s < 2 ^ 17 /\ s `mod` 8 = 0) as [Hs Hm] by apply pkt_seg_len.
  set (blk := if len <=? s then s else ROUNDUP32 len s) in H.
  destruct (blk `div` s >? ODP_BUFFER_MAX_SEG) eqn:Eseg; [done|]. zbool. simpl in H.
  if_case_in H; [done|]. injection H as <-. simpl in *. unfold is_u32 in *.
  destruct (limit_bound (num +u32 1) (packet_hdr_stride A)) as [? ?]; [done| |lia|].
  { apply u32_bound. }
  assert (0 <= num +u32 1) by apply u32_bound.
  assert (0 <= blk < 2 ^ 32 /\ exists k, blk = s * k) as [Hblk [k Hk]].
  { unfold blk. if_case; [split; [lia|exists 1; lia]|]. split; [apply u32_bound|].
    unfold ROUNDUP32. set (q := _ `div` s).
    assert (0 <= s * q < 2 ^ 32).
    { unfold q. pose proof (u32_bound (len +u32 s - 1)) as Hb. unfold is_u32 in Hb.
      pose proof (Z.mul_div_le (len +u32 s -u32 1) s). pose proof (Z.div_pos (len +u32 s -u32 1) s). nia. }
    rewrite u32_small by done. by exists q. }
  destruct (seg8_small s) as [Hs8 Hs8e]; [lia|]. specialize (Hs8e Hm).
  rewrite Hk, Z.mul_comm, Z.div_mul in Eseg by lia. destruct Hab as [Hst _].
  split; simpl; unfold seg8; simpl; try done; try lia.
  - unfold inline, ODP_MAX_INLINE_BUF, ODP_BUFFER_MAX_SEG in *. simpl. intros Hi. zbool.
    rewrite Hs8e. clearbody s blk. assert (1 <= k) by nia. nia.
  - intros _. rewrite Hs8e. by split_and!; unfold ODP_CONFIG_PACKET_SEG_LEN_MIN,
      ODP_CONFIG_PACKET_HEADROOM, ODP_CONFIG_PACKET_TAILROOM; try lia.
Qed.

Lemma validate_timeout A num g :
  abi_ok A -> params_ok (POOL_TIMEOUT num) -> validate A (POOL_TIMEOUT num) = Some g ->
  geom_ok (POOL_TIMEOUT num) g.
Proof.
  intros (_ & _ & Hab) Hnum H. unfold validate in H. simpl in H.
  if_case_in H; [done|]. injection H as <-. simpl in *. unfold is_u32 in *.
  destruct (limit_bound num (timeout_hdr_stride A)) as [? ?]; [done|lia|lia|].
  destruct Hab as [Hst _]. split; simpl; try done; lia.
Qed.

Lemma validate_geom A params g :
  abi_ok A -> params_ok params -> validate A params = Some g -> geom_ok params g.
Proof.
  intros HA Hp H. destruct params as [| | |t].
  - by eapply validate_buffer.
  - by eapply validate_packet.
  - by eapply validate_timeout.
  - done.
Qed.

Lemma layout params g : geom_ok params g ->
  0 <= block_size g < 2 ^ 58 /\ 0 <= pad_size g < 64 /\
  mdata_size g = g_buf_num g * g_buf_stride g /\ 0 <= udata_size g < 2 ^ 32 /\
  block_size g + pad_size g + mdata_size g + udata_size g <= pool_size g.
Proof.
  intros []. assert (0 <= block_size g < 2 ^ 58) as Hb.
  { unfold block_size, ODP_HDR_BACK_PTR_SIZE. if_case; [lia|].
    rewrite (u64_small (g_blk_size g + 64)) by (unfold is_u64; lia).
    rewrite u64_small; unfold is_u64; nia. }
  assert (0 <= pad_size g < 64) as Hp.
  { unfold pad_size, ODP_CACHE_LINE_SIZE. destruct (roundup64_spec (block_size g) 64); [lia..|].
    rewrite u64_small; unfold is_u64; lia. }
  assert (mdata_size g = g_buf_num g * g_buf_stride g) as Hm
    by (unfold mdata_size; apply u32_small; unfold is_u32; nia).
  assert (0 <= udata_size g < 2 ^ 32) as Hu by apply u32_bound.
  split_and!; try done; try lia.
  assert (0 <= mdata_size g <= 2 ^ 31) by nia. clear Hm. unfold pool_size, ODP_PAGE_SIZE.
  rewrite (u64_small (block_size g + pad_size g)) by (unfold is_u64; lia).
  rewrite (u64_small (_ + mdata_size g)) by (unfold is_u64; lia).
  rewrite (u64_small (_ + udata_size g)) by (unfold is_u64; lia).
  apply roundup64_spec; lia.
Qed.

(** The blocks of a pool: how many, and how much is left over below them. *)
Definition blk_stride (g : geom) : Z := seg8 g + ODP_HDR_BACK_PTR_SIZE.
Definition nblks (g : geom) : nat :=
  if inline g then 0%nat else Z.to_nat (block_size g `div` blk_stride g).
Definition blk_list (g : geom) (base : Z) : list Z :=
  slots (base + block_size g `mod` blk_stride g + ODP_HDR_BACK_PTR_SIZE) (blk_stride g) 0 (nblks g).
Definition hdr_list (g : geom) (base : Z) : list Z :=
  slots (mdata_base base g) (g_buf_stride g) 0 (Z.to_nat (g_buf_num g)).

Lemma nblks_spec params g : geom_ok params g -> 0 < g_buf_num g -> inline g = false ->
  let nb := block_size g `div` blk_stride g in
  block_size g = block_size g `mod` blk_stride g + nb * blk_stride g /\
  0 <= block_size g `mod` blk_stride g < blk_stride g /\ g_buf_num g <= nb < 2 ^ 28 /\
  (g_blk_size g = seg8 g -> nb = g_buf_num g /\ block_size g `mod` blk_stride g = 0).
Proof.
  intros Hg Hn Hi nb. destruct Hg. specialize (go_fit0 Hi).
  assert (block_size g = g_buf_num g * (g_blk_size g + 64)) as Hb.
  { unfold block_size, ODP_HDR_BACK_PTR_SIZE. unfold inline in Hi. rewrite Hi.
    rewrite (u64_small (g_blk_size g + 64)) by (unfold is_u64; lia).
    rewrite u64_small; unfold is_u64; nia. }
  unfold nb, blk_stride, ODP_HDR_BACK_PTR_SIZE, ODP_BUFFER_MAX_SEG in *.
  pose proof (Z.div_mod (block_size g) (seg8 g + 64)).
  pose proof (Z.mod_pos_bound (block_size g) (seg8 g + 64)).
  set (q := block_size g `div` _) in *. set (r := block_size g `mod` _) in *. clearbody q r.
  split_and!; [nia..|]. intros E. rewrite E in *. assert (q = g_buf_num g) by nia. lia.
Qed.

(** Blocks, with the room for their back pointers, lie below the headers. *)
Lemma blk_list_bounds params g base : geom_ok params g -> 0 < g_buf_num g ->
  forall b, b ∈ blk_list g base ->
    base <= b - ODP_HDR_BACK_PTR_SIZE /\ b + seg8 g <= mdata_base base g.
Proof.
  intros Hg Hn b Hb. unfold blk_list, nblks in Hb. apply elem_of_slots in Hb as (k & Hk & ->).
  destruct (inline g) eqn:Hi; [lia|].
  destruct (nblks_spec params g Hg Hn Hi) as (He & Hr & Hnb & _).
  destruct (layout params g Hg) as (_ & Hpad & _). unfold mdata_base.
  set (nb := block_size g `div` blk_stride g) in *. set (r := block_size g `mod` blk_stride g) in *.
  unfold blk_stride, ODP_HDR_BACK_PTR_SIZE in *. pose proof (go_seg params g Hg).
  assert ((Z.of_nat k + 1) * (seg8 g + 64) <= nb * (seg8 g + 64))
    by (apply Z.mul_le_mono_nonneg_r; lia).
  clearbody nb r. lia.
Qed.

Lemma blk_list_disjoint params g base : geom_ok params g ->
  forall b b', b ∈ blk_list g base -> b' ∈ blk_list g base -> b < b' ->
    b + seg8 g <= b' - ODP_HDR_BACK_PTR_SIZE.
Proof.
  intros Hg b b' Hb Hb' Hlt. unfold blk_list in *.
  apply elem_of_slots in Hb as (k & Hk & ->). apply elem_of_slots in Hb' as (k' & Hk' & ->).
  pose proof (go_seg params g Hg). unfold blk_stride, ODP_HDR_BACK_PTR_SIZE in *.
  assert (Z.of_nat k + 1 <= Z.of_nat k') by (apply Z.le_succ_l, (Z.mul_lt_mono_pos_r (seg8 g + 64)); lia).
  assert ((Z.of_nat k + 1) * (seg8 g + 64) <= Z.of_nat k' * (seg8 g + 64))
    by (apply Z.mul_le_mono_nonneg_r; lia).
  lia.
Qed.

Lemma hdr_list_bounds params g base : geom_ok params g ->
  forall x, x ∈ hdr_list g base ->
    mdata_base base g <= x /\ x + g_buf_stride g <= base + pool_size g.
Proof.
  intros Hg x Hx. apply elem_of_slots in Hx as (k & Hk & ->).
  destruct (layout params g Hg) as (Hbs & Hpad & Hmd & Hud & Hps). destruct Hg.
  unfold mdata_base.
  assert ((Z.of_nat k + 1) * g_buf_stride g <= g_buf_num g * g_buf_stride g)
    by (apply Z.mul_le_mono_nonneg_r; lia).
  lia.
Qed.

Definition caches_empty (p : pool) : Prop :=
  length (local_cache p) = Z.to_nat ODP_THREAD_COUNT_MAX /\
  Forall (fun c => lc_freelist c = NULL) (local_cache p).

Definition no_caches : list (list Z) := replicate (Z.to_nat ODP_THREAD_COUNT_MAX) [].

Lemma pinv_empty c wm st lc :
  length lc = Z.to_nat ODP_THREAD_COUNT_MAX -> Forall (fun c => lc_freelist c = NULL) lc ->
  pinv [] [] c None (Mk_pool c NULL NULL 0 0 wm st lc ∅ ∅ ∅) [] no_caches [] [].
Proof.
  intros Hl Hf. split; simpl; try done; try set_solver; try by constructor.
  - intros x. rewrite lookup_empty. split; [set_solver|by intros []].
  - intros i cc l Hi Hc. apply lookup_replicate in Hc as [-> _]. simpl.
    by apply (Forall_lookup_1 _ _ _ _ Hf Hi).
Qed.

(** The configuration a pool ends up with. *)
Definition final_cfg (g : geom) (params : pool_param) (base : Z) (c : pool_cfg) : pool_cfg :=
  cfg_final g (if g_unseg g then g_buf_num g else g_buf_num g - 1)
    (cfg_seg8 (cfg_init g params (mdata_base base g) c)).

Lemma final_cfg_ok params g base c :
  geom_ok params g -> 0 < g_buf_num g ->
  cfg_ok (hdr_list g base) (blk_list g base) (final_cfg g params base c).
Proof.
  intros Hg Hn. assert (Z.of_nat (nblks g) < 2 ^ 28) as Hnb.
  { unfold nblks. destruct (inline g) eqn:Hi; [lia|].
    destruct (nblks_spec params g Hg Hn Hi) as (_ & _ & ? & _). lia. }
  destruct Hg. fold (seg8 g) in *.
  split; simpl; fold (seg8 g); unfold ODP_BUFFER_MAX_SEG; try lia.
  - destruct (g_unseg g); [destruct go_raw0 as (-> & -> & _); [done|]|
      destruct go_pkt0 as (-> & -> & _); [done|]]; done.
  - destruct (g_unseg g); [lia|]. apply u32_bound.
  - destruct (g_unseg g); [destruct go_raw0 as (-> & -> & _); [done|];
      change (0 +u32 0) with 0; lia|].
    destruct go_pkt0 as (-> & -> & Hs & E & _); [done|].
    unfold ODP_CONFIG_PACKET_HEADROOM, ODP_CONFIG_PACKET_TAILROOM, ODP_CONFIG_PACKET_SEG_LEN_MIN in *.
    change (128 +u32 64) with 192. rewrite (u32_small (seg8 g * 6)), u32_sub_l, u32_small;
      unfold is_u32; lia.
  - intros Et. destruct (g_unseg g); [destruct go_raw0 as (-> & -> & _); [done|];
      change (0 +u32 0) with 0; lia|].
    destruct go_pkt0 as (_ & _ & _ & _ & Ep); [done|]. by rewrite Et in Ep.
  - unfold lens_ok, hdr_list, blk_list. rewrite !slots_len. lia.
Qed.

Lemma init_pool_blocks params g base c p L :
  geom_ok params g -> 0 < g_buf_num g -> 0 < base ->
  c_seg_size c = seg8 g ->
  pinv L [] c None p L no_caches [] [] -> all_hdrdata (inline g) p ->
  exists p', (if g_blk_size g >? ODP_MAX_INLINE_BUF then
         carve_blks (S (Z.to_nat (block_size g))) base (base + pool_size g)
           (base + block_size g - c_seg_size (p_cfg p) - ODP_HDR_BACK_PTR_SIZE) p
       else Some p) = Some p' /\
    pinv L (blk_list g base) c None p' L no_caches [] (blk_list g base) /\
    local_cache p' = local_cache p.
Proof.
  intros Hg Hn Hb Hseg Hinv Hd. destruct (layout params g Hg) as (Hbs & Hpad & Hmd & Hud & Hps).
  assert (0 <= mdata_size g) by (rewrite Hmd; destruct Hg; nia).
  rewrite (pi_cfg _ _ _ _ _ _ _ _ _ Hinv), Hseg. unfold blk_list, nblks.
  replace (g_blk_size g >? ODP_MAX_INLINE_BUF) with (negb (inline g))
    by (unfold inline; rewrite Z.gtb_ltb, Z.leb_antisym; by destruct (_ <? _)).
  destruct (inline g) eqn:Hi; simpl; [by exists p|].
  destruct (nblks_spec params g Hg Hn Hi) as (He & Hr & Hnb & _).
  set (nb := block_size g `div` blk_stride g) in *. set (r := block_size g `mod` blk_stride g) in *.
  destruct (carve_blks_spec base (base + pool_size g) no_caches c L L []
    (Z.to_nat nb - 1) (S (Z.to_nat (block_size g))) 0 p r) as (p' & Hrun & Hinv' & Hl & _); try done.
  - rewrite Hseg. apply Hg.
  - by rewrite Hseg.
  - rewrite Hseg. fold (blk_stride g). replace (Z.of_nat _) with nb by lia. lia.
  - lia.
  - unfold blk_stride, ODP_HDR_BACK_PTR_SIZE in *. pose proof (go_seg params g Hg). nia.
  - rewrite Hseg in *. fold (blk_stride g) in *.
    replace (S (Z.to_nat nb - 1) + 0)%nat with (Z.to_nat nb) in Hinv' by lia.
    replace (base + block_size g - seg8 g - ODP_HDR_BACK_PTR_SIZE)
      with (base + r + Z.of_nat (Z.to_nat nb - 1) * blk_stride g)
      by (rewrite Nat2Z.inj_sub, Z2Nat.id by lia; unfold blk_stride in *; nia).
    exists p'. done.
Qed.

Definition free_at_start (g : geom) (base : Z) : list Z :=
  if g_unseg g then hdr_list g base else tail (hdr_list g base).
Definition used_at_start (g : geom) (base : Z) : list Z :=
  if g_unseg g then [] else [mdata_base base g].

Lemma pinv_stats_wm L allb c p F C A B f v :
  pinv L allb c None p F C A B -> pinv L allb c None (set_low_wm_assert v (on_stats f p)) F C A B.
Proof. intros H. by apply pinv_low_wm, pinv_on_stats. Qed.

(** The packet pool's template buffer leaves the free list. *)
Lemma init_pool_ctx A params g base c p :
  validate A params = Some g -> geom_ok params g -> 0 < g_buf_num g ->
  let L := hdr_list g base in let bl := blk_list g base in
  pinv L bl c None p L no_caches [] bl ->
  exists p' ctx,
    (match params with
     | POOL_PACKET _ _ _ _ => '(bh, p) ← get_buf p; Some (bh, g_buf_num g -u32 1, p)
     | _ => Some (NULL, g_buf_num g, p)
     end) = Some (ctx, if g_unseg g then g_buf_num g else g_buf_num g - 1, p') /\
    pinv L bl c None p' (free_at_start g base) no_caches (used_at_start g base) bl /\
    local_cache p' = local_cache p.
Proof.
  intros Hv Hg Hn L bl Hinv. unfold free_at_start, used_at_start.
  assert (lens_ok L bl) as Hlens by apply (final_cfg_ok params g base c Hg Hn).
  assert (L = mdata_base base g :: tail L) as HL.
  { unfold L, hdr_list. destruct (Z.to_nat (g_buf_num g)) eqn:E; [lia|].
    rewrite slots_cons. simpl. f_equal. lia. }
  assert (g_unseg g = match params with POOL_PACKET _ _ _ _ => false | _ => true end) as Hu.
  { destruct Hg. destruct params; destruct (g_unseg g) eqn:E; try done.
    - by destruct go_pkt0 as (_ & _ & _ & _ & ?).
    - by destruct go_raw0 as (_ & _ & ?).
    - by destruct go_pkt0 as (_ & _ & _ & _ & ?). }
  destruct params; rewrite Hu; try (eexists p, NULL; done).
  destruct (get_buf_spec _ _ _ p L no_caches [] bl Hlens Hinv) as (b & p' & Hget & _ & Hl & Hres).
  rewrite Hget. rewrite HL in Hres. destruct Hres as (-> & _ & Hinv').
  assert (g_buf_num g -u32 1 = g_buf_num g - 1) as ->
    by (apply u32_small; destruct Hg; unfold is_u32; lia).
  rewrite <- HL in Hinv'. by eexists p', _.
Qed.

Lemma init_pool_spec A params g base p :
  abi_ok A -> params_ok params -> validate A params = Some g -> 0 < g_buf_num g -> 0 < base ->
  caches_empty p ->
  exists p' ctx, init_pool A g params base p = Some (p', ctx) /\
    pinv (hdr_list g base) (blk_list g base) (final_cfg g params base (p_cfg p)) None p'
      (free_at_start g base) no_caches (used_at_start g base) (blk_list g base) /\
    local_cache p' = local_cache p.
Proof.
  intros HA Hp Hv Hn Hb [Hl0 Hl1]. pose proof (validate_geom A params g HA Hp Hv) as Hg.
  destruct (layout params g Hg) as (Hbs & Hpad & Hmd & Hud & Hps).
  unfold init_pool. set (c0 := cfg_init g params (mdata_base base g) (p_cfg p)).
  set (p0 := Mk_pool c0 _ _ _ _ _ _ _ _ _ _). set (udat := if _ =? 0 then _ else _).
  assert (mdata_base base g + mdata_size g - g_buf_stride g =
    mdata_base base g + Z.of_nat (Z.to_nat (g_buf_num g) - 1) * g_buf_stride g) as ->.
  { rewrite Nat2Z.inj_sub, Z2Nat.id by lia. rewrite Hmd. lia. }
  destruct (init_hdrs_spec A g (param_type params) base (base + pool_size g) no_caches c0
    (mdata_base base g) (Z.to_nat (g_buf_num g) - 1) (S (Z.to_nat (g_buf_num g))) 0 p0 udat)
    as (p1 & Hrun1 & Hinv1 & Hc1 & Hd1); try done.
  { apply Hg. }
  { unfold mdata_base. lia. }
  { unfold mdata_base. replace (Z.of_nat _) with (g_buf_num g) by lia. lia. }
  { destruct Hg. lia. }
  { lia. }
  { by apply pinv_empty. }
  rewrite Hrun1. cbn [mbind option_bind].
  replace (S (Z.to_nat (g_buf_num g) - 1) + 0)%nat with (Z.to_nat (g_buf_num g)) in Hinv1 by lia.
  fold (hdr_list g base) in Hinv1. rewrite (pi_cfg _ _ _ _ _ _ _ _ _ Hinv1).
  set (p2 := set_cfg (cfg_seg8 c0) p1).
  assert (pinv (hdr_list g base) [] (cfg_seg8 c0) None p2 (hdr_list g base) no_caches [] []) as Hinv2.
  { apply (pinv_set_cfg _ _ c0); [done..|]. destruct (inline g) eqn:Hi; [by right|left].
    apply (go_seg_eq params g Hg Hi). }
  destruct (init_pool_blocks params g base (cfg_seg8 c0) p2 (hdr_list g base) Hg Hn Hb eq_refl Hinv2)
    as (p3 & Hrun3 & Hinv3 & Hc3); [done|].
  rewrite Hrun3. cbn [mbind option_bind].
  destruct (init_pool_ctx A params g base (cfg_seg8 c0) p3 Hv Hg Hn Hinv3)
    as (p4 & ctx & Hrun4 & Hinv4 & Hc4).
  rewrite Hrun4. cbn [mbind option_bind]. rewrite (pi_cfg _ _ _ _ _ _ _ _ _ Hinv4).
  eexists _, ctx. split; [done|]. split; [|simpl; by rewrite Hc4, Hc3].
  apply pinv_stats_wm, (pinv_set_cfg _ _ (cfg_seg8 c0)); [done..|by left].
Qed.

(** * The pool table *)

Definition in_use (e : pool_entry) : Prop :=
  exists L allb used, cfg_ok L allb (p_cfg (e_pool e)) /\
    pool_ok L allb (p_cfg (e_pool e)) (e_pool e, used).

(** A slot knows its index; a free one has empty caches, the others hold a pool
    that satisfies the pool invariant. *)
Definition entry_ok (i : nat) (e : pool_entry) : Prop :=
  c_pool_hdl (p_cfg (e_pool e)) = Z.of_nat i /\
  length (local_cache (e_pool e)) = Z.to_nat ODP_THREAD_COUNT_MAX /\
  if e_pool_shm e =? ODP_SHM_INVALID then caches_empty (e_pool e) else in_use e.

Definition tbl_ok (tbl : list pool_entry) : Prop :=
  zlen tbl = ODP_CONFIG_POOLS /\ forall i e, tbl !! i = Some e -> entry_ok i e.

Lemma tbl_ok_insert tbl i e :
  tbl_ok tbl -> entry_ok i e -> tbl_ok (<[i := e]> tbl).
Proof.
  intros [Hl Ht] He. split; [unfold zlen; by rewrite length_insert|].
  intros j e' Hj. destruct (decide (i = j)) as [->|Hne].
  - destruct (decide (j < length tbl)%nat).
    + rewrite list_lookup_insert_eq in Hj by done. by simplify_eq.
    + rewrite list_insert_ge in Hj by lia. by apply Ht.
  - rewrite list_lookup_insert_ne in Hj by done. by apply Ht.
Qed.

Lemma find_slot_spec tbl i j :
  find_slot tbl i = Some j ->
  exists e, tbl !! (j - i)%nat = Some e /\ e_pool_shm e = ODP_SHM_INVALID /\ (i <= j)%nat.
Proof.
  revert i. induction tbl as [|e tbl IH]; intros i H; simpl in H; [done|].
  if_case_in H.
  - simplify_eq. exists e. rewrite Nat.sub_diag. done.
  - apply IH in H as (e' & He & Hs & Hle). exists e'. split_and!; [|done|lia].
    replace (j - i)%nat with (S (j - S i)) by lia. done.
Qed.

(** A slot that becomes a pool. *)
Lemma create_in_slot_spec A g name params hdl base i e :
  abi_ok A -> params_ok params -> validate A params = Some g -> 0 < g_buf_num g -> 0 < base ->
  hdl <> ODP_SHM_INVALID -> entry_ok i e -> e_pool_shm e = ODP_SHM_INVALID ->
  exists e', create_in_slot A g name params (Some (hdl, base)) e = Some (inr e') /\
    entry_ok i e' /\ e_pool_shm e' = hdl /\ e_params e' = params /\ e_name e' = pool_name name /\
    p_cfg (e_pool e') = final_cfg g params base (p_cfg (e_pool e)) /\
    pinv (hdr_list g base) (blk_list g base) (p_cfg (e_pool e')) None (e_pool e')
      (free_at_start g base) no_caches (used_at_start g base) (blk_list g base).
Proof.
  intros HA Hp Hv Hn Hb Hh (Hi & Hlen & Hok) Hs. rewrite Hs in Hok. simpl in Hok.
  destruct (init_pool_spec A params g base (e_pool e) HA Hp Hv Hn Hb Hok)
    as (p' & ctx & Hrun & Hinv & Hl).
  unfold create_in_slot. rewrite Hrun. simpl. eexists. split; [done|]. simpl.
  pose proof (pi_cfg _ _ _ _ _ _ _ _ _ Hinv) as Hc. rewrite Hc.
  split_and!; try done. split_and!; simpl.
  - by rewrite Hc.
  - by rewrite Hl.
  - destruct (hdl =? ODP_SHM_INVALID) eqn:E; zbool; [done|].
    exists (hdr_list g base), (blk_list g base), (used_at_start g base). simpl. rewrite Hc.
    split; [apply final_cfg_ok; [by eapply validate_geom|done]|].
    by eexists _, _, _.
Qed.

Lemma tbl_ok_init : tbl_ok odp_pool_init_global.
Proof.
  split; [done|]. intros i e H. unfold odp_pool_init_global in H.
  rewrite list_lookup_fmap in H. apply fmap_Some in H as (k & Hk & ->).
  apply lookup_seq in Hk as [-> _]. split_and!; [simpl; lia|done|].
  split; [done|]. by apply (Forall_replicate _ 128).
Qed.

Lemma destroy_entry i e :
  entry_ok i e -> e_pool_shm e <> ODP_SHM_INVALID ->
  exists b p', destroy_pool (e_pool e) = Some (b, p') /\ p_cfg p' = p_cfg (e_pool e) /\
    entry_ok i (set_e_pool p' e) /\ entry_ok i (set_e_shm ODP_SHM_INVALID (set_e_pool p' e)).
Proof.
  intros (Hi & Hlen & Hok) Hs.
  destruct (e_pool_shm e =? ODP_SHM_INVALID) eqn:E; zbool; [done|].
  destruct Hok as (L & allb & used & Hcfg & F & C & B & Hinv). simpl in Hinv.
  destruct (destroy_pool_spec L allb _ (e_pool e) F C used B Hcfg Hinv)
    as (b & p' & F' & C' & B' & Hrun & Hinv' & _ & HC & Hnil).
  { unfold zlen. rewrite Hlen. done. }
  assert (p_cfg p' = p_cfg (e_pool e)) as Hc by apply Hinv'.
  assert (length (local_cache p') = Z.to_nat ODP_THREAD_COUNT_MAX) as Hl.
  { rewrite (pi_ncaches _ _ _ _ _ _ _ _ _ Hinv'), HC. by rewrite <- (pi_ncaches _ _ _ _ _ _ _ _ _ Hinv). }
  exists b, p'. split_and!; try done; unfold entry_ok; simpl; rewrite Hc; split_and!; try done.
  - destruct (_ =? _) eqn:E'; zbool; [done|]. exists L, allb, used. simpl. rewrite Hc.
    split; [done|]. by exists F', C', B'.
  - split; [done|]. apply Forall_lookup. intros j c Hj.
    pose proof (pi_ncaches _ _ _ _ _ _ _ _ _ Hinv') as Hn.
    apply lookup_lt_Some in Hj as Hlt.
    apply (pi_caches _ _ _ _ _ _ _ _ _ Hinv' j c [] Hj). apply Hnil. lia.
Qed.

(** ** Facts the claims use *)

Lemma pow2_divides_64 k : 0 <= k <= 12 -> Z.max 16 (2 ^ k) <= 64 ->
  exists m, 64 = m * Z.max 16 (2 ^ k).
Proof.
  intros Hk. assert (k = 0 \/ k = 1 \/ k = 2 \/ k = 3 \/ k = 4 \/ k = 5 \/ k = 6 \/ k = 7 \/ k = 8 \/
    k = 9 \/ k = 10 \/ k = 11 \/ k = 12) as Hc by lia.
  repeat destruct Hc as [->|Hc]; try subst k; simpl; intros H; try lia;
    first [by exists 4|by exists 2|by exists 1].
Qed.

(** What [validate] computes for a raw pool that keeps its data in blocks. *)
Lemma raw_geom_facts A num size align g :
  validate A (POOL_BUFFER num size align) = Some g -> inline g = false -> 0 <= size < 2 ^ 28 ->
  is_u32 align ->
  g_buf_num g = num /\ g_unseg g = true /\ check_align align = Some (g_buf_align g) /\
  exists k, g_blk_size g = k * g_buf_align g.
Proof.
  intros H Hi Hs Ha. unfold validate in H. simpl in H.
  destruct (check_align align) as [ba|] eqn:Ea; [|done]. simpl in H.
  if_case_in H; [done|]. injection H as <-. unfold inline in Hi. simpl in *.
  apply check_align_range in Ea as [Ea _]; [|done].
  unfold ODP_CONFIG_BUFFER_ALIGN_MIN, ODP_CONFIG_BUFFER_ALIGN_MAX in Ea.
  destruct (roundup32_spec size ba) as [_ H2]; [lia..|]. apply Z.mod_divide in H2 as [k Hk]; [|lia].
  split_and!; try done. exists k. zbool.
  destruct ((size >? ODP_MAX_INLINE_BUF) || negb (align =? 0)) eqn:E; [done|].
  apply orb_false_iff in E as [E _]. zbool. lia.
Qed.

(** [odp_pool_lookup] sees only names and handles. *)
Lemma lookup_insert_same tbl i e e' :
  tbl !! i = Some e -> e_name e' = e_name e ->
  c_pool_hdl (p_cfg (e_pool e')) = c_pool_hdl (p_cfg (e_pool e)) ->
  forall name, odp_pool_lookup (<[i := e']> tbl) name = odp_pool_lookup tbl name.
Proof.
  revert i. induction tbl as [|e0 tbl IH]; intros i Hi Hn Hh name; [done|].
  destruct i as [|i]; simpl in *; [|by rewrite (IH i)].
  injection Hi as ->. by rewrite Hn, Hh.
Qed.

(** The search finds the lowest free slot. *)
Lemma find_slot_lowest tbl i j e :
  tbl !! j = Some e -> e_pool_shm e = ODP_SHM_INVALID ->
  (forall j' e', (j' < j)%nat -> tbl !! j' = Some e' -> e_pool_shm e' <> ODP_SHM_INVALID) ->
  find_slot tbl i = Some (i + j)%nat.
Proof.
  revert i j. induction tbl as [|e0 tbl IH]; intros i j Hj He Hlow; [done|]. simpl.
  destruct j as [|j]; simplify_eq/=.
  - rewrite He, Z.eqb_refl. f_equal. lia.
  - rewrite (proj2 (Z.eqb_neq _ _) (Hlow 0%nat e0 ltac:(lia) eq_refl)).
    rewrite (IH (S i) j); [f_equal; lia|done|done|].
    intros j' e' Hlt. apply (Hlow (S j')). lia.
Qed.

Lemma find_slot_none tbl i :
  Forall (fun e => e_pool_shm e <> ODP_SHM_INVALID) tbl -> find_slot tbl i = None.
Proof.
  intros H. revert i. induction H as [|e tbl He _ IH]; intros i; [done|]. simpl.
  by rewrite (proj2 (Z.eqb_neq _ _) He).
Qed.

(** How many headers a pool is asked for: a packet pool has one more. *)
Definition requested (params : pool_param) : Z :=
  match params with
  | POOL_BUFFER num _ _ | POOL_TIMEOUT num => num
  | POOL_PACKET num _ _ _ => u32 (num + 1)
  | POOL_OTHER _ => 0
  end.

Lemma validate_num A params g : validate A params = Some g -> g_buf_num g = requested params.
Proof.
  unfold validate. intros H. destruct (check_align _) as [ba|]; [|done]. simpl in H.
  destruct (sizes A params ba) as [g0|] eqn:Hs; [|done]. simpl in H.
  destruct (_ >? _); simplify_eq.
  destruct params; simpl in Hs; simplify_eq; try done. case_match; by simplify_eq.
Qed.

(** ** Claims *)

(** C6: [odp_pool_create] with parameters it accepts, for at least one buffer (a
    packet pool of 2^32 - 1 packets wraps to none), with raw buffers of less than
    256 MiB and memory from [odp_shm_reserve], takes the lowest slot that is
    free, leaves the others alone, stays inside the memory it reserved, and leaves
    a pool that satisfies the pool invariant: it has the headers asked for, every
    header is on the free list (but the packet pool's template), every block is on
    the block list, headers and blocks are disjoint and inside the reserved
    memory, and there is at least one block per buffer when data is not stored in
    the header.  With all slots in use, or without memory, it fails and no pool is
    in use that was not. *)
Theorem pool_create_correct (A : abi) (tbl : list pool_entry) (name : option string)
    (params : pool_param) (g : geom) (i : nat) (e0 : pool_entry) (hdl base : Z) :
  abi_ok A -> params_ok params -> tbl_ok tbl -> validate A params = Some g ->
  0 < requested params -> hdl <> ODP_SHM_INVALID -> 0 < base ->
  tbl !! i = Some e0 -> e_pool_shm e0 = ODP_SHM_INVALID ->
  (forall j e, (j < i)%nat -> tbl !! j = Some e -> e_pool_shm e <> ODP_SHM_INVALID) ->
  (exists tbl' e,
    odp_pool_create A tbl name params (Some (hdl, base)) = Some (Z.of_nat i, tbl') /\
    tbl' !! i = Some e /\ (forall j, j <> i -> tbl' !! j = tbl !! j) /\ tbl_ok tbl' /\
    e_params e = params /\ e_name e = pool_name name /\ e_pool_shm e = hdl /\
    Z.of_nat (length (hdr_list g base)) = requested params /\
    cfg_ok (hdr_list g base) (blk_list g base) (p_cfg (e_pool e)) /\
    pinv (hdr_list g base) (blk_list g base) (p_cfg (e_pool e)) None (e_pool e)
      (free_at_start g base) no_caches (used_at_start g base) (blk_list g base) /\
    (forall b, b ∈ blk_list g base ->
       base <= b - ODP_HDR_BACK_PTR_SIZE /\ b + seg8 g <= mdata_base base g) /\
    (forall b b', b ∈ blk_list g base -> b' ∈ blk_list g base -> b < b' ->
       b + seg8 g <= b' - ODP_HDR_BACK_PTR_SIZE) /\
    (forall x, x ∈ hdr_list g base ->
       mdata_base base g <= x /\ x + g_buf_stride g <= base + pool_size g) /\
    (inline g = false -> requested params <= Z.of_nat (length (blk_list g base)))) /\
  (exists e1, odp_pool_create A tbl name params None = Some (ODP_POOL_INVALID, <[i := e1]> tbl) /\
     e_pool_shm e1 = ODP_SHM_INVALID) /\
  (forall full shm, Forall (fun e => e_pool_shm e <> ODP_SHM_INVALID) full ->
     odp_pool_create A full name params shm = Some (ODP_POOL_INVALID, full)).
Proof.
  intros HA Hp Ht Hv Hn Hh Hb He0 Hs0 Hlow. rewrite <- (validate_num A params g Hv) in *.
  pose proof (find_slot_lowest tbl 0 i e0 He0 Hs0 Hlow) as Hf. simpl in Hf.
  apply lookup_lt_Some in He0 as Hlt. pose proof (validate_geom A params g HA Hp Hv) as Hg.
  unfold odp_pool_create. rewrite Hv. split_and!.
  2: { rewrite Hf, He0. eexists. by split. }
  2: { intros full shm Hfull. by rewrite find_slot_none. }
  destruct (create_in_slot_spec A g name params hdl base i e0) as
    (e & Hrun & Hok & Hshm & Hpar & Hname & Hcfg & Hinv); try done; [by apply Ht|].
  exists (<[i := e]> tbl), e. rewrite Hf, He0.
  cbn [mbind option_bind]. rewrite Hrun. cbn [mbind option_bind].
  destruct Hok as (Hidx & Hok'). rewrite Hidx.
  split_and!; try done.
  - by apply list_lookup_insert_eq.
  - intros j Hj. by apply list_lookup_insert_ne.
  - by apply tbl_ok_insert.
  - unfold hdr_list. rewrite slots_len. lia.
  - rewrite Hcfg. by apply final_cfg_ok.
  - apply (blk_list_bounds params); done.
  - apply (blk_list_disjoint params); done.
  - apply (hdr_list_bounds params); done.
  - intros Hi. unfold blk_list. rewrite slots_len. unfold nblks. rewrite Hi.
    destruct (nblks_spec params g Hg Hn Hi) as (_ & _ & ? & _). lia.
Qed.

(** Header sizes of the LP64 build, for the concrete runs below. *)
Definition abi64 : abi := Abi 192 320 256 96.
Definition raw_params : pool_param := POOL_BUFFER 4 100 0.
Definition raw_geom : geom := Geom true 0 0 4 128 0 64 192 0 0.

Lemma abi64_ok : abi_ok abi64.
Proof. done. Defined.

Lemma pool_create_correct_witness :
  validate abi64 raw_params = Some raw_geom /\
  exists tbl' e,
    odp_pool_create abi64 odp_pool_init_global (Some "raw"%string) raw_params (Some (7, 0x10000))
      = Some (Z.of_nat 0, tbl') /\
    tbl' !! 0%nat = Some e /\ tbl_ok tbl' /\ e_params e = raw_params /\
    pinv (hdr_list raw_geom 0x10000) (blk_list raw_geom 0x10000) (p_cfg (e_pool e)) None (e_pool e)
      (free_at_start raw_geom 0x10000) no_caches (used_at_start raw_geom 0x10000)
      (blk_list raw_geom 0x10000).
Proof.
  split; [reflexivity|].
  destruct (pool_create_correct abi64 odp_pool_init_global (Some "raw"%string) raw_params raw_geom 0
    (init_entry 0)
    7 0x10000) as ((tbl' & e & H1 & H2 & _ & H3 & H4 & _ & _ & _ & _ & H5 & _) & _);
    [apply abi64_ok|vm_compute; intuition congruence|apply tbl_ok_init|reflexivity|reflexivity
    |done|lia|reflexivity|reflexivity|intros; lia|].
  exists tbl', e. exact (conj H1 (conj H2 (conj H3 (conj H4 H5)))).
Defined.

(** A pool of no buffers is not refused ([pkt.num = 0xffffffff] also wraps to
    none): the initialisation loop tests its condition only after the first
    header, which it writes below the memory it reserved. *)
Theorem pool_create_zero_overflows (A : abi) (tbl : list pool_entry) (name : option string)
    (params : pool_param) (g : geom) (i : nat) (hdl base : Z) :
  abi_ok A -> params_ok params -> validate A params = Some g -> g_buf_num g = 0 ->
  find_slot tbl 0 = Some i ->
  odp_pool_create A tbl name params (Some (hdl, base)) = None.
Proof.
  intros HA Hp Hv Hn Hf. destruct (find_slot_spec tbl 0 i Hf) as (e & He & _).
  rewrite Nat.sub_0_r in He. pose proof (validate_geom A params g HA Hp Hv) as Hg.
  assert (block_size g = 0) as Hb by (unfold block_size; rewrite Hn; by destruct (_ <=? _)).
  assert (pad_size g = 0) as Hpad by (unfold pad_size; by rewrite Hb).
  assert (mdata_size g = 0) as Hm by (unfold mdata_size; by rewrite Hn).
  unfold odp_pool_create. rewrite Hv, Hf, He. cbn [mbind option_bind]. unfold create_in_slot, init_pool.
  rewrite Hm. cbn [init_hdrs].
  replace (mdata_base base g + 0 - g_buf_stride g <? base) with true; [done|].
  symmetry. apply Z.ltb_lt. unfold mdata_base. pose proof (go_stride params g Hg). lia.
Qed.

Lemma pool_create_zero_overflows_witness :
  odp_pool_create abi64 odp_pool_init_global None (POOL_PACKET 0xffffffff 0 0 0) (Some (7, 0x10000))
  = None.
Proof.
  apply (pool_create_zero_overflows abi64 odp_pool_init_global None (POOL_PACKET 0xffffffff 0 0 0)
    (Geom false 128 64 0 1792 1792 64 320 0 0) 0 7 0x10000);
    [apply abi64_ok|vm_compute; intuition congruence|reflexivity..].
Defined.

(** In a raw pool whose data blocks lie at page-aligned memory, every block
    has the alignment asked for when that is at most a cache line; for 128 bytes
    and more the first block is 64 bytes off, whatever the request. *)
Theorem raw_block_alignment (A : abi) (num size align base : Z) (g : geom) :
  abi_ok A -> params_ok (POOL_BUFFER num size align) ->
  validate A (POOL_BUFFER num size align) = Some g -> 0 < num -> inline g = false ->
  base `mod` ODP_PAGE_SIZE = 0 ->
  (g_buf_align g <= ODP_CACHE_LINE_SIZE ->
     forall b, b ∈ blk_list g base -> b `mod` g_buf_align g = 0) /\
  (2 * ODP_CACHE_LINE_SIZE <= g_buf_align g ->
     g_buf_align g = align /\
     exists b, b ∈ blk_list g base /\ b `mod` align = ODP_CACHE_LINE_SIZE).
Proof.
  intros HA Hp Hv Hn Hi Hbase. pose proof (validate_geom _ _ _ HA Hp Hv) as Hg.
  destruct (raw_geom_facts A num size align g Hv Hi) as (Hnum & Hu & Hal & [k Hk]);
    [apply Hp..|].
  pose proof (go_seg_eq _ _ Hg Hi) as Hseg. rewrite Hu in Hseg.
  destruct (nblks_spec _ g Hg ltac:(lia) Hi) as (He & _ & _ & Hex).
  destruct (Hex (eq_sym Hseg)) as [Hex' Hr0]. clear Hex. rename Hex' into Hex.
  unfold blk_list, nblks. rewrite Hi, Hr0, Hex, Hnum. unfold blk_stride. rewrite Hseg, Hk.
  apply check_align_spec in Hal; [|apply Hp].
  unfold ODP_HDR_BACK_PTR_SIZE, ODP_PAGE_SIZE, ODP_CACHE_LINE_SIZE, ODP_CONFIG_BUFFER_ALIGN_MIN in *.
  apply Z.mod_divide in Hbase as [j ->]; [|lia]. split.
  - intros Hle b Hb. apply elem_of_slots in Hb as (n & _ & ->).
    assert (exists m, 64 = m * g_buf_align g) as [m Hm].
    { destruct Hal as [[_ ->]|(e & He' & _ & Ha)]; [by exists 1|]. rewrite Ha in *.
      by apply pow2_divides_64. }
    assert (Z.of_nat n * 64 = Z.of_nat n * (m * g_buf_align g)) by (by rewrite <- Hm).
    assert (j * 64 * 64 = j * 64 * (m * g_buf_align g)) by (by rewrite <- Hm).
    replace (j * 4096 + 0 + 64 + Z.of_nat n * (k * g_buf_align g + 64))
      with ((j * 64 * m + m + Z.of_nat n * (k + m)) * g_buf_align g) by lia.
    apply Z.mod_mul. lia.
  - intros Hge. assert (g_buf_align g = align /\ exists m, 4096 = m * align /\ 64 < align) as (Ha & m & Hm & Hlt).
    { destruct Hal as [[_ E]|(e & He' & Ha' & Ha)]; [lia|].
      rewrite Ha' in *. split; [lia|].
      exists (2 ^ (12 - e)). rewrite <- Z.pow_add_r by lia. replace (12 - e + e) with 12 by lia. lia. }
    split; [done|]. exists (j * 4096 + 0 + 64 + Z.of_nat 0 * (k * g_buf_align g + 64)).
    split; [apply elem_of_slots; exists 0%nat; split; [lia|done]|].
    assert (j * 4096 = j * (m * align)) by (by rewrite <- Hm).
    replace (j * 4096 + 0 + 64 + Z.of_nat 0 * (k * g_buf_align g + 64)) with (64 + j * m * align) by lia.
    rewrite Z.mod_add by lia. apply Z.mod_small. lia.
Qed.

Lemma raw_block_alignment_witness :
  exists g, validate abi64 (POOL_BUFFER 4 300 256) = Some g /\
    exists b, b ∈ blk_list g 0x10000 /\ b `mod` 256 = 64.
Proof.
  exists (Geom true 0 0 4 512 0 256 192 0 0). split; [reflexivity|].
  apply (raw_block_alignment abi64 4 300 256 0x10000 (Geom true 0 0 4 512 0 256 192 0 0));
    [apply abi64_ok|vm_compute; intuition congruence|reflexivity|lia|reflexivity|reflexivity
    |vm_compute; congruence].
Defined.

(** Destroying a pool: the call returns, keeps the table in order, and frees
    the slot exactly when it returns 0.  The name stays in the slot either way,
    so [odp_pool_lookup] gives the same answers afterwards, the handle of a
    destroyed pool included. *)
Theorem pool_destroy_table (tbl : list pool_entry) (hdl : Z) :
  tbl_ok tbl -> 0 <= hdl < ODP_CONFIG_POOLS ->
  exists r tbl' e', odp_pool_destroy tbl hdl = Some (r, tbl') /\ tbl_ok tbl' /\
    tbl' !! Z.to_nat hdl = Some e' /\ (r = 0 \/ r = -1) /\
    (r = 0 -> e_pool_shm e' = ODP_SHM_INVALID) /\
    (forall name, odp_pool_lookup tbl' name = odp_pool_lookup tbl name).
Proof.
  intros Hok Hh. pose proof Hok as [Hlen Hall].
  destruct (zget_Some tbl hdl) as [e He]; [by rewrite Hlen|].
  unfold odp_pool_destroy. rewrite He. cbn [mbind option_bind].
  rewrite zget_nonneg in He by lia.
  if_case; [exists (-1), tbl, e; split_and!; try done; by right|].
  destruct (destroy_entry _ e (Hall _ _ He) ltac:(done)) as (b & p' & Hrun & Hc & Hok1 & Hok2).
  rewrite Hrun. cbn [mbind option_bind].
  assert (Z.to_nat hdl < length tbl)%nat by (unfold zlen, ODP_CONFIG_POOLS in *; lia).
  destruct b; simpl; rewrite zset_Some by (by rewrite Hlen); cbn [mbind option_bind].
  - eexists 0, _, _. split_and!; [done|by apply tbl_ok_insert|by apply list_lookup_insert_eq
      |by left|done|]. apply (lookup_insert_same tbl _ e _ He); simpl; by rewrite ?Hc.
  - eexists (-1), _, _. split_and!; [done|by apply tbl_ok_insert|by apply list_lookup_insert_eq
      |by right|done|]. apply (lookup_insert_same tbl _ e _ He); simpl; by rewrite ?Hc.
Qed.

Lemma pool_destroy_table_witness :
  exists r tbl' e', odp_pool_destroy odp_pool_init_global 3 = Some (r, tbl') /\ tbl_ok tbl' /\
    tbl' !! Z.to_nat 3 = Some e' /\ (r = 0 \/ r = -1) /\
    (r = 0 -> e_pool_shm e' = ODP_SHM_INVALID) /\
    (forall name, odp_pool_lookup tbl' name = odp_pool_lookup odp_pool_init_global name).
Proof. apply (pool_destroy_table odp_pool_init_global 3); [apply tbl_ok_init|vm_compute; intuition congruence]. Defined.



(** ** Runs of the allocator on a created pool *)

Definition run_pool (r : option (pool * Z)) : pool :=
  match r with Some (p, _) => p | None => e_pool (init_entry 0) end.
Definition pool_a : pool :=
  run_pool (init_pool abi64 raw_geom raw_params 0x10000 (e_pool (init_entry 0))).
Definition cfg_a : pool_cfg := final_cfg raw_geom raw_params 0x10000 (p_cfg (e_pool (init_entry 0))).
Definition hdrs_a : list Z := hdr_list raw_geom 0x10000.
Definition blks_a : list Z := blk_list raw_geom 0x10000.
Definition alloc_a : option (Z * pool) := buffer_alloc pool_a 0 100.
Definition pool_b : pool := run_pool ((fun r => (snd r, fst r)) <$> alloc_a).

Lemma pool_a_ok : cfg_ok hdrs_a blks_a cfg_a /\ pool_ok hdrs_a blks_a cfg_a (pool_a, []).
Proof.
  destruct (init_pool_spec abi64 raw_params raw_geom 0x10000 (e_pool (init_entry 0)))
    as (p & ctx & Hrun & Hinv & _);
    [apply abi64_ok|vm_compute; intuition congruence|reflexivity|reflexivity|lia
    |split; [reflexivity|by apply (Forall_replicate _ 128)]|].
  split.
  - apply final_cfg_ok; [|reflexivity].
    apply (validate_geom abi64); [apply abi64_ok|vm_compute; intuition congruence|reflexivity].
  - unfold pool_a. rewrite Hrun. by eexists _, _, _.
Qed.

Lemma pool_b_step : rtc pool_step (pool_a, []) (pool_b, [0x10300]).
Proof.
  apply rtc_once. apply (Step_alloc pool_a [] 0 100 0x10300 pool_b); [|lia|vm_compute; reflexivity|done].
  vm_compute. intuition congruence.
Qed.

Lemma pool_conservation_witness :
  bufcount pool_b = 3 /\ blkcount pool_b = 3 /\ NoDup hdrs_a /\
  exists (F : list Z) (C : list (list Z)) (B : list Z),
    chain h_next (hdrs pool_b) (buf_freelist pool_b) F /\ bufcount pool_b = Z.of_nat (length F) /\
    Forall2 (fun c l => chain h_next (hdrs pool_b) (lc_freelist c) l) (local_cache pool_b) C /\
    F ++ concat C ++ [0x10300] ≡ₚ hdrs_a.
Proof.
  split; [vm_compute; reflexivity|]. split; [vm_compute; reflexivity|].
  destruct pool_a_ok as [Hc Hp].
  destruct (pool_conservation hdrs_a blks_a cfg_a pool_a pool_b [] [0x10300] Hc Hp pool_b_step)
    as (Hnd & _ & _ & F & C & B & HF & Hn & HC & HL & _).
  split; [exact Hnd|]. exists F, C, B. exact (conj HF (conj Hn (conj HC HL))).
Defined.

(** The next allocation of the pool succeeds, with the first free buffer. *)
Lemma buffer_alloc_correct_witness :
  candidate pool_b 5 = buf_freelist pool_b /\
  exists b p', buffer_alloc pool_b 5 64 = Some (b, p') /\
    (b <> ODP_BUFFER_INVALID -> b = candidate pool_b 5 /\ b ∉ [0x10300]).
Proof.
  split; [vm_compute; reflexivity|]. destruct pool_a_ok as [Hc Hp].
  destruct (buffer_alloc_correct hdrs_a blks_a cfg_a pool_a pool_b [] [0x10300] 5 64 Hc Hp pool_b_step)
    as (b & p' & Hrun & _ & Hb); [vm_compute; intuition congruence|lia|].
  exists b, p'. split; [exact Hrun|]. intros Hne. destruct (Hb Hne) as (? & ? & _). by split.
Defined.

(** The pool with a buffer in use is not destroyed. *)
Lemma destroy_iff_all_free_witness :
  exists b p', destroy_pool pool_b = Some (b, p') /\
    (b = true <-> Z.of_nat (length [0x10300]) + c_buf_num cfg_a <= Z.of_nat (length hdrs_a)).
Proof.
  destruct pool_a_ok as [Hc Hp].
  apply (destroy_iff_all_free hdrs_a blks_a cfg_a pool_a pool_b [] [0x10300] Hc Hp pool_b_step).
  vm_compute. reflexivity.
Defined.

(** A packet pool is documented to provide [num] packets of [len] bytes.  Its
    block memory is sized with one 64-byte back pointer per packet, but every
    segment takes one: with two segments per packet, a pool of 99 packets of 1800
    bytes runs out of blocks after 98. *)
Theorem packet_pool_runs_short :
  (r ← odp_pool_create abi64 odp_pool_init_global (Some "p"%string) (POOL_PACKET 99 1800 0 0)
         (Some (7, 0x10000));
   e ← snd r !! 0%nat;
   a ← buffer_alloc_multi 99 (e_pool e) 0 1800;
   Some (fst r, length (fst a), bufcount (snd a), blkcount (snd a)))
  = Some (0, 98%nat, 1, 0).
Proof. vm_compute. reflexivity. Qed.

End PoolCreate.
