(* ===== verification/Buffer.v ===== *)
(** Buffer handles, reference counts and the mapping of offsets to segments:
    [odp_buffer_inlines.h]. *)

From S2P Require Import Prelude Pool PoolProofs PoolCreate.

Open Scope Z_scope.
Open Scope c_scope.

Module Buffer.
Import Pool PoolCreate.

Definition ODP_SEGMENT_INVALID : Z := 0.
Definition ODP_SEG_INDEX_MASK : Z := 0x7.
Definition ODP_SEG_ADDR_MASK : Z := 0xfffffffffffffff8.

(** * Handles *)

(** The bit fields of [odp_buffer_bits_t] (little-endian layout). *)
Definition bits_seg (handle : Z) : Z := handle & 0x7.
Definition bits_index (handle : Z) : Z := Z.shiftr handle 3 & (2 ^ 25 - 1).
Definition bits_pool_id (handle : Z) : Z := Z.shiftr handle 28 & 0xf.

(** The number of buffers asked for, [params.buf.num] of the union. *)
Definition param_num (p : pool_param) : Z :=
  match p with
  | POOL_BUFFER num _ _ => num
  | POOL_PACKET num _ _ _ => num
  | POOL_TIMEOUT num => num
  | POOL_OTHER _ => 0
  end.

(** [validate_buf] on the header a handle points to; [true] for non-NULL. *)
Definition validate_buf (tbl : list pool_entry) (hdr : buffer_hdr) : option bool :=
  let handle := h_handle hdr in
  if negb (bits_seg handle =? 0) || (bits_pool_id handle >=? ODP_CONFIG_POOLS)
  then Some false
  else
    e ← zget tbl (bits_pool_id handle);
    if e_pool_shm e =? ODP_SHM_INVALID then Some false
    else
      let buf_stride := c_buf_stride (p_cfg (e_pool e)) `div` ODP_CACHE_LINE_SIZE in
      if negb (bits_index handle `mod` buf_stride =? 0)
         || (bits_index handle `div` buf_stride >=? param_num (e_params e))
      then Some false
      else Some (negb (h_allocator hdr =? ODP_FREEBUF)).

(** * Reference counts: the new counter and the value returned *)

Definition odp_buffer_incr_refcount (ref_count val : Z) : Z * Z :=
  (ref_count +u32 val, ref_count +u32 val).

Definition odp_buffer_decr_refcount (ref_count val : Z) : Z * Z :=
  let tmp := ref_count in
  let ref_count := ref_count -u32 val in
  if tmp <? val then (ref_count +u32 (val - tmp), 0)
  else (ref_count, tmp -u32 val).

(** * Segments *)

(** [buffer_map]: the address of [offset] and the bytes from there to the end
    of its segment or to [limit].  [None]: a division by a zero segment size or
    a segment index outside [addr\[\]]. *)
Definition buffer_map (buf : buffer_hdr) (offset limit : Z) : option (Z * Z) :=
  if h_segsize buf =? 0 then None
  else
    let '(seg_index, seg_offset) :=
      if offset <? h_segsize buf then (0, offset)
      else (offset `div` h_segsize buf, offset `mod` h_segsize buf) in
    let buf_left := limit -u32 offset in
    let seglen :=
      if seg_offset +u32 buf_left <=? h_segsize buf then buf_left
      else h_segsize buf - seg_offset in
    a ← zget (h_addr buf) seg_index;
    Some (seg_offset + a, seglen).

(** A segment handle: the block address with the index in its low bits. *)
Definition seg_handle (a i : Z) : Z := Z.lor a i.

Definition segment_next (buf : buffer_hdr) (seg : Z) : option Z :=
  let seg_index := u8 ((seg +u64 1) & ODP_SEG_INDEX_MASK) in
  if (seg =? ODP_SEGMENT_INVALID) || (seg_index >? h_segcount buf -u32 1)
  then Some ODP_SEGMENT_INVALID
  else a ← zget (h_addr buf) seg_index; Some (seg_handle a seg_index).

(** [segment_map]: [Some None] for NULL, else the address and [*seglen]. *)
Definition segment_map (buf : buffer_hdr) (seg limit hr : Z) : option (option (Z * Z)) :=
  let seg_index := u8 (seg & ODP_SEG_INDEX_MASK) in
  let seg_addr := seg & ODP_SEG_ADDR_MASK in
  if seg_index >=? h_segcount buf then Some None
  else
    a ← zget (h_addr buf) seg_index;
    if negb (seg_addr =? a) then Some None
    else
      let segsize := h_segsize buf in
      let seg_offset := seg_index *u32 segsize in
      let limit := limit +u32 hr in
      if (hr >=? seg_offset +u32 segsize) || (seg_offset >? limit) then Some None
      else
        let '(seg_addr, seg_offset) :=
          if hr >? seg_offset
          then (seg_addr + hr `mod` segsize, seg_offset +u32 hr `mod` segsize)
          else (seg_addr, seg_offset) in
        let buf_left := limit -u32 seg_offset in
        let seglen :=
          if buf_left <? segsize then buf_left
          else if seg_offset >=? segsize then segsize else segsize - seg_offset in
        Some (Some (seg_addr, seglen)).

(** ** Handles decode to what was encoded *)

Lemma bits_split p i : 0 <= p < 2 ^ 4 -> 0 <= i < 2 ^ 25 ->
  Z.lor (Z.shiftl p 28) (Z.shiftl i 3) = i * 2 ^ 3 + p * 2 ^ 28.
Proof.
  intros Hp Hi. rewrite !Z.shiftl_mul_pow2, Z.lor_comm by lia. apply lor_disjoint; lia.
Qed.

Lemma encode_decode pool_id mdata hdr :
  let h := encode_handle pool_id mdata hdr in
  bits_seg h = 0 /\ bits_index h = ((hdr - mdata) `div` 64) `mod` 2 ^ 25 /\
  bits_pool_id h = pool_id `mod` 2 ^ 4.
Proof.
  unfold encode_handle, bits_seg, bits_index, bits_pool_id, ODP_CACHE_LINE_SIZE.
  set (p := pool_id `mod` 2 ^ 4). set (i := ((hdr - mdata) `div` 64) `mod` 2 ^ 25).
  assert (0 <= p < 2 ^ 4) by (apply Z.mod_pos_bound; lia).
  assert (0 <= i < 2 ^ 25) by (apply Z.mod_pos_bound; lia).
  rewrite bits_split by done. change 7 with (2 ^ 3 - 1). change 15 with (2 ^ 4 - 1).
  rewrite !land_pow2_mask, !Z.shiftr_div_pow2 by lia. clearbody p i. cint.
Qed.

(** A buffer is valid exactly when it is allocated and its number is below
    the count the pool was created for.  Header [k] of a slot in use passes
    [validate_buf] if and only if [k < num] and it is not free; a packet pool has
    [num + 1] headers and keeps number 0 for itself, so its last packet, header
    [num], is always reported invalid. *)
Theorem validate_buf_spec (tbl : list pool_entry) (e : pool_entry) (i : nat) (hdr : buffer_hdr)
    (mdata stride k : Z) :
  tbl !! i = Some e -> Z.of_nat i < ODP_CONFIG_POOLS -> e_pool_shm e <> ODP_SHM_INVALID ->
  stride_ok stride -> c_buf_stride (p_cfg (e_pool e)) = stride ->
  0 <= k -> k * (stride `div` 64) < 2 ^ 25 ->
  h_handle hdr = encode_handle (Z.of_nat i) mdata (mdata + k * stride) ->
  validate_buf tbl hdr =
    Some ((k <? param_num (e_params e)) && negb (h_allocator hdr =? ODP_FREEBUF)).
Proof.
  intros Hi Hin Hshm [Hs Hm] Hstr Hk Hmax Hh. unfold validate_buf. rewrite Hh.
  destruct (encode_decode (Z.of_nat i) mdata (mdata + k * stride)) as (-> & -> & ->).
  unfold ODP_CONFIG_POOLS, ODP_CACHE_LINE_SIZE in *. apply Z.mod_divide in Hm as [c Hc]; [|lia].
  assert (stride `div` 64 = c) as Hd by (rewrite Hc; apply Z.div_mul; lia). rewrite Hd in Hmax.
  replace (mdata + k * stride - mdata) with (k * c * 64) by (rewrite Hc; lia).
  rewrite Z.div_mul, (Z.mod_small (k * c)), (Z.mod_small (Z.of_nat i)) by lia.
  simpl negb. cbn [orb]. replace (Z.of_nat i >=? 16) with false
    by (symmetry; rewrite Z.geb_leb; apply Z.leb_gt; lia).
  rewrite zget_of_nat, Hi. cbn [mbind option_bind]. rewrite Hstr, Hd.
  destruct (e_pool_shm e =? ODP_SHM_INVALID) eqn:E; zbool; [done|].
  rewrite Z.mod_mul, Z.div_mul by lia. simpl.
  rewrite Z.geb_leb, Z.leb_antisym. by destruct (k <? _).
Qed.

(** The last packet of a pool of four, allocated, in the first slot. *)
Definition demo_entry : pool_entry :=
  Entry "p"%string (POOL_PACKET 4 0 0 0) 7 true false 0x10000 0 64 0 0
    (set_cfg (Cfg 0 ODP_EVENT_PACKET false false 4 1792 1792 2 1 128 64 0 192 320 0x12440)
       (e_pool (init_entry 0))).
Definition demo_hdr (k : Z) : buffer_hdr :=
  set_h_allocator 0 (new_hdr abi64 (Geom false 128 64 5 1792 1792 64 320 0 0) ODP_EVENT_PACKET 0 1792
    0x12440 (0x12440 + k * 320) 0).

Lemma validate_buf_spec_witness :
  validate_buf (demo_entry :: tail odp_pool_init_global) (demo_hdr 4) = Some false /\
  validate_buf (demo_entry :: tail odp_pool_init_global) (demo_hdr 3) = Some true.
Proof.
  split.
  - rewrite (validate_buf_spec _ demo_entry 0 (demo_hdr 4) 0x12440 320 4);
      [reflexivity..|done|done|reflexivity|lia|reflexivity|reflexivity].
  - rewrite (validate_buf_spec _ demo_entry 0 (demo_hdr 3) 0x12440 320 3);
      [reflexivity..|done|done|reflexivity|lia|reflexivity|reflexivity].
Defined.

(** ** Reference counts *)

(** Reference counting never goes below zero: decrementing by more than the
    count leaves it at 0 and returns 0; otherwise both helpers add or subtract
    exactly, as long as the sum fits 32 bits. *)
Lemma refcount_spec (r v : Z) :
  is_u32 r -> is_u32 v ->
  odp_buffer_decr_refcount r v = (Z.max 0 (r - v), Z.max 0 (r - v)) /\
  (r + v < 2 ^ 32 -> odp_buffer_incr_refcount r v = (r + v, r + v)).
Proof.
  unfold odp_buffer_decr_refcount, odp_buffer_incr_refcount. intros Hr Hv. split.
  - if_case; f_equal; cint.
  - intros H. f_equal; cint.
Qed.

End Buffer.
