(* ===== verification/Packet.v ===== *)
(** Packets: data windows over buffer segments, head and tail room, copying in
    and out, segment iteration and allocation ([odp_packet.c] and
    [odp_packet_internal.h]). *)

From S2P Require Import Prelude Pool PoolProofs PoolCreate Buffer.

Open Scope Z_scope.
Open Scope c_scope.

Module Packet.
Import Pool Buffer.

Definition ODP_PACKET_INVALID : Z := 0.
Definition ODP_PACKET_OFFSET_INVALID : Z := 0x0fffffff.

(** The fields of [odp_packet_hdr_t] after the common buffer header (which the
    pool owns), and the user word of that header. *)
Record packet_hdr := Pkt {
  input_flags : Z;
  error_flags : Z;
  output_flags : Z;
  l2_offset : Z;
  l3_offset : Z;
  l4_offset : Z;
  payload_offset : Z;
  vlan_s_tag : Z;
  vlan_c_tag : Z;
  l3_protocol : Z;
  l3_len : Z;
  l4_protocol : Z;
  l4_len : Z;
  frame_len : Z;
  headroom : Z;
  tailroom : Z;
  input : Z;
  has_hash : bool;
  flow_hash : Z;
  buf_u64 : Z
}.

Definition set_input_flags (v : Z) (p : packet_hdr) : packet_hdr :=
  Pkt v (error_flags p) (output_flags p) (l2_offset p) (l3_offset p) (l4_offset p) (payload_offset
    p) (vlan_s_tag p) (vlan_c_tag p) (l3_protocol p) (l3_len p) (l4_protocol p) (l4_len p)
    (frame_len p) (headroom p) (tailroom p) (input p) (has_hash p) (flow_hash p) (buf_u64 p).
Definition set_error_flags (v : Z) (p : packet_hdr) : packet_hdr :=
  Pkt (input_flags p) v (output_flags p) (l2_offset p) (l3_offset p) (l4_offset p) (payload_offset
    p) (vlan_s_tag p) (vlan_c_tag p) (l3_protocol p) (l3_len p) (l4_protocol p) (l4_len p)
    (frame_len p) (headroom p) (tailroom p) (input p) (has_hash p) (flow_hash p) (buf_u64 p).
Definition set_output_flags (v : Z) (p : packet_hdr) : packet_hdr :=
  Pkt (input_flags p) (error_flags p) v (l2_offset p) (l3_offset p) (l4_offset p) (payload_offset p)
    (vlan_s_tag p) (vlan_c_tag p) (l3_protocol p) (l3_len p) (l4_protocol p) (l4_len p) (frame_len
    p) (headroom p) (tailroom p) (input p) (has_hash p) (flow_hash p) (buf_u64 p).
Definition set_l2_offset (v : Z) (p : packet_hdr) : packet_hdr :=
  Pkt (input_flags p) (error_flags p) (output_flags p) v (l3_offset p) (l4_offset p) (payload_offset
    p) (vlan_s_tag p) (vlan_c_tag p) (l3_protocol p) (l3_len p) (l4_protocol p) (l4_len p)
    (frame_len p) (headroom p) (tailroom p) (input p) (has_hash p) (flow_hash p) (buf_u64 p).
Definition set_l3_offset (v : Z) (p : packet_hdr) : packet_hdr :=
  Pkt (input_flags p) (error_flags p) (output_flags p) (l2_offset p) v (l4_offset p) (payload_offset
    p) (vlan_s_tag p) (vlan_c_tag p) (l3_protocol p) (l3_len p) (l4_protocol p) (l4_len p)
    (frame_len p) (headroom p) (tailroom p) (input p) (has_hash p) (flow_hash p) (buf_u64 p).
Definition set_l4_offset (v : Z) (p : packet_hdr) : packet_hdr :=
  Pkt (input_flags p) (error_flags p) (output_flags p) (l2_offset p) (l3_offset p) v (payload_offset
    p) (vlan_s_tag p) (vlan_c_tag p) (l3_protocol p) (l3_len p) (l4_protocol p) (l4_len p)
    (frame_len p) (headroom p) (tailroom p) (input p) (has_hash p) (flow_hash p) (buf_u64 p).
Definition set_payload_offset (v : Z) (p : packet_hdr) : packet_hdr :=
  Pkt (input_flags p) (error_flags p) (output_flags p) (l2_offset p) (l3_offset p) (l4_offset p) v
    (vlan_s_tag p) (vlan_c_tag p) (l3_protocol p) (l3_len p) (l4_protocol p) (l4_len p) (frame_len
    p) (headroom p) (tailroom p) (input p) (has_hash p) (flow_hash p) (buf_u64 p).
Definition set_vlan_s_tag (v : Z) (p : packet_hdr) : packet_hdr :=
  Pkt (input_flags p) (error_flags p) (output_flags p) (l2_offset p) (l3_offset p) (l4_offset p)
    (payload_offset p) v (vlan_c_tag p) (l3_protocol p) (l3_len p) (l4_protocol p) (l4_len p)
    (frame_len p) (headroom p) (tailroom p) (input p) (has_hash p) (flow_hash p) (buf_u64 p).
Definition set_vlan_c_tag (v : Z) (p : packet_hdr) : packet_hdr :=
  Pkt (input_flags p) (error_flags p) (output_flags p) (l2_offset p) (l3_offset p) (l4_offset p)
    (payload_offset p) (vlan_s_tag p) v (l3_protocol p) (l3_len p) (l4_protocol p) (l4_len p)
    (frame_len p) (headroom p) (tailroom p) (input p) (has_hash p) (flow_hash p) (buf_u64 p).
Definition set_l3_protocol (v : Z) (p : packet_hdr) : packet_hdr :=
  Pkt (input_flags p) (error_flags p) (output_flags p) (l2_offset p) (l3_offset p) (l4_offset p)
    (payload_offset p) (vlan_s_tag p) (vlan_c_tag p) v (l3_len p) (l4_protocol p) (l4_len p)
    (frame_len p) (headroom p) (tailroom p) (input p) (has_hash p) (flow_hash p) (buf_u64 p).
Definition set_l3_len (v : Z) (p : packet_hdr) : packet_hdr :=
  Pkt (input_flags p) (error_flags p) (output_flags p) (l2_offset p) (l3_offset p) (l4_offset p)
    (payload_offset p) (vlan_s_tag p) (vlan_c_tag p) (l3_protocol p) v (l4_protocol p) (l4_len p)
    (frame_len p) (headroom p) (tailroom p) (input p) (has_hash p) (flow_hash p) (buf_u64 p).
Definition set_l4_protocol (v : Z) (p : packet_hdr) : packet_hdr :=
  Pkt (input_flags p) (error_flags p) (output_flags p) (l2_offset p) (l3_offset p) (l4_offset p)
    (payload_offset p) (vlan_s_tag p) (vlan_c_tag p) (l3_protocol p) (l3_len p) v (l4_len p)
    (frame_len p) (headroom p) (tailroom p) (input p) (has_hash p) (flow_hash p) (buf_u64 p).
Definition set_l4_len (v : Z) (p : packet_hdr) : packet_hdr :=
  Pkt (input_flags p) (error_flags p) (output_flags p) (l2_offset p) (l3_offset p) (l4_offset p)
    (payload_offset p) (vlan_s_tag p) (vlan_c_tag p) (l3_protocol p) (l3_len p) (l4_protocol p) v
    (frame_len p) (headroom p) (tailroom p) (input p) (has_hash p) (flow_hash p) (buf_u64 p).
Definition set_frame_len (v : Z) (p : packet_hdr) : packet_hdr :=
  Pkt (input_flags p) (error_flags p) (output_flags p) (l2_offset p) (l3_offset p) (l4_offset p)
    (payload_offset p) (vlan_s_tag p) (vlan_c_tag p) (l3_protocol p) (l3_len p) (l4_protocol p)
    (l4_len p) v (headroom p) (tailroom p) (input p) (has_hash p) (flow_hash p) (buf_u64 p).
Definition set_headroom (v : Z) (p : packet_hdr) : packet_hdr :=
  Pkt (input_flags p) (error_flags p) (output_flags p) (l2_offset p) (l3_offset p) (l4_offset p)
    (payload_offset p) (vlan_s_tag p) (vlan_c_tag p) (l3_protocol p) (l3_len p) (l4_protocol p)
    (l4_len p) (frame_len p) v (tailroom p) (input p) (has_hash p) (flow_hash p) (buf_u64 p).
Definition set_tailroom (v : Z) (p : packet_hdr) : packet_hdr :=
  Pkt (input_flags p) (error_flags p) (output_flags p) (l2_offset p) (l3_offset p) (l4_offset p)
    (payload_offset p) (vlan_s_tag p) (vlan_c_tag p) (l3_protocol p) (l3_len p) (l4_protocol p)
    (l4_len p) (frame_len p) (headroom p) v (input p) (has_hash p) (flow_hash p) (buf_u64 p).
Definition set_input (v : Z) (p : packet_hdr) : packet_hdr :=
  Pkt (input_flags p) (error_flags p) (output_flags p) (l2_offset p) (l3_offset p) (l4_offset p)
    (payload_offset p) (vlan_s_tag p) (vlan_c_tag p) (l3_protocol p) (l3_len p) (l4_protocol p)
    (l4_len p) (frame_len p) (headroom p) (tailroom p) v (has_hash p) (flow_hash p) (buf_u64 p).
Definition set_has_hash (v : bool) (p : packet_hdr) : packet_hdr :=
  Pkt (input_flags p) (error_flags p) (output_flags p) (l2_offset p) (l3_offset p) (l4_offset p)
    (payload_offset p) (vlan_s_tag p) (vlan_c_tag p) (l3_protocol p) (l3_len p) (l4_protocol p)
    (l4_len p) (frame_len p) (headroom p) (tailroom p) (input p) v (flow_hash p) (buf_u64 p).
Definition set_flow_hash (v : Z) (p : packet_hdr) : packet_hdr :=
  Pkt (input_flags p) (error_flags p) (output_flags p) (l2_offset p) (l3_offset p) (l4_offset p)
    (payload_offset p) (vlan_s_tag p) (vlan_c_tag p) (l3_protocol p) (l3_len p) (l4_protocol p)
    (l4_len p) (frame_len p) (headroom p) (tailroom p) (input p) (has_hash p) v (buf_u64 p).
Definition set_buf_u64 (v : Z) (p : packet_hdr) : packet_hdr :=
  Pkt (input_flags p) (error_flags p) (output_flags p) (l2_offset p) (l3_offset p) (l4_offset p)
    (payload_offset p) (vlan_s_tag p) (vlan_c_tag p) (l3_protocol p) (l3_len p) (l4_protocol p)
    (l4_len p) (frame_len p) (headroom p) (tailroom p) (input p) (has_hash p) (flow_hash p) v.
(** Bits of [input_flags_t]. *)
Definition F_parsed_l2 : Z := 0.
Definition F_parsed_all : Z := 1.
Definition F_l2 : Z := 2.
Definition F_l3 : Z := 3.
Definition F_l4 : Z := 4.
Definition F_eth : Z := 5.
Definition F_jumbo : Z := 6.
Definition F_vlan : Z := 7.
Definition F_vlan_qinq : Z := 8.
Definition F_snap : Z := 9.
Definition F_arp : Z := 10.
Definition F_ipv4 : Z := 11.
Definition F_ipv6 : Z := 12.
Definition F_ipfrag : Z := 13.
Definition F_ipopt : Z := 14.
Definition F_ipsec : Z := 15.
Definition F_udp : Z := 16.
Definition F_tcp : Z := 17.
Definition F_tcpopt : Z := 18.
Definition F_sctp : Z := 19.
Definition F_icmp : Z := 20.

(** Bits of [error_flags_t]. *)
Definition E_app_error : Z := 0.
Definition E_frame_len : Z := 1.
Definition E_snap_len : Z := 2.
Definition E_l2_chksum : Z := 3.
Definition E_ip_err : Z := 4.
Definition E_tcp_err : Z := 5.
Definition E_udp_err : Z := 6.

(** [flags.bit = v] *)
Definition put_bit (flags bit : Z) (v : bool) : Z :=
  if v then Z.setbit flags bit else Z.clearbit flags bit.
Definition set_in (bit : Z) (v : bool) (p : packet_hdr) : packet_hdr :=
  set_input_flags (put_bit (input_flags p) bit v) p.
Definition set_err (bit : Z) (p : packet_hdr) : packet_hdr :=
  set_error_flags (put_bit (error_flags p) bit true) p.
Definition get_in (bit : Z) (p : packet_hdr) : bool := Z.testbit (input_flags p) bit.

(** * Metadata *)

Definition packet_parse_disable (p : packet_hdr) : packet_hdr :=
  set_in F_parsed_all true (set_in F_parsed_l2 true p).

(** The template [odp_pool_create] leaves in a packet pool. *)
Definition cache_pkt_hdr (room : Z) : packet_hdr :=
  Pkt 0 0 0 0 ODP_PACKET_OFFSET_INVALID ODP_PACKET_OFFSET_INVALID ODP_PACKET_OFFSET_INVALID
    0 0 0 0 0 0 0 room 0 0 false 0 0.

(** [packet_init]: the template is copied over everything but the buffer
    header, then the lengths are set; [hr] is the template's headroom. *)
Definition packet_init (hr : Z) (b : buffer_hdr) (p : packet_hdr) (size : Z) (parse : bool)
    : packet_hdr :=
  let p := set_buf_u64 (buf_u64 p) (cache_pkt_hdr hr) in
  let p := if negb parse then packet_parse_disable p else p in
  let p := set_frame_len (u32 size) p in
  set_tailroom (u32 (h_size b - headroom p - size)) p.

Definition packet_parse_reset (p : packet_hdr) : packet_hdr :=
  let p := set_error_flags 0 p in
  let p := set_input_flags 0 p in
  let p := set_output_flags 0 p in
  let p := set_l2_offset 0 p in
  let p := set_l3_offset ODP_PACKET_OFFSET_INVALID p in
  let p := set_l4_offset ODP_PACKET_OFFSET_INVALID p in
  let p := set_payload_offset ODP_PACKET_OFFSET_INVALID p in
  let p := set_vlan_s_tag 0 p in
  let p := set_vlan_c_tag 0 p in
  let p := set_l3_protocol 0 p in
  set_l4_protocol 0 p.

Definition copy_packet_parser_metadata (src dst : packet_hdr) : packet_hdr :=
  Pkt (input_flags src) (error_flags src) (output_flags src) (l2_offset src) (l3_offset src)
    (l4_offset src) (payload_offset src) (vlan_s_tag src) (vlan_c_tag src) (l3_protocol src)
    (l3_len src) (l4_protocol src) (l4_len src) (frame_len dst) (headroom dst) (tailroom dst)
    (input dst) (has_hash dst) (flow_hash dst) (buf_u64 dst).

(** * The data window *)

(** [packet_map]: address 0 is NULL, and [*seglen] then keeps its old value. *)
Definition packet_map (b : buffer_hdr) (p : packet_hdr) (offset seglen : Z) : option (Z * Z) :=
  if offset >? frame_len p then Some (NULL, seglen)
  else buffer_map b (headroom p +u32 offset) (headroom p +u32 frame_len p).

Definition push_head (p : packet_hdr) (len : Z) : packet_hdr :=
  set_frame_len (frame_len p +u32 len) (set_headroom (headroom p -u32 len) p).
Definition pull_head (p : packet_hdr) (len : Z) : packet_hdr :=
  set_frame_len (frame_len p -u32 len) (set_headroom (headroom p +u32 len) p).
Definition push_tail (p : packet_hdr) (len : Z) : packet_hdr :=
  set_frame_len (frame_len p +u32 len) (set_tailroom (tailroom p -u32 len) p).
Definition pull_tail (p : packet_hdr) (len : Z) : packet_hdr :=
  set_frame_len (frame_len p -u32 len) (set_tailroom (tailroom p +u32 len) p).

(** The exported calls return the new data pointer, 0 when refused. *)
Definition odp_packet_push_head (b : buffer_hdr) (p : packet_hdr) (len : Z)
    : option (Z * packet_hdr) :=
  if len >? headroom p then Some (NULL, p)
  else let p := push_head p len in
       '(a, _) ← packet_map b p 0 0; Some (a, p).

Definition odp_packet_pull_head (b : buffer_hdr) (p : packet_hdr) (len : Z)
    : option (Z * packet_hdr) :=
  if len >? frame_len p then Some (NULL, p)
  else let p := pull_head p len in
       '(a, _) ← packet_map b p 0 0; Some (a, p).

Definition odp_packet_push_tail (b : buffer_hdr) (p : packet_hdr) (len : Z)
    : option (Z * packet_hdr) :=
  let origin := frame_len p in
  if len >? tailroom p then Some (NULL, p)
  else let p := push_tail p len in
       '(a, _) ← packet_map b p origin 0; Some (a, p).

Definition odp_packet_pull_tail (b : buffer_hdr) (p : packet_hdr) (len : Z)
    : option (Z * packet_hdr) :=
  if len >? frame_len p then Some (NULL, p)
  else let p := pull_tail p len in
       '(a, _) ← packet_map b p (frame_len p) 0; Some (a, p).

Definition odp_packet_tail (b : buffer_hdr) (p : packet_hdr) : option Z :=
  fst <$> packet_map b p (frame_len p) 0.

Definition odp_packet_seg_len (b : buffer_hdr) (p : packet_hdr) : option Z :=
  snd <$> packet_map b p 0 0.

(** [odp_packet_offset]: address, length to the end of the segment, handle. *)
Definition odp_packet_offset (b : buffer_hdr) (p : packet_hdr) (offset : Z)
    : option (Z * Z * Z) :=
  '(addr, len) ← packet_map b p offset 0;
  if addr =? NULL then Some (addr, len, 0)
  else
    let seg_index := u8 ((headroom p +u32 offset) `div` h_segsize b) in
    a ← zget (h_addr b) seg_index;
    Some (addr, len, seg_handle a seg_index).

(** * Segments *)

Definition odp_packet_first_seg (b : buffer_hdr) : option Z := zget (h_addr b) 0.

Definition odp_packet_last_seg (b : buffer_hdr) : option Z :=
  let last_seg := h_segcount b -u32 1 in
  a ← zget (h_addr b) last_seg; Some (seg_handle a last_seg).

Definition odp_packet_next_seg (b : buffer_hdr) (seg : Z) : option Z := segment_next b seg.

Definition odp_packet_seg_buf_addr (b : buffer_hdr) (p : packet_hdr) (seg : Z)
    : option (option (Z * Z)) :=
  segment_map b seg (headroom p +u32 frame_len p) 0.

(** [odp_packet_seg_data] and [odp_packet_seg_data_len]. *)
Definition odp_packet_seg_data (b : buffer_hdr) (p : packet_hdr) (seg : Z)
    : option (option (Z * Z)) :=
  segment_map b seg (frame_len p) (headroom p).

(** * Copying *)

(** Byte memory; an access to an unmapped address is [None]. *)
Abbreviation mem := (gmap Z Z).

Fixpoint load (m : mem) (a : Z) (n : nat) : option (list Z) :=
  match n with
  | O => Some []
  | S n => x ← m !! a; l ← load m (a + 1) n; Some (x :: l)
  end.

Fixpoint store (m : mem) (a : Z) (l : list Z) : option mem :=
  match l with
  | [] => Some m
  | x :: l => _ ← m !! a; store (<[a := x]> m) (a + 1) l
  end.

(** The loop of [odp_packet_copydata_out]; the bytes are appended to [dst]. *)
Fixpoint copy_out_loop (fuel : nat) (m : mem) (b : buffer_hdr) (p : packet_hdr)
    (offset len seglen : Z) (dst : list Z) : option (list Z) :=
  if len =? 0 then Some dst
  else
    match fuel with
    | O => None
    | S fuel =>
        '(mapaddr, seglen) ← packet_map b p offset seglen;
        let cpylen := if len >? seglen then seglen else len in
        bytes ← load m mapaddr (Z.to_nat cpylen);
        copy_out_loop fuel m b p (offset +u32 cpylen) (len -u32 cpylen) seglen (dst ++ bytes)
    end.

(** -1, or 0 and the bytes written to [dst].  Every round copies at least one
    byte while the offset is inside the packet: [len] rounds are enough. *)
Definition odp_packet_copydata_out (m : mem) (b : buffer_hdr) (p : packet_hdr) (offset len : Z)
    : option (Z * list Z) :=
  if offset +u32 len >? frame_len p then Some (-1, [])
  else dst ← copy_out_loop (Z.to_nat len) m b p offset len 0 []; Some (0, dst).

Fixpoint copy_in_loop (fuel : nat) (m : mem) (b : buffer_hdr) (p : packet_hdr)
    (offset len seglen : Z) (src : list Z) : option mem :=
  if len =? 0 then Some m
  else
    match fuel with
    | O => None
    | S fuel =>
        '(mapaddr, seglen) ← packet_map b p offset seglen;
        let cpylen := if len >? seglen then seglen else len in
        m ← store m mapaddr (take (Z.to_nat cpylen) src);
        copy_in_loop fuel m b p (offset +u32 cpylen) (len -u32 cpylen) seglen
          (drop (Z.to_nat cpylen) src)
    end.

(** [src] holds at least [len] bytes. *)
Definition odp_packet_copydata_in (m : mem) (b : buffer_hdr) (p : packet_hdr) (offset len : Z)
    (src : list Z) : option (Z * mem) :=
  if offset +u32 len >? frame_len p then Some (-1, m)
  else m ← copy_in_loop (Z.to_nat len) m b p offset len 0 src; Some (0, m).

Fixpoint copy_pkt_loop (fuel : nat) (m : mem) (sb : buffer_hdr) (sp : packet_hdr)
    (db : buffer_hdr) (dp : packet_hdr) (srcoffset dstoffset len srcseglen dstseglen : Z)
    : option mem :=
  if len =? 0 then Some m
  else
    match fuel with
    | O => None
    | S fuel =>
        '(srcmap, srcseglen) ← packet_map sb sp srcoffset srcseglen;
        '(dstmap, dstseglen) ← packet_map db dp dstoffset dstseglen;
        let minseg := if dstseglen >? srcseglen then srcseglen else dstseglen in
        let cpylen := if len >? minseg then minseg else len in
        bytes ← load m srcmap (Z.to_nat cpylen);
        m ← store m dstmap bytes;
        copy_pkt_loop fuel m sb sp db dp (srcoffset +u32 cpylen) (dstoffset +u32 cpylen)
          (len -u32 cpylen) srcseglen dstseglen
    end.

Definition odp_packet_copy_to_packet (m : mem) (sb : buffer_hdr) (sp : packet_hdr)
    (srcoffset : Z) (db : buffer_hdr) (dp : packet_hdr) (dstoffset len : Z)
    : option (Z * mem) :=
  if (srcoffset +u32 len >? frame_len sp) || (dstoffset +u32 len >? frame_len dp)
  then Some (-1, m)
  else m ← copy_pkt_loop (Z.to_nat len) m sb sp db dp srcoffset dstoffset len 0 0; Some (0, m).

(** * Packets of the pool table *)

(** The pools, the packet headers by address, and the data memory. *)
Record sys := Sys {
  s_tbl : list PoolCreate.pool_entry;
  s_pkts : gmap Z packet_hdr;
  s_mem : mem
}.

(** The buffer header at an address, in whichever pool it lies. *)
Fixpoint find_hdr (tbl : list PoolCreate.pool_entry) (a : Z) : option buffer_hdr :=
  match tbl with
  | [] => None
  | e :: tbl =>
      match hdrs (PoolCreate.e_pool e) !! a with
      | Some h => Some h
      | None => find_hdr tbl a
      end
  end.

Definition with_pool (s : sys) (hdl : Z) (p : pool) : option sys :=
  e ← zget (s_tbl s) hdl;
  tbl ← zset (s_tbl s) hdl (PoolCreate.set_e_pool p e);
  Some (Sys tbl (s_pkts s) (s_mem s)).
Definition with_pkt (s : sys) (a : Z) (p : packet_hdr) : sys :=
  Sys (s_tbl s) (<[a := p]> (s_pkts s)) (s_mem s).
Definition with_mem (s : sys) (m : mem) : sys := Sys (s_tbl s) (s_pkts s) m.

(** What a packet header holds before it is first initialised. *)
Definition raw_pkt : packet_hdr := cache_pkt_hdr 0.
Definition pkt_at (s : sys) (a : Z) : packet_hdr := default raw_pkt (s_pkts s !! a).

(** [packet_alloc] *)
Definition packet_alloc (s : sys) (tid pool_hdl len : Z) (parse : bool) : option (Z * sys) :=
  e ← zget (s_tbl s) pool_hdl;
  let cfg := p_cfg (PoolCreate.e_pool e) in
  if negb (c_type cfg =? ODP_EVENT_PACKET) then Some (ODP_PACKET_INVALID, s)
  else
    let zero := len =? 0 in
    let len := if zero then PoolCreate.buf_size (PoolCreate.e_params e) else len in
    '(pkt, p) ← buffer_alloc (PoolCreate.e_pool e) tid len;
    s ← with_pool s pool_hdl p;
    if pkt =? ODP_PACKET_INVALID then Some (ODP_PACKET_INVALID, s)
    else
      let s := if zero then with_pkt s pkt (pull_tail (pkt_at s pkt) len) else s in
      h ← hdrs p !! pkt;
      Some (pkt, with_pkt s pkt (packet_init (c_headroom cfg) h (pkt_at s pkt) len parse)).

Definition odp_packet_alloc (s : sys) (tid pool_hdl len : Z) : option (Z * sys) :=
  packet_alloc s tid pool_hdl len false.

(** The initialisation loop of [odp_packet_alloc_multi]. *)
Fixpoint init_multi (s : sys) (p : pool) (len pkt_size : Z) (pkts : list Z) : option sys :=
  match pkts with
  | [] => Some s
  | pkt :: pkts =>
      h ← hdrs p !! pkt;
      let q := packet_init (c_headroom (p_cfg p)) h (pkt_at s pkt) pkt_size false in
      let q := if len =? 0 then pull_tail q pkt_size else q in
      init_multi (with_pkt s pkt q) p len pkt_size pkts
  end.

(** [odp_packet_alloc_multi]: the packets, [None] for the error return. *)
Definition odp_packet_alloc_multi (s : sys) (tid pool_hdl len : Z) (num : nat)
    : option (option (list Z) * sys) :=
  e ← zget (s_tbl s) pool_hdl;
  let pkt_size := if len =? 0 then PoolCreate.buf_size (PoolCreate.e_params e) else len in
  if negb (c_type (p_cfg (PoolCreate.e_pool e)) =? ODP_EVENT_PACKET) then Some (None, s)
  else
    '(pkts, p) ← buffer_alloc_multi num (PoolCreate.e_pool e) tid pkt_size;
    s ← with_pool s pool_hdl p;
    s ← init_multi s p len pkt_size pkts;
    Some (Some pkts, s).

Definition odp_packet_free (s : sys) (tid pkt : Z) : option sys :=
  h ← find_hdr (s_tbl s) pkt;
  e ← zget (s_tbl s) (h_pool_hdl h);
  p ← odp_buffer_free (PoolCreate.e_pool e) tid pkt;
  with_pool s (h_pool_hdl h) p.

(** [odp_packet_reset] *)
Definition odp_packet_reset (s : sys) (pkt len : Z) : option (Z * sys) :=
  h ← find_hdr (s_tbl s) pkt;
  e ← zget (s_tbl s) (h_pool_hdl h);
  let cfg := p_cfg (PoolCreate.e_pool e) in
  let totsize := c_room_size cfg +u32 len in
  if totsize >? h_size h then Some (-1, s)
  else Some (0, with_pkt s pkt (packet_init (c_headroom cfg) h (pkt_at s pkt) len false)).

Definition set_h_ref_count (v : Z) (h : buffer_hdr) : buffer_hdr :=
  Hdr (h_next h) (h_handle h) (h_zeroized h) (h_hdrdata h) (h_allocator h) (h_type h)
    (h_event_type h) (h_size h) v (h_pool_hdl h) (h_uarea_addr h) (h_uarea_size h)
    (h_segcount h) (h_segsize h) (h_addr h) (h_origin_qe h).

(** [_odp_packet_copy_md_to_packet] *)
Definition odp_packet_copy_md_to_packet (s : sys) (src dst : Z) : option sys :=
  sh ← find_hdr (s_tbl s) src;
  dh ← find_hdr (s_tbl s) dst;
  let sp := pkt_at s src in
  let dp := set_buf_u64 (buf_u64 sp) (set_input (input sp) (pkt_at s dst)) in
  m ← (if negb (h_uarea_addr dh =? NULL) && negb (h_uarea_addr sh =? NULL) then
         let n := if h_uarea_size dh <=? h_uarea_size sh then h_uarea_size dh else h_uarea_size sh in
         bytes ← load (s_mem s) (h_uarea_addr sh) (Z.to_nat n);
         store (s_mem s) (h_uarea_addr dh) bytes
       else Some (s_mem s));
  e ← zget (s_tbl s) (h_pool_hdl dh);
  p ← on_hdr dst (set_h_ref_count (h_ref_count sh)) (PoolCreate.e_pool e);
  s ← with_pool s (h_pool_hdl dh) p;
  Some (with_pkt (with_mem s m) dst (copy_packet_parser_metadata sp dp)).

(** [_odp_packet_copy_to_packet] by handle. *)
Definition copy_between (s : sys) (src so dst dof len : Z) : option (Z * sys) :=
  sh ← find_hdr (s_tbl s) src;
  dh ← find_hdr (s_tbl s) dst;
  '(r, m) ← odp_packet_copy_to_packet (s_mem s) sh (pkt_at s src) so dh (pkt_at s dst) dof len;
  Some (r, with_mem s m).

(** The common tail of [odp_packet_add_data] and [odp_packet_rem_data]: the two
    copies, the second only when the first returned 0. *)
Definition rebuild (s : sys) (tid pkt newpkt offset so dof len2 : Z) : option (Z * sys) :=
  '(r, s) ← copy_between s pkt 0 newpkt 0 offset;
  '(r, s) ← (if negb (r =? 0) then Some (r, s) else copy_between s pkt so newpkt dof len2);
  if negb (r =? 0) then
    s ← odp_packet_free s tid newpkt; Some (ODP_PACKET_INVALID, s)
  else
    s ← odp_packet_copy_md_to_packet s pkt newpkt;
    s ← odp_packet_free s tid pkt;
    Some (newpkt, s).

Definition odp_packet_add_data (s : sys) (tid pkt offset len : Z) : option (Z * sys) :=
  h ← find_hdr (s_tbl s) pkt;
  let pktlen := frame_len (pkt_at s pkt) in
  if offset >? pktlen then Some (ODP_PACKET_INVALID, s)
  else
    '(newpkt, s) ← odp_packet_alloc s tid (h_pool_hdl h) (pktlen +u32 len);
    if newpkt =? ODP_PACKET_INVALID then Some (newpkt, s)
    else rebuild s tid pkt newpkt offset offset (offset +u32 len) (pktlen -u32 offset).

Definition odp_packet_rem_data (s : sys) (tid pkt offset len : Z) : option (Z * sys) :=
  h ← find_hdr (s_tbl s) pkt;
  let pktlen := frame_len (pkt_at s pkt) in
  if (offset >? pktlen) || (offset +u32 len >? pktlen) then Some (ODP_PACKET_INVALID, s)
  else
    '(newpkt, s) ← odp_packet_alloc s tid (h_pool_hdl h) (pktlen -u32 len);
    if newpkt =? ODP_PACKET_INVALID then Some (newpkt, s)
    else rebuild s tid pkt newpkt offset (offset +u32 len) offset (pktlen -u32 offset -u32 len).

(** [odp_packet_copy]: all metadata after the buffer header, then the data. *)
Definition odp_packet_copy (s : sys) (tid pkt pool_hdl : Z) : option (Z * sys) :=
  let sp := pkt_at s pkt in
  let pktlen := frame_len sp in
  '(newpkt, s) ← odp_packet_alloc s tid pool_hdl pktlen;
  if newpkt =? ODP_PACKET_INVALID then Some (newpkt, s)
  else
    let s := with_pkt s newpkt (set_buf_u64 (buf_u64 (pkt_at s newpkt)) sp) in
    '(r, s) ← copy_between s pkt 0 newpkt 0 pktlen;
    if negb (r =? 0) then s ← odp_packet_free s tid newpkt; Some (ODP_PACKET_INVALID, s)
    else Some (newpkt, s).

(** * The layout of a packet *)

(** A segmented buffer: [segcount] blocks of [segsize] bytes that do not
    overlap. *)
Record buf_ok (b : buffer_hdr) : Prop := {
  bo_segsize : 0 < h_segsize b;
  bo_count : 0 < h_segcount b <= ODP_BUFFER_MAX_SEG;
  bo_addr : zlen (h_addr b) = ODP_BUFFER_MAX_SEG;
  bo_size : h_size b = h_segcount b * h_segsize b;
  bo_max : h_segsize b * ODP_BUFFER_MAX_SEG < 2 ^ 32;
  bo_nonnull : forall i a, i < h_segcount b -> zget (h_addr b) i = Some a -> 0 < a;
  bo_disj : forall i j a a', i < j < h_segcount b -> zget (h_addr b) i = Some a ->
    zget (h_addr b) j = Some a' -> a + h_segsize b <= a' \/ a' + h_segsize b <= a
}.

(** Headroom, data and tailroom fill the buffer. *)
Record pkt_ok (b : buffer_hdr) (p : packet_hdr) : Prop := {
  po_buf : buf_ok b;
  po_hr : 0 <= headroom p;
  po_len : 0 <= frame_len p;
  po_tr : 0 <= tailroom p;
  po_sum : headroom p + frame_len p + tailroom p = h_size b
}.

(** Address of byte [k] of the buffer, and the addresses of [n] bytes from [k]. *)
Definition baddr (b : buffer_hdr) (k : Z) : Z :=
  default 0 (zget (h_addr b) (k `div` h_segsize b)) + k `mod` h_segsize b.
Definition baddrs (b : buffer_hdr) (k : Z) (n : nat) : list Z :=
  baddr b <$> seqZ k (Z.of_nat n).

(** Address of byte [i] of the packet's data. *)
Definition daddr (b : buffer_hdr) (p : packet_hdr) (i : Z) : Z := baddr b (headroom p + i).

Lemma buf_size_bound b : buf_ok b -> 0 < h_size b < 2 ^ 32.
Proof. intros []. unfold ODP_BUFFER_MAX_SEG in *. nia. Qed.

Lemma seg_index b k : buf_ok b -> 0 <= k < h_size b ->
  0 <= k `div` h_segsize b < h_segcount b /\
  exists a, zget (h_addr b) (k `div` h_segsize b) = Some a /\ 0 < a /\
    baddr b k = a + k `mod` h_segsize b.
Proof.
  intros Hb Hk. pose proof Hb as []. rewrite bo_size0 in Hk.
  assert (0 <= k `div` h_segsize b < h_segcount b) as Hi.
  { split; [apply Z.div_pos; lia|]. apply Z.div_lt_upper_bound; lia. }
  split; [done|]. destruct (zget_Some (h_addr b) (k `div` h_segsize b)) as [a Ha]; [lia|].
  exists a. split_and!; [done|apply (bo_nonnull0 (k `div` h_segsize b)); [lia|done]|].
  unfold baddr. by rewrite Ha.
Qed.

(** [buffer_map] inside the buffer. *)
Lemma buffer_map_spec b offset limit :
  buf_ok b -> 0 <= offset < h_size b -> offset <= limit <= h_size b ->
  buffer_map b offset limit =
    Some (baddr b offset, Z.min (limit - offset) (h_segsize b - offset `mod` h_segsize b)).
Proof.
  intros Hb Ho Hl. pose proof (buf_size_bound b Hb) as Hs.
  destruct (seg_index b offset Hb Ho) as (Hi & a & Ha & Hpos & Hba). pose proof (bo_segsize b Hb).
  unfold buffer_map. destruct (h_segsize b =? 0) eqn:E; zbool; [lia|].
  assert ((if offset <? h_segsize b then (0, offset)
           else (offset `div` h_segsize b, offset `mod` h_segsize b))
          = (offset `div` h_segsize b, offset `mod` h_segsize b)) as ->.
  { if_case; [|done]. by rewrite Z.div_small, Z.mod_small by lia. }
  rewrite Ha. cbn [mbind option_bind]. rewrite Hba.
  pose proof (Z.mod_pos_bound offset (h_segsize b)).
  assert (h_segsize b < 2 ^ 31) by (destruct Hb; unfold ODP_BUFFER_MAX_SEG in *; lia).
  rewrite (u32_small (limit - offset)) by (unfold is_u32; lia). f_equal. f_equal; [lia|].
  destruct (decide (offset `mod` h_segsize b + (limit - offset) < 2 ^ 32)) as [Hw|Hw].
  - rewrite u32_small by (unfold is_u32; lia). if_case; lia.
  - pose proof (Z.mod_le offset (h_segsize b)). lia.
Qed.

(** Bytes of one segment are consecutive. *)
Lemma baddr_step b k i : buf_ok b ->
  0 <= k -> 0 <= i < h_segsize b - k `mod` h_segsize b -> baddr b (k + i) = baddr b k + i.
Proof.
  intros Hb Hk Hi. pose proof (bo_segsize b Hb). unfold baddr.
  pose proof (Z.mod_pos_bound k (h_segsize b)).
  assert (k + i = (k `mod` h_segsize b + i) + k `div` h_segsize b * h_segsize b) as ->
    by (pose proof (Z.div_mod k (h_segsize b)); lia).
  rewrite Z.div_add, Z.mod_add, Z.div_small, Z.mod_small by lia. rewrite Z.add_0_l. lia.
Qed.

(** Different bytes have different addresses. *)
Lemma baddr_inj b j k : buf_ok b -> 0 <= j < h_size b -> 0 <= k < h_size b ->
  baddr b j = baddr b k -> j = k.
Proof.
  intros Hb Hj Hk E. pose proof (bo_segsize b Hb).
  destruct (seg_index b j Hb Hj) as (Hij & a & Ha & _ & Hja).
  destruct (seg_index b k Hb Hk) as (Hik & a' & Ha' & _ & Hka).
  rewrite Hja, Hka in E.
  pose proof (Z.mod_pos_bound j (h_segsize b)). pose proof (Z.mod_pos_bound k (h_segsize b)).
  pose proof (Z.div_mod j (h_segsize b)). pose proof (Z.div_mod k (h_segsize b)).
  destruct (Z.lt_trichotomy (j `div` h_segsize b) (k `div` h_segsize b)) as [Hlt|[Heq|Hlt]].
  - destruct (bo_disj b Hb _ _ a a' (conj Hlt (proj2 Hik)) Ha Ha'); lia.
  - rewrite Heq in *. simplify_eq. lia.
  - destruct (bo_disj b Hb _ _ a' a (conj Hlt (proj2 Hij)) Ha' Ha); lia.
Qed.

(** [packet_map] inside the packet; at its end too while there is tailroom. *)
Lemma packet_map_spec b p offset sl :
  pkt_ok b p -> 0 <= offset <= frame_len p -> headroom p + offset < h_size b ->
  packet_map b p offset sl = Some (daddr b p offset,
    Z.min (frame_len p - offset)
      (h_segsize b - (headroom p + offset) `mod` h_segsize b)).
Proof.
  intros [Hb Hh Hf Ht Hsum] Ho Hlt. pose proof (buf_size_bound b Hb).
  unfold packet_map. destruct (offset >? frame_len p) eqn:E; zbool; [lia|].
  rewrite (u32_small (headroom p + offset)), (u32_small (headroom p + frame_len p))
    by (unfold is_u32; lia).
  rewrite buffer_map_spec by (done || lia). unfold daddr. do 3 f_equal. lia.
Qed.

Lemma packet_map_null b p offset sl : offset > frame_len p -> packet_map b p offset sl = Some (NULL, sl).
Proof. intros H. unfold packet_map. if_case; [done|lia]. Qed.

(** * Copy loops *)

Definition insert_all (m : mem) (l : list (Z * Z)) : mem :=
  foldl (fun m x => <[x.1 := x.2]> m) m l.

(** The bytes at a list of addresses. *)
Definition bytes (m : mem) (l : list Z) : option (list Z) := mapM (fun a => m !! a) l.

Lemma bytes_app m l1 l2 :
  bytes m (l1 ++ l2) = (x ← bytes m l1; y ← bytes m l2; Some (x ++ y)).
Proof.
  unfold bytes. induction l1 as [|a l1 IH]; simpl; [by destruct (mapM _ l2)|].
  destruct (m !! a); [|done]. simpl. rewrite IH. destruct (mapM _ l1); [|done]. simpl.
  by destruct (mapM _ l2).
Qed.

Lemma bytes_len m l x : bytes m l = Some x -> length x = length l.
Proof. intros H. symmetry. by eapply length_mapM. Qed.

Lemma load_bytes m a n : load m a n = bytes m (seqZ a (Z.of_nat n)).
Proof.
  revert a. induction n as [|n IH]; intros a; [done|].
  rewrite seqZ_cons by lia. simpl. unfold bytes. simpl. replace (Z.pred (Z.of_nat (S n))) with (Z.of_nat n) by lia.
  destruct (m !! a); [|done]. simpl. rewrite IH. replace (Z.succ a) with (a + 1) by lia. done.
Qed.

Lemma baddrs_seg b k n : buf_ok b -> 0 <= k -> Z.of_nat n <= h_segsize b - k `mod` h_segsize b ->
  baddrs b k n = seqZ (baddr b k) (Z.of_nat n).
Proof.
  intros Hb Hk Hn. unfold baddrs. apply list_eq. intros i. rewrite list_lookup_fmap.
  destruct (decide (i < n)%nat) as [Hi|Hi].
  - rewrite !lookup_seqZ_lt by lia. simpl. f_equal. apply baddr_step; [done|lia|lia].
  - rewrite !lookup_seqZ_ge by lia. done.
Qed.

Lemma baddrs_app b k n1 n2 : baddrs b k (n1 + n2) = baddrs b k n1 ++ baddrs b (k + Z.of_nat n1) n2.
Proof.
  unfold baddrs. rewrite <- fmap_app. f_equal. rewrite Nat2Z.inj_add, seqZ_app by lia. done.
Qed.

Lemma baddrs_len b k n : length (baddrs b k n) = n.
Proof. unfold baddrs. rewrite length_fmap, length_seqZ. lia. Qed.

(** The length one round copies. *)
Lemma round_len b p offset len :
  pkt_ok b p -> 0 <= offset -> 0 < len -> offset + len <= frame_len p ->
  let seglen := Z.min (frame_len p - offset)
                  (h_segsize b - (headroom p + offset) `mod` h_segsize b) in
  let c := if len >? seglen then seglen else len in
  0 < c <= len /\ c <= seglen /\ c <= h_segsize b - (headroom p + offset) `mod` h_segsize b.
Proof.
  intros [Hb Hh Hf Ht Hsum] Ho Hl Hle seglen c. pose proof (bo_segsize b Hb).
  pose proof (Z.mod_pos_bound (headroom p + offset) (h_segsize b)).
  unfold c, seglen. if_case; lia.
Qed.

Lemma pkt_bounds b p : pkt_ok b p -> headroom p + frame_len p <= h_size b /\ h_size b < 2 ^ 32.
Proof. intros H. pose proof (buf_size_bound b (po_buf b p H)). destruct H. lia. Qed.

Lemma copy_out_loop_spec m b p fuel offset len sl dst :
  pkt_ok b p -> 0 <= offset -> 0 <= len -> offset + len <= frame_len p -> (Z.to_nat len <= fuel)%nat ->
  copy_out_loop fuel m b p offset len sl dst =
    (x ← bytes m (baddrs b (headroom p + offset) (Z.to_nat len)); Some (dst ++ x)).
Proof.
  intros Hp. revert offset len sl dst. destruct (pkt_bounds b p Hp) as [Hsz Hmax].
  induction fuel as [|fuel IH]; intros offset len sl dst Ho Hl Hle Hf; simpl;
    (destruct (len =? 0) eqn:E; zbool;
       [subst; simpl; by rewrite app_nil_r|]); [lia|].
  rewrite packet_map_spec by (done || lia). cbn [mbind option_bind].
  destruct (round_len b p offset len Hp Ho ltac:(lia) Hle) as (Hc & Hcs & Hseg).
  set (seglen := Z.min _ _) in *. set (c := if len >? seglen then seglen else len) in *.
  pose proof (po_hr b p Hp). pose proof (po_buf b p Hp) as Hb.
  assert (load m (daddr b p offset) (Z.to_nat c)
          = bytes m (baddrs b (headroom p + offset) (Z.to_nat c))) as ->.
  { rewrite load_bytes, baddrs_seg by (done || lia). done. }
  replace (Z.to_nat len) with (Z.to_nat c + Z.to_nat (len - c))%nat by lia.
  rewrite baddrs_app, bytes_app. destruct (bytes m (baddrs b _ (Z.to_nat c))) as [x|]; [|done].
  cbn [mbind option_bind].
  rewrite (u32_small (offset + c)), (u32_small (len - c)) by (unfold is_u32; lia).
  rewrite IH by lia. replace (headroom p + (offset + c)) with (headroom p + offset + Z.of_nat (Z.to_nat c)) by lia.
  destruct (bytes m _) as [y|]; [|done]. simpl. by rewrite app_assoc.
Qed.

Lemma store_spec m a l :
  (forall i, (i < length l)%nat -> is_Some (m !! (a + Z.of_nat i))) ->
  store m a l = Some (insert_all m (zip (seqZ a (Z.of_nat (length l))) l)).
Proof.
  revert m a. induction l as [|x l IH]; intros m a Hm; [done|].
  destruct (Hm 0%nat) as [v Hv]; [simpl; lia|]. rewrite Z.add_0_r in Hv.
  simpl length. rewrite seqZ_cons by lia. simpl. rewrite Hv. cbn [mbind option_bind].
  replace (Z.pred (Z.of_nat (S (length l)))) with (Z.of_nat (length l)) by lia.
  rewrite IH; [by replace (Z.succ a) with (a + 1) by lia|].
  intros i Hi. rewrite lookup_insert. case_decide; [eauto|].
  replace (a + 1 + Z.of_nat i) with (a + Z.of_nat (S i)) by lia. apply Hm. simpl. lia.
Qed.

Lemma insert_all_app m l1 l2 : insert_all m (l1 ++ l2) = insert_all (insert_all m l1) l2.
Proof. apply foldl_app. Qed.

Lemma insert_all_mapped m l a : is_Some (m !! a) -> is_Some (insert_all m l !! a).
Proof.
  revert m. induction l as [|x l IH]; intros m H; [done|]. simpl. apply IH.
  rewrite lookup_insert. case_decide; [eauto|done].
Qed.

Lemma insert_all_ne m l a : a ∉ l.*1 -> insert_all m l !! a = m !! a.
Proof.
  revert m. induction l as [|[a' x] l IH]; intros m H; [done|]. simpl in *.
  rewrite IH by set_solver. apply lookup_insert_ne. set_solver.
Qed.

Lemma insert_all_bytes m la lx :
  NoDup la -> length la = length lx -> bytes (insert_all m (zip la lx)) la = Some lx.
Proof.
  revert m lx. induction la as [|a la IH]; intros m [|x lx] Hnd Hlen; try done.
  apply NoDup_cons in Hnd as [Ha Hnd]. injection Hlen as Hlen.
  unfold bytes in *. simpl. rewrite (IH (<[a := x]> m) lx Hnd Hlen).
  rewrite insert_all_ne; [by rewrite lookup_insert_eq|]. by rewrite fst_zip by lia.
Qed.

Lemma bytes_frame m l la : (forall a, a ∈ la -> a ∉ l.*1) -> bytes (insert_all m l) la = bytes m la.
Proof.
  intros H. unfold bytes. apply Forall_mapM_ext. apply Forall_forall. intros a Ha.
  apply insert_all_ne, H, Ha.
Qed.

Definition mapped (m : mem) (l : list Z) : Prop := forall a, a ∈ l -> is_Some (m !! a).

Lemma mapped_bytes m l : mapped m l -> exists x, bytes m l = Some x.
Proof.
  intros H. apply mapM_is_Some_2. apply Forall_forall. exact H.
Qed.

Lemma bytes_mapped m l x : bytes m l = Some x -> mapped m l.
Proof.
  intros H a Ha. apply mk_is_Some, mapM_is_Some_1 in H. rewrite Forall_forall in H. by apply H.
Qed.

(** One round of a copy into a packet. *)
Lemma store_seg m b k l :
  buf_ok b -> 0 <= k -> Z.of_nat (length l) <= h_segsize b - k `mod` h_segsize b ->
  mapped m (baddrs b k (length l)) ->
  store m (baddr b k) l = Some (insert_all m (zip (baddrs b k (length l)) l)).
Proof.
  intros Hb Hk Hl Hm. rewrite store_spec; [by rewrite baddrs_seg|].
  intros i Hi. apply Hm. rewrite baddrs_seg by done. apply elem_of_seqZ. lia.
Qed.

Lemma zip_app_eq {A B} (l1 l2 : list A) (k : list B) n :
  length l1 = n -> zip (l1 ++ l2) k = zip l1 (take n k) ++ zip l2 (drop n k).
Proof.
  revert k n. induction l1 as [|a l1 IH]; intros k n Hn; simpl in *; subst; [done|].
  destruct k as [|x k]; simpl; [by destruct l2|]. f_equal. by apply IH.
Qed.

Lemma copy_in_loop_spec b p fuel m offset len sl src :
  pkt_ok b p -> 0 <= offset -> 0 <= len -> offset + len <= frame_len p -> (Z.to_nat len <= fuel)%nat ->
  Z.to_nat len = length src -> mapped m (baddrs b (headroom p + offset) (Z.to_nat len)) ->
  copy_in_loop fuel m b p offset len sl src =
    Some (insert_all m (zip (baddrs b (headroom p + offset) (Z.to_nat len)) src)).
Proof.
  intros Hp. revert m offset len sl src. destruct (pkt_bounds b p Hp) as [Hsz Hmax].
  induction fuel as [|fuel IH]; intros m offset len sl src Ho Hl Hle Hf Hsrc Hm; simpl;
    (destruct (len =? 0) eqn:E; zbool; [by subst|]); [lia|].
  rewrite packet_map_spec by (done || lia). cbn [mbind option_bind].
  destruct (round_len b p offset len Hp Ho ltac:(lia) Hle) as (Hc & Hcs & Hseg).
  set (seglen := Z.min _ _) in *. set (c := if len >? seglen then seglen else len) in *.
  pose proof (po_hr b p Hp). pose proof (po_buf b p Hp) as Hb.
  replace (Z.to_nat len) with (Z.to_nat c + Z.to_nat (len - c))%nat in Hm |- * by lia.
  rewrite baddrs_app in Hm |- *.
  assert (length (take (Z.to_nat c) src) = Z.to_nat c) as Htl by (rewrite length_take; lia).
  unfold daddr. rewrite store_seg; rewrite ?Htl; [|done|lia|lia|intros a Ha; apply Hm; set_solver].
  cbn [mbind option_bind].
  rewrite (u32_small (offset + c)), (u32_small (len - c)) by (unfold is_u32; lia).
  rewrite (zip_app_eq _ _ src (Z.to_nat c)) by apply baddrs_len. rewrite insert_all_app.
  replace (headroom p + offset + Z.of_nat (Z.to_nat c)) with (headroom p + (offset + c)) in * by lia.
  apply IH; [lia..|rewrite length_drop; lia|].
  intros a Ha. apply insert_all_mapped, Hm. set_solver.
Qed.

Lemma copy_pkt_loop_spec sb sp db dp fuel m so dof len s1 s2 x :
  pkt_ok sb sp -> pkt_ok db dp -> 0 <= so -> 0 <= dof -> 0 <= len ->
  so + len <= frame_len sp -> dof + len <= frame_len dp -> (Z.to_nat len <= fuel)%nat ->
  let S := baddrs sb (headroom sp + so) (Z.to_nat len) in
  let D := baddrs db (headroom dp + dof) (Z.to_nat len) in
  (forall a, a ∈ S -> a ∉ D) -> bytes m S = Some x -> mapped m D ->
  copy_pkt_loop fuel m sb sp db dp so dof len s1 s2 = Some (insert_all m (zip D x)).
Proof.
  intros Hsp Hdp. revert m so dof len s1 s2 x.
  destruct (pkt_bounds sb sp Hsp) as [Hssz Hsmax]. destruct (pkt_bounds db dp Hdp) as [Hdsz Hdmax].
  induction fuel as [|fuel IH]; intros m so dof len s1 s2 x Hso Hdo Hl Hsle Hdle Hf; simpl;
    (destruct (len =? 0) eqn:E; zbool; [subst; intros _ [= <-]; done|]); [lia|].
  intros Hdis Hx Hm.
  rewrite (packet_map_spec sb), (packet_map_spec db) by (done || lia). cbn [mbind option_bind].
  destruct (round_len sb sp so len Hsp Hso ltac:(lia) Hsle) as (Hc1 & Hcs1 & Hseg1).
  destruct (round_len db dp dof len Hdp Hdo ltac:(lia) Hdle) as (Hc2 & Hcs2 & Hseg2).
  set (l1 := Z.min (frame_len sp - so) _) in *. set (l2 := Z.min (frame_len dp - dof) _) in *.
  set (mn := if l2 >? l1 then l1 else l2). set (c := if len >? mn then mn else len).
  assert (0 < c <= len /\ c <= h_segsize sb - (headroom sp + so) `mod` h_segsize sb /\
          c <= h_segsize db - (headroom dp + dof) `mod` h_segsize db) as (Hc & Hcseg1 & Hcseg2).
  { unfold c, mn. clear -Hc1 Hcs1 Hseg1 Hc2 Hcs2 Hseg2.
    destruct (l2 >? l1) eqn:E3, (len >? l1) eqn:E1, (len >? l2) eqn:E2; zbool; lia. }
  clearbody c. clear Hc1 Hcs1 Hseg1 Hc2 Hcs2 Hseg2.
  pose proof (po_hr sb sp Hsp). pose proof (po_hr db dp Hdp).
  pose proof (po_buf sb sp Hsp) as Hsb. pose proof (po_buf db dp Hdp) as Hdb.
  replace (Z.to_nat len) with (Z.to_nat c + Z.to_nat (len - c))%nat in * by lia.
  rewrite !baddrs_app in *. rewrite bytes_app in Hx.
  destruct (bytes m (baddrs sb _ (Z.to_nat c))) as [x1|] eqn:Ex1; [|done]. simpl in Hx.
  destruct (bytes m (baddrs sb _ (Z.to_nat (len - c)))) as [x2|] eqn:Ex2; [|done].
  injection Hx as <-.
  assert (length x1 = Z.to_nat c) as Hx1 by (by rewrite (bytes_len _ _ _ Ex1), baddrs_len).
  assert (load m (daddr sb sp so) (Z.to_nat c) = Some x1) as ->.
  { rewrite load_bytes, <- Ex1, baddrs_seg by (done || lia). done. }
  cbn [mbind option_bind]. unfold daddr.
  rewrite store_seg; rewrite ?Hx1; [|done|lia|lia|intros a Ha; apply Hm; set_solver].
  cbn [mbind option_bind].
  rewrite (u32_small (so + c)), (u32_small (dof + c)), (u32_small (len - c)) by (unfold is_u32; lia).
  rewrite (zip_app_eq _ _ (x1 ++ x2) (Z.to_nat c)) by apply baddrs_len.
  rewrite take_app_length', drop_app_length' by done. rewrite insert_all_app.
  replace (headroom sp + so + Z.of_nat (Z.to_nat c)) with (headroom sp + (so + c)) in * by lia.
  replace (headroom dp + dof + Z.of_nat (Z.to_nat c)) with (headroom dp + (dof + c)) in * by lia.
  apply IH; [lia..|set_solver| |].
  - rewrite bytes_frame; [done|]. intros a Ha. rewrite fst_zip by (rewrite baddrs_len; lia). set_solver.
  - intros a Ha. apply insert_all_mapped, Hm. set_solver.
Qed.

(** * Window operations *)

Lemma gtb_true x y : x > y -> (x >? y) = true.
Proof. intros. rewrite Z.gtb_ltb. apply Z.ltb_lt. lia. Qed.
Lemma gtb_false x y : x <= y -> (x >? y) = false.
Proof. intros. rewrite Z.gtb_ltb. apply Z.ltb_ge. lia. Qed.

Lemma pkt_u32 b p : pkt_ok b p ->
  is_u32 (headroom p) /\ is_u32 (frame_len p) /\ is_u32 (tailroom p) /\
  is_u32 (headroom p + frame_len p) /\ is_u32 (frame_len p + tailroom p).
Proof. intros Hp. destruct (pkt_bounds b p Hp). destruct Hp. unfold is_u32. lia. Qed.

Lemma push_head_spec b p len : pkt_ok b p -> 0 <= len -> len <= headroom p ->
  let q := push_head p len in
  pkt_ok b q /\ headroom q = headroom p - len /\ frame_len q = frame_len p + len /\
  (forall i, daddr b q (len + i) = daddr b p i) /\ pull_head q len = p /\
  (headroom q < h_size b -> odp_packet_push_head b p len = Some (daddr b q 0, q)).
Proof.
  intros Hp Hl Hle q. destruct (pkt_u32 b p Hp) as (H1 & H2 & H3 & H4 & H5). unfold is_u32 in *.
  assert (headroom q = headroom p - len) as Eh by (unfold q; simpl; apply u32_small; unfold is_u32; lia).
  assert (frame_len q = frame_len p + len) as Ef by (unfold q; simpl; apply u32_small; unfold is_u32; lia).
  assert (tailroom q = tailroom p) as Et by done.
  assert (pkt_ok b q) as Hq by (destruct Hp; split; try done; lia).
  split_and!; try done.
  - intros i. unfold daddr. rewrite Eh. f_equal. lia.
  - unfold pull_head. rewrite Eh, Ef. rewrite !u32_small by (unfold is_u32; lia).
    rewrite ?Z.add_simpl_r, ?Z.sub_add. unfold q. by destruct p.
  - intros Hs. unfold odp_packet_push_head. rewrite gtb_false by done. fold q.
    rewrite packet_map_spec by (done || destruct Hq; lia). done.
Qed.

Lemma pull_head_spec b p len : pkt_ok b p -> 0 <= len -> len <= frame_len p ->
  let q := pull_head p len in
  pkt_ok b q /\ headroom q = headroom p + len /\ frame_len q = frame_len p - len /\
  (forall i, daddr b q i = daddr b p (len + i)) /\ push_head q len = p /\
  (headroom q < h_size b -> odp_packet_pull_head b p len = Some (daddr b q 0, q)).
Proof.
  intros Hp Hl Hle q. destruct (pkt_u32 b p Hp) as (H1 & H2 & H3 & H4 & H5). unfold is_u32 in *.
  assert (headroom q = headroom p + len) as Eh by (unfold q; simpl; apply u32_small; unfold is_u32; lia).
  assert (frame_len q = frame_len p - len) as Ef by (unfold q; simpl; apply u32_small; unfold is_u32; lia).
  assert (tailroom q = tailroom p) as Et by done.
  assert (pkt_ok b q) as Hq by (destruct Hp; split; try done; lia).
  split_and!; try done.
  - intros i. unfold daddr. rewrite Eh. f_equal. lia.
  - unfold push_head. rewrite Eh, Ef. rewrite !u32_small by (unfold is_u32; lia).
    rewrite ?Z.add_simpl_r, ?Z.sub_add. unfold q. by destruct p.
  - intros Hs. unfold odp_packet_pull_head. rewrite gtb_false by done. fold q.
    rewrite packet_map_spec by (done || destruct Hq; lia). done.
Qed.

Lemma push_tail_spec b p len : pkt_ok b p -> 0 <= len -> len <= tailroom p ->
  let q := push_tail p len in
  pkt_ok b q /\ tailroom q = tailroom p - len /\ frame_len q = frame_len p + len /\
  (forall i, daddr b q i = daddr b p i) /\ pull_tail q len = p /\
  (headroom p + frame_len p < h_size b ->
     odp_packet_push_tail b p len = Some (daddr b p (frame_len p), q)).
Proof.
  intros Hp Hl Hle q. destruct (pkt_u32 b p Hp) as (H1 & H2 & H3 & H4 & H5). unfold is_u32 in *.
  assert (tailroom q = tailroom p - len) as Eh by (unfold q; simpl; apply u32_small; unfold is_u32; lia).
  assert (frame_len q = frame_len p + len) as Ef by (unfold q; simpl; apply u32_small; unfold is_u32; lia).
  assert (headroom q = headroom p) as Et by done.
  assert (pkt_ok b q) as Hq by (destruct Hp; split; try done; lia).
  split_and!; try done.
  - unfold pull_tail. rewrite Eh, Ef. rewrite !u32_small by (unfold is_u32; lia).
    rewrite ?Z.add_simpl_r, ?Z.sub_add. unfold q. by destruct p.
  - intros Hs. unfold odp_packet_push_tail. rewrite gtb_false by done. fold q.
    rewrite packet_map_spec by (done || lia). done.
Qed.

Lemma pull_tail_spec b p len : pkt_ok b p -> 0 <= len -> len <= frame_len p ->
  let q := pull_tail p len in
  pkt_ok b q /\ tailroom q = tailroom p + len /\ frame_len q = frame_len p - len /\
  (forall i, daddr b q i = daddr b p i) /\ push_tail q len = p /\
  (headroom q + frame_len q < h_size b ->
     odp_packet_pull_tail b p len = Some (daddr b q (frame_len q), q)).
Proof.
  intros Hp Hl Hle q. destruct (pkt_u32 b p Hp) as (H1 & H2 & H3 & H4 & H5). unfold is_u32 in *.
  assert (tailroom q = tailroom p + len) as Eh by (unfold q; simpl; apply u32_small; unfold is_u32; lia).
  assert (frame_len q = frame_len p - len) as Ef by (unfold q; simpl; apply u32_small; unfold is_u32; lia).
  assert (headroom q = headroom p) as Et by done.
  assert (pkt_ok b q) as Hq by (destruct Hp; split; try done; lia).
  split_and!; try done.
  - unfold push_tail. rewrite Eh, Ef. rewrite !u32_small by (unfold is_u32; lia).
    rewrite ?Z.add_simpl_r, ?Z.sub_add. unfold q. by destruct p.
  - intros Hs. unfold odp_packet_pull_tail. rewrite gtb_false by done. fold q.
    rewrite packet_map_spec by (done || destruct Hq; lia). done.
Qed.

(** * Data as a list *)

(** The data of a packet. *)
Definition pdata (m : mem) (b : buffer_hdr) (p : packet_hdr) : option (list Z) :=
  bytes m (baddrs b (headroom p) (Z.to_nat (frame_len p))).

Lemma take_mid {A} (d1 d2 d3 : list A) n k :
  length d1 = n -> length d2 = k -> take k (drop n (d1 ++ d2 ++ d3)) = d2.
Proof. intros <- <-. rewrite drop_app_length. apply take_app_length. Qed.

Lemma pdata_split m b p d offset len :
  pkt_ok b p -> pdata m b p = Some d -> 0 <= offset -> 0 <= len -> offset + len <= frame_len p ->
  exists d1 d2 d3, d = d1 ++ d2 ++ d3 /\
    bytes m (baddrs b (headroom p) (Z.to_nat offset)) = Some d1 /\
    bytes m (baddrs b (headroom p + offset) (Z.to_nat len)) = Some d2 /\
    bytes m (baddrs b (headroom p + offset + len) (Z.to_nat (frame_len p - offset - len))) = Some d3 /\
    length d1 = Z.to_nat offset /\ length d2 = Z.to_nat len.
Proof.
  intros Hp Hd Ho Hl Hle. unfold pdata in Hd.
  replace (Z.to_nat (frame_len p)) with
    (Z.to_nat offset + (Z.to_nat len + Z.to_nat (frame_len p - offset - len)))%nat in Hd by lia.
  rewrite !baddrs_app, !bytes_app, !Z2Nat.id in Hd by lia.
  destruct (bytes m (baddrs b (headroom p) _)) as [d1|] eqn:E1; [|done]. simpl in Hd.
  destruct (bytes m (baddrs b (headroom p + offset) _)) as [d2|] eqn:E2; [|done]. simpl in Hd.
  destruct (bytes m (baddrs b (headroom p + offset + len) _)) as [d3|] eqn:E3; [|done]. simpl in Hd.
  injection Hd as <-. exists d1, d2, d3. split_and!; try done.
  - by rewrite (bytes_len _ _ _ E1), baddrs_len.
  - by rewrite (bytes_len _ _ _ E2), baddrs_len.
Qed.

Lemma copydata_out_ok m b p offset len d :
  pkt_ok b p -> 0 <= offset -> 0 <= len -> offset + len <= frame_len p ->
  bytes m (baddrs b (headroom p + offset) (Z.to_nat len)) = Some d ->
  odp_packet_copydata_out m b p offset len = Some (0, d).
Proof.
  intros Hp Ho Hl Hle Hd. destruct (pkt_u32 b p Hp) as (_ & Hf & _). unfold is_u32 in Hf.
  unfold odp_packet_copydata_out. rewrite u32_small by (unfold is_u32; lia).
  rewrite gtb_false by lia. rewrite copy_out_loop_spec by (done || lia). by rewrite Hd.
Qed.

Lemma baddrs_nodup b k n : buf_ok b -> 0 <= k -> k + Z.of_nat n <= h_size b -> NoDup (baddrs b k n).
Proof.
  intros Hb Hk Hn. apply NoDup_fmap_2_strong; [|apply NoDup_seqZ].
  intros x y Hx Hy E. rewrite elem_of_seqZ in Hx, Hy. by apply (baddr_inj b); [|lia|lia|].
Qed.

Lemma baddrs_disj b k n k' n' a :
  buf_ok b -> 0 <= k -> k + Z.of_nat n <= k' -> k' + Z.of_nat n' <= h_size b ->
  a ∈ baddrs b k n -> a ∈ baddrs b k' n' -> False.
Proof.
  intros Hb Hk Hn Hn' H1 H2. unfold baddrs in *.
  apply list_elem_of_fmap in H1 as (x & -> & Hx). apply list_elem_of_fmap in H2 as (y & E & Hy).
  rewrite elem_of_seqZ in Hx, Hy. apply baddr_inj in E; [lia|done|lia|lia].
Qed.

Lemma copydata_in_ok m b p src offset len d1 d2 d3 :
  pkt_ok b p -> 0 <= offset -> 0 <= len -> offset + len <= frame_len p -> zlen src = len ->
  bytes m (baddrs b (headroom p) (Z.to_nat offset)) = Some d1 ->
  bytes m (baddrs b (headroom p + offset) (Z.to_nat len)) = Some d2 ->
  bytes m (baddrs b (headroom p + offset + len) (Z.to_nat (frame_len p - offset - len))) = Some d3 ->
  exists m', odp_packet_copydata_in m b p offset len src = Some (0, m') /\
    bytes m' (baddrs b (headroom p + offset) (Z.to_nat len)) = Some src /\
    pdata m' b p = Some (d1 ++ src ++ d3) /\
    (forall a, a ∉ baddrs b (headroom p + offset) (Z.to_nat len) -> m' !! a = m !! a).
Proof.
  intros Hp Ho Hl Hle Hs H1 H2 H3. destruct (pkt_u32 b p Hp) as (_ & Hf & _). unfold is_u32 in Hf.
  destruct (pkt_bounds b p Hp) as [Hsz _]. pose proof (po_hr b p Hp). pose proof (po_buf b p Hp) as Hb.
  set (D := baddrs b (headroom p + offset) (Z.to_nat len)) in *.
  assert (length src = Z.to_nat len) as Hsl by (unfold zlen in Hs; lia).
  assert (length D = length src) as HD by (unfold D; rewrite baddrs_len; lia).
  set (m' := insert_all m (zip D src)). exists m'.
  assert (forall a, a ∉ D -> m' !! a = m !! a) as Hfr.
  { intros a Ha. apply insert_all_ne. by rewrite fst_zip by lia. }
  assert (bytes m' D = Some src) as HDs.
  { apply insert_all_bytes; [|done]. apply baddrs_nodup; [done|lia|lia]. }
  assert (forall k n x, 0 <= k -> k + Z.of_nat n <= headroom p + offset \/
     headroom p + offset + len <= k /\ k + Z.of_nat n <= h_size b ->
     bytes m (baddrs b k n) = Some x -> bytes m' (baddrs b k n) = Some x) as Hkeep.
  { intros k n x Hk Hpos Hx. rewrite <- Hx. apply bytes_frame. intros a Ha.
    rewrite fst_zip by lia. intros HaD. destruct Hpos as [Hpos|[Hpos Hpos']].
    - by apply (baddrs_disj b k n (headroom p + offset) (Z.to_nat len) a); [|lia|lia|lia| |].
    - by apply (baddrs_disj b (headroom p + offset) (Z.to_nat len) k n a); [|lia|lia|lia| |]. }
  split_and!; try done.
  - unfold odp_packet_copydata_in. rewrite u32_small by (unfold is_u32; lia).
    rewrite gtb_false by lia. rewrite copy_in_loop_spec; try (done || lia). by apply bytes_mapped in H2.
  - unfold pdata. replace (Z.to_nat (frame_len p)) with
      (Z.to_nat offset + (Z.to_nat len + Z.to_nat (frame_len p - offset - len)))%nat by lia.
    rewrite !baddrs_app, !bytes_app, !Z2Nat.id by lia. fold D. rewrite HDs.
    rewrite (Hkeep (headroom p) (Z.to_nat offset) d1) by (done || lia).
    rewrite (Hkeep (headroom p + offset + len) _ d3) by (done || lia). done.
Qed.

(** * Segment handles *)

(** Block addresses are 8-byte aligned 64-bit addresses. *)
Definition seg_aligned (b : buffer_hdr) : Prop :=
  forall k a, zget (h_addr b) k = Some a -> 0 <= k < h_segcount b -> a `mod` 8 = 0 /\ 0 < a < 2 ^ 64.

Lemma handle_bits a k : a `mod` 8 = 0 -> 0 < a < 2 ^ 64 -> 0 <= k < 8 ->
  seg_handle a k = a + k /\ u8 (seg_handle a k & ODP_SEG_INDEX_MASK) = k /\
  (seg_handle a k & ODP_SEG_ADDR_MASK) = a /\ a + k < 2 ^ 64.
Proof.
  intros Ha Hr Hk. apply Z.mod_divide in Ha as [q ->]; [|lia].
  assert (seg_handle (q * 8) k = q * 8 + k) as E.
  { unfold seg_handle. rewrite Z.lor_comm. change 8 with (2 ^ 3). rewrite lor_disjoint by lia. lia. }
  assert (q * 8 + k < 2 ^ 64) by lia.
  rewrite E. unfold ODP_SEG_INDEX_MASK, ODP_SEG_ADDR_MASK. split_and!; [done| | |done].
  - change 7 with (2 ^ 3 - 1). rewrite land_pow2_mask by lia. cint.
  - change 0xfffffffffffffff8 with (2 ^ 64 - 2 ^ 3). rewrite land_high_mask by lia. cint.
Qed.

Lemma segment_next_spec b k a :
  buf_ok b -> seg_aligned b -> 0 <= k < h_segcount b -> zget (h_addr b) k = Some a ->
  segment_next b (seg_handle a k) =
    if k + 1 <? h_segcount b then (fun a' => seg_handle a' (k + 1)) <$> zget (h_addr b) (k + 1)
    else Some ODP_SEGMENT_INVALID.
Proof.
  intros Hb Hal Hk Ha. destruct (Hal k a Ha Hk) as [Hm Hr].
  pose proof (bo_count b Hb) as Hc. unfold ODP_BUFFER_MAX_SEG in Hc.
  destruct (handle_bits a k Hm Hr ltac:(lia)) as (E & _ & _ & Hlt).
  unfold segment_next, ODP_SEGMENT_INVALID. rewrite E.
  destruct (a + k =? 0) eqn:E0; zbool; [lia|]. simpl.
  assert (u8 ((a + k +u64 1) & ODP_SEG_INDEX_MASK) = k + 1) as ->.
  { unfold ODP_SEG_INDEX_MASK. change 7 with (2 ^ 3 - 1). rewrite land_pow2_mask by lia.
    apply Z.mod_divide in Hm as [q ->]; [|lia]. cint. }
  rewrite u32_small by (unfold is_u32; lia).
  rewrite Z.gtb_ltb. destruct (h_segcount b - 1 <? k + 1) eqn:E1, (k + 1 <? h_segcount b) eqn:E2;
    zbool; try lia; [done|]. by destruct (zget (h_addr b) (k + 1)).
Qed.

Lemma seg_data_spec b p k a :
  pkt_ok b p -> seg_aligned b -> 0 <= k < h_segcount b -> zget (h_addr b) k = Some a ->
  let S := h_segsize b in let hr := headroom p in let len := frame_len p in
  odp_packet_seg_data b p (seg_handle a k) =
    if ((k + 1) * S <=? hr) || (hr + len <? k * S) then Some None
    else Some (Some (baddr b (Z.max hr (k * S)),
      let off := Z.max hr (k * S) in
      if hr + len - off <? S then hr + len - off
      else if off >=? S then S else S - off)).
Proof.
  intros Hp Hal Hk Ha S hr len. pose proof (po_buf b p Hp) as Hb.
  destruct (pkt_u32 b p Hp) as (H1 & H2 & _ & H4 & _).
  destruct (Hal k a Ha Hk) as [Hm Hr]. pose proof (bo_count b Hb) as Hc. pose proof (bo_max b Hb).
  pose proof (bo_segsize b Hb) as HS. unfold ODP_BUFFER_MAX_SEG in *. fold S in HS, H. unfold is_u32 in *.
  destruct (handle_bits a k Hm Hr ltac:(lia)) as (_ & Ei & Ea & _).
  assert (0 <= k * S /\ (k + 1) * S < 2 ^ 32) as [HkS HkS1] by nia.
  unfold odp_packet_seg_data, segment_map. rewrite Ei, Ea. fold S hr len.
  destruct (k >=? h_segcount b) eqn:E0; zbool; [lia|]. rewrite Ha. cbn [mbind option_bind].
  rewrite Z.eqb_refl. simpl negb. cbv iota.
  rewrite (u32_small (k * S)), (u32_small (k * S + S)), (u32_small (len + hr))
    by (unfold is_u32, hr, len in *; lia).
  replace (hr >=? k * S + S) with ((k + 1) * S <=? hr) by (rewrite Z.geb_leb; f_equal; lia).
  replace (k * S >? len + hr) with (hr + len <? k * S) by (rewrite Z.gtb_ltb; f_equal; lia).
  destruct (((k + 1) * S <=? hr) || (hr + len <? k * S)) eqn:E1; [done|]. zbool.
  destruct (hr >? k * S) eqn:E2; zbool.
  - assert (hr `mod` S = hr - k * S) as Em.
    { symmetry. apply (Z.mod_unique_pos hr S k); lia. }
    rewrite Em. replace (Z.max hr (k * S)) with hr by lia.
    rewrite (u32_small (k * S + (hr - k * S))) by (unfold is_u32, hr in *; lia).
    replace (k * S + (hr - k * S)) with hr by lia.
    rewrite (u32_small (len + hr - hr)) by (unfold is_u32, len in *; lia).
    replace (len + hr - hr) with (hr + len - hr) by lia. do 3 f_equal.
    unfold baddr. fold S. rewrite Em. rewrite <- (Z.div_unique_pos hr S k (hr - k * S)) by lia.
    by rewrite Ha.
  - replace (Z.max hr (k * S)) with (k * S) by lia.
    rewrite (u32_small (len + hr - k * S)) by (unfold is_u32, hr, len in *; lia).
    replace (len + hr - k * S) with (hr + len - k * S) by lia. do 3 f_equal.
    unfold baddr. fold S. rewrite Z.div_mul, Z.mod_mul, Ha by lia. simpl. lia.
Qed.

(** * Claims *)

(** C7: the window operations, for a packet whose headroom, data and tailroom
    fill its segments ([pkt_ok]).  Pushing is refused exactly when the room is too
    short, pulling exactly when the packet has not that many bytes; otherwise
    headroom, data and tailroom still fill the buffer, the window moves by [len]
    bytes, every byte of data keeps its address, and the opposite operation
    restores the packet; the pointer returned is the one documented, unless it
    would point behind the last byte of the buffer.  The interface documents a
    limit for pulling that the code does not have: the pointer must stay in the
    first or last segment ([pull_across_segments]). *)
Theorem packet_window_ops (b : buffer_hdr) (p : packet_hdr) (len : Z) :
  pkt_ok b p -> 0 <= len ->
  (len > headroom p -> odp_packet_push_head b p len = Some (NULL, p)) /\
  (len > frame_len p -> odp_packet_pull_head b p len = Some (NULL, p)) /\
  (len > tailroom p -> odp_packet_push_tail b p len = Some (NULL, p)) /\
  (len > frame_len p -> odp_packet_pull_tail b p len = Some (NULL, p)) /\
  (len <= headroom p ->
     let q := push_head p len in
     pkt_ok b q /\ headroom q = headroom p - len /\ frame_len q = frame_len p + len /\
     (forall i, daddr b q (len + i) = daddr b p i) /\ pull_head q len = p /\
     (headroom q < h_size b -> odp_packet_push_head b p len = Some (daddr b q 0, q))) /\
  (len <= frame_len p ->
     let q := pull_head p len in
     pkt_ok b q /\ headroom q = headroom p + len /\ frame_len q = frame_len p - len /\
     (forall i, daddr b q i = daddr b p (len + i)) /\ push_head q len = p /\
     (headroom q < h_size b -> odp_packet_pull_head b p len = Some (daddr b q 0, q))) /\
  (len <= tailroom p ->
     let q := push_tail p len in
     pkt_ok b q /\ tailroom q = tailroom p - len /\ frame_len q = frame_len p + len /\
     (forall i, daddr b q i = daddr b p i) /\ pull_tail q len = p /\
     (headroom p + frame_len p < h_size b ->
        odp_packet_push_tail b p len = Some (daddr b p (frame_len p), q))) /\
  (len <= frame_len p ->
     let q := pull_tail p len in
     pkt_ok b q /\ tailroom q = tailroom p + len /\ frame_len q = frame_len p - len /\
     (forall i, daddr b q i = daddr b p i) /\ push_tail q len = p /\
     (headroom q + frame_len q < h_size b ->
        odp_packet_pull_tail b p len = Some (daddr b q (frame_len q), q))).
Proof.
  intros Hp Hl.
  split; [intros H; unfold odp_packet_push_head; by rewrite (gtb_true _ _ H)|].
  split; [intros H; unfold odp_packet_pull_head; by rewrite (gtb_true _ _ H)|].
  split; [intros H; unfold odp_packet_push_tail; by rewrite (gtb_true _ _ H)|].
  split; [intros H; unfold odp_packet_pull_tail; by rewrite (gtb_true _ _ H)|].
  split_and!; intros H q; subst q.
  - by apply push_head_spec.
  - by apply pull_head_spec.
  - by apply push_tail_spec.
  - by apply pull_tail_spec.
Qed.

(** C8: copying data out of and into a packet.  A range inside the packet is
    returned, or replaced, exactly, whatever segments it spans; other bytes of
    memory do not change; a range beyond the packet gives -1. *)
Theorem packet_copydata (m : mem) (b : buffer_hdr) (p : packet_hdr) (d src : list Z)
    (offset len : Z) :
  pkt_ok b p -> pdata m b p = Some d -> 0 <= offset -> 0 <= len -> offset + len < 2 ^ 32 ->
  zlen src = len ->
  if offset + len <=? frame_len p then
    odp_packet_copydata_out m b p offset len =
      Some (0, take (Z.to_nat len) (drop (Z.to_nat offset) d)) /\
    exists m', odp_packet_copydata_in m b p offset len src = Some (0, m') /\
      pdata m' b p = Some (take (Z.to_nat offset) d ++ src ++ drop (Z.to_nat (offset + len)) d) /\
      odp_packet_copydata_out m' b p offset len = Some (0, src) /\
      (forall a, a ∉ baddrs b (headroom p + offset) (Z.to_nat len) -> m' !! a = m !! a)
  else
    odp_packet_copydata_out m b p offset len = Some (-1, []) /\
    odp_packet_copydata_in m b p offset len src = Some (-1, m).
Proof.
  intros Hp Hd Ho Hl Hw Hs. destruct (offset + len <=? frame_len p) eqn:E; zbool.
  - destruct (pdata_split m b p d offset len Hp Hd Ho Hl E) as (d1 & d2 & d3 & -> & H1 & H2 & H3 & L1 & L2).
    rewrite take_mid by done. split; [by apply copydata_out_ok|].
    destruct (copydata_in_ok m b p src offset len d1 d2 d3) as (m' & Hin & H2' & Hd' & Hfr); try done.
    exists m'. split_and!; try done; [|by apply copydata_out_ok].
    rewrite take_app_length' by done. rewrite Hd'. do 3 f_equal.
    rewrite app_assoc, drop_app_length'; [done|]. rewrite length_app. lia.
  - unfold odp_packet_copydata_out, odp_packet_copydata_in. rewrite u32_small by (unfold is_u32; lia).
    by rewrite gtb_true by lia.
Qed.

(** The segments of a packet.  [odp_packet_next_seg] enumerates them in order
    and ends with the invalid handle; [odp_packet_seg_data] gives NULL for a
    segment with nothing but headroom or tailroom and otherwise the address of its
    first data byte.  The length it reports is the number of data bytes in the
    segment when the data starts at or before the segment, or ends in it, or when
    it is the first segment and at least a segment long; in every other case it
    reports more bytes than the segment holds. *)
Theorem packet_segments (b : buffer_hdr) (p : packet_hdr) (k a : Z) :
  pkt_ok b p -> seg_aligned b -> 0 <= k < h_segcount b -> zget (h_addr b) k = Some a ->
  odp_packet_next_seg b (seg_handle a k) =
    (if k + 1 <? h_segcount b then (fun a' => seg_handle a' (k + 1)) <$> zget (h_addr b) (k + 1)
     else Some ODP_SEGMENT_INVALID) /\
  let S := h_segsize b in let hr := headroom p in let len := frame_len p in
  let lo := Z.max hr (k * S) in let hi := Z.min (hr + len) ((k + 1) * S) in
  if ((k + 1) * S <=? hr) || (hr + len <? k * S)
  then odp_packet_seg_data b p (seg_handle a k) = Some None
  else exists l, odp_packet_seg_data b p (seg_handle a k) = Some (Some (baddr b lo, l)) /\
    if bool_decide (hr <= k * S \/ hr + len <= (k + 1) * S \/ (k = 0 /\ S <= len))
    then l = hi - lo else l > hi - lo.
Proof.
  intros Hp Hal Hk Ha. split; [by apply segment_next_spec; [apply Hp|..]|].
  intros S hr len lo hi. rewrite (seg_data_spec b p k a Hp Hal Hk Ha). fold S hr len.
  destruct (((k + 1) * S <=? hr) || (hr + len <? k * S)) eqn:E; [done|]. zbool.
  eexists. split; [done|]. cbv zeta. fold lo.
  pose proof (bo_segsize b (po_buf b p Hp)) as HS. fold S in HS. pose proof (po_hr b p Hp) as Hh. fold hr in Hh.
  unfold lo, hi. case_bool_decide as Hb.
  - destruct (decide (k = 0)) as [->|Hk0].
    + repeat if_case; lia.
    + assert (S <= k * S) by nia. repeat if_case; lia.
  - assert (hr > k * S /\ hr + len > (k + 1) * S /\ (k = 0 -> len < S)) as (H1 & H2 & H3) by lia.
    destruct (decide (k = 0)) as [->|Hk0].
    + repeat if_case; lia.
    + assert (S <= k * S) by nia. repeat if_case; lia.
Qed.

(** One segment of 1792 bytes and a second one, 1700 bytes of data after the
    default headroom: the first segment holds 1664 of them but reports 1700. *)
Definition two_segs : buffer_hdr :=
  Hdr 0 0 false false 0 ODP_EVENT_PACKET ODP_EVENT_PACKET 3584 0 0 0 0 2 1792
    [0x10040; 0x20040; 0; 0; 0; 0] 0.
Definition pkt_1700 : packet_hdr := set_tailroom 1756 (set_frame_len 1700 (cache_pkt_hdr 128)).

Lemma two_segs_ok : pkt_ok two_segs pkt_1700 /\ seg_aligned two_segs.
Proof.
  split; [split; [split|..]|]; simpl; unfold ODP_BUFFER_MAX_SEG; try lia; try done.
  - intros i a Hi Ha. apply zget_bound in Ha as Hb. change (0 <= i < 6) in Hb. simpl in Hi.
    assert (i = 0 \/ i = 1) as [->| ->] by lia; vm_compute in Ha; simplify_eq; lia.
  - intros i j a a' Hij Ha Ha'. apply zget_bound in Ha as Hb. change (0 <= i < 6) in Hb. simpl in Hij.
    assert (i = 0 /\ j = 1) as [-> ->] by lia. vm_compute in Ha, Ha'. simplify_eq. simpl. lia.
  - intros k a Ha Hk. simpl in Hk.
    assert (k = 0 \/ k = 1) as [->| ->] by lia; vm_compute in Ha; simplify_eq; done.
Qed.

Lemma packet_segments_witness :
  odp_packet_next_seg two_segs (seg_handle 0x10040 0) = Some 0x20041 /\
  exists l, odp_packet_seg_data two_segs pkt_1700 (seg_handle 0x10040 0)
            = Some (Some (baddr two_segs 128, l)) /\ l > 1792 - 128.
Proof.
  destruct two_segs_ok as [Hp Hal].
  destruct (packet_segments two_segs pkt_1700 0 0x10040 Hp Hal) as [Hn Hd];
    [vm_compute; intuition congruence|reflexivity|].
  split; [exact Hn|exact Hd].
Defined.

(** [odp_packet_tail] of a packet that fills all six segments reads the
    segment address array one entry beyond its end. *)
Theorem packet_tail_of_full_packet (b : buffer_hdr) (p : packet_hdr) :
  pkt_ok b p -> tailroom p = 0 -> h_segcount b = ODP_BUFFER_MAX_SEG -> odp_packet_tail b p = None.
Proof.
  intros Hp Ht Hc. destruct (pkt_u32 b p Hp) as (H1 & H2 & _ & H4 & _). pose proof (po_buf b p Hp) as Hb.
  pose proof (bo_segsize b Hb) as HS. pose proof (po_sum b p Hp) as Hsum. rewrite (bo_size b Hb), Hc in Hsum.
  unfold odp_packet_tail, packet_map. rewrite gtb_false by lia. rewrite u32_small by done.
  unfold buffer_map. destruct (h_segsize b =? 0) eqn:E; zbool; [lia|].
  replace (headroom p + frame_len p) with (ODP_BUFFER_MAX_SEG * h_segsize b) by lia.
  unfold ODP_BUFFER_MAX_SEG in *. destruct (6 * h_segsize b <? h_segsize b) eqn:E1; zbool; [lia|].
  rewrite Z.div_mul by lia. assert (zget (h_addr b) 6 = None) as ->; [|done].
  rewrite zget_nonneg by lia. apply lookup_ge_None. pose proof (bo_addr b Hb) as Hl.
  unfold zlen, ODP_BUFFER_MAX_SEG in Hl. lia.
Qed.

Definition six_segs : buffer_hdr :=
  Hdr 0 0 false false 0 ODP_EVENT_PACKET ODP_EVENT_PACKET 600 0 0 0 0 6 100
    [1000; 2000; 3000; 4000; 5000; 6000] 0.

Lemma six_segs_ok : buf_ok six_segs.
Proof.
  split; simpl; unfold ODP_BUFFER_MAX_SEG; try lia; try done.
  - intros i a Hi Ha. apply zget_bound in Ha as Hb. change (0 <= i < 6) in Hb.
    assert (i = 0 \/ i = 1 \/ i = 2 \/ i = 3 \/ i = 4 \/ i = 5) as Hc by lia.
    repeat destruct Hc as [->|Hc]; [..|subst i]; vm_compute in Ha; simplify_eq; lia.
  - intros i j a a' Hij Ha Ha'. simpl in Hij.
    assert (forall k x, 0 <= k < 6 -> zget (h_addr six_segs) k = Some x -> x = 1000 * (k + 1)) as Hx.
    { intros k x Hk Hx. assert (k = 0 \/ k = 1 \/ k = 2 \/ k = 3 \/ k = 4 \/ k = 5) as Hc by lia.
      repeat destruct Hc as [->|Hc]; [..|subst k]; vm_compute in Hx; simplify_eq; lia. }
    apply zget_bound in Ha as Hb. change (0 <= i < 6) in Hb.
    apply Hx in Ha; [|lia]. apply Hx in Ha'; [|lia]. subst. simpl. lia.
Qed.

Lemma packet_tail_of_full_packet_witness :
  odp_packet_tail six_segs (set_frame_len 472 (cache_pkt_hdr 128)) = None.
Proof.
  apply (packet_tail_of_full_packet six_segs (set_frame_len 472 (cache_pkt_hdr 128)));
    [|reflexivity|reflexivity].
  split; [apply six_segs_ok|vm_compute; intuition congruence..].
Defined.

Lemma packet_window_ops_witness :
  pkt_ok two_segs (pull_head pkt_1700 1680) /\
  odp_packet_pull_head two_segs pkt_1700 1680 = Some (0x20040 + 16, pull_head pkt_1700 1680).
Proof.
  destruct two_segs_ok as [Hp _].
  destruct (packet_window_ops two_segs pkt_1700 1680 Hp ltac:(lia)) as (_ & _ & _ & _ & _ & H & _).
  destruct H as (Hok & _ & _ & _ & _ & Hptr); [vm_compute; congruence|].
  split; [exact Hok|]. exact (Hptr eq_refl).
Defined.

(** Memory where every byte of the six small segments is its offset mod 256. *)
Definition six_mem : mem :=
  insert_all ∅ (zip (baddrs six_segs 0 600) ((fun k => k `mod` 256) <$> seqZ 0 600)).
(** The head and the tail are pulled across segments: of 1700 bytes of which
    1664 are in the first segment, 1680 are removed at the head, and 1690 at the
    tail, where include/odp/api/packet.h allows 1663 and 35. *)
Theorem pull_across_segments :
  odp_packet_seg_len two_segs pkt_1700 = Some 1664 /\
  odp_packet_pull_head two_segs pkt_1700 1680 = Some (0x20040 + 16, pull_head pkt_1700 1680) /\
  odp_packet_pull_tail two_segs pkt_1700 1690 = Some (0x10040 + 138, pull_tail pkt_1700 1690).
Proof. split_and!; vm_compute; reflexivity. Qed.

Definition pkt_300 : packet_hdr := set_tailroom 172 (set_frame_len 300 (cache_pkt_hdr 128)).

Lemma packet_copydata_witness :
  odp_packet_copydata_out six_mem six_segs pkt_300 50 100 =
    Some (0, (fun k => k `mod` 256) <$> seqZ 178 100) /\
  exists m', odp_packet_copydata_in six_mem six_segs pkt_300 50 100 (replicate 100 7) = Some (0, m') /\
    odp_packet_copydata_out m' six_segs pkt_300 50 100 = Some (0, replicate 100 7).
Proof.
  destruct (packet_copydata six_mem six_segs pkt_300 ((fun k => k `mod` 256) <$> seqZ 128 300)
    (replicate 100 7) 50 100) as [Hout (m' & Hin & _ & Hback & _)];
    [split; [apply six_segs_ok|vm_compute; intuition congruence..]
    |vm_compute; reflexivity|lia|lia|lia|reflexivity|].
  split; [exact Hout|]. exists m'. split; [exact Hin|exact Hback].
Defined.

(** A packet allocated with length 0 does not have length 0: [packet_alloc]
    shortens the packet before it initialises the header, which sets the length
    back to the [len] of the pool ([odp_packet_alloc_multi] does it the other way
    round). *)
Theorem packet_alloc_zero (s s' : sys) (e : PoolCreate.pool_entry) (tid hdl pkt : Z) (parse : bool) :
  zget (s_tbl s) hdl = Some e -> packet_alloc s tid hdl 0 parse = Some (pkt, s') ->
  pkt <> ODP_PACKET_INVALID ->
  exists q, s_pkts s' !! pkt = Some q /\
    frame_len q = u32 (PoolCreate.buf_size (PoolCreate.e_params e)).
Proof.
  intros He H Hn. unfold packet_alloc in H. rewrite He in H. cbn [mbind option_bind] in H.
  if_case_in H; [by simplify_eq|]. rewrite Z.eqb_refl in H.
  destruct (buffer_alloc _ _ _) as [[b p]|]; [|done]. cbn [mbind option_bind] in H.
  destruct (with_pool s hdl p) as [s1|]; [|done]. cbn [mbind option_bind] in H.
  if_case_in H; [simplify_eq|].
  destruct (hdrs p !! b) as [h|]; [|done]. cbn [mbind option_bind] in H. simplify_eq.
  eexists. split; [apply lookup_insert_eq|]. unfold packet_init. by destruct (negb parse).
Qed.

(** A pool of four packets with [len] 200, and the memory of its blocks. *)
Definition demo_tbl : list PoolCreate.pool_entry :=
  match PoolCreate.odp_pool_create PoolCreate.abi64 PoolCreate.odp_pool_init_global None
          (PoolCreate.POOL_PACKET 4 200 0 0) (Some (7, 0x10000)) with
  | Some (_, tbl) => tbl
  | None => []
  end.
Definition demo_sys : sys :=
  Sys demo_tbl ∅ (insert_all ∅ ((fun a => (a, 0)) <$> seqZ 0x10000 9280)).

Lemma packet_alloc_zero_witness :
  exists s' q, packet_alloc demo_sys 0 0 0 false = Some (0x12580, s') /\
    s_pkts s' !! 0x12580 = Some q /\ frame_len q = 200.
Proof.
  assert ((fst <$> packet_alloc demo_sys 0 0 0 false) = Some 0x12580) as Hf by (vm_compute; reflexivity).
  assert ((PoolCreate.e_params <$> zget (s_tbl demo_sys) 0) = Some (PoolCreate.POOL_PACKET 4 200 0 0))
    as Hp by (vm_compute; reflexivity).
  apply fmap_Some in Hf as ([pkt s'] & Hrun & Hpkt). apply fmap_Some in Hp as (e & He & Hpar).
  simpl in Hpkt. subst pkt.
  destruct (packet_alloc_zero demo_sys s' e 0 0 0x12580 false He Hrun ltac:(done)) as (q & Hq & Hl).
  exists s', q. split; [exact Hrun|]. split; [exact Hq|]. rewrite Hl, <- Hpar. reflexivity.
Defined.

(** [odp_packet_copy] also copies headroom and tailroom from the source, but
    sizes the new buffer for the data only.  Copying a fresh 3000-byte packet
    works; after 2000 bytes have been pulled off its head, the data of the copy is
    placed beyond the single segment it has. *)
Theorem packet_copy_after_pull :
  (match odp_packet_alloc demo_sys 0 0 3000 with
   | Some (pkt, s) =>
       let moved := with_pkt s pkt (pull_head (pkt_at s pkt) 2000) in
       (fst <$> odp_packet_copy s 0 pkt 0, fst <$> odp_packet_copy moved 0 pkt 0)
   | None => (None, None)
   end) = (Some 0x126c0, None).
Proof. vm_compute. reflexivity. Qed.

(** [odp_packet_rem_data] adds [offset] and [len] in 32 bits, so a length that
    wraps passes the range check: removing [2^32 - 1] bytes at offset 1 of a
    100-byte packet succeeds and returns a packet of 101 bytes, while removing 60
    bytes at offset 50 is refused. *)
Theorem packet_rem_data_wraps :
  (match odp_packet_alloc demo_sys 0 0 100 with
   | Some (pkt, s) =>
       (r ← odp_packet_rem_data s 0 pkt 1 (2 ^ 32 - 1);
        Some (frame_len (pkt_at (snd r) (fst r))),
        r ← odp_packet_rem_data s 0 pkt 50 60; Some (fst r))
   | None => (None, None)
   end) = (Some 101, Some ODP_PACKET_INVALID).
Proof. vm_compute. reflexivity. Qed.

End Packet.
