(* ===== verification/Parse.v ===== *)
(** The packet parser of [odp_packet.c] (Ethernet, VLAN, SNAP, IPv4, IPv6 with
    extension headers, TCP, UDP) and the flag accessors of [odp_packet_flags.c].

    The parser reads memory from a pointer without looking at segment borders;
    a read of unmapped memory is [None]. *)

From S2P Require Import Prelude Pool PoolProofs PoolCreate Buffer Packet.

Open Scope Z_scope.
Open Scope c_scope.

Module Parse.
Import Pool Buffer Packet.

Definition ODPH_ETH_LEN_MAX : Z := 1514.
Definition ODPH_ETHTYPE_IPV4 : Z := 0x0800.
Definition ODPH_ETHTYPE_ARP : Z := 0x0806.
Definition ODPH_ETHTYPE_VLAN : Z := 0x8100.
Definition ODPH_ETHTYPE_VLAN_OUTER : Z := 0x88A8.
Definition ODPH_ETHTYPE_IPV6 : Z := 0x86dd.
Definition ODPH_IPV4HDR_IHL_MIN : Z := 5.
Definition ODPH_IPPROTO_HOPOPTS : Z := 0x00.
Definition ODPH_IPPROTO_ICMP : Z := 0x01.
Definition ODPH_IPPROTO_TCP : Z := 0x06.
Definition ODPH_IPPROTO_UDP : Z := 0x11.
Definition ODPH_IPPROTO_ROUTE : Z := 0x2B.
Definition ODPH_IPPROTO_FRAG : Z := 0x2C.
Definition ODPH_IPPROTO_AH : Z := 0x33.
Definition ODPH_IPPROTO_ESP : Z := 0x32.

(** [odp_be_to_cpu_16] of the two bytes at [a]. *)
Definition be16 (m : mem) (a : Z) : option Z :=
  hi ← m !! a; lo ← m !! (a + 1); Some (hi * 256 + lo).

(** The parser threads the header, the read pointer and the offset. *)
Record cursor := Cur { c_hdr : packet_hdr; c_ptr : Z; c_off : Z }.

(** [*offset += n; *parseptr += n] *)
Definition skip (n : Z) (c : cursor) : cursor := Cur (c_hdr c) (c_ptr c + n) (c_off c +u32 n).
Definition on_pkt (f : packet_hdr -> packet_hdr) (c : cursor) : cursor :=
  Cur (f (c_hdr c)) (c_ptr c) (c_off c).

Definition parse_ipv4 (m : mem) (c : cursor) : option (Z * cursor) :=
  ver_ihl ← m !! c_ptr c;
  let ver := Z.shiftr (ver_ihl & 0xf0) 4 in
  let ihl := ver_ihl & 0x0f in
  tot_len ← be16 m (c_ptr c + 2);
  let p := set_l3_len tot_len (c_hdr c) in
  if (ihl <? ODPH_IPV4HDR_IHL_MIN) || negb (ver =? 4) || (l3_len p >? frame_len p -u32 c_off c)
  then Some (0, on_pkt (fun _ => set_err E_ip_err p) c)
  else
    let hdr := c_ptr c in
    let p := if ihl >? ODPH_IPV4HDR_IHL_MIN then set_in F_ipopt true p else p in
    let c := skip (ihl * 4) (on_pkt (fun _ => p) c) in
    frag_offset ← be16 m (hdr + 6);
    let c := if negb ((frag_offset & 0x3fff) =? 0) then on_pkt (set_in F_ipfrag true) c else c in
    proto ← m !! (hdr + 9);
    Some (proto, c).

(** The loop over extension headers: the last [next_hdr] and the cursor.  The
    offset grows by at least 8 in each round. *)
Fixpoint ipv6_exts (fuel : nat) (m : mem) (c : cursor) : option (Z * cursor) :=
  match fuel with
  | O => None
  | S fuel =>
      next_hdr ← m !! c_ptr c;
      ext_len ← m !! (c_ptr c + 1);
      let c := skip (u16 (8 + ext_len * 8)) c in
      if ((next_hdr =? ODPH_IPPROTO_HOPOPTS) || (next_hdr =? ODPH_IPPROTO_ROUTE))
         && (c_off c <? frame_len (c_hdr c))
      then ipv6_exts fuel m c
      else Some (next_hdr, c)
  end.

Definition parse_ipv6 (m : mem) (c : cursor) : option (Z * cursor) :=
  payload_len ← be16 m (c_ptr c + 4);
  let p := set_l3_len payload_len (c_hdr c) in
  ver ← m !! c_ptr c;
  if negb (Z.shiftr ver 4 =? 6) || (l3_len p >? frame_len p -u32 c_off c)
  then Some (0, on_pkt (fun _ => set_err E_ip_err p) c)
  else
    next_hdr ← m !! (c_ptr c + 6);
    let c := skip 40 (on_pkt (fun _ => p) c) in
    if (next_hdr =? ODPH_IPPROTO_HOPOPTS) || (next_hdr =? ODPH_IPPROTO_ROUTE) then
      '(next, c) ← ipv6_exts (S (Z.to_nat (frame_len p))) m (on_pkt (set_in F_ipopt true) c);
      if c_off c >=? l3_offset (c_hdr c) +u32 payload_len
      then Some (0, on_pkt (set_err E_ip_err) c)
      else if next =? ODPH_IPPROTO_FRAG
      then Some (next, on_pkt (set_in F_ipfrag true) c)
      else Some (next, c)
    else if next_hdr =? ODPH_IPPROTO_FRAG
    then Some (next_hdr, on_pkt (fun p => set_in F_ipfrag true (set_in F_ipopt true p)) c)
    else Some (next_hdr, c).

(** [tcp->hl] is the high half of byte 12. *)
Definition parse_tcp (m : mem) (c : cursor) : option cursor :=
  b ← m !! (c_ptr c + 12);
  let hl := Z.shiftr b 4 in
  let p := c_hdr c in
  let p := if hl <? 5 then set_err E_tcp_err p
           else if hl * 4 >? 20 then set_in F_tcpopt true p else p in
  let p := set_l4_len (l3_len p +u32 l3_offset p -u32 l4_offset p) p in
  Some (skip (hl * 4) (on_pkt (fun _ => p) c)).

Definition parse_udp (m : mem) (c : cursor) : option cursor :=
  udplen ← be16 m (c_ptr c + 4);
  let p := c_hdr c in
  let p := if (udplen <? 8) || (udplen >? (l3_len p +u32 l3_offset p -u32 l4_offset p))
           then set_err E_udp_err p else p in
  let p := set_l4_len udplen p in
  Some (skip 8 (on_pkt (fun _ => p) c)).

Definition packet_parse_l2 (p : packet_hdr) : packet_hdr :=
  let p := set_in F_eth true p in
  let p := if frame_len p >? ODPH_ETH_LEN_MAX then set_in F_jumbo true p else p in
  set_in F_parsed_l2 true (set_in F_l2 true p).

(** VLAN tags, outer and inner: the ether type that follows, and the cursor. *)
Definition parse_outer_tag (m : mem) (c : cursor) (ethtype : Z) : option (Z * cursor) :=
  if ethtype =? ODPH_ETHTYPE_VLAN_OUTER then
    tci ← be16 m (c_ptr c + 2);
    let c := on_pkt (fun p => set_vlan_s_tag (Z.lor (Z.shiftl ethtype 16) tci)
                                (set_in F_vlan true (set_in F_vlan_qinq true p))) c in
    let c := skip 4 c in
    e ← be16 m (c_ptr c);
    Some (e, c)
  else Some (ethtype, c).

Definition parse_inner_tag (m : mem) (c : cursor) (ethtype : Z) : option (Z * cursor) :=
  if ethtype =? ODPH_ETHTYPE_VLAN then
    tci ← be16 m (c_ptr c + 2);
    let c := on_pkt (fun p => set_vlan_c_tag (Z.lor (Z.shiftl ethtype 16) tci)
                                (set_in F_vlan true p)) c in
    let c := skip 4 c in
    e ← be16 m (c_ptr c);
    Some (e, c)
  else Some (ethtype, c).

Definition parse_vlan (m : mem) (c : cursor) (ethtype : Z) : option (Z * cursor) :=
  '(ethtype, c) ← parse_outer_tag m c ethtype;
  parse_inner_tag m c ethtype.

(** SNAP: [inl] when the length is wrong and parsing stops. *)
Definition parse_snap (m : mem) (c : cursor) (ethtype : Z) : option (packet_hdr + Z * cursor) :=
  if ethtype <? ODPH_ETH_LEN_MAX then
    let c := on_pkt (set_in F_snap true) c in
    if ethtype >? frame_len (c_hdr c) -u32 c_off c
    then Some (inl (set_err E_snap_len (c_hdr c)))
    else
      let c := skip 8 c in
      e ← be16 m (c_ptr c);
      Some (inr (e, c))
  else Some (inr (ethtype, c)).

(** The [switch] on the ether type. *)
Definition parse_l3 (m : mem) (c : cursor) (ethtype : Z) : option (Z * cursor) :=
  let c := on_pkt (fun p => set_l3_protocol ethtype (set_l3_offset (c_off c) (set_in F_l3 true p))) c in
  if ethtype =? ODPH_ETHTYPE_IPV4 then parse_ipv4 m (on_pkt (set_in F_ipv4 true) c)
  else if ethtype =? ODPH_ETHTYPE_IPV6 then parse_ipv6 m (on_pkt (set_in F_ipv6 true) c)
  else if ethtype =? ODPH_ETHTYPE_ARP then Some (255, on_pkt (set_in F_arp true) c)
  else Some (255, on_pkt (fun p => set_l3_offset ODP_PACKET_OFFSET_INVALID (set_in F_l3 false p)) c).

(** The [switch] on the IP protocol. *)
Definition parse_l4 (m : mem) (c : cursor) (ip_proto : Z) : option cursor :=
  let c := on_pkt (fun p => set_l4_protocol ip_proto (set_l4_offset (c_off c) (set_in F_l4 true p))) c in
  if ip_proto =? ODPH_IPPROTO_ICMP then Some (on_pkt (set_in F_icmp true) c)
  else if ip_proto =? ODPH_IPPROTO_TCP then parse_tcp m (on_pkt (set_in F_tcp true) c)
  else if ip_proto =? ODPH_IPPROTO_UDP then parse_udp m (on_pkt (set_in F_udp true) c)
  else if (ip_proto =? ODPH_IPPROTO_AH) || (ip_proto =? ODPH_IPPROTO_ESP)
  then Some (on_pkt (set_in F_ipsec true) c)
  else Some (on_pkt (fun p => set_l4_offset ODP_PACKET_OFFSET_INVALID (set_in F_l4 false p)) c).

(** [_odp_parse_common] on the data at [eth]: the header, and whether an error
    was found. *)
Definition odp_parse_common (m : mem) (p : packet_hdr) (eth : Z) : option (bool * packet_hdr) :=
  let p := if negb (get_in F_parsed_l2 p) then packet_parse_l2 p else p in
  let finish p := let p := set_in F_parsed_all true p in (negb (error_flags p =? 0), p) in
  let c := Cur p (eth + 12) 14 in
  ethtype ← be16 m (c_ptr c);
  '(ethtype, c) ← parse_vlan m c ethtype;
  r ← parse_snap m c ethtype;
  match r with
  | inl p => Some (finish p)
  | inr (ethtype, c) =>
      let c := Cur (c_hdr c) (c_ptr c + 2) (c_off c) in
      '(ip_proto, c) ← parse_l3 m c ethtype;
      c ← parse_l4 m c ip_proto;
      Some (finish (set_payload_offset (c_off c) (c_hdr c)))
  end.

(** [packet_parse_full]: from the start of the data. *)
Definition packet_parse_full (m : mem) (b : buffer_hdr) (p : packet_hdr)
    : option (bool * packet_hdr) :=
  '(eth, _) ← packet_map b p 0 0;
  odp_parse_common m p eth.

(** * Accessors that parse lazily *)

Definition lazily (m : mem) (b : buffer_hdr) (p : packet_hdr) : option packet_hdr :=
  if negb (get_in F_parsed_all p) then snd <$> packet_parse_full m b p else Some p.

(** [retflag] and [setflag] *)
Definition retflag (bit : Z) (m : mem) (b : buffer_hdr) (p : packet_hdr)
    : option (bool * packet_hdr) :=
  p ← lazily m b p; Some (get_in bit p, p).
Definition setflag (bit : Z) (v : Z) (m : mem) (b : buffer_hdr) (p : packet_hdr)
    : option packet_hdr :=
  p ← lazily m b p; Some (set_in bit (Z.odd v) p).

Definition odp_packet_has_error (m : mem) (b : buffer_hdr) (p : packet_hdr)
    : option (bool * packet_hdr) :=
  p ← lazily m b p; Some (negb (error_flags p =? 0), p).

(** The flags of layer 2 are read without parsing. *)
Definition odp_packet_has_l2 (p : packet_hdr) : bool := get_in F_l2 p.
Definition odp_packet_has_eth (p : packet_hdr) : bool := get_in F_eth p.
Definition odp_packet_has_jumbo (p : packet_hdr) : bool := get_in F_jumbo p.
Definition odp_packet_has_flow_hash (p : packet_hdr) : bool := has_hash p.
Definition odp_packet_has_flow_hash_clr (p : packet_hdr) : packet_hdr := set_has_hash false p.
Definition odp_packet_flow_hash_set (p : packet_hdr) (h : Z) : packet_hdr :=
  set_has_hash true (set_flow_hash h p).

Definition odp_packet_has_l3 := retflag F_l3.
Definition odp_packet_has_l4 := retflag F_l4.
Definition odp_packet_has_vlan := retflag F_vlan.
Definition odp_packet_has_vlan_qinq := retflag F_vlan_qinq.
Definition odp_packet_has_arp := retflag F_arp.
Definition odp_packet_has_ipv4 := retflag F_ipv4.
Definition odp_packet_has_ipv6 := retflag F_ipv6.
Definition odp_packet_has_ipfrag := retflag F_ipfrag.
Definition odp_packet_has_ipopt := retflag F_ipopt.
Definition odp_packet_has_ipsec := retflag F_ipsec.
Definition odp_packet_has_udp := retflag F_udp.
Definition odp_packet_has_tcp := retflag F_tcp.
Definition odp_packet_has_sctp := retflag F_sctp.
Definition odp_packet_has_icmp := retflag F_icmp.

Definition odp_packet_has_l2_set := setflag F_l2.
Definition odp_packet_has_l3_set := setflag F_l3.
Definition odp_packet_has_l4_set := setflag F_l4.
Definition odp_packet_has_eth_set := setflag F_eth.
Definition odp_packet_has_jumbo_set := setflag F_jumbo.
Definition odp_packet_has_vlan_set := setflag F_vlan.
Definition odp_packet_has_vlan_qinq_set := setflag F_vlan_qinq.
Definition odp_packet_has_arp_set := setflag F_arp.
Definition odp_packet_has_ipv4_set := setflag F_ipv4.
Definition odp_packet_has_ipv6_set := setflag F_ipv6.
Definition odp_packet_has_ipfrag_set := setflag F_ipfrag.
Definition odp_packet_has_ipopt_set := setflag F_ipopt.
Definition odp_packet_has_ipsec_set := setflag F_ipsec.
Definition odp_packet_has_udp_set := setflag F_udp.
Definition odp_packet_has_tcp_set := setflag F_tcp.
Definition odp_packet_has_sctp_set := setflag F_sctp.
Definition odp_packet_has_icmp_set := setflag F_icmp.

Definition odp_packet_l2_offset_set (p : packet_hdr) (offset : Z) : Z * packet_hdr :=
  if offset >=? frame_len p then (-1, p) else (0, set_l2_offset offset p).

Definition odp_packet_l3_offset (m : mem) (b : buffer_hdr) (p : packet_hdr)
    : option (Z * packet_hdr) :=
  p ← lazily m b p; Some (l3_offset p, p).
Definition odp_packet_l3_offset_set (m : mem) (b : buffer_hdr) (p : packet_hdr) (offset : Z)
    : option (Z * packet_hdr) :=
  if offset >=? frame_len p then Some (-1, p)
  else p ← lazily m b p; Some (0, set_l3_offset offset p).
Definition odp_packet_l4_offset (m : mem) (b : buffer_hdr) (p : packet_hdr)
    : option (Z * packet_hdr) :=
  p ← lazily m b p; Some (l4_offset p, p).
Definition odp_packet_l4_offset_set (m : mem) (b : buffer_hdr) (p : packet_hdr) (offset : Z)
    : option (Z * packet_hdr) :=
  if offset >=? frame_len p then Some (-1, p)
  else p ← lazily m b p; Some (0, set_l4_offset offset p).

Definition odp_packet_l3_ptr (m : mem) (b : buffer_hdr) (p : packet_hdr)
    : option (Z * Z * packet_hdr) :=
  p ← lazily m b p; '(a, len) ← packet_map b p (l3_offset p) 0; Some (a, len, p).
Definition odp_packet_l4_ptr (m : mem) (b : buffer_hdr) (p : packet_hdr)
    : option (Z * Z * packet_hdr) :=
  p ← lazily m b p; '(a, len) ← packet_map b p (l4_offset p) 0; Some (a, len, p).

(** * Lemmas *)

(** A frame as the header is before it is parsed. *)
Definition unparsed (p : packet_hdr) : Prop :=
  input_flags p = 0 /\ error_flags p = 0 /\ is_u32 (frame_len p).

Lemma ver_ihl_split ihl : 0 <= ihl < 16 ->
  Z.shiftr ((64 + ihl) & 0xf0) 4 = 4 /\ ((64 + ihl) & 0x0f) = ihl.
Proof.
  intros H. assert (ihl = 0 \/ ihl = 1 \/ ihl = 2 \/ ihl = 3 \/ ihl = 4 \/ ihl = 5 \/ ihl = 6 \/ ihl = 7 \/
    ihl = 8 \/ ihl = 9 \/ ihl = 10 \/ ihl = 11 \/ ihl = 12 \/ ihl = 13 \/ ihl = 14 \/ ihl = 15)
    as Hc by lia.
  by repeat destruct Hc as [->|Hc]; [..|subst ihl].
Qed.

(** Plain ether types are left to the layer-3 parser. *)
Lemma parse_common_l3 m p eth ethtype :
  be16 m (eth + 12) = Some ethtype -> ODPH_ETH_LEN_MAX <= ethtype ->
  ethtype <> ODPH_ETHTYPE_VLAN -> ethtype <> ODPH_ETHTYPE_VLAN_OUTER ->
  odp_parse_common m p eth =
    ('(ip_proto, c) ← parse_l3 m
        (Cur (if negb (get_in F_parsed_l2 p) then packet_parse_l2 p else p) (eth + 14) 14) ethtype;
     c ← parse_l4 m c ip_proto;
     let q := set_in F_parsed_all true (set_payload_offset (c_off c) (c_hdr c)) in
     Some (negb (error_flags q =? 0), q)).
Proof.
  intros He Hl H1 H2. unfold odp_parse_common. set (p1 := if negb _ then _ else p). simpl c_ptr. rewrite He.
  cbn [mbind option_bind]. unfold parse_vlan, parse_outer_tag, parse_inner_tag, parse_snap.
  rewrite (proj2 (Z.eqb_neq _ _) H2).
  cbn [mbind option_bind]. rewrite (proj2 (Z.eqb_neq _ _) H1). cbn [mbind option_bind].
  rewrite (proj2 (Z.ltb_ge _ _) Hl). cbn [mbind option_bind].
  cbn [c_hdr c_ptr c_off]. replace (eth + 12 + 2) with (eth + 14) by lia. done.
Qed.

(** The flags of a fresh header after layer 2. *)
Lemma l2_flags p : unparsed p ->
  let q := if negb (get_in F_parsed_l2 p) then packet_parse_l2 p else p in
  (input_flags q = 0x25 \/ input_flags q = 0x65) /\ error_flags q = 0 /\ frame_len q = frame_len p.
Proof.
  intros (Hi & He & _) q. unfold q, get_in. rewrite Hi. simpl negb. cbv iota. unfold packet_parse_l2.
  cbv zeta. set (j := frame_len _ >? _). destruct j; simpl; rewrite Hi, He; auto.
Qed.

Lemma ihl_arith ihl tot_len :
  5 <= ihl < 16 -> ihl * 4 + 8 <= tot_len < 2 ^ 16 ->
  (14 +u32 ihl * 4) = 14 + ihl * 4 /\
  (tot_len +u32 14 -u32 (14 + ihl * 4)) = tot_len - ihl * 4 /\
  (14 + ihl * 4 +u32 8) = 22 + ihl * 4.
Proof. intros. split_and!; cint. Qed.

(** C9: IPv4 over untagged Ethernet II carrying UDP.  For every header length,
    total length with room for the UDP header, fragment field, UDP length and
    frame that holds the datagram, the parser finds the layers where they are:
    layer 3 at 14, layer 4 after the IP header, the payload 8 bytes later, and
    marks options and fragments.  It reports an error, the UDP error and no other,
    exactly when the UDP length is less than 8 or exceeds what the datagram has
    behind its IP header; so whole datagrams are accepted, while a first
    fragment of a larger datagram is not ([first_fragment_flagged]). *)
Theorem parse_ipv4_udp (m : mem) (p : packet_hdr) (eth ihl tot_len frag udplen : Z) :
  unparsed p -> 5 <= ihl < 16 -> ihl * 4 + 8 <= tot_len < 2 ^ 16 ->
  14 + tot_len <= frame_len p ->
  be16 m (eth + 12) = Some ODPH_ETHTYPE_IPV4 -> m !! (eth + 14) = Some (64 + ihl) ->
  be16 m (eth + 16) = Some tot_len -> be16 m (eth + 20) = Some frag ->
  m !! (eth + 23) = Some ODPH_IPPROTO_UDP -> be16 m (eth + 14 + ihl * 4 + 4) = Some udplen ->
  exists err q, odp_parse_common m p eth = Some (err, q) /\
    (err = true <-> udplen < 8 \/ tot_len - ihl * 4 < udplen) /\
    error_flags q = (if err then 2 ^ E_udp_err else 0) /\
    l3_offset q = 14 /\ l4_offset q = 14 + ihl * 4 /\ payload_offset q = 22 + ihl * 4 /\
    l3_len q = tot_len /\ l4_len q = udplen /\
    l3_protocol q = ODPH_ETHTYPE_IPV4 /\ l4_protocol q = ODPH_IPPROTO_UDP /\
    get_in F_ipv4 q = true /\ get_in F_udp q = true /\ get_in F_l3 q = true /\ get_in F_l4 q = true /\
    get_in F_parsed_all q = true /\ get_in F_tcp q = false /\ get_in F_ipv6 q = false /\
    get_in F_ipopt q = (ihl >? 5) /\ get_in F_ipfrag q = negb ((frag & 0x3fff) =? 0).
Proof.
  intros Hp Hihl Htot Hfl He Hv Ht Hf Hpr Hu. pose proof Hp as (_ & _ & Hfu).
  rewrite (parse_common_l3 m p eth ODPH_ETHTYPE_IPV4) by done.
  destruct (l2_flags p Hp) as (Hin & Herr & Hlen).
  set (q := if negb _ then _ else p) in *. clearbody q. rewrite <- Hlen in Hfl, Hfu. clear Hlen Hp p.
  destruct (ver_ihl_split ihl ltac:(lia)) as [Hver Hi].
  destruct (ihl_arith ihl tot_len Hihl Htot) as (A1 & A2 & A3).
  unfold is_u32 in Hfu.
  unfold parse_l3, parse_ipv4. cbn [c_ptr c_off c_hdr on_pkt Z.eqb]. rewrite Z.eqb_refl.
  cbn [c_ptr c_off c_hdr on_pkt]. rewrite Hv. cbn [mbind option_bind].
  replace (eth + 14 + 2) with (eth + 16) by lia. rewrite Ht. cbn [mbind option_bind].
  rewrite Hver, Hi. cbn [negb orb Z.eqb Pos.eqb].
  destruct (ihl <? ODPH_IPV4HDR_IHL_MIN) eqn:E1; unfold ODPH_IPV4HDR_IHL_MIN in *; zbool; [lia|].
  cbn [orb]. simpl l3_len. simpl frame_len. rewrite (u32_small (frame_len q - 14)) by (unfold is_u32; lia).
  rewrite gtb_false by lia. cbv iota zeta.
  replace (eth + 14 + 6) with (eth + 20) by lia. rewrite Hf. cbn [mbind option_bind].
  replace (eth + 14 + 9) with (eth + 23) by lia. rewrite Hpr. cbn [mbind option_bind].
  unfold parse_l4, skip. cbn [Z.eqb Pos.eqb ODPH_IPPROTO_UDP ODPH_IPPROTO_ICMP ODPH_IPPROTO_TCP].
  exists ((udplen <? 8) || (udplen >? tot_len - ihl * 4)).
  unfold parse_udp. destruct (ihl >? 5) eqn:Eo, (negb ((frag & 0x3fff) =? 0)) eqn:Efr;
    cbn [c_ptr c_off c_hdr on_pkt]; rewrite Hu; cbn [mbind option_bind]; simpl; rewrite !A1, A2, A3;
    (assert (((udplen <? 8) || (udplen >? tot_len - ihl * 4)) = true <->
             udplen < 8 \/ tot_len - ihl * 4 < udplen) as Herrs
       by (rewrite orb_true_iff, Z.ltb_lt, Z.gtb_lt; lia);
     destruct ((udplen <? 8) || _); simpl; rewrite Herr;
     eexists; (split; [reflexivity|]); (split; [exact Herrs|]); unfold get_in; simpl; rewrite ?Herr;
     destruct Hin as [-> | ->]; by split_and!).
Qed.

(** A frame in memory, from its bytes. *)
Definition frame_mem (eth : Z) (l : list Z) : mem := insert_all ∅ (zip (seqZ eth (zlen l)) l).
Definition ipv4_frame : list Z :=
  replicate 12 0 ++ [8; 0; 0x46; 0; 0; 40; 0; 0; 0x20; 0; 64; 17; 0; 0; 1; 2; 3; 4; 5; 6; 7; 8; 0; 0; 0; 0;
                     0; 7; 0; 9; 0; 16; 0; 0] ++ replicate 8 0.

Lemma parse_ipv4_udp_witness :
  exists q, odp_parse_common (frame_mem 1000 ipv4_frame) (set_frame_len 60 raw_pkt) 1000 = Some (false, q) /\
    l3_offset q = 14 /\ l4_offset q = 38 /\ payload_offset q = 46 /\ get_in F_ipopt q = true /\
    get_in F_ipfrag q = true.
Proof.
  destruct (parse_ipv4_udp (frame_mem 1000 ipv4_frame) (set_frame_len 60 raw_pkt) 1000 6 40 0x2000 16)
    as (err & q & Hq & Herr & _ & H3 & H4 & Hpl & H);
    [repeat split; vm_compute; congruence|lia|lia|vm_compute; congruence|reflexivity..|].
  exists q. split; [destruct err; [lia|exact Hq]|]. split; [exact H3|]. split; [exact H4|]. split; [exact Hpl|].
  split; apply H.
Defined.

(** The first fragment of a larger datagram: its UDP header has the length of
    the whole, which the fragment does not hold. *)
Definition fragment_frame : list Z :=
  replicate 12 0 ++ [8; 0; 0x45; 0; 0; 36; 0; 0; 0x20; 0; 64; 17; 0; 0; 1; 2; 3; 4; 5; 6; 7; 8;
                     0; 7; 0; 9; 0; 24; 0; 0] ++ replicate 8 0.

Theorem first_fragment_flagged :
  exists q, odp_parse_common (frame_mem 1000 fragment_frame) (set_frame_len 50 raw_pkt) 1000
    = Some (true, q) /\ get_in F_ipfrag q = true /\ error_flags q = 2 ^ E_udp_err.
Proof. eexists. split; [vm_compute; reflexivity|]. split; vm_compute; reflexivity. Qed.

(** every IPv6 datagram carrying UDP without extension headers and at least 40
    bytes long is reported as erroneous: the parser takes the payload length,
    which does not count the 40-byte header, for the length of layer 3, and finds
    the UDP length too large. *)
Theorem parse_ipv6_udp_rejected (m : mem) (p : packet_hdr) (eth ver plen : Z) :
  unparsed p -> 0x60 <= ver < 0x70 -> 40 <= plen < 2 ^ 16 -> frame_len p = 54 + plen ->
  be16 m (eth + 12) = Some ODPH_ETHTYPE_IPV6 -> m !! (eth + 14) = Some ver ->
  be16 m (eth + 18) = Some plen -> m !! (eth + 20) = Some ODPH_IPPROTO_UDP ->
  be16 m (eth + 58) = Some plen ->
  exists q, odp_parse_common m p eth = Some (true, q) /\ Z.testbit (error_flags q) E_udp_err = true /\
    l4_offset q = 54 /\ l4_len q = plen.
Proof.
  intros Hp Hver Hpl Hfl He Hv Hl Hn Hu. pose proof Hp as (_ & _ & Hfu).
  rewrite (parse_common_l3 m p eth ODPH_ETHTYPE_IPV6) by done.
  destruct (l2_flags p Hp) as (Hin & Herr & Hlen).
  set (q := if negb _ then _ else p) in *. clearbody q. rewrite <- Hlen in Hfl, Hfu. clear Hlen Hp p.
  unfold is_u32 in Hfu.
  unfold parse_l3, parse_ipv6. cbn [c_ptr c_off c_hdr on_pkt].
  change (ODPH_ETHTYPE_IPV6 =? ODPH_ETHTYPE_IPV4) with false. rewrite Z.eqb_refl.
  cbn [c_ptr c_off c_hdr on_pkt]. replace (eth + 14 + 4) with (eth + 18) by lia. rewrite Hl.
  cbn [mbind option_bind]. rewrite Hv. cbn [mbind option_bind].
  assert (Z.shiftr ver 4 = 6) as -> by (rewrite Z.shiftr_div_pow2 by lia; cint).
  cbn [negb orb Z.eqb Pos.eqb]. simpl l3_len. simpl frame_len.
  rewrite (u32_small (frame_len q - 14)) by (unfold is_u32; lia). rewrite gtb_false by lia.
  replace (eth + 14 + 6) with (eth + 20) by lia. rewrite Hn. cbn [mbind option_bind].
  change (ODPH_IPPROTO_UDP =? ODPH_IPPROTO_HOPOPTS) with false.
  change (ODPH_IPPROTO_UDP =? ODPH_IPPROTO_ROUTE) with false.
  change (ODPH_IPPROTO_UDP =? ODPH_IPPROTO_FRAG) with false. cbn [orb mbind option_bind].
  unfold parse_l4, skip. cbn [Z.eqb Pos.eqb ODPH_IPPROTO_UDP ODPH_IPPROTO_ICMP ODPH_IPPROTO_TCP].
  unfold parse_udp. cbn [c_ptr c_off c_hdr on_pkt].
  replace (eth + 14 + 40 + 4) with (eth + 58) by lia. rewrite Hu. cbn [mbind option_bind]. simpl.
  change (14 +u32 40) with 54. assert ((plen +u32 14 -u32 54) = plen - 40) as -> by cint.
  rewrite gtb_true by lia. rewrite orb_true_r. simpl. rewrite Herr.
  eexists. split; [reflexivity|]. split_and!; simpl; by rewrite ?Herr.
Qed.

Definition ipv6_frame : list Z :=
  replicate 12 0 ++ [0x86; 0xdd; 0x60; 0; 0; 0; 0; 40; 17; 64] ++ replicate 32 1 ++
  [0; 7; 0; 9; 0; 40; 0; 0] ++ replicate 32 0.

Lemma parse_ipv6_udp_rejected_witness :
  exists q, odp_parse_common (frame_mem 1000 ipv6_frame) (set_frame_len 94 raw_pkt) 1000 = Some (true, q) /\
    Z.testbit (error_flags q) E_udp_err = true.
Proof.
  destruct (parse_ipv6_udp_rejected (frame_mem 1000 ipv6_frame) (set_frame_len 94 raw_pkt) 1000 0x60 40)
    as (q & Hq & Hb & _); [repeat split; vm_compute; congruence|lia|lia|reflexivity..|].
  exists q. split; [exact Hq|exact Hb].
Defined.

(** * The parser returns *)

(** [n] readable bytes from [a] on. *)
Definition readable (m : mem) (a n : Z) : Prop :=
  forall i, 0 <= i < n -> exists x, m !! (a + i) = Some x /\ 0 <= x < 256.

Lemma readable_byte m a n x : readable m a n -> a <= x < a + n -> exists v, m !! x = Some v /\ 0 <= v < 256.
Proof. intros H Hx. destruct (H (x - a)) as (v & Hv & ?); [lia|]. exists v. by replace (a + (x - a)) with x in Hv by lia. Qed.

Lemma readable_be16 m a n x : readable m a n -> a <= x -> x + 1 < a + n ->
  exists v, be16 m x = Some v /\ 0 <= v < 2 ^ 16.
Proof.
  intros H H1 H2. destruct (readable_byte m a n x H) as (v & Hv & ?); [lia|].
  destruct (readable_byte m a n (x + 1) H) as (w & Hw & ?); [lia|].
  exists (v * 256 + w). unfold be16. rewrite Hv. simpl. rewrite Hw. simpl. split; [done|lia].
Qed.

(** The cursor of a frame at [eth]: pointer and offset move together. *)
Definition synced (eth d : Z) (c : cursor) : Prop := c_ptr c = eth + c_off c - d /\ 0 <= c_off c.

Lemma ipv6_exts_total m eth fuel c :
  0 <= frame_len (c_hdr c) < 2 ^ 31 -> readable m eth (frame_len (c_hdr c) + 2200) ->
  synced eth 0 c -> c_off c < frame_len (c_hdr c) + 80 ->
  (Z.to_nat (frame_len (c_hdr c) - c_off c) < fuel * 8)%nat ->
  exists n c', ipv6_exts fuel m c = Some (n, c') /\ synced eth 0 c' /\ c_hdr c' = c_hdr c /\
    c_off c <= c_off c' < frame_len (c_hdr c) + 80 + 2048 /\ 0 <= n < 256.
Proof.
  revert c. induction fuel as [|fuel IH]; intros c Hf Hr [Hs H0] Hoff Hfuel; [lia|]. cbn [ipv6_exts].
  destruct (readable_byte _ _ _ (c_ptr c) Hr) as (n & Hn & Hnb); [lia|].
  destruct (readable_byte _ _ _ (c_ptr c + 1) Hr) as (e & He & Heb); [lia|].
  rewrite Hn, He. cbn [mbind option_bind].
  assert (u16 (8 + e * 8) = 8 + e * 8) as Ee by cint.
  assert (c_off c +u32 (8 + e * 8) = c_off c + (8 + e * 8)) as Eo by (apply u32_small; unfold is_u32; lia).
  set (c1 := skip _ c). assert (synced eth 0 c1) as Hs1.
  { unfold c1, skip, synced. simpl. rewrite Ee, Eo. lia. }
  assert (c_off c1 = c_off c + (8 + e * 8)) as Ec1 by (unfold c1, skip; simpl; by rewrite Ee).
  assert (c_hdr c1 = c_hdr c) as Eh1 by done.
  if_case.
  - rewrite Eh1 in *. destruct (IH c1) as (n' & c' & Hrun & Hs' & Hh' & Ho' & Hb');
      rewrite ?Eh1; try done; try lia.
    exists n', c'. rewrite Hh', Eh1 in *. split_and!; try done; lia.
  - exists n, c1. split_and!; try done; lia.
Qed.

Lemma parsed_set p : get_in F_parsed_all (set_in F_parsed_all true p) = true.
Proof. apply (Z.setbit_eq (input_flags p) F_parsed_all). done. Qed.

Lemma frame_mem_lookup eth l i x :
  l !! i = Some x -> frame_mem eth l !! (eth + Z.of_nat i) = Some x.
Proof.
  intros Hi. apply lookup_lt_Some in Hi as Hlt.
  assert (bytes (frame_mem eth l) (seqZ eth (zlen l)) = Some l) as Hb.
  { apply insert_all_bytes; [apply NoDup_seqZ|]. rewrite length_seqZ. unfold zlen. lia. }
  apply mapM_Some_1 in Hb.
  assert (seqZ eth (zlen l) !! i = Some (eth + Z.of_nat i)) as Hs by (apply lookup_seqZ_lt; unfold zlen; lia).
  by destruct (Forall2_lookup_lr _ _ _ _ _ _ Hb Hs Hi).
Qed.

(** A parsed header is not parsed again, and a flag reads back as it was set. *)
Lemma parse_common_done m p eth err q :
  odp_parse_common m p eth = Some (err, q) -> get_in F_parsed_all q = true.
Proof.
  unfold odp_parse_common. intros H. repeat match type of H with
  | mbind _ ?x = Some _ => destruct x as [?|] eqn:?; [|done]; cbn [mbind option_bind] in H
  | context [match ?x with _ => _ end] => destruct x; cbn [mbind option_bind] in H
  | None = Some _ => done
  | Some _ = Some _ => injection H as <- <-; apply parsed_set
  end.
Qed.

Lemma lazily_parsed m b p q : lazily m b p = Some q -> get_in F_parsed_all q = true.
Proof.
  unfold lazily. destruct (get_in F_parsed_all p) eqn:E; simpl; [by intros [= <-]|].
  intros H. apply fmap_Some in H as ([err q'] & H & ->). unfold packet_parse_full in H.
  destruct (packet_map b p 0 0) as [[eth ?]|]; [|done]. by eapply parse_common_done.
Qed.

Lemma flag_roundtrip bit v m b p q :
  0 <= bit -> bit <> F_parsed_all -> setflag bit v m b p = Some q ->
  retflag bit m b q = Some (Z.odd v, q).
Proof.
  intros H0 Hne H. unfold setflag in H. destruct (lazily m b p) as [p1|] eqn:E; [|done].
  simpl in H. injection H as <-. apply lazily_parsed in E.
  assert (get_in F_parsed_all (set_in bit (Z.odd v) p1) = true) as Hp.
  { unfold get_in, set_in, put_bit. simpl input_flags. destruct (Z.odd v).
    - rewrite Z.setbit_neq by (unfold F_parsed_all; lia || done). exact E.
    - rewrite Z.clearbit_neq by done. exact E. }
  unfold retflag, lazily. rewrite Hp. simpl negb. cbv iota. cbn [mbind option_bind]. do 2 f_equal.
  unfold get_in, set_in, put_bit. simpl input_flags. destruct (Z.odd v).
  - by apply Z.setbit_eq.
  - apply Z.clearbit_eq.
Qed.

Section total.
Context (m : mem) (eth F : Z).
Hypothesis (HF : 0 <= F < 2 ^ 31) (Hread : readable m eth (F + 2300)).

(** Cursors whose pointer is [d] behind the offset, at most [lim] into the frame. *)
Definition at_most (d lim : Z) (c : cursor) : Prop :=
  c_ptr c = eth + c_off c - d /\ 14 <= c_off c <= lim /\ frame_len (c_hdr c) = F.

Lemma skip_at_most d lim n c : at_most d lim c -> 0 <= n -> lim + n < 2 ^ 32 -> at_most d (lim + n) (skip n c).
Proof.
  intros (H1 & H2 & H3) Hn Hl. unfold at_most, skip. simpl.
  rewrite u32_small by (unfold is_u32; lia). split_and!; [lia..|done].
Qed.

Lemma on_pkt_at_most d lim f c :
  at_most d lim c -> (forall p, frame_len (f p) = frame_len p) -> at_most d lim (on_pkt f c).
Proof. intros (H1 & H2 & H3) Hf. unfold at_most, on_pkt. simpl. by rewrite Hf. Qed.

Lemma rd16 x : eth <= x -> x + 1 < eth + F + 2300 -> exists v, be16 m x = Some v /\ 0 <= v < 2 ^ 16.
Proof. intros. apply (readable_be16 m eth (F + 2300)); [done|lia|lia]. Qed.
Lemma rd8 x : eth <= x -> x < eth + F + 2300 -> exists v, m !! x = Some v /\ 0 <= v < 256.
Proof. intros. apply (readable_byte m eth (F + 2300)); [done|lia]. Qed.

Lemma tag_total lim f c : at_most 2 lim c -> lim <= 18 -> (forall p v, frame_len (f v p) = frame_len p) ->
  exists t' c', (tci ← be16 m (c_ptr c + 2); let c := on_pkt (f tci) c in let c := skip 4 c in
                 e ← be16 m (c_ptr c); Some (e, c)) = Some (t', c') /\ at_most 2 (lim + 4) c'.
Proof.
  intros Hc Hl Hf. pose proof Hc as (H1 & H2 & H3).
  destruct (rd16 (c_ptr c + 2)) as (v & -> & _); [lia..|]. cbn [mbind option_bind]. cbv zeta.
  set (c1 := skip 4 _). assert (at_most 2 (lim + 4) c1) as Hc1
    by (apply skip_at_most; [by apply on_pkt_at_most|lia|lia]).
  pose proof Hc1 as (G1 & G2 & _). destruct (rd16 (c_ptr c1)) as (e & -> & ?); [lia..|]. by exists e, c1.
Qed.

Lemma parse_vlan_total c t : at_most 2 14 c ->
  exists t' c', parse_vlan m c t = Some (t', c') /\ at_most 2 22 c'.
Proof.
  intros Hc. unfold parse_vlan.
  assert (exists t1 c1, parse_outer_tag m c t = Some (t1, c1) /\ at_most 2 18 c1)
    as (t1 & c1 & -> & Hc1).
  { unfold parse_outer_tag. if_case.
    - by apply (tag_total 14 (fun tci p => set_vlan_s_tag (Z.lor (Z.shiftl t 16) tci)
                                (set_in F_vlan true (set_in F_vlan_qinq true p)))).
    - exists t, c. split; [done|]. unfold at_most in *. lia. }
  cbn [mbind option_bind]. unfold parse_inner_tag. if_case.
  - by apply (tag_total 18 (fun tci p => set_vlan_c_tag (Z.lor (Z.shiftl t1 16) tci) (set_in F_vlan true p))).
  - exists t1, c1. split; [done|]. unfold at_most in *. lia.
Qed.

Lemma parse_snap_total c t : at_most 2 22 c ->
  exists r, parse_snap m c t = Some r /\
    match r with inl _ => True | inr (_, c') => at_most 2 30 c' end.
Proof.
  intros Hc. unfold parse_snap. if_case; [|eexists; split; [done|]; unfold at_most in *; simpl; lia].
  set (c1 := on_pkt _ c). assert (at_most 2 22 c1) as Hc1 by (by apply on_pkt_at_most).
  if_case; [by eexists|]. pose proof (skip_at_most 2 22 8 c1 Hc1 ltac:(lia) ltac:(lia)) as Hc2.
  change (22 + 8) with 30 in Hc2. pose proof Hc2 as (G1 & G2 & _).
  destruct (rd16 (c_ptr (skip 8 c1))) as (e & -> & _); [lia..|]. by eexists.
Qed.

Lemma parse_ipv4_total c : at_most 0 30 c -> exists n c', parse_ipv4 m c = Some (n, c') /\ at_most 0 90 c'.
Proof.
  intros Hc. pose proof Hc as (H1 & H2 & H3). unfold parse_ipv4.
  destruct (rd8 (c_ptr c)) as (v & -> & Hv); [lia..|]. cbn [mbind option_bind].
  destruct (rd16 (c_ptr c + 2)) as (t & -> & _); [lia..|]. cbn [mbind option_bind].
  destruct (rd16 (c_ptr c + 6)) as (f & -> & _); [lia..|].
  destruct (rd8 (c_ptr c + 9)) as (pr & -> & _); [lia..|].
  if_case; [exists 0; eexists; split; [done|]; unfold at_most in *; simpl; split_and!; lia|].
  cbn [mbind option_bind]. eexists _, _. split; [done|].
  set (ihl := Z.land v 15).
  assert (0 <= ihl < 16) as Hi by (unfold ihl; change 15 with (2 ^ 4 - 1); rewrite land_pow2_mask by lia;
    apply Z.mod_pos_bound; lia).
  match goal with |- at_most _ _ (if ?b then on_pkt _ (skip ?n ?c2) else _) =>
    assert (at_most 0 90 (skip n c2)) as Hs by
      (pose proof (skip_at_most 0 30 n c2) as Hk; destruct Hk as (K1 & K2 & K3);
       [unfold at_most in *; simpl; repeat if_case; split_and!; simpl; lia|lia|lia|];
       unfold at_most; split_and!; [done|lia|lia|done]) end.
  if_case; [by apply on_pkt_at_most|done].
Qed.

Lemma parse_ipv6_total c : at_most 0 30 c ->
  exists n c', parse_ipv6 m c = Some (n, c') /\ at_most 0 (F + 2128) c'.
Proof.
  intros Hc. pose proof Hc as (H1 & H2 & H3). unfold parse_ipv6.
  destruct (rd16 (c_ptr c + 4)) as (pl & -> & _); [lia..|]. cbn [mbind option_bind].
  destruct (rd8 (c_ptr c)) as (v & -> & _); [lia..|]. cbn [mbind option_bind].
  if_case; [exists 0; eexists; split; [done|]; unfold at_most in *; simpl; split_and!; lia|].
  destruct (rd8 (c_ptr c + 6)) as (nh & -> & _); [lia..|]. cbn [mbind option_bind].
  set (c1 := on_pkt _ c). assert (at_most 0 30 c1) as Hc1 by (split_and!; simpl; try done; lia).
  pose proof (skip_at_most 0 30 40 c1 Hc1 ltac:(lia) ltac:(lia)) as Hc2. change (30 + 40) with 70 in Hc2.
  assert (forall c', at_most 0 70 c' -> at_most 0 (F + 2128) c') as Hw
    by (intros c' (? & ? & ?); split_and!; [done|lia|lia|done]).
  if_case; [|if_case; eexists _, _; (split; [done|]); apply Hw; [by apply on_pkt_at_most|done]].
  set (c3 := on_pkt _ (skip 40 c1)). assert (at_most 0 70 c3) as Hc3 by (by apply on_pkt_at_most).
  pose proof Hc3 as (G1 & G2 & G3).
  destruct (ipv6_exts_total m eth (S (Z.to_nat F)) c3) as (n & c' & Hrun & [Hs1 Hs2] & Hh & Ho & _).
  { by rewrite G3. }
  { rewrite G3. intros i Hi. apply Hread. lia. }
  { split; lia. }
  { lia. }
  { rewrite G3. lia. }
  simpl frame_len. rewrite H3, Hrun. cbn [mbind option_bind].
  assert (at_most 0 (F + 2128) c') as Hc'.
  { rewrite G3 in Ho. split_and!; [done|lia|lia|by rewrite Hh]. }
  repeat if_case; eexists _, _; (split; [done|]); try by apply on_pkt_at_most. done.
Qed.

Lemma parse_l3_total c t : at_most 0 30 c ->
  exists n c', parse_l3 m c t = Some (n, c') /\ at_most 0 (F + 2128) c'.
Proof.
  intros Hc. unfold parse_l3. set (c1 := on_pkt _ c). assert (at_most 0 30 c1) as Hc1 by (by apply on_pkt_at_most).
  assert (forall lim c', 30 <= lim <= 90 -> at_most 0 lim c' -> at_most 0 (F + 2128) c') as Hw
    by (intros lim c' ? (? & ? & ?); split_and!; [done|lia|lia|done]).
  if_case; [|if_case; [|if_case]].
  - destruct (parse_ipv4_total (on_pkt (set_in F_ipv4 true) c1)) as (n & c' & -> & Hc');
      [by apply on_pkt_at_most|]. exists n, c'. split; [done|]. by apply (Hw 90); [lia|].
  - apply parse_ipv6_total. by apply on_pkt_at_most.
  - eexists _, _. split; [done|]. apply (Hw 30); [lia|]. by apply on_pkt_at_most.
  - eexists _, _. split; [done|]. apply (Hw 30); [lia|]. by apply on_pkt_at_most.
Qed.

Lemma parse_l4_total c n : at_most 0 (F + 2128) c -> exists c', parse_l4 m c n = Some c'.
Proof.
  intros (H1 & H2 & H3). unfold parse_l4, parse_tcp, parse_udp. simpl c_ptr.
  destruct (rd8 (c_ptr c + 12)) as (x & -> & _); [lia..|].
  destruct (rd16 (c_ptr c + 4)) as (y & -> & _); [lia..|].
  repeat if_case; by eexists.
Qed.

End total.

(** C10: the parser always returns, and reads at most 2300 bytes beyond the frame:
    on any contents of a buffer with that much readable memory after the data, for
    any header, the loop over IPv6 extension headers ends and no read fails. *)
Theorem parser_total (m : mem) (p : packet_hdr) (eth : Z) :
  0 <= frame_len p < 2 ^ 31 -> readable m eth (frame_len p + 2300) ->
  exists err q, odp_parse_common m p eth = Some (err, q) /\ get_in F_parsed_all q = true /\
    err = negb (error_flags q =? 0).
Proof.
  intros HF Hr. unfold odp_parse_common. set (p1 := if negb _ then _ else p).
  assert (frame_len p1 = frame_len p) as Hl.
  { unfold p1, packet_parse_l2. by repeat if_case. }
  assert (at_most eth (frame_len p) 2 14 (Cur p1 (eth + 12) 14)) as Hc by (split_and!; simpl; lia || done).
  destruct (rd16 m eth (frame_len p) Hr (eth + 12)) as (t & Ht & _); [lia..|]. simpl c_ptr. rewrite Ht.
  cbn [mbind option_bind].
  destruct (parse_vlan_total m eth (frame_len p) HF Hr _ t Hc) as (t1 & c1 & -> & Hc1).
  cbn [mbind option_bind].
  destruct (parse_snap_total m eth (frame_len p) HF Hr c1 t1 Hc1) as (r & -> & Hr1).
  cbn [mbind option_bind]. destruct r as [q|[t2 c2]].
  { eexists _, _. split; [done|]. split; [apply parsed_set|done]. }
  set (c3 := Cur _ _ _). assert (at_most eth (frame_len p) 0 30 c3) as Hc3
    by (destruct Hr1 as (? & ? & ?); split_and!; simpl; lia || done).
  destruct (parse_l3_total m eth (frame_len p) HF Hr c3 t2 Hc3) as (n & c4 & -> & Hc4).
  cbn [mbind option_bind].
  destruct (parse_l4_total m eth (frame_len p) Hr c4 n Hc4) as (c5 & ->). cbn [mbind option_bind].
  eexists _, _. split; [done|]. split; [apply parsed_set|done].
Qed.

Lemma parser_total_witness :
  exists err q, odp_parse_common (frame_mem 0 (replicate 2400 0)) (set_frame_len 100 raw_pkt) 0 = Some (err, q).
Proof.
  destruct (parser_total (frame_mem 0 (replicate 2400 0)) (set_frame_len 100 raw_pkt) 0)
    as (err & q & Hq & _); [simpl; lia| |exists err, q; exact Hq].
  intros i Hi. exists 0. split; [|lia]. change (frame_len _) with 100 in Hi.
  replace i with (Z.of_nat (Z.to_nat i)) by lia. apply frame_mem_lookup, lookup_replicate_2. lia.
Defined.

End Parse.
