(* ===== verification/Queue.v ===== *)
(** Queues: [odp_queue.c], [odp_queue_internal.h], the queue side of
    [odp_packet_io.c] and the routines of [odp_schedule.c] that queues call.

    The state is the queue table, the buffer headers, the scheduler's tables and
    the calling thread's [sched_local]; a queue is named by its handle (the table
    index plus one), a buffer by its header address, and 0 is the null pointer
    of both.  Operations are in a state-and-failure monad: a null or dangling
    dereference and [ODP_ABORT] are [None].  [target_qe] and [sync\[0\]] are one
    word, as in the union of the source.

    Buffer pools and packet interfaces are reached through the class [Platform].
    Each definition is one call, run without interference: the queue lock makes
    the sections between [LOCK] and [UNLOCK] atomic. *)

From S2P Require Import Prelude Pool.

Open Scope Z_scope.
Open Scope c_scope.

Module Queue.
Import Pool.

Definition ODP_QUEUE_INVALID : Z := 0.
Definition ODP_EVENT_INVALID : Z := 0.
Definition ODP_CONFIG_QUEUES : Z := 1024.
Definition ODP_QUEUE_NAME_LEN : nat := 32.
Definition ODP_CONFIG_MAX_ORDERED_LOCKS_PER_QUEUE : Z := 2.
Definition ODP_CONFIG_SCHED_PRIOS : Z := 8.
Definition QUEUES_PER_PRIO : Z := 4.
Definition QUEUE_MULTI_MAX : Z := 8.

Definition QUEUE_STATUS_FREE : Z := 0.
Definition QUEUE_STATUS_DESTROYED : Z := 1.
Definition QUEUE_STATUS_READY : Z := 2.
Definition QUEUE_STATUS_NOTSCHED : Z := 3.
Definition QUEUE_STATUS_SCHED : Z := 4.

Definition ODP_QUEUE_TYPE_PLAIN : Z := 0.
Definition ODP_QUEUE_TYPE_SCHED : Z := 1.
Definition ODP_QUEUE_TYPE_PKTIN : Z := 2.
Definition ODP_QUEUE_TYPE_PKTOUT : Z := 3.

Definition ODP_QUEUE_OP_MT : Z := 0.
Definition ODP_QUEUE_OP_DISABLED : Z := 2.

Definition ODP_SCHED_SYNC_PARALLEL : Z := 0.
Definition ODP_SCHED_SYNC_ATOMIC : Z := 1.
Definition ODP_SCHED_SYNC_ORDERED : Z := 2.
Definition ODP_SCHED_PRIO_DEFAULT : Z := 4.
Definition ODP_SCHED_GROUP_ALL : Z := 0.

Definition SCHED_CMD_DEQUEUE : Z := 0.
Definition SCHED_CMD_POLL_PKTIN : Z := 1.

Definition RESOLVE_ORDER : bool := false.
Definition SUSTAIN_ORDER : bool := true.

(** [odp_buffer_hdr_t], the fields the queue code uses; [b_union] is the union of
    [target_qe] and [sync\[\]]. *)
Record qbuf := Qbuf {
  b_next : Z;
  b_link : Z;
  b_sustain : bool;
  b_pool_hdl : Z;
  b_order : Z;
  b_origin_qe : Z;
  b_union : list Z
}.

Definition set_b_next (v : Z) (b : qbuf) : qbuf :=
  Qbuf v (b_link b) (b_sustain b) (b_pool_hdl b) (b_order b) (b_origin_qe b) (b_union b).
Definition set_b_link (v : Z) (b : qbuf) : qbuf :=
  Qbuf (b_next b) v (b_sustain b) (b_pool_hdl b) (b_order b) (b_origin_qe b) (b_union b).
Definition set_b_sustain (v : bool) (b : qbuf) : qbuf :=
  Qbuf (b_next b) (b_link b) v (b_pool_hdl b) (b_order b) (b_origin_qe b) (b_union b).
Definition set_b_order (v : Z) (b : qbuf) : qbuf :=
  Qbuf (b_next b) (b_link b) (b_sustain b) (b_pool_hdl b) v (b_origin_qe b) (b_union b).
Definition set_b_origin_qe (v : Z) (b : qbuf) : qbuf :=
  Qbuf (b_next b) (b_link b) (b_sustain b) (b_pool_hdl b) (b_order b) v (b_union b).
Definition set_b_union (v : list Z) (b : qbuf) : qbuf :=
  Qbuf (b_next b) (b_link b) (b_sustain b) (b_pool_hdl b) (b_order b) (b_origin_qe b) v.

Definition b_target_qe (b : qbuf) : Z := default 0 (b_union b !! 0%nat).
Definition set_b_target_qe (v : Z) (b : qbuf) : qbuf := set_b_union (<[0%nat := v]> (b_union b)) b.

(** [odp_queue_param_t] with its [odp_schedule_param_t]. *)
Record queue_param := Qparam {
  p_type : Z;
  p_enq_mode : Z;
  p_deq_mode : Z;
  p_prio : Z;
  p_sync : Z;
  p_group : Z;
  p_lock_count : Z;
  p_context : Z
}.

Definition set_p_deq_mode (v : Z) (p : queue_param) : queue_param :=
  Qparam (p_type p) (p_enq_mode p) v (p_prio p) (p_sync p) (p_group p) (p_lock_count p)
    (p_context p).
Definition set_p_prio (v : Z) (p : queue_param) : queue_param :=
  Qparam (p_type p) (p_enq_mode p) (p_deq_mode p) v (p_sync p) (p_group p) (p_lock_count p)
    (p_context p).
Definition set_p_sync (v : Z) (p : queue_param) : queue_param :=
  Qparam (p_type p) (p_enq_mode p) (p_deq_mode p) (p_prio p) v (p_group p) (p_lock_count p)
    (p_context p).
Definition set_p_group (v : Z) (p : queue_param) : queue_param :=
  Qparam (p_type p) (p_enq_mode p) (p_deq_mode p) (p_prio p) (p_sync p) v (p_lock_count p)
    (p_context p).
Definition set_p_context (v : Z) (p : queue_param) : queue_param :=
  Qparam (p_type p) (p_enq_mode p) (p_deq_mode p) (p_prio p) (p_sync p) (p_group p)
    (p_lock_count p) v.

(** What the four function pointers of a queue entry point to. *)
Inductive queue_ops := OPS_NULL | OPS_PKTIN | OPS_PKTOUT | OPS_QUEUE.

(** [struct queue_entry_s] without its lock. *)
Record queue_entry := Qentry {
  q_head : Z;
  q_tail : Z;
  q_status : Z;
  q_ops : queue_ops;
  q_handle : Z;
  q_pri_queue : Z;
  q_cmd_ev : Z;
  q_type : Z;
  q_param : queue_param;
  q_pktin : Z * Z;
  q_pktout : Z;
  q_name : string;
  q_order_in : Z;
  q_order_out : Z;
  q_reorder_head : Z;
  q_reorder_tail : Z;
  q_sync_in : list Z;
  q_sync_out : list Z
}.

Definition set_q_head (v : Z) (q : queue_entry) : queue_entry :=
  Qentry v (q_tail q) (q_status q) (q_ops q) (q_handle q) (q_pri_queue q) (q_cmd_ev q) (q_type q)
    (q_param q) (q_pktin q) (q_pktout q) (q_name q) (q_order_in q) (q_order_out q)
    (q_reorder_head q) (q_reorder_tail q) (q_sync_in q) (q_sync_out q).
Definition set_q_tail (v : Z) (q : queue_entry) : queue_entry :=
  Qentry (q_head q) v (q_status q) (q_ops q) (q_handle q) (q_pri_queue q) (q_cmd_ev q) (q_type q)
    (q_param q) (q_pktin q) (q_pktout q) (q_name q) (q_order_in q) (q_order_out q)
    (q_reorder_head q) (q_reorder_tail q) (q_sync_in q) (q_sync_out q).
Definition set_q_status (v : Z) (q : queue_entry) : queue_entry :=
  Qentry (q_head q) (q_tail q) v (q_ops q) (q_handle q) (q_pri_queue q) (q_cmd_ev q) (q_type q)
    (q_param q) (q_pktin q) (q_pktout q) (q_name q) (q_order_in q) (q_order_out q)
    (q_reorder_head q) (q_reorder_tail q) (q_sync_in q) (q_sync_out q).
Definition set_q_ops (v : queue_ops) (q : queue_entry) : queue_entry :=
  Qentry (q_head q) (q_tail q) (q_status q) v (q_handle q) (q_pri_queue q) (q_cmd_ev q) (q_type q)
    (q_param q) (q_pktin q) (q_pktout q) (q_name q) (q_order_in q) (q_order_out q)
    (q_reorder_head q) (q_reorder_tail q) (q_sync_in q) (q_sync_out q).
Definition set_q_pri_queue (v : Z) (q : queue_entry) : queue_entry :=
  Qentry (q_head q) (q_tail q) (q_status q) (q_ops q) (q_handle q) v (q_cmd_ev q) (q_type q)
    (q_param q) (q_pktin q) (q_pktout q) (q_name q) (q_order_in q) (q_order_out q)
    (q_reorder_head q) (q_reorder_tail q) (q_sync_in q) (q_sync_out q).
Definition set_q_cmd_ev (v : Z) (q : queue_entry) : queue_entry :=
  Qentry (q_head q) (q_tail q) (q_status q) (q_ops q) (q_handle q) (q_pri_queue q) v (q_type q)
    (q_param q) (q_pktin q) (q_pktout q) (q_name q) (q_order_in q) (q_order_out q)
    (q_reorder_head q) (q_reorder_tail q) (q_sync_in q) (q_sync_out q).
Definition set_q_type (v : Z) (q : queue_entry) : queue_entry :=
  Qentry (q_head q) (q_tail q) (q_status q) (q_ops q) (q_handle q) (q_pri_queue q) (q_cmd_ev q) v
    (q_param q) (q_pktin q) (q_pktout q) (q_name q) (q_order_in q) (q_order_out q)
    (q_reorder_head q) (q_reorder_tail q) (q_sync_in q) (q_sync_out q).
Definition set_q_param (v : queue_param) (q : queue_entry) : queue_entry :=
  Qentry (q_head q) (q_tail q) (q_status q) (q_ops q) (q_handle q) (q_pri_queue q) (q_cmd_ev q)
    (q_type q) v (q_pktin q) (q_pktout q) (q_name q) (q_order_in q) (q_order_out q)
    (q_reorder_head q) (q_reorder_tail q) (q_sync_in q) (q_sync_out q).
Definition set_q_pktin (v : Z * Z) (q : queue_entry) : queue_entry :=
  Qentry (q_head q) (q_tail q) (q_status q) (q_ops q) (q_handle q) (q_pri_queue q) (q_cmd_ev q)
    (q_type q) (q_param q) v (q_pktout q) (q_name q) (q_order_in q) (q_order_out q)
    (q_reorder_head q) (q_reorder_tail q) (q_sync_in q) (q_sync_out q).
Definition set_q_name (v : string) (q : queue_entry) : queue_entry :=
  Qentry (q_head q) (q_tail q) (q_status q) (q_ops q) (q_handle q) (q_pri_queue q) (q_cmd_ev q)
    (q_type q) (q_param q) (q_pktin q) (q_pktout q) v (q_order_in q) (q_order_out q)
    (q_reorder_head q) (q_reorder_tail q) (q_sync_in q) (q_sync_out q).
Definition set_q_order_in (v : Z) (q : queue_entry) : queue_entry :=
  Qentry (q_head q) (q_tail q) (q_status q) (q_ops q) (q_handle q) (q_pri_queue q) (q_cmd_ev q)
    (q_type q) (q_param q) (q_pktin q) (q_pktout q) (q_name q) v (q_order_out q)
    (q_reorder_head q) (q_reorder_tail q) (q_sync_in q) (q_sync_out q).
Definition set_q_order_out (v : Z) (q : queue_entry) : queue_entry :=
  Qentry (q_head q) (q_tail q) (q_status q) (q_ops q) (q_handle q) (q_pri_queue q) (q_cmd_ev q)
    (q_type q) (q_param q) (q_pktin q) (q_pktout q) (q_name q) (q_order_in q) v (q_reorder_head q)
    (q_reorder_tail q) (q_sync_in q) (q_sync_out q).
Definition set_q_reorder_head (v : Z) (q : queue_entry) : queue_entry :=
  Qentry (q_head q) (q_tail q) (q_status q) (q_ops q) (q_handle q) (q_pri_queue q) (q_cmd_ev q)
    (q_type q) (q_param q) (q_pktin q) (q_pktout q) (q_name q) (q_order_in q) (q_order_out q) v
    (q_reorder_tail q) (q_sync_in q) (q_sync_out q).
Definition set_q_reorder_tail (v : Z) (q : queue_entry) : queue_entry :=
  Qentry (q_head q) (q_tail q) (q_status q) (q_ops q) (q_handle q) (q_pri_queue q) (q_cmd_ev q)
    (q_type q) (q_param q) (q_pktin q) (q_pktout q) (q_name q) (q_order_in q) (q_order_out q)
    (q_reorder_head q) v (q_sync_in q) (q_sync_out q).
Definition set_q_sync_in (v : list Z) (q : queue_entry) : queue_entry :=
  Qentry (q_head q) (q_tail q) (q_status q) (q_ops q) (q_handle q) (q_pri_queue q) (q_cmd_ev q)
    (q_type q) (q_param q) (q_pktin q) (q_pktout q) (q_name q) (q_order_in q) (q_order_out q)
    (q_reorder_head q) (q_reorder_tail q) v (q_sync_out q).
Definition set_q_sync_out (v : list Z) (q : queue_entry) : queue_entry :=
  Qentry (q_head q) (q_tail q) (q_status q) (q_ops q) (q_handle q) (q_pri_queue q) (q_cmd_ev q)
    (q_type q) (q_param q) (q_pktin q) (q_pktout q) (q_name q) (q_order_in q) (q_order_out q)
    (q_reorder_head q) (q_reorder_tail q) (q_sync_in q) v.

(** [sched_cmd_t]: the payload of a scheduler command event. *)
Inductive sched_cmd :=
| CMD_DEQUEUE (qe : Z)
| CMD_POLL_PKTIN (pktio : Z) (index : list Z).

(** [sched_t]: thread masks are bit masks. *)
Record sched_t := Sched {
  s_pri_queue : list (list Z);
  s_pri_mask : list Z;
  s_pri_count : list (list Z);
  s_poll_cmd : list (Z * Z);
  s_pool : Z;
  s_grp : list (string * Z)
}.

Definition set_s_pri_mask (v : list Z) (s : sched_t) : sched_t :=
  Sched (s_pri_queue s) v (s_pri_count s) (s_poll_cmd s) (s_pool s) (s_grp s).
Definition set_s_pri_count (v : list (list Z)) (s : sched_t) : sched_t :=
  Sched (s_pri_queue s) (s_pri_mask s) v (s_poll_cmd s) (s_pool s) (s_grp s).
Definition set_s_poll_cmd (v : list (Z * Z)) (s : sched_t) : sched_t :=
  Sched (s_pri_queue s) (s_pri_mask s) (s_pri_count s) v (s_pool s) (s_grp s).
Definition set_s_grp (v : list (string * Z)) (s : sched_t) : sched_t :=
  Sched (s_pri_queue s) (s_pri_mask s) (s_pri_count s) (s_poll_cmd s) (s_pool s) v.

(** [sched_local_t], the calling thread's. *)
Record sched_local_t := Local {
  l_thr : Z;
  l_num : Z;
  l_index : Z;
  l_pause : bool;
  l_pktin_polls : Z;
  l_pri_queue : Z;
  l_cmd_ev : Z;
  l_qe : Z;
  l_origin_qe : Z;
  l_buf_hdr : list Z;
  l_order : Z;
  l_sync : list Z;
  l_pool : Z;
  l_enq_called : bool;
  l_ignore_ordered_context : bool
}.

Definition set_l_num (v : Z) (l : sched_local_t) : sched_local_t :=
  Local (l_thr l) v (l_index l) (l_pause l) (l_pktin_polls l) (l_pri_queue l) (l_cmd_ev l)
    (l_qe l) (l_origin_qe l) (l_buf_hdr l) (l_order l) (l_sync l) (l_pool l) (l_enq_called l)
    (l_ignore_ordered_context l).
Definition set_l_index (v : Z) (l : sched_local_t) : sched_local_t :=
  Local (l_thr l) (l_num l) v (l_pause l) (l_pktin_polls l) (l_pri_queue l) (l_cmd_ev l) (l_qe l)
    (l_origin_qe l) (l_buf_hdr l) (l_order l) (l_sync l) (l_pool l) (l_enq_called l)
    (l_ignore_ordered_context l).
Definition set_l_pause (v : bool) (l : sched_local_t) : sched_local_t :=
  Local (l_thr l) (l_num l) (l_index l) v (l_pktin_polls l) (l_pri_queue l) (l_cmd_ev l) (l_qe l)
    (l_origin_qe l) (l_buf_hdr l) (l_order l) (l_sync l) (l_pool l) (l_enq_called l)
    (l_ignore_ordered_context l).
Definition set_l_pktin_polls (v : Z) (l : sched_local_t) : sched_local_t :=
  Local (l_thr l) (l_num l) (l_index l) (l_pause l) v (l_pri_queue l) (l_cmd_ev l) (l_qe l)
    (l_origin_qe l) (l_buf_hdr l) (l_order l) (l_sync l) (l_pool l) (l_enq_called l)
    (l_ignore_ordered_context l).
Definition set_l_pri_queue (v : Z) (l : sched_local_t) : sched_local_t :=
  Local (l_thr l) (l_num l) (l_index l) (l_pause l) (l_pktin_polls l) v (l_cmd_ev l) (l_qe l)
    (l_origin_qe l) (l_buf_hdr l) (l_order l) (l_sync l) (l_pool l) (l_enq_called l)
    (l_ignore_ordered_context l).
Definition set_l_cmd_ev (v : Z) (l : sched_local_t) : sched_local_t :=
  Local (l_thr l) (l_num l) (l_index l) (l_pause l) (l_pktin_polls l) (l_pri_queue l) v (l_qe l)
    (l_origin_qe l) (l_buf_hdr l) (l_order l) (l_sync l) (l_pool l) (l_enq_called l)
    (l_ignore_ordered_context l).
Definition set_l_qe (v : Z) (l : sched_local_t) : sched_local_t :=
  Local (l_thr l) (l_num l) (l_index l) (l_pause l) (l_pktin_polls l) (l_pri_queue l) (l_cmd_ev l)
    v (l_origin_qe l) (l_buf_hdr l) (l_order l) (l_sync l) (l_pool l) (l_enq_called l)
    (l_ignore_ordered_context l).
Definition set_l_origin_qe (v : Z) (l : sched_local_t) : sched_local_t :=
  Local (l_thr l) (l_num l) (l_index l) (l_pause l) (l_pktin_polls l) (l_pri_queue l) (l_cmd_ev l)
    (l_qe l) v (l_buf_hdr l) (l_order l) (l_sync l) (l_pool l) (l_enq_called l)
    (l_ignore_ordered_context l).
Definition set_l_buf_hdr (v : list Z) (l : sched_local_t) : sched_local_t :=
  Local (l_thr l) (l_num l) (l_index l) (l_pause l) (l_pktin_polls l) (l_pri_queue l) (l_cmd_ev l)
    (l_qe l) (l_origin_qe l) v (l_order l) (l_sync l) (l_pool l) (l_enq_called l)
    (l_ignore_ordered_context l).
Definition set_l_order (v : Z) (l : sched_local_t) : sched_local_t :=
  Local (l_thr l) (l_num l) (l_index l) (l_pause l) (l_pktin_polls l) (l_pri_queue l) (l_cmd_ev l)
    (l_qe l) (l_origin_qe l) (l_buf_hdr l) v (l_sync l) (l_pool l) (l_enq_called l)
    (l_ignore_ordered_context l).
Definition set_l_sync (v : list Z) (l : sched_local_t) : sched_local_t :=
  Local (l_thr l) (l_num l) (l_index l) (l_pause l) (l_pktin_polls l) (l_pri_queue l) (l_cmd_ev l)
    (l_qe l) (l_origin_qe l) (l_buf_hdr l) (l_order l) v (l_pool l) (l_enq_called l)
    (l_ignore_ordered_context l).
Definition set_l_pool (v : Z) (l : sched_local_t) : sched_local_t :=
  Local (l_thr l) (l_num l) (l_index l) (l_pause l) (l_pktin_polls l) (l_pri_queue l) (l_cmd_ev l)
    (l_qe l) (l_origin_qe l) (l_buf_hdr l) (l_order l) (l_sync l) v (l_enq_called l)
    (l_ignore_ordered_context l).
Definition set_l_enq_called (v : bool) (l : sched_local_t) : sched_local_t :=
  Local (l_thr l) (l_num l) (l_index l) (l_pause l) (l_pktin_polls l) (l_pri_queue l) (l_cmd_ev l)
    (l_qe l) (l_origin_qe l) (l_buf_hdr l) (l_order l) (l_sync l) (l_pool l) v
    (l_ignore_ordered_context l).
Definition set_l_ignore_ordered_context (v : bool) (l : sched_local_t) : sched_local_t :=
  Local (l_thr l) (l_num l) (l_index l) (l_pause l) (l_pktin_polls l) (l_pri_queue l) (l_cmd_ev l)
    (l_qe l) (l_origin_qe l) (l_buf_hdr l) (l_order l) (l_sync l) (l_pool l) (l_enq_called l) v.

(** The pools and packet interfaces behind a queue: [odp_buffer_alloc],
    [odp_buffer_free], [odp_pktio_send] (interface, packets; the number sent) and
    [odp_pktio_recv_queue] of [QUEUE_MULTI_MAX] packets. *)
Class Platform (W : Type) := {
  w_buffer_alloc : Z -> W -> option (Z * W);
  w_buffer_free : Z -> W -> option W;
  w_pktio_send : Z -> list Z -> W -> option (Z * W);
  w_pktio_recv_queue : Z * Z -> W -> option (Z * list Z * W)
}.

Record qsys (W : Type) := Qsys {
  queues : gmap Z queue_entry;
  bufs : gmap Z qbuf;
  cmds : gmap Z sched_cmd;
  sched : sched_t;
  loc : sched_local_t;
  world : W
}.
Arguments Qsys {W}.
Arguments queues {W}.
Arguments bufs {W}.
Arguments cmds {W}.
Arguments sched {W}.
Arguments loc {W}.
Arguments world {W}.

Definition set_queues {W} v (s : qsys W) := Qsys v (bufs s) (cmds s) (sched s) (loc s) (world s).
Definition set_bufs {W} v (s : qsys W) := Qsys (queues s) v (cmds s) (sched s) (loc s) (world s).
Definition set_cmds {W} v (s : qsys W) := Qsys (queues s) (bufs s) v (sched s) (loc s) (world s).
Definition set_sched {W} v (s : qsys W) := Qsys (queues s) (bufs s) (cmds s) v (loc s) (world s).
Definition set_loc {W} v (s : qsys W) := Qsys (queues s) (bufs s) (cmds s) (sched s) v (world s).
Definition set_world {W} (v : W) (s : qsys W) := Qsys (queues s) (bufs s) (cmds s) (sched s) (loc s) v.

(** * The monad *)

Definition M (W A : Type) : Type := qsys W -> option (A * qsys W).
Definition ret {W A} (a : A) : M W A := fun s => Some (a, s).
Definition bind {W A B} (m : M W A) (k : A -> M W B) : M W B :=
  fun s => match m s with Some (a, s') => k a s' | None => None end.
Definition abort {W A} : M W A := fun _ => None.

Declare Scope queue_scope.
Delimit Scope queue_scope with queue.
Notation "x <- m ;; k" := (bind m (fun x => k))
  (at level 20, m at level 99, k at level 200, only parsing) : queue_scope.
Notation "' p <- m ;; k" := (bind m (fun x => match x with p => k end))
  (at level 20, p pattern, m at level 99, k at level 200, only parsing) : queue_scope.
Notation "m ;;; k" := (bind m (fun _ => k))
  (at level 100, k at level 200, right associativity, only parsing) : queue_scope.
Open Scope queue_scope.

Section queue.
Context {W : Type} {PL : Platform W}.

Definition lift {A} (o : option A) : M W A := fun s => match o with Some a => Some (a, s) | None => None end.
Definition gets {A} (f : qsys W -> A) : M W A := fun s => Some (f s, s).
Definition getq (q : Z) : M W queue_entry :=
  fun s => match queues s !! q with Some e => Some (e, s) | None => None end.
Definition modq (q : Z) (f : queue_entry -> queue_entry) : M W unit :=
  fun s => match queues s !! q with
           | Some e => Some (tt, set_queues (<[q := f e]> (queues s)) s) | None => None end.
Definition getb (b : Z) : M W qbuf :=
  fun s => match bufs s !! b with Some h => Some (h, s) | None => None end.
Definition modb (b : Z) (f : qbuf -> qbuf) : M W unit :=
  fun s => match bufs s !! b with
           | Some h => Some (tt, set_bufs (<[b := f h]> (bufs s)) s) | None => None end.
Definition modl (f : sched_local_t -> sched_local_t) : M W unit :=
  fun s => Some (tt, set_loc (f (loc s)) s).
Definition mods (f : sched_t -> option sched_t) : M W unit :=
  fun s => match f (sched s) with Some x => Some (tt, set_sched x s) | None => None end.
Definition on_world {A} (f : W -> option (A * W)) : M W A :=
  fun s => match f (world s) with Some (a, w) => Some (a, set_world w s) | None => None end.
Definition buffer_free (b : Z) : M W unit :=
  fun s => match w_buffer_free b (world s) with Some w => Some (tt, set_world w s) | None => None end.
(** A walk along [next] pointers visits each header once. *)
Definition walk_fuel : M W nat := gets (fun s => S (size (bufs s))).

(** * Queue handles and plain queue lists *)

Definition queue_to_id (handle : Z) : Z := handle -u32 1.
Definition queue_from_id (queue_id : Z) : Z := queue_id +u32 1.

Definition queue_is_atomic (e : queue_entry) : bool := p_sync (q_param e) =? ODP_SCHED_SYNC_ATOMIC.
Definition queue_is_ordered (e : queue_entry) : bool := p_sync (q_param e) =? ODP_SCHED_SYNC_ORDERED.

Definition isnull (a : Z) : bool := a =? NULL.

(** [while (buf_tail->next) buf_tail = buf_tail->next] *)
Fixpoint last_buf (fuel : nat) (buf_tail : Z) : M W Z :=
  match fuel with
  | O => abort
  | S fuel =>
      h <- getb buf_tail ;;
      if isnull (b_next h) then ret buf_tail else last_buf fuel (b_next h)
  end.

Definition get_buf_tail (buf_hdr : Z) : M W Z :=
  h <- getb buf_hdr ;;
  let buf_tail := if isnull (b_link h) then buf_hdr else b_link h in
  modb buf_hdr (fun h => set_b_next (b_link h) h) ;;;
  modb buf_hdr (set_b_link NULL) ;;;
  fuel <- walk_fuel ;;
  last_buf fuel buf_tail.

Definition queue_add_list (queue buf_head buf_tail : Z) : M W unit :=
  e <- getq queue ;;
  (if isnull (q_head e) then modq queue (set_q_head buf_head)
   else modb (q_tail e) (set_b_next buf_head)) ;;;
  modq queue (set_q_tail buf_tail).

Definition queue_add (queue buf_hdr : Z) : M W unit :=
  modb buf_hdr (set_b_next NULL) ;;;
  queue_add_list queue buf_hdr buf_hdr.

Definition queue_add_chain (queue buf_hdr : Z) : M W unit :=
  buf_tail <- get_buf_tail buf_hdr ;;
  queue_add_list queue buf_hdr buf_tail.

(** * The calling thread's ordered context *)

Definition sched_enq_called : M W unit := modl (set_l_enq_called true).

Definition get_sched_order : M W (Z * Z) :=
  l <- gets loc ;;
  if l_ignore_ordered_context l then
    modl (set_l_ignore_ordered_context false) ;;;
    ret (NULL, 0)
  else ret (l_origin_qe l, l_order l).

Definition sched_order_resolved (buf_hdr : Z) : M W unit :=
  (if isnull buf_hdr then ret tt else modb buf_hdr (set_b_origin_qe NULL)) ;;;
  modl (set_l_origin_qe NULL).

Definition get_queue_order (buf_hdr : Z) : M W (Z * Z) :=
  if isnull buf_hdr then get_sched_order
  else
    h <- getb buf_hdr ;;
    if isnull (b_origin_qe h) then get_sched_order
    else ret (b_origin_qe h, b_order h).

(** * The reorder queue of an ordered queue *)

(** The search loop of [reorder_enq]: [(reorder_prev, reorder_buf)]. *)
Fixpoint reorder_find (fuel : nat) (order reorder_prev reorder_buf : Z) : M W (Z * Z) :=
  match fuel with
  | O => abort
  | S fuel =>
      if isnull reorder_buf then ret (reorder_prev, reorder_buf)
      else
        h <- getb reorder_buf ;;
        if b_order h <=? order then reorder_find fuel order reorder_buf (b_next h)
        else ret (reorder_prev, reorder_buf)
  end.

Definition reorder_enq (queue order origin_qe buf_hdr : Z) (sustain : bool) : M W unit :=
  e <- getq origin_qe ;;
  fuel <- walk_fuel ;;
  ' (reorder_prev, reorder_buf) <- reorder_find fuel order NULL (q_reorder_head e) ;;
  modb buf_hdr (set_b_next reorder_buf) ;;;
  (if isnull reorder_prev then modq origin_qe (set_q_reorder_head buf_hdr)
   else modb reorder_prev (set_b_next buf_hdr)) ;;;
  (if isnull reorder_buf then modq origin_qe (set_q_reorder_tail buf_hdr) else ret tt) ;;;
  modb buf_hdr (fun h =>
    set_b_sustain sustain (set_b_order order (set_b_target_qe queue (set_b_origin_qe origin_qe h)))).

(** The loop over the ordered locks in [order_release]. *)
Fixpoint release_syncs (n : nat) (order_out : Z) (sync_out : list Z) : option (list Z) :=
  match n, sync_out with
  | O, _ => Some sync_out
  | S n, sync :: l =>
      l' ← release_syncs n order_out l;
      Some ((if sync <? order_out then sync +u64 (order_out -u64 sync) else sync) :: l')
  | S _, [] => None
  end.

Definition order_release (origin_qe count : Z) : M W unit :=
  e <- getq origin_qe ;;
  let order_out := q_order_out e +u64 count in
  sync_out <- lift (release_syncs (Z.to_nat (p_lock_count (q_param e))) order_out (q_sync_out e)) ;;
  modq origin_qe (fun e => set_q_sync_out sync_out (set_q_order_out order_out e)).

(** What [reorder_deq] returns through its pointers. *)
Record deq_result := Deq {
  d_reorder_tail : Z;
  d_placeholder_buf : Z;
  d_release_count : Z;
  d_placeholder_count : Z;
  d_deq_count : Z
}.

Fixpoint reorder_deq_loop (fuel : nat) (queue origin_qe reorder_buf : Z) (d : deq_result)
    : M W deq_result :=
  match fuel with
  | O => abort
  | S fuel =>
      if isnull reorder_buf then ret d else
      h <- getb reorder_buf ;;
      e <- getq origin_qe ;;
      if negb (b_order h <=? q_order_out e +u64 d_release_count d +u64 d_placeholder_count d)
      then ret d
      else
        let next_buf := b_next h in
        if b_target_qe h =? queue then
          let reorder_link := b_link h in
          reorder_tail <-
            (if isnull reorder_link then ret reorder_buf
             else
               modb reorder_buf (set_b_next reorder_link) ;;;
               modb reorder_buf (set_b_link NULL) ;;;
               n <- walk_fuel ;;
               reorder_link <- last_buf n reorder_link ;;
               modb reorder_link (set_b_next next_buf) ;;;
               ret reorder_link) ;;
          reorder_deq_loop fuel queue origin_qe next_buf
            (Deq reorder_tail (d_placeholder_buf d)
               (if b_sustain h then d_release_count d else d_release_count d + 1)
               (d_placeholder_count d) (d_deq_count d + 1))
        else if isnull (b_target_qe h) then
          (if isnull (d_reorder_tail d) then modq origin_qe (set_q_reorder_head next_buf)
           else modb (d_reorder_tail d) (set_b_next next_buf)) ;;;
          modb reorder_buf (set_b_next (d_placeholder_buf d)) ;;;
          reorder_deq_loop fuel queue origin_qe next_buf
            (Deq (d_reorder_tail d) reorder_buf (d_release_count d)
               (d_placeholder_count d + 1) (d_deq_count d))
        else ret d
  end.

Definition reorder_deq (queue origin_qe : Z) : M W deq_result :=
  e <- getq origin_qe ;;
  fuel <- walk_fuel ;;
  reorder_deq_loop fuel queue origin_qe (q_reorder_head e) (Deq NULL NULL 0 0 0).

(** The two pointers [reorder_complete] hands back: the buffer to pass on and the
    placeholders to free. *)
Fixpoint reorder_complete_loop (fuel : nat) (origin_qe reorder_buf placeholder_buf : Z)
    : M W (Z * Z) :=
  match fuel with
  | O => abort
  | S fuel =>
      if isnull reorder_buf then ret (NULL, placeholder_buf) else
      h <- getb reorder_buf ;;
      e <- getq origin_qe ;;
      if negb (b_order h <=? q_order_out e) then ret (NULL, placeholder_buf)
      else
        let next_buf := b_next h in
        if isnull (b_target_qe h) then
          modq origin_qe (set_q_reorder_head next_buf) ;;;
          modb reorder_buf (set_b_next placeholder_buf) ;;;
          order_release origin_qe 1 ;;;
          reorder_complete_loop fuel origin_qe next_buf reorder_buf
        else if b_sustain h then
          reorder_complete_loop fuel origin_qe next_buf placeholder_buf
        else
          let reorder_buf_return := q_reorder_head e in
          h0 <- getb reorder_buf_return ;;
          modq origin_qe (set_q_reorder_head (b_next h0)) ;;;
          ret (reorder_buf_return, placeholder_buf)
  end.

Definition reorder_complete (origin_qe placeholder_buf : Z) (placeholder_append : bool)
    : M W (Z * Z) :=
  e <- getq origin_qe ;;
  fuel <- walk_fuel ;;
  reorder_complete_loop fuel origin_qe (q_reorder_head e)
    (if placeholder_append then placeholder_buf else NULL).

(** [while (placeholder_buf) { next; odp_buffer_free; }] *)
Fixpoint free_placeholders (fuel : nat) (placeholder_buf : Z) : M W unit :=
  match fuel with
  | O => abort
  | S fuel =>
      if isnull placeholder_buf then ret tt else
      h <- getb placeholder_buf ;;
      buffer_free placeholder_buf ;;;
      free_placeholders fuel (b_next h)
  end.

(** * Enqueue

    [enq] is the call through [queue->s.enqueue]; the recursion is tied in
    [enqueue] below. *)

Section enq.
Context (enq : Z -> Z -> bool -> M W Z).

Definition odp_queue_enq_via (handle ev : Z) : M W Z :=
  modb ev (set_b_link NULL) ;;;
  enq handle ev SUSTAIN_ORDER.

Definition schedule_queue_via (queue : Z) : M W Z :=
  modl (set_l_ignore_ordered_context true) ;;;
  e <- getq queue ;;
  odp_queue_enq_via (q_pri_queue e) (q_cmd_ev e).

(** [if (sched && schedule_queue(queue)) ODP_ABORT(...)] *)
Definition schedule_or_abort (doit : bool) (queue : Z) : M W unit :=
  if doit then
    rc <- schedule_queue_via queue ;;
    if rc =? 0 then ret tt else abort
  else ret tt.

(** [NOTSCHED] becomes [SCHED]; whether it did. *)
Definition mark_sched (queue : Z) : M W bool :=
  e <- getq queue ;;
  if q_status e =? QUEUE_STATUS_NOTSCHED then
    modq queue (set_q_status QUEUE_STATUS_SCHED) ;;; ret true
  else ret false.

Definition queue_enq_internal_via (buf_hdr : Z) : M W Z :=
  h <- getb buf_hdr ;;
  enq (b_target_qe h) buf_hdr (b_sustain h).

Definition ordered_queue_enq_via (queue buf_hdr : Z) (sustain : bool) (origin_qe order : Z)
    : M W Z :=
  oe <- getq origin_qe ;;
  qe <- getq queue ;;
  if (q_status oe <? QUEUE_STATUS_READY) || (q_status qe <? QUEUE_STATUS_READY) then ret (-1)
  else
    sched_enq_called ;;;
    if order >? q_order_out oe then
      reorder_enq queue order origin_qe buf_hdr sustain ;;;
      ret 0
    else
      (if sustain then ret tt
       else order_release origin_qe 1 ;;; sched_order_resolved buf_hdr) ;;;
      doit <- mark_sched queue ;;
      oe <- getq origin_qe ;;
      if isnull (q_reorder_head oe) then
        queue_add_chain queue buf_hdr ;;;
        schedule_or_abort doit queue ;;;
        ret 0
      else
        reorder_enq queue order origin_qe buf_hdr true ;;;
        d <- reorder_deq queue origin_qe ;;
        oe <- getq origin_qe ;;
        qe <- getq queue ;;
        (if isnull (q_head qe) then modq queue (set_q_head (q_reorder_head oe))
         else modb (q_tail qe) (set_b_next (q_reorder_head oe))) ;;;
        modq queue (set_q_tail (d_reorder_tail d)) ;;;
        t <- getb (d_reorder_tail d) ;;
        modq origin_qe (set_q_reorder_head (b_next t)) ;;;
        modb (d_reorder_tail d) (set_b_next NULL) ;;;
        order_release origin_qe (d_release_count d + d_placeholder_count d) ;;;
        schedule_or_abort doit queue ;;;
        ' (reorder_buf, placeholder_buf) <-
          reorder_complete origin_qe (d_placeholder_buf d) true ;;
        (if isnull reorder_buf then ret 0 else queue_enq_internal_via reorder_buf) ;;;
        fuel <- walk_fuel ;;
        free_placeholders fuel placeholder_buf ;;;
        ret 0.

Definition queue_enq_via (queue buf_hdr : Z) (sustain : bool) : M W Z :=
  ' (origin_qe, order) <- get_queue_order buf_hdr ;;
  if negb (isnull origin_qe) then ordered_queue_enq_via queue buf_hdr sustain origin_qe order
  else
    e <- getq queue ;;
    if q_status e <? QUEUE_STATUS_READY then ret (-1)
    else
      queue_add queue buf_hdr ;;;
      doit <- mark_sched queue ;;
      schedule_or_abort doit queue ;;;
      ret 0.

Definition pktout_enqueue (queue buf_hdr : Z) : M W Z :=
  e <- getq queue ;;
  nbr <- on_world (w_pktio_send (q_pktout e) [buf_hdr]) ;;
  ret (if nbr =? 1 then 0 else -1).

Definition pktout_enq_multi (queue : Z) (buf_hdrs : list Z) : M W Z :=
  e <- getq queue ;;
  on_world (w_pktio_send (q_pktout e) buf_hdrs).

(** The loop that collects a chain in [buf_hdrs\[QUEUE_MULTI_MAX\]]. *)
Fixpoint collect_chain (room : nat) (next_buf : Z) : M W (list Z) :=
  if isnull next_buf then ret [] else
  match room with
  | O => abort
  | S room =>
      h <- getb next_buf ;;
      l <- collect_chain room (b_next h) ;;
      ret (next_buf :: l)
  end.

(** [do { next; pktout_enqueue; } while (xmit_buf)] *)
Fixpoint xmit_loop (fuel : nat) (queue xmit_buf : Z) : M W unit :=
  match fuel with
  | O => abort
  | S fuel =>
      h <- getb xmit_buf ;;
      pktout_enqueue queue xmit_buf ;;;
      if isnull (b_next h) then ret tt else xmit_loop fuel queue (b_next h)
  end.

(** The send of an in-order buffer: [Some rc] is an early return. *)
Definition pktout_send (queue buf_hdr : Z) : M W (option Z) :=
  h <- getb buf_hdr ;;
  if isnull (b_link h) then
    rc <- pktout_enqueue queue buf_hdr ;;
    ret (if rc =? 0 then None else Some rc)
  else
    modb buf_hdr (set_b_link NULL) ;;;
    buf_hdrs <- collect_chain (Z.to_nat QUEUE_MULTI_MAX) (b_link h) ;;
    rc <- pktout_enq_multi queue buf_hdrs ;;
    ret (if rc <? zlen buf_hdrs then Some (-1) else None).

(** From [order_release(origin_qe, release_count + placeholder_count)] on. *)
Definition pktout_finish (origin_qe : Z) (d : deq_result) : M W Z :=
  order_release origin_qe (d_release_count d + d_placeholder_count d) ;;;
  ' (reorder_buf, placeholder_buf) <- reorder_complete origin_qe (d_placeholder_buf d) true ;;
  (if isnull reorder_buf then ret 0 else queue_enq_internal_via reorder_buf) ;;;
  fuel <- walk_fuel ;;
  free_placeholders fuel placeholder_buf ;;;
  ret 0.

Definition queue_pktout_enq_via (queue buf_hdr : Z) (sustain : bool) : M W Z :=
  ' (origin_qe, order) <- get_queue_order buf_hdr ;;
  if isnull origin_qe then pktout_enqueue queue buf_hdr
  else
    oe <- getq origin_qe ;;
    if q_status oe <? QUEUE_STATUS_READY then ret (-1)
    else
      sched_enq_called ;;;
      if order >? q_order_out oe then
        reorder_enq queue order origin_qe buf_hdr sustain ;;;
        ret 0
      else
        early <- pktout_send queue buf_hdr ;;
        match early with
        | Some rc => ret rc
        | None =>
            (if sustain then ret tt
             else order_release origin_qe 1 ;;; sched_order_resolved NULL) ;;;
            d <- reorder_deq queue origin_qe ;;
            (if d_deq_count d =? 0 then ret tt
             else
               oe <- getq origin_qe ;;
               t <- getb (d_reorder_tail d) ;;
               modq origin_qe (set_q_reorder_head (b_next t)) ;;;
               modb (d_reorder_tail d) (set_b_next NULL) ;;;
               fuel <- walk_fuel ;;
               xmit_loop fuel queue (q_reorder_head oe)) ;;;
            pktout_finish origin_qe d
        end.

End enq.

(** The call [queue->s.enqueue(queue, buf_hdr, sustain)]. *)
Fixpoint enqueue (fuel : nat) (queue buf_hdr : Z) (sustain : bool) : M W Z :=
  match fuel with
  | O => abort
  | S fuel =>
      e <- getq queue ;;
      match q_ops e with
      | OPS_QUEUE => queue_enq_via (enqueue fuel) queue buf_hdr sustain
      | OPS_PKTOUT => queue_pktout_enq_via (enqueue fuel) queue buf_hdr sustain
      | OPS_PKTIN | OPS_NULL => abort
      end
  end.

(** One level for the call, one for [schedule_queue] and one for each buffer
    that a completed order can pass on. *)
Definition enq_fuel : M W nat := gets (fun s => (2 + size (bufs s))%nat).

Definition queue_enq (queue buf_hdr : Z) (sustain : bool) : M W Z :=
  n <- enq_fuel ;; queue_enq_via (enqueue n) queue buf_hdr sustain.
Definition ordered_queue_enq (queue buf_hdr : Z) (sustain : bool) (origin_qe order : Z) : M W Z :=
  n <- enq_fuel ;; ordered_queue_enq_via (enqueue n) queue buf_hdr sustain origin_qe order.
Definition queue_enq_internal (buf_hdr : Z) : M W Z :=
  n <- enq_fuel ;; queue_enq_internal_via (enqueue n) buf_hdr.
Definition schedule_queue (queue : Z) : M W Z :=
  n <- enq_fuel ;; schedule_queue_via (enqueue n) queue.
Definition queue_pktout_enq (queue buf_hdr : Z) (sustain : bool) : M W Z :=
  n <- enq_fuel ;; queue_pktout_enq_via (enqueue n) queue buf_hdr sustain.
Definition odp_queue_enq (handle ev : Z) : M W Z :=
  n <- enq_fuel ;; odp_queue_enq_via (enqueue n) handle ev.

(** [buf_hdr\[i\]->next = buf_hdr\[i + 1\]], and [NULL] for the last. *)
Fixpoint chain_bufs (buf_hdr : list Z) : M W unit :=
  match buf_hdr with
  | [] => ret tt
  | b :: l => modb b (set_b_next (default NULL (head l))) ;;; chain_bufs l
  end.

Definition queue_enq_multi (queue : Z) (buf_hdr : list Z) (sustain : bool) : M W Z :=
  match buf_hdr with
  | [] => abort
  | b0 :: rest =>
      chain_bufs buf_hdr ;;;
      let tail := List.last buf_hdr NULL in
      ' (origin_qe, order) <- get_queue_order b0 ;;
      if negb (isnull origin_qe) then
        modb b0 (fun h => set_b_link (b_next h) h) ;;;
        rc <- ordered_queue_enq queue b0 sustain origin_qe order ;;
        ret (if rc =? 0 then zlen buf_hdr else rc)
      else
        e <- getq queue ;;
        if q_status e <? QUEUE_STATUS_READY then ret (-1)
        else
          queue_add_list queue b0 tail ;;;
          doit <- mark_sched queue ;;
          n <- enq_fuel ;;
          schedule_or_abort (enqueue n) doit queue ;;;
          ret (zlen buf_hdr)
  end.

Definition queue_pktout_enq_multi (queue : Z) (buf_hdr : list Z) (sustain : bool) : M W Z :=
  match buf_hdr with
  | [] => abort
  | b0 :: _ =>
      ' (origin_qe, order) <- get_queue_order b0 ;;
      if isnull origin_qe then pktout_enq_multi queue buf_hdr
      else
        chain_bufs buf_hdr ;;;
        modb b0 (fun h => set_b_link (b_next h) h) ;;;
        rc <- queue_pktout_enq queue b0 sustain ;;
        ret (if rc =? 0 then zlen buf_hdr else rc)
  end.

Definition odp_queue_enq_multi (handle : Z) (ev : list Z) : M W Z :=
  let ev := take (Z.to_nat QUEUE_MULTI_MAX) ev in
  e <- getq handle ;;
  if zlen ev =? 0 then ret 0
  else match q_ops e with
       | OPS_QUEUE => queue_enq_multi handle ev SUSTAIN_ORDER
       | OPS_PKTOUT => queue_pktout_enq_multi handle ev SUSTAIN_ORDER
       | OPS_PKTIN | OPS_NULL => abort
       end.

(** * Dequeue *)

(** [sync\[i\] = sync_in\[i\]++] for the first [n] ordered locks: the new union of the
    header and the new counters. *)
Fixpoint take_syncs (n : nat) (sync_in sync : list Z) : option (list Z * list Z) :=
  match n, sync_in, sync with
  | O, _, _ => Some (sync, sync_in)
  | S n, c :: sync_in, _ :: sync =>
      '(sync, sync_in) ← take_syncs n sync_in sync;
      Some (c :: sync, (c +u64 1) :: sync_in)
  | S _, _, _ => None
  end.

(** What both dequeues do to a header they take off an ordered, or an
    unordered, queue. *)
Definition assign_order (queue buf_hdr : Z) : M W unit :=
  e <- getq queue ;;
  if queue_is_ordered e then
    h <- getb buf_hdr ;;
    ' (sync, sync_in) <-
      lift (take_syncs (Z.to_nat (p_lock_count (q_param e))) (q_sync_in e) (b_union h)) ;;
    modb buf_hdr (fun h =>
      set_b_sustain SUSTAIN_ORDER
        (set_b_union sync (set_b_order (q_order_in e) (set_b_origin_qe queue h)))) ;;;
    modq queue (fun e => set_q_sync_in sync_in (set_q_order_in (q_order_in e +u64 1) e))
  else modb buf_hdr (set_b_origin_qe NULL).

(** [if (head == NULL) tail = NULL] *)
Definition fix_tail (queue : Z) : M W unit :=
  modq queue (fun e => if isnull (q_head e) then set_q_tail NULL e else e).

(** An empty scheduled queue leaves scheduling. *)
Definition leave_sched (queue : Z) : M W unit :=
  modq queue (fun e => if q_status e =? QUEUE_STATUS_SCHED
                       then set_q_status QUEUE_STATUS_NOTSCHED e else e).

Definition queue_deq (queue : Z) : M W Z :=
  e <- getq queue ;;
  if isnull (q_head e) then leave_sched queue ;;; ret NULL
  else
    let buf_hdr := q_head e in
    h <- getb buf_hdr ;;
    modq queue (set_q_head (b_next h)) ;;;
    modb buf_hdr (set_b_next NULL) ;;;
    assign_order queue buf_hdr ;;;
    fix_tail queue ;;;
    ret buf_hdr.

(** The loop of [queue_deq_multi]: the headers taken and the new head. *)
Fixpoint deq_loop (num : nat) (queue hdr : Z) : M W (list Z * Z) :=
  match num with
  | O => ret ([], hdr)
  | S num =>
      if isnull hdr then ret ([], hdr)
      else
        h <- getb hdr ;;
        modb hdr (set_b_next NULL) ;;;
        assign_order queue hdr ;;;
        ' (l, hdr') <- deq_loop num queue (b_next h) ;;
        ret (hdr :: l, hdr')
  end.

Definition queue_deq_multi (queue num : Z) : M W (Z * list Z) :=
  e <- getq queue ;;
  if q_status e <? QUEUE_STATUS_READY then ret (-1, [])
  else if isnull (q_head e) then leave_sched queue ;;; ret (0, [])
  else
    ' (l, hdr) <- deq_loop (Z.to_nat num) queue (q_head e) ;;
    modq queue (set_q_head hdr) ;;;
    fix_tail queue ;;;
    ret (zlen l, l).

Definition pktin_dequeue (queue : Z) : M W Z :=
  buf_hdr <- queue_deq queue ;;
  if negb (isnull buf_hdr) then ret buf_hdr
  else
    e <- getq queue ;;
    ' (pkts, pkt_tbl) <- on_world (w_pktio_recv_queue (q_pktin e)) ;;
    if pkts <=? 0 then ret NULL
    else
      match take (Z.to_nat pkts) pkt_tbl with
      | [] => abort
      | b :: rest =>
          (if pkts >? 1 then queue_enq_multi queue rest false ;;; ret tt else ret tt) ;;;
          ret b
      end.

Definition pktin_deq_multi (queue num : Z) : M W (Z * list Z) :=
  ' (nbr, l) <- queue_deq_multi queue num ;;
  if nbr >? num then abort
  else if nbr =? num then ret (nbr, l)
  else
    e <- getq queue ;;
    ' (pkts, pkt_tbl) <- on_world (w_pktio_recv_queue (q_pktin e)) ;;
    if pkts <=? 0 then ret (nbr, l)
    else if nbr <? 0 then abort
    else
      let pkt_tbl := take (Z.to_nat pkts) pkt_tbl in
      let i := Z.to_nat (num - nbr) in
      match drop i pkt_tbl with
      | [] => ret tt
      | rest => queue_enq_multi queue rest false ;;; ret tt
      end ;;;
      ret (nbr + zlen (take i pkt_tbl), l ++ take i pkt_tbl).

Definition odp_queue_deq (handle : Z) : M W Z :=
  e <- getq handle ;;
  match q_ops e with
  | OPS_QUEUE => queue_deq handle
  | OPS_PKTIN => pktin_dequeue handle
  | OPS_PKTOUT | OPS_NULL => abort
  end.

Definition odp_queue_deq_multi (handle num : Z) : M W (Z * list Z) :=
  let num := if num >? QUEUE_MULTI_MAX then QUEUE_MULTI_MAX else num in
  e <- getq handle ;;
  match q_ops e with
  | OPS_QUEUE => queue_deq_multi handle num
  | OPS_PKTIN => pktin_deq_multi handle num
  | OPS_PKTOUT | OPS_NULL => abort
  end.

(** * Releasing an order *)

(** The last header of [order] from [reorder_buf] on ([next_buf] its successor). *)
Fixpoint last_of_order (fuel : nat) (order reorder_buf next_buf : Z) : M W Z :=
  match fuel with
  | O => abort
  | S fuel =>
      if isnull next_buf then ret reorder_buf else
      h <- getb next_buf ;;
      if b_order h =? order then last_of_order fuel order next_buf (b_next h)
      else ret reorder_buf
  end.

Definition release_order (origin_qe order pool : Z) (enq_called : bool) : M W Z :=
  oe <- getq origin_qe ;;
  if order <=? q_order_out oe then
    same <- (if isnull (q_reorder_head oe) then ret false
             else h <- getb (q_reorder_head oe) ;; ret (b_order h =? order)) ;;
    if same : bool then
      let reorder_head := q_reorder_head oe in
      h0 <- getb reorder_head ;;
      fuel <- walk_fuel ;;
      reorder_buf <- last_of_order fuel order reorder_head (b_next h0) ;;
      hl <- getb reorder_buf ;;
      modq origin_qe (set_q_reorder_head (b_next hl)) ;;;
      modb reorder_buf (set_b_next NULL) ;;;
      hl <- getb reorder_buf ;;
      modb reorder_head (set_b_link (b_next hl)) ;;;
      h0 <- getb reorder_head ;;
      ordered_queue_enq (b_target_qe h0) reorder_head RESOLVE_ORDER origin_qe order
    else
      order_release origin_qe 1 ;;;
      ' (reorder_buf, placeholder_buf) <- reorder_complete origin_qe NULL false ;;
      (if isnull reorder_buf then ret 0 else queue_enq_internal reorder_buf) ;;;
      fuel <- walk_fuel ;;
      free_placeholders fuel placeholder_buf ;;;
      ret 0
  else
    fuel <- walk_fuel ;;
    last <- (if enq_called then
               ' (reorder_buf, _) <- reorder_find fuel order NULL (q_reorder_head oe) ;;
               if isnull reorder_buf then ret NULL
               else h <- getb reorder_buf ;; ret (if b_order h =? order then reorder_buf else NULL)
             else ret NULL) ;;
    if negb (isnull last) then modb last (set_b_sustain false) ;;; ret 0
    else
      placeholder <- on_world (w_buffer_alloc pool) ;;
      if placeholder =? ODP_BUFFER_INVALID then ret (-1)
      else
        modb placeholder (fun h =>
          set_b_sustain false (set_b_order order (set_b_origin_qe origin_qe h))) ;;;
        reorder_enq NULL order origin_qe placeholder false ;;;
        ret 0.

(** * Scheduler registration of a queue *)

Definition pri_id_queue (queue : Z) : Z := (QUEUES_PER_PRIO - 1) & queue_to_id queue.

Definition pri_set (id prio : Z) : M W Z :=
  mods (fun s =>
    m ← zget (s_pri_mask s) prio;
    masks ← zset (s_pri_mask s) prio (u8 (Z.lor m (Z.shiftl 1 id)));
    row ← zget (s_pri_count s) prio;
    c ← zget row id;
    row ← zset row id (c +u32 1);
    counts ← zset (s_pri_count s) prio row;
    Some (set_s_pri_count counts (set_s_pri_mask masks s))) ;;;
  s <- gets sched ;;
  lift (row ← zget (s_pri_queue s) prio; zget row id).

Definition pri_clr (id prio : Z) : M W unit :=
  mods (fun s =>
    row ← zget (s_pri_count s) prio;
    c ← zget row id;
    row ← zset row id (c -u32 1);
    counts ← zset (s_pri_count s) prio row;
    m ← zget (s_pri_mask s) prio;
    masks ← zset (s_pri_mask s) prio
              (if c -u32 1 =? 0 then m & u8 (Z.lnot (Z.shiftl 1 id)) else m);
    Some (set_s_pri_count counts (set_s_pri_mask masks s))).

Definition schedule_queue_init (queue : Z) : M W Z :=
  s <- gets sched ;;
  buf <- on_world (w_buffer_alloc (s_pool s)) ;;
  if buf =? ODP_BUFFER_INVALID then ret (-1)
  else
    (fun s => Some (tt, set_cmds (<[buf := CMD_DEQUEUE queue]> (cmds s)) s)) ;;;
    modq queue (set_q_cmd_ev buf) ;;;
    e <- getq queue ;;
    pri_queue <- pri_set (pri_id_queue (q_handle e)) (p_prio (q_param e)) ;;
    modq queue (set_q_pri_queue pri_queue) ;;;
    ret 0.

Definition schedule_queue_destroy (queue : Z) : M W unit :=
  e <- getq queue ;;
  buffer_free (q_cmd_ev e) ;;;
  pri_clr (pri_id_queue (q_handle e)) (p_prio (q_param e)) ;;;
  modq queue (set_q_cmd_ev ODP_EVENT_INVALID) ;;;
  modq queue (set_q_pri_queue ODP_QUEUE_INVALID).

(** * Creation, lookup, destruction *)

Definition odp_queue_param_init : queue_param :=
  Qparam ODP_QUEUE_TYPE_PLAIN ODP_QUEUE_OP_MT ODP_QUEUE_OP_MT 0 0 0 0 0.

Definition PKTIN_INVALID : Z * Z := (0, 0).

(** The parameters a queue gets when [param] is null. *)
Definition default_param : queue_param :=
  set_p_group ODP_SCHED_GROUP_ALL
    (set_p_sync ODP_SCHED_SYNC_ATOMIC (set_p_prio ODP_SCHED_PRIO_DEFAULT odp_queue_param_init)).

Definition queue_init (queue : Z) (name : string) (param : option queue_param) : M W Z :=
  modq queue (set_q_name (String.substring 0 (ODP_QUEUE_NAME_LEN - 1) name)) ;;;
  modq queue (set_q_param (default default_param param)) ;;;
  e <- getq queue ;;
  if match param with
     | Some _ => p_lock_count (q_param e) >? ODP_CONFIG_MAX_ORDERED_LOCKS_PER_QUEUE
     | None => false
     end
  then ret (-1)
  else
    match param with
    | Some p => if p_type p =? ODP_QUEUE_TYPE_SCHED
                then modq queue (fun e => set_q_param (set_p_deq_mode ODP_QUEUE_OP_DISABLED (q_param e)) e)
                else ret tt
    | None => ret tt
    end ;;;
    modq queue (fun e => set_q_type (p_type (q_param e)) e) ;;;
    modq queue (fun e => set_q_ops
      (if q_type e =? ODP_QUEUE_TYPE_PKTIN then OPS_PKTIN
       else if q_type e =? ODP_QUEUE_TYPE_PKTOUT then OPS_PKTOUT else OPS_QUEUE) e) ;;;
    modq queue (fun e =>
      set_q_cmd_ev ODP_EVENT_INVALID (set_q_pri_queue ODP_QUEUE_INVALID
        (set_q_reorder_tail NULL (set_q_reorder_head NULL
          (set_q_tail NULL (set_q_head NULL (set_q_pktin PKTIN_INVALID e))))))) ;;;
    ret 0.

(** Whether a queue of [type] is known to the scheduler. *)
Definition sched_type (type : Z) : bool :=
  (type =? ODP_QUEUE_TYPE_SCHED) || (type =? ODP_QUEUE_TYPE_PKTIN).

(** The search for a free entry from index [i] on. *)
Fixpoint create_loop (n : nat) (i : Z) (name : string) (param : option queue_param) : M W Z :=
  match n with
  | O => ret ODP_QUEUE_INVALID
  | S n =>
      let queue := queue_from_id i in
      e <- getq queue ;;
      if negb (q_status e =? QUEUE_STATUS_FREE) then create_loop n (i + 1) name param
      else
        rc <- queue_init queue name param ;;
        if negb (rc =? 0) then ret ODP_QUEUE_INVALID
        else
          modq queue (fun e => set_q_status
            (if sched_type (q_type e) then QUEUE_STATUS_NOTSCHED else QUEUE_STATUS_READY) e) ;;;
          e <- getq queue ;;
          ret (q_handle e)
  end.

Definition odp_queue_create (name : string) (param : option queue_param) : M W Z :=
  handle <- create_loop (Z.to_nat ODP_CONFIG_QUEUES) 0 name param ;;
  if handle =? ODP_QUEUE_INVALID then ret handle
  else
    e <- getq handle ;;
    if sched_type (q_type e) then
      rc <- schedule_queue_init handle ;;
      ret (if rc =? 0 then handle else ODP_QUEUE_INVALID)
    else ret handle.

Definition queue_destroy_finalize (queue : Z) : M W unit :=
  e <- getq queue ;;
  if q_status e =? QUEUE_STATUS_DESTROYED then
    modq queue (set_q_status QUEUE_STATUS_FREE) ;;;
    schedule_queue_destroy queue
  else ret tt.

Definition odp_queue_destroy (handle : Z) : M W Z :=
  if handle =? ODP_QUEUE_INVALID then ret (-1)
  else
    e <- getq handle ;;
    if q_status e =? QUEUE_STATUS_FREE then ret (-1)
    else if q_status e =? QUEUE_STATUS_DESTROYED then ret (-1)
    else if negb (isnull (q_head e)) then ret (-1)
    else if queue_is_ordered e && negb (isnull (q_reorder_head e)) then ret (-1)
    else if q_status e =? QUEUE_STATUS_READY then
      modq handle (set_q_status QUEUE_STATUS_FREE) ;;; ret 0
    else if q_status e =? QUEUE_STATUS_NOTSCHED then
      modq handle (set_q_status QUEUE_STATUS_FREE) ;;;
      schedule_queue_destroy handle ;;; ret 0
    else if q_status e =? QUEUE_STATUS_SCHED then
      modq handle (set_q_status QUEUE_STATUS_DESTROYED) ;;; ret 0
    else abort.

Fixpoint lookup_loop (n : nat) (i : Z) (name : string) : M W Z :=
  match n with
  | O => ret ODP_QUEUE_INVALID
  | S n =>
      e <- getq (queue_from_id i) ;;
      if (q_status e =? QUEUE_STATUS_FREE) || (q_status e =? QUEUE_STATUS_DESTROYED)
      then lookup_loop n (i + 1) name
      else if bool_decide (name = q_name e) then ret (q_handle e)
      else lookup_loop n (i + 1) name
  end.

Definition odp_queue_lookup (name : string) : M W Z :=
  lookup_loop (Z.to_nat ODP_CONFIG_QUEUES) 0 name.

Definition odp_queue_lock_count (handle : Z) : M W Z :=
  e <- getq handle ;;
  ret (if queue_is_ordered e then s32 (p_lock_count (q_param e)) else -1).

Definition odp_queue_context_set (handle context : Z) : M W Z :=
  modq handle (fun e => set_q_param (set_p_context context (q_param e)) e) ;;; ret 0.
Definition odp_queue_context (handle : Z) : M W Z :=
  e <- getq handle ;; ret (p_context (q_param e)).

(** The return code, and [info] when it was filled in. *)
Definition odp_queue_info (handle : Z) (info : bool) : M W (Z * option (string * queue_param)) :=
  if negb info then ret (-1, None)
  else if queue_to_id handle >=? ODP_CONFIG_QUEUES then ret (-1, None)
  else
    e <- getq (queue_from_id (queue_to_id handle)) ;;
    if (q_status e =? QUEUE_STATUS_FREE) || (q_status e =? QUEUE_STATUS_DESTROYED)
    then ret (-1, None)
    else ret (0, Some (q_name e, q_param e)).

(** Whether every queue from index [i] on is free. *)
Fixpoint all_free (n : nat) (i : Z) : M W bool :=
  match n with
  | O => ret true
  | S n =>
      e <- getq (queue_from_id i) ;;
      r <- all_free n (i + 1) ;;
      ret ((q_status e =? QUEUE_STATUS_FREE) && r)
  end.

(** [shm_free] is what [odp_shm_free] returned. *)
Definition odp_queue_term_global (shm_free : Z) : M W Z :=
  r <- all_free (Z.to_nat ODP_CONFIG_QUEUES) 0 ;;
  ret (if r && negb (shm_free <? 0) then 0 else -1).

End queue.

(** The entry [odp_queue_init_global] leaves at index [i]. *)
Definition zero_entry (i : Z) : queue_entry :=
  Qentry NULL NULL QUEUE_STATUS_FREE OPS_NULL (queue_from_id i) 0 0 0 (Qparam 0 0 0 0 0 0 0 0)
    (0, 0) 0 EmptyString 0 0 NULL NULL [0; 0] [0; 0].

Definition odp_queue_init_global : gmap Z queue_entry :=
  list_to_map ((fun i => (queue_from_id (Z.of_nat i), zero_entry (Z.of_nat i)))
                 <$> seq 0 (Z.to_nat ODP_CONFIG_QUEUES)).

End Queue.
