(* ===== verification/QueueProofs.v ===== *)
(** Queues refine lists: what enqueue, multi-enqueue, dequeue and the reorder
    queue do to the sequence of buffers a queue holds.

    [qinv s Q R] says that in state [s] every queue [q] holds the buffers [Q q] in
    this order, that its reorder queue holds [R q], that no buffer is in two
    places, and that a queue waiting to be scheduled owns an idle command event
    and a ready priority queue to put it on. *)

From S2P Require Import Prelude Pool PoolProofs Queue.

Open Scope Z_scope.
Open Scope c_scope.
Open Scope queue_scope.

Module QueueProofs.
Import Pool PoolProofs Queue.

Definition upd (q : Z) (l : list Z) (Q : Z -> list Z) : Z -> list Z :=
  fun x => if bool_decide (x = q) then l else Q x.

Lemma upd_eq q l Q : upd q l Q q = l.
Proof. unfold upd. by rewrite bool_decide_eq_true_2. Qed.
Lemma upd_ne q l Q x : x <> q -> upd q l Q x = Q x.
Proof. intros. unfold upd. by rewrite bool_decide_eq_false_2. Qed.

(** * Chains of buffers *)

Abbreviation bchain := (chain b_next).

Lemma last_in (l : list Z) : l <> [] -> List.last l NULL ∈ l.
Proof.
  intros Hl. apply list_elem_of_In. destruct (exists_last Hl) as (l' & z & ->).
  rewrite List.last_last. apply in_or_app. right. by left.
Qed.

(** Redirecting the last header of a prefix. *)
Lemma bchain_splice m a l1 l0 l2 b v :
  bchain m a (l1 ++ l0) -> l1 <> [] -> NoDup (l1 ++ l2) ->
  m !! List.last l1 NULL = Some v -> bchain m b l2 ->
  bchain (<[List.last l1 NULL := set_b_next b v]> m) a (l1 ++ l2).
Proof.
  revert a. induction l1 as [|x l1 IH]; intros a Hc Hne Hnd Ht Hb; [done|].
  destruct Hc as (-> & Hx & w & Hw & Hc). inversion_clear Hnd as [|?? Hxl Hnd'].
  destruct l1 as [|y l1].
  - simpl in *. split_and!; [done..|].
    exists (set_b_next b v). rewrite lookup_insert_eq. split; [done|]. simpl.
    by apply chain_insert_ne.
  - change (List.last (x :: y :: l1) NULL) with (List.last (y :: l1) NULL) in *.
    assert (List.last (y :: l1) NULL ∈ y :: l1) as Htin by by apply last_in.
    split_and!; [done..|]. exists w.
    rewrite lookup_insert_ne by (intros Heq; rewrite Heq in Htin; set_solver).
    split; [done|]. apply IH; done.
Qed.

Lemma bchain_dom m a l x : bchain m a l -> x ∈ l -> exists v, m !! x = Some v /\ x <> NULL.
Proof.
  revert a. induction l as [|y l IH]; intros a Hc Hx; [set_solver|].
  destruct Hc as (-> & Hy & v & Hv & Hc). apply elem_of_cons in Hx as [->|Hx]; eauto.
Qed.

Lemma bchain_length m a l : bchain m a l -> NoDup l -> (length l <= size m)%nat.
Proof.
  intros Hc Hnd. rewrite <- (size_list_to_set (C := gset Z) l) by done.
  rewrite <- size_dom. apply subseteq_size. intros x Hx%elem_of_list_to_set.
  destruct (bchain_dom _ _ _ _ Hc Hx) as (v & Hv & _). by apply elem_of_dom.
Qed.

Lemma last_app_ne (l1 l2 : list Z) : l2 <> [] -> List.last (l1 ++ l2) NULL = List.last l2 NULL.
Proof.
  intros Hl. destruct (exists_last Hl) as (l' & z & ->).
  by rewrite app_assoc, !List.last_last.
Qed.

(** * The invariant *)

Section proofs.
Context {W : Type} {PL : Platform W}.
Implicit Types (Q R : Z -> list Z) (s : qsys W).

(** [q] waits for its first event: the event that announces it to the scheduler is
    idle and its priority queue is ready to take it. *)
Definition cmd_idle (s : qsys W) (Q R : Z -> list Z) (q : Z) (e : queue_entry) : Prop :=
  exists pe h,
    queues s !! q_pri_queue e = Some pe /\ q_ops pe = OPS_QUEUE /\
    q_status pe = QUEUE_STATUS_READY /\
    q_cmd_ev e <> NULL /\ bufs s !! q_cmd_ev e = Some h /\ b_origin_qe h = NULL /\
    (forall q' e', queues s !! q' = Some e' -> q_cmd_ev e ∉ Q q' ++ R q') /\
    (forall q' e', queues s !! q' = Some e' -> q' <> q ->
       q_status e' = QUEUE_STATUS_NOTSCHED -> q_cmd_ev e' <> q_cmd_ev e).

Record qinv (s : qsys W) (Q R : Z -> list Z) : Prop := {
  qi_list : forall q e, queues s !! q = Some e ->
    bchain (bufs s) (q_head e) (Q q) /\ q_tail e = List.last (Q q) NULL;
  qi_reorder : forall q e, queues s !! q = Some e -> bchain (bufs s) (q_reorder_head e) (R q);
  qi_nodup : forall q e, queues s !! q = Some e -> NoDup (Q q ++ R q);
  qi_disj : forall q q' e e' x, queues s !! q = Some e -> queues s !! q' = Some e' -> q <> q' ->
    x ∈ Q q ++ R q -> x ∉ Q q' ++ R q';
  qi_locks : forall q e, queues s !! q = Some e ->
    0 <= p_lock_count (q_param e) <= ODP_CONFIG_MAX_ORDERED_LOCKS_PER_QUEUE /\
    length (q_sync_in e) = 2%nat /\ length (q_sync_out e) = 2%nat;
  qi_union : forall b h, bufs s !! b = Some h -> length (b_union h) = 2%nat;
  qi_cmd : forall q e, queues s !! q = Some e -> q_status e = QUEUE_STATUS_NOTSCHED ->
    cmd_idle s Q R q e
}.

(** [b] is the application's: a header that is on no queue and is no queue's
    command event. *)
Record app_buf (s : qsys W) (Q R : Z -> list Z) (b : Z) : Prop := {
  ab_null : b <> NULL;
  ab_hdr : exists h, bufs s !! b = Some h /\ b_origin_qe h = NULL;
  ab_list : forall q e, queues s !! q = Some e -> b ∉ Q q ++ R q;
  ab_cmd : forall q e, queues s !! q = Some e -> q_status e = QUEUE_STATUS_NOTSCHED ->
    q_cmd_ev e <> b
}.

(** * Running the monad *)

Lemma bind_assoc {A B C} (m : M W A) (f : A -> M W B) (g : B -> M W C) s :
  bind (bind m f) g s = bind m (fun a => bind (f a) g) s.
Proof. unfold bind. by destruct (m s) as [[a s']|]. Qed.
Lemma bind_some {A B} (m : M W A) (k : A -> M W B) s a s' :
  m s = Some (a, s') -> bind m k s = k a s'.
Proof. intros H. unfold bind. by rewrite H. Qed.
Lemma bind_ret {A B} (a : A) (k : A -> M W B) s : bind (ret a) k s = k a s.
Proof. done. Qed.
Lemma bind_gets {A B} (f : qsys W -> A) (k : A -> M W B) s : bind (gets f) k s = k (f s) s.
Proof. done. Qed.
Lemma bind_modl {B} f (k : unit -> M W B) s : bind (modl f) k s = k tt (set_loc (f (loc s)) s).
Proof. done. Qed.
Lemma bind_getq {B} q (k : queue_entry -> M W B) s e :
  queues s !! q = Some e -> bind (getq q) k s = k e s.
Proof. intros H. unfold bind, getq. by rewrite H. Qed.
Lemma bind_modq {B} q f (k : unit -> M W B) s e :
  queues s !! q = Some e ->
  bind (modq q f) k s = k tt (set_queues (<[q := f e]> (queues s)) s).
Proof. intros H. unfold bind, modq. by rewrite H. Qed.
Lemma bind_getb {B} b (k : qbuf -> M W B) s h :
  bufs s !! b = Some h -> bind (getb b) k s = k h s.
Proof. intros H. unfold bind, getb. by rewrite H. Qed.
Lemma bind_modb {B} b f (k : unit -> M W B) s h :
  bufs s !! b = Some h ->
  bind (modb b f) k s = k tt (set_bufs (<[b := f h]> (bufs s)) s).
Proof. intros H. unfold bind, modb. by rewrite H. Qed.
Lemma modq_run q f s e :
  queues s !! q = Some e -> modq q f s = Some (tt, set_queues (<[q := f e]> (queues s)) s).
Proof. intros H. unfold modq. by rewrite H. Qed.
Lemma modb_run b f s h :
  bufs s !! b = Some h -> modb b f s = Some (tt, set_bufs (<[b := f h]> (bufs s)) s).
Proof. intros H. unfold modb. by rewrite H. Qed.

(** * Changing one queue *)

(** Everything of an entry but the list it holds. *)
Definition meta (e : queue_entry) : queue_entry := set_q_tail NULL (set_q_head NULL e).

(** [x] is on no queue and is not the idle command event of one. *)
Definition unlisted s Q R (x : Z) : Prop :=
  (forall q e, queues s !! q = Some e -> x ∉ Q q ++ R q) /\
  (forall q e, queues s !! q = Some e -> q_status e = QUEUE_STATUS_NOTSCHED -> q_cmd_ev e <> x).

Lemma app_buf_unlisted s Q R b : app_buf s Q R b -> unlisted s Q R b.
Proof. intros []. by split. Qed.

(** The queue [q] gets the list [l] and the entry [e']; headers off its old and new
    lists keep their values. *)
Section update.
Context (s s' : qsys W) (Q R : Z -> list Z) (q : Z) (e e' : queue_entry) (l : list Z).
Context (Hinv : qinv s Q R) (Hq : queues s !! q = Some e)
  (Hqs : queues s' = <[q := e']> (queues s))
  (Hops : q_ops e' = q_ops e) (Hrh : q_reorder_head e' = q_reorder_head e)
  (Hcmd : q_cmd_ev e' = q_cmd_ev e) (Hpri : q_pri_queue e' = q_pri_queue e)
  (Hst1 : q_status e' = QUEUE_STATUS_NOTSCHED -> q_status e = QUEUE_STATUS_NOTSCHED)
  (Hst2 : q_status e = QUEUE_STATUS_READY -> q_status e' = QUEUE_STATUS_READY)
  (Hlk : 0 <= p_lock_count (q_param e') <= ODP_CONFIG_MAX_ORDERED_LOCKS_PER_QUEUE /\
         length (q_sync_in e') = 2%nat /\ length (q_sync_out e') = 2%nat)
  (Hch : bchain (bufs s') (q_head e') l) (Htl : q_tail e' = List.last l NULL)
  (Hnd : NoDup l) (Hl : forall x, x ∈ l -> x ∈ Q q \/ unlisted s Q R x)
  (Hfr : forall x h, bufs s !! x = Some h -> x ∉ Q q -> x ∉ l -> bufs s' !! x = Some h)
  (Hun : forall x h, bufs s' !! x = Some h -> length (b_union h) = 2%nat).

Lemma update_own x : x ∈ Q q -> x ∉ R q.
Proof.
  pose proof (qi_nodup _ _ _ Hinv q e Hq) as Hn.
  apply NoDup_app in Hn as (_ & Hn & _). apply Hn.
Qed.

Lemma update_new_R x : x ∈ l -> x ∉ R q.
Proof.
  intros Hx. destruct (Hl x Hx) as [HQ|[HU _]]; [by apply update_own|].
  specialize (HU q e Hq). set_solver.
Qed.

Lemma update_new_other q' e0 x :
  q' <> q -> queues s !! q' = Some e0 -> x ∈ l -> x ∉ Q q' ++ R q'.
Proof.
  intros Hne Hq' Hx. destruct (Hl x Hx) as [HQ|[HU _]]; [|by eapply HU].
  eapply (qi_disj _ _ _ Hinv q q'); eauto. set_solver.
Qed.

Lemma update_lookup q' e0 :
  queues s' !! q' = Some e0 -> (q' = q /\ e0 = e') \/ (q' <> q /\ queues s !! q' = Some e0).
Proof.
  rewrite Hqs. destruct (decide (q' = q)) as [->|Hne].
  - rewrite lookup_insert_eq. naive_solver.
  - rewrite lookup_insert_ne by done. auto.
Qed.

(** Headers of the other lists are kept. *)
Lemma update_keep q' e0 x h :
  queues s !! q' = Some e0 -> x ∈ Q q' ++ R q' -> (q' = q -> x ∈ R q) ->
  bufs s !! x = Some h -> bufs s' !! x = Some h.
Proof.
  intros Hq' Hx Hcase Hh. destruct (decide (q' = q)) as [->|Hne].
  - specialize (Hcase eq_refl). apply Hfr; [done|..]; intros Hx'.
    + by apply (update_own x).
    + by apply (update_new_R x).
  - apply Hfr; [done|..]; intros Hx'.
    + apply (qi_disj _ _ _ Hinv q' q e0 e x); try done. set_solver.
    + by apply (update_new_other q' e0 x).
Qed.

Lemma update_chain q' e0 a ls :
  queues s !! q' = Some e0 ->
  (forall x, x ∈ ls -> x ∈ Q q' ++ R q' /\ (q' = q -> x ∈ R q)) ->
  bchain (bufs s) a ls -> bchain (bufs s') a ls.
Proof.
  intros Hq' Hin. apply chain_ext. intros x v Hx Hv. exists v. split; [|done].
  destruct (Hin x Hx). by eapply update_keep.
Qed.

Lemma update_cmd q' e0 :
  queues s' !! q' = Some e0 -> q_status e0 = QUEUE_STATUS_NOTSCHED ->
  cmd_idle s' (upd q l Q) R q' e0.
Proof.
  intros H0 Hns.
  assert (exists e1, queues s !! q' = Some e1 /\ q_status e1 = QUEUE_STATUS_NOTSCHED /\
            q_cmd_ev e1 = q_cmd_ev e0 /\ q_pri_queue e1 = q_pri_queue e0)
    as (e1 & H1 & Hs1 & Hc1 & Hp1).
  { destruct (update_lookup q' e0 H0) as [(-> & ->)|(Hne & H1)]; [exists e|exists e0]; auto 6. }
  destruct (qi_cmd _ _ _ Hinv q' e1 H1 Hs1) as (pe & h & Hpe & Hpo & Hps & Hcn & Hh & Hor & Hnl & Hoth).
  assert (q_cmd_ev e1 ∉ l) as Hcl.
  { intros Hx. destruct (Hl _ Hx) as [HQ|[_ HU]]; [|by apply (HU q' e1)].
    apply (Hnl q e Hq). set_solver. }
  assert (exists pe', queues s' !! q_pri_queue e1 = Some pe' /\ q_ops pe' = q_ops pe /\
            q_status pe' = QUEUE_STATUS_READY) as (pe' & Hpe' & Hpo' & Hps').
  { rewrite Hqs. destruct (decide (q_pri_queue e1 = q)) as [Heq|Hne].
    - rewrite Heq in *. rewrite Hq in Hpe. injection Hpe as <-. exists e'. rewrite lookup_insert_eq. auto.
    - exists pe. by rewrite lookup_insert_ne. }
  exists pe', h. rewrite <- Hc1, <- Hp1. split_and!; try done; [congruence|..].
  - apply Hfr; [done| |done]. intros HxQ. apply (Hnl q e Hq). set_solver.
  - intros q2 e2 H2. destruct (update_lookup q2 e2 H2) as [(-> & ->)|(Hne2 & H2')].
    + rewrite upd_eq. specialize (Hnl q e Hq). set_solver.
    + rewrite upd_ne by done. by eapply Hnl.
  - intros q2 e2 H2 Hne2 Hs2. destruct (update_lookup q2 e2 H2) as [(-> & ->)|(Hne3 & H2')].
    + rewrite Hcmd. eapply Hoth; eauto.
    + by eapply Hoth.
Qed.

Lemma qinv_update : qinv s' (upd q l Q) R.
Proof.
  split.
  - intros q' e0 [(-> & ->)|(Hne & H0)]%update_lookup; [by rewrite upd_eq|]. rewrite upd_ne by done.
    destruct (qi_list _ _ _ Hinv q' e0 H0). split; [|done]. eapply update_chain; [done| |done].
    intros x Hx. split; [set_solver|congruence].
  - intros q' e0 [(-> & ->)|(Hne & H0)]%update_lookup.
    + rewrite Hrh. eapply (update_chain q); [done| |by apply (qi_reorder _ _ _ Hinv)]. set_solver.
    + eapply (update_chain q'); [done| |by apply (qi_reorder _ _ _ Hinv)].
      intros x Hx. split; [set_solver|congruence].
  - intros q' e0 [(-> & ->)|(Hne & H0)]%update_lookup.
    + rewrite upd_eq. apply NoDup_app. split_and!; [done|apply update_new_R|].
      pose proof (qi_nodup _ _ _ Hinv q e Hq) as Hn. by apply NoDup_app in Hn as (_ & _ & ?).
    + rewrite upd_ne by done. by apply (qi_nodup _ _ _ Hinv q' e0).
  - intros q1 q2 e1 e2 x [(-> & ->)|(Hne1 & H1)]%update_lookup [(-> & ->)|(Hne2 & H2)]%update_lookup Hne;
      [done|..].
    + rewrite upd_eq, upd_ne by done. intros [Hx|Hx]%elem_of_app; [by eapply update_new_other|].
      eapply (qi_disj _ _ _ Hinv q q2); eauto. set_solver.
    + rewrite upd_eq, upd_ne by done. intros Hx [Hx'|Hx']%elem_of_app; [by eapply update_new_other|].
      apply (qi_disj _ _ _ Hinv q1 q e1 e x); try done. set_solver.
    + rewrite !upd_ne by done. by eapply (qi_disj _ _ _ Hinv q1 q2).
  - intros q' e0 [(-> & ->)|(Hne & H0)]%update_lookup; [done|]. by apply (qi_locks _ _ _ Hinv q').
  - done.
  - apply update_cmd.
Qed.
End update.

(** * Appending to a queue *)

(** The same headers but for their [next] pointers. *)
Definition same_but_next (m m' : gmap Z qbuf) : Prop :=
  forall x, set_b_next NULL <$> m !! x = set_b_next NULL <$> m' !! x.

Lemma same_but_next_refl m : same_but_next m m.
Proof. done. Qed.
Lemma same_but_next_trans m1 m2 m3 :
  same_but_next m1 m2 -> same_but_next m2 m3 -> same_but_next m1 m3.
Proof. intros H1 H2 x. by rewrite H1, H2. Qed.
Lemma same_but_next_insert m x h v :
  m !! x = Some h -> same_but_next (<[x := set_b_next v h]> m) m.
Proof.
  intros Hx y. destruct (decide (y = x)) as [->|Hne].
  - by rewrite lookup_insert_eq, Hx.
  - by rewrite lookup_insert_ne.
Qed.
Lemma same_but_next_Some m m' x h :
  same_but_next m' m -> m !! x = Some h ->
  exists h', m' !! x = Some h' /\ set_b_next NULL h' = set_b_next NULL h.
Proof.
  intros Hs Hx. specialize (Hs x). rewrite Hx in Hs.
  simpl in Hs.
  destruct (m' !! x) as [h'|]; simpl in Hs; [|done]. exists h'. split; [done|exact (inj Some _ _ Hs)].
Qed.
Lemma same_but_next_union s m Q R x h :
  qinv s Q R -> same_but_next m (bufs s) -> m !! x = Some h -> length (b_union h) = 2%nat.
Proof.
  intros Hinv Hs Hx. specialize (Hs x). rewrite Hx in Hs. simpl in Hs.
  destruct (bufs s !! x) as [h0|] eqn:E; [|done].
  assert (set_b_next NULL h = set_b_next NULL h0) as Heq by exact (inj Some _ _ Hs).
  change (length (b_union (set_b_next NULL h)) = 2%nat). rewrite Heq. exact (qi_union _ _ _ Hinv x h0 E).
Qed.

Lemma queue_add_list_run s q e hd tl hb :
  queues s !! q = Some e -> (q_head e <> NULL -> bufs s !! q_tail e = Some hb) ->
  queue_add_list q hd tl s =
    Some (tt, set_queues (<[q := set_q_tail tl (if isnull (q_head e) then set_q_head hd e else e)]> (queues s))
                (set_bufs (if isnull (q_head e) then bufs s
                           else <[q_tail e := set_b_next hd hb]> (bufs s)) s)).
Proof.
  intros Hq Hb. unfold queue_add_list. rewrite (bind_getq _ _ _ _ Hq).
  destruct (isnull (q_head e)) eqn:E; unfold isnull in E; zbool.
  - rewrite (bind_modq _ _ _ _ e) by done. erewrite modq_run by apply lookup_insert_eq.
    unfold set_queues, set_bufs; simpl. by rewrite insert_insert_eq.
  - rewrite (bind_modb _ _ _ _ hb) by auto. by erewrite modq_run.
Qed.

(** The list a chain of loose headers makes when it is hung on a queue's tail. *)
Lemma append_chain s Q R q e bs hd :
  qinv s Q R -> queues s !! q = Some e -> bs <> [] -> bchain (bufs s) hd bs -> NoDup bs ->
  (forall x, x ∈ bs -> unlisted s Q R x) ->
  exists m, queue_add_list q hd (List.last bs NULL) s =
      Some (tt, set_queues (<[q := set_q_tail (List.last bs NULL)
                                     (if isnull (q_head e) then set_q_head hd e else e)]> (queues s))
                  (set_bufs m s)) /\
    same_but_next m (bufs s) /\
    bchain m (if isnull (q_head e) then hd else q_head e) (Q q ++ bs) /\
    (forall x h, bufs s !! x = Some h -> x ∉ Q q -> m !! x = Some h).
Proof.
  intros Hinv Hq Hbs Hch Hnd Hu. destruct (qi_list _ _ _ Hinv q e Hq) as [Hc Ht].
  unfold isnull. destruct (decide (q_head e = NULL)) as [E|E].
  - rewrite E in Hc. apply chain_nil in Hc. exists (bufs s).
    rewrite (queue_add_list_run s q e hd _ (Qbuf 0 0 false 0 0 0 [])) by done. unfold isnull.
    rewrite E, Hc. done.
  - assert (Q q <> []) as Hne by (intros Hn; rewrite Hn in Hc; simpl in Hc; congruence).
    assert (q_tail e ∈ Q q) as Hin by (rewrite Ht; by apply last_in).
    destruct (bchain_dom _ _ _ _ Hc Hin) as (hb & Hhb & _).
    exists (<[q_tail e := set_b_next hd hb]> (bufs s)).
    rewrite (queue_add_list_run s q e hd _ hb) by done. unfold isnull.
    rewrite (proj2 (Z.eqb_neq _ _) E). split_and!; [done|by apply same_but_next_insert|..].
    + rewrite Ht in Hhb |- *. apply (bchain_splice _ _ _ []); [by rewrite app_nil_r|done| |done|done].
      apply NoDup_app. split_and!; [|intros x Hx Hb; by destruct (Hu x Hb) as [HU _]; specialize (HU q e Hq); set_solver|done].
      pose proof (qi_nodup _ _ _ Hinv q e Hq) as Hn. by apply NoDup_app in Hn as (? & _).
    + intros x h Hx Hnin. rewrite lookup_insert_ne; [done|]. by intros <-.
Qed.

Lemma queue_add_list_spec s Q R q e bs hd :
  qinv s Q R -> queues s !! q = Some e -> bs <> [] -> bchain (bufs s) hd bs -> NoDup bs ->
  (forall x, x ∈ bs -> unlisted s Q R x) ->
  exists e' m, queue_add_list q hd (List.last bs NULL) s =
      Some (tt, set_queues (<[q := e']> (queues s)) (set_bufs m s)) /\
    meta e' = meta e /\ same_but_next m (bufs s) /\
    qinv (set_queues (<[q := e']> (queues s)) (set_bufs m s)) (upd q (Q q ++ bs) Q) R.
Proof.
  intros Hinv Hq Hbs Hch Hnd Hu.
  destruct (append_chain s Q R q e bs hd) as (m & Hrun & Hsame & Hch' & Hfr); [done..|].
  eexists _, m. split; [exact Hrun|]. split; [by destruct (isnull (q_head e)); destruct e|]. split; [done|].
  pose proof (qi_nodup _ _ _ Hinv q e Hq) as Hn. apply NoDup_app in Hn as (HnQ & _).
  pose proof (qi_locks _ _ _ Hinv q e Hq) as Hlk.
  eapply (qinv_update s); [done|exact Hq|reflexivity|..];
    try (destruct (isnull (q_head e)); simpl; auto; fail).
  - rewrite last_app_ne by done. by destruct (isnull (q_head e)).
  - apply NoDup_app. split_and!; [done| |done].
    intros x Hx Hb. destruct (Hu x Hb) as [HU _]. specialize (HU q e Hq). set_solver.
  - intros x [Hx|Hx]%elem_of_app; auto.
  - intros x h. simpl. eapply same_but_next_union; eauto.
Qed.

(** Headers that are on no list may change. *)
Lemma qinv_offlist s Q R (bs : list Z) m :
  qinv s Q R -> (forall x, x ∈ bs -> unlisted s Q R x) ->
  (forall x, x ∉ bs -> m !! x = bufs s !! x) ->
  (forall x h, m !! x = Some h -> length (b_union h) = 2%nat) ->
  qinv (set_bufs m s) Q R.
Proof.
  intros Hinv Hu Hm Hlen.
  assert (forall q e a ls, queues s !! q = Some e -> (forall x, x ∈ ls -> x ∈ Q q ++ R q) ->
            bchain (bufs s) a ls -> bchain m a ls) as Hch.
  { intros q e a ls Hq Hin. apply chain_ext. intros x v Hx Hv. exists v. split; [|done].
    rewrite Hm; [done|]. intros Hxb. destruct (Hu x Hxb) as [HU _]. by apply (HU q e Hq), Hin. }
  split; simpl; try apply Hinv; [..|done|].
  - intros q e Hq. destruct (qi_list _ _ _ Hinv q e Hq). split; [|done].
    eapply Hch; [done| |done]. set_solver.
  - intros q e Hq. eapply Hch; [done| |by apply (qi_reorder _ _ _ Hinv)]. set_solver.
  - intros q e Hq Hns. destruct (qi_cmd _ _ _ Hinv q e Hq Hns) as (pe & h & Hpe & Ho & Hs & Hn & Hh & Hrest).
    exists pe, h. split_and!; try done; [|apply Hrest..].
    simpl. rewrite Hm; [done|]. intros Hx. destruct (Hu _ Hx) as [_ HC]. by apply (HC q e).
Qed.

Lemma qinv_modb s Q R b h' :
  qinv s Q R -> unlisted s Q R b -> length (b_union h') = 2%nat ->
  qinv (set_bufs (<[b := h']> (bufs s)) s) Q R.
Proof.
  intros Hinv Hu Hlen. apply (qinv_offlist s Q R [b]); [done|..].
  - by intros x ->%list_elem_of_singleton.
  - intros x Hx. rewrite lookup_insert_ne; [done|]. set_solver.
  - intros x h. destruct (decide (x = b)) as [->|Hne].
    + rewrite lookup_insert_eq. naive_solver.
    + rewrite lookup_insert_ne by done. apply (qi_union _ _ _ Hinv).
Qed.

Lemma qinv_loc s Q R l : qinv s Q R -> qinv (set_loc l s) Q R.
Proof. by intros []. Qed.

Lemma queue_add_spec s Q R q e b h :
  qinv s Q R -> queues s !! q = Some e -> bufs s !! b = Some h -> b <> NULL -> unlisted s Q R b ->
  exists e' m, queue_add q b s = Some (tt, set_queues (<[q := e']> (queues s)) (set_bufs m s)) /\
    meta e' = meta e /\ same_but_next m (bufs s) /\
    qinv (set_queues (<[q := e']> (queues s)) (set_bufs m s)) (upd q (Q q ++ [b]) Q) R.
Proof.
  intros Hinv Hq Hb Hnull Hu. unfold queue_add. rewrite (bind_modb _ _ _ _ h) by done.
  pose proof (qi_union _ _ _ Hinv b h Hb) as Hlen.
  destruct (queue_add_list_spec (set_bufs (<[b := set_b_next NULL h]> (bufs s)) s) Q R q e [b] b)
    as (e' & m & Hrun & Hm & Hs & Hinv').
  - by apply qinv_modb.
  - done.
  - done.
  - split_and!; [done..|]. exists (set_b_next NULL h). simpl. by rewrite lookup_insert_eq.
  - apply NoDup_singleton.
  - intros x ->%list_elem_of_singleton. exact Hu.
  - exists e', m. split_and!; [exact Hrun|done| |exact Hinv'].
    eapply same_but_next_trans; [exact Hs|]. by apply same_but_next_insert.
Qed.

(** * Enqueue outside an ordered context *)

(** The caller holds no order (or is the scheduler itself). *)
Definition plain_ctx s : Prop :=
  l_ignore_ordered_context (loc s) = true \/ l_origin_qe (loc s) = NULL.

Definition clear_ignore s : qsys W := set_loc (set_l_ignore_ordered_context false (loc s)) s.

Lemma get_queue_order_none s b h :
  bufs s !! b = Some h -> b <> NULL -> b_origin_qe h = NULL -> plain_ctx s ->
  exists o, get_queue_order b s = Some ((NULL, o), clear_ignore s).
Proof.
  intros Hb Hn Ho Hctx. unfold get_queue_order, isnull. rewrite (proj2 (Z.eqb_neq _ _) Hn).
  rewrite (bind_getb _ _ _ h) by done. rewrite Ho, Z.eqb_refl.
  unfold get_sched_order. rewrite bind_gets. unfold clear_ignore, set_loc.
  destruct s as [qs bs cs sc l w], l as [? ? ? ? ? ? ? ? ? ? ? ? ? ? []]; simpl in *.
  - by exists 0.
  - destruct Hctx as [|Hl]; [done|]. simpl in Hl. subst. by eexists.
Qed.

Lemma queue_enq_via_plain enq s Q R q e b h sus :
  qinv s Q R -> queues s !! q = Some e -> QUEUE_STATUS_READY <= q_status e ->
  bufs s !! b = Some h -> b <> NULL -> b_origin_qe h = NULL -> unlisted s Q R b -> plain_ctx s ->
  exists e' m, meta e' = meta e /\ same_but_next m (bufs s) /\
    let s1 := clear_ignore (set_queues (<[q := e']> (queues s)) (set_bufs m s)) in
    queue_enq_via enq q b sus s =
      bind (mark_sched q) (fun doit => bind (schedule_or_abort enq doit q) (fun _ => ret 0)) s1 /\
    qinv s1 (upd q (Q q ++ [b]) Q) R.
Proof.
  intros Hinv Hq Hst Hb Hn Ho Hu Hctx.
  destruct (get_queue_order_none s b h) as [o Ho']; [done..|].
  destruct (queue_add_spec (clear_ignore s) Q R q e b h) as (e' & m & Hrun & Hm & Hs & Hinv');
    [by apply qinv_loc|done..|].
  exists e', m. split; [done|]. split; [done|]. split; [|exact Hinv'].
  unfold queue_enq_via. rewrite (bind_some _ _ _ _ _ Ho'). cbv beta iota. change (negb (isnull NULL)) with false. cbv iota.
  rewrite (bind_getq _ _ _ e) by done.
  rewrite (proj2 (Z.ltb_ge _ _)) by done. by rewrite (bind_some _ _ _ _ _ Hrun).
Qed.

Lemma meta_fields e e' :
  meta e' = meta e ->
  q_status e' = q_status e /\ q_ops e' = q_ops e /\ q_pri_queue e' = q_pri_queue e /\
  q_cmd_ev e' = q_cmd_ev e /\ q_reorder_head e' = q_reorder_head e /\ q_param e' = q_param e /\
  q_sync_in e' = q_sync_in e /\ q_sync_out e' = q_sync_out e.
Proof. destruct e, e'. unfold meta, set_q_tail, set_q_head. simpl. intros [=]. naive_solver. Qed.

Lemma enqueue_S n s q e b sus :
  queues s !! q = Some e -> q_ops e = OPS_QUEUE ->
  enqueue (S n) q b sus s = queue_enq_via (enqueue n) q b sus s.
Proof. intros Hq Ho. cbn [enqueue]. rewrite (bind_getq _ _ _ _ Hq). by rewrite Ho. Qed.

(** A ready queue takes the event and needs no scheduling. *)
Lemma enqueue_ready n s Q R p pe c h sus :
  qinv s Q R -> queues s !! p = Some pe -> q_ops pe = OPS_QUEUE ->
  q_status pe = QUEUE_STATUS_READY ->
  bufs s !! c = Some h -> c <> NULL -> b_origin_qe h = NULL -> unlisted s Q R c -> plain_ctx s ->
  exists e' m, meta e' = meta pe /\ same_but_next m (bufs s) /\
    let s1 := clear_ignore (set_queues (<[p := e']> (queues s)) (set_bufs m s)) in
    enqueue (S n) p c sus s = Some (0, s1) /\ qinv s1 (upd p (Q p ++ [c]) Q) R.
Proof.
  intros Hinv Hp Ho Hst Hc Hn Hor Hu Hctx.
  destruct (queue_enq_via_plain (enqueue n) s Q R p pe c h sus)
    as (e' & m & Hm & Hs & Hrun & Hinv'); [done|done|by rewrite Hst|done..|].
  exists e', m. split; [done|]. split; [done|]. split; [|exact Hinv'].
  rewrite (enqueue_S _ _ _ pe) by done. rewrite Hrun. unfold mark_sched.
  rewrite bind_assoc, (bind_getq _ _ _ e') by (simpl; apply lookup_insert_eq).
  destruct (meta_fields _ _ Hm) as (-> & _). by rewrite Hst.
Qed.

(** What announcing a queue with entry [e] to the scheduler does to the lists. *)
Definition kick (e : queue_entry) Q : Z -> list Z :=
  if q_status e =? QUEUE_STATUS_NOTSCHED
  then upd (q_pri_queue e) (Q (q_pri_queue e) ++ [q_cmd_ev e]) Q else Q.

Definition kicked (e : queue_entry) : queue_entry :=
  if q_status e =? QUEUE_STATUS_NOTSCHED then set_q_status QUEUE_STATUS_SCHED e else e.

(** Everything of a header but its two list pointers. *)
Definition unlink (h : qbuf) : qbuf := set_b_link NULL (set_b_next NULL h).

(** [s'] differs from [s] in the lists, the status of [q] (it may now be scheduled)
    and the flag that a plain enqueue clears. *)
Record enq_frame (s s' : qsys W) (q : Z) : Prop := {
  ef_queues : forall x, meta <$> queues s' !! x =
    (fun e => meta (if bool_decide (x = q) then kicked e else e)) <$> queues s !! x;
  ef_bufs : forall x, unlink <$> bufs s' !! x = unlink <$> bufs s !! x;
  ef_rest : cmds s' = cmds s /\ sched s' = sched s /\ world s' = world s;
  ef_loc : loc s' = set_l_ignore_ordered_context false (loc s)
}.

Lemma qinv_ext s Q Q' R : (forall x, Q' x = Q x) -> qinv s Q' R -> qinv s Q R.
Proof.
  intros Hext [H1 H2 H3 H4 H5 H6 H7]. split; try done.
  - intros x ex Hx. rewrite <- Hext. by apply H1.
  - intros x ex Hx. rewrite <- Hext. by apply (H3 x ex).
  - intros x y ex ey z Hx Hy Hne. rewrite <- !Hext. by apply (H4 x y ex ey z).
  - intros x ex Hx Hs. destruct (H7 x ex Hx Hs) as (pe & h & ? & ? & ? & ? & ? & ? & Hl & Ho).
    exists pe, h. split_and!; try done. intros y ey Hy. rewrite <- Hext. by apply (Hl y ey).
Qed.

Lemma qinv_mark s Q R q e :
  qinv s Q R -> queues s !! q = Some e -> q_status e = QUEUE_STATUS_NOTSCHED ->
  qinv (set_queues (<[q := set_q_status QUEUE_STATUS_SCHED e]> (queues s)) s) Q R /\
  unlisted (set_queues (<[q := set_q_status QUEUE_STATUS_SCHED e]> (queues s)) s) Q R (q_cmd_ev e).
Proof.
  intros Hinv Hq Hst. destruct (qi_list _ _ _ Hinv q e Hq) as [Hc Ht].
  set (s' := set_queues _ s).
  assert (qinv s' (upd q (Q q) Q) R) as Hinv'.
  { eapply (qinv_update s s' Q R q e (set_q_status QUEUE_STATUS_SCHED e));
      simpl; auto; try (rewrite Hst; done).
    - apply (qi_locks _ _ _ Hinv q e Hq).
    - pose proof (qi_nodup _ _ _ Hinv q e Hq) as Hn. by apply NoDup_app in Hn as (? & _).
    - apply (qi_union _ _ _ Hinv). }
  split.
  - eapply qinv_ext; [|exact Hinv']. intros x.
    destruct (decide (x = q)) as [->|]; [by rewrite upd_eq|by rewrite upd_ne].
  - destruct (qi_cmd _ _ _ Hinv q e Hq Hst) as (pe & h & _ & _ & _ & _ & _ & _ & Hl & Ho).
    split; intros x ex; subst s'; simpl; (destruct (decide (x = q)) as [->|Hne];
      [rewrite lookup_insert_eq; intros [= <-]|rewrite lookup_insert_ne by done]); simpl; try done.
    + by apply (Hl q e).
    + by apply (Hl x ex).
    + intros Hx Hs. by apply (Ho x ex).
Qed.

Lemma schedule_queue_spec n s Q R q e pe h :
  qinv s Q R -> queues s !! q = Some e -> queues s !! q_pri_queue e = Some pe ->
  q_ops pe = OPS_QUEUE -> q_status pe = QUEUE_STATUS_READY -> q_cmd_ev e <> NULL ->
  bufs s !! q_cmd_ev e = Some h -> b_origin_qe h = NULL -> unlisted s Q R (q_cmd_ev e) ->
  exists pe' m, meta pe' = meta pe /\
    same_but_next m (<[q_cmd_ev e := set_b_link NULL h]> (bufs s)) /\
    let s1 := clear_ignore (set_queues (<[q_pri_queue e := pe']> (queues s)) (set_bufs m s)) in
    schedule_queue_via (enqueue (S n)) q s = Some (0, s1) /\
    qinv s1 (upd (q_pri_queue e) (Q (q_pri_queue e) ++ [q_cmd_ev e]) Q) R.
Proof.
  intros Hinv Hq Hp Ho Hst Hn Hc Hor Hu. set (c := q_cmd_ev e) in *. set (p := q_pri_queue e) in *.
  set (s0 := set_bufs (<[c := set_b_link NULL h]> (bufs s))
               (set_loc (set_l_ignore_ordered_context true (loc s)) s)).
  assert (qinv s0 Q R) as Hinv0.
  { apply (qinv_modb (set_loc _ s)); [by apply qinv_loc|done|]. exact (qi_union _ _ _ Hinv c h Hc). }
  destruct (enqueue_ready n s0 Q R p pe c (set_b_link NULL h) SUSTAIN_ORDER)
    as (pe' & m & Hm & Hs & Hrun & Hinv'); try done.
  { simpl. by rewrite lookup_insert_eq. }
  { by left. }
  assert (forall x y, clear_ignore (set_queues x (set_bufs y s0)) =
            clear_ignore (set_queues x (set_bufs y s))) as Hs0 by reflexivity.
  cbv zeta in Hrun, Hinv'. rewrite Hs0 in Hrun, Hinv'. change (queues s0) with (queues s) in Hrun, Hinv'.
  exists pe', m. split; [done|]. split; [done|]. split; [|exact Hinv'].
  unfold schedule_queue_via. rewrite bind_modl, (bind_getq _ _ _ e) by done.
  unfold odp_queue_enq_via. rewrite (bind_modb _ _ _ _ h) by done. exact Hrun.
Qed.

Lemma ignore_id (l : sched_local_t) :
  l_ignore_ordered_context l = false -> set_l_ignore_ordered_context false l = l.
Proof. by destruct l; simpl; intros ->. Qed.

Lemma kick_spec {A} n s Q R q e (r : A) :
  qinv s Q R -> queues s !! q = Some e -> l_ignore_ordered_context (loc s) = false ->
  exists s', bind (mark_sched q)
      (fun doit => bind (schedule_or_abort (enqueue (S n)) doit q) (fun _ => ret r)) s = Some (r, s') /\
    qinv s' (kick e Q) R /\ enq_frame s s' q.
Proof.
  intros Hinv Hq Hig. unfold mark_sched, kick.
  rewrite bind_assoc, (bind_getq _ _ _ _ Hq).
  destruct (q_status e =? QUEUE_STATUS_NOTSCHED) eqn:E.
  - assert (q_status e = QUEUE_STATUS_NOTSCHED) as Hst by (by zbool).
    rewrite bind_assoc, (bind_modq _ _ _ _ _ Hq), bind_ret.
    destruct (qinv_mark s Q R q e) as [Hinv1 Hu]; [done..|].
    destruct (qi_cmd _ _ _ Hinv q e Hq Hst) as (pe & h & Hpe & Hpo & Hps & Hcn & Hch & Hor & _).
    set (s1 := set_queues _ s) in *. assert (q_pri_queue e <> q) as Hpq.
    { intros Heq. rewrite Heq, Hq in Hpe. injection Hpe as <-. rewrite Hst in Hps. done. }
    destruct (schedule_queue_spec n s1 Q R q (set_q_status QUEUE_STATUS_SCHED e) pe h)
      as (pe' & m & Hm & Hs & Hrun & Hinv2); try done.
    { simpl. by rewrite lookup_insert_eq. }
    { simpl. by rewrite lookup_insert_ne. }
    eexists. split; [|split; [exact Hinv2|]].
    + simpl. by rewrite bind_assoc, (bind_some _ _ _ _ _ Hrun).
    + split; [..|done|done]; intros x; simpl.
      * destruct (decide (x = q_pri_queue e)) as [->|Hne].
        { by rewrite lookup_insert_eq, Hpe, bool_decide_eq_false_2; simpl; [rewrite Hm|]. }
        rewrite lookup_insert_ne by done. destruct (decide (x = q)) as [->|Hne'].
        { rewrite lookup_insert_eq, Hq. rewrite bool_decide_eq_true_2 by done. simpl. unfold kicked. by rewrite E. }
        rewrite lookup_insert_ne, bool_decide_eq_false_2 by done. done.
      * specialize (Hs x). simpl in Hs. destruct (decide (x = q_cmd_ev e)) as [->|Hne].
        { rewrite lookup_insert_eq in Hs. rewrite Hch. destruct (m !! q_cmd_ev e); [|done].
          apply (inj Some) in Hs. simpl. f_equal. unfold unlink. rewrite Hs. done. }
        rewrite lookup_insert_ne in Hs by done.
        destruct (m !! x), (bufs s !! x); simpl in *; try done. apply (inj Some) in Hs.
        unfold unlink. by rewrite Hs.
  - rewrite bind_ret. exists s. split; [done|]. split; [done|]. split; [|done..|by rewrite ignore_id].
    intros x. case_bool_decide as Hx; [subst x; rewrite Hq; simpl; unfold kicked; by rewrite E|done].
Qed.

Lemma kick_meta e e' Q : meta e' = meta e -> kick e' Q = kick e Q /\ meta (kicked e') = meta (kicked e).
Proof.
  intros Hm. destruct (meta_fields _ _ Hm) as (Hst & _ & Hp & Hc & _).
  unfold kick, kicked. rewrite Hst, Hp, Hc. split; [done|].
  destruct (q_status e =? QUEUE_STATUS_NOTSCHED); [|done].
  change (set_q_status QUEUE_STATUS_SCHED (meta e') = set_q_status QUEUE_STATUS_SCHED (meta e)).
  by rewrite Hm.
Qed.

(** An append to [q] followed by the kick. *)
Lemma enq_frame_append s s1 s2 q e e' m :
  queues s !! q = Some e -> meta e' = meta e -> same_but_next m (bufs s) ->
  s1 = clear_ignore (set_queues (<[q := e']> (queues s)) (set_bufs m s)) ->
  enq_frame s1 s2 q -> enq_frame s s2 q.
Proof.
  intros Hq Hm Hs -> [Hqs Hbs Hrest Hl]. split; simpl in *; [..|done|by rewrite Hl].
  - intros x. rewrite Hqs. case_bool_decide as Hx.
    + subst x. rewrite lookup_insert_eq, Hq. simpl. f_equal. by apply (kick_meta _ _ (fun _ => [])).
    + by rewrite lookup_insert_ne.
  - intros x. rewrite Hbs. specialize (Hs x).
    destruct (m !! x), (bufs s !! x); simpl in *; try done. apply (inj Some) in Hs.
    unfold unlink. by rewrite Hs.
Qed.

Lemma enq_frame_link s s1 q b h :
  bufs s !! b = Some h -> enq_frame (set_bufs (<[b := set_b_link NULL h]> (bufs s)) s) s1 q ->
  enq_frame s s1 q.
Proof.
  intros Hb [Hqs Hbs Hrest Hl]. split; [done| |done..].
  intros x. rewrite Hbs. simpl. destruct (decide (x = b)) as [->|Hne].
  - by rewrite lookup_insert_eq, Hb.
  - by rewrite lookup_insert_ne.
Qed.

(** The whole of a plain single enqueue. *)
Lemma odp_queue_enq_spec s Q R q e b :
  qinv s Q R -> app_buf s Q R b -> queues s !! q = Some e -> q_ops e = OPS_QUEUE ->
  QUEUE_STATUS_READY <= q_status e -> plain_ctx s ->
  exists s', odp_queue_enq q b s = Some (0, s') /\
    qinv s' (kick e (upd q (Q q ++ [b]) Q)) R /\ enq_frame s s' q.
Proof.
  intros Hinv Hb Hq Ho Hst Hctx. pose proof (app_buf_unlisted _ _ _ _ Hb) as Hu.
  destruct Hb as [Hn (h & Hh & Hor) _ _].
  unfold odp_queue_enq, enq_fuel. rewrite bind_gets.
  unfold odp_queue_enq_via. rewrite (bind_modb _ _ _ _ h) by done.
  set (s0 := set_bufs _ s). assert (qinv s0 Q R) as Hinv0.
  { apply qinv_modb; [done..|]. exact (qi_union _ _ _ Hinv b h Hh). }
  change (2 + size (bufs s))%nat with (S (S (size (bufs s)))).
  rewrite (enqueue_S _ _ _ e) by done.
  destruct (queue_enq_via_plain (enqueue (S (size (bufs s)))) s0 Q R q e b (set_b_link NULL h) SUSTAIN_ORDER)
    as (e' & m & Hm & Hs & Hrun & Hinv1); try done.
  { simpl. by rewrite lookup_insert_eq. }
  set (s1 := clear_ignore _) in Hrun, Hinv1.
  destruct (kick_spec (size (bufs s)) s1 (upd q (Q q ++ [b]) Q) R q e' 0) as (s2 & Hk & Hinv2 & Hf);
    [done|by simpl; rewrite lookup_insert_eq|done|].
  exists s2. rewrite Hrun. split; [done|]. destruct (kick_meta e e' (upd q (Q q ++ [b]) Q) Hm) as [Hkm _].
  rewrite <- Hkm. split; [done|].
  apply (enq_frame_link s s2 q b h); [done|].
  by apply (enq_frame_append s0 s1 s2 q e e' m).
Qed.

(** * Multi-enqueue *)

Lemma chain_bufs_run bs s :
  (forall x, x ∈ bs -> x <> NULL /\ exists h, bufs s !! x = Some h) -> NoDup bs ->
  exists m, chain_bufs bs s = Some (tt, set_bufs m s) /\ same_but_next m (bufs s) /\
    (forall x, x ∉ bs -> m !! x = bufs s !! x) /\ bchain m (default NULL (head bs)) bs.
Proof.
  revert s. induction bs as [|b bs IH]; intros s Hin Hnd.
  { exists (bufs s). by destruct s. }
  inversion_clear Hnd as [|?? Hb Hnd']. destruct (Hin b) as [Hbn [h Hh]]; [set_solver|].
  set (s0 := set_bufs (<[b := set_b_next (default NULL (head bs)) h]> (bufs s)) s).
  destruct (IH s0) as (m & Hrun & Hs & Hm & Hch); [|done|].
  { intros x Hx. destruct (Hin x) as [Hxn [h' Hh']]; [set_solver|]. split; [done|]. exists h'. simpl.
    rewrite lookup_insert_ne; [done|]. by intros ->. }
  exists m. simpl. rewrite (bind_modb _ _ _ _ h) by done. split_and!.
  - exact Hrun.
  - eapply same_but_next_trans; [exact Hs|]. by apply same_but_next_insert.
  - intros x Hx. rewrite Hm by set_solver. simpl. rewrite lookup_insert_ne; [done|]. set_solver.
  - done.
  - done.
  - exists (set_b_next (default NULL (head bs)) h).
    rewrite Hm by done. simpl. by rewrite lookup_insert_eq.
Qed.

Lemma bind_ext {A B} (m : M W A) (k k' : A -> M W B) s :
  (forall a s', m s = Some (a, s') -> k a s' = k' a s') -> bind m k s = bind m k' s.
Proof. intros H. unfold bind. destruct (m s) as [[a s']|]; auto. Qed.

Lemma mark_sched_bufs q s d s' : mark_sched q s = Some (d, s') -> bufs s' = bufs s.
Proof. unfold mark_sched, bind, getq, modq, ret. intros. repeat case_match; by simplify_eq. Qed.

Lemma queue_enq_multi_spec s Q R q e b0 bs sus :
  qinv s Q R -> (forall x, x ∈ b0 :: bs -> app_buf s Q R x) -> NoDup (b0 :: bs) ->
  queues s !! q = Some e -> QUEUE_STATUS_READY <= q_status e -> plain_ctx s ->
  exists s', queue_enq_multi q (b0 :: bs) sus s = Some (zlen (b0 :: bs), s') /\
    qinv s' (kick e (upd q (Q q ++ b0 :: bs) Q)) R /\ enq_frame s s' q.
Proof.
  intros Hinv Hb Hnd Hq Hst Hctx.
  assert (forall x, x ∈ b0 :: bs -> unlisted s Q R x) as Hu by (intros; by apply app_buf_unlisted, Hb).
  destruct (chain_bufs_run (b0 :: bs) s) as (m & Hrun & Hs & Hm & Hch); [|done|].
  { intros x Hx. destruct (Hb x Hx) as [? (h & ? & _)]. eauto. }
  destruct (Hb b0) as [Hn (h & Hh & Hor) _ _]; [set_solver|].
  destruct (same_but_next_Some _ _ _ _ Hs Hh) as (h' & Hh' & Heq).
  assert (b_origin_qe h' = NULL) as Hor'.
  { change (b_origin_qe (set_b_next NULL h') = NULL). by rewrite Heq. }
  destruct (get_queue_order_none (set_bufs m s) b0 h') as [o Ho]; [done..|].
  set (s1 := clear_ignore (set_bufs m s)).
  assert (qinv s1 Q R) as Hinv1.
  { apply qinv_loc, (qinv_offlist s Q R (b0 :: bs)); try done. intros x hx. eapply same_but_next_union; eauto. }
  destruct (queue_add_list_spec s1 Q R q e (b0 :: bs) b0) as (e' & m' & Hrun' & Hme & Hs' & Hinv2);
    [done..|].
  set (s2 := set_queues _ _) in Hinv2, Hrun'.
  destruct (kick_spec (S (size m')) s2 (upd q (Q q ++ b0 :: bs) Q) R q e' (zlen (b0 :: bs)))
    as (s3 & Hk & Hinv3 & Hf); [done|by simpl; rewrite lookup_insert_eq|done|].
  exists s3. destruct (kick_meta e e' (upd q (Q q ++ b0 :: bs) Q) Hme) as [Hkm _]. rewrite <- Hkm.
  split; [|split; [done|]].
  - unfold queue_enq_multi. rewrite (bind_some _ _ _ _ _ Hrun), (bind_some _ _ _ _ _ Ho). cbv beta iota zeta.
    change (negb (isnull NULL)) with false. cbv iota.
    rewrite (bind_getq _ _ _ e) by done. rewrite (proj2 (Z.ltb_ge _ _)) by done.
    rewrite (bind_some _ _ _ _ _ Hrun'). rewrite <- Hk. apply bind_ext. intros d s2' Em.
    unfold enq_fuel. rewrite bind_gets. by rewrite (mark_sched_bufs _ _ _ _ Em).
  - apply (enq_frame_append s s2 s3 q e e' m'); [done|done| |reflexivity|done].
    by eapply same_but_next_trans.
Qed.

(** * Dequeue *)

Lemma take_syncs_run n si u :
  (n <= length si)%nat -> (n <= length u)%nat ->
  take_syncs n si u = Some (take n si ++ drop n u, ((fun c => c +u64 1) <$> take n si) ++ drop n si).
Proof.
  revert si u. induction n as [|n IH]; intros si u Hs Hu; [done|].
  destruct si as [|c si]; simpl in *; [lia|]. destruct u as [|x u]; simpl in *; [lia|].
  rewrite IH by lia. done.
Qed.

Definition lock_n (e : queue_entry) : nat := Z.to_nat (p_lock_count (q_param e)).

(** The entry after one dequeue, and the header that was dequeued. *)
Definition entry_after (e : queue_entry) : queue_entry :=
  if queue_is_ordered e then
    set_q_sync_in (((fun c => c +u64 1) <$> take (lock_n e) (q_sync_in e)) ++ drop (lock_n e) (q_sync_in e))
      (set_q_order_in (q_order_in e +u64 1) e)
  else e.
Definition hdr_after (q : Z) (e : queue_entry) (h : qbuf) : qbuf :=
  if queue_is_ordered e then
    set_b_sustain SUSTAIN_ORDER
      (set_b_union (take (lock_n e) (q_sync_in e) ++ drop (lock_n e) (b_union h))
         (set_b_order (q_order_in e) (set_b_origin_qe q h)))
  else set_b_origin_qe NULL h.

Definition locks_ok (e : queue_entry) : Prop :=
  0 <= p_lock_count (q_param e) <= ODP_CONFIG_MAX_ORDERED_LOCKS_PER_QUEUE /\
  length (q_sync_in e) = 2%nat /\ length (q_sync_out e) = 2%nat.

Lemma lock_n_le e : locks_ok e -> (lock_n e <= 2)%nat.
Proof. unfold locks_ok, lock_n, ODP_CONFIG_MAX_ORDERED_LOCKS_PER_QUEUE. lia. Qed.

Lemma assign_order_run s q e x h :
  queues s !! q = Some e -> locks_ok e -> bufs s !! x = Some h -> length (b_union h) = 2%nat ->
  assign_order q x s = Some (tt, set_queues (<[q := entry_after e]> (queues s))
                                   (set_bufs (<[x := hdr_after q e h]> (bufs s)) s)).
Proof.
  intros Hq Hlk Hx Hu. pose proof (lock_n_le e Hlk) as Hn. destruct Hlk as (_ & Hi & _).
  unfold assign_order, entry_after, hdr_after. rewrite (bind_getq _ _ _ _ Hq).
  destruct (queue_is_ordered e).
  - rewrite (bind_getb _ _ _ _ Hx). unfold lift, bind at 1.
    fold (lock_n e). rewrite take_syncs_run by lia.
    rewrite (bind_modb _ _ _ _ h) by done. by rewrite (modq_run _ _ _ e).
  - rewrite (modb_run _ _ _ h) by done. rewrite (insert_id (queues s)) by done. by destruct s.
Qed.

Lemma entry_after_locks e : locks_ok e -> locks_ok (entry_after e).
Proof.
  intros Hlk. pose proof (lock_n_le e Hlk). destruct Hlk as (Hl & Hi & Ho). unfold entry_after.
  destruct (queue_is_ordered e); [|done]. split_and!; simpl; try done; try lia.
  rewrite length_app, length_fmap, length_take, length_drop. lia.
Qed.

Lemma hdr_after_union q e h :
  locks_ok e -> length (b_union h) = 2%nat -> length (b_union (hdr_after q e h)) = 2%nat.
Proof.
  intros Hlk Hu. pose proof (lock_n_le e Hlk). destruct Hlk as (_ & Hi & _). unfold hdr_after.
  destruct (queue_is_ordered e); [|done]. simpl. rewrite length_app, length_take, length_drop. lia.
Qed.

(** The headers of [l] dequeued one after the other. *)
Fixpoint stamp (q : Z) (e : queue_entry) (m : gmap Z qbuf) (l : list Z) : queue_entry * gmap Z qbuf :=
  match l with
  | [] => (e, m)
  | x :: l => stamp q (entry_after e) (alter (fun h => hdr_after q e (set_b_next NULL h)) x m) l
  end.

Lemma stamp_other q e m l y : y ∉ l -> snd (stamp q e m l) !! y = m !! y.
Proof.
  revert e m. induction l as [|x l IH]; intros e m Hy; simpl; [done|].
  rewrite IH by set_solver. apply lookup_alter_ne. set_solver.
Qed.

Lemma stamp_entry q e m l : fst (stamp q e m l) = Nat.iter (length l) entry_after e.
Proof.
  revert e m. induction l as [|x l IH]; intros e m; simpl; [done|].
  by rewrite IH, <- Nat.iter_succ_r.
Qed.

Lemma stamp_at q e m l i x h :
  NoDup l -> l !! i = Some x -> m !! x = Some h ->
  snd (stamp q e m l) !! x = Some (hdr_after q (Nat.iter i entry_after e) (set_b_next NULL h)).
Proof.
  revert e m i. induction l as [|y l IH]; intros e m i Hnd Hi Hx; [done|].
  inversion_clear Hnd as [|?? Hy Hnd']. destruct i as [|i]; simpl in Hi.
  - injection Hi as ->. simpl. rewrite stamp_other by done. by rewrite lookup_alter_eq, Hx.
  - simpl. assert (x <> y) by (intros ->; apply Hy; by eapply list_elem_of_lookup_2).
    rewrite (IH _ _ i) by (done || by rewrite lookup_alter_ne).
    by rewrite <- Nat.iter_succ_r.
Qed.

Lemma stamp_union q e m l :
  locks_ok e -> (forall x h, m !! x = Some h -> length (b_union h) = 2%nat) ->
  locks_ok (fst (stamp q e m l)) /\
  (forall x h, snd (stamp q e m l) !! x = Some h -> length (b_union h) = 2%nat).
Proof.
  revert e m. induction l as [|x l IH]; intros e m Hlk Hm; simpl; [done|].
  apply IH; [by apply entry_after_locks|]. intros y h.
  destruct (decide (y = x)) as [->|Hne].
  - rewrite lookup_alter_eq. destruct (m !! x) as [h0|] eqn:E; simpl; [|done].
    intros [= <-]. apply hdr_after_union; [done|]. exact (Hm x h0 E).
  - rewrite lookup_alter_ne by done. apply Hm.
Qed.

Lemma deq_loop_run n s q e hdr l :
  queues s !! q = Some e -> locks_ok e ->
  (forall x h, bufs s !! x = Some h -> length (b_union h) = 2%nat) ->
  bchain (bufs s) hdr l -> NoDup l ->
  let r := stamp q e (bufs s) (take n l) in
  deq_loop n q hdr s =
    Some ((take n l, default NULL (head (drop n l))),
          set_queues (<[q := fst r]> (queues s)) (set_bufs (snd r) s)) /\
  bchain (snd r) (default NULL (head (drop n l))) (drop n l).
Proof.
  revert s e hdr l. induction n as [|n IH]; intros s e hdr l Hq Hlk Hu Hc Hnd.
  { simpl. rewrite take_0, drop_0, insert_id by done. split; [|by destruct l; [|destruct Hc as [-> ?]]].
    destruct l as [|x l]; [simpl in Hc|destruct Hc as [Hc _]; simpl]; rewrite Hc; by destruct s. }
  destruct l as [|x l].
  { simpl in *. rewrite Hc. simpl. rewrite insert_id by done. split; [|done]. by destruct s. }
  destruct Hc as (-> & Hx & h & Hh & Hc). inversion_clear Hnd as [|?? Hxl Hnd'].
  set (s1 := set_queues (<[q := entry_after e]> (queues s))
               (set_bufs (alter (fun h => hdr_after q e (set_b_next NULL h)) x (bufs s)) s)).
  destruct (stamp_union q e (bufs s) [x] Hlk Hu) as [Hlk1 Hu1]. simpl in Hlk1, Hu1.
  destruct (IH s1 (entry_after e) (b_next h) l) as [Hrun Hch]; [|done..| |done|].
  { simpl. apply lookup_insert_eq. }
  { simpl. eapply chain_ext; [|exact Hc]. intros y v Hy Hv. exists v. split; [|done].
    rewrite lookup_alter_ne; [done|]. by intros ->. }
  cbn [take drop]. split; [|exact Hch].
  cbn [deq_loop]. unfold isnull. rewrite (proj2 (Z.eqb_neq _ _) Hx).
  rewrite (bind_getb _ _ _ h), (bind_modb _ _ _ _ h) by done.
  erewrite bind_some; [|eapply (assign_order_run _ q e x (set_b_next NULL h)); [done|done|by simpl; rewrite lookup_insert_eq|]].
  2: exact (Hu x h Hh).
  cbn [queues bufs set_queues set_bufs]. rewrite insert_insert_eq.
  assert (<[x := hdr_after q e (set_b_next NULL h)]> (bufs s) =
          alter (fun h => hdr_after q e (set_b_next NULL h)) x (bufs s)) as ->.
  { apply map_eq. intros y. destruct (decide (y = x)) as [->|Hne].
    - by rewrite lookup_insert_eq, lookup_alter_eq, Hh.
    - by rewrite lookup_insert_ne, lookup_alter_ne. }
  change (set_queues _ (set_bufs _ (set_bufs _ s))) with s1.
  rewrite (bind_some _ _ _ _ _ Hrun). cbn [fst snd stamp]. unfold s1. simpl.
  rewrite insert_insert_eq. done.
Qed.

(** What a dequeue leaves alone in an entry. *)
Lemma iter_fields i e :
  let e' := Nat.iter i entry_after e in
  q_ops e' = q_ops e /\ q_reorder_head e' = q_reorder_head e /\ q_cmd_ev e' = q_cmd_ev e /\
  q_pri_queue e' = q_pri_queue e /\ q_status e' = q_status e /\ q_param e' = q_param e /\
  q_head e' = q_head e /\ q_tail e' = q_tail e.
Proof.
  induction i as [|i IH]; [done|]. cbv zeta in *. rewrite Nat.iter_succ.
  set (e0 := Nat.iter i entry_after e) in *. clearbody e0. unfold entry_after.
  by destruct (queue_is_ordered e0).
Qed.

Lemma iter_ordered i e : queue_is_ordered (Nat.iter i entry_after e) = queue_is_ordered e.
Proof. unfold queue_is_ordered. by destruct (iter_fields i e) as (_ & _ & _ & _ & _ & -> & _). Qed.

Lemma iter_lock_n i e : lock_n (Nat.iter i entry_after e) = lock_n e.
Proof. unfold lock_n. by destruct (iter_fields i e) as (_ & _ & _ & _ & _ & -> & _). Qed.

Lemma u64_succ x i : u64 (u64 (x + Z.of_nat i) + 1) = u64 (x + Z.of_nat (S i)).
Proof. cint. Qed.

Lemma iter_order_in i e :
  queue_is_ordered e = true -> is_u64 (q_order_in e) ->
  q_order_in (Nat.iter i entry_after e) = q_order_in e +u64 Z.of_nat i.
Proof.
  intros Ho Hb. induction i as [|i IH].
  - rewrite Z.add_0_r. by rewrite u64_small.
  - rewrite Nat.iter_succ. unfold entry_after at 1. rewrite iter_ordered, Ho. simpl. by rewrite IH, u64_succ.
Qed.

Lemma iter_sync_in i e j c :
  queue_is_ordered e = true -> locks_ok e -> (j < lock_n e)%nat ->
  q_sync_in e !! j = Some c -> is_u64 c ->
  q_sync_in (Nat.iter i entry_after e) !! j = Some (c +u64 Z.of_nat i).
Proof.
  intros Ho Hlk Hj Hc Hb. induction i as [|i IH].
  - rewrite Z.add_0_r, u64_small by done. done.
  - rewrite Nat.iter_succ. unfold entry_after at 1. rewrite iter_ordered, Ho. simpl. rewrite iter_lock_n.
    rewrite lookup_app_l.
    + rewrite list_lookup_fmap, lookup_take_lt, IH by done. simpl. f_equal. apply u64_succ.
    + rewrite length_fmap, length_take. apply lookup_lt_Some in IH. lia.
Qed.

Definition counters_ok (e : queue_entry) : Prop :=
  is_u64 (q_order_in e) /\ Forall is_u64 (q_sync_in e).

(** The header of the [i]th buffer a dequeue takes off a queue with entry [e]. *)
Definition dequeued (q : Z) (e : queue_entry) (i : nat) (h : qbuf) : Prop :=
  b_next h = NULL /\
  if queue_is_ordered e then
    b_origin_qe h = q /\ b_order h = q_order_in e +u64 Z.of_nat i /\ b_sustain h = true /\
    forall j c, (j < lock_n e)%nat -> q_sync_in e !! j = Some c ->
      b_union h !! j = Some (c +u64 Z.of_nat i)
  else b_origin_qe h = NULL.

Lemma dequeued_after q e i h :
  locks_ok e -> counters_ok e ->
  dequeued q e i (hdr_after q (Nat.iter i entry_after e) (set_b_next NULL h)).
Proof.
  intros Hlk [Hoi Hsi]. unfold dequeued, hdr_after. rewrite iter_ordered.
  destruct (queue_is_ordered e) eqn:Ho; [|done]. simpl. split_and!; try done.
  - by apply iter_order_in.
  - intros j c Hj Hc. rewrite iter_lock_n.
    pose proof (iter_sync_in i e j c Ho Hlk Hj Hc (Forall_lookup_1 _ _ _ _ Hsi Hc)) as Hs.
    rewrite lookup_app_l; [by rewrite lookup_take_lt|].
    rewrite length_take. apply lookup_lt_Some in Hs. lia.
Qed.

Lemma fix_tail_run s q e :
  queues s !! q = Some e ->
  fix_tail q s = Some (tt, set_queues (<[q := if isnull (q_head e) then set_q_tail NULL e else e]> (queues s)) s).
Proof. intros. unfold fix_tail. by erewrite modq_run. Qed.

Lemma last_drop n (l : list Z) :
  NULL ∉ l ->
  (if isnull (default NULL (head (drop n l))) then NULL else List.last l NULL) = List.last (drop n l) NULL.
Proof.
  intros Hn. destruct (drop n l) as [|x l'] eqn:E; [done|]. simpl.
  assert (x <> NULL) as Hx.
  { intros ->. apply Hn. rewrite <- (take_drop n l), E. set_solver. }
  unfold isnull. rewrite (proj2 (Z.eqb_neq _ _) Hx).
  rewrite <- (take_drop n l) at 1. rewrite E. by apply last_app_ne.
Qed.

Lemma bchain_no_null m a l : bchain m a l -> NULL ∉ l.
Proof. intros Hc Hin. by destruct (bchain_dom _ _ _ _ Hc Hin) as (_ & _ & []). Qed.

(** Taking buffers off a queue that has some. *)
Lemma queue_deq_multi_take s Q R q e num :
  qinv s Q R -> queues s !! q = Some e -> QUEUE_STATUS_READY <= q_status e -> Q q <> [] ->
  counters_ok e ->
  let l := take (Z.to_nat num) (Q q) in
  exists s' e', queue_deq_multi q num s = Some ((zlen l, l), s') /\
    qinv s' (upd q (drop (Z.to_nat num) (Q q)) Q) R /\
    s' = set_queues (<[q := e']> (queues s)) (set_bufs (bufs s') s) /\
    meta e' = meta (Nat.iter (length l) entry_after e) /\
    (forall i x, l !! i = Some x -> exists h', bufs s' !! x = Some h' /\ dequeued q e i h') /\
    (forall x, x ∉ l -> bufs s' !! x = bufs s !! x).
Proof.
  intros Hinv Hq Hst Hne Hcnt l. destruct (qi_list _ _ _ Hinv q e Hq) as [Hc Ht].
  pose proof (qi_nodup _ _ _ Hinv q e Hq) as Hn. apply NoDup_app in Hn as (Hnd & _).
  pose proof (qi_locks _ _ _ Hinv q e Hq) as Hlk. pose proof (qi_union _ _ _ Hinv) as Hun.
  destruct (deq_loop_run (Z.to_nat num) s q e (q_head e) (Q q)) as [Hrun Hch]; [done..|].
  destruct (stamp_union q e (bufs s) l Hlk Hun) as [Hlk' Hun']. cbv zeta in Hrun. fold l in Hrun, Hch.
  set (e1 := fst (stamp q e (bufs s) l)) in *. set (m := snd (stamp q e (bufs s) l)) in *.
  set (hd := default NULL (head (drop (Z.to_nat num) (Q q)))) in *.
  set (e2 := if isnull hd then set_q_tail NULL (set_q_head hd e1) else set_q_head hd e1).
  assert (e1 = Nat.iter (length l) entry_after e) as He1 by apply stamp_entry.
  destruct (iter_fields (length l) e) as (F1 & F2 & F3 & F4 & F5 & F6 & F7 & F8).
  rewrite <- He1 in F1, F2, F3, F4, F5, F6, F7, F8.
  exists (set_queues (<[q := e2]> (queues s)) (set_bufs m s)), e2. split_and!.
  - unfold queue_deq_multi. rewrite (bind_getq _ _ _ _ Hq).
    rewrite (proj2 (Z.ltb_ge _ _)) by done.
    assert (q_head e <> NULL) as Hh0 by (intros H0; rewrite H0 in Hc; by apply chain_nil in Hc).
    replace (isnull (q_head e)) with false by (symmetry; by apply Z.eqb_neq).
    rewrite (bind_some _ _ _ _ _ Hrun). cbv beta iota.
    rewrite (bind_modq _ _ _ _ e1) by (simpl; apply lookup_insert_eq). simpl. rewrite insert_insert_eq.
    erewrite bind_some; [|apply fix_tail_run; simpl; apply lookup_insert_eq].
    unfold ret, e2. simpl. by rewrite insert_insert_eq.
  - assert (Hnull := bchain_no_null _ _ _ Hc).
    eapply (qinv_update s _ Q R q e e2); try done; unfold e2; try (destruct (isnull hd); simpl; done || auto; fail).
    + destruct (isnull hd); simpl; [by rewrite F5|by rewrite F5].
    + destruct (isnull hd); simpl; [by rewrite F5|by rewrite F5].
    + rewrite <- last_drop by done. fold hd. destruct (isnull hd); simpl; [done|]. by rewrite F8.
    + eapply sublist_NoDup; [exact Hnd|]. apply sublist_drop.
    + intros x Hx. left. rewrite <- (take_drop (Z.to_nat num) (Q q)). set_solver.
    + intros x h Hx HxQ _. unfold m. simpl. rewrite stamp_other; [done|]. intros Hxl. apply HxQ.
      by eapply elem_of_take in Hxl as (? & Hxl & _); eapply list_elem_of_lookup_2.
  - done.
  - rewrite <- He1. unfold e2. by destruct (isnull hd).
  - intros i x Hi. assert (exists h, bufs s !! x = Some h) as [h Hh].
    { destruct (bchain_dom _ _ _ x Hc) as (h & ? & _); [|eauto].
      apply list_elem_of_lookup_2 in Hi. apply elem_of_take in Hi as (? & Hi & _).
      by eapply list_elem_of_lookup_2. }
    eexists. split; [apply stamp_at; [|done|done]|by apply dequeued_after].
    eapply sublist_NoDup; [exact Hnd|]. apply sublist_take.
  - intros x Hx. by apply stamp_other.
Qed.

(** An empty queue leaves scheduling; its command event must be idle then, as it
    is in the hands of the thread that found the queue empty. *)
Definition unsched (e : queue_entry) : queue_entry :=
  if q_status e =? QUEUE_STATUS_SCHED then set_q_status QUEUE_STATUS_NOTSCHED e else e.

Lemma qinv_unsched s Q R q e :
  qinv s Q R -> queues s !! q = Some e ->
  (q_status e = QUEUE_STATUS_SCHED -> cmd_idle s Q R q e) ->
  qinv (set_queues (<[q := unsched e]> (queues s)) s) Q R.
Proof.
  intros Hinv Hq Hidle. unfold unsched.
  destruct (q_status e =? QUEUE_STATUS_SCHED) eqn:E.
  2: { rewrite insert_id by done. by destruct s. }
  assert (q_status e = QUEUE_STATUS_SCHED) as Hst by (by zbool). specialize (Hidle Hst).
  set (e' := set_q_status QUEUE_STATUS_NOTSCHED e). set (s' := set_queues _ s).
  assert (forall x ex, queues s' !! x = Some ex -> (x = q /\ ex = e') \/ (x <> q /\ queues s !! x = Some ex)) as Hlk.
  { intros x ex. simpl. destruct (decide (x = q)) as [->|Hne].
    - rewrite lookup_insert_eq. naive_solver.
    - rewrite lookup_insert_ne by done. auto. }
  assert (forall x ex, queues s' !! x = Some ex -> exists ex', queues s !! x = Some ex' /\
            q_head ex = q_head ex' /\ q_tail ex = q_tail ex' /\ q_reorder_head ex = q_reorder_head ex' /\
            q_param ex = q_param ex' /\ q_sync_in ex = q_sync_in ex' /\ q_sync_out ex = q_sync_out ex') as Hold.
  { intros x ex [(-> & ->)|(_ & Hx)]%Hlk; eauto 10. }
  assert (forall x, x <> q -> queues s' !! x = queues s !! x) as Hne by (intros; by apply lookup_insert_ne).
  split.
  - intros x ex (ex' & Hx & -> & -> & _)%Hold. by apply (qi_list _ _ _ Hinv).
  - intros x ex (ex' & Hx & _ & _ & -> & _)%Hold. by apply (qi_reorder _ _ _ Hinv).
  - intros x ex (ex' & Hx & _)%Hold. by apply (qi_nodup _ _ _ Hinv x ex').
  - intros x y ex ey z (ex' & Hx & _)%Hold (ey' & Hy & _)%Hold. by apply (qi_disj _ _ _ Hinv x y ex' ey').
  - intros x ex (ex' & Hx & _ & _ & _ & -> & -> & ->)%Hold. by apply (qi_locks _ _ _ Hinv x).
  - apply (qi_union _ _ _ Hinv).
  - intros x ex Hx Hns.
    assert (exists ex', queues s !! x = Some ex' /\ q_cmd_ev ex' = q_cmd_ev ex /\ q_pri_queue ex' = q_pri_queue ex /\
              cmd_idle s Q R x ex') as (ex' & Hx' & Hc & Hp & Hi).
    { destruct (Hlk x ex Hx) as [(-> & ->)|(? & Hx')]; [by exists e|]. exists ex.
      split_and!; try done. by apply (qi_cmd _ _ _ Hinv). }
    destruct Hi as (pe & h & Hpe & Ho & Hps & Hn & Hh & Hor & Hl & Hu). rewrite Hc, Hp in *.
    exists pe, h. split_and!; try done.
    + rewrite Hne; [done|]. intros Heq. rewrite Heq, Hq in Hpe. injection Hpe as <-. by rewrite Hst in Hps.
    + intros y ey (ey' & Hy & _)%Hold. by apply (Hl y ey').
    + intros y ey [(-> & ->)|(Hyq & Hy)]%Hlk Hyx Hys; [|by apply (Hu y ey)]. simpl.
      destruct Hidle as (_ & _ & _ & _ & _ & _ & _ & _ & _ & Hu').
      rewrite <- Hc. destruct (Hlk x ex Hx) as [(-> & _)|(Hxq & Hx2)]; [done|].
      rewrite Hx' in Hx2. injection Hx2 as ->. intros Heq. by apply (Hu' x ex).
Qed.

(** * The reorder queue *)

Lemma queue_deq_multi_dead s q e num :
  queues s !! q = Some e -> q_status e < QUEUE_STATUS_READY ->
  queue_deq_multi q num s = Some ((-1, []), s).
Proof.
  intros Hq Hst. unfold queue_deq_multi. rewrite (bind_getq _ _ _ _ Hq).
  by rewrite (proj2 (Z.ltb_lt _ _)).
Qed.

Lemma queue_deq_multi_empty s Q R q e num :
  qinv s Q R -> queues s !! q = Some e -> QUEUE_STATUS_READY <= q_status e -> Q q = [] ->
  queue_deq_multi q num s = Some ((0, []), set_queues (<[q := unsched e]> (queues s)) s).
Proof.
  intros Hinv Hq Hst HQ. destruct (qi_list _ _ _ Hinv q e Hq) as [Hc _]. rewrite HQ in Hc. simpl in Hc.
  unfold queue_deq_multi. rewrite (bind_getq _ _ _ _ Hq), (proj2 (Z.ltb_ge _ _)) by done.
  rewrite Hc. change (isnull NULL) with true. cbv iota. unfold leave_sched.
  by rewrite (bind_modq _ _ _ _ _ Hq).
Qed.

(** [queue_deq] is [queue_deq_multi] of one event. *)
Lemma queue_deq_run s Q R q e :
  qinv s Q R -> queues s !! q = Some e -> QUEUE_STATUS_READY <= q_status e ->
  queue_deq q s = bind (queue_deq_multi q 1) (fun r => ret (default NULL (head (snd r)))) s.
Proof.
  intros Hinv Hq Hst. unfold queue_deq, queue_deq_multi.
  rewrite bind_assoc, !(bind_getq _ _ _ _ Hq), (proj2 (Z.ltb_ge _ _)) by done.
  unfold isnull at 1 2. destruct (q_head e =? NULL) eqn:E.
  { unfold leave_sched. by rewrite bind_assoc, !(bind_modq _ _ _ _ _ Hq). }
  zbool. destruct (qi_list _ _ _ Hinv q e Hq) as [Hc _].
  destruct (chain_cons _ _ _ _ Hc E) as (h & l & HQ & Hh & _).
  pose proof (qi_locks _ _ _ Hinv q e Hq) as Hlk. pose proof (qi_union _ _ _ Hinv _ _ Hh) as Hu.
  change (Z.to_nat 1) with 1%nat. cbn [deq_loop]. change (isnull (q_head e)) with (q_head e =? NULL). rewrite (proj2 (Z.eqb_neq _ _) E).
  rewrite !bind_assoc, !(bind_getb _ _ _ _ Hh), (bind_modq _ _ _ _ _ Hq).
  rewrite (bind_modb _ _ _ _ h) by done.
  erewrite bind_some; [|eapply (assign_order_run _ q (set_q_head (b_next h) e)); simpl; [apply lookup_insert_eq|done|apply lookup_insert_eq|done]].
  rewrite bind_assoc, (bind_modb _ _ _ _ h) by done. rewrite bind_assoc.
  erewrite (bind_some (assign_order q (q_head e))); [|eapply (assign_order_run _ q e); simpl; [done|done|apply lookup_insert_eq|done]].
  rewrite bind_assoc, bind_ret, bind_ret. cbv beta iota.
  rewrite bind_assoc. erewrite (bind_modq q (set_q_head (b_next h))) by (simpl; apply lookup_insert_eq).
  rewrite bind_assoc. erewrite (bind_some (fix_tail q)); [|apply fix_tail_run; simpl; apply lookup_insert_eq].
  erewrite (bind_some (fix_tail q)); [|apply fix_tail_run; simpl; apply lookup_insert_eq].
  rewrite bind_ret. unfold ret. simpl. unfold set_queues, set_bufs. simpl. rewrite !insert_insert_eq.
  unfold entry_after, hdr_after. simpl.
  change (queue_is_ordered (set_q_head (b_next h) e)) with (queue_is_ordered e).
  by destruct (queue_is_ordered e).
Qed.

(** Buffers paired with their orders. *)
Definition order_of (m : gmap Z qbuf) (x : Z) : Z := from_option b_order 0 (m !! x).

Fixpoint insert_by_order (order b : Z) (ord : Z -> Z) (l : list Z) : list Z :=
  match l with
  | [] => [b]
  | x :: l' => if ord x <=? order then x :: insert_by_order order b ord l' else b :: x :: l'
  end.

Lemma insert_by_order_split order b ord l :
  exists l1 l2, l = l1 ++ l2 /\ insert_by_order order b ord l = l1 ++ b :: l2 /\
    (forall x, x ∈ l1 -> ord x <= order) /\
    (forall x, head l2 = Some x -> order < ord x).
Proof.
  induction l as [|y l IH]; simpl.
  - exists [], []. set_solver.
  - destruct (ord y <=? order) eqn:E; zbool.
    + destruct IH as (l1 & l2 & -> & -> & H1 & H2). exists (y :: l1), l2. split_and!; try done. set_solver.
    + exists [], (y :: l). split_and!; try done; [set_solver|]. simpl. intros x [= <-]. done.
Qed.

Lemma last_cons_default (x a : Z) l : List.last (x :: l) a = List.last l x.
Proof.
  revert x a. induction l as [|y l IH]; intros x a; [done|].
  change (List.last (y :: l) a = List.last (y :: l) x). by rewrite !IH.
Qed.

Lemma reorder_find_run fuel s order prev cur l :
  bchain (bufs s) cur l -> (length l < fuel)%nat ->
  exists l1 l2, l = l1 ++ l2 /\
    (forall b, insert_by_order order b (order_of (bufs s)) l = l1 ++ b :: l2) /\
    reorder_find fuel order prev cur s =
      Some ((List.last l1 prev, default NULL (head l2)), s) /\
    bchain (bufs s) (default NULL (head l2)) l2.
Proof.
  revert prev cur l. induction fuel as [|fuel IH]; intros prev cur l Hc Hf; [lia|].
  destruct l as [|x l].
  { simpl in Hc. subst cur. by exists [], []. }
  destruct Hc as (-> & Hx & h & Hh & Hc). cbn [reorder_find insert_by_order]. unfold isnull.
  rewrite (proj2 (Z.eqb_neq _ _) Hx), (bind_getb _ _ _ _ Hh).
  assert (order_of (bufs s) x = b_order h) as -> by (unfold order_of; by rewrite Hh).
  destruct (b_order h <=? order) eqn:E.
  - destruct (IH x (b_next h) l) as (l1 & l2 & -> & Hi & Hrun & Hc2); [done|simpl in *; lia|].
    exists (x :: l1), l2. split_and!; [done| | |done].
    + intros b. simpl. by rewrite Hi.
    + by rewrite Hrun, last_cons_default.
  - exists [], (x :: l). split; [done|]. split; [done|]. split; [done|]. simpl. eauto.
Qed.

(** The header [reorder_enq] leaves, but for its [next] pointer. *)
Definition reorder_hdr (queue order origin_qe : Z) (sustain : bool) (h : qbuf) : qbuf :=
  set_b_sustain sustain (set_b_order order (set_b_target_qe queue (set_b_origin_qe origin_qe h))).

Lemma reorder_enq_run s queue order o b sus oe h l :
  queues s !! o = Some oe -> bchain (bufs s) (q_reorder_head oe) l -> NoDup l ->
  b ∉ l -> b <> NULL -> bufs s !! b = Some h ->
  exists m rh rt, reorder_enq queue order o b sus s =
      Some (tt, set_queues (<[o := set_q_reorder_tail rt (set_q_reorder_head rh oe)]> (queues s)) (set_bufs m s)) /\
    bchain m rh (insert_by_order order b (order_of (bufs s)) l) /\
    (exists nx, m !! b = Some (reorder_hdr queue order o sus (set_b_next nx h))) /\
    (forall x, x <> b -> set_b_next NULL <$> m !! x = set_b_next NULL <$> bufs s !! x) /\
    (forall x, x ∉ l -> x <> b -> m !! x = bufs s !! x).
Proof.
  intros Ho Hc Hnd Hb Hbn Hh. set (f := reorder_hdr queue order o sus).
  destruct (reorder_find_run (S (size (bufs s))) s order NULL (q_reorder_head oe) l) as (l1 & l2 & Hl & Hins & Hfind & Hc2);
    [done|by apply Nat.lt_succ_r, bchain_length with (a := q_reorder_head oe)|].
  set (nx := default NULL (head l2)) in *. rewrite Hins.
  assert (exists rt, forall s1 oe1, queues s1 !! o = Some oe1 -> q_reorder_tail oe1 = q_reorder_tail oe ->
            (if isnull nx then modq o (set_q_reorder_tail b) else ret tt) s1 =
            Some (tt, set_queues (<[o := set_q_reorder_tail rt oe1]> (queues s1)) s1)) as [rt Hrt].
  { destruct (isnull nx); [exists b; intros; by erewrite modq_run|].
    exists (q_reorder_tail oe). intros s1 oe1 H1 Heq. rewrite insert_id; [by destruct s1|].
    rewrite H1, <- Heq. by destruct oe1. }
  unfold reorder_enq. rewrite (bind_getq _ _ _ _ Ho). unfold walk_fuel. rewrite bind_gets.
  rewrite (bind_some _ _ _ _ _ Hfind). cbv beta iota. rewrite (bind_modb _ _ _ _ h) by done.
  set (m1 := <[b := set_b_next nx h]> (bufs s)).
  assert (bchain m1 b (b :: l2)) as Hcb.
  { split_and!; [done..|]. exists (set_b_next nx h). unfold m1. rewrite lookup_insert_eq. split; [done|].
    apply chain_insert_ne; [set_solver|exact Hc2]. }
  destruct (decide (l1 = [])) as [->|Hne].
  - exists (<[b := f (set_b_next nx h)]> m1), b, rt. simpl List.last. cbn [isnull]. split_and!.
    + change (isnull NULL) with true. cbv iota. rewrite (bind_modq _ _ _ _ oe) by done.
      erewrite bind_some; [|apply Hrt; [simpl; apply lookup_insert_eq|done]].
      erewrite modb_run by (simpl; apply lookup_insert_eq).
      unfold set_queues, set_bufs. simpl. by rewrite insert_insert_eq.
    + apply (chain_ext b_next m1); [|exact Hcb]. intros x v Hx Hv.
      destruct (decide (x = b)) as [->|]; [|exists v; by rewrite lookup_insert_ne].
      rewrite lookup_insert_eq. eexists; split; [done|]. unfold m1 in Hv. rewrite lookup_insert_eq in Hv. by injection Hv as <-.
    + exists nx. by rewrite lookup_insert_eq.
    + intros x Hx. unfold m1. by rewrite !lookup_insert_ne.
    + intros x _ Hx. unfold m1. by rewrite !lookup_insert_ne.
  - set (p := List.last l1 NULL) in *.
    assert (p ∈ l1) as Hp by by apply last_in.
    destruct (bchain_dom _ _ _ p Hc) as (hp & Hhp & Hpn); [rewrite Hl; set_solver|].
    assert (p <> b) as Hpb by (intros ->; apply Hb; rewrite Hl; set_solver).
    assert (m1 !! p = Some hp) as Hm1p by (unfold m1; by rewrite lookup_insert_ne).
    set (m2 := <[p := set_b_next b hp]> m1).
    assert (m2 !! b = Some (set_b_next nx h)) as Hm2b.
    { unfold m2, m1. by rewrite lookup_insert_ne, lookup_insert_eq. }
    exists (<[b := f (set_b_next nx h)]> m2), (q_reorder_head oe), rt. split_and!.
    + unfold isnull at 1. rewrite (proj2 (Z.eqb_neq _ _) Hpn). rewrite (bind_modb _ _ _ _ hp) by done.
      erewrite bind_some; [|apply Hrt; done].
      erewrite modb_run by (simpl; exact Hm2b). unfold set_queues, set_bufs. simpl. by destruct oe.
    + assert (bchain m2 (q_reorder_head oe) (l1 ++ b :: l2)) as Hc3.
      { apply (bchain_splice m1 _ l1 l2); try done.
        - apply chain_insert_ne; [by rewrite <- Hl|by rewrite <- Hl].
        - rewrite Hl in Hnd, Hb. apply NoDup_app in Hnd as (H1 & H2 & H3). apply NoDup_app. split_and!; [done| |].
          + intros x Hx [->|Hx2]%elem_of_cons; [set_solver|]. by apply (H2 x).
          + apply NoDup_cons. set_solver. }
      apply (chain_ext b_next m2); [|exact Hc3]. intros x v Hx Hv.
      destruct (decide (x = b)) as [->|]; [|exists v; by rewrite lookup_insert_ne].
      rewrite lookup_insert_eq. eexists; split; [done|]. rewrite Hm2b in Hv. by injection Hv as <-.
    + exists nx. by rewrite lookup_insert_eq.
    + intros x Hx. rewrite lookup_insert_ne by done. unfold m2, m1.
      destruct (decide (x = p)) as [->|]; [by rewrite lookup_insert_eq, Hhp|by rewrite !lookup_insert_ne].
    + intros x Hxl Hx. unfold m2, m1. rewrite !lookup_insert_ne; try done. intros ->. apply Hxl. rewrite Hl. set_solver.
Qed.

End proofs.
End QueueProofs.
