(* ===== verification/QueueSpec.v ===== *)
(** What queues promise: the theorems on [Queue], each with a concrete instance,
    and the three places where ordered queues do not keep what they promise. *)

From stdpp Require Import sorting.
From S2P Require Import Prelude Pool PoolProofs Queue QueueProofs.

Open Scope Z_scope.
Open Scope c_scope.
Open Scope queue_scope.

Module QueueSpec.
Import Pool PoolProofs Queue QueueProofs.

Section claims.
Context {W : Type} {PL : Platform W}.
Implicit Types (Q R : Z -> list Z) (s : qsys W).

(** C11: [odp_queue_enq] called without an ordered context refines appending to a
    list.  On a queue that is not live it returns -1 and leaves every queue as it
    was; otherwise it returns 0, the buffer is the new last element of the queue,
    and if the queue was not scheduled it is now, its command event being the new
    last element of its priority queue.  Nothing else changes but list pointers. *)
Theorem queue_enq_correct s Q R q e b :
  qinv s Q R -> app_buf s Q R b -> queues s !! q = Some e -> q_ops e = OPS_QUEUE -> plain_ctx s ->
  (q_status e < QUEUE_STATUS_READY ->
     exists s', odp_queue_enq q b s = Some (-1, s') /\ qinv s' Q R /\ queues s' = queues s) /\
  (QUEUE_STATUS_READY <= q_status e ->
     exists s', odp_queue_enq q b s = Some (0, s') /\
       qinv s' (kick e (upd q (Q q ++ [b]) Q)) R /\ enq_frame s s' q).
Proof.
  intros Hinv Hb Hq Ho Hctx. split; intros Hst; [|by apply odp_queue_enq_spec].
  pose proof (app_buf_unlisted _ _ _ _ Hb) as Hu. destruct Hb as [Hn (h & Hh & Hor) _ _].
  unfold odp_queue_enq, enq_fuel. rewrite bind_gets. unfold odp_queue_enq_via.
  rewrite (bind_modb _ _ _ _ h) by done. set (s0 := set_bufs _ s).
  assert (qinv s0 Q R) as Hinv0 by (apply qinv_modb; [done..|]; exact (qi_union _ _ _ Hinv b h Hh)).
  change (2 + size (bufs s))%nat with (S (S (size (bufs s)))). rewrite (enqueue_S _ _ _ e) by done.
  destruct (get_queue_order_none s0 b (set_b_link NULL h)) as [o Ho']; try done.
  { simpl. by rewrite lookup_insert_eq. }
  unfold queue_enq_via. rewrite (bind_some _ _ _ _ _ Ho'). cbv beta iota.
  change (negb (isnull NULL)) with false. cbv iota. rewrite (bind_getq _ _ _ e) by done.
  rewrite (proj2 (Z.ltb_lt _ _)) by done. eexists. split; [done|]. by split; [apply qinv_loc|].
Qed.

(** [odp_queue_enq_multi] without an ordered context appends the first
    [QUEUE_MULTI_MAX] of its events, in order, and returns their number; no event
    is no work. *)
Theorem queue_enq_multi_correct s Q R q e evs :
  qinv s Q R -> (forall x, x ∈ evs -> app_buf s Q R x) -> NoDup evs ->
  queues s !! q = Some e -> q_ops e = OPS_QUEUE -> QUEUE_STATUS_READY <= q_status e ->
  plain_ctx s ->
  let l := take 8 evs in
  exists s', odp_queue_enq_multi q evs s = Some (zlen l, s') /\
    (evs = [] -> s' = s) /\
    (evs <> [] -> qinv s' (kick e (upd q (Q q ++ l) Q)) R /\ enq_frame s s' q).
Proof.
  intros Hinv Hb Hnd Hq Ho Hst Hctx l. unfold odp_queue_enq_multi.
  change (take (Z.to_nat QUEUE_MULTI_MAX) evs) with l.
  rewrite (bind_getq _ _ _ _ Hq). destruct evs as [|b0 bs]; [by exists s|].
  assert (l = b0 :: take 7 bs) as Hl by done.
  destruct (queue_enq_multi_spec s Q R q e b0 (take 7 bs) SUSTAIN_ORDER) as (s' & Hrun & Hinv' & Hf); try done.
  { intros x Hx. apply Hb. change (x ∈ take 8 (b0 :: bs)) in Hx. apply elem_of_take in Hx as (i & Hi & _).
    by eapply list_elem_of_lookup_2. }
  { change (NoDup (take 8 (b0 :: bs))). eapply sublist_NoDup; [exact Hnd|]. apply sublist_take. }
  exists s'. split; [|by split; [|rewrite Hl]].
  rewrite Hl, Ho. rewrite (proj2 (Z.eqb_neq _ _)) by done. exact Hrun.
Qed.

(** C12: [queue_deq_multi] refines taking a prefix of a list.  A queue that is not
    live gives -1; an empty one gives 0 events and leaves scheduling; otherwise
    the first [num] events come out in order, and on an ordered queue the [i]th of
    them carries the next order, the queue as its origin and the next number of
    every ordered lock. *)
Theorem queue_deq_multi_correct s Q R q e num :
  qinv s Q R -> queues s !! q = Some e -> counters_ok e ->
  (q_status e = QUEUE_STATUS_SCHED -> Q q = [] -> cmd_idle s Q R q e) ->
  (q_status e < QUEUE_STATUS_READY -> queue_deq_multi q num s = Some ((-1, []), s)) /\
  (QUEUE_STATUS_READY <= q_status e -> Q q = [] ->
     exists s', queue_deq_multi q num s = Some ((0, []), s') /\ qinv s' Q R /\
       s' = set_queues (<[q := unsched e]> (queues s)) s) /\
  (QUEUE_STATUS_READY <= q_status e -> Q q <> [] ->
     let l := take (Z.to_nat num) (Q q) in
     exists s' e', queue_deq_multi q num s = Some ((zlen l, l), s') /\
       qinv s' (upd q (drop (Z.to_nat num) (Q q)) Q) R /\
       s' = set_queues (<[q := e']> (queues s)) (set_bufs (bufs s') s) /\
       meta e' = meta (Nat.iter (length l) entry_after e) /\
       (forall i x, l !! i = Some x -> exists h', bufs s' !! x = Some h' /\ dequeued q e i h') /\
       (forall x, x ∉ l -> bufs s' !! x = bufs s !! x)).
Proof.
  intros Hinv Hq Hcnt Hidle. split_and!.
  - by apply queue_deq_multi_dead.
  - intros Hst HQ. exists (set_queues (<[q := unsched e]> (queues s)) s). split_and!; try done.
    + by eapply queue_deq_multi_empty.
    + apply qinv_unsched; auto.
  - intros Hst HQ. by apply queue_deq_multi_take.
Qed.

(** Taking one event with [queue_deq] is [queue_deq_multi] with [num] 1: same
    event, same resulting state. *)
Theorem queue_deq_is_multi s Q R q e :
  qinv s Q R -> queues s !! q = Some e -> QUEUE_STATUS_READY <= q_status e ->
  queue_deq q s = bind (queue_deq_multi q 1) (fun r => ret (default NULL (head (snd r)))) s.
Proof.
  apply queue_deq_run.
Qed.

Lemma insert_by_order_sorted order b ord ord' l :
  ord' b = order -> (forall x, x ∈ l -> ord' x = ord x) ->
  StronglySorted (fun x y => ord x <= ord y) l ->
  StronglySorted (fun x y => ord' x <= ord' y) (insert_by_order order b ord l).
Proof.
  intros Hb. induction l as [|y l IH]; intros Hx Hs; simpl.
  { repeat constructor. }
  inversion_clear Hs as [|?? Hs' Hall].
  assert (StronglySorted (fun x y => ord' x <= ord' y) (y :: l)) as Hsort.
  { clear IH. revert Hx Hs' Hall. generalize y. clear y. induction l as [|z l IHl]; intros y Hx Hs' Hall.
    - repeat constructor.
    - constructor.
      + inversion_clear Hs'. apply IHl; [set_solver|done|done].
      + apply Forall_forall. intros w Hw. rewrite !Hx by set_solver.
        rewrite Forall_forall in Hall. by apply Hall. }
  destruct (ord y <=? order) eqn:E; zbool.
  - constructor; [apply IH; [set_solver|done]|]. apply Forall_forall. intros z Hz.
    assert (z = b \/ z ∈ l) as [->|Hzl].
    { destruct (insert_by_order_split order b ord l) as (l1 & l2 & -> & Heq & _). rewrite Heq in Hz. set_solver. }
    + rewrite Hb, Hx by set_solver. done.
    + rewrite !Hx by set_solver. rewrite Forall_forall in Hall. by apply Hall.
  - constructor; [done|]. apply Forall_forall. intros z Hz. rewrite Hb, Hx by done.
    apply elem_of_cons in Hz as [->|Hz]; [lia|]. rewrite Forall_forall in Hall. specialize (Hall z Hz). simpl in Hall. lia.
Qed.

(** C13: [reorder_enq] is a stable sorted insertion: on a reorder queue sorted by
    order it puts the buffer behind every buffer of its own or an earlier order and
    before every later one, the queue stays sorted, and the buffer records its
    order, origin, target and sustain flag. *)
Theorem reorder_enq_sorted s queue order o b sus oe h l :
  queues s !! o = Some oe -> bchain (bufs s) (q_reorder_head oe) l -> NoDup l ->
  StronglySorted (fun x y => order_of (bufs s) x <= order_of (bufs s) y) l ->
  b ∉ l -> b <> NULL -> bufs s !! b = Some h -> length (b_union h) = 2%nat ->
  exists s' oe' h' l1 l2, reorder_enq queue order o b sus s = Some (tt, s') /\
    l = l1 ++ l2 /\ queues s' !! o = Some oe' /\ bchain (bufs s') (q_reorder_head oe') (l1 ++ b :: l2) /\
    (forall x, x ∈ l1 -> order_of (bufs s) x <= order) /\
    (forall x, x ∈ l2 -> order < order_of (bufs s) x) /\
    StronglySorted (fun x y => order_of (bufs s') x <= order_of (bufs s') y) (l1 ++ b :: l2) /\
    bufs s' !! b = Some h' /\ b_order h' = order /\ b_origin_qe h' = o /\
    b_target_qe h' = queue /\ b_sustain h' = sus.
Proof.
  intros Ho Hc Hnd Hsort Hb Hbn Hh Hu.
  destruct (reorder_enq_run s queue order o b sus oe h l) as (m & rh & rt & Hrun & Hch & [nx Hb'] & Hord & _); [done..|].
  destruct (insert_by_order_split order b (order_of (bufs s)) l) as (l1 & l2 & Hl & Hins & H1 & H2).
  eexists _, _, _, l1, l2. split; [exact Hrun|]. split; [done|].
  split; [simpl; apply lookup_insert_eq|]. split; [simpl; by rewrite <- Hins|]. split; [done|]. split_and!.
  - intros x Hx. destruct l2 as [|y l2]; [set_solver|]. specialize (H2 y eq_refl).
    apply elem_of_cons in Hx as [->|Hx]; [done|]. rewrite Hl in Hsort.
    apply StronglySorted_app in Hsort as (_ & _ & Hs2). inversion_clear Hs2 as [|?? _ Hall].
    rewrite Forall_forall in Hall. specialize (Hall x Hx). simpl in Hall. lia.
  - rewrite <- Hins. apply insert_by_order_sorted; [|intros x Hx|done].
    + unfold order_of. simpl. by rewrite Hb'.
    + unfold order_of. simpl. specialize (Hord x). destruct (decide (x = b)) as [->|Hne]; [done|].
      specialize (Hord Hne). destruct (m !! x), (bufs s !! x); try done. apply (inj Some) in Hord. exact (f_equal b_order Hord).
  - exact Hb'.
  - done.
  - done.
  - unfold reorder_hdr, b_target_qe, set_b_target_qe. simpl.
    destruct (b_union h) as [|u us]; [done|]. done.
  - done.
Qed.

Definition with_status (q st : Z) (e : queue_entry) s : qsys W :=
  set_queues (<[q := set_q_status st e]> (queues s)) s.

(** [odp_queue_destroy] succeeds exactly on a live queue whose list, and for an
    ordered queue whose reorder queue, is empty; otherwise it returns -1 and
    changes nothing.  A plain queue becomes free; a queue out of scheduling
    becomes free and gives up its scheduler resources; a queue still in scheduling
    is only marked, after which a dequeue fails, a second destroy fails, and
    [queue_destroy_finalize] does what was put off. *)
Theorem queue_destroy_correct s Q R q e :
  qinv s Q R -> queues s !! q = Some e -> q <> ODP_QUEUE_INVALID ->
  QUEUE_STATUS_FREE <= q_status e <= QUEUE_STATUS_SCHED ->
  let ok := QUEUE_STATUS_READY <= q_status e /\ Q q = [] /\ (queue_is_ordered e = true -> R q = []) in
  let s0 := with_status q QUEUE_STATUS_FREE e s in
  let s1 := with_status q QUEUE_STATUS_DESTROYED e s in
  (~ ok -> odp_queue_destroy q s = Some (-1, s)) /\
  (ok -> q_status e = QUEUE_STATUS_READY -> odp_queue_destroy q s = Some (0, s0)) /\
  (ok -> q_status e = QUEUE_STATUS_NOTSCHED ->
     odp_queue_destroy q s = bind (schedule_queue_destroy q) (fun _ => ret 0) s0) /\
  (ok -> q_status e = QUEUE_STATUS_SCHED ->
     odp_queue_destroy q s = Some (0, s1) /\
     (forall n, queue_deq_multi q n s1 = Some ((-1, []), s1)) /\
     odp_queue_destroy q s1 = Some (-1, s1) /\
     queue_destroy_finalize q s1 = schedule_queue_destroy q s0).
Proof.
  intros Hinv Hq Hq0 Hst ok s0 s1. subst ok.
  destruct (qi_list _ _ _ Hinv q e Hq) as [Hc _]. pose proof (qi_reorder _ _ _ Hinv q e Hq) as Hr.
  assert (forall a l, bchain (bufs s) a l -> isnull a = true <-> l = []) as Hnil.
  { intros a l Hl. unfold isnull. rewrite Z.eqb_eq. split; [intros ->; by eapply chain_nil|intros ->; done]. }
  assert (queues s1 !! q = Some (set_q_status QUEUE_STATUS_DESTROYED e)) as Hq1 by apply lookup_insert_eq.
  unfold odp_queue_destroy at 1 2 3 4. rewrite (proj2 (Z.eqb_neq _ _) Hq0), !(bind_getq _ _ _ _ Hq).
  pose proof (Hnil _ _ Hc) as Hn1. pose proof (Hnil _ _ Hr) as Hn2.
  assert (q_status e = 0 \/ q_status e = 1 \/ q_status e = 2 \/ q_status e = 3 \/ q_status e = 4) as Hcases
    by (unfold QUEUE_STATUS_FREE, QUEUE_STATUS_SCHED in *; lia).
  unfold QUEUE_STATUS_READY, QUEUE_STATUS_NOTSCHED, QUEUE_STATUS_SCHED, QUEUE_STATUS_FREE, QUEUE_STATUS_DESTROYED in *.
  split_and!.
  - intros Hno. destruct Hcases as [->|[->|Hcases]]; [done..|].
    rewrite !(proj2 (Z.eqb_neq _ _)) by lia.
    destruct (isnull (q_head e)) eqn:E1; simpl; [|done].
    destruct (queue_is_ordered e) eqn:E2; simpl.
    + destruct (isnull (q_reorder_head e)) eqn:E3; simpl; [|done].
      exfalso. apply Hno. split_and!; [lia|by apply Hn1|]. intros _. by apply Hn2.
    + exfalso. apply Hno. split_and!; [lia|by apply Hn1|done].
  - intros (_ & HQ & HR) ->. simpl. rewrite (proj2 Hn1 HQ). simpl.
    destruct (queue_is_ordered e); simpl; [rewrite (proj2 Hn2) by auto|]; simpl; by rewrite (bind_modq _ _ _ _ _ Hq).
  - intros (_ & HQ & HR) ->. simpl. rewrite (proj2 Hn1 HQ). simpl.
    destruct (queue_is_ordered e); simpl; [rewrite (proj2 Hn2) by auto|]; simpl; by rewrite (bind_modq _ _ _ _ _ Hq).
  - intros (_ & HQ & HR) Hs. split_and!.
    + rewrite Hs. simpl. rewrite (proj2 Hn1 HQ). simpl.
      destruct (queue_is_ordered e); simpl; [rewrite (proj2 Hn2) by auto|]; simpl; by rewrite (bind_modq _ _ _ _ _ Hq).
    + intros n. unfold queue_deq_multi. by rewrite (bind_getq _ _ _ _ Hq1).
    + unfold odp_queue_destroy. rewrite (proj2 (Z.eqb_neq _ _) Hq0). by rewrite (bind_getq _ _ _ _ Hq1).
    + unfold queue_destroy_finalize. rewrite (bind_getq _ _ _ _ Hq1). simpl.
      rewrite (bind_modq _ _ _ _ _ Hq1). subst s0 s1. unfold with_status, set_queues. simpl.
      by rewrite insert_insert_eq.
Qed.

End claims.
(** * A concrete system *)

(** A pool of buffer addresses and a log of what was freed and sent. *)
Record pworld := PW { w_avail : list Z; w_freed : list Z; w_sent : list Z }.

#[export] Instance pworld_platform : Platform pworld := {
  w_buffer_alloc _ w := match w_avail w with
                        | [] => Some (ODP_BUFFER_INVALID, w)
                        | b :: l => Some (b, PW l (w_freed w) (w_sent w))
                        end;
  w_buffer_free b w := Some (PW (w_avail w) (b :: w_freed w) (w_sent w));
  w_pktio_send _ l w := Some (zlen l, PW (w_avail w) (w_freed w) (w_sent w ++ l));
  w_pktio_recv_queue _ w := Some (0, [], w)
}.

Definition hdr0 (next order : Z) : qbuf := Qbuf next NULL false 0 order NULL [0; 0].

Definition entry0 (head tail status pri cmd sync reorder : Z) : queue_entry :=
  Qentry head tail status OPS_QUEUE 0 pri cmd ODP_QUEUE_TYPE_SCHED (Qparam 1 0 0 0 sync 0 1 0)
    PKTIN_INVALID 0 EmptyString 7 5 reorder reorder [7; 7] [5; 5].

Definition local0 : sched_local_t := Local 0 0 0 false 0 0 0 0 NULL [0; 0; 0; 0] 0 [0; 0] 0 false false.
Definition sched0 : sched_t :=
  Sched (replicate 8 [1; 2; 3; 4]) (replicate 8 0) (replicate 8 [0; 0; 0; 0]) [] 1 [].

(** Queue 1 is a ready priority queue, queue 2 an ordered queue with two events and
    two held buffers, queue 3 an empty queue that waits to be scheduled. *)
Definition sys0 : qsys pworld :=
  Qsys {[ 1 := entry0 0 0 QUEUE_STATUS_READY 0 0 0 0;
          2 := entry0 31 32 QUEUE_STATUS_SCHED 1 22 ODP_SCHED_SYNC_ORDERED 35;
          3 := entry0 0 0 QUEUE_STATUS_NOTSCHED 1 23 ODP_SCHED_SYNC_ATOMIC 0 ]}
       {[ 22 := hdr0 0 0; 23 := hdr0 0 0; 31 := hdr0 32 0; 32 := hdr0 0 0; 33 := hdr0 0 0;
          34 := hdr0 0 0; 35 := hdr0 36 6; 36 := hdr0 0 8 ]}
       ∅ sched0 local0 (PW [] [] []).

Definition Q0 : Z -> list Z := upd 2 [31; 32] (fun _ => []).
Definition R0 : Z -> list Z := upd 2 [35; 36] (fun _ => []).

Lemma sys0_queues q e :
  queues sys0 !! q = Some e ->
  (q = 1 /\ e = entry0 0 0 QUEUE_STATUS_READY 0 0 0 0 /\ Q0 q = [] /\ R0 q = []) \/
  (q = 2 /\ e = entry0 31 32 QUEUE_STATUS_SCHED 1 22 ODP_SCHED_SYNC_ORDERED 35 /\
   Q0 q = [31; 32] /\ R0 q = [35; 36]) \/
  (q = 3 /\ e = entry0 0 0 QUEUE_STATUS_NOTSCHED 1 23 ODP_SCHED_SYNC_ATOMIC 0 /\ Q0 q = [] /\ R0 q = []).
Proof.
  unfold sys0. simpl. rewrite !lookup_insert_Some, lookup_singleton_Some.
  intros [(<- & <-)|[_ [(<- & <-)|[_ (<- & <-)]]]]; auto 10.
Qed.

Lemma sys0_bufs b h : bufs sys0 !! b = Some h -> length (b_union h) = 2%nat.
Proof.
  unfold sys0. simpl. rewrite !lookup_insert_Some, lookup_singleton_Some.
  intros H. repeat match type of H with _ \/ _ => destruct H as [[_ <-]|[_ H]]; [done|] end.
  by destruct H as [_ <-].
Qed.

Lemma sys0_inv : qinv sys0 Q0 R0.
Proof.
  split.
  - intros q e [(-> & -> & HQ & _)|[(-> & -> & HQ & _)|(-> & -> & HQ & _)]]%sys0_queues; rewrite HQ;
      repeat (split || eexists || done).
  - intros q e [(-> & -> & _ & HR)|[(-> & -> & _ & HR)|(-> & -> & _ & HR)]]%sys0_queues; rewrite HR;
      repeat (split || eexists || done).
  - intros q e [(-> & -> & -> & ->)|[(-> & -> & -> & ->)|(-> & -> & -> & ->)]]%sys0_queues;
      by apply (bool_decide_unpack _).
  - intros q q' e e' x [(-> & -> & -> & ->)|[(-> & -> & -> & ->)|(-> & -> & -> & ->)]]%sys0_queues
      [(-> & -> & -> & ->)|[(-> & -> & -> & ->)|(-> & -> & -> & ->)]]%sys0_queues; set_solver.
  - intros q e [(-> & -> & _)|[(-> & -> & _)|(-> & -> & _)]]%sys0_queues; done.
  - apply sys0_bufs.
  - intros q e [(-> & -> & _)|[(-> & -> & _)|(-> & -> & _)]]%sys0_queues; try done. intros _.
    eexists _, _. split; [reflexivity|]. split_and!; try done.
    + intros q e [(-> & -> & -> & ->)|[(-> & -> & -> & ->)|(-> & -> & -> & ->)]]%sys0_queues; set_solver.
    + intros q e [(-> & -> & _)|[(-> & -> & _)|(-> & -> & _)]]%sys0_queues; done.
Qed.

Lemma sys0_app b : b = 33 \/ b = 34 -> app_buf sys0 Q0 R0 b.
Proof.
  intros Hb. split.
  - unfold NULL. lia.
  - destruct Hb as [-> | ->]; by exists (hdr0 0 0).
  - intros q e [(-> & -> & -> & ->)|[(-> & -> & -> & ->)|(-> & -> & -> & ->)]]%sys0_queues; set_solver by lia.
  - intros q e [(-> & -> & _)|[(-> & -> & _)|(-> & -> & _)]]%sys0_queues; simpl; lia || done.
Qed.

(** Event 33 goes to queue 3, which is announced on queue 1. *)
Lemma queue_enq_correct_witness :
  exists s', odp_queue_enq 3 33 sys0 = Some (0, s') /\
    qinv s' (kick (entry0 0 0 QUEUE_STATUS_NOTSCHED 1 23 ODP_SCHED_SYNC_ATOMIC 0) (upd 3 [33] Q0)) R0 /\
    enq_frame sys0 s' 3.
Proof.
  apply (queue_enq_correct sys0 Q0 R0 3 (entry0 0 0 QUEUE_STATUS_NOTSCHED 1 23 ODP_SCHED_SYNC_ATOMIC 0) 33).
  - apply sys0_inv.
  - apply sys0_app. by left.
  - reflexivity.
  - reflexivity.
  - by right.
  - done.
Defined.

Lemma queue_enq_multi_correct_witness :
  exists s', odp_queue_enq_multi 2 [33; 34] sys0 = Some (2, s') /\
    qinv s' (upd 2 [31; 32; 33; 34] Q0) R0.
Proof.
  destruct (queue_enq_multi_correct sys0 Q0 R0 2 (entry0 31 32 QUEUE_STATUS_SCHED 1 22 ODP_SCHED_SYNC_ORDERED 35) [33; 34])
    as (s' & Hrun & _ & H).
  - apply sys0_inv.
  - intros x Hx. apply sys0_app. set_solver.
  - by apply (bool_decide_unpack _).
  - reflexivity.
  - reflexivity.
  - done.
  - by right.
  - exists s'. split; [exact Hrun|]. by apply H.
Defined.

(** Orders 7 and 8, and lock numbers 7 and 8, go to events 31 and 32. *)
Lemma queue_deq_multi_correct_witness :
  exists s', queue_deq_multi 2 4 sys0 = Some ((2, [31; 32]), s') /\
    qinv s' (upd 2 [] Q0) R0 /\
    (exists h, bufs s' !! 32 = Some h /\ b_order h = 8 /\ b_origin_qe h = 2 /\ b_union h !! 0%nat = Some 8).
Proof.
  destruct (queue_deq_multi_correct sys0 Q0 R0 2 (entry0 31 32 QUEUE_STATUS_SCHED 1 22 ODP_SCHED_SYNC_ORDERED 35) 4)
    as (_ & _ & H).
  - apply sys0_inv.
  - reflexivity.
  - split; [done|]. by apply (bool_decide_unpack _).
  - done.
  - destruct H as (s' & e' & Hrun & Hinv & _ & _ & Hd & _); [done..|].
    exists s'. split; [exact Hrun|]. split; [exact Hinv|].
    destruct (Hd 1%nat 32 eq_refl) as (h & Hh & _ & Ho & Hor & _ & Hs). exists h.
    split_and!; [done|exact Hor|exact Ho|]. apply (Hs 0%nat 7); [vm_compute; lia|reflexivity].
Defined.

Lemma queue_deq_is_multi_witness :
  queue_deq 2 sys0 = bind (queue_deq_multi 2 1) (fun r => ret (default NULL (head (snd r)))) sys0.
Proof.
  apply (queue_deq_is_multi sys0 Q0 R0 2 (entry0 31 32 QUEUE_STATUS_SCHED 1 22 ODP_SCHED_SYNC_ORDERED 35)).
  - apply sys0_inv.
  - reflexivity.
  - done.
Defined.

Lemma reorder_enq_sorted_witness :
  exists s' oe', reorder_enq 3 6 2 33 true sys0 = Some (tt, s') /\
    queues s' !! 2 = Some oe' /\ bchain (bufs s') (q_reorder_head oe') [35; 33; 36].
Proof.
  destruct (reorder_enq_sorted sys0 3 6 2 33 true (entry0 31 32 QUEUE_STATUS_SCHED 1 22 ODP_SCHED_SYNC_ORDERED 35)
              (hdr0 0 0) [35; 36]) as (s' & oe' & h' & l1 & l2 & Hrun & Hl & Hq & Hc & H1 & H2 & _).
  - reflexivity.
  - apply (qi_reorder _ _ _ sys0_inv 2 _ eq_refl).
  - by apply (bool_decide_unpack _).
  - repeat constructor. vm_compute. congruence.
  - set_solver.
  - done.
  - reflexivity.
  - reflexivity.
  - exists s', oe'. split; [done|]. split; [done|].
    assert (l1 = [35] /\ l2 = [36]) as [-> ->]; [|done].
    destruct l1 as [|a [|b l1]]; simplify_eq/=; [|done|].
    + specialize (H2 35 ltac:(set_solver)). vm_compute in H2. done.
    + destruct l1; simplify_eq/=. specialize (H1 36 ltac:(set_solver)). by vm_compute in H1.
Defined.

Lemma queue_destroy_correct_witness :
  odp_queue_destroy 2 sys0 = Some (-1, sys0) /\
  odp_queue_destroy 1 sys0 =
    Some (0, with_status 1 QUEUE_STATUS_FREE (entry0 0 0 QUEUE_STATUS_READY 0 0 0 0) sys0).
Proof.
  destruct (queue_destroy_correct sys0 Q0 R0 2 (entry0 31 32 QUEUE_STATUS_SCHED 1 22 ODP_SCHED_SYNC_ORDERED 35))
    as (H2 & _); [apply sys0_inv|reflexivity|done..|].
  destruct (queue_destroy_correct sys0 Q0 R0 1 (entry0 0 0 QUEUE_STATUS_READY 0 0 0 0))
    as (_ & H1 & _); [apply sys0_inv|reflexivity|done..|].
  split; [apply H2; by intros (_ & HQ & _)|by apply H1].
Defined.

(** * Ordered queues that lose or swap events *)

Definition new_queue (name : string) (type sync : Z) : M pworld Z :=
  odp_queue_create name (Some (Qparam type 0 0 0 sync 0 0 0)).

(** Four priority queues (1 to 4), then queue 5 ordered, 6 plain, 7 a packet output;
    three events have been scheduled from queue 5 and hold orders 0, 1 and 2. *)
Definition setup : M pworld unit :=
  odp_queue_create "odp_pri00_00" None ;;; odp_queue_create "odp_pri00_01" None ;;;
  odp_queue_create "odp_pri00_02" None ;;; odp_queue_create "odp_pri00_03" None ;;;
  new_queue "ordered" ODP_QUEUE_TYPE_SCHED ODP_SCHED_SYNC_ORDERED ;;;
  new_queue "plain" ODP_QUEUE_TYPE_PLAIN ODP_SCHED_SYNC_PARALLEL ;;;
  new_queue "output" ODP_QUEUE_TYPE_PKTOUT ODP_SCHED_SYNC_PARALLEL ;;;
  odp_queue_enq_multi 5 [31; 32; 33] ;;;
  queue_deq 5 ;;; queue_deq 5 ;;; queue_deq 5 ;;; ret tt.

Definition boot : qsys pworld :=
  Qsys odp_queue_init_global
    (list_to_map ((fun i => (Z.of_nat i, hdr0 NULL 0)) <$> seq 21 20)) ∅ sched0 local0 (PW [21; 22] [] []).

(** The calling thread becomes the one that holds [order] of queue 5. *)
Definition as_thread (order : Z) (enq_called : bool) : M pworld unit :=
  modl (fun l => set_l_enq_called enq_called (set_l_order order (set_l_origin_qe 5 l))).

Fixpoint contents (n : nat) (b : Z) : M pworld (list Z) :=
  match n with
  | O => ret []
  | S n => if isnull b then ret []
           else h <- getb b ;; l <- contents n (b_next h) ;; ret (b :: l)
  end.

(** The events on queue [q] and on its reorder queue, and its [order_out]. *)
Definition observe (q : Z) : M pworld (list Z * list Z * Z) :=
  e <- getq q ;;
  l <- contents 20 (q_head e) ;;
  r <- contents 20 (q_reorder_head e) ;;
  ret (l, r, q_order_out e).

(** An event is lost.  The thread with order 1 enqueues 34 and 35 while order 0 is
    outstanding, so both wait on the reorder queue; order 0 is released; then
    order 1 is released: [release_order] takes both off the reorder queue, but
    clears [next] before it copies it to [link], so only 34 reaches the target. *)
Theorem release_order_loses_event :
  fst <$> (setup ;;;
           as_thread 1 false ;;; odp_queue_enq 6 34 ;;; odp_queue_enq 6 35 ;;;
           before <- observe 5 ;;
           as_thread 0 false ;;; release_order 5 0 0 false ;;;
           as_thread 1 true ;;; rc <- release_order 5 1 0 true ;;
           after <- observe 5 ;; target <- observe 6 ;;
           ret (before, rc, after, target)) boot
  = Some (([], [34; 35], 0), 0, ([], [], 2), ([34], [], 0)).
Proof. vm_compute. reflexivity. Qed.

(** Two events are swapped.  As above, but order 1 is released before order 0:
    when order 0 completes, [reorder_complete] hands back the first buffer of
    order 1 and [reorder_enq] sorts it in behind the second. *)
Theorem release_order_swaps_events :
  fst <$> (setup ;;;
           as_thread 1 false ;;; odp_queue_enq 6 34 ;;; odp_queue_enq 6 35 ;;;
           release_order 5 1 0 true ;;;
           as_thread 0 false ;;; rc <- release_order 5 0 0 false ;;
           after <- observe 5 ;; target <- observe 6 ;;
           ret (rc, after, target)) boot
  = Some (0, ([], [], 2), ([35; 34], [], 0)).
Proof. vm_compute. reflexivity. Qed.

(** A packet is not sent.  The thread in order sends three packets to an output
    queue with one call: the call reports three, but only the chain behind the
    first packet is handed to the interface. *)
Theorem pktout_enq_multi_drops_first :
  fst <$> (setup ;;;
           as_thread 0 false ;;; rc <- odp_queue_enq_multi 7 [31; 34; 35] ;;
           w <- gets world ;;
           ret (rc, w_sent w)) boot
  = Some (3, [34; 35]).
Proof. vm_compute. reflexivity. Qed.

End QueueSpec.
