(* ===== verification/Schedule.v ===== *)
(** The scheduler, [odp_schedule.c]: the scheduling call, its cache of
    dequeued events, the atomic and ordered contexts, pausing, packet input
    polling, scheduler groups, ordered locks, start-up and shut-down.  The
    tables, the per-thread context and the calls that queues make are in
    [Queue]; [pktin_poll] of [odp_packet_io.c] is here because only the
    scheduler calls it.

    A thread mask is the integer whose bit [i] stands for thread [i]. *)

From S2P Require Import Prelude Pool PoolCreate Queue.

Open Scope Z_scope.
Open Scope c_scope.

Module Schedule.
Import Pool Queue.
Open Scope queue_scope.

Definition MAX_DEQ : Z := 4.
Definition MAX_PKTIN : Z := 8.
Definition POLL_CMD_QUEUES : Z := 4.
Definition ODP_SCHED_GROUP_INVALID : Z := -1.
Definition ODP_SCHED_GROUP_CONTROL : Z := 2.
Definition ODP_SCHED_GROUP_NAMED : Z := ODP_SCHED_GROUP_CONTROL + 1.
Definition ODP_CONFIG_SCHED_GRPS : Z := 256.
Definition ODP_SCHED_GROUP_NAME_LEN : nat := 32.
Definition ODP_SCHED_WAIT : Z := 2 ^ 64 - 1.
Definition ODP_SCHED_NO_WAIT : Z := 0.

(** The fields of [pktio_entry_t] that [pktin_poll] reads. *)
Record pktin_entry := PktinEntry {
  pe_free : bool;
  pe_num_in_queue : Z;
  pe_stopped : bool;
  pe_in_queue : list ((Z * Z) * Z)
}.

(** What the scheduler asks of the packet interfaces, of the clock and of the
    thread numbering, besides what queues ask. *)
Class SchedPlatform (W : Type) := {
  w_pktio_entry : Z -> W -> option pktin_entry;
  w_time_local : W -> Z * W;
  w_thread_id : W -> Z
}.

Section schedule.
Context {W : Type} {PL : Platform W} {SPL : SchedPlatform W}.

(** * The calling thread's context *)

(** [sched_local_init]: everything zero but the thread number. *)
Definition sched_local_init : M W unit :=
  thr <- gets (fun s => w_thread_id (world s)) ;;
  modl (fun _ => Local thr 0 0 false 0 ODP_QUEUE_INVALID ODP_EVENT_INVALID NULL NULL
                   [NULL; NULL; NULL; NULL] 0 [0; 0] 0 false false).

Definition odp_schedule_release_atomic : M W unit :=
  l <- gets loc ;;
  if negb (l_pri_queue l =? ODP_QUEUE_INVALID) && (l_num l =? 0) then
    rc <- odp_queue_enq (l_pri_queue l) (l_cmd_ev l) ;;
    if negb (rc =? 0) then abort
    else modl (set_l_pri_queue ODP_QUEUE_INVALID)
  else ret tt.

Definition odp_schedule_release_ordered : M W unit :=
  l <- gets loc ;;
  if isnull (l_origin_qe l) then ret tt
  else
    rc <- release_order (l_origin_qe l) (l_order l) (l_pool l) (l_enq_called l) ;;
    if rc =? 0 then modl (set_l_origin_qe NULL) else ret tt.

Definition odp_schedule_release_context : M W unit :=
  l <- gets loc ;;
  if isnull (l_origin_qe l) then odp_schedule_release_atomic
  else
    release_order (l_origin_qe l) (l_order l) (l_pool l) (l_enq_called l) ;;;
    modl (set_l_origin_qe NULL).

Definition odp_schedule_pause : M W unit := modl (set_l_pause true).
Definition odp_schedule_resume : M W unit := modl (set_l_pause false).

Definition odp_schedule_init_local : M W Z := sched_local_init ;;; ret 0.

Definition odp_schedule_term_local : M W Z :=
  l <- gets loc ;;
  if negb (l_num l =? 0) then ret (-1)
  else
    odp_schedule_release_context ;;;
    sched_local_init ;;;
    ret 0.

(** * Dispatching cached events *)

(** [while (sched_local.num && max)]; [sched_local.num] falls in each round. *)
Fixpoint copy_loop (fuel : nat) (max : Z) : M W (list Z) :=
  match fuel with
  | O => abort
  | S fuel =>
      l <- gets loc ;;
      if (l_num l =? 0) || (max =? 0) then ret []
      else
        ev <- lift (zget (l_buf_hdr l) (l_index l)) ;;
        modl (set_l_index (l_index l + 1)) ;;;
        modl (set_l_num (l_num l - 1)) ;;;
        out <- copy_loop fuel (max - 1) ;;
        ret (ev :: out)
  end.

(** The events written to [out_ev]; their number is the return value. *)
Definition copy_events (max : Z) : M W (list Z) :=
  l <- gets loc ;;
  copy_loop (S (Z.to_nat (l_num l))) max.

(** * The scheduling call *)

(** [num = queue_deq_multi(qe, sched_local.buf_hdr, max_deq)] *)
Definition deq_to_local (qe max_deq : Z) : M W Z :=
  ' (num, l) <- queue_deq_multi qe max_deq ;;
  modl (fun x => set_l_buf_hdr (l ++ drop (length l) (l_buf_hdr x)) x) ;;;
  ret num.

(** Re-enqueue of a command; failure aborts. *)
Definition enq_or_abort (queue ev : Z) : M W unit :=
  rc <- odp_queue_enq queue ev ;;
  if rc =? 0 then ret tt else abort.

(** Whether the calling thread may take work from [qe]. *)
Definition grp_ineligible (qe : queue_entry) : M W bool :=
  let qe_grp := p_group (q_param qe) in
  if qe_grp >? ODP_SCHED_GROUP_ALL then
    s <- gets sched ;;
    ' (_, mask) <- lift (zget (s_grp s) qe_grp) ;;
    l <- gets loc ;;
    ret (negb (Z.testbit mask (l_thr l)))
  else ret false.

(** [sched_local.sync[k] = sched_local.buf_hdr[0]->sync[k]] for the first
    [lock_count] locks. *)
Definition cache_order (qe buf0 : Z) : M W unit :=
  e <- getq qe ;;
  h <- getb buf0 ;;
  let n := Z.to_nat (p_lock_count (q_param e)) in
  modl (fun l =>
    set_l_enq_called false
      (set_l_sync (take n (b_union h) ++ drop n (l_sync l))
        (set_l_pool (b_pool_hdl h) (set_l_order (b_order h) (set_l_origin_qe qe l))))).

(** What [schedule] returns: the number of events, [*out_queue] when it is
    written, and [out_ev]. *)
Record sched_out := Out { o_ret : Z; o_queue : option Z; o_ev : list Z }.

(** After [num > 0] events of [qe] were dequeued. *)
Definition dispatch (pri_q ev qe num max_num : Z) : M W sched_out :=
  modl (fun l => set_l_qe qe (set_l_index 0 (set_l_num num l))) ;;;
  out <- copy_events max_num ;;
  e <- getq qe ;;
  (if queue_is_ordered e then
     enq_or_abort pri_q ev ;;;
     l <- gets loc ;;
     buf0 <- lift (zget (l_buf_hdr l) 0) ;;
     cache_order qe buf0
   else if queue_is_atomic e then
     modl (fun l => set_l_cmd_ev ev (set_l_pri_queue pri_q l))
   else enq_or_abort pri_q ev) ;;;
  ret (Out (zlen out) (Some (q_handle e)) out).

(** One round of the inner loop: [inl max_deq] goes on to the next queue,
    [inr] returns from [schedule]. *)
Definition visit_pri_queue (i id max_num max_deq : Z) : M W (Z + sched_out) :=
  s <- gets sched ;;
  mask <- lift (zget (s_pri_mask s) i) ;;
  if (mask & Z.shiftl 1 id) =? 0 then ret (inl max_deq)
  else
    pri_q <- lift (row ← zget (s_pri_queue s) i; zget row id) ;;
    ev <- odp_queue_deq pri_q ;;
    if ev =? ODP_EVENT_INVALID then ret (inl max_deq)
    else
      cmd <- gets (fun s => cmds s !! ev) ;;
      match cmd with
      | Some (CMD_DEQUEUE qe) =>
          e <- getq qe ;;
          skip <- grp_ineligible e ;;
          if skip : bool then enq_or_abort pri_q ev ;;; ret (inl max_deq)
          else
            let max_deq := if queue_is_ordered e then 1 else max_deq in
            num <- deq_to_local qe max_deq ;;
            if num <? 0 then queue_destroy_finalize qe ;;; ret (inl max_deq)
            else if num =? 0 then ret (inl max_deq)
            else
              out <- dispatch pri_q ev qe num max_num ;;
              ret (inr out)
      | _ => abort
      end.

(** The [QUEUES_PER_PRIO] queues of priority [i], from [id] on. *)
Fixpoint id_loop (n : nat) (i id max_num max_deq : Z) : M W (Z + sched_out) :=
  match n with
  | O => ret (inl max_deq)
  | S n =>
      let id := if id >=? QUEUES_PER_PRIO then 0 else id in
      r <- visit_pri_queue i id max_num max_deq ;;
      match r with
      | inl max_deq => id_loop n i (id + 1) max_num max_deq
      | inr out => ret (inr out)
      end
  end.

Fixpoint prio_loop (n : nat) (i max_num max_deq : Z) : M W (Z + sched_out) :=
  match n with
  | O => ret (inl max_deq)
  | S n =>
      s <- gets sched ;;
      mask <- lift (zget (s_pri_mask s) i) ;;
      if mask =? 0 then prio_loop n (i + 1) max_num max_deq
      else
        l <- gets loc ;;
        let id := l_thr l & (QUEUES_PER_PRIO - 1) in
        r <- id_loop (Z.to_nat QUEUES_PER_PRIO) i id max_num max_deq ;;
        match r with
        | inl max_deq => prio_loop n (i + 1) max_num max_deq
        | inr out => ret (inr out)
        end
  end.

(** * Packet input polling *)

Definition poll_cmd_queue_idx (pktio in_queue_idx : Z) : Z :=
  (POLL_CMD_QUEUES - 1) & Z.lxor (pktio -u32 1) in_queue_idx.

(** The loop of [pktin_poll] over the input queues of a command. *)
Fixpoint pktin_poll_loop (entry : pktin_entry) (index : list Z) : M W Z :=
  match index with
  | [] => ret 0
  | i :: index =>
      ' (pktin, queue) <- lift (zget (pe_in_queue entry) i) ;;
      ' (num, pkt_tbl) <- on_world (w_pktio_recv_queue pktin) ;;
      if num =? 0 then pktin_poll_loop entry index
      else if num <? 0 then ret (-1)
      else
        queue_enq_multi queue (take (Z.to_nat num) pkt_tbl) false ;;;
        pktin_poll_loop entry index
  end.

Definition pktin_poll (pktio : Z) (index : list Z) : M W Z :=
  w <- gets world ;;
  entry <- lift (w_pktio_entry pktio w) ;;
  if pe_free entry then ret (-1)
  else if pe_num_in_queue entry =? 0 then ret (-1)
  else if pe_stopped entry then ret 0
  else pktin_poll_loop entry index.

(** [sched->poll_cmd[idx].num] plus [d], a 16-bit counter. *)
Definition poll_cmd_add (idx d : Z) : M W unit :=
  mods (fun s =>
    '(queue, num) ← zget (s_poll_cmd s) idx;
    l ← zset (s_poll_cmd s) idx (queue, u16 (num + d));
    Some (set_s_poll_cmd l s)).

(** Returns only when the command pool has a buffer and there are at most
    [MAX_PKTIN] queues: it aborts otherwise. *)
Definition schedule_pktio_start (pktio : Z) (in_queue_idx : list Z) : M W unit :=
  s <- gets sched ;;
  buf <- on_world (w_buffer_alloc (s_pool s)) ;;
  if buf =? ODP_BUFFER_INVALID then abort
  else if zlen in_queue_idx >? MAX_PKTIN then abort
  else
    (fun s => Some (tt, set_cmds (<[buf := CMD_POLL_PKTIN pktio in_queue_idx]> (cmds s)) s)) ;;;
    idx0 <- lift (zget in_queue_idx 0) ;;
    let idx := poll_cmd_queue_idx pktio idx0 in
    poll_cmd_add idx 1 ;;;
    s <- gets sched ;;
    ' (queue, _) <- lift (zget (s_poll_cmd s) idx) ;;
    enq_or_abort queue buf.

Definition schedule_pktio_stop (pktio : Z) (index : list Z) : M W unit :=
  idx0 <- lift (zget index 0) ;;
  poll_cmd_add (poll_cmd_queue_idx pktio idx0) (-1).

(** The search for a poll command. *)
Fixpoint poll_loop (n : nat) (id : Z) : M W unit :=
  match n with
  | O => ret tt
  | S n =>
      let id := if id =? POLL_CMD_QUEUES then 0 else id in
      s <- gets sched ;;
      ' (cmd_queue, num) <- lift (zget (s_poll_cmd s) id) ;;
      if num =? 0 then poll_loop n (id + 1)
      else
        ev <- odp_queue_deq cmd_queue ;;
        if ev =? ODP_EVENT_INVALID then poll_loop n (id + 1)
        else
          cmd <- gets (fun s => cmds s !! ev) ;;
          match cmd with
          | Some (CMD_POLL_PKTIN pktio index) =>
              rc <- pktin_poll pktio index ;;
              if negb (rc =? 0) then
                schedule_pktio_stop pktio index ;;;
                buffer_free ev ;;;
                poll_loop n (id + 1)
              else
                enq_or_abort cmd_queue ev ;;;
                l <- gets loc ;;
                if negb ((l_pktin_polls l & 0xf) =? 0) then ret tt
                else poll_loop n (id + 1)
          | _ => abort
          end
  end.

Definition schedule (max_num max_deq : Z) : M W sched_out :=
  l <- gets loc ;;
  if negb (l_num l =? 0) then
    out <- copy_events max_num ;;
    e <- getq (l_qe l) ;;
    ret (Out (zlen out) (Some (q_handle e)) out)
  else
    odp_schedule_release_context ;;;
    l <- gets loc ;;
    if l_pause l then ret (Out 0 None [])
    else
      r <- prio_loop (Z.to_nat ODP_CONFIG_SCHED_PRIOS) 0 max_num max_deq ;;
      match r with
      | inr out => ret out
      | inl _ =>
          poll_loop (Z.to_nat POLL_CMD_QUEUES) (l_thr l & (POLL_CMD_QUEUES - 1)) ;;;
          modl (fun l => set_l_pktin_polls (l_pktin_polls l +u32 1) l) ;;;
          ret (Out 0 None [])
      end.

(** [next] is the end of a timed wait, set by the first round ([None] while
    [first]).  Times are nanoseconds. *)
Fixpoint schedule_rounds (fuel : nat) (wait max_num max_deq : Z) (next : option Z)
    : M W sched_out :=
  match fuel with
  | O => abort
  | S fuel =>
      out <- schedule max_num max_deq ;;
      if negb (o_ret out =? 0) then ret out
      else if wait =? ODP_SCHED_WAIT then schedule_rounds fuel wait max_num max_deq next
      else if wait =? ODP_SCHED_NO_WAIT then ret out
      else
        match next with
        | None =>
            now <- on_world (fun w => Some (w_time_local w)) ;;
            schedule_rounds fuel wait max_num max_deq (Some (now +u64 wait))
        | Some next' =>
            now <- on_world (fun w => Some (w_time_local w)) ;;
            if next' <? now then ret out
            else schedule_rounds fuel wait max_num max_deq next
        end
  end.

(** [fuel] bounds the rounds of a call that waits. *)
Definition schedule_loop (fuel : nat) (wait max_num max_deq : Z) : M W sched_out :=
  schedule_rounds fuel wait max_num max_deq None.

Definition odp_schedule (fuel : nat) (wait : Z) : M W (Z * option Z) :=
  out <- schedule_loop fuel wait 1 MAX_DEQ ;;
  ret (default ODP_EVENT_INVALID (head (o_ev out)), o_queue out).

Definition odp_schedule_multi (fuel : nat) (wait num : Z) : M W sched_out :=
  schedule_loop fuel wait (u32 num) MAX_DEQ.

(** * Ordered locks *)

(** The lock's turn and the order the caller has, when the caller holds an
    ordered context whose queue has that lock. *)
Definition order_lock_state (lock_index : Z) : M W (option (Z * Z)) :=
  l <- gets loc ;;
  if isnull (l_origin_qe l) then ret None
  else
    e <- getq (l_origin_qe l) ;;
    if lock_index >=? p_lock_count (q_param e) then ret None
    else
      sync <- lift (zget (l_sync l) lock_index) ;;
      sync_out <- lift (zget (q_sync_out e) lock_index) ;;
      ret (Some (sync, sync_out)).

(** The call up to the first test of its waiting loop: whether it returns
    there.  The assertion is compiled in unless debugging is disabled. *)
Definition odp_schedule_order_lock (lock_index : Z) : M W bool :=
  st <- order_lock_state lock_index ;;
  match st with
  | None => ret true
  | Some (sync, sync_out) => if sync <? sync_out then abort else ret (sync =? sync_out)
  end.

(** A later test of the loop. *)
Definition order_lock_retry (lock_index : Z) : M W bool :=
  st <- order_lock_state lock_index ;;
  ret (match st with None => true | Some (sync, sync_out) => sync =? sync_out end).

Definition odp_schedule_order_unlock (lock_index : Z) : M W unit :=
  st <- order_lock_state lock_index ;;
  match st with
  | None => ret tt
  | Some (sync, sync_out) =>
      if negb (sync =? sync_out) then abort
      else
        l <- gets loc ;;
        e <- getq (l_origin_qe l) ;;
        v <- lift (zset (q_sync_out e) lock_index (sync_out +u64 1)) ;;
        modq (l_origin_qe l) (set_q_sync_out v)
  end.

(** * Start-up and shut-down *)

(** [name[k] = '0' + i / 10; name[k + 1] = '0' + i - 10 * (i / 10)] *)
Definition two_digits (i : Z) : string :=
  let digit d := Ascii.ascii_of_nat (48 + Z.to_nat d) in
  String (digit (i / 10)) (String (digit (i - 10 * (i / 10))) EmptyString).

Definition pri_name (i j : Z) : string := "odp_pri" +:+ two_digits i +:+ "_" +:+ two_digits j.
Definition poll_cmd_name (i : Z) : string := "odp_poll_cmd_" +:+ two_digits i.

(** Create a queue per name; [None] when one cannot be created. *)
Fixpoint create_queues (names : list string) : M W (option (list Z)) :=
  match names with
  | [] => ret (Some [])
  | name :: names =>
      queue <- odp_queue_create name None ;;
      if queue =? ODP_QUEUE_INVALID then ret None
      else
        r <- create_queues names ;;
        ret (cons queue <$> r)
  end.

Fixpoint create_pri_queues (n : nat) (i : Z) : M W (option (list (list Z))) :=
  match n with
  | O => ret (Some [])
  | S n =>
      row <- create_queues (pri_name i <$> seqZ 0 QUEUES_PER_PRIO) ;;
      match row with
      | None => ret None
      | Some row =>
          rows <- create_pri_queues n (i + 1) ;;
          ret (cons row <$> rows)
      end
  end.

(** [shm_addr] and [pool] are what the shared memory and the pool for command
    buffers came to; [grp_masks] are the masks of the thread table. *)
Definition odp_schedule_init_global (shm_addr pool : Z) (grp_masks : list Z) : M W Z :=
  if shm_addr =? NULL then ret (-1)
  else if pool =? PoolCreate.ODP_POOL_INVALID then ret (-1)
  else
    let zeros := replicate (Z.to_nat ODP_CONFIG_SCHED_PRIOS) [0; 0; 0; 0] in
    rows <- create_pri_queues (Z.to_nat ODP_CONFIG_SCHED_PRIOS) 0 ;;
    match rows with
    | None => ret (-1)
    | Some rows =>
        polls <- create_queues (poll_cmd_name <$> seqZ 0 POLL_CMD_QUEUES) ;;
        match polls with
        | None => ret (-1)
        | Some polls =>
            mods (fun _ => Some (Sched rows (replicate (Z.to_nat ODP_CONFIG_SCHED_PRIOS) 0) zeros
                     ((fun q => (q, 0)) <$> polls) pool ((fun m => (EmptyString, m)) <$> grp_masks))) ;;;
            ret 0
        end
    end.

(** [while ((ev = odp_queue_deq(pri_q)) != ODP_EVENT_INVALID)]; each round takes
    a buffer off the queue. *)
Fixpoint drain_pri (fuel : nat) (pri_q : Z) : M W unit :=
  match fuel with
  | O => abort
  | S fuel =>
      ev <- odp_queue_deq pri_q ;;
      if ev =? ODP_EVENT_INVALID then ret tt
      else
        cmd <- gets (fun s => cmds s !! ev) ;;
        match cmd with
        | Some (CMD_DEQUEUE qe) =>
            ' (num, _) <- queue_deq_multi qe 1 ;;
            (if num <? 0 then queue_destroy_finalize qe else ret tt) ;;;
            drain_pri fuel pri_q
        | _ => abort
        end
  end.

Fixpoint drain_poll (fuel : nat) (queue : Z) : M W unit :=
  match fuel with
  | O => abort
  | S fuel =>
      ev <- odp_queue_deq queue ;;
      if ev =? ODP_EVENT_INVALID then ret tt
      else buffer_free ev ;;; drain_poll fuel queue
  end.

(** Drain and destroy each queue; whether every destruction succeeded. *)
Fixpoint term_queues (drain : nat -> Z -> M W unit) (l : list Z) : M W bool :=
  match l with
  | [] => ret true
  | q :: l =>
      fuel <- walk_fuel ;;
      drain fuel q ;;;
      rc <- odp_queue_destroy q ;;
      ok <- term_queues drain l ;;
      ret ((rc =? 0) && ok)
  end.

(** [pool_destroy] and [shm_free] are what the last two calls returned. *)
Definition odp_schedule_term_global (pool_destroy shm_free : Z) : M W Z :=
  s <- gets sched ;;
  ok1 <- term_queues drain_pri (concat (s_pri_queue s)) ;;
  ok2 <- term_queues drain_poll (fst <$> s_poll_cmd s) ;;
  ret (if ok1 && ok2 && (pool_destroy =? 0) && negb (shm_free <? 0) then 0 else -1).

End schedule.

(** * Groups

    [sched_grp] is a table of names and masks. *)

(** CPU_SETSIZE is 1024. *)
Definition sched_mask_all : Z := Z.ones 1024.

Abbreviation grp_table := (list (string * Z)).

Definition grp_named (g : grp_table) (group : Z) : option (string * Z) :=
  if (group <? ODP_CONFIG_SCHED_GRPS) && (group >=? ODP_SCHED_GROUP_NAMED) then
    match zget g group with
    | Some (name, mask) => if bool_decide (name = EmptyString) then None else Some (name, mask)
    | None => None
    end
  else None.

(** [for (i = NAMED; i < GRPS; i++)] up to the first entry that passes. *)
Fixpoint grp_find (n : nat) (i : Z) (g : grp_table) (test : string -> bool) : Z :=
  match n with
  | O => ODP_SCHED_GROUP_INVALID
  | S n =>
      match zget g i with
      | Some (name, _) => if test name then i else grp_find n (i + 1) g test
      | None => ODP_SCHED_GROUP_INVALID
      end
  end.

Definition grp_count : nat := Z.to_nat (ODP_CONFIG_SCHED_GRPS - ODP_SCHED_GROUP_NAMED).

Definition odp_schedule_group_create (name : string) (mask : Z) (g : grp_table)
    : Z * grp_table :=
  let i := grp_find grp_count ODP_SCHED_GROUP_NAMED g (fun n => bool_decide (n = EmptyString)) in
  if i =? ODP_SCHED_GROUP_INVALID then (i, g)
  else (i, <[Z.to_nat i := (String.substring 0 (ODP_SCHED_GROUP_NAME_LEN - 1) name, mask)]> g).

Definition odp_schedule_group_lookup (name : string) (g : grp_table) : Z :=
  grp_find grp_count ODP_SCHED_GROUP_NAMED g (fun n => bool_decide (name = n)).

Definition grp_update (group : Z) (f : string * Z -> string * Z) (g : grp_table) : Z * grp_table :=
  match grp_named g group with
  | Some x => (0, <[Z.to_nat group := f x]> g)
  | None => (-1, g)
  end.

Definition odp_schedule_group_destroy (group : Z) (g : grp_table) : Z * grp_table :=
  grp_update group (fun _ => (EmptyString, 0)) g.

Definition odp_schedule_group_join (group mask : Z) (g : grp_table) : Z * grp_table :=
  grp_update group (fun x => (fst x, Z.lor (snd x) mask)) g.

Definition odp_schedule_group_leave (group mask : Z) (g : grp_table) : Z * grp_table :=
  grp_update group (fun x => (fst x, snd x & Z.lxor mask sched_mask_all)) g.

Definition odp_schedule_group_thrmask (group : Z) (g : grp_table) : Z * option Z :=
  match grp_named g group with
  | Some (_, mask) => (0, Some mask)
  | None => (-1, None)
  end.

End Schedule.
