(* ===== verification/ScheduleProofs.v ===== *)
(** The scheduler's invariant and what one scheduling call does to it.

    Every queue known to the scheduler owns one command event.  The invariant
    says where it is: nowhere while the queue is out of scheduling (and then
    the queue is empty), in the queue's priority queue, or in the hands of one
    thread.  The lemmas follow a command through the call: taken off its
    priority queue, put back, or left aside with the empty queue. *)

From S2P Require Import Prelude Pool Queue QueueProofs Schedule.

Open Scope Z_scope.
Open Scope c_scope.

Module ScheduleProofs.
Import Pool Queue QueueProofs Schedule.
Open Scope queue_scope.

(** A queue in or out of scheduling, not destroyed. *)
Definition known (e : queue_entry) : Prop :=
  q_status e = QUEUE_STATUS_NOTSCHED \/ q_status e = QUEUE_STATUS_SCHED.

(** The part of an entry that scheduling leaves alone. *)
Definition core (e : queue_entry) : queue_entry :=
  set_q_status (if (q_status e =? QUEUE_STATUS_NOTSCHED) then QUEUE_STATUS_SCHED else q_status e) (meta e).

(** The command a thread holds with an atomic queue. *)
Definition held (l : sched_local_t) : list Z :=
  if l_pri_queue l =? ODP_QUEUE_INVALID then [] else [l_cmd_ev l].

Lemma core_fields e e' :
  core e' = core e ->
  q_ops e' = q_ops e /\ q_cmd_ev e' = q_cmd_ev e /\ q_pri_queue e' = q_pri_queue e /\
  q_param e' = q_param e /\ q_handle e' = q_handle e /\ q_order_in e' = q_order_in e /\
  q_sync_in e' = q_sync_in e /\ (known e' <-> known e) /\
  (q_status e' = QUEUE_STATUS_READY <-> q_status e = QUEUE_STATUS_READY).
Proof.
  intros H. split_and!; try exact (f_equal _ H);
    [exact (f_equal q_ops H)|exact (f_equal q_cmd_ev H)|exact (f_equal q_pri_queue H)
    |exact (f_equal q_param H)|exact (f_equal q_handle H)|exact (f_equal q_order_in H)
    |exact (f_equal q_sync_in H)|..].
  all: assert (q_status (core e') = q_status (core e)) as Hs by (by rewrite H); simpl in Hs;
    unfold known, QUEUE_STATUS_NOTSCHED, QUEUE_STATUS_SCHED, QUEUE_STATUS_READY in *;
    destruct (q_status e' =? 3) eqn:E1, (q_status e =? 3) eqn:E2; zbool; lia.
Qed.

Section proofs.
Context {W : Type} {PL : Platform W} {SPL : SchedPlatform W}.
Implicit Types (Q : Z -> list Z) (s : qsys W) (H : list Z).

Definition slot (t : sched_t) (i id : Z) : option Z := row ← zget (s_pri_queue t) i; zget row id.

Definition bit (t : sched_t) (i id : Z) : bool :=
  match zget (s_pri_mask t) i with Some m => negb ((m & Z.shiftl 1 id) =? 0) | None => false end.

(** The tables of the scheduler: eight priorities of four queues each, all
    different, and no packet input to poll. *)
Record tables_ok (t : sched_t) : Prop := {
  tb_mask : forall i, 0 <= i < 8 -> exists m, zget (s_pri_mask t) i = Some m;
  tb_slot : forall i id, 0 <= i < 8 -> 0 <= id < 4 -> exists p, slot t i id = Some p;
  tb_nonnull : forall i id p, slot t i id = Some p -> p <> ODP_QUEUE_INVALID;
  tb_inj : forall i id i' id' p, slot t i id = Some p -> slot t i' id' = Some p -> i = i' /\ id = id';
  tb_poll : forall i, 0 <= i < 4 -> exists q, zget (s_poll_cmd t) i = Some (q, 0)
}.

(** Registration: what holds of the queues whatever they contain.  This is for
    applications that have no ordered queues ([queue_is_ordered] is false of every
    known queue) and let no packet interface be polled ([tb_poll] of the tables: no
    poll command is out); the scheduler handles both, and what it does with them is
    outside of the theorems that use this invariant. *)
Record registered s : Prop := {
  rg_tables : tables_ok (sched s);
  rg_pri : forall i id p, slot (sched s) i id = Some p ->
    exists pe, queues s !! p = Some pe /\ q_status pe = QUEUE_STATUS_READY /\ q_ops pe = OPS_QUEUE /\
      queue_is_ordered pe = false /\ counters_ok pe;
  rg_queue : forall q e, queues s !! q = Some e -> known e ->
    q_ops e = OPS_QUEUE /\ queue_is_ordered e = false /\ counters_ok e /\
    cmds s !! q_cmd_ev e = Some (CMD_DEQUEUE q) /\ q_cmd_ev e <> NULL /\
    (exists h, bufs s !! q_cmd_ev e = Some h /\ b_origin_qe h = NULL) /\
    (exists i id, 0 <= i < 8 /\ 0 <= id < 4 /\ slot (sched s) i id = Some (q_pri_queue e) /\
       bit (sched s) i id = true) /\
    (p_group (q_param e) > 0 -> exists g, zget (s_grp (sched s)) (p_group (q_param e)) = Some g)
}.

(** Where the commands are; [H] are those in the hands of threads. *)
Record placed s Q H : Prop := {
  pl_sched : forall q e, queues s !! q = Some e -> q_status e = QUEUE_STATUS_SCHED ->
    (q_cmd_ev e ∈ Q (q_pri_queue e) /\ q_cmd_ev e ∉ H) \/
    (q_cmd_ev e ∈ H /\ forall q' e', queues s !! q' = Some e' -> q_cmd_ev e ∉ Q q');
  pl_idle : forall q e, queues s !! q = Some e -> q_status e = QUEUE_STATUS_NOTSCHED ->
    Q q = [] /\ q_cmd_ev e ∉ H;
  pl_pri : forall i id p x, slot (sched s) i id = Some p -> x ∈ Q p ->
    exists q e, queues s !! q = Some e /\ q_status e = QUEUE_STATUS_SCHED /\
      q_cmd_ev e = x /\ q_pri_queue e = p;
  pl_held : forall x, x ∈ H -> exists q e, queues s !! q = Some e /\
    q_status e = QUEUE_STATUS_SCHED /\ q_cmd_ev e = x;
  pl_nodup : NoDup H
}.

Record sinv s Q H : Prop := {
  si_q : qinv s Q (fun _ => []);
  si_reg : registered s;
  si_place : placed s Q H
}.

(** What every step of the scheduler leaves alone. *)
Record frame (s s' : qsys W) : Prop := {
  fr_core : forall q, core <$> queues s' !! q = core <$> queues s !! q;
  fr_bufs : forall x h, bufs s !! x = Some h ->
    exists h', bufs s' !! x = Some h' /\ (b_origin_qe h = NULL -> b_origin_qe h' = NULL);
  fr_rest : cmds s' = cmds s /\ sched s' = sched s /\ world s' = world s
}.

Lemma frame_refl s : frame s s.
Proof. split; [done| |done]. intros x h Hx. by exists h. Qed.

Lemma frame_trans s1 s2 s3 : frame s1 s2 -> frame s2 s3 -> frame s1 s3.
Proof.
  intros [C1 B1 (R1 & R2 & R3)] [C2 B2 (R4 & R5 & R6)]. split.
  - intros q. by rewrite C2, C1.
  - intros x h (h1 & Hh1 & O1)%B1. apply B2 in Hh1 as (h2 & Hh2 & O2). exists h2. auto.
  - by rewrite R4, R5, R6.
Qed.

Lemma frame_loc s l : frame s (set_loc l s).
Proof. split; [done| |done]. intros x h Hx. by exists h. Qed.

Lemma frame_lookup s s' q e :
  frame s s' -> queues s !! q = Some e -> exists e', queues s' !! q = Some e' /\ core e' = core e.
Proof.
  intros Hf Hq. pose proof (fr_core _ _ Hf q) as Hc. rewrite Hq in Hc.
  destruct (queues s' !! q) as [e'|]; [|done]. exists e'. split; [done|]. by apply (inj Some) in Hc.
Qed.

Lemma frame_lookup_inv s s' q e' :
  frame s s' -> queues s' !! q = Some e' -> exists e, queues s !! q = Some e /\ core e' = core e.
Proof.
  intros Hf Hq. pose proof (fr_core _ _ Hf q) as Hc. rewrite Hq in Hc.
  destruct (queues s !! q) as [e|]; [|done]. exists e. split; [done|]. by apply (inj Some) in Hc.
Qed.

Lemma registered_frame s s' : registered s -> frame s s' -> registered s'.
Proof.
  intros [T P U] Hf. destruct (fr_rest _ _ Hf) as (Hc & Hs & _). split; rewrite ?Hs; [done|..].
  - intros i id p (pe & Hp & P1 & P2 & P3 & P4)%P. destruct (frame_lookup _ _ _ _ Hf Hp) as (pe' & Hp' & Hco).
    destruct (core_fields _ _ Hco) as (F1 & _ & _ & F4 & _ & F6 & F7 & _ & F9).
    exists pe'. unfold queue_is_ordered, counters_ok in *. rewrite F1, F4, F6, F7. by rewrite F9.
  - intros q e' Hq Hk. destruct (frame_lookup_inv _ _ _ _ Hf Hq) as (e & He & Hco).
    destruct (core_fields _ _ Hco) as (F1 & F2 & F3 & F4 & _ & F6 & F7 & F8 & _).
    apply F8 in Hk. destruct (U q e He Hk) as (U1 & U2 & U3 & U4 & U5 & (h & Uh & Uo) & U7 & U8).
    destruct (fr_bufs _ _ Hf _ _ Uh) as (h' & Hh' & Ho').
    unfold queue_is_ordered, counters_ok in *. rewrite F1, F2, F3, F4, F6, F7, Hc.
    do 5 (split; [done|]). split; [by exists h'; auto|done].
Qed.

(** Two queues have different commands. *)
Lemma cmd_inj s q q' e e' :
  registered s -> queues s !! q = Some e -> queues s !! q' = Some e' -> known e -> known e' ->
  q_cmd_ev e = q_cmd_ev e' -> q = q'.
Proof.
  intros Hr Hq Hq' Hk Hk' Heq. destruct (rg_queue _ Hr q e Hq Hk) as (_ & _ & _ & H1 & _).
  destruct (rg_queue _ Hr q' e' Hq' Hk') as (_ & _ & _ & H2 & _). rewrite Heq in H1. congruence.
Qed.

Lemma slot_ready s i id p e :
  registered s -> slot (sched s) i id = Some p -> queues s !! p = Some e -> ~ known e.
Proof.
  intros Hr Hp Hq [Hk|Hk]; destruct (rg_pri _ Hr i id p Hp) as (pe & Hpe & Hst & _);
    rewrite Hq in Hpe; simplify_eq; rewrite Hk in Hst; done.
Qed.

(** * Moving a command *)

Lemma cmd_known s Q H q e :
  sinv s Q H -> queues s !! q = Some e -> q_status e = QUEUE_STATUS_SCHED -> known e.
Proof. intros. by right. Qed.

(** A command in a priority queue is in no other list and in nobody's hands. *)
Lemma placed_cmd s Q H i id p c :
  sinv s Q H -> slot (sched s) i id = Some p -> c ∈ Q p ->
  exists q e, queues s !! q = Some e /\ q_status e = QUEUE_STATUS_SCHED /\ q_cmd_ev e = c /\
    q_pri_queue e = p /\ (c ∉ H) /\ (forall q' e', queues s !! q' = Some e' -> q' <> p -> c ∉ Q q').
Proof.
  intros [Hq Hr Hp] Hs Hc. destruct (pl_pri _ _ _ Hp _ _ _ _ Hs Hc) as (q & e & He & Hst & Hce & Hpe).
  destruct (rg_pri _ Hr _ _ _ Hs) as (pe & Hpq & _).
  exists q, e. split_and!; try done.
  - destruct (pl_sched _ _ _ Hp q e He Hst) as [[_ Hn]|[_ Hn]]; [congruence|].
    exfalso. apply (Hn p pe Hpq). congruence.
  - intros q' e' Hq' Hne Hin. eapply (qi_disj _ _ _ Hq p q'); [done..|congruence| |]; rewrite app_nil_r; done.
Qed.

(** Where commands are after one was taken off, or put on, a priority queue. *)
Lemma placed_take s s' Q H i id p c l :
  sinv s Q H -> frame s s' -> slot (sched s) i id = Some p -> Q p = c :: l ->
  (forall q, q <> p -> queues s' !! q = queues s !! q) ->
  placed s' (upd p l Q) (c :: H).
Proof.
  intros Hi Hf Hs Hl Hsame. pose proof Hi as [Hq Hr Hp].
  destruct (placed_cmd s Q H i id p c Hi Hs) as (q0 & e0 & He0 & Hst0 & Hc0 & Hp0 & Hn0 & Hd0); [rewrite Hl; set_solver|].
  assert (forall q e, queues s' !! q = Some e -> known e -> q <> p /\ queues s !! q = Some e) as Hback.
  { intros q e He Hk. assert (q <> p) as Hne.
    { intros ->. destruct (frame_lookup_inv _ _ _ _ Hf He) as (e1 & He1 & Hco).
      apply (slot_ready s i id p e1 Hr Hs He1). by apply (core_fields _ _ Hco). }
    split; [done|]. by rewrite <- Hsame. }
  assert (q0 <> p) as Hq0p.
  { intros ->. apply (slot_ready s i id p e0 Hr Hs He0). by right. }
  destruct (rg_pri _ Hr _ _ _ Hs) as (pe & Hpq & _).
  assert (NoDup (c :: l)) as [Hcl _]%NoDup_cons.
  { pose proof (qi_nodup _ _ _ Hq p pe Hpq) as Hnd. by rewrite app_nil_r, Hl in Hnd. }
  split.
  - intros q e He Hst. destruct (Hback q e He) as [Hne He']; [by right|].
    destruct (decide (q = q0)) as [->|Hqq].
    + assert (e = e0) as -> by congruence. right. split; [rewrite Hc0; set_solver|].
      intros q' e' He'' Hin. rewrite Hc0 in Hin. destruct (decide (q' = p)) as [->|Hne'].
      * rewrite upd_eq in Hin. done.
      * rewrite upd_ne in Hin by done. rewrite Hsame in He'' by done. by apply (Hd0 q' e').
    + assert (q_cmd_ev e <> c) as Hce.
      { intros Heq. apply Hqq. eapply (cmd_inj s); try done; [by right..|congruence]. }
      destruct (pl_sched _ _ _ Hp q e He' Hst) as [[Hin Hn]|[Hin Hn]].
      * left. split; [|set_solver]. unfold upd. case_bool_decide as Hpp; [|done].
        rewrite Hpp, Hl in Hin. set_solver.
      * right. split; [set_solver|]. intros q' e' He''. unfold upd. case_bool_decide as Hpp.
        -- subst q'. specialize (Hn p pe Hpq). rewrite Hl in Hn. set_solver.
        -- rewrite Hsame in He'' by done. by apply (Hn q' e').
  - intros q e He Hst. destruct (Hback q e He) as [Hne He']; [by left|].
    destruct (pl_idle _ _ _ Hp q e He' Hst) as [HQ Hn]. rewrite upd_ne by done. split; [done|].
    intros [Heq|?]%elem_of_cons; [|done]. assert (q = q0) as ->; [|assert (e = e0) as -> by congruence; by rewrite Hst in Hst0].
    eapply (cmd_inj s); try done; [by left|by right|congruence].
  - intros i' id' p' x Hs' Hx. rewrite (proj1 (proj2 (fr_rest _ _ Hf))) in Hs'.
    assert (x ∈ Q p') as Hx'. { unfold upd in Hx. case_bool_decide as Hpp; [rewrite Hpp, Hl; set_solver|done]. }
    destruct (pl_pri _ _ _ Hp _ _ _ _ Hs' Hx') as (q & e & He & Hst & Hce & Hpe).
    exists q, e. split; [|done]. rewrite Hsame; [done|]. intros ->. apply (slot_ready s i id p e Hr Hs He). by right.
  - intros x [->|Hx]%elem_of_cons.
    + exists q0, e0. split; [by rewrite Hsame|done].
    + destruct (pl_held _ _ _ Hp x Hx) as (q & e & He & Hst & Hce). exists q, e. split; [|done].
      rewrite Hsame; [done|]. intros ->. apply (slot_ready s i id p e Hr Hs He). by right.
  - apply NoDup_cons. split; [done|]. apply (pl_nodup _ _ _ Hp).
Qed.

(** A command in somebody's hands is in no list. *)
Lemma held_cmd s Q H c :
  sinv s Q H -> c ∈ H ->
  exists q e, queues s !! q = Some e /\ q_status e = QUEUE_STATUS_SCHED /\ q_cmd_ev e = c /\
    (forall q' e', queues s !! q' = Some e' -> c ∉ Q q').
Proof.
  intros [Hq Hr Hp] Hc. destruct (pl_held _ _ _ Hp c Hc) as (q & e & He & Hst & Hce).
  exists q, e. split_and!; try done. rewrite <- Hce in Hc |- *.
  destruct (pl_sched _ _ _ Hp q e He Hst) as [[_ Hn]|[_ Hn]]; [done|exact Hn].
Qed.

(** Known queues are not touched by a step on a priority queue. *)
Lemma known_back s s' i id p :
  registered s -> frame s s' -> slot (sched s) i id = Some p ->
  (forall q, q <> p -> queues s' !! q = queues s !! q) ->
  forall q e, known e -> (queues s' !! q = Some e <-> queues s !! q = Some e).
Proof.
  intros Hr Hf Hs Hsame q e Hk. destruct (decide (q = p)) as [->|Hne]; [|by rewrite Hsame].
  split; intros He; exfalso.
  - destruct (frame_lookup_inv _ _ _ _ Hf He) as (e1 & He1 & Hco).
    apply (slot_ready s i id p e1 Hr Hs He1). by apply (core_fields _ _ Hco).
  - by apply (slot_ready s i id p e Hr Hs He).
Qed.

Lemma placed_put s s' Q H i id q0 e0 :
  sinv s Q (q_cmd_ev e0 :: H) -> frame s s' -> queues s !! q0 = Some e0 ->
  q_status e0 = QUEUE_STATUS_SCHED -> slot (sched s) i id = Some (q_pri_queue e0) ->
  (forall q, q <> q_pri_queue e0 -> queues s' !! q = queues s !! q) ->
  placed s' (upd (q_pri_queue e0) (Q (q_pri_queue e0) ++ [q_cmd_ev e0]) Q) H.
Proof.
  intros Hi Hf He0 Hst0 Hs Hsame. pose proof Hi as [Hq Hr Hp].
  pose proof (known_back s s' i id _ Hr Hf Hs Hsame) as Hkn.
  pose proof (pl_nodup _ _ _ Hp) as Hnd. apply NoDup_cons in Hnd as [HcH HndH].
  set (p := q_pri_queue e0) in *. set (c := q_cmd_ev e0) in *.
  assert (forall q e, queues s !! q = Some e -> known e -> q <> q0 -> q_cmd_ev e <> c) as Hinj.
  { intros q e He Hk Hne Heq. apply Hne. eapply (cmd_inj s); try done. by right. }
  split.
  - intros q e He Hst. apply Hkn in He; [|by right]. destruct (decide (q = q0)) as [->|Hqq].
    + assert (e = e0) as -> by congruence. left. fold p c. rewrite upd_eq. set_solver.
    + pose proof (Hinj q e He ltac:(by right) Hqq) as Hce.
      destruct (pl_sched _ _ _ Hp q e He Hst) as [[Hin Hn]|[Hin Hn]].
      * left. split; [|set_solver]. unfold upd. case_bool_decide as Hpp; [|done]. rewrite Hpp in Hin. set_solver.
      * right. split; [set_solver|]. intros q' e' He'. unfold upd. case_bool_decide as Hpp.
        -- destruct (rg_pri _ Hr _ _ _ Hs) as (pe & Hpq & _). specialize (Hn p pe Hpq). set_solver.
        -- rewrite Hsame in He' by done. by apply (Hn q' e').
  - intros q e He Hst. apply Hkn in He; [|by left]. destruct (pl_idle _ _ _ Hp q e He Hst) as [HQ Hn].
    rewrite upd_ne; [set_solver|]. intros ->. apply (slot_ready s i id p e Hr Hs He). by left.
  - intros i' id' p' x Hs' Hx. rewrite (proj1 (proj2 (fr_rest _ _ Hf))) in Hs'. unfold upd in Hx.
    case_bool_decide as Hpp; [apply elem_of_app in Hx as [Hx|Hx%list_elem_of_singleton]|].
    + subst p'. destruct (pl_pri _ _ _ Hp _ _ _ _ Hs' Hx) as (q & e & He & Hst & Hrest).
      exists q, e. split; [apply Hkn; [by right|done]|done].
    + exists q0, e0. subst. split; [apply Hkn; [by right|done]|done].
    + destruct (pl_pri _ _ _ Hp _ _ _ _ Hs' Hx) as (q & e & He & Hst & Hrest).
      exists q, e. split; [apply Hkn; [by right|done]|done].
  - intros x Hx. destruct (pl_held _ _ _ Hp x ltac:(set_solver)) as (q & e & He & Hst & Hce).
    exists q, e. split; [apply Hkn; [by right|done]|done].
  - done.
Qed.

(** * The queue operations of the scheduler *)

Lemma ready_queue_deq s Q p pe :
  qinv s Q (fun _ => []) -> queues s !! p = Some pe -> q_ops pe = OPS_QUEUE ->
  q_status pe = QUEUE_STATUS_READY ->
  odp_queue_deq p s = bind (queue_deq_multi p 1) (fun r => ret (default NULL (head (snd r)))) s.
Proof.
  intros Hq Hp Ho Hst. unfold odp_queue_deq. rewrite (bind_getq _ _ _ _ Hp), Ho.
  eapply queue_deq_run; [done|done|]. by rewrite Hst.
Qed.

Lemma core_meta e e' : meta e' = meta e -> core e' = core e.
Proof.
  intros Hm. unfold core. rewrite Hm.
  by rewrite (proj1 (meta_fields _ _ Hm)).
Qed.

Lemma unordered_iter n e : queue_is_ordered e = false -> Nat.iter n entry_after e = e.
Proof.
  intros Ho. induction n as [|n IH]; [done|]. simpl. rewrite IH. unfold entry_after. by rewrite Ho.
Qed.

(** What a step that changes one entry and some headers leaves alone. *)
Lemma frame_one s q e e' m :
  queues s !! q = Some e -> core e' = core e ->
  (forall x h, bufs s !! x = Some h ->
     exists h', m !! x = Some h' /\ (b_origin_qe h = NULL -> b_origin_qe h' = NULL)) ->
  frame s (set_queues (<[q := e']> (queues s)) (set_bufs m s)).
Proof.
  intros Hq Hc Hm. split; [|done|done]. intros x. simpl. destruct (decide (x = q)) as [->|Hne].
  - rewrite lookup_insert_eq, Hq. simpl. by rewrite Hc.
  - by rewrite lookup_insert_ne.
Qed.

(** The dequeue of a queue that is not ordered. *)
Lemma deq_unordered s Q q e num :
  qinv s Q (fun _ => []) -> queues s !! q = Some e -> QUEUE_STATUS_READY <= q_status e ->
  Q q <> [] -> counters_ok e -> queue_is_ordered e = false ->
  let l := take (Z.to_nat num) (Q q) in
  exists s', queue_deq_multi q num s = Some ((zlen l, l), s') /\
    qinv s' (upd q (drop (Z.to_nat num) (Q q)) Q) (fun _ => []) /\ frame s s' /\ loc s' = loc s /\
    (forall q', q' <> q -> queues s' !! q' = queues s !! q') /\
    (exists e', queues s' !! q = Some e' /\ meta e' = meta e) /\
    (forall x, x ∉ l -> bufs s' !! x = bufs s !! x).
Proof.
  intros Hq He Hst Hne Hcnt Hor l.
  destruct (queue_deq_multi_take s Q (fun _ => []) q e num) as (s' & e' & Hrun & Hinv & Hs' & Hm & Hd & Ho); [done..|].
  fold l in Hrun, Hd, Ho, Hm. rewrite unordered_iter in Hm by done.
  exists s'. split; [done|]. split; [done|]. rewrite Hs'. split_and!; try done.
  - apply (frame_one s q e); [done|by apply core_meta|]. intros x h Hx.
    destruct (decide (x ∈ l)) as [Hin|Hin]; [|by rewrite Ho; eauto].
    apply list_elem_of_lookup in Hin as [i Hi]. destruct (Hd i x Hi) as (h' & Hh' & _ & Hdq).
    rewrite Hor in Hdq. by exists h'.
  - intros q' Hne'. simpl. by rewrite lookup_insert_ne.
  - exists e'. simpl. by rewrite lookup_insert_eq.
Qed.

(** Taking a command: the priority queue is empty, ... *)
Lemma take_cmd_none s Q H i id p :
  sinv s Q H -> slot (sched s) i id = Some p -> Q p = [] -> odp_queue_deq p s = Some (NULL, s).
Proof.
  intros [Hq Hr Hp] Hs HQ. destruct (rg_pri _ Hr _ _ _ Hs) as (pe & Hpe & Hst & Ho & _).
  rewrite (ready_queue_deq s Q p pe) by done.
  erewrite bind_some; [|eapply queue_deq_multi_empty; [done|done|by rewrite Hst|done]].
  unfold ret. simpl. do 2 f_equal. unfold unsched. rewrite Hst.
  change (QUEUE_STATUS_READY =? QUEUE_STATUS_SCHED) with false. cbv iota. rewrite insert_id by done. by destruct s.
Qed.

(** ... or its first command is now in the caller's hands. *)
Lemma take_cmd s Q H i id p c l :
  sinv s Q H -> slot (sched s) i id = Some p -> Q p = c :: l ->
  exists s', odp_queue_deq p s = Some (c, s') /\ sinv s' (upd p l Q) (c :: H) /\
    frame s s' /\ loc s' = loc s /\ (forall q e, known e -> queues s' !! q = Some e <-> queues s !! q = Some e).
Proof.
  intros Hi Hs HQ. pose proof Hi as [Hq Hr Hp]. destruct (rg_pri _ Hr _ _ _ Hs) as (pe & Hpe & Hst & Ho & Hor & Hcnt).
  destruct (deq_unordered s Q p pe 1) as (s' & Hrun & Hinv & Hf & Hl & Hsame & _); try done.
  { by rewrite Hst. } { by rewrite HQ. }
  rewrite HQ in Hrun, Hinv. change (Z.to_nat 1) with 1%nat in *. cbn [take drop] in Hrun, Hinv.
  exists s'. split.
  { rewrite (ready_queue_deq s Q p pe) by done. by rewrite (bind_some _ _ _ _ _ Hrun). }
  split; [|split; [done|split; [done|by eapply known_back]]]. split; [done|by eapply registered_frame|by eapply placed_take].
Qed.

Lemma frame_enq s s' q e :
  enq_frame s s' q -> queues s !! q = Some e -> frame s s'.
Proof.
  intros [Hq Hb Hr _] He. split; [|intros x h Hx|done].
  - intros x. specialize (Hq x). destruct (queues s !! x) as [ex|] eqn:Ex, (queues s' !! x) as [ex'|]; try done.
    simpl in *. f_equal. apply (inj Some) in Hq. apply core_meta in Hq. rewrite Hq.
    case_bool_decide; [|done]. unfold kicked, core. destruct (q_status ex =? QUEUE_STATUS_NOTSCHED) eqn:E; [|by rewrite E].
    done.
  - specialize (Hb x). rewrite Hx in Hb. destruct (bufs s' !! x) as [h'|] eqn:Ex; [|done]. exists h'. split; [done|].
    apply (inj Some) in Hb. assert (b_origin_qe h' = b_origin_qe h) as ->; [exact (f_equal b_origin_qe Hb)|done].
Qed.

(** Queues a plain enqueue to [q] does not change: all but [q] and, when [q]
    was out of scheduling, its priority queue. *)
Lemma enq_frame_meta s s' q x e :
  enq_frame s s' q -> queues s !! x = Some e ->
  exists e', queues s' !! x = Some e' /\ meta e' = meta (if bool_decide (x = q) then kicked e else e).
Proof.
  intros [Hq _ _ _] He. specialize (Hq x). rewrite He in Hq.
  destruct (queues s' !! x) as [e'|]; [|done]. exists e'. split; [done|]. by apply (inj Some) in Hq.
Qed.

Lemma enq_frame_meta_inv s s' q x e' :
  enq_frame s s' q -> queues s' !! x = Some e' ->
  exists e, queues s !! x = Some e /\ meta e' = meta (if bool_decide (x = q) then kicked e else e).
Proof.
  intros [Hq _ _ _] He. specialize (Hq x). rewrite He in Hq.
  destruct (queues s !! x) as [e|]; [|done]. exists e. split; [done|]. by apply (inj Some) in Hq.
Qed.

(** Placement only reads the status, the command and the priority queue of an
    entry. *)
Lemma placed_meta s s' Q H :
  placed s Q H -> sched s' = sched s ->
  (forall q, meta <$> queues s' !! q = meta <$> queues s !! q) -> placed s' Q H.
Proof.
  intros [P1 P2 P3 P4 P5] Hs Hm.
  assert (forall q e', queues s' !! q = Some e' -> exists e, queues s !! q = Some e /\
            q_status e' = q_status e /\ q_cmd_ev e' = q_cmd_ev e /\ q_pri_queue e' = q_pri_queue e) as Hb.
  { intros q e' He'. specialize (Hm q). rewrite He' in Hm. destruct (queues s !! q) as [e|]; [|done].
    exists e. apply (inj Some) in Hm. destruct (meta_fields _ _ Hm) as (-> & _ & -> & -> & _). done. }
  assert (forall q e, queues s !! q = Some e -> exists e', queues s' !! q = Some e' /\
            q_status e' = q_status e /\ q_cmd_ev e' = q_cmd_ev e /\ q_pri_queue e' = q_pri_queue e) as Hfw.
  { intros q e He. specialize (Hm q). rewrite He in Hm. destruct (queues s' !! q) as [e'|]; [|done].
    exists e'. apply (inj Some) in Hm. destruct (meta_fields _ _ Hm) as (-> & _ & -> & -> & _). done. }
  split.
  - intros q e' (e & He & -> & -> & ->)%Hb Hst. destruct (P1 q e He Hst) as [?|[? Hn]]; [by left|right].
    split; [done|]. intros q' e'' (e1 & He1 & _)%Hb. by apply (Hn q' e1).
  - intros q e' (e & He & -> & -> & _)%Hb Hst. by apply (P2 q e).
  - intros i id p x Hsl Hx. rewrite Hs in Hsl. destruct (P3 i id p x Hsl Hx) as (q & e & He & Hst & Hc & Hpr).
    destruct (Hfw q e He) as (e' & He' & E1 & E2 & E3). exists q, e'. by rewrite E1, E2, E3.
  - intros x Hx. destruct (P4 x Hx) as (q & e & He & Hst & Hc).
    destruct (Hfw q e He) as (e' & He' & E1 & E2 & _). exists q, e'. by rewrite E1, E2.
  - done.
Qed.

Lemma placed_ext s Q Q' H : (forall x, Q' x = Q x) -> placed s Q' H -> placed s Q H.
Proof.
  intros He [P1 P2 P3 P4 P5]. split; try done.
  - intros q e Hq Hst. rewrite <- He. destruct (P1 q e Hq Hst) as [?|[? Hn]]; [by left|right].
    split; [done|]. intros q' e' Hq'. rewrite <- He. by apply (Hn q' e').
  - intros q e Hq Hst. rewrite <- He. by apply P2.
  - intros i id p x Hs Hx. rewrite <- He in Hx. by eapply P3.
Qed.

Lemma elem_nil_r {A} (l : list A) x : x ∈ l ++ [] <-> x ∈ l.
Proof. by rewrite app_nil_r. Qed.

(** A command in the caller's hands may be put on a queue. *)
Lemma held_app_buf s Q H c : sinv s Q (c :: H) -> app_buf s Q (fun _ => []) c.
Proof.
  intros Hi. destruct (held_cmd s Q (c :: H) c Hi ltac:(set_solver)) as (q & e & He & Hst & Hc & Hn).
  pose proof Hi as [Hq Hr Hp].
  destruct (rg_queue _ Hr q e He) as (_ & _ & _ & _ & Hnn & (h & Hh & Hoh) & _); [by right|].
  split.
  - congruence.
  - exists h. by rewrite <- Hc.
  - intros q' e' He'. rewrite elem_nil_r. by apply (Hn q' e').
  - intros q' e' He' Hst' Heq. destruct (pl_idle _ _ _ Hp q' e' He' Hst') as [_ Hni]. set_solver.
Qed.

(** Putting a command back at the end of its priority queue. *)
Lemma put_cmd s Q H q0 e0 :
  sinv s Q (q_cmd_ev e0 :: H) -> queues s !! q0 = Some e0 -> q_status e0 = QUEUE_STATUS_SCHED ->
  plain_ctx s ->
  let p := q_pri_queue e0 in
  exists s', odp_queue_enq p (q_cmd_ev e0) s = Some (0, s') /\
    sinv s' (upd p (Q p ++ [q_cmd_ev e0]) Q) H /\ frame s s' /\
    loc s' = set_l_ignore_ordered_context false (loc s) /\
    (forall q e, known e -> queues s !! q = Some e -> exists e', queues s' !! q = Some e' /\ meta e' = meta e).
Proof.
  intros Hi He0 Hst0 Hctx p. pose proof Hi as [Hq Hr Hp].
  destruct (rg_queue _ Hr q0 e0 He0) as (_ & _ & _ & _ & _ & _ & (i & id & _ & _ & Hs & _) & _); [by right|].
  destruct (rg_pri _ Hr _ _ _ Hs) as (pe & Hpe & Hst & Ho & _).
  destruct (odp_queue_enq_spec s Q (fun _ => []) p pe (q_cmd_ev e0)) as (s' & Hrun & Hinv & Hfr); try done.
  { by eapply held_app_buf. } { by rewrite Hst. }
  unfold kick in Hinv. rewrite Hst in Hinv. change (QUEUE_STATUS_READY =? QUEUE_STATUS_NOTSCHED) with false in Hinv.
  assert (forall q, meta <$> queues s' !! q = meta <$> queues s !! q) as Hmeta.
  { intros q. rewrite (ef_queues _ _ _ Hfr q). destruct (queues s !! q) as [e|] eqn:E; [|done]. simpl.
    case_bool_decide as Hqp; [|done]. rewrite Hqp in E.
    assert (e = pe) as -> by (apply (inj Some); rewrite <- E; exact Hpe).
    unfold kicked. by rewrite Hst. }
  pose proof (frame_enq _ _ _ _ Hfr Hpe) as Hf.
  exists s'. split; [done|]. split; [|split; [done|split; [apply (ef_loc _ _ _ Hfr)|]]].
  - split; [done|by eapply registered_frame|].
    apply (placed_meta s); [|apply (ef_rest _ _ _ Hfr)|done].
    by eapply placed_put; [done|apply frame_refl|done..].
  - intros q e _ He. specialize (Hmeta q). rewrite He in Hmeta.
    destruct (queues s' !! q) as [e'|]; [|done]. exists e'. split; [done|]. by apply (inj Some) in Hmeta.
Qed.

(** A queue that is found empty leaves scheduling, and its command with it. *)
Lemma take_events_none s Q H q e num :
  sinv s Q (q_cmd_ev e :: H) -> queues s !! q = Some e -> q_status e = QUEUE_STATUS_SCHED -> Q q = [] ->
  exists s', queue_deq_multi q num s = Some ((0, []), s') /\ sinv s' Q H /\ frame s s' /\ loc s' = loc s.
Proof.
  intros Hi He Hst HQ. pose proof Hi as [Hq Hr Hp].
  assert (known e) as Hk by (by right).
  pose proof (pl_nodup _ _ _ Hp) as Hnd. apply NoDup_cons in Hnd as [HcH HndH].
  destruct (rg_queue _ Hr q e He Hk) as (Ho & Hor & Hcnt & Hcm & Hnn & (h & Hh & Hoh) & (i & id & Hib & Hidb & Hs & Hbit) & Hg).
  destruct (rg_pri _ Hr _ _ _ Hs) as (pe & Hpe & Hpst & Hpo & _).
  destruct (held_cmd s Q _ (q_cmd_ev e) Hi ltac:(set_solver)) as (q1 & e1 & He1 & Hst1 & Hc1 & Hn1).
  assert (cmd_idle s Q (fun _ => []) q e) as Hidle.
  { exists pe, h. split_and!; try done.
    - intros q' e' He'. rewrite elem_nil_r. by apply (Hn1 q' e').
    - intros q' e' He' Hne Hst' Heq. apply Hne. eapply (cmd_inj s); [done..|by left|done|done]. }
  assert (unsched e = set_q_status QUEUE_STATUS_NOTSCHED e) as Hun by (unfold unsched; by rewrite Hst).
  set (s' := set_queues (<[q := unsched e]> (queues s)) s).
  assert (frame s s') as Hf.
  { replace s' with (set_queues (<[q := unsched e]> (queues s)) (set_bufs (bufs s) s)) by done.
    apply (frame_one s q e); [done| |eauto]. rewrite Hun. unfold core. simpl. by rewrite Hst. }
  assert (forall x ex, queues s' !! x = Some ex -> (x = q /\ ex = unsched e) \/ (x <> q /\ queues s !! x = Some ex)) as Hlk.
  { intros x ex. simpl. destruct (decide (x = q)) as [->|Hne].
    - rewrite lookup_insert_eq. naive_solver.
    - rewrite lookup_insert_ne by done. auto. }
  assert (forall x ex, x <> q -> queues s !! x = Some ex -> queues s' !! x = Some ex) as Hfw.
  { intros x ex Hne Hx. simpl. by rewrite lookup_insert_ne. }
  assert (forall x ex, x <> q -> queues s !! x = Some ex -> known ex -> q_cmd_ev ex <> q_cmd_ev e) as Hinj.
  { intros x ex Hne Hx Hkx Heq. apply Hne. by eapply (cmd_inj s). }
  exists s'. split; [eapply queue_deq_multi_empty; [done|done|by rewrite Hst|done]|].
  split; [|done]. split; [apply qinv_unsched; auto|by eapply registered_frame|]. split.
  - intros x ex [(-> & ->)|(Hne & Hx)]%Hlk Hstx; [by rewrite Hun in Hstx|].
    pose proof (Hinj x ex Hne Hx ltac:(by right)).
    destruct (pl_sched _ _ _ Hp x ex Hx Hstx) as [[? ?]|[? Hn]]; [left; set_solver|right].
    split; [set_solver|]. intros q' e' [(-> & _)|(_ & Hq')]%Hlk; [by apply (Hn q e)|by apply (Hn q' e')].
  - intros x ex [(-> & ->)|(Hne & Hx)]%Hlk Hstx; [by rewrite Hun|].
    destruct (pl_idle _ _ _ Hp x ex Hx Hstx) as [? ?]. set_solver.
  - intros i' id' p x Hs' Hx. destruct (pl_pri _ _ _ Hp _ _ _ _ Hs' Hx) as (q' & e' & He' & Hst' & Hc' & Hp').
    exists q', e'. split; [|done]. apply Hfw; [|done]. intros ->. assert (e' = e) as -> by congruence.
    destruct (rg_pri _ Hr _ _ _ Hs') as (pe' & Hpe' & _). apply (Hn1 p pe' Hpe'). congruence.
  - intros x Hx. destruct (pl_held _ _ _ Hp x ltac:(set_solver)) as (q' & e' & He' & Hst' & Hc').
    exists q', e'. split; [|done]. apply Hfw; [|done]. intros ->. assert (e' = e) as -> by congruence. set_solver.
  - done.
Qed.

Lemma placed_shrink s Q H q e l :
  placed s Q H -> registered s -> queues s !! q = Some e -> q_status e = QUEUE_STATUS_SCHED ->
  (forall x, x ∈ l -> x ∈ Q q) -> placed s (upd q l Q) H.
Proof.
  intros Hp Hr He Hst Hl.
  assert (forall i id p, slot (sched s) i id = Some p -> p <> q) as Hsl.
  { intros i id p Hs ->. apply (slot_ready s i id q e Hr Hs He). by right. }
  split.
  - intros x ex Hx Hstx. destruct (rg_queue _ Hr x ex Hx) as (_ & _ & _ & _ & _ & _ & (i & id & _ & _ & Hs & _) & _); [by right|].
    rewrite (upd_ne q) by (by eapply Hsl). destruct (pl_sched _ _ _ Hp x ex Hx Hstx) as [?|[? Hn]]; [by left|right].
    split; [done|]. intros q' e' Hq'. unfold upd. case_bool_decide; [|by apply (Hn q' e')].
    subst q'. intros Hin. by apply (Hn q e He), Hl.
  - intros x ex Hx Hstx. destruct (pl_idle _ _ _ Hp x ex Hx Hstx) as [HQ Hn]. rewrite upd_ne; [done|].
    intros ->. assert (ex = e) as -> by congruence. by rewrite Hst in Hstx.
  - intros i id p x Hs Hx. rewrite upd_ne in Hx by (by eapply Hsl). by eapply pl_pri.
  - apply (pl_held _ _ _ Hp).
  - apply (pl_nodup _ _ _ Hp).
Qed.

(** A queue with events gives its first ones. *)
Lemma take_events_some s Q H q e num :
  sinv s Q H -> queues s !! q = Some e -> q_status e = QUEUE_STATUS_SCHED -> Q q <> [] ->
  let l := take (Z.to_nat num) (Q q) in
  exists s', queue_deq_multi q num s = Some ((zlen l, l), s') /\
    sinv s' (upd q (drop (Z.to_nat num) (Q q)) Q) H /\ frame s s' /\ loc s' = loc s /\
    (exists e', queues s' !! q = Some e' /\ meta e' = meta e).
Proof.
  intros Hi He Hst HQ l. pose proof Hi as [Hq Hr Hp].
  destruct (rg_queue _ Hr q e He) as (Ho & Hor & Hcnt & _); [by right|].
  destruct (deq_unordered s Q q e num) as (s' & Hrun & Hinv & Hf & Hl & Hsame & (e' & He' & Hm) & Ho'); try done.
  { by rewrite Hst. }
  exists s'. split; [done|]. split; [|split; [done|split; [done|by exists e']]].
  split; [done|by eapply registered_frame|].
  apply (placed_meta s); [|apply (fr_rest _ _ Hf)|].
  - eapply placed_shrink; [done..|]. intros x Hx. rewrite <- (take_drop (Z.to_nat num) (Q q)). set_solver.
  - intros x. destruct (decide (x = q)) as [->|Hne]; [|by rewrite Hsame].
    rewrite He, He'. simpl. by rewrite Hm.
Qed.

(** An event put on a queue brings the queue into scheduling. *)
Lemma placed_event s Q H q e b :
  placed s Q H -> registered s -> qinv s Q (fun _ => []) -> queues s !! q = Some e -> known e -> b ∉ H ->
  (forall q' e', queues s !! q' = Some e' -> q_cmd_ev e' = b -> ~ known e') ->
  placed (set_queues (<[q := kicked e]> (queues s)) s) (kick e (upd q (Q q ++ [b]) Q)) H.
Proof.
  intros Hp Hr Hq He Hk HbH Hbc. set (s1 := set_queues _ s). set (Q1 := upd q (Q q ++ [b]) Q).
  assert (forall i id p, slot (sched s) i id = Some p -> p <> q) as Hsl.
  { intros i id p Hs ->. by apply (slot_ready s i id q e Hr Hs He). }
  assert (forall x ex, queues s !! x = Some ex -> known ex ->
            exists i id, slot (sched s) i id = Some (q_pri_queue ex)) as Hpri.
  { intros x ex Hx Hkx. destruct (rg_queue _ Hr x ex Hx Hkx) as (_ & _ & _ & _ & _ & _ & (i & id & _ & _ & Hs & _) & _). eauto. }
  assert (q_status (kicked e) = QUEUE_STATUS_SCHED /\ q_cmd_ev (kicked e) = q_cmd_ev e /\
          q_pri_queue (kicked e) = q_pri_queue e) as (Hst1 & Hc1 & Hp1).
  { unfold kicked. destruct Hk as [Hst|Hst]; rewrite Hst; done. }
  assert (forall x ex, queues s1 !! x = Some ex -> (x = q /\ ex = kicked e) \/ (x <> q /\ queues s !! x = Some ex)) as Hlk.
  { intros x ex. simpl. destruct (decide (x = q)) as [->|Hne].
    - rewrite lookup_insert_eq. naive_solver.
    - rewrite lookup_insert_ne by done. auto. }
  assert (forall x ex, queues s !! x = Some ex -> known ex -> forall y, q_cmd_ev ex ∈ Q1 y -> q_cmd_ev ex ∈ Q y) as HQ1.
  { intros x ex Hx Hkx y Hin. unfold Q1, upd in Hin. case_bool_decide as Hyq; [|done].
    apply elem_of_app in Hin as [Hin|Heq%list_elem_of_singleton]; [by rewrite Hyq|]. exfalso. by apply (Hbc x ex Hx). }
  assert (forall y, kick e Q1 y = Q1 y \/
            (q_status e = QUEUE_STATUS_NOTSCHED /\ y = q_pri_queue e /\ kick e Q1 y = Q1 y ++ [q_cmd_ev e])) as Hkick.
  { intros y. unfold kick. destruct (q_status e =? QUEUE_STATUS_NOTSCHED) eqn:E; [|by left]. zbool.
    destruct (decide (y = q_pri_queue e)) as [->|Hne]; [right; by rewrite upd_eq|left; by rewrite upd_ne]. }
  assert (forall x ex, x <> q -> queues s !! x = Some ex -> known ex -> forall y,
            q_cmd_ev ex ∈ kick e Q1 y -> q_cmd_ev ex ∈ Q y) as HQk.
  { intros x ex Hne Hx Hkx y Hin. destruct (Hkick y) as [Heq|(Hst & -> & Heq)]; rewrite Heq in Hin; [by eapply HQ1|].
    apply elem_of_app in Hin as [Hin|Hc%list_elem_of_singleton]; [by eapply HQ1|].
    exfalso. apply Hne. by eapply (cmd_inj s). }
  assert (forall y x, x ∈ Q1 y -> x ∈ kick e Q1 y) as Hgrow.
  { intros y x Hin. destruct (Hkick y) as [Heq|(_ & _ & Heq)]; rewrite Heq; set_solver. }
  split.
  - intros x ex [(-> & ->)|(Hne & Hx)]%Hlk Hstx.
    + rewrite Hc1, Hp1. destruct (Hpri q e He Hk) as (i & id & Hs). destruct Hk as [Hst|Hst].
      * left. split; [|by apply (pl_idle _ _ _ Hp q e He Hst)]. unfold kick. rewrite Hst, Z.eqb_refl, upd_eq. set_solver.
      * assert (kick e Q1 = Q1) as -> by (unfold kick; by rewrite Hst).
        destruct (pl_sched _ _ _ Hp q e He Hst) as [[? ?]|[? Hn]].
        -- left. split; [|done]. unfold Q1. rewrite upd_ne; [done|by eapply Hsl].
        -- right. split; [done|]. intros q' e' Hq' Hin. eapply HQ1 in Hin; [|done|by right].
           apply Hlk in Hq' as [(-> & _)|(_ & Hq')]; [by apply (Hn q e)|by apply (Hn q' e')].
    + assert (known ex) as Hkx by (by right). destruct (Hpri x ex Hx Hkx) as (i & id & Hs).
      destruct (pl_sched _ _ _ Hp x ex Hx Hstx) as [[? ?]|[? Hn]].
      * left. split; [|done]. apply Hgrow. unfold Q1. rewrite upd_ne; [done|by eapply Hsl].
      * right. split; [done|]. intros q' e' Hq' Hin. eapply HQk in Hin; [|done..].
        apply Hlk in Hq' as [(-> & _)|(_ & Hq')]; [by apply (Hn q e)|by apply (Hn q' e')].
  - intros x ex [(-> & ->)|(Hne & Hx)]%Hlk Hstx; [by rewrite Hst1 in Hstx|].
    destruct (pl_idle _ _ _ Hp x ex Hx Hstx) as [HQ Hn]. split; [|done].
    destruct (Hkick x) as [Heq|(_ & -> & _)].
    + rewrite Heq. unfold Q1. by rewrite upd_ne.
    + exfalso. destruct (Hpri q e He Hk) as (i & id & Hs). apply (slot_ready s i id _ ex Hr Hs Hx). by left.
  - intros i id p x Hs Hx. pose proof (Hsl i id p Hs) as Hpq.
    assert (x ∈ Q p \/ (q_status e = QUEUE_STATUS_NOTSCHED /\ p = q_pri_queue e /\ x = q_cmd_ev e)) as [Hx'|(Hst & -> & ->)].
    { destruct (Hkick p) as [Heq|(Hst & -> & Heq)]; rewrite Heq in Hx; unfold Q1 in Hx; rewrite upd_ne in Hx by done; set_solver. }
    + destruct (pl_pri _ _ _ Hp _ _ _ _ Hs Hx') as (q' & e' & He' & Hst' & Hc' & Hp').
      destruct (decide (q' = q)) as [->|Hne].
      * assert (e' = e) as -> by congruence. exists q, (kicked e). rewrite Hc1, Hp1. simpl. by rewrite lookup_insert_eq.
      * exists q', e'. simpl. by rewrite lookup_insert_ne.
    + exists q, (kicked e). rewrite Hc1, Hp1. simpl. by rewrite lookup_insert_eq.
  - intros x Hx. destruct (pl_held _ _ _ Hp x Hx) as (q' & e' & He' & Hst' & Hc').
    destruct (decide (q' = q)) as [->|Hne].
    + assert (e' = e) as -> by congruence. exists q, (kicked e). rewrite Hc1. simpl. by rewrite lookup_insert_eq.
    + exists q', e'. simpl. by rewrite lookup_insert_ne.
  - apply (pl_nodup _ _ _ Hp).
Qed.

Lemma put_event s Q H q e b :
  sinv s Q H -> queues s !! q = Some e -> known e -> app_buf s Q (fun _ => []) b -> b ∉ H -> plain_ctx s ->
  exists s', odp_queue_enq q b s = Some (0, s') /\ sinv s' (kick e (upd q (Q q ++ [b]) Q)) H /\
    frame s s' /\ loc s' = set_l_ignore_ordered_context false (loc s).
Proof.
  intros Hi He Hk Hb HbH Hctx. pose proof Hi as [Hq Hr Hp].
  destruct (rg_queue _ Hr q e He Hk) as (Ho & _ & _ & _ & _ & _ & (i & id & _ & _ & Hs & _) & _).
  destruct (odp_queue_enq_spec s Q (fun _ => []) q e b) as (s' & Hrun & Hinv & Hfr); try done.
  { destruct Hk as [-> | ->]; done. }
  pose proof (frame_enq _ _ _ _ Hfr He) as Hf.
  exists s'. split; [done|]. split; [|split; [done|apply (ef_loc _ _ _ Hfr)]].
  split; [done|by eapply registered_frame|].
  eapply placed_meta; [eapply (placed_event s Q H q e b); try done| |].
  - intros q' e' He' Heq [Hst|Hst].
    + by eapply (ab_cmd _ _ _ _ Hb).
    + destruct (rg_queue _ Hr q' e' He') as (_ & _ & _ & _ & _ & _ & (i' & id' & _ & _ & Hs' & _) & _); [by right|].
      destruct (rg_pri _ Hr _ _ _ Hs') as (pe & Hpe & _).
      destruct (pl_sched _ _ _ Hp q' e' He' Hst) as [[Hin _]|[Hin _]]; [|congruence].
      apply (ab_list _ _ _ _ Hb _ pe Hpe). rewrite elem_nil_r. congruence.
  - apply (ef_rest _ _ _ Hfr).
  - intros x. rewrite (ef_queues _ _ _ Hfr x). simpl. destruct (decide (x = q)) as [->|Hne].
    + rewrite lookup_insert_eq, He. simpl. by rewrite bool_decide_eq_true_2.
    + rewrite lookup_insert_ne by done. destruct (queues s !! x); simpl; [|done]. by rewrite bool_decide_eq_false_2.
Qed.

(** * One scheduling call *)

(** A thread that holds no queue and no cached event. *)
Record idle (l : sched_local_t) : Prop := {
  id_num : l_num l = 0;
  id_pri : l_pri_queue l = ODP_QUEUE_INVALID;
  id_ctx : l_origin_qe l = NULL /\ l_ignore_ordered_context l = false;
  id_buf : length (l_buf_hdr l) = 4%nat
}.

Lemma idle_plain s : idle (loc s) -> plain_ctx s.
Proof. intros [_ _ [Ho _] _]. by right. Qed.

(** Whether the groups let thread [thr] take work from a queue. *)
Definition eligible (t : sched_t) (thr : Z) (e : queue_entry) : bool :=
  if p_group (q_param e) >? ODP_SCHED_GROUP_ALL then
    match zget (s_grp t) (p_group (q_param e)) with
    | Some (_, mask) => Z.testbit mask thr
    | None => false
    end
  else true.

Lemma grp_ineligible_run s q e :
  registered s -> queues s !! q = Some e -> known e ->
  grp_ineligible e s = Some (negb (eligible (sched s) (l_thr (loc s)) e), s).
Proof.
  intros Hr He Hk. destruct (rg_queue _ Hr q e He Hk) as (_ & _ & _ & _ & _ & _ & _ & Hg).
  unfold grp_ineligible, eligible. if_case; [|done]. destruct Hg as [[n m] Hg].
  { unfold ODP_SCHED_GROUP_ALL in *. lia. }
  rewrite bind_gets. unfold bind at 1, lift. rewrite Hg. cbv beta iota. by rewrite bind_gets.
Qed.

(** The queue that the first command of a priority queue leads to: the call
    will dispatch from it. *)
Definition ready s Q (x : Z * Z) (q : Z) : Prop :=
  bit (sched s) (fst x) (snd x) = true /\
  exists p c l e, slot (sched s) (fst x) (snd x) = Some p /\ Q p = c :: l /\
    queues s !! q = Some e /\ known e /\ q_cmd_ev e = c /\
    eligible (sched s) (l_thr (loc s)) e = true /\ Q q <> [].

(** A priority queue after a visit that dispatched nothing: the command of an
    empty queue is gone, that of a queue of another group went to the end. *)
Definition passed_over s Q (x : Z * Z) (p : Z) : list Z :=
  if bit (sched s) (fst x) (snd x) then
    match Q p with
    | [] => []
    | c :: l =>
        match cmds s !! c with
        | Some (CMD_DEQUEUE q) =>
            if from_option (eligible (sched s) (l_thr (loc s))) true (queues s !! q)
            then l else l ++ [c]
        | _ => c :: l
        end
    end
  else Q p.

(** The effect of visits that dispatched nothing. *)
Record passed s Q H (L : list (Z * Z)) s' Q' : Prop := {
  ps_inv : sinv s' Q' H;
  ps_frame : frame s s';
  ps_loc : loc s' = loc s;
  ps_other : forall q, (forall x, x ∈ L -> slot (sched s) (fst x) (snd x) <> Some q) -> Q' q = Q q;
  ps_slot : forall x p, x ∈ L -> slot (sched s) (fst x) (snd x) = Some p -> Q' p = passed_over s Q x p
}.

Lemma bind_lift {A B} (o : option A) (k : A -> M W B) s a : o = Some a -> bind (lift o) k s = k a s.
Proof. intros ->. done. Qed.

Lemma enq_or_abort_ok s p ev s' :
  odp_queue_enq p ev s = Some (0, s') -> enq_or_abort p ev s = Some (tt, s').
Proof. intros Hrun. unfold enq_or_abort. by rewrite (bind_some _ _ _ _ _ Hrun). Qed.

Lemma set_ignore_idle l : idle l -> set_l_ignore_ordered_context false l = l.
Proof. intros [_ _ [_ Hi] _]. by apply ignore_id. Qed.

Lemma deq_to_local_run s q n num evs s' :
  queue_deq_multi q n s = Some ((num, evs), s') ->
  deq_to_local q n s =
    Some (num, set_loc (set_l_buf_hdr (evs ++ drop (length evs) (l_buf_hdr (loc s'))) (loc s')) s').
Proof. intros Hrun. unfold deq_to_local. rewrite (bind_some _ _ _ _ _ Hrun). done. Qed.

Lemma set_buf_hdr_same (s : qsys W) :
  set_loc (set_l_buf_hdr ([] ++ drop (length (A:=Z) []) (l_buf_hdr (loc s))) (loc s)) s = s.
Proof. destruct s as [? ? ? ? l ?]. by destruct l. Qed.

(** Placement and registration do not depend on the calling thread. *)
Lemma sinv_loc s Q H l : sinv s Q H -> sinv (set_loc l s) Q H.
Proof.
  intros [Hq Hr Hp]. split; [by apply qinv_loc|by eapply registered_frame, frame_loc|].
  by apply (placed_meta s).
Qed.

(** The command at the head of a priority queue. *)
Lemma head_cmd s Q H i id p c l :
  sinv s Q H -> slot (sched s) i id = Some p -> Q p = c :: l ->
  exists q e, queues s !! q = Some e /\ known e /\ q_status e = QUEUE_STATUS_SCHED /\ q_cmd_ev e = c /\
    q_pri_queue e = p /\ cmds s !! c = Some (CMD_DEQUEUE q) /\ c <> NULL /\ q <> p.
Proof.
  intros Hi Hs HQ. pose proof Hi as [Hq Hr Hp].
  destruct (pl_pri _ _ _ Hp i id p c Hs ltac:(rewrite HQ; set_solver)) as (q & e & He & Hst & Hc & Hpe).
  assert (known e) as Hk by (by right).
  destruct (rg_queue _ Hr q e He Hk) as (_ & _ & _ & Hcm & Hnn & _).
  exists q, e. split_and!; try done; [congruence..|]. intros ->. by apply (slot_ready s i id p e Hr Hs He).
Qed.

Lemma visit_closed s i id mn md :
  registered s -> 0 <= i < 8 -> bit (sched s) i id = false ->
  visit_pri_queue i id mn md s = Some (inl md, s).
Proof.
  intros Hr Hi Hb. destruct (tb_mask _ (rg_tables _ Hr) i Hi) as [m Hm]. unfold bit in Hb. rewrite Hm in Hb.
  unfold visit_pri_queue. rewrite bind_gets, (bind_lift _ _ _ m) by done.
  apply negb_false_iff in Hb. by rewrite Hb.
Qed.

(** A visit up to the dequeue of the command. *)
Lemma visit_open s i id p mn md ev s1 :
  registered s -> 0 <= i < 8 -> bit (sched s) i id = true -> slot (sched s) i id = Some p ->
  odp_queue_deq p s = Some (ev, s1) ->
  visit_pri_queue i id mn md s =
    (if ev =? ODP_EVENT_INVALID then ret (inl md)
     else cmd <- gets (fun s => cmds s !! ev) ;;
          match cmd with
          | Some (CMD_DEQUEUE qe) =>
              e <- getq qe ;;
              skip <- grp_ineligible e ;;
              if skip : bool then enq_or_abort p ev ;;; ret (inl md)
              else
                let md := if queue_is_ordered e then 1 else md in
                num <- deq_to_local qe md ;;
                if num <? 0 then queue_destroy_finalize qe ;;; ret (inl md)
                else if num =? 0 then ret (inl md)
                else out <- dispatch p ev qe num mn ;; ret (inr out)
          | _ => abort
          end) s1.
Proof.
  intros Hr Hi Hb Hs Hrun. destruct (tb_mask _ (rg_tables _ Hr) i Hi) as [m Hm]. unfold bit in Hb. rewrite Hm in Hb.
  unfold visit_pri_queue. rewrite bind_gets, (bind_lift _ _ _ m) by done.
  apply negb_true_iff in Hb. rewrite Hb. rewrite (bind_lift _ _ _ p) by done.
  by rewrite (bind_some _ _ _ _ _ Hrun).
Qed.

Lemma passed_one s Q H x p s' l :
  sinv s' (upd p l Q) H -> frame s s' -> loc s' = loc s -> slot (sched s) (fst x) (snd x) = Some p ->
  l = passed_over s Q x p -> passed s Q H [x] s' (upd p l Q).
Proof.
  intros Hi Hf Hl Hs Hpl. split; try done.
  - intros q Hq. apply upd_ne. intros ->. by apply (Hq x ltac:(set_solver)).
  - intros y p' Hy%list_elem_of_singleton Hs'. subst y. assert (p' = p) as -> by congruence. by rewrite upd_eq.
Qed.

Lemma sinv_ext s Q Q' H : (forall x, Q' x = Q x) -> sinv s Q' H -> sinv s Q H.
Proof. intros He [? ? ?]. split; [by eapply qinv_ext|done|by eapply placed_ext]. Qed.

Lemma upd_same p Q x : upd p (Q p) Q x = Q x.
Proof. unfold upd. case_bool_decide; [by subst|done]. Qed.

(** Nothing changes. *)
Lemma passed_same s Q H x :
  sinv s Q H -> (forall p, slot (sched s) (fst x) (snd x) = Some p -> Q p = passed_over s Q x p) ->
  passed s Q H [x] s Q.
Proof.
  intros Hi Hp. split; try done; [apply frame_refl|]. intros y p Hy%list_elem_of_singleton Hs. subst y. by apply Hp.
Qed.

Lemma eligible_frame s s' e e' :
  frame s s' -> loc s' = loc s -> core e' = core e ->
  eligible (sched s') (l_thr (loc s')) e' = eligible (sched s) (l_thr (loc s)) e.
Proof.
  intros Hf Hl Hc. destruct (fr_rest _ _ Hf) as (_ & Hs & _). rewrite Hs, Hl. unfold eligible.
  by rewrite (proj1 (proj2 (proj2 (proj2 (core_fields _ _ Hc))))).
Qed.

(** A visit of a priority queue with nothing to dispatch. *)
Lemma visit_skip s Q H i id mn md :
  sinv s Q H -> idle (loc s) -> 0 <= i < 8 -> 0 <= id < 4 -> (forall q, ~ ready s Q (i, id) q) ->
  exists s' Q', visit_pri_queue i id mn md s = Some (inl md, s') /\ passed s Q H [(i, id)] s' Q'.
Proof.
  intros Hi Hidl Hib Hidb Hno. pose proof Hi as [Hq Hr Hp].
  destruct (bit (sched s) i id) eqn:Hb.
  2: { exists s, Q. split; [by apply visit_closed|]. apply passed_same; [done|]. intros p _.
       unfold passed_over. simpl. by rewrite Hb. }
  destruct (tb_slot _ (rg_tables _ Hr) i id Hib Hidb) as [p Hs].
  destruct (Q p) as [|c l] eqn:HQ.
  { exists s, Q. split.
    - rewrite (visit_open s i id p mn md _ _ Hr Hib Hb Hs (take_cmd_none s Q H i id p Hi Hs HQ)). done.
    - apply passed_same; [done|]. simpl. intros p' Hs'. assert (p' = p) as -> by congruence.
      unfold passed_over. simpl. by rewrite Hb, HQ. }
  destruct (head_cmd s Q H i id p c l Hi Hs HQ) as (q & e & He & Hk & Hst & Hc & Hpe & Hcm & Hnn & Hqp).
  destruct (take_cmd s Q H i id p c l Hi Hs HQ) as (s1 & Hrun & Hi1 & Hf1 & Hl1 & Hkn1).
  pose proof (proj2 (Hkn1 q e Hk) He) as He1. pose proof (si_reg _ _ _ Hi1) as Hr1.
  rewrite (visit_open s i id p mn md _ _ Hr Hib Hb Hs Hrun), (proj2 (Z.eqb_neq c ODP_EVENT_INVALID) Hnn), bind_gets.
  rewrite (proj1 (fr_rest _ _ Hf1)), Hcm, (bind_getq _ _ _ _ He1).
  rewrite (bind_some _ _ _ _ _ (grp_ineligible_run s1 q e Hr1 He1 Hk)), (eligible_frame s s1 e e Hf1 Hl1 eq_refl).
  assert (passed_over s Q (i, id) p = if eligible (sched s) (l_thr (loc s)) e then l else l ++ [c]) as Hpo.
  { unfold passed_over. simpl. by rewrite Hb, HQ, Hcm, He. }
  assert (idle (loc s1)) as Hidl1 by (by rewrite Hl1).
  destruct (eligible _ _ e) eqn:Hel; cbn [negb].
  - destruct (rg_queue _ Hr q e He Hk) as (_ & Hor & _). rewrite Hor.
    assert (Q q = []) as HQq.
    { destruct (Q q) eqn:EQ; [done|]. exfalso. apply (Hno q). split; [done|]. exists p, c, l, e. simpl. by rewrite EQ. }
    rewrite <- Hc in Hi1.
    destruct (take_events_none s1 (upd p l Q) H q e md) as (s2 & Hrun2 & Hi2 & Hf2 & Hl2); try done.
    { by rewrite upd_ne. }
    pose proof (deq_to_local_run _ _ _ _ _ _ Hrun2) as Hd. rewrite set_buf_hdr_same in Hd.
    exists s2, (upd p l Q). split; [by rewrite (bind_some _ _ _ _ _ Hd)|].
    apply passed_one; [done|by eapply frame_trans|congruence|done|done].
  - rewrite <- Hc in Hi1.
    destruct (put_cmd s1 (upd p l Q) H q e) as (s2 & Hrun2 & Hi2 & Hf2 & Hl2 & _); [done..|by apply idle_plain|].
    rewrite Hpe in Hrun2, Hi2. rewrite Hc in Hrun2, Hi2. rewrite upd_eq in Hi2.
    exists s2, (upd p (l ++ [c]) Q). split.
    { rewrite (bind_some _ _ _ _ _ (enq_or_abort_ok _ _ _ _ Hrun2)). done. }
    apply passed_one; [|by eapply frame_trans| |done|done].
    + eapply sinv_ext; [|exact Hi2]. intros y. unfold upd. by case_bool_decide.
    + rewrite Hl2, Hl1. by apply set_ignore_idle.
Qed.

(** * Dispatch *)

(** The thread's context after [k] of its cached events were handed out. *)
Definition handed_out (k : Z) (l : sched_local_t) : sched_local_t :=
  set_l_num (l_num l - k) (set_l_index (l_index l + k) l).

Lemma handed_out_0 l : handed_out 0 l = l.
Proof. unfold handed_out. rewrite Z.sub_0_r, Z.add_0_r. by destruct l. Qed.

Lemma handed_out_S k l : handed_out k (handed_out 1 l) = handed_out (1 + k) l.
Proof. unfold handed_out, set_l_num, set_l_index. simpl. f_equal; lia. Qed.

Lemma copy_loop_run fuel s max :
  0 <= max -> 0 <= l_num (loc s) -> 0 <= l_index (loc s) ->
  l_index (loc s) + l_num (loc s) <= zlen (l_buf_hdr (loc s)) -> (Z.to_nat (l_num (loc s)) < fuel)%nat ->
  let k := Z.min (l_num (loc s)) max in
  copy_loop fuel max s =
    Some (take (Z.to_nat k) (drop (Z.to_nat (l_index (loc s))) (l_buf_hdr (loc s))),
          set_loc (handed_out k (loc s)) s).
Proof.
  revert s max. induction fuel as [|fuel IH]; intros s max Hmax Hn Hx Hlen Hf k; [lia|].
  cbn [copy_loop]. rewrite bind_gets. destruct (_ || _) eqn:E.
  - assert (k = 0) as -> by (apply orb_true_iff in E as [E|E]; zbool; unfold k; lia).
    rewrite handed_out_0. by destruct s.
  - zbool. destruct (zget_Some (l_buf_hdr (loc s)) (l_index (loc s))) as [x Hx']; [lia|].
    rewrite (bind_lift _ _ _ x Hx'), !bind_modl.
    set (s1 := set_loc _ _). assert (loc s1 = handed_out 1 (loc s)) as Hl1 by done.
    rewrite (bind_some _ _ _ _ _ (IH s1 (max - 1) ltac:(lia) ltac:(rewrite Hl1; simpl; lia) ltac:(rewrite Hl1; simpl; lia)
      ltac:(rewrite Hl1; simpl; lia) ltac:(rewrite Hl1; simpl; lia))).
    unfold ret. rewrite Hl1. cbn [l_num l_index l_buf_hdr handed_out set_l_num set_l_index].
    set (k' := Z.min (l_num (loc s) - 1) (max - 1)). assert (k = 1 + k') as -> by (unfold k, k'; lia).
    f_equal. f_equal.
    + rewrite zget_nonneg in Hx' by lia. rewrite (drop_S _ x _ Hx').
      replace (Z.to_nat (1 + k')) with (S (Z.to_nat k')) by (unfold k'; lia). cbn [take]. do 3 f_equal. lia.
    + unfold s1, set_loc. simpl. f_equal. apply handed_out_S.
Qed.

Lemma copy_events_run s max :
  0 <= max -> 0 <= l_num (loc s) -> 0 <= l_index (loc s) ->
  l_index (loc s) + l_num (loc s) <= zlen (l_buf_hdr (loc s)) ->
  let k := Z.min (l_num (loc s)) max in
  copy_events max s =
    Some (take (Z.to_nat k) (drop (Z.to_nat (l_index (loc s))) (l_buf_hdr (loc s))),
          set_loc (handed_out k (loc s)) s).
Proof. intros. unfold copy_events. rewrite bind_gets. apply copy_loop_run; try done. lia. Qed.

(** The thread's context after events [evs] of queue [q] were dequeued and [k]
    of them handed out; it holds the command [c] of [p] when [q] is atomic. *)
Definition dispatched_local (l : sched_local_t) (q p c k : Z) (evs : list Z) (atomic : bool) : sched_local_t :=
  let l1 := set_l_buf_hdr (evs ++ drop (length evs) (l_buf_hdr l)) l in
  let l2 := handed_out k (set_l_qe q (set_l_index 0 (set_l_num (zlen evs) l1))) in
  if atomic then set_l_cmd_ev c (set_l_pri_queue p l2) else l2.

(** The effect of the visit that dispatched from queue [q]. *)
Record dispatched s Q H (x : Z * Z) (q mn : Z) (out : sched_out) s' Q' : Prop := {
  dp_inv : sinv s' Q' (held (loc s') ++ H);
  dp_frame : frame s s';
  dp_out : exists e p c l, queues s !! q = Some e /\ known e /\
    slot (sched s) (fst x) (snd x) = Some p /\ q_pri_queue e = p /\ q_cmd_ev e = c /\ Q p = c :: l /\
    let evs := take 4 (Q q) in
    let k := Z.min (zlen evs) mn in
    out = Out k (Some (q_handle e)) (take (Z.to_nat k) evs) /\
    loc s' = dispatched_local (loc s) q p c k evs (queue_is_atomic e) /\
    Q' = upd p (if queue_is_atomic e then l else l ++ [c]) (upd q (drop 4 (Q q)) Q)
}.

(** [dispatch] with the command in hand and the events in the cache. *)
Lemma dispatch_run s Q H q e mn l evs :
  sinv s Q (q_cmd_ev e :: H) -> queues s !! q = Some e -> q_status e = QUEUE_STATUS_SCHED ->
  loc s = set_l_buf_hdr (evs ++ drop (length evs) (l_buf_hdr l)) l -> idle l -> (length evs <= 4)%nat -> 0 <= mn ->
  let k := Z.min (zlen evs) mn in
  let p := q_pri_queue e in
  exists s', dispatch p (q_cmd_ev e) q (zlen evs) mn s =
      Some (Out k (Some (q_handle e)) (take (Z.to_nat k) evs), s') /\
    frame s s' /\ loc s' = dispatched_local l q p (q_cmd_ev e) k evs (queue_is_atomic e) /\
    sinv s' (if queue_is_atomic e then Q else upd p (Q p ++ [q_cmd_ev e]) Q) (held (loc s') ++ H).
Proof.
  intros Hi He Hst Hl Hidl Hlen Hmn k p. pose proof (si_reg _ _ _ Hi) as Hr.
  destruct (rg_queue _ Hr q e He ltac:(by right)) as (_ & Hor & _ & _ & _ & _ & (i & id & _ & _ & Hs & _) & _).
  pose proof (id_buf _ Hidl) as Hb4.
  assert (length (evs ++ drop (length evs) (l_buf_hdr l)) = 4%nat) as Hbl by (rewrite length_app, length_drop; lia).
  unfold dispatch. rewrite bind_modl. set (s1 := set_loc _ s).
  assert (loc s1 = set_l_qe q (set_l_index 0 (set_l_num (zlen evs)
            (set_l_buf_hdr (evs ++ drop (length evs) (l_buf_hdr l)) l)))) as Hl1 by (unfold s1; simpl; by rewrite Hl).
  pose proof (copy_events_run s1 mn Hmn) as Hcopy. rewrite Hl1 in Hcopy.
  cbn [l_num l_index l_buf_hdr set_l_qe set_l_index set_l_num set_l_buf_hdr] in Hcopy.
  specialize (Hcopy ltac:(unfold zlen; lia) ltac:(lia) ltac:(unfold zlen; rewrite Hbl; lia)). fold k in Hcopy.
  rewrite <- Hl1 in Hcopy. rewrite (bind_some _ _ _ _ _ Hcopy). change (Z.to_nat 0) with 0%nat. rewrite drop_0.
  set (s2 := set_loc _ _). assert (queues s2 !! q = Some e) as He2 by done. rewrite (bind_getq _ _ _ _ He2), Hor.
  assert (take (Z.to_nat k) (evs ++ drop (length evs) (l_buf_hdr l)) = take (Z.to_nat k) evs) as ->.
  { apply take_app_le. unfold k, zlen. lia. }
  assert (zlen (take (Z.to_nat k) evs) = k) as Hzk by (unfold zlen; rewrite length_take; unfold k, zlen; lia).
  assert (sinv s2 Q (q_cmd_ev e :: H)) as Hi2 by (by apply sinv_loc, sinv_loc).
  assert (frame s s2) as Hf2 by (eapply frame_trans; apply frame_loc).
  assert (loc s2 = dispatched_local l q p (q_cmd_ev e) k evs false) as Hl2 by (unfold s2; simpl; by rewrite Hl).
  destruct (queue_is_atomic e) eqn:Hat.
  - rewrite bind_modl. set (s3 := set_loc _ s2). exists s3. split; [unfold ret; by rewrite Hzk|].
    split; [eapply frame_trans; [exact Hf2|apply frame_loc]|]. split.
    { unfold s3. simpl. by rewrite Hl. }
    replace (held (loc s3)) with [q_cmd_ev e].
    { by apply sinv_loc. }
    unfold held. replace (l_pri_queue (loc s3)) with p by done.
    rewrite (proj2 (Z.eqb_neq _ _)); [done|]. by apply (tb_nonnull _ (rg_tables _ Hr) _ _ _ Hs).
  - assert (plain_ctx s2) as Hctx.
    { right. rewrite Hl2. exact (proj1 (id_ctx _ Hidl)). }
    destruct (put_cmd s2 Q H q e Hi2 He2 Hst Hctx) as (s3 & Hrun & Hi3 & Hf3 & Hl3 & _).
    rewrite (bind_some _ _ _ _ _ (enq_or_abort_ok _ _ _ _ Hrun)). exists s3. split; [unfold ret; by rewrite Hzk|].
    split; [by eapply frame_trans|].
    assert (loc s3 = loc s2) as Hl32.
    { rewrite Hl3. apply ignore_id. rewrite Hl2. exact (proj2 (id_ctx _ Hidl)). }
    split; [by rewrite Hl32|]. replace (held (loc s3)) with (@nil Z); [done|].
    rewrite Hl32, Hl2. unfold held. by rewrite (id_pri _ Hidl : l_pri_queue (dispatched_local l q p (q_cmd_ev e) k evs false) = _).
Qed.

(** A visit of a priority queue whose first command leads to events. *)
Lemma visit_take s Q H i id q mn :
  sinv s Q H -> idle (loc s) -> 0 <= i < 8 -> 0 <= mn -> ready s Q (i, id) q ->
  exists out s' Q', visit_pri_queue i id mn MAX_DEQ s = Some (inr out, s') /\
    dispatched s Q H (i, id) q mn out s' Q'.
Proof.
  intros Hi Hidl Hib Hmn (Hb & p & c & l & e & Hs & HQ & He & Hk & Hc & Hel & HQq).
  simpl fst in *; simpl snd in *. pose proof Hi as [Hq Hr Hp].
  destruct (head_cmd s Q H i id p c l Hi Hs HQ) as (q' & e' & He' & Hk' & Hst & Hc' & Hpe & Hcm & Hnn & Hqp).
  assert (q' = q) as -> by (eapply (cmd_inj s); [done..|congruence]).
  assert (e' = e) as -> by congruence. clear He' Hk' Hc'.
  destruct (take_cmd s Q H i id p c l Hi Hs HQ) as (s1 & Hrun & Hi1 & Hf1 & Hl1 & Hkn1).
  pose proof (proj2 (Hkn1 q e Hk) He) as He1. pose proof (si_reg _ _ _ Hi1) as Hr1.
  rewrite (visit_open s i id p mn MAX_DEQ _ _ Hr Hib Hb Hs Hrun), (proj2 (Z.eqb_neq c ODP_EVENT_INVALID) Hnn), bind_gets.
  rewrite (proj1 (fr_rest _ _ Hf1)), Hcm, (bind_getq _ _ _ _ He1).
  rewrite (bind_some _ _ _ _ _ (grp_ineligible_run s1 q e Hr1 He1 Hk)), (eligible_frame s s1 e e Hf1 Hl1 eq_refl), Hel.
  cbn [negb]. destruct (rg_queue _ Hr q e He Hk) as (_ & Hor & _). rewrite Hor.
  destruct (take_events_some s1 (upd p l Q) (c :: H) q e MAX_DEQ) as (s2 & Hrun2 & Hi2 & Hf2 & Hl2 & (e2 & He2 & Hm2)); try done.
  { by rewrite upd_ne. }
  rewrite upd_ne in Hrun2, Hi2 by done. change (Z.to_nat MAX_DEQ) with 4%nat in *.
  set (evs := take 4 (Q q)) in *. destruct (meta_fields _ _ Hm2) as (M1 & _ & M3 & M4 & _ & M6 & _).
  assert (q_handle e2 = q_handle e) as M7 by exact (f_equal q_handle Hm2).
  assert (queue_is_atomic e2 = queue_is_atomic e) as M8 by (unfold queue_is_atomic; by rewrite M6).
  rewrite (bind_some _ _ _ _ _ (deq_to_local_run _ _ _ _ _ _ Hrun2)).
  assert (0 < zlen evs) as Hpos. { unfold evs, zlen. destruct (Q q); [done|simpl; lia]. }
  assert (length evs <= 4)%nat as Hle by (unfold evs; rewrite length_take; lia).
  rewrite (proj2 (Z.ltb_ge _ _)) by lia. rewrite (proj2 (Z.eqb_neq _ _)) by lia.
  set (s3 := set_loc _ s2).
  destruct (dispatch_run s3 (upd q (drop 4 (Q q)) (upd p l Q)) H q e2 mn (loc s2) evs) as (s' & Hrun3 & Hf3 & Hl3 & Hi3); try done.
  { rewrite M4, Hc. by apply sinv_loc. } { by rewrite M1. } { by rewrite Hl2, Hl1. }
  rewrite M3, M4, M7, Hc, Hpe in Hrun3. rewrite M3, M4, M8, Hc, Hpe in Hl3. rewrite M3, M4, M8, Hc, Hpe in Hi3.
  eexists _, s', (upd p (if queue_is_atomic e then l else l ++ [c]) (upd q (drop 4 (Q q)) Q)).
  split; [by rewrite (bind_some _ _ _ _ _ Hrun3)|].
  split; [|eapply frame_trans; [exact Hf1|]; eapply frame_trans; [exact Hf2|]; eapply frame_trans; [apply frame_loc|exact Hf3]|].
  2: { exists e, p, c, l. fold evs. split_and!; try done. by rewrite Hl3, Hl2, Hl1. }
  eapply sinv_ext; [|exact Hi3]. intros y. destruct (queue_is_atomic e).
  - unfold upd. repeat case_bool_decide; congruence.
  - rewrite (upd_ne q) by done. rewrite upd_eq. unfold upd. repeat case_bool_decide; congruence.
Qed.

(** * The loops *)

(** A sequence of visits: it dispatches from the first ready priority queue,
    or passes over all of them. *)
Definition visits s Q H (mn : Z) (L : list (Z * Z)) (r : Z + sched_out) s' : Prop :=
  (exists Q', r = inl MAX_DEQ /\ (forall x q, x ∈ L -> ~ ready s Q x q) /\ passed s Q H L s' Q') \/
  (exists L1 x L2 q out s1 Q1 Q', L = L1 ++ x :: L2 /\ (forall y q', y ∈ L1 -> ~ ready s Q y q') /\
     ready s Q x q /\ passed s Q H L1 s1 Q1 /\ r = inr out /\ dispatched s1 Q1 H x q mn out s' Q').

Lemma visit_spec s Q H i id mn :
  sinv s Q H -> idle (loc s) -> 0 <= i < 8 -> 0 <= id < 4 -> 0 <= mn ->
  exists r s', visit_pri_queue i id mn MAX_DEQ s = Some (r, s') /\ visits s Q H mn [(i, id)] r s'.
Proof.
  intros Hi Hidl Hib Hidb Hmn. pose proof (si_reg _ _ _ Hi) as Hr.
  assert ((exists q, ready s Q (i, id) q) \/ (forall q, ~ ready s Q (i, id) q)) as [[q Hrd]|Hno].
  { destruct (bit (sched s) i id) eqn:Hb; [|right; intros q [Hb' _]; simpl in Hb'; congruence].
    destruct (tb_slot _ (rg_tables _ Hr) i id Hib Hidb) as [p Hs].
    destruct (Q p) as [|c l] eqn:HQ.
    { right. intros q (_ & p' & c & l & e & Hs' & HQ' & _). simpl in Hs'. congruence. }
    destruct (head_cmd s Q H i id p c l Hi Hs HQ) as (q & e & He & Hk & Hst & Hc & Hpe & Hcm & Hnn & Hqp).
    destruct (eligible (sched s) (l_thr (loc s)) e) eqn:Hel; [destruct (Q q) eqn:EQ|].
    - right. intros q' (_ & p' & c' & l' & e' & Hs' & HQ' & He' & Hk' & Hc' & _ & Hne). simpl in Hs'.
      assert (q' = q) as -> by (eapply (cmd_inj s); [done..|congruence]). done.
    - left. exists q. split; [done|]. exists p, c, l, e. simpl. by rewrite EQ.
    - right. intros q' (_ & p' & c' & l' & e' & Hs' & HQ' & He' & Hk' & Hc' & Hel' & Hne). simpl in Hs'.
      assert (q' = q) as -> by (eapply (cmd_inj s); [done..|congruence]). congruence. }
  - destruct (visit_take s Q H i id q mn) as (out & s' & Q' & Hrun & Hd); [done..|].
    exists (inr out), s'. split; [done|]. right. exists [], (i, id), [], q, out, s, Q, Q'.
    split_and!; try done; [set_solver|]. split; [done|apply frame_refl|done|done|set_solver].
  - destruct (visit_skip s Q H i id mn MAX_DEQ) as (s' & Q' & Hrun & Hpa); [done..|].
    exists (inl MAX_DEQ), s'. split; [done|]. left. exists Q'. split_and!; try done.
    intros x q Hx%list_elem_of_singleton. subst x. apply Hno.
Qed.

(** The visits of a list do not change what the other priority queues are
    ready for. *)
Lemma ready_passed s Q H L s' Q' x q :
  passed s Q H L s' Q' -> sinv s Q H -> x ∉ L -> ready s' Q' x q <-> ready s Q x q.
Proof.
  intros Hp Hi Hx. pose proof (si_reg _ _ _ Hi) as Hr. pose proof (ps_frame _ _ _ _ _ _ Hp) as Hf.
  destruct (fr_rest _ _ Hf) as (Hc & Hs & _). pose proof (ps_loc _ _ _ _ _ _ Hp) as Hl.
  assert (forall p, slot (sched s) (fst x) (snd x) = Some p -> Q' p = Q p) as Hsl.
  { intros p Hsp. apply (ps_other _ _ _ _ _ _ Hp). intros y Hy Hsy. apply Hx.
    destruct (tb_inj _ (rg_tables _ Hr) _ _ _ _ _ Hsp Hsy) as [E1 E2]. destruct x, y; simpl in *; congruence. }
  assert (forall q e, queues s !! q = Some e -> known e -> Q' q = Q q) as Hkq.
  { intros q0 e He Hk. apply (ps_other _ _ _ _ _ _ Hp). intros y _ Hsy. by apply (slot_ready s _ _ _ _ Hr Hsy He). }
  unfold ready. rewrite Hs. split; intros (Hb & p & c & l & e & Hsp & HQ & He & Hk & Hce & Hel & Hne); split; try done.
  - destruct (frame_lookup_inv _ _ _ _ Hf He) as (e0 & He0 & Hco).
    destruct (core_fields _ _ Hco) as (_ & F2 & _ & _ & _ & _ & _ & F8 & _). apply F8 in Hk.
    exists p, c, l, e0. rewrite <- (Hsl p Hsp), <- F2, <- (Hkq q e0 He0 Hk). split_and!; try done.
    rewrite <- (eligible_frame s s' e0 e Hf Hl Hco). by rewrite Hs.
  - destruct (frame_lookup _ _ _ _ Hf He) as (e0 & He0 & Hco).
    destruct (core_fields _ _ Hco) as (_ & F2 & _ & _ & _ & _ & _ & F8 & _).
    exists p, c, l, e0. rewrite (Hsl p Hsp), F2, (Hkq q e He Hk). split_and!; try done; [by apply F8|].
    rewrite <- Hel, <- (eligible_frame s s' e e0 Hf Hl Hco). by rewrite Hs.
Qed.

(** An entry that scheduling does not know is known to it later neither. *)
Lemma passed_over_frame s Q H L s' Q' x p :
  passed s Q H L s' Q' -> sinv s Q H -> x ∉ L -> slot (sched s) (fst x) (snd x) = Some p ->
  passed_over s' Q' x p = passed_over s Q x p.
Proof.
  intros Hp Hi Hx Hsp. pose proof (si_reg _ _ _ Hi) as Hr. pose proof (ps_frame _ _ _ _ _ _ Hp) as Hf.
  destruct (fr_rest _ _ Hf) as (Hc & Hs & _). pose proof (ps_loc _ _ _ _ _ _ Hp) as Hl.
  assert (Q' p = Q p) as HQ.
  { apply (ps_other _ _ _ _ _ _ Hp). intros y Hy Hsy. apply Hx.
    destruct (tb_inj _ (rg_tables _ Hr) _ _ _ _ _ Hsp Hsy) as [E1 E2]. destruct x, y; simpl in *; congruence. }
  unfold passed_over. rewrite Hc, HQ. rewrite Hs at 1.
  destruct (bit _ _ _); [|done]. destruct (Q p) as [|c l]; [done|].
  destruct (cmds s !! c) as [[q|]|]; [|done..].
  pose proof (fr_core _ _ Hf q) as Hco. destruct (queues s !! q) as [e|], (queues s' !! q) as [e'|]; try done. simpl in *.
  apply (inj Some) in Hco. by rewrite (eligible_frame s s' e e' Hf Hl Hco).
Qed.

Lemma passed_app s Q H L1 s1 Q1 L2 s2 Q2 :
  sinv s Q H -> passed s Q H L1 s1 Q1 -> passed s1 Q1 H L2 s2 Q2 -> (forall x, x ∈ L2 -> x ∉ L1) ->
  passed s Q H (L1 ++ L2) s2 Q2.
Proof.
  intros Hi H1 H2 Hd. pose proof (ps_frame _ _ _ _ _ _ H1) as Hf.
  destruct (fr_rest _ _ Hf) as (_ & Hs & _). split.
  - apply (ps_inv _ _ _ _ _ _ H2).
  - eapply frame_trans; [done|apply (ps_frame _ _ _ _ _ _ H2)].
  - rewrite (ps_loc _ _ _ _ _ _ H2). apply (ps_loc _ _ _ _ _ _ H1).
  - intros q Hq. rewrite (ps_other _ _ _ _ _ _ H2).
    + apply (ps_other _ _ _ _ _ _ H1). intros x Hx. apply Hq. set_solver.
    + intros x Hx. rewrite Hs. apply Hq. set_solver.
  - intros x p [Hx|Hx]%elem_of_app Hsp.
    + rewrite (ps_other _ _ _ _ _ _ H2); [by apply (ps_slot _ _ _ _ _ _ H1)|].
      intros y Hy. rewrite Hs. intros Hsy. apply (Hd y Hy).
      destruct (tb_inj _ (rg_tables _ (si_reg _ _ _ Hi)) _ _ _ _ _ Hsp Hsy) as [E1 E2].
      destruct x, y; simpl in *; by subst.
    + rewrite (ps_slot _ _ _ _ _ _ H2 x p Hx) by (by rewrite Hs). by eapply passed_over_frame; [done|done|apply Hd|].
Qed.

Lemma visits_app s Q H mn L1 s1 Q1 L2 r s2 :
  sinv s Q H -> passed s Q H L1 s1 Q1 -> (forall x q, x ∈ L1 -> ~ ready s Q x q) ->
  (forall x, x ∈ L2 -> x ∉ L1) -> visits s1 Q1 H mn L2 r s2 -> visits s Q H mn (L1 ++ L2) r s2.
Proof.
  intros Hi H1 Hno Hd [(Q' & Hr & Hno2 & H2)|(La & x & Lb & q & out & sa & Qa & Q' & HL & Hno2 & Hrd & H2 & Hr & Hdp)].
  - left. exists Q'. split_and!; [done| |by eapply passed_app].
    intros x q [Hx|Hx]%elem_of_app; [by apply Hno|]. intros Hrd. apply (Hno2 x q Hx).
    apply (ready_passed _ _ _ _ _ _ x q H1 Hi); [by apply Hd|done].
  - right. exists (L1 ++ La), x, Lb, q, out, sa, Qa, Q'. subst L2. split_and!; try done.
    + by rewrite <- app_assoc.
    + intros y q' [Hy|Hy]%elem_of_app; [by apply Hno|]. intros Hrd'. apply (Hno2 y q' Hy).
      apply (ready_passed _ _ _ _ _ _ y q' H1 Hi); [apply Hd; set_solver|done].
    + apply (ready_passed _ _ _ _ _ _ x q H1 Hi); [apply Hd; set_solver|done].
    + eapply passed_app; [done..|]. intros y Hy. apply Hd. set_solver.
Qed.

(** The priority queues of priority [i] in the order thread [thr] visits them. *)
Definition rotation (id i : Z) : list (Z * Z) := (fun k => (i, (id + k) mod 4)) <$> seqZ 0 4.
Definition prio_order (thr i n : Z) : list (Z * Z) := concat (rotation (thr mod 4) <$> seqZ i n).
Definition visit_order (thr : Z) : list (Z * Z) := prio_order thr 0 8.

Lemma id_loop_step n i id mn md s r s' :
  visit_pri_queue i (if id >=? QUEUES_PER_PRIO then 0 else id) mn md s = Some (r, s') ->
  id_loop (S n) i id mn md s =
    match r with
    | inl md => id_loop n i ((if id >=? QUEUES_PER_PRIO then 0 else id) + 1) mn md s'
    | inr out => Some (inr out, s')
    end.
Proof. intros Hrun. cbn [id_loop]. rewrite (bind_some _ _ _ _ _ Hrun). by destruct r. Qed.

(** [n] rounds of the inner loop from [id] on. *)
Lemma id_loop_spec n s Q H i id mn :
  sinv s Q H -> idle (loc s) -> 0 <= i < 8 -> 0 <= id <= 4 -> 0 <= mn -> (n <= 4)%nat ->
  exists r s', id_loop n i id mn MAX_DEQ s = Some (r, s') /\
    visits s Q H mn ((fun k => (i, (id + k) mod 4)) <$> seqZ 0 (Z.of_nat n)) r s'.
Proof.
  revert s Q id. induction n as [|n IH]; intros s Q id Hi Hidl Hib Hidb Hmn Hn.
  { exists (inl MAX_DEQ), s. split; [done|]. left. exists Q. split; [done|]. split; [set_solver|].
    split; [done|apply frame_refl|done|done|set_solver]. }
  set (id' := if id >=? QUEUES_PER_PRIO then 0 else id).
  assert (id' = id mod 4 /\ 0 <= id' < 4) as [Hid' Hidb'].
  { unfold id', QUEUES_PER_PRIO. rewrite Z.geb_leb. destruct (4 <=? id) eqn:E; zbool.
    - assert (id = 4) as -> by lia. done.
    - rewrite Z.mod_small by lia. lia. }
  destruct (visit_spec s Q H i id' mn) as (r & s1 & Hrun & Hv); [done..|].
  rewrite (id_loop_step n i id mn MAX_DEQ s r s1 Hrun).
  rewrite seqZ_cons by lia. rewrite fmap_cons, Z.add_0_r, <- Hid'.
  replace (Z.pred (Z.of_nat (S n))) with (Z.of_nat n) by lia.
  assert ((fun k => (i, (id + k) mod 4)) <$> seqZ (Z.succ 0) (Z.of_nat n) =
          (fun k => (i, (id' + 1 + k) mod 4)) <$> seqZ 0 (Z.of_nat n)) as ->.
  { apply list_eq. intros k. rewrite !list_lookup_fmap.
    destruct (decide (k < n)%nat) as [Hk|Hk].
    - rewrite !lookup_seqZ_lt by lia. simpl. f_equal. f_equal. rewrite Hid'.
      rewrite <- Z.add_assoc, Z.add_mod_idemp_l by lia. f_equal; lia.
    - rewrite !lookup_seqZ_ge by lia. done. }
  destruct Hv as [(Q' & -> & Hno & Hp)|Hv].
  - destruct (IH s1 Q' (id' + 1)) as (r & s2 & Hrun2 & Hv2); try (lia || done).
    { apply (ps_inv _ _ _ _ _ _ Hp). } { by rewrite (ps_loc _ _ _ _ _ _ Hp). }
    fold id'. exists r, s2. split; [done|]. change ((i, id') :: ?L) with ([(i, id')] ++ L).
    eapply visits_app; [done..| |done]. intros x (k & -> & Hk)%list_elem_of_fmap Hx%list_elem_of_singleton.
    apply elem_of_seqZ in Hk. injection Hx as Hx. revert Hx. Z.div_mod_to_equations. lia.
  - destruct Hv as (L1 & x & L2 & q & out & sa & Qa & Q' & HL & Hno & Hrd & Hp & -> & Hdp).
    exists (inr out), s1. split; [done|]. right. exists L1, x, (L2 ++ ((fun k => (i, (id' + 1 + k) mod 4)) <$> seqZ 0 (Z.of_nat n))), q, out, sa, Qa, Q'.
    split_and!; try done. change ((i, id') :: ?L) with ([(i, id')] ++ L). rewrite HL. by rewrite <- app_assoc.
Qed.

Lemma prio_order_elem thr i n x : x ∈ prio_order thr i n -> i <= fst x < i + n.
Proof.
  unfold prio_order. intros Hx. apply list_elem_of_In, in_concat in Hx as (l & Hl & Hx).
  apply list_elem_of_In in Hl, Hx. apply list_elem_of_fmap in Hl as (j & -> & Hj%elem_of_seqZ).
  apply list_elem_of_fmap in Hx as (k & -> & _). done.
Qed.

Lemma passed_closed s Q H i id :
  sinv s Q H -> zget (s_pri_mask (sched s)) i = Some 0 ->
  passed s Q H (rotation id i) s Q /\ (forall x q, x ∈ rotation id i -> ~ ready s Q x q).
Proof.
  intros Hi Hm.
  assert (forall x, x ∈ rotation id i -> bit (sched s) (fst x) (snd x) = false) as Hb.
  { intros x (k & -> & _)%list_elem_of_fmap. unfold bit. simpl. by rewrite Hm. }
  split.
  - split; [done|apply frame_refl|done|done|]. intros x p Hx _. unfold passed_over. by rewrite Hb.
  - intros x q Hx [Hb' _]. rewrite Hb in Hb'; done.
Qed.

Lemma prio_loop_spec n s Q H i mn :
  sinv s Q H -> idle (loc s) -> 0 <= i -> i + Z.of_nat n <= 8 -> 0 <= mn ->
  exists r s', prio_loop n i mn MAX_DEQ s = Some (r, s') /\
    visits s Q H mn (prio_order (l_thr (loc s)) i (Z.of_nat n)) r s'.
Proof.
  revert s Q i. induction n as [|n IH]; intros s Q i Hi Hidl Hib Hn Hmn.
  { exists (inl MAX_DEQ), s. split; [done|]. left. exists Q. split; [done|]. split; [set_solver|].
    split; [done|apply frame_refl|done|done|set_solver]. }
  set (thr := l_thr (loc s)).
  assert (prio_order thr i (Z.of_nat (S n)) = rotation (thr mod 4) i ++ prio_order thr (i + 1) (Z.of_nat n)) as ->.
  { unfold prio_order. rewrite seqZ_cons by lia. by replace (Z.pred (Z.of_nat (S n))) with (Z.of_nat n) by lia. }
  assert (forall x, x ∈ prio_order thr (i + 1) (Z.of_nat n) -> x ∉ rotation (thr mod 4) i) as Hd.
  { intros x Hx%prio_order_elem (k & -> & _)%list_elem_of_fmap. simpl in Hx. lia. }
  destruct (tb_mask _ (rg_tables _ (si_reg _ _ _ Hi)) i ltac:(lia)) as [m Hm].
  cbn [prio_loop]. rewrite bind_gets, (bind_lift _ _ _ m Hm). destruct (m =? 0) eqn:E.
  { zbool. subst m. destruct (passed_closed s Q H i (thr mod 4) Hi Hm) as [Hp Hno].
    destruct (IH s Q (i + 1)) as (r & s' & Hrun & Hv); try (done || lia).
    exists r, s'. split; [done|]. by eapply visits_app. }
  rewrite bind_gets.
  assert (l_thr (loc s) & (QUEUES_PER_PRIO - 1) = thr mod 4) as ->.
  { change (QUEUES_PER_PRIO - 1) with (Z.ones 2). by rewrite Z.land_ones. }
  pose proof (Z.mod_pos_bound thr 4 ltac:(lia)).
  destruct (id_loop_spec 4 s Q H i (thr mod 4) mn) as (r & s1 & Hrun & Hv); try (done || lia).
  change (Z.to_nat QUEUES_PER_PRIO) with 4%nat. rewrite (bind_some _ _ _ _ _ Hrun).
  change (visits s Q H mn (rotation (thr mod 4) i) r s1) in Hv. destruct Hv as [(Q' & -> & Hno & Hp)|Hv].
  - pose proof (ps_loc _ _ _ _ _ _ Hp) as Hl.
    destruct (IH s1 Q' (i + 1)) as (r & s2 & Hrun2 & Hv2); try (done || lia).
    { apply (ps_inv _ _ _ _ _ _ Hp). } { by rewrite Hl. }
    rewrite Hl in Hv2. exists r, s2. split; [done|]. by eapply visits_app.
  - destruct Hv as (L1 & x & L2 & q & out & sa & Qa & Q' & HL & Hno & Hrd & Hp & -> & Hdp).
    exists (inr out), s1. split; [done|]. right.
    exists L1, x, (L2 ++ prio_order thr (i + 1) (Z.of_nat n)), q, out, sa, Qa, Q'.
    split_and!; try done. rewrite HL. by rewrite <- app_assoc.
Qed.

(** * Polling, with nothing to poll *)

Lemma poll_loop_none n s id :
  tables_ok (sched s) -> 0 <= id <= 4 -> poll_loop n id s = Some (tt, s).
Proof.
  intros Ht. revert id. induction n as [|n IH]; intros id Hid; [done|]. cbn [poll_loop].
  set (id' := if id =? POLL_CMD_QUEUES then 0 else id).
  assert (0 <= id' < 4) as Hid'. { unfold id', POLL_CMD_QUEUES. destruct (id =? 4) eqn:E; zbool; lia. }
  destruct (tb_poll _ Ht id' Hid') as [q Hq]. rewrite bind_gets, (bind_lift _ _ _ _ Hq). cbv beta iota.
  apply IH. lia.
Qed.

(** * Contexts of the threads *)

(** A thread's context between calls: its cached events and, for an atomic
    queue, the command it holds belong to the queue it was last given. *)
Record thread_ok s (l : sched_local_t) : Prop := {
  to_cache : 0 <= l_num l /\ 0 <= l_index l /\ l_index l + l_num l <= 4 /\ length (l_buf_hdr l) = 4%nat;
  to_plain : l_origin_qe l = NULL /\ l_ignore_ordered_context l = false;
  to_held : l_pri_queue l <> ODP_QUEUE_INVALID -> exists e, queues s !! l_qe l = Some e /\ known e /\
    queue_is_atomic e = true /\ q_cmd_ev e = l_cmd_ev l /\ q_pri_queue e = l_pri_queue l;
  to_queue : l_num l <> 0 -> exists e, queues s !! l_qe l = Some e /\ known e /\
    (queue_is_atomic e = true -> l_pri_queue l <> ODP_QUEUE_INVALID)
}.

Lemma thread_ok_frame s s' l : frame s s' -> thread_ok s l -> thread_ok s' l.
Proof.
  intros Hf [T1 T2 T3 T4]. split; try done.
  - intros (e & He & Hk & Ha & Hc & Hp)%T3. destruct (frame_lookup _ _ _ _ Hf He) as (e' & He' & Hco).
    destruct (core_fields _ _ Hco) as (_ & F2 & F3 & F4 & _ & _ & _ & F8 & _). exists e'.
    unfold queue_is_atomic in *. rewrite F2, F3, F4, F8. done.
  - intros (e & He & Hk & Ha)%T4. destruct (frame_lookup _ _ _ _ Hf He) as (e' & He' & Hco).
    destruct (core_fields _ _ Hco) as (_ & _ & _ & F4 & _ & _ & _ & F8 & _). exists e'.
    unfold queue_is_atomic in *. rewrite F4, F8. done.
Qed.

(** The state after a thread gave up its atomic queue. *)
Definition released (l : sched_local_t) : sched_local_t := set_l_pri_queue ODP_QUEUE_INVALID l.

Definition release_list (l : sched_local_t) Q : Z -> list Z :=
  if l_pri_queue l =? ODP_QUEUE_INVALID then Q
  else upd (l_pri_queue l) (Q (l_pri_queue l) ++ [l_cmd_ev l]) Q.

(** [odp_schedule_release_atomic] and, without an ordered context,
    [odp_schedule_release_context]. *)
Lemma release_run s Q H :
  sinv s Q (held (loc s) ++ H) -> thread_ok s (loc s) -> l_num (loc s) = 0 ->
  exists s', odp_schedule_release_atomic s = Some (tt, s') /\ odp_schedule_release_context s = Some (tt, s') /\
    sinv s' (release_list (loc s) Q) H /\ frame s s' /\ loc s' = released (loc s) /\ idle (loc s').
Proof.
  intros Hi [T1 T2 T3 T4] Hnum.
  assert (odp_schedule_release_context s = odp_schedule_release_atomic s) as ->.
  { unfold odp_schedule_release_context. rewrite bind_gets. by rewrite (proj1 T2). }
  unfold odp_schedule_release_atomic. rewrite bind_gets, Hnum. unfold release_list, held in *.
  destruct (l_pri_queue (loc s) =? ODP_QUEUE_INVALID) eqn:E; zbool.
  - exists s. split_and!; try done; [apply frame_refl|unfold released; rewrite <- E; by destruct (loc s)|].
    split; [done|done|done|apply T1].
  - destruct T3 as (e & He & Hk & Ha & Hc & Hpe); [done|]. rewrite <- Hc in *. simpl app in Hi.
    assert (q_status e = QUEUE_STATUS_SCHED) as Hst.
    { destruct (pl_held _ _ _ (si_place _ _ _ Hi) (q_cmd_ev e) ltac:(set_solver)) as (q' & e' & He' & Hst' & Hc').
      assert (q' = l_qe (loc s)) as -> by (eapply (cmd_inj s); [apply (si_reg _ _ _ Hi)|done|done|by right|done|done]).
      congruence. }
    destruct (put_cmd s Q H (l_qe (loc s)) e) as (s' & Hrun & Hi' & Hf & Hl & _); [done..|right; apply T2|].
    rewrite Hpe in Hrun, Hi'. simpl. rewrite (bind_some _ _ _ _ _ Hrun). simpl.
    assert (loc s' = loc s) as Hls by (rewrite Hl; apply ignore_id, T2).
    exists (set_loc (released (loc s')) s'). rewrite Hls.
    split; [unfold modl; by rewrite Hls|]. split; [unfold modl; by rewrite Hls|].
    split; [by apply sinv_loc|]. split; [eapply frame_trans; [done|apply frame_loc]|]. split; [done|].
    split; [done|done|done|apply T1].
Qed.

Lemma thread_ok_idle s l : idle l -> 0 <= l_index l <= 4 -> thread_ok s l.
Proof.
  intros [I1 I2 I3 I4] Hx. split; [rewrite I1; split_and!; (done || lia)|done|by rewrite I2|by rewrite I1].
Qed.

(** * The whole call *)

Lemma ready_frame s s' Q x q :
  frame s s' -> l_thr (loc s') = l_thr (loc s) -> ready s' Q x q <-> ready s Q x q.
Proof.
  intros Hf Hl. destruct (fr_rest _ _ Hf) as (_ & Hs & _). unfold ready. rewrite Hs, Hl.
  split; intros (Hb & p & c & l & e & Hsp & HQ & He & Hk & Hce & Hel & Hne); split; try done.
  - destruct (frame_lookup_inv _ _ _ _ Hf He) as (e0 & He0 & Hco).
    destruct (core_fields _ _ Hco) as (_ & F2 & _ & F4 & _ & _ & _ & F8 & _).
    exists p, c, l, e0. unfold eligible in *. rewrite <- F2, <- F4, <- F8. done.
  - destruct (frame_lookup _ _ _ _ Hf He) as (e0 & He0 & Hco).
    destruct (core_fields _ _ Hco) as (_ & F2 & _ & F4 & _ & _ & _ & F8 & _).
    exists p, c, l, e0. unfold eligible in *. rewrite F2, F4, F8. done.
Qed.

(** Cached events are handed out first. *)
Lemma schedule_cached s mn md :
  thread_ok s (loc s) -> l_num (loc s) <> 0 -> 0 <= mn ->
  let l := loc s in
  let k := Z.min (l_num l) mn in
  exists e, queues s !! l_qe l = Some e /\
    schedule mn md s = Some (Out k (Some (q_handle e)) (take (Z.to_nat k) (drop (Z.to_nat (l_index l)) (l_buf_hdr l))),
                             set_loc (handed_out k l) s) /\
    thread_ok (set_loc (handed_out k l) s) (handed_out k l).
Proof.
  intros [T1 T2 T3 T4] Hn Hmn l k. destruct (T4 Hn) as (e & He & Hk & Ha). exists e. split; [done|].
  destruct T1 as (B1 & B2 & B3 & B4).
  pose proof (copy_events_run s mn Hmn B1 B2 ltac:(unfold zlen; lia)) as Hc. fold l k in Hc. split.
  - unfold schedule. rewrite bind_gets, (proj2 (Z.eqb_neq _ _) Hn). cbn [negb].
    rewrite (bind_some _ _ _ _ _ Hc). rewrite (bind_getq _ _ _ e) by done. unfold ret.
    assert (zlen (take (Z.to_nat k) (drop (Z.to_nat (l_index l)) (l_buf_hdr l))) = k) as ->; [|done].
    unfold zlen. rewrite length_take, length_drop. fold l in B1, B2, B3, B4. unfold k. lia.
  - split; [simpl; fold l in B1, B2, B3, B4; unfold k; split_and!; (done || lia)|done|done|].
    intros _. by exists e.
Qed.

(** Otherwise the thread gives up its atomic queue; when it is not paused it
    visits the priority queues. *)
Lemma schedule_fresh s Q H mn :
  sinv s Q (held (loc s) ++ H) -> thread_ok s (loc s) -> l_num (loc s) = 0 -> 0 <= mn ->
  exists s1, frame s s1 /\ loc s1 = released (loc s) /\ idle (loc s1) /\ sinv s1 (release_list (loc s) Q) H /\
    (l_pause (loc s) = true -> schedule mn MAX_DEQ s = Some (Out 0 None [], s1)) /\
    (l_pause (loc s) = false -> exists r s2,
       visits s1 (release_list (loc s) Q) H mn (visit_order (l_thr (loc s))) r s2 /\
       schedule mn MAX_DEQ s =
         Some (match r with inr out => out | inl _ => Out 0 None [] end,
               match r with
               | inr _ => s2
               | inl _ => set_loc (set_l_pktin_polls (l_pktin_polls (loc s) +u32 1) (released (loc s))) s2
               end)).
Proof.
  intros Hi Ht Hn Hmn. destruct (release_run s Q H Hi Ht Hn) as (s1 & _ & Hrun & Hi1 & Hf1 & Hl1 & Hid1).
  exists s1. do 4 (split; [done|]). unfold schedule. rewrite bind_gets, Hn. cbn [Z.eqb negb].
  rewrite (bind_some _ _ _ _ _ Hrun), bind_gets, Hl1.
  replace (l_pause (released (loc s))) with (l_pause (loc s)) by done.
  split; [by intros ->|]. intros ->.
  destruct (prio_loop_spec 8 s1 (release_list (loc s) Q) H 0 mn) as (r & s2 & Hrun2 & Hv); try (done || lia).
  rewrite Hl1 in Hv. change (l_thr (released (loc s))) with (l_thr (loc s)) in Hv.
  exists r, s2. split; [exact Hv|]. change (Z.to_nat ODP_CONFIG_SCHED_PRIOS) with 8%nat.
  rewrite (bind_some _ _ _ _ _ Hrun2). destruct r as [md|out]; [|done].
  destruct Hv as [(Q' & _ & _ & Hp)|(?&?&?&?&?&?&?&?&_&_&_&_&?&_)]; [|done].
  change (l_thr (released (loc s))) with (l_thr (loc s)).
  change (POLL_CMD_QUEUES - 1) with (Z.ones 2). rewrite Z.land_ones by lia.
  pose proof (Z.mod_pos_bound (l_thr (loc s)) (2 ^ 2) ltac:(lia)). change (2 ^ 2) with 4 in *.
  rewrite (bind_some _ _ _ _ _ (poll_loop_none _ s2 (l_thr (loc s) mod 4)
    (rg_tables _ (si_reg _ _ _ (ps_inv _ _ _ _ _ _ Hp))) ltac:(lia))).
  rewrite bind_modl, (ps_loc _ _ _ _ _ _ Hp), Hl1. done.
Qed.

(** The context after a dispatch. *)
Lemma dispatched_thread_ok s Q H x q mn out s' Q' :
  registered s -> idle (loc s) -> 0 <= mn -> dispatched s Q H x q mn out s' Q' -> thread_ok s' (loc s').
Proof.
  intros Hr Hid Hmn [Hi Hf (e & p & c & l & He & Hk & Hs & Hpe & Hc & HQ & _ & Hl & _)].
  apply (thread_ok_frame s s'); [done|]. rewrite Hl. set (evs := take 4 (Q q)).
  assert (length evs <= 4)%nat as Hle by (unfold evs; rewrite length_take; lia).
  pose proof (id_buf _ Hid) as Hb4. pose proof (tb_nonnull _ (rg_tables _ Hr) _ _ _ Hs) as Hpn.
  assert (length (evs ++ drop (length evs) (l_buf_hdr (loc s))) = 4%nat) as Hbl by (rewrite length_app, length_drop; lia).
  destruct (queue_is_atomic e) eqn:Ha; split; simpl; try (apply Hid); unfold zlen;
    try (split_and!; (done || lia)); try (by rewrite (id_pri _ Hid)).
  - intros _. exists e. by rewrite Ha, Hc, Hpe.
  - intros _. by exists e.
  - intros _. exists e. split_and!; try done. by rewrite Ha.
Qed.

(** What a call leaves for every thread. *)
Lemma schedule_preserves s Q H mn :
  sinv s Q (held (loc s) ++ H) -> thread_ok s (loc s) -> 0 <= mn ->
  exists out s' Q', schedule mn MAX_DEQ s = Some (out, s') /\
    sinv s' Q' (held (loc s') ++ H) /\ frame s s' /\ thread_ok s' (loc s').
Proof.
  intros Hi Ht Hmn. destruct (decide (l_num (loc s) = 0)) as [Hn|Hn].
  2: { destruct (schedule_cached s mn MAX_DEQ Ht Hn Hmn) as (e & _ & Hrun & Ht').
       eexists _, _, Q. split; [exact Hrun|]. split; [by apply sinv_loc|]. split; [apply frame_loc|done]. }
  destruct (schedule_fresh s Q H mn Hi Ht Hn Hmn) as (s1 & Hf1 & Hl1 & Hid1 & Hi1 & Hpa & Hgo).
  assert (0 <= l_index (loc s1) <= 4) as Hx. { rewrite Hl1. simpl. destruct Ht as [T1 _ _ _]. lia. }
  assert (held (loc s1) = []) as Hh1 by (unfold held; by rewrite (id_pri _ Hid1)).
  destruct (l_pause (loc s)).
  { exists (Out 0 None []), s1, (release_list (loc s) Q). split; [by apply Hpa|]. rewrite Hh1.
    split; [done|]. split; [done|]. by apply thread_ok_idle. }
  destruct (Hgo eq_refl) as (r & s2 & [(Q' & -> & _ & Hp)|(L1 & x & L2 & q & out & sa & Qa & Q' & _ & _ & _ & Hp & -> & Hd)] & Hrun).
  - eexists _, _, Q'. split; [exact Hrun|].
    assert (idle (set_l_pktin_polls (l_pktin_polls (loc s) +u32 1) (released (loc s)))) as Hid2.
    { rewrite <- Hl1. destruct Hid1. by split. }
    split; [apply sinv_loc; cbn [loc set_loc]; unfold held; rewrite (id_pri _ Hid2); apply (ps_inv _ _ _ _ _ _ Hp)|].
    split; [eapply frame_trans; [exact Hf1|]; eapply frame_trans; [apply (ps_frame _ _ _ _ _ _ Hp)|apply frame_loc]|].
    apply thread_ok_idle; [done|]. simpl. rewrite Hl1 in Hx. exact Hx.
  - eexists _, s2, Q'. split; [exact Hrun|]. split; [apply (dp_inv _ _ _ _ _ _ _ _ _ Hd)|].
    split; [eapply frame_trans; [exact Hf1|]; eapply frame_trans; [apply (ps_frame _ _ _ _ _ _ Hp)|apply (dp_frame _ _ _ _ _ _ _ _ _ Hd)]|].
    eapply (dispatched_thread_ok sa); [apply (si_reg _ _ _ (ps_inv _ _ _ _ _ _ Hp))| |done|exact Hd].
    by rewrite (ps_loc _ _ _ _ _ _ Hp).
Qed.
End proofs.
End ScheduleProofs.
