(* ===== verification/ScheduleSpec.v ===== *)
(** What the scheduler promises: which queue a call dispatches from, that a
    call that waits returns, and, for any number of threads, that an atomic
    queue is worked on by one thread at a time and that no queue with events is
    forgotten.  The theorems are about queues that are not ordered, without
    packet input to poll; calls of different threads interleave as whole
    calls. *)

From S2P Require Import Prelude Pool Queue QueueProofs Schedule ScheduleProofs QueueSpec.

Open Scope Z_scope.
Open Scope c_scope.

Module ScheduleSpec.
Import Pool Queue QueueProofs Schedule ScheduleProofs QueueSpec.
Open Scope queue_scope.

(** The first element of a list with a property is unique. *)
Lemma first_unique {A} (P : A -> Prop) L1 x L2 L1' x' L2' :
  L1 ++ x :: L2 = L1' ++ x' :: L2' -> (forall y, y ∈ L1 -> ~ P y) -> (forall y, y ∈ L1' -> ~ P y) ->
  P x -> P x' -> L1 = L1' /\ x = x'.
Proof.
  revert L1'. induction L1 as [|a L1 IH]; intros [|b L1'] Heq H1 H2 Hx Hx'; simplify_eq/=.
  - done.
  - exfalso. apply (H2 b); [set_solver|done].
  - exfalso. apply (H1 x'); [set_solver|done].
  - destruct (IH L1') as [-> ->]; try done; intros y Hy; [apply H1|apply H2]; set_solver.
Qed.

Section claims.
Context {W : Type} {PL : Platform W} {SPL : SchedPlatform W}.
Implicit Types (Q : Z -> list Z) (s : qsys W) (H : list Z).

(** The events a thread has dequeued and not yet been given. *)
Definition cached (l : sched_local_t) : list Z :=
  take (Z.to_nat (l_num l)) (drop (Z.to_nat (l_index l)) (l_buf_hdr l)).

Lemma ready_queue s Q H x q q' :
  sinv s Q H -> ready s Q x q -> ready s Q x q' -> q = q'.
Proof.
  intros Hi (_ & p & c & l & e & Hs & HQ & He & Hk & Hc & _) (_ & p' & c' & l' & e' & Hs' & HQ' & He' & Hk' & Hc' & _).
  eapply (cmd_inj s); [apply (si_reg _ _ _ Hi)|done..|]. congruence.
Qed.

Lemma dispatched_cached l q p c k evs a :
  length (l_buf_hdr l) = 4%nat -> (length evs <= 4)%nat -> 0 <= k <= zlen evs ->
  cached (dispatched_local l q p c k evs a) = drop (Z.to_nat k) evs.
Proof.
  intros Hb He Hk. unfold cached, dispatched_local.
  assert (take (Z.to_nat (zlen evs - k)) (drop (Z.to_nat (0 + k)) (evs ++ drop (length evs) (l_buf_hdr l))) =
          drop (Z.to_nat k) evs) as Hd.
  { unfold zlen in *. rewrite Z.add_0_l, drop_app_le by lia. apply take_app_length'. rewrite length_drop. lia. }
  by destruct a.
Qed.

(** Giving back an atomic queue does not change the contents of the others. *)
Lemma release_list_known s Q H q e :
  sinv s Q H -> thread_ok s (loc s) -> queues s !! q = Some e -> known e -> release_list (loc s) Q q = Q q.
Proof.
  intros Hi Ht He Hk. unfold release_list. if_case; [done|]. apply upd_ne. intros ->.
  destruct (to_held _ _ Ht) as (e' & He' & Hk' & _ & _ & Hp'); [done|].
  destruct (rg_queue _ (si_reg _ _ _ Hi) _ e' He' Hk') as (_ & _ & _ & _ & _ & _ & (i & id & _ & _ & Hs & _) & _).
  rewrite Hp' in Hs. by apply (slot_ready s i id _ e (si_reg _ _ _ Hi) Hs He).
Qed.

Lemma schedule_hands_out s Q H mn :
  sinv s Q (held (loc s) ++ H) -> thread_ok s (loc s) -> 0 <= mn -> l_num (loc s) <> 0 ->
  let l := loc s in
  let k := Z.min (l_num l) mn in
  exists e s', queues s !! l_qe l = Some e /\
    schedule mn MAX_DEQ s = Some (Out k (Some (q_handle e)) (take (Z.to_nat k) (cached l)), s') /\
    cached (loc s') = drop (Z.to_nat k) (cached l) /\ sinv s' Q (held (loc s') ++ H).
Proof.
  intros Hi Ht Hmn Hn l k. destruct (schedule_cached s mn MAX_DEQ Ht Hn Hmn) as (e & He & Hrun & _). fold l k in Hrun.
  destruct (to_cache _ _ Ht) as (B1 & B2 & B3 & B4). fold l in B1, B2, B3, B4.
  exists e, (set_loc (handed_out k l) s). split; [done|]. split; [|split; [|by apply sinv_loc]].
  + rewrite Hrun. do 3 f_equal. unfold cached. rewrite take_take. f_equal. unfold k. lia.
  + unfold cached. simpl. fold l. rewrite skipn_firstn_comm, drop_drop. f_equal; [unfold k; lia|]. f_equal. unfold k. lia.
Qed.

Lemma schedule_finds_nothing s Q H mn :
  sinv s Q (held (loc s) ++ H) -> thread_ok s (loc s) -> 0 <= mn -> l_num (loc s) = 0 ->
  let l := loc s in
  let Q1 := release_list l Q in
  l_pause l = true \/ (forall x q, x ∈ visit_order (l_thr l) -> ~ ready s Q1 x q) ->
  exists s' Q', schedule mn MAX_DEQ s = Some (Out 0 None [], s') /\ sinv s' Q' H /\ idle (loc s') /\
    (forall q e, queues s !! q = Some e -> known e -> Q' q = Q q).
Proof.
  intros Hi Ht Hmn Hn l Q1 Hno. pose proof (fun q e => release_list_known s Q _ q e Hi Ht) as HQ1. fold l Q1 in HQ1.
  destruct (schedule_fresh s Q H mn Hi Ht Hn Hmn) as (s1 & Hf1 & Hl1 & Hid1 & Hi1 & Hpa & Hgo).
  fold l Q1 in Hi1, Hl1, Hpa, Hgo. destruct (l_pause l) eqn:Ep; [by exists s1, Q1; auto|].
  destruct (Hgo eq_refl) as (r & s2 & [(Q' & -> & _ & Hp)|(L1 & x & L2 & q & out & sa & Qa & Q' & HL & _ & Hrd & _)] & Hrun).
  + eexists _, Q'. split; [exact Hrun|]. split; [apply sinv_loc, (ps_inv _ _ _ _ _ _ Hp)|]. split.
    { simpl. rewrite <- Hl1. destruct Hid1. by split. }
    intros q e He Hk. rewrite <- (HQ1 q e He Hk). apply (ps_other _ _ _ _ _ _ Hp). intros x _ Hs.
    destruct (frame_lookup _ _ _ _ Hf1 He) as (e1 & He1 & Hco).
    apply (slot_ready s1 _ _ _ e1 (si_reg _ _ _ Hi1) Hs He1). by apply (core_fields _ _ Hco).
  + exfalso. destruct Hno as [Hno|Hno]; [done|]. apply (Hno x q); [rewrite HL; set_solver|].
    apply (ready_frame s s1 Q1 x q Hf1); [by rewrite Hl1|done].
Qed.

Lemma schedule_dispatches s Q H mn L1 x L2 q :
  sinv s Q (held (loc s) ++ H) -> thread_ok s (loc s) -> 0 <= mn -> l_num (loc s) = 0 -> l_pause (loc s) = false ->
  let Q1 := release_list (loc s) Q in
  visit_order (l_thr (loc s)) = L1 ++ x :: L2 ->
  (forall y q', y ∈ L1 -> ~ ready s Q1 y q') -> ready s Q1 x q ->
  let evs := take 4 (Q q) in
  let k := Z.min (zlen evs) mn in
  exists e s' Q', queues s !! q = Some e /\
    schedule mn MAX_DEQ s = Some (Out k (Some (q_handle e)) (take (Z.to_nat k) evs), s') /\
    Q' q = drop 4 (Q q) /\ cached (loc s') = drop (Z.to_nat k) evs /\
    held (loc s') = (if queue_is_atomic e then [q_cmd_ev e] else []) /\
    sinv s' Q' (held (loc s') ++ H).
Proof.
  intros Hi Ht Hmn Hn Hpau Q1 HL Hno Hrd evs k. pose proof (fun q e => release_list_known s Q _ q e Hi Ht) as HQ1.
  set (l := loc s) in *. fold Q1 in HQ1.
  destruct (schedule_fresh s Q H mn Hi Ht Hn Hmn) as (s1 & Hf1 & Hl1 & Hid1 & Hi1 & _ & Hgo).
  fold l Q1 in Hi1, Hl1, Hgo.
  assert (forall y q', ready s1 Q1 y q' <-> ready s Q1 y q') as Hrf by (intros; apply ready_frame; [done|by rewrite Hl1]).
  destruct (Hgo Hpau) as (r & s2 & [(Q' & -> & Hno' & Hp)|(La & y & Lb & q' & out & sa & Qa & Q' & HL' & Hno' & Hrd' & Hp & -> & Hd)] & Hrun).
  { exfalso. apply (Hno' x q); [rewrite HL; set_solver|by apply Hrf]. }
  destruct (first_unique (fun y => exists q, ready s Q1 y q) La y Lb L1 x L2) as [-> ->].
  { congruence. } { intros z Hz [q0 Hq0]. by apply (Hno' z q0 Hz), Hrf. } { intros z Hz [q0 Hq0]. by apply (Hno z q0 Hz). }
  { exists q'. by apply Hrf. } { by exists q. }
  assert (q' = q) as -> by (eapply (ready_queue s1 Q1 H x); [done|done|by apply Hrf]).
  destruct Hd as [Hi2 Hf2 (e2 & p & c & lp & He2 & Hk2 & Hs2 & Hpe & Hc & HQp & Hout & Hloc & HQ')].
  assert (frame s sa) as Hfa by (eapply frame_trans; [exact Hf1|apply (ps_frame _ _ _ _ _ _ Hp)]).
  destruct (frame_lookup_inv _ _ _ _ Hfa He2) as (e & He & Hco).
  destruct (core_fields _ _ Hco) as (_ & F2 & F3 & F4 & F5 & _ & _ & F8 & _).
  assert (Qa q = Q q) as HQq.
  { rewrite (ps_other _ _ _ _ _ _ Hp); [apply (HQ1 q e He); by apply F8|]. intros z _ Hs.
    rewrite <- (proj1 (proj2 (fr_rest _ _ (ps_frame _ _ _ _ _ _ Hp)))) in Hs.
    by apply (slot_ready sa _ _ _ e2 (si_reg _ _ _ (ps_inv _ _ _ _ _ _ Hp)) Hs He2). }
  rewrite HQq in Hout, Hloc, HQ'. fold evs in Hout, Hloc. fold k in Hout, Hloc.
  assert (queue_is_atomic e2 = queue_is_atomic e) as Hat by (unfold queue_is_atomic; by rewrite F4).
  assert (p <> q) as Hpq.
  { intros ->. by apply (slot_ready sa _ _ _ e2 (si_reg _ _ _ (ps_inv _ _ _ _ _ _ Hp)) Hs2 He2). }
  assert (idle (loc sa)) as Hida by (by rewrite (ps_loc _ _ _ _ _ _ Hp)).
  exists e, s2, Q'. split; [done|]. split; [by rewrite Hrun, Hout, F5|]. split; [by rewrite HQ', upd_ne, upd_eq|].
  split; [|split; [|done]].
  + rewrite Hloc. apply dispatched_cached; [apply (id_buf _ Hida)|unfold evs; rewrite length_take; lia|unfold k, zlen; lia].
  + rewrite Hloc, Hat. unfold dispatched_local, held. destruct (queue_is_atomic e); simpl.
    * rewrite (proj2 (Z.eqb_neq _ _)); [congruence|].
      by apply (tb_nonnull _ (rg_tables _ (si_reg _ _ _ (ps_inv _ _ _ _ _ _ Hp))) _ _ _ Hs2).
    * by rewrite (id_pri _ Hida).
Qed.

(** C17: [schedule] dispatches by priority, for queues that are not ordered, no
    packet input to poll ([registered]) and a thread in the state whole calls
    leave it in.  Cached events come first.  Otherwise the thread first gives back
    its atomic queue; a paused thread then gets nothing.  The call looks at the
    command at the head of each priority queue once, highest priority first and in
    each priority from the thread's own position on.  From the first one that
    leads to a queue with events open to the thread's groups ([ready]) it takes up
    to [MAX_DEQ] events; it hands out the first [mn] of them and keeps the rest,
    and it keeps the queue when it is atomic.  It returns nothing only when no
    head leads to such a queue, which does not say that there is none further back
    ([schedule_misses_event]). *)
Theorem schedule_correct s Q H mn :
  sinv s Q (held (loc s) ++ H) -> thread_ok s (loc s) -> 0 <= mn ->
  let l := loc s in
  let Q1 := release_list l Q in
  (l_num l <> 0 ->
     let k := Z.min (l_num l) mn in
     exists e s', queues s !! l_qe l = Some e /\
       schedule mn MAX_DEQ s = Some (Out k (Some (q_handle e)) (take (Z.to_nat k) (cached l)), s') /\
       cached (loc s') = drop (Z.to_nat k) (cached l) /\ sinv s' Q (held (loc s') ++ H)) /\
  (l_num l = 0 ->
     l_pause l = true \/ (forall x q, x ∈ visit_order (l_thr l) -> ~ ready s Q1 x q) ->
     exists s' Q', schedule mn MAX_DEQ s = Some (Out 0 None [], s') /\ sinv s' Q' H /\ idle (loc s') /\
       (forall q e, queues s !! q = Some e -> known e -> Q' q = Q q)) /\
  (l_num l = 0 -> l_pause l = false ->
     forall L1 x L2 q, visit_order (l_thr l) = L1 ++ x :: L2 ->
       (forall y q', y ∈ L1 -> ~ ready s Q1 y q') -> ready s Q1 x q ->
       let evs := take 4 (Q q) in
       let k := Z.min (zlen evs) mn in
       exists e s' Q', queues s !! q = Some e /\
         schedule mn MAX_DEQ s = Some (Out k (Some (q_handle e)) (take (Z.to_nat k) evs), s') /\
         Q' q = drop 4 (Q q) /\ cached (loc s') = drop (Z.to_nat k) evs /\
         held (loc s') = (if queue_is_atomic e then [q_cmd_ev e] else []) /\
         sinv s' Q' (held (loc s') ++ H)).
Proof.
  intros Hi Ht Hmn l Q1. split_and!; intros Hn.
  - by apply schedule_hands_out.
  - by apply schedule_finds_nothing.
  - intros Hpau L1 x L2 q HL Hno Hrd. by eapply schedule_dispatches.
Qed.

(** * A call that waits *)

(** The commands on the priority queues. *)
Definition waiting (s : qsys W) Q : nat :=
  length (concat ((fun x => from_option Q [] (slot (sched s) (fst x) (snd x))) <$> visit_order (l_thr (loc s)))).

Lemma visit_order_elem thr i id : 0 <= i < 8 -> 0 <= id < 4 -> (i, id) ∈ visit_order thr.
Proof.
  intros Hi Hid. unfold visit_order, prio_order. apply list_elem_of_In, in_concat.
  exists (rotation (thr mod 4) i). split; apply list_elem_of_In.
  - apply list_elem_of_fmap. exists i. split; [done|]. apply elem_of_seqZ. lia.
  - apply list_elem_of_fmap. exists ((id - thr) mod 4). split.
    + f_equal. rewrite Z.add_mod_idemp_l, Z.add_mod_idemp_r by lia.
      replace (thr + (id - thr)) with id by lia. by rewrite Z.mod_small.
    + apply elem_of_seqZ. pose proof (Z.mod_pos_bound (id - thr) 4). lia.
Qed.

Lemma length_concat_le {A B} (f g : A -> list B) (l : list A) :
  (forall x, x ∈ l -> (length (g x) <= length (f x))%nat) ->
  (length (concat (g <$> l)) <= length (concat (f <$> l)))%nat.
Proof.
  induction l as [|a l IH]; intros Hle; [done|].
  rewrite !fmap_cons, !concat_cons, !length_app.
  specialize (IH ltac:(intros; apply Hle; set_solver)). specialize (Hle a ltac:(set_solver)). lia.
Qed.

Lemma length_concat_lt {A B} (f g : A -> list B) (l : list A) y :
  (forall x, x ∈ l -> (length (g x) <= length (f x))%nat) -> y ∈ l -> (length (g y) < length (f y))%nat ->
  (length (concat (g <$> l)) < length (concat (f <$> l)))%nat.
Proof.
  induction l as [|a l IH]; intros Hle Hy Hlt; [set_solver|].
  rewrite !fmap_cons, !concat_cons, !length_app.
  apply elem_of_cons in Hy as [->|Hy].
  - pose proof (length_concat_le f g l ltac:(intros; apply Hle; set_solver)). lia.
  - specialize (IH ltac:(intros; apply Hle; set_solver) Hy Hlt). specialize (Hle a ltac:(set_solver)). lia.
Qed.

(** Every queue is open to the calling thread. *)
Definition all_eligible (s : qsys W) : Prop :=
  forall q e, queues s !! q = Some e -> known e -> eligible (sched s) (l_thr (loc s)) e = true.

(** A call without result leaves at least one command less. *)
Lemma passed_waiting s Q H s' Q' q e :
  sinv s Q H -> all_eligible s -> passed s Q H (visit_order (l_thr (loc s))) s' Q' ->
  queues s !! q = Some e -> known e -> q_cmd_ev e ∈ Q (q_pri_queue e) ->
  (waiting s' Q' < waiting s Q)%nat.
Proof.
  intros Hi Hel Hp He Hk Hin. pose proof (ps_frame _ _ _ _ _ _ Hp) as Hf.
  pose proof (si_reg _ _ _ Hi) as Hr. destruct (fr_rest _ _ Hf) as (Hcm & Hs & _).
  unfold waiting. rewrite (ps_loc _ _ _ _ _ _ Hp), Hs.
  assert (forall x p, x ∈ visit_order (l_thr (loc s)) -> slot (sched s) (fst x) (snd x) = Some p ->
            Q' p = if bit (sched s) (fst x) (snd x) then tail (Q p) else Q p) as Htail.
  { intros x p Hx Hsp. rewrite (ps_slot _ _ _ _ _ _ Hp x p Hx Hsp). unfold passed_over.
    destruct (bit _ _ _); [|done]. destruct (Q p) as [|c l] eqn:HQ; [done|].
    destruct (head_cmd s Q H _ _ p c l Hi Hsp HQ) as (q0 & e0 & He0 & Hk0 & _ & _ & _ & Hc0 & _).
    rewrite Hc0, He0. simpl. by rewrite (Hel q0 e0 He0 Hk0). }
  destruct (rg_queue _ Hr q e He Hk) as (_ & _ & _ & _ & _ & _ & (i & id & Hib & Hidb & Hsp & Hb) & _).
  apply (length_concat_lt _ _ _ (i, id)).
  - intros x Hx. destruct (slot (sched s) (fst x) (snd x)) as [p|] eqn:Hsx; [|done]. simpl.
    rewrite (Htail x p Hx Hsx). destruct (bit (sched s) (fst x) (snd x)); destruct (Q p); simpl; lia.
  - by apply visit_order_elem.
  - simpl. rewrite Hsp. simpl. rewrite (Htail (i, id) _ (visit_order_elem _ _ _ Hib Hidb) Hsp). simpl. rewrite Hb.
    destruct (Q (q_pri_queue e)); [set_solver|]. simpl. lia.
Qed.

Lemma released_idle l : idle l -> released l = l.
Proof. intros [_ Hp _ _]. unfold released. rewrite <- Hp. by destruct l. Qed.

Lemma release_list_idle l Q : idle l -> release_list l Q = Q.
Proof. intros [_ Hp _ _]. unfold release_list. by rewrite Hp. Qed.

Lemma all_eligible_frame s s' :
  all_eligible s -> frame s s' -> l_thr (loc s') = l_thr (loc s) -> all_eligible s'.
Proof.
  intros Hel Hf Hl q e' He' Hk'. destruct (frame_lookup_inv _ _ _ _ Hf He') as (e & He & Hco).
  destruct (core_fields _ _ Hco) as (_ & _ & _ & F4 & _ & _ & _ & F8 & _).
  unfold eligible. rewrite Hl, (proj1 (proj2 (fr_rest _ _ Hf))), F4. by apply (Hel q e He), F8.
Qed.

(** Visits without result leave the events where they are. *)
Lemma passed_known s1 Q H L s2 Q' s q e :
  sinv s1 Q H -> passed s1 Q H L s2 Q' -> frame s s1 -> queues s !! q = Some e -> known e -> Q' q = Q q.
Proof.
  intros Hi Hp Hf He Hk. destruct (frame_lookup _ _ _ _ Hf He) as (e1 & He1 & Hco).
  apply (ps_other _ _ _ _ _ _ Hp). intros y _ Hs. apply (slot_ready s1 _ _ _ e1 (si_reg _ _ _ Hi) Hs He1).
  by apply (core_fields _ _ Hco).
Qed.

(** C20: [schedule_loop] with [ODP_SCHED_WAIT] returns.  The thread holds no
    queue and no cached event, is not paused, and may work on every queue; no
    queue is ordered and there is no packet input to poll ([registered]); no other
    thread runs in between.  When then some queue has events and its command is
    not in the hands of another thread, the call returns at least one event of
    some queue; the rounds it takes are at most the commands on the priority
    queues, because each round without result takes the command of an empty queue
    away. *)
Theorem schedule_wait_returns s Q H mn q e fuel :
  sinv s Q H -> idle (loc s) -> 0 <= l_index (loc s) <= 4 -> l_pause (loc s) = false -> 0 < mn ->
  all_eligible s -> queues s !! q = Some e -> known e -> Q q <> [] -> q_cmd_ev e ∉ H ->
  (waiting s Q < fuel)%nat ->
  exists out s', schedule_loop fuel ODP_SCHED_WAIT mn MAX_DEQ s = Some (out, s') /\ 0 < o_ret out /\
    o_ret out = zlen (o_ev out) /\
    exists q' e' n, queues s !! q' = Some e' /\ known e' /\ o_ev out = take n (Q q').
Proof.
  revert s Q e. unfold schedule_loop. induction fuel as [|fuel IH];
    intros s Q e Hi Hid Hx Hpau Hmn Hel He Hk HQ HcH Hf; [lia|].
  pose proof (thread_ok_idle s _ Hid Hx) as Ht. pose proof (id_num _ Hid) as Hn.
  assert (held (loc s) = []) as Hh by (unfold held; by rewrite (id_pri _ Hid)).
  destruct (schedule_fresh s Q H mn) as (s1 & Hf1 & Hl1 & Hid1 & Hi1 & _ & Hgo); [by rewrite Hh|done|done|lia|].
  rewrite (released_idle _ Hid) in Hl1. rewrite (release_list_idle _ Q Hid) in Hi1.
  destruct (Hgo Hpau) as (r & s2 & Hv & Hrun). rewrite (release_list_idle _ Q Hid), (released_idle _ Hid) in *.
  cbn [schedule_rounds]. rewrite (bind_some _ _ _ _ _ Hrun).
  destruct Hv as [(Q' & -> & Hno & Hp)|(L1 & x & L2 & q' & out & sa & Qa & Q' & HL & _ & Hrd & Hp & -> & Hd)].
  - change (negb (o_ret (Out 0 None []) =? 0)) with false. rewrite Z.eqb_refl.
    assert (frame s s2) as Hf2 by (eapply frame_trans; [exact Hf1|apply (ps_frame _ _ _ _ _ _ Hp)]).
    set (s3 := set_loc _ s2). assert (frame s s3) as Hf3 by (eapply frame_trans; [exact Hf2|apply frame_loc]).
    destruct (frame_lookup _ _ _ _ Hf1 He) as (e1 & He1 & Hco1). pose proof (core_fields _ _ Hco1) as (_ & F2 & F3 & _ & _ & _ & _ & F8 & _).
    destruct (frame_lookup _ _ _ _ Hf3 He) as (e3 & He3 & Hco3). pose proof (core_fields _ _ Hco3) as (_ & G2 & G3 & _ & _ & _ & _ & G8 & _).
    assert (Q' q = Q q) as HQ' by (by apply (passed_known s1 Q H _ s2 Q' s q e Hi1 Hp Hf1)).
    assert (q_cmd_ev e1 ∈ Q (q_pri_queue e1)) as Hin.
    { destruct (si_place _ _ _ Hi1) as [P1 P2 _ _ _]. destruct (proj2 F8 Hk) as [Hst|Hst].
      - by destruct (P2 q e1 He1 Hst).
      - destruct (P1 q e1 He1 Hst) as [[? _]|[Hin _]]; [done|]. by rewrite F2 in Hin. }
    assert (all_eligible s1) as Hel1 by (apply (all_eligible_frame s); [done..|by rewrite Hl1]).
    assert (waiting s2 Q' < waiting s1 Q)%nat as Hlt.
    { eapply (passed_waiting s1 Q H s2 Q' q e1); [done|done| |done|by apply F8|done]. by rewrite Hl1. }
    assert (waiting s3 Q' = waiting s2 Q') as Hw3.
    { unfold waiting. simpl. by rewrite (ps_loc _ _ _ _ _ _ Hp), Hl1. }
    assert (waiting s1 Q = waiting s Q) as Hw1 by (unfold waiting; by rewrite (proj1 (proj2 (fr_rest _ _ Hf1))), Hl1).
    destruct (IH s3 Q' e3) as (out & s' & Hrun' & Hpos & Hret & q0 & e0 & n & He0 & Hk0 & Hev); try done.
    + apply sinv_loc, (ps_inv _ _ _ _ _ _ Hp).
    + unfold s3. simpl. destruct Hid. by split.
    + by apply (all_eligible_frame s).
    + by apply G8.
    + by rewrite HQ'.
    + by rewrite G2.
    + lia.
    + exists out, s'. do 3 (split; [done|]). destruct (frame_lookup_inv _ _ _ _ Hf3 He0) as (ea & Hea & Hcoa).
      pose proof (proj1 (proj1 (proj2 (proj2 (proj2 (proj2 (proj2 (proj2 (proj2 (core_fields _ _ Hcoa))))))))) Hk0) as Hka.
      exists q0, ea, n. split_and!; try done. by rewrite <- (passed_known s1 Q H _ s2 Q' s q0 ea Hi1 Hp Hf1).
  - destruct Hd as [Hi2 Hf2 (e2 & p & c & lp & He2 & Hk2 & Hs2 & Hpe & Hc & HQp & Hout & Hloc & HQ')].
    assert (frame s sa) as Hfa by (eapply frame_trans; [exact Hf1|apply (ps_frame _ _ _ _ _ _ Hp)]).
    destruct (frame_lookup_inv _ _ _ _ Hfa He2) as (e0 & He0 & Hco).
    pose proof (proj1 (proj1 (proj2 (proj2 (proj2 (proj2 (proj2 (proj2 (proj2 (core_fields _ _ Hco))))))))) Hk2) as Hk0.
    assert (Qa q' = Q q') as HQq by (by apply (passed_known s1 Q H _ sa Qa s q' e0 Hi1 Hp Hf1)).
    rewrite HQq in Hout. assert (Q q' <> []) as Hne by (destruct Hrd as (_ & ? & ? & ? & ? & _ & _ & _ & _ & _ & _ & ?); done).
    assert (0 < zlen (take 4 (Q q'))) as Hpos by (unfold zlen; destruct (Q q'); [done|simpl; lia]).
    subst out. cbn [o_ret].
    rewrite (proj2 (Z.eqb_neq (Z.min (zlen (take 4 (Q q'))) mn) 0)) by lia. eexists _, s2. split; [done|]. cbn [o_ret o_ev].
    split; [lia|]. split.
    { clear -Hpos Hmn. revert Hpos. generalize (take 4 (Q q')). intros evs Hpos. unfold zlen in *. rewrite length_take. lia. }
    exists q', e0, (Z.to_nat (Z.min (zlen (take 4 (Q q'))) mn) `min` 4)%nat. split_and!; try done. by rewrite take_take.
Qed.

(** * Many threads *)

Record system := System { sy_state : qsys W; sy_threads : list sched_local_t }.

(** The calls of a thread: scheduling without waiting, enqueueing an event,
    giving up a queue, pausing. *)
Inductive call :=
| C_SCHEDULE (num : Z)
| C_ENQ (q b : Z)
| C_RELEASE_ATOMIC
| C_RELEASE_CONTEXT
| C_PAUSE
| C_RESUME.

Definition exec (c : call) : M W sched_out :=
  match c with
  | C_SCHEDULE num => odp_schedule_multi 1 ODP_SCHED_NO_WAIT num
  | C_ENQ q b => rc <- odp_queue_enq q b ;; ret (Out rc None [])
  | C_RELEASE_ATOMIC => odp_schedule_release_atomic ;;; ret (Out 0 None [])
  | C_RELEASE_CONTEXT => odp_schedule_release_context ;;; ret (Out 0 None [])
  | C_PAUSE => odp_schedule_pause ;;; ret (Out 0 None [])
  | C_RESUME => odp_schedule_resume ;;; ret (Out 0 None [])
  end.

(** Thread [t] makes call [c]. *)
Definition run (t : nat) (c : call) (sy : system) : option (sched_out * system) :=
  l ← sy_threads sy !! t;
  '(out, s') ← exec c (set_loc l (sy_state sy));
  Some (out, System s' (<[t := loc s']> (sy_threads sy))).

Definition all_held (sy : system) : list Z := concat (held <$> sy_threads sy).

Record sys_inv (sy : system) Q : Prop := {
  sv_inv : sinv (sy_state sy) Q (all_held sy);
  sv_threads : Forall (thread_ok (sy_state sy)) (sy_threads sy)
}.

(** What an application may call: it enqueues events that are its own, to
    queues that exist, and releases a queue after it took all its events. *)
Definition legal (sy : system) (c : call) : Prop :=
  match c with
  | C_ENQ q b => exists Q e, sys_inv sy Q /\ queues (sy_state sy) !! q = Some e /\ known e /\
      app_buf (sy_state sy) Q (fun _ => []) b /\ b ∉ all_held sy
  | C_SCHEDULE num => is_u32 num
  | _ => True
  end.

Inductive runs (sy0 : system) : system -> Prop :=
| runs_nil : runs sy0 sy0
| runs_step sy t c out sy' : runs sy0 sy -> legal sy c -> run t c sy = Some (out, sy') -> runs sy0 sy'.

Definition others (t : nat) (sy : system) : list Z :=
  concat (held <$> (take t (sy_threads sy) ++ drop (S t) (sy_threads sy))).

Lemma placed_perm s Q H H' : H ≡ₚ H' -> placed s Q H -> placed s Q H'.
Proof.
  intros Hp [P1 P2 P3 P4 P5]. split; try done.
  - intros q e He Hst. destruct (P1 q e He Hst) as [[? ?]|[? ?]]; [left|right]; by rewrite <- Hp.
  - intros q e He Hst. destruct (P2 q e He Hst) as [? ?]. by rewrite <- Hp.
  - intros x Hx. apply P4. by rewrite Hp.
  - by rewrite <- Hp.
Qed.

Lemma sinv_perm s Q H H' : H ≡ₚ H' -> sinv s Q H -> sinv s Q H'.
Proof. intros Hp [? ? ?]. split; [done|done|by eapply placed_perm]. Qed.

Lemma held_perm t sy l :
  sy_threads sy !! t = Some l -> all_held sy ≡ₚ held l ++ others t sy.
Proof.
  intros Hl. unfold all_held, others. rewrite <- (take_drop_middle _ _ _ Hl) at 1.
  rewrite !fmap_app, fmap_cons, !concat_app, concat_cons. rewrite !app_assoc.
  by rewrite (Permutation_app_comm (concat (held <$> take t (sy_threads sy))) (held l)).
Qed.

Lemma held_perm_set t sy s' l l' :
  sy_threads sy !! t = Some l ->
  held l' ++ others t sy ≡ₚ all_held (System s' (<[t := l']> (sy_threads sy))).
Proof.
  intros Hl. pose proof (lookup_lt_Some _ _ _ Hl) as Hlt.
  rewrite (held_perm t (System s' (<[t := l']> (sy_threads sy))) l') by (simpl; by apply list_lookup_insert_eq).
  unfold others. simpl. rewrite take_insert_ge by lia. by rewrite drop_insert_lt by lia.
Qed.

(** One call of a thread, from what it does to its own context. *)
Lemma run_ok t c sy l out s' Q' :
  sy_threads sy !! t = Some l -> Forall (thread_ok (sy_state sy)) (sy_threads sy) ->
  exec c (set_loc l (sy_state sy)) = Some (out, s') -> frame (sy_state sy) s' ->
  sinv s' Q' (held (loc s') ++ others t sy) -> thread_ok s' (loc s') ->
  run t c sy = Some (out, System s' (<[t := loc s']> (sy_threads sy))) /\
  sys_inv (System s' (<[t := loc s']> (sy_threads sy))) Q'.
Proof.
  intros Hl Hall Hrun Hf Hi Ht. split; [unfold run; rewrite Hl; simpl; by rewrite Hrun|].
  split; simpl.
  - eapply sinv_perm; [by eapply held_perm_set|done].
  - apply Forall_insert; [|done]. eapply Forall_impl; [done|]. intros l' Hl'. by eapply thread_ok_frame.
Qed.

Lemma no_wait_run num s out s' :
  schedule (u32 num) MAX_DEQ s = Some (out, s') -> odp_schedule_multi 1 ODP_SCHED_NO_WAIT num s = Some (out, s').
Proof.
  intros Hrun. unfold odp_schedule_multi, schedule_loop. cbn [schedule_rounds].
  rewrite (bind_some _ _ _ _ _ Hrun). by destruct (negb _).
Qed.

(** A release with events left in the cache does nothing. *)
Lemma release_total s Q H :
  sinv s Q (held (loc s) ++ H) -> thread_ok s (loc s) ->
  exists s' Q', odp_schedule_release_atomic s = Some (tt, s') /\ odp_schedule_release_context s = Some (tt, s') /\
    sinv s' Q' (held (loc s') ++ H) /\ frame s s' /\ thread_ok s' (loc s').
Proof.
  intros Hi Ht. destruct (decide (l_num (loc s) = 0)) as [Hn|Hn].
  - destruct (release_run s Q H Hi Ht Hn) as (s' & H1 & H2 & Hi' & Hf & Hl & Hid).
    exists s', (release_list (loc s) Q). split; [done|]. split; [done|].
    split; [unfold held; by rewrite (id_pri _ Hid)|]. split; [done|]. apply thread_ok_idle; [done|].
    rewrite Hl. simpl. destruct (to_cache _ _ Ht). lia.
  - exists s, Q.
    assert (odp_schedule_release_atomic s = Some (tt, s)) as Hrun.
    { unfold odp_schedule_release_atomic. rewrite bind_gets, (proj2 (Z.eqb_neq _ _) Hn), andb_false_r. done. }
    split; [done|]. split; [|by split; [|split; [apply frame_refl|]]].
    unfold odp_schedule_release_context. rewrite bind_gets, (proj1 (to_plain _ _ Ht)). exact Hrun.
Qed.

(** Every legal call returns and keeps the invariant. *)
Lemma run_total t c sy Q :
  sys_inv sy Q -> (t < length (sy_threads sy))%nat -> legal sy c ->
  exists out sy' Q', run t c sy = Some (out, sy') /\ sys_inv sy' Q' /\
    length (sy_threads sy') = length (sy_threads sy).
Proof.
  intros Hinv Ht Hlegal.
  assert (exists out s' Q', forall l, sy_threads sy !! t = Some l ->
    exec c (set_loc l (sy_state sy)) = Some (out, s') /\ frame (sy_state sy) s' /\
    sinv s' Q' (held (loc s') ++ others t sy) /\ thread_ok s' (loc s')) as (out & s' & Q' & Hex).
  2: { destruct (lookup_lt_is_Some_2 _ _ Ht) as [l Hl]. destruct (Hex l Hl) as (Hrun & Hf & Hi & Hto).
       destruct (run_ok t c sy l out s' Q') as [Hr Hi']; try done; [apply (sv_threads _ _ Hinv)|].
       eexists _, _, Q'. split; [exact Hr|]. split; [done|]. simpl. by rewrite length_insert. }
  destruct (lookup_lt_is_Some_2 _ _ Ht) as [l Hl].
  assert (forall Q0, sys_inv sy Q0 -> sinv (set_loc l (sy_state sy)) Q0 (held l ++ others t sy)) as Hsi.
  { intros Q0 [Hi _]. apply sinv_loc. eapply sinv_perm; [by apply held_perm|done]. }
  assert (thread_ok (set_loc l (sy_state sy)) l) as Hto.
  { destruct Hinv as [_ Hall]. rewrite Forall_lookup in Hall. apply (thread_ok_frame (sy_state sy)); [apply frame_loc|by eapply Hall]. }
  set (s := set_loc l (sy_state sy)) in *. assert (frame (sy_state sy) s) as Hfs by apply frame_loc.
  assert (forall f, (forall x, thread_ok s x -> thread_ok s (f x)) -> held (f l) = held l ->
     exists out s' Q', forall l0, sy_threads sy !! t = Some l0 ->
       bind (modl f) (fun _ => ret (Out 0 None [])) (set_loc l0 (sy_state sy)) = Some (out, s') /\
       frame (sy_state sy) s' /\ sinv s' Q' (held (loc s') ++ others t sy) /\ thread_ok s' (loc s')) as Hmodl.
  { intros f Hf Hh. exists (Out 0 None []), (set_loc (f l) s), Q. intros l0 Hl0. assert (l0 = l) as -> by congruence.
    split; [done|]. split; [eapply frame_trans; [done|apply frame_loc]|]. simpl. rewrite Hh.
    split; [by apply sinv_loc, Hsi|]. apply (thread_ok_frame s); [apply frame_loc|by apply Hf]. }
  destruct c as [num|q b| | | |].
  - destruct (schedule_preserves s Q (others t sy) (u32 num)) as (out & s' & Q' & Hrun & Hi & Hf & Hto'); [by apply Hsi|done|apply u32_bound|].
    exists out, s', Q'. intros l0 Hl0. assert (l0 = l) as -> by congruence. fold s.
    split; [by apply no_wait_run|]. split; [by eapply frame_trans|done].
  - destruct Hlegal as (Q0 & e & Hinv0 & He & Hk & Hb & HbH).
    destruct (put_event s Q0 (held l ++ others t sy) q e b) as (s' & Hrun & Hi & Hf & Hl'); try done.
    { by apply Hsi. } { destruct Hb as [B1 B2 B3 B4]. by split. } { by rewrite <- held_perm. } { right. apply (to_plain _ _ Hto). }
    assert (loc s' = l) as Hls by (rewrite Hl'; apply ignore_id, (to_plain _ _ Hto)).
    exists (Out 0 None []), s', (kick e (upd q (Q0 q ++ [b]) Q0)). intros l0 Hl0. assert (l0 = l) as -> by congruence. fold s.
    split; [unfold exec; by rewrite (bind_some _ _ _ _ _ Hrun)|]. split; [by eapply frame_trans|]. rewrite Hls.
    split; [done|by eapply thread_ok_frame].
  - destruct (release_total s Q (others t sy) (Hsi Q Hinv) Hto) as (s' & Q' & Hrun & _ & Hi & Hf & Hto').
    exists (Out 0 None []), s', Q'. intros l0 Hl0. assert (l0 = l) as -> by congruence. fold s.
    split; [unfold exec; by rewrite (bind_some _ _ _ _ _ Hrun)|]. split; [by eapply frame_trans|done].
  - destruct (release_total s Q (others t sy) (Hsi Q Hinv) Hto) as (s' & Q' & _ & Hrun & Hi & Hf & Hto').
    exists (Out 0 None []), s', Q'. intros l0 Hl0. assert (l0 = l) as -> by congruence. fold s.
    split; [unfold exec; by rewrite (bind_some _ _ _ _ _ Hrun)|]. split; [by eapply frame_trans|done].
  - apply (Hmodl (set_l_pause true)); [|done]. intros x [? ? ? ?]. by split.
  - apply (Hmodl (set_l_pause false)); [|done]. intros x [? ? ? ?]. by split.
Qed.

Lemma runs_inv sy0 Q0 sy : sys_inv sy0 Q0 -> runs sy0 sy -> exists Q, sys_inv sy Q.
Proof.
  intros H0. induction 1 as [|sy t c out sy' Hr [Q Hi] Hl Hrun]; [by exists Q0|].
  destruct (decide (t < length (sy_threads sy))%nat) as [Ht|Ht].
  - destruct (run_total t c sy Q Hi Ht Hl) as (out' & sy1 & Q' & Hrun' & Hi' & _). rewrite Hrun in Hrun'.
    simplify_eq. by exists Q'.
  - unfold run in Hrun. by rewrite lookup_ge_None_2 in Hrun by lia.
Qed.

(** Thread context [l] holds the atomic queue [q]. *)
Definition in_context (l : sched_local_t) (q : Z) : Prop :=
  l_pri_queue l <> ODP_QUEUE_INVALID /\ l_qe l = q.

Lemma in_context_held s l q :
  thread_ok s l -> in_context l q -> exists e, queues s !! q = Some e /\ known e /\
    queue_is_atomic e = true /\ held l = [q_cmd_ev e].
Proof.
  intros Ht [Hp <-]. destruct (to_held _ _ Ht Hp) as (e & He & Hk & Ha & Hc & _). exists e. split_and!; try done.
  unfold held. by rewrite (proj2 (Z.eqb_neq _ _) Hp), Hc.
Qed.

Lemma all_held_elem sy x : x ∈ all_held sy <-> exists t l, sy_threads sy !! t = Some l /\ held l = [x].
Proof.
  unfold all_held. rewrite list_elem_of_In, in_concat. split.
  - intros (h & Hh & Hx). apply list_elem_of_In in Hh, Hx. apply list_elem_of_fmap in Hh as (l & -> & Hl).
    apply list_elem_of_lookup in Hl as [t Hl]. exists t, l. split; [done|]. unfold held in *. destruct (_ =? _); set_solver.
  - intros (t & l & Hl & Hh). exists (held l). rewrite <- !list_elem_of_In, Hh. split; [|set_solver].
    apply list_elem_of_fmap. exists l. split; [done|]. by eapply list_elem_of_lookup_2.
Qed.

(** Two threads do not hold the same command. *)
Lemma held_unique sy Q t1 t2 l1 l2 x :
  sys_inv sy Q -> sy_threads sy !! t1 = Some l1 -> sy_threads sy !! t2 = Some l2 ->
  held l1 = [x] -> held l2 = [x] -> t1 = t2.
Proof.
  intros [Hi _] H1 H2 Hh1 Hh2. pose proof (pl_nodup _ _ _ (si_place _ _ _ Hi)) as Hnd.
  rewrite (held_perm t1 sy l1 H1), Hh1 in Hnd. simpl in Hnd. apply NoDup_cons in Hnd as [Hn _].
  destruct (decide (t1 = t2)) as [|Hne]; [done|]. exfalso. apply Hn. unfold others.
  apply list_elem_of_In, in_concat. exists (held l2). rewrite <- !list_elem_of_In, Hh2. split; [|set_solver].
  rewrite <- Hh2. apply list_elem_of_fmap. exists l2. split; [done|]. apply elem_of_app.
  destruct (decide (t2 < t1)%nat) as [Hlt|Hlt].
  - left. apply list_elem_of_lookup. exists t2. by rewrite lookup_take_lt.
  - right. apply list_elem_of_lookup. exists (t2 - S t1)%nat. rewrite lookup_drop. rewrite <- H2. f_equal. lia.
Qed.

(** The queue that a call reports is the one the thread now works on. *)
Lemma schedule_reports s Q H mn out s' :
  sinv s Q (held (loc s) ++ H) -> thread_ok s (loc s) -> 0 <= mn ->
  schedule mn MAX_DEQ s = Some (out, s') -> o_ev out <> [] ->
  exists e, queues s' !! l_qe (loc s') = Some e /\ o_queue out = Some (q_handle e) /\
    (queue_is_atomic e = true -> in_context (loc s') (l_qe (loc s'))).
Proof.
  intros Hi Ht Hmn Hrun Hev. destruct (decide (l_num (loc s) = 0)) as [Hn|Hn].
  2: { destruct (schedule_cached s mn MAX_DEQ Ht Hn Hmn) as (e & He & Hrun' & Ht'). rewrite Hrun in Hrun'. simplify_eq.
       exists e. split_and!; try done. intros Ha. split; [|done].
       destruct (to_queue _ _ Ht Hn) as (e' & He' & _ & Hat). assert (e' = e) as -> by congruence. by apply Hat. }
  destruct (schedule_fresh s Q H mn Hi Ht Hn Hmn) as (s1 & Hf1 & Hl1 & Hid1 & Hi1 & Hpa & Hgo).
  destruct (l_pause (loc s)); [specialize (Hpa eq_refl); rewrite Hrun in Hpa; by simplify_eq|].
  destruct (Hgo eq_refl) as (r & s2 & [(Q' & -> & _ & Hp)|(L1 & x & L2 & q & out' & sa & Qa & Q' & _ & _ & _ & Hp & -> & Hd)] & Hrun');
    rewrite Hrun in Hrun'; simplify_eq; try done.
  pose proof (si_reg _ _ _ (ps_inv _ _ _ _ _ _ Hp)) as Hr.
  destruct Hd as [Hi2 Hf2 (e & p & c & l & He & Hk & Hs & Hpe & Hc & HQ & Hout & Hl & HQ')].
  pose proof (tb_nonnull _ (rg_tables _ Hr) _ _ _ Hs) as Hpn.
  assert (l_qe (loc s2) = q) as Hq by (rewrite Hl; unfold dispatched_local; by destruct (queue_is_atomic e)).
  destruct (frame_lookup _ _ _ _ Hf2 He) as (e2 & He2 & Hco).
  destruct (core_fields _ _ Hco) as (_ & _ & _ & F4 & F5 & _). exists e2. rewrite Hq, F5, Hout.
  split_and!; try done. intros Ha. split; [|done]. unfold queue_is_atomic in Ha. rewrite F4 in Ha.
  rewrite Hl. unfold queue_is_atomic. by rewrite Ha.
Qed.

(** C18: in every interleaving of legal calls, no call fails, and an atomic
    queue is worked on by at most one thread: no two threads hold it, a thread
    with events of an atomic queue left in its cache holds the queue, and so
    does the thread a scheduling call has just given events of an atomic queue
    to.  Calls interleave as whole calls; [sys_inv] has no ordered queues and no
    packet input to poll. *)
Theorem scheduler_atomic sy0 Q0 sy :
  sys_inv sy0 Q0 -> runs sy0 sy ->
  (forall t c, (t < length (sy_threads sy))%nat -> legal sy c -> exists out sy', run t c sy = Some (out, sy')) /\
  (forall t1 t2 l1 l2 q, sy_threads sy !! t1 = Some l1 -> sy_threads sy !! t2 = Some l2 ->
     in_context l1 q -> in_context l2 q -> t1 = t2) /\
  (forall t l e, sy_threads sy !! t = Some l -> l_num l <> 0 -> queues (sy_state sy) !! l_qe l = Some e ->
     queue_is_atomic e = true -> in_context l (l_qe l)) /\
  (forall t num out sy', is_u32 num -> run t (C_SCHEDULE num) sy = Some (out, sy') -> o_ev out <> [] ->
     exists l e, sy_threads sy' !! t = Some l /\ queues (sy_state sy') !! l_qe l = Some e /\
       o_queue out = Some (q_handle e) /\ (queue_is_atomic e = true -> in_context l (l_qe l))).
Proof.
  intros H0 Hr. destruct (runs_inv sy0 Q0 sy H0 Hr) as [Q Hinv]. pose proof Hinv as [Hi Hall].
  rewrite Forall_lookup in Hall. split_and!.
  - intros t c Ht Hl. destruct (run_total t c sy Q Hinv Ht Hl) as (out & sy' & Q' & Hrun & _). eauto.
  - intros t1 t2 l1 l2 q H1 H2 Hc1 Hc2.
    destruct (in_context_held _ _ _ (Hall _ _ H1) Hc1) as (e & He & _ & _ & Hh1).
    destruct (in_context_held _ _ _ (Hall _ _ H2) Hc2) as (e' & He' & _ & _ & Hh2).
    assert (e' = e) as -> by congruence. by eapply held_unique.
  - intros t l e Hl Hn He Ha. split; [|done]. destruct (to_queue _ _ (Hall _ _ Hl) Hn) as (e' & He' & _ & Hat).
    assert (e' = e) as -> by congruence. by apply Hat.
  - intros t num out sy' Hnum Hrun Hev. unfold run in Hrun.
    destruct (sy_threads sy !! t) as [l|] eqn:Hl; [|done]. simpl in Hrun.
    destruct (odp_schedule_multi 1 ODP_SCHED_NO_WAIT num (set_loc l (sy_state sy))) as [[o s']|] eqn:E; [|done].
    simpl in Hrun. simplify_eq. set (s := set_loc l (sy_state sy)) in *.
    assert (sinv s Q (held (loc s) ++ others t sy)) as Hi'.
    { apply sinv_loc. eapply sinv_perm; [by apply held_perm|done]. }
    assert (thread_ok s (loc s)) as Hto by (apply (thread_ok_frame (sy_state sy)); [apply frame_loc|by eapply Hall]).
    destruct (schedule_preserves s Q (others t sy) (u32 num) Hi' Hto) as (o' & s2 & Q' & Hrun & _); [apply u32_bound|].
    rewrite (no_wait_run num s o' s2 Hrun) in E. simplify_eq.
    destruct (schedule_reports s Q (others t sy) (u32 num) out s' Hi' Hto) as (e & He & Ho & Ha); [apply u32_bound|done|done|].
    exists (loc s'), e. simpl. split_and!; try done. apply list_lookup_insert_eq. by eapply lookup_lt_Some.
Qed.

(** C19: in every interleaving of legal calls no queue is forgotten and none
    is scheduled twice.  The contents [Q] of all queues are well-formed lists;
    a scheduled queue with events is in scheduling, and the command of a queue
    in scheduling is either once in its priority queue, whose mask bit is set
    and then no thread holds the queue, or in no list while exactly one thread
    holds it.  Calls interleave as whole calls; [sys_inv] has no ordered queues
    and no packet input to poll. *)
Theorem scheduler_keeps_queues sy0 Q0 sy :
  sys_inv sy0 Q0 -> runs sy0 sy ->
  exists Q, qinv (sy_state sy) Q (fun _ => []) /\
    forall q e, queues (sy_state sy) !! q = Some e -> known e ->
      (Q q <> [] -> q_status e = QUEUE_STATUS_SCHED) /\
      (q_status e = QUEUE_STATUS_SCHED ->
         (q_cmd_ev e ∈ Q (q_pri_queue e) /\
          (exists i id, slot (sched (sy_state sy)) i id = Some (q_pri_queue e) /\ bit (sched (sy_state sy)) i id = true) /\
          (forall t l, sy_threads sy !! t = Some l -> ~ in_context l q)) \/
         (exists t l, sy_threads sy !! t = Some l /\ in_context l q /\
            (forall t' l', sy_threads sy !! t' = Some l' -> in_context l' q -> t' = t) /\
            (forall q' e', queues (sy_state sy) !! q' = Some e' -> q_cmd_ev e ∉ Q q'))).
Proof.
  intros H0 Hr. destruct (runs_inv sy0 Q0 sy H0 Hr) as [Q Hinv]. pose proof Hinv as [Hi Hall].
  rewrite Forall_lookup in Hall. destruct Hi as [Hq Hreg Hp]. exists Q. split; [done|]. intros q e He Hk.
  assert (forall t l, sy_threads sy !! t = Some l -> in_context l q -> held l = [q_cmd_ev e]) as Hctx.
  { intros t l Hl Hc. destruct (in_context_held _ _ _ (Hall _ _ Hl) Hc) as (e' & He' & _ & _ & Hh). congruence. }
  split.
  - intros HQ. destruct Hk as [Hst|Hst]; [|done]. by destruct (pl_idle _ _ _ Hp q e He Hst).
  - intros Hst. destruct (pl_sched _ _ _ Hp q e He Hst) as [[Hin Hn]|[Hin Hn]].
    + left. split; [done|]. destruct (rg_queue _ Hreg q e He Hk) as (_ & _ & _ & _ & _ & _ & (i & id & _ & _ & Hs & Hb) & _).
      split; [by exists i, id|]. intros t l Hl Hc. apply Hn, all_held_elem. exists t, l. split; [done|]. by eapply Hctx.
    + right. apply all_held_elem in Hin as (t & l & Hl & Hh). exists t, l. split; [done|].
      assert (in_context l q) as Hc.
      { unfold held in Hh. destruct (l_pri_queue l =? ODP_QUEUE_INVALID) eqn:E; [done|]. zbool. split; [done|].
        destruct (to_held _ _ (Hall _ _ Hl) E) as (e' & He' & Hk' & _ & Hc' & _). simplify_eq.
        eapply (cmd_inj (sy_state sy)); [done..|]. congruence. }
      split; [done|]. split; [|done]. intros t' l' Hl' Hc'. by eapply held_unique; [| | |by eapply Hctx|].
Qed.

End claims.

(** * A concrete system

    Thirty-two priority queues, numbered from 1, the atomic queue 41 and the
    parallel queue 42 of the highest priority, with commands 51 and 52, two
    threads and four events of the application. *)

#[export] Instance pworld_sched : SchedPlatform pworld := {
  w_pktio_entry _ _ := None;
  w_time_local w := (0, w);
  w_thread_id _ := 0
}.

Definition demo_entry (q status pri cmd sync : Z) : queue_entry :=
  Qentry NULL NULL status OPS_QUEUE q pri cmd ODP_QUEUE_TYPE_SCHED (Qparam 1 0 0 0 sync 0 0 0)
    PKTIN_INVALID 0 EmptyString 0 0 NULL NULL [0; 0] [0; 0].

Definition demo_pri (q : Z) : queue_entry := demo_entry q QUEUE_STATUS_READY 0 0 ODP_SCHED_SYNC_PARALLEL.

Definition demo_queues : gmap Z queue_entry :=
  <[41 := demo_entry 41 QUEUE_STATUS_NOTSCHED 1 51 ODP_SCHED_SYNC_ATOMIC]>
  (<[42 := demo_entry 42 QUEUE_STATUS_NOTSCHED 2 52 ODP_SCHED_SYNC_PARALLEL]>
  (list_to_map ((fun q => (q, demo_pri q)) <$> seqZ 1 32))).

Definition demo_sched : sched_t :=
  Sched ((fun i => seqZ (4 * i + 1) 4) <$> seqZ 0 8) (3 :: replicate 7 0)
    ([1; 1; 0; 0] :: replicate 7 [0; 0; 0; 0]) ((fun i => (35 + i, 0)) <$> seqZ 0 4) 1
    (replicate 256 (EmptyString, 0)).

Definition demo_local (thr : Z) : sched_local_t :=
  Local thr 0 0 false 0 ODP_QUEUE_INVALID ODP_EVENT_INVALID NULL NULL [0; 0; 0; 0] 0 [0; 0] 0 false false.

Definition demo : qsys pworld :=
  Qsys demo_queues (list_to_map ((fun b => (b, hdr0 NULL 0)) <$> [51; 52; 61; 62; 63; 64]))
    {[ 51 := CMD_DEQUEUE 41; 52 := CMD_DEQUEUE 42 ]} demo_sched (demo_local 0) (PW [] [] []).

Definition demo_system : system := System demo [demo_local 0; demo_local 1].

Lemma demo_lookup q e :
  queues demo !! q = Some e ->
  (q = 41 /\ e = demo_entry 41 QUEUE_STATUS_NOTSCHED 1 51 ODP_SCHED_SYNC_ATOMIC) \/
  (q = 42 /\ e = demo_entry 42 QUEUE_STATUS_NOTSCHED 2 52 ODP_SCHED_SYNC_PARALLEL) \/
  (1 <= q <= 32 /\ e = demo_pri q).
Proof.
  change (queues demo) with demo_queues. unfold demo_queues. rewrite !lookup_insert_Some.
  intros [(<- & <-)|[_ [(<- & <-)|[_ Hq]]]]; auto.
  right; right. apply elem_of_list_to_map_2, list_elem_of_fmap in Hq as (q' & Heq & Hq%elem_of_seqZ).
  simplify_eq. split; [lia|done].
Qed.

Lemma demo_pri_lookup q : 1 <= q <= 32 -> queues demo !! q = Some (demo_pri q).
Proof.
  intros Hq. change (queues demo) with demo_queues. unfold demo_queues. rewrite !lookup_insert_ne by lia.
  apply elem_of_list_to_map_1.
  - rewrite <- list_fmap_compose. by apply (bool_decide_unpack _).
  - apply list_elem_of_fmap. exists q. split; [done|]. apply elem_of_seqZ. lia.
Qed.

Lemma demo_slot i id p : slot demo_sched i id = Some p -> 0 <= i < 8 /\ 0 <= id < 4 /\ p = 4 * i + id + 1.
Proof.
  unfold slot. destruct (zget (s_pri_queue demo_sched) i) as [row|] eqn:Hr; [|done]. simpl. intros Hp.
  pose proof (zget_bound _ _ _ Hr) as Hib. pose proof (zget_bound _ _ _ Hp) as Hidb.
  change (zlen (s_pri_queue demo_sched)) with 8 in Hib. split; [done|].
  change (s_pri_queue demo_sched) with ((fun i => seqZ (4 * i + 1) 4) <$> seqZ 0 8) in Hr.
  rewrite zget_nonneg in Hr by lia. rewrite list_lookup_fmap, lookup_seqZ_lt in Hr by lia. simpl in Hr. simplify_eq.
  unfold zlen in Hidb. rewrite length_seqZ in Hidb. split; [lia|].
  rewrite zget_nonneg, lookup_seqZ_lt in Hp by lia. simplify_eq. lia.
Qed.

Lemma demo_slot_get i id : 0 <= i < 8 -> 0 <= id < 4 -> slot demo_sched i id = Some (4 * i + id + 1).
Proof.
  intros Hi Hid. unfold slot.
  change (s_pri_queue demo_sched) with ((fun i => seqZ (4 * i + 1) 4) <$> seqZ 0 8).
  rewrite zget_nonneg by lia. rewrite list_lookup_fmap, lookup_seqZ_lt by lia. simpl.
  rewrite zget_nonneg, lookup_seqZ_lt by lia. f_equal. lia.
Qed.

Lemma demo_tables : tables_ok demo_sched.
Proof.
  split.
  - intros i Hi. apply zget_Some. done.
  - intros i id Hi Hid. eexists. by apply demo_slot_get.
  - intros i id p (Hi & Hid & ->)%demo_slot. unfold ODP_QUEUE_INVALID. lia.
  - intros i id i' id' p (Hi & Hid & ->)%demo_slot (Hi' & Hid' & Hp)%demo_slot. lia.
  - intros i Hi. exists (35 + i).
    change (s_poll_cmd demo_sched) with ((fun i => (35 + i, 0)) <$> seqZ 0 4).
    rewrite zget_nonneg by lia. rewrite list_lookup_fmap, lookup_seqZ_lt by lia. simpl. do 2 f_equal. lia.
Qed.

Lemma demo_hdr b h : bufs demo !! b = Some h -> h = hdr0 NULL 0.
Proof.
  intros Hb. apply elem_of_list_to_map_2, list_elem_of_fmap in Hb as (b' & Heq & _). by simplify_eq.
Qed.

Lemma demo_known q e : queues demo !! q = Some e -> known e -> q = 41 \/ q = 42.
Proof. intros [(-> & _)|[(-> & _)|(_ & ->)]]%demo_lookup; auto. by intros [?|?]. Qed.

Lemma demo_qinv : qinv demo (fun _ => []) (fun _ => []).
Proof.
  split.
  - intros q e [(-> & ->)|[(-> & ->)|(_ & ->)]]%demo_lookup; done.
  - intros q e [(-> & ->)|[(-> & ->)|(_ & ->)]]%demo_lookup; done.
  - intros. constructor.
  - set_solver.
  - intros q e [(-> & ->)|[(-> & ->)|(_ & ->)]]%demo_lookup; done.
  - intros b h ->%demo_hdr. done.
  - intros q e Hq Hst.
    assert (known e) as Hk by (by left). destruct (demo_known q e Hq Hk) as [-> | ->].
    + apply demo_lookup in Hq as [(_ & ->)|[(? & _)|(? & _)]]; [|lia..].
      exists (demo_pri 1), (hdr0 NULL 0). split; [by apply demo_pri_lookup|]. split_and!; try done; [set_solver|].
      intros q' e' [(-> & ->)|[(-> & ->)|(_ & ->)]]%demo_lookup ??; simpl in *; congruence || lia || done.
    + apply demo_lookup in Hq as [(? & _)|[(_ & ->)|(? & _)]]; [lia| |lia].
      exists (demo_pri 2), (hdr0 NULL 0). split; [by apply demo_pri_lookup|]. split_and!; try done; [set_solver|].
      intros q' e' [(-> & ->)|[(-> & ->)|(_ & ->)]]%demo_lookup ??; simpl in *; congruence || lia || done.
Qed.

Lemma demo_registered : registered demo.
Proof.
  split.
  - apply demo_tables.
  - intros i id p (Hi & Hid & ->)%demo_slot. exists (demo_pri (4 * i + id + 1)).
    split; [apply demo_pri_lookup; lia|]. split_and!; try done. by apply (bool_decide_unpack _).
  - intros q e Hq Hk. destruct (demo_known q e Hq Hk) as [-> | ->].
    + apply demo_lookup in Hq as [(_ & ->)|[(? & _)|(? & _)]]; [|lia..]. split_and!; try done.
      * by apply (bool_decide_unpack _).
      * by exists (hdr0 NULL 0).
      * exists 0, 0. by split_and!.
    + apply demo_lookup in Hq as [(? & _)|[(_ & ->)|(? & _)]]; [lia| |lia]. split_and!; try done.
      * by apply (bool_decide_unpack _).
      * by exists (hdr0 NULL 0).
      * exists 0, 1. by split_and!.
Qed.

Lemma demo_sinv : sinv demo (fun _ => []) [].
Proof.
  split; [apply demo_qinv|apply demo_registered|]. split.
  - intros q e Hq Hst. destruct (demo_known q e Hq) as [-> | ->]; [by right|..];
      apply demo_lookup in Hq as [(_ & ->)|[(_ & ->)|(? & _)]]; lia || by vm_compute in Hst.
  - set_solver.
  - set_solver.
  - set_solver.
  - constructor.
Qed.

Lemma demo_thread thr : thread_ok demo (demo_local thr).
Proof. apply thread_ok_idle; [by split|done]. Qed.

Lemma demo_sys_inv : sys_inv demo_system (fun _ => []).
Proof. split; [apply demo_sinv|]. repeat constructor; apply demo_thread. Qed.

Lemma demo_app b : 61 <= b <= 64 -> app_buf demo (fun _ => []) (fun _ => []) b.
Proof.
  intros Hb. split.
  - unfold NULL. lia.
  - exists (hdr0 NULL 0). split; [|done]. assert (b = 61 \/ b = 62 \/ b = 63 \/ b = 64) as [-> |[-> |[-> | ->]]] by lia; done.
  - set_solver.
  - intros q e [(-> & ->)|[(-> & ->)|(_ & ->)]]%demo_lookup; simpl; lia || done.
Qed.

(** One event on the atomic queue. *)
Definition demo_e41 : queue_entry := demo_entry 41 QUEUE_STATUS_NOTSCHED 1 51 ODP_SCHED_SYNC_ATOMIC.
Definition demo_Q : Z -> list Z := kick demo_e41 (upd 41 [61] (fun _ => [])).

Lemma demo_enq : exists s, odp_queue_enq 41 61 demo = Some (0, s) /\ sinv s demo_Q [] /\ frame demo s /\ loc s = demo_local 0.
Proof.
  destruct (put_event demo (fun _ => []) [] 41 demo_e41 61) as (s & Hrun & Hi & Hf & Hl).
  - apply demo_sinv.
  - done.
  - by left.
  - by apply demo_app.
  - set_solver.
  - by right.
  - exists s. split_and!; assumption.
Qed.

Lemma demo_ready s : frame demo s -> loc s = demo_local 0 -> ready s demo_Q (0, 0) 41.
Proof.
  intros Hf Hl. apply (ready_frame demo s); [done|by rewrite Hl|]. split; [done|].
  exists 1, 51, [], demo_e41. split_and!; try done. by left.
Qed.

(** The event is dispatched and the thread keeps the queue. *)
Lemma schedule_correct_witness :
  exists s s', odp_queue_enq 41 61 demo = Some (0, s) /\
    schedule 1 MAX_DEQ s = Some (Out 1 (Some 41) [61], s') /\ held (loc s') = [51].
Proof.
  destruct demo_enq as (s & Hrun & Hi & Hf & Hl). exists s.
  destruct (schedule_correct s demo_Q [] 1) as (_ & _ & Hd).
  - by rewrite Hl.
  - rewrite Hl. apply (thread_ok_frame demo); [done|apply demo_thread].
  - done.
  - rewrite Hl in Hd.
    destruct (Hd eq_refl eq_refl [] (0, 0) (tail (visit_order 0)) 41 eq_refl) as (e & s' & Q' & He & Hsch & _ & _ & Hh & _).
    + intros y q' Hy. by apply not_elem_of_nil in Hy.
    + by apply demo_ready.
    + exists s'. split; [done|].
      destruct (frame_lookup demo s 41 demo_e41 Hf eq_refl) as (e' & He' & Hco). assert (e' = e) as -> by congruence.
      destruct (core_fields _ _ Hco) as (_ & F2 & _ & F4 & F5 & _). rewrite F5 in Hsch. split; [exact Hsch|].
      unfold queue_is_atomic in Hh. rewrite F4, F2 in Hh. exact Hh.
Defined.

Lemma schedule_wait_returns_witness :
  exists s out s', odp_queue_enq 41 61 demo = Some (0, s) /\
    schedule_loop 40 ODP_SCHED_WAIT 1 MAX_DEQ s = Some (out, s') /\ 0 < o_ret out.
Proof.
  destruct demo_enq as (s & Hrun & Hi & Hf & Hl). exists s.
  destruct (frame_lookup demo s 41 demo_e41 Hf eq_refl) as (e & He & Hco).
  destruct (core_fields _ _ Hco) as (_ & F2 & _ & _ & _ & _ & _ & F8 & _).
  destruct (schedule_wait_returns s demo_Q [] 1 41 e 40) as (out & s' & Hs & Hpos & _).
  - done.
  - rewrite Hl. by split.
  - by rewrite Hl.
  - by rewrite Hl.
  - done.
  - apply (all_eligible_frame demo); [|done|by rewrite Hl]. intros q e0 Hq Hk.
    destruct (demo_known q e0 Hq Hk) as [-> | ->]; apply demo_lookup in Hq as [(_ & ->)|[(_ & ->)|(? & _)]]; done || lia.
  - done.
  - apply F8. by left.
  - done.
  - apply not_elem_of_nil.
  - unfold waiting. rewrite Hl, (proj1 (proj2 (fr_rest _ _ Hf))). apply Nat.ltb_lt. vm_compute. reflexivity.
  - exists out, s'. split_and!; assumption.
Defined.

Lemma demo_legal : legal demo_system (C_ENQ 41 61).
Proof.
  exists (fun _ => []), demo_e41. split; [apply demo_sys_inv|]. split; [reflexivity|]. split_and!.
  - by left.
  - by apply demo_app.
  - apply not_elem_of_nil.
Qed.

(** Thread 1 enqueues, thread 0 schedules. *)
Lemma demo_runs :
  exists sy, runs demo_system sy /\ length (sy_threads sy) = 2%nat.
Proof.
  destruct (run_total 1 (C_ENQ 41 61) demo_system (fun _ => [])) as (o1 & sy1 & Q1 & Hr1 & Hi1 & Hl1);
    [apply demo_sys_inv|simpl; lia|apply demo_legal|].
  destruct (run_total 0 (C_SCHEDULE 1) sy1 Q1) as (o2 & sy2 & Q2 & Hr2 & _ & Hl2); [done|rewrite Hl1; simpl; lia|simpl; unfold is_u32; lia|].
  exists sy2. split; [|by rewrite Hl2, Hl1]. apply (runs_step _ sy1 0 (C_SCHEDULE 1) o2); [|simpl; unfold is_u32; lia|exact Hr2].
  apply (runs_step _ demo_system 1 (C_ENQ 41 61) o1); [apply runs_nil|apply demo_legal|exact Hr1].
Qed.

Lemma scheduler_atomic_witness :
  exists sy, runs demo_system sy /\
    (exists out sy', run 1 (C_SCHEDULE 4) sy = Some (out, sy')) /\
    (forall t1 t2 l1 l2, sy_threads sy !! t1 = Some l1 -> sy_threads sy !! t2 = Some l2 ->
       in_context l1 41 -> in_context l2 41 -> t1 = t2).
Proof.
  destruct demo_runs as (sy & Hr & Hl). exists sy. split; [done|].
  destruct (scheduler_atomic demo_system (fun _ => []) sy demo_sys_inv Hr) as (Htot & Hex & _).
  split; [apply Htot; [rewrite Hl; lia|simpl; unfold is_u32; lia]|]. intros t1 t2 l1 l2. apply Hex.
Defined.

Lemma scheduler_keeps_queues_witness :
  exists sy Q, runs demo_system sy /\ qinv (sy_state sy) Q (fun _ => []).
Proof.
  destruct demo_runs as (sy & Hr & Hl). exists sy.
  destruct (scheduler_keeps_queues demo_system (fun _ => []) sy demo_sys_inv Hr) as (Q & Hq & _).
  by exists Q.
Defined.

(** * Groups *)

(** The search stops at the first entry that passes, if there is one. *)
Lemma grp_find_spec n i g test :
  0 <= i ->
  let r := grp_find n i g test in
  (r <> ODP_SCHED_GROUP_INVALID ->
     i <= r < i + Z.of_nat n /\ (exists x, zget g r = Some x /\ test (fst x) = true) /\
     forall j x, i <= j < r -> zget g j = Some x -> test (fst x) = false) /\
  (r = ODP_SCHED_GROUP_INVALID -> i + Z.of_nat n <= zlen g ->
     forall j x, i <= j < i + Z.of_nat n -> zget g j = Some x -> test (fst x) = false).
Proof.
  revert i. induction n as [|n IH]; intros i Hi; simpl; [split; [done|intros; lia]|].
  destruct (zget g i) as [[name m]|] eqn:E.
  2: { split; [done|]. intros _ Hlen. destruct (zget_Some g i) as [x Hx]; [lia|]. congruence. }
  destruct (test name) eqn:Et.
  - split; [|unfold ODP_SCHED_GROUP_INVALID; lia]. intros _. split; [lia|]. split; [by exists (name, m)|]. intros; lia.
  - destruct (IH (i + 1)) as [H1 H2]; [lia|]. split.
    + intros Hr. destruct (H1 Hr) as (Hb & Hx & Hno). split; [lia|]. split; [done|]. intros j x Hj Hz.
      destruct (decide (j = i)) as [->|Hne]; [rewrite E in Hz; by simplify_eq|]. apply (Hno j); [lia|done].
    + intros Hr Hlen j x Hj Hz. destruct (decide (j = i)) as [->|Hne]; [rewrite E in Hz; by simplify_eq|].
      apply (H2 Hr ltac:(lia) j); [lia|done].
Qed.

(** The group of a mask update. *)
Lemma grp_update_spec group f g name mask :
  grp_named g group = Some (name, mask) ->
  grp_update group f g = (0, <[Z.to_nat group := f (name, mask)]> g) /\ 3 <= group < 256 /\
  zget g group = Some (name, mask) /\ name <> EmptyString.
Proof.
  unfold grp_update. intros Hn. rewrite Hn. unfold grp_named in Hn.
  destruct (_ && _) eqn:E; [|done]. zbool. destruct (zget g group) as [[n m]|]; [|done].
  case_bool_decide; [done|]. simplify_eq. split; [done|].
  unfold ODP_CONFIG_SCHED_GRPS, ODP_SCHED_GROUP_NAMED, ODP_SCHED_GROUP_CONTROL in *. by split; [lia|].
Qed.

Lemma grp_named_insert g group name mask :
  zlen g = 256 -> 3 <= group < 256 -> name <> EmptyString ->
  grp_named (<[Z.to_nat group := (name, mask)]> g) group = Some (name, mask).
Proof.
  intros Hg Hb Hn. unfold grp_named.
  rewrite (proj2 (Z.ltb_lt group _)) by (unfold ODP_CONFIG_SCHED_GRPS; lia).
  rewrite Z.geb_leb, (proj2 (Z.leb_le _ group)) by (unfold ODP_SCHED_GROUP_NAMED, ODP_SCHED_GROUP_CONTROL; lia).
  simpl. rewrite zget_insert by lia. rewrite bool_decide_eq_true_2 by done. by rewrite bool_decide_eq_false_2.
Qed.

(** Scheduler groups.  [odp_schedule_group_create] takes the first entry
    without a name behind the three predefined groups, or fails when there is
    none; the new group has exactly the given threads, joining adds threads
    and leaving removes them, and destroying it makes every later call on the
    group fail until the entry is used again. *)
Theorem schedule_groups (g : grp_table) (name : string) (mask group : Z) (g' : grp_table) :
  zlen g = 256 -> name <> EmptyString -> odp_schedule_group_create name mask g = (group, g') ->
  0 <= mask <= sched_mask_all ->
  (group = ODP_SCHED_GROUP_INVALID /\ g' = g /\
   forall j x, 3 <= j < 256 -> zget g j = Some x -> fst x <> EmptyString) \/
  (3 <= group < 256 /\ (exists m, zget g group = Some (EmptyString, m)) /\
   (forall j x, 3 <= j < group -> zget g j = Some x -> fst x <> EmptyString) /\
   (forall j, j <> group -> zget g' j = zget g j) /\
   odp_schedule_group_thrmask group g' = (0, Some mask) /\
   (forall m, 0 <= m <= sched_mask_all ->
      exists g1 g2 m1 m2,
        odp_schedule_group_join group m g' = (0, g1) /\ odp_schedule_group_thrmask group g1 = (0, Some m1) /\
        odp_schedule_group_leave group m g' = (0, g2) /\ odp_schedule_group_thrmask group g2 = (0, Some m2) /\
        (forall t, 0 <= t < 1024 -> Z.testbit m1 t = Z.testbit mask t || Z.testbit m t) /\
        (forall t, 0 <= t < 1024 -> Z.testbit m2 t = Z.testbit mask t && negb (Z.testbit m t))) /\
   (exists g0, odp_schedule_group_destroy group g' = (0, g0) /\
      odp_schedule_group_thrmask group g0 = (-1, None) /\ odp_schedule_group_destroy group g0 = (-1, g0) /\
      odp_schedule_group_join group mask g0 = (-1, g0) /\ odp_schedule_group_leave group mask g0 = (-1, g0))).
Proof.
  intros Hg Hname Hc Hmask. unfold odp_schedule_group_create in Hc.
  set (i := grp_find _ _ g _) in Hc. destruct (i =? ODP_SCHED_GROUP_INVALID) eqn:E; zbool; injection Hc as <- <-.
  { left. split; [done|]. split; [done|]. intros j x Hj Hz.
    apply (bool_decide_eq_false_1 _), (proj2 (grp_find_spec grp_count ODP_SCHED_GROUP_NAMED g _ ltac:(done)) E)
      with (j := j); [|revert Hj|done];
      unfold grp_count, ODP_CONFIG_SCHED_GRPS, ODP_SCHED_GROUP_NAMED, ODP_SCHED_GROUP_CONTROL; lia. }
  right. destruct (proj1 (grp_find_spec grp_count ODP_SCHED_GROUP_NAMED g _ ltac:(done)) E)
    as (Hb & ([n0 m0] & Hz & Ht) & Hfirst). fold i in Hb, Hz, Hfirst.
  apply bool_decide_eq_true_1 in Ht. simpl in Ht. subst n0.
  assert (3 <= i < 256) as Hib.
  { revert Hb. unfold grp_count, ODP_CONFIG_SCHED_GRPS, ODP_SCHED_GROUP_NAMED, ODP_SCHED_GROUP_CONTROL. lia. }
  set (nm := String.substring 0 31 name).
  assert (nm <> EmptyString) as Hnm by (unfold nm; by destruct name).
  set (g' := <[Z.to_nat i := (nm, mask)]> g).
  assert (zlen g' = 256) as Hg' by (unfold g', zlen; rewrite length_insert; exact Hg).
  pose proof (grp_named_insert g i nm mask Hg Hib Hnm) as Hnamed. fold g' in Hnamed.
  split; [done|]. split; [by exists m0|]. split.
  { intros j x Hj Hx. by apply (bool_decide_eq_false_1 _), (Hfirst j). }
  split.
  { intros j Hj. unfold g'. rewrite zget_insert by lia. by rewrite bool_decide_eq_false_2. }
  split; [unfold odp_schedule_group_thrmask; by rewrite Hnamed|]. split.
  - intros m Hm. unfold odp_schedule_group_join, odp_schedule_group_leave.
    destruct (grp_update_spec i (fun x => (fst x, Z.lor (snd x) m)) g' nm mask Hnamed) as (-> & _).
    destruct (grp_update_spec i (fun x => (fst x, snd x & Z.lxor m sched_mask_all)) g' nm mask Hnamed) as (-> & _).
    eexists _, _, _, _. split; [done|]. unfold odp_schedule_group_thrmask.
    rewrite !grp_named_insert by done. split; [done|]. split; [done|]. split; [done|]. split.
    + intros t Ht. apply Z.lor_spec.
    + intros t Ht. rewrite Z.land_spec, Z.lxor_spec. unfold sched_mask_all. rewrite Z.ones_spec_low by lia.
      by rewrite xorb_true_r.
  - unfold odp_schedule_group_destroy. destruct (grp_update_spec i (fun _ => (EmptyString, 0)) g' nm mask Hnamed) as (-> & _).
    eexists. split; [done|]. set (g0 := <[_ := _]> g').
    assert (grp_named g0 i = None) as Hnone.
    { unfold grp_named, g0. rewrite zget_insert by lia. rewrite bool_decide_eq_true_2 by done.
      by destruct (_ && _). }
    unfold odp_schedule_group_thrmask, odp_schedule_group_join, odp_schedule_group_leave, grp_update. by rewrite !Hnone.
Qed.

Lemma schedule_groups_witness :
  exists g', odp_schedule_group_create "workers" 5 (replicate 256 (EmptyString, 0)) = (3, g') /\
    odp_schedule_group_thrmask 3 g' = (0, Some 5).
Proof.
  eexists. split; [reflexivity|].
  destruct (schedule_groups (replicate 256 (EmptyString, 0)) "workers" 5 3 _ eq_refl ltac:(done) eq_refl)
    as [[? _]|(_ & _ & _ & _ & Hm & _)].
  - split; [done|]. by apply (bool_decide_unpack _).
  - done.
  - exact Hm.
Defined.

(** A group created with an empty name keeps its entry free: the next
    group is given the same number, and the threads of the first are
    overwritten. *)
Theorem group_without_name :
  let g := replicate 256 (EmptyString, 0) in
  let '(a, g1) := odp_schedule_group_create EmptyString 1 g in
  let '(b, g2) := odp_schedule_group_create "workers" 2 g1 in
  a = 3 /\ b = 3 /\ odp_schedule_group_thrmask a g1 = (-1, None) /\
  odp_schedule_group_thrmask b g2 = (0, Some 2).
Proof. vm_compute. done. Qed.
(** ** An event behind the head

    Two parallel queues whose commands are on one priority queue. *)
Definition shared_slot : qsys pworld :=
  Qsys (<[42 := demo_entry 42 QUEUE_STATUS_NOTSCHED 1 52 ODP_SCHED_SYNC_PARALLEL]>
       (<[41 := demo_entry 41 QUEUE_STATUS_NOTSCHED 1 51 ODP_SCHED_SYNC_PARALLEL]> demo_queues))
    (bufs demo) (cmds demo) demo_sched (demo_local 0) (PW [] [] []).

(** Both queues are emptied, then queue 42 gets an event.  The first call looks
    at the command of queue 41, which is empty, and returns nothing; the second
    finds the event. *)
Theorem schedule_misses_event :
  fst <$> (exec (C_ENQ 41 61) ;;; exec (C_ENQ 42 62) ;;;
           exec (C_SCHEDULE 1) ;;; exec (C_SCHEDULE 1) ;;; exec (C_ENQ 42 63) ;;;
           first <- exec (C_SCHEDULE 1) ;;
           second <- exec (C_SCHEDULE 1) ;;
           ret (o_ev first, o_ev second)) shared_slot = Some ([], [63]).
Proof. vm_compute. reflexivity. Qed.

End ScheduleSpec.
