(* ===== verification/Locks.v ===== *)
(** Ticket locks, read-write locks and barriers: [odp_ticketlock.c],
    [odp_rwlock.c] and [odp_barrier.c].

    Each is a step function on the shared words and one program counter per
    thread; a step is one atomic access of the source, so that every interleaving
    of the threads is a sequence of steps.  Loads and stores are sequentially
    consistent.  The theorems are about all reachable states. *)

From S2P Require Import Prelude.

Open Scope Z_scope.
Open Scope c_scope.

Module Ticket.

(** What a thread does next; [at_] and [taken] below count tickets without
    wrapping and are read by no step. *)
Inductive tl_pc :=
| Out
| Spin (ticket : Z)
| Held
| Try1 (next at_ : Z)
| Try2 (next at_ : Z)
| Rel (cur : Z).

Record tl_state := TL {
  next_ticket : Z;
  cur_ticket : Z;
  tl_pcs : list tl_pc;
  taken : Z
}.

Definition odp_ticketlock_init (threads : nat) : tl_state := TL 0 0 (replicate threads Out) 0.

Inductive tl_call := LOCK | TRYLOCK.

(** [odp_ticketlock_lock]: take a ticket, then spin. *)
Definition lock_take (i : nat) (s : tl_state) : tl_state :=
  TL (next_ticket s +u32 1) (cur_ticket s) (<[i := Spin (next_ticket s)]> (tl_pcs s)) (taken s + 1).
Definition lock_spin (i : nat) (ticket : Z) (s : tl_state) : tl_state :=
  TL (next_ticket s) (cur_ticket s)
     (if ticket =? cur_ticket s then <[i := Held]> (tl_pcs s) else tl_pcs s) (taken s).

(** [odp_ticketlock_trylock]: two loads and a compare-and-swap. *)
Definition try_load_next (i : nat) (s : tl_state) : tl_state :=
  TL (next_ticket s) (cur_ticket s) (<[i := Try1 (next_ticket s) (taken s)]> (tl_pcs s)) (taken s).
Definition try_load_cur (i : nat) (next at_ : Z) (s : tl_state) : tl_state :=
  TL (next_ticket s) (cur_ticket s)
     (<[i := if next =? cur_ticket s then Try2 next at_ else Out]> (tl_pcs s)) (taken s).
Definition try_cas (i : nat) (next : Z) (s : tl_state) : tl_state :=
  if next_ticket s =? next
  then TL (next +u32 1) (cur_ticket s) (<[i := Held]> (tl_pcs s)) (taken s + 1)
  else TL (next_ticket s) (cur_ticket s) (<[i := Out]> (tl_pcs s)) (taken s).

(** [odp_ticketlock_unlock]: a load and a store. *)
Definition unlock_load (i : nat) (s : tl_state) : tl_state :=
  TL (next_ticket s) (cur_ticket s) (<[i := Rel (cur_ticket s)]> (tl_pcs s)) (taken s).
Definition unlock_store (i : nat) (cur : Z) (s : tl_state) : tl_state :=
  TL (next_ticket s) (cur +u32 1) (<[i := Out]> (tl_pcs s)) (taken s).

Definition tl_step (c : tl_call) (i : nat) (s : tl_state) : option tl_state :=
  match tl_pcs s !! i with
  | None => None
  | Some Out => Some match c with LOCK => lock_take i s | TRYLOCK => try_load_next i s end
  | Some (Spin t) => Some (lock_spin i t s)
  | Some (Try1 n a) => Some (try_load_cur i n a s)
  | Some (Try2 n a) => Some (try_cas i n s)
  | Some Held => Some (unlock_load i s)
  | Some (Rel cur) => Some (unlock_store i cur s)
  end.

Definition odp_ticketlock_is_locked (s : tl_state) : bool := negb (cur_ticket s =? next_ticket s).

(** A thread between the two halves of [trylock] has not slept through 2^32
    tickets. *)
Definition timely (s : tl_state) : Prop :=
  forall i n a, tl_pcs s !! i = Some (Try1 n a) \/ tl_pcs s !! i = Some (Try2 n a) ->
    taken s - a < 2 ^ 32.

(** The states of the runs in which every [trylock] is [timely].  Nothing in the
    code makes it so: [trylock_comes_round] is a run that is not. *)
Inductive tl_reach (threads : nat) : tl_state -> Prop :=
| tl_start : tl_reach threads (odp_ticketlock_init threads)
| tl_next s s' c i :
    tl_reach threads s -> tl_step c i s = Some s' -> timely s' -> tl_reach threads s'.

(** * The invariant

    [N] tickets were taken and [C] turns are over; [own] gives the unwrapped ticket
    of each thread that has one. *)
Definition pc_ok (N C cur : Z) (p : tl_pc) (o : option Z) : Prop :=
  match p with
  | Out => o = None
  | Spin t => exists T, o = Some T /\ t = u32 T /\ C <= T < N
  | Held => o = Some C /\ C < N
  | Rel c => o = Some C /\ C < N /\ c = cur
  | Try1 n a => o = None /\ n = u32 a /\ a <= N
  | Try2 n a => o = None /\ n = u32 a /\ a <= N /\ a <= C
  end.

Definition owned (o : option Z) : Z := match o with Some _ => 1 | None => 0 end.

Record tl_inv (threads : nat) (C : Z) (own : list (option Z)) (s : tl_state) : Prop := {
  ti_next : next_ticket s = u32 (taken s);
  ti_cur : cur_ticket s = u32 C;
  ti_len : length own = threads /\ length (tl_pcs s) = threads;
  ti_pcs : forall i p o, tl_pcs s !! i = Some p -> own !! i = Some o ->
    pc_ok (taken s) C (cur_ticket s) p o;
  ti_inj : forall i j T, own !! i = Some (Some T) -> own !! j = Some (Some T) -> i = j;
  ti_all : forall T, C <= T < taken s -> exists i, own !! i = Some (Some T);
  ti_count : taken s - C = zsum owned own
}.

Lemma ti_pos threads C own s : tl_inv threads C own s -> 0 <= taken s - C <= Z.of_nat threads.
Proof.
  intros [_ _ [Hl _] _ _ _ ->].
  assert (zsum (fun _ => 0) own <= zsum owned own) as H1 by (apply zsum_le; intros [] _; simpl; lia).
  assert (zsum owned own <= zsum (fun _ => 1) own) as H2 by (apply zsum_le; intros [] _; simpl; lia).
  rewrite zsum_const in H1, H2. unfold zlen in *. lia.
Qed.

Lemma ti_own threads C own s i p :
  tl_inv threads C own s -> tl_pcs s !! i = Some p -> exists o, own !! i = Some o.
Proof.
  intros Hinv Hi. destruct (ti_len _ _ _ _ Hinv) as [H1 H2].
  apply lookup_lt_is_Some. rewrite H1, <- H2. by eapply lookup_lt_Some.
Qed.

(** A wrapped ticket identifies the turn it stands for. *)
Lemma turn_unique threads C own s T :
  Z.of_nat threads < 2 ^ 32 -> tl_inv threads C own s -> C <= T < taken s ->
  u32 T = cur_ticket s -> T = C.
Proof.
  intros Hth Hinv HT Heq. pose proof (ti_pos _ _ _ _ Hinv).
  rewrite (ti_cur _ _ _ _ Hinv) in Heq. apply u32_inj_small in Heq; lia.
Qed.

(** One thread moves. *)
Lemma inv_upd threads C C' own s s' i p p' o o' :
  tl_inv threads C own s -> tl_pcs s !! i = Some p -> own !! i = Some o ->
  tl_pcs s' = <[i := p']> (tl_pcs s) ->
  next_ticket s' = u32 (taken s') -> cur_ticket s' = u32 C' ->
  pc_ok (taken s') C' (cur_ticket s') p' o' ->
  (forall j q oq, j <> i -> own !! j = Some oq ->
     pc_ok (taken s) C (cur_ticket s) q oq -> pc_ok (taken s') C' (cur_ticket s') q oq) ->
  (forall T j, o' = Some T -> j <> i -> own !! j <> Some (Some T)) ->
  (forall T, C' <= T < taken s' -> o' = Some T \/ exists j, j <> i /\ own !! j = Some (Some T)) ->
  taken s' - C' = taken s - C - owned o + owned o' ->
  tl_inv threads C' (<[i := o']> own) s'.
Proof.
  intros Hinv Hi Ho Hpcs Hn Hc Hok Hoth Hinj Hall Hcnt.
  destruct (ti_len _ _ _ _ Hinv) as [Hl1 Hl2].
  assert (i < length own)%nat as Hio by (rewrite Hl1, <- Hl2; by eapply lookup_lt_Some).
  split; [done|done|..].
  - by rewrite Hpcs, !length_insert.
  - intros j q oq. rewrite Hpcs. destruct (decide (j = i)) as [->|Hne].
    + rewrite !list_lookup_insert_eq by (done || by eapply lookup_lt_Some). naive_solver.
    + rewrite !list_lookup_insert_ne by done. intros Hq Hoq. apply (Hoth j); try done.
      by apply (ti_pcs _ _ _ _ Hinv j).
  - intros j k T. destruct (decide (j = i)) as [->|Hj], (decide (k = i)) as [->|Hk]; [done|..];
      rewrite ?list_lookup_insert_eq, ?list_lookup_insert_ne by done; intros H1 H2.
    + simplify_eq. exfalso. by apply (Hinj T k).
    + simplify_eq. exfalso. by apply (Hinj T j).
    + by apply (ti_inj _ _ _ _ Hinv j k T).
  - intros T HT. destruct (Hall T HT) as [->|(j & Hj & Hoj)].
    + exists i. by rewrite list_lookup_insert_eq.
    + exists j. by rewrite list_lookup_insert_ne.
  - rewrite (zsum_insert _ _ _ o) by done. rewrite <- (ti_count _ _ _ _ Hinv). lia.
Qed.

(** A thread that keeps its ticket (or keeps having none) moves. *)
Lemma inv_move threads C own s s' i p p' o :
  tl_inv threads C own s -> tl_pcs s !! i = Some p -> own !! i = Some o ->
  tl_pcs s' = <[i := p']> (tl_pcs s) -> next_ticket s' = next_ticket s ->
  cur_ticket s' = cur_ticket s -> taken s' = taken s ->
  pc_ok (taken s) C (cur_ticket s) p' o ->
  tl_inv threads C (<[i := o]> own) s'.
Proof.
  intros Hinv Hi Ho Hpcs Hn Hc Ht Hok. eapply (inv_upd threads C C own s s' i p p' o o); try done.
  - rewrite Hn, Ht. apply (ti_next _ _ _ _ Hinv).
  - rewrite Hc. apply (ti_cur _ _ _ _ Hinv).
  - by rewrite Ht, Hc.
  - intros. by rewrite Ht, Hc.
  - intros T j -> Hj Hoj. apply Hj. by apply (ti_inj _ _ _ _ Hinv j i T).
  - intros T HT. rewrite Ht in HT. destruct (ti_all _ _ _ _ Hinv T HT) as [j Hj].
    destruct (decide (j = i)) as [->|]; [left; congruence|right; eauto].
  - lia.
Qed.

Lemma pc_ok_more N C cur p o : pc_ok N C cur p o -> pc_ok (N + 1) C cur p o.
Proof.
  destruct p; simpl; try lia || naive_solver lia.
Qed.

(** A thread that has no ticket takes the next one. *)
Lemma inv_take threads C own s i p p' :
  tl_inv threads C own s -> tl_pcs s !! i = Some p -> own !! i = Some None ->
  pc_ok (taken s + 1) C (cur_ticket s) p' (Some (taken s)) ->
  tl_inv threads C (<[i := Some (taken s)]> own)
    (TL (next_ticket s +u32 1) (cur_ticket s) (<[i := p']> (tl_pcs s)) (taken s + 1)).
Proof.
  intros Hinv Hi Ho Hok.
  assert (forall j T, own !! j = Some (Some T) -> T < taken s) as Hlt.
  { intros j T Hj. destruct (ti_len _ _ _ _ Hinv) as [Hl1 Hl2].
    destruct (lookup_lt_is_Some_2 (tl_pcs s) j) as [q Hq].
    { rewrite Hl2, <- Hl1. by eapply lookup_lt_Some. }
    pose proof (ti_pcs _ _ _ _ Hinv j q _ Hq Hj) as Hp. destruct q; simpl in Hp; naive_solver lia. }
  eapply (inv_upd threads C C own s); simpl; try done.
  - rewrite (ti_next _ _ _ _ Hinv). by autorewrite with u32.
  - apply (ti_cur _ _ _ _ Hinv).
  - intros. by apply pc_ok_more.
  - intros T j [= <-] _ Hj. specialize (Hlt j _ Hj). lia.
  - intros T HT. destruct (decide (T = taken s)) as [->|Hne]; [by left|right].
    destruct (ti_all _ _ _ _ Hinv T) as [j Hj]; [lia|]. exists j. split; [|done]. intros ->. congruence.
  - simpl. lia.
Qed.

(** The holder passes the lock on. *)
Lemma inv_release threads C own s i cur :
  tl_inv threads C own s -> tl_pcs s !! i = Some (Rel cur) -> own !! i = Some (Some C) ->
  C < taken s -> cur = cur_ticket s ->
  tl_inv threads (C + 1) (<[i := None]> own) (unlock_store i cur s).
Proof.
  intros Hinv Hi Ho HC ->. eapply (inv_upd threads C (C + 1) own s); simpl; try done.
  - apply (ti_next _ _ _ _ Hinv).
  - rewrite (ti_cur _ _ _ _ Hinv). by autorewrite with u32.
  - intros j q oq Hj Hoq Hok.
    assert (oq <> Some C) as Hne by (intros ->; apply Hj; by apply (ti_inj _ _ _ _ Hinv j i C)).
    destruct q; simpl in *; try naive_solver lia.
    destruct Hok as (T & -> & -> & HT). exists T. split_and!; [done..| |lia]. assert (T <> C) by congruence. lia.
  - intros T HT. right. destruct (ti_all _ _ _ _ Hinv T) as [j Hj]; [lia|]. exists j. split; [|done].
    intros ->. rewrite Ho in Hj. simplify_eq. lia.
  - simpl. lia.
Qed.

Lemma tl_init_inv threads : tl_inv threads 0 (replicate threads None) (odp_ticketlock_init threads).
Proof.
  split; simpl; try done.
  - by rewrite !length_replicate.
  - intros i p o [-> _]%lookup_replicate [-> _]%lookup_replicate. done.
  - intros i j T [? _]%lookup_replicate. done.
  - lia.
  - by induction threads as [|n IH]; simpl; [|rewrite <- IH].
Qed.

Lemma tl_step_inv threads C own c i s s' :
  Z.of_nat threads < 2 ^ 32 -> tl_inv threads C own s -> timely s -> tl_step c i s = Some s' ->
  exists C' own', tl_inv threads C' own' s'.
Proof.
  intros Hth Hinv Htm Hstep. unfold tl_step in Hstep.
  destruct (tl_pcs s !! i) as [p|] eqn:Hi; [|done].
  destruct (ti_own _ _ _ _ _ _ Hinv Hi) as [o Ho].
  pose proof (ti_pcs _ _ _ _ Hinv i p o Hi Ho) as Hok. pose proof (ti_pos _ _ _ _ Hinv) as Hpos.
  destruct p as [|t| |n a|n a|cur]; simpl in Hok.
  - subst o. destruct c; injection Hstep as <-; do 2 eexists.
    + eapply inv_take; [done..|]. simpl. exists (taken s). split_and!; [done|apply (ti_next _ _ _ _ Hinv)|lia|lia].
    + eapply inv_move; try done. simpl. split_and!; [done|apply (ti_next _ _ _ _ Hinv)|lia].
  - destruct Hok as (T & -> & -> & HT). injection Hstep as <-. unfold lock_spin.
    destruct (u32 T =? cur_ticket s) eqn:E; zbool.
    + pose proof (turn_unique _ _ _ _ _ Hth Hinv HT E) as ->. do 2 eexists. eapply inv_move; try done.
      simpl. split; [done|lia].
    + exists C, own. destruct s. exact Hinv.
  - injection Hstep as <-. destruct Hok. do 2 eexists. eapply inv_move; try done.
  - injection Hstep as <-. destruct Hok as (-> & -> & Ha). do 2 eexists. eapply inv_move; try done.
    destruct (u32 a =? cur_ticket s) eqn:E; zbool; simpl; [|done]. split_and!; try done.
    rewrite (ti_cur _ _ _ _ Hinv) in E. specialize (Htm i _ _ (or_introl Hi)).
    apply u32_inj_small in E; lia.
  - injection Hstep as <-. destruct Hok as (-> & -> & Ha & HaC). unfold try_cas.
    destruct (next_ticket s =? u32 a) eqn:E; zbool; do 2 eexists.
    + rewrite <- E. eapply inv_take; [done..|]. simpl. rewrite (ti_next _ _ _ _ Hinv) in E.
      specialize (Htm i _ _ (or_intror Hi)). apply u32_inj_small in E; [|lia]. split; [f_equal|]; lia.
    + eapply inv_move; try done.
  - destruct Hok as (-> & HC & ->). injection Hstep as <-. do 2 eexists. by apply inv_release.
Qed.

Lemma tl_reach_inv threads s :
  Z.of_nat threads < 2 ^ 32 -> tl_reach threads s -> timely s /\ exists C own, tl_inv threads C own s.
Proof.
  intros Hth Hr. induction Hr as [|s s' c i Hr [Htm (C & own & Hinv)] Hstep Htm'].
  - split; [|eauto using tl_init_inv]. intros i n a [H|H]; simpl in H; by apply lookup_replicate in H as [? _].
  - split; [done|]. by eapply tl_step_inv.
Qed.

Definition in_section (p : tl_pc) : Prop := match p with Held | Rel _ => True | _ => False end.

(** C14: The ticket lock is exclusive, fair and never stuck, as long as no thread
    sleeps inside [trylock], between its load of the next ticket and its exchange,
    while 2^32 tickets are taken ([timely]; without [trylock] there is no
    condition, with it the lock can have two holders: [trylock_comes_round]).  In
    every state reached by interleaved atomic accesses of fewer than 2^32 threads,
    whatever mix of [lock], [trylock] and [unlock] they run and however often the
    32-bit tickets have wrapped: at most one thread is in the critical section;
    [is_locked] tells whether a ticket is out; if nobody is in the section and
    some thread spins, there is exactly one spinning thread whose ticket is up,
    and its next step enters. *)
Theorem ticketlock_mutex threads s :
  Z.of_nat threads < 2 ^ 32 -> tl_reach threads s ->
  (forall i j p q, tl_pcs s !! i = Some p -> tl_pcs s !! j = Some q ->
     in_section p -> in_section q -> i = j) /\
  ((forall i p, tl_pcs s !! i = Some p -> ~ in_section p) ->
   (exists i t, tl_pcs s !! i = Some (Spin t)) ->
   exists i t, tl_pcs s !! i = Some (Spin t) /\ t = cur_ticket s /\
     (forall j t', tl_pcs s !! j = Some (Spin t') -> t' = cur_ticket s -> j = i) /\
     forall c, exists s', tl_step c i s = Some s' /\ tl_pcs s' !! i = Some Held) /\
  (odp_ticketlock_is_locked s = true <->
   exists i p, tl_pcs s !! i = Some p /\ (in_section p \/ exists t, p = Spin t)).
Proof.
  intros Hth Hr. destruct (tl_reach_inv _ _ Hth Hr) as [Htm (C & own & Hinv)].
  pose proof (ti_pos _ _ _ _ Hinv) as Hpos.
  assert (forall i p, tl_pcs s !! i = Some p -> in_section p -> own !! i = Some (Some C) /\ C < taken s) as Hsec.
  { intros i p Hi Hp. destruct (ti_own _ _ _ _ _ _ Hinv Hi) as [o Ho].
    pose proof (ti_pcs _ _ _ _ Hinv i p o Hi Ho) as Hok. destruct p; simpl in *; try done; naive_solver. }
  assert (forall i t, tl_pcs s !! i = Some (Spin t) -> exists T, own !! i = Some (Some T) /\ t = u32 T /\ C <= T < taken s) as Hspin.
  { intros i t Hi. destruct (ti_own _ _ _ _ _ _ Hinv Hi) as [o Ho].
    pose proof (ti_pcs _ _ _ _ Hinv i _ o Hi Ho) as (T & -> & ? & ?). eauto. }
  assert (forall T, C <= T < taken s -> exists i p, own !! i = Some (Some T) /\ tl_pcs s !! i = Some p /\
            ((in_section p /\ T = C) \/ p = Spin (u32 T))) as Hown.
  { intros T HT. destruct (ti_all _ _ _ _ Hinv T HT) as [i Hi]. destruct (ti_len _ _ _ _ Hinv) as [Hl1 Hl2].
    destruct (lookup_lt_is_Some_2 (tl_pcs s) i) as [q Hq]; [rewrite Hl2, <- Hl1; by eapply lookup_lt_Some|].
    exists i, q. split_and!; [done..|]. pose proof (ti_pcs _ _ _ _ Hinv i q _ Hq Hi) as Hok.
    destruct q; simpl in Hok; naive_solver. }
  split_and!.
  - intros i j p q Hi Hj Hp Hq. apply (ti_inj _ _ _ _ Hinv i j C); by eapply Hsec.
  - intros Hfree (i0 & t0 & Hi0). destruct (Hspin _ _ Hi0) as (T0 & _ & _ & HT0).
    destruct (Hown C) as (i & p & Hoi & Hi & [[Hp _]| ->]); [lia|by destruct (Hfree i p Hi)|].
    rewrite <- (ti_cur _ _ _ _ Hinv) in Hi. exists i, (cur_ticket s). split_and!; try done.
    + intros j t' Hj ->. destruct (Hspin _ _ Hj) as (T & Hoj & HeqT & HT).
      pose proof (turn_unique _ _ _ _ _ Hth Hinv HT (eq_sym HeqT)) as ->. by apply (ti_inj _ _ _ _ Hinv j i C).
    + intros c. unfold tl_step. rewrite Hi. eexists. split; [done|]. simpl. rewrite Z.eqb_refl.
      apply list_lookup_insert_eq. by eapply lookup_lt_Some.
  - unfold odp_ticketlock_is_locked. rewrite negb_true_iff, Z.eqb_neq, (ti_cur _ _ _ _ Hinv), (ti_next _ _ _ _ Hinv).
    split.
    + intros Hne. destruct (Hown C) as (i & p & _ & Hi & Hp); [|exists i, p; naive_solver].
      destruct (decide (C = taken s)) as [->|]; [done|lia].
    + intros (i & p & Hi & [Hp|[t ->]]) Heq; [apply Hsec in Hi as [_ ?]; [|done]|apply Hspin in Hi as (T & _ & _ & ?)];
        apply u32_inj_small in Heq; lia.
Qed.

(** Runs of the step function. *)
Definition timelyb (s : tl_state) : bool :=
  forallb (fun p => match p with Try1 _ a | Try2 _ a => taken s - a <? 2 ^ 32 | _ => true end) (tl_pcs s).

Fixpoint tl_run (l : list (tl_call * nat)) (s : tl_state) : option tl_state :=
  match l with
  | [] => Some s
  | (c, i) :: l => s' ← tl_step c i s; if timelyb s' then tl_run l s' else None
  end.

Lemma timelyb_ok s : timelyb s = true -> timely s.
Proof.
  unfold timelyb. rewrite forallb_forall. intros H i n a [Hi|Hi];
    apply list_elem_of_lookup_2, list_elem_of_In, H in Hi; by zbool.
Qed.

Lemma tl_run_reach threads l s s' : tl_reach threads s -> tl_run l s = Some s' -> tl_reach threads s'.
Proof.
  revert s. induction l as [|[c i] l IH]; intros s Hr Hrun; simpl in Hrun; [congruence|].
  destruct (tl_step c i s) as [s1|] eqn:E; simpl in Hrun; [|done].
  destruct (timelyb s1) eqn:Et; [|done]. eapply IH; [|done]. econstructor; [done..|by apply timelyb_ok].
Qed.

(** Thread 0 locks and unlocks, thread 1 queues behind it, thread 2 tries in vain:
    it is thread 1's turn. *)
Lemma ticketlock_mutex_witness :
  exists s i t, tl_reach 3 s /\ tl_pcs s !! i = Some (Spin t) /\ t = cur_ticket s.
Proof.
  destruct (tl_run [(LOCK, 0%nat); (LOCK, 0%nat); (LOCK, 1%nat); (TRYLOCK, 2%nat); (TRYLOCK, 2%nat);
                    (LOCK, 0%nat); (LOCK, 0%nat)] (odp_ticketlock_init 3)) as [s|] eqn:E; [|by vm_compute in E].
  assert (tl_reach 3 s) as Hr by (eapply tl_run_reach; [apply tl_start|exact E]).
  destruct (ticketlock_mutex 3 s) as (_ & H & _); [done|done|].
  vm_compute in E. injection E as <-.
  destruct H as (i & t & Hi & Ht & _).
  - intros [|[|[|i]]] p Hp; simplify_eq/=; by intros ?.
  - by exists 1%nat, 1.
  - eexists. exists i, t. split; [exact Hr|]. by split.
Defined.

(** ** A trylock that sleeps

    Any interleaving, timely or not. *)
Definition tl_any (s s' : tl_state) : Prop := exists c i, tl_step c i s = Some s'.

(** Thread 1 locks and unlocks while thread 0 stays where it is. *)
Lemma tl_turn x n p :
  rtc tl_any (TL x x [p; Out] n) (TL (x +u32 1) (x +u32 1) [p; Out] (n + 1)).
Proof.
  eapply rtc_l; [by exists LOCK, 1%nat|]. unfold lock_take. simpl.
  eapply rtc_l; [by exists LOCK, 1%nat|]. unfold lock_spin. simpl. rewrite Z.eqb_refl.
  eapply rtc_l; [by exists LOCK, 1%nat|]. unfold unlock_load. simpl.
  eapply rtc_l; [by exists LOCK, 1%nat|]. unfold unlock_store. simpl. constructor.
Qed.

Lemma tl_turns p m :
  rtc tl_any (TL 0 0 [p; Out] 0)
    (TL (u32 (Z.of_nat m)) (u32 (Z.of_nat m)) [p; Out] (Z.of_nat m)).
Proof.
  induction m as [|m IH]; [constructor|]. etrans; [exact IH|].
  replace (Z.of_nat (S m)) with (Z.of_nat m + 1) by lia. rewrite <- u32_add_l. apply tl_turn.
Qed.

(** The exchange of [odp_ticketlock_trylock] does not notice that the tickets
    have come round: thread 0 sleeps in front of it while thread 1 takes the lock
    2^32 times, and both hold it. *)
Theorem trylock_comes_round :
  exists s, rtc tl_any (odp_ticketlock_init 2) s /\
    tl_pcs s !! 0%nat = Some Held /\ tl_pcs s !! 1%nat = Some Held.
Proof.
  eexists. split.
  - eapply rtc_l; [by exists TRYLOCK, 0%nat|]. unfold try_load_next. simpl.
    eapply rtc_l; [by exists TRYLOCK, 0%nat|]. unfold try_load_cur. simpl.
    etrans; [apply (tl_turns _ (Z.to_nat (2 ^ 32 - 1)))|]. rewrite Z2Nat.id by lia.
    eapply rtc_l; [by exists LOCK, 1%nat|]. unfold lock_take. simpl.
    eapply rtc_l; [by exists LOCK, 1%nat|]. unfold lock_spin. simpl.
    eapply rtc_l; [by exists TRYLOCK, 0%nat|]. unfold try_cas. simpl. constructor.
  - split; reflexivity.
Qed.

End Ticket.

Module RwLock.

Inductive rw_pc := ROut | RLoad | RCas (cnt : Z) | Reading | WLoad | WCas | Writing.

#[export] Instance rw_pc_eq_dec : EqDecision rw_pc.
Proof. solve_decision. Defined.

Record rw_state := RW { cnt : Z; rw_pcs : list rw_pc }.

Definition odp_rwlock_init (threads : nat) : rw_state := RW 0 (replicate threads ROut).

Definition set_pc (i : nat) (p : rw_pc) (s : rw_state) : rw_state := RW (cnt s) (<[i := p]> (rw_pcs s)).
Definition put (i : nat) (c : Z) (p : rw_pc) (s : rw_state) : rw_state := RW c (<[i := p]> (rw_pcs s)).

(** [odp_rwlock_read_lock]: the load with its test, and the compare-and-swap. *)
Definition read_load (i : nat) (s : rw_state) : rw_state :=
  if s32 (cnt s) <? 0 then set_pc i RLoad s else set_pc i (RCas (cnt s)) s.
Definition read_cas (i : nat) (c : Z) (s : rw_state) : rw_state :=
  if cnt s =? c then put i (c +u32 1) Reading s else set_pc i RLoad s.
Definition odp_rwlock_read_unlock (i : nat) (s : rw_state) : rw_state := put i (cnt s -u32 1) ROut s.

(** [odp_rwlock_write_lock] *)
Definition write_load (i : nat) (s : rw_state) : rw_state :=
  if negb (cnt s =? 0) then set_pc i WLoad s else set_pc i WCas s.
Definition write_cas (i : nat) (s : rw_state) : rw_state :=
  if cnt s =? 0 then put i (u32 (-1)) Writing s else set_pc i WLoad s.
Definition odp_rwlock_write_unlock (i : nat) (s : rw_state) : rw_state := put i 0 ROut s.

Inductive rw_call := READ | WRITE.

Definition rw_step (c : rw_call) (i : nat) (s : rw_state) : option rw_state :=
  match rw_pcs s !! i with
  | None => None
  | Some ROut => Some (set_pc i (match c with READ => RLoad | WRITE => WLoad end) s)
  | Some RLoad => Some (read_load i s)
  | Some (RCas v) => Some (read_cas i v s)
  | Some Reading => Some (odp_rwlock_read_unlock i s)
  | Some WLoad => Some (write_load i s)
  | Some WCas => Some (write_cas i s)
  | Some Writing => Some (odp_rwlock_write_unlock i s)
  end.

Inductive rw_reach (threads : nat) : rw_state -> Prop :=
| rw_start : rw_reach threads (odp_rwlock_init threads)
| rw_next s s' c i : rw_reach threads s -> rw_step c i s = Some s' -> rw_reach threads s'.

Definition is_reading (p : rw_pc) : Z := match p with Reading => 1 | _ => 0 end.
Definition is_writing (p : rw_pc) : Z := match p with Writing => 1 | _ => 0 end.
Definition readers (s : rw_state) : Z := zsum is_reading (rw_pcs s).
Definition writers (s : rw_state) : Z := zsum is_writing (rw_pcs s).

Record rw_inv (threads : nat) (s : rw_state) : Prop := {
  ri_len : length (rw_pcs s) = threads;
  ri_cas : forall i v, rw_pcs s !! i = Some (RCas v) -> 0 <= v < 2 ^ 31;
  ri_cnt : (writers s = 0 /\ cnt s = readers s) \/
           (writers s = 1 /\ readers s = 0 /\ cnt s = 2 ^ 32 - 1)
}.

Lemma count_bounds (f : rw_pc -> Z) l : (forall p, 0 <= f p <= 1) -> 0 <= zsum f l <= zlen l.
Proof.
  intros Hf. pose proof (zsum_le (fun _ => 0) f l ltac:(intros; apply Hf)) as H1.
  pose proof (zsum_le f (fun _ => 1) l ltac:(intros; apply Hf)) as H2. rewrite zsum_const in H1, H2. lia.
Qed.

Lemma readers_bounds threads s : rw_inv threads s -> 0 <= readers s <= Z.of_nat threads.
Proof.
  intros [Hl _ _]. pose proof (count_bounds is_reading (rw_pcs s) ltac:(intros []; simpl; lia)) as H.
  unfold zlen in H. unfold readers. lia.
Qed.

(** One thread moves from [p] to [p'] and leaves [c] in the word. *)
Lemma rw_put_inv threads s i p p' c :
  rw_inv threads s -> rw_pcs s !! i = Some p ->
  (forall v, p' = RCas v -> 0 <= v < 2 ^ 31) ->
  (let w := writers s - is_writing p + is_writing p' in
   let r := readers s - is_reading p + is_reading p' in
   (w = 0 /\ c = r) \/ (w = 1 /\ r = 0 /\ c = 2 ^ 32 - 1)) ->
  rw_inv threads (put i c p' s).
Proof.
  intros Hinv Hi Hcas Hc. split; simpl.
  - rewrite length_insert. apply Hinv.
  - intros j v. destruct (decide (j = i)) as [->|Hne].
    + rewrite list_lookup_insert_eq by (by eapply lookup_lt_Some). intros [= ->]. by apply Hcas.
    + rewrite list_lookup_insert_ne by done. apply (ri_cas _ _ Hinv).
  - unfold writers, readers. simpl. rewrite !(zsum_insert _ _ _ p) by done. exact Hc.
Qed.

Lemma rw_step_inv threads c i s s' :
  Z.of_nat threads < 2 ^ 31 -> rw_inv threads s -> rw_step c i s = Some s' -> rw_inv threads s'.
Proof.
  intros Hth Hinv Hstep. unfold rw_step in Hstep.
  pose proof (readers_bounds _ _ Hinv) as Hr. pose proof (ri_cnt _ _ Hinv) as Hc.
  assert (forall j p, rw_pcs s !! j = Some p -> is_reading p <= readers s /\ is_writing p <= writers s) as Hle.
  { intros j p Hj. split; eapply (zsum_elem _ _ j); try done; intros [] _; simpl; lia. }
  assert (forall p p', rw_pcs s !! i = Some p -> (forall v, p' = RCas v -> 0 <= v < 2 ^ 31) ->
            is_reading p = is_reading p' -> is_writing p = is_writing p' ->
            rw_inv threads (set_pc i p' s)) as Hmove.
  { intros p p' Hp Hv H1 H2. apply (rw_put_inv threads s i p p' (cnt s)); try done. simpl. rewrite H1, H2. lia. }
  destruct (rw_pcs s !! i) as [p|] eqn:Hi; [|done]. destruct (Hle i p Hi) as [Hp1 Hp2].
  destruct p as [| |v| | | |]; injection Hstep as <-; simpl in Hp1, Hp2.
  - destruct c; by apply (Hmove ROut).
  - unfold read_load. destruct (s32 (cnt s) <? 0) eqn:E; zbool; apply (Hmove RLoad); try done.
    intros v [= <-]. destruct Hc as [(_ & ->)|(_ & _ & Hc)]; [lia|]. rewrite Hc in E. by vm_compute in E.
  - unfold read_cas. destruct (cnt s =? v) eqn:E; zbool; [|by apply (Hmove (RCas v))].
    pose proof (ri_cas _ _ Hinv i v Hi). eapply (rw_put_inv _ _ _ (RCas v)); try done. simpl.
    left. destruct Hc as [(Hw & Hc)|(_ & _ & Hc)]; [|lia]. split; [lia|]. rewrite u32_small; [lia|]. cint.
  - eapply (rw_put_inv _ _ _ Reading); try done. simpl. left.
    destruct Hc as [(Hw & Hc)|(_ & Hc & _)]; [|lia]. split; [lia|]. rewrite u32_small; [lia|]. cint.
  - unfold write_load. destruct (cnt s =? 0); by apply (Hmove WLoad).
  - unfold write_cas. destruct (cnt s =? 0) eqn:E; zbool; [|by apply (Hmove WCas)].
    eapply (rw_put_inv _ _ _ WCas); try done. simpl. right.
    destruct Hc as [(Hw & Hc)|(_ & _ & Hc)]; [|lia]. split_and!; [lia|lia|done].
  - eapply (rw_put_inv _ _ _ Writing); try done. simpl. left.
    destruct Hc as [(Hw & Hc)|(Hw & Hc & _)]; lia.
Qed.

Lemma rw_init_inv threads : rw_inv threads (odp_rwlock_init threads).
Proof.
  split; simpl.
  - by rewrite length_replicate.
  - intros i v [? _]%lookup_replicate. done.
  - left. unfold writers, readers. simpl. induction threads as [|n IH]; simpl; [done|]. simpl in *. lia.
Qed.

Lemma rw_reach_inv threads s : Z.of_nat threads < 2 ^ 31 -> rw_reach threads s -> rw_inv threads s.
Proof. intros Hth Hr. induction Hr; eauto using rw_init_inv, rw_step_inv. Qed.

(** Nobody else reads or writes while thread [i] writes. *)
Lemma writing_alone threads s i j p :
  rw_inv threads s -> rw_pcs s !! i = Some Writing -> rw_pcs s !! j = Some p -> p = Reading \/ p = Writing -> j = i.
Proof.
  intros Hinv Hi Hj Hp. pose proof (ri_cnt _ _ Hinv) as Hc. unfold writers, readers in Hc.
  pose proof (zsum_elem is_writing (rw_pcs s) i _ ltac:(intros [] _; simpl; lia) Hi) as Hw.
  destruct (decide (j = i)) as [|Hne]; [done|]. exfalso. simpl in Hw. destruct Hp as [-> | ->].
  - pose proof (zsum_elem is_reading (rw_pcs s) j _ ltac:(intros [] _; simpl; lia) Hj) as Hrd. simpl in Hrd. lia.
  - pose proof (zsum_elem2 is_writing (rw_pcs s) i j _ _ ltac:(intros [] _; simpl; lia) (not_eq_sym Hne) Hi Hj) as H2.
    simpl in H2. lia.
Qed.

(** Without a writer the word counts the readers. *)
Lemma word_counts_readers threads s :
  rw_inv threads s -> (forall i, rw_pcs s !! i <> Some Writing) -> cnt s = readers s.
Proof.
  intros Hinv Hno. destruct (ri_cnt _ _ Hinv) as [[_ ?]|(Hw & _)]; [done|]. exfalso.
  assert (zsum is_writing (rw_pcs s) <= zsum (fun _ => 0) (rw_pcs s)) as H0.
  { apply zsum_le. intros p [i Hi]%list_elem_of_lookup. destruct p; simpl; try lia. by destruct (Hno i). }
  rewrite zsum_const in H0. unfold writers in Hw. lia.
Qed.

(** A word of 0: nobody reads or writes. *)
Lemma word_zero_idle threads s i p :
  rw_inv threads s -> cnt s = 0 -> rw_pcs s !! i = Some p -> p <> Reading /\ p <> Writing.
Proof.
  intros Hinv H0 Hi. pose proof (ri_cnt _ _ Hinv) as Hc. unfold writers, readers in Hc.
  pose proof (zsum_elem is_reading (rw_pcs s) i _ ltac:(intros [] _; simpl; lia) Hi) as Hr.
  pose proof (zsum_elem is_writing (rw_pcs s) i _ ltac:(intros [] _; simpl; lia) Hi) as Hw.
  split; intros ->; simpl in *; lia.
Qed.

(** C15: The read-write lock keeps writers apart from everybody.  In every reachable
    state with fewer than 2^31 threads at most one thread writes, nobody reads
    while it does, and otherwise the word counts the readers; and when the lock is
    free, a thread that wants it gets it by its next two steps. *)
Theorem rwlock_exclusion threads s :
  Z.of_nat threads < 2 ^ 31 -> rw_reach threads s ->
  (forall i j p, rw_pcs s !! i = Some Writing -> rw_pcs s !! j = Some p -> p = Reading \/ p = Writing -> j = i) /\
  ((forall i, rw_pcs s !! i <> Some Writing) -> cnt s = readers s) /\
  (cnt s = 0 -> forall i c c',
     (rw_pcs s !! i = Some RLoad ->
      exists s1 s2, rw_step c i s = Some s1 /\ rw_step c' i s1 = Some s2 /\ rw_pcs s2 !! i = Some Reading) /\
     (rw_pcs s !! i = Some WLoad ->
      exists s1 s2, rw_step c i s = Some s1 /\ rw_step c' i s1 = Some s2 /\ rw_pcs s2 !! i = Some Writing)).
Proof.
  intros Hth Hr. pose proof (rw_reach_inv _ _ Hth Hr) as Hinv. split_and!.
  - intros i j p. by apply (writing_alone threads).
  - by apply (word_counts_readers threads).
  - intros H0 i c c'. split; intros Hi; assert (i < length (rw_pcs s))%nat as Hlt by (by eapply lookup_lt_Some);
      unfold rw_step at 1; rewrite Hi; do 2 eexists; (split; [done|]).
    + unfold read_load. rewrite H0. simpl. unfold rw_step. simpl. rewrite list_lookup_insert_eq by done.
      split; [done|]. unfold read_cas. simpl. rewrite H0. simpl. apply list_lookup_insert_eq. by rewrite length_insert.
    + unfold write_load. rewrite H0. simpl. unfold rw_step. simpl. rewrite list_lookup_insert_eq by done.
      split; [done|]. unfold write_cas. simpl. rewrite H0. simpl. apply list_lookup_insert_eq. by rewrite length_insert.
Qed.

Fixpoint rw_run (l : list (rw_call * nat)) (s : rw_state) : option rw_state :=
  match l with
  | [] => Some s
  | (c, i) :: l => s' ← rw_step c i s; rw_run l s'
  end.

Lemma rw_run_reach threads l s s' : rw_reach threads s -> rw_run l s = Some s' -> rw_reach threads s'.
Proof.
  revert s. induction l as [|[c i] l IH]; intros s Hr Hrun; simpl in Hrun; [congruence|].
  destruct (rw_step c i s) as [s1|] eqn:E; simpl in Hrun; [|done]. eapply IH; [|done]. by econstructor.
Qed.

(** Two readers hold the lock while a writer waits. *)
Lemma rwlock_exclusion_witness : exists s, rw_reach 3 s /\ cnt s = readers s /\ readers s = 2.
Proof.
  destruct (rw_run [(READ, 0%nat); (READ, 1%nat); (WRITE, 2%nat); (READ, 0%nat); (READ, 0%nat); (READ, 1%nat);
                    (READ, 1%nat); (WRITE, 2%nat)] (odp_rwlock_init 3)) as [s|] eqn:E; [|by vm_compute in E].
  assert (rw_reach 3 s) as Hr by (eapply rw_run_reach; [apply rw_start|exact E]).
  exists s. split; [done|]. vm_compute in E. injection E as <-. split; [|done].
  apply (rwlock_exclusion 3); [done|done|]. by intros [|[|[|i]]].
Defined.

End RwLock.

Module Barrier.

Inductive bar_pc := BOut | BWait (wasless : bool) | BWrap.

(** A thread: where it is, and how many times it has entered and left
    [odp_barrier_wait] (the last two are read by no step). *)
Record bar_thread := BT { b_pc : bar_pc; entered : Z; left_ : Z }.

(** [odp_barrier_t] and the threads. *)
Record bar_state := BS { bar_count : Z; bar : Z; bar_thr : list bar_thread }.

Definition odp_barrier_init (count : Z) : bar_state :=
  BS count 0 (replicate (Z.to_nat count) (BT BOut 0 0)).

Definition set_thr (i : nat) (b : Z) (t : bar_thread) (s : bar_state) : bar_state :=
  BS (bar_count s) b (<[i := t]> (bar_thr s)).

(** [odp_barrier_wait]: the fetch-and-increment with the branch on its result, *)
Definition bar_enter (i : nat) (t : bar_thread) (s : bar_state) : bar_state :=
  let count := bar s in
  set_thr i (bar s +u32 1)
    (BT (if count =? (2 *u32 bar_count s) -u32 1 then BWrap else BWait (count <? bar_count s))
       (entered t + 1) (left_ t)) s.
(** the spin loop, *)
Definition bar_spin (i : nat) (wasless : bool) (t : bar_thread) (s : bar_state) : bar_state :=
  if Bool.eqb (bar s <? bar_count s) wasless then s
  else set_thr i (bar s) (BT BOut (entered t) (left_ t + 1)) s.
(** and the wrap-around of the last thread of the cycle. *)
Definition bar_wrap (i : nat) (t : bar_thread) (s : bar_state) : bar_state :=
  set_thr i (bar s -u32 (2 *u32 bar_count s)) (BT BOut (entered t) (left_ t + 1)) s.

Definition bar_step (i : nat) (s : bar_state) : option bar_state :=
  t ← bar_thr s !! i;
  Some match b_pc t with
       | BOut => bar_enter i t s
       | BWait w => bar_spin i w t s
       | BWrap => bar_wrap i t s
       end.

Inductive bar_reach (count : Z) : bar_state -> Prop :=
| bar_start : bar_reach count (odp_barrier_init count)
| bar_next s s' i : bar_reach count s -> bar_step i s = Some s' -> bar_reach count s'.

(** * The invariant: [p] rounds are complete and [r] threads have entered the next. *)

Definition thr_ok (p : Z) (t : bar_thread) : Prop :=
  match b_pc t with
  | BOut => entered t = p /\ left_ t = p
  | BWait w => left_ t = entered t - 1 /\ (entered t = p \/ entered t = p + 1) /\ w = Z.odd (entered t)
  | BWrap => entered t = p /\ left_ t = p - 1
  end.

Definition wraps (t : bar_thread) : Z := match b_pc t with BWrap => 1 | _ => 0 end.

Definition half (p : Z) : Z := if Z.odd p then 1 else 0.

Record bar_inv (N p r : Z) (s : bar_state) : Prop := {
  bi_count : bar_count s = N;
  bi_len : zlen (bar_thr s) = N;
  bi_p : 0 <= p /\ 0 <= r < N;
  bi_thr : forall t, t ∈ bar_thr s -> thr_ok p t;
  bi_sum : zsum (fun t => entered t - p) (bar_thr s) = r;
  bi_bar : bar s = 2 * N * zsum wraps (bar_thr s) + half p * N + r;
  bi_wrap : zsum wraps (bar_thr s) = 0 \/
    (zsum wraps (bar_thr s) = 1 /\ r = 0 /\ Z.odd p = false /\
     forall t, t ∈ bar_thr s -> b_pc t <> BOut)
}.

Lemma half_succ p : half (p + 1) = 1 - half p.
Proof. unfold half. rewrite Z.add_1_r, Z.odd_succ, <- Z.negb_odd. by destruct (Z.odd p). Qed.

Lemma half_cases p : half p = 0 \/ half p = 1.
Proof. unfold half. destruct (Z.odd p); auto. Qed.

Lemma elem_of_insert_thr (l : list bar_thread) i t t' : t ∈ <[i := t']> l -> t = t' \/ t ∈ l.
Proof.
  intros [j Hj]%list_elem_of_lookup. destruct (decide (j = i)) as [->|Hne].
  - apply list_lookup_insert_Some in Hj as [(_ & -> & _)|(? & _)]; auto; done.
  - rewrite list_lookup_insert_ne in Hj by done. right. by eapply list_elem_of_lookup_2.
Qed.

Section steps.
Context (N p r : Z) (s : bar_state) (HN : 0 < N < 2 ^ 30) (Hinv : bar_inv N p r s).

Lemma entered_le t : t ∈ bar_thr s -> entered t - p <= 1.
Proof using Hinv.
  intros Ht. pose proof (bi_thr _ _ _ _ Hinv t Ht) as Hok. unfold thr_ok in Hok.
  destruct (b_pc t); lia.
Qed.

Lemma no_wrap_if_out t : t ∈ bar_thr s -> b_pc t = BOut -> zsum wraps (bar_thr s) = 0.
Proof using Hinv. intros Ht Hpc. destruct (bi_wrap _ _ _ _ Hinv) as [|(_ & _ & _ & H)]; [done|]. by destruct (H t). Qed.

(** A thread enters: round [p + 1] has one more thread, or is complete. *)
Lemma enter_inv i t :
  bar_thr s !! i = Some t -> b_pc t = BOut -> exists p' r', bar_inv N p' r' (bar_enter i t s).
Proof using HN Hinv.
  intros Hi Hpc. assert (t ∈ bar_thr s) as Ht by (by eapply list_elem_of_lookup_2).
  pose proof (no_wrap_if_out t Ht Hpc) as Hw0. pose proof (bi_bar _ _ _ _ Hinv) as Hbar. rewrite Hw0 in Hbar.
  pose proof (bi_thr _ _ _ _ Hinv t Ht) as Hok. unfold thr_ok in Hok. rewrite Hpc in Hok. destruct Hok as [He Hl].
  destruct (bi_p _ _ _ _ Hinv) as [Hp Hr]. pose proof (half_cases p) as Hh.
  assert (bar s +u32 1 = bar s + 1) as Hu by (apply u32_small; cint).
  assert ((2 *u32 N) -u32 1 = 2 * N - 1) as Hu2 by (rewrite (u32_small (2 * N)) by cint; apply u32_small; cint).
  unfold bar_enter, set_thr. rewrite (bi_count _ _ _ _ Hinv), Hu, Hu2, He, Hl.
  set (pc' := if bar s =? 2 * N - 1 then BWrap else BWait (bar s <? N)).
  set (t' := BT pc' (p + 1) p).
  assert (zsum (fun t => entered t - p) (<[i := t']> (bar_thr s)) = r + 1) as Hsum.
  { rewrite (zsum_insert _ _ _ t) by done. rewrite (bi_sum _ _ _ _ Hinv). simpl. lia. }
  assert (zsum wraps (<[i := t']> (bar_thr s)) = if bar s =? 2 * N - 1 then 1 else 0) as Hwr.
  { rewrite (zsum_insert _ _ _ t), Hw0 by done. unfold wraps. rewrite Hpc. subst t' pc'. simpl.
    by destruct (bar s =? 2 * N - 1). }
  assert ((bar s <? N) = Z.odd (p + 1)) as Hodd.
  { rewrite Hbar, Z.add_1_r, Z.odd_succ, <- Z.negb_odd. unfold half.
    destruct (Z.odd p); [apply Z.ltb_ge|apply Z.ltb_lt]; lia. }
  assert (zlen (<[i := t']> (bar_thr s)) = N) as Hlen.
  { unfold zlen. rewrite length_insert. apply (bi_len _ _ _ _ Hinv). }
  destruct (decide (r + 1 = N)) as [Hfull|Hmore].
  - assert (forall u, u ∈ <[i := t']> (bar_thr s) -> entered u - p = 1) as Hall.
    { apply zsum_full; [|lia]. intros u [->|Hu']%elem_of_insert_thr; [simpl; lia|by apply entered_le]. }
    assert (forall u, u ∈ <[i := t']> (bar_thr s) -> b_pc u <> BOut /\ thr_ok (p + 1) u) as Hin.
    { intros u Hu'. specialize (Hall u Hu'). apply elem_of_insert_thr in Hu' as [->|Hu'].
      - subst t' pc'. unfold thr_ok. simpl. rewrite Hodd. destruct (bar s =? 2 * N - 1); split_and!; done || lia.
      - pose proof (bi_thr _ _ _ _ Hinv u Hu') as Hok'. unfold thr_ok in *.
        destruct (b_pc u) eqn:Hpu; [lia| |lia]. split_and!; done || lia || apply Hok'. }
    exists (p + 1), 0. split; simpl; try done; try lia.
    + intros u Hu'. by apply Hin.
    + change (fun t0 => entered t0 - (p + 1)) with (fun t0 => entered t0 - (p + 1)).
      rewrite zsum_sub, zsum_const, Hlen. rewrite zsum_sub, zsum_const, Hlen in Hsum. lia.
    + rewrite Hwr, half_succ. destruct (bar s =? 2 * N - 1) eqn:E; zbool; nia.
    + rewrite Hwr. destruct (bar s =? 2 * N - 1) eqn:E; zbool; [right|by left]. split_and!; try done.
      * rewrite <- Hodd. apply Z.ltb_ge. lia.
      * intros u Hu'. by apply Hin.
  - assert (bar s <> 2 * N - 1) as Hnw by nia.
    assert (pc' = BWait (bar s <? N)) as Hpc' by (subst pc'; by rewrite (proj2 (Z.eqb_neq _ _) Hnw)).
    rewrite (proj2 (Z.eqb_neq _ _) Hnw) in Hwr.
    exists p, (r + 1). split; simpl; try done; try lia.
    + intros u [->|Hu']%elem_of_insert_thr; [|by apply (bi_thr _ _ _ _ Hinv)].
      subst t'. rewrite Hpc'. unfold thr_ok. simpl. split_and!; [lia|lia|done].
Qed.

(** A thread leaves round [p]. *)
Lemma leave_inv i t b :
  bar_thr s !! i = Some t -> b_pc t <> BOut -> entered t = p -> left_ t = p - 1 ->
  zsum wraps (bar_thr s) = wraps t -> b = half p * N + r ->
  bar_inv N p r (set_thr i b (BT BOut (entered t) (left_ t + 1)) s).
Proof using Hinv.
  intros Hi Hpc He Hl Hw ->. set (t' := BT _ _ _).
  assert (zsum wraps (<[i := t']> (bar_thr s)) = 0) as Hw'.
  { rewrite (zsum_insert _ _ _ t) by done. rewrite Hw. simpl. unfold wraps. simpl. lia. }
  split; simpl.
  - apply (bi_count _ _ _ _ Hinv).
  - unfold zlen. rewrite length_insert. apply (bi_len _ _ _ _ Hinv).
  - apply (bi_p _ _ _ _ Hinv).
  - intros u [->|Hu]%elem_of_insert_thr; [|by apply (bi_thr _ _ _ _ Hinv)]. unfold thr_ok. simpl. lia.
  - rewrite (zsum_insert _ _ _ t) by done. rewrite (bi_sum _ _ _ _ Hinv). simpl. lia.
  - rewrite Hw'. lia.
  - by left.
Qed.

(** What a waiting thread sees tells it whether its round is complete. *)
Lemma spin_exit_iff t w :
  t ∈ bar_thr s -> b_pc t = BWait w ->
  Bool.eqb (bar s <? bar_count s) w = negb (bool_decide (entered t = p /\ zsum wraps (bar_thr s) = 0)).
Proof using HN Hinv.
  intros Ht Hpc. pose proof (bi_thr _ _ _ _ Hinv t Ht) as Hok. unfold thr_ok in Hok. rewrite Hpc in Hok.
  destruct Hok as (Hl & He & ->). pose proof (bi_bar _ _ _ _ Hinv) as Hbar. destruct (bi_p _ _ _ _ Hinv) as [Hp Hr].
  rewrite (bi_count _ _ _ _ Hinv).
  destruct (bi_wrap _ _ _ _ Hinv) as [Hw|(Hw & -> & Hodd & _)]; rewrite Hw in Hbar |- *.
  - assert ((bar s <? N) = negb (Z.odd p)) as ->.
    { rewrite Hbar. unfold half. destruct (Z.odd p); [apply Z.ltb_ge|apply Z.ltb_lt]; lia. }
    destruct He as [He|He]; rewrite He.
    + rewrite bool_decide_eq_true_2 by done. by destruct (Z.odd p).
    + rewrite bool_decide_eq_false_2 by lia. rewrite Z.add_1_r, Z.odd_succ, <- Z.negb_odd. by destruct (Z.odd p).
  - rewrite bool_decide_eq_false_2 by lia. pose proof (bi_sum _ _ _ _ Hinv) as Hsum.
    assert (entered t = p) as ->.
    { destruct He as [|He]; [done|]. apply list_elem_of_lookup in Ht as [i Hi].
      assert (entered t - p <= zsum (fun t => entered t - p) (bar_thr s)) as Hle; [|lia].
      apply (zsum_elem (fun t => entered t - p) (bar_thr s) i t); [|done].
      intros u Hu. pose proof (bi_thr _ _ _ _ Hinv u Hu) as Hok. unfold thr_ok in Hok.
      destruct (b_pc u); lia. }
    rewrite Hodd. assert ((bar s <? N) = false) as ->; [|done]. apply Z.ltb_ge. pose proof (half_cases p). nia.
Qed.

Lemma step_inv i s' : bar_step i s = Some s' -> exists p' r', bar_inv N p' r' s'.
Proof using HN Hinv.
  unfold bar_step. destruct (bar_thr s !! i) as [t|] eqn:Hi; simpl; [|done]. intros [= <-].
  assert (t ∈ bar_thr s) as Ht by (by eapply list_elem_of_lookup_2).
  pose proof (bi_thr _ _ _ _ Hinv t Ht) as Hok. unfold thr_ok in Hok. pose proof (bi_bar _ _ _ _ Hinv) as Hbar.
  destruct (b_pc t) as [|w|] eqn:Hpc.
  - by eapply enter_inv.
  - unfold bar_spin. rewrite (spin_exit_iff t w Ht Hpc). case_bool_decide as Hex; simpl; [|eauto].
    destruct Hex as [He Hw]. exists p, r. apply leave_inv; try done; try lia; try congruence.
    + unfold wraps. by rewrite Hpc.
  - exists p, r. unfold bar_wrap. assert (wraps t = 1) as Hwt by (unfold wraps; by rewrite Hpc).
    assert (wraps t <= zsum wraps (bar_thr s)) as Hle.
    { eapply zsum_elem; [|done]. intros u _. unfold wraps. destruct (b_pc u); lia. }
    destruct (bi_wrap _ _ _ _ Hinv) as [Hw|(Hw & Hr0 & Hodd & _)]; [lia|].
    apply leave_inv; try done; try lia; try congruence.
    rewrite (bi_count _ _ _ _ Hinv), (u32_small (2 * N)) by cint. unfold half in *. rewrite Hodd in *.
    rewrite u32_small by cint. lia.
Qed.

End steps.

Lemma init_inv count : 0 < count -> bar_inv count 0 0 (odp_barrier_init count).
Proof.
  intros Hc. unfold odp_barrier_init.
  assert (forall n, zsum wraps (replicate n (BT BOut 0 0)) = 0 /\
            zsum (fun t => entered t - 0) (replicate n (BT BOut 0 0)) = 0) as Hz.
  { induction n as [|n [IH1 IH2]]; simpl; [done|]. rewrite IH1, IH2. done. }
  split; simpl; try done.
  - unfold zlen. rewrite length_replicate. lia.
  - intros t [-> _]%elem_of_replicate. done.
  - apply Hz.
  - rewrite (proj1 (Hz _)). unfold half. simpl. lia.
  - left. apply Hz.
Qed.

Lemma reach_inv count s : 0 < count < 2 ^ 30 -> bar_reach count s -> exists p r, bar_inv count p r s.
Proof.
  intros Hc Hr. induction Hr as [|s s' i Hr (p & r & Hinv) Hstep].
  - exists 0, 0. apply init_inv; lia.
  - by eapply step_inv.
Qed.

(** Somebody inside the barrier can leave. *)
Lemma some_thread_leaves N p r s :
  0 < N < 2 ^ 30 -> bar_inv N p r s -> (forall t, t ∈ bar_thr s -> b_pc t <> BOut) ->
  exists i t s' t', bar_thr s !! i = Some t /\ bar_step i s = Some s' /\
    bar_thr s' !! i = Some t' /\ left_ t' = left_ t + 1.
Proof.
  intros HN Hinv Hin. destruct (bi_p _ _ _ _ Hinv) as [Hp Hr].
  assert (forall i t f, bar_thr s !! i = Some t -> bar_step i s = Some (set_thr i f (BT BOut (entered t) (left_ t + 1)) s) ->
            exists i t s' t', bar_thr s !! i = Some t /\ bar_step i s = Some s' /\
              bar_thr s' !! i = Some t' /\ left_ t' = left_ t + 1) as Hdone.
  { intros i t f Hi Hs. exists i, t. do 2 eexists. split_and!; [done..| |].
    - simpl. apply list_lookup_insert_eq. by eapply lookup_lt_Some.
    - done. }
  destruct (bi_wrap _ _ _ _ Hinv) as [Hw|(Hw & _)].
  - destruct (zsum_lt_exists (fun t => entered t - p) 1 (bar_thr s)) as (i & t & Hi & He).
    { rewrite (bi_sum _ _ _ _ Hinv), (bi_len _ _ _ _ Hinv). lia. }
    assert (t ∈ bar_thr s) as Ht by (by eapply list_elem_of_lookup_2).
    pose proof (bi_thr _ _ _ _ Hinv t Ht) as Hok. specialize (Hin t Ht). unfold thr_ok in Hok.
    destruct (b_pc t) as [|w|] eqn:Hpc; [done|..].
    + eapply (Hdone i t); [done|]. unfold bar_step. rewrite Hi. simpl. rewrite Hpc. unfold bar_spin.
      rewrite (spin_exit_iff N p r s HN Hinv t w Ht Hpc), bool_decide_eq_true_2; [done|]. split; [lia|done].
    + eapply (Hdone i t); [done|]. unfold bar_step. rewrite Hi. simpl. by rewrite Hpc.
  - destruct (zsum_lt_exists (fun t => - wraps t) 0 (bar_thr s)) as (i & t & Hi & He).
    { change (fun t => - wraps t) with (fun t => 0 - wraps t). rewrite zsum_sub, zsum_const. lia. }
    eapply (Hdone i t); [done|]. unfold bar_step. rewrite Hi. simpl. unfold wraps in He.
    destruct (b_pc t) eqn:Hpc; try lia. done.
Qed.

(** C16: The barrier holds every thread back until all have arrived, every time it is
    used.  In every reachable state of [count] threads that call
    [odp_barrier_wait] again and again, no thread has left the barrier more often
    than any other has entered it; and when all threads are inside, one of them
    can leave. *)
Theorem barrier_correct count s :
  0 < count < 2 ^ 30 -> bar_reach count s ->
  (forall t u, t ∈ bar_thr s -> u ∈ bar_thr s -> left_ t <= entered u) /\
  ((forall t, t ∈ bar_thr s -> b_pc t <> BOut) ->
   exists i t s' t', bar_thr s !! i = Some t /\ bar_step i s = Some s' /\
     bar_thr s' !! i = Some t' /\ left_ t' = left_ t + 1).
Proof.
  intros Hc Hr. destruct (reach_inv _ _ Hc Hr) as (p & r & Hinv). split.
  - intros t u Ht Hu. pose proof (bi_thr _ _ _ _ Hinv t Ht) as Ht'. pose proof (bi_thr _ _ _ _ Hinv u Hu) as Hu'.
    unfold thr_ok in *. destruct (b_pc t), (b_pc u); lia.
  - by eapply some_thread_leaves.
Qed.

Fixpoint bar_run (l : list nat) (s : bar_state) : option bar_state :=
  match l with [] => Some s | i :: l => s' ← bar_step i s; bar_run l s' end.

Lemma bar_run_reach count l s s' : bar_reach count s -> bar_run l s = Some s' -> bar_reach count s'.
Proof.
  revert s. induction l as [|i l IH]; intros s Hr Hrun; simpl in Hrun; [congruence|].
  destruct (bar_step i s) as [s1|] eqn:E; simpl in Hrun; [|done]. eapply IH; [|done]. by econstructor.
Qed.

(** Two threads; thread 0 is through its first wait and inside its second when
    thread 1 has not yet noticed that the first is over. *)
Lemma barrier_correct_witness :
  exists s, bar_reach 2 s /\ bar s = 3 /\
    exists i t s' t', bar_thr s !! i = Some t /\ bar_step i s = Some s' /\
      bar_thr s' !! i = Some t' /\ left_ t' = left_ t + 1.
Proof.
  destruct (bar_run [1; 0; 0; 0]%nat (odp_barrier_init 2)) as [s|] eqn:E; [|by vm_compute in E].
  assert (bar_reach 2 s) as Hr by (eapply bar_run_reach; [apply bar_start|exact E]).
  exists s. split; [done|]. vm_compute in E. injection E as <-. split; [done|].
  apply (barrier_correct 2); [done|done|].
  intros t Ht. repeat (apply elem_of_cons in Ht as [->|Ht]; [done|]). by apply not_elem_of_nil in Ht.
Defined.

End Barrier.
