(* ===== verification/Mask.v ===== *)
(** CPU masks and thread masks: platform/linux-generic/odp_cpumask.c, and
    odp_thrmask.c which forwards every call to it.  A mask is the integer whose
    bit [i] stands for CPU [i]; [cpu_set_t] has [CPU_SETSIZE] bits. *)

From S2P Require Import Prelude.
From Stdlib Require Import Ascii.

Open Scope Z_scope.
Open Scope c_scope.

Module Mask.

Definition CPU_SETSIZE : Z := 1024.

(** * Operations *)

(** [CPU_SET] and [CPU_CLR] ignore a CPU outside the set, [CPU_ISSET] is false
    there. *)
Definition in_set (cpu : Z) : bool := (0 <=? cpu) && (cpu <? CPU_SETSIZE).

Definition odp_cpumask_zero : Z := 0.
Definition odp_cpumask_set (mask cpu : Z) : Z := if in_set cpu then Z.setbit mask cpu else mask.
Definition odp_cpumask_clr (mask cpu : Z) : Z := if in_set cpu then Z.clearbit mask cpu else mask.
Definition odp_cpumask_isset (mask cpu : Z) : bool := in_set cpu && Z.testbit mask cpu.
Definition odp_cpumask_and (src1 src2 : Z) : Z := Z.land src1 src2.
Definition odp_cpumask_or (src1 src2 : Z) : Z := Z.lor src1 src2.
Definition odp_cpumask_xor (src1 src2 : Z) : Z := Z.lxor src1 src2.
Definition odp_cpumask_equal (mask1 mask2 : Z) : bool := mask1 =? mask2.

(** [for (cpu = 0; cpu < CPU_SETSIZE; cpu++) CPU_SET(cpu)] *)
Definition odp_cpumask_setall (mask : Z) : Z := foldl odp_cpumask_set mask (seqZ 0 CPU_SETSIZE).

(** [CPU_COUNT] *)
Definition odp_cpumask_count (mask : Z) : Z :=
  zlen (List.filter (odp_cpumask_isset mask) (seqZ 0 CPU_SETSIZE)).

(** The search of [odp_cpumask_first] and [odp_cpumask_next]: upwards from [cpu]
    for [n] CPUs. *)
Fixpoint search_up (n : nat) (mask cpu : Z) : Z :=
  match n with
  | O => -1
  | S n => if odp_cpumask_isset mask cpu then cpu else search_up n mask (cpu + 1)
  end.

Definition odp_cpumask_first (mask : Z) : Z := search_up (Z.to_nat CPU_SETSIZE) mask 0.
Definition odp_cpumask_next (mask cpu : Z) : Z :=
  search_up (Z.to_nat (CPU_SETSIZE - (cpu + 1))) mask (cpu + 1).

(** The search of [odp_cpumask_last]: downwards from [n - 1]. *)
Fixpoint search_down (n : nat) (mask : Z) : Z :=
  match n with
  | O => -1
  | S n => if odp_cpumask_isset mask (Z.of_nat n) then Z.of_nat n else search_down n mask
  end.

Definition odp_cpumask_last (mask : Z) : Z := search_down (Z.to_nat CPU_SETSIZE) mask.

(** * Strings *)

Definition code (c : ascii) : Z := Z.of_nat (nat_of_ascii c).
Definition chr (z : Z) : ascii := ascii_of_nat (Z.to_nat z).

(** The hex nibble of a character. *)
Definition nibble_value (c : ascii) : option Z :=
  let c := code c in
  if (48 <=? c) && (c <=? 57) then Some (c - 48)
  else if (65 <=? c) && (c <=? 70) then Some (c - 65 + 10)
  else if (97 <=? c) && (c <=? 102) then Some (c - 97 + 10)
  else None.

(** [for (idx = 0; idx < 4; idx++, cpu++) if (value & (1 << idx)) CPU_SET(cpu)] *)
Definition set_nibble (value cpu cpuset : Z) : Z :=
  foldl (fun set idx => if (value & Z.shiftl 1 idx) =? 0 then set else odp_cpumask_set set (cpu + idx))
    cpuset [0; 1; 2; 3].

(** The walk from the last character on; [None] at a character that is not a hex
    digit. *)
Fixpoint from_str_loop (str : list ascii) (cpu cpuset : Z) : option Z :=
  match str with
  | [] => Some cpuset
  | c :: str =>
      if cpu <? CPU_SETSIZE then
        match nibble_value c with
        | None => None
        | Some value => from_str_loop str (cpu + 4) (set_nibble value cpu cpuset)
        end
      else Some cpuset
  end.

Definition strip_prefix (str : list ascii) : list ascii :=
  match str with
  | _ :: c :: rest => if (code c =? 120) || (code c =? 88) then rest else str
  | _ => str
  end.

(** [mask] is the destination: it is cleared first, and overwritten at the end
    unless the string is empty or has a character that is no digit. *)
Definition odp_cpumask_from_str (mask : Z) (str_in : list ascii) : Z :=
  let mask := odp_cpumask_zero in
  let str := strip_prefix str_in in
  if bool_decide (str = []) then mask
  else match from_str_loop (reverse str) 0 0 with
       | None => mask
       | Some cpuset => cpuset
       end.

(** The digit that is written for a nibble. *)
Definition nibble_char (value : Z) : ascii :=
  if value <? 0xA then chr (48 + value) else chr (65 + value - 0xA).

(** The [do ... while (cpu--)] loop. *)
Fixpoint to_str_loop (mask : Z) (cpu : nat) (value : Z) : list ascii :=
  let value :=
    if odp_cpumask_isset mask (Z.of_nat cpu)
    then Z.lor value (Z.shiftl 1 (Z.of_nat cpu mod 4)) else value in
  let flush := Z.of_nat cpu mod 4 =? 0 in
  let out := if flush then [nibble_char value] else [] in
  match cpu with
  | O => out
  | S cpu => out ++ to_str_loop mask cpu (if flush then 0 else value)
  end.

(** The return value and the string without its terminating zero. *)
Definition odp_cpumask_to_str (mask len : Z) : Z * option (list ascii) :=
  let cpu := odp_cpumask_last mask in
  if len <? 4 then (-1, None)
  else if cpu <? 0 then (4, Some [chr 48; chr 120; chr 48])
  else
    let nibbles := cpu / 4 + 1 in
    if len <? 3 + nibbles then (-1, None)
    else
      let str := chr 48 :: chr 120 :: to_str_loop mask (Z.to_nat cpu) 0 in
      (zlen str + 1, Some str).

(** * Searches *)

Lemma in_set_true cpu : in_set cpu = true <-> 0 <= cpu < CPU_SETSIZE.
Proof. unfold in_set. rewrite andb_true_iff, Z.leb_le, Z.ltb_lt. done. Qed.

Lemma isset_iff mask cpu :
  odp_cpumask_isset mask cpu = true <-> 0 <= cpu < CPU_SETSIZE /\ Z.testbit mask cpu = true.
Proof. unfold odp_cpumask_isset. by rewrite andb_true_iff, in_set_true. Qed.

Lemma search_up_spec n mask cpu :
  0 <= cpu ->
  (search_up n mask cpu = -1 /\ forall c, cpu <= c < cpu + Z.of_nat n -> odp_cpumask_isset mask c = false) \/
  (cpu <= search_up n mask cpu < cpu + Z.of_nat n /\
   odp_cpumask_isset mask (search_up n mask cpu) = true /\
   forall c, cpu <= c < search_up n mask cpu -> odp_cpumask_isset mask c = false).
Proof.
  revert cpu. induction n as [|n IH]; intros cpu Hc; simpl.
  { left. split; [done|]. lia. }
  destruct (odp_cpumask_isset mask cpu) eqn:E.
  { right. split; [lia|]. split; [done|]. lia. }
  destruct (IH (cpu + 1)) as [[Hr Hno]|(Hb & Hs & Hno)]; [lia|left|right].
  - split; [done|]. intros c Hcc. destruct (decide (c = cpu)) as [->|]; [done|]. apply Hno. lia.
  - split; [lia|]. split; [done|]. intros c Hcc. destruct (decide (c = cpu)) as [->|]; [done|]. apply Hno. lia.
Qed.

Lemma search_down_spec n mask :
  (search_down n mask = -1 /\ forall c, 0 <= c < Z.of_nat n -> odp_cpumask_isset mask c = false) \/
  (0 <= search_down n mask < Z.of_nat n /\ odp_cpumask_isset mask (search_down n mask) = true /\
   forall c, search_down n mask < c < Z.of_nat n -> odp_cpumask_isset mask c = false).
Proof.
  induction n as [|n IH]; simpl.
  { left. split; [done|]. lia. }
  destruct (odp_cpumask_isset mask (Z.of_nat n)) eqn:E.
  { right. split; [lia|]. split; [done|]. lia. }
  destruct IH as [[Hr Hno]|(Hb & Hs & Hno)]; [left|right].
  - split; [done|]. intros c Hcc. destruct (decide (c = Z.of_nat n)) as [->|]; [done|]. apply Hno. lia.
  - split; [lia|]. split; [done|]. intros c Hcc. destruct (decide (c = Z.of_nat n)) as [->|]; [done|]. apply Hno. lia.
Qed.

(** * Digits *)

Definition nib (m : Z) (j : nat) : Z := (m / 2 ^ (4 * Z.of_nat j)) mod 16.

Lemma nib_bound m j : 0 <= nib m j < 16.
Proof. by apply Z.mod_pos_bound. Qed.

Lemma nib_testbit m j r : 0 <= r < 4 -> Z.testbit (nib m j) r = Z.testbit m (4 * Z.of_nat j + r).
Proof.
  intros Hr. unfold nib. change 16 with (2 ^ 4). rewrite Z.mod_pow2_bits_low by lia.
  rewrite <- Z.shiftr_div_pow2 by lia. rewrite Z.shiftr_spec by lia. f_equal. lia.
Qed.

Lemma nibble_roundtrip v : 0 <= v < 16 -> nibble_value (nibble_char v) = Some v.
Proof.
  intros Hv. assert (forallb (fun v => bool_decide (nibble_value (nibble_char v) = Some v)) (seqZ 0 16) = true) as H
    by (vm_compute; reflexivity).
  rewrite forallb_forall in H. apply (bool_decide_eq_true_1 _), H. apply list_elem_of_In, elem_of_seqZ. lia.
Qed.

(** The bits of [v] up to [r], or-ed to [acc] from the top. *)
Lemma to_str_loop_nib mask j r acc :
  (r < 4)%nat -> (4 * j + r < 1024)%nat ->
  to_str_loop mask (4 * j + r) acc =
  nibble_char (Z.lor acc (nib mask j mod 2 ^ Z.of_nat (S r))) ::
  match j with O => [] | S j => to_str_loop mask (4 * j + 3) 0 end.
Proof.
  intros Hr Hlt.
  assert (forall r, (r < 4)%nat -> (4 * j + r < 1024)%nat -> forall acc,
    (if odp_cpumask_isset mask (Z.of_nat (4 * j + r))
     then Z.lor acc (Z.shiftl 1 (Z.of_nat (4 * j + r) mod 4)) else acc) =
    Z.lor acc (if Z.testbit (nib mask j) (Z.of_nat r) then 2 ^ Z.of_nat r else 0) /\
    (Z.of_nat (4 * j + r) mod 4 = Z.of_nat r)) as Hstep.
  { clear r acc Hr Hlt. intros r Hr Hlt acc.
    assert (Z.of_nat (4 * j + r) mod 4 = Z.of_nat r) as Hm.
    { replace (Z.of_nat (4 * j + r)) with (Z.of_nat r + Z.of_nat j * 4) by lia. rewrite Z_mod_plus_full. apply Z.mod_small. lia. }
    split; [|done]. rewrite Hm, nib_testbit by lia. unfold odp_cpumask_isset.
    replace (in_set (Z.of_nat (4 * j + r))) with true by (symmetry; apply in_set_true; unfold CPU_SETSIZE; lia).
    replace (4 * Z.of_nat j + Z.of_nat r) with (Z.of_nat (4 * j + r)) by lia. simpl.
    destruct (Z.testbit _ _); [by rewrite Z.shiftl_1_l|by rewrite Z.lor_0_r]. }
  revert acc. induction r as [|r IH]; intros acc.
  - destruct (Hstep 0%nat ltac:(lia) ltac:(lia) acc) as [Hv Hm]. rewrite Nat.add_0_r in *.
    assert (Z.lor acc (if Z.testbit (nib mask j) (Z.of_nat 0) then 2 ^ Z.of_nat 0 else 0) =
            Z.lor acc (nib mask j mod 2 ^ Z.of_nat 1)) as Hb.
    { f_equal. change (Z.of_nat 0) with 0. change (2 ^ Z.of_nat 1) with 2.
      rewrite Z.bit0_odd, Zmod_odd. by destruct (Z.odd _). }
    rewrite Hb in Hv. clear Hb. destruct j as [|j].
    + change (4 * 0)%nat with 0%nat in *. cbn [to_str_loop]. rewrite Hv, Hm. done.
    + replace (4 * S j)%nat with (S (4 * j + 3)) in * by lia. cbn [to_str_loop]. rewrite Hv, Hm.
      by change (Z.of_nat 0 =? 0) with true.
  - destruct (Hstep (S r) ltac:(lia) ltac:(lia) acc) as [Hv Hm].
    replace (4 * j + S r)%nat with (S (4 * j + r)) in * by lia. cbn [to_str_loop]. rewrite Hv, Hm.
    rewrite (proj2 (Z.eqb_neq (Z.of_nat (S r)) 0)) by lia. cbn [app]. rewrite IH by lia. f_equal. f_equal.
    rewrite <- Z.lor_assoc. f_equal. apply Z.bits_inj'. intros n Hn. rewrite Z.lor_spec.
    destruct (decide (n < Z.of_nat (S (S r)))) as [Hl|Hl].
    + rewrite (Z.mod_pow2_bits_low _ (Z.of_nat (S (S r)))) by lia. destruct (decide (n = Z.of_nat (S r))) as [->|Hne].
      * rewrite (Z.mod_pow2_bits_high _ (Z.of_nat (S r))) by lia. rewrite orb_false_r.
        destruct (Z.testbit (nib mask j) (Z.of_nat (S r))); [by rewrite Z.pow2_bits_true by lia|apply Z.bits_0].
      * rewrite (Z.mod_pow2_bits_low _ (Z.of_nat (S r))) by lia.
        destruct (Z.testbit (nib mask j) (Z.of_nat (S r))); [rewrite Z.pow2_bits_false by lia|rewrite Z.bits_0]; done.
    + rewrite !Z.mod_pow2_bits_high by lia. rewrite orb_false_r.
      destruct (Z.testbit (nib mask j) (Z.of_nat (S r))); [by rewrite Z.pow2_bits_false by lia|apply Z.bits_0].
Qed.

(** The digits of the nibbles [j - 1] to 0. *)
Fixpoint digits (m : Z) (j : nat) : list ascii :=
  match j with O => [] | S j => nibble_char (nib m j) :: digits m j end.

Lemma to_str_loop_full mask j :
  (4 * j + 3 < 1024)%nat -> to_str_loop mask (4 * j + 3) 0 = digits mask (S j).
Proof.
  induction j as [|j IH]; intros Hj; rewrite to_str_loop_nib by lia; pose proof (nib_bound mask);
    rewrite Z.lor_0_l, Z.mod_small by (change (2 ^ Z.of_nat 4) with 16; done); cbn [digits]; [done|].
  by rewrite IH by lia.
Qed.

(** Bits above the highest one are zero. *)
Lemma nib_top mask cpu :
  0 <= mask < 2 ^ 1024 -> 0 <= cpu < 1024 ->
  (forall c, cpu < c < 1024 -> odp_cpumask_isset mask c = false) ->
  let j := Z.to_nat (cpu / 4) in
  mask < 2 ^ (cpu + 1) /\ nib mask j mod 2 ^ (cpu mod 4 + 1) = nib mask j.
Proof.
  intros Hm Hc Hno j.
  assert (mask mod 2 ^ (cpu + 1) = mask) as Hmod.
  { apply Z.bits_inj'. intros n Hn. destruct (decide (n < cpu + 1)) as [Hl|Hl]; [by rewrite Z.mod_pow2_bits_low|].
    rewrite Z.mod_pow2_bits_high by lia. symmetry. destruct (decide (n < 1024)) as [Hn2|Hn2].
    - specialize (Hno n ltac:(lia)). unfold odp_cpumask_isset in Hno.
      rewrite (proj2 (in_set_true n)) in Hno by (unfold CPU_SETSIZE; lia). done.
    - rewrite <- (Z.mod_small mask (2 ^ 1024)) by done. by rewrite Z.mod_pow2_bits_high by lia. }
  assert (mask < 2 ^ (cpu + 1)) as Hlt. { rewrite <- Hmod. apply Z.mod_pos_bound. apply Z.pow_pos_nonneg; lia. }
  split; [done|]. apply Z.mod_small. split; [apply nib_bound|]. unfold nib. subst j. rewrite Z2Nat.id by (Z.div_mod_to_equations; lia).
  pose proof (Z.div_mod cpu 4 ltac:(lia)) as Hdm. pose proof (Z.mod_pos_bound cpu 4 ltac:(lia)).
  eapply Z.le_lt_trans; [apply Z.mod_le; [apply Z.div_pos; [lia|apply Z.pow_pos_nonneg; lia]|lia]|].
  apply Z.div_lt_upper_bound; [apply Z.pow_pos_nonneg; lia|]. rewrite <- Z.pow_add_r by lia.
  by replace (4 * (cpu / 4) + (cpu mod 4 + 1)) with (cpu + 1) by lia.
Qed.

Lemma to_str_loop_digits mask cpu :
  0 <= mask < 2 ^ 1024 -> 0 <= cpu < 1024 ->
  (forall c, cpu < c < 1024 -> odp_cpumask_isset mask c = false) ->
  to_str_loop mask (Z.to_nat cpu) 0 = digits mask (Z.to_nat (cpu / 4 + 1)).
Proof.
  intros Hm Hc Hno. destruct (nib_top mask cpu Hm Hc Hno) as [_ Hn].
  pose proof (Z.div_mod cpu 4 ltac:(lia)) as Hdm. pose proof (Z.mod_pos_bound cpu 4 ltac:(lia)) as Hmb.
  assert (0 <= cpu / 4) as Hd by (apply Z.div_pos; lia).
  set (j := Z.to_nat (cpu / 4)) in *. set (r := Z.to_nat (cpu mod 4)).
  replace (Z.to_nat cpu) with (4 * j + r)%nat by lia. rewrite to_str_loop_nib by lia.
  replace (Z.of_nat (S r)) with (cpu mod 4 + 1) by lia. rewrite Hn, Z.lor_0_l.
  replace (Z.to_nat (cpu / 4 + 1)) with (S j) by lia. cbn [digits]. f_equal. destruct j as [|j'] eqn:Ej; [done|].
  apply to_str_loop_full. unfold j in Ej. lia.
Qed.

(** * Reading digits *)

Lemma setbit_above a n : 0 <= n -> 0 <= a < 2 ^ n -> Z.setbit a n = a + 2 ^ n.
Proof.
  intros Hn Ha. rewrite Z.setbit_spec', <- (Z.mul_1_l (2 ^ n)). by apply lor_disjoint.
Qed.

Lemma set_nibble_add v cpu a :
  0 <= v < 16 -> 0 <= cpu <= 1020 -> 0 <= a < 2 ^ cpu -> set_nibble v cpu a = a + v * 2 ^ cpu.
Proof.
  intros Hv Hc Ha.
  assert (forall i x, 0 <= i < 4 -> 0 <= x < 2 ^ (cpu + i) ->
    (if (v & Z.shiftl 1 i) =? 0 then x else odp_cpumask_set x (cpu + i)) =
    x + (if Z.testbit v i then 2 ^ i else 0) * 2 ^ cpu) as Hstep.
  { intros i x Hi Hx. rewrite Z.shiftl_1_l.
    assert ((v & 2 ^ i =? 0) = negb (Z.testbit v i)) as ->.
    { assert (forallb (fun v => forallb (fun i => Bool.eqb (v & 2 ^ i =? 0) (negb (Z.testbit v i))) (seqZ 0 4)) (seqZ 0 16) = true) as H
        by (vm_compute; reflexivity).
      rewrite forallb_forall in H. specialize (H v). rewrite forallb_forall in H.
      apply eqb_prop, H; apply list_elem_of_In, elem_of_seqZ; lia. }
    destruct (Z.testbit v i); simpl negb; cbv iota; [|lia]. unfold odp_cpumask_set.
    rewrite (proj2 (in_set_true _)) by (unfold CPU_SETSIZE; lia). rewrite setbit_above by lia.
    rewrite Z.pow_add_r by lia. lia. }
  assert (v = (if Z.testbit v 0 then 2 ^ 0 else 0) + (if Z.testbit v 1 then 2 ^ 1 else 0) +
              (if Z.testbit v 2 then 2 ^ 2 else 0) + (if Z.testbit v 3 then 2 ^ 3 else 0)) as Hsum.
  { assert (forallb (fun v => v =? (if Z.testbit v 0 then 2 ^ 0 else 0) + (if Z.testbit v 1 then 2 ^ 1 else 0) +
              (if Z.testbit v 2 then 2 ^ 2 else 0) + (if Z.testbit v 3 then 2 ^ 3 else 0)) (seqZ 0 16) = true) as H
      by (vm_compute; reflexivity).
    rewrite forallb_forall in H. apply Z.eqb_eq, H, list_elem_of_In, elem_of_seqZ. lia. }
  assert (0 < 2 ^ cpu) by (apply Z.pow_pos_nonneg; lia).
  transitivity (a + ((if Z.testbit v 0 then 2 ^ 0 else 0) + (if Z.testbit v 1 then 2 ^ 1 else 0) +
    (if Z.testbit v 2 then 2 ^ 2 else 0) + (if Z.testbit v 3 then 2 ^ 3 else 0)) * 2 ^ cpu); [|by rewrite <- Hsum].
  clear Hsum. unfold set_nibble. cbn [foldl].
  pose proof (Z.pow_add_r 2 cpu 1). pose proof (Z.pow_add_r 2 cpu 2). pose proof (Z.pow_add_r 2 cpu 3).
  rewrite (Hstep 0 a) by (rewrite ?Z.add_0_r; lia). rewrite (Hstep 1) by (destruct (Z.testbit v 0); lia).
  rewrite (Hstep 2) by (destruct (Z.testbit v 0), (Z.testbit v 1); lia).
  rewrite (Hstep 3) by (destruct (Z.testbit v 0), (Z.testbit v 1), (Z.testbit v 2); lia). lia.
Qed.

(** The value of the lowest [j] nibbles. *)
Lemma low_nibbles m j :
  m mod 2 ^ (4 * Z.of_nat (S j)) = m mod 2 ^ (4 * Z.of_nat j) + nib m j * 2 ^ (4 * Z.of_nat j).
Proof.
  unfold nib. replace (4 * Z.of_nat (S j)) with (4 * Z.of_nat j + 4) by lia. rewrite Z.pow_add_r by lia.
  change (2 ^ 4) with 16. rewrite Z.rem_mul_r by lia. lia.
Qed.

Lemma from_str_digits m k j :
  (j <= k)%nat -> (k <= 256)%nat ->
  from_str_loop (drop j (reverse (digits m k))) (4 * Z.of_nat j) (m mod 2 ^ (4 * Z.of_nat j)) =
  Some (m mod 2 ^ (4 * Z.of_nat k)).
Proof.
  intros Hj Hk.
  assert (forall k, length (digits m k) = k) as Hlen by (intros n; induction n; simpl; congruence).
  assert (forall k j, (j < k)%nat -> reverse (digits m k) !! j = Some (nibble_char (nib m j))) as Hget.
  { intros n. induction n as [|n IH]; intros i Hi; [lia|]. cbn [digits]. rewrite reverse_cons.
    destruct (decide (i < n)%nat) as [Hl|Hl].
    - rewrite lookup_app_l by (rewrite length_reverse, Hlen; lia). by apply IH.
    - assert (i = n) as -> by lia. rewrite lookup_app_r by (rewrite length_reverse, Hlen; lia).
      by rewrite length_reverse, Hlen, Nat.sub_diag. }
  remember (k - j)%nat as d eqn:Hd. revert j Hj Hd. induction d as [|d IH]; intros j Hj Hd.
  - assert (j = k) as -> by lia. rewrite drop_ge by (rewrite length_reverse, Hlen; lia). done.
  - rewrite (drop_S _ _ _ (Hget k j ltac:(lia))). cbn [from_str_loop].
    rewrite (proj2 (Z.ltb_lt _ _)) by (unfold CPU_SETSIZE; lia). rewrite nibble_roundtrip by apply nib_bound.
    rewrite set_nibble_add; [|apply nib_bound|lia|apply Z.mod_pos_bound, Z.pow_pos_nonneg; lia].
    rewrite <- low_nibbles. replace (4 * Z.of_nat j + 4) with (4 * Z.of_nat (S j)) by lia. apply IH; lia.
Qed.


(** * Claims *)

Lemma from_str_all m k :
  (k <= 256)%nat -> 0 <= m < 2 ^ (4 * Z.of_nat k) -> from_str_loop (reverse (digits m k)) 0 0 = Some m.
Proof.
  intros Hk Hm. pose proof (from_str_digits m k 0 ltac:(lia) Hk) as H. rewrite drop_0 in H.
  change (4 * Z.of_nat 0) with 0 in H. change (2 ^ 0) with 1 in H. rewrite Z.mod_1_r in H. rewrite H.
  by rewrite Z.mod_small.
Qed.

(** C22: masks survive printing and reading.  For every mask of 1024 bits,
    [odp_cpumask_to_str] refuses a buffer that is too short and otherwise
    returns the number of bytes it wrote, at most the length of the buffer, and
    [odp_cpumask_from_str] applied to what it wrote gives the mask back, whatever
    the destination held before: the mask is replaced, where the interface
    documents that bits are added to it ([from_str_replaces]). *)
Theorem cpumask_str_roundtrip (mask len : Z) :
  0 <= mask < 2 ^ 1024 ->
  let need := 4 + Z.max 0 (odp_cpumask_last mask / 4) in
  (len < need -> odp_cpumask_to_str mask len = (-1, None)) /\
  (need <= len -> exists str, odp_cpumask_to_str mask len = (need, Some str) /\
     zlen str + 1 = need /\ forall old, odp_cpumask_from_str old str = mask).
Proof.
  intros Hm need. unfold odp_cpumask_to_str.
  destruct (search_down_spec (Z.to_nat CPU_SETSIZE) mask) as [[Hl Hno]|(Hb & Hs & Hno)];
    fold (odp_cpumask_last mask) in *; change (Z.of_nat (Z.to_nat CPU_SETSIZE)) with 1024 in *; subst need.
  - rewrite Hl. change (4 + Z.max 0 (-1 / 4)) with 4. split; intros Hlen.
    { by rewrite (proj2 (Z.ltb_lt _ _)). }
    rewrite (proj2 (Z.ltb_ge _ _)) by done. eexists. split; [done|]. split; [done|].
    intros old. transitivity 0; [vm_compute; reflexivity|]. symmetry. apply Z.bits_inj'. intros n Hn. rewrite Z.bits_0.
    destruct (decide (n < 1024)) as [Hn2|Hn2].
    + specialize (Hno n ltac:(lia)). unfold odp_cpumask_isset in Hno.
      by rewrite (proj2 (in_set_true n)) in Hno by (unfold CPU_SETSIZE; lia).
    + rewrite <- (Z.mod_small mask (2 ^ 1024)) by done. by rewrite Z.mod_pow2_bits_high by lia.
  - set (cpu := odp_cpumask_last mask) in *.
    assert (0 <= cpu / 4 < 256) as Hd by (Z.div_mod_to_equations; lia).
    rewrite Z.max_r by lia. split; intros Hlen.
    { destruct (len <? 4) eqn:E1; [done|]. rewrite (proj2 (Z.ltb_ge cpu 0)) by lia.
      by rewrite (proj2 (Z.ltb_lt len _)) by lia. }
    rewrite (proj2 (Z.ltb_ge len 4)), (proj2 (Z.ltb_ge cpu 0)), (proj2 (Z.ltb_ge len _)) by lia.
    rewrite to_str_loop_digits by done.
    assert (forall k, length (digits mask k) = k) as Hdl by (intros n; induction n; simpl; congruence).
    eexists. split; [|split].
    + f_equal. unfold zlen. simpl length. rewrite Hdl. lia.
    + unfold zlen. simpl length. rewrite Hdl. lia.
    + intros old. unfold odp_cpumask_from_str. change (strip_prefix (chr 48 :: chr 120 :: ?l)) with l.
      destruct (nib_top mask cpu Hm Hb Hno) as [Hlt _].
      rewrite bool_decide_eq_false_2; [|intros Heq; apply (f_equal length) in Heq; rewrite Hdl in Heq; simpl in Heq; lia].
      rewrite from_str_all; [done|lia|]. split; [lia|]. eapply Z.lt_le_trans; [exact Hlt|].
      apply Z.pow_le_mono_r; [lia|]. rewrite Z2Nat.id by lia. Z.div_mod_to_equations. lia.
Qed.

Lemma cpumask_str_roundtrip_witness :
  exists str, odp_cpumask_to_str 0xA5F0 10 = (7, Some str) /\ odp_cpumask_from_str 1 str = 0xA5F0.
Proof.
  destruct (cpumask_str_roundtrip 0xA5F0 10) as [_ H].
  - split; [done|]. apply Z.ltb_lt. vm_compute. reflexivity.
  - destruct H as (str & Hs & _ & Hf).
    + apply Z.leb_le. vm_compute. reflexivity.
    + exists str. split; [|done]. rewrite Hs. vm_compute. reflexivity.
Defined.

(** Bits that the destination had are lost (include/odp/api/cpumask.h has "CPU
    mask to modify" and "to be added"). *)
Theorem from_str_replaces :
  odp_cpumask_from_str 1 [chr 48; chr 120; chr 50] = 2 /\
  odp_cpumask_from_str 1 [] = 0 /\ odp_cpumask_from_str 1 [chr 50; chr 103] = 0.
Proof. split_and!; vm_compute; reflexivity. Qed.

(** The CPUs that a loop over [first] and [next] visits. *)
Fixpoint iterate (n : nat) (mask cpu : Z) : list Z :=
  match n with
  | O => []
  | S n => if cpu <? 0 then [] else cpu :: iterate n mask (odp_cpumask_next mask cpu)
  end.

Lemma filter_skip mask a b c :
  a <= b <= c -> (forall x, a <= x < b -> odp_cpumask_isset mask x = false) ->
  List.filter (odp_cpumask_isset mask) (seqZ a (c - a)) = List.filter (odp_cpumask_isset mask) (seqZ b (c - b)).
Proof.
  intros Hab Hno. replace (c - a) with ((b - a) + (c - b)) by lia. rewrite seqZ_app by lia.
  rewrite List.filter_app. replace (a + (b - a)) with b by lia.
  replace (List.filter (odp_cpumask_isset mask) (seqZ a (b - a))) with (@nil Z); [done|].
  symmetry.
  assert (forall l, (forall x, x ∈ l -> odp_cpumask_isset mask x = false) -> List.filter (odp_cpumask_isset mask) l = []) as Hnil.
  { intros l. induction l as [|x l IH]; intros Hl; [done|]. simpl. rewrite Hl by set_solver. apply IH. set_solver. }
  apply Hnil. intros x Hx%elem_of_seqZ. apply Hno. lia.
Qed.

Lemma iterate_spec n mask cpu :
  0 <= cpu <= 1024 -> (Z.to_nat (1024 - cpu) < n)%nat ->
  iterate n mask (search_up (Z.to_nat (1024 - cpu)) mask cpu) =
  List.filter (odp_cpumask_isset mask) (seqZ cpu (1024 - cpu)).
Proof.
  revert cpu. induction n as [|n IH]; intros cpu Hc Hn; [lia|].
  destruct (search_up_spec (Z.to_nat (1024 - cpu)) mask cpu) as [[Hr Hno]|(Hb & Hs & Hno)]; [lia|..].
  - rewrite Hr. simpl. rewrite (filter_skip mask cpu 1024 1024) by (lia || (intros; apply Hno; lia)). by rewrite Z.sub_diag.
  - set (c := search_up _ mask cpu) in *. cbn [iterate]. rewrite (proj2 (Z.ltb_ge _ _)) by lia.
    rewrite (filter_skip mask cpu c 1024) by (lia || (intros; apply Hno; lia)).
    rewrite seqZ_cons by lia. cbn [List.filter]. rewrite Hs. f_equal.
    unfold odp_cpumask_next. replace (CPU_SETSIZE - (c + 1)) with (1024 - (c + 1)) by done.
    rewrite IH by lia. f_equal. f_equal; lia.
Qed.

(** Walking a mask with [odp_cpumask_first] and [odp_cpumask_next] until
    -1 visits exactly the CPUs in it, in ascending order and each once, so as
    many as [odp_cpumask_count] says; after [odp_cpumask_set] the new CPU is
    among them, after [odp_cpumask_clr] it is not, and no other CPU changes. *)
Theorem cpumask_walk (mask cpu c : Z) :
  0 <= cpu < 1024 ->
  let walk m := iterate 1025 m (odp_cpumask_first m) in
  walk mask = List.filter (odp_cpumask_isset mask) (seqZ 0 1024) /\
  zlen (walk mask) = odp_cpumask_count mask /\
  (c ∈ walk (odp_cpumask_set mask cpu) <-> c = cpu \/ c ∈ walk mask) /\
  (c ∈ walk (odp_cpumask_clr mask cpu) <-> c <> cpu /\ c ∈ walk mask).
Proof.
  intros Hcpu walk.
  assert (forall m, walk m = List.filter (odp_cpumask_isset m) (seqZ 0 1024)) as Hw by (intros m; apply (iterate_spec 1025 m 0); lia).
  clearbody walk.
  assert (forall m, c ∈ walk m <-> 0 <= c < 1024 /\ Z.testbit m c = true) as Hin.
  { intros m. rewrite Hw, list_elem_of_In, filter_In, <- list_elem_of_In, elem_of_seqZ, isset_iff.
    unfold CPU_SETSIZE. clear. split; [intros (? & ? & ?)|intros (? & ?)]; split_and!; (done || lia). }
  assert (in_set cpu = true) as Hs by (by apply in_set_true).
  split; [apply Hw|]. split; [unfold odp_cpumask_count; by rewrite Hw|].
  unfold odp_cpumask_set, odp_cpumask_clr. rewrite Hs, !Hin. clear Hin Hw walk. split.
  - destruct (decide (c = cpu)) as [->|Hne].
    + rewrite Z.setbit_eq by lia. tauto.
    + destruct (decide (0 <= c)) as [H0|H0]; [rewrite Z.setbit_neq by lia|]; intuition lia.
  - destruct (decide (c = cpu)) as [->|Hne].
    + rewrite Z.clearbit_eq. intuition done.
    + rewrite Z.clearbit_neq by done. tauto.
Qed.

Lemma cpumask_walk_witness :
  3 ∈ iterate 1025 (odp_cpumask_set 0x12 3) (odp_cpumask_first (odp_cpumask_set 0x12 3)).
Proof.
  destruct (cpumask_walk 0x12 3 3) as (_ & _ & H & _).
  - done.
  - apply H. by left.
Defined.

End Mask.
