(* ===== verification/Thread.v ===== *)
(** Thread numbering, platform/linux-generic/odp_thread.c.  The three thread
    masks are the first three masks of the scheduler groups, as in the union of
    the source; each call runs under the table's lock. *)

From S2P Require Import Prelude Mask.

Open Scope Z_scope.
Open Scope c_scope.

Module Thread.
Import Mask.

Definition ODP_THREAD_COUNT_MAX : Z := 128.
Definition ODP_CONFIG_SCHED_GRPS : Z := 256.

Inductive odp_thread_type_t := ODP_THREAD_WORKER | ODP_THREAD_CONTROL.

#[export] Instance odp_thread_type_eq : EqDecision odp_thread_type_t.
Proof. solve_decision. Defined.

Record thread_state_t := TState { ts_thr : Z; ts_cpu : Z; ts_type : odp_thread_type_t }.

(** [thread_globals_t]: [g_masks] is the union of [all], [worker], [control] and
    [sched_grp_mask]. *)
Record thread_globals_t := TGlobals {
  g_thr : list thread_state_t;
  g_masks : list Z;
  g_num : Z;
  g_num_worker : Z;
  g_num_control : Z
}.

Definition ALL : nat := 0.
Definition WORKER : nat := 1.
Definition CONTROL : nat := 2.

Definition mask_of (i : nat) (g : thread_globals_t) : Z := default 0 (g_masks g !! i).
Definition on_mask (i : nat) (f : Z -> Z) (g : thread_globals_t) : thread_globals_t :=
  TGlobals (g_thr g) (alter f i (g_masks g)) (g_num g) (g_num_worker g) (g_num_control g).
Definition add_num (a w c : Z) (g : thread_globals_t) : thread_globals_t :=
  TGlobals (g_thr g) (g_masks g) (g_num g +u32 a) (g_num_worker g +u32 w) (g_num_control g +u32 c).
Definition set_thr (v : list thread_state_t) (g : thread_globals_t) : thread_globals_t :=
  TGlobals v (g_masks g) (g_num g) (g_num_worker g) (g_num_control g).

(** The table after [odp_thread_init_global]. *)
Definition odp_thread_init_global : thread_globals_t :=
  TGlobals (replicate (Z.to_nat ODP_THREAD_COUNT_MAX) (TState 0 0 ODP_THREAD_WORKER))
    (replicate (Z.to_nat ODP_CONFIG_SCHED_GRPS) 0) 0 0 0.

Definition thread_sched_grp_mask (index : nat) (g : thread_globals_t) : Z := mask_of index g.

(** The search for a free number from [thr] on, and what is done with it. *)
Fixpoint alloc_loop (n : nat) (thr : Z) (type : odp_thread_type_t) (g : thread_globals_t)
    : Z * thread_globals_t :=
  match n with
  | O => (-2, g)
  | S n =>
      if odp_cpumask_isset (mask_of ALL g) thr then alloc_loop n (thr + 1) type g
      else
        let g := on_mask ALL (fun m => odp_cpumask_set m thr) g in
        let g := match type with
                 | ODP_THREAD_WORKER => add_num 0 1 0 (on_mask WORKER (fun m => odp_cpumask_set m thr) g)
                 | ODP_THREAD_CONTROL => add_num 0 0 1 (on_mask CONTROL (fun m => odp_cpumask_set m thr) g)
                 end in
        (thr, add_num 1 0 0 g)
  end.

Definition alloc_id (type : odp_thread_type_t) (g : thread_globals_t) : Z * thread_globals_t :=
  if g_num g >=? ODP_THREAD_COUNT_MAX then (-1, g)
  else alloc_loop (Z.to_nat ODP_THREAD_COUNT_MAX) 0 type g.

Definition free_id (thr : Z) (g : thread_globals_t) : option (Z * thread_globals_t) :=
  if (thr <? 0) || (thr >=? ODP_THREAD_COUNT_MAX) then Some (-1, g)
  else if negb (odp_cpumask_isset (mask_of ALL g) thr) then Some (-1, g)
  else
    let g := on_mask ALL (fun m => odp_cpumask_clr m thr) g in
    st ← zget (g_thr g) thr;
    let g := match ts_type st with
             | ODP_THREAD_WORKER => add_num 0 (-1) 0 (on_mask WORKER (fun m => odp_cpumask_clr m thr) g)
             | ODP_THREAD_CONTROL => add_num 0 0 (-1) (on_mask CONTROL (fun m => odp_cpumask_clr m thr) g)
             end in
    let g := add_num (-1) 0 0 g in
    Some (s32 (g_num g), g).

(** [cpu] is what [sched_getcpu] returned.  The result: the return code, the
    number of the calling thread when it has one now, and the table. *)
Definition odp_thread_init_local (type : odp_thread_type_t) (cpu : Z) (g : thread_globals_t)
    : option (Z * option Z * thread_globals_t) :=
  let '(id, g) := alloc_id type g in
  if id <? 0 then Some (-1, None, g)
  else if cpu <? 0 then Some (-1, None, g)
  else
    l ← zset (g_thr g) id (TState id cpu type);
    Some (0, Some id, set_thr l g).

(** [this_thread] is the number of the calling thread. *)
Definition odp_thread_term_local (this_thread : Z) (g : thread_globals_t) : option (Z * thread_globals_t) :=
  st ← zget (g_thr g) this_thread;
  '(num, g) ← free_id (ts_thr st) g;
  Some (if num <? 0 then (-1, g) else (num, g)).

Definition odp_thread_id (this_thread : Z) (g : thread_globals_t) : option Z := ts_thr <$> zget (g_thr g) this_thread.
Definition odp_thread_type (this_thread : Z) (g : thread_globals_t) : option odp_thread_type_t :=
  ts_type <$> zget (g_thr g) this_thread.
Definition odp_cpu_id (this_thread : Z) (g : thread_globals_t) : option Z := ts_cpu <$> zget (g_thr g) this_thread.
Definition odp_thread_count (g : thread_globals_t) : Z := g_num g.
Definition odp_thread_count_max : Z := ODP_THREAD_COUNT_MAX.
(** The count and the mask that is written. *)
Definition odp_thrmask_worker (g : thread_globals_t) : Z * Z := (g_num_worker g, mask_of WORKER g).
Definition odp_thrmask_control (g : thread_globals_t) : Z * Z := (g_num_control g, mask_of CONTROL g).

(** * The invariant

    [live] are the numbers given out, with their types. *)

Definition of_type (ty : odp_thread_type_t) (live : list (Z * odp_thread_type_t)) : list (Z * odp_thread_type_t) :=
  filter (fun x => snd x = ty) live.
Arguments of_type : simpl never.

(** Mask [m] has exactly the bits of [l]. *)
Definition mask_is (m : Z) (l : list Z) : Prop := forall t, 0 <= t < 1024 -> Z.testbit m t = bool_decide (t ∈ l).

Record tinv (g : thread_globals_t) (live : list (Z * odp_thread_type_t)) : Prop := {
  ti_nodup : NoDup (fst <$> live);
  ti_range : forall t ty, (t, ty) ∈ live -> 0 <= t < ODP_THREAD_COUNT_MAX;
  ti_len : length (g_thr g) = 128%nat /\ length (g_masks g) = 256%nat;
  ti_all : mask_is (mask_of ALL g) (fst <$> live);
  ti_worker : mask_is (mask_of WORKER g) (fst <$> of_type ODP_THREAD_WORKER live);
  ti_control : mask_is (mask_of CONTROL g) (fst <$> of_type ODP_THREAD_CONTROL live);
  ti_num : g_num g = zlen live /\ g_num_worker g = zlen (of_type ODP_THREAD_WORKER live) /\
    g_num_control g = zlen (of_type ODP_THREAD_CONTROL live)
}.

(** The entries of the threads that finished their initialisation. *)
Definition entries_ok (g : thread_globals_t) (live : list (Z * odp_thread_type_t)) : Prop :=
  forall t ty, (t, ty) ∈ live -> exists st, zget (g_thr g) t = Some st /\ ts_thr st = t /\ ts_type st = ty.

Lemma mask_is_set m l t : 0 <= t < 1024 -> mask_is m l -> mask_is (odp_cpumask_set m t) (t :: l).
Proof.
  intros Ht Hm u Hu. unfold odp_cpumask_set. rewrite (proj2 (in_set_true t)) by done.
  destruct (decide (u = t)) as [->|Hne].
  - rewrite Z.setbit_eq by lia. symmetry. apply bool_decide_eq_true. set_solver.
  - rewrite Z.setbit_neq, Hm by lia. apply bool_decide_ext. set_solver.
Qed.

Lemma mask_is_clr m l l' t :
  0 <= t < 1024 -> mask_is m l -> (forall u, u ∈ l' <-> u ∈ l /\ u <> t) -> mask_is (odp_cpumask_clr m t) l'.
Proof.
  intros Ht Hm Hl u Hu. unfold odp_cpumask_clr. rewrite (proj2 (in_set_true t)) by done.
  destruct (decide (u = t)) as [->|Hne].
  - rewrite Z.clearbit_eq. symmetry. apply bool_decide_eq_false. rewrite Hl. tauto.
  - rewrite Z.clearbit_neq, Hm by lia. apply bool_decide_ext. rewrite Hl. tauto.
Qed.

Lemma isset_mask m l t : 0 <= t < 1024 -> mask_is m l -> odp_cpumask_isset m t = bool_decide (t ∈ l).
Proof. intros Ht Hm. unfold odp_cpumask_isset. rewrite (proj2 (in_set_true t)) by done. by apply Hm. Qed.

Lemma mask_of_alter i j f g :
  length (g_masks g) = 256%nat -> (i < 256)%nat ->
  mask_of j (on_mask i f g) = if decide (i = j) then f (mask_of i g) else mask_of j g.
Proof.
  intros Hl Hi. unfold mask_of, on_mask. simpl. destruct (decide (i = j)) as [<-|Hne].
  - rewrite list_lookup_alter_eq. destruct (lookup_lt_is_Some_2 (g_masks g) i) as [m ->]; [lia|done].
  - by rewrite list_lookup_alter_ne.
Qed.

Definition type_mask (ty : odp_thread_type_t) : nat :=
  match ty with ODP_THREAD_WORKER => WORKER | ODP_THREAD_CONTROL => CONTROL end.

(** An update of the mask of all threads and of the mask of a type. *)
Lemma both_mask f ty g j :
  length (g_masks g) = 256%nat ->
  mask_of j (on_mask (type_mask ty) f (on_mask ALL f g)) =
    if decide (j = ALL \/ j = type_mask ty) then f (mask_of j g) else mask_of j g.
Proof.
  intros Hl. rewrite mask_of_alter by (simpl; rewrite ?length_alter; destruct ty; unfold type_mask, WORKER, CONTROL; lia || done).
  rewrite !mask_of_alter by (unfold ALL; lia || done).
  destruct ty; unfold type_mask, ALL, WORKER, CONTROL; repeat case_decide; subst; try done; naive_solver lia.
Qed.

(** At most 128 numbers are given out. *)
Lemma live_bound g live : tinv g live -> zlen live <= 128.
Proof.
  intros Hi. unfold zlen. rewrite <- (length_fmap fst live).
  assert (length (fst <$> live) <= length (seqZ 0 128))%nat as Hle.
  { apply submseteq_length, NoDup_submseteq; [apply (ti_nodup _ _ Hi)|]. intros t ([t' ty] & -> & Hx)%list_elem_of_fmap.
    apply elem_of_seqZ. apply (ti_range _ _ Hi) in Hx. unfold ODP_THREAD_COUNT_MAX in Hx. simpl. lia. }
  rewrite length_seqZ in Hle. lia.
Qed.

Lemma free_number g live : tinv g live -> zlen live < 128 -> exists t, 0 <= t < 128 /\ t ∉ (fst <$> live).
Proof.
  intros Hi Hlt.
  destruct (decide (Exists (fun t => t ∉ (fst <$> live)) (seqZ 0 128))) as [He|He].
  - apply Exists_exists in He as (t & Ht%elem_of_seqZ & Hn). exists t. split; [lia|done].
  - exfalso. assert (length (seqZ 0 128) <= length (fst <$> live))%nat as Hle.
    { apply submseteq_length, NoDup_submseteq; [apply NoDup_seqZ|]. intros t Ht.
      destruct (decide (t ∈ (fst <$> live))) as [|Hn]; [done|]. exfalso. apply He, Exists_exists. by exists t. }
    rewrite length_seqZ, length_fmap in Hle. unfold zlen in Hlt. lia.
Qed.

Lemma of_type_length ty live : zlen (of_type ty live) <= zlen live.
Proof. unfold of_type, zlen. pose proof (length_filter (fun x : Z * odp_thread_type_t => snd x = ty) live). lia. Qed.

Lemma zlen_perm {A} (l l' : list A) : l ≡ₚ l' -> zlen l = zlen l'.
Proof. intros Hp. unfold zlen. by rewrite (Permutation_length Hp). Qed.

Lemma mask_is_perm m l l' : l ≡ₚ l' -> mask_is m l -> mask_is m l'.
Proof. intros Hp Hm t Ht. rewrite (Hm t Ht). apply bool_decide_ext. by rewrite Hp. Qed.

Lemma tinv_perm g live live' : live ≡ₚ live' -> tinv g live -> tinv g live'.
Proof.
  intros Hp [T1 T2 T3 T4 T5 T6 (T7 & T8 & T9)].
  assert (forall ty, of_type ty live ≡ₚ of_type ty live') as Hf by (intros ty; unfold of_type; by rewrite Hp).
  split; try done.
  - by rewrite <- Hp.
  - intros t ty Hx. rewrite <- Hp in Hx. by eapply T2.
  - eapply mask_is_perm; [|done]. by rewrite Hp.
  - eapply mask_is_perm; [|done]. by rewrite Hf.
  - eapply mask_is_perm; [|done]. by rewrite Hf.
  - rewrite T7, T8, T9. split; [by apply zlen_perm|]. split; by apply zlen_perm, Hf.
Qed.

Lemma of_type_cons ty t ty' live :
  of_type ty ((t, ty') :: live) = if decide (ty' = ty) then (t, ty') :: of_type ty live else of_type ty live.
Proof. unfold of_type. by rewrite filter_cons. Qed.

Lemma add_u32 x a : 0 <= x + a < 2 ^ 32 -> x +u32 a = x + a.
Proof. intros. by apply u32_small. Qed.

Ltac small_u32 := repeat match goal with |- context [?x +u32 ?a] => rewrite (add_u32 x a) by lia end.

(** What [alloc_loop] does with the number it finds. *)
Definition taken (t : Z) (ty : odp_thread_type_t) (g : thread_globals_t) : thread_globals_t :=
  let g := on_mask ALL (fun m => odp_cpumask_set m t) g in
  add_num 1 0 0
    match ty with
    | ODP_THREAD_WORKER => add_num 0 1 0 (on_mask WORKER (fun m => odp_cpumask_set m t) g)
    | ODP_THREAD_CONTROL => add_num 0 0 1 (on_mask CONTROL (fun m => odp_cpumask_set m t) g)
    end.

Lemma taken_inv t ty g live :
  tinv g live -> 0 <= t < 128 -> t ∉ (fst <$> live) -> tinv (taken t ty g) ((t, ty) :: live).
Proof.
  intros Hi Ht Hn. pose proof (live_bound g live Hi) as Hb.
  pose proof (of_type_length ODP_THREAD_WORKER live) as Hw. pose proof (of_type_length ODP_THREAD_CONTROL live) as Hc.
  destruct Hi as [T1 T2 [T3 T3'] T4 T5 T6 (T7 & T8 & T9)].
  assert (forall j, mask_of j (taken t ty g) =
    if decide (j = ALL \/ j = type_mask ty)
    then odp_cpumask_set (mask_of j g) t else mask_of j g) as Hmask.
  { intros j. rewrite <- (both_mask (fun m => odp_cpumask_set m t)) by done. by destruct ty. }
  assert (0 <= t < 1024) as Ht' by lia.
  assert (forall ty', mask_is (mask_of (type_mask ty') g) (fst <$> of_type ty' live) ->
    mask_is (mask_of (type_mask ty') (taken t ty g)) (fst <$> of_type ty' ((t, ty) :: live))) as Htype.
  { intros ty' Hm. rewrite Hmask, of_type_cons. destruct ty, ty'; repeat case_decide as Hd; try done;
      try (by apply mask_is_set); naive_solver lia. }
  split.
  - rewrite fmap_cons. apply NoDup_cons. done.
  - intros t' ty' [Heq|Hx]%elem_of_cons; [simplify_eq; unfold ODP_THREAD_COUNT_MAX; lia|by eapply T2].
  - unfold taken. destruct ty; simpl; by rewrite !length_alter.
  - rewrite Hmask, decide_True by auto. by apply mask_is_set.
  - apply (Htype ODP_THREAD_WORKER T5).
  - apply (Htype ODP_THREAD_CONTROL T6).
  - unfold zlen in *. unfold taken. destruct ty; simpl; rewrite ?T7, ?T8, ?T9, !of_type_cons;
      repeat case_decide; try done; small_u32; cbn [length]; unfold of_type in *; split_and!; lia.
Qed.

Lemma alloc_loop_spec n thr ty g live :
  tinv g live -> 0 <= thr -> thr + Z.of_nat n = 128 ->
  (exists t, thr <= t < 128 /\ t ∉ (fst <$> live)) ->
  exists t, alloc_loop n thr ty g = (t, taken t ty g) /\ thr <= t < 128 /\ (t ∉ (fst <$> live)) /\
    (forall u, thr <= u < t -> u ∈ (fst <$> live)).
Proof.
  intros Hi. revert thr. induction n as [|n IH]; intros thr H0 Hn (t & Ht & Hf); [lia|].
  cbn [alloc_loop]. rewrite (isset_mask _ (fst <$> live)) by (lia || apply Hi).
  destruct (decide (thr ∈ (fst <$> live))) as [Hin|Hout].
  - rewrite bool_decide_eq_true_2 by done.
    destruct (IH (thr + 1)) as (t' & Hr & Hb & Hf' & Hu); [lia|lia| |].
    { exists t. split; [|done]. assert (t <> thr) by (intros ->; done). lia. }
    exists t'. split; [done|]. split; [lia|]. split; [done|]. intros u Hub.
    destruct (decide (u = thr)) as [->|]; [done|]. apply Hu. lia.
  - rewrite bool_decide_eq_false_2 by done. exists thr. split; [by destruct ty|]. split; [lia|]. split; [done|]. lia.
Qed.

Lemma alloc_id_spec ty g live :
  tinv g live ->
  (zlen live = 128 /\ alloc_id ty g = (-1, g)) \/
  (exists t, zlen live < 128 /\ alloc_id ty g = (t, taken t ty g) /\ 0 <= t < 128 /\ (t ∉ (fst <$> live)) /\
     (forall u, 0 <= u < t -> u ∈ (fst <$> live)) /\ tinv (taken t ty g) ((t, ty) :: live)).
Proof.
  intros Hi. pose proof (live_bound g live Hi) as Hb. destruct (ti_num _ _ Hi) as (Hn & _).
  unfold alloc_id. rewrite Hn, Z.geb_leb. change ODP_THREAD_COUNT_MAX with 128. destruct (128 <=? zlen live) eqn:E; zbool.
  - left. split; [lia|done].
  - right. destruct (alloc_loop_spec (Z.to_nat 128) 0 ty g live) as (t & Hr & Htb & Hf & Hu); [done|lia|done| |].
    { destruct (free_number g live Hi E) as (t & ? & ?). exists t. done. }
    exists t. split_and!; try done; [lia..|]. by apply taken_inv.
Qed.

(** What [free_id] does to the table. *)
Definition dropped (t : Z) (ty : odp_thread_type_t) (g : thread_globals_t) : thread_globals_t :=
  let g := on_mask ALL (fun m => odp_cpumask_clr m t) g in
  add_num (-1) 0 0
    match ty with
    | ODP_THREAD_WORKER => add_num 0 (-1) 0 (on_mask WORKER (fun m => odp_cpumask_clr m t) g)
    | ODP_THREAD_CONTROL => add_num 0 0 (-1) (on_mask CONTROL (fun m => odp_cpumask_clr m t) g)
    end.

Lemma dropped_inv t ty g live : tinv g ((t, ty) :: live) -> tinv (dropped t ty g) live.
Proof.
  intros Hi. pose proof (live_bound _ _ Hi) as Hb. unfold zlen in Hb. simpl in Hb.
  pose proof (of_type_length ODP_THREAD_WORKER live) as Hw. pose proof (of_type_length ODP_THREAD_CONTROL live) as Hc.
  destruct Hi as [T1 T2 [T3 T3'] T4 T5 T6 (T7 & T8 & T9)].
  assert (0 <= t < 1024) as Ht by (pose proof (T2 t ty ltac:(set_solver)) as H; unfold ODP_THREAD_COUNT_MAX in H; lia).
  rewrite fmap_cons in T1. apply NoDup_cons in T1 as [Hnt Hnd]. simpl in Hnt.
  assert (forall j, mask_of j (dropped t ty g) =
    if decide (j = ALL \/ j = type_mask ty)
    then odp_cpumask_clr (mask_of j g) t else mask_of j g) as Hmask.
  { intros j. rewrite <- (both_mask (fun m => odp_cpumask_clr m t)) by done. by destruct ty. }
  assert (forall ty', mask_is (mask_of (type_mask ty') g)
            (fst <$> of_type ty' ((t, ty) :: live)) ->
          mask_is (mask_of (type_mask ty') (dropped t ty g))
            (fst <$> of_type ty' live)) as Htype.
  { intros ty' Hm. rewrite Hmask. rewrite of_type_cons in Hm.
    assert (t ∉ (fst <$> of_type ty' live)) as Hnf.
    { intros (x & -> & Hx)%list_elem_of_fmap. apply list_elem_of_filter in Hx as [_ Hx]. apply Hnt, list_elem_of_fmap. eauto. }
    destruct (decide (ty = ty')) as [<-|Hne].
    - rewrite decide_True by auto. eapply mask_is_clr; [done|exact Hm|]. set_solver.
    - rewrite decide_False; [done|]. destruct ty, ty'; naive_solver lia. }
  split.
  - done.
  - intros t' ty' Hx. eapply T2. by apply elem_of_cons; right.
  - unfold dropped. destruct ty; simpl; by rewrite !length_alter.
  - rewrite Hmask, decide_True by auto. eapply mask_is_clr; [done|exact T4|]. rewrite fmap_cons. set_solver.
  - apply (Htype ODP_THREAD_WORKER T5).
  - apply (Htype ODP_THREAD_CONTROL T6).
  - unfold zlen in *. rewrite of_type_cons in T8, T9. unfold dropped.
    destruct ty; simpl; repeat case_decide; try done; cbn [length] in *; rewrite T7, T8, T9; small_u32; unfold of_type in *; split_and!; lia.
Qed.

(** * Histories

    The tables that threads reach from start-up; [live] are the threads whose
    initialisation returned 0 and that have not terminated, [lost] the numbers
    that a start took and did not give back when [sched_getcpu] failed.  A start
    that fails is told from the mask of all threads: it gains a number or not. *)
Inductive threads : thread_globals_t -> list (Z * odp_thread_type_t) -> list (Z * odp_thread_type_t) -> Prop :=
| T_start : threads odp_thread_init_global [] []
| T_init type cpu g live lost t g' :
    threads g live lost -> odp_thread_init_local type cpu g = Some (0, Some t, g') ->
    threads g' ((t, type) :: live) lost
| T_full type cpu g live lost g' :
    threads g live lost -> odp_thread_init_local type cpu g = Some (-1, None, g') ->
    mask_of ALL g' = mask_of ALL g -> threads g' live lost
| T_lost type cpu g live lost t g' :
    threads g live lost -> odp_thread_init_local type cpu g = Some (-1, None, g') ->
    0 <= t < 1024 -> odp_cpumask_isset (mask_of ALL g) t = false ->
    odp_cpumask_isset (mask_of ALL g') t = true ->
    threads g' live ((t, type) :: lost)
| T_term g live1 t type live2 lost n g' :
    threads g (live1 ++ (t, type) :: live2) lost -> odp_thread_term_local t g = Some (n, g') ->
    threads g' (live1 ++ live2) lost.

Lemma mask_is_nil : mask_is 0 [].
Proof. intros t _. by rewrite Z.testbit_0_l. Qed.

Lemma start_inv : tinv odp_thread_init_global [] /\ entries_ok odp_thread_init_global [].
Proof.
  split; [|intros t ty Hx; by apply elem_of_nil in Hx]. split; try done.
  - constructor.
  - intros t ty Hx. by apply elem_of_nil in Hx.
  - apply mask_is_nil.
  - apply mask_is_nil.
  - apply mask_is_nil.
Qed.


(** A start: refused when all numbers are taken, a loss when the CPU is not
    known, and otherwise a new thread. *)
Lemma init_local_spec ty cpu g live lost :
  tinv g (live ++ lost) -> entries_ok g live ->
  (zlen (live ++ lost) = 128 /\ odp_thread_init_local ty cpu g = Some (-1, None, g)) \/
  (exists t g', zlen (live ++ lost) < 128 /\ 0 <= t < 128 /\
     (t ∉ (fst <$> live ++ lost)) /\ (forall u, 0 <= u < t -> u ∈ (fst <$> live ++ lost)) /\
     tinv g' ((t, ty) :: live ++ lost) /\
     ((0 <= cpu /\ odp_thread_init_local ty cpu g = Some (0, Some t, g') /\ entries_ok g' ((t, ty) :: live)) \/
      (cpu < 0 /\ odp_thread_init_local ty cpu g = Some (-1, None, g') /\ entries_ok g' live))).
Proof.
  intros Hi He. unfold odp_thread_init_local.
  destruct (alloc_id_spec ty g (live ++ lost) Hi) as [[Hf ->]|(t & Hl & -> & Ht & Hn & Hu & Hi')]; [by left|right].
  rewrite (proj2 (Z.ltb_ge t 0)) by lia. destruct (cpu <? 0) eqn:Ec; zbool.
  { exists t, (taken t ty g). split_and!; try done; [lia..|]. right. split_and!; [lia|done|].
    intros t' ty' Hx. destruct (He t' ty' Hx) as (st & Hg & ?). exists st. split; [|done]. by destruct ty. }
  assert (length (g_thr (taken t ty g)) = 128%nat) as Hlen by apply Hi'.
  pose proof (zset_Some (g_thr (taken t ty g)) t (TState t cpu ty) ltac:(unfold zlen; lia)) as Hs.
  set (l := <[Z.to_nat t:=TState t cpu ty]> (g_thr (taken t ty g))) in Hs. rewrite Hs.
  exists t, (set_thr l (taken t ty g)). split_and!; try done; [lia..| |left; split_and!; [lia|done|]].
  - destruct Hi' as [I1 I2 [I3 I3'] I4 I5 I6 I7]. split; try done. split; [|done]. unfold l. simpl. by rewrite length_insert.
  - intros t' ty' [Heq|Hx]%elem_of_cons.
    + simplify_eq. exists (TState t cpu ty). cbn [g_thr set_thr]. by rewrite (zget_zset _ _ _ _ _ Hs), bool_decide_eq_true_2.
    + destruct (He t' ty' Hx) as (st & Hg & ? & ?). exists st. split; [|done].
      cbn [g_thr set_thr]. rewrite (zget_zset _ _ _ _ _ Hs), bool_decide_eq_false_2; [by destruct ty|].
      intros <-. apply Hn, list_elem_of_fmap. exists (t, ty'). split; [done|]. set_solver.
Qed.

Lemma term_local_spec t ty g live1 live2 lost :
  tinv g ((live1 ++ (t, ty) :: live2) ++ lost) -> entries_ok g (live1 ++ (t, ty) :: live2) ->
  exists g', odp_thread_term_local t g = Some (zlen ((live1 ++ live2) ++ lost), g') /\
    tinv g' ((live1 ++ live2) ++ lost) /\ entries_ok g' (live1 ++ live2).
Proof.
  intros Hi He. set (used := (live1 ++ live2) ++ lost).
  assert ((t, ty) ∈ live1 ++ (t, ty) :: live2) as Hin by set_solver.
  destruct (He t ty Hin) as (st & Hg & Ht & Hty).
  assert ((live1 ++ (t, ty) :: live2) ++ lost ≡ₚ (t, ty) :: used) as Hp by (unfold used; solve_Permutation).
  pose proof (tinv_perm _ _ _ Hp Hi) as Hi'.
  pose proof (ti_range _ _ Hi' t ty ltac:(set_solver)) as Hr. unfold ODP_THREAD_COUNT_MAX in Hr.
  pose proof (dropped_inv t ty g used Hi') as Hd.
  exists (dropped t ty g). split; [|split; [done|]].
  - unfold odp_thread_term_local. rewrite Hg. cbn [mbind option_bind]. rewrite Ht. unfold free_id.
    rewrite (proj2 (Z.ltb_ge t 0)), Z.geb_leb, (proj2 (Z.leb_gt _ t)) by (unfold ODP_THREAD_COUNT_MAX; lia). cbn [orb].
    rewrite (isset_mask _ _ t) by (lia || apply (ti_all _ _ Hi')).
    rewrite bool_decide_eq_true_2 by (apply list_elem_of_fmap; exists (t, ty); set_solver). cbn [negb].
    cbv zeta. change (g_thr (on_mask ALL _ g)) with (g_thr g). rewrite Hg. cbn [mbind option_bind]. rewrite Hty.
    fold (dropped t ty g). pose proof (live_bound _ _ Hd) as Hb. destruct (ti_num _ _ Hd) as (Hn & _).
    rewrite Hn. rewrite (s32_small (zlen _)) by (unfold zlen in *; lia).
    rewrite (proj2 (Z.ltb_ge _ 0)) by (unfold zlen; lia). done.
  - intros t' ty' Hx. assert ((t', ty') ∈ live1 ++ (t, ty) :: live2) as Hx' by set_solver.
    destruct (He t' ty' Hx') as (st' & Hg' & ?). exists st'. split; [|done]. by destruct ty.
Qed.

Lemma lost_perm live lost (x : Z * odp_thread_type_t) : x :: live ++ lost ≡ₚ live ++ x :: lost.
Proof. apply Permutation_middle. Qed.

(** The number that a failed start took is the new one in the mask. *)
Lemma lost_number g g' used t t' ty :
  tinv g used -> tinv g' ((t, ty) :: used) -> 0 <= t' < 1024 ->
  odp_cpumask_isset (mask_of ALL g) t' = false -> odp_cpumask_isset (mask_of ALL g') t' = true -> t' = t.
Proof.
  intros Hi Hi' Ht' H0 H1.
  rewrite (isset_mask _ (fst <$> used)) in H0 by (lia || apply Hi).
  rewrite (isset_mask _ (fst <$> (t, ty) :: used)) in H1 by (lia || apply Hi').
  apply bool_decide_eq_false in H0. apply bool_decide_eq_true in H1. set_solver.
Qed.

Lemma threads_inv g live lost : threads g live lost -> tinv g (live ++ lost) /\ entries_ok g live.
Proof.
  induction 1 as [|ty cpu g live lost t g' _ [Hi He] Hr|ty cpu g live lost g' _ [Hi He] Hr Hm
    |ty cpu g live lost t g' _ [Hi He] Hr Ht H0 H1|g live1 t ty live2 lost n g' _ [Hi He] Hr].
  - apply start_inv.
  - destruct (init_local_spec ty cpu g live lost Hi He)
      as [[_ Heq]|(t' & g1 & _ & _ & _ & _ & Hi1 & [(_ & Heq & He1)|(_ & Heq & _)])]; rewrite Heq in Hr; by simplify_eq.
  - destruct (init_local_spec ty cpu g live lost Hi He)
      as [[_ Heq]|(t' & g1 & _ & Ht & Hn & _ & Hi1 & [(_ & Heq & _)|(_ & Heq & _)])]; rewrite Heq in Hr; simplify_eq; [done|].
    exfalso. pose proof (ti_all _ _ Hi1) as Hm1. rewrite Hm in Hm1.
    pose proof (isset_mask _ _ t' ltac:(lia) (ti_all _ _ Hi)) as E0.
    rewrite (isset_mask _ _ t' ltac:(lia) Hm1), bool_decide_eq_true_2, bool_decide_eq_false_2 in E0; [done|done|set_solver].
  - destruct (init_local_spec ty cpu g live lost Hi He)
      as [[_ Heq]|(t' & g1 & _ & _ & _ & _ & Hi1 & [(_ & Heq & _)|(_ & Heq & He1)])]; rewrite Heq in Hr; simplify_eq; [congruence|].
    rewrite (lost_number _ _ _ _ _ _ Hi Hi1 Ht H0 H1). split; [|done].
    by apply (tinv_perm _ ((t', ty) :: live ++ lost)), Hi1; apply lost_perm.
  - destruct (term_local_spec t ty g live1 live2 lost Hi He) as (g1 & Heq & ?). rewrite Heq in Hr. by simplify_eq.
Qed.

(** C23: Thread numbers are well-formed in every history of threads starting and
    terminating one call at a time, whether [sched_getcpu] succeeds or not.  Next
    to the numbers of live threads there are those that a start took and lost
    when [sched_getcpu] failed ([thread_number_leak]); all are distinct.  A start
    fails when 128 numbers are taken, and then changes nothing; otherwise the
    smallest number that is not taken goes to the new thread, or is lost when
    [sched_getcpu] fails.  A live thread reads back its own number and type; its
    termination succeeds and returns how many numbers are left.  The worker and
    control masks, and the counts returned with them, are those of the numbers
    taken for the type. *)
Theorem thread_numbers g live lost :
  threads g live lost ->
  let used := live ++ lost in
  NoDup (fst <$> used) /\
  (forall type cpu,
    (zlen used = 128 /\ odp_thread_init_local type cpu g = Some (-1, None, g)) \/
    (exists t g', zlen used < 128 /\ 0 <= t < 128 /\
       (t ∉ (fst <$> used)) /\ (forall u, 0 <= u < t -> u ∈ (fst <$> used)) /\
       ((0 <= cpu /\ odp_thread_init_local type cpu g = Some (0, Some t, g')) \/
        (cpu < 0 /\ odp_thread_init_local type cpu g = Some (-1, None, g') /\
         threads g' live ((t, type) :: lost))))) /\
  (forall live1 t type live2, live = live1 ++ (t, type) :: live2 ->
    odp_thread_id t g = Some t /\ odp_thread_type t g = Some type /\
    exists g', odp_thread_term_local t g = Some (zlen used - 1, g')) /\
  odp_thread_count g = zlen used /\
  (exists m, odp_thrmask_worker g = (zlen (of_type ODP_THREAD_WORKER used), m) /\
     mask_is m (fst <$> of_type ODP_THREAD_WORKER used)) /\
  (exists m, odp_thrmask_control g = (zlen (of_type ODP_THREAD_CONTROL used), m) /\
     mask_is m (fst <$> of_type ODP_THREAD_CONTROL used)).
Proof.
  intros Hth used. destruct (threads_inv _ _ _ Hth) as [Hi He].
  split; [apply (ti_nodup _ _ Hi)|]. split; [|split].
  - intros ty cpu. destruct (init_local_spec ty cpu g live lost Hi He)
      as [?|(t & g' & Hl & Ht & Hn & Hu & Hi' & Hcase)]; [by left|right].
    exists t, g'. split_and!; try done; [lia..|]. destruct Hcase as [(Hc & Hr & _)|(Hc & Hr & _)]; [by left|right].
    split_and!; [done|done|]. eapply T_lost; [exact Hth|exact Hr|lia|..].
    + rewrite (isset_mask _ _ t ltac:(lia) (ti_all _ _ Hi)). by apply bool_decide_eq_false_2.
    + rewrite (isset_mask _ _ t ltac:(lia) (ti_all _ _ Hi')). apply bool_decide_eq_true_2. set_solver.
  - intros live1 t ty live2 ->. destruct (He t ty ltac:(set_solver)) as (st & Hg & Ht & Hty).
    unfold odp_thread_id, odp_thread_type. rewrite Hg. cbn. rewrite Ht, Hty. split; [done|]. split; [done|].
    destruct (term_local_spec t ty g live1 live2 lost Hi He) as (g' & Heq & _). exists g'. rewrite Heq.
    unfold used, zlen. rewrite !length_app. cbn [length]. do 2 f_equal. lia.
  - destruct (ti_num _ _ Hi) as (Hn & Hw & Hc). split; [done|]. unfold odp_thrmask_worker, odp_thrmask_control. rewrite Hw, Hc.
    split; eexists; (split; [done|]); apply Hi.
Qed.

(** Two starts and a termination. *)
Definition ex_run : option thread_globals_t :=
  '(_, _, g) ← odp_thread_init_local ODP_THREAD_WORKER 3 odp_thread_init_global;
  '(_, _, g) ← odp_thread_init_local ODP_THREAD_CONTROL 1 g;
  '(_, g) ← odp_thread_term_local 0 g;
  Some g.

Lemma thread_numbers_witness :
  exists g, ex_run = Some g /\ threads g [(1, ODP_THREAD_CONTROL)] [] /\
    odp_thread_count g = zlen [(1, ODP_THREAD_CONTROL)].
Proof.
  destruct (odp_thread_init_local ODP_THREAD_WORKER 3 odp_thread_init_global) as [[[r1 o1] g1]|] eqn:E1; [|by vm_compute in E1].
  destruct (odp_thread_init_local ODP_THREAD_CONTROL 1 g1) as [[[r2 o2] g2]|] eqn:E2; [|by vm_compute in E1; simplify_eq; vm_compute in E2].
  destruct (odp_thread_term_local 0 g2) as [[n g3]|] eqn:E3;
    [|by vm_compute in E1; simplify_eq; vm_compute in E2; simplify_eq; vm_compute in E3].
  assert (r1 = 0 /\ o1 = Some 0) as [-> ->] by (vm_compute in E1; by simplify_eq).
  assert (r2 = 0 /\ o2 = Some 1) as [-> ->] by (vm_compute in E1; simplify_eq; vm_compute in E2; by simplify_eq).
  exists g3. unfold ex_run. rewrite E1. cbn [mbind option_bind]. rewrite E2. cbn [mbind option_bind]. rewrite E3. split; [done|].
  assert (threads g3 [(1, ODP_THREAD_CONTROL)] []) as Ht.
  { apply (T_term g2 [(1, ODP_THREAD_CONTROL)] 0 ODP_THREAD_WORKER [] [] n g3); [|done].
    eapply T_init; [eapply T_init; [apply T_start|exact E1]|exact E2]. }
  split; [done|]. apply (thread_numbers g3 [(1, ODP_THREAD_CONTROL)] [] Ht).
Defined.

(** A start whose [sched_getcpu] fails, [n] times. *)
Fixpoint failed_starts (n : nat) (g : thread_globals_t) : thread_globals_t :=
  match n with
  | O => g
  | S n => match odp_thread_init_local ODP_THREAD_WORKER (-1) g with
           | Some (_, _, g) => failed_starts n g
           | None => g
           end
  end.

(** A start that fails because [sched_getcpu] failed keeps the number it took:
    after 128 of them no thread lives and no thread can start any more. *)
Theorem thread_number_leak :
  let g := failed_starts 128 odp_thread_init_global in
  odp_thread_count g = 128 /\ odp_thread_init_local ODP_THREAD_WORKER 0 g = Some (-1, None, g).
Proof. vm_compute. done. Qed.

End Thread.
