(* ===== verification/Tables.v ===== *)
(** Key-value tables of the helper library: helper/hashtable.c over the doubly
    linked lists of helper/odph_list_internal.h, and helper/lineartable.c.  The
    list objects of the bucket heads and of the nodes are two maps from
    addresses, one per field; a node's content is the bytes of its key followed
    by those of its value.  Each call is one step. *)

From S2P Require Import Prelude Pool.

Open Scope Z_scope.
Open Scope c_scope.

(** * Doubly linked lists *)

Module OdphList.

Record links := Links { l_next : gmap Z Z; l_prev : gmap Z Z }.

Definition ODPH_INIT_LIST_HEAD (list : Z) (m : links) : links :=
  Links (<[list := list]> (l_next m)) (<[list := list]> (l_prev m)).

(** [__odph_list_add] *)
Definition list_add_between (new prev next : Z) (m : links) : links :=
  let m := Links (l_next m) (<[next := new]> (l_prev m)) in
  let m := Links (<[new := next]> (l_next m)) (l_prev m) in
  let m := Links (l_next m) (<[new := prev]> (l_prev m)) in
  Links (<[prev := new]> (l_next m)) (l_prev m).

Definition odph_list_add (new head : Z) (m : links) : option links :=
  next ← l_next m !! head;
  Some (list_add_between new head next m).

Definition odph_list_add_tail (new head : Z) (m : links) : option links :=
  prev ← l_prev m !! head;
  Some (list_add_between new prev head m).

(** [__odph_list_del] *)
Definition list_del_between (prev next : Z) (m : links) : links :=
  let m := Links (l_next m) (<[next := prev]> (l_prev m)) in
  Links (<[prev := next]> (l_next m)) (l_prev m).

Definition odph_list_del (entry : Z) (m : links) : option links :=
  prev ← l_prev m !! entry;
  next ← l_next m !! entry;
  Some (ODPH_INIT_LIST_HEAD entry (list_del_between prev next m)).

Definition odph_list_empty (head : Z) (m : links) : option bool :=
  next ← l_next m !! head; Some (next =? head).

(** ** Paths *)

(** From [a] the pointers lead through [l] to [z]. *)
Fixpoint path (f : gmap Z Z) (a : Z) (l : list Z) (z : Z) : Prop :=
  match l with
  | [] => f !! a = Some z
  | b :: l => f !! a = Some b /\ path f b l z
  end.

(** A circular list through [head]. *)
Definition dlist (m : links) (head : Z) (l : list Z) : Prop :=
  path (l_next m) head l head /\ path (l_prev m) head (reverse l) head.

Lemma path_app f a l1 x l2 z : path f a (l1 ++ x :: l2) z <-> path f a l1 x /\ path f x l2 z.
Proof. revert a. induction l1 as [|b l1 IH]; intros a; simpl; [done|]. rewrite IH. tauto. Qed.

Lemma path_insert_ne f a l z y v : y ∉ a :: l -> path f a l z -> path (<[y := v]> f) a l z.
Proof.
  revert a. induction l as [|b l IH]; intros a Hy; simpl.
  - rewrite lookup_insert_ne; set_solver.
  - intros [Ha Hp]. rewrite lookup_insert_ne by set_solver. split; [done|]. apply IH; [set_solver|done].
Qed.

(** The last object of a path from [a] through [l]. *)
Fixpoint end_of (a : Z) (l : list Z) : Z :=
  match l with [] => a | b :: l => end_of b l end.

Lemma end_of_in a l : end_of a l ∈ a :: l.
Proof. revert a. induction l as [|b l IH]; intros a; simpl; [set_solver|]. specialize (IH b). set_solver. Qed.

Lemma end_of_snoc a l x : end_of a (l ++ [x]) = x.
Proof. revert a. induction l as [|b l IH]; intros a; simpl; [done|]. apply IH. Qed.

Lemma end_of_app a l1 x l2 : end_of a (l1 ++ x :: l2) = end_of x l2.
Proof. revert a. induction l1 as [|b l IH]; intros a; simpl; [done|]. apply IH. Qed.

(** Redirecting the last object of a path. *)
Lemma path_redirect f a l z z' :
  NoDup (a :: l) -> path f a l z -> path (<[end_of a l := z']> f) a l z'.
Proof.
  revert a. induction l as [|b l IH]; intros a Hnd Hp; simpl.
  - by rewrite lookup_insert_eq.
  - destruct Hp as [Ha Hp]. apply NoDup_cons in Hnd as [Hna Hnd]. split; [|by apply IH].
    rewrite lookup_insert_ne; [done|]. pose proof (end_of_in b l). set_solver.
Qed.

(** The object a path that starts in [l] leads to first. *)
Definition start_of (l : list Z) (z : Z) : Z := default z (head l).

Lemma path_first f a l z : path f a l z -> f !! a = Some (start_of l z).
Proof. destruct l; [done|]. by intros [? _]. Qed.

Lemma end_of_reverse a l : end_of a (reverse l) = start_of l a.
Proof. destruct l as [|x l]; [done|]. by rewrite reverse_cons, end_of_snoc. Qed.

Lemma start_of_reverse a l : start_of (reverse l) a = end_of a l.
Proof. rewrite <- (reverse_involutive l) at 2. by rewrite end_of_reverse. Qed.

(** Unlinking [x] from one direction of a circular list. *)
Lemma path_unlink f h l1 x l2 :
  NoDup (h :: l1 ++ x :: l2) -> path f h (l1 ++ x :: l2) h ->
  path (<[end_of h l1 := start_of l2 h]> f) h (l1 ++ l2) h.
Proof.
  intros Hnd [H1 H2]%path_app.
  assert (NoDup (h :: l1)) as Hnd1.
  { apply (NoDup_app (h :: l1) (x :: l2)) in Hnd. apply Hnd. }
  assert (forall y, y ∈ h :: l1 -> y ∉ x :: l2) as Hdis.
  { apply (NoDup_app (h :: l1) (x :: l2)) in Hnd. apply Hnd. }
  destruct l2 as [|y l2]; simpl.
  - rewrite app_nil_r. by apply (path_redirect f h l1 x).
  - destruct H2 as [_ H2]. apply path_app. split; [by apply (path_redirect f h l1 x)|].
    apply path_insert_ne; [|done]. intros Hin. apply (Hdis _ (end_of_in h l1)). set_solver.
Qed.

(** ** The operations on circular lists *)

Lemma dlist_init m h : dlist (ODPH_INIT_LIST_HEAD h m) h [].
Proof. split; simpl; by rewrite lookup_insert_eq. Qed.

Lemma dlist_other m m' h l :
  (forall x, x ∈ h :: l -> l_next m' !! x = l_next m !! x /\ l_prev m' !! x = l_prev m !! x) ->
  dlist m h l -> dlist m' h l.
Proof.
  assert (forall f f' a k z, (forall x, x ∈ a :: k -> f' !! x = f !! x) -> path f a k z -> path f' a k z) as Hext.
  { intros f f' a k z. revert a. induction k as [|b k IH]; intros a He; simpl.
    - by rewrite He by set_solver.
    - intros [Ha Hp]. rewrite He by set_solver. split; [done|]. apply IH; [|done]. intros x Hx. apply He. set_solver. }
  intros He [Hn Hp]. split; (eapply Hext; [|eassumption]); intros x Hx.
  - by apply He.
  - apply He. apply elem_of_cons in Hx as [->|Hx]; [set_solver|]. apply elem_of_reverse in Hx. set_solver.
Qed.

Lemma list_add_dlist m h l new :
  dlist m h l -> NoDup (h :: l) -> new ∉ h :: l ->
  exists m', odph_list_add new h m = Some m' /\ dlist m' h (new :: l) /\
    (forall x, x ∉ new :: h :: l -> l_next m' !! x = l_next m !! x /\ l_prev m' !! x = l_prev m !! x).
Proof.
  intros [Hn Hp] Hnd Hnew. unfold odph_list_add. rewrite (path_first _ _ _ _ Hn). cbn [mbind option_bind].
  eexists. split; [done|].
  assert (start_of l h ∈ h :: l) as Hs by (destruct l; simpl; set_solver).
  split; [split|]; simpl.
  - rewrite lookup_insert_eq. split; [done|]. destruct l as [|x l]; simpl in *.
    + rewrite lookup_insert_ne, lookup_insert_eq by set_solver. done.
    + rewrite lookup_insert_ne, lookup_insert_eq by set_solver. split; [done|].
      apply NoDup_cons in Hnd as [Hnh _]. do 2 (apply path_insert_ne; [set_solver|]). apply Hn.
  - rewrite reverse_cons. apply path_app. simpl. rewrite lookup_insert_eq. split; [|done].
    apply path_insert_ne; [rewrite elem_of_cons, elem_of_reverse; set_solver|].
    rewrite <- (end_of_reverse h l). apply (path_redirect _ _ _ h); [|done].
    apply NoDup_cons in Hnd as [? ?]. apply NoDup_cons. rewrite elem_of_reverse. split; [done|]. by rewrite reverse_Permutation.
  - intros x Hx. rewrite !lookup_insert_ne by set_solver. done.
Qed.

Lemma list_del_dlist m h l1 x l2 :
  dlist m h (l1 ++ x :: l2) -> NoDup (h :: l1 ++ x :: l2) ->
  exists m', odph_list_del x m = Some m' /\ dlist m' h (l1 ++ l2) /\
    (forall y, y ∉ h :: l1 ++ x :: l2 -> l_next m' !! y = l_next m !! y /\ l_prev m' !! y = l_prev m !! y).
Proof.
  intros [Hn Hp] Hnd. unfold odph_list_del.
  assert (reverse (l1 ++ x :: l2) = reverse l2 ++ x :: reverse l1) as Hrev.
  { rewrite reverse_app, reverse_cons, <- app_assoc. done. }
  rewrite Hrev in Hp. pose proof (proj2 (proj1 (path_app _ _ _ _ _ _) Hn)) as Hxn.
  pose proof (proj2 (proj1 (path_app _ _ _ _ _ _) Hp)) as Hxp.
  rewrite (path_first _ _ _ _ Hxp), (path_first _ _ _ _ Hxn), start_of_reverse. cbn [mbind option_bind].
  eexists. split; [done|].
  assert (x ∉ h :: l1 ++ l2) as Hx.
  { rewrite <- Permutation_middle in Hnd. apply NoDup_cons in Hnd as [Hh Hnd]. apply NoDup_cons in Hnd as [Hx _]. set_solver. }
  assert (end_of h l1 ∈ h :: l1) as He by apply end_of_in.
  assert (start_of l2 h ∈ h :: l2) as Hs by (destruct l2; simpl; set_solver).
  split; [split|]; simpl.
  - apply path_insert_ne; [done|]. by apply (path_unlink _ _ _ x).
  - rewrite reverse_app. apply path_insert_ne; [rewrite elem_of_cons, elem_of_app, !elem_of_reverse; set_solver|].
    rewrite <- (end_of_reverse h l2), <- (start_of_reverse h l1). apply (path_unlink _ _ _ x); [|done].
    rewrite <- Hrev. apply NoDup_cons in Hnd as [Hh Hnd]. apply NoDup_cons. rewrite elem_of_reverse. split; [done|].
    by rewrite reverse_Permutation.
  - intros y Hy. rewrite !lookup_insert_ne by set_solver. done.
Qed.

End OdphList.

(** * The hash table *)

Module HashTable.
Import Pool OdphList.

Definition ODPH_SUCCESS : Z := 0.
Definition ODPH_FAIL : Z := -1.
Definition ODPH_HASH_TABLE_MAGIC_WORD : Z := 0xABABBABA.
Definition ODPH_MAX_BUCKET_NUM : Z := 0x10000.
Definition ODPH_TABLE_NAME_LEN : Z := 32.

(** Sizes of the structures. *)
Definition sizeof_imp : Z := 96.
Definition sizeof_rwlock : Z := 4.
Definition sizeof_list_head : Z := 16.
Definition sizeof_hash_node : Z := 16.

Record odph_hash_table_imp := HT {
  t_addr : Z;
  t_magicword : Z;
  t_key_size : Z;
  t_value_size : Z;
  t_init_cap : Z;
  t_lock_pool : Z;
  t_list_head_pool : Z;
  t_hash_node_pool : Z;
  t_hash_node_num : Z;
  t_name : string;
  t_links : links;
  t_content : gmap Z (list Z)
}.

Definition set_links (v : links) (t : odph_hash_table_imp) : odph_hash_table_imp :=
  HT (t_addr t) (t_magicword t) (t_key_size t) (t_value_size t) (t_init_cap t) (t_lock_pool t) (t_list_head_pool t)
    (t_hash_node_pool t) (t_hash_node_num t) (t_name t) v (t_content t).
Definition set_content (v : gmap Z (list Z)) (t : odph_hash_table_imp) : odph_hash_table_imp :=
  HT (t_addr t) (t_magicword t) (t_key_size t) (t_value_size t) (t_init_cap t) (t_lock_pool t) (t_list_head_pool t)
    (t_hash_node_pool t) (t_hash_node_num t) (t_name t) (t_links t) v.
Definition set_magic (v : Z) (t : odph_hash_table_imp) : odph_hash_table_imp :=
  HT (t_addr t) v (t_key_size t) (t_value_size t) (t_init_cap t) (t_lock_pool t) (t_list_head_pool t)
    (t_hash_node_pool t) (t_hash_node_num t) (t_name t) (t_links t) (t_content t).

(** [&tbl->list_head_pool\[i\]] and the address of node [idx]. *)
Definition bucket_head (t : odph_hash_table_imp) (i : Z) : Z := t_list_head_pool t + i * sizeof_list_head.
Definition node_at (t : odph_hash_table_imp) (idx : Z) : Z :=
  t_hash_node_pool t + idx * (sizeof_hash_node + t_key_size t + t_value_size t).

(** [for (i = 0; i < ODPH_MAX_BUCKET_NUM; i++)]: [n] rounds are left; [None] when
    a head or a lock lies outside the reserved memory. *)
Fixpoint init_heads (n : nat) (i : Z) (t : odph_hash_table_imp) : option odph_hash_table_imp :=
  match n with
  | O => Some t
  | S n =>
      let limit := t_addr t + t_init_cap t in
      if (bucket_head t i + sizeof_list_head >? limit) ||
         (t_lock_pool t + (i + 1) * sizeof_rwlock >? limit) then None
      else init_heads n (i + 1) (set_links (ODPH_INIT_LIST_HEAD (bucket_head t i) (t_links t)) t)
  end.

(** [exists_already]: the name is in use in shared memory; [addr]: the address of
    the memory that was reserved, [NULL] when there was none.  [None] is an
    access outside that memory, [Some None] the return value [NULL]. *)
Definition odph_hash_table_create (name : string) (capacity key_size value_size : Z)
    (exists_already : bool) (addr : Z) : option (option odph_hash_table_imp) :=
  if (Z.of_nat (String.length name) >=? ODPH_TABLE_NAME_LEN) || (capacity <? 1) ||
     (capacity >=? 0x1000) || (key_size =? 0) || (value_size =? 0) then Some None
  else if exists_already then Some None
  else if addr =? NULL then Some None
  else
    let init_cap := u32 (Z.shiftl capacity 20) in
    let lock_pool := addr + sizeof_imp in
    let list_head_pool := lock_pool + ODPH_MAX_BUCKET_NUM * sizeof_rwlock in
    let node_mem := u32 (init_cap - sizeof_imp - ODPH_MAX_BUCKET_NUM * sizeof_list_head
                          - ODPH_MAX_BUCKET_NUM * sizeof_rwlock) in
    let node_size := sizeof_hash_node + key_size + value_size in
    let node_num := node_mem / node_size in
    let hash_node_pool := list_head_pool + ODPH_MAX_BUCKET_NUM * sizeof_list_head in
    let nodes := (fun idx => hash_node_pool + idx * node_size) <$> seqZ 0 node_num in
    let zeros := list_to_map ((fun a => (a, NULL)) <$> nodes) in
    let t := HT addr 0 key_size value_size init_cap lock_pool list_head_pool hash_node_pool node_num name
               (Links zeros zeros)
               (list_to_map ((fun a => (a, replicate (Z.to_nat (key_size + value_size)) 0)) <$> nodes)) in
    t ← init_heads (Z.to_nat ODPH_MAX_BUCKET_NUM) 0 t;
    Some (Some (set_magic ODPH_HASH_TABLE_MAGIC_WORD t)).

(** [shm_free] is what [odp_shm_free] returned; no table stands for [NULL]. *)
Definition odph_hash_table_destroy (table : option odph_hash_table_imp) (shm_free : Z) : Z :=
  match table with
  | None => ODPH_FAIL
  | Some hash_tbl =>
      if negb (t_magicword hash_tbl =? ODPH_HASH_TABLE_MAGIC_WORD) then ODPH_FAIL
      else if negb (shm_free =? 0) then shm_free else ODPH_SUCCESS
  end.

(** [hash_tbl] is what lies in the shared memory of that name. *)
Definition odph_hash_table_lookup (name : string) (hash_tbl : option odph_hash_table_imp) : option odph_hash_table_imp :=
  if Z.of_nat (String.length name) >=? ODPH_TABLE_NAME_LEN then None
  else
    match hash_tbl with
    | Some t => if bool_decide (t_name t = name) then Some t else None
    | None => None
    end.

Section table.
(** Whether [char] is signed. *)
Context (char_signed : bool).

(** [(uint32_t)( *(char * )key)] of a byte. *)
Definition char_u32 (b : Z) : Z := if char_signed && (b >=? 128) then u32 (b - 256) else b.

Fixpoint hash_loop (idx : nat) (ch hash : Z) : Z :=
  match idx with
  | O => hash
  | S idx => hash_loop idx ch (hash *u32 131 +u32 ch)
  end.

(** [key] is the bytes the pointer leads to; it is not advanced. *)
Definition odp_key_hash (key : list Z) (key_size : Z) : option Z :=
  let idx := if key_size =? 0 then 1 else key_size in
  b ← zget key 0;
  Some (hash_loop (Z.to_nat idx) (char_u32 b) 0 & 0x0000FFFF).

(** The search for a free node from [idx] on; [n] are left. *)
Fixpoint take_loop (n : nat) (idx : Z) (t : odph_hash_table_imp) : option (Z * odph_hash_table_imp) :=
  match n with
  | O => Some (NULL, t)
  | S n =>
      let node := node_at t idx in
      next ← l_next (t_links t) !! node;
      prev ← l_prev (t_links t) !! node;
      if (next =? NULL) && (prev =? NULL)
      then Some (node, set_links (ODPH_INIT_LIST_HEAD node (t_links t)) t)
      else take_loop n (idx + 1) t
  end.

Definition odp_hashnode_take (t : odph_hash_table_imp) : option (Z * odph_hash_table_imp) :=
  take_loop (Z.to_nat (t_hash_node_num t)) 0 t.

Definition odp_hashnode_give (t : odph_hash_table_imp) (node : Z) : option odph_hash_table_imp :=
  if node =? NULL then Some t
  else
    m ← odph_list_del node (t_links t);
    let m := Links (<[node := NULL]> (l_next m)) (<[node := NULL]> (l_prev m)) in
    Some (set_content (<[node := replicate (Z.to_nat (t_key_size t + t_value_size t)) 0]> (t_content t)) (set_links m t)).

(** [ODPH_LIST_FOR_EACH] with the comparison of keys: the node whose key is
    [key].  There are at most [hash_node_num] nodes on a list. *)
Fixpoint find_node (fuel : nat) (t : odph_hash_table_imp) (node head : Z) (key : list Z) : option (option Z) :=
  match fuel with
  | O => None
  | S fuel =>
      if node =? head then Some None
      else
        content ← t_content t !! node;
        if bool_decide (take (Z.to_nat (t_key_size t)) content = take (Z.to_nat (t_key_size t)) key) then Some (Some node)
        else
          next ← l_next (t_links t) !! node;
          find_node fuel t next head key
  end.

Definition search (t : odph_hash_table_imp) (hash : Z) (key : list Z) : option (option Z) :=
  first ← l_next (t_links t) !! bucket_head t hash;
  find_node (S (Z.to_nat (t_hash_node_num t))) t first (bucket_head t hash) key.

(** [memcpy] of a value behind the key of a node. *)
Definition store_value (t : odph_hash_table_imp) (node : Z) (value : list Z) : option odph_hash_table_imp :=
  content ← t_content t !! node;
  Some (set_content (<[node := take (Z.to_nat (t_key_size t)) content ++ take (Z.to_nat (t_value_size t)) value]> (t_content t)) t).

(** What is done with a new node: copy key and value, add it to the list. *)
Definition link_node (t : odph_hash_table_imp) (node hash : Z) (key value : list Z) : option odph_hash_table_imp :=
  let t := set_content (<[node := take (Z.to_nat (t_key_size t)) key ++ take (Z.to_nat (t_value_size t)) value]> (t_content t)) t in
  m ← odph_list_add node (bucket_head t hash) (t_links t);
  Some (set_links m t).

(** A call with a null table, key or value returns [ODPH_FAIL] at once; [key] and
    [value] are the bytes behind the pointers. *)
Definition odph_hash_put_value (t : odph_hash_table_imp) (key value : list Z) : option (Z * odph_hash_table_imp) :=
  hash ← odp_key_hash key (t_key_size t);
  found ← search t hash key;
  match found with
  | Some node => t ← store_value t node value; Some (ODPH_SUCCESS, t)
  | None =>
      '(node, t) ← odp_hashnode_take t;
      if node =? NULL then Some (ODPH_FAIL, t)
      else t ← link_node t node hash key value; Some (ODPH_SUCCESS, t)
  end.

(** The bytes written to the buffer of [buffer_size] bytes. *)
Definition odph_hash_get_value (t : odph_hash_table_imp) (key : list Z) (buffer_size : Z) : option (Z * list Z) :=
  if buffer_size <? t_value_size t then Some (ODPH_FAIL, [])
  else
    hash ← odp_key_hash key (t_key_size t);
    found ← search t hash key;
    match found with
    | Some node =>
        content ← t_content t !! node;
        Some (ODPH_SUCCESS, take (Z.to_nat (t_value_size t)) (drop (Z.to_nat (t_key_size t)) content))
    | None => Some (ODPH_FAIL, [])
    end.

Definition odph_hash_remove_value (t : odph_hash_table_imp) (key : list Z) : option (Z * odph_hash_table_imp) :=
  hash ← odp_key_hash key (t_key_size t);
  found ← search t hash key;
  match found with
  | Some node => t ← odp_hashnode_give t node; Some (ODPH_SUCCESS, t)
  | None => Some (ODPH_SUCCESS, t)
  end.

(** * The table as a map *)

Abbreviation entry := (Z * (list Z * list Z))%type.
Abbreviation table_map := (gmap (list Z) (list Z)).

Inductive table_op :=
  | Put (key value : list Z)
  | Get (key : list Z) (buffer_size : Z)
  | Remove (key : list Z).

(** What a call returns: the code and the bytes written to the caller. *)
Definition step (o : table_op) (t : odph_hash_table_imp) : option ((Z * list Z) * odph_hash_table_imp) :=
  match o with
  | Put k v => '(r, t) ← odph_hash_put_value t k v; Some ((r, []), t)
  | Get k n => r ← odph_hash_get_value t k n; Some (r, t)
  | Remove k => '(r, t) ← odph_hash_remove_value t k; Some ((r, []), t)
  end.

Fixpoint run (os : list table_op) (t : odph_hash_table_imp) : option (list (Z * list Z) * odph_hash_table_imp) :=
  match os with
  | [] => Some ([], t)
  | o :: os => '(r, t) ← step o t; '(rs, t) ← run os t; Some (r :: rs, t)
  end.

(** A map of at most [num] keys; values have [vs] bytes. *)
Definition step_spec (num vs : Z) (o : table_op) (M : table_map) : (Z * list Z) * table_map :=
  match o with
  | Put k v =>
      if bool_decide (is_Some (M !! k)) || (Z.of_nat (size M) <? num) then ((ODPH_SUCCESS, []), <[k := v]> M)
      else ((ODPH_FAIL, []), M)
  | Get k n =>
      match (if n <? vs then None else M !! k) with
      | Some v => ((ODPH_SUCCESS, v), M)
      | None => ((ODPH_FAIL, []), M)
      end
  | Remove k => ((ODPH_SUCCESS, []), delete k M)
  end.

Fixpoint run_spec (num vs : Z) (os : list table_op) (M : table_map) : list (Z * list Z) * table_map :=
  match os with
  | [] => ([], M)
  | o :: os => let '(r, M) := step_spec num vs o M in let '(rs, M) := run_spec num vs os M in (r :: rs, M)
  end.

(** Arguments of the right size. *)
Definition op_ok (ks vs : Z) (o : table_op) : Prop :=
  match o with
  | Put k v => zlen k = ks /\ zlen v = vs
  | Get k _ | Remove k => zlen k = ks
  end.

(** ** The representation invariant

    [E] lists the nodes in use with their keys and values, the node added last
    first; the nodes of a bucket are on its list in that order. *)

Definition bucket_of (ks : Z) (E : list entry) (h : Z) : list Z :=
  fst <$> filter (fun e => odp_key_hash (fst (snd e)) ks = Some h) E.

Definition tmap (E : list entry) : table_map := list_to_map (snd <$> E).

Record geometry (t : odph_hash_table_imp) : Prop := {
  g_ks : 0 < t_key_size t;
  g_vs : 0 < t_value_size t;
  g_num : 0 <= t_hash_node_num t;
  g_heads : 0 < t_list_head_pool t;
  g_nodes : t_hash_node_pool t = t_list_head_pool t + ODPH_MAX_BUCKET_NUM * sizeof_list_head
}.

Record hinv (t : odph_hash_table_imp) (E : list entry) : Prop := {
  hi_geom : geometry t;
  hi_nodup : NoDup (fst <$> E);
  hi_range : forall x kv, (x, kv) ∈ E -> exists i, 0 <= i < t_hash_node_num t /\ x = node_at t i;
  hi_keys : NoDup (fst <$> (snd <$> E));
  hi_sizes : forall x k v, (x, (k, v)) ∈ E -> zlen k = t_key_size t /\ zlen v = t_value_size t;
  hi_content : forall x k v, (x, (k, v)) ∈ E -> t_content t !! x = Some (k ++ v);
  hi_lists : forall h, 0 <= h < ODPH_MAX_BUCKET_NUM ->
    dlist (t_links t) (bucket_head t h) (bucket_of (t_key_size t) E h);
  hi_free : forall i, 0 <= i < t_hash_node_num t -> node_at t i ∉ (fst <$> E) ->
    l_next (t_links t) !! node_at t i = Some NULL /\ l_prev (t_links t) !! node_at t i = Some NULL
}.

Lemma bucket_head_inj t i j : bucket_head t i = bucket_head t j -> i = j.
Proof. unfold bucket_head, sizeof_list_head. lia. Qed.

Lemma node_at_inj t i j : geometry t -> node_at t i = node_at t j -> i = j.
Proof. intros [? ? _ _ _]. unfold node_at, sizeof_hash_node. nia. Qed.

Lemma node_not_head t i h :
  geometry t -> 0 <= i -> 0 <= h < ODPH_MAX_BUCKET_NUM -> node_at t i <> bucket_head t h.
Proof.
  intros [? ? _ _ Hg] Hi Hh Heq. unfold node_at, bucket_head, sizeof_hash_node, sizeof_list_head, ODPH_MAX_BUCKET_NUM in *.
  assert (0 <= i * (16 + t_key_size t + t_value_size t)) by (apply Z.mul_nonneg_nonneg; lia). lia.
Qed.

Lemma node_pos t i : geometry t -> 0 <= i -> 0 < node_at t i.
Proof.
  intros [? ? _ ? Hg] Hi. unfold node_at, sizeof_hash_node, sizeof_list_head, ODPH_MAX_BUCKET_NUM in *.
  assert (0 <= i * (16 + t_key_size t + t_value_size t)) by (apply Z.mul_nonneg_nonneg; lia). lia.
Qed.

Lemma head_pos t h : geometry t -> 0 <= h -> 0 < bucket_head t h.
Proof. intros [? ? _ ? Hg]. unfold bucket_head, sizeof_list_head. nia. Qed.

Lemma key_hash_total k ks : 0 < zlen k -> exists h, odp_key_hash k ks = Some h /\ 0 <= h < ODPH_MAX_BUCKET_NUM.
Proof.
  intros Hk. unfold odp_key_hash. destruct (zget_Some k 0) as [b ->]; [lia|]. cbn [mbind option_bind].
  eexists. split; [done|]. change 0x0000FFFF with (Z.ones 16). rewrite Z.land_ones by lia. by apply (Z.mod_pos_bound _ (2 ^ 16)).
Qed.

Lemma elem_bucket ks E h x :
  x ∈ bucket_of ks E h <-> exists k v, (x, (k, v)) ∈ E /\ odp_key_hash k ks = Some h.
Proof.
  unfold bucket_of. rewrite list_elem_of_fmap. split.
  - intros ([y [k v]] & -> & [Hh Hx]%list_elem_of_filter). eauto.
  - intros (k & v & Hx & Hh). exists (x, (k, v)). split; [done|]. by apply list_elem_of_filter.
Qed.

Lemma bucket_app ks E1 E2 h : bucket_of ks (E1 ++ E2) h = bucket_of ks E1 h ++ bucket_of ks E2 h.
Proof. unfold bucket_of. by rewrite filter_app, fmap_app. Qed.

Lemma bucket_cons ks x k v E h :
  bucket_of ks ((x, (k, v)) :: E) h =
    if decide (odp_key_hash k ks = Some h) then x :: bucket_of ks E h else bucket_of ks E h.
Proof. unfold bucket_of. rewrite filter_cons. simpl. by destruct (decide _). Qed.

Lemma bucket_nodup ks E h : NoDup (fst <$> E) -> NoDup (bucket_of ks E h).
Proof.
  unfold bucket_of. induction E as [|e E IH]; [done|]. rewrite fmap_cons. intros [Hn Hnd]%NoDup_cons. rewrite filter_cons.
  destruct (decide _); [|by apply IH]. rewrite fmap_cons. apply NoDup_cons. split; [|by apply IH].
  intros (e' & He & [_ Hin]%list_elem_of_filter)%list_elem_of_fmap. apply Hn, list_elem_of_fmap. eauto.
Qed.

(** A node determines its key and value. *)
Lemma node_entry (E : list entry) x kv kv' : NoDup (fst <$> E) -> (x, kv) ∈ E -> (x, kv') ∈ E -> kv = kv'.
Proof.
  induction E as [|[y w] E IH]; [by intros _ ?%elem_of_nil|]. rewrite fmap_cons. intros [Hn Hnd]%NoDup_cons.
  rewrite !elem_of_cons. intros [H1|H1] [H2|H2]; simplify_eq; [done| | |by apply IH].
  - exfalso. apply Hn, list_elem_of_fmap. by exists (y, kv').
  - exfalso. apply Hn, list_elem_of_fmap. by exists (y, kv).
Qed.

Lemma bucket_disjoint t E h h' x :
  hinv t E -> x ∈ bucket_of (t_key_size t) E h -> x ∈ bucket_of (t_key_size t) E h' -> h = h'.
Proof.
  intros Hi (k & v & Hx & Hh)%elem_bucket (k' & v' & Hx' & Hh')%elem_bucket.
  pose proof (node_entry E x _ _ (hi_nodup _ _ Hi) Hx Hx'). simplify_eq. congruence.
Qed.

(** The objects of a bucket are distinct from the heads. *)
Lemma bucket_objects t E h :
  hinv t E -> 0 <= h < ODPH_MAX_BUCKET_NUM -> NoDup (bucket_head t h :: bucket_of (t_key_size t) E h).
Proof.
  intros Hi Hh. apply NoDup_cons. split; [|apply bucket_nodup, Hi].
  intros (k & v & Hx & _)%elem_bucket. destruct (hi_range _ _ Hi _ _ Hx) as (i & Hb & Heq).
  symmetry in Heq. revert Heq. apply node_not_head; [apply Hi|lia|done].
Qed.

Lemma entries_le t E : hinv t E -> Z.of_nat (length E) <= t_hash_node_num t.
Proof.
  intros Hi. pose proof (g_num _ (hi_geom _ _ Hi)).
  assert (length (fst <$> E) <= length (node_at t <$> seqZ 0 (t_hash_node_num t)))%nat as Hle.
  { apply submseteq_length, NoDup_submseteq; [apply Hi|]. intros x ([y kv] & -> & Hx)%list_elem_of_fmap.
    destruct (hi_range _ _ Hi _ _ Hx) as (i & Hb & ->). apply list_elem_of_fmap. exists i. split; [done|]. apply elem_of_seqZ. lia. }
  rewrite !length_fmap, length_seqZ in Hle. lia.
Qed.

Lemma bucket_len ks E h : (length (bucket_of ks E h) <= length E)%nat.
Proof. unfold bucket_of. rewrite length_fmap. apply length_filter. Qed.

(** ** Searching *)

Lemma find_node_spec t E h key :
  hinv t E -> zlen key = t_key_size t -> forall l a fuel,
  path (l_next (t_links t)) a l (bucket_head t h) -> bucket_head t h ∉ l ->
  (forall x, x ∈ l -> exists k v, (x, (k, v)) ∈ E) -> (length l < fuel)%nat ->
  (exists x v, x ∈ l /\ (x, (key, v)) ∈ E /\
     find_node fuel t (start_of l (bucket_head t h)) (bucket_head t h) key = Some (Some x)) \/
  ((forall x v, x ∈ l -> (x, (key, v)) ∉ E) /\
   find_node fuel t (start_of l (bucket_head t h)) (bucket_head t h) key = Some None).
Proof.
  intros Hi Hk. assert (length key = Z.to_nat (t_key_size t)) as Hkl by (unfold zlen in Hk; lia).
  induction l as [|x l IH]; intros a fuel Hp Hh He Hf; (destruct fuel as [|fuel]; [simpl in Hf; lia|]); cbn [find_node].
  - right. split; [by intros x v ?%elem_of_nil|]. simpl. by rewrite Z.eqb_refl.
  - destruct Hp as [Ha Hp]. change (start_of (x :: l) (bucket_head t h)) with x. destruct (x =? bucket_head t h) eqn:Ex; zbool; [set_solver|].
    destruct (He x ltac:(set_solver)) as (k & v & Hx). rewrite (hi_content _ _ Hi _ _ _ Hx). cbn [mbind option_bind].
    destruct (hi_sizes _ _ Hi _ _ _ Hx) as [Hks _]. assert (length k = Z.to_nat (t_key_size t)) as Hl by (unfold zlen in Hks; lia).
    rewrite (take_app_length' k v) by done. rewrite (take_ge key) by lia. case_bool_decide as Hc.
    + subst k. left. exists x, v. split; [set_solver|done].
    + rewrite (path_first _ _ _ _ Hp). cbn [mbind option_bind].
      destruct (IH x fuel Hp ltac:(set_solver) ltac:(set_solver) ltac:(simpl in Hf; lia)) as [(y & w & Hy & Hin & ->)|[Hno ->]].
      * left. exists y, w. split; [set_solver|done].
      * right. split; [|done]. intros y w [->|Hy]%elem_of_cons Hin; [|by eapply Hno].
        pose proof (node_entry E x _ _ (hi_nodup _ _ Hi) Hx Hin). by simplify_eq.
Qed.

Lemma search_spec t E h key :
  hinv t E -> zlen key = t_key_size t -> odp_key_hash key (t_key_size t) = Some h -> 0 <= h < ODPH_MAX_BUCKET_NUM ->
  (exists x v, (x, (key, v)) ∈ E /\ search t h key = Some (Some x)) \/
  ((forall x v, (x, (key, v)) ∉ E) /\ search t h key = Some None).
Proof.
  intros Hi Hk Hh Hb. destruct (hi_lists _ _ Hi h Hb) as [Hn _]. pose proof (entries_le _ _ Hi) as Hle.
  unfold search. rewrite (path_first _ _ _ _ Hn). cbn [mbind option_bind].
  destruct (find_node_spec t E h key Hi Hk (bucket_of (t_key_size t) E h) (bucket_head t h)
    (S (Z.to_nat (t_hash_node_num t))) Hn) as [(x & v & _ & Hx & ->)|[Hno ->]].
  - pose proof (bucket_objects t E h Hi Hb) as Hnd. by apply NoDup_cons in Hnd as [? _].
  - intros x (k & v & Hx & _)%elem_bucket. eauto.
  - pose proof (bucket_len (t_key_size t) E h). lia.
  - left. eauto.
  - right. split; [|done]. intros x v Hx. apply (Hno x v); [|done]. apply elem_bucket. eauto.
Qed.

(** ** Taking a node *)

Lemma path_in f a l z x : path f a l z -> x ∈ l -> exists y, f !! x = Some y /\ (y ∈ l \/ y = z).
Proof.
  revert a. induction l as [|b l IH]; intros a Hp Hx; [by apply elem_of_nil in Hx|]. destruct Hp as [_ Hp].
  apply elem_of_cons in Hx as [->|Hx].
  - rewrite (path_first _ _ _ _ Hp). eexists. split; [done|]. destruct l; simpl; set_solver.
  - destruct (IH b Hp Hx) as (y & Hy & Hc). exists y. split; [done|]. set_solver.
Qed.

Lemma used_links t E x :
  hinv t E -> x ∈ (fst <$> E) ->
  exists n p, l_next (t_links t) !! x = Some n /\ l_prev (t_links t) !! x = Some p /\ n <> NULL.
Proof.
  intros Hi ([y [k v]] & -> & Hx)%list_elem_of_fmap. simpl.
  destruct (hi_sizes _ _ Hi _ _ _ Hx) as [Hk _]. pose proof (g_ks _ (hi_geom _ _ Hi)) as Hks.
  destruct (key_hash_total k (t_key_size t) ltac:(lia)) as (h & Hh & Hb).
  assert (y ∈ bucket_of (t_key_size t) E h) as Hy by (apply elem_bucket; eauto).
  destruct (hi_lists _ _ Hi h Hb) as [Hn Hp].
  destruct (path_in _ _ _ _ _ Hn Hy) as (n & Hn' & Hc).
  destruct (path_in _ _ _ _ _ Hp ltac:(by apply elem_of_reverse)) as (p & Hp' & _).
  exists n, p. split; [done|]. split; [done|]. unfold NULL.
  destruct Hc as [(k' & v' & Hin & _)%elem_bucket| ->].
  - destruct (hi_range _ _ Hi _ _ Hin) as (i & Hir & ->). pose proof (node_pos t i (hi_geom _ _ Hi)). lia.
  - pose proof (head_pos t h (hi_geom _ _ Hi)). lia.
Qed.

Lemma take_loop_spec t E n i :
  hinv t E -> 0 <= i -> i + Z.of_nat n = t_hash_node_num t ->
  (exists j, i <= j < t_hash_node_num t /\ (node_at t j ∉ (fst <$> E)) /\
     take_loop n i t = Some (node_at t j, set_links (ODPH_INIT_LIST_HEAD (node_at t j) (t_links t)) t)) \/
  ((forall j, i <= j < t_hash_node_num t -> node_at t j ∈ (fst <$> E)) /\ take_loop n i t = Some (NULL, t)).
Proof.
  intros Hi. revert i. induction n as [|n IH]; intros i H0 Hn; cbn [take_loop].
  - right. split; [lia|done].
  - destruct (decide (node_at t i ∈ (fst <$> E))) as [Hin|Hout].
    + destruct (used_links t E _ Hi Hin) as (nx & pv & -> & -> & Hne). cbn [mbind option_bind].
      rewrite (proj2 (Z.eqb_neq _ _) Hne). cbn [andb].
      destruct (IH (i + 1) ltac:(lia) ltac:(lia)) as [(j & ? & ? & ?)|[Hall ?]].
      * left. exists j. split; [lia|done].
      * right. split; [|done]. intros j Hj. destruct (decide (j = i)) as [->|]; [done|]. apply Hall. lia.
    + destruct (hi_free _ _ Hi i ltac:(lia) Hout) as [-> ->]. cbn [mbind option_bind].
      left. exists i. split; [lia|]. done.
Qed.

Lemma take_spec t E :
  hinv t E ->
  (Z.of_nat (length E) < t_hash_node_num t /\ exists j, 0 <= j < t_hash_node_num t /\ (node_at t j ∉ (fst <$> E)) /\
     odp_hashnode_take t = Some (node_at t j, set_links (ODPH_INIT_LIST_HEAD (node_at t j) (t_links t)) t)) \/
  (Z.of_nat (length E) = t_hash_node_num t /\ odp_hashnode_take t = Some (NULL, t)).
Proof.
  intros Hi. pose proof (g_num _ (hi_geom _ _ Hi)) as Hn. pose proof (entries_le _ _ Hi) as Hle.
  unfold odp_hashnode_take.
  destruct (take_loop_spec t E (Z.to_nat (t_hash_node_num t)) 0 Hi) as [(j & Hj & Hout & ->)|[Hall ->]]; [lia|lia| |].
  - left. split; [|by eauto].
    assert (length (node_at t j :: (fst <$> E)) <= length (node_at t <$> seqZ 0 (t_hash_node_num t)))%nat as Hlt.
    { apply submseteq_length, NoDup_submseteq; [apply NoDup_cons; split; [done|apply Hi]|].
      intros x [->|Hx]%elem_of_cons; apply list_elem_of_fmap; [exists j; split; [done|]; apply elem_of_seqZ; lia|].
      apply list_elem_of_fmap in Hx as ([y kv] & -> & Hx). destruct (hi_range _ _ Hi _ _ Hx) as (i & Hb & ->).
      exists i. split; [done|]. apply elem_of_seqZ. lia. }
    simpl in Hlt. rewrite !length_fmap, length_seqZ in Hlt. lia.
  - right. split; [|done].
    assert (length (node_at t <$> seqZ 0 (t_hash_node_num t)) <= length (fst <$> E))%nat as Hge.
    { apply submseteq_length, NoDup_submseteq.
      - apply NoDup_fmap_2_strong; [|apply NoDup_seqZ]. intros i j _ _. apply node_at_inj, Hi.
      - intros x (i & -> & Hx)%list_elem_of_fmap. apply Hall. apply elem_of_seqZ in Hx. lia. }
    rewrite !length_fmap, length_seqZ in Hge. lia.
Qed.

(** ** The operations *)

Lemma tmap_size E : NoDup (fst <$> (snd <$> E)) -> size (tmap E) = length E.
Proof. intros Hnd. unfold tmap. rewrite map_size_list_to_map by done. apply length_fmap. Qed.

Lemma tmap_lookup E k v : NoDup (fst <$> (snd <$> E)) -> tmap E !! k = Some v <-> exists x, (x, (k, v)) ∈ E.
Proof.
  intros Hnd. unfold tmap. rewrite <- elem_of_list_to_map by done. rewrite list_elem_of_fmap. split.
  - intros ([x kv] & Heq & Hx). simpl in Heq. subst. eauto.
  - intros [x Hx]. by exists (x, (k, v)).
Qed.

Lemma tmap_split E1 x k v E2 :
  NoDup (fst <$> (snd <$> (E1 ++ (x, (k, v)) :: E2))) ->
  tmap (E1 ++ (x, (k, v)) :: E2) = <[k := v]> (tmap (E1 ++ E2)) /\ tmap (E1 ++ E2) !! k = None /\
  NoDup (fst <$> (snd <$> (E1 ++ E2))).
Proof.
  intros Hnd. pose proof Hnd as Hp. rewrite <- Permutation_middle in Hp. rewrite !fmap_cons in Hp.
  apply NoDup_cons in Hp as [Hk Hnd']. split; [|split; [|done]].
  - unfold tmap. rewrite <- list_to_map_cons. apply list_to_map_proper; [done|].
    rewrite <- Permutation_middle. by rewrite fmap_cons.
  - unfold tmap. by apply not_elem_of_list_to_map.
Qed.

(** Lists whose objects a change of links does not touch are kept. *)
Lemma other_buckets t E m h :
  hinv t E -> 0 <= h < ODPH_MAX_BUCKET_NUM ->
  (forall y, y ∉ bucket_head t h :: bucket_of (t_key_size t) E h -> (exists h', 0 <= h' < ODPH_MAX_BUCKET_NUM /\ y = bucket_head t h') \/ y ∈ (fst <$> E) ->
     l_next m !! y = l_next (t_links t) !! y /\ l_prev m !! y = l_prev (t_links t) !! y) ->
  forall h', 0 <= h' < ODPH_MAX_BUCKET_NUM -> h' <> h -> dlist m (bucket_head t h') (bucket_of (t_key_size t) E h').
Proof.
  intros Hi Hh Hm h' Hh' Hne. eapply dlist_other; [|by apply Hi]. intros y Hy. apply Hm.
  - apply elem_of_cons in Hy as [->|Hy].
    + intros [Heq%bucket_head_inj|Hin]%elem_of_cons; [done|]. apply elem_bucket in Hin as (k & v & Hin & _).
      destruct (hi_range _ _ Hi _ _ Hin) as (i & Hb & Heq). symmetry in Heq. revert Heq. apply node_not_head; [apply Hi|lia|done].
    + intros [Heq|Hin]%elem_of_cons; [|apply Hne; by eapply bucket_disjoint].
      apply elem_bucket in Hy as (k & v & Hin & _). destruct (hi_range _ _ Hi _ _ Hin) as (i & Hb & Heq').
      rewrite Heq' in Heq. revert Heq. apply node_not_head; [apply Hi|lia|done].
  - apply elem_of_cons in Hy as [->|(k & v & Hin & _)%elem_bucket]; [eauto|right].
    apply list_elem_of_fmap. by exists (y, (k, v)).
Qed.

(** Linking node [x] into the bucket of its key. *)
Lemma insert_node_inv t E j k v h :
  hinv t E -> 0 <= j < t_hash_node_num t -> node_at t j ∉ (fst <$> E) ->
  zlen k = t_key_size t -> zlen v = t_value_size t -> (forall x w, (x, (k, w)) ∉ E) ->
  odp_key_hash k (t_key_size t) = Some h -> 0 <= h < ODPH_MAX_BUCKET_NUM ->
  exists m, odph_list_add (node_at t j) (bucket_head t h) (ODPH_INIT_LIST_HEAD (node_at t j) (t_links t)) = Some m /\
    hinv (set_links m (set_content (<[node_at t j := k ++ v]> (t_content t)) t)) ((node_at t j, (k, v)) :: E).
Proof.
  intros Hi Hj Hout Hk Hv Hfresh Hh Hb. set (x := node_at t j) in *.
  pose proof (bucket_objects t E h Hi Hb) as Hnd.
  assert (forall h', 0 <= h' < ODPH_MAX_BUCKET_NUM -> x <> bucket_head t h') as Hxh.
  { intros h' Hh'. apply node_not_head; [apply Hi|lia|done]. }
  assert (forall h', x ∉ bucket_of (t_key_size t) E h') as Hxb.
  { intros h' (k' & v' & Hin & _)%elem_bucket. apply Hout, list_elem_of_fmap. by exists (x, (k', v')). }
  assert (forall h', 0 <= h' < ODPH_MAX_BUCKET_NUM ->
    dlist (ODPH_INIT_LIST_HEAD x (t_links t)) (bucket_head t h') (bucket_of (t_key_size t) E h')) as Hinit.
  { intros h' Hh'. eapply dlist_other; [|by apply Hi]. intros y Hy. simpl. rewrite !lookup_insert_ne; [done|..];
      (intros <-; apply elem_of_cons in Hy as [Hy|Hy]; [by apply (Hxh h')|by apply (Hxb h')]). }
  destruct (list_add_dlist _ (bucket_head t h) (bucket_of (t_key_size t) E h) x (Hinit h Hb) Hnd) as (m & Hadd & Hd & Hfr).
  { apply not_elem_of_cons. split; [by apply Hxh|apply Hxb]. }
  exists m. split; [done|].
  assert (forall y, y <> x -> y ∉ bucket_head t h :: bucket_of (t_key_size t) E h ->
    l_next m !! y = l_next (t_links t) !! y /\ l_prev m !! y = l_prev (t_links t) !! y) as Hother.
  { intros y Hy Hn. destruct (Hfr y) as [-> ->]; [set_solver|]. simpl. by rewrite !lookup_insert_ne. }
  assert (forall i, node_at (set_links m (set_content (<[x := k ++ v]> (t_content t)) t)) i = node_at t i) as Hna by done.
  split; simpl.
  - destruct (hi_geom _ _ Hi). by split.
  - apply NoDup_cons. split; [done|apply Hi].
  - intros y kv [Heq|Hin]%elem_of_cons; [simplify_eq; by exists j|]. by apply (hi_range _ _ Hi y kv).
  - apply NoDup_cons. split; [|apply Hi]. rewrite list_elem_of_fmap. intros ([k' w] & Heq & Hin). simpl in Heq. subst k'.
    apply list_elem_of_fmap in Hin as ([y kw] & Heq & Hin). simpl in Heq. subst kw. by apply (Hfresh y w).
  - intros y k' v' [Heq|Hin]%elem_of_cons; [by simplify_eq|]. by eapply hi_sizes.
  - intros y k' v' [Heq|Hin]%elem_of_cons; [simplify_eq; by rewrite lookup_insert_eq|].
    rewrite lookup_insert_ne; [by eapply hi_content|]. intros <-. apply Hout, list_elem_of_fmap. by exists (x, (k', v')).
  - intros h' Hh'. rewrite bucket_cons. destruct (decide (h' = h)) as [->|Hne]; [by rewrite decide_True|].
    rewrite decide_False by congruence. eapply (other_buckets t E m h Hi Hb); [|done|done].
    intros y Hy Hc. apply Hother; [|done]. intros ->. destruct Hc as [(h2 & Hb2 & Heq)|Hin]; [|done]. by apply (Hxh h2).
  - intros i Hir Hno. apply not_elem_of_cons in Hno as [Hne Hno]. rewrite Hna in *.
    destruct (Hother (node_at t i)) as [-> ->]; [done| |by apply (hi_free _ _ Hi i)].
    apply not_elem_of_cons. split; [apply node_not_head; [apply Hi|lia|done]|].
    intros (k' & v' & Hin & _)%elem_bucket. apply Hno, list_elem_of_fmap. by exists (node_at t i, (k', v')).
Qed.

(** Storing a value in the node of its key. *)
Lemma store_value_inv t E1 x k v E2 v' :
  hinv t (E1 ++ (x, (k, v)) :: E2) -> zlen v' = t_value_size t ->
  exists t', store_value t x v' = Some t' /\ hinv t' (E1 ++ (x, (k, v')) :: E2) /\
    t_hash_node_num t' = t_hash_node_num t /\ t_value_size t' = t_value_size t /\ t_key_size t' = t_key_size t.
Proof.
  intros Hi Hv. assert ((x, (k, v)) ∈ E1 ++ (x, (k, v)) :: E2) as Hx by set_solver.
  destruct (hi_sizes _ _ Hi _ _ _ Hx) as [Hk _]. unfold store_value. rewrite (hi_content _ _ Hi _ _ _ Hx). cbn [mbind option_bind].
  rewrite (take_app_length' k v) by (unfold zlen in Hk; lia). rewrite (take_ge v') by (unfold zlen in Hv; lia).
  eexists. split; [done|]. split; [|done].
  assert (forall y k0 v0, (y, (k0, v0)) ∈ E1 ++ (x, (k, v')) :: E2 ->
    (y = x /\ k0 = k /\ v0 = v') \/ (y <> x /\ (y, (k0, v0)) ∈ E1 ++ (x, (k, v)) :: E2)) as Hcase.
  { intros y k0 v0 Hin. destruct (decide (y = x)) as [->|Hne]; [left|right; split; [done|set_solver]].
    assert ((x, (k0, v0)) ∉ E1 ++ E2) as Hno.
    { pose proof (hi_nodup _ _ Hi) as Hnd. rewrite <- Permutation_middle, fmap_cons in Hnd. apply NoDup_cons in Hnd as [Hn _].
      intros Hin'. apply Hn, list_elem_of_fmap. by exists (x, (k0, v0)). }
    set_solver. }
  assert (forall h, bucket_of (t_key_size t) (E1 ++ (x, (k, v')) :: E2) h = bucket_of (t_key_size t) (E1 ++ (x, (k, v)) :: E2) h) as Hbk.
  { intros h. by rewrite !bucket_app, !bucket_cons. }
  assert (fst <$> (E1 ++ (x, (k, v')) :: E2) = fst <$> (E1 ++ (x, (k, v)) :: E2)) as Hfst by (by rewrite !fmap_app).
  split; simpl.
  - destruct (hi_geom _ _ Hi). by split.
  - rewrite Hfst. apply Hi.
  - intros y [k0 v0] [(-> & -> & ->)|[_ Hin]]%Hcase; by apply (hi_range _ _ Hi _ _ ltac:(eassumption)).
  - pose proof (hi_keys _ _ Hi) as Hnd. rewrite !fmap_app, !fmap_cons in *. done.
  - intros y k0 v0 [(-> & -> & ->)|[_ Hin]]%Hcase; [done|]. by eapply hi_sizes.
  - intros y k0 v0 [(-> & -> & ->)|[Hne Hin]]%Hcase; [by rewrite lookup_insert_eq|].
    rewrite lookup_insert_ne by done. by eapply hi_content.
  - intros h Hh. rewrite Hbk. by apply Hi.
  - intros i Hir Hno. rewrite Hfst in Hno. by apply (hi_free _ _ Hi).
Qed.

Lemma entry_gone (E1 : list entry) x kv E2 :
  NoDup (fst <$> (E1 ++ (x, kv) :: E2)) ->
  NoDup (fst <$> (E1 ++ E2)) /\ (forall y kv', (y, kv') ∈ E1 ++ E2 -> (y, kv') ∈ E1 ++ (x, kv) :: E2) /\
  (forall y kv', (y, kv') ∈ E1 ++ E2 -> y <> x).
Proof.
  intros Hn. rewrite <- Permutation_middle, fmap_cons in Hn. apply NoDup_cons in Hn as [Hx Hn].
  split; [done|]. split; [set_solver|]. intros y kv' Hin ->. apply Hx, list_elem_of_fmap. by exists (x, kv').
Qed.

(** Unlinking a node and clearing it. *)
Lemma give_inv t E1 x k v E2 :
  hinv t (E1 ++ (x, (k, v)) :: E2) ->
  exists t', odp_hashnode_give t x = Some t' /\ hinv t' (E1 ++ E2) /\
    t_hash_node_num t' = t_hash_node_num t /\ t_value_size t' = t_value_size t /\ t_key_size t' = t_key_size t.
Proof.
  intros Hi. set (E := E1 ++ (x, (k, v)) :: E2) in *. assert ((x, (k, v)) ∈ E) as Hx by set_solver.
  destruct (hi_sizes _ _ Hi _ _ _ Hx) as [Hk _]. pose proof (g_ks _ (hi_geom _ _ Hi)) as Hks.
  destruct (key_hash_total k (t_key_size t) ltac:(lia)) as (h & Hh & Hb).
  destruct (hi_range _ _ Hi _ _ Hx) as (j & Hj & Hxj).
  assert (bucket_of (t_key_size t) E h = bucket_of (t_key_size t) E1 h ++ x :: bucket_of (t_key_size t) E2 h) as HB.
  { unfold E. rewrite bucket_app, bucket_cons. by rewrite decide_True. }
  pose proof (hi_lists _ _ Hi h Hb) as Hd. pose proof (bucket_objects t E h Hi Hb) as Hnd. rewrite HB in Hd, Hnd.
  destruct (list_del_dlist _ _ _ _ _ Hd Hnd) as (m & Hdel & Hd' & Hfr).
  unfold odp_hashnode_give. rewrite (proj2 (Z.eqb_neq x NULL)) by (pose proof (node_pos t j (hi_geom _ _ Hi)); unfold NULL; lia).
  rewrite Hdel. cbn [mbind option_bind]. eexists. split; [done|]. split; [|done].
  destruct (entry_gone E1 x (k, v) E2 (hi_nodup _ _ Hi)) as (Hnd' & Hsub & Hneq). fold E in Hsub.
  set (m' := Links (<[x := NULL]> (l_next m)) (<[x := NULL]> (l_prev m))).
  assert (forall h' l, x ∉ bucket_head t h' :: l -> dlist m (bucket_head t h') l -> dlist m' (bucket_head t h') l) as Hclear.
  { intros h' l Hn. apply dlist_other. intros y Hy. simpl. by rewrite !lookup_insert_ne by set_solver. }
  assert (forall h', 0 <= h' < ODPH_MAX_BUCKET_NUM -> x ∉ bucket_head t h' :: bucket_of (t_key_size t) (E1 ++ E2) h') as Hxb.
  { intros h' Hh' [Heq|(k0 & v0 & Hin & _)%elem_bucket]%elem_of_cons; [|by eapply Hneq].
    rewrite Hxj in Heq. revert Heq. apply node_not_head; [apply Hi|lia|done]. }
  split; simpl.
  - destruct (hi_geom _ _ Hi). by split.
  - done.
  - intros y kv Hin. by apply (hi_range _ _ Hi y kv), Hsub.
  - pose proof (hi_keys _ _ Hi) as Hn. by apply tmap_split in Hn as (_ & _ & ?).
  - intros y k0 v0 Hin. by eapply hi_sizes, Hsub.
  - intros y k0 v0 Hin. rewrite lookup_insert_ne by (symmetry; by eapply Hneq). by eapply hi_content, Hsub.
  - intros h' Hh'. apply Hclear; [by apply Hxb|]. destruct (decide (h' = h)) as [->|Hne]; [by rewrite bucket_app|].
    assert (bucket_of (t_key_size t) (E1 ++ E2) h' = bucket_of (t_key_size t) E h') as ->.
    { unfold E. rewrite !bucket_app, bucket_cons. by rewrite decide_False by congruence. }
    eapply (other_buckets t E m h Hi Hb); [|done|done]. intros y Hy _. rewrite HB in Hy. by apply Hfr.
  - intros i Hir Hno. destruct (decide (node_at t i = x)) as [Heq|Hne].
    + change (node_at _ i) with (node_at t i). by rewrite Heq, !lookup_insert_eq.
    + change (node_at _ i) with (node_at t i) in *. rewrite !lookup_insert_ne by done.
      assert (node_at t i ∉ (fst <$> E)) as HnE.
      { unfold E. rewrite <- Permutation_middle, fmap_cons. by apply not_elem_of_cons. }
      destruct (Hfr (node_at t i)) as [-> ->]; [|by apply (hi_free _ _ Hi)].
      rewrite <- HB. apply not_elem_of_cons. split; [apply node_not_head; [apply Hi|lia|done]|].
      intros (k0 & v0 & Hin & _)%elem_bucket. apply HnE, list_elem_of_fmap. by exists (node_at t i, (k0, v0)).
Qed.

Definition same_size (t t' : odph_hash_table_imp) : Prop :=
  t_hash_node_num t' = t_hash_node_num t /\ t_value_size t' = t_value_size t /\ t_key_size t' = t_key_size t.

Lemma put_spec t E k v :
  hinv t E -> zlen k = t_key_size t -> zlen v = t_value_size t ->
  exists r t' E', odph_hash_put_value t k v = Some (r, t') /\ hinv t' E' /\ same_size t t' /\
    ((r, []), tmap E') = step_spec (t_hash_node_num t) (t_value_size t) (Put k v) (tmap E).
Proof.
  intros Hi Hk Hv. pose proof (g_ks _ (hi_geom _ _ Hi)) as Hks.
  destruct (key_hash_total k (t_key_size t) ltac:(lia)) as (h & Hh & Hb).
  unfold odph_hash_put_value. rewrite Hh. cbn [mbind option_bind step_spec].
  destruct (search_spec t E h k Hi Hk Hh Hb) as [(x & w & Hx & ->)|[Hno ->]]; cbn [mbind option_bind].
  - apply list_elem_of_split in Hx as (E1 & E2 & ->). destruct (store_value_inv t E1 x k w E2 v Hi Hv) as (t' & -> & Hi' & Hs).
    cbn [mbind option_bind]. exists ODPH_SUCCESS, t', (E1 ++ (x, (k, v)) :: E2). split; [done|]. split; [done|]. split; [done|].
    destruct (tmap_split _ _ _ _ _ (hi_keys _ _ Hi)) as (-> & _ & _). destruct (tmap_split _ _ _ _ _ (hi_keys _ _ Hi')) as (-> & _ & _).
    rewrite bool_decide_eq_true_2 by (rewrite lookup_insert_eq; eauto). cbn [orb]. by rewrite insert_insert_eq.
  - assert (tmap E !! k = None) as Hnone.
    { apply eq_None_not_Some. intros [w (x & Hx)%tmap_lookup]; [|apply Hi]. by apply (Hno x w). }
    rewrite Hnone, bool_decide_eq_false_2 by (by intros [? ?]). cbn [orb]. rewrite tmap_size by apply Hi.
    destruct (take_spec t E Hi) as [(Hlt & j & Hj & Hout & ->)|[Heq ->]]; cbn [mbind option_bind].
    + rewrite (proj2 (Z.ltb_lt _ _) Hlt).
      rewrite (proj2 (Z.eqb_neq (node_at t j) NULL)) by (pose proof (node_pos t j (hi_geom _ _ Hi)); unfold NULL; lia).
      destruct (insert_node_inv t E j k v h Hi Hj Hout Hk Hv Hno Hh Hb) as (m & Hadd & Hi'). unfold link_node. cbv zeta. simpl t_links.
      change (bucket_head _ h) with (bucket_head t h). rewrite Hadd. cbn [mbind option_bind].
      simpl t_key_size. simpl t_value_size. rewrite (take_ge k), (take_ge v) by (unfold zlen in *; lia).
      eexists _, _, _. split; [done|]. split; [exact Hi'|]. done.
    + rewrite (proj2 (Z.ltb_ge _ _)) by lia. rewrite Z.eqb_refl. by exists ODPH_FAIL, t, E.
Qed.

Lemma get_spec t E k n :
  hinv t E -> zlen k = t_key_size t ->
  exists r, odph_hash_get_value t k n = Some r /\
    (r, tmap E) = step_spec (t_hash_node_num t) (t_value_size t) (Get k n) (tmap E).
Proof.
  intros Hi Hk. pose proof (g_ks _ (hi_geom _ _ Hi)) as Hks.
  destruct (key_hash_total k (t_key_size t) ltac:(lia)) as (h & Hh & Hb).
  unfold odph_hash_get_value. cbn [step_spec]. destruct (n <? t_value_size t); [by eexists|].
  rewrite Hh. cbn [mbind option_bind].
  destruct (search_spec t E h k Hi Hk Hh Hb) as [(x & w & Hx & ->)|[Hno ->]]; cbn [mbind option_bind].
  - rewrite (hi_content _ _ Hi _ _ _ Hx). cbn [mbind option_bind]. destruct (hi_sizes _ _ Hi _ _ _ Hx) as [_ Hw].
    rewrite drop_app_length' by (unfold zlen in Hk; lia). rewrite take_ge by (unfold zlen in Hw; lia).
    rewrite (proj2 (tmap_lookup E k w (hi_keys _ _ Hi))) by eauto. by eexists.
  - assert (tmap E !! k = None) as ->; [|by eexists].
    apply eq_None_not_Some. intros [w (x & Hx)%tmap_lookup]; [|apply Hi]. by apply (Hno x w).
Qed.

Lemma remove_spec t E k :
  hinv t E -> zlen k = t_key_size t ->
  exists r t' E', odph_hash_remove_value t k = Some (r, t') /\ hinv t' E' /\ same_size t t' /\
    ((r, []), tmap E') = step_spec (t_hash_node_num t) (t_value_size t) (Remove k) (tmap E).
Proof.
  intros Hi Hk. pose proof (g_ks _ (hi_geom _ _ Hi)) as Hks.
  destruct (key_hash_total k (t_key_size t) ltac:(lia)) as (h & Hh & Hb).
  unfold odph_hash_remove_value. rewrite Hh. cbn [mbind option_bind step_spec].
  destruct (search_spec t E h k Hi Hk Hh Hb) as [(x & w & Hx & ->)|[Hno ->]]; cbn [mbind option_bind].
  - apply list_elem_of_split in Hx as (E1 & E2 & ->). destruct (give_inv t E1 x k w E2 Hi) as (t' & -> & Hi' & Hs).
    cbn [mbind option_bind]. exists ODPH_SUCCESS, t', (E1 ++ E2). split; [done|]. split; [done|]. split; [done|].
    destruct (tmap_split _ _ _ _ _ (hi_keys _ _ Hi)) as (-> & Hn & _). by rewrite delete_insert_id.
  - exists ODPH_SUCCESS, t, E. split; [done|]. split; [done|]. split; [done|]. f_equal.
    symmetry. apply delete_id, eq_None_not_Some. intros [w (x & Hx)%tmap_lookup]; [|apply Hi]. by apply (Hno x w).
Qed.

Lemma step_refines o t E :
  hinv t E -> op_ok (t_key_size t) (t_value_size t) o ->
  exists r t' E', step o t = Some (r, t') /\ hinv t' E' /\ same_size t t' /\
    (r, tmap E') = step_spec (t_hash_node_num t) (t_value_size t) o (tmap E).
Proof.
  intros Hi Hok. destruct o as [k v|k n|k]; cbn [step op_ok] in *.
  - destruct Hok as [Hk Hv]. destruct (put_spec t E k v Hi Hk Hv) as (r & t' & E' & -> & ?). by exists (r, []), t', E'.
  - destruct (get_spec t E k n Hi Hok) as (r & -> & ?). by exists r, t, E.
  - destruct (remove_spec t E k Hi Hok) as (r & t' & E' & -> & ?). by exists (r, []), t', E'.
Qed.

Lemma run_refines os t E :
  hinv t E -> Forall (op_ok (t_key_size t) (t_value_size t)) os ->
  exists rs t' E', run os t = Some (rs, t') /\ hinv t' E' /\
    (rs, tmap E') = run_spec (t_hash_node_num t) (t_value_size t) os (tmap E).
Proof.
  revert t E. induction os as [|o os IH]; intros t E Hi Hok; cbn [run run_spec]; [by exists [], t, E|].
  apply Forall_cons in Hok as [Ho Hos].
  destruct (step_refines o t E Hi Ho) as (r & t1 & E1 & -> & Hi1 & (Hn & Hv & Hk) & <-). cbn [mbind option_bind].
  destruct (IH t1 E1 Hi1) as (rs & t2 & E2 & -> & Hi2 & Heq); [by rewrite Hk, Hv|]. rewrite Hn, Hv in Heq. rewrite <- Heq.
  by exists (r :: rs), t2, E2.
Qed.

(** ** Creation *)

Definition head_fits (t : odph_hash_table_imp) (i : Z) : bool :=
  negb ((bucket_head t i + sizeof_list_head >? t_addr t + t_init_cap t) ||
        (t_lock_pool t + (i + 1) * sizeof_rwlock >? t_addr t + t_init_cap t)).

Lemma init_heads_spec n i t :
  (forall j, i <= j < i + Z.of_nat n -> head_fits t j = true) ->
  exists m, init_heads n i t = Some (set_links m t) /\
    (forall j, i <= j < i + Z.of_nat n -> dlist m (bucket_head t j) []) /\
    (forall x, (forall j, i <= j < i + Z.of_nat n -> x <> bucket_head t j) ->
       l_next m !! x = l_next (t_links t) !! x /\ l_prev m !! x = l_prev (t_links t) !! x).
Proof.
  revert i t. induction n as [|n IH]; intros i t Hfit; cbn [init_heads].
  - exists (t_links t). split; [by destruct t|]. split; [lia|done].
  - pose proof (Hfit i ltac:(lia)) as Hf. apply negb_true_iff in Hf. rewrite Hf.
    destruct (IH (i + 1) (set_links (ODPH_INIT_LIST_HEAD (bucket_head t i) (t_links t)) t)) as (m & -> & Hd & Ho).
    { intros j Hj. apply (Hfit j). lia. }
    exists m. split; [done|]. split.
    + intros j Hj. destruct (decide (j = i)) as [->|]; [|apply (Hd j); lia].
      eapply dlist_other; [|apply (dlist_init (t_links t))]. intros x ->%list_elem_of_singleton. apply Ho.
      intros j' Hj' Heq. apply (bucket_head_inj t) in Heq. lia.
    + intros x Hx. destruct (Ho x) as [-> ->]; [intros j Hj; apply Hx; lia|]. simpl.
      by rewrite !lookup_insert_ne by (intros Heq; symmetry in Heq; revert Heq; apply Hx; lia).
Qed.

Lemma init_heads_outside n i t j : i <= j < i + Z.of_nat n -> head_fits t j = false -> init_heads n i t = None.
Proof.
  revert i t. induction n as [|n IH]; intros i t Hj Hf; [lia|]. cbn [init_heads].
  destruct (decide (j = i)) as [->|].
  - apply negb_false_iff in Hf. by rewrite Hf.
  - destruct (_ || _); [done|]. apply IH; [lia|done].
Qed.

Lemma lookup_all {V} (l : list Z) (c : V) a : a ∈ l -> (list_to_map ((fun x => (x, c)) <$> l) : gmap Z V) !! a = Some c.
Proof.
  induction l as [|b l IH]; [by intros ?%elem_of_nil|]. intros Ha. rewrite fmap_cons, list_to_map_cons.
  destruct (decide (a = b)) as [->|]; [by rewrite lookup_insert_eq|]. rewrite lookup_insert_ne by done. apply IH. set_solver.
Qed.

(** Memory that is left for nodes. *)
Definition node_capacity (capacity ks vs : Z) : Z := (capacity * 2 ^ 20 - 1310816) / (16 + ks + vs).

Lemma create_spec name capacity ks vs addr :
  (String.length name < 32)%nat -> 2 <= capacity < 4096 -> 0 < ks -> 0 < vs -> 0 < addr ->
  exists t, odph_hash_table_create name capacity ks vs false addr = Some (Some t) /\ hinv t [] /\
    t_key_size t = ks /\ t_value_size t = vs /\ t_hash_node_num t = node_capacity capacity ks vs /\
    t_addr t = addr /\ t_init_cap t = capacity * 2 ^ 20 /\ t_hash_node_pool t = addr + 1310816.
Proof.
  intros Hname Hcap Hks Hvs Haddr. unfold odph_hash_table_create.
  rewrite Z.geb_leb, (proj2 (Z.leb_gt _ _)) by (unfold ODPH_TABLE_NAME_LEN; lia).
  rewrite Z.geb_leb, (proj2 (Z.leb_gt _ capacity)), (proj2 (Z.ltb_ge capacity 1)) by lia.
  rewrite (proj2 (Z.eqb_neq ks 0)), (proj2 (Z.eqb_neq vs 0)), (proj2 (Z.eqb_neq addr NULL)) by (unfold NULL; lia). cbn [orb].
  rewrite Z.shiftl_mul_pow2 by lia. cbv zeta.
  rewrite (u32_small (capacity * 2 ^ 20)) by (unfold is_u32; lia).
  rewrite (u32_small (_ - _)) by (unfold is_u32, sizeof_imp, ODPH_MAX_BUCKET_NUM, sizeof_list_head, sizeof_rwlock; lia).
  set (num := _ / (sizeof_hash_node + ks + vs)).
  assert (num = node_capacity capacity ks vs) as Hnum.
  { unfold num, node_capacity. f_equal. unfold sizeof_imp, ODPH_MAX_BUCKET_NUM, sizeof_list_head, sizeof_rwlock. lia. }
  assert (0 <= num) as Hn0 by (rewrite Hnum; apply Z.div_pos; lia).
  match goal with |- context [init_heads _ 0 ?t] => set (t0 := t) end.
  destruct (init_heads_spec (Z.to_nat ODPH_MAX_BUCKET_NUM) 0 t0) as (m & -> & Hd & Ho).
  { intros j Hj. unfold head_fits, bucket_head, t0, sizeof_list_head, sizeof_rwlock, sizeof_imp, ODPH_MAX_BUCKET_NUM in *.
    cbn [t_list_head_pool t_addr t_init_cap t_lock_pool]. apply negb_true_iff, orb_false_iff. rewrite !Z.gtb_ltb, !Z.ltb_ge. lia. }
  assert (geometry t0) as Hg by (split; cbn; unfold sizeof_imp, ODPH_MAX_BUCKET_NUM, sizeof_rwlock; lia).
  cbn [mbind option_bind]. eexists. split; [done|]. split; [|cbn; split_and!; try done].
  2: { unfold sizeof_imp, ODPH_MAX_BUCKET_NUM, sizeof_list_head, sizeof_rwlock. lia. }
  split; cbn [set_magic set_links t_key_size t_value_size t_hash_node_num t_links t_content].
  - destruct Hg. by split.
  - constructor.
  - by intros x kv ?%elem_of_nil.
  - constructor.
  - by intros x k v ?%elem_of_nil.
  - by intros x k v ?%elem_of_nil.
  - intros h Hh. apply (Hd h). unfold ODPH_MAX_BUCKET_NUM in *. lia.
  - intros i Hi _. change (node_at _ i) with (node_at t0 i).
    destruct (Ho (node_at t0 i)) as [-> ->].
    { intros j Hj. apply node_not_head; [done|lia|unfold ODPH_MAX_BUCKET_NUM in *; lia]. }
    assert (node_at t0 i ∈ ((fun idx => t_hash_node_pool t0 + idx * (sizeof_hash_node + ks + vs)) <$> seqZ 0 num)) as Hin.
    { apply list_elem_of_fmap. exists i. split; [done|]. apply elem_of_seqZ. change (t_hash_node_num t0) with num in Hi. lia. }
    unfold t0. cbn [t_links l_next l_prev]. split; by apply lookup_all.
Qed.

End table.

(** C26: the hash table is a bounded map.  Creation with 2 to 4095 MB and any key
    and value size succeeds without leaving the memory it reserved, and then
    every sequence of put, get and remove calls returns what the same calls on
    a finite map return that holds at most as many keys as there are nodes:
    put replaces the value of a key or adds the key while there is room, get
    fails on a short buffer or a missing key, and remove always succeeds.  No
    search runs forever, whatever keys collide. *)
Theorem hash_table_is_map (char_signed : bool) (name : string) (capacity ks vs addr : Z) (os : list table_op) :
  (String.length name < 32)%nat -> 2 <= capacity < 4096 -> 0 < ks -> 0 < vs -> 0 < addr -> Forall (op_ok ks vs) os ->
  exists t t', odph_hash_table_create name capacity ks vs false addr = Some (Some t) /\
    t_hash_node_pool t + t_hash_node_num t * (16 + ks + vs) <= addr + capacity * 2 ^ 20 /\
    t_hash_node_num t = (capacity * 2 ^ 20 - 1310816) / (16 + ks + vs) /\
    run char_signed os t = Some (fst (run_spec (t_hash_node_num t) vs os ∅), t').
Proof.
  intros Hname Hcap Hks Hvs Haddr Hok.
  destruct (create_spec char_signed name capacity ks vs addr Hname Hcap Hks Hvs Haddr) as (t & Hc & Hi & Hk & Hv & Hn & Ha & Hic & Hp).
  destruct (run_refines char_signed os t [] Hi) as (rs & t' & E' & Hrun & _ & Heq); [by rewrite Hk, Hv|].
  exists t, t'. split; [done|]. split; [|split; [done|]].
  - rewrite Hp, Hn. unfold node_capacity.
    pose proof (Z.mul_div_le (capacity * 2 ^ 20 - 1310816) (16 + ks + vs)). lia.
  - rewrite Hv in Heq. change (tmap []) with (∅ : gmap (list Z) (list Z)) in Heq. by rewrite Hrun, <- Heq.
Qed.

Lemma hash_table_is_map_witness :
  exists t t', odph_hash_table_create "flows" 2 4 2 false 4096 = Some (Some t) /\
    run true [Put [10; 0; 0; 1] [7; 7]; Put [10; 0; 0; 2] [8; 8]; Get [10; 0; 0; 1] 2; Remove [10; 0; 0; 1];
              Get [10; 0; 0; 1] 2; Get [10; 0; 0; 2] 1] t =
      Some ([(0, []); (0, []); (0, [7; 7]); (0, []); (-1, []); (-1, [])], t').
Proof.
  destruct (hash_table_is_map true "flows" 2 4 2 4096 [Put [10; 0; 0; 1] [7; 7]; Put [10; 0; 0; 2] [8; 8];
    Get [10; 0; 0; 1] 2; Remove [10; 0; 0; 1]; Get [10; 0; 0; 1] 2; Get [10; 0; 0; 2] 1]) as (t & t' & Hc & _ & Hn & Hr);
    [vm_compute; lia|lia..| |].
  - repeat constructor.
  - exists t, t'. split; [done|]. rewrite Hr, Hn. vm_compute. done.
Defined.

(** A table of 1 MB is accepted, but the heads of its 65536 buckets do not fit:
    creation writes outside the reserved memory. *)
Theorem hash_create_one_mb (name : string) (ks vs addr : Z) :
  (String.length name < 32)%nat -> 0 < ks -> 0 < vs -> 0 < addr ->
  odph_hash_table_create name 1 ks vs false addr = None.
Proof.
  intros Hname Hks Hvs Haddr. unfold odph_hash_table_create.
  rewrite Z.geb_leb, (proj2 (Z.leb_gt _ _)) by (unfold ODPH_TABLE_NAME_LEN; lia).
  rewrite (proj2 (Z.eqb_neq ks 0)), (proj2 (Z.eqb_neq vs 0)), (proj2 (Z.eqb_neq addr NULL)) by (unfold NULL; lia).
  cbn [orb Z.ltb Z.geb Z.compare]. cbv zeta. rewrite (init_heads_outside _ 0 _ 65535); [done|unfold ODPH_MAX_BUCKET_NUM; lia|].
  unfold head_fits, bucket_head. cbn [t_list_head_pool t_addr t_init_cap t_lock_pool].
  apply negb_false_iff, orb_true_iff. left. rewrite Z.gtb_ltb, Z.ltb_lt.
  unfold sizeof_list_head, sizeof_rwlock, sizeof_imp, ODPH_MAX_BUCKET_NUM. change (u32 (Z.shiftl 1 20)) with (2 ^ 20). lia.
Qed.

(** The hash of a key depends on its first byte only: the key pointer is never
    advanced, so all keys that begin alike share a bucket. *)
Theorem key_hash_first_byte (char_signed : bool) (b : Z) (k1 k2 : list Z) (ks : Z) :
  odp_key_hash char_signed (b :: k1) ks = odp_key_hash char_signed (b :: k2) ks.
Proof. done. Qed.

(** Two puts to different buckets hold different locks.  When both find the same
    free node before either has marked it, the key of the first is lost and the
    list of its bucket leads into the bucket of the second. *)
Theorem hash_put_race (char_signed : bool) t E j k1 v1 h1 k2 v2 h2 t0 :
  hinv char_signed t E -> 0 <= j -> odp_hashnode_take t = Some (node_at t j, t0) ->
  0 <= h1 < ODPH_MAX_BUCKET_NUM -> 0 <= h2 < ODPH_MAX_BUCKET_NUM -> h1 <> h2 ->
  exists t1 t2, link_node t0 (node_at t j) h1 k1 v1 = Some t1 /\
    link_node (set_links (ODPH_INIT_LIST_HEAD (node_at t j) (t_links t1)) t1) (node_at t j) h2 k2 v2 = Some t2 /\
    t_content t2 !! node_at t j = Some (take (Z.to_nat (t_key_size t)) k2 ++ take (Z.to_nat (t_value_size t)) v2) /\
    l_next (t_links t2) !! bucket_head t h1 = Some (node_at t j) /\
    l_next (t_links t2) !! node_at t j = Some (start_of (bucket_of char_signed (t_key_size t) E h2) (bucket_head t h2)).
Proof.
  intros Hi Hj Ht H1 H2 Hne. destruct (take_spec char_signed t E Hi) as [(_ & j' & Hj' & _ & Heq)|[_ Heq]]; rewrite Heq in Ht.
  2: { injection Ht as Hnull _. pose proof (node_pos t j (hi_geom _ _ _ Hi) Hj). unfold NULL in Hnull. lia. }
  injection Ht as Hnode <-. rewrite Hnode in *. clear j' Hj' Heq Hnode.
  destruct (hi_lists _ _ _ Hi h1 H1) as [Hp1 _]. destruct (hi_lists _ _ _ Hi h2 H2) as [Hp2 _].
  pose proof (node_not_head t j h1 (hi_geom _ _ _ Hi) Hj H1) as Hn1. pose proof (node_not_head t j h2 (hi_geom _ _ _ Hi) Hj H2) as Hn2.
  assert (bucket_head t h1 <> bucket_head t h2) as Hh by (intros Heq; by apply bucket_head_inj in Heq).
  unfold link_node, odph_list_add. cbv zeta. simpl t_links. simpl l_next.
  change (bucket_head (set_content _ _) h1) with (bucket_head t h1).
  rewrite lookup_insert_ne, (path_first _ _ _ _ Hp1) by done. cbn [mbind option_bind].
  eexists. eexists. split; [done|]. simpl t_links. simpl l_next.
  change (bucket_head _ h2) with (bucket_head t h2).
  rewrite !lookup_insert_ne, (path_first _ _ _ _ Hp2) by done. cbn [mbind option_bind].
  split; [done|]. simpl. rewrite lookup_insert_eq. split; [done|].
  rewrite (lookup_insert_ne _ (bucket_head t h2)), (lookup_insert_ne _ (node_at t j)), (lookup_insert_ne _ (node_at t j)), lookup_insert_eq by done.
  split; [done|]. rewrite lookup_insert_ne, lookup_insert_eq by done. done.
Qed.

End HashTable.

(** * The linear table *)

Module LinearTable.
Import Pool HashTable.

Definition ODPH_LINEAR_TABLE_MAGIC_WORD : Z := 0xEFEFFEFE.
Definition sizeof_linear_imp : Z := 56.

(** [lt_values] are the bytes of the entries that were written, by address. *)
Record odph_linear_table_imp := LT {
  lt_magicword : Z;
  lt_init_cap : Z;
  lt_node_sum : Z;
  lt_value_size : Z;
  lt_value_array : Z;
  lt_name : string;
  lt_values : gmap Z (list Z)
}.

(** Parameters as for the hash table; the division by a [value_size] of zero is
    undefined. *)
Definition odph_linear_table_create (name : string) (capacity value_size : Z) (exists_already : bool) (addr : Z)
    : option (option odph_linear_table_imp) :=
  if (Z.of_nat (String.length name) >=? ODPH_TABLE_NAME_LEN) || (capacity <? 1) ||
     (capacity >=? 0x1000) || (value_size =? 0) then Some None
  else if exists_already then Some None
  else if addr =? NULL then Some None
  else
    let init_cap := if capacity <? 20 then 1 else 0 in
    let vs := value_size +u32 sizeof_rwlock in
    if vs =? 0 then None
    else
      Some (Some (LT ODPH_LINEAR_TABLE_MAGIC_WORD init_cap (init_cap / vs) vs (addr + sizeof_linear_imp) name ∅)).

Definition odph_linear_table_destroy (table : option odph_linear_table_imp) (shm_free : Z) : Z :=
  match table with
  | None => ODPH_FAIL
  | Some t =>
      if negb (lt_magicword t =? ODPH_LINEAR_TABLE_MAGIC_WORD) then ODPH_FAIL
      else if negb (shm_free =? 0) then shm_free else ODPH_SUCCESS
  end.

Definition odph_linear_table_lookup (name : string) (tbl : option odph_linear_table_imp) : option odph_linear_table_imp :=
  if Z.of_nat (String.length name) >=? ODPH_TABLE_NAME_LEN then None
  else
    match tbl with
    | Some t =>
        if (lt_magicword t =? ODPH_LINEAR_TABLE_MAGIC_WORD) && bool_decide (lt_name t = name) then Some t else None
    | None => None
    end.

(** The address of the value behind the lock of entry [ikey]. *)
Definition entry_addr (t : odph_linear_table_imp) (ikey : Z) : Z :=
  lt_value_array t + (ikey *u32 lt_value_size t) + sizeof_rwlock.

(** The key is a 32-bit number. *)
Definition odph_lineartable_put_value (t : odph_linear_table_imp) (ikey : Z) (value : list Z) : Z * odph_linear_table_imp :=
  if ikey >=? lt_node_sum t then (ODPH_FAIL, t)
  else
    (ODPH_SUCCESS,
     LT (lt_magicword t) (lt_init_cap t) (lt_node_sum t) (lt_value_size t) (lt_value_array t) (lt_name t)
       (<[entry_addr t ikey := take (Z.to_nat (lt_value_size t -u64 sizeof_rwlock)) value]> (lt_values t))).

(** The bytes copied to the buffer, whatever its size; memory not yet written is
    zero. *)
Definition odph_lineartable_get_value (t : odph_linear_table_imp) (ikey buffer_size : Z) : Z * list Z :=
  if ikey >=? lt_node_sum t then (ODPH_FAIL, [])
  else
    let n := Z.to_nat (lt_value_size t -u64 sizeof_rwlock) in
    (ODPH_SUCCESS, default (replicate n 0) (lt_values t !! entry_addr t ikey)).

(** No linear table can hold a value.  The capacity is computed with a
    comparison ([capacity < 20]) where a shift was meant, so it is 0 or 1 bytes,
    the table has no entries, and every put and every get on a table that
    creation returned fails, for every key. *)
Theorem linear_table_holds_nothing (name : string) (capacity value_size addr : Z) (t : odph_linear_table_imp) :
  0 < value_size < 2 ^ 32 - 4 -> odph_linear_table_create name capacity value_size false addr = Some (Some t) ->
  lt_node_sum t = 0 /\
  (forall ikey value, 0 <= ikey -> odph_lineartable_put_value t ikey value = (ODPH_FAIL, t)) /\
  (forall ikey n, 0 <= ikey -> odph_lineartable_get_value t ikey n = (ODPH_FAIL, [])).
Proof.
  intros Hv. unfold odph_linear_table_create. destruct (_ || _); [done|]. destruct (addr =? NULL); [done|].
  unfold sizeof_rwlock. rewrite (u32_small (value_size + 4)) by (unfold is_u32; lia).
  rewrite (proj2 (Z.eqb_neq _ 0)) by lia. intros Heq. apply (inj Some) in Heq. apply (inj Some) in Heq.
  assert (lt_node_sum t = 0) as Hn.
  { rewrite <- Heq. cbn [lt_node_sum]. apply Z.div_small. destruct (capacity <? 20); lia. }
  split; [done|]. unfold odph_lineartable_put_value, odph_lineartable_get_value. rewrite Hn.
  split; intros ikey x Hk; rewrite Z.geb_leb; by rewrite (proj2 (Z.leb_le 0 ikey)).
Qed.

Lemma linear_table_holds_nothing_witness :
  exists t, odph_linear_table_create "routes" 16 8 false 4096 = Some (Some t) /\ lt_node_sum t = 0.
Proof.
  eexists. split; [vm_compute; reflexivity|].
  match goal with |- lt_node_sum ?t = 0 => apply (linear_table_holds_nothing "routes" 16 8 4096 t) end; [lia|].
  vm_compute. reflexivity.
Defined.

End LinearTable.
