(* ===== verification/Timer.v ===== *)
(** Timers, platform/linux-generic/odp_timer.c, in the variant with 16-byte
    compare-and-swap.  A pool's tick buffers and timers are lists; the headers
    of timeout events and the events posted to queues are part of the state.
    The calls are built from their accesses to the tick buffer, so that the same
    definitions give the sequential calls and the steps of threads that run
    concurrently with the timer thread. *)

From S2P Require Import Prelude Pool.

Open Scope Z_scope.
Open Scope c_scope.

Module Timer.
Import Pool.

Definition TMO_UNUSED : Z := 0xFFFFFFFFFFFFFFFF.
Definition TMO_INACTIVE : Z := 0x8000000000000000.
Definition MAX_TIMER_POOLS : Z := 255.
Definition INDEX_BITS : Z := 24.
Definition ODP_TIMER_INVALID : Z := 0xFFFFFFFF.
Definition ODP_QUEUE_INVALID : Z := 0.
Definition ODP_TIMER_SUCCESS : Z := 0.
Definition ODP_TIMER_TOOEARLY : Z := -1.
Definition ODP_TIMER_TOOLATE : Z := -2.
Definition ODP_TIMER_NOEVENT : Z := -3.

(** * Data *)

Record tick_buf_t := TB { exp_tck : Z; tmo_buf : Z }.
(** [queue] holds the next free index while the timer is free. *)
Record odp_timer := Tim { user_ptr : Z; queue : Z }.
Record odp_timeout_hdr_t := TmoHdr { expiration : Z; th_user_ptr : Z; th_timer : Z }.

Record odp_timer_pool_param_t := Param { res_ns : Z; min_tmo : Z; max_tmo : Z; num_timers : Z }.

Record odp_timer_pool := TP {
  cur_tick : Z;
  min_rel_tck : Z;
  max_rel_tck : Z;
  tick_buf : list tick_buf_t;
  timers : list odp_timer;
  high_wm : Z;
  num_alloc : Z;
  first_free : Z;
  tp_idx : Z;
  param : odp_timer_pool_param_t
}.

(** One pool, the timeout headers by buffer, and the events posted so far with
    the queue each was posted to. *)
Record tstate := TS { tp : odp_timer_pool; hdrs : gmap Z odp_timeout_hdr_t; posted : list (Z * Z) }.

Definition set_tick_buf (v : list tick_buf_t) (p : odp_timer_pool) : odp_timer_pool :=
  TP (cur_tick p) (min_rel_tck p) (max_rel_tck p) v (timers p) (high_wm p) (num_alloc p) (first_free p) (tp_idx p) (param p).
Definition set_timers (v : list odp_timer) (p : odp_timer_pool) : odp_timer_pool :=
  TP (cur_tick p) (min_rel_tck p) (max_rel_tck p) (tick_buf p) v (high_wm p) (num_alloc p) (first_free p) (tp_idx p) (param p).
Definition set_cur_tick (v : Z) (p : odp_timer_pool) : odp_timer_pool :=
  TP v (min_rel_tck p) (max_rel_tck p) (tick_buf p) (timers p) (high_wm p) (num_alloc p) (first_free p) (tp_idx p) (param p).
Definition set_free (hwm alloc first : Z) (p : odp_timer_pool) : odp_timer_pool :=
  TP (cur_tick p) (min_rel_tck p) (max_rel_tck p) (tick_buf p) (timers p) hwm alloc first (tp_idx p) (param p).
Definition set_tp (v : odp_timer_pool) (s : tstate) : tstate := TS v (hdrs s) (posted s).
Definition set_hdrs (v : gmap Z odp_timeout_hdr_t) (s : tstate) : tstate := TS (tp s) v (posted s).
Definition set_posted (v : list (Z * Z)) (s : tstate) : tstate := TS (tp s) (hdrs s) v.

(** * Timers of a pool *)

Definition tb_at (s : tstate) (idx : Z) : option tick_buf_t := zget (tick_buf (tp s)) idx.
Definition put_tb (idx : Z) (tb : tick_buf_t) (s : tstate) : option tstate :=
  l ← zset (tick_buf (tp s)) idx tb; Some (set_tp (set_tick_buf l (tp s)) s).
Definition put_timer (idx : Z) (tim : odp_timer) (s : tstate) : option tstate :=
  l ← zset (timers (tp s)) idx tim; Some (set_tp (set_timers l (tp s)) s).

(** An exchange and a compare-and-exchange of both words of a tick buffer. *)
Definition u128_xchg (idx : Z) (new : tick_buf_t) (s : tstate) : option (tick_buf_t * tstate) :=
  old ← tb_at s idx; s ← put_tb idx new s; Some (old, s).
Definition u128_cmp_xchg (idx : Z) (old new : tick_buf_t) (s : tstate) : option (bool * tstate) :=
  tb ← tb_at s idx;
  if (exp_tck tb =? exp_tck old) && (tmo_buf tb =? tmo_buf old)
  then s ← put_tb idx new s; Some (true, s) else Some (false, s).

Definition handle_to_idx (hdl : Z) (p : odp_timer_pool) : option Z :=
  let idx := hdl & (2 ^ INDEX_BITS - 1) in
  if idx <? high_wm p then Some idx else None.

Definition tp_idx_to_handle (p : odp_timer_pool) (idx : Z) : option Z :=
  if idx <? 2 ^ INDEX_BITS then Some (Z.lor (u32 (Z.shiftl (tp_idx p) INDEX_BITS)) idx) else None.

Definition timer_init (idx q up : Z) (s : tstate) : option tstate :=
  s ← put_timer idx (Tim up q) s;
  put_tb idx (TB TMO_INACTIVE ODP_BUFFER_INVALID) s.

Definition timer_fini (idx : Z) (s : tstate) : option tstate :=
  tb ← tb_at s idx;
  if negb (exp_tck tb =? TMO_UNUSED) || negb (tmo_buf tb =? ODP_BUFFER_INVALID) then None
  else put_timer idx (Tim NULL ODP_QUEUE_INVALID) s.

Definition set_next_free (idx nf : Z) (s : tstate) : option tstate :=
  tim ← zget (timers (tp s)) idx;
  if negb (queue tim =? ODP_QUEUE_INVALID) then None
  else put_timer idx (Tim (user_ptr tim) nf) s.

(** Under the lock of the pool. *)
Definition timer_alloc (q up : Z) (s : tstate) : option (Z * tstate) :=
  let p := tp s in
  if num_alloc p <? num_timers (param p) then
    let n := num_alloc p +u32 1 in
    if first_free p =? num_timers (param p) then None
    else
      let idx := first_free p in
      tim ← zget (timers p) idx;
      s ← timer_init idx q up s;
      let s := set_tp (set_free (if n >? high_wm p then n else high_wm p) n (queue tim) (tp s)) s in
      hdl ← tp_idx_to_handle p idx;
      Some (hdl, s)
  else Some (ODP_TIMER_INVALID, s).

Definition timer_cancel (idx new_state : Z) (s : tstate) : option (Z * tstate) :=
  '(old, s) ← u128_xchg idx (TB new_state ODP_BUFFER_INVALID) s;
  Some (tmo_buf old, s).

(** The last part of [timer_free], under the lock. *)
Definition free_insert (idx : Z) (s : tstate) : option tstate :=
  s ← set_next_free idx (first_free (tp s)) s;
  let p := tp s in
  if num_alloc p =? 0 then None
  else Some (set_tp (set_free (high_wm p) (num_alloc p -u32 1) idx p) s).

Definition timer_free (idx : Z) (s : tstate) : option (Z * tstate) :=
  '(old_buf, s) ← timer_cancel idx TMO_UNUSED s;
  s ← timer_fini idx s;
  s ← free_insert idx s;
  Some (old_buf, s).

Section timer.
(** The type of an event, and whether a queue takes an event. *)
Context (is_timeout : Z -> bool) (enq_ok : Z -> bool).

(** Header fields of the timeout event a timer is set with. *)
Definition fill_timeout (idx buf : Z) (s : tstate) : option tstate :=
  if is_timeout buf then
    hdl ← tp_idx_to_handle (tp s) idx;
    tim ← zget (timers (tp s)) idx;
    Some (set_hdrs (alter (fun h => TmoHdr (expiration h) (user_ptr tim) hdl) buf (hdrs s)) s)
  else Some s.

(** The loop of a reset without a new event; without other threads the exchange
    succeeds in the first round. *)
Fixpoint reset_loop (fuel : nat) (idx abs_tck : Z) (s : tstate) : option (bool * tstate) :=
  match fuel with
  | O => None
  | S fuel =>
      old ← tb_at s idx;
      if tmo_buf old =? ODP_BUFFER_INVALID then Some (false, s)
      else
        '(ok, s) ← u128_cmp_xchg idx old (TB abs_tck (tmo_buf old)) s;
        if ok : bool then Some (true, s) else reset_loop fuel idx abs_tck s
  end.

(** [buf] is [*tmo_buf], [ODP_BUFFER_INVALID] also when there is no pointer; the
    second result is [*tmo_buf] after the call. *)
Definition timer_reset (idx abs_tck buf : Z) (s : tstate) : option (bool * Z * tstate) :=
  if buf =? ODP_BUFFER_INVALID then
    '(success, s) ← reset_loop 1 idx abs_tck s;
    Some (success, buf, s)
  else
    s ← fill_timeout idx buf s;
    '(old, s) ← u128_xchg idx (TB abs_tck buf) s;
    Some (true, tmo_buf old, s).

(** The delivery of an expired timeout. *)
Definition expire_post (idx exp buf : Z) (s : tstate) : option tstate :=
  let s := if is_timeout buf
           then set_hdrs (alter (fun h => TmoHdr exp (th_user_ptr h) (th_timer h)) buf (hdrs s)) s else s in
  tim ← zget (timers (tp s)) idx;
  if enq_ok (queue tim) then Some (set_posted (posted s ++ [(queue tim, buf)]) s) else None.

Definition timer_expire (idx tick : Z) (s : tstate) : option (Z * tstate) :=
  tb ← tb_at s idx;
  let exp := exp_tck tb in
  if exp <=? tick then
    tb ← tb_at s idx;
    let old := TB exp (tmo_buf tb) in
    '(succ, s) ← u128_cmp_xchg idx old (TB (Z.lor exp TMO_INACTIVE) ODP_BUFFER_INVALID) s;
    let buf := if succ : bool then tmo_buf old else ODP_BUFFER_INVALID in
    if negb (buf =? ODP_BUFFER_INVALID) then s ← expire_post idx exp buf s; Some (1, s)
    else Some (0, s)
  else Some (0, s).

(** [for (i = 0; i < high_wm;)]: [n] timers are left. *)
Fixpoint expire_loop (n : nat) (i tick : Z) (s : tstate) : option (Z * tstate) :=
  match n with
  | O => Some (0, s)
  | S n =>
      tb ← tb_at s i;
      '(k, s) ← (if exp_tck tb <=? tick then timer_expire i tick s else Some (0, s));
      '(nexp, s) ← expire_loop n (i + 1) tick s;
      Some (k +u32 nexp, s)
  end.

Definition odp_timer_pool_expire (tick : Z) (s : tstate) : option (Z * tstate) :=
  if high_wm (tp s) >? num_timers (param (tp s)) then None
  else expire_loop (Z.to_nat (high_wm (tp s))) 0 tick s.

Definition timer_notify (s : tstate) : option tstate :=
  let prev_tick := cur_tick (tp s) in
  let s := set_tp (set_cur_tick (prev_tick +u64 1) (tp s)) s in
  '(_, s) ← odp_timer_pool_expire prev_tick s;
  Some s.

(** ** Calls of the application *)

Definition odp_timer_tick_to_ns (p : odp_timer_pool) (ticks : Z) : Z := ticks *u64 res_ns (param p).
Definition odp_timer_ns_to_tick (par : odp_timer_pool_param_t) (ns : Z) : Z := ns / res_ns par.
Definition odp_timer_current_tick (p : odp_timer_pool) : Z := cur_tick p.

Definition odp_timer_alloc (q up : Z) (s : tstate) : option (Z * tstate) :=
  if q =? ODP_QUEUE_INVALID then None else timer_alloc q up s.

Definition odp_timer_free (hdl : Z) (s : tstate) : option (Z * tstate) :=
  idx ← handle_to_idx hdl (tp s); timer_free idx s.

Definition odp_timer_set_abs (hdl abs_tck tmo_ev : Z) (s : tstate) : option (Z * Z * tstate) :=
  idx ← handle_to_idx hdl (tp s);
  let p := tp s in
  if abs_tck <? cur_tick p +u64 min_rel_tck p then Some (ODP_TIMER_TOOEARLY, tmo_ev, s)
  else if abs_tck >? cur_tick p +u64 max_rel_tck p then Some (ODP_TIMER_TOOLATE, tmo_ev, s)
  else
    '(ok, ev, s) ← timer_reset idx abs_tck tmo_ev s;
    Some (if ok : bool then ODP_TIMER_SUCCESS else ODP_TIMER_NOEVENT, ev, s).

Definition odp_timer_set_rel (hdl rel_tck tmo_ev : Z) (s : tstate) : option (Z * Z * tstate) :=
  idx ← handle_to_idx hdl (tp s);
  let p := tp s in
  let abs_tck := cur_tick p +u64 rel_tck in
  if rel_tck <? min_rel_tck p then Some (ODP_TIMER_TOOEARLY, tmo_ev, s)
  else if rel_tck >? max_rel_tck p then Some (ODP_TIMER_TOOLATE, tmo_ev, s)
  else
    '(ok, ev, s) ← timer_reset idx abs_tck tmo_ev s;
    Some (if ok : bool then ODP_TIMER_SUCCESS else ODP_TIMER_NOEVENT, ev, s).

(** The event is written only when the call returns 0. *)
Definition odp_timer_cancel (hdl : Z) (s : tstate) : option (Z * option Z * tstate) :=
  idx ← handle_to_idx hdl (tp s);
  '(old_buf, s) ← timer_cancel idx TMO_INACTIVE s;
  Some (if negb (old_buf =? ODP_BUFFER_INVALID) then (0, Some old_buf, s) else (-1, None, s)).

Definition odp_timeout_fresh (tmo : Z) (s : tstate) : option bool :=
  hdr ← hdrs s !! tmo;
  idx ← handle_to_idx (th_timer hdr) (tp s);
  tb ← tb_at s idx;
  Some (expiration hdr =? Z.land (exp_tck tb) (Z.lnot TMO_INACTIVE)).

Definition odp_timeout_timer (tmo : Z) (s : tstate) : option Z := th_timer <$> hdrs s !! tmo.
Definition odp_timeout_tick (tmo : Z) (s : tstate) : option Z := expiration <$> hdrs s !! tmo.
Definition odp_timeout_user_ptr (tmo : Z) (s : tstate) : option Z := th_user_ptr <$> hdrs s !! tmo.

End timer.

(** * Pools of timers *)

(** [num_timer_pools] and [timer_pool\[\]]. *)
Record globals := TG { num_timer_pools : Z; timer_pool : gmap Z odp_timer_pool }.

Definition odp_timer_init_global : globals := TG 0 ∅.

(** The arrays after the initialisation loop. *)
Definition init_timers (n : Z) : list odp_timer := (fun i => Tim NULL (i + 1)) <$> seqZ 0 n.
Definition init_ticks (n : Z) : list tick_buf_t := replicate (Z.to_nat n) (TB TMO_UNUSED ODP_BUFFER_INVALID).

(** The index of the new pool; [None] when the table is full.  Reserving the
    memory and starting the timer thread end the program when they fail. *)
Definition odp_timer_pool_new (par : odp_timer_pool_param_t) (g : globals) : option Z * globals :=
  let idx := num_timer_pools g in
  if idx >=? MAX_TIMER_POOLS then (None, g)
  else
    (Some idx,
     TG (idx +u32 1)
       (<[idx := TP 0 (odp_timer_ns_to_tick par (min_tmo par)) (odp_timer_ns_to_tick par (max_tmo par))
                   (init_ticks (num_timers par)) (init_timers (num_timers par)) 0 0 0 idx par]> (timer_pool g))).

Definition odp_timer_pool_create (par : odp_timer_pool_param_t) (g : globals) : option Z * globals :=
  if res_ns par =? 0 then (None, g) else odp_timer_pool_new par g.

(** Destroying a pool with timers in use ends the program. *)
Definition odp_timer_pool_del (idx : Z) (g : globals) : option globals :=
  p ← timer_pool g !! idx;
  if negb (num_alloc p =? 0) then None else Some (TG (num_timer_pools g) (delete idx (timer_pool g))).

Definition handle_to_tp (hdl : Z) (g : globals) : option odp_timer_pool :=
  let idx := Z.shiftr hdl INDEX_BITS in
  if idx <? MAX_TIMER_POOLS then timer_pool g !! idx else None.

End Timer.
