(* ===== verification/TimerProofs.v ===== *)
(** Timers under concurrency and over time.  Threads of the application and the
    timer thread interleave at their accesses to the tick buffers; no timeout
    event is lost or duplicated, timers are handed out once, and an armed timer
    delivers its event at its tick. *)

From S2P Require Import Prelude Pool Timer.

Open Scope Z_scope.
Open Scope c_scope.

Module TimerProofs.
Import Pool Timer.

(** * Interleavings

    First the places of events and the invariant, then the steps. *)

(** Where a thread is inside a call.  [n] are the timers left in a scan. *)
Inductive pc :=
  | Idle
  | ResetExp (idx abs : Z)
  | ResetBuf (idx abs exp : Z)
  | ResetCas (idx abs exp buf : Z)
  | SetSwap (idx abs buf : Z)
  | FreeFini (idx ret : Z)
  | FreeInsert (idx ret : Z)
  | ScanAt (n : nat) (i tick : Z)
  | ExpLoad (n : nat) (i tick : Z)
  | ExpBuf (n : nat) (i tick exp : Z)
  | ExpCas (n : nat) (i tick exp buf : Z)
  | ExpPost (n : nat) (i tick exp buf : Z).

(** A buffer handed back to the application. *)
Definition some_buf (b : Z) : list Z := if b =? ODP_BUFFER_INVALID then [] else [b].

(** A thread is setting or resetting timer [idx]. *)
Definition setting (idx : Z) (c : pc) : bool :=
  match c with
  | ResetExp i _ | ResetBuf i _ _ | ResetCas i _ _ _ | SetSwap i _ _ => i =? idx
  | _ => false
  end.

(** [live] are the timers the application has. *)
Record sys := Sys { sy_s : tstate; sy_pcs : list pc; sy_own : list Z; sy_live : list Z }.

(** ** Conservation of events *)

Definition inflight (c : pc) : list Z :=
  match c with
  | SetSwap _ _ b => [b]
  | FreeFini _ b | FreeInsert _ b => some_buf b
  | ExpPost _ _ _ _ b => [b]
  | _ => []
  end.

(** All places an event can be in: with the application, in a call, posted to a
    queue, or in a timer. *)
Definition places (y : sys) : list Z :=
  sy_own y ++ concat (inflight <$> sy_pcs y) ++ (snd <$> posted (sy_s y)) ++
  concat ((fun tb => some_buf (tmo_buf tb)) <$> tick_buf (tp (sy_s y))).

Lemma concat_update {A} (f : A -> list Z) (l : list A) t c c' :
  l !! t = Some c -> exists R, concat (f <$> l) ≡ₚ f c ++ R /\ concat (f <$> <[t := c']> l) ≡ₚ f c' ++ R.
Proof.
  revert t. induction l as [|x l IH]; intros t Ht; [done|]. destruct t as [|t]; simpl in *.
  - simplify_eq. by exists (concat (f <$> l)).
  - destruct (IH t Ht) as (R & H1 & H2). exists (f x ++ R). rewrite H1, H2. split; solve_Permutation.
Qed.

(** ** The invariant *)

(** Timers a thread is about to put back on the free list. *)
Definition pending (c : pc) : list Z :=
  match c with FreeFini i _ | FreeInsert i _ => [i] | _ => [] end.

(** The free list: from [first] through [l]; it ends in the number of timers. *)
Fixpoint fchain (tms : list odp_timer) (first : Z) (l : list Z) (z : Z) : Prop :=
  match l with
  | [] => first = z
  | i :: l => first = i /\ exists tim, zget tms i = Some tim /\ fchain tms (queue tim) l z
  end.

Definition pc_ok (p : odp_timer_pool) (live : list Z) (c : pc) : Prop :=
  match c with
  | Idle | FreeFini _ _ => True
  | ResetExp i _ | ResetBuf i _ _ | ResetCas i _ _ _ => i ∈ live
  | SetSwap i _ b => i ∈ live /\ b <> ODP_BUFFER_INVALID
  | FreeInsert i _ => exists tim, zget (timers p) i = Some tim /\ queue tim = ODP_QUEUE_INVALID
  | ScanAt n i tick => 0 <= i /\ i + Z.of_nat n <= high_wm p /\ tick < TMO_INACTIVE /\ tick < cur_tick p
  | ExpLoad n i tick => 0 <= i /\ i + Z.of_nat n < high_wm p /\ tick < TMO_INACTIVE /\ tick < cur_tick p
  | ExpBuf n i tick exp | ExpCas n i tick exp _ =>
      0 <= i /\ i + Z.of_nat n < high_wm p /\ tick < TMO_INACTIVE /\ tick < cur_tick p /\ exp <= tick
  | ExpPost n i tick exp b =>
      0 <= i /\ i + Z.of_nat n < high_wm p /\ tick < TMO_INACTIVE /\ tick < cur_tick p /\ exp <= tick /\ b <> ODP_BUFFER_INVALID
  end.

Abbreviation N p := (num_timers (param p)).

(** [FL] are the timers that were used before and are free. *)
Record tinv (p : odp_timer_pool) (pcs : list pc) (live FL : list Z) : Prop := {
  ti_len : zlen (tick_buf p) = N p /\ zlen (timers p) = N p;
  ti_bound : 0 <= high_wm p <= N p /\ N p <= 2 ^ 24 /\ 0 <= tp_idx p < 255 /\ 0 <= cur_tick p;
  ti_part : live ++ concat (pending <$> pcs) ++ FL ≡ₚ seqZ 0 (high_wm p);
  ti_num : num_alloc p = zlen (live ++ concat (pending <$> pcs));
  ti_chain : fchain (timers p) (first_free p) (FL ++ seqZ (high_wm p) (N p - high_wm p)) (N p);
  ti_unused : forall i, 0 <= i < N p -> i ∉ live -> zget (tick_buf p) i = Some (TB TMO_UNUSED ODP_BUFFER_INVALID);
  ti_pcs : Forall (pc_ok p live) pcs
}.

Lemma ti_nodup p pcs live FL : tinv p pcs live FL -> NoDup (live ++ concat (pending <$> pcs) ++ FL).
Proof. intros Hi. rewrite (ti_part _ _ _ _ Hi). apply NoDup_seqZ. Qed.

Lemma ti_used p pcs live FL i :
  tinv p pcs live FL -> i ∈ live ++ concat (pending <$> pcs) ++ FL -> 0 <= i < high_wm p.
Proof. intros Hi Hx. rewrite (ti_part _ _ _ _ Hi) in Hx. apply elem_of_seqZ in Hx. lia. Qed.

(** Every used timer has a tick buffer and an entry. *)
Lemma ti_tb p pcs live FL i : tinv p pcs live FL -> 0 <= i < high_wm p -> exists tb, zget (tick_buf p) i = Some tb.
Proof. intros Hi Hx. apply zget_Some. destruct (ti_len _ _ _ _ Hi) as [-> _]. pose proof (ti_bound _ _ _ _ Hi). lia. Qed.

Lemma ti_tim p pcs live FL i : tinv p pcs live FL -> 0 <= i < N p -> exists tim, zget (timers p) i = Some tim.
Proof. intros Hi Hx. apply zget_Some. by destruct (ti_len _ _ _ _ Hi) as [_ ->]. Qed.

(** A thread that moves inside a call. *)
Lemma tinv_pc p pcs live FL t c c' :
  tinv p pcs live FL -> pcs !! t = Some c -> pending c' = pending c -> pc_ok p live c' ->
  tinv p (<[t := c']> pcs) live FL.
Proof.
  intros Hi Ht Hp Hok. destruct (concat_update pending pcs t c c' Ht) as (R & H1 & H2). rewrite Hp in H2.
  assert (concat (pending <$> <[t := c']> pcs) ≡ₚ concat (pending <$> pcs)) as Heq by (by rewrite H1, H2).
  destruct Hi as [I1 I2 I3 I4 I5 I6 I7]. split; try done.
  - by rewrite Heq.
  - rewrite I4. unfold zlen. by rewrite !length_app, (Permutation_length Heq).
  - by apply Forall_insert.
Qed.

(** A change of the tick buffer of a live timer. *)
Lemma tinv_tick p pcs live FL i tb :
  tinv p pcs live FL -> i ∈ live -> tinv (set_tick_buf (<[Z.to_nat i := tb]> (tick_buf p)) p) pcs live FL.
Proof.
  intros Hi Hin. pose proof (ti_used _ _ _ _ i Hi ltac:(set_solver)) as Hr.
  destruct Hi as [[I1 I1'] I2 I3 I4 I5 I6 I7]. split; try done.
  - split; [|done]. unfold zlen. simpl. rewrite length_insert. exact I1.
  - simpl. intros j Hj Hnj. rewrite zget_nonneg by lia. rewrite list_lookup_insert_ne.
    + rewrite <- zget_nonneg by lia. by apply I6.
    + intros Heq. assert (i = j) by lia. by subst.
Qed.

(** What a timer pool does with an event that a call swaps out of a timer. *)
Definition bufs_of (l : list tick_buf_t) : list Z := concat ((fun tb => some_buf (tmo_buf tb)) <$> l).

Lemma bufs_update l i tb tb' :
  zget l i = Some tb -> exists R, bufs_of l ≡ₚ some_buf (tmo_buf tb) ++ R /\
    bufs_of (<[Z.to_nat i := tb']> l) ≡ₚ some_buf (tmo_buf tb') ++ R.
Proof.
  intros Hz. pose proof (zget_bound _ _ _ Hz). rewrite zget_nonneg in Hz by lia.
  exact (concat_update (fun tb => some_buf (tmo_buf tb)) l (Z.to_nat i) tb tb' Hz).
Qed.

Lemma put_tb_run s i tb tb' :
  tb_at s i = Some tb -> put_tb i tb' s = Some (set_tp (set_tick_buf (<[Z.to_nat i := tb']> (tick_buf (tp s))) (tp s)) s).
Proof. intros Hz. apply zget_bound in Hz. unfold put_tb. by rewrite zset_Some. Qed.

Lemma xchg_run s i tb tb' :
  tb_at s i = Some tb ->
  u128_xchg i tb' s = Some (tb, set_tp (set_tick_buf (<[Z.to_nat i := tb']> (tick_buf (tp s))) (tp s)) s).
Proof. intros Hz. unfold u128_xchg. rewrite Hz. cbn [mbind option_bind]. by rewrite (put_tb_run _ _ _ _ Hz). Qed.

Lemma cas_run s i tb old new :
  tb_at s i = Some tb ->
  (tb = old /\ u128_cmp_xchg i old new s =
     Some (true, set_tp (set_tick_buf (<[Z.to_nat i := new]> (tick_buf (tp s))) (tp s)) s)) \/
  (tb <> old /\ u128_cmp_xchg i old new s = Some (false, s)).
Proof.
  intros Hz. unfold u128_cmp_xchg. rewrite Hz. cbn [mbind option_bind]. destruct tb as [e b], old as [e' b']. simpl.
  destruct (e =? e') eqn:E1, (b =? b') eqn:E2; zbool; subst; cbn [andb]; rewrite ?(put_tb_run _ _ _ _ Hz);
    [left; done|right; split; [congruence|done]..].
Qed.

(** ** Allocation and release *)

Lemma fchain_other tms i tim first l z :
  0 <= i < zlen tms -> i ∉ l -> fchain tms first l z -> fchain (<[Z.to_nat i := tim]> tms) first l z.
Proof.
  intros Hr. revert first. induction l as [|j l IH]; intros first Hn; [done|]. intros (-> & tj & Hj & Hc).
  split; [done|]. exists tj. split; [|apply IH; [set_solver|done]].
  pose proof (zget_bound _ _ _ Hj). rewrite zget_nonneg in * by lia. rewrite list_lookup_insert_ne; [done|]. set_solver by lia.
Qed.

Lemma put_timer_run s i tim :
  0 <= i < zlen (timers (tp s)) ->
  put_timer i tim s = Some (set_tp (set_timers (<[Z.to_nat i := tim]> (timers (tp s))) (tp s)) s).
Proof. intros Hr. unfold put_timer. by rewrite zset_Some. Qed.

Lemma elem_concat {A} (f : A -> list Z) (l : list A) t c i : l !! t = Some c -> i ∈ f c -> i ∈ concat (f <$> l).
Proof.
  intros Ht Hi. apply list_elem_of_In, in_concat. exists (f c). rewrite <- !list_elem_of_In. split; [|done].
  apply list_elem_of_fmap. exists c. split; [done|]. by eapply list_elem_of_lookup_2.
Qed.

(** Two threads never release the same timer. *)
Lemma pending_once (pcs : list pc) t c t' c' i :
  NoDup (concat (pending <$> pcs)) -> pcs !! t = Some c -> pcs !! t' = Some c' -> i ∈ pending c -> i ∈ pending c' -> t = t'.
Proof.
  intros Hnd Ht Ht' Hi Hi'. destruct (decide (t = t')) as [|Hne]; [done|exfalso].
  destruct (concat_update pending pcs t c Idle Ht) as (R & H1 & H2). simpl in H2. rewrite H1 in Hnd.
  apply NoDup_app in Hnd as (_ & Hd & _). apply (Hd i Hi). rewrite <- H2.
  apply (elem_concat pending _ t' c'); [|done]. by rewrite list_lookup_insert_ne.
Qed.

Lemma pending_part p pcs live FL t c i :
  tinv p pcs live FL -> pcs !! t = Some c -> i ∈ pending c ->
  0 <= i < high_wm p /\ (i ∉ live) /\ (i ∉ FL).
Proof.
  intros Hi Ht Hx.
  pose proof (elem_concat pending pcs t c i Ht Hx) as Hin.
  pose proof (ti_nodup _ _ _ _ Hi) as Hnd. apply NoDup_app in Hnd as (_ & Hd & Hnd). apply NoDup_app in Hnd as (_ & Hd' & _).
  split; [eapply ti_used; [done|]; set_solver|]. split; [|by apply Hd']. intros Hl. apply (Hd i Hl). set_solver.
Qed.

Lemma fini_step s pcs live FL t i r :
  tinv (tp s) pcs live FL -> pcs !! t = Some (FreeFini i r) ->
  exists s', timer_fini i s = Some s' /\ tinv (tp s') (<[t := FreeInsert i r]> pcs) live FL /\
    tick_buf (tp s') = tick_buf (tp s) /\ hdrs s' = hdrs s /\ posted s' = posted s.
Proof.
  intros Hi Ht. destruct (pending_part _ _ _ _ t _ i Hi Ht ltac:(set_solver)) as (Hr & Hl & Hf).
  destruct (ti_bound _ _ _ _ Hi) as (Hb & _). destruct (ti_len _ _ _ _ Hi) as [_ Hlen].
  unfold timer_fini, tb_at. rewrite (ti_unused _ _ _ _ Hi i) by (done || lia). cbn [mbind option_bind].
  rewrite !Z.eqb_refl. cbn [negb orb]. rewrite put_timer_run by lia. eexists. split; [done|]. split; [|done].
  set (tms := <[Z.to_nat i := Tim NULL ODP_QUEUE_INVALID]> (timers (tp s))).
  assert (zget tms i = Some (Tim NULL ODP_QUEUE_INVALID)) as Hz.
  { unfold tms. rewrite zget_insert, bool_decide_eq_true_2 by (done || lia). done. }
  apply (tinv_pc _ _ _ _ t (FreeFini i r)); [|done|done|].
  - destruct Hi as [I1 I2 I3 I4 I5 I6 I7]. split; try done; simpl.
    + split; [apply I1|]. unfold zlen, tms. rewrite length_insert. apply I1.
    + apply fchain_other; [lia| |done]. intros [?|Hs%elem_of_seqZ]%elem_of_app; [done|lia].
    + eapply Forall_impl; [exact I7|]. intros c Hc. destruct c; try exact Hc. destruct Hc as (tim & Htim & Hq).
      simpl. fold tms. destruct (decide (idx = i)) as [->|]; [by exists (Tim NULL ODP_QUEUE_INVALID)|].
      exists tim. unfold tms. by rewrite zget_insert, bool_decide_eq_false_2 by (lia || congruence).
  - simpl. by exists (Tim NULL ODP_QUEUE_INVALID).
Qed.

Lemma insert_step s pcs live FL t i r :
  tinv (tp s) pcs live FL -> pcs !! t = Some (FreeInsert i r) ->
  exists s', free_insert i s = Some s' /\ tinv (tp s') (<[t := Idle]> pcs) live (i :: FL) /\
    tick_buf (tp s') = tick_buf (tp s) /\ hdrs s' = hdrs s /\ posted s' = posted s.
Proof.
  intros Hi Ht. destruct (pending_part _ _ _ _ t _ i Hi Ht ltac:(set_solver)) as (Hr & Hl & Hf).
  destruct (ti_bound _ _ _ _ Hi) as (Hb & Hb' & _). destruct (ti_len _ _ _ _ Hi) as [_ Hlen].
  pose proof (proj1 (Forall_lookup _ _) (ti_pcs _ _ _ _ Hi) _ _ Ht) as (tim & Htim & Hq).
  unfold free_insert, set_next_free. rewrite Htim. cbn [mbind option_bind]. rewrite Hq, Z.eqb_refl. cbn [negb].
  rewrite put_timer_run by lia. cbn [mbind option_bind tp set_tp set_timers num_alloc high_wm].
  destruct (concat_update pending pcs t _ Idle Ht) as (R & H1 & H2). simpl in H1, H2.
  assert (num_alloc (tp s) = 1 + zlen (live ++ concat (pending <$> <[t := Idle]> pcs))) as Hn.
  { rewrite (ti_num _ _ _ _ Hi). unfold zlen. rewrite !length_app, (Permutation_length H1), (Permutation_length H2). simpl. lia. }
  assert (num_alloc (tp s) <= high_wm (tp s)) as Hle.
  { rewrite (ti_num _ _ _ _ Hi). pose proof (Permutation_length (ti_part _ _ _ _ Hi)) as HL.
    unfold zlen. rewrite !length_app in *. rewrite length_seqZ in HL. lia. }
  rewrite (proj2 (Z.eqb_neq _ 0)) by (unfold zlen in Hn; lia).
  eexists. split; [done|]. split; [|done]. pose proof (ti_nodup _ _ _ _ Hi) as Hnd.
  destruct Hi as [I1 I2 I3 I4 I5 I6 I7]. split; try done; simpl.
  - split; [apply I1|]. unfold zlen. rewrite length_insert. apply I1.
  - rewrite <- I3, H1, H2. solve_Permutation.
  - rewrite u32_small by (unfold is_u32, zlen in *; lia). lia.
  - split; [done|]. exists (Tim (user_ptr tim) (first_free (tp s))).
    rewrite zget_insert, bool_decide_eq_true_2 by (done || lia). split; [done|]. simpl.
    apply fchain_other; [lia| |done]. intros [?|Hs%elem_of_seqZ]%elem_of_app; [done|lia].
  - apply Forall_lookup. intros t' c' Ht'. destruct (decide (t' = t)) as [->|Hne].
    { rewrite list_lookup_insert_eq in Ht' by (by eapply lookup_lt_Some). by simplify_eq. }
    rewrite list_lookup_insert_ne in Ht' by done. pose proof (proj1 (Forall_lookup _ _) I7 _ _ Ht') as Hc.
    destruct c'; try exact Hc. destruct Hc as (tim' & Htim' & Hq'). exists tim'. simpl.
    rewrite zget_insert, bool_decide_eq_false_2; [done| |lia]. intros <-. apply Hne.
    apply NoDup_app in Hnd as (_ & _ & Hnd). apply NoDup_app in Hnd as (Hnd & _ & _).
    symmetry. eapply (pending_once pcs t _ t' _ i); [done|exact Ht|exact Ht'|set_solver|set_solver].
Qed.

Lemma handle_fields p idx :
  0 <= tp_idx p < 255 -> 0 <= idx < 2 ^ 24 ->
  exists hdl, tp_idx_to_handle p idx = Some hdl /\ hdl <> ODP_TIMER_INVALID /\
    (hdl & (2 ^ INDEX_BITS - 1)) = idx /\ Z.shiftr hdl INDEX_BITS = tp_idx p.
Proof.
  intros Ht Hi. unfold tp_idx_to_handle, INDEX_BITS, ODP_TIMER_INVALID. rewrite (proj2 (Z.ltb_lt _ _)) by lia.
  eexists. split; [done|]. rewrite Z.shiftl_mul_pow2, u32_small by (unfold is_u32; lia).
  rewrite Z.lor_comm, (lor_disjoint idx (tp_idx p) 24) by lia.
  split; [lia|]. change (2 ^ 24 - 1) with (Z.ones 24). rewrite Z.land_ones, Z.shiftr_div_pow2 by lia.
  change (2 ^ 24) with 16777216 in *. split; Z.div_mod_to_equations; lia.
Qed.

(** Timer [i] leaves the free list; [hwm] is the new high watermark. *)
Lemma take_timer p pcs live FL i hwm FL' tim q up :
  tinv p pcs live FL -> high_wm p <= hwm <= N p -> i :: live ++ concat (pending <$> pcs) ++ FL' ≡ₚ seqZ 0 hwm ->
  zget (timers p) i = Some tim -> fchain (timers p) (queue tim) (FL' ++ seqZ hwm (N p - hwm)) (N p) ->
  tinv (set_free hwm (num_alloc p +u32 1) (queue tim)
          (set_tick_buf (<[Z.to_nat i := TB TMO_INACTIVE ODP_BUFFER_INVALID]> (tick_buf p))
             (set_timers (<[Z.to_nat i := Tim up q]> (timers p)) p))) pcs (i :: live) FL'.
Proof.
  intros Hi Hh Hpart Htim Hchain. pose proof (zget_bound _ _ _ Htim) as Hir. destruct (ti_len _ _ _ _ Hi) as [Hl1 Hl2].
  assert (NoDup (i :: live ++ concat (pending <$> pcs) ++ FL')) as Hnd by (rewrite Hpart; apply NoDup_seqZ).
  apply NoDup_cons in Hnd as [Hn _].
  assert (num_alloc p < N p) as Hna.
  { rewrite (ti_num _ _ _ _ Hi). apply Permutation_length in Hpart. unfold zlen in *. simpl in Hpart.
    rewrite !length_app, length_seqZ in *. lia. }
  assert (0 <= i < hwm) as Hib.
  { assert (i ∈ seqZ 0 hwm) as Hs by (rewrite <- Hpart; set_solver). apply elem_of_seqZ in Hs. lia. }
  destruct Hi as [_ I2 I3 I4 I5 I6 I7]. split; simpl.
  - unfold zlen. rewrite !length_insert. done.
  - lia.
  - exact Hpart.
  - rewrite I4 in *. unfold zlen in *. rewrite u32_small by (unfold is_u32; lia). simpl. lia.
  - apply fchain_other; [lia| |done]. intros [?|Hs%elem_of_seqZ]%elem_of_app; [set_solver|lia].
  - intros j Hj Hnj. rewrite zget_insert by lia. rewrite bool_decide_eq_false_2 by set_solver. apply I6; [lia|set_solver].
  - apply Forall_lookup. intros t c Ht. pose proof (proj1 (Forall_lookup _ _) I7 _ _ Ht) as Hc.
    destruct c; simpl in *; try lia; try (destruct Hc; split); try set_solver.
    destruct Hc as (tim' & Htim' & Hq). exists tim'. rewrite zget_insert by lia. rewrite bool_decide_eq_false_2; [done|].
    intros <-. apply Hn. pose proof (elem_concat pending pcs t (FreeInsert i ret) i Ht ltac:(set_solver)). set_solver.
Qed.

(** The timer at the front of the free list. *)
Lemma free_front p pcs live FL :
  tinv p pcs live FL -> num_alloc p < N p ->
  exists i hwm FL' tim, first_free p = i /\ 0 <= i < N p /\ zget (timers p) i = Some tim /\
    high_wm p <= hwm <= N p /\ (i :: live ++ concat (pending <$> pcs) ++ FL' ≡ₚ seqZ 0 hwm) /\
    fchain (timers p) (queue tim) (FL' ++ seqZ hwm (N p - hwm)) (N p) /\
    (if num_alloc p +u32 1 >? high_wm p then num_alloc p +u32 1 else high_wm p) = hwm.
Proof.
  intros Hi Hlt. destruct (ti_bound _ _ _ _ Hi) as (Hb & Hb' & Hti & _). pose proof (ti_part _ _ _ _ Hi) as Hp.
  pose proof (Permutation_length Hp) as HL. rewrite app_assoc, length_app, length_seqZ in HL.
  pose proof (ti_num _ _ _ _ Hi) as Hn. unfold zlen in Hn. pose proof (ti_chain _ _ _ _ Hi) as Hc.
  rewrite u32_small by (unfold is_u32; lia). rewrite Z.gtb_ltb. destruct FL as [|i FL'].
  - simpl in HL. rewrite app_nil_r in Hp. rewrite seqZ_cons in Hc by lia. destruct Hc as (Hff & tim & Htim & Hc).
    exists (high_wm p), (high_wm p + 1), [], tim. rewrite (proj2 (Z.ltb_lt _ _)) by lia.
    split; [done|]. split; [lia|]. split; [done|]. split; [lia|]. split; [|split; [|lia]].
    + rewrite app_nil_r, Hp. rewrite (seqZ_app 0 (high_wm p) 1) by lia. rewrite Z.add_0_l.
      rewrite (seqZ_cons (high_wm p)) by lia. simpl. rewrite <- Permutation_cons_append. done.
    + simpl. by replace (N p - (high_wm p + 1)) with (Z.pred (N p - high_wm p)) by lia.
  - simpl in HL. destruct Hc as (Hff & tim & Htim & Hc). pose proof (ti_used _ _ _ _ i Hi ltac:(set_solver)).
    exists i, (high_wm p), FL', tim. rewrite (proj2 (Z.ltb_ge _ _)) by lia.
    split; [done|]. split; [lia|]. split; [done|]. split; [lia|]. split; [|split; [done|lia]].
    rewrite <- Hp. solve_Permutation.
Qed.

Lemma alloc_step s pcs live FL q up :
  tinv (tp s) pcs live FL ->
  (num_alloc (tp s) < N (tp s) /\
   exists hdl i s' FL', timer_alloc q up s = Some (hdl, s') /\ hdl <> ODP_TIMER_INVALID /\
     (hdl & (2 ^ INDEX_BITS - 1)) = i /\ Z.shiftr hdl INDEX_BITS = tp_idx (tp s) /\ (i ∉ live) /\
     tinv (tp s') pcs (i :: live) FL' /\ zget (tick_buf (tp s)) i = Some (TB TMO_UNUSED ODP_BUFFER_INVALID) /\
     tick_buf (tp s') = <[Z.to_nat i := TB TMO_INACTIVE ODP_BUFFER_INVALID]> (tick_buf (tp s)) /\
     zget (timers (tp s')) i = Some (Tim up q) /\ hdrs s' = hdrs s /\ posted s' = posted s) \/
  (num_alloc (tp s) = N (tp s) /\ timer_alloc q up s = Some (ODP_TIMER_INVALID, s)).
Proof.
  intros Hi. destruct (ti_bound _ _ _ _ Hi) as (Hb & Hb' & Hti & _). destruct (ti_len _ _ _ _ Hi) as [Hl1 Hl2].
  assert (num_alloc (tp s) <= N (tp s)) as Hle.
  { pose proof (Permutation_length (ti_part _ _ _ _ Hi)) as HL. rewrite app_assoc, length_app, length_seqZ in HL.
    rewrite (ti_num _ _ _ _ Hi). unfold zlen. lia. }
  unfold timer_alloc. destruct (num_alloc (tp s) <? N (tp s)) eqn:E; zbool; [left; split; [done|]|right; split; [lia|done]].
  destruct (free_front _ _ _ _ Hi E) as (i & hwm & FL' & tim & Hff & Hir & Htim & Hh & Hp & Hc & Hw).
  rewrite Hff. rewrite (proj2 (Z.eqb_neq i _)) by lia. rewrite Htim. cbn [mbind option_bind]. unfold timer_init.
  rewrite put_timer_run by lia. cbn [mbind option_bind].
  assert (i ∉ live) as Hil.
  { assert (NoDup (i :: live ++ concat (pending <$> pcs) ++ FL')) as Hnd by (rewrite Hp; apply NoDup_seqZ).
    apply NoDup_cons in Hnd as [Hnot _]. set_solver. }
  pose proof (ti_unused _ _ _ _ Hi i Hir Hil) as Hun.
  rewrite (put_tb_run _ _ (TB TMO_UNUSED ODP_BUFFER_INVALID)) by exact Hun. cbn [mbind option_bind].
  destruct (handle_fields (tp s) i Hti ltac:(lia)) as (hdl & -> & Hne & Hm & Hsr). cbn [mbind option_bind].
  eexists hdl, i, _, FL'. split; [done|]. split; [done|]. split; [done|]. split; [done|]. split; [done|].
  split; [|split; [done|split; [done|split; [|done]]]].
  - cbn [tp set_tp]. rewrite Hw. apply (take_timer (tp s) pcs live FL i hwm FL' tim q up); done.
  - simpl. rewrite zget_insert, bool_decide_eq_true_2 by (lia || done). done.
Qed.

(** A timer the application frees. *)
Lemma free_start p pcs live1 i live2 FL t b :
  tinv p pcs (live1 ++ i :: live2) FL -> pcs !! t = Some Idle -> Forall (fun c => setting i c = false) pcs ->
  tinv (set_tick_buf (<[Z.to_nat i := TB TMO_UNUSED ODP_BUFFER_INVALID]> (tick_buf p)) p)
    (<[t := FreeFini i b]> pcs) (live1 ++ live2) FL.
Proof.
  intros Hi Ht Hset. pose proof (ti_used _ _ _ _ i Hi ltac:(set_solver)) as Hr. destruct (ti_len _ _ _ _ Hi) as [Hl1 _].
  destruct (concat_update pending pcs t _ (FreeFini i b) Ht) as (R & H1 & H2). simpl in H1, H2.
  destruct Hi as [I1 I2 I3 I4 I5 I6 I7]. split; try done; simpl.
  - split; [|apply I1]. unfold zlen. rewrite length_insert. apply I1.
  - rewrite <- I3, H1, H2. solve_Permutation.
  - rewrite I4. unfold zlen. rewrite !length_app, (Permutation_length H1), (Permutation_length H2). simpl. lia.
  - intros j Hj Hnj. rewrite zget_insert by lia. case_bool_decide as Hij; [done|]. apply I6; [done|set_solver].
  - apply Forall_lookup. intros t' c Ht'. destruct (decide (t' = t)) as [->|Hne].
    { rewrite list_lookup_insert_eq in Ht' by (by eapply lookup_lt_Some). by simplify_eq. }
    rewrite list_lookup_insert_ne in Ht' by done. pose proof (proj1 (Forall_lookup _ _) I7 _ _ Ht') as Hc.
    pose proof (proj1 (Forall_lookup _ _) Hset _ _ Ht') as Hs. simpl in Hs. destruct c; simpl in *; try done; zbool; set_solver.
Qed.

(** ** Every access of a thread *)

Lemma places_pc s pcs own own' live t c c' :
  pcs !! t = Some c -> own' ++ inflight c' ≡ₚ own ++ inflight c ->
  places (Sys s (<[t := c']> pcs) own' live) ≡ₚ places (Sys s pcs own live).
Proof.
  intros Ht Ho. destruct (concat_update inflight pcs t c c' Ht) as (R & H1 & H2). unfold places. simpl. rewrite H1, H2.
  transitivity ((own' ++ inflight c') ++ R ++ (snd <$> posted s) ++ bufs_of (tick_buf (tp s))).
  - unfold bufs_of. solve_Permutation.
  - rewrite Ho. unfold bufs_of. solve_Permutation.
Qed.

(** An access to the tick buffer of [i] that moves events between it, the thread
    and the application. *)
Lemma places_tick s pcs own own' live t c c' i tb tb' :
  pcs !! t = Some c -> zget (tick_buf (tp s)) i = Some tb ->
  own' ++ inflight c' ++ some_buf (tmo_buf tb') ≡ₚ own ++ inflight c ++ some_buf (tmo_buf tb) ->
  places (Sys (set_tp (set_tick_buf (<[Z.to_nat i := tb']> (tick_buf (tp s))) (tp s)) s) (<[t := c']> pcs) own' live) ≡ₚ
  places (Sys s pcs own live).
Proof.
  intros Ht Hz Ho. destruct (concat_update inflight pcs t c c' Ht) as (R & H1 & H2).
  destruct (bufs_update _ i tb tb' Hz) as (R' & H3 & H4). unfold bufs_of in H3, H4. unfold places. simpl. rewrite H1, H2, H3, H4.
  transitivity ((own' ++ inflight c' ++ some_buf (tmo_buf tb')) ++ R ++ (snd <$> posted s) ++ R'); [solve_Permutation|].
  rewrite Ho. solve_Permutation.
Qed.

(** ** Steps *)

Section conc.
Context (is_timeout : Z -> bool) (enq_ok : Z -> bool).

(** The next access of a thread; [own] are the events the application holds. *)
Definition advance (c : pc) (s : tstate) (own : list Z) : option (pc * tstate * list Z) :=
  match c with
  | Idle => None
  | ResetExp idx abs => tb ← tb_at s idx; Some (ResetBuf idx abs (exp_tck tb), s, own)
  | ResetBuf idx abs exp =>
      tb ← tb_at s idx;
      Some (if tmo_buf tb =? ODP_BUFFER_INVALID then Idle else ResetCas idx abs exp (tmo_buf tb), s, own)
  | ResetCas idx abs exp buf =>
      '(ok, s) ← u128_cmp_xchg idx (TB exp buf) (TB abs buf) s;
      Some (if ok : bool then Idle else ResetExp idx abs, s, own)
  | SetSwap idx abs buf =>
      '(old, s) ← u128_xchg idx (TB abs buf) s;
      Some (Idle, s, some_buf (tmo_buf old) ++ own)
  | FreeFini idx ret => s ← timer_fini idx s; Some (FreeInsert idx ret, s, own)
  | FreeInsert idx ret => s ← free_insert idx s; Some (Idle, s, some_buf ret ++ own)
  | ScanAt O i tick => Some (Idle, s, own)
  | ScanAt (S n) i tick =>
      tb ← tb_at s i;
      Some (if exp_tck tb <=? tick then ExpLoad n i tick else ScanAt n (i + 1) tick, s, own)
  | ExpLoad n i tick =>
      tb ← tb_at s i;
      Some (if exp_tck tb <=? tick then ExpBuf n i tick (exp_tck tb) else ScanAt n (i + 1) tick, s, own)
  | ExpBuf n i tick exp => tb ← tb_at s i; Some (ExpCas n i tick exp (tmo_buf tb), s, own)
  | ExpCas n i tick exp buf =>
      '(ok, s) ← u128_cmp_xchg i (TB exp buf) (TB (Z.lor exp TMO_INACTIVE) ODP_BUFFER_INVALID) s;
      Some (if ok && negb (buf =? ODP_BUFFER_INVALID) then ExpPost n i tick exp buf else ScanAt n (i + 1) tick, s, own)
  | ExpPost n i tick exp buf =>
      s ← expire_post is_timeout enq_ok i exp buf s;
      Some (ScanAt n (i + 1) tick, s, own)
  end.

(** The steps of threads that use timers as the interface asks: calls are made
    on timers that were allocated and are not freed while another thread sets
    them.  Cancelling, and allocating under the lock of the pool, are one access.
    Ticks fit in 63 bits. *)
Inductive step : sys -> sys -> Prop :=
  | S_advance s pcs own live t c c' s' own' :
      pcs !! t = Some c -> advance c s own = Some (c', s', own') ->
      step (Sys s pcs own live) (Sys s' (<[t := c']> pcs) own' live)
  | S_set s pcs own1 b own2 live t idx abs s' :
      pcs !! t = Some Idle -> idx ∈ live -> b <> ODP_BUFFER_INVALID -> fill_timeout is_timeout idx b s = Some s' ->
      step (Sys s pcs (own1 ++ b :: own2) live) (Sys s' (<[t := SetSwap idx abs b]> pcs) (own1 ++ own2) live)
  | S_reset s pcs own live t idx abs :
      pcs !! t = Some Idle -> idx ∈ live ->
      step (Sys s pcs own live) (Sys s (<[t := ResetExp idx abs]> pcs) own live)
  | S_cancel s pcs own live idx b s' :
      idx ∈ live -> timer_cancel idx TMO_INACTIVE s = Some (b, s') ->
      step (Sys s pcs own live) (Sys s' pcs (some_buf b ++ own) live)
  | S_free s pcs own live1 idx live2 t b s' :
      pcs !! t = Some Idle -> Forall (fun c => setting idx c = false) pcs ->
      timer_cancel idx TMO_UNUSED s = Some (b, s') ->
      step (Sys s pcs own (live1 ++ idx :: live2)) (Sys s' (<[t := FreeFini idx b]> pcs) own (live1 ++ live2))
  | S_alloc s pcs own live q up hdl s' :
      timer_alloc q up s = Some (hdl, s') -> hdl <> ODP_TIMER_INVALID ->
      step (Sys s pcs own live) (Sys s' pcs own ((hdl & (2 ^ INDEX_BITS - 1)) :: live))
  | S_alloc_fails s pcs own live q up s' :
      timer_alloc q up s = Some (ODP_TIMER_INVALID, s') -> step (Sys s pcs own live) (Sys s' pcs own live)
  | S_notify s pcs own live t :
      pcs !! t = Some Idle -> cur_tick (tp s) < TMO_INACTIVE ->
      step (Sys s pcs own live)
        (Sys (set_tp (set_cur_tick (cur_tick (tp s) +u64 1) (tp s)) s)
             (<[t := ScanAt (Z.to_nat (high_wm (tp s))) 0 (cur_tick (tp s))]> pcs) own live)
  | S_receive s pcs own live l1 q b l2 :
      posted s = l1 ++ (q, b) :: l2 ->
      step (Sys s pcs own live) (Sys (set_posted (l1 ++ l2) s) pcs (b :: own) live).

Definition moves (s : tstate) (pcs : list pc) (own live : list Z) (t : nat) (c : pc) : Prop :=
  exists c' s' own' FL', advance c s own = Some (c', s', own') /\ tinv (tp s') (<[t := c']> pcs) live FL' /\
    places (Sys s' (<[t := c']> pcs) own' live) ≡ₚ places (Sys s pcs own live).

(** An access that only reads. *)
Lemma moves_read s pcs own live FL t c c' :
  tinv (tp s) pcs live FL -> pcs !! t = Some c -> advance c s own = Some (c', s, own) ->
  pending c' = pending c -> inflight c' = inflight c -> pc_ok (tp s) live c' -> moves s pcs own live t c.
Proof.
  intros Hi Ht Ha Hp Hf Hok. exists c', s, own, FL. split; [done|]. split; [by eapply tinv_pc|].
  eapply places_pc; [done|]. by rewrite Hf.
Qed.

(** An access that writes the tick buffer of a live timer. *)
Lemma moves_tick s pcs own own' live FL t c c' i tb tb' :
  tinv (tp s) pcs live FL -> pcs !! t = Some c -> i ∈ live -> zget (tick_buf (tp s)) i = Some tb ->
  advance c s own = Some (c', set_tp (set_tick_buf (<[Z.to_nat i := tb']> (tick_buf (tp s))) (tp s)) s, own') ->
  pending c' = pending c -> pc_ok (tp s) live c' ->
  own' ++ inflight c' ++ some_buf (tmo_buf tb') ≡ₚ own ++ inflight c ++ some_buf (tmo_buf tb) ->
  moves s pcs own live t c.
Proof.
  intros Hi Ht Hl Hz Ha Hp Hok Ho. eexists c', _, own', FL. split; [done|]. split; [|by eapply places_tick].
  cbn [tp set_tp]. eapply tinv_pc; [by apply tinv_tick|done|done|]. destruct c'; exact Hok.
Qed.

Lemma some_buf_ne b : b <> ODP_BUFFER_INVALID -> some_buf b = [b].
Proof. intros Hb. unfold some_buf. by rewrite (proj2 (Z.eqb_neq _ _) Hb). Qed.

Lemma moves_reset s pcs own live FL t c i :
  tinv (tp s) pcs live FL -> pcs !! t = Some c ->
  match c with ResetExp j _ | ResetBuf j _ _ | ResetCas j _ _ _ | SetSwap j _ _ => j = i | _ => False end ->
  moves s pcs own live t c.
Proof.
  intros Hi Ht Hc. pose proof (proj1 (Forall_lookup _ _) (ti_pcs _ _ _ _ Hi) _ _ Ht) as Hok.
  assert (i ∈ live) as Hl by (destruct c; try done; simpl in Hok; subst; [done..|by destruct Hok]).
  pose proof (ti_used _ _ _ _ i Hi ltac:(set_solver)) as Hr. destruct (ti_tb _ _ _ _ i Hi Hr) as [tb Hz].
  destruct c as [|j abs|j abs exp|j abs exp buf|j abs buf| | | | | | |]; try done; subst j.
  - eapply moves_read; [done|done|simpl; unfold tb_at; rewrite Hz; done|done|done|done].
  - eapply moves_read; [done|done|simpl; unfold tb_at; rewrite Hz; done|..];
      destruct (tmo_buf tb =? ODP_BUFFER_INVALID); done.
  - destruct (cas_run s i tb (TB exp buf) (TB abs buf) Hz) as [[-> Hcas]|[_ Hcas]].
    + eapply (moves_tick s pcs own own live FL t _ Idle i); [done|done|done|done|simpl; rewrite Hcas; done|done|done|done].
    + eapply moves_read; [done|done|simpl; rewrite Hcas; done|done|done|done].
  - destruct Hok as [_ Hb].
    eapply (moves_tick s pcs own _ live FL t _ Idle i tb (TB abs buf));
      [done|done|done|done|simpl; rewrite (xchg_run _ _ _ _ Hz); done|done|done|].
    simpl. rewrite (some_buf_ne buf) by done. solve_Permutation.
Qed.

Lemma moves_free s pcs own live FL t c i r :
  tinv (tp s) pcs live FL -> pcs !! t = Some c -> c = FreeFini i r \/ c = FreeInsert i r -> moves s pcs own live t c.
Proof.
  intros Hi Ht [->| ->].
  - destruct (fini_step s pcs live FL t i r Hi Ht) as (s' & Hr & Hi' & Htb & _ & Hp).
    exists (FreeInsert i r), s', own, FL. split; [simpl; by rewrite Hr|]. split; [done|].
    rewrite <- (places_pc s pcs own own live t _ (FreeInsert i r) Ht) by done. unfold places. simpl. by rewrite Htb, Hp.
  - destruct (insert_step s pcs live FL t i r Hi Ht) as (s' & Hr & Hi' & Htb & _ & Hp).
    exists Idle, s', (some_buf r ++ own), (i :: FL). split; [simpl; by rewrite Hr|]. split; [done|].
    rewrite <- (places_pc s pcs own (some_buf r ++ own) live t _ Idle Ht) by (simpl; solve_Permutation).
    unfold places. simpl. by rewrite Htb, Hp.
Qed.

(** The timer thread; only a queue that refuses the event stops it. *)
Lemma moves_scan s pcs own live FL t c :
  tinv (tp s) pcs live FL -> pcs !! t = Some c ->
  match c with ScanAt _ _ _ | ExpLoad _ _ _ | ExpBuf _ _ _ _ | ExpCas _ _ _ _ _ => True | _ => False end ->
  moves s pcs own live t c.
Proof.
  intros Hi Ht Hc. pose proof (proj1 (Forall_lookup _ _) (ti_pcs _ _ _ _ Hi) _ _ Ht) as Hok.
  destruct c as [| | | | | | |n i tick|n i tick|n i tick exp|n i tick exp buf|]; try done.
  - destruct n as [|n]; [by eapply moves_read|]. simpl in Hok. destruct (ti_tb _ _ _ _ i Hi ltac:(lia)) as [tb Hz].
    eapply moves_read; [done|done|simpl; unfold tb_at; rewrite Hz; done|..]; destruct (exp_tck tb <=? tick); try done; simpl; lia.
  - simpl in Hok. destruct (ti_tb _ _ _ _ i Hi ltac:(lia)) as [tb Hz].
    eapply moves_read; [done|done|simpl; unfold tb_at; rewrite Hz; done|..]; destruct (exp_tck tb <=? tick) eqn:E; try done; zbool; simpl; lia.
  - simpl in Hok. destruct (ti_tb _ _ _ _ i Hi ltac:(lia)) as [tb Hz].
    eapply moves_read; [done|done|simpl; unfold tb_at; rewrite Hz; done|done|done|simpl; lia].
  - simpl in Hok. destruct (ti_tb _ _ _ _ i Hi ltac:(lia)) as [tb Hz].
    destruct (cas_run s i tb (TB exp buf) (TB (Z.lor exp TMO_INACTIVE) ODP_BUFFER_INVALID) Hz) as [[-> Hcas]|[_ Hcas]].
    + assert (i ∈ live) as Hl.
      { destruct (decide (i ∈ live)) as [|Hn]; [done|exfalso]. pose proof (ti_bound _ _ _ _ Hi) as (Hb & _).
        rewrite (ti_unused _ _ _ _ Hi i) in Hz by (done || lia). injection Hz as <- _. unfold TMO_UNUSED, TMO_INACTIVE in Hok. lia. }
      eapply (moves_tick s pcs own own live FL t _ _ i _ _ Hi Ht Hl Hz); [simpl; rewrite Hcas; done|..];
        destruct (buf =? ODP_BUFFER_INVALID) eqn:E; zbool; subst; simpl; rewrite ?(some_buf_ne buf) by done; done || lia.
    + eapply moves_read; [done|done|simpl; rewrite Hcas; done|done|done|simpl; lia].
Qed.

Lemma moves_post s pcs own live FL t n i tick exp buf :
  tinv (tp s) pcs live FL -> pcs !! t = Some (ExpPost n i tick exp buf) ->
  moves s pcs own live t (ExpPost n i tick exp buf) \/
  (exists tim, zget (timers (tp s)) i = Some tim /\ enq_ok (queue tim) = false).
Proof.
  intros Hi Ht. pose proof (proj1 (Forall_lookup _ _) (ti_pcs _ _ _ _ Hi) _ _ Ht) as Hok. simpl in Hok.
  destruct (ti_bound _ _ _ _ Hi) as (Hb & _). destruct (ti_tim _ _ _ _ i Hi ltac:(lia)) as [tim Hz].
  destruct (enq_ok (queue tim)) eqn:E; [left|right; eauto].
  assert (exists s', expire_post is_timeout enq_ok i exp buf s = Some s' /\ tp s' = tp s /\
    posted s' = posted s ++ [(queue tim, buf)]) as (s' & Hr & Htp & Hp).
  { unfold expire_post. destruct (is_timeout buf); cbn [tp set_hdrs]; rewrite Hz; cbn [mbind option_bind]; rewrite E; by eexists. }
  exists (ScanAt n (i + 1) tick), s', own, FL. split; [simpl; by rewrite Hr|]. rewrite Htp. split.
  - eapply tinv_pc; [done|done|done|]. simpl. lia.
  - destruct (concat_update inflight pcs t _ (ScanAt n (i + 1) tick) Ht) as (R & H1 & H2).
    unfold places. simpl in *. rewrite Htp, Hp, H1, H2, fmap_app. simpl. solve_Permutation.
Qed.

Lemma advance_ok s pcs own live FL t c :
  tinv (tp s) pcs live FL -> pcs !! t = Some c -> c <> Idle ->
  moves s pcs own live t c \/
  (exists n i tick exp buf tim, c = ExpPost n i tick exp buf /\ zget (timers (tp s)) i = Some tim /\ enq_ok (queue tim) = false).
Proof.
  intros Hi Ht Hc. destruct c; try done;
    try (left; by eapply moves_reset); try (left; by eapply moves_free; eauto); try (left; by eapply moves_scan).
  destruct (moves_post s pcs own live FL t _ _ _ _ _ Hi Ht) as [?|(tim & ? & ?)]; [by left|right; naive_solver].
Qed.

(** ** Every step *)

Lemma fill_timeout_tp idx b s s' : fill_timeout is_timeout idx b s = Some s' -> tp s' = tp s /\ posted s' = posted s.
Proof.
  unfold fill_timeout. destruct (is_timeout b); [|intros; by simplify_eq].
  destruct (tp_idx_to_handle (tp s) idx); [|done]. cbn [mbind option_bind].
  destruct (zget (timers (tp s)) idx); [|done]. intros H. by simplify_eq/=.
Qed.

Lemma step_ok y y' FL :
  tinv (tp (sy_s y)) (sy_pcs y) (sy_live y) FL -> step y y' ->
  (exists FL', tinv (tp (sy_s y')) (sy_pcs y') (sy_live y') FL') /\ places y' ≡ₚ places y.
Proof.
  intros Hi Hstep. destruct Hstep as [s pcs own live t c c' s' own' Ht Ha|s pcs own1 b own2 live t idx abs s' Ht Hl Hb Hf
    |s pcs own live t idx abs Ht Hl|s pcs own live idx b s' Hl Hc|s pcs own live1 idx live2 t b s' Ht Hset Hc
    |s pcs own live q up hdl s' Ha Hne|s pcs own live q up s' Ha|s pcs own live t Ht Hcur|s pcs own live l1 q b l2 Hp];
    cbn [sy_s sy_pcs sy_live] in *.
  - assert (c <> Idle) as Hc by (by intros ->).
    destruct (advance_ok s pcs own live FL t c Hi Ht Hc) as [(c1 & s1 & own1 & FL1 & Ha1 & Hi1 & Hp1)|(n & i & tick & exp & buf & tim & -> & Hz & He)].
    + rewrite Ha in Ha1. simplify_eq. eauto.
    + exfalso. simpl in Ha. unfold expire_post in Ha. destruct (is_timeout buf); cbn [tp set_hdrs] in Ha; rewrite Hz in Ha;
        cbn [mbind option_bind] in Ha; by rewrite He in Ha.
  - apply fill_timeout_tp in Hf as [Htp Hps]. rewrite Htp. split; [exists FL; by eapply tinv_pc|].
    rewrite <- (places_pc s pcs (own1 ++ b :: own2) (own1 ++ own2) live t Idle (SetSwap idx abs b) Ht)
      by (simpl; solve_Permutation). unfold places. simpl. by rewrite Htp, Hps.
  - split; [exists FL; by eapply tinv_pc|]. by eapply places_pc.
  - pose proof (ti_used _ _ _ _ idx Hi ltac:(set_solver)) as Hr. destruct (ti_tb _ _ _ _ idx Hi Hr) as [tb Hz].
    unfold timer_cancel in Hc. rewrite (xchg_run _ _ _ _ Hz) in Hc. simplify_eq/=. split; [exists FL; by apply tinv_tick|].
    destruct (bufs_update _ idx tb (TB TMO_INACTIVE ODP_BUFFER_INVALID) Hz) as (R & H1 & H2). unfold bufs_of in H1, H2.
    unfold places. simpl. rewrite H1, H2. simpl. solve_Permutation.
  - pose proof (ti_used _ _ _ _ idx Hi ltac:(set_solver)) as Hr. destruct (ti_tb _ _ _ _ idx Hi Hr) as [tb Hz].
    unfold timer_cancel in Hc. rewrite (xchg_run _ _ _ _ Hz) in Hc. simplify_eq/=. split; [exists FL; by apply free_start|].
    apply (places_tick s pcs own own (live1 ++ live2) t Idle (FreeFini idx (tmo_buf tb)) idx tb); [done|done|]. simpl. by rewrite app_nil_r.
  - destruct (alloc_step s pcs live FL q up Hi) as [(_ & hdl1 & i & s1 & FL1 & Ha1 & _ & Hm & _ & _ & Hi1 & Hz & Htb & _ & _ & Hps)|[_ Ha1]];
      rewrite Ha in Ha1; simplify_eq. split; [eauto|].
    destruct (bufs_update _ _ _ (TB TMO_INACTIVE ODP_BUFFER_INVALID) Hz) as (R & H1 & H2). unfold bufs_of in H1, H2.
    unfold places. simpl. by rewrite Hps, Htb, H1, H2.
  - destruct (alloc_step s pcs live FL q up Hi) as [(_ & hdl1 & i & s1 & FL1 & Ha1 & Hne & _)|[_ Ha1]];
      rewrite Ha in Ha1; simplify_eq; eauto.
  - pose proof (ti_bound _ _ _ _ Hi) as Hbd. rewrite u64_small by (unfold is_u64, TMO_INACTIVE in *; lia). split; [exists FL|by eapply (places_pc s)].
    eapply tinv_pc; [|done|done|simpl; lia]. destruct Hi as [I1 I2 I3 I4 I5 I6 I7]. split; try done; [simpl; lia|].
    eapply Forall_impl; [exact I7|]. intros c Hc. destruct c; simpl in *; try done; lia.
  - split; [by exists FL|]. unfold places. simpl. rewrite Hp, !fmap_app. simpl. solve_Permutation.
Qed.

Lemma fchain_seq tms i n :
  0 <= i -> i + Z.of_nat n = zlen tms -> (forall j, 0 <= j < zlen tms -> zget tms j = Some (Tim NULL (j + 1))) ->
  fchain tms i (seqZ i (Z.of_nat n)) (zlen tms).
Proof.
  revert i. induction n as [|n IH]; intros i Hi Hn Ht; [simpl; lia|]. rewrite seqZ_cons by lia. split; [done|].
  exists (Tim NULL (i + 1)). split; [apply Ht; lia|]. simpl queue.
  replace (Z.pred (Z.of_nat (S n))) with (Z.of_nat n) by lia. apply IH; [lia|lia|done].
Qed.

Lemma zget_init_timers n j : 0 <= j < n -> zget (init_timers n) j = Some (Tim NULL (j + 1)).
Proof.
  intros Hj. unfold init_timers. rewrite zget_nonneg, list_lookup_fmap by lia.
  rewrite lookup_seqZ_lt by lia. simpl. do 2 f_equal. lia.
Qed.

Lemma reach_ok y0 y :
  (exists FL, tinv (tp (sy_s y0)) (sy_pcs y0) (sy_live y0) FL) -> rtc step y0 y ->
  (exists FL, tinv (tp (sy_s y)) (sy_pcs y) (sy_live y) FL) /\ places y ≡ₚ places y0.
Proof.
  intros H0 Hst. induction Hst as [y0|y0 y1 y2 Hst Hrest IH]; [done|]. destruct H0 as [FL H0].
  destruct (step_ok y0 y1 FL H0 Hst) as [H1 Hp]. rewrite <- Hp. by apply IH.
Qed.

(** ** Timers that stay with the application *)

Lemma put_tb_timers i tb s s' : put_tb i tb s = Some s' -> timers (tp s') = timers (tp s).
Proof. unfold put_tb. destruct (zset _ i tb); [|done]. intros H. by simplify_eq/=. Qed.

Lemma xchg_timers i tb s old s' : u128_xchg i tb s = Some (old, s') -> timers (tp s') = timers (tp s).
Proof.
  unfold u128_xchg. destruct (tb_at s i); [|done]. cbn [mbind option_bind].
  destruct (put_tb i tb s) eqn:E; [|done]. apply put_tb_timers in E. intros H. by simplify_eq/=.
Qed.

Lemma cas_timers i old new s ok s' : u128_cmp_xchg i old new s = Some (ok, s') -> timers (tp s') = timers (tp s).
Proof.
  unfold u128_cmp_xchg. destruct (tb_at s i); [|done]. cbn [mbind option_bind]. destruct (_ && _); [|intros H; by simplify_eq/=].
  destruct (put_tb i new s) eqn:E; [|done]. apply put_tb_timers in E. intros H. by simplify_eq/=.
Qed.

Lemma put_timer_other i tim s s' j :
  put_timer i tim s = Some s' -> j <> i -> zget (timers (tp s')) j = zget (timers (tp s)) j.
Proof.
  unfold put_timer. destruct (zset _ i tim) as [l|] eqn:E; [|done]. intros H Hne. simplify_eq/=.
  by rewrite (zget_zset _ _ _ _ _ E), bool_decide_eq_false_2 by congruence.
Qed.

(** An access of a thread changes only a timer that the thread gives back. *)
Lemma advance_timers c s own c' s' own' j :
  advance c s own = Some (c', s', own') -> (j ∉ pending c) -> zget (timers (tp s')) j = zget (timers (tp s)) j.
Proof.
  intros Ha Hj. destruct c as [|i abs|i abs exp|i abs exp buf|i abs buf|i r|i r|[|n] i tick|n i tick|n i tick exp|n i tick exp buf|n i tick exp buf];
    cbn [advance] in Ha; unfold timer_fini, free_insert, set_next_free, expire_post, mbind, option_bind in Ha; repeat case_match; simplify_eq; try done.
  all: try (erewrite cas_timers by eassumption; done). all: try (erewrite xchg_timers by eassumption; done).
  all: cbn [tp set_tp set_free timers]; eapply put_timer_other; [eassumption|set_solver].
Qed.

Lemma alloc_timers q up s hdl s' j :
  timer_alloc q up s = Some (hdl, s') -> hdl <> ODP_TIMER_INVALID -> j <> first_free (tp s) ->
  zget (timers (tp s')) j = zget (timers (tp s)) j.
Proof.
  unfold timer_alloc, timer_init, mbind, option_bind. intros Ha Hne Hj. repeat case_match; simplify_eq.
  all: cbn [tp set_tp set_free timers]; erewrite put_tb_timers by eassumption; by eapply put_timer_other.
Qed.

(** A timer that the application keeps keeps its queue. *)
Lemma keeps_timer y y' FL j :
  tinv (tp (sy_s y)) (sy_pcs y) (sy_live y) FL -> j ∈ sy_live y -> step y y' -> j ∈ sy_live y' ->
  zget (timers (tp (sy_s y'))) j = zget (timers (tp (sy_s y))) j.
Proof.
  intros Hi Hj Hstep Hj'. destruct Hstep as [s pcs own live t c c' s' own' Ht Ha|s pcs own1 b own2 live t idx abs s' Ht Hl Hb Hf
    |s pcs own live t idx abs Ht Hl|s pcs own live idx b s' Hl Hc|s pcs own live1 idx live2 t b s' Ht Hset Hc
    |s pcs own live q up hdl s' Ha Hne|s pcs own live q up s' Ha|s pcs own live t Ht Hcur|s pcs own live l1 q b l2 Hp];
    cbn [sy_s sy_pcs sy_live] in *; try done.
  - eapply advance_timers; [done|]. intros Hp. by destruct (pending_part _ _ _ _ t c j Hi Ht Hp) as (_ & ? & _).
  - by apply fill_timeout_tp in Hf as [-> _].
  - unfold timer_cancel in Hc. destruct (u128_xchg _ _ _) as [[? ?]|] eqn:E; [|done]. apply xchg_timers in E. simplify_eq/=. by rewrite E.
  - unfold timer_cancel in Hc. destruct (u128_xchg _ _ _) as [[? ?]|] eqn:E; [|done]. apply xchg_timers in E. simplify_eq/=. by rewrite E.
  - eapply alloc_timers; [done..|]. intros ->.
    destruct (alloc_step s pcs live FL q up Hi) as [(Hlt & _)|[_ Ha']]; [|congruence].
    destruct (free_front _ _ _ _ Hi Hlt) as (i & hwm & FL' & tim & Hff & _ & _ & _ & Hp & _).
    rewrite Hff in Hj. pose proof (NoDup_seqZ 0 hwm) as Hnd. rewrite <- Hp in Hnd. apply NoDup_cons in Hnd as [Hn _]. set_solver.
  - destruct (alloc_step s pcs live FL q up Hi) as [(Hlt & hdl1 & i & s1 & FL1 & Ha1 & Hne1 & _)|[_ Ha1]]; rewrite Ha in Ha1; by simplify_eq.
Qed.

(** Steps during which the application keeps timer [j]. *)
Definition keeping (j : Z) (y y' : sys) : Prop := step y y' /\ (j ∈ sy_live y').

Lemma keeping_reach j y0 y :
  (exists FL, tinv (tp (sy_s y0)) (sy_pcs y0) (sy_live y0) FL) -> j ∈ sy_live y0 -> rtc (keeping j) y0 y ->
  (exists FL, tinv (tp (sy_s y)) (sy_pcs y) (sy_live y) FL) /\ (j ∈ sy_live y) /\
  zget (timers (tp (sy_s y))) j = zget (timers (tp (sy_s y0))) j.
Proof.
  intros H0 Hj Hst. induction Hst as [y0|y0 y1 y2 [Hst Hj1] Hrest IH]; [done|]. destruct H0 as [FL H0].
  destruct (step_ok y0 y1 FL H0 Hst) as [H1 _]. destruct (IH H1 Hj1) as (H2 & Hj2 & He).
  rewrite He. split; [done|]. split; [done|]. by eapply keeps_timer.
Qed.

Lemma new_pool_inv par g idx g' p h k bufs :
  odp_timer_pool_new par g = (Some idx, g') -> timer_pool g' !! idx = Some p -> 0 <= num_timer_pools g ->
  0 <= num_timers par <= 2 ^ 24 ->
  tinv p (replicate k Idle) [] [] /\ places (Sys (TS p h []) (replicate k Idle) bufs []) ≡ₚ bufs.
Proof.
  intros Hnew Hp Hg Hn. unfold odp_timer_pool_new in Hnew. rewrite Z.geb_leb in Hnew.
  destruct (MAX_TIMER_POOLS <=? num_timer_pools g) eqn:E; [done|]. zbool. unfold MAX_TIMER_POOLS in E. injection Hnew as Hidx <-.
  subst idx. simpl in Hp. rewrite lookup_insert_eq in Hp. injection Hp as <-.
  assert (zlen (init_timers (num_timers par)) = num_timers par) as Hlt.
  { unfold init_timers, zlen. rewrite length_fmap, length_seqZ. lia. }
  assert (concat (pending <$> replicate k Idle) = []) as Hpend by (clear; induction k; [done|]; simpl; done).
  split.
  2: { unfold places, init_ticks. simpl. clear.
       assert (forall m, concat (inflight <$> replicate m Idle) = []) as -> by (induction m; done).
       assert (forall m, concat ((fun tb => some_buf (tmo_buf tb)) <$> replicate m (TB TMO_UNUSED ODP_BUFFER_INVALID)) = []) as ->
         by (induction m; done). by rewrite !app_nil_r. }
  split; cbn [tick_buf timers high_wm num_alloc first_free tp_idx cur_tick param].
  - split; [|done]. unfold init_ticks, zlen. rewrite length_replicate. lia.
  - lia.
  - by rewrite Hpend.
  - by rewrite Hpend.
  - pose proof (fchain_seq (init_timers (num_timers par)) 0 (Z.to_nat (num_timers par))) as Hc. rewrite Hlt in Hc.
    simpl. replace (num_timers par - 0) with (Z.of_nat (Z.to_nat (num_timers par))) by lia.
    apply Hc; [lia|lia|]. intros j Hj. apply zget_init_timers. lia.
  - intros i Hi _. unfold init_ticks. rewrite zget_nonneg by lia. apply lookup_replicate_2. lia.
  - apply Forall_replicate. done.
Qed.

End conc.

(** C24: timers and their events in every interleaving of the accesses of threads
    that keep to the rules of [step]: calls are made on allocated timers, a timer
    is not freed while another thread sets it, ticks fit 63 bits, the pool has at
    most 2^24 timers.  From a new pool, however the threads allocate, set, reset,
    cancel and free timers and receive timeouts while timer threads expire them:
    every event the application began with is in exactly one place, with the
    application, inside a call, posted to a queue or in a timer, so that none
    is lost, duplicated, or both cancelled and delivered;
    no two timers in use share an index and every index in use is below the
    high watermark, so that its handle is accepted; allocation fails only when
    all timers are in use or being freed;
    every thread inside a call can go on without an assertion that fails or an
    access outside the arrays of the pool, but for a timer thread whose event is
    refused by the queue it reads in the timer: there the program aborts.  (When
    the timer was freed meanwhile, the queue it reads is a link of the free list,
    see [timer_free_race].)
    A timeout is delivered only after its tick. *)
Theorem timer_pool_safe (is_timeout enq_ok : Z -> bool) par g idx g' p h k bufs y :
  odp_timer_pool_new par g = (Some idx, g') -> timer_pool g' !! idx = Some p -> 0 <= num_timer_pools g ->
  0 <= num_timers par <= 2 ^ 24 ->
  rtc (step is_timeout enq_ok) (Sys (TS p h []) (replicate k Idle) bufs []) y ->
  let s := sy_s y in
  places y ≡ₚ bufs /\
  NoDup (sy_live y) /\ (forall i, i ∈ sy_live y -> 0 <= i < high_wm (tp s)) /\
  (forall q up, exists hdl s', timer_alloc q up s = Some (hdl, s') /\
     (hdl = ODP_TIMER_INVALID -> zlen (sy_live y) + zlen (concat (pending <$> sy_pcs y)) = num_timers (param (tp s)))) /\
  (forall t c, sy_pcs y !! t = Some c -> c <> Idle ->
     (exists r, advance is_timeout enq_ok c s (sy_own y) = Some r) \/
     (exists n i tick exp buf tim, c = ExpPost n i tick exp buf /\ zget (timers (tp s)) i = Some tim /\ enq_ok (queue tim) = false)) /\
  (forall t n i tick exp buf, sy_pcs y !! t = Some (ExpPost n i tick exp buf) -> exp <= tick < cur_tick (tp s)).
Proof.
  intros Hnew Hp Hg Hn Hsteps.
  destruct (new_pool_inv par g idx g' p h k bufs Hnew Hp Hg Hn) as [H0 Hp0].
  destruct (reach_ok is_timeout enq_ok _ y (ex_intro (fun FL => tinv (tp (sy_s (Sys (TS p h []) (replicate k Idle) bufs []))) _ _ FL) [] H0) Hsteps)
    as [[FL Hi] Hpl]. rewrite Hp0 in Hpl.
  cbv zeta. split; [done|]. pose proof (ti_nodup _ _ _ _ Hi) as Hnd. split; [by apply NoDup_app in Hnd as (? & _ & _)|].
  split; [intros i Hin; eapply ti_used; [done|]; set_solver|]. split; [|split].
  - intros q up. destruct (alloc_step (sy_s y) _ _ FL q up Hi) as [(_ & hdl & i & s' & FL' & Ha & Hne & _)|[He Ha]].
    + exists hdl, s'. split; [done|]. by intros ->.
    + exists ODP_TIMER_INVALID, (sy_s y). split; [done|]. intros _. rewrite <- He, (ti_num _ _ _ _ Hi).
      unfold zlen. rewrite length_app. lia.
  - intros t c Ht Hc. destruct (advance_ok is_timeout enq_ok (sy_s y) _ (sy_own y) _ FL t c Hi Ht Hc) as [(c' & s' & o' & _ & Ha & _)|?]; eauto.
  - intros t n i tick exp buf Ht. pose proof (proj1 (Forall_lookup _ _) (ti_pcs _ _ _ _ Hi) _ _ Ht) as Hok. simpl in Hok. lia.
Qed.

(** A run of two threads: one has taken a timer and armed it, the other is about
    to look at it. *)
Definition ex_param : odp_timer_pool_param_t := Param 1000 0 1000000 4.
Definition ex_pool : odp_timer_pool := default (TP 0 0 0 [] [] 0 0 0 0 ex_param) (timer_pool (snd (odp_timer_pool_new ex_param odp_timer_init_global)) !! 0).

(** One step of a run, its data computed. *)
Ltac run_step rule :=
  eapply rtc_l; [eapply rule; solve [vm_compute; reflexivity | vm_compute; discriminate | vm_compute; set_solver | repeat constructor]|].

Lemma timer_pool_safe_witness :
  exists y, rtc (step (fun _ => true) (fun _ => true)) (Sys (TS ex_pool ∅ []) [Idle; Idle] [100; 101] []) y /\
    sy_live y = [0] /\ places y ≡ₚ [100; 101].
Proof.
  assert (exists y, rtc (step (fun _ => true) (fun _ => true)) (Sys (TS ex_pool ∅ []) [Idle; Idle] [100; 101] []) y /\ sy_live y = [0])
    as (y & Hr & Hl).
  { eexists. split.
    - run_step (S_alloc (fun _ => true) (fun _ => true) (TS ex_pool ∅ []) [Idle; Idle] [100; 101] [] 7 55).
      run_step (fun s => S_set (fun _ => true) (fun _ => true) s [Idle; Idle] [] 100 [101] [0] 0%nat 0 3).
      run_step (fun s pcs own live => S_notify (fun _ => true) (fun _ => true) s pcs own live 1%nat). apply rtc_refl.
    - reflexivity. }
  exists y. split; [done|]. split; [done|].
  apply (timer_pool_safe (fun _ => true) (fun _ => true) ex_param odp_timer_init_global 0
    (snd (odp_timer_pool_new ex_param odp_timer_init_global)) ex_pool ∅ 2 [100; 101] y);
    [reflexivity|reflexivity|reflexivity|split; vm_compute; discriminate|exact Hr].
Defined.

(** * The timer thread running alone *)

(** A tick buffer after the scan at [tick], and whether its event is posted. *)
Definition fired (tick : Z) (tb : tick_buf_t) : tick_buf_t :=
  if exp_tck tb <=? tick then TB (Z.lor (exp_tck tb) TMO_INACTIVE) ODP_BUFFER_INVALID else tb.
Definition fires (tick : Z) (tb : tick_buf_t) : bool := (exp_tck tb <=? tick) && negb (tmo_buf tb =? ODP_BUFFER_INVALID).

(** The events of the timers that fire, with their queues, in the order of the
    timers. *)
Fixpoint events (tick : Z) (tbs : list tick_buf_t) (tms : list odp_timer) : list (Z * Z) :=
  match tbs, tms with
  | tb :: tbs, tim :: tms => (if fires tick tb then [(queue tim, tmo_buf tb)] else []) ++ events tick tbs tms
  | _, _ => []
  end.

Lemma events_in tick tbs tms j tb tim :
  tbs !! j = Some tb -> tms !! j = Some tim -> fires tick tb = true -> (queue tim, tmo_buf tb) ∈ events tick tbs tms.
Proof.
  revert tms j. induction tbs as [|tb0 tbs IH]; intros tms j; [done|]. destruct tms as [|tim0 tms]; [by destruct j|].
  destruct j as [|j]; simpl; intros H1 H2 Hf; simplify_eq; [rewrite Hf; set_solver|].
  apply elem_of_app. right. by eapply IH.
Qed.

Section alone.
Context (is_timeout enq_ok : Z -> bool).

(** The headers after the delivery of a timer's event. *)
Definition deliver (tick : Z) (m : gmap Z odp_timeout_hdr_t) (tb : tick_buf_t) : gmap Z odp_timeout_hdr_t :=
  if fires tick tb && is_timeout (tmo_buf tb)
  then alter (fun h => TmoHdr (exp_tck tb) (th_user_ptr h) (th_timer h)) (tmo_buf tb) m else m.

(** An event in the timer has a queue that takes it. *)
Definition accepts (tb : tick_buf_t) (tim : odp_timer) : Prop := tmo_buf tb <> ODP_BUFFER_INVALID -> enq_ok (queue tim) = true.

Lemma zget_app_at {A} (pre : list A) x post : zget (pre ++ x :: post) (zlen pre) = Some x.
Proof. unfold zlen. rewrite zget_of_nat. by apply list_lookup_middle. Qed.

Lemma insert_app_at {A} (pre : list A) x y post : <[Z.to_nat (zlen pre) := y]> (pre ++ x :: post) = pre ++ y :: post.
Proof. unfold zlen. rewrite Nat2Z.id. rewrite insert_app_r_alt, Nat.sub_diag by lia. done. Qed.

Lemma timer_expire_run s tick pre tb post pre' tim post' :
  tick_buf (tp s) = pre ++ tb :: post -> timers (tp s) = pre' ++ tim :: post' -> zlen pre = zlen pre' ->
  accepts tb tim ->
  (if exp_tck tb <=? tick then timer_expire is_timeout enq_ok (zlen pre) tick s else Some (0, s)) =
    Some (if fires tick tb then 1 else 0,
          TS (set_tick_buf (pre ++ fired tick tb :: post) (tp s)) (deliver tick (hdrs s) tb)
             (posted s ++ if fires tick tb then [(queue tim, tmo_buf tb)] else [])).
Proof.
  intros Htb Htm Hlen Hq. unfold fires, fired, deliver, fires. destruct (exp_tck tb <=? tick) eqn:E; cbn [andb].
  - unfold timer_expire. assert (tb_at s (zlen pre) = Some tb) as Hat by (unfold tb_at; rewrite Htb; apply zget_app_at).
    rewrite Hat. cbn [mbind option_bind]. rewrite E.
    destruct (cas_run s (zlen pre) tb (TB (exp_tck tb) (tmo_buf tb)) (TB (Z.lor (exp_tck tb) TMO_INACTIVE) ODP_BUFFER_INVALID) Hat)
      as [[_ ->]|[Hne _]]; [|by destruct tb]. cbn [mbind option_bind tmo_buf]. rewrite Htb, insert_app_at.
    destruct (tmo_buf tb =? ODP_BUFFER_INVALID) eqn:Eb; cbn [negb andb].
    + rewrite app_nil_r. by destruct s.
    + unfold expire_post. destruct (is_timeout (tmo_buf tb)); cbn [tp set_tp set_hdrs timers set_tick_buf];
        rewrite Htm, Hlen, zget_app_at; cbn [mbind option_bind]; zbool; by rewrite Hq.
  - rewrite <- Htb, app_nil_r. by destruct s as [[] ? ?].
Qed.

Lemma expire_loop_run tick mid mid' : forall s pre post pre' post',
  tick_buf (tp s) = pre ++ mid ++ post -> timers (tp s) = pre' ++ mid' ++ post' ->
  zlen pre = zlen pre' -> Forall2 accepts mid mid' ->
  exists k, expire_loop is_timeout enq_ok (length mid) (zlen pre) tick s =
    Some (k, TS (set_tick_buf (pre ++ (fired tick <$> mid) ++ post) (tp s)) (foldl (deliver tick) (hdrs s) mid)
                (posted s ++ events tick mid mid')).
Proof.
  revert mid'. induction mid as [|tb mid IH]; intros mid' s pre post pre' post' Htb Htm Hlen Hq.
  - exists 0. apply Forall2_nil_inv_l in Hq as ->. simpl in *. rewrite app_nil_r, <- Htb. by destruct s as [[] ? ?].
  - apply Forall2_cons_inv_l in Hq as (tim & mid1 & Hq1 & Hq & ->). rename mid1 into mid'. cbn [length expire_loop].
    assert (tb_at s (zlen pre) = Some tb) as Hat by (unfold tb_at; rewrite Htb; apply zget_app_at).
    rewrite Hat. cbn [mbind option_bind]. rewrite (timer_expire_run s tick pre tb (mid ++ post) pre' tim (mid' ++ post')) by done.
    cbn [mbind option_bind].
    edestruct (IH mid' (TS (set_tick_buf (pre ++ fired tick tb :: mid ++ post) (tp s)) (deliver tick (hdrs s) tb)
      (posted s ++ if fires tick tb then [(queue tim, tmo_buf tb)] else [])) (pre ++ [fired tick tb]) post (pre' ++ [tim]) post')
      as [k Hk]; [simpl; by rewrite <- app_assoc|simpl; rewrite Htm; by rewrite <- app_assoc| |done|].
    { unfold zlen in *. rewrite !length_app. simpl. lia. }
    replace (zlen (pre ++ [fired tick tb])) with (zlen pre + 1) in Hk by (unfold zlen; rewrite length_app; simpl; lia).
    rewrite Hk. cbn [mbind option_bind]. eexists. do 2 f_equal. cbn [tp hdrs posted foldl events fmap list_fmap].
    rewrite <- !app_assoc. done.
Qed.

(** The pool after a tick. *)
Definition notified (s : tstate) : tstate :=
  let p := tp s in
  let hw := Z.to_nat (high_wm p) in
  TS (set_cur_tick (cur_tick p + 1) (set_tick_buf ((fired (cur_tick p) <$> take hw (tick_buf p)) ++ drop hw (tick_buf p)) p))
     (foldl (deliver (cur_tick p)) (hdrs s) (take hw (tick_buf p)))
     (posted s ++ events (cur_tick p) (take hw (tick_buf p)) (take hw (timers p))).

(** The arrays fit, and every event in a timer has a queue that takes it. *)
Record sound (s : tstate) : Prop := {
  so_hwm : 0 <= high_wm (tp s) <= num_timers (param (tp s));
  so_len : zlen (tick_buf (tp s)) = num_timers (param (tp s)) /\ zlen (timers (tp s)) = num_timers (param (tp s));
  so_tick : 0 <= cur_tick (tp s);
  so_queues : Forall2 accepts (take (Z.to_nat (high_wm (tp s))) (tick_buf (tp s))) (take (Z.to_nat (high_wm (tp s))) (timers (tp s)))
}.

Lemma notify_run s :
  sound s -> cur_tick (tp s) < TMO_INACTIVE -> timer_notify is_timeout enq_ok s = Some (notified s) /\ sound (notified s).
Proof.
  intros [H1 [H2 H2'] H3 H4] Hc. split.
  - unfold timer_notify. rewrite u64_small by (unfold is_u64, TMO_INACTIVE in *; lia). unfold odp_timer_pool_expire.
    cbn [tp set_tp high_wm param set_cur_tick]. rewrite Z.gtb_ltb, (proj2 (Z.ltb_ge _ _)) by lia.
    set (hw := Z.to_nat (high_wm (tp s))) in *.
    destruct (expire_loop_run (cur_tick (tp s)) (take hw (tick_buf (tp s))) (take hw (timers (tp s)))
      (set_tp (set_cur_tick (cur_tick (tp s) + 1) (tp s)) s) [] (drop hw (tick_buf (tp s))) [] (drop hw (timers (tp s)))) as [k Hk];
      [simpl; by rewrite take_drop|simpl; by rewrite take_drop|done|done|].
    assert (length (take hw (tick_buf (tp s))) = hw) as Hlen by (rewrite length_take; unfold zlen, hw in *; lia).
    rewrite Hlen in Hk. change (zlen []) with 0 in Hk. rewrite Hk. done.
  - split; try done; simpl; [|lia|].
    + split; [|done]. unfold zlen in *. rewrite length_app, length_fmap, <- length_app, take_drop. done.
    + rewrite take_app_length'; [|rewrite length_fmap, length_take; unfold zlen in *; lia].
      apply Forall2_fmap_l. eapply Forall2_impl; [exact H4|]. intros tb tim Ha. unfold accepts, fired in *. simpl.
      destruct (exp_tck tb <=? _); [done|exact Ha].
Qed.

Fixpoint notify_n (n : nat) (s : tstate) : option tstate :=
  match n with O => Some s | S n => s ← timer_notify is_timeout enq_ok s; notify_n n s end.

Lemma notified_tb s idx tb :
  sound s -> 0 <= idx < high_wm (tp s) -> tb_at s idx = Some tb -> tb_at (notified s) idx = Some (fired (cur_tick (tp s)) tb).
Proof.
  intros [H1 [H2 _] _ _] Hi. unfold tb_at, notified. cbn [tp set_cur_tick tick_buf set_tick_buf]. rewrite !zget_nonneg by lia.
  intros Ht. rewrite lookup_app_l by (rewrite length_fmap, length_take; unfold zlen in H2; lia).
  rewrite list_lookup_fmap, lookup_take_lt by lia. by rewrite Ht.
Qed.

(** An armed timer stays armed until its tick. *)
Lemma armed_until s idx abs ev k :
  sound s -> 0 <= idx < high_wm (tp s) -> tb_at s idx = Some (TB abs ev) -> abs < TMO_INACTIVE ->
  Z.of_nat k <= abs - cur_tick (tp s) ->
  exists s', notify_n k s = Some s' /\ sound s' /\ tb_at s' idx = Some (TB abs ev) /\ timers (tp s') = timers (tp s) /\
    high_wm (tp s') = high_wm (tp s) /\ cur_tick (tp s') = cur_tick (tp s) + Z.of_nat k.
Proof.
  revert s. induction k as [|k IH]; intros s Hs Hi Ht Ha Hk; cbn [notify_n].
  - exists s. split_and!; try done. lia.
  - destruct (notify_run s Hs) as [-> Hs']; [lia|]. cbn [mbind option_bind].
    assert (tb_at (notified s) idx = Some (TB abs ev)) as Ht'.
    { rewrite (notified_tb s idx (TB abs ev)) by done. unfold fired. cbn [exp_tck]. by rewrite (proj2 (Z.leb_gt _ _)) by lia. }
    destruct (IH (notified s) Hs' Hi Ht' Ha) as (s' & Hr & Hs2 & Htb & Htm & Hh & Hc); [simpl; lia|].
    exists s'. split_and!; try done. rewrite Hc. simpl. lia.
Qed.

(** What a successful call to arm a timer with an event leaves behind. *)
Lemma set_abs_armed s hdl abs ev old s1 :
  sound s -> ev <> ODP_BUFFER_INVALID ->
  (forall idx tim, handle_to_idx hdl (tp s) = Some idx -> zget (timers (tp s)) idx = Some tim -> enq_ok (queue tim) = true) ->
  odp_timer_set_abs is_timeout hdl abs ev s = Some (ODP_TIMER_SUCCESS, old, s1) ->
  exists idx, handle_to_idx hdl (tp s) = Some idx /\ 0 <= idx < high_wm (tp s) /\
    cur_tick (tp s) +u64 min_rel_tck (tp s) <= abs <= cur_tick (tp s) +u64 max_rel_tck (tp s) /\
    sound s1 /\ tb_at s1 idx = Some (TB abs ev) /\ timers (tp s1) = timers (tp s) /\
    high_wm (tp s1) = high_wm (tp s) /\ cur_tick (tp s1) = cur_tick (tp s) /\ posted s1 = posted s.
Proof.
  intros [H1 [H2 H2'] H3 H4] Hev Hq. unfold odp_timer_set_abs. destruct (handle_to_idx hdl (tp s)) as [idx|] eqn:Hh; [|done].
  cbn [mbind option_bind].
  assert (0 <= idx < high_wm (tp s)) as Hidx.
  { unfold handle_to_idx in Hh. destruct (_ <? _) eqn:E; [|done]. zbool. injection Hh as <-. split; [|done].
    apply Z.land_nonneg. right. unfold INDEX_BITS. lia. }
  destruct (abs <? _) eqn:E1; [done|]. rewrite Z.gtb_ltb. destruct (_ <? abs) eqn:E2; [done|]. zbool.
  unfold timer_reset. rewrite (proj2 (Z.eqb_neq _ _) Hev).
  destruct (fill_timeout is_timeout idx ev s) as [s0|] eqn:Ef; [|done]. cbn [mbind option_bind].
  apply fill_timeout_tp in Ef as [Htp Hps].
  destruct (zget_Some (tick_buf (tp s0)) idx) as [tb Htb]; [rewrite Htp; lia|].
  rewrite (xchg_run s0 idx tb (TB abs ev) Htb). cbn [mbind option_bind]. intros H. injection H as _ <-. rewrite Htp.
  exists idx. split; [done|]. split; [done|]. split; [done|]. split.
  - split; cbn [tp set_tp set_tick_buf tick_buf timers high_wm param cur_tick]; try done.
    + split; [|done]. unfold zlen in *. by rewrite length_insert.
    + destruct (zget_Some (timers (tp s)) idx) as [tim Htim]; [lia|]. specialize (Hq _ _ eq_refl Htim).
      rewrite take_insert_lt by lia. rewrite zget_nonneg in Htim by lia.
      rewrite <- (list_insert_id (take (Z.to_nat (high_wm (tp s))) (timers (tp s))) (Z.to_nat idx) tim) by (by rewrite lookup_take_lt by lia).
      apply Forall2_insert; [exact H4|intros _; exact Hq].
  - split; [|done]. unfold tb_at. cbn [tp set_tp set_tick_buf tick_buf].
    rewrite zget_insert, bool_decide_eq_true_2 by (done || lia). done.
Qed.

(** An armed timer delivers when its time comes. *)
Lemma armed_delivers s hdl idx abs ev old s1 tim :
  sound s -> handle_to_idx hdl (tp s) = Some idx -> zget (timers (tp s)) idx = Some tim -> enq_ok (queue tim) = true ->
  0 <= min_rel_tck (tp s) -> cur_tick (tp s) + min_rel_tck (tp s) < 2 ^ 64 -> ev <> ODP_BUFFER_INVALID -> abs < TMO_INACTIVE ->
  odp_timer_set_abs is_timeout hdl abs ev s = Some (ODP_TIMER_SUCCESS, old, s1) ->
  cur_tick (tp s) <= abs /\
  (forall k, Z.of_nat k <= abs - cur_tick (tp s) -> exists s2, notify_n k s1 = Some s2 /\ tb_at s2 idx = Some (TB abs ev)) /\
  exists s2 s3 new, notify_n (Z.to_nat (abs - cur_tick (tp s))) s1 = Some s2 /\
    timer_notify is_timeout enq_ok s2 = Some s3 /\ posted s3 = posted s2 ++ new /\ (queue tim, ev) ∈ new /\
    tb_at s3 idx = Some (TB (Z.lor abs TMO_INACTIVE) ODP_BUFFER_INVALID) /\ cur_tick (tp s3) = abs + 1.
Proof.
  intros Hs Hh Htim Hq Hmin Hwrap Hev Habs Hset.
  destruct (set_abs_armed s hdl abs ev old s1 Hs Hev ltac:(intros; by simplify_eq) Hset) as (idx' & Hh' & Hi & Hr & Hs1 & Ht & Htm & Hw & Hc & _).
  rewrite Hh in Hh'. injection Hh' as <-.
  pose proof (so_tick _ Hs) as Hct. rewrite (u64_small (cur_tick (tp s) + min_rel_tck (tp s))) in Hr by (unfold is_u64; lia).
  split; [lia|]. split.
  - intros k Hk. destruct (armed_until s1 idx abs ev k Hs1) as (s2 & ? & _ & ? & _); rewrite ?Hw, ?Hc; try done. eauto.
  - destruct (armed_until s1 idx abs ev (Z.to_nat (abs - cur_tick (tp s))) Hs1) as
      (s2 & Hr2 & Hs2 & Ht2 & Htm2 & Hw2 & Hc2); rewrite ?Hw, ?Hc; try done; [lia|].
    destruct (notify_run s2 Hs2) as [Hr3 _]; [lia|]. assert (cur_tick (tp s2) = abs) as Hc2' by lia.
    exists s2, (notified s2). eexists. split; [done|]. split; [done|]. split; [done|]. rewrite Hc2'. split; [|split].
    + assert (fires abs (TB abs ev) = true) as Hf.
      { unfold fires. cbn [exp_tck tmo_buf]. rewrite Z.leb_refl. by rewrite (proj2 (Z.eqb_neq _ _) Hev). }
      unfold tb_at in Ht2. rewrite zget_nonneg in Ht2 by lia. rewrite zget_nonneg in Htim by lia.
      apply (events_in abs _ _ (Z.to_nat idx) (TB abs ev) tim); [|rewrite Htm2, Htm|done]; by rewrite lookup_take_lt by lia.
    + rewrite (notified_tb s2 idx (TB abs ev)) by (done || lia). unfold fired. cbn [exp_tck]. by rewrite Hc2', Z.leb_refl.
    + simpl. lia.
Qed.

End alone.

(** The pool of a system reached from a new one is sound when the armed timers
    have queues that take their events. *)
Lemma tinv_sound enq_ok s pcs live FL :
  tinv (tp s) pcs live FL ->
  (forall j tb tim, zget (tick_buf (tp s)) j = Some tb -> zget (timers (tp s)) j = Some tim -> accepts enq_ok tb tim) ->
  sound enq_ok s.
Proof.
  intros Hi Hacc. destruct (ti_bound _ _ _ _ Hi) as (Hb & _ & _ & Hc). destruct (ti_len _ _ _ _ Hi) as [Hl1 Hl2].
  split; [done|done|done|]. apply Forall2_same_length_lookup. split; [rewrite !length_take; unfold zlen in *; lia|].
  intros j tb tim [H1 _]%lookup_take_Some [H2 _]%lookup_take_Some. apply (Hacc (Z.of_nat j)); by rewrite zget_of_nat.
Qed.

(** The allocation of a timer in a system, its handle and its queue. *)
Lemma alloc_timer enq_ok is_timeout y0 FL q up hdl s0 y :
  tinv (tp (sy_s y0)) (sy_pcs y0) (sy_live y0) FL -> timer_alloc q up (sy_s y0) = Some (hdl, s0) -> hdl <> ODP_TIMER_INVALID ->
  rtc (keeping is_timeout enq_ok (hdl & (2 ^ INDEX_BITS - 1)))
    (Sys s0 (sy_pcs y0) (sy_own y0) ((hdl & (2 ^ INDEX_BITS - 1)) :: sy_live y0)) y ->
  (exists FL', tinv (tp (sy_s y)) (sy_pcs y) (sy_live y) FL') /\
  handle_to_idx hdl (tp (sy_s y)) = Some (hdl & (2 ^ INDEX_BITS - 1)) /\
  zget (timers (tp (sy_s y))) (hdl & (2 ^ INDEX_BITS - 1)) = Some (Tim up q).
Proof.
  intros Hi Ha Hne Hk. destruct (alloc_step (sy_s y0) _ _ FL q up Hi) as
    [(_ & hdl1 & i & s' & FL' & Ha' & _ & Hm & _ & _ & Hi' & _ & _ & Ht & _)|[_ Ha']]; rewrite Ha in Ha'; simplify_eq.
  destruct (keeping_reach is_timeout enq_ok _ (Sys s' _ _ (_ :: sy_live y0)) y (ex_intro _ FL' Hi') (list_elem_of_here _ _) Hk) as ([FL2 H2] & Hl & He).
  split; [by exists FL2|]. split; [|by rewrite He].
  unfold handle_to_idx. pose proof (ti_used _ _ _ _ _ H2 ltac:(apply elem_of_app; left; exact Hl)) as Hr.
  by rewrite (proj2 (Z.ltb_lt _ _)) by lia.
Qed.

(** C25: an armed timer delivers.  In a pool that was created and used by many
    threads, a timer is allocated with queue [q] and kept, whatever else happens.
    When arming it with an event succeeds, the tick asked for is not over; and
    when from then on the timer thread runs alone, and the queues of the timers
    that hold events take them, the event stays in the timer through all ticks
    before its own, and the tick after it posts the event to [q]. *)
Theorem timer_delivers (is_timeout enq_ok : Z -> bool) par g idx g' p h k bufs y0 q up hdl s0 y abs ev old s1 :
  odp_timer_pool_new par g = (Some idx, g') -> timer_pool g' !! idx = Some p -> 0 <= num_timer_pools g ->
  0 <= num_timers par <= 2 ^ 24 ->
  rtc (step is_timeout enq_ok) (Sys (TS p h []) (replicate k Idle) bufs []) y0 ->
  odp_timer_alloc q up (sy_s y0) = Some (hdl, s0) -> hdl <> ODP_TIMER_INVALID ->
  let i := hdl & (2 ^ INDEX_BITS - 1) in
  rtc (keeping is_timeout enq_ok i) (Sys s0 (sy_pcs y0) (sy_own y0) (i :: sy_live y0)) y ->
  let s := sy_s y in
  (forall j tb tim, zget (tick_buf (tp s)) j = Some tb -> zget (timers (tp s)) j = Some tim -> accepts enq_ok tb tim) ->
  enq_ok q = true -> 0 <= min_rel_tck (tp s) -> cur_tick (tp s) + min_rel_tck (tp s) < 2 ^ 64 ->
  ev <> ODP_BUFFER_INVALID -> abs < TMO_INACTIVE ->
  odp_timer_set_abs is_timeout hdl abs ev s = Some (ODP_TIMER_SUCCESS, old, s1) ->
  cur_tick (tp s) <= abs /\
  (forall n, Z.of_nat n <= abs - cur_tick (tp s) ->
     exists s2, notify_n is_timeout enq_ok n s1 = Some s2 /\ tb_at s2 i = Some (TB abs ev)) /\
  exists s2 s3 new, notify_n is_timeout enq_ok (Z.to_nat (abs - cur_tick (tp s))) s1 = Some s2 /\
    timer_notify is_timeout enq_ok s2 = Some s3 /\ posted s3 = posted s2 ++ new /\ (q, ev) ∈ new /\
    tb_at s3 i = Some (TB (Z.lor abs TMO_INACTIVE) ODP_BUFFER_INVALID) /\ cur_tick (tp s3) = abs + 1.
Proof.
  intros Hnew Hp Hg Hn Hsteps Halloc Hne i Hkeep s Hacc Hq Hmin Hwrap Hev Habs Hset.
  destruct (new_pool_inv par g idx g' p h k bufs Hnew Hp Hg Hn) as [H0 _].
  destruct (reach_ok is_timeout enq_ok _ y0 (ex_intro (fun FL => tinv (tp (sy_s (Sys (TS p h []) (replicate k Idle) bufs []))) _ _ FL) [] H0) Hsteps)
    as [[FL Hi0] _]. unfold odp_timer_alloc in Halloc. destruct (q =? ODP_QUEUE_INVALID); [done|].
  destruct (alloc_timer enq_ok is_timeout y0 FL q up hdl s0 y Hi0 Halloc Hne Hkeep) as ([FL' Hi] & Hh & Htim).
  fold i s in Hh, Htim. fold s in Hi. pose proof (tinv_sound enq_ok s _ _ _ Hi Hacc) as Hs.
  by apply (armed_delivers is_timeout enq_ok s hdl i abs ev old s1 (Tim up q)).
Qed.

Definition ex_alloc : option (Z * tstate) := odp_timer_alloc 7 55 (TS ex_pool (<[100 := TmoHdr 0 0 0]> ∅) []).

Lemma timer_delivers_witness :
  exists s s1 s2 s3 new, ex_alloc = Some (0, s) /\
    odp_timer_set_abs (fun _ => true) 0 3 100 s = Some (ODP_TIMER_SUCCESS, ODP_BUFFER_INVALID, s1) /\
    notify_n (fun _ => true) (fun _ => true) 3 s1 = Some s2 /\ timer_notify (fun _ => true) (fun _ => true) s2 = Some s3 /\
    posted s3 = posted s2 ++ new /\ (7, 100) ∈ new.
Proof.
  destruct ex_alloc as [[hdl s]|] eqn:Ea; [|by vm_compute in Ea].
  destruct (odp_timer_set_abs (fun _ => true) hdl 3 100 s) as [[[r old] s1]|] eqn:Es; [|by vm_compute in Ea; simplify_eq; vm_compute in Es].
  assert (r = ODP_TIMER_SUCCESS /\ old = ODP_BUFFER_INVALID) as [-> ->] by (vm_compute in Ea; simplify_eq; vm_compute in Es; by simplify_eq).
  assert (hdl = 0 /\ cur_tick (tp s) = 0 /\ min_rel_tck (tp s) = 0) as (-> & Hc & Hm) by (vm_compute in Ea; by simplify_eq).
  destruct (timer_delivers (fun _ => true) (fun _ => true) ex_param odp_timer_init_global 0
    (snd (odp_timer_pool_new ex_param odp_timer_init_global)) ex_pool (<[100 := TmoHdr 0 0 0]> ∅) 2 []
    (Sys (TS ex_pool (<[100 := TmoHdr 0 0 0]> ∅) []) [Idle; Idle] [] []) 7 55 0 s (Sys s [Idle; Idle] [] [0]) 3 100 ODP_BUFFER_INVALID s1)
    as (_ & _ & s2 & s3 & new & Hd); try done; [simpl; lia|simpl; lia|].
  simpl in Hd. rewrite Hc in Hd. exists s, s1, s2, s3, new. destruct Hd as (? & ? & ? & ? & _). done.
Defined.

(** Freeing a timer while the timer thread holds its event: the thread looks up
    the queue only after it has taken the event, and finds the next free index
    that the freed timer keeps in the same field.  Here the timer was allocated
    with queue 7 and its event is posted to queue 1. *)
Theorem timer_free_race :
  exists y, rtc (step (fun _ => false) (fun _ => true)) (Sys (TS ex_pool ∅ []) [Idle; Idle] [100] []) y /\
    posted (sy_s y) = [(1, 100)] /\ sy_live y = [].
Proof.
  eexists. split.
  - run_step (S_alloc (fun _ => false) (fun _ => true) (TS ex_pool ∅ []) [Idle; Idle] [100] [] 7 55).
    run_step (fun s => S_set (fun _ => false) (fun _ => true) s [Idle; Idle] [] 100 [] [0] 0%nat 0 0).
    run_step (fun s pcs own live => S_advance (fun _ => false) (fun _ => true) s pcs own live 0%nat).
    run_step (fun s pcs own live => S_notify (fun _ => false) (fun _ => true) s pcs own live 1%nat).
    do 4 run_step (fun s pcs own live => S_advance (fun _ => false) (fun _ => true) s pcs own live 1%nat).
    run_step (fun s pcs own => S_free (fun _ => false) (fun _ => true) s pcs own [] 0 [] 0%nat).
    do 2 run_step (fun s pcs own live => S_advance (fun _ => false) (fun _ => true) s pcs own live 0%nat).
    run_step (fun s pcs own live => S_advance (fun _ => false) (fun _ => true) s pcs own live 1%nat).
    apply rtc_refl.
  - split; reflexivity.
Qed.

(** Pools that are created and destroyed one after the other. *)
Fixpoint create_destroy (n : nat) (g : globals) : option globals :=
  match n with
  | O => Some g
  | S n =>
      match odp_timer_pool_create ex_param g with
      | (Some idx, g) => g ← odp_timer_pool_del idx g; create_destroy n g
      | (None, _) => None
      end
  end.

(** Destroying a pool does not give its number back: after 255 pools, all of them
    destroyed again, no pool can be created any more. *)
Theorem timer_pool_numbers_run_out :
  exists g, create_destroy 255 odp_timer_init_global = Some g /\ timer_pool g = ∅ /\ odp_timer_pool_create ex_param g = (None, g).
Proof. eexists. split; [vm_compute; reflexivity|]. split; vm_compute; reflexivity. Qed.

End TimerProofs.
