(* ===== verification/RecLock.v ===== *)
(** The spinlock, platform/linux-generic/odp_spinlock.c, and the recursive
    spinlock over it, odp_spinlock_recursive.c (Module RecLock), and the recursive
    read-write lock, odp_rwlock_recursive.c, over the lock of Locks.v (Module
    RecRwLock).  Threads interleave at their accesses to the lock word and to the
    shared fields; the accesses to the recursion counts are made by the owner of
    the count only and are one step. *)

From S2P Require Import Prelude Locks.

Open Scope Z_scope.
Open Scope c_scope.

Module RecLock.

Definition NO_OWNER : Z := -1.

(** Where a thread is; [d] counts the lock calls it has not undone yet, [t] is
    set in a trylock. *)
Inductive rl_pc :=
  | At (d : Z)
  | Check (d : Z) (t : bool)
  | IncCnt (d : Z)
  | Tas (d : Z) (t : bool)
  | Load (d : Z)
  | SetOwner (d : Z)
  | SetCnt (d : Z)
  | Dec (d : Z)
  | ClearOwner (d : Z)
  | ClearFlag (d : Z).

(** The flag of the spinlock, the owner and the count, and the threads. *)
Record rl_state := RL { flag : bool; owner : Z; cnt : Z; pcs : list rl_pc }.

Definition odp_spinlock_recursive_init (threads : nat) : rl_state := RL false NO_OWNER 0 (replicate threads (At 0)).

Definition goto (i : nat) (p : rl_pc) (s : rl_state) : rl_state := RL (flag s) (owner s) (cnt s) (<[i := p]> (pcs s)).
Definition set_flag (v : bool) (s : rl_state) : rl_state := RL v (owner s) (cnt s) (pcs s).
Definition set_owner (v : Z) (s : rl_state) : rl_state := RL (flag s) v (cnt s) (pcs s).
Definition set_cnt (v : Z) (s : rl_state) : rl_state := RL (flag s) (owner s) v (pcs s).

(** ** The spinlock *)

(** [odp_spinlock_lock] and [odp_spinlock_trylock]: one test-and-set. *)
Definition spinlock_tas (i : nat) (d : Z) (t : bool) (s : rl_state) : rl_state :=
  if flag s then goto i (if t then At d else Load d) s else goto i (SetOwner d) (set_flag true s).
(** The inner loop of [odp_spinlock_lock]. *)
Definition spinlock_load (i : nat) (d : Z) (s : rl_state) : rl_state :=
  if flag s then s else goto i (Tas d false) s.
Definition odp_spinlock_unlock (i : nat) (d : Z) (s : rl_state) : rl_state := goto i (At (d - 1)) (set_flag false s).
Definition odp_spinlock_is_locked (s : rl_state) : bool := flag s.

(** ** The recursive lock *)

(** [if (rlock->owner == thr)] of the lock and trylock calls. *)
Definition lock_check (i : nat) (d : Z) (t : bool) (s : rl_state) : rl_state :=
  if owner s =? Z.of_nat i then goto i (IncCnt d) s else goto i (Tas d t) s.
Definition lock_again (i : nat) (d : Z) (s : rl_state) : rl_state := goto i (At (d + 1)) (set_cnt (cnt s +u32 1) s).
Definition unlock_dec (i : nat) (d : Z) (s : rl_state) : rl_state :=
  let s := set_cnt (cnt s -u32 1) s in
  if cnt s >? 0 then goto i (At (d - 1)) s else goto i (ClearOwner d) s.
Definition odp_spinlock_recursive_is_locked (i : nat) (s : rl_state) : bool :=
  if owner s =? Z.of_nat i then true else odp_spinlock_is_locked s.

Inductive rl_call := LOCK | TRYLOCK | UNLOCK.

(** A thread unlocks only what it has locked. *)
Definition rl_step (c : rl_call) (i : nat) (s : rl_state) : option rl_state :=
  match pcs s !! i with
  | None => None
  | Some (At d) =>
      match c with
      | LOCK => Some (goto i (Check d false) s)
      | TRYLOCK => Some (goto i (Check d true) s)
      | UNLOCK => if d >? 0 then Some (goto i (Dec d) s) else None
      end
  | Some (Check d t) => Some (lock_check i d t s)
  | Some (IncCnt d) => Some (lock_again i d s)
  | Some (Tas d t) => Some (spinlock_tas i d t s)
  | Some (Load d) => Some (spinlock_load i d s)
  | Some (SetOwner d) => Some (goto i (SetCnt d) (set_owner (Z.of_nat i) s))
  | Some (SetCnt d) => Some (goto i (At (d + 1)) (set_cnt 1 s))
  | Some (Dec d) => Some (unlock_dec i d s)
  | Some (ClearOwner d) => Some (goto i (ClearFlag d) (set_owner NO_OWNER s))
  | Some (ClearFlag d) => Some (odp_spinlock_unlock i d s)
  end.

Definition depth (p : rl_pc) : Z :=
  match p with
  | At d | Check d _ | IncCnt d | Tas d _ | Load d | SetOwner d | SetCnt d | Dec d | ClearOwner d | ClearFlag d => d
  end.

(** The count is 32 bits wide: recursion stays below that. *)
Inductive rl_reach (threads : nat) : rl_state -> Prop :=
  | rl_start : rl_reach threads (odp_spinlock_recursive_init threads)
  | rl_next s s' c i :
      rl_reach threads s -> rl_step c i s = Some s' -> Forall (fun p => depth p < 2 ^ 32) (pcs s') -> rl_reach threads s'.

(** ** The invariant *)

Definition outside (p : rl_pc) : Prop :=
  match p with At d | Check d _ | Tas d _ | Load d => d = 0 | _ => False end.

(** What the holder [i] has in the fields. *)
Definition holding (i : nat) (s : rl_state) (p : rl_pc) : Prop :=
  match p with
  | At d | Check d _ | IncCnt d | Dec d => 0 < d /\ owner s = Z.of_nat i /\ cnt s = d
  | SetOwner d => d = 0 /\ owner s = NO_OWNER
  | SetCnt d => d = 0 /\ owner s = Z.of_nat i
  | ClearOwner d => d = 1 /\ owner s = Z.of_nat i
  | ClearFlag d => d = 1 /\ owner s = NO_OWNER
  | Tas _ _ | Load _ => False
  end.

Definition rl_inv (h : option nat) (s : rl_state) : Prop :=
  (forall i p, pcs s !! i = Some p -> h <> Some i -> outside p) /\
  match h with
  | None => flag s = false /\ owner s = NO_OWNER
  | Some i => flag s = true /\ exists p, pcs s !! i = Some p /\ holding i s p
  end.

(** Thread [i] moves to [p]; the others do not. *)
Lemma inv_holder h i p s s' :
  rl_inv h s -> is_Some (pcs s !! i) -> pcs s' = <[i := p]> (pcs s) -> (h = None \/ h = Some i) ->
  flag s' = true -> holding i s' p -> rl_inv (Some i) s'.
Proof.
  intros [Ho _] Hs Hp Hh Hf Hhold. split.
  - intros j q Hj Hne. rewrite Hp, list_lookup_insert_ne in Hj by congruence. apply (Ho j q Hj). destruct Hh; congruence.
  - split; [done|]. exists p. split; [|done]. rewrite Hp. by apply list_lookup_insert_eq, lookup_lt_is_Some.
Qed.

Lemma inv_outsider h i p s s' :
  rl_inv h s -> pcs s' = <[i := p]> (pcs s) -> h <> Some i -> outside p ->
  flag s' = flag s -> owner s' = owner s -> cnt s' = cnt s -> rl_inv h s'.
Proof.
  intros [Ho Hh] Hp Hne Hout Hf How Hc. split.
  - intros j q Hj Hnj. rewrite Hp in Hj. destruct (decide (j = i)) as [->|Hji].
    + rewrite list_lookup_insert_eq in Hj; [by simplify_eq|]. apply lookup_lt_Some in Hj. by rewrite length_insert in Hj.
    + rewrite list_lookup_insert_ne in Hj by done. by apply (Ho j).
  - destruct h as [k|]; [|by rewrite Hf, How]. destruct Hh as (Hfl & q & Hk & Hq). rewrite Hf. split; [done|]. exists q. split.
    + rewrite Hp, list_lookup_insert_ne by congruence. done.
    + destruct q; simpl in *; by rewrite ?How, ?Hc.
Qed.

Lemma inv_free i p s s' :
  rl_inv (Some i) s -> pcs s' = <[i := p]> (pcs s) -> outside p -> flag s' = false -> owner s' = NO_OWNER -> rl_inv None s'.
Proof.
  intros [Ho _] Hp Hout Hf How. split; [|done]. intros j q Hj _. rewrite Hp in Hj. destruct (decide (j = i)) as [->|Hji].
  - rewrite list_lookup_insert_eq in Hj; [by simplify_eq|]. apply lookup_lt_Some in Hj. by rewrite length_insert in Hj.
  - rewrite list_lookup_insert_ne in Hj by done. apply (Ho j q Hj). congruence.
Qed.

Lemma unlock_dec_owner i d s :
  cnt s = d -> 0 < d < 2 ^ 32 ->
  unlock_dec i d s = goto i (if 0 <? d - 1 then At (d - 1) else ClearOwner d) (set_cnt (d - 1) s).
Proof.
  intros <- Hd. unfold unlock_dec. cbn [cnt set_cnt]. rewrite u32_small by (unfold is_u32; lia). rewrite Z.gtb_ltb.
  by destruct (0 <? cnt s - 1).
Qed.

Lemma rl_step_inv h c i s s' :
  rl_inv h s -> Forall (fun p => depth p < 2 ^ 32) (pcs s) -> rl_step c i s = Some s' ->
  Forall (fun p => depth p < 2 ^ 32) (pcs s') -> exists h', rl_inv h' s'.
Proof.
  intros Hinv Hd Hstep Hd'. unfold rl_step in Hstep. destruct (pcs s !! i) as [p|] eqn:Hp; [|done].
  assert (is_Some (pcs s !! i)) as Hs by eauto. pose proof (proj1 (Forall_lookup _ _) Hd _ _ Hp) as Hdp. simpl in Hdp.
  destruct (decide (h = Some i)) as [->|Hne].
  - destruct Hinv as [Ho (Hf & q & Hq & Hh)]. rewrite Hp in Hq. simplify_eq.
    assert (rl_inv (Some i) s) as Hinv by (split; eauto).
    assert (forall p', pcs s' = <[i := p']> (pcs s) -> flag s' = true -> holding i s' p' -> exists h', rl_inv h' s') as Hmove.
    { intros p' H1 H2 H3. exists (Some i). eapply inv_holder; eauto. }
    destruct q; simpl in Hh; try done.
    + destruct c; [| |rewrite Z.gtb_ltb, (proj2 (Z.ltb_lt _ _)) in Hstep by lia]; simplify_eq; by eapply Hmove.
    + simplify_eq. unfold lock_check in *. destruct Hh as (H0 & H1 & H2). rewrite H1, Z.eqb_refl in *. by eapply Hmove.
    + simplify_eq. eapply Hmove; [done|done|]. simpl in *. apply (Forall_lookup_1 _ _ i (At (d + 1))) in Hd'.
      2: { simpl. by apply list_lookup_insert_eq, lookup_lt_is_Some. }
      simpl in Hd'. destruct Hh as (H0 & H1 & ->). rewrite u32_small by (unfold is_u32; lia). lia.
    + simplify_eq. destruct Hh as [-> Hh]. by eapply Hmove.
    + simplify_eq. destruct Hh as [-> Hh]. by eapply Hmove.
    + destruct Hh as (H0 & H1 & H2). cbn [depth] in Hdp. injection Hstep as <-.
      rewrite (unlock_dec_owner i d s) in Hd', Hmove by lia. rewrite unlock_dec_owner by lia.
      destruct (0 <? d - 1) eqn:E; zbool; (eapply Hmove; [done|done|]); simpl; [lia|split; [lia|done]].
    + simplify_eq. destruct Hh as [-> Hh]. by eapply Hmove.
    + simplify_eq. destruct Hh as [-> Hh]. exists None. by eapply inv_free.
  - pose proof (proj1 Hinv i p Hp Hne) as Hout.
    assert (forall p', pcs s' = <[i := p']> (pcs s) -> outside p' -> flag s' = flag s -> owner s' = owner s -> cnt s' = cnt s ->
      exists h', rl_inv h' s') as Hmove by (intros; exists h; by eapply inv_outsider).
    destruct p; simpl in Hout; try done; subst d.
    + destruct c; simplify_eq; by eapply Hmove.
    + simplify_eq. unfold lock_check in *. destruct (owner s =? Z.of_nat i) eqn:E; [zbool; exfalso|by eapply Hmove].
      destruct Hinv as [_ Hh]. destruct h as [k|]; [|destruct Hh as [_ Hh]; unfold NO_OWNER in Hh; lia].
      destruct Hh as (_ & q & _ & Hq). assert (k <> i) by congruence. destruct q; simpl in Hq; unfold NO_OWNER in Hq; lia.
    + simplify_eq. unfold spinlock_tas in *. destruct (flag s) eqn:E; [destruct t; by eapply Hmove|].
      destruct Hinv as [Ho Hh]. destruct h as [k|]; [destruct Hh; congruence|]. exists (Some i).
      eapply (inv_holder None); [by split|done|done|by left|done|]. simpl. by destruct Hh.
    + simplify_eq. unfold spinlock_load in *. destruct (flag s) eqn:E; [by exists h|by eapply Hmove].
Qed.

Lemma rl_reach_inv threads s :
  rl_reach threads s -> Forall (fun p => depth p < 2 ^ 32) (pcs s) /\ exists h, rl_inv h s.
Proof.
  induction 1 as [|s s' c i Hr [Hd [h Hinv]] Hstep Hd'].
  - split; [by apply Forall_replicate|]. exists None. split; [|done]. intros i p [-> _]%lookup_replicate. done.
  - split; [done|]. by eapply rl_step_inv.
Qed.

(** the recursive spinlock.  However threads interleave: at most one thread
    has lock calls that it has not undone; a thread that has one takes the lock
    again in three steps of its own, without waiting, and [is_locked] is true for it; the
    lock word is free exactly when no thread has the lock or is taking or
    releasing it, and then every thread that waits for it takes it with its
    next test-and-set. *)
Theorem recursive_spinlock threads s :
  rl_reach threads s ->
  (forall i j p q, pcs s !! i = Some p -> pcs s !! j = Some q -> 0 < depth p -> 0 < depth q -> i = j) /\
  (forall i d, pcs s !! i = Some (At d) -> 0 < d ->
     odp_spinlock_recursive_is_locked i s = true /\
     exists s1 s2 s3, rl_step LOCK i s = Some s1 /\ rl_step LOCK i s1 = Some s2 /\ rl_step LOCK i s2 = Some s3 /\
       pcs s3 !! i = Some (At (d + 1)) /\ flag s3 = true) /\
  (flag s = false <-> forall i p, pcs s !! i = Some p -> outside p) /\
  (forall i d t, pcs s !! i = Some (Tas d t) -> flag s = false ->
     exists s', rl_step LOCK i s = Some s' /\ pcs s' !! i = Some (SetOwner 0)).
Proof.
  intros Hr. destruct (rl_reach_inv _ _ Hr) as [Hd [h Hinv]].
  assert (forall i p, pcs s !! i = Some p -> 0 < depth p -> h = Some i) as Hin.
  { intros i p Hp Hpos. destruct (decide (h = Some i)) as [|Hne]; [done|]. pose proof (proj1 Hinv i p Hp Hne) as Ho.
    destruct p; simpl in *; lia || done. }
  split_and!.
  - intros i j p q Hp Hq H1 H2. apply Hin in Hp; [|done]. apply Hin in Hq; [|done]. congruence.
  - intros i d Hp Hpos. pose proof (Hin i _ Hp Hpos) as ->. destruct Hinv as [_ (Hf & q & Hq & Hh)]. rewrite Hp in Hq. simplify_eq.
    simpl in Hh. destruct Hh as (_ & How & _). assert (i < length (pcs s))%nat as Hlt by (by eapply lookup_lt_Some).
    unfold odp_spinlock_recursive_is_locked. rewrite How, Z.eqb_refl. split; [done|].
    eexists _, _, _. split; [unfold rl_step; rewrite Hp; done|].
    split; [unfold rl_step; simpl; rewrite list_lookup_insert_eq by done; unfold lock_check; simpl; rewrite How, Z.eqb_refl; done|].
    split; [unfold rl_step; simpl; rewrite list_lookup_insert_eq by (by rewrite length_insert); done|].
    simpl. rewrite list_lookup_insert_eq by (by rewrite !length_insert). done.
  - destruct Hinv as [Ho Hh]. split.
    + intros Hf i p Hp. apply (Ho i p Hp). intros ->. destruct Hh. congruence.
    + intros Hall. destruct h as [k|]; [|by destruct Hh]. destruct Hh as (_ & q & Hq & Hhold). pose proof (Hall k q Hq) as Hq'.
      destruct q; simpl in *; lia || done.
  - intros i d t Hp Hf. destruct (decide (h = Some i)) as [->|Hne]; [destruct Hinv as [_ [? _]]; congruence|].
    pose proof (proj1 Hinv i _ Hp Hne) as Hz. simpl in Hz. subst d. unfold rl_step. rewrite Hp. eexists. split; [done|].
    unfold spinlock_tas. rewrite Hf. simpl. apply list_lookup_insert_eq. by eapply lookup_lt_Some.
Qed.

Fixpoint rl_run (l : list (rl_call * nat)) (s : rl_state) : option rl_state :=
  match l with
  | [] => Some s
  | (c, i) :: l => s' ← rl_step c i s; if forallb (fun p => depth p <? 2 ^ 32) (pcs s') then rl_run l s' else None
  end.

Lemma rl_run_reach threads l s s' : rl_reach threads s -> rl_run l s = Some s' -> rl_reach threads s'.
Proof.
  revert s. induction l as [|[c i] l IH]; intros s Hr Hrun; simpl in Hrun; [congruence|].
  destruct (rl_step c i s) as [s1|] eqn:E; simpl in Hrun; [|done].
  destruct (forallb _ (pcs s1)) eqn:Ef; [|done]. eapply IH; [|done]. econstructor; [done..|].
  apply Forall_forall. intros p Hp. rewrite forallb_forall in Ef. apply list_elem_of_In in Hp. specialize (Ef p Hp). by zbool.
Qed.

(** Thread 1 locks; thread 0 waits for it. *)
Lemma recursive_spinlock_witness :
  exists s, rl_reach 2 s /\ pcs s !! 1%nat = Some (At 1) /\ odp_spinlock_recursive_is_locked 1 s = true.
Proof.
  destruct (rl_run [(LOCK, 1%nat); (LOCK, 1%nat); (LOCK, 0%nat); (LOCK, 1%nat); (LOCK, 0%nat); (LOCK, 0%nat); (LOCK, 1%nat); (LOCK, 1%nat)]
    (odp_spinlock_recursive_init 2)) as [s|] eqn:E; [|by vm_compute in E].
  assert (rl_reach 2 s) as Hr by (eapply rl_run_reach; [apply rl_start|exact E]).
  destruct (recursive_spinlock 2 s Hr) as (_ & H & _). exists s. split; [done|].
  assert (pcs s !! 1%nat = Some (At 1)) as Hp by (vm_compute in E; by injection E as <-).
  split; [done|]. by apply (H 1%nat 1 Hp).
Defined.

End RecLock.

Module RecRwLock.
Import Locks.RwLock.

Definition NO_OWNER : Z := -1.

(** Where a thread is outside the read-write lock it builds on: it has [r] read
    locks or [w] write locks that it has not undone, or is at a step of a call. *)
Inductive rr_pc :=
  | RAt (r : Z)
  | RIn
  | RSet
  | RDrop
  | WAt (w : Z)
  | WCheck (w : Z)
  | WInc (w : Z)
  | WIn
  | WSetOwner
  | WSetCnt
  | WDec (w : Z)
  | WClear
  | WDrop.

(** [lock] holds the word and, for each thread, where it is in the calls of
    odp_rwlock.c. *)
Record rr_state := RR { lock : rw_state; wr_owner : Z; wr_cnt : Z; rd_cnt : list Z; rr_pcs : list rr_pc }.

Definition odp_rwlock_recursive_init (threads : nat) : rr_state :=
  RR (odp_rwlock_init threads) NO_OWNER 0 (replicate threads 0) (replicate threads (RAt 0)).

Definition move (i : nat) (p : rr_pc) (s : rr_state) : rr_state :=
  RR (lock s) (wr_owner s) (wr_cnt s) (rd_cnt s) (<[i := p]> (rr_pcs s)).
Definition set_lock (l : rw_state) (s : rr_state) : rr_state := RR l (wr_owner s) (wr_cnt s) (rd_cnt s) (rr_pcs s).
Definition set_wr_owner (v : Z) (s : rr_state) : rr_state := RR (lock s) v (wr_cnt s) (rd_cnt s) (rr_pcs s).
Definition set_wr_cnt (v : Z) (s : rr_state) : rr_state := RR (lock s) (wr_owner s) v (rd_cnt s) (rr_pcs s).
Definition set_rd_cnt (i : nat) (v : Z) (s : rr_state) : rr_state :=
  RR (lock s) (wr_owner s) (wr_cnt s) (<[i := v]> (rd_cnt s)) (rr_pcs s).

(** One step of [odp_rwlock_read_lock] and [odp_rwlock_write_lock]; [p] while
    the call runs, [q] when it returns. *)
Definition in_call (c : rw_call) (i : nat) (p q : rr_pc) (s : rr_state) : option rr_state :=
  l ← rw_step c i (lock s);
  Some (move i (match rw_pcs l !! i with Some (Reading | Writing) => q | _ => p end) (set_lock l s)).
(** [odp_rwlock_read_unlock] and [odp_rwlock_write_unlock] *)
Definition drop_lock (i : nat) (s : rr_state) : option rr_state :=
  l ← rw_step READ i (lock s); Some (move i (RAt 0) (set_lock l s)).

Definition odp_rwlock_recursive_read_lock (i : nat) (r : Z) (s : rr_state) : option rr_state :=
  n ← rd_cnt s !! i;
  if negb (n =? 0) then Some (move i (RAt (r + 1)) (set_rd_cnt i (u8 (n + 1)) s)) else in_call READ i RIn RSet s.
Definition odp_rwlock_recursive_read_unlock (i : nat) (r : Z) (s : rr_state) : option rr_state :=
  n ← rd_cnt s !! i;
  let n := u8 (n - 1) in
  Some (move i (if n >? 0 then RAt (r - 1) else RDrop) (set_rd_cnt i n s)).
Definition write_lock_check (i : nat) (w : Z) (s : rr_state) : option rr_state :=
  if wr_owner s =? Z.of_nat i then Some (move i (WInc w) s) else in_call WRITE i WIn WSetOwner s.
Definition write_unlock_dec (i : nat) (w : Z) (s : rr_state) : rr_state :=
  let s := set_wr_cnt (wr_cnt s -u32 1) s in
  move i (if wr_cnt s >? 0 then WAt (w - 1) else WClear) s.

Inductive rr_call := READ_LOCK | READ_UNLOCK | WRITE_LOCK | WRITE_UNLOCK.

(** A thread unlocks only what it has locked, and does not ask for one kind of
    lock while it has the other: it would wait for itself. *)
Definition rr_step (c : rr_call) (i : nat) (s : rr_state) : option rr_state :=
  p ← rr_pcs s !! i;
  match p with
  | RAt r =>
      match c with
      | READ_LOCK => odp_rwlock_recursive_read_lock i r s
      | READ_UNLOCK => if r >? 0 then odp_rwlock_recursive_read_unlock i r s else None
      | WRITE_LOCK => if r =? 0 then Some (move i (WCheck 0) s) else None
      | WRITE_UNLOCK => None
      end
  | RIn => in_call READ i RIn RSet s
  | RSet => Some (move i (RAt 1) (set_rd_cnt i 1 s))
  | RDrop => drop_lock i s
  | WAt w =>
      match c with
      | WRITE_LOCK => Some (move i (WCheck w) s)
      | WRITE_UNLOCK => Some (move i (WDec w) s)
      | _ => None
      end
  | WCheck w => write_lock_check i w s
  | WInc w => Some (move i (WAt (w + 1)) (set_wr_cnt (wr_cnt s +u32 1) s))
  | WIn => in_call WRITE i WIn WSetOwner s
  | WSetOwner => Some (move i WSetCnt (set_wr_owner (Z.of_nat i) s))
  | WSetCnt => Some (move i (WAt 1) (set_wr_cnt 1 s))
  | WDec w => Some (write_unlock_dec i w s)
  | WClear => Some (move i WDrop (set_wr_owner NO_OWNER s))
  | WDrop => drop_lock i s
  end.

(** The counts are 8 and 32 bits wide: recursion stays below that. *)
Definition shallow (p : rr_pc) : Prop :=
  match p with RAt r => r < 2 ^ 8 | WAt w | WCheck w | WInc w | WDec w => w < 2 ^ 32 | _ => True end.

Inductive rr_reach (threads : nat) : rr_state -> Prop :=
  | rr_start : rr_reach threads (odp_rwlock_recursive_init threads)
  | rr_next s s' c i :
      rr_reach threads s -> rr_step c i s = Some s' -> Forall shallow (rr_pcs s') -> rr_reach threads s'.

(** ** The invariant: thread [i] at [p] of the recursive lock is at [q] of the
    lock below. *)
Definition agrees (s : rr_state) (i : nat) (p : rr_pc) (n : Z) (q : rw_pc) : Prop :=
  match p with
  | RAt r => 0 <= r /\ n = r /\ q = (if r =? 0 then ROut else Reading)
  | RIn => n = 0 /\ (q = RLoad \/ exists v, q = RCas v)
  | RSet | RDrop => n = 0 /\ q = Reading
  | WIn => n = 0 /\ (q = WLoad \/ q = WCas)
  | WCheck w => n = 0 /\ ((w = 0 /\ q = ROut) \/ (0 < w /\ q = Writing /\ wr_owner s = Z.of_nat i /\ wr_cnt s = w))
  | WAt w | WInc w | WDec w => n = 0 /\ 0 < w /\ q = Writing /\ wr_owner s = Z.of_nat i /\ wr_cnt s = w
  | WSetOwner | WDrop => n = 0 /\ q = Writing /\ wr_owner s = NO_OWNER
  | WSetCnt | WClear => n = 0 /\ q = Writing /\ wr_owner s = Z.of_nat i
  end.

Record rr_inv (threads : nat) (s : rr_state) : Prop := {
  rri_lock : rw_inv threads (lock s);
  rri_len : length (rr_pcs s) = threads /\ length (rd_cnt s) = threads;
  rri_thr : forall i p n q, rr_pcs s !! i = Some p -> rd_cnt s !! i = Some n -> rw_pcs (lock s) !! i = Some q -> agrees s i p n q;
  rri_free : (forall i, rw_pcs (lock s) !! i <> Some Writing) -> wr_owner s = NO_OWNER
}.

(** Where a step of the lock below takes a thread. *)
Definition below (c : rw_call) (q q' : rw_pc) : Prop :=
  match q with
  | ROut => q' = match c with READ => RLoad | WRITE => WLoad end
  | RLoad => q' = RLoad \/ exists v, q' = RCas v
  | RCas _ => q' = RLoad \/ q' = Reading
  | WLoad => q' = WLoad \/ q' = WCas
  | WCas => q' = WLoad \/ q' = Writing
  | Reading | Writing => q' = ROut
  end.

Lemma rw_step_below c i l q :
  rw_pcs l !! i = Some q -> exists l' q', rw_step c i l = Some l' /\ rw_pcs l' = <[i := q']> (rw_pcs l) /\ below c q q'.
Proof.
  intros Hq. unfold rw_step. rewrite Hq. unfold read_load, read_cas, write_load, write_cas.
  destruct q; repeat case_match; (eexists; eexists; split; [reflexivity|]); simpl; eauto.
Qed.

Lemma lookup_insert_cases {A} (l : list A) i j (a b : A) :
  <[i := a]> l !! j = Some b -> (j = i /\ a = b) \/ (j <> i /\ l !! j = Some b).
Proof. rewrite list_lookup_insert_Some. intros [(-> & -> & _)|[? ?]]; auto. Qed.

(** Thread [i] moves; only a writer changes the owner and its count. *)
Lemma rr_move_inv threads s s' i p n q p' n' q' :
  rr_inv threads s -> rr_pcs s !! i = Some p -> rd_cnt s !! i = Some n -> rw_pcs (lock s) !! i = Some q ->
  rr_pcs s' = <[i := p']> (rr_pcs s) -> rd_cnt s' = <[i := n']> (rd_cnt s) ->
  rw_pcs (lock s') = <[i := q']> (rw_pcs (lock s)) -> rw_inv threads (lock s') ->
  (wr_owner s' = wr_owner s /\ wr_cnt s' = wr_cnt s) \/ q = Writing ->
  (q = Writing -> q' <> Writing -> wr_owner s' = NO_OWNER) -> agrees s' i p' n' q' -> rr_inv threads s'.
Proof.
  intros Hinv Hp Hn Hq Ep En Eq Hl Hown Hfree Ha. split; [done| | |].
  - rewrite Ep, En, !length_insert. apply Hinv.
  - intros j p1 n1 q1. rewrite Ep, En, Eq. intros [[-> <-]|[Hj Hp1]]%lookup_insert_cases.
    + intros [[_ <-]|[? _]]%lookup_insert_cases; [|done]. by intros [[_ <-]|[? _]]%lookup_insert_cases.
    + intros [[? _]|[_ Hn1]]%lookup_insert_cases; [done|]. intros [[? _]|[_ Hq1]]%lookup_insert_cases; [done|].
      pose proof (rri_thr _ _ Hinv j p1 n1 q1 Hp1 Hn1 Hq1) as Hj1.
      destruct Hown as [[E1 E2]|Hw]; [destruct p1; simpl in *; by rewrite ?E1, ?E2|].
      assert (q1 <> Writing) as Hnw.
      { intros ->. apply Hj. subst q. exact (writing_alone _ _ i j Writing (rri_lock _ _ Hinv) Hq Hq1 (or_intror eq_refl)). }
      destruct p1; simpl in *; try done; try (exfalso; apply Hnw; tauto).
      destruct Hj1 as [? [?|(_ & ? & _)]]; [by eauto|done].
  - rewrite Eq. intros Hno. assert (i < length (rw_pcs (lock s)))%nat as Hlt by (by eapply lookup_lt_Some).
    assert (q' <> Writing) as Hq' by (intros ->; apply (Hno i); by apply list_lookup_insert_eq).
    destruct (decide (q = Writing)) as [Hw|Hw]; [by apply Hfree|]. destruct Hown as [[-> _]|?]; [|done].
    apply (rri_free _ _ Hinv). intros j Hj. destruct (decide (j = i)) as [->|Hne]; [congruence|].
    apply (Hno j). by rewrite list_lookup_insert_ne.
Qed.

Section steps.
Context (threads : nat) (s s' : rr_state) (i : nat) (p : rr_pc) (n : Z) (q : rw_pc).
Hypothesis (Hth : Z.of_nat threads < 2 ^ 31) (Hinv : rr_inv threads s).
Hypothesis (Hp : rr_pcs s !! i = Some p) (Hn : rd_cnt s !! i = Some n) (Hq : rw_pcs (lock s) !! i = Some q).

(** A step that leaves the lock below alone. *)
Lemma outer_step p' n' :
  rr_pcs s' = <[i := p']> (rr_pcs s) -> rd_cnt s' = <[i := n']> (rd_cnt s) -> lock s' = lock s ->
  (wr_owner s' = wr_owner s /\ wr_cnt s' = wr_cnt s) \/ q = Writing -> agrees s' i p' n' q -> rr_inv threads s'.
Proof.
  intros Ep En El Hown Ha. eapply (rr_move_inv threads s s' i p n q p' n' q); try done.
  - by rewrite El, list_insert_id.
  - rewrite El. apply Hinv.
Qed.

Lemma in_call_inv c p1 p2 :
  in_call c i p1 p2 s = Some s' -> q <> Reading -> q <> Writing ->
  (forall q', below c q q' -> (q' = Writing -> wr_owner s = NO_OWNER) -> agrees s i (match q' with Reading | Writing => p2 | _ => p1 end) n q') -> rr_inv threads s'.
Proof.
  intros Hs H1 H2 Ha. unfold in_call in Hs. destruct (rw_step_below c i _ _ Hq) as (l & q' & Hl & El & Hb).
  rewrite Hl in Hs. injection Hs as <-. rewrite El. rewrite list_lookup_insert_eq by (by eapply lookup_lt_Some).
  eapply (rr_move_inv threads s _ i p n q _ n q'); try done; simpl.
  - by rewrite list_insert_id.
  - eapply rw_step_inv; [done|apply Hinv|done].
  - by left.
  - assert (agrees s i (match q' with Reading | Writing => p2 | _ => p1 end) n q') as Ha'; [|by destruct q'].
    apply Ha; [done|]. intros ->. apply (rri_free _ _ Hinv). intros j Hj.
    pose proof (rw_step_inv _ _ _ _ _ Hth (rri_lock _ _ Hinv) Hl) as Hl'.
    assert (j <> i) as Hne by congruence. apply Hne. apply (writing_alone threads l i j Writing Hl'); [| |by right]; rewrite El.
    + apply list_lookup_insert_eq. by eapply lookup_lt_Some.
    + by rewrite list_lookup_insert_ne.
Qed.

Lemma drop_inv :
  drop_lock i s = Some s' -> n = 0 -> q = Reading \/ q = Writing /\ wr_owner s = NO_OWNER -> rr_inv threads s'.
Proof.
  intros Hs -> H. unfold drop_lock in Hs. destruct (rw_step_below READ i _ _ Hq) as (l & q' & Hl & El & Hb).
  rewrite Hl in Hs. injection Hs as <-. assert (q' = ROut) as -> by (by destruct H as [->|[-> _]]).
  eapply (rr_move_inv threads s _ i p 0 q _ 0 ROut); try done; simpl.
  - by rewrite list_insert_id.
  - eapply rw_step_inv; [done|apply Hinv|done].
  - by left.
  - intros. by destruct H as [->|[_ ?]].
Qed.

End steps.

Lemma rr_thread threads s i p :
  rr_inv threads s -> rr_pcs s !! i = Some p ->
  exists n q, rd_cnt s !! i = Some n /\ rw_pcs (lock s) !! i = Some q /\ agrees s i p n q /\ (i < length (rr_pcs s))%nat.
Proof.
  intros Hinv Hp. assert (i < length (rr_pcs s))%nat as Hi by (by eapply lookup_lt_Some).
  destruct (rri_len _ _ Hinv) as [H1 H2].
  destruct (lookup_lt_is_Some_2 (rd_cnt s) i) as [n Hn]; [lia|].
  destruct (lookup_lt_is_Some_2 (rw_pcs (lock s)) i) as [q Hq]; [rewrite (ri_len _ _ (rri_lock _ _ Hinv)); lia|].
  exists n, q. split_and!; try done. by apply (rri_thr _ _ Hinv).
Qed.

(** A thread that finds itself to be the owner is the writer. *)
Lemma owner_writes threads s i : rr_inv threads s -> wr_owner s = Z.of_nat i -> rw_pcs (lock s) !! i = Some Writing.
Proof.
  intros Hinv Ho. destruct (decide (Writing ∈ rw_pcs (lock s))) as [[j Hj]%list_elem_of_lookup|Hno].
  - assert (j < length (rr_pcs s))%nat as Hlt.
    { rewrite (proj1 (rri_len _ _ Hinv)), <- (ri_len _ _ (rri_lock _ _ Hinv)). by eapply lookup_lt_Some. }
    destruct (lookup_lt_is_Some_2 _ _ Hlt) as [p Hp]. destruct (rr_thread threads s j p Hinv Hp) as (n & q & _ & Hq & Ha & _).
    rewrite Hq in Hj. simplify_eq. assert (wr_owner s = NO_OWNER \/ wr_owner s = Z.of_nat j) as [E|E].
    { destruct p; simpl in Ha; try naive_solver. destruct Ha as (_ & _ & Ha). by destruct (_ =? _). }
    + unfold NO_OWNER in E. lia.
    + assert (j = i) as -> by lia. done.
  - rewrite (rri_free _ _ Hinv) in Ho; [unfold NO_OWNER in Ho; lia|].
    intros j Hj. apply Hno. by eapply list_elem_of_lookup_2.
Qed.

Lemma insert_same {A} (l : list A) i a : l !! i = Some a -> l = <[i := a]> l.
Proof. intros H. by rewrite list_insert_id. Qed.

(** Calls on the read side. *)
Lemma read_calls_inv threads c i s s' r :
  Z.of_nat threads < 2 ^ 31 -> rr_inv threads s -> rr_pcs s !! i = Some (RAt r) -> r < 2 ^ 8 ->
  rr_step c i s = Some s' -> Forall shallow (rr_pcs s') -> rr_inv threads s'.
Proof.
  intros Hth Hinv Hp Hr Hstep Hd'. destruct (rr_thread threads s i _ Hinv Hp) as (n & q & Hn & Hq & Ha & Hlt).
  pose proof (outer_step threads s s' i _ n q Hinv Hp Hn Hq) as Hout.
  simpl in Ha. destruct Ha as (Hr0 & -> & Hq'). unfold rr_step in Hstep. rewrite Hp in Hstep. cbn [mbind option_bind] in Hstep.
  destruct c; [| | |done].
  - unfold odp_rwlock_recursive_read_lock in Hstep. rewrite Hn in Hstep. cbn [mbind option_bind] in Hstep.
    destruct (Z.eqb_spec r 0) as [E|E]; cbn [negb] in Hstep.
    + subst r. eapply in_call_inv; try done; [by rewrite Hq'..|]. rewrite Hq'. simpl. intros q1 -> _. simpl. auto.
    + injection Hstep as <-. apply (Forall_lookup_1 _ _ i (RAt (r + 1))) in Hd'; [|by apply list_lookup_insert_eq].
      simpl in Hd'. eapply Hout; [done..|by left|]. rewrite u8_small by (unfold is_u8; lia). simpl.
      rewrite (proj2 (Z.eqb_neq (r + 1) 0)) by lia. split_and!; [lia|done|done].
  - destruct (r >? 0) eqn:E; [|done]. zbool. unfold odp_rwlock_recursive_read_unlock in Hstep. rewrite Hn in Hstep.
    cbn [mbind option_bind] in Hstep. injection Hstep as <-. eapply Hout; [done..|by left|].
    rewrite u8_small by (unfold is_u8; lia). rewrite (proj2 (Z.eqb_neq r 0)) in Hq' by lia.
    destruct (r - 1 >? 0) eqn:E1; zbool; simpl; [|split; [lia|done]].
    rewrite (proj2 (Z.eqb_neq (r - 1) 0)) by lia. split_and!; [lia|done|done].
  - destruct (Z.eqb_spec r 0) as [->|]; [|done]. injection Hstep as <-.
    eapply (Hout _ 0); simpl; [done|by apply insert_same|done|by left|]. simpl. auto.
Qed.

Lemma rr_step_inv threads c i s s' :
  Z.of_nat threads < 2 ^ 31 -> rr_inv threads s -> Forall shallow (rr_pcs s) -> rr_step c i s = Some s' ->
  Forall shallow (rr_pcs s') -> rr_inv threads s'.
Proof.
  intros Hth Hinv Hd Hstep Hd'. destruct (rr_pcs s !! i) as [p|] eqn:Hp; [|unfold rr_step in Hstep; by rewrite Hp in Hstep].
  pose proof (proj1 (Forall_lookup _ _) Hd _ _ Hp) as Hdp.
  assert ((exists r, p = RAt r) \/ forall r, p <> RAt r) as [[r ->]|Hnr] by (destruct p; eauto; by right);
    [by eapply read_calls_inv|].
  destruct (rr_thread threads s i p Hinv Hp) as (n & q & Hn & Hq & Ha & Hlt).
  pose proof (outer_step threads s s' i p n q Hinv Hp Hn Hq) as Hout.
  pose proof (in_call_inv threads s s' i p n q Hth Hinv Hp Hn Hq) as Hin.
  pose proof (drop_inv threads s s' i p n q Hth Hinv Hp Hn Hq) as Hdrop.
  assert (forall p', rr_pcs s' = <[i := p']> (rr_pcs s) -> rd_cnt s' = rd_cnt s -> lock s' = lock s -> q = Writing ->
    agrees s' i p' n q -> rr_inv threads s') as Hw.
  { intros p' E1 E2 E3 E4 E5. eapply (Hout p' n); try done; [|by right]. rewrite E2. by apply insert_same. }
  unfold rr_step in Hstep. rewrite Hp in Hstep. cbn [mbind option_bind] in Hstep.
  destruct p; simpl in Ha, Hdp; try (injection Hstep as <-).
  - by destruct (Hnr r).
  - eapply Hin; [done|naive_solver..|]. intros q' Hq' Hfr. destruct Ha as [-> [->|[v ->]]]; destruct Hq' as [->|Hq'];
      [|destruct Hq' as [v ->]| |subst q']; simpl; eauto.
  - eapply (Hout _ 1); [done..|by left|]. simpl. by destruct Ha as [_ ->].
  - apply Hdrop; naive_solver.
  - destruct c; try done; injection Hstep as <-; eapply Hw; simpl; naive_solver.
  - unfold write_lock_check in Hstep. destruct Ha as [-> [[-> ->]|(Hpos & -> & Ho & Hc)]].
    + destruct (Z.eqb_spec (wr_owner s) (Z.of_nat i)) as [E|E].
      { pose proof (owner_writes _ _ _ Hinv E) as Hw'. congruence. }
      eapply Hin; [done..|]. intros q' -> _. simpl. auto.
    + rewrite Ho, Z.eqb_refl in Hstep. injection Hstep as <-. eapply Hw; [done..|]. simpl. auto.
  - destruct Ha as (-> & ? & -> & ? & ?). eapply Hw; [done..|]. simpl.
    apply (Forall_lookup_1 _ _ i (WAt (w + 1))) in Hd'; [|by apply list_lookup_insert_eq]. simpl in Hd'.
    rewrite u32_small by (unfold is_u32; lia). split_and!; try done; lia.
  - eapply Hin; [done|naive_solver..|]. intros q' Hq' Hfr.
    destruct Ha as [-> [->| ->]]; destruct Hq' as [->| ->]; simpl; auto.
  - eapply Hw; simpl; naive_solver.
  - eapply Hw; simpl; naive_solver.
  - destruct Ha as (-> & ? & -> & ? & ?). unfold write_unlock_dec in *. cbn [wr_cnt set_wr_cnt] in *.
    destruct (wr_cnt s -u32 1 >? 0) eqn:E; (eapply Hw; [done..|]); simpl;
      rewrite u32_small in * by (unfold is_u32; lia); zbool; split_and!; try done; lia.
  - eapply Hw; simpl; naive_solver.
  - apply Hdrop; naive_solver.
Qed.

Lemma rr_reach_inv threads s :
  Z.of_nat threads < 2 ^ 31 -> rr_reach threads s -> Forall shallow (rr_pcs s) /\ rr_inv threads s.
Proof.
  intros Hth. induction 1 as [|s s' c i Hr [Hd Hinv] Hstep Hd']; [|split; [done|by eapply rr_step_inv]].
  split; [by apply Forall_replicate|]. split; simpl.
  - apply rw_init_inv.
  - by rewrite !length_replicate.
  - intros i p n q [-> _]%lookup_replicate [-> _]%lookup_replicate [-> _]%lookup_replicate. done.
  - done.
Qed.

(** The threads with a read lock, and with a write lock. *)
Definition has_read (p : rr_pc) : bool := match p with RAt r => r >? 0 | _ => false end.
Definition has_write (p : rr_pc) : bool :=
  match p with WAt w | WCheck w | WInc w | WDec w => w >? 0 | _ => false end.

Lemma has_read_below s i p n q : agrees s i p n q -> has_read p = true -> q = Reading.
Proof. destruct p; simpl; try done. intros (_ & _ & ->) Hr. zbool. by rewrite (proj2 (Z.eqb_neq r 0)) by lia. Qed.

Lemma has_write_below s i p n q :
  agrees s i p n q -> has_write p = true -> q = Writing /\ wr_owner s = Z.of_nat i.
Proof. destruct p; simpl; try done; intros Ha Hw; zbool; naive_solver lia. Qed.

(** the recursive read-write lock.  However threads interleave: while one has
    the write lock, no other thread has a read or a write lock; a reader takes the
    lock again in one step and a writer in three steps of its own, without
    waiting, whatever other threads wait for; and every thread is where the lock
    below allows it, which is held for reading while a read lock is. *)
Theorem recursive_rwlock threads s :
  Z.of_nat threads < 2 ^ 31 -> rr_reach threads s ->
  (forall i j p q, rr_pcs s !! i = Some p -> rr_pcs s !! j = Some q -> has_write p = true ->
     has_read q = true \/ has_write q = true -> j = i) /\
  (forall i r, rr_pcs s !! i = Some (RAt r) -> 0 < r ->
     exists s', rr_step READ_LOCK i s = Some s' /\ rr_pcs s' !! i = Some (RAt (r + 1)) /\ lock s' = lock s) /\
  (forall i w, rr_pcs s !! i = Some (WAt w) ->
     exists s1 s2 s3, rr_step WRITE_LOCK i s = Some s1 /\ rr_step WRITE_LOCK i s1 = Some s2 /\
       rr_step WRITE_LOCK i s2 = Some s3 /\ rr_pcs s3 !! i = Some (WAt (w + 1)) /\ lock s3 = lock s) /\
  (cnt (lock s) = 0 -> forall i p, rr_pcs s !! i = Some p -> has_read p = false /\ has_write p = false).
Proof.
  intros Hth Hr. destruct (rr_reach_inv _ _ Hth Hr) as [Hd Hinv].
  assert (forall i p, rr_pcs s !! i = Some p -> exists q, rw_pcs (lock s) !! i = Some q /\
    (has_read p = true -> q = Reading) /\ (has_write p = true -> q = Writing)) as Hq.
  { intros i p Hp. destruct (rr_thread _ _ _ _ Hinv Hp) as (n & q & _ & Hq & Ha & _). exists q. split_and!; [done|..].
    - eauto using has_read_below.
    - intros. by eapply has_write_below. }
  split_and!.
  - intros i j p p' Hi Hj Hw Hor. destruct (Hq i p Hi) as (q & Hqi & _ & H1). destruct (Hq j p' Hj) as (q' & Hqj & H2 & H3).
    rewrite H1 in Hqi by done. eapply (writing_alone threads); [apply Hinv|done|done|]. tauto.
  - intros i r Hp Hpos. destruct (rr_thread _ _ _ _ Hinv Hp) as (n & q & Hn & _ & (_ & -> & _) & Hlt).
    unfold rr_step. rewrite Hp. cbn [mbind option_bind]. unfold odp_rwlock_recursive_read_lock. rewrite Hn. cbn [mbind option_bind].
    rewrite (proj2 (Z.eqb_neq r 0)) by lia. eexists. split; [done|]. split; [by apply list_lookup_insert_eq|done].
  - intros i w Hp. destruct (rr_thread _ _ _ _ Hinv Hp) as (n & q & Hn & _ & (_ & Hpos & _ & Ho & _) & Hlt).
    eexists _, _, _. split; [unfold rr_step; by rewrite Hp|]. unfold rr_step; simpl.
    rewrite list_lookup_insert_eq by done. simpl. unfold write_lock_check. simpl. rewrite Ho, Z.eqb_refl. split; [done|]. simpl.
    rewrite list_lookup_insert_eq by (by rewrite length_insert). split; [done|]. simpl.
    rewrite list_lookup_insert_eq by (by rewrite !length_insert). done.
  - intros H0 i p Hp. destruct (Hq i p Hp) as (q & Hqi & H1 & H2). pose proof (word_zero_idle _ _ _ _ (rri_lock _ _ Hinv) H0 Hqi) as Hi.
    destruct (has_read p), (has_write p); naive_solver.
Qed.

Definition shallowb (p : rr_pc) : bool :=
  match p with RAt r => r <? 2 ^ 8 | WAt w | WCheck w | WInc w | WDec w => w <? 2 ^ 32 | _ => true end.

Fixpoint rr_run (l : list (rr_call * nat)) (s : rr_state) : option rr_state :=
  match l with
  | [] => Some s
  | (c, i) :: l => s' ← rr_step c i s; if forallb shallowb (rr_pcs s') then rr_run l s' else None
  end.

Lemma rr_run_reach threads l s s' : rr_reach threads s -> rr_run l s = Some s' -> rr_reach threads s'.
Proof.
  revert s. induction l as [|[c i] l IH]; intros s Hr Hrun; simpl in Hrun; [congruence|].
  destruct (rr_step c i s) as [s1|] eqn:E; simpl in Hrun; [|done].
  destruct (forallb _ (rr_pcs s1)) eqn:Ef; [|done]. eapply IH; [|done]. econstructor; [done..|].
  apply Forall_forall. intros p Hp. rewrite forallb_forall in Ef. apply list_elem_of_In in Hp. specialize (Ef p Hp).
  destruct p; simpl in *; zbool; done.
Qed.

(** Thread 0 reads; thread 1 waits to write; thread 0 reads again. *)
Lemma recursive_rwlock_witness :
  exists s s', rr_reach 2 s /\ rr_pcs s = [RAt 1; WIn] /\ rr_step READ_LOCK 0 s = Some s' /\ rr_pcs s' !! 0%nat = Some (RAt 2).
Proof.
  destruct (rr_run [(READ_LOCK, 0%nat); (READ_LOCK, 0%nat); (READ_LOCK, 0%nat); (READ_LOCK, 0%nat); (WRITE_LOCK, 1%nat);
    (WRITE_LOCK, 1%nat); (WRITE_LOCK, 1%nat)] (odp_rwlock_recursive_init 2)) as [s|] eqn:E; [|by vm_compute in E].
  assert (rr_reach 2 s) as Hr by (eapply rr_run_reach; [apply rr_start|exact E]).
  assert (rr_pcs s = [RAt 1; WIn]) as Hp by (vm_compute in E; by injection E as <-).
  destruct (recursive_rwlock 2 s ltac:(lia) Hr) as (_ & H & _).
  destruct (H 0%nat 1) as (s' & H1 & H2 & _); [by rewrite Hp|lia|]. exists s, s'. done.
Defined.

End RecRwLock.
