(* ===== verification/Classify.v ===== *)
(** Classification of received packets: platform/linux-generic/odp_classification.c,
    odp_classification_inlines.h, pktio/pktio_common.c and the receive side of
    the loop interface, pktio/loop.c.

    Classes of service (CoS), packet matching rules (PMR) and rule sets are tables
    of 64 entries; a pointer to an entry is its index, and NULL is [None].  An
    interface has 17 classifiers, one per input queue and a global one.  A packet
    is the memory, the address of its data and its header; an access outside the
    memory or outside an array is [None].  Hosts are little-endian.  *)

From S2P Require Import Prelude Pool PoolProofs PoolCreate Buffer Packet Parse.

Open Scope Z_scope.
Open Scope c_scope.

Module Classify.
Import Pool Buffer Packet Parse.

Definition ODP_COS_MAX_ENTRY : Z := 64.
Definition ODP_PMRSET_MAX_ENTRY : Z := 64.
Definition ODP_PMR_MAX_ENTRY : Z := 64.
Definition ODP_PMRTERM_MAX : Z := 8.
Definition ODP_PKTIO_MAX_PMR : Z := 8.
Definition ODP_COS_MAX_L2_QOS : Z := 8.
Definition ODP_COS_MAX_L3_QOS : Z := 64.
Definition ODP_PMR_TERM_BYTES_MAX : Z := 8.
Definition MAX_CLS_SUPPORT : Z := 17.
Definition GLOBAL_CLS_ID : Z := MAX_CLS_SUPPORT - 1.
Definition ODP_COS_INVALID : Z := 0xFFFFFFFF.
Definition ODP_PMR_INVAL : Z := 0xFFFFFFFF.
Definition ODP_PMR_SET_INVAL : Z := 0xFFFFFFFF.
Definition ODP_CONFIG_PKTIO_ENTRIES : Z := 64.
Definition ODP_QUEUE_INVALID : Z := 0.
Definition ODP_POOL_INVALID : Z := PoolCreate.ODP_POOL_INVALID.
Definition ODP_COS_DROP_NEVER : Z := 1.

(** ** Data *)

Inductive odp_pmr_term_t :=
  | ODP_PMR_LEN | ODP_PMR_ETHTYPE_0 | ODP_PMR_ETHTYPE_X | ODP_PMR_VLAN_ID_0 | ODP_PMR_VLAN_ID_X | ODP_PMR_DMAC
  | ODP_PMR_IPPROTO | ODP_PMR_UDP_DPORT | ODP_PMR_TCP_DPORT | ODP_PMR_UDP_SPORT | ODP_PMR_TCP_SPORT
  | ODP_PMR_SIP_ADDR | ODP_PMR_DIP_ADDR | ODP_PMR_SIP6_ADDR | ODP_PMR_DIP6_ADDR | ODP_PMR_IPSEC_SPI
  | ODP_PMR_LD_VNI | ODP_PMR_CUSTOM_FRAME | ODP_PMR_INNER_HDR_OFF.

Record pmr_term_value_t := TV { tv_term : odp_pmr_term_t; tv_val : Z; tv_mask : Z; tv_offset : Z; tv_val_sz : Z }.
(** [val] and [mask] are the bytes they point to. *)
Record odp_pmr_match_t := Match {
  mt_term : odp_pmr_term_t; mt_val : list Z; mt_mask : list Z; mt_val_sz : Z; mt_offset : Z }.

(** A rule, and a rule set, which has room for eight terms; [pmr_t *] points to
    either. *)
Record pmr_s := Pmr { pmr_valid : bool; pmr_count : Z; num_pmr : Z; pmr_terms : list pmr_term_value_t }.
Inductive pmr_ref := PMR (i : Z) | PMR_SET (i : Z).

Record cos_s := Cos {
  cos_queue : option Z; cos_pool : option Z; cos_pmr : option pmr_ref; linked_cos : option Z; cos_valid : bool;
  drop_policy : Z; flow_set : Z; cos_headroom : Z; cos_name : string }.

Record classifier_t := Cls {
  cls_num_pmr : Z; cls_pmr : list (option pmr_ref); cls_cos : list (option Z); error_cos : option Z;
  default_cos : option Z; l3_precedence : Z; l2_cos_table : list (option Z); l3_cos_table : list (option Z);
  cls_flow_set : Z; cls_headroom : Z; cls_skip : Z }.

(** The part of a packet interface entry that classification uses;
    [last_index] is [in_queue[PKTIO_MAX_QUEUES - 1].pktin.index]. *)
Record pktio_entry := PE { cls : list classifier_t; cls_enabled : Z; last_index : Z }.

Record cls_state := CS {
  cos_tbl : list cos_s; pmr_tbl : list pmr_s; pmr_set_tbl : list pmr_s; pktio_tbl : list pktio_entry }.

Record odp_cls_cos_param_t := CosParam { par_queue : Z; par_pool : Z; par_drop : Z }.

(** ** Start-up *)

Definition zero_term : pmr_term_value_t := TV ODP_PMR_LEN 0 0 0 0.
Definition zero_pmr (terms : nat) : pmr_s := Pmr false 0 0 (replicate terms zero_term).
Definition zero_cos : cos_s := Cos None None None None false 0 0 0 "".
Definition zero_cls : classifier_t :=
  Cls 0 (replicate 8 None) (replicate 8 None) None None 0 (replicate 8 None) (replicate 64 None) 0 0 0.
Definition zero_pktio : pktio_entry := PE (replicate 17 zero_cls) 0 0.

(** The three reservations in order; a failure frees what was reserved. *)
Definition odp_classification_init_global (cos_shm pmr_shm pmr_set_shm : bool) (ports : list pktio_entry) : Z * option cls_state :=
  if negb cos_shm then (-1, None)
  else if negb pmr_shm then (-1, None)
  else if negb pmr_set_shm then (-1, None)
  else (0, Some (CS (replicate 64 zero_cos) (replicate 64 (zero_pmr 1)) (replicate 64 (zero_pmr 8)) ports)).

Definition odp_classification_term_global (free_cos free_pmr free_set : Z) : Z :=
  let rc := 0 in
  let rc := if free_cos <? 0 then -1 else rc in
  let rc := if free_pmr <? 0 then -1 else rc in
  if free_set <? 0 then -1 else rc.

(** [pktio_classifier_init] of an interface that is opened. *)
Definition cls_init (c : classifier_t) : classifier_t :=
  Cls 0 (replicate 8 None) (replicate 8 None) None None (l3_precedence c) (l2_cos_table c) (l3_cos_table c) 0 0 0.
Definition pktio_classifier_init (entry : option pktio_entry) : Z * option pktio_entry :=
  match entry with
  | None => (-1, None)
  | Some e => (0, Some (PE (cls_init <$> cls e) (cls_enabled e) (last_index e)))
  end.

(** ** Access to the tables *)

Definition set_cos_tbl v (s : cls_state) : cls_state := CS v (pmr_tbl s) (pmr_set_tbl s) (pktio_tbl s).
Definition set_pmr_tbl v (s : cls_state) : cls_state := CS (cos_tbl s) v (pmr_set_tbl s) (pktio_tbl s).
Definition set_pmr_set_tbl v (s : cls_state) : cls_state := CS (cos_tbl s) (pmr_tbl s) v (pktio_tbl s).
Definition set_pktio_tbl v (s : cls_state) : cls_state := CS (cos_tbl s) (pmr_tbl s) (pmr_set_tbl s) v.

Definition get_cos_entry (cos_id : Z) (s : cls_state) : option Z :=
  if (cos_id >=? ODP_COS_MAX_ENTRY) || (cos_id =? ODP_COS_INVALID) then None
  else c ← zget (cos_tbl s) cos_id; if cos_valid c then Some cos_id else None.
Definition get_pmr_set_entry (pmr_set_id : Z) (s : cls_state) : option pmr_ref :=
  if (pmr_set_id >=? ODP_PMRSET_MAX_ENTRY) || (pmr_set_id =? ODP_PMR_SET_INVAL) then None
  else r ← zget (pmr_set_tbl s) pmr_set_id; if pmr_valid r then Some (PMR_SET pmr_set_id) else None.
Definition get_pmr_entry (pmr_id : Z) (s : cls_state) : option pmr_ref :=
  if (pmr_id >=? ODP_PMR_MAX_ENTRY) || (pmr_id =? ODP_PMR_INVAL) then None
  else r ← zget (pmr_tbl s) pmr_id; if pmr_valid r then Some (PMR pmr_id) else None.

(** [get_pktio_entry]: the index of an entry. *)
Definition get_pktio_entry (pktio : Z) (s : cls_state) : option Z :=
  if pktio =? 0 then None
  else if pktio >? ODP_CONFIG_PKTIO_ENTRIES then None
  else e ← zget (pktio_tbl s) (pktio - 1); Some (pktio - 1).

Definition upd_cos (i : Z) (f : cos_s -> cos_s) (s : cls_state) : cls_state :=
  set_cos_tbl (alter f (Z.to_nat i) (cos_tbl s)) s.
Definition upd_pmr (r : pmr_ref) (f : pmr_s -> pmr_s) (s : cls_state) : cls_state :=
  match r with
  | PMR i => set_pmr_tbl (alter f (Z.to_nat i) (pmr_tbl s)) s
  | PMR_SET i => set_pmr_set_tbl (alter f (Z.to_nat i) (pmr_set_tbl s)) s
  end.
Definition pmr_at (r : pmr_ref) (s : cls_state) : option pmr_s :=
  match r with PMR i => zget (pmr_tbl s) i | PMR_SET i => zget (pmr_set_tbl s) i end.

(** [entry->s.cls[id]] *)
Definition cls_at (entry id : Z) (s : cls_state) : option classifier_t := e ← zget (pktio_tbl s) entry; zget (cls e) id.
Definition upd_cls (entry id : Z) (f : classifier_t -> classifier_t) (s : cls_state) : option cls_state :=
  e ← zget (pktio_tbl s) entry;
  c ← zget (cls e) id;
  l ← zset (cls e) id (f c);
  t ← zset (pktio_tbl s) entry (PE l (cls_enabled e) (last_index e));
  Some (set_pktio_tbl t s).
(** [pktio_cls_enabled_set] *)
Definition pktio_cls_enabled_set (entry index : Z) (s : cls_state) : option cls_state :=
  e ← zget (pktio_tbl s) entry;
  t ← zset (pktio_tbl s) entry (PE (cls e) (Z.lor (cls_enabled e) (Z.shiftl 1 index)) (last_index e));
  Some (set_pktio_tbl t s).
Definition pktio_cls_enabled (e : pktio_entry) (index : Z) : bool := Z.testbit (cls_enabled e) index.

(** ** Classes of service *)

Definition odp_cls_cos_param_init : odp_cls_cos_param_t := CosParam ODP_QUEUE_INVALID ODP_POOL_INVALID ODP_COS_DROP_NEVER.

(** [queue_to_qentry] and [odp_pool_to_entry] with the test for the invalid handle. *)
Definition to_queue (q : Z) : option Z := if q =? ODP_QUEUE_INVALID then None else Some q.
Definition to_pool (p : Z) : option Z := if p =? ODP_POOL_INVALID then None else Some p.

(** The first entry that is not valid, from [i] on. *)
Fixpoint first_free {A} (valid : A -> bool) (i : Z) (l : list A) : option Z :=
  match l with
  | [] => None
  | x :: l => if negb (valid x) then Some i else first_free valid (i + 1) l
  end.

Definition odp_cls_cos_create (name : string) (param : odp_cls_cos_param_t) (s : cls_state) : Z * cls_state :=
  match first_free cos_valid 0 (cos_tbl s) with
  | None => (ODP_COS_INVALID, s)
  | Some i =>
      (i, upd_cos i (fun _ => Cos (to_queue (par_queue param)) (to_pool (par_pool param)) None None true (par_drop param) 0 0
                                 (String.substring 0 31 name)) s)
  end.

Definition set_valid (v : bool) (c : cos_s) : cos_s :=
  Cos (cos_queue c) (cos_pool c) (cos_pmr c) (linked_cos c) v (drop_policy c) (flow_set c) (cos_headroom c) (cos_name c).
Definition set_queue (v : option Z) (c : cos_s) : cos_s :=
  Cos v (cos_pool c) (cos_pmr c) (linked_cos c) (cos_valid c) (drop_policy c) (flow_set c) (cos_headroom c) (cos_name c).
Definition set_pool (v : option Z) (c : cos_s) : cos_s :=
  Cos (cos_queue c) v (cos_pmr c) (linked_cos c) (cos_valid c) (drop_policy c) (flow_set c) (cos_headroom c) (cos_name c).
Definition set_drop (v : Z) (c : cos_s) : cos_s :=
  Cos (cos_queue c) (cos_pool c) (cos_pmr c) (linked_cos c) (cos_valid c) v (flow_set c) (cos_headroom c) (cos_name c).
Definition set_link (r : pmr_ref) (d : Z) (c : cos_s) : cos_s :=
  Cos (cos_queue c) (cos_pool c) (Some r) (Some d) (cos_valid c) (drop_policy c) (flow_set c) (cos_headroom c) (cos_name c).

Definition on_cos (cos_id : Z) (f : cos_s -> cos_s) (s : cls_state) : Z * cls_state :=
  match get_cos_entry cos_id s with None => (-1, s) | Some i => (0, upd_cos i f s) end.
Definition odp_cos_destroy (cos_id : Z) : cls_state -> Z * cls_state := on_cos cos_id (set_valid false).
Definition odp_cos_queue_set (cos_id queue_id : Z) : cls_state -> Z * cls_state := on_cos cos_id (set_queue (to_queue queue_id)).
Definition odp_cos_drop_set (cos_id drop : Z) : cls_state -> Z * cls_state := on_cos cos_id (set_drop drop).
Definition odp_cls_cos_pool_set (cos_id pool_id : Z) : cls_state -> Z * cls_state := on_cos cos_id (set_pool (to_pool pool_id)).

Definition odp_cos_queue (cos_id : Z) (s : cls_state) : Z :=
  default ODP_QUEUE_INVALID (i ← get_cos_entry cos_id s; c ← zget (cos_tbl s) i; cos_queue c).
Definition odp_cos_drop (cos_id : Z) (s : cls_state) : Z :=
  default (-1) (i ← get_cos_entry cos_id s; c ← zget (cos_tbl s) i; Some (drop_policy c)).
Definition odp_cls_cos_pool (cos_id : Z) (s : cls_state) : Z :=
  default ODP_POOL_INVALID (i ← get_cos_entry cos_id s; c ← zget (cos_tbl s) i; cos_pool c).

(** ** Classifiers of an interface *)

Definition set_default (v : option Z) (c : classifier_t) : classifier_t :=
  Cls (cls_num_pmr c) (cls_pmr c) (cls_cos c) (error_cos c) v (l3_precedence c) (l2_cos_table c) (l3_cos_table c)
    (cls_flow_set c) (cls_headroom c) (cls_skip c).
Definition set_error (v : option Z) (c : classifier_t) : classifier_t :=
  Cls (cls_num_pmr c) (cls_pmr c) (cls_cos c) v (default_cos c) (l3_precedence c) (l2_cos_table c) (l3_cos_table c)
    (cls_flow_set c) (cls_headroom c) (cls_skip c).
Definition set_skip (v : Z) (c : classifier_t) : classifier_t :=
  Cls (cls_num_pmr c) (cls_pmr c) (cls_cos c) (error_cos c) (default_cos c) (l3_precedence c) (l2_cos_table c) (l3_cos_table c)
    (cls_flow_set c) (cls_headroom c) v.
Definition set_cls_headroom (v : Z) (c : classifier_t) : classifier_t :=
  Cls (cls_num_pmr c) (cls_pmr c) (cls_cos c) (error_cos c) (default_cos c) (l3_precedence c) (l2_cos_table c) (l3_cos_table c)
    (cls_flow_set c) v (cls_skip c).
Definition set_l2 (v : list (option Z)) (c : classifier_t) : classifier_t :=
  Cls (cls_num_pmr c) (cls_pmr c) (cls_cos c) (error_cos c) (default_cos c) (l3_precedence c) v (l3_cos_table c)
    (cls_flow_set c) (cls_headroom c) (cls_skip c).
Definition set_l3 (pref : Z) (v : list (option Z)) (c : classifier_t) : classifier_t :=
  Cls (cls_num_pmr c) (cls_pmr c) (cls_cos c) (error_cos c) (default_cos c) pref (l2_cos_table c) v
    (cls_flow_set c) (cls_headroom c) (cls_skip c).
Definition add_rule (r : pmr_ref) (d : Z) (c : classifier_t) : classifier_t :=
  let n := Z.to_nat (cls_num_pmr c) in
  Cls (cls_num_pmr c + 1) (<[n := Some r]> (cls_pmr c)) (<[n := Some d]> (cls_cos c)) (error_cos c) (default_cos c)
    (l3_precedence c) (l2_cos_table c) (l3_cos_table c) (cls_flow_set c) (cls_headroom c) (cls_skip c).

Definition odp_pktio_default_cos_set (pktio_in cos_id : Z) (s : cls_state) : option (Z * cls_state) :=
  match get_pktio_entry pktio_in s, get_cos_entry cos_id s with
  | Some entry, Some cos =>
      e ← zget (pktio_tbl s) entry;
      let id := last_index e in
      s ← upd_cls entry id (set_default (Some cos)) s;
      s ← pktio_cls_enabled_set entry id s;
      Some (0, s)
  | _, _ => Some (-1, s)
  end.

Definition odp_pktio_error_cos_set (pktio_in cos_id : Z) (s : cls_state) : option (Z * cls_state) :=
  match get_pktio_entry pktio_in s, get_cos_entry cos_id s with
  | Some entry, Some cos => s ← upd_cls entry 0 (set_error (Some cos)) s; Some (0, s)
  | _, _ => Some (-1, s)
  end.

Definition odp_pktio_skip_set (pktio_in offset : Z) (s : cls_state) : option (Z * cls_state) :=
  match get_pktio_entry pktio_in s with
  | Some entry => s ← upd_cls entry 0 (set_skip offset) s; Some (0, s)
  | None => Some (-1, s)
  end.
Definition odp_pktio_headroom_set (pktio_in headroom : Z) (s : cls_state) : option (Z * cls_state) :=
  match get_pktio_entry pktio_in s with
  | Some entry => s ← upd_cls entry 0 (set_cls_headroom headroom) s; Some (0, s)
  | None => Some (-1, s)
  end.

(** The loop over [qos_table] and [cos_table]: entries that are no CoS or above
    the limit are passed over. *)
Fixpoint fill_qos (limit : Z) (s : cls_state) (l : list (Z * Z)) (tbl : list (option Z)) : list (option Z) :=
  match l with
  | [] => tbl
  | (qos, cos_id) :: l =>
      fill_qos limit s l
        (match get_cos_entry cos_id s with
         | Some cos => if limit >? qos then <[Z.to_nat qos := Some cos]> tbl else tbl
         | None => tbl
         end)
  end.

Definition odp_cos_with_l2_priority (pktio_in : Z) (table : list (Z * Z)) (s : cls_state) : option (Z * cls_state) :=
  match get_pktio_entry pktio_in s with
  | Some entry =>
      s ← upd_cls entry 0 (fun c => set_l2 (fill_qos ODP_COS_MAX_L2_QOS s table (l2_cos_table c)) c) s;
      s ← pktio_cls_enabled_set entry 0 s;
      Some (0, s)
  | None => Some (-1, s)
  end.
Definition odp_cos_with_l3_qos (pktio_in : Z) (table : list (Z * Z)) (l3_preference : Z) (s : cls_state) : option (Z * cls_state) :=
  match get_pktio_entry pktio_in s with
  | Some entry =>
      s ← upd_cls entry 0 (fun c => set_l3 l3_preference (fill_qos ODP_COS_MAX_L3_QOS s table (l3_cos_table c)) c) s;
      s ← pktio_cls_enabled_set entry 0 s;
      Some (0, s)
  | None => Some (-1, s)
  end.

(** ** Matching rules *)

(** [memcpy] of [n] bytes into a zeroed 64-bit word. *)
Fixpoint le_value (l : list Z) : Z := match l with [] => 0 | b :: l => b + 256 * le_value l end.
Definition le_bytes (n : Z) (l : list Z) : option Z :=
  if n <=? zlen l then Some (le_value (take (Z.to_nat n) l)) else None.

Definition odp_pmr_create_term (mt : odp_pmr_match_t) : option pmr_term_value_t :=
  val ← le_bytes (mt_val_sz mt) (mt_val mt);
  mask ← le_bytes (mt_val_sz mt) (mt_mask mt);
  Some (TV (mt_term mt) (val & mask) mask (mt_offset mt) (mt_val_sz mt)).

Definition alloc_pmr (s : cls_state) : option (Z * cls_state) :=
  i ← first_free pmr_valid 0 (pmr_tbl s);
  Some (i, upd_pmr (PMR i) (fun r => Pmr true 0 0 (pmr_terms r)) s).
Definition alloc_pmr_set (s : cls_state) : option (Z * cls_state) :=
  i ← first_free pmr_valid 0 (pmr_set_tbl s);
  Some (i, upd_pmr (PMR_SET i) (fun r => Pmr true 0 0 (pmr_terms r)) s).

Definition put_term (i : Z) (tv : pmr_term_value_t) (r : pmr_s) : pmr_s :=
  Pmr (pmr_valid r) (pmr_count r) (num_pmr r) (<[Z.to_nat i := tv]> (pmr_terms r)).
Definition set_num_pmr (n : Z) (r : pmr_s) : pmr_s := Pmr (pmr_valid r) (pmr_count r) n (pmr_terms r).
Definition set_pmr_valid (v : bool) (r : pmr_s) : pmr_s := Pmr v (pmr_count r) (num_pmr r) (pmr_terms r).
Definition add_count (r : pmr_s) : pmr_s := Pmr (pmr_valid r) (pmr_count r +u32 1) (num_pmr r) (pmr_terms r).

Definition odp_pmr_create (mt : odp_pmr_match_t) (s : cls_state) : option (Z * cls_state) :=
  if mt_val_sz mt >? ODP_PMR_TERM_BYTES_MAX then Some (ODP_PMR_INVAL, s)
  else
    match alloc_pmr s with
    | None => Some (ODP_PMR_INVAL, s)
    | Some (id, s) =>
        tv ← odp_pmr_create_term mt;
        Some (id, upd_pmr (PMR id) (fun r => put_term 0 tv (set_num_pmr 1 r)) s)
    end.

Definition odp_pmr_destroy (pmr_id : Z) (s : cls_state) : Z * cls_state :=
  match get_pmr_entry pmr_id s with None => (-1, s) | Some r => (0, upd_pmr r (set_pmr_valid false) s) end.

(** A rule on a classifier, after the checks of its handles. *)
Definition attach (entry id : Z) (r : pmr_ref) (cos : Z) (s : cls_state) : option (Z * cls_state) :=
  c ← cls_at entry id s;
  if u8 (cls_num_pmr c) >=? ODP_PKTIO_MAX_PMR then Some (-1, s)
  else
    s ← upd_cls entry id (add_rule r cos) s;
    s ← pktio_cls_enabled_set entry id s;
    Some (0, s).

Definition odp_pktio_pmr_cos (pmr_id src_pktio dst_cos : Z) (s : cls_state) : option (Z * cls_state) :=
  match get_pktio_entry src_pktio s, get_pmr_entry pmr_id s, get_cos_entry dst_cos s with
  | Some entry, Some r, Some cos => attach entry 0 r cos s
  | _, _, _ => Some (-1, s)
  end.

Definition odp_cos_pmr_cos (pmr_id src_cos dst_cos : Z) (s : cls_state) : Z * cls_state :=
  match get_cos_entry src_cos s, get_cos_entry dst_cos s, get_pmr_entry pmr_id s with
  | Some src, Some dst, Some r => (0, upd_cos src (set_link r dst) s)
  | _, _, _ => (-1, s)
  end.

Definition odp_pmr_terms_cap : Z :=
  let bit n := Z.shiftl 1 n in
  Z.lor (bit 0) (Z.lor (bit 6) (Z.lor (bit 7) (Z.lor (bit 8) (Z.lor (bit 9) (Z.lor (bit 10) (Z.lor (bit 11) (bit 12))))))).

Definition odp_pmr_terms_avail (s : cls_state) : Z := zlen (filter (fun r => pmr_valid r = false) (pmr_tbl s)).

(** The loop over the terms: those with too large a value are passed over. *)
Fixpoint create_terms (i : Z) (terms : list odp_pmr_match_t) (r : pmr_ref) (count : Z) (s : cls_state) : option (Z * cls_state) :=
  match terms with
  | [] => Some (count, s)
  | mt :: terms =>
      if s32 (mt_val_sz mt) >? ODP_PMR_TERM_BYTES_MAX then create_terms (i + 1) terms r count s
      else
        tv ← odp_pmr_create_term mt;
        create_terms (i + 1) terms r (count + 1) (upd_pmr r (put_term i tv) s)
  end.

(** [terms] are the elements before [num_terms], none when it is negative. *)
Definition odp_pmr_match_set_create (num_terms : Z) (terms : list odp_pmr_match_t) (s : cls_state) : option (Z * option Z * cls_state) :=
  if num_terms >? ODP_PMRTERM_MAX then Some (-1, None, s)
  else
    match alloc_pmr_set s with
    | None => Some (-1, Some ODP_PMR_SET_INVAL, s)
    | Some (id, s) =>
        let s := upd_pmr (PMR_SET id) (set_num_pmr (u32 num_terms)) s in
        '(count, s) ← create_terms 0 (take (Z.to_nat num_terms) terms) (PMR_SET id) 0 s;
        Some (count, Some id, s)
    end.

Definition odp_pmr_match_set_destroy (pmr_set_id : Z) (s : cls_state) : Z * cls_state :=
  match get_pmr_set_entry pmr_set_id s with None => (-1, s) | Some r => (0, upd_pmr r (set_pmr_valid false) s) end.

Definition odp_pktio_pmr_match_set_cos (pmr_set_id src_pktio dst_cos : Z) (s : cls_state) : option (Z * cls_state) :=
  match get_pktio_entry src_pktio s, get_pmr_set_entry pmr_set_id s, get_cos_entry dst_cos s with
  | Some entry, Some r, Some cos => e ← zget (pktio_tbl s) entry; attach entry (last_index e) r cos s
  | _, _, _ => Some (-1, s)
  end.

(** ** Matching a packet *)

(** [odp_be_to_cpu_32] of the four bytes at [a], and the same word in the order
    of the host. *)
Definition be32 (m : mem) (a : Z) : option Z := hi ← be16 m a; lo ← be16 m (a + 2); Some (hi * 65536 + lo).
Fixpoint ld (n : nat) (m : mem) (a : Z) : option (list Z) :=
  match n with
  | O => Some []
  | S n => b ← m !! a; l ← ld n m (a + 1); Some (b :: l)
  end.
Definition le (m : mem) (a n : Z) : option Z := le_value <$> ld (Z.to_nat n) m a.

(** [__builtin_bswap64] *)
Fixpoint be_value (acc : Z) (l : list Z) : Z := match l with [] => acc | b :: l => be_value (acc * 256 + b) l end.
Fixpoint bytes_of (n : nat) (x : Z) : list Z := match n with O => [] | S n => x mod 256 :: bytes_of n (x / 256) end.
Definition odp_be_to_cpu_64 (x : Z) : Z := be_value 0 (bytes_of 8 x).

Section packet.
Context (m : mem) (pkt_addr : Z).

Definition agrees (tv : pmr_term_value_t) (x : Z) : bool := tv_val tv =? (x & tv_mask tv).

Definition verify_pmr_packet_len (p : packet_hdr) (tv : pmr_term_value_t) : option bool := Some (agrees tv (frame_len p)).
Definition verify_pmr_ip_proto (p : packet_hdr) (tv : pmr_term_value_t) : option bool :=
  if negb (get_in F_ipv4 p) then Some false else proto ← m !! (pkt_addr + l3_offset p + 9); Some (agrees tv proto).
Definition verify_pmr_ipv4_saddr (p : packet_hdr) (tv : pmr_term_value_t) : option bool :=
  if negb (get_in F_ipv4 p) then Some false else a ← be32 m (pkt_addr + l3_offset p + 12); Some (agrees tv a).
Definition verify_pmr_ipv4_daddr (p : packet_hdr) (tv : pmr_term_value_t) : option bool :=
  if negb (get_in F_ipv4 p) then Some false else a ← be32 m (pkt_addr + l3_offset p + 16); Some (agrees tv a).
Definition verify_pmr_tcp_sport (p : packet_hdr) (tv : pmr_term_value_t) : option bool :=
  if negb (get_in F_tcp p) then Some false else x ← be16 m (pkt_addr + l4_offset p); Some (agrees tv x).
Definition verify_pmr_tcp_dport (p : packet_hdr) (tv : pmr_term_value_t) : option bool :=
  if negb (get_in F_tcp p) then Some false else x ← be16 m (pkt_addr + l4_offset p + 2); Some (agrees tv x).
Definition verify_pmr_udp_sport (p : packet_hdr) (tv : pmr_term_value_t) : option bool :=
  if negb (get_in F_udp p) then Some false else x ← be16 m (pkt_addr + l4_offset p); Some (agrees tv x).
Definition verify_pmr_udp_dport (p : packet_hdr) (tv : pmr_term_value_t) : option bool :=
  if negb (get_in F_udp p) then Some false else x ← be16 m (pkt_addr + l4_offset p + 2); Some (agrees tv x).
Definition verify_pmr_dmac (p : packet_hdr) (tv : pmr_term_value_t) : option bool :=
  if negb (get_in F_eth p) then Some false
  else
    dmac_be ← le m (pkt_addr + l2_offset p) 6;
    let dmac := odp_be_to_cpu_64 dmac_be in
    let dmac := if negb (dmac_be =? dmac) then Z.shiftr dmac 16 else dmac in
    Some (agrees tv dmac).
Definition verify_pmr_ipsec_spi (p : packet_hdr) (tv : pmr_term_value_t) : option bool :=
  if negb (get_in F_ipsec p) then Some false
  else
    let pkt_addr := pkt_addr + l4_offset p in
    if l4_protocol p =? ODPH_IPPROTO_AH then spi ← be32 m (pkt_addr + 4); Some (agrees tv spi)
    else if l4_protocol p =? ODPH_IPPROTO_ESP then spi ← be32 m pkt_addr; Some (agrees tv spi)
    else Some false.
Definition verify_pmr_custom_frame (p : packet_hdr) (tv : pmr_term_value_t) : option bool :=
  if tv_val_sz tv >? ODP_PMR_TERM_BYTES_MAX then None
  else if frame_len p <=? tv_offset tv +u32 tv_val_sz tv then Some false
  else val ← le m (pkt_addr + tv_offset tv) (tv_val_sz tv); Some (agrees tv val).

(** The switch of [verify_pmr]; the terms without an implementation never match. *)
Definition verify_term (p : packet_hdr) (tv : pmr_term_value_t) : option bool :=
  match tv_term tv with
  | ODP_PMR_LEN => verify_pmr_packet_len p tv
  | ODP_PMR_ETHTYPE_0 | ODP_PMR_ETHTYPE_X | ODP_PMR_VLAN_ID_0 | ODP_PMR_VLAN_ID_X => Some false
  | ODP_PMR_DMAC => verify_pmr_dmac p tv
  | ODP_PMR_IPPROTO => verify_pmr_ip_proto p tv
  | ODP_PMR_UDP_DPORT => verify_pmr_udp_dport p tv
  | ODP_PMR_TCP_DPORT => verify_pmr_tcp_dport p tv
  | ODP_PMR_UDP_SPORT => verify_pmr_udp_sport p tv
  | ODP_PMR_TCP_SPORT => verify_pmr_tcp_sport p tv
  | ODP_PMR_SIP_ADDR => verify_pmr_ipv4_saddr p tv
  | ODP_PMR_DIP_ADDR => verify_pmr_ipv4_daddr p tv
  | ODP_PMR_SIP6_ADDR | ODP_PMR_DIP6_ADDR => Some false
  | ODP_PMR_IPSEC_SPI => verify_pmr_ipsec_spi p tv
  | ODP_PMR_LD_VNI => Some false
  | ODP_PMR_CUSTOM_FRAME => verify_pmr_custom_frame p tv
  | ODP_PMR_INNER_HDR_OFF => Some true
  end.

(** The loop from term [i] on, [n] terms. *)
Fixpoint verify_loop (n : nat) (i : Z) (terms : list pmr_term_value_t) (p : packet_hdr) : option bool :=
  match n with
  | O => Some true
  | S n => tv ← zget terms i; ok ← verify_term p tv; if ok : bool then verify_loop n (i + 1) terms p else Some false
  end.

Definition verify_pmr (r : pmr_ref) (p : packet_hdr) (s : cls_state) : option (bool * cls_state) :=
  pmr ← pmr_at r s;
  if negb (pmr_valid pmr) then Some (false, s)
  else
    ok ← verify_loop (Z.to_nat (s32 (num_pmr pmr))) 0 (pmr_terms pmr) p;
    if ok : bool then Some (true, upd_pmr r add_count s) else Some (false, s).

(** The recursion follows the links between classes. *)
Fixpoint match_pmr_cos (fuel : nat) (cos : option Z) (pmr : option pmr_ref) (p : packet_hdr) (s : cls_state)
    : option (option Z * cls_state) :=
  match fuel with
  | O => None
  | S fuel =>
      match cos, pmr with
      | Some i, Some r =>
          c ← zget (cos_tbl s) i;
          if negb (cos_valid c) then Some (None, s)
          else
            '(ok, s) ← verify_pmr r p s;
            if ok : bool then
              '(retcos, s) ← match_pmr_cos fuel (linked_cos c) (cos_pmr c) p s;
              Some (match retcos with Some d => Some d | None => Some i end, s)
            else Some (None, s)
      | _, _ => Some (None, s)
      end
  end.

(** A chain that does not come back to a class has at most 64 links. *)
Definition chain_fuel : nat := 66.

(** The rules of a classifier in order, from [i] on. *)
Fixpoint match_rules (n : nat) (i : Z) (c : classifier_t) (p : packet_hdr) (s : cls_state) : option (option Z * cls_state) :=
  match n with
  | O => Some (None, s)
  | S n =>
      r ← zget (cls_pmr c) i;
      d ← zget (cls_cos c) i;
      '(cos, s) ← match_pmr_cos chain_fuel d r p s;
      match cos with Some _ => Some (cos, s) | None => match_rules n (i + 1) c p s end
  end.

Definition match_qos_l3_cos (l3_cos : list (option Z)) (p : packet_hdr) : option (option Z) :=
  if get_in F_l3 p && get_in F_ipv4 p then
    tos ← m !! (pkt_addr + l3_offset p + 1);
    zget l3_cos (Z.shiftr (tos & 0xfc) 2)
  else if get_in F_l3 p && get_in F_ipv6 p then
    ver_tc_flow ← le m (pkt_addr + l3_offset p) 4;
    zget l3_cos (u8 (Z.shiftr (ver_tc_flow & 0x0fc00000) 22))
  else Some None.

Definition match_qos_l2_cos (l2_cos : list (option Z)) (p : packet_hdr) : option (option Z) :=
  if get_in F_l2 p && get_in F_vlan p && get_in F_eth p then
    qos ← be16 m (pkt_addr + l2_offset p + 14);
    zget l2_cos (Z.shiftr qos 13 & 0x07)
  else Some None.

Definition match_qos_cos (entry : Z) (p : packet_hdr) (s : cls_state) : option (option Z) :=
  c ← cls_at entry 0 s;
  if negb (l3_precedence c =? 0) then
    cos ← match_qos_l3_cos (l3_cos_table c) p;
    match cos with Some _ => Some cos | None => match_qos_l2_cos (l2_cos_table c) p end
  else
    cos ← match_qos_l2_cos (l2_cos_table c) p;
    match cos with Some _ => Some cos | None => match_qos_l3_cos (l3_cos_table c) p end.

(** [pktio_select_cos] of a packet whose header has been parsed. *)
Definition select_parsed (entry queue_id : Z) (p : packet_hdr) (s : cls_state) : option (option Z * cls_state) :=
  if negb (error_flags p =? 0) then Some (None, s)
  else
    g ← cls_at entry GLOBAL_CLS_ID s;
    '(cos, s) ← match_rules (Z.to_nat (cls_num_pmr g)) 0 g p s;
    match cos with
    | Some _ => Some (cos, s)
    | None =>
        c ← cls_at entry queue_id s;
        '(cos, s) ← match_rules (Z.to_nat (cls_num_pmr c)) 0 c p s;
        match cos with
        | Some _ => Some (cos, s)
        | None =>
            cos ← match_qos_cos entry p s;
            match cos with Some _ => Some (cos, s) | None => Some (default_cos c, s) end
        end
    end.

Definition pktio_select_cos (b : buffer_hdr) (entry queue_id : Z) (p : packet_hdr) (s : cls_state)
    : option (option Z * packet_hdr * cls_state) :=
  p ← lazily m b p;
  '(cos, s) ← select_parsed entry queue_id p s;
  Some (cos, p, s).

End packet.

(** ** Delivery *)

(** What classification uses of packets, pools and queues. *)
Class PacketWorld (W : Type) := {
  w_mem : W -> mem;
  w_hdr : Z -> W -> option (buffer_hdr * packet_hdr);
  w_put_hdr : Z -> packet_hdr -> W -> W;
  w_packet_pool : Z -> W -> Z;
  w_packet_free : Z -> W -> option W;
  w_packet_copy : Z -> Z -> W -> option (Z * W);
  w_packet_alloc : Z -> Z -> W -> option (Z * W);
  w_copydata_in : Z -> Z -> Z -> Z -> W -> option (Z * W);
  w_pull_tail : Z -> Z -> W -> option W;
  w_queue_enq : Z -> Z -> W -> option (Z * W);
  w_queue_deq_multi : Z -> Z -> W -> option (list Z * W)
}.

Definition ODP_PACKET_INVALID : Z := 0.

Section deliver.
Context {W : Type} `{PacketWorld W}.

Definition _odp_packet_classifier (entry queue_id pkt : Z) (s : cls_state) (w : W) : option (Z * cls_state * W) :=
  '(b, p) ← w_hdr pkt w;
  '(pkt_addr, _) ← packet_map b p 0 0;
  '(cos, p, s) ← pktio_select_cos (w_mem w) pkt_addr b entry queue_id p s;
  let w := w_put_hdr pkt p w in
  match cos with
  | None => Some (-1, s, w)
  | Some i =>
      c ← zget (cos_tbl s) i;
      match cos_pool c, cos_queue c with
      | None, _ => w ← w_packet_free pkt w; Some (-1, s, w)
      | Some _, None => w ← w_packet_free pkt w; Some (-1, s, w)
      | Some pool, Some queue =>
          if negb (w_packet_pool pkt w =? pool) then
            '(new_pkt, w) ← w_packet_copy pkt pool w;
            if new_pkt =? ODP_PACKET_INVALID then Some (-1, s, w)
            else
              w ← w_packet_free pkt w;
              '(ret, w) ← w_queue_enq queue new_pkt w;
              Some (ret, s, w)
          else
            '(ret, w) ← w_queue_enq queue pkt w;
            Some (ret, s, w)
      end
  end.

Definition packet_classifier (pktio pkt : Z) (s : cls_state) (w : W) : option (Z * cls_state * W) :=
  match get_pktio_entry pktio s with
  | None => Some (-1, s, w)
  | Some entry => _odp_packet_classifier entry 0 pkt s w
  end.

(** [hdr0] is what the local variable [pkt_hdr] holds before its parser fields
    are reset; the second result is [*pkt_ret]. *)
Definition _odp_packet_cls_enq (hdr0 : packet_hdr) (entry base buf_len : Z) (s : cls_state) (w : W)
    : option (Z * option Z * cls_state * W) :=
  '(_, p) ← odp_parse_common (w_mem w) (packet_parse_reset hdr0) base;
  '(cos, s) ← select_parsed (w_mem w) base entry 0 p s;
  match cos with
  | None => Some (0, None, s, w)
  | Some i =>
      c ← zget (cos_tbl s) i;
      match cos_queue c, cos_pool c with
      | Some queue, Some pool =>
          '(pkt, w) ← w_packet_alloc pool buf_len w;
          if pkt =? ODP_PACKET_INVALID then Some (0, None, s, w)
          else
            '(_, dst) ← w_hdr pkt w;
            let w := w_put_hdr pkt (set_input (entry + 1) (copy_packet_parser_metadata p dst)) w in
            '(err, w) ← w_copydata_in pkt 0 buf_len base w;
            if negb (err =? 0) then w ← w_packet_free pkt w; Some (0, None, s, w)
            else
              '(_, h) ← w_hdr pkt w;
              w ← w_pull_tail pkt (frame_len h -u32 buf_len) w;
              '(ret, w) ← w_queue_enq queue pkt w;
              if ret <? 0 then Some (1, Some pkt, s, w) else Some (0, None, s, w)
      | _, _ => Some (0, None, s, w)
      end
  end.

(** ** Receiving on the loop interface *)

Record loop_stats := LS { in_octets : Z; in_ucast_pkts : Z }.

(** [odp_packet_len] *)
Definition packet_length (pkt : Z) (w : W) : option Z := '(_, p) ← w_hdr pkt w; Some (frame_len p).

(** The parser state of a received packet, and its layer 2 flags. *)
Definition reset_l2 (pkt : Z) (w : W) : option W :=
  '(_, p) ← w_hdr pkt w; Some (w_put_hdr pkt (packet_parse_l2 (packet_parse_reset p)) w).

(** The loop with classification: [pkts] is the array of the caller. *)
Fixpoint recv_cls (entry : Z) (hdr_tbl : list Z) (i j : Z) (pkts : list Z) (st : loop_stats) (s : cls_state) (w : W)
    : option (Z * list Z * loop_stats * cls_state * W) :=
  match hdr_tbl with
  | [] => Some (j, pkts, st, s, w)
  | pkt :: hdr_tbl =>
      w ← reset_l2 pkt w;
      '(ret, s, w) ← _odp_packet_classifier entry 0 pkt s w;
      if ret <? 0 then
        pkts ← zset pkts j pkt;
        h ← zget pkts i;
        len ← packet_length h w;
        recv_cls entry hdr_tbl (i + 1) (j + 1) pkts (LS (in_octets st +u64 len) (in_ucast_pkts st)) s w
      else recv_cls entry hdr_tbl (i + 1) j pkts st s w
  end.

Fixpoint recv_plain (hdr_tbl : list Z) (i : Z) (pkts : list Z) (st : loop_stats) (w : W) : option (list Z * loop_stats * W) :=
  match hdr_tbl with
  | [] => Some (pkts, st, w)
  | pkt :: hdr_tbl =>
      pkts ← zset pkts i pkt;
      w ← reset_l2 pkt w;
      len ← packet_length pkt w;
      recv_plain hdr_tbl (i + 1) pkts (LS (in_octets st +u64 len) (in_ucast_pkts st)) w
  end.

(** The array [hdr_tbl] has room for [QUEUE_MULTI_MAX] packets. *)
Definition QUEUE_MULTI_MAX : Z := 8.
Definition loopback_recv (entry loopq len : Z) (pkts : list Z) (st : loop_stats) (s : cls_state) (w : W)
    : option (Z * list Z * loop_stats * cls_state * W) :=
  '(hdr_tbl, w) ← w_queue_deq_multi loopq len w;
  e ← zget (pktio_tbl s) entry;
  if zlen hdr_tbl >? QUEUE_MULTI_MAX then None
  else if pktio_cls_enabled e 0 then
    '(nbr, pkts, st, s, w) ← recv_cls entry hdr_tbl 0 0 pkts st s w;
    Some (nbr, pkts, LS (in_octets st) (in_ucast_pkts st +u64 nbr), s, w)
  else
    '(pkts, st, w) ← recv_plain hdr_tbl 0 pkts st w;
    let nbr := zlen hdr_tbl in
    Some (nbr, pkts, LS (in_octets st) (in_ucast_pkts st +u64 nbr), s, w).

End deliver.

End Classify.
