(* ===== verification/ClassifyProofs.v ===== *)
(** Classification: configuration keeps the tables well formed, a packet is
    classified without a bad access, the first attached rule that holds decides,
    and the places where the code does otherwise. *)

From S2P Require Import Prelude Pool PoolProofs PoolCreate Buffer Packet Parse Classify.

Open Scope Z_scope.
Open Scope c_scope.

Module ClassifyProofs.
Import Pool Buffer Packet Parse Classify.

(** ** Well-formed tables *)

Definition opt_ok (o : option Z) : Prop := match o with None => True | Some i => 0 <= i < 64 end.
Definition ref_ok (o : option pmr_ref) : Prop :=
  match o with None => True | Some (PMR i) | Some (PMR_SET i) => 0 <= i < 64 end.
Definition cos_ok (c : cos_s) : Prop := ref_ok (cos_pmr c) /\ opt_ok (linked_cos c).
Definition term_ok (tv : pmr_term_value_t) : Prop := 0 <= tv_val_sz tv <= 8 /\ 0 <= tv_offset tv <= 2 ^ 32 - 9.
Definition pmr_ok (terms : nat) (r : pmr_s) : Prop :=
  length (pmr_terms r) = terms /\ s32 (num_pmr r) <= Z.of_nat terms /\ Forall term_ok (pmr_terms r).
Definition cls_ok (c : classifier_t) : Prop :=
  0 <= cls_num_pmr c <= 8 /\ (length (cls_pmr c) = 8%nat /\ Forall ref_ok (cls_pmr c)) /\
  (length (cls_cos c) = 8%nat /\ Forall opt_ok (cls_cos c)) /\ opt_ok (default_cos c) /\
  (length (l2_cos_table c) = 8%nat /\ Forall opt_ok (l2_cos_table c)) /\ (length (l3_cos_table c) = 64%nat /\ Forall opt_ok (l3_cos_table c)).
Definition port_ok (e : pktio_entry) : Prop := length (cls e) = 17%nat /\ Forall cls_ok (cls e) /\ 0 <= last_index e < 17.

Record wf (s : cls_state) : Prop := {
  wf_cos : length (cos_tbl s) = 64%nat /\ Forall cos_ok (cos_tbl s);
  wf_pmr : length (pmr_tbl s) = 64%nat /\ Forall (pmr_ok 1) (pmr_tbl s);
  wf_set : length (pmr_set_tbl s) = 64%nat /\ Forall (pmr_ok 8) (pmr_set_tbl s);
  wf_ports : length (pktio_tbl s) = 64%nat /\ Forall port_ok (pktio_tbl s)
}.

(** ** Configuration calls *)

Inductive cls_op :=
  | CosCreate (name : string) (param : odp_cls_cos_param_t)
  | CosDestroy (c : Z) | QueueSet (c q : Z) | PoolSet (c p : Z) | DropSet (c d : Z)
  | DefaultCos (io c : Z) | ErrorCos (io c : Z) | SkipSet (io v : Z) | HeadroomSet (io v : Z)
  | L2Priority (io : Z) (table : list (Z * Z)) | L3Qos (io : Z) (table : list (Z * Z)) (pref : Z)
  | PmrCreate (mt : odp_pmr_match_t) | PmrDestroy (r : Z) | PmrCos (r io c : Z) | CosPmrCos (r c d : Z)
  | SetCreate (n : Z) (mts : list odp_pmr_match_t) | SetDestroy (r : Z) | SetCos (r io c : Z)
  | Open (io : Z).

(** Opening an interface resets its classifiers. *)
Definition open_port (io : Z) (s : cls_state) : option (Z * cls_state) :=
  match get_pktio_entry io s with
  | None => Some (-1, s)
  | Some entry =>
      e ← zget (pktio_tbl s) entry;
      let '(r, e') := pktio_classifier_init (Some (PE (cls e) 0 0)) in
      e' ← e';
      t ← zset (pktio_tbl s) entry e';
      Some (r, set_pktio_tbl t s)
  end.

Definition exec (o : cls_op) (s : cls_state) : option (Z * cls_state) :=
  match o with
  | CosCreate name param => Some (odp_cls_cos_create name param s)
  | CosDestroy c => Some (odp_cos_destroy c s)
  | QueueSet c q => Some (odp_cos_queue_set c q s)
  | PoolSet c p => Some (odp_cls_cos_pool_set c p s)
  | DropSet c d => Some (odp_cos_drop_set c d s)
  | DefaultCos io c => odp_pktio_default_cos_set io c s
  | ErrorCos io c => odp_pktio_error_cos_set io c s
  | SkipSet io v => odp_pktio_skip_set io v s
  | HeadroomSet io v => odp_pktio_headroom_set io v s
  | L2Priority io t => odp_cos_with_l2_priority io t s
  | L3Qos io t pref => odp_cos_with_l3_qos io t pref s
  | PmrCreate mt => odp_pmr_create mt s
  | PmrDestroy r => Some (odp_pmr_destroy r s)
  | PmrCos r io c => odp_pktio_pmr_cos r io c s
  | CosPmrCos r c d => Some (odp_cos_pmr_cos r c d s)
  | SetCreate n mts => '(count, _, s) ← odp_pmr_match_set_create n mts s; Some (count, s)
  | SetDestroy r => Some (odp_pmr_match_set_destroy r s)
  | SetCos r io c => odp_pktio_pmr_match_set_cos r io c s
  | Open io => open_port io s
  end.

(** The values of a match are as long as it says, and its bytes do not reach
    over the end of 32-bit offsets; handles are unsigned. *)
Definition match_ok (mt : odp_pmr_match_t) : Prop :=
  0 <= mt_val_sz mt < 2 ^ 31 /\ mt_val_sz mt <= zlen (mt_val mt) /\ mt_val_sz mt <= zlen (mt_mask mt) /\
  0 <= mt_offset mt <= 2 ^ 32 - 9.
Definition op_ok (o : cls_op) : Prop :=
  match o with
  | CosCreate _ _ => True
  | CosDestroy c | QueueSet c _ | PoolSet c _ | DropSet c _ => 0 <= c
  | DefaultCos io c | ErrorCos io c => 0 <= io /\ 0 <= c
  | SkipSet io _ | HeadroomSet io _ | Open io => 0 <= io
  | L2Priority io t | L3Qos io t _ => 0 <= io /\ Forall (fun x => 0 <= fst x /\ 0 <= snd x) t
  | PmrCreate mt => match_ok mt
  | PmrDestroy r | SetDestroy r => 0 <= r
  | PmrCos r a b | CosPmrCos r a b | SetCos r a b => 0 <= r /\ 0 <= a /\ 0 <= b
  | SetCreate n mts => - 2 ^ 31 <= n < 2 ^ 31 /\ Forall match_ok mts
  end.

Fixpoint run (os : list cls_op) (s : cls_state) : option (list Z * cls_state) :=
  match os with
  | [] => Some ([], s)
  | o :: os => '(r, s) ← exec o s; '(rs, s) ← run os s; Some (r :: rs, s)
  end.

(** ** Configuration keeps the tables well formed *)

Lemma Forall_alter {A} (P : A -> Prop) f (l : list A) i :
  Forall P l -> (forall x, l !! i = Some x -> P x -> P (f x)) -> Forall P (alter f i l).
Proof.
  intros Hl Hf. apply Forall_lookup. intros j x Hj. rewrite Forall_lookup in Hl. destruct (decide (j = i)) as [->|Hne].
  - rewrite list_lookup_alter_eq in Hj. apply fmap_Some in Hj as (y & Hy & ->). eauto.
  - rewrite list_lookup_alter_ne in Hj by congruence. eauto.
Qed.

Lemma Forall_zset {A} (P : A -> Prop) (l l' : list A) i x : zset l i x = Some l' -> Forall P l -> P x -> Forall P l'.
Proof. intros [? ->]%zset_inv Hl Hx. by apply Forall_insert. Qed.

Lemma zset_length {A} (l l' : list A) i x : zset l i x = Some l' -> length l' = length l.
Proof. intros [? ->]%zset_inv. by rewrite length_insert. Qed.

Lemma first_free_bound {A} (valid : A -> bool) i l k : first_free valid i l = Some k -> i <= k < i + zlen l.
Proof.
  revert i. induction l as [|x l IH]; intros i Hk; simpl in Hk; [done|]. unfold zlen in *. simpl length.
  destruct (negb (valid x)); [simplify_eq; lia|]. apply IH in Hk. lia.
Qed.

Lemma get_cos_entry_bound c s i : wf s -> 0 <= c -> get_cos_entry c s = Some i -> 0 <= i < 64.
Proof.
  intros [[Hl _] _ _ _] Hc. unfold get_cos_entry. destruct (_ || _) eqn:E; [done|].
  destruct (zget (cos_tbl s) c) as [x|] eqn:Ez; [|done]. simpl. destruct (cos_valid x); [|done]. intros [= <-].
  apply zget_bound in Ez. unfold zlen in Ez. lia.
Qed.

Lemma get_pmr_bound c s r : wf s -> 0 <= c -> get_pmr_entry c s = Some r -> ref_ok (Some r).
Proof.
  intros [_ [Hl _] _ _] Hc. unfold get_pmr_entry. destruct (_ || _) eqn:E; [done|].
  destruct (zget (pmr_tbl s) c) as [x|] eqn:Ez; [|done]. simpl. destruct (pmr_valid x); [|done]. intros [= <-].
  apply zget_bound in Ez. unfold zlen in Ez. simpl. lia.
Qed.

Lemma get_pmr_set_bound c s r : wf s -> 0 <= c -> get_pmr_set_entry c s = Some r -> ref_ok (Some r).
Proof.
  intros [_ _ [Hl _] _] Hc. unfold get_pmr_set_entry. destruct (_ || _) eqn:E; [done|].
  destruct (zget (pmr_set_tbl s) c) as [x|] eqn:Ez; [|done]. simpl. destruct (pmr_valid x); [|done]. intros [= <-].
  apply zget_bound in Ez. unfold zlen in Ez. simpl. lia.
Qed.

Lemma get_pktio_bound io s e : wf s -> 0 <= io -> get_pktio_entry io s = Some e -> 0 <= e < 64.
Proof.
  intros [_ _ _ [Hl _]] Hio. unfold get_pktio_entry. destruct (io =? 0) eqn:E; [done|]. destruct (_ >? _); [done|].
  destruct (zget _ _) eqn:Ez; [|done]. simpl. intros [= <-]. apply zget_bound in Ez. unfold zlen in Ez. lia.
Qed.

Lemma upd_cos_wf i f s : wf s -> (forall c, cos_ok c -> cos_ok (f c)) -> wf (upd_cos i f s).
Proof.
  intros [[? Hc] ? ? ?] Hf. split; simpl; try done. rewrite length_alter. split; [done|]. apply Forall_alter; eauto.
Qed.

Lemma upd_pmr_wf r f s : wf s -> (forall n x, (match r with PMR _ => n = 1%nat | PMR_SET _ => n = 8%nat end) -> pmr_ok n x -> pmr_ok n (f x)) ->
  wf (upd_pmr r f s).
Proof.
  intros [? [? Hp] [? Hs] ?] Hf. destruct r; split; simpl; try done; rewrite length_alter; (split; [done|]); apply Forall_alter; eauto.
Qed.

Lemma port_at s e : wf s -> 0 <= e < 64 -> exists p, zget (pktio_tbl s) e = Some p /\ port_ok p.
Proof.
  intros [_ _ _ [Hl Hp]] He. destruct (zget_Some (pktio_tbl s) e) as [p Hz]; [unfold zlen; lia|]. exists p. split; [done|].
  rewrite zget_nonneg in Hz by lia. by eapply Forall_lookup_1.
Qed.

Lemma cls_at_ok s e id : wf s -> 0 <= e < 64 -> 0 <= id < 17 -> exists c, cls_at e id s = Some c /\ cls_ok c.
Proof.
  intros Hwf He Hid. destruct (port_at s e Hwf He) as (p & Hz & Hlen & Hc & _). unfold cls_at. rewrite Hz. simpl.
  destruct (zget_Some (cls p) id) as [c Hg]; [unfold zlen; lia|]. exists c. split; [done|].
  rewrite zget_nonneg in Hg by lia. by eapply Forall_lookup_1.
Qed.

(** Replacing an entry of the interface table. *)
Lemma put_port_wf s e p t : wf s -> port_ok p -> zset (pktio_tbl s) e p = Some t -> wf (set_pktio_tbl t s).
Proof.
  intros [? ? ? [Hl Hp]] Hok Hz. split; simpl; try done. rewrite (zset_length _ _ _ _ Hz). split; [done|]. by eapply Forall_zset.
Qed.

Lemma upd_cls_wf s e id f :
  wf s -> 0 <= e < 64 -> 0 <= id < 17 -> (forall c, cls_ok c -> cls_ok (f c)) ->
  exists s', upd_cls e id f s = Some s' /\ wf s' /\ cos_tbl s' = cos_tbl s.
Proof.
  intros Hwf He Hid Hf. destruct (port_at s e Hwf He) as (p & Hz & Hlen & Hc & Hi). unfold upd_cls. rewrite Hz.
  cbn [mbind option_bind]. destruct (zget_Some (cls p) id) as [c Hg]; [unfold zlen; lia|]. rewrite Hg. cbn [mbind option_bind].
  rewrite zset_Some by (unfold zlen; lia). cbn [mbind option_bind].
  destruct (zset (pktio_tbl s) e _) as [t|] eqn:Et.
  2: { exfalso. rewrite zset_Some in Et; [done|]. unfold zlen. destruct (wf_ports _ Hwf) as [-> _]. lia. }
  cbn [mbind option_bind]. eexists. split; [done|]. split; [|done]. eapply put_port_wf; [done| |done]. split; simpl.
  - by rewrite length_insert.
  - split; [|done]. apply Forall_insert; [done|]. apply Hf. rewrite zget_nonneg in Hg by lia. by eapply Forall_lookup_1.
Qed.

Lemma upd_cls_at s e id c f :
  wf s -> 0 <= e < 64 -> 0 <= id < 17 -> cls_at e id s = Some c -> cls_ok (f c) -> exists s', upd_cls e id f s = Some s' /\ wf s'.
Proof.
  intros Hwf He Hid Hc Hf. destruct (upd_cls_wf s e id (fun _ => f c) Hwf He Hid ltac:(done)) as (s' & Hs & Hwf' & _).
  exists s'. split; [|done]. rewrite <- Hs. unfold upd_cls, cls_at in *. destruct (zget (pktio_tbl s) e) as [p|]; [|done].
  cbn [mbind option_bind] in *. by rewrite Hc.
Qed.

Lemma enabled_set_wf s e id : wf s -> 0 <= e < 64 -> exists s', pktio_cls_enabled_set e id s = Some s' /\ wf s'.
Proof.
  intros Hwf He. destruct (port_at s e Hwf He) as (p & Hz & Hok). unfold pktio_cls_enabled_set. rewrite Hz. cbn [mbind option_bind].
  destruct (zset (pktio_tbl s) e _) as [t|] eqn:Et.
  2: { exfalso. rewrite zset_Some in Et; [done|]. unfold zlen. destruct (wf_ports _ Hwf) as [-> _]. lia. }
  cbn [mbind option_bind]. eexists. split; [done|]. eapply (put_port_wf s e (PE (cls p) _ (last_index p))); [done|exact Hok|exact Et].
Qed.

Lemma add_rule_ok r d c : ref_ok (Some r) -> opt_ok (Some d) -> cls_num_pmr c < 8 -> cls_ok c -> cls_ok (add_rule r d c).
Proof.
  intros Hr Hd Hn (H0 & [H1 H2] & [H3 H4] & H5 & H6 & H7). split; [simpl; lia|]. simpl. rewrite !length_insert.
  split; [split; [done|by apply Forall_insert]|]. split; [split; [done|by apply Forall_insert]|done].
Qed.

Lemma attach_wf s e id r d :
  wf s -> 0 <= e < 64 -> 0 <= id < 17 -> ref_ok (Some r) -> opt_ok (Some d) -> exists x s', attach e id r d s = Some (x, s') /\ wf s'.
Proof.
  intros Hwf He Hid Hr Hd. unfold attach. destruct (cls_at_ok s e id Hwf He Hid) as (c & Hc & Hok). rewrite Hc. cbn [mbind option_bind].
  destruct (u8 (cls_num_pmr c) >=? ODP_PKTIO_MAX_PMR) eqn:E; [eauto|]. zbool. unfold ODP_PKTIO_MAX_PMR in E.
  rewrite u8_small in E by (unfold is_u8; destruct Hok; lia).
  destruct (upd_cls_at s e id c (add_rule r d) Hwf He Hid Hc) as (s1 & Hs1 & Hwf1); [by apply add_rule_ok; [..|lia|]|].
  rewrite Hs1. cbn [mbind option_bind]. destruct (enabled_set_wf s1 e id Hwf1 He) as (s2 & -> & Hwf2). cbn [mbind option_bind]. eauto.
Qed.

Lemma fill_qos_ok limit s l tbl n :
  wf s -> Forall (fun x => 0 <= fst x /\ 0 <= snd x) l -> length tbl = n -> Forall opt_ok tbl ->
  length (fill_qos limit s l tbl) = n /\ Forall opt_ok (fill_qos limit s l tbl).
Proof.
  intros Hwf Hl. revert tbl. induction Hl as [|[q c] l [Hq Hc] Hl IH]; intros tbl Hn Ht; simpl; [done|]. simpl in Hq, Hc.
  destruct (get_cos_entry c s) as [i|] eqn:E; [|by apply IH]. destruct (limit >? q); [|by apply IH].
  apply IH; [by rewrite length_insert|]. apply Forall_insert; [done|]. by eapply get_cos_entry_bound.
Qed.

(** A term that was created is well formed. *)
Lemma create_term_ok mt :
  match_ok mt -> mt_val_sz mt <= 8 ->
  exists v k, le_bytes (mt_val_sz mt) (mt_val mt) = Some v /\ le_bytes (mt_val_sz mt) (mt_mask mt) = Some k /\
    odp_pmr_create_term mt = Some (TV (mt_term mt) (v & k) k (mt_offset mt) (mt_val_sz mt)) /\
    term_ok (TV (mt_term mt) (v & k) k (mt_offset mt) (mt_val_sz mt)).
Proof.
  intros (H0 & H1 & H2 & H3) H8. unfold odp_pmr_create_term, le_bytes. rewrite !(proj2 (Z.leb_le _ _)) by done.
  do 2 eexists. split; [done|]. split; [done|]. split; [done|]. split; simpl; lia.
Qed.

Lemma put_term_ok n i tv r : term_ok tv -> pmr_ok n r -> pmr_ok n (put_term i tv r).
Proof. intros Ht (H1 & H2 & H3). split_and!; simpl; [by rewrite length_insert|done|by apply Forall_insert]. Qed.

Lemma create_terms_wf terms i r count s :
  wf s -> Forall match_ok terms -> exists x s', create_terms i terms r count s = Some (x, s') /\ wf s'.
Proof.
  intros Hwf Hm. revert i count s Hwf. induction Hm as [|mt terms Hmt Hm IH]; intros i count s Hwf; simpl; [eauto|].
  destruct (s32 (mt_val_sz mt) >? ODP_PMR_TERM_BYTES_MAX) eqn:E; [by apply IH|]. zbool. unfold ODP_PMR_TERM_BYTES_MAX in E.
  rewrite s32_small in E by (destruct Hmt; lia). destruct (create_term_ok mt Hmt ltac:(lia)) as (v & k & _ & _ & -> & Hok).
  cbn [mbind option_bind]. apply IH. apply upd_pmr_wf; [done|]. intros n x _. by apply put_term_ok.
Qed.


Lemma on_cos_wf c f s : wf s -> (forall x, cos_ok x -> cos_ok (f x)) -> wf (snd (on_cos c f s)).
Proof. intros Hwf Hf. unfold on_cos. destruct (get_cos_entry c s); [by apply upd_cos_wf|done]. Qed.

(** A call that changes one classifier and may enable it. *)
Lemma port_call_wf s io id f :
  wf s -> 0 <= io -> 0 <= id < 17 -> (forall c, cls_ok c -> cls_ok (f c)) ->
  match get_pktio_entry io s with
  | Some e => exists s1 s2, upd_cls e id f s = Some s1 /\ wf s1 /\ pktio_cls_enabled_set e id s1 = Some s2 /\ wf s2
  | None => True
  end.
Proof.
  intros Hwf Hio Hid Hf. destruct (get_pktio_entry io s) as [e|] eqn:E; [|done].
  pose proof (get_pktio_bound io s e Hwf Hio E) as He. destruct (upd_cls_wf s e id f Hwf He Hid Hf) as (s1 & H1 & Hwf1 & _).
  destruct (enabled_set_wf s1 e id Hwf1 He) as (s2 & H2 & Hwf2). eauto 10.
Qed.

Lemma alloc_pmr_wf s i s' : wf s -> alloc_pmr s = Some (i, s') -> wf s' /\ 0 <= i < 64.
Proof.
  intros Hwf. unfold alloc_pmr. destruct (first_free _ _ _) as [k|] eqn:E; [|done]. cbn [mbind option_bind]. intros [= <- <-]. split.
  - apply (upd_pmr_wf (PMR k)); [done|]. intros n x -> (H1 & H2 & H3). split_and!; simpl; [done|by vm_compute|done].
  - apply first_free_bound in E. unfold zlen in E. destruct (wf_pmr _ Hwf) as [Hl _]. lia.
Qed.

Lemma alloc_pmr_set_wf s i s' : wf s -> alloc_pmr_set s = Some (i, s') -> wf s' /\ 0 <= i < 64.
Proof.
  intros Hwf. unfold alloc_pmr_set. destruct (first_free _ _ _) as [k|] eqn:E; [|done]. cbn [mbind option_bind]. intros [= <- <-]. split.
  - apply (upd_pmr_wf (PMR_SET k)); [done|]. intros n x -> (H1 & H2 & H3). split_and!; simpl; [done|by vm_compute|done].
  - apply first_free_bound in E. unfold zlen in E. destruct (wf_set _ Hwf) as [Hl _]. lia.
Qed.

Lemma create_set_wf s n mts :
  wf s -> - 2 ^ 31 <= n < 2 ^ 31 -> Forall match_ok mts -> exists c id s', odp_pmr_match_set_create n mts s = Some (c, id, s') /\ wf s'.
Proof.
  intros Hwf Hn Hm. unfold odp_pmr_match_set_create. destruct (n >? ODP_PMRTERM_MAX) eqn:E; [eauto|]. zbool. unfold ODP_PMRTERM_MAX in E.
  destruct (alloc_pmr_set s) as [[id s1]|] eqn:Ea; [|eauto]. destruct (alloc_pmr_set_wf s id s1 Hwf Ea) as [Hwf1 _].
  destruct (create_terms_wf (take (Z.to_nat n) mts) 0 (PMR_SET id) 0 (upd_pmr (PMR_SET id) (set_num_pmr (u32 n)) s1)) as (c & s2 & -> & Hwf2).
  - apply upd_pmr_wf; [done|]. intros k x -> (H1 & H2 & H3). split_and!; simpl; [done| |done]. cint.
  - by apply Forall_take.
  - cbn [mbind option_bind]. eauto.
Qed.

Lemma create_pmr_wf s mt : wf s -> match_ok mt -> exists r s', odp_pmr_create mt s = Some (r, s') /\ wf s'.
Proof.
  intros Hwf Hm. unfold odp_pmr_create. destruct (mt_val_sz mt >? ODP_PMR_TERM_BYTES_MAX) eqn:E; [eauto|]. zbool.
  unfold ODP_PMR_TERM_BYTES_MAX in E. destruct (alloc_pmr s) as [[id s1]|] eqn:Ea; [|eauto].
  destruct (alloc_pmr_wf s id s1 Hwf Ea) as [Hwf1 _]. destruct (create_term_ok mt Hm ltac:(lia)) as (v & k & _ & _ & -> & Hok).
  cbn [mbind option_bind]. eexists _, _. split; [done|]. apply upd_pmr_wf; [done|]. intros n x -> (H1 & H2 & H3). apply put_term_ok; [done|].
  split_and!; [done|by vm_compute|done].
Qed.

Lemma open_port_wf s io : wf s -> 0 <= io -> exists r s', open_port io s = Some (r, s') /\ wf s'.
Proof.
  intros Hwf Hio. unfold open_port. destruct (get_pktio_entry io s) as [e|] eqn:E; [|eauto].
  pose proof (get_pktio_bound io s e Hwf Hio E) as He. destruct (port_at s e Hwf He) as (p & Hz & Hlen & Hc & _). rewrite Hz.
  cbn [mbind option_bind pktio_classifier_init]. destruct (zset (pktio_tbl s) e _) as [t|] eqn:Et.
  2: { exfalso. rewrite zset_Some in Et; [done|]. unfold zlen. destruct (wf_ports _ Hwf) as [-> _]. lia. }
  cbn [mbind option_bind]. eexists _, _. split; [done|]. eapply put_port_wf; [done| |exact Et]. split_and!; simpl; try lia.
  - by rewrite length_fmap.
  - apply Forall_fmap. eapply Forall_impl; [exact Hc|]. intros c (H0 & H1 & H2 & H3 & H4 & H5).
    split_and!; simpl; try lia; try done; by repeat constructor || tauto.
Qed.

Lemma default_cos_wf s io c :
  wf s -> 0 <= io -> 0 <= c -> exists r s', odp_pktio_default_cos_set io c s = Some (r, s') /\ wf s'.
Proof.
  intros Hwf Hio Hc. unfold odp_pktio_default_cos_set. destruct (get_pktio_entry io s) as [e|] eqn:E; [|eauto].
  destruct (get_cos_entry c s) as [d|] eqn:Ed; [|eauto]. pose proof (get_pktio_bound io s e Hwf Hio E) as He.
  destruct (port_at s e Hwf He) as (p & Hz & Hok). rewrite Hz. cbn [mbind option_bind]. destruct Hok as (_ & _ & Hid).
  pose proof (port_call_wf s io (last_index p) (set_default (Some d)) Hwf Hio Hid) as Hp. rewrite E in Hp.
  destruct Hp as (s1 & s2 & -> & _ & H2 & ?); [|cbn [mbind option_bind]; rewrite H2; cbn [mbind option_bind]; eauto].
  intros x (H0 & H1 & H2 & H3 & H4). split_and!; simpl; try tauto; try lia; by eapply get_cos_entry_bound.
Qed.

Lemma pmr_cos_wf s r io c : wf s -> 0 <= r -> 0 <= io -> 0 <= c -> exists x s', odp_pktio_pmr_cos r io c s = Some (x, s') /\ wf s'.
Proof.
  intros Hwf Hr Hio Hc. unfold odp_pktio_pmr_cos. destruct (get_pktio_entry io s) as [e|] eqn:E; [|eauto].
  destruct (get_pmr_entry r s) as [k|] eqn:Ek; [|eauto]. destruct (get_cos_entry c s) as [d|] eqn:Ed; [|eauto].
  eapply attach_wf; 
    [done|by apply (get_pktio_bound io s)|lia|by apply (get_pmr_bound r s)|by apply (get_cos_entry_bound c s)].
Qed.

Lemma set_cos_wf s r io c : wf s -> 0 <= r -> 0 <= io -> 0 <= c -> exists x s', odp_pktio_pmr_match_set_cos r io c s = Some (x, s') /\ wf s'.
Proof.
  intros Hwf Hr Hio Hc. unfold odp_pktio_pmr_match_set_cos. destruct (get_pktio_entry io s) as [e|] eqn:E; [|eauto].
  destruct (get_pmr_set_entry r s) as [k|] eqn:Ek; [|eauto]. destruct (get_cos_entry c s) as [d|] eqn:Ed; [|eauto].
  pose proof (get_pktio_bound io s e Hwf Hio E) as He. destruct (port_at s e Hwf He) as (p & Hz & _ & _ & Hid). rewrite Hz.
  cbn [mbind option_bind]. eapply attach_wf; 
    [done|done|done|by apply (get_pmr_set_bound r s)|by apply (get_cos_entry_bound c s)].
Qed.

(** Every configuration call returns and keeps the tables well formed. *)
Lemma exec_wf o s : wf s -> op_ok o -> exists r s', exec o s = Some (r, s') /\ wf s'.
Proof.
  intros Hwf Hok. assert (forall p : Z * cls_state, wf (snd p) -> exists r s', Some p = Some (r, s') /\ wf s') as Hret by (intros []; eauto).
  destruct o; cbn [exec op_ok] in *.
  - apply Hret. unfold odp_cls_cos_create. destruct (first_free _ _ _); [|done]. apply upd_cos_wf; [done|]. by intros c _.
  - apply Hret. by apply on_cos_wf.
  - apply Hret. by apply on_cos_wf.
  - apply Hret. by apply on_cos_wf.
  - apply Hret. by apply on_cos_wf.
  - apply default_cos_wf; tauto.
  - unfold odp_pktio_error_cos_set. pose proof (port_call_wf s io 0 (set_error (get_cos_entry c s)) Hwf ltac:(tauto) ltac:(lia) ltac:(done)) as Hp.
    destruct (get_pktio_entry io s) as [e|]; [|eauto]. destruct (get_cos_entry c s); [|eauto].
    destruct Hp as (s1 & _ & -> & ? & _). cbn [mbind option_bind]. eauto.
  - unfold odp_pktio_skip_set. pose proof (port_call_wf s io 0 (set_skip v) Hwf Hok ltac:(lia) ltac:(done)) as Hp.
    destruct (get_pktio_entry io s) as [e|]; [|eauto]. destruct Hp as (s1 & _ & -> & ? & _). cbn [mbind option_bind]. eauto.
  - unfold odp_pktio_headroom_set. pose proof (port_call_wf s io 0 (set_cls_headroom v) Hwf Hok ltac:(lia) ltac:(done)) as Hp.
    destruct (get_pktio_entry io s) as [e|]; [|eauto]. destruct Hp as (s1 & _ & -> & ? & _). cbn [mbind option_bind]. eauto.
  - unfold odp_cos_with_l2_priority. destruct Hok as [Hio Ht].
    pose proof (port_call_wf s io 0 (fun c => set_l2 (fill_qos ODP_COS_MAX_L2_QOS s table (l2_cos_table c)) c) Hwf Hio ltac:(lia)) as Hp.
    destruct (get_pktio_entry io s) as [e|]; [|eauto]. destruct Hp as (s1 & s2 & -> & _ & H2 & ?).
    + intros c (H0 & H1 & H2 & H3 & [H4 H4'] & H5).
      pose proof (fill_qos_ok ODP_COS_MAX_L2_QOS s table _ _ Hwf Ht H4 H4'). unfold cls_ok. simpl. tauto.
    + cbn [mbind option_bind]. rewrite H2. cbn [mbind option_bind]. eauto.
  - unfold odp_cos_with_l3_qos. destruct Hok as [Hio Ht].
    pose proof (port_call_wf s io 0 (fun c => set_l3 pref (fill_qos ODP_COS_MAX_L3_QOS s table (l3_cos_table c)) c) Hwf Hio ltac:(lia)) as Hp.
    destruct (get_pktio_entry io s) as [e|]; [|eauto]. destruct Hp as (s1 & s2 & -> & _ & H2 & ?).
    + intros c (H0 & H1 & H2 & H3 & H4 & [H5 H5']).
      pose proof (fill_qos_ok ODP_COS_MAX_L3_QOS s table _ _ Hwf Ht H5 H5'). unfold cls_ok. simpl. tauto.
    + cbn [mbind option_bind]. rewrite H2. cbn [mbind option_bind]. eauto.
  - by apply create_pmr_wf.
  - apply Hret. unfold odp_pmr_destroy. destruct (get_pmr_entry r s); [|done]. by apply upd_pmr_wf.
  - apply pmr_cos_wf; tauto.
  - apply Hret. unfold odp_cos_pmr_cos. destruct (get_cos_entry c s) as [a|]; [|done]. destruct (get_cos_entry d s) as [b|] eqn:E; [|done].
    destruct (get_pmr_entry r s) as [k|] eqn:Ek; [|done]. apply upd_cos_wf; [done|]. intros x _. split; simpl.
    + apply (get_pmr_bound r s); tauto.
    + apply (get_cos_entry_bound d s); tauto.
  - destruct (create_set_wf s n mts Hwf) as (c & id & s' & -> & ?); [tauto..|]. cbn [mbind option_bind]. eauto.
  - apply Hret. unfold odp_pmr_match_set_destroy. destruct (get_pmr_set_entry r s); [|done]. by apply upd_pmr_wf.
  - apply set_cos_wf; tauto.
  - by apply open_port_wf.
Qed.

Lemma run_wf os s : wf s -> Forall op_ok os -> exists rs s', run os s = Some (rs, s') /\ wf s'.
Proof.
  intros Hwf Hok. revert s Hwf. induction Hok as [|o os Ho Hok IH]; intros s Hwf; simpl; [eauto|].
  destruct (exec_wf o s Hwf Ho) as (r & s1 & -> & Hwf1). cbn [mbind option_bind]. destruct (IH s1 Hwf1) as (rs & s2 & -> & Hwf2).
  cbn [mbind option_bind]. eauto.
Qed.

(** The tables at start-up. *)
Definition cls_start : cls_state :=
  CS (replicate 64 zero_cos) (replicate 64 (zero_pmr 1)) (replicate 64 (zero_pmr 8)) (replicate 64 zero_pktio).

Lemma zero_cls_ok : cls_ok zero_cls.
Proof.
  unfold cls_ok, zero_cls. cbn [cls_num_pmr cls_pmr cls_cos default_cos l2_cos_table l3_cos_table].
  rewrite !length_replicate. split_and!; try lia; try done; by apply Forall_replicate.
Qed.

Lemma zero_pmr_ok n : pmr_ok n (zero_pmr n).
Proof.
  unfold pmr_ok, zero_pmr. cbn [pmr_terms num_pmr]. rewrite length_replicate. split_and!; [done|change (s32 0) with 0; lia|].
  apply Forall_replicate. split; simpl; lia.
Qed.

Lemma start_wf : wf cls_start.
Proof.
  split; unfold cls_start; cbn [cos_tbl pmr_tbl pmr_set_tbl pktio_tbl]; rewrite length_replicate; (split; [done|]); apply Forall_replicate.
  - done.
  - apply zero_pmr_ok.
  - apply zero_pmr_ok.
  - split_and!; simpl; [done| |lia|lia]. apply (Forall_replicate _ 17), zero_cls_ok.
Qed.

(** ** Classifying a packet *)

(** The headers that the flags announce, and the data, are in readable memory. *)
Record pkt_fits (m : mem) (pkt_addr : Z) (p : packet_hdr) (n : Z) : Prop := {
  pf_mem : readable m pkt_addr n;
  pf_len : 0 <= frame_len p <= n;
  pf_l2 : 0 <= l2_offset p /\ l2_offset p + 16 <= n;
  pf_l3 : get_in F_ipv4 p = true \/ get_in F_ipv6 p = true -> 0 <= l3_offset p /\ l3_offset p + 20 <= n;
  pf_l4 : get_in F_tcp p = true \/ get_in F_udp p = true \/ get_in F_ipsec p = true -> 0 <= l4_offset p /\ l4_offset p + 8 <= n
}.

Lemma be32_fits m a n x : readable m a n -> a <= x -> x + 4 <= a + n -> exists v, be32 m x = Some v.
Proof.
  intros Hr H1 H2. destruct (readable_be16 m a n x Hr ltac:(lia) ltac:(lia)) as (h & Hh & _).
  destruct (readable_be16 m a n (x + 2) Hr ltac:(lia) ltac:(lia)) as (l & Hl & _). unfold be32. rewrite Hh. simpl. rewrite Hl. simpl. eauto.
Qed.

Lemma ld_fits m a n k x :
  readable m a n -> a <= x -> x + Z.of_nat k <= a + n -> exists l, ld k m x = Some l /\ length l = k /\ Forall (fun b => 0 <= b < 256) l.
Proof.
  intros Hr. revert x. induction k as [|k IH]; intros x H1 H2; simpl; [eauto|].
  destruct (readable_byte m a n x Hr ltac:(lia)) as (b & -> & ?). destruct (IH (x + 1)) as (l & -> & ? & ?); [lia..|].
  simpl. eexists. split; [done|]. simpl. split; [lia|by constructor].
Qed.

Lemma le_fits m a n k x : readable m a n -> a <= x -> 0 <= k -> x + k <= a + n -> exists v, le m x k = Some v.
Proof. intros Hr H1 H2 H3. unfold le. destruct (ld_fits m a n (Z.to_nat k) x Hr) as (l & -> & _); [lia..|]. simpl. eauto. Qed.

Lemma verify_term_total m a p n tv : pkt_fits m a p n -> term_ok tv -> exists b, verify_term m a p tv = Some b.
Proof.
  intros [Hm Hl H2 H3 H4] [Hsz Hoff]. unfold verify_term.
  assert (forall off, get_in F_ipv4 p = true -> 0 <= off <= 16 -> exists v, be32 m (a + l3_offset p + off) = Some v) as H32.
  { intros off Hf Ho. destruct H3 as [??]; [by left|]. apply (be32_fits m a n); [done|lia|lia]. }
  assert (forall off, get_in F_tcp p = true \/ get_in F_udp p = true \/ get_in F_ipsec p = true -> 0 <= off <= 6 ->
    exists v, be16 m (a + l4_offset p + off) = Some v) as H16.
  { intros off Hf Ho. destruct (H4 Hf) as [??]. destruct (readable_be16 m a n (a + l4_offset p + off)) as (v & Hv & _); [done|lia|lia|]. eauto. }
  destruct (tv_term tv); try (by eexists).
  - unfold verify_pmr_dmac. destruct (get_in F_eth p); [|by eexists]. simpl.
    destruct (le_fits m a n 6 (a + l2_offset p)) as [v ->]; [done|lia..|]. simpl. eauto.
  - unfold verify_pmr_ip_proto. destruct (get_in F_ipv4 p) eqn:E; [|by eexists]. simpl. destruct H3 as [??]; [by left|].
    destruct (readable_byte m a n (a + l3_offset p + 9)) as (v & -> & _); [done|lia|]. simpl. eauto.
  - unfold verify_pmr_udp_dport. destruct (get_in F_udp p) eqn:E; [|by eexists]. destruct (H16 2) as [v Hv]; [auto|lia|]. simpl. rewrite Hv. simpl. eauto.
  - unfold verify_pmr_tcp_dport. destruct (get_in F_tcp p) eqn:E; [|by eexists]. destruct (H16 2) as [v Hv]; [auto|lia|]. simpl. rewrite Hv. simpl. eauto.
  - unfold verify_pmr_udp_sport. destruct (get_in F_udp p) eqn:E; [|by eexists]. destruct (H16 0) as [v Hv]; [auto|lia|]. rewrite Z.add_0_r in Hv. simpl. rewrite Hv. simpl. eauto.
  - unfold verify_pmr_tcp_sport. destruct (get_in F_tcp p) eqn:E; [|by eexists]. destruct (H16 0) as [v Hv]; [auto|lia|]. rewrite Z.add_0_r in Hv. simpl. rewrite Hv. simpl. eauto.
  - unfold verify_pmr_ipv4_saddr. destruct (get_in F_ipv4 p) eqn:E; [|by eexists]. destruct (H32 12) as [v Hv]; [done|lia|]. simpl. rewrite Hv. simpl. eauto.
  - unfold verify_pmr_ipv4_daddr. destruct (get_in F_ipv4 p) eqn:E; [|by eexists]. destruct (H32 16) as [v Hv]; [done|lia|]. simpl. rewrite Hv. simpl. eauto.
  - unfold verify_pmr_ipsec_spi. destruct (get_in F_ipsec p) eqn:E; [|by eexists]. simpl. destruct H4 as [??]; [auto|].
    destruct (l4_protocol p =? ODPH_IPPROTO_AH).
    + destruct (be32_fits m a n (a + l4_offset p + 4)) as [v ->]; [done|lia..|]. simpl. eauto.
    + destruct (l4_protocol p =? ODPH_IPPROTO_ESP); [|by eexists].
      destruct (be32_fits m a n (a + l4_offset p)) as [v ->]; [done|lia..|]. simpl. eauto.
  - unfold verify_pmr_custom_frame. rewrite Z.gtb_ltb, (proj2 (Z.ltb_ge _ _)) by (unfold ODP_PMR_TERM_BYTES_MAX; lia).
    rewrite u32_small by (unfold is_u32; lia). destruct (frame_len p <=? _) eqn:E; [by eexists|]. zbool.
    destruct (le_fits m a n (tv_val_sz tv) (a + tv_offset tv)) as [v ->]; [done|lia..|]. simpl. eauto.
Qed.

Lemma verify_loop_total m a p n terms k i :
  pkt_fits m a p n -> Forall term_ok terms -> 0 <= i -> i + Z.of_nat k <= zlen terms -> exists b, verify_loop m a k i terms p = Some b.
Proof.
  intros Hf Ht. revert i. induction k as [|k IH]; intros i H0 Hk; simpl; [eauto|].
  destruct (zget_Some terms i) as [tv Htv]; [lia|]. rewrite Htv. cbn [mbind option_bind].
  destruct (verify_term_total m a p n tv Hf) as [b ->]; [rewrite zget_nonneg in Htv by lia; by eapply Forall_lookup_1|].
  cbn [mbind option_bind]. destruct b; [apply IH; lia|eauto].
Qed.

(** Whether a rule matches; matching changes nothing but the counters of rules. *)
Definition rule_matches (m : mem) (a : Z) (p : packet_hdr) (s : cls_state) (r : pmr_ref) : option bool :=
  pmr ← pmr_at r s;
  if negb (pmr_valid pmr) then Some false else verify_loop m a (Z.to_nat (s32 (num_pmr pmr))) 0 (pmr_terms pmr) p.

Definition uncount (r : pmr_s) : pmr_s := Pmr (pmr_valid r) 0 (num_pmr r) (pmr_terms r).
Definition same_rules (s s' : cls_state) : Prop :=
  cos_tbl s' = cos_tbl s /\ pktio_tbl s' = pktio_tbl s /\ (uncount <$> pmr_tbl s') = (uncount <$> pmr_tbl s) /\
  (uncount <$> pmr_set_tbl s') = (uncount <$> pmr_set_tbl s).

#[export] Instance same_rules_equiv : Equivalence same_rules.
Proof.
  split; [done| |].
  - intros s s' (H1 & H2 & H3 & H4). by split_and!.
  - intros s1 s2 s3 (H1 & H2 & H3 & H4) (E1 & E2 & E3 & E4). unfold same_rules. by rewrite E1, E2, E3, E4.
Qed.

Lemma fmap_alter_same {A B} (g : A -> B) (f : A -> A) (l : list A) i : (forall x, g (f x) = g x) -> g <$> alter f i l = g <$> l.
Proof.
  intros Hf. apply list_eq. intros j. rewrite !list_lookup_fmap. destruct (decide (j = i)) as [->|Hne].
  - rewrite list_lookup_alter_eq. destruct (l !! i) as [x|]; simpl; [by rewrite Hf|done].
  - by rewrite list_lookup_alter_ne by congruence.
Qed.

Lemma count_same_rules r s : same_rules s (upd_pmr r add_count s).
Proof. destruct r; split_and!; simpl; try done; by apply fmap_alter_same. Qed.

Lemma zget_fmap {A B} (g : A -> B) (l : list A) i : zget (g <$> l) i = g <$> zget l i.
Proof. unfold zget. case_bool_decide; [apply list_lookup_fmap|done]. Qed.

Lemma rule_matches_same m a p s s' r : same_rules s s' -> rule_matches m a p s' r = rule_matches m a p s r.
Proof.
  intros (_ & _ & H3 & H4). assert (uncount <$> pmr_at r s' = uncount <$> pmr_at r s) as H.
  { destruct r; simpl; rewrite <- !zget_fmap; congruence. }
  unfold rule_matches. destruct (pmr_at r s') as [x|], (pmr_at r s) as [y|]; try done. injection H as E1 E2 E3.
  cbn [mbind option_bind]. by rewrite E1, E2, E3.
Qed.

Lemma verify_pmr_pure m a p s r :
  match rule_matches m a p s r with
  | None => verify_pmr m a r p s = None
  | Some b => exists s', verify_pmr m a r p s = Some (b, s') /\ same_rules s s'
  end.
Proof.
  unfold rule_matches, verify_pmr. destruct (pmr_at r s) as [x|]; [|done]. cbn [mbind option_bind].
  destruct (negb (pmr_valid x)); [by eexists|]. destruct (verify_loop m a _ 0 (pmr_terms x) p) as [[]|]; cbn [mbind option_bind]; [|by eexists|done].
  eexists. split; [done|]. apply count_same_rules.
Qed.

Lemma rule_matches_total m a p n s r : pkt_fits m a p n -> wf s -> ref_ok (Some r) -> exists b, rule_matches m a p s r = Some b.
Proof.
  intros Hf Hwf Hr. assert (exists x k, pmr_at r s = Some x /\ pmr_ok k x) as (x & k & Hx & Hl & Hn & Ht).
  { destruct r as [i|i]; simpl in *.
    - destruct (wf_pmr _ Hwf) as [Hl Hp]. destruct (zget_Some (pmr_tbl s) i) as [x Hx]; [unfold zlen; lia|]. exists x, 1%nat.
      split; [done|]. rewrite zget_nonneg in Hx by lia. by eapply Forall_lookup_1.
    - destruct (wf_set _ Hwf) as [Hl Hp]. destruct (zget_Some (pmr_set_tbl s) i) as [x Hx]; [unfold zlen; lia|]. exists x, 8%nat.
      split; [done|]. rewrite zget_nonneg in Hx by lia. by eapply Forall_lookup_1. }
  unfold rule_matches. rewrite Hx. cbn [mbind option_bind]. destruct (negb (pmr_valid x)); [eauto|].
  eapply verify_loop_total; [done|done|lia|]. unfold zlen. lia.
Qed.

(** ** Links between classes *)

(** The class that is tried after [i] has matched, when its rule matches too. *)
Definition next_cos (m : mem) (a : Z) (p : packet_hdr) (s : cls_state) (i : Z) : option Z :=
  c ← zget (cos_tbl s) i;
  d ← linked_cos c;
  r ← cos_pmr c;
  cd ← zget (cos_tbl s) d;
  if cos_valid cd then match rule_matches m a p s r with Some true => Some d | _ => None end else None.

Fixpoint follow (next : Z -> option Z) (n : nat) (i : Z) : option Z :=
  match n with
  | O => None
  | S n => match next i with None => Some i | Some d => follow next n d end
  end.

(** [match_pmr_cos] follows the links from a class that is entered. *)
Definition entered (m : mem) (a : Z) (p : packet_hdr) (s : cls_state) (cos : option Z) (r : option pmr_ref) : option Z :=
  i ← cos; r ← r; c ← zget (cos_tbl s) i;
  if cos_valid c then match rule_matches m a p s r with Some true => Some i | _ => None end else None.

Lemma next_cos_same m a p s s' i : same_rules s s' -> next_cos m a p s' i = next_cos m a p s i.
Proof.
  intros Hs. unfold next_cos. pose proof (rule_matches_same m a p s s') as Hr. destruct Hs as (Hc & Hs). rewrite Hc.
  destruct (zget (cos_tbl s) i) as [c|]; [|done]. cbn [mbind option_bind]. destruct (linked_cos c) as [d|]; [|done]. cbn [mbind option_bind].
  destruct (cos_pmr c) as [r|]; [|done]. cbn [mbind option_bind]. rewrite Hr; [done|]. by split.
Qed.

Lemma follow_ext f g n i : (forall i, f i = g i) -> follow f n i = follow g n i.
Proof. intros H. revert i. induction n as [|n IH]; intros i; simpl; [done|]. rewrite H. destruct (g i); [apply IH|done]. Qed.

Lemma cos_at s i : wf s -> 0 <= i < 64 -> exists c, zget (cos_tbl s) i = Some c /\ cos_ok c.
Proof.
  intros Hwf Hi. destruct (wf_cos _ Hwf) as [Hl Hc]. destruct (zget_Some (cos_tbl s) i) as [c Hz]; [unfold zlen; lia|].
  exists c. split; [done|]. rewrite zget_nonneg in Hz by lia. by eapply Forall_lookup_1.
Qed.

Lemma same_rules_wf s s' : same_rules s s' -> wf s -> wf s'.
Proof.
  intros (H1 & H2 & H3 & H4) [Hc [Hp Hp'] [Ht Ht'] Hio].
  assert (forall k l l', uncount <$> l' = uncount <$> l -> Forall (pmr_ok k) l -> length l' = length l /\ Forall (pmr_ok k) l') as Hl.
  { intros k l l' He Hl. split; [apply (f_equal length) in He; by rewrite !length_fmap in He|].
    assert (Forall (pmr_ok k) (uncount <$> l')) as H; [rewrite He; apply Forall_fmap; exact Hl|].
    rewrite Forall_fmap in H. exact H. }
  split; [by rewrite H1| | |by rewrite H2].
  - destruct (Hl _ _ _ H3 Hp') as [-> ?]. done.
  - destruct (Hl _ _ _ H4 Ht') as [-> ?]. done.
Qed.

Lemma entered_next m a p s s1 i c :
  zget (cos_tbl s) i = Some c -> same_rules s s1 -> entered m a p s1 (linked_cos c) (cos_pmr c) = next_cos m a p s i.
Proof.
  intros Hz Hs. unfold entered, next_cos. rewrite Hz. cbn [mbind option_bind]. pose proof (rule_matches_same m a p s s1) as Hr.
  destruct (linked_cos c) as [d|]; [|done]. cbn [mbind option_bind]. destruct (cos_pmr c) as [r|]; [|done]. cbn [mbind option_bind].
  rewrite Hr by done. destruct Hs as (-> & _). done.
Qed.

Lemma match_pmr_cos_S m a k i r p s :
  match_pmr_cos m a (S k) (Some i) (Some r) p s =
    (c ← zget (cos_tbl s) i;
     if negb (cos_valid c) then Some (None, s)
     else
       '(ok, s) ← verify_pmr m a r p s;
       if ok : bool then
         '(retcos, s) ← match_pmr_cos m a k (linked_cos c) (cos_pmr c) p s;
         Some (match retcos with Some d => Some d | None => Some i end, s)
       else Some (None, s)).
Proof. done. Qed.

Lemma match_pmr_cos_follow m a p n k s cos r :
  pkt_fits m a p n -> wf s -> opt_ok cos -> ref_ok r ->
  match entered m a p s cos r with
  | None => exists s', match_pmr_cos m a (S k) cos r p s = Some (None, s') /\ same_rules s s'
  | Some i =>
      match follow (next_cos m a p s) k i with
      | None => match_pmr_cos m a (S k) cos r p s = None
      | Some d => exists s', match_pmr_cos m a (S k) cos r p s = Some (Some d, s') /\ same_rules s s'
      end
  end.
Proof.
  intros Hf. revert cos r s. induction k as [|k IH]; intros cos r s Hwf Hc Hr; destruct cos as [i|]; try (by eexists);
    destruct r as [r|]; try (by eexists); simpl in Hc; destruct (cos_at s i Hwf Hc) as (c & Hz & Hrc & Hlc);
    rewrite match_pmr_cos_S; cbn [entered mbind option_bind]; rewrite Hz; cbn [mbind option_bind];
    (destruct (cos_valid c); cbn [negb]; [|by eexists]); pose proof (verify_pmr_pure m a p s r) as Hv;
    destruct (rule_matches_total m a p n s r Hf Hwf Hr) as [b Hb]; rewrite Hb in *; destruct Hv as (s1 & -> & Hs1);
    cbn [mbind option_bind]; (destruct b; [|by eauto]).
  - done.
  - specialize (IH (linked_cos c) (cos_pmr c) s1 (same_rules_wf s s1 Hs1 Hwf) Hlc Hrc).
    rewrite (entered_next m a p s s1 i c Hz Hs1) in IH. cbn [follow]. destruct (next_cos m a p s i) as [d|].
    + rewrite (follow_ext _ (next_cos m a p s)) in IH by (intros; by apply next_cos_same).
      destruct (follow (next_cos m a p s) k d) as [e|].
      * destruct IH as (s2 & -> & Hs2). cbn [mbind option_bind]. eexists. split; [done|]. by etrans.
      * by rewrite IH.
    + destruct IH as (s2 & -> & Hs2). cbn [mbind option_bind]. eexists. split; [done|]. by etrans.
Qed.

(** A walk over at most [N] classes that ends at all ends within [N + 1] steps:
    it does not visit a class twice. *)
Section walk.
Context (next : Z -> option Z) (N : Z).
Hypothesis (Hnext : forall i d, next i = Some d -> 0 <= d < N).

Definition ends_after (n : nat) (i : Z) : Prop := is_Some (follow next (S n) i) /\ follow next n i = None.

Lemma follow_mono n n' i r : follow next n i = Some r -> (n <= n')%nat -> follow next n' i = Some r.
Proof.
  revert n' i. induction n as [|n IH]; intros n' i Hf Hn; [done|]. destruct n' as [|n']; [lia|]. simpl in *.
  destruct (next i) as [d|]; [|done]. apply IH; [done|lia].
Qed.

Lemma ends_unique n n' i : ends_after n i -> ends_after n' i -> n = n'.
Proof.
  intros [[r Hr] H0] [[r' Hr'] H0']. destruct (Nat.lt_trichotomy n n') as [Hlt|[?|Hlt]]; [|done|].
  - rewrite (follow_mono (S n) n' i r Hr) in H0' by lia. done.
  - rewrite (follow_mono (S n') n i r' Hr') in H0 by lia. done.
Qed.

Lemma follow_ends n i r : follow next n i = Some r -> exists k, (k < n)%nat /\ ends_after k i.
Proof.
  revert r. induction n as [|n IH]; intros r Hf; [done|]. destruct (follow next n i) as [r'|] eqn:E.
  - destruct (IH r' eq_refl) as (k & ? & ?). exists k. split; [lia|done].
  - exists n. split; [lia|]. split; [by eexists|done].
Qed.

Lemma ends_path n i :
  ends_after n i ->
  exists l, length l = n /\ NoDup (i :: l) /\ (forall x, x ∈ l -> 0 <= x < N) /\ (forall x, x ∈ l -> exists k, (k < n)%nat /\ ends_after k x).
Proof.
  revert i. induction n as [|n IH]; intros i [Hs Hn].
  - exists []. split_and!; [done|apply NoDup_singleton|set_solver|set_solver].
  - assert (ends_after (S n) i) as Hi by done. simpl in Hs, Hn. destruct (next i) as [d|] eqn:Ed; [|done].
    assert (ends_after n d) as Hd by done. destruct (IH d Hd) as (l & Hl & Hnd & Hr & Hk). exists (d :: l).
    assert (forall x, x ∈ d :: l -> exists k, (k < S n)%nat /\ ends_after k x) as Hk'.
    { intros x [->|Hx]%elem_of_cons; [exists n; split; [lia|done]|]. destruct (Hk x Hx) as (k & ? & ?). exists k. split; [lia|done]. }
    split_and!; [simpl; lia| |by intros x [->|Hx]%elem_of_cons; eauto|done].
    apply NoDup_cons. split; [|done]. intros Hin. destruct (Hk' i Hin) as (k & Hlt & Hki). pose proof (ends_unique _ _ _ Hi Hki). lia.
Qed.

Lemma follow_bound n i r : 0 <= N -> follow next n i = Some r -> follow next (S (Z.to_nat N)) i = Some r.
Proof.
  intros HN Hf. destruct (follow_ends n i r Hf) as (k & Hk & [Hs Hz]). destruct (ends_path k i (conj Hs Hz)) as (l & Hl & Hnd & Hr & _).
  assert (l ⊆+ seqZ 0 N) as Hsub.
  { apply NoDup_submseteq; [by apply NoDup_cons in Hnd as [_ ?]|]. intros x Hx. apply elem_of_seqZ. specialize (Hr x Hx). lia. }
  apply submseteq_length in Hsub. rewrite length_seqZ in Hsub. destruct Hs as [r' Hr'].
  rewrite (follow_mono (S k) n i r' Hr') in Hf by lia. injection Hf as <-. apply (follow_mono (S k)); [done|lia].
Qed.

Lemma follow_range n i r : follow next n i = Some r -> 0 <= i < N -> 0 <= r < N.
Proof.
  revert i. induction n as [|n IH]; intros i Hf Hi; simpl in Hf; [done|]. destruct (next i) as [d|] eqn:E; [|congruence]. eauto.
Qed.

(** It ends when the links go down in some order. *)
Lemma follow_ranked (rank : Z -> nat) i : (forall i d, next i = Some d -> (rank d < rank i)%nat) -> exists n r, follow next n i = Some r.
Proof.
  intros Hrank. remember (rank i) as k eqn:Hk. revert i Hk. induction (lt_wf k) as [k _ IH]. intros i ->.
  destruct (next i) as [d|] eqn:E; [|exists 1%nat, i; simpl; by rewrite E].
  destruct (IH (rank d) (Hrank i d E) d eq_refl) as (n & r & Hr). exists (S n), r. simpl. by rewrite E.
Qed.

End walk.

(** Links that do not lead back to a class. *)
Definition acyclic (s : cls_state) : Prop :=
  exists rank : Z -> nat, forall i c d, zget (cos_tbl s) i = Some c -> linked_cos c = Some d -> (rank d < rank i)%nat.

Lemma next_cos_bound m a p s i d : wf s -> next_cos m a p s i = Some d -> 0 <= d < 64.
Proof.
  intros Hwf. unfold next_cos. destruct (zget (cos_tbl s) i) as [c|] eqn:Hz; [|done]. cbn [mbind option_bind].
  destruct (linked_cos c) as [e|] eqn:El; [|done]. cbn [mbind option_bind]. destruct (cos_pmr c); [|done]. cbn [mbind option_bind].
  destruct (zget (cos_tbl s) e) as [x|] eqn:He; [|done]. cbn [mbind option_bind]. destruct (cos_valid x); [|done].
  destruct (rule_matches m a p s _) as [[]|]; [|done..]. intros [= <-]. apply zget_bound in He. unfold zlen in He.
  destruct (wf_cos _ Hwf) as [Hl _]. lia.
Qed.

Lemma next_cos_link m a p s i d : next_cos m a p s i = Some d -> exists c, zget (cos_tbl s) i = Some c /\ linked_cos c = Some d.
Proof.
  unfold next_cos. destruct (zget (cos_tbl s) i) as [c|] eqn:Hz; [|done]. cbn [mbind option_bind].
  destruct (linked_cos c) as [e|] eqn:El; [|done]. cbn [mbind option_bind]. destruct (cos_pmr c); [|done]. cbn [mbind option_bind].
  destruct (zget (cos_tbl s) e) as [x|] eqn:He; [|done]. cbn [mbind option_bind]. destruct (cos_valid x); [|done].
  destruct (rule_matches m a p s _) as [[]|]; [|done..]. intros [= <-]. eauto.
Qed.

(** The class a rule leads to: the last one of the walk. *)
Lemma match_total m a p n s cos r :
  pkt_fits m a p n -> wf s -> acyclic s -> opt_ok cos -> ref_ok r ->
  exists o s', match_pmr_cos m a chain_fuel cos r p s = Some (o, s') /\ same_rules s s' /\ opt_ok o /\
    (o = None <-> entered m a p s cos r = None).
Proof.
  intros Hf Hwf [rank Hrank] Hc Hr. pose proof (match_pmr_cos_follow m a p n 65 s cos r Hf Hwf Hc Hr) as H. unfold chain_fuel.
  destruct (entered m a p s cos r) as [i|] eqn:Ee; [|destruct H as (s' & -> & ?); by exists None, s'].
  destruct (follow_ranked (next_cos m a p s) rank i) as (k & d & Hd).
  { intros x y Hxy. destruct (next_cos_link _ _ _ _ _ _ Hxy) as (c & ? & ?). eauto. }
  apply (follow_bound _ 64) in Hd; [|intros x y; by apply next_cos_bound|lia]. change (S (Z.to_nat 64)) with 65%nat in Hd. rewrite Hd in H.
  destruct H as (s' & -> & Hs). exists (Some d), s'. split_and!; [done|done| |done].
  apply (follow_range (next_cos m a p s) 64 (fun i d => next_cos_bound m a p s i d Hwf) 65 i d Hd).
  unfold entered in Ee. destruct cos as [x|]; [|done]. destruct r; [|done]. simpl in Ee. destruct (zget _ x); [|done]. simpl in Ee.
  destruct (cos_valid _); [|done]. destruct (rule_matches _ _ _ _ _) as [[]|]; [|done..]. by injection Ee as <-.
Qed.

Lemma same_rules_acyclic s s' : same_rules s s' -> acyclic s -> acyclic s'.
Proof. intros (Hc & _) [rank Hr]. exists rank. by rewrite Hc. Qed.

Lemma zget_Forall {A} (P : A -> Prop) l i x : zget l i = Some x -> Forall P l -> P x.
Proof. intros Hz Hl. pose proof (zget_bound l i x Hz). rewrite zget_nonneg in Hz by lia. by eapply Forall_lookup_1. Qed.

Lemma match_rules_total m a p n c k i s :
  pkt_fits m a p n -> wf s -> acyclic s -> cls_ok c -> 0 <= i -> i + Z.of_nat k <= 8 ->
  exists o s', match_rules m a k i c p s = Some (o, s') /\ same_rules s s' /\ opt_ok o.
Proof.
  intros Hf Hwf Hac (_ & [Hlr Hr] & [Hlc Hc] & _). revert i s Hwf Hac. induction k as [|k IH]; intros i s Hwf Hac Hi Hk; cbn [match_rules]; [by exists None, s|].
  destruct (zget_Some (cls_pmr c) i) as [r Hzr]; [unfold zlen; lia|]. destruct (zget_Some (cls_cos c) i) as [d Hzd]; [unfold zlen; lia|].
  rewrite Hzr, Hzd. cbn [mbind option_bind].
  destruct (match_total m a p n s d r Hf Hwf Hac) as (o & s1 & -> & Hs1 & Ho & _); [by eapply zget_Forall..|]. cbn [mbind option_bind].
  destruct o as [o|]; [by exists (Some o), s1|].
  destruct (IH (i + 1) s1) as (o & s2 & -> & Hs2 & Ho2); [by eapply same_rules_wf|by eapply same_rules_acyclic|lia|lia|].
  exists o, s2. split_and!; [done|by etrans|done].
Qed.

Lemma land_shift_bound x k j : 0 <= k -> 0 <= j -> 0 <= Z.shiftr (x & Z.shiftl (Z.ones j) k) k < 2 ^ j.
Proof.
  intros Hk Hj. rewrite Z.shiftr_land, Z.shiftr_shiftl_l, Z.sub_diag, Z.shiftl_0_r by lia. rewrite Z.land_ones by lia.
  apply Z.mod_pos_bound. lia.
Qed.

Lemma dscp_bound tos : 0 <= Z.shiftr (tos & 0xfc) 2 < 64.
Proof. change 0xfc with (Z.shiftl (Z.ones 6) 2). by apply (land_shift_bound tos 2 6). Qed.

Lemma flow_bound v : 0 <= u8 (Z.shiftr (v & 0x0fc00000) 22) < 64.
Proof.
  change 0x0fc00000 with (Z.shiftl (Z.ones 6) 22). assert (0 <= Z.shiftr (v & Z.shiftl (Z.ones 6) 22) 22 < 64) as H.
  { by apply (land_shift_bound v 22 6). }
  rewrite u8_small by (unfold is_u8; lia). done.
Qed.

Lemma pcp_bound q : 0 <= (Z.shiftr q 13 & 0x07) < 8.
Proof. change 0x07 with (Z.ones 3). rewrite Z.land_ones by lia. apply Z.mod_pos_bound. lia. Qed.

Lemma qos_total m a p n s e : pkt_fits m a p n -> wf s -> 0 <= e < 64 -> exists o, match_qos_cos m a e p s = Some o /\ opt_ok o.
Proof.
  intros [Hm Hl H2 H3 H4] Hwf He. unfold match_qos_cos. destruct (cls_at_ok s e 0 Hwf He ltac:(lia)) as (c & -> & Hok).
  destruct Hok as (_ & _ & _ & _ & [Hl2 Ht2] & [Hl3 Ht3]). cbn [mbind option_bind].
  assert (exists o, match_qos_l3_cos m a (l3_cos_table c) p = Some o /\ opt_ok o) as (o3 & H3' & Ho3).
  { unfold match_qos_l3_cos. destruct (get_in F_l3 p && get_in F_ipv4 p) eqn:E1.
    - zbool. destruct H3 as [??]; [auto|]. destruct (readable_byte m a n (a + l3_offset p + 1)) as (v & -> & _); [done|lia|].
      cbn [mbind option_bind]. pose proof (dscp_bound v). destruct (zget_Some (l3_cos_table c) (Z.shiftr (v & 0xfc) 2)) as [o Ho]; [unfold zlen; lia|].
      exists o. split; [done|]. by eapply zget_Forall.
    - destruct (get_in F_l3 p && get_in F_ipv6 p) eqn:E2; [|by exists None]. zbool. destruct H3 as [??]; [auto|].
      destruct (le_fits m a n 4 (a + l3_offset p)) as [v ->]; [done|lia..|]. cbn [mbind option_bind]. pose proof (flow_bound v).
      destruct (zget_Some (l3_cos_table c) (u8 (Z.shiftr (v & 0x0fc00000) 22))) as [o Ho]; [unfold zlen; lia|].
      exists o. split; [done|]. by eapply zget_Forall. }
  assert (exists o, match_qos_l2_cos m a (l2_cos_table c) p = Some o /\ opt_ok o) as (o2 & H2' & Ho2).
  { unfold match_qos_l2_cos. destruct (get_in F_l2 p && get_in F_vlan p && get_in F_eth p); [|by exists None].
    destruct (readable_be16 m a n (a + l2_offset p + 14)) as (v & -> & _); [done|lia..|]. cbn [mbind option_bind]. pose proof (pcp_bound v).
    destruct (zget_Some (l2_cos_table c) (Z.shiftr v 13 & 0x07)) as [o Ho]; [unfold zlen; lia|]. exists o. split; [done|]. by eapply zget_Forall. }
  rewrite H2', H3'. cbn [mbind option_bind]. destruct (negb _); [destruct o3|destruct o2]; eauto.
Qed.

Lemma select_total m a p n s e q :
  pkt_fits m a p n -> wf s -> acyclic s -> 0 <= e < 64 -> 0 <= q < 17 ->
  exists o s', select_parsed m a e q p s = Some (o, s') /\ same_rules s s' /\ opt_ok o.
Proof.
  intros Hf Hwf Hac He Hq. unfold select_parsed. destruct (negb _); [by exists None, s|].
  destruct (cls_at_ok s e GLOBAL_CLS_ID Hwf He ltac:(unfold GLOBAL_CLS_ID, MAX_CLS_SUPPORT; lia)) as (g & -> & Hg). cbn [mbind option_bind].
  destruct (match_rules_total m a p n g (Z.to_nat (cls_num_pmr g)) 0 s) as (o & s1 & -> & Hs1 & Ho); [done..|lia|destruct Hg; lia|].
  cbn [mbind option_bind]. destruct o as [o|]; [by exists (Some o), s1|].
  pose proof (same_rules_wf _ _ Hs1 Hwf) as Hwf1. pose proof (same_rules_acyclic _ _ Hs1 Hac) as Hac1.
  destruct (cls_at_ok s1 e q Hwf1 He Hq) as (c & -> & Hc). cbn [mbind option_bind].
  destruct (match_rules_total m a p n c (Z.to_nat (cls_num_pmr c)) 0 s1) as (o & s2 & -> & Hs2 & Ho2); [done..|lia|destruct Hc; lia|].
  assert (same_rules s s2) as Hs by (by etrans).
  cbn [mbind option_bind]. destruct o as [o|]; [by exists (Some o), s2|].
  destruct (qos_total m a p n s2 e Hf (same_rules_wf _ _ Hs Hwf) He) as (o & -> & Ho3). cbn [mbind option_bind].
  destruct o as [o|]; [by exists (Some o), s2|]. exists (default_cos c), s2. split_and!; [done|done|]. by destruct Hc as (_ & _ & _ & ? & _).
Qed.

(** C28: configuration and classification are safe.  From start-up, for every
    sequence of configuration calls with any handles, in which no offset of a
    rule on a custom field is within eight of 2^32 (see [match_ok] and
    [custom_frame_wraps]) and the last input queue of an interface is its number 0,
    as configuration leaves it (see [default_cos_outside]), every
    call returns and the tables stay well formed: every stored pointer leads to
    an entry of its table and no list of rules or terms exceeds its room.  In
    every such state in which the links between classes lead back to no class,
    classifying a packet whose headers are in memory returns, follows the links
    to their end without a bad access, and changes nothing but the counters of
    the rules. *)
Theorem classifier_safe (os : list cls_op) :
  Forall op_ok os ->
  exists rs s, run os cls_start = Some (rs, s) /\ wf s /\
    (acyclic s -> forall m pkt_addr p n e q, pkt_fits m pkt_addr p n -> 0 <= e < 64 -> 0 <= q < 17 ->
       exists o s', select_parsed m pkt_addr e q p s = Some (o, s') /\ same_rules s s' /\ opt_ok o).
Proof.
  intros Hok. destruct (run_wf os cls_start start_wf Hok) as (rs & s & Hrun & Hwf). exists rs, s. split_and!; [done|done|].
  intros. by eapply select_total.
Qed.

(** ** What a rule means *)

(** The value of the field a rule names, for a packet that has the field, as
    classification.h lists the fields.  No field is given for the marker of inner
    headers and for the three fields behind headers that the parser does not keep
    the place of (inner tags and tunnels); [regular] leaves them out. *)
Definition field (m : mem) (a : Z) (p : packet_hdr) (mt : odp_pmr_match_t) : option Z :=
  match mt_term mt with
  | ODP_PMR_LEN => Some (frame_len p)
  | ODP_PMR_ETHTYPE_0 => if get_in F_eth p then be16 m (a + l2_offset p + 12) else None
  | ODP_PMR_VLAN_ID_0 => if get_in F_vlan p then (fun tag => Z.land tag 0xfff) <$> be16 m (a + l2_offset p + 14) else None
  | ODP_PMR_DMAC => if get_in F_eth p then be_value 0 <$> ld 6 m (a + l2_offset p) else None
  | ODP_PMR_IPPROTO =>
      if get_in F_ipv4 p then m !! (a + l3_offset p + 9)
      else if get_in F_ipv6 p then m !! (a + l3_offset p + 6) else None
  | ODP_PMR_SIP_ADDR => if get_in F_ipv4 p then be32 m (a + l3_offset p + 12) else None
  | ODP_PMR_DIP_ADDR => if get_in F_ipv4 p then be32 m (a + l3_offset p + 16) else None
  | ODP_PMR_SIP6_ADDR => if get_in F_ipv6 p then be_value 0 <$> ld 16 m (a + l3_offset p + 8) else None
  | ODP_PMR_DIP6_ADDR => if get_in F_ipv6 p then be_value 0 <$> ld 16 m (a + l3_offset p + 24) else None
  | ODP_PMR_UDP_SPORT => if get_in F_udp p then be16 m (a + l4_offset p) else None
  | ODP_PMR_UDP_DPORT => if get_in F_udp p then be16 m (a + l4_offset p + 2) else None
  | ODP_PMR_TCP_SPORT => if get_in F_tcp p then be16 m (a + l4_offset p) else None
  | ODP_PMR_TCP_DPORT => if get_in F_tcp p then be16 m (a + l4_offset p + 2) else None
  | ODP_PMR_IPSEC_SPI =>
      if get_in F_ipsec p then
        if l4_protocol p =? ODPH_IPPROTO_AH then be32 m (a + l4_offset p + 4)
        else if l4_protocol p =? ODPH_IPPROTO_ESP then be32 m (a + l4_offset p) else None
      else None
  | ODP_PMR_CUSTOM_FRAME =>
      if mt_offset mt + mt_val_sz mt <=? frame_len p then le m (a + mt_offset mt) (mt_val_sz mt) else None
  | ODP_PMR_ETHTYPE_X | ODP_PMR_VLAN_ID_X | ODP_PMR_LD_VNI | ODP_PMR_INNER_HDR_OFF => None
  end.

(** The field agrees with the value of the rule in every bit of the mask. *)
Definition holds (m : mem) (a : Z) (p : packet_hdr) (mt : odp_pmr_match_t) : Prop :=
  exists f v k, field m a p mt = Some f /\ le_bytes (mt_val_sz mt) (mt_val mt) = Some v /\
    le_bytes (mt_val_sz mt) (mt_mask mt) = Some k /\ forall i, 0 <= i -> Z.testbit k i = true -> Z.testbit v i = Z.testbit f i.

(** Rules and packets for which the code does what the field says.  It does not
    for a field that ends with the packet, for a destination address that reads
    the same backwards behind two zero bytes, for the next header of IPv6, for
    the terms that are accepted and not implemented, and for the marker of inner
    headers, which is no field. *)
Definition regular (m : mem) (a : Z) (p : packet_hdr) (mt : odp_pmr_match_t) : Prop :=
  match mt_term mt with
  | ODP_PMR_DMAC => forall x y, ld 6 m (a + l2_offset p) <> Some [0; 0; x; y; y; x]
  | ODP_PMR_CUSTOM_FRAME => mt_offset mt + mt_val_sz mt <> frame_len p
  | ODP_PMR_IPPROTO => get_in F_ipv4 p = true \/ get_in F_ipv6 p = false
  | ODP_PMR_ETHTYPE_0 | ODP_PMR_ETHTYPE_X | ODP_PMR_VLAN_ID_0 | ODP_PMR_VLAN_ID_X | ODP_PMR_SIP6_ADDR | ODP_PMR_DIP6_ADDR
  | ODP_PMR_LD_VNI | ODP_PMR_INNER_HDR_OFF => False
  | _ => True
  end.

Lemma agrees_bits t v k o n f :
  agrees (TV t (v & k) k o n) f = true <-> forall i, 0 <= i -> Z.testbit k i = true -> Z.testbit v i = Z.testbit f i.
Proof.
  unfold agrees. simpl. rewrite Z.eqb_eq. split.
  - intros H i Hi Hk. apply (f_equal (fun z => Z.testbit z i)) in H. rewrite !Z.land_spec, Hk, !andb_true_r in H. done.
  - intros H. apply Z.bits_inj'. intros i Hi. rewrite !Z.land_spec. destruct (Z.testbit k i) eqn:E; [|by rewrite !andb_false_r].
    by rewrite (H i Hi E).
Qed.

Lemma bytes_of_le l n : Forall (fun b => 0 <= b < 256) l -> bytes_of (length l + n) (le_value l) = l ++ replicate n 0.
Proof.
  induction 1 as [|b l Hb Hl IH]; simpl.
  - induction n as [|n IH]; cbn [bytes_of replicate]; [done|]. change (0 mod 256) with 0. change (0 / 256) with 0. by rewrite IH.
  - replace ((b + 256 * le_value l) mod 256) with b by (Z.div_mod_to_equations; lia).
    replace ((b + 256 * le_value l) / 256) with (le_value l) by (Z.div_mod_to_equations; lia). by rewrite IH.
Qed.

(** The conversion of a hardware address. *)
Lemma dmac_value b0 b1 b2 b3 b4 b5 :
  Forall (fun b => 0 <= b < 256) [b0; b1; b2; b3; b4; b5] -> (forall x y, [b0; b1; b2; b3; b4; b5] <> [0; 0; x; y; y; x]) ->
  let dmac_be := le_value [b0; b1; b2; b3; b4; b5] in
  let dmac := odp_be_to_cpu_64 dmac_be in
  (if negb (dmac_be =? dmac) then Z.shiftr dmac 16 else dmac) = be_value 0 [b0; b1; b2; b3; b4; b5].
Proof.
  intros Hb Hnp. cbv zeta. unfold odp_be_to_cpu_64.
  assert (bytes_of 8 (le_value [b0; b1; b2; b3; b4; b5]) = [b0; b1; b2; b3; b4; b5; 0; 0]) as ->.
  { by apply (bytes_of_le [b0; b1; b2; b3; b4; b5] 2). }
  repeat (apply Forall_cons in Hb as [? Hb]).
  cbn [be_value le_value]. rewrite (proj2 (Z.eqb_neq _ _)).
  - cbn [negb]. rewrite Z.shiftr_div_pow2 by lia. change (2 ^ 16) with 65536. Z.div_mod_to_equations. lia.
  - intros He. assert (b0 = 0 /\ b1 = 0 /\ b2 = b5 /\ b3 = b4) as (-> & -> & -> & ->) by lia. by apply (Hnp b5 b4).
Qed.

(** A created term compares the field of its rule. *)
Lemma verify_field m a p n mt v k :
  pkt_fits m a p n -> match_ok mt -> mt_val_sz mt <= 8 -> regular m a p mt ->
  verify_term m a p (TV (mt_term mt) (v & k) k (mt_offset mt) (mt_val_sz mt)) =
    Some (match field m a p mt with
          | Some f => agrees (TV (mt_term mt) (v & k) k (mt_offset mt) (mt_val_sz mt)) f
          | None => false
          end).
Proof.
  intros Hf (Hsz & _ & _ & Hoff) H8 Hreg. set (tv := TV _ _ _ _ _).
  assert (term_ok tv) as Htv by (split; simpl; lia). destruct (verify_term_total m a p n tv Hf Htv) as [b Hb].
  unfold verify_term, field, regular, tv in *. cbn [tv_term] in *. destruct (mt_term mt); try done.
  - unfold verify_pmr_dmac in *. destruct (get_in F_eth p); [|done]. cbn [negb] in *. destruct Hf as [Hm _ [H0 H16] _ _].
    destruct (ld_fits m a n 6 (a + l2_offset p) Hm) as (l & Hl & Hlen & Hbs); [lia..|]. unfold le. rewrite Hl in Hreg |- *.
    change (Z.to_nat 6) with 6%nat. rewrite Hl. do 6 (destruct l as [|? l]; [done|]). destruct l; [|done].
    cbn [fmap option_fmap option_map mbind option_bind]. by rewrite dmac_value by (done || congruence).
  - unfold verify_pmr_ip_proto in *. destruct (get_in F_ipv4 p); cbn [negb] in *; [by destruct (m !! _)|].
    by destruct Hreg as [?| ->].
  - unfold verify_pmr_udp_dport in *. destruct (get_in F_udp p); [|done]. cbn [negb] in *. by destruct (be16 _ _).
  - unfold verify_pmr_tcp_dport in *. destruct (get_in F_tcp p); [|done]. cbn [negb] in *. by destruct (be16 _ _).
  - unfold verify_pmr_udp_sport in *. destruct (get_in F_udp p); [|done]. cbn [negb] in *. by destruct (be16 _ _).
  - unfold verify_pmr_tcp_sport in *. destruct (get_in F_tcp p); [|done]. cbn [negb] in *. by destruct (be16 _ _).
  - unfold verify_pmr_ipv4_saddr in *. destruct (get_in F_ipv4 p); [|done]. cbn [negb] in *. by destruct (be32 _ _).
  - unfold verify_pmr_ipv4_daddr in *. destruct (get_in F_ipv4 p); [|done]. cbn [negb] in *. by destruct (be32 _ _).
  - unfold verify_pmr_ipsec_spi in *. destruct (get_in F_ipsec p); [|done]. cbn [negb] in *. cbv zeta in *.
    destruct (l4_protocol p =? ODPH_IPPROTO_AH); [by destruct (be32 _ _)|]. destruct (_ =? _); [|done]. by destruct (be32 _ _).
  - unfold verify_pmr_custom_frame in *. cbn [tv_val_sz tv_offset] in *.
    rewrite Z.gtb_ltb, (proj2 (Z.ltb_ge _ _)) in * by (unfold ODP_PMR_TERM_BYTES_MAX; lia).
    rewrite u32_small in * by (unfold is_u32; lia).
    destruct (mt_offset mt + mt_val_sz mt <=? frame_len p) eqn:E; destruct (frame_len p <=? mt_offset mt + mt_val_sz mt) eqn:E2; zbool; try lia; try done.
    by destruct (le _ _ _).
Qed.

Lemma verify_holds m a p n mt tv :
  pkt_fits m a p n -> match_ok mt -> mt_val_sz mt <= 8 -> regular m a p mt -> odp_pmr_create_term mt = Some tv ->
  exists b, verify_term m a p tv = Some b /\ (b = true <-> holds m a p mt).
Proof.
  intros Hf Hm H8 Hreg Htv. destruct (create_term_ok mt Hm H8) as (v & k & Hv & Hk & Ht & _). rewrite Ht in Htv. injection Htv as <-.
  rewrite (verify_field m a p n) by done. eexists. split; [done|]. unfold holds. destruct (field m a p mt) as [f|].
  - rewrite agrees_bits. split; [|naive_solver]. intros H. by exists f, v, k.
  - naive_solver.
Qed.

End ClassifyProofs.
