(* ===== verification/ClassifySpec.v ===== *)
(** Classification: the first attached rule that holds decides, from the calls
    that set up an interface to the class of a packet; and the places where the
    code does not do what it is meant to. *)

From S2P Require Import Prelude Pool PoolProofs PoolCreate Buffer Packet Parse Classify ClassifyProofs.

Open Scope Z_scope.
Open Scope c_scope.

Module ClassifySpec.
Import Pool Buffer Packet Parse Classify ClassifyProofs.

(** ** Setting up an interface *)

(** For each rule a class of its own. *)
Fixpoint add_rules (io : Z) (rules : list (odp_pmr_match_t * odp_cls_cos_param_t)) (s : cls_state) : option cls_state :=
  match rules with
  | [] => Some s
  | (mt, par) :: rules =>
      let '(c, s) := odp_cls_cos_create "" par s in
      '(r, s) ← odp_pmr_create mt s;
      '(ret, s) ← odp_pktio_pmr_cos r io c s;
      if ret =? 0 then add_rules io rules s else None
  end.

(** Start-up, a default class, and the rules. *)
Definition configure (io : Z) (dflt : odp_cls_cos_param_t) (rules : list (odp_pmr_match_t * odp_cls_cos_param_t)) : option cls_state :=
  s ← snd (odp_classification_init_global true true true (replicate 64 zero_pktio));
  let '(d, s) := odp_cls_cos_create "" dflt s in
  '(ret, s) ← odp_pktio_default_cos_set io d s;
  if ret =? 0 then add_rules io rules s else None.

(** ** The tables after that *)

Definition new_cos (par : odp_cls_cos_param_t) : cos_s := Cos (to_queue (par_queue par)) (to_pool (par_pool par)) None None true (par_drop par) 0 0 "".
Definition new_pmr (tv : pmr_term_value_t) : pmr_s := Pmr true 0 1 [tv].

(** Classifier 0 with [j] rules. *)
Definition new_cls (j : nat) : classifier_t :=
  Cls (Z.of_nat j) (((fun k => Some (PMR k)) <$> seqZ 0 (Z.of_nat j)) ++ replicate (8 - j) None)
    (((fun k => Some (k + 1)) <$> seqZ 0 (Z.of_nat j)) ++ replicate (8 - j) None) None (Some 0) 0 (replicate 8 None) (replicate 64 None) 0 0 0.
Definition new_port (j : nat) : pktio_entry := PE (new_cls j :: replicate 16 zero_cls) 1 0.

Definition configured (io : Z) (dflt : odp_cls_cos_param_t) (pars : list odp_cls_cos_param_t) (tvs : list pmr_term_value_t) (j : nat) : cls_state :=
  CS ((new_cos <$> dflt :: pars) ++ replicate (63 - length pars) zero_cos)
     ((new_pmr <$> tvs) ++ replicate (64 - length tvs) (zero_pmr 1)) (replicate 64 (zero_pmr 8))
     (<[Z.to_nat (io - 1) := new_port j]> (replicate 64 zero_pktio)).

(** A table whose first entries are in use. *)
Lemma first_free_prefix {A B} (f : A -> B) (valid : B -> bool) (xs : list A) (z : B) n i :
  (forall x, valid (f x) = true) -> valid z = false -> first_free valid i ((f <$> xs) ++ replicate (S n) z) = Some (i + zlen xs).
Proof.
  intros Hf Hz. revert i. induction xs as [|x xs IH]; intros i; simpl.
  - rewrite Hz. unfold zlen. simpl. f_equal. lia.
  - rewrite Hf. simpl. rewrite IH. unfold zlen. simpl. f_equal. lia.
Qed.

Lemma alter_prefix {A B} (f : A -> B) g (xs : list A) (x : A) (z : B) n :
  g z = f x -> alter g (length xs) ((f <$> xs) ++ replicate (S n) z) = (f <$> xs ++ [x]) ++ replicate n z.
Proof.
  intros Hg. rewrite <- (Nat.add_0_r (length xs)), <- (length_fmap f xs) at 1. rewrite alter_app_r. simpl. rewrite Hg.
  by rewrite fmap_app, <- app_assoc.
Qed.

Section configure.
Context (io : Z) (dflt : odp_cls_cos_param_t).
Hypothesis (Hio : 1 <= io <= 64).

Lemma create_cos_configured pars tvs j par :
  (length pars < 63)%nat ->
  odp_cls_cos_create "" par (configured io dflt pars tvs j) = (zlen pars + 1, configured io dflt (pars ++ [par]) tvs j).
Proof.
  intros Hl. unfold odp_cls_cos_create, configured. cbn [cos_tbl]. replace (63 - length pars)%nat with (S (62 - length pars)) by lia.
  rewrite (first_free_prefix new_cos cos_valid (dflt :: pars)) by done. f_equal; [unfold zlen; simpl; lia|].
  unfold upd_cos, set_cos_tbl. cbn [cos_tbl pmr_tbl pmr_set_tbl pktio_tbl]. f_equal.
  replace (Z.to_nat (0 + zlen (dflt :: pars))) with (length (dflt :: pars)) by (unfold zlen; lia).
  rewrite (alter_prefix new_cos _ (dflt :: pars) par) by done. f_equal. f_equal. rewrite length_app. simpl. lia.
Qed.

Lemma create_pmr_configured pars tvs j mt tv :
  (length tvs < 64)%nat -> mt_val_sz mt <= 8 -> odp_pmr_create_term mt = Some tv ->
  odp_pmr_create mt (configured io dflt pars tvs j) = Some (zlen tvs, configured io dflt pars (tvs ++ [tv]) j).
Proof.
  intros Hl H8 Htv. unfold odp_pmr_create. rewrite Z.gtb_ltb, (proj2 (Z.ltb_ge _ _)) by (unfold ODP_PMR_TERM_BYTES_MAX; lia).
  unfold alloc_pmr, configured. cbn [pmr_tbl]. replace (64 - length tvs)%nat with (S (63 - length tvs)) by lia.
  rewrite (first_free_prefix new_pmr pmr_valid tvs) by done. cbn [mbind option_bind]. rewrite Htv. cbn [mbind option_bind].
  rewrite Z.add_0_l. do 2 f_equal. unfold upd_pmr, set_pmr_tbl. cbn [cos_tbl pmr_tbl pmr_set_tbl pktio_tbl]. f_equal.
  unfold zlen. rewrite Nat2Z.id, list_alter_alter_eq. rewrite (alter_prefix new_pmr _ tvs tv) by done.
  f_equal. f_equal. rewrite length_app. simpl. lia.
Qed.

Lemma port_configured pars tvs j : zget (pktio_tbl (configured io dflt pars tvs j)) (io - 1) = Some (new_port j).
Proof. unfold configured. cbn [pktio_tbl]. rewrite zget_insert by (unfold zlen; rewrite length_replicate; lia). by rewrite bool_decide_eq_true_2. Qed.

Lemma get_port_configured pars tvs j : get_pktio_entry io (configured io dflt pars tvs j) = Some (io - 1).
Proof.
  unfold get_pktio_entry. rewrite (proj2 (Z.eqb_neq io 0)), Z.gtb_ltb, (proj2 (Z.ltb_ge _ _)) by (unfold ODP_CONFIG_PKTIO_ENTRIES; lia).
  by rewrite port_configured.
Qed.

Lemma get_cos_configured pars tvs j i :
  0 <= i <= zlen pars -> (length pars < 64)%nat -> get_cos_entry i (configured io dflt pars tvs j) = Some i.
Proof.
  intros Hi Hl. unfold zlen in Hi. unfold get_cos_entry. rewrite Z.geb_leb, (proj2 (Z.leb_gt _ _)), (proj2 (Z.eqb_neq _ _)) by
    (unfold ODP_COS_MAX_ENTRY, ODP_COS_INVALID; lia). cbn [orb]. unfold configured. cbn [cos_tbl].
  rewrite zget_nonneg by lia. rewrite lookup_app_l by (rewrite length_fmap; simpl; lia). rewrite list_lookup_fmap.
  destruct ((dflt :: pars) !! Z.to_nat i) as [x|] eqn:E; [done|]. apply lookup_ge_None in E. simpl in E. lia.
Qed.

Lemma get_pmr_configured pars tvs j i :
  0 <= i < zlen tvs -> (length tvs <= 64)%nat -> get_pmr_entry i (configured io dflt pars tvs j) = Some (PMR i).
Proof.
  intros Hi Hl. unfold zlen in Hi. unfold get_pmr_entry. rewrite Z.geb_leb, (proj2 (Z.leb_gt _ _)), (proj2 (Z.eqb_neq _ _)) by
    (unfold ODP_PMR_MAX_ENTRY, ODP_PMR_INVAL; lia). cbn [orb]. unfold configured. cbn [pmr_tbl].
  rewrite zget_nonneg by lia. rewrite lookup_app_l by (rewrite length_fmap; lia). rewrite list_lookup_fmap.
  destruct (tvs !! Z.to_nat i) as [x|] eqn:E; [done|]. apply lookup_ge_None in E. lia.
Qed.

Lemma add_rule_new_cls j : (j < 8)%nat -> add_rule (PMR (Z.of_nat j)) (Z.of_nat j + 1) (new_cls j) = new_cls (S j).
Proof.
  intros Hj. do 8 (destruct j as [|j]; [done|]). lia.
Qed.

(** A changed classifier 0 of the interface, and enabling it again. *)
Lemma upd_cls_configured pars tvs j f j' :
  f (new_cls j) = new_cls j' -> upd_cls (io - 1) 0 f (configured io dflt pars tvs j) = Some (configured io dflt pars tvs j').
Proof.
  intros Hf. unfold upd_cls. rewrite port_configured. cbn [mbind option_bind]. change (zget (cls (new_port j)) 0) with (Some (new_cls j)).
  cbn [mbind option_bind]. rewrite Hf. change (zset (cls (new_port j)) 0 (new_cls j')) with (Some (cls (new_port j'))).
  cbn [mbind option_bind]. unfold configured. cbn [pktio_tbl]. rewrite zset_Some by (unfold zlen; rewrite length_insert, length_replicate; lia).
  cbn [mbind option_bind]. unfold set_pktio_tbl. cbn [cos_tbl pmr_tbl pmr_set_tbl]. by rewrite list_insert_insert_eq.
Qed.

Lemma enable_configured pars tvs j : pktio_cls_enabled_set (io - 1) 0 (configured io dflt pars tvs j) = Some (configured io dflt pars tvs j).
Proof.
  unfold pktio_cls_enabled_set. rewrite port_configured. cbn [mbind option_bind]. unfold configured. cbn [pktio_tbl].
  rewrite zset_Some by (unfold zlen; rewrite length_insert, length_replicate; lia). cbn [mbind option_bind]. unfold set_pktio_tbl.
  cbn [cos_tbl pmr_tbl pmr_set_tbl]. by rewrite list_insert_insert_eq.
Qed.

Lemma attach_configured pars tvs j :
  (j < 8)%nat -> attach (io - 1) 0 (PMR (Z.of_nat j)) (Z.of_nat j + 1) (configured io dflt pars tvs j) = Some (0, configured io dflt pars tvs (S j)).
Proof.
  intros Hj. unfold attach, cls_at. rewrite port_configured. cbn [mbind option_bind]. change (zget (cls (new_port j)) 0) with (Some (new_cls j)).
  cbn [mbind option_bind]. change (cls_num_pmr (new_cls j)) with (Z.of_nat j). rewrite u8_small by (unfold is_u8; lia).
  rewrite Z.geb_leb, (proj2 (Z.leb_gt _ _)) by (unfold ODP_PKTIO_MAX_PMR; lia).
  rewrite (upd_cls_configured _ _ _ _ (S j)) by (by apply add_rule_new_cls). cbn [mbind option_bind].
  rewrite enable_configured. done.
Qed.

Lemma add_rules_configured rules pars tvs :
  length pars = length tvs -> (length tvs + length rules <= 8)%nat ->
  Forall (fun r => match_ok (fst r) /\ mt_val_sz (fst r) <= 8) rules ->
  exists tvs', Forall2 (fun r tv => odp_pmr_create_term (fst r) = Some tv) rules tvs' /\
    add_rules io rules (configured io dflt pars tvs (length tvs)) =
      Some (configured io dflt (pars ++ (snd <$> rules)) (tvs ++ tvs') (length (tvs ++ tvs'))).
Proof.
  revert pars tvs. induction rules as [|[mt par] rules IH]; intros pars tvs Hl H8 Hok; cbn [add_rules].
  - exists []. split; [done|]. by rewrite !app_nil_r.
  - apply Forall_cons in Hok as [[Hm Hsz] Hok]. simpl in Hm, Hsz, H8.
    destruct (create_term_ok mt Hm Hsz) as (v & k & _ & _ & Htv & _). set (tv := TV _ _ _ _ _) in Htv.
    rewrite create_cos_configured by lia. rewrite (create_pmr_configured _ _ _ _ tv) by (done || lia). cbn [mbind option_bind].
    unfold odp_pktio_pmr_cos. rewrite get_port_configured.
    rewrite get_pmr_configured by (unfold zlen; rewrite length_app; simpl; lia).
    rewrite get_cos_configured by (unfold zlen; rewrite length_app; simpl; lia).
    unfold zlen. rewrite Hl. rewrite attach_configured by lia. cbn [mbind option_bind]. rewrite Z.eqb_refl.
    destruct (IH (pars ++ [par]) (tvs ++ [tv])) as (tvs' & Hf & Hr); [rewrite !length_app; simpl; lia|rewrite length_app; simpl; lia|done|].
    exists (tv :: tvs'). split; [by constructor|]. rewrite length_app in Hr. simpl in Hr. rewrite Nat.add_1_r in Hr. rewrite Hr.
    by rewrite <- !app_assoc.
Qed.

Lemma default_cos_start :
  odp_pktio_default_cos_set io 0 (upd_cos 0 (fun _ => new_cos dflt) cls_start) = Some (0, configured io dflt [] [] 0).
Proof.
  set (s := upd_cos _ _ _). assert (zget (pktio_tbl s) (io - 1) = Some zero_pktio) as Hz.
  { unfold s, upd_cos, set_cos_tbl, cls_start. cbn [pktio_tbl]. rewrite zget_nonneg by lia. apply lookup_replicate. split; [done|lia]. }
  assert (length (pktio_tbl s) = 64%nat) as Hl by done.
  unfold odp_pktio_default_cos_set, get_pktio_entry.
  rewrite (proj2 (Z.eqb_neq io 0)), Z.gtb_ltb, (proj2 (Z.ltb_ge _ _)), Hz by (unfold ODP_CONFIG_PKTIO_ENTRIES; lia).
  cbn [mbind option_bind]. change (get_cos_entry 0 s) with (Some 0). unfold upd_cls. rewrite Hz. cbn [mbind option_bind].
  change (zget (cls zero_pktio) (last_index zero_pktio)) with (Some zero_cls). cbn [mbind option_bind].
  change (zset (cls zero_pktio) (last_index zero_pktio) (set_default (Some 0) zero_cls)) with (Some (cls (new_port 0))).
  cbn [mbind option_bind]. rewrite zset_Some by (unfold zlen; lia). cbn [mbind option_bind].
  unfold pktio_cls_enabled_set. cbn [pktio_tbl set_pktio_tbl]. rewrite zget_insert by (unfold zlen; lia).
  rewrite bool_decide_eq_true_2 by done. cbn [mbind option_bind]. rewrite zset_Some by (unfold zlen; rewrite length_insert; lia).
  cbn [mbind option_bind]. by rewrite list_insert_insert_eq.
Qed.

Lemma configure_configured rules :
  (length rules <= 8)%nat -> Forall (fun r => match_ok (fst r) /\ mt_val_sz (fst r) <= 8) rules ->
  exists tvs, Forall2 (fun r tv => odp_pmr_create_term (fst r) = Some tv) rules tvs /\
    configure io dflt rules = Some (configured io dflt (snd <$> rules) tvs (length tvs)).
Proof.
  intros H8 Hok. destruct (add_rules_configured rules [] []) as (tvs & Hf & Hr); [done|done|done|]. exists tvs. split; [done|].
  cbn [app] in Hr. rewrite <- Hr.
  change (configure io dflt rules) with
    (let '(d, s) := odp_cls_cos_create "" dflt cls_start in
     '(ret, s) ← odp_pktio_default_cos_set io d s; if ret =? 0 then add_rules io rules s else None).
  change (odp_cls_cos_create "" dflt cls_start) with (0, upd_cos 0 (fun _ => new_cos dflt) cls_start). cbv iota beta.
  rewrite default_cos_start. done.
Qed.

End configure.

(** ** Classifying with these tables *)

Lemma new_cls_ok j : (j <= 8)%nat -> cls_ok (new_cls j).
Proof.
  intros Hj. unfold cls_ok, new_cls. cbn [cls_num_pmr cls_pmr cls_cos default_cos l2_cos_table l3_cos_table].
  rewrite !length_app, !length_fmap, !length_seqZ, !length_replicate, !Forall_app, !Forall_fmap.
  split_and!; try lia; try (by apply Forall_replicate); try done; apply Forall_forall; intros k Hk%elem_of_seqZ; simpl; lia.
Qed.

Lemma configured_wf io dflt pars tvs :
  1 <= io <= 64 -> length pars = length tvs -> (length tvs <= 8)%nat -> Forall term_ok tvs -> wf (configured io dflt pars tvs (length tvs)).
Proof.
  intros Hio Hl H8 Ht. destruct start_wf as [_ _ Hset [Hlp Hp]].
  split; unfold configured; cbn [cos_tbl pmr_tbl pmr_set_tbl pktio_tbl]; [| |done|].
  - rewrite length_app, length_fmap, length_replicate. split; [simpl; lia|]. apply Forall_app. split; [by apply Forall_fmap, Forall_true|by apply Forall_replicate].
  - rewrite length_app, length_fmap, length_replicate. split; [lia|]. apply Forall_app. split; [|apply Forall_replicate, zero_pmr_ok].
    apply Forall_fmap. eapply Forall_impl; [exact Ht|]. intros tv Htv. split_and!; [done|by vm_compute|by constructor].
  - rewrite length_insert, length_replicate. split; [done|]. apply Forall_insert; [done|].
    split_and!; simpl; [done| |lia|lia]. constructor; [by apply new_cls_ok|]. apply (Forall_replicate _ 16), zero_cls_ok.
Qed.

Fixpoint first_true (i : Z) (bs : list bool) : option Z :=
  match bs with [] => None | b :: bs => if b then Some i else first_true (i + 1) bs end.

Lemma follow_end (next : Z -> option Z) k i : next i = None -> follow next (S k) i = Some i.
Proof. intros H. cbn [follow]. by rewrite H. Qed.

Section classify.
Context (io : Z) (dflt : odp_cls_cos_param_t) (pars : list odp_cls_cos_param_t) (tvs : list pmr_term_value_t).
Context (m : mem) (a : Z) (p : packet_hdr) (n : Z) (bs : list bool).
Hypothesis (Hio : 1 <= io <= 64) (Hl : length pars = length tvs) (H8 : (length tvs <= 8)%nat) (Ht : Forall term_ok tvs).
Hypothesis (Hf : pkt_fits m a p n) (Hbs : Forall2 (fun tv b => verify_term m a p tv = Some b) tvs bs).
Abbreviation s0 := (configured io dflt pars tvs (length tvs)).

Lemma cos_configured i : 0 <= i <= zlen pars -> exists par, zget (cos_tbl s0) i = Some (new_cos par) /\ (dflt :: pars) !! Z.to_nat i = Some par.
Proof.
  intros Hi. unfold zlen in Hi. unfold configured. cbn [cos_tbl]. rewrite zget_nonneg by lia. rewrite lookup_app_l by (rewrite length_fmap; simpl; lia).
  rewrite list_lookup_fmap. destruct ((dflt :: pars) !! Z.to_nat i) as [x|] eqn:E; [by exists x|]. apply lookup_ge_None in E. simpl in E. lia.
Qed.

Lemma rule_configured k b : 0 <= k -> bs !! Z.to_nat k = Some b -> rule_matches m a p s0 (PMR k) = Some b.
Proof.
  intros Hk Hb. destruct (Forall2_lookup_r _ _ _ _ _ Hbs Hb) as (tv & Htv & Hv). unfold rule_matches, pmr_at, configured. cbn [pmr_tbl].
  rewrite zget_nonneg by lia. rewrite lookup_app_l by (rewrite length_fmap; by eapply lookup_lt_Some). rewrite list_lookup_fmap, Htv.
  cbn [fmap option_fmap option_map mbind option_bind new_pmr pmr_valid negb num_pmr pmr_terms].
  change (Z.to_nat (s32 1)) with 1%nat. cbn [verify_loop]. change (zget [tv] 0) with (Some tv). cbn [mbind option_bind]. rewrite Hv.
  by destruct b.
Qed.

Lemma match_configured s k (b : bool) :
  same_rules s0 s -> 0 <= k -> bs !! Z.to_nat k = Some b ->
  exists s', match_pmr_cos m a chain_fuel (Some (k + 1)) (Some (PMR k)) p s = Some (if b then Some (k + 1) else None, s') /\ same_rules s0 s'.
Proof.
  intros Hs Hk Hb. assert (Z.to_nat k < length tvs)%nat as Hlt.
  { rewrite (Forall2_length _ _ _ Hbs). by eapply lookup_lt_Some. }
  pose proof (configured_wf io dflt pars tvs Hio Hl H8 Ht) as Hwf0. pose proof (same_rules_wf _ _ Hs Hwf0) as Hwf.
  destruct (cos_configured (k + 1)) as (par & Hc & _); [unfold zlen; lia|].
  assert (zget (cos_tbl s) (k + 1) = Some (new_cos par)) as Hc' by (destruct Hs as (-> & _); done).
  pose proof (match_pmr_cos_follow m a p n 65 s (Some (k + 1)) (Some (PMR k)) Hf Hwf) as H.
  unfold entered in H. cbn [mbind option_bind] in H. rewrite Hc' in H. cbn [mbind option_bind new_cos cos_valid] in H.
  rewrite (rule_matches_same _ _ _ _ _ _ Hs), (rule_configured k b Hk Hb) in H.
  destruct b; [rewrite (follow_end _ 64) in H by (unfold next_cos; by rewrite Hc')|]; destruct H as (s' & Hm & Hs'); try (simpl; lia); (exists s'; split; [exact Hm|by etrans]).
Qed.

Lemma rules_configured s k i :
  same_rules s0 s -> (i + k = length tvs)%nat ->
  exists s', match_rules m a k (Z.of_nat i) (new_cls (length tvs)) p s = Some (first_true (Z.of_nat i + 1) (drop i bs), s') /\ same_rules s0 s'.
Proof.
  pose proof (Forall2_length _ _ _ Hbs) as Hlb. revert s i. induction k as [|k IH]; intros s i Hs Hk; cbn [match_rules].
  - exists s. split; [|done]. by rewrite drop_ge by lia.
  - destruct (lookup_lt_is_Some_2 bs i) as [b Hb]; [lia|].
    assert (zget (cls_pmr (new_cls (length tvs))) (Z.of_nat i) = Some (Some (PMR (Z.of_nat i)))) as ->.
    { rewrite zget_of_nat. unfold new_cls. cbn [cls_pmr]. rewrite lookup_app_l by (rewrite length_fmap, length_seqZ; lia).
      rewrite list_lookup_fmap, lookup_seqZ_lt by lia. simpl. by rewrite Z.add_0_l. }
    assert (zget (cls_cos (new_cls (length tvs))) (Z.of_nat i) = Some (Some (Z.of_nat i + 1))) as ->.
    { rewrite zget_of_nat. unfold new_cls. cbn [cls_cos]. rewrite lookup_app_l by (rewrite length_fmap, length_seqZ; lia).
      rewrite list_lookup_fmap, lookup_seqZ_lt by lia. simpl. by rewrite Z.add_0_l. }
    cbn [mbind option_bind]. destruct (match_configured s (Z.of_nat i) b Hs) as (s1 & -> & Hs1); [lia|by rewrite Nat2Z.id|].
    cbn [mbind option_bind]. rewrite (drop_S bs b i) by done. cbn [first_true]. destruct b; [by exists s1|].
    destruct (IH s1 (S i) Hs1) as (s2 & Hm & Hs2); [lia|]. exists s2. split; [|done].
    replace (Z.of_nat i + 1) with (Z.of_nat (S i)) by lia. exact Hm.
Qed.

Lemma qos_configured s o : same_rules s0 s -> match_qos_cos m a (io - 1) p s = Some o -> o = None.
Proof.
  intros (_ & Hp & _). unfold match_qos_cos, cls_at. rewrite Hp, port_configured by done. cbn [mbind option_bind].
  change (zget (cls (new_port (length tvs))) 0) with (Some (new_cls (length tvs))). cbn [mbind option_bind].
  assert (forall (k i : Z) (o : option Z), zget (replicate (Z.to_nat k) None) i = Some o -> o = None) as Hr.
  { intros k i x. unfold zget. case_bool_decide; [|done]. by intros [-> _]%lookup_replicate. }
  change (l3_precedence (new_cls (length tvs)) =? 0) with true. cbn [negb].
  change (l2_cos_table (new_cls (length tvs))) with (replicate (Z.to_nat 8) (@None Z)).
  change (l3_cos_table (new_cls (length tvs))) with (replicate (Z.to_nat 64) (@None Z)).
  assert (forall x, match_qos_l2_cos m a (replicate (Z.to_nat 8) None) p = Some x -> x = None) as H2.
  { intros x. unfold match_qos_l2_cos. destruct (_ && _); [|by intros [= <-]]. destruct (be16 _ _); [|done]. cbn [mbind option_bind]. apply Hr. }
  assert (forall x, match_qos_l3_cos m a (replicate (Z.to_nat 64) None) p = Some x -> x = None) as H3.
  { intros x. unfold match_qos_l3_cos. destruct (_ && _); [destruct (m !! _); [|done]; cbn [mbind option_bind]; apply Hr|].
    destruct (_ && _); [|by intros [= <-]]. destruct (le _ _ _); [|done]. cbn [mbind option_bind]. apply Hr. }
  destruct (match_qos_l2_cos _ _ _ _) as [x|]; [|done]. cbn [mbind option_bind]. rewrite (H2 x eq_refl). apply H3.
Qed.

Lemma select_configured :
  error_flags p = 0 -> exists s', select_parsed m a (io - 1) 0 p s0 = Some (Some (default 0 (first_true 1 bs)), s').
Proof.
  intros He. assert (cls_at (io - 1) GLOBAL_CLS_ID s0 = Some zero_cls) as Hg by (unfold cls_at; by rewrite port_configured by done).
  assert (cls_at (io - 1) 0 s0 = Some (new_cls (length tvs))) as H0 by (unfold cls_at; by rewrite port_configured by done).
  unfold select_parsed. rewrite He, Hg. cbn [Z.eqb negb mbind option_bind]. change (Z.to_nat (cls_num_pmr zero_cls)) with 0%nat.
  cbn [match_rules mbind option_bind]. rewrite H0. cbn [mbind option_bind].
  change (cls_num_pmr (new_cls (length tvs))) with (Z.of_nat (length tvs)). rewrite Nat2Z.id.
  destruct (rules_configured s0 (length tvs) 0) as (s1 & Hm & Hs1); [done|lia|]. change (Z.of_nat 0) with 0 in Hm. rewrite Hm.
  cbn [mbind option_bind]. rewrite drop_0, Z.add_0_l. destruct (first_true 1 bs) as [c|]; [by exists s1|].
  destruct (qos_total m a p n s1 (io - 1) Hf) as (o & Ho & _); [eapply same_rules_wf; [done|by apply configured_wf]|lia|].
  rewrite Ho. cbn [mbind option_bind]. rewrite (qos_configured s1 o Hs1 Ho). by exists s1.
Qed.

End classify.

Lemma first_true_at i bs k :
  bs !! k = Some true -> (forall j, (j < k)%nat -> bs !! j = Some false) -> first_true i bs = Some (i + Z.of_nat k).
Proof.
  revert i k. induction bs as [|b bs IH]; intros i k Hk Hlt; [done|]. destruct k as [|k]; simpl in *.
  - injection Hk as ->. f_equal. lia.
  - pose proof (Hlt 0%nat ltac:(lia)) as Hb. injection Hb as ->. rewrite (IH (i + 1) k Hk); [f_equal; lia|].
    intros j Hj. apply (Hlt (S j)). lia.
Qed.

Lemma first_true_none i bs : (forall j b, bs !! j = Some b -> b = false) -> first_true i bs = None.
Proof.
  revert i. induction bs as [|b bs IH]; intros i H; [done|]. simpl. rewrite (H 0%nat b eq_refl). apply IH. intros j x Hj. by apply (H (S j)).
Qed.

(** Rule by rule, whether it holds. *)
Lemma rules_hold m a p n (rules : list (odp_pmr_match_t * odp_cls_cos_param_t)) tvs :
  pkt_fits m a p n -> Forall (fun r => match_ok (fst r) /\ mt_val_sz (fst r) <= 8) rules -> Forall (fun r => regular m a p (fst r)) rules ->
  Forall2 (fun r tv => odp_pmr_create_term (fst r) = Some tv) rules tvs ->
  exists bs, Forall2 (fun tv b => verify_term m a p tv = Some b) tvs bs /\
    (forall k mt par, rules !! k = Some (mt, par) -> exists b, bs !! k = Some b /\ (b = true <-> holds m a p mt)).
Proof.
  intros Hf Hok Hreg H2. induction H2 as [|[mt par] tv rules tvs Htv H2 IH]; [by exists []|].
  apply Forall_cons in Hok as [[Hm H8] Hok]. apply Forall_cons in Hreg as [Hr Hreg]. destruct (IH Hok Hreg) as (bs & Hbs & Hk).
  destruct (verify_holds m a p n mt tv Hf Hm H8 Hr Htv) as (b & Hb & Hiff). exists (b :: bs). split; [by constructor|].
  intros [|k] mt' par' Hlk; simpl in Hlk; [|by eapply Hk]. simplify_eq. by exists b.
Qed.

Lemma configured_queue io dflt pars tvs j i par :
  (length pars < 64)%nat -> (dflt :: pars) !! i = Some par -> odp_cos_queue (Z.of_nat i) (configured io dflt pars tvs j) = par_queue par.
Proof.
  intros Hl Hi. pose proof (lookup_lt_Some _ _ _ Hi) as Hlt. simpl in Hlt. unfold odp_cos_queue.
  rewrite get_cos_configured by (unfold zlen; lia). cbn [mbind option_bind]. rewrite zget_of_nat. unfold configured. cbn [cos_tbl].
  rewrite lookup_app_l by (rewrite length_fmap; simpl; lia). rewrite list_lookup_fmap, Hi.
  cbn [fmap option_fmap option_map mbind option_bind new_cos cos_queue]. unfold to_queue. destruct (par_queue par =? ODP_QUEUE_INVALID) eqn:E; [|done].
  zbool. by rewrite E.
Qed.

(** C27: the first rule that holds decides, for one kind of configuration: after
    start-up a default class is created and set, and then, for up to eight rules of
    one term each, a class, the rule, and the rule with the class attached to the
    interface; no links between classes, no sets of rules, no tables of priorities,
    no error class.  An error-free packet received on queue 0, whose headers are
    in memory, is then given the class of the first attached rule whose field is
    in the packet and agrees with the value of the rule in every bit of its mask,
    and the default class when there is none; and the queue of that class is the
    one it was created with.
    The fields are those of the layers that the parser found.  [regular] leaves
    out what the code does differently: a custom field at the very end of the
    packet ([custom_frame_at_end]), hardware addresses that read the same
    backwards behind two zero bytes ([dmac_palindrome]), the next header of IPv6
    and the terms that are accepted without being implemented
    ([terms_not_implemented]). *)
Theorem first_rule_decides (io : Z) (dflt : odp_cls_cos_param_t) (rules : list (odp_pmr_match_t * odp_cls_cos_param_t)) :
  1 <= io <= 64 -> (length rules <= 8)%nat -> Forall (fun r => match_ok (fst r) /\ mt_val_sz (fst r) <= 8) rules ->
  exists s, configure io dflt rules = Some s /\
    forall m a p n, pkt_fits m a p n -> error_flags p = 0 -> Forall (fun r => regular m a p (fst r)) rules ->
      (forall k mt par, rules !! k = Some (mt, par) -> holds m a p mt ->
         (forall j mt' par', (j < k)%nat -> rules !! j = Some (mt', par') -> ~ holds m a p mt') ->
         exists s', select_parsed m a (io - 1) 0 p s = Some (Some (Z.of_nat k + 1), s') /\
           odp_cos_queue (Z.of_nat k + 1) s = par_queue par) /\
      ((forall k mt par, rules !! k = Some (mt, par) -> ~ holds m a p mt) ->
         exists s', select_parsed m a (io - 1) 0 p s = Some (Some 0, s') /\ odp_cos_queue 0 s = par_queue dflt).
Proof.
  intros Hio H8 Hok. destruct (configure_configured io dflt Hio rules H8 Hok) as (tvs & H2 & Hc). exists (configured io dflt (snd <$> rules) tvs (length tvs)).
  split; [done|]. intros m a p n Hf He Hreg. destruct (rules_hold m a p n rules tvs Hf Hok Hreg H2) as (bs & Hbs & Hk).
  pose proof (Forall2_length _ _ _ H2) as Hl. pose proof (Forall2_length _ _ _ Hbs) as Hlb.
  assert (Forall term_ok tvs) as Ht.
  { clear -H2 Hok. induction H2 as [|[mt par] tv rules tvs Htv H2 IH]; [done|]. apply Forall_cons in Hok as [[Hm Hsz] Hok]. constructor; [|by apply IH].
    destruct (create_term_ok mt Hm Hsz) as (v & k & _ & _ & E & Hok'). simpl in Htv. rewrite E in Htv. by injection Htv as <-. }
  destruct (select_configured io dflt (snd <$> rules) tvs m a p n bs Hio) as [s' Hs']; [by rewrite length_fmap|lia|done..|].
  split.
  - intros k mt par Hlk Hh Hno. destruct (Hk k mt par Hlk) as (b & Hb & Hiff). rewrite (proj2 Hiff Hh) in Hb.
    rewrite (first_true_at 1 bs k Hb) in Hs'.
    2: { intros j Hj. destruct (lookup_lt_is_Some_2 rules j) as [[mt' par'] Hlj]; [apply lookup_lt_Some in Hlk; lia|].
         destruct (Hk j mt' par' Hlj) as (bj & Hbj & Hiffj). destruct bj; [|done]. by destruct (Hno j mt' par' Hj Hlj (proj1 Hiffj eq_refl)). }
    exists s'. split; [by rewrite Z.add_comm|]. replace (Z.of_nat k + 1) with (Z.of_nat (S k)) by lia. apply configured_queue; [rewrite length_fmap; lia|].
    simpl. by rewrite list_lookup_fmap, Hlk.
  - intros Hno. rewrite first_true_none in Hs'.
    2: { intros j b Hb. destruct (lookup_lt_is_Some_2 rules j) as [[mt par] Hlj]; [apply lookup_lt_Some in Hb; lia|].
         destruct (Hk j mt par Hlj) as (b' & Hb' & Hiff). rewrite Hb in Hb'. injection Hb' as <-. destruct b; [|done]. by destruct (Hno j mt par Hlj (proj1 Hiff eq_refl)). }
    exists s'. split; [done|]. apply (configured_queue io dflt _ tvs _ 0); [rewrite length_fmap; lia|done].
Qed.

(** ** Instances *)

Lemma frame_readable eth l : Forall (fun b => 0 <= b < 256) l -> readable (frame_mem eth l) eth (zlen l).
Proof.
  intros Hl i Hi. unfold zlen in Hi. destruct (lookup_lt_is_Some_2 l (Z.to_nat i)) as [x Hx]; [lia|]. exists x.
  split; [|by eapply (Forall_lookup_1 _ _ _ _ Hl)]. rewrite <- (frame_mem_lookup eth l _ _ Hx). f_equal. lia.
Qed.

(** A UDP datagram to port 9, parsed. *)
Definition ex_mem : mem := frame_mem 1000 ipv4_frame.
Definition ex_hdr : packet_hdr := default raw_pkt (snd <$> odp_parse_common ex_mem (set_frame_len 54 raw_pkt) 1000).

Lemma ex_fits : pkt_fits ex_mem 1000 ex_hdr 54.
Proof.
  split.
  - apply (frame_readable 1000 ipv4_frame). apply Forall_forall. intros x Hx. vm_compute in Hx. set_solver by lia.
  - by vm_compute.
  - by vm_compute.
  - intros _. by vm_compute.
  - intros _. by vm_compute.
Qed.

Definition udp_port (port : Z) : odp_pmr_match_t := Match ODP_PMR_UDP_DPORT [port; 0] [255; 255] 2 0.
Definition to_q (q : Z) : odp_cls_cos_param_t := CosParam q 0 0.

Lemma udp_port_ok port : match_ok (udp_port port) /\ mt_val_sz (udp_port port) <= 8.
Proof. by repeat split. Qed.

Lemma first_rule_decides_witness :
  exists s s', configure 3 (to_q 10) [(udp_port 80, to_q 11); (udp_port 9, to_q 12)] = Some s /\
    select_parsed ex_mem 1000 2 0 ex_hdr s = Some (Some 2, s') /\ odp_cos_queue 2 s = 12.
Proof.
  destruct (first_rule_decides 3 (to_q 10) [(udp_port 80, to_q 11); (udp_port 9, to_q 12)]) as (s & Hc & H);
    [lia|simpl; lia|repeat constructor; by apply udp_port_ok|].
  destruct (H ex_mem 1000 ex_hdr 54 ex_fits) as [H1 _]; [by vm_compute|by repeat constructor|].
  destruct (H1 1%nat (udp_port 9) (to_q 12)) as (s' & Hs & Hq); [done| | |exists s, s'; exact (conj Hc (conj Hs Hq))].
  - exists 9, 9, 65535. split_and!; [by vm_compute..|done].
  - intros [|j] mt par Hj Hl; [|lia]. injection Hl as <- <-. intros (f & v & m & Hf & Hv & Hm & Hb).
    vm_compute in Hf, Hv, Hm. injection Hf as <-. injection Hv as <-. injection Hm as <-. by specialize (Hb 0 ltac:(lia) eq_refl).
Defined.

(** Two classes, the first linked to the second under the same rule. *)
Definition ex_ops : list cls_op :=
  [Open 3; CosCreate "low" (to_q 10); CosCreate "high" (to_q 11); DefaultCos 3 0; PmrCreate (udp_port 9); PmrCos 0 3 0; CosPmrCos 0 0 1].

Lemma ex_ops_links : (fun r => linked_cos <$> cos_tbl (snd r)) <$> run ex_ops cls_start = Some (Some 1 :: replicate 63 None).
Proof. by vm_compute. Qed.

Lemma ex_ops_select : (r ← run ex_ops cls_start; fst <$> select_parsed ex_mem 1000 2 0 ex_hdr (snd r)) = Some (Some 1).
Proof. by vm_compute. Qed.

Lemma classifier_safe_witness :
  exists rs s s', run ex_ops cls_start = Some (rs, s) /\ select_parsed ex_mem 1000 2 0 ex_hdr s = Some (Some 1, s') /\ same_rules s s'.
Proof.
  destruct (classifier_safe ex_ops) as (rs & s & Hrun & Hwf & H).
  { repeat (apply Forall_cons; split; [first [exact I | exact (proj1 (udp_port_ok 9)) | simpl; lia]|]). done. }
  pose proof ex_ops_links as Hlinks. pose proof ex_ops_select as Hsel. rewrite Hrun in Hlinks, Hsel. cbn [mbind option_bind fmap option_fmap option_map snd] in *.
  assert (acyclic s) as Hac.
  { exists (fun i => if i =? 0 then 1%nat else 0%nat). intros i c d Hc Hd. injection Hlinks as Hlinks.
    assert (zget (linked_cos <$> cos_tbl s) i = Some (Some d)) as Hz by (rewrite zget_fmap, Hc; simpl; by rewrite Hd).
    rewrite Hlinks in Hz. pose proof (zget_bound _ _ _ Hz) as Hb. rewrite zget_nonneg in Hz by lia.
    destruct (Z.to_nat i) as [|j] eqn:E; [|].
    2: { change (replicate 63 (@None Z) !! j = Some (Some d)) in Hz. by apply lookup_replicate in Hz as [? _]. }
    injection Hz as <-. assert (i = 0) as -> by lia. simpl. lia. }
  destruct (H Hac ex_mem 1000 ex_hdr 54 2 0 ex_fits ltac:(lia) ltac:(lia)) as (o & s' & Hs & Hsame & _).
  rewrite Hs in Hsel. injection Hsel as ->. exists rs, s, s'. exact (conj Hrun (conj Hs Hsame)).
Defined.

(** ** Where the code does otherwise *)

(** A destination address 00:00:x:y:y:x is the same number in both byte orders,
    and is then not shifted to its place: the rule for exactly this address does
    not match. *)
Definition mac_frame : list Z := [0; 0; 1; 2; 2; 1] ++ replicate 54 0.
Definition mac_hdr : packet_hdr := packet_parse_l2 (set_frame_len 60 raw_pkt).
Definition mac_rule : odp_pmr_match_t := Match ODP_PMR_DMAC [1; 2; 2; 1; 0; 0] [255; 255; 255; 255; 255; 255] 6 0.

Theorem dmac_palindrome :
  field (frame_mem 0 mac_frame) 0 mac_hdr mac_rule = le_bytes 6 (mt_val mac_rule) /\
  (tv ← odp_pmr_create_term mac_rule; verify_term (frame_mem 0 mac_frame) 0 mac_hdr tv) = Some false.
Proof. split; by vm_compute. Qed.

(** Rules on the type of the frame and on the identifier of its VLAN tag, and on
    the next header of IPv6, are accepted and never match, here those of a tagged
    frame with an IPv6 datagram. *)
Definition vlan_frame : list Z :=
  replicate 12 0 ++ [0x81; 0; 0; 100; 0x86; 0xDD; 0x60; 0; 0; 0; 0; 8; 17; 64] ++ replicate 40 0.
Definition vlan_hdr : packet_hdr := default raw_pkt (snd <$> odp_parse_common (frame_mem 0 vlan_frame) (set_frame_len 66 raw_pkt) 0).

Theorem terms_not_implemented :
  let frame := frame_mem 0 vlan_frame in
  Forall (fun rule => field frame 0 vlan_hdr rule = le_bytes (mt_val_sz rule) (mt_val rule) /\
     (tv ← odp_pmr_create_term rule; verify_term frame 0 vlan_hdr tv) = Some false)
    [Match ODP_PMR_ETHTYPE_0 [0; 0x81] [255; 255] 2 0; Match ODP_PMR_VLAN_ID_0 [100; 0] [255; 15] 2 0; Match ODP_PMR_IPPROTO [17] [255] 1 0].
Proof. repeat constructor; vm_compute; done. Qed.

(** A field that ends with the packet is refused, although it is in the packet. *)
Theorem custom_frame_at_end :
  let rule := Match ODP_PMR_CUSTOM_FRAME [7; 9] [255; 255] 2 58 in
  let frame := replicate 58 0 ++ [7; 9] in
  field (frame_mem 0 frame) 0 mac_hdr rule = le_bytes 2 (mt_val rule) /\
  (tv ← odp_pmr_create_term rule; verify_term (frame_mem 0 frame) 0 mac_hdr tv) = Some false.
Proof. split; by vm_compute. Qed.

(** The end of the field is computed in 32 bits: an offset close to 2^32 passes
    the length check and is read far outside the packet. *)
Theorem custom_frame_wraps :
  let rule := Match ODP_PMR_CUSTOM_FRAME [0; 0; 0; 0] [255; 255; 255; 255] 4 0xFFFFFFFE in
  (tv ← odp_pmr_create_term rule; verify_term (frame_mem 0 mac_frame) 0 mac_hdr tv) = None.
Proof. by vm_compute. Qed.

(** The traffic class of IPv6 is read from a word in network order: the priority
    comes from bits of the flow label.  Here the traffic class is 46 * 4. *)
Theorem ipv6_dscp_from_flow_label :
  let table := (fun i => Some i) <$> seqZ 0 64 in
  let p := set_in F_l3 true (set_in F_ipv6 true (set_l3_offset 0 raw_pkt)) in
  match_qos_l3_cos (frame_mem 0 [0x6B; 0x80; 0; 0]) 0 table p = Some (Some 0) /\
  match_qos_l3_cos (frame_mem 0 [0x6B; 0x80; 0; 5]) 0 table p = Some (Some 20).
Proof. split; by vm_compute. Qed.

(** A packet with a parse error gets no class, whatever error class was set. *)
Theorem error_cos_unused m a e q p s : error_flags p <> 0 -> select_parsed m a e q p s = Some (None, s).
Proof. intros H. unfold select_parsed. by rewrite (proj2 (Z.eqb_neq _ _)). Qed.

(** A class that was destroyed still receives packets as the default class. *)
Theorem destroyed_default_cos :
  (r ← run [CosCreate "dflt" (to_q 10); DefaultCos 3 0; CosDestroy 0] cls_start; fst <$> select_parsed ex_mem 1000 2 0 ex_hdr (snd r)) =
  Some (Some 0).
Proof. by vm_compute. Qed.

(** With 64 input queues the index of the last one selects a classifier that the
    interface does not have. *)
Theorem default_cos_outside (s : cls_state) io e p cos :
  get_pktio_entry io s = Some e -> zget (pktio_tbl s) e = Some p -> length (cls p) = 17%nat -> last_index p = 63 ->
  get_cos_entry cos s = Some cos -> odp_pktio_default_cos_set io cos s = None.
Proof.
  intros He Hp Hl H63 Hc. unfold odp_pktio_default_cos_set. rewrite He, Hc, Hp. cbn [mbind option_bind]. unfold upd_cls. rewrite Hp. cbn [mbind option_bind].
  rewrite H63. destruct (zget (cls p) 63) eqn:E; [|done]. apply zget_bound in E. unfold zlen in E. lia.
Qed.

(** A class that is linked to itself under a rule that matches: the recursion
    does not end. *)
Theorem self_link_hangs m a p n s i c r :
  pkt_fits m a p n -> wf s -> zget (cos_tbl s) i = Some c -> cos_valid c = true -> linked_cos c = Some i -> cos_pmr c = Some r ->
  rule_matches m a p s r = Some true -> forall fuel, match_pmr_cos m a fuel (Some i) (Some r) p s = None.
Proof.
  intros Hf Hwf Hc Hv Hl Hr Hm [|k]; [done|]. pose proof (zget_bound _ _ _ Hc) as Hi. unfold zlen in Hi. destruct (wf_cos _ Hwf) as [Hlen Hall].
  assert (cos_ok c) as [Hrc _] by (by eapply zget_Forall). rewrite Hr in Hrc.
  pose proof (match_pmr_cos_follow m a p n k s (Some i) (Some r) Hf Hwf ltac:(simpl; lia) Hrc) as H.
  assert (entered m a p s (Some i) (Some r) = Some i) as E by (unfold entered; cbn [mbind option_bind]; rewrite Hc; cbn [mbind option_bind]; by rewrite Hv, Hm).
  assert (next_cos m a p s i = Some i) as En.
  { unfold next_cos. rewrite Hc. cbn [mbind option_bind]. rewrite Hl. cbn [mbind option_bind]. rewrite Hr. cbn [mbind option_bind]. rewrite Hc.
    cbn [mbind option_bind]. by rewrite Hv, Hm. }
  rewrite E in H. assert (forall k, follow (next_cos m a p s) k i = None) as Hfol by (induction k0 as [|k0 IH]; simpl; [done|by rewrite En]).
  by rewrite Hfol in H.
Qed.

(** ** Packets that classification has freed *)

(** Packets by handle, the handles that were freed, and what was put on queues. *)
Record toy := Toy { t_mem : mem; t_live : gmap Z (buffer_hdr * packet_hdr); t_freed : list Z; t_queued : list (Z * Z); t_loop : list Z }.

Definition toy_enq (q pkt : Z) (w : toy) : option (Z * toy) :=
  Some (0, Toy (t_mem w) (t_live w) (t_freed w) (t_queued w ++ [(q, pkt)]) (t_loop w)).

#[export] Instance toy_world : PacketWorld toy := {|
  w_mem := t_mem;
  w_hdr pkt w := t_live w !! pkt;
  w_put_hdr pkt p w := Toy (t_mem w) (alter (fun x => (fst x, p)) pkt (t_live w)) (t_freed w) (t_queued w) (t_loop w);
  w_packet_pool pkt w := match t_live w !! pkt with Some (b, _) => h_pool_hdl b | None => 0 end;
  w_packet_free pkt w := Some (Toy (t_mem w) (t_live w) (t_freed w ++ [pkt]) (t_queued w) (t_loop w));
  w_packet_copy pkt pool w := Some (0, w);
  w_packet_alloc pool len w := Some (0, w);
  w_copydata_in pkt off len src w := Some (0, w);
  w_pull_tail pkt len w := Some w;
  w_queue_enq := toy_enq;
  w_queue_deq_multi q len w := Some (take (Z.to_nat len) (t_loop w), Toy (t_mem w) (t_live w) (t_freed w) (t_queued w) (drop (Z.to_nat len) (t_loop w)))
|}.

(** Two received packets with handles 71 and 72, both the datagram to port 9. *)
Definition toy_buf (a : Z) : buffer_hdr := Hdr 0 0 false false 0 0 0 0 0 0 0 0 1 256 [a] 0.
Definition toy_start : toy :=
  Toy ex_mem (list_to_map [(71, (toy_buf 1000, set_frame_len 54 raw_pkt)); (72, (toy_buf 1000, set_frame_len 54 raw_pkt))]) [] [] [71; 72].

(** Packets of a class without a queue are dropped, as the interface promises:
    they are freed.  The caller takes the result for a packet that was not
    classified and hands the freed packets to the application. *)
Theorem loop_returns_freed_packets :
  (r ← run [CosCreate "drop" (CosParam 0 0 0); DefaultCos 3 0] cls_start;
   '(nbr, pkts, _, _, w) ← loopback_recv 2 1 8 (replicate 8 0) (LS 0 0) (snd r) toy_start;
   Some (nbr, take 2 pkts, t_freed w)) = Some (2, [71; 72], [71; 72]).
Proof. by vm_compute. Qed.

(** When a packet behind a classified one is not classified, its length is
    looked up in an element of the array of the caller that was not written: here
    the first packet is queued, the second one goes to another port, and the
    handle in that element is 0. *)
Definition toy_mixed : toy :=
  Toy (ex_mem ∪ frame_mem 2000 (<[41%nat := 80]> ipv4_frame))
    (list_to_map [(71, (toy_buf 1000, set_frame_len 54 raw_pkt)); (72, (toy_buf 2000, set_frame_len 54 raw_pkt))]) [] [] [71; 72].

Theorem loop_reads_unset_packet :
  (r ← run [CosCreate "nine" (CosParam 5 0 0); PmrCreate (udp_port 9); PmrCos 0 3 0] cls_start;
   '(ret, _, w) ← _odp_packet_classifier 2 0 71 (snd r) toy_mixed; Some (ret, t_queued w)) = Some (0, [(5, 71)]) /\
  (r ← run [CosCreate "nine" (CosParam 5 0 0); PmrCreate (udp_port 9); PmrCos 0 3 0] cls_start;
   loopback_recv 2 1 8 (replicate 8 0) (LS 0 0) (snd r) toy_mixed) = None.
Proof. split; by vm_compute. Qed.

(** More than eight packets at once do not fit the array of the receiving
    function; its length is not compared with the number asked for. *)
Theorem loop_recv_overflows :
  let recv n :=
    r ← run [] cls_start;
    '(nbr, _, _, _, _) ← loopback_recv 2 1 32 (replicate 32 0) (LS 0 0) (snd r) (Toy ex_mem (t_live toy_start) [] [] (replicate n 71));
    Some nbr in
  recv 8%nat = Some 8 /\ recv 9%nat = None.
Proof. split; by vm_compute. Qed.

End ClassifySpec.
