(* ===== verification/District.v ===== *)
(** Memory districts of the hisilicon platform:
    platform/linux-hisilicon/mem/odp_mmdistrict.c and the layout of physical
    memory in mem/odp_memory.c.

    A district is a piece of a fragment of physically contiguous memory.
    Pointers to districts are indices of the table [mm_district], NULL is [None];
    an access outside a table makes the whole call [None].  The table is under a
    write lock during each call.  *)

From S2P Require Import Prelude.

Open Scope Z_scope.
Open Scope c_scope.

Module District.

Definition ODP_MAX_MMFRAG : Z := 128.
Definition ODP_MAX_MM_DISTRICT : Z := 128.
Definition ODP_CACHE_LINE_SIZE : Z := 64.
Definition ODP_CACHE_LINE_MASK : Z := ODP_CACHE_LINE_SIZE - 1.
Definition MEM_SIZE_MAX : Z := 0x100000000000.
Definition ODP_MEMZONE_2MB : Z := 0x1.
Definition ODP_MEMZONE_1GB : Z := 0x2.
Definition ODP_MEMZONE_SIZE_HINT_ONLY : Z := 0x4.
Definition ODP_MEMZONE_16MB : Z := 0x100.
Definition ODP_MEMZONE_16GB : Z := 0x200.
Definition ODP_MEMZONE_NAMESIZE : nat := 64.
Definition ODP_PGSIZE_2M : Z := 2 ^ 21.
Definition ODP_PGSIZE_1G : Z := 2 ^ 30.
Definition ODP_PGSIZE_16M : Z := 2 ^ 24.
Definition ODP_PGSIZE_16G : Z := 2 ^ 34.
Definition SOCKET_ID_ANY : Z := -1.
Definition ENOMEM : Z := 12.
Definition EINVAL : Z := 22.
Definition ENOSPC : Z := 28.

(** ** Data *)

Record odp_mmfrag := Frag {
  f_phys_addr : Z; f_addr : Z; f_len : Z; f_hugepage_sz : Z; f_socket_id : Z; channel_num : Z; rank_num : Z }.

Record odp_mm_district := Dist {
  d_name : string; d_orig_name : string; d_phys_addr : Z; d_phys_addr_end : Z; excursion_addr : Z; d_addr : Z; d_len : Z;
  d_hugepage_sz : Z; d_socket_id : Z; d_flags : Z; mmfrag_id : Z }.

Record odp_sys_layout := Lay {
  mm_district_idx : Z; free_frag_idx : Z; free_district_idx : Z; mmfrag : list odp_mmfrag; mm_district : list odp_mm_district;
  free_mm_district : list odp_mm_district; free_mmfrag : list odp_mmfrag }.

Definition set_district (idx : Z) (l : list odp_mm_district) (m : odp_sys_layout) : odp_sys_layout :=
  Lay idx (free_frag_idx m) (free_district_idx m) (mmfrag m) l (free_mm_district m) (free_mmfrag m).
Definition set_free_district (idx : Z) (l : list odp_mm_district) (m : odp_sys_layout) : odp_sys_layout :=
  Lay (mm_district_idx m) (free_frag_idx m) idx (mmfrag m) (mm_district m) l (free_mmfrag m).
Definition set_free_mmfrag (l : list odp_mmfrag) (m : odp_sys_layout) : odp_sys_layout :=
  Lay (mm_district_idx m) (free_frag_idx m) (free_district_idx m) (mmfrag m) (mm_district m) (free_mm_district m) l.
Definition set_free_frag_idx (i : Z) (m : odp_sys_layout) : odp_sys_layout :=
  Lay (mm_district_idx m) i (free_district_idx m) (mmfrag m) (mm_district m) (free_mm_district m) (free_mmfrag m).

(** An entry cleared by [memset], and the same with the socket number that marks
    an unused entry. *)
Definition zero_district : odp_mm_district := Dist "" "" 0 0 0 0 0 0 0 0 0.
Definition unused_district : odp_mm_district := Dist "" "" 0 0 0 0 0 0 SOCKET_ID_ANY 0 0.
Definition zero_frag : odp_mmfrag := Frag 0 0 0 0 0 0 0.

(** [strncmp(a, b, n) == 0] on strings without NUL. *)
Definition strn_eq (n : nat) (a b : string) : bool := (String.substring 0 n a =? String.substring 0 n b)%string.

(** ** Searches *)

Fixpoint lookup_loop (name : string) (i : Z) (l : list odp_mm_district) : option Z :=
  match l with
  | [] => None
  | d :: l =>
      if d_addr d =? 0 then None
      else if strn_eq ODP_MEMZONE_NAMESIZE name (d_name d) then Some i
      else lookup_loop name (i + 1) l
  end.
Definition mm_district_lookup (name : string) (m : odp_sys_layout) : option Z := lookup_loop name 0 (mm_district m).
Definition odp_mm_district_lookup : string -> odp_sys_layout -> option Z := mm_district_lookup.

Fixpoint by_vaddress (addr : Z) (l : list odp_mm_district) : option odp_mm_district :=
  match l with
  | [] => None
  | d :: l =>
      if d_addr d =? 0 then None
      else if (addr >=? d_addr d) && (addr <? d_addr d +u64 d_len d) then Some d
      else by_vaddress addr l
  end.
Definition get_mm_district_by_vaddress (addr : Z) (m : odp_sys_layout) : option odp_mm_district := by_vaddress addr (mm_district m).

Definition odp_v2p (virtaddr : Z) (m : odp_sys_layout) : Z :=
  match get_mm_district_by_vaddress virtaddr m with
  | Some d => d_phys_addr d +u64 (virtaddr -u64 d_addr d)
  | None => u64 (-1)
  end.

(** [odp_p2v] on 64-bit processors, with its static variable [i]: the first
    result is the address, NULL being 0. *)
Definition has_phys (phyaddr : Z) (d : odp_mm_district) : bool := (phyaddr >=? d_phys_addr d) && (phyaddr <? d_phys_addr_end d).
Fixpoint by_phys (phyaddr i : Z) (l : list odp_mm_district) : option odp_mm_district * Z :=
  match l with
  | [] => (None, i)
  | d :: l =>
      if d_addr d =? 0 then (None, i)
      else if has_phys phyaddr d then (Some d, i)
      else by_phys phyaddr (i + 1) l
  end.
Definition odp_p2v (phyaddr i : Z) (m : odp_sys_layout) : option (Z * Z) :=
  d ← zget (mm_district m) i;
  if has_phys phyaddr d then Some (excursion_addr d +u64 phyaddr, i)
  else
    let '(found, i) := by_phys phyaddr 0 (mm_district m) in
    Some (match found with Some d => excursion_addr d +u64 phyaddr | None => 0 end, i).

Definition get_mm_district_by_phyddress (phyaddr i : Z) (m : odp_sys_layout) : option (option odp_mm_district * Z) :=
  d ← zget (mm_district m) i;
  if has_phys phyaddr d then Some (Some d, i) else Some (by_phys phyaddr 0 (mm_district m)).

(** ** Reservation *)

Definition ODP_ALIGN_FLOOR (val align : Z) : Z := val & (2 ^ 64 - 1 - u64 (align - 1)).
Definition ODP_ALIGN_CEIL (val align : Z) : Z := ODP_ALIGN_FLOOR (val +u64 (align -u64 1)) align.
Definition odp_is_power_of_2 (n : Z) : bool := negb (n =? 0) && ((n & (n -u32 1)) =? 0).

Fixpoint boundary_loop (fuel : nat) (ms : odp_mmfrag) (len step bmask start addr_offset : Z) : option Z :=
  match fuel with
  | O => None
  | S fuel =>
      if addr_offset +u64 len <? f_len ms then
        let end_ := (start +u64 len) -u64 (if len =? 0 then 0 else 1) in
        if (start & bmask) =? (end_ & bmask) then Some addr_offset
        else
          let start := ODP_ALIGN_CEIL (start +u64 1) step in
          boundary_loop fuel ms len step bmask start (start -u64 f_phys_addr ms)
      else Some addr_offset
  end.
(** At the second start the piece lies inside one boundary. *)
Definition boundary_fuel : nat := 3.
Definition align_phys_boundary (ms : odp_mmfrag) (len align bound : Z) : option Z :=
  let step := Z.max align bound in
  let bmask := 2 ^ 64 - 1 - (bound -u64 1) in
  let start := ODP_ALIGN_CEIL (f_phys_addr ms) align in
  boundary_loop boundary_fuel ms len step bmask start (start -u64 f_phys_addr ms).

(** The fragments that are passed over: no room left, another socket, too little
    room behind [addr_offset], or pages of a size that was not asked for. *)
Definition flag (flags f : Z) : bool := negb ((flags & f) =? 0).
Definition other_socket (socket_id : Z) (f : odp_mmfrag) : bool :=
  negb (socket_id =? SOCKET_ID_ANY) && negb (f_socket_id f =? SOCKET_ID_ANY) && negb (socket_id =? f_socket_id f).
Definition other_pages (flags : Z) (f : odp_mmfrag) : bool :=
  (flag flags ODP_MEMZONE_2MB && (f_hugepage_sz f =? ODP_PGSIZE_1G)) ||
  (flag flags ODP_MEMZONE_1GB && (f_hugepage_sz f =? ODP_PGSIZE_2M)) ||
  (flag flags ODP_MEMZONE_16MB && (f_hugepage_sz f =? ODP_PGSIZE_16G)) ||
  (flag flags ODP_MEMZONE_16GB && (f_hugepage_sz f =? ODP_PGSIZE_16M)).

(** [mmfrag_idx], [mmfrag_len] and [seg_offset] of the best fragment so far. *)
Record choice := Choice { mmfrag_idx : Z; mmfrag_len : Z; seg_offset : Z }.

Definition better (len align : Z) (f : odp_mmfrag) (addr_offset : Z) (best : option choice) : bool :=
  match best with
  | None => true
  | Some b =>
      if len =? 0 then f_len f >? mmfrag_len b
      else (f_len f +u64 align <? mmfrag_len b) || ((f_len f <=? mmfrag_len b +u64 align) && (addr_offset <? seg_offset b))
  end.

Fixpoint pick (len requested_len socket_id flags align bound i : Z) (l : list odp_mmfrag) (best : option choice) : option (option choice) :=
  match l with
  | [] => Some best
  | f :: l =>
      if f_addr f =? 0 then Some best
      else if f_len f =? 0 then pick len requested_len socket_id flags align bound (i + 1) l best
      else if other_socket socket_id f then pick len requested_len socket_id flags align bound (i + 1) l best
      else
        addr_offset ← align_phys_boundary f requested_len align bound;
        if requested_len +u64 addr_offset >? f_len f then pick len requested_len socket_id flags align bound (i + 1) l best
        else if other_pages flags f then pick len requested_len socket_id flags align bound (i + 1) l best
        else
          let best := if better len align f addr_offset best then Some (Choice i (f_len f) addr_offset) else best in
          pick len requested_len socket_id flags align bound (i + 1) l best
  end.

(** The piece is cut off the start of the fragment, what lies before it
    included, and entered into the table. *)
Definition carve (name orig_name : string) (len requested_len bound : Z) (b : choice) (m : odp_sys_layout) : option (Z * odp_sys_layout) :=
  f ← zget (free_mmfrag m) (mmfrag_idx b);
  let physaddr := f_phys_addr f +u64 seg_offset b in
  let addr := f_addr f +u64 seg_offset b in
  let requested_len :=
    if len =? 0 then
      if bound =? 0 then mmfrag_len b -u64 seg_offset b else ODP_ALIGN_CEIL (physaddr +u64 1) bound -u64 physaddr
    else requested_len in
  let len := seg_offset b +u64 requested_len in
  frags ← zset (free_mmfrag m) (mmfrag_idx b)
    (Frag (f_phys_addr f +u64 len) (f_addr f +u64 len) (f_len f -u64 len) (f_hugepage_sz f) (f_socket_id f) (channel_num f) (rank_num f));
  let mz := mm_district_idx m in
  ds ← zset (mm_district m) mz
    (Dist (String.substring 0 (ODP_MEMZONE_NAMESIZE - 1) name) (String.substring 0 (ODP_MEMZONE_NAMESIZE - 9) orig_name)
       physaddr (physaddr +u64 requested_len) (addr -u64 physaddr) addr requested_len (f_hugepage_sz f) (f_socket_id f) 0 (mmfrag_idx b));
  Some (mz, set_free_mmfrag frags (set_district (mz +u32 1) ds m)).

(** The result is the district, or the value of [odp_err]. *)
Fixpoint mm_district_reserve_aligned (fuel : nat) (name orig_name : string) (len socket_id flags align bound : Z) (m : odp_sys_layout)
    : option ((Z + Z) * odp_sys_layout) :=
  match fuel with
  | O => None
  | S fuel =>
      if mm_district_idx m >=? ODP_MAX_MM_DISTRICT then Some (inr ENOSPC, m)
      else
        match mm_district_lookup name m with
        | Some d => Some (inl d, m)
        | None =>
            if negb (align =? 0) && negb (odp_is_power_of_2 align) then Some (inr EINVAL, m)
            else
              let align := if align <? ODP_CACHE_LINE_SIZE then ODP_CACHE_LINE_SIZE else align in
              if len >? MEM_SIZE_MAX - ODP_CACHE_LINE_MASK then Some (inr EINVAL, m)
              else
                let len := ODP_ALIGN_FLOOR (len +u64 ODP_CACHE_LINE_MASK) ODP_CACHE_LINE_SIZE in
                let requested_len := Z.max ODP_CACHE_LINE_SIZE len in
                if negb (bound =? 0) && ((requested_len >? bound) || negb (odp_is_power_of_2 bound)) then Some (inr EINVAL, m)
                else
                  best ← pick len requested_len socket_id flags align bound 0 (free_mmfrag m) None;
                  match best with
                  | None =>
                      if flag flags ODP_MEMZONE_SIZE_HINT_ONLY &&
                         (flag flags ODP_MEMZONE_1GB || flag flags ODP_MEMZONE_2MB || flag flags ODP_MEMZONE_16MB || flag flags ODP_MEMZONE_16GB)
                      then mm_district_reserve_aligned fuel name orig_name len socket_id 0 align bound m
                      else Some (inr ENOMEM, m)
                  | Some b => '(mz, m) ← carve name orig_name len requested_len bound b m; Some (inl mz, m)
                  end
        end
  end.

(** The call recurses once, without flags. *)
Definition reserve_fuel : nat := 2.
Definition both_sizes (flags : Z) : bool :=
  (flag flags ODP_MEMZONE_1GB && flag flags ODP_MEMZONE_2MB) || (flag flags ODP_MEMZONE_16MB && flag flags ODP_MEMZONE_16GB).

Definition odp_mm_district_reserve_bounded (name orig_name : string) (len socket_id flags align bound : Z) (m : odp_sys_layout)
    : option ((Z + Z) * odp_sys_layout) :=
  if both_sizes flags then Some (inr EINVAL, m)
  else mm_district_reserve_aligned reserve_fuel name orig_name len socket_id flags align bound m.
Definition odp_mm_district_reserve_aligned (name orig_name : string) (len socket_id flags align : Z) (m : odp_sys_layout)
    : option ((Z + Z) * odp_sys_layout) :=
  if both_sizes flags then Some (inr EINVAL, m)
  else mm_district_reserve_aligned reserve_fuel name orig_name len socket_id flags align 0 m.
Definition odp_mm_district_reserve (name orig_name : string) (len socket_id flags : Z) (m : odp_sys_layout)
    : option ((Z + Z) * odp_sys_layout) :=
  odp_mm_district_reserve_aligned name orig_name len socket_id flags ODP_CACHE_LINE_SIZE m.

(** ** Giving a district back *)

(** [memcpy(md_t, md_t + 1)] for [n] entries from [i] on. *)
Fixpoint shift_down (n : nat) (i : Z) (l : list odp_mm_district) : option (list odp_mm_district) :=
  match n with
  | O => Some l
  | S n => d ← zget l (i + 1); l ← zset l i d; shift_down n (i + 1) l
  end.

(** The memory goes back to the fragment when it touches it, and to the list of
    free districts otherwise; [None] when that list is full. *)
Definition give_back (d : odp_mm_district) (m : odp_sys_layout) : option (option odp_sys_layout) :=
  f ← zget (free_mmfrag m) (mmfrag_id d);
  let put f := frags ← zset (free_mmfrag m) (mmfrag_id d) f; Some (Some (set_free_mmfrag frags m)) in
  if f_addr f +u64 f_len f =? d_addr d then
    put (Frag (f_phys_addr f) (f_addr f) (f_len f +u64 d_len d) (f_hugepage_sz f) (f_socket_id f) (channel_num f) (rank_num f))
  else if d_addr d +u64 d_len d =? f_addr f then
    put (Frag (f_phys_addr f) (d_addr d) (f_len f +u64 d_len d) (f_hugepage_sz f) (f_socket_id f) (channel_num f) (rank_num f))
  else if free_district_idx m <? ODP_MAX_MM_DISTRICT then
    l ← zset (free_mm_district m) (free_district_idx m) d;
    Some (Some (set_free_district (free_district_idx m +u32 1) l m))
  else Some None.

Definition mm_district_unreserve (name : string) (m : odp_sys_layout) : option (Z * odp_sys_layout) :=
  match mm_district_lookup name m with
  | None => Some (u32 (-1), m)
  | Some i =>
      d ← zget (mm_district m) i;
      r ← give_back d m;
      match r with
      | None => Some (u32 (-1), m)
      | Some m =>
          match mm_district_lookup name m with
          | None => Some (u32 (-1), m)
          | Some index =>
              let n := Z.to_nat (mm_district_idx m - index) in
              l ← shift_down n index (mm_district m);
              l ← zset l (index + Z.of_nat n) unused_district;
              Some (0, set_district (mm_district_idx m -u32 1) l m)
          end
      end
  end.
Definition odp_mm_district_unreserve : string -> odp_sys_layout -> option (Z * odp_sys_layout) := mm_district_unreserve.

(** The list of free districts: the search by the original name, and moving an
    entry back to the table.  No code calls them. *)
Fixpoint free_lookup_loop (orig_name : string) (i : Z) (l : list odp_mm_district) : option Z :=
  match l with
  | [] => None
  | d :: l =>
      if d_addr d =? 0 then None
      else if strn_eq (ODP_MEMZONE_NAMESIZE - 8) orig_name (d_orig_name d) then Some i
      else free_lookup_loop orig_name (i + 1) l
  end.
Definition free_mm_district_lookup (orig_name : string) (m : odp_sys_layout) : option Z := free_lookup_loop orig_name 0 (free_mm_district m).

Fixpoint fetch_loop (n : nat) (md : Z) (l : list odp_mm_district) : option (Z * list odp_mm_district) :=
  match n with
  | O => Some (md, l)
  | S n =>
      d ← zget l md;
      if d_addr d =? 0 then Some (md, l)
      else e ← zget l (md + 1); l ← zset l md e; fetch_loop n (md + 1) l
  end.
Definition free_mm_district_fetch (md : Z) (m : odp_sys_layout) : option odp_sys_layout :=
  let idx := mm_district_idx m +u32 1 in
  d ← zget (free_mm_district m) md;
  ds ← zset (mm_district m) idx d;
  '(md, l) ← fetch_loop (Z.to_nat (free_district_idx m)) md (free_mm_district m);
  l ← zset l md unused_district;
  Some (set_free_district (free_district_idx m -u32 1) l (set_district idx ds m)).

(** ** Start-up *)

Definition mmfrag_sanitize (f : odp_mmfrag) : option odp_mmfrag :=
  let phys_align := f_phys_addr f & ODP_CACHE_LINE_MASK in
  let virt_align := f_addr f & ODP_CACHE_LINE_MASK in
  if negb (phys_align =? virt_align) then None
  else if f_len f <? 2 * ODP_CACHE_LINE_SIZE then
    Some (Frag (f_phys_addr f) (f_addr f) 0 (f_hugepage_sz f) (f_socket_id f) (channel_num f) (rank_num f))
  else
    let off := (ODP_CACHE_LINE_SIZE - phys_align) & ODP_CACHE_LINE_MASK in
    Some (Frag (f_phys_addr f +u64 off) (f_addr f +u64 off) (ODP_ALIGN_FLOOR (f_len f -u64 off) ODP_CACHE_LINE_SIZE)
            (f_hugepage_sz f) (f_socket_id f) (channel_num f) (rank_num f)).

(** The fragments of the layout are copied where the free list has none. *)
Fixpoint copy_frags (i : Z) (frags free : list odp_mmfrag) : Z * list odp_mmfrag :=
  match frags, free with
  | f :: frags, g :: free =>
      if f_addr f =? 0 then (i, g :: free)
      else
        let '(n, rest) := copy_frags (i + 1) frags free in
        (n, (if negb (f_addr g =? 0) then g else f) :: rest)
  | _, free => (i, free)
  end.
Fixpoint sanitize_all (l : list odp_mmfrag) : bool * list odp_mmfrag :=
  match l with
  | [] => (true, [])
  | f :: l =>
      if f_addr f =? 0 then (true, f :: l)
      else match mmfrag_sanitize f with
           | None => (false, f :: l)
           | Some f => let '(ok, l) := sanitize_all l in (ok, f :: l)
           end
  end.

Definition odp_mm_district_init (secondary : bool) (m : odp_sys_layout) : Z * odp_sys_layout :=
  if secondary then (0, m)
  else
    let '(i, free) := copy_frags 0 (mmfrag m) (free_mmfrag m) in
    let m := set_free_mmfrag free (set_free_frag_idx (i -u32 1) m) in
    let '(ok, free) := sanitize_all free in
    let m := set_free_mmfrag free m in
    if ok then (0, set_district 0 (replicate 128 zero_district) m) else (-1, m).

(** [odp_mm_district_walk] with what [func] does to its argument. *)
Definition odp_mm_district_walk {A} (func : odp_mm_district -> A -> A) (arg : A) (m : odp_sys_layout) : A :=
  fold_left (fun a d => if negb (d_addr d =? 0) then func d a else a) (mm_district m) arg.

Fixpoint sum_len (l : list odp_mmfrag) (total_len : Z) : Z :=
  match l with
  | [] => total_len
  | f :: l => if f_addr f =? 0 then total_len else sum_len l (total_len +u64 f_len f)
  end.
Definition odp_get_physmem_size (m : odp_sys_layout) : Z := sum_len (mmfrag m) 0.

End District.
