(* ===== verification/DistrictProofs.v ===== *)
(** Memory districts (District): the invariant of the table of districts in every
    reachable state, what a reservation returns, and the translation between
    virtual and physical addresses. *)

From S2P Require Import Prelude District.
From stdpp Require Import sorting.

Open Scope Z_scope.
Open Scope c_scope.

Module DistrictProofs.
Import District.

(** ** Alignment *)

Definition pow2 (n : Z) : Prop := exists k, 0 <= k < 32 /\ n = 2 ^ k.

Lemma is_power_of_2_spec n : is_u32 n -> odp_is_power_of_2 n = true -> pow2 n.
Proof.
  unfold odp_is_power_of_2, is_u32. intros Hn [H0 H]%andb_prop. apply negb_true_iff in H0. apply Z.eqb_neq in H0. apply Z.eqb_eq in H.
  rewrite u32_small in H by (unfold is_u32; lia). pose proof (Z.log2_spec n ltac:(lia)) as Hl. rewrite Z.pow_succ_r in Hl by apply Z.log2_nonneg.
  exists (Z.log2 n). split; [split; [apply Z.log2_nonneg|apply Z.log2_lt_pow2; lia]|].
  destruct (decide (n = 2 ^ Z.log2 n)) as [->|Hne]; [by rewrite Z.log2_pow2 by apply Z.log2_nonneg|].
  assert (Z.log2 (n - 1) = Z.log2 n) as Hl'.
  { apply Z.log2_unique; [apply Z.log2_nonneg|]. rewrite Z.pow_succ_r by apply Z.log2_nonneg. lia. }
  assert (0 < 2 ^ Z.log2 n) by (apply Z.pow_pos_nonneg; [lia|apply Z.log2_nonneg]).
  assert (Z.testbit (n & (n - 1)) (Z.log2 n) = true) as Ht.
  { rewrite Z.land_spec, Z.bit_log2 by lia. rewrite <- Hl'. by rewrite Z.bit_log2 by lia. }
  rewrite H, Z.bits_0 in Ht. done.
Qed.

Lemma pow2_pos n : pow2 n -> 0 < n < 2 ^ 32.
Proof. intros (k & Hk & ->). split; [apply Z.pow_pos_nonneg; lia|apply Z.pow_lt_mono_r; lia]. Qed.

(** A power of two divides every larger one, and the range of addresses. *)
Lemma pow2_divide a b : pow2 a -> pow2 b -> a <= b -> (a | b).
Proof.
  intros (j & Hj & ->) (k & Hk & ->) Hle. assert (j <= k) by (by apply Z.pow_le_mono_r_iff in Hle; lia).
  exists (2 ^ (k - j)). rewrite <- Z.pow_add_r by lia. f_equal. lia.
Qed.
Lemma pow2_divide_64 a : pow2 a -> (a | 2 ^ 64).
Proof. intros (j & Hj & ->). exists (2 ^ (64 - j)). rewrite <- Z.pow_add_r by lia. f_equal. lia. Qed.

Lemma u64_divide a x : (a | 2 ^ 64) -> (a | x) -> (a | u64 x).
Proof.
  intros Ha Hx. unfold u64, wrap. rewrite Z.mod_eq by lia. apply Z.divide_sub_r; [done|]. by apply Z.divide_mul_l.
Qed.

Lemma align_floor_spec v a : is_u64 v -> pow2 a -> ODP_ALIGN_FLOOR v a = v - v mod a.
Proof.
  intros Hv Ha. pose proof (pow2_pos a Ha). destruct Ha as (k & Hk & ->). unfold ODP_ALIGN_FLOOR. rewrite u64_small by (unfold is_u64; lia).
  replace (2 ^ 64 - 1 - (2 ^ k - 1)) with (2 ^ 64 - 2 ^ k) by lia. apply land_high_mask; [lia|done].
Qed.

(** What is missing to the next multiple. *)
Definition pad (a x : Z) : Z := (- x) mod a.

Lemma pad_bound a x : 0 < a -> 0 <= pad a x < a.
Proof. apply Z.mod_pos_bound. Qed.
Lemma pad_aligned a x : a <> 0 -> (a | x + pad a x).
Proof.
  intros Ha. unfold pad. exists (- (- x / a)). pose proof (Z.div_mod (- x) a Ha). lia.
Qed.
Lemma pad_zero a x : 0 < a -> (a | x) -> pad a x = 0.
Proof. intros Ha Hx. unfold pad. apply Z.mod_divide; [lia|]. by apply Z.divide_opp_r. Qed.
Lemma pad_divide a c x : 0 < a -> (c | a) -> (c | x) -> (c | pad a x).
Proof.
  intros Ha Hc Hx. unfold pad. rewrite Z.mod_eq by lia. apply Z.divide_sub_r; [by apply Z.divide_opp_r|by apply Z.divide_mul_l].
Qed.

(** Rounding up, also across the end of the address range. *)
Lemma align_ceil_spec x a : pow2 a -> ODP_ALIGN_CEIL x a = u64 (x + pad a x).
Proof.
  intros Ha. pose proof (pow2_pos a Ha) as Hp. pose proof (pow2_divide_64 a Ha) as Hd. unfold ODP_ALIGN_CEIL. rewrite align_floor_spec by (done || apply u64_bound).
  rewrite (u64_small (a - 1)) by (unfold is_u64; lia). set (y := x + (a - 1)).
  assert (u64 y mod a = y mod a) as E.
  { unfold u64, wrap. rewrite (Z.mod_eq y (2 ^ 64)) by lia. destruct Hd as [q Hq]. generalize (y / 2 ^ 64). intros d.
    rewrite Hq. replace (y - q * a * d) with (y + - (q * d) * a) by ring. apply Z_mod_plus_full. }
  rewrite E. assert (x + pad a x = y - y mod a) as ->.
  { assert (y mod a = a - 1 - pad a x) as ->; [|lia]. symmetry. apply Z.mod_unique with ((x + pad a x) / a); [left; pose proof (pad_bound a x); lia|].
    destruct (pad_aligned a x ltac:(lia)) as [q Hq]. rewrite Hq, Z.div_mul by lia. lia. }
  pose proof (Z.mod_pos_bound y a ltac:(lia)). pose proof (u64_bound y) as Hb. assert (y mod a <= u64 y) by (rewrite <- E; apply Z.mod_le; [apply Hb|lia]).
  rewrite <- (u64_small (u64 y - y mod a)) by (unfold is_u64 in *; lia). unfold u64, wrap. by rewrite Zminus_mod_idemp_l.
Qed.

Lemma ceil_offset x a : pow2 a -> is_u64 x -> ODP_ALIGN_CEIL x a -u64 x = pad a x.
Proof.
  intros Ha Hx. rewrite align_ceil_spec by done. pose proof (pow2_pos a Ha). pose proof (pad_bound a x ltac:(lia)).
  unfold u64 at 1, wrap. unfold u64, wrap. rewrite Zminus_mod_idemp_l. replace (x + pad a x - x) with (pad a x) by lia. apply Z.mod_small. lia.
Qed.

(** ** The start of a piece in a fragment *)

Lemma boundary_exit fuel ms len step bmask start off :
  is_u64 (off + len) -> f_len ms <= off + len -> boundary_loop (S fuel) ms len step bmask start off = Some off.
Proof. intros Hu H. cbn [boundary_loop]. rewrite u64_small by done. by rewrite (proj2 (Z.ltb_ge _ _)). Qed.

(** Two addresses less than [bound] apart, the first a multiple of it. *)
Lemma same_boundary s len b : pow2 b -> is_u64 s -> (b | s) -> 0 <= len <= b ->
  (s & (2 ^ 64 - 1 - (b -u64 1))) = (((s +u64 len) -u64 (if len =? 0 then 0 else 1)) & (2 ^ 64 - 1 - (b -u64 1))).
Proof.
  intros Hb Hs Hd Hl. pose proof (pow2_pos b Hb) as Hp. destruct (Z.eqb_spec len 0) as [->|Hne].
  { rewrite Z.add_0_r, Z.sub_0_r, !(u64_small s) by (by rewrite ?u64_small). done. }
  assert (s + b <= 2 ^ 64) as Hend.
  { destruct Hd as [q ->], (pow2_divide_64 b Hb) as [r Hr]. unfold is_u64 in Hs. rewrite Hr in Hs |- *.
    assert (q < r) by (apply (Z.mul_lt_mono_pos_r b); lia). replace (q * b + b) with ((q + 1) * b) by ring. apply Z.mul_le_mono_nonneg_r; lia. }
  assert ((s +u64 len) -u64 1 = s + len - 1) as ->.
  { unfold u64 at 1, wrap. unfold u64, wrap. rewrite Zminus_mod_idemp_l. apply Z.mod_small. unfold is_u64 in Hs. lia. }
  pose proof (align_floor_spec s b Hs Hb) as E1. pose proof (align_floor_spec (s + len - 1) b ltac:(unfold is_u64 in *; lia) Hb) as E2.
  unfold ODP_ALIGN_FLOOR in E1, E2. rewrite E1, E2. destruct Hd as [q ->]. rewrite Z_mod_mult.
  replace (q * b + len - 1) with (len - 1 + q * b) by lia. rewrite Z_mod_plus_full, Z.mod_small by lia. lia.
Qed.

Lemma u64_divide_inv a x : (a | 2 ^ 64) -> (a | u64 x) -> (a | x).
Proof.
  intros Ha Hx. unfold u64, wrap in Hx. rewrite Z.mod_eq in Hx by lia. replace x with (x - 2 ^ 64 * (x / 2 ^ 64) + 2 ^ 64 * (x / 2 ^ 64)) by lia.
  apply Z.divide_add_r; [done|]. by apply Z.divide_mul_l.
Qed.

(** The offset that is found: aligned, and inside one boundary unless the
    fragment is too short. *)
Record start_ok (ms : odp_mmfrag) (len align bound off : Z) : Prop := {
  so_range : 0 <= off < 2 ^ 34;
  so_align : (align | f_phys_addr ms + off);
  so_bound : 0 < bound -> off + len < f_len ms ->
    exists q, q * bound <= u64 (f_phys_addr ms + off) /\ u64 (f_phys_addr ms + off) + len <= (q + 1) * bound;
  so_pad : bound = 0 -> off = pad align (f_phys_addr ms)
}.

Lemma boundary_plain ms len align :
  pow2 align -> is_u64 (f_phys_addr ms) -> align_phys_boundary ms len align 0 = Some (pad align (f_phys_addr ms)).
Proof.
  intros Ha Hp. unfold align_phys_boundary, boundary_fuel. cbn [boundary_loop]. rewrite ceil_offset by done.
  change (2 ^ 64 - 1 - (0 -u64 1)) with 0. rewrite !Z.land_0_r. simpl (0 =? 0). by destruct (_ <? _).
Qed.

(** Two addresses with the same boundary below them. *)
Lemma boundary_inside s len b : pow2 b -> is_u64 s -> 0 < len <= b ->
  (s & (2 ^ 64 - 1 - (b -u64 1))) = (((s +u64 len) -u64 (if len =? 0 then 0 else 1)) & (2 ^ 64 - 1 - (b -u64 1))) ->
  exists q, q * b <= s /\ s + len <= (q + 1) * b.
Proof.
  intros Hb Hs Hl. rewrite (proj2 (Z.eqb_neq _ _)) by lia. pose proof (pow2_pos b Hb) as Hp.
  set (e := (s +u64 len) -u64 1). pose proof (align_floor_spec s b Hs Hb) as E1. pose proof (align_floor_spec e b ltac:(apply u64_bound) Hb) as E2.
  unfold ODP_ALIGN_FLOOR in E1, E2. rewrite E1, E2. intros E. exists (s / b). pose proof (Z.div_mod s b ltac:(lia)) as D1.
  pose proof (Z.mod_pos_bound s b ltac:(lia)). pose proof (Z.mod_pos_bound e b ltac:(lia)). split; [lia|].
  assert (e = s + len - 1 \/ e = s + len - 1 - 2 ^ 64) as [He|He]; [|lia|unfold is_u64 in Hs; lia].
  unfold e, is_u64 in *. cint.
Qed.

Lemma boundary_total ms len align bound :
  pow2 align -> bound = 0 \/ pow2 bound -> is_u64 (f_phys_addr ms) -> 0 < len < 2 ^ 45 -> (0 < bound -> len <= bound) ->
  exists off, align_phys_boundary ms len align bound = Some off /\ start_ok ms len align bound off.
Proof.
  intros Ha Hb Hp Hl Hlb. pose proof (pow2_pos align Ha) as Hpa. pose proof (pad_bound align (f_phys_addr ms) ltac:(lia)) as Hpad.
  pose proof (pad_aligned align (f_phys_addr ms) ltac:(lia)) as Hal. destruct Hb as [->|Hb].
  { exists (pad align (f_phys_addr ms)). split; [by apply boundary_plain|]. split; [lia|done|lia|done]. }
  pose proof (pow2_pos bound Hb) as Hpb. specialize (Hlb ltac:(lia)). unfold align_phys_boundary, boundary_fuel.
  set (step := Z.max align bound). assert (pow2 step) as Hs by (unfold step; destruct (Z.max_spec align bound) as [[_ ->]|[_ ->]]; done).
  assert ((bound | step) /\ (align | step)) as [Hbs Has].
  { unfold step. destruct (Z.max_spec align bound) as [[? ->]|[? ->]]; split; (apply pow2_divide; [done..|lia]) || apply Z.divide_refl. }
  rewrite ceil_offset by done. set (o := pad align (f_phys_addr ms)) in *. rewrite align_ceil_spec by done. fold o. set (st := u64 (f_phys_addr ms + o)).
  assert (is_u64 st) as Hst by apply u64_bound. cbn [boundary_loop]. rewrite (u64_small (o + len)) by (unfold is_u64; lia). destruct (Z.ltb_spec (o + len) (f_len ms)) as [Hlt|Hge].
  2: { exists o. split; [done|]. split; [lia|done|lia|lia]. }
  destruct (Z.eqb_spec (st & (2 ^ 64 - 1 - (bound -u64 1))) (((st +u64 len) -u64 (if len =? 0 then 0 else 1)) & (2 ^ 64 - 1 - (bound -u64 1)))) as [E|E].
  { exists o. split; [done|]. split; [lia|done| |lia]. intros _ _. apply boundary_inside; [done|done|lia|done]. }
  set (st2 := ODP_ALIGN_CEIL (st +u64 1) step). set (o2 := o + 1 + pad step (st +u64 1)). pose proof (pow2_pos step Hs). pose proof (pad_bound step (st +u64 1) ltac:(lia)).
  assert (st2 = u64 (f_phys_addr ms + o2)) as Est2.
  { unfold st2, o2. rewrite align_ceil_spec by done. unfold st, u64, wrap. set (q := pad _ _). rewrite Zplus_mod_idemp_l, <- Zplus_assoc, Zplus_mod_idemp_l.
    f_equal. lia. }
  assert (st2 -u64 f_phys_addr ms = o2) as ->.
  { rewrite Est2. unfold u64, wrap. rewrite Zminus_mod_idemp_l. replace (f_phys_addr ms + o2 - f_phys_addr ms) with o2 by lia. apply Z.mod_small. lia. }
  assert ((step | st2)) as Hd2 by (unfold st2; rewrite align_ceil_spec by done; apply u64_divide; [by apply pow2_divide_64|apply pad_aligned; lia]).
  assert (is_u64 st2) as Hu2 by (rewrite Est2; apply u64_bound).
  exists o2. rewrite (u64_small (o2 + len)) by (unfold is_u64; lia).
  assert (start_ok ms len align bound o2) as Hok.
  { split; [lia| | |lia].
    - apply u64_divide_inv; [by apply pow2_divide_64|]. rewrite <- Est2. by etrans.
    - intros _ _. rewrite <- Est2. apply boundary_inside; [done|done|lia|]. apply same_boundary; [done|done|by etrans|lia]. }
  destruct (o2 + len <? f_len ms); [|done].
  rewrite (proj2 (Z.eqb_eq _ _)); [done|]. apply same_boundary; [done|done|by etrans|lia].
Qed.

(** ** The choice of a fragment *)

(** The fragments up to the first entry that is not in use. *)
Fixpoint known_frags (l : list odp_mmfrag) : list odp_mmfrag :=
  match l with
  | [] => []
  | f :: l => if f_addr f =? 0 then [] else f :: known_frags l
  end.

Lemma known_frags_lookup l k f : known_frags l !! k = Some f -> l !! k = Some f /\ f_addr f <> 0.
Proof.
  revert k. induction l as [|g l IH]; intros k H; [done|]. simpl in H. destruct (Z.eqb_spec (f_addr g) 0); [done|].
  destruct k as [|k]; [by injection H as <-|]. by apply IH.
Qed.

(** The demands on a piece. *)
Record demand_ok (requested_len align bound : Z) : Prop := {
  dm_align : pow2 align;
  dm_bound : bound = 0 \/ pow2 bound;
  dm_len : 0 < requested_len < 2 ^ 45;
  dm_fits : 0 < bound -> requested_len <= bound
}.

(** A fragment that has the piece at offset [off]. *)
Record suits (requested_len socket_id flags align bound : Z) (f : odp_mmfrag) (off : Z) : Prop := {
  su_socket : other_socket socket_id f = false;
  su_pages : other_pages flags f = false;
  su_start : align_phys_boundary f requested_len align bound = Some off;
  su_range : 0 <= off;
  su_fits : off + requested_len <= f_len f
}.

Section pick.
Context (len requested_len socket_id flags align bound : Z) (Hd : demand_ok requested_len align bound).

Lemma suits_offset f off : is_u64 (f_phys_addr f) -> suits requested_len socket_id flags align bound f off -> start_ok f requested_len align bound off.
Proof.
  intros Hf [_ _ Hs _ _]. destruct Hd. destruct (boundary_total f requested_len align bound) as (o & Ho & Hok); [done..|].
  rewrite Hs in Ho. by injection Ho as ->.
Qed.

Lemma pick_spec l : Forall (fun f => is_u64 (f_phys_addr f)) l -> forall i best,
  exists r, pick len requested_len socket_id flags align bound i l best = Some r /\
    (r = None -> best = None /\ forall k f off, known_frags l !! k = Some f -> ~ suits requested_len socket_id flags align bound f off) /\
    (forall b, r = Some b -> best = Some b \/ exists k f, known_frags l !! k = Some f /\ mmfrag_idx b = i + Z.of_nat k /\
       mmfrag_len b = f_len f /\ suits requested_len socket_id flags align bound f (seg_offset b)).
Proof.
  induction 1 as [|f l Hf Hl IH]; intros i best; [by exists best; split_and!; [done| |left]|].
  cbn [pick known_frags]. destruct (Z.eqb_spec (f_addr f) 0) as [H0|H0]; [by exists best; split_and!; [done| |left]|].
  assert (forall best', best' = best \/ (exists o, best' = Some (Choice i (f_len f) o) /\ suits requested_len socket_id flags align bound f o) ->
    ((exists o, suits requested_len socket_id flags align bound f o) -> best' <> None) -> exists r, pick len requested_len socket_id flags align bound (i + 1) l best' = Some r /\
    (r = None -> best = None /\ forall k g off, (f :: known_frags l) !! k = Some g -> ~ suits requested_len socket_id flags align bound g off) /\
    (forall b, r = Some b -> best = Some b \/ exists k g, (f :: known_frags l) !! k = Some g /\ mmfrag_idx b = i + Z.of_nat k /\
       mmfrag_len b = f_len g /\ suits requested_len socket_id flags align bound g (seg_offset b))) as Hgo.
  { intros best' Hb' Hne. destruct (IH (i + 1) best') as (r & Hr & Hn & Hs). exists r. split_and!; [done| |].
    - intros ->. destruct (Hn eq_refl) as [-> Hno]. split; [by destruct Hb' as [<-|(? & ? & _)]|].
      intros [|k] g off Hg Hsu; [|by eapply Hno]. injection Hg as <-. apply Hne; [by exists off|done].
    - intros b ->. destruct (Hs b eq_refl) as [->|(k & g & Hk & Hi & Hm & Hsu)].
      + destruct Hb' as [<-|(o & Ho & Hsu)]; [by left|]. right. exists 0%nat, f. injection Ho as ->. split_and!; [done|simpl; lia|done|done].
      + right. exists (S k), g. split_and!; [done|lia|done|done]. }
  destruct Hd as [Ha Hb Hlen Hfit]. destruct (boundary_total f requested_len align bound Ha Hb Hf Hlen Hfit) as (o & Ho & [Hor _ _ _]).
  destruct (Z.eqb_spec (f_len f) 0) as [Hz|Hz]; [apply Hgo; [by left|intros (o' & [_ _ _ ? ?]); lia]|].
  destruct (other_socket socket_id f) eqn:Es; [apply Hgo; [by left|by intros (o' & [? _ _ _ _]); congruence]|].
  rewrite Ho. cbn [mbind option_bind]. rewrite (u64_small (requested_len + o)) by (unfold is_u64; lia).
  destruct (Z.gtb_spec (requested_len + o) (f_len f)) as [Hgt|Hle].
  { apply Hgo; [by left|]. intros (o' & [_ _ Ho' ? ?]). rewrite Ho in Ho'. injection Ho' as <-. lia. }
  destruct (other_pages flags f) eqn:Ep; [apply Hgo; [by left|by intros (o' & [_ ? _ _ _]); congruence]|].
  destruct (better len align f o best) eqn:Eb; apply Hgo.
  - right. exists o. split; [done|]. split; [done|done|done|lia|lia].
  - done.
  - by left.
  - intros _ ->. done.
Qed.

End pick.

(** ** The parameters of a call *)

(** The parameters of a call as it works with them. *)
Definition norm_align (align : Z) : Z := if align <? ODP_CACHE_LINE_SIZE then ODP_CACHE_LINE_SIZE else align.
Definition norm_len (len : Z) : Z := ODP_ALIGN_FLOOR (len +u64 ODP_CACHE_LINE_MASK) ODP_CACHE_LINE_SIZE.
Definition req_len (len : Z) : Z := Z.max ODP_CACHE_LINE_SIZE (norm_len len).
Definition valid (len align bound : Z) : bool :=
  ((align =? 0) || odp_is_power_of_2 align) && (len <=? MEM_SIZE_MAX - ODP_CACHE_LINE_MASK) &&
  ((bound =? 0) || ((req_len len <=? bound) && odp_is_power_of_2 bound)).
Definition hinted (flags : Z) : bool :=
  flag flags ODP_MEMZONE_SIZE_HINT_ONLY &&
  (flag flags ODP_MEMZONE_1GB || flag flags ODP_MEMZONE_2MB || flag flags ODP_MEMZONE_16MB || flag flags ODP_MEMZONE_16GB).

Lemma norm_len_spec len : 0 <= len <= MEM_SIZE_MAX - ODP_CACHE_LINE_MASK ->
  norm_len len = 64 * ((len + 63) / 64) /\ len <= norm_len len < len + 64 /\ (64 | norm_len len).
Proof.
  unfold MEM_SIZE_MAX, ODP_CACHE_LINE_MASK, ODP_CACHE_LINE_SIZE. intros H. unfold norm_len, ODP_CACHE_LINE_MASK, ODP_CACHE_LINE_SIZE.
  rewrite (u64_small (len + (64 - 1))) by (unfold is_u64; lia). rewrite align_floor_spec; [|unfold is_u64; lia|by exists 6].
  replace (len + (64 - 1)) with (len + 63) by lia. pose proof (Z.div_mod (len + 63) 64 ltac:(lia)) as E. pose proof (Z.mod_pos_bound (len + 63) 64 ltac:(lia)).
  split_and!; [lia..|]. exists ((len + 63) / 64). lia.
Qed.

Lemma norm_align_pow2 align : is_u32 align -> align = 0 \/ pow2 align -> pow2 (norm_align align) /\ (64 | norm_align align).
Proof.
  intros Hu Ha. unfold norm_align, ODP_CACHE_LINE_SIZE. assert (pow2 64) as H64 by (by exists 6). destruct (Z.ltb_spec align 64) as [Hlt|Hge]; [done|].
  destruct Ha as [->|Ha]; [lia|]. split; [done|]. by apply pow2_divide.
Qed.

(** Parameters as C has them, less the rest of a fragment up to a boundary. *)
Record params_ok (len align bound : Z) : Prop := {
  pa_len : is_u64 len;
  pa_align : is_u32 align;
  pa_bound : is_u32 bound;
  pa_rest : len = 0 -> bound = 0
}.

Lemma valid_demand len align bound :
  params_ok len align bound -> valid len align bound = true ->
  demand_ok (req_len len) (norm_align align) bound /\ 0 <= len <= MEM_SIZE_MAX - ODP_CACHE_LINE_MASK /\ (64 | norm_align align).
Proof.
  intros [Hl Ha Hb _] [[H1 H2%Z.leb_le]%andb_prop H3]%andb_prop. unfold is_u64 in Hl. assert (align = 0 \/ pow2 align) as Hp.
  { apply orb_prop in H1 as [?%Z.eqb_eq|?]; [by left|right; by apply is_power_of_2_spec]. }
  assert (bound = 0 \/ (req_len len <= bound /\ pow2 bound)) as Hq.
  { apply orb_prop in H3 as [?%Z.eqb_eq|[?%Z.leb_le ?]%andb_prop]; [by left|right; split; [done|by apply is_power_of_2_spec]]. }
  destruct (norm_align_pow2 align Ha Hp) as [Hn Hd]. destruct (norm_len_spec len ltac:(lia)) as (_ & Hnl & _). split_and!; [|lia|done..].
  split; [done|tauto| |intros; destruct Hq as [?|[? _]]; [lia|done]]. unfold req_len, ODP_CACHE_LINE_SIZE, MEM_SIZE_MAX in *. unfold ODP_CACHE_LINE_MASK, ODP_CACHE_LINE_SIZE in *. lia.
Qed.

Lemma reserve_unfold fuel name orig_name len socket_id flags align bound m :
  mm_district_reserve_aligned (S fuel) name orig_name len socket_id flags align bound m =
  if mm_district_idx m >=? 128 then Some (inr ENOSPC, m)
  else match mm_district_lookup name m with
       | Some d => Some (inl d, m)
       | None =>
           if negb (valid len align bound) then Some (inr EINVAL, m)
           else
             best ← pick (norm_len len) (req_len len) socket_id flags (norm_align align) bound 0 (free_mmfrag m) None;
             match best with
             | None =>
                 if hinted flags then mm_district_reserve_aligned fuel name orig_name (norm_len len) socket_id 0 (norm_align align) bound m
                 else Some (inr ENOMEM, m)
             | Some b => '(mz, m) ← carve name orig_name (norm_len len) (req_len len) bound b m; Some (inl mz, m)
             end
       end.
Proof.
  cbn [mm_district_reserve_aligned]. unfold ODP_MAX_MM_DISTRICT. destruct (_ >=? 128); [done|]. destruct (mm_district_lookup name m); [done|].
  fold (norm_align align) (norm_len len). fold (req_len len). unfold valid. destruct (align =? 0); cbn [negb andb orb].
  - rewrite Z.gtb_ltb, Z.ltb_antisym. destruct (len <=? _); [|done]. cbn [negb andb]. rewrite Z.gtb_ltb, Z.ltb_antisym.
    by destruct (bound =? 0), (req_len len <=? bound), (odp_is_power_of_2 bound).
  - destruct (odp_is_power_of_2 align); [|done]. cbn [negb andb]. rewrite Z.gtb_ltb, Z.ltb_antisym. destruct (len <=? _); [|done]. cbn [negb andb].
    rewrite Z.gtb_ltb, Z.ltb_antisym. by destruct (bound =? 0), (req_len len <=? bound), (odp_is_power_of_2 bound).
Qed.

(** ** The invariant *)

(** A fragment as start-up leaves it. *)
Record frag_good (b : odp_mmfrag) : Prop := {
  fg_phys : is_u64 (f_phys_addr b);
  fg_addr : f_addr b <> 0 -> 0 < f_addr b /\ 0 <= f_len b /\ f_addr b + f_len b <= 2 ^ 62;
  fg_line : f_addr b <> 0 -> 0 < f_len b -> (64 | f_addr b) /\ (64 | f_len b) /\ (64 | f_phys_addr b)
}.

(** What is left of fragment [b]: always its upper part. *)
Record rest_of (b f : odp_mmfrag) : Prop := {
  rs_addr : f_addr b <= f_addr f;
  rs_len : 0 <= f_len f;
  rs_end : f_addr f + f_len f = f_addr b + f_len b;
  rs_phys : is_u64 (f_phys_addr f);
  rs_line : 0 < f_len b -> (64 | f_addr f) /\ (64 | f_len f) /\ (64 | f_phys_addr f)
}.
Definition part (b f : odp_mmfrag) : Prop := if f_addr b =? 0 then f = b else rest_of b f.

(** A district lies in its fragment below the part that is left. *)
Record cut_from (d : odp_mm_district) (b f : odp_mmfrag) : Prop := {
  cf_frag : f_addr b <> 0;
  cf_start : f_addr b <= d_addr d;
  cf_len : 0 < d_len d;
  cf_end : d_addr d + d_len d <= f_addr f;
  cf_line : (64 | d_addr d) /\ (64 | d_len d)
}.

(** Two districts of the same fragment have no byte in common. *)
Definition apart (d e : odp_mm_district) : Prop :=
  mmfrag_id d = mmfrag_id e -> d_addr d + d_len d <= d_addr e \/ d_addr e + d_len e <= d_addr d.

Lemma apart_sym d e : apart d e -> apart e d.
Proof. unfold apart. intros H E. destruct (H (eq_sym E)); lia. Qed.

Definition live (m : odp_sys_layout) : list odp_mm_district := take (Z.to_nat (mm_district_idx m)) (mm_district m).

Section table.
Context (base : list odp_mmfrag) (Hbase : Forall frag_good base) (Hlen : length base = 128%nat).

Definition placed (free : list odp_mmfrag) (d : odp_mm_district) : Prop :=
  exists b f, zget base (mmfrag_id d) = Some b /\ zget free (mmfrag_id d) = Some f /\ cut_from d b f.

Record wf (m : odp_sys_layout) : Prop := {
  wf_tables : length (mm_district m) = 128%nat /\ length (free_mm_district m) = 128%nat;
  wf_idx : 0 <= mm_district_idx m <= 128 /\ 0 <= free_district_idx m <= 128;
  wf_frags : Forall2 part base (free_mmfrag m);
  wf_placed : Forall (placed (free_mmfrag m)) (live m);
  wf_apart : StronglySorted apart (live m);
  wf_unused : Forall (fun d => d_addr d = 0) (drop (Z.to_nat (mm_district_idx m)) (mm_district m))
}.

Lemma live_rest m : mm_district m = live m ++ drop (Z.to_nat (mm_district_idx m)) (mm_district m).
Proof. symmetry. apply take_drop. Qed.

Lemma live_length m : wf m -> length (live m) = Z.to_nat (mm_district_idx m).
Proof. intros [[H1 _] [H2 _] _ _ _ _]. unfold live. rewrite length_take. lia. Qed.

Lemma base_good i b : zget base i = Some b -> frag_good b.
Proof. intros Hi. pose proof (zget_bound _ _ _ Hi). rewrite zget_nonneg in Hi by lia. by eapply Forall_lookup_1. Qed.

Lemma part_at m i f : wf m -> zget (free_mmfrag m) i = Some f -> exists b, zget base i = Some b /\ part b f.
Proof.
  intros [_ _ H2 _ _ _] Hi. pose proof (zget_bound _ _ _ Hi). rewrite zget_nonneg in Hi by lia.
  destruct (Forall2_lookup_r _ _ _ _ _ H2 Hi) as (b & Hb & Hp). exists b. by rewrite zget_nonneg by lia.
Qed.

Lemma free_length m : wf m -> length (free_mmfrag m) = 128%nat.
Proof. intros [_ _ H2 _ _ _]. rewrite <- (Forall2_length _ _ _ H2). done. Qed.

Lemma free_phys m : wf m -> Forall (fun f => is_u64 (f_phys_addr f)) (free_mmfrag m).
Proof.
  intros [_ _ H2 _ _ _]. apply Forall_lookup_2. intros i f Hi. destruct (Forall2_lookup_r _ _ _ _ _ H2 Hi) as (b & Hb & Hp).
  unfold part in Hp. destruct (f_addr b =? 0); [subst; by apply (Forall_lookup_1 _ _ _ _ Hbase Hb)|by apply Hp].
Qed.

(** A fragment in use. *)
Lemma rest_at m i f : wf m -> zget (free_mmfrag m) i = Some f -> f_addr f <> 0 ->
  exists b, zget base i = Some b /\ frag_good b /\ f_addr b <> 0 /\ rest_of b f.
Proof.
  intros Hwf Hi H0. destruct (part_at m i f Hwf Hi) as (b & Hb & Hp). exists b. unfold part in Hp.
  destruct (Z.eqb_spec (f_addr b) 0) as [E|E]; [by subst|]. split_and!; [done|by eapply base_good|done|done].
Qed.

(** Replacing what is left of one fragment. *)
Lemma parts_insert m i b f :
  wf m -> zget base i = Some b -> f_addr b <> 0 -> rest_of b f -> Forall2 part base (<[Z.to_nat i := f]> (free_mmfrag m)).
Proof.
  intros [_ _ H2 _ _ _] Hb H0 Hr. pose proof (zget_bound _ _ _ Hb). rewrite zget_nonneg in Hb by lia.
  rewrite <- (list_insert_id base (Z.to_nat i) b) by done. apply Forall2_insert; [done|]. unfold part. by rewrite (proj2 (Z.eqb_neq _ _)).
Qed.

Lemma placed_insert m i g d :
  wf m -> 0 <= i < 128 -> placed (free_mmfrag m) d -> (mmfrag_id d = i -> d_addr d + d_len d <= f_addr g) ->
  placed (<[Z.to_nat i := g]> (free_mmfrag m)) d.
Proof.
  intros Hwf Hi (b & f & Hb & Hf & [H1 H2 H3 H4 H5]) Hle. destruct (decide (mmfrag_id d = i)) as [E|E].
  - exists b, g. split_and!; [done| |by split; [..|auto|]]. rewrite zget_insert by (unfold zlen; rewrite free_length by done; lia).
    by rewrite bool_decide_eq_true_2.
  - exists b, f. split_and!; [done| |done]. rewrite zget_insert by (unfold zlen; rewrite free_length by done; lia).
    by rewrite bool_decide_eq_false_2.
Qed.

(** ** Reservation *)

(** The length of a piece at [off], and the district made of it. *)
Definition piece_len (len requested_len : Z) (f : odp_mmfrag) (off : Z) : Z := if len =? 0 then f_len f - off else requested_len.
Definition new_district (name orig_name : string) (i : Z) (f : odp_mmfrag) (off l : Z) : odp_mm_district :=
  Dist (String.substring 0 63 name) (String.substring 0 55 orig_name) (f_phys_addr f +u64 off) (f_phys_addr f +u64 off +u64 l)
    (f_addr f + off -u64 (f_phys_addr f +u64 off)) (f_addr f + off) l (f_hugepage_sz f) (f_socket_id f) 0 i.
Definition cut_frag (f : odp_mmfrag) (n : Z) : odp_mmfrag :=
  Frag (f_phys_addr f +u64 n) (f_addr f + n) (f_len f - n) (f_hugepage_sz f) (f_socket_id f) (channel_num f) (rank_num f).
Definition with_district (i : Z) (f : odp_mmfrag) (d : odp_mm_district) (m : odp_sys_layout) : odp_sys_layout :=
  set_free_mmfrag (<[Z.to_nat i := f]> (free_mmfrag m))
    (set_district (mm_district_idx m + 1) (<[Z.to_nat (mm_district_idx m) := d]> (mm_district m)) m).

Lemma carve_spec name orig_name len requested_len bound i f off m :
  wf m -> mm_district_idx m < 128 -> zget (free_mmfrag m) i = Some f -> f_addr f <> 0 -> 0 <= off -> 0 < requested_len ->
  off + requested_len <= f_len f -> (len = 0 -> bound = 0) ->
  let l := piece_len len requested_len f off in
  carve name orig_name len requested_len bound (Choice i (f_len f) off) m =
    Some (mm_district_idx m, with_district i (cut_frag f (off + l)) (new_district name orig_name i f off l) m).
Proof.
  intros Hwf Hidx Hf H0 Hoff Hreq Hfit Hb l. destruct (rest_at m i f Hwf Hf H0) as (b & Hbi & [_ Hga _] & Hb0 & [Hr1 Hr2 Hr3 Hr4 _]).
  specialize (Hga Hb0). pose proof (zget_bound _ _ _ Hbi) as Hi. assert (requested_len <= l /\ off + l <= f_len f) as [Hl1 Hl2].
  { unfold l, piece_len. destruct (len =? 0); lia. }
  assert ((if len =? 0 then if bound =? 0 then f_len f -u64 off else ODP_ALIGN_CEIL (f_phys_addr f +u64 off +u64 1) bound -u64 (f_phys_addr f +u64 off)
           else requested_len) = l) as Hl.
  { unfold l, piece_len. destruct (Z.eqb_spec len 0) as [E|E]; [|done]. rewrite (Hb E). simpl (0 =? 0). cbv iota. apply u64_small. unfold is_u64. lia. }
  unfold carve. cbn [mmfrag_idx mmfrag_len seg_offset]. rewrite Hf. cbn [mbind option_bind]. rewrite Hl.
  rewrite (u64_small (off + l)), (u64_small (f_addr f + off)), (u64_small (f_addr f + (off + l))), (u64_small (f_len f - (off + l))) by (unfold is_u64; lia).
  rewrite (zset_Some (free_mmfrag m)) by (unfold zlen in *; rewrite free_length by done; lia). cbn [mbind option_bind].
  destruct (wf_idx _ Hwf) as [Hx _]. destruct (wf_tables _ Hwf) as [Ht _].
  rewrite zset_Some by (unfold zlen; lia). cbn [mbind option_bind]. rewrite (u32_small (mm_district_idx m + 1)) by (unfold is_u32; lia). done.
Qed.

Lemma live_with_district i f d m : wf m -> mm_district_idx m < 128 -> live (with_district i f d m) = live m ++ [d].
Proof.
  intros Hwf Hidx. destruct (wf_idx _ Hwf) as [Hx _]. destruct (wf_tables _ Hwf) as [Ht _]. unfold live, with_district. cbn [mm_district_idx mm_district set_free_mmfrag set_district].
  replace (Z.to_nat (mm_district_idx m + 1)) with (S (Z.to_nat (mm_district_idx m))) by lia.
  erewrite take_S_r by (apply list_lookup_insert_eq; lia). by rewrite take_insert_ge by lia.
Qed.

Lemma with_district_wf i f n off l d m :
  wf m -> mm_district_idx m < 128 -> zget (free_mmfrag m) i = Some f -> f_addr f <> 0 ->
  0 <= off -> 0 < l -> (64 | off) -> (64 | l) -> n = off + l -> n <= f_len f -> mmfrag_id d = i -> d_addr d = f_addr f + off -> d_len d = l ->
  wf (with_district i (cut_frag f n) d m).
Proof.
  intros Hwf Hidx Hf H0 Hoff Hl Ho64 Hl64 -> Hn Hid Hda Hdl. destruct (rest_at m i f Hwf Hf H0) as (b & Hbi & [_ Hga _] & Hb0 & [Hr1 Hr2 Hr3 Hr4 Hr5]).
  pose proof (zget_bound _ _ _ Hbi) as Hi. unfold zlen in Hi. rewrite Hlen in Hi. specialize (Hga Hb0). destruct (Hr5 ltac:(lia)) as (Ha & Hb & Hc).
  assert (rest_of b (cut_frag f (off + l))) as Hrest.
  { split; simpl; [lia|lia|lia|apply u64_bound|intros _]. assert ((64 | off + l)) by (by apply Z.divide_add_r).
    split_and!; [by apply Z.divide_add_r|by apply Z.divide_sub_r|apply u64_divide; [by exists (2 ^ 58)|by apply Z.divide_add_r]]. }
  pose proof Hwf as [[Ht1 Ht2] [Hx1 Hx2] H2 Hp Hap Hu].
  split; cbn [with_district mm_district free_mm_district mm_district_idx free_district_idx free_mmfrag set_free_mmfrag set_district];
    rewrite ?live_with_district by done.
  - by rewrite length_insert.
  - lia.
  - by eapply parts_insert.
  - apply Forall_app. split.
    + eapply Forall_impl; [exact Hp|]. intros e He. apply placed_insert; [done|lia|done|]. intros Ee.
      destruct He as (b' & f' & _ & Hf' & [_ _ _ Hend _]). rewrite Ee, Hf in Hf'. injection Hf' as <-. simpl. lia.
    + constructor; [|done]. exists b, (cut_frag f (off + l)). rewrite Hid. split_and!; [done| |].
      * rewrite zget_insert by (unfold zlen; rewrite free_length by done; lia). by rewrite bool_decide_eq_true_2.
      * split; rewrite ?Hda, ?Hdl; simpl; [done|lia|lia|lia|]. split; [by apply Z.divide_add_r|done].
  - apply StronglySorted_app. split_and!; [|done|by repeat constructor]. intros e d' He ->%list_elem_of_singleton Eid.
    apply (proj1 (Forall_forall _ _) Hp) in He. destruct He as (b' & f' & _ & Hf' & [_ _ _ Hend _]). rewrite Eid, Hid, Hf in Hf'. injection Hf' as <-. lia.
  - replace (Z.to_nat (mm_district_idx m + 1)) with (S (Z.to_nat (mm_district_idx m))) by lia. rewrite drop_insert_lt by lia.
    replace (S (Z.to_nat (mm_district_idx m))) with (Z.to_nat (mm_district_idx m) + 1)%nat by lia. rewrite <- drop_drop. by apply Forall_drop.
Qed.

(** The layout after a new district of the piece at [off] in fragment [i]. *)
Definition reserved (name orig_name : string) (len i : Z) (f : odp_mmfrag) (off : Z) (m : odp_sys_layout) : odp_sys_layout :=
  let l := piece_len (norm_len len) (req_len len) f off in
  with_district i (cut_frag f (off + l)) (new_district name orig_name i f off l) m.

Lemma level name orig_name len socket_id flags align bound m fuel :
  wf m -> mm_district_idx m < 128 -> mm_district_lookup name m = None -> params_ok len align bound -> valid len align bound = true ->
  (exists k f off, known_frags (free_mmfrag m) !! k = Some f /\ suits (req_len len) socket_id flags (norm_align align) bound f off /\
     mm_district_reserve_aligned (S fuel) name orig_name len socket_id flags align bound m =
       Some (inl (mm_district_idx m), reserved name orig_name len (Z.of_nat k) f off m)) \/
  ((forall k f off, known_frags (free_mmfrag m) !! k = Some f -> ~ suits (req_len len) socket_id flags (norm_align align) bound f off) /\
   mm_district_reserve_aligned (S fuel) name orig_name len socket_id flags align bound m =
     if hinted flags then mm_district_reserve_aligned fuel name orig_name (norm_len len) socket_id 0 (norm_align align) bound m
     else Some (inr ENOMEM, m)).
Proof.
  intros Hwf Hidx Hlk Hpar Hv. destruct (valid_demand len align bound Hpar Hv) as (Hd & Hl & _). rewrite reserve_unfold.
  rewrite Z.geb_leb, (proj2 (Z.leb_gt _ _)), Hlk, Hv by lia. cbn [negb].
  destruct (pick_spec (norm_len len) (req_len len) socket_id flags (norm_align align) bound Hd (free_mmfrag m) (free_phys m Hwf) 0 None) as (r & -> & Hn & Hs).
  cbn [mbind option_bind]. destruct r as [b|]; [left|right; by split; [apply Hn|]].
  destruct (Hs b eq_refl) as [?|(k & f & Hk & Hi & Hm & Hsu)]; [done|]. exists k, f, (seg_offset b). split_and!; [done|done|].
  destruct b as [bi bl bo]. cbn [mmfrag_idx mmfrag_len seg_offset] in *. rewrite Z.add_0_l in Hi. subst bi bl. destruct (known_frags_lookup _ _ _ Hk) as [Hkf Hf0]. destruct Hsu as [_ _ _ Hor Hofit]. destruct Hd as [_ _ Hreq _].
  rewrite (carve_spec name orig_name (norm_len len) (req_len len) bound (Z.of_nat k) f bo m); [done|done|done|by rewrite zget_of_nat|done|lia|lia|lia|].
  intros E. apply Hpar. destruct (norm_len_spec len Hl) as (_ & ? & _). lia.
Qed.

Lemma reserved_wf name orig_name len socket_id flags align bound m k f off :
  wf m -> mm_district_idx m < 128 -> params_ok len align bound -> valid len align bound = true ->
  known_frags (free_mmfrag m) !! k = Some f -> suits (req_len len) socket_id flags (norm_align align) bound f off ->
  wf (reserved name orig_name len (Z.of_nat k) f off m).
Proof.
  intros Hwf Hidx Hpar Hv Hk Hsu. destruct (valid_demand len align bound Hpar Hv) as (Hd & Hl & Hd64). destruct (known_frags_lookup _ _ _ Hk) as [Hkf Hf0].
  assert (zget (free_mmfrag m) (Z.of_nat k) = Some f) as Hz by (by rewrite zget_of_nat).
  destruct (rest_at m _ f Hwf Hz Hf0) as (b & _ & _ & _ & [Hr1 Hr2 Hr3 Hph Hr5]).
  pose proof (suits_offset _ _ _ _ _ Hd f off Hph Hsu) as [_ Hoal _ _]. destruct Hsu as [_ _ _ Ho Hfit].
  destruct (norm_len_spec len Hl) as (_ & Hnl & Hn64). pose proof (dm_len _ _ _ Hd). destruct (Hr5 ltac:(lia)) as (Hfa & Hfl & Hfp).
  assert ((64 | off)) as Ho64.
  { replace off with (f_phys_addr f + off - f_phys_addr f) by lia. apply Z.divide_sub_r; [|done]. exact (Z.divide_trans _ _ _ Hd64 Hoal). }
  assert ((64 | piece_len (norm_len len) (req_len len) f off)) as Hp64.
  { unfold piece_len. destruct (_ =? 0); [by apply Z.divide_sub_r|]. unfold req_len, ODP_CACHE_LINE_SIZE.
    destruct (Z.max_spec 64 (norm_len len)) as [[_ ->]|[_ ->]]; [done|apply Z.divide_refl]. }
  eapply with_district_wf; [done|done|done|done|exact Ho| |done|exact Hp64|done| |done..].
  - unfold piece_len. destruct (_ =? 0); lia.
  - unfold piece_len. destruct (_ =? 0); lia.
Qed.

(** A state that a call leaves: the old one, or one with a new district. *)
Definition reserve_state (name orig_name : string) (m m' : odp_sys_layout) : Prop :=
  m' = m \/
  exists len socket_id flags align bound k f off, mm_district_idx m < 128 /\ params_ok len align bound /\ valid len align bound = true /\
    known_frags (free_mmfrag m) !! k = Some f /\ suits (req_len len) socket_id flags (norm_align align) bound f off /\
    m' = reserved name orig_name len (Z.of_nat k) f off m.

Lemma reserve_state_wf name orig_name m m' : wf m -> reserve_state name orig_name m m' -> wf m'.
Proof.
  intros Hwf [->|(len & socket_id & flags & align & bound & k & f & off & Hidx & Hpar & Hv & Hk & Hsu & ->)]; [done|]. by eapply reserved_wf.
Qed.

(** A call returns. *)
Lemma reserve_total name orig_name len socket_id flags align bound m :
  wf m -> params_ok len align bound ->
  exists r m', mm_district_reserve_aligned reserve_fuel name orig_name len socket_id flags align bound m = Some (r, m') /\ reserve_state name orig_name m m'.
Proof.
  intros Hwf Hpar. assert (reserve_state name orig_name m m) as Hsame by (by left).
  unfold reserve_fuel. destruct (Z.geb_spec (mm_district_idx m) 128) as [Hge|Hlt]; [rewrite reserve_unfold, Z.geb_leb, (proj2 (Z.leb_le _ _)) by lia; eauto|].
  destruct (mm_district_lookup name m) eqn:El; [rewrite reserve_unfold, Z.geb_leb, (proj2 (Z.leb_gt _ _)), El by lia; eauto|].
  assert (forall l f a fuel, params_ok l a bound -> valid l a bound = false ->
     mm_district_reserve_aligned (S fuel) name orig_name l socket_id f a bound m = Some (inr EINVAL, m)) as Hbad.
  { intros l f a fuel _ Hv. by rewrite reserve_unfold, Z.geb_leb, (proj2 (Z.leb_gt _ _)), El, Hv by lia. }
  destruct (valid len align bound) eqn:Ev; [|rewrite Hbad by done; eauto].
  destruct (level name orig_name len socket_id flags align bound m 1 Hwf Hlt El Hpar Ev) as [(k & f & off & Hk & Hsu & ->)|[_ ->]].
  { eexists _, _. split; [done|]. right. by eexists len, socket_id, flags, align, bound, k, f, off. }
  destruct (hinted flags); [|by eauto]. destruct (valid_demand len align bound Hpar Ev) as (Hd & Hl & _). destruct (norm_len_spec len Hl) as (_ & Hnl & _).
  assert (params_ok (norm_len len) (norm_align align) bound) as Hpar'.
  { destruct Hpar as [H1 H2 H3 H4]. unfold MEM_SIZE_MAX, ODP_CACHE_LINE_MASK, ODP_CACHE_LINE_SIZE in Hl. split; [unfold is_u64; lia| |done|intros; apply H4; lia].
    pose proof (pow2_pos _ (dm_align _ _ _ Hd)). unfold is_u32. lia. }
  destruct (valid (norm_len len) (norm_align align) bound) eqn:Ev'; [|rewrite Hbad by done; eauto].
  destruct (level name orig_name (norm_len len) socket_id 0 (norm_align align) bound m 0 Hwf Hlt El Hpar' Ev') as [(k & f & off & Hk & Hsu & ->)|[_ ->]]; [|by eauto].
  eexists _, _. split; [done|]. right. by eexists (norm_len len), socket_id, 0, (norm_align align), bound, k, f, off.
Qed.

(** ** Search by name *)

Definition named (name : string) (d : odp_mm_district) : bool := strn_eq ODP_MEMZONE_NAMESIZE name (d_name d).

Lemma lookup_loop_spec name rest l : Forall (fun d => d_addr d <> 0) l -> Forall (fun d => d_addr d = 0) rest -> forall i,
  match lookup_loop name i (l ++ rest) with
  | Some j => exists k d, j = i + Z.of_nat k /\ l !! k = Some d /\ named name d = true /\
                forall k' d', (k' < k)%nat -> l !! k' = Some d' -> named name d' = false
  | None => forall k d, l !! k = Some d -> named name d = false
  end.
Proof.
  intros Hl Hr. induction Hl as [|d l Hd Hl IH]; intros i.
  { destruct Hr as [|d rest Hd _]; [done|]. simpl. by rewrite Hd. }
  cbn [lookup_loop app]. rewrite (proj2 (Z.eqb_neq _ _)) by done. fold (named name d). destruct (named name d) eqn:En.
  { exists 0%nat, d. split_and!; [lia|done|done|lia]. }
  specialize (IH (i + 1)). destruct (lookup_loop name (i + 1) (l ++ rest)) as [j|].
  - destruct IH as (k & e & -> & Hk & He & Hno). exists (S k), e. split_and!; [lia|done|done|]. intros [|k'] d' Hlt Hk'; [by injection Hk' as <-|]. eapply Hno; [|done]. lia.
  - intros [|k] e Hk; [by injection Hk as <-|]. by apply (IH k).
Qed.

Lemma live_addr m : wf m -> Forall (fun d => d_addr d <> 0) (live m).
Proof.
  intros Hwf. eapply Forall_impl; [apply (wf_placed _ Hwf)|]. intros d (b & f & Hb & _ & [H0 H1 _ _ _]).
  destruct (fg_addr _ (base_good _ _ Hb) H0). lia.
Qed.

Lemma lookup_live name m : wf m ->
  match mm_district_lookup name m with
  | Some j => exists k d, j = Z.of_nat k /\ live m !! k = Some d /\ named name d = true /\
                forall k' d', (k' < k)%nat -> live m !! k' = Some d' -> named name d' = false
  | None => forall k d, live m !! k = Some d -> named name d = false
  end.
Proof.
  intros Hwf. unfold mm_district_lookup. rewrite live_rest. pose proof (lookup_loop_spec name _ (live m) (live_addr m Hwf) (wf_unused _ Hwf) 0) as H.
  destruct (lookup_loop _ _ _); [|done]. destruct H as (k & d & -> & H). by exists k, d.
Qed.

(** ** Giving a district back *)

Lemma shift_down_app n : forall a x b c, length b = n ->
  shift_down n (zlen a) (a ++ x :: b ++ c) = Some (a ++ b ++ default x (last b) :: c).
Proof.
  induction n as [|n IH]; intros a x b c Hb; [by destruct b|]. destruct b as [|y b]; [done|]. cbn [shift_down]. unfold zlen.
  replace (Z.of_nat (length a) + 1) with (Z.of_nat (length (a ++ [x]))) by (rewrite length_app; simpl; lia).
  rewrite zget_of_nat. replace (a ++ x :: (y :: b) ++ c) with ((a ++ [x]) ++ y :: b ++ c) by (by rewrite <- app_assoc). rewrite list_lookup_middle by done.
  cbn [mbind option_bind]. rewrite zset_Some by (unfold zlen; rewrite !length_app; simpl; lia). rewrite Nat2Z.id. cbn [mbind option_bind].
  rewrite <- app_assoc. rewrite insert_app_r_alt, Nat.sub_diag by lia. cbn [app insert list_insert].
  replace (Z.of_nat (length (a ++ [x]))) with (zlen (a ++ [y])) by (unfold zlen; rewrite !length_app; done).
  replace (a ++ y :: y :: b ++ c) with ((a ++ [y]) ++ y :: b ++ c) by (by rewrite <- app_assoc).
  rewrite IH by (simpl in Hb; lia). rewrite <- app_assoc. destruct b as [|z b]; [done|].
  change (last (y :: z :: b)) with (last (z :: b)). destruct (last (z :: b)) eqn:E; [done|by apply last_None in E].
Qed.

(** The table without entry [k], whose place the entries behind it take. *)
Lemma remove_entry m k d : wf m -> mm_district_idx m < 128 -> live m !! k = Some d ->
  exists rest, Forall (fun e => d_addr e = 0) rest /\
    (length (take k (live m) ++ drop (S k) (live m) ++ rest) = 128)%nat /\
    (let n := Z.to_nat (mm_district_idx m - Z.of_nat k) in
     (l ← shift_down n (Z.of_nat k) (mm_district m); zset l (Z.of_nat k + Z.of_nat n) unused_district) =
       Some (take k (live m) ++ drop (S k) (live m) ++ rest)).
Proof.
  intros Hwf Hidx Hk. pose proof (live_length m Hwf) as Hll. pose proof (lookup_lt_Some _ _ _ Hk) as Hkl. destruct (wf_tables _ Hwf) as [Ht _]. destruct (wf_idx _ Hwf) as [Hx _].
  pose proof (wf_unused _ Hwf) as Hu. pose proof (live_rest m) as Hmm. destruct (drop (Z.to_nat (mm_district_idx m)) (mm_district m)) as [|c0 c] eqn:Ec.
  { rewrite Hmm, app_nil_r in Ht. lia. }
  apply Forall_cons in Hu as [Hc0 Hc]. set (a := take k (live m)). set (b := drop (S k) (live m)).
  assert (live m = a ++ d :: b) as Hlive by (unfold a, b; by rewrite take_drop_middle).
  assert (length a = k) as Ha by (unfold a; rewrite length_take; lia). assert (S (length a + length b) = Z.to_nat (mm_district_idx m)) as Hab.
  { rewrite <- Hll, Hlive, length_app. simpl. lia. }
  exists (c0 :: unused_district :: c). split_and!; [by repeat constructor| |].
  { rewrite Hmm, Hlive in Ht. rewrite !length_app in *. simpl in *. lia. }
  intros n. rewrite Hmm, Hlive. replace (Z.of_nat k) with (zlen a) by (unfold zlen; lia).
  replace ((a ++ d :: b) ++ c0 :: c) with (a ++ d :: (b ++ [c0]) ++ c) by (by rewrite <- !app_assoc).
  assert (length (b ++ [c0]) = n) as Hn by (unfold n; rewrite length_app; simpl; lia).
  rewrite shift_down_app by done. cbn [mbind option_bind]. rewrite last_snoc. simpl default.
  rewrite zset_Some by (unfold zlen; rewrite !length_app in *; simpl in *; lia). f_equal. replace (Z.to_nat (zlen a + Z.of_nat n)) with (length (a ++ b ++ [c0])).
  2: { unfold zlen. rewrite !length_app in *. simpl in *. lia. }
  replace (a ++ (b ++ [c0]) ++ c0 :: c) with ((a ++ b ++ [c0]) ++ c0 :: c) by (by rewrite <- !app_assoc).
  rewrite insert_app_r_alt, Nat.sub_diag by lia. simpl. by rewrite <- !app_assoc.
Qed.

Lemma removed_wf m m1 k d rest free :
  wf m -> live m !! k = Some d -> Forall (fun e => d_addr e = 0) rest -> (length (take k (live m) ++ drop (S k) (live m) ++ rest) = 128)%nat ->
  mm_district_idx m1 = mm_district_idx m -> free_mmfrag m1 = free -> length (free_mm_district m1) = 128%nat -> 0 <= free_district_idx m1 <= 128 ->
  Forall2 part base free -> Forall (placed free) (take k (live m) ++ drop (S k) (live m)) ->
  wf (set_district (mm_district_idx m - 1) (take k (live m) ++ drop (S k) (live m) ++ rest) m1).
Proof.
  intros Hwf Hk Hrest Hl Hi1 <- Hfl Hfi H2 Hp. pose proof (live_length m Hwf) as Hll. pose proof (lookup_lt_Some _ _ _ Hk) as Hkl. destruct (wf_idx _ Hwf) as [Hx _].
  assert (length (take k (live m) ++ drop (S k) (live m)) = Z.to_nat (mm_district_idx m - 1)) as Hlen' by (rewrite length_app, length_take, length_drop; lia).
  assert (live (set_district (mm_district_idx m - 1) (take k (live m) ++ drop (S k) (live m) ++ rest) m1) = take k (live m) ++ drop (S k) (live m)) as Hlv.
  { unfold live at 1. cbn [mm_district_idx mm_district set_district]. rewrite app_assoc. by rewrite take_app_length'. }
  split; rewrite ?Hlv; cbn [mm_district free_mm_district mm_district_idx free_district_idx free_mmfrag set_district].
  - done.
  - lia.
  - done.
  - done.
  - pose proof (wf_apart _ Hwf) as Ha. rewrite <- (take_drop_middle (live m) k d Hk) in Ha.
    apply StronglySorted_app in Ha as (H1 & H3 & H4). apply StronglySorted_cons in H4 as [_ H4]. apply StronglySorted_app. split_and!; [|done|done].
    intros x y Hx' Hy. apply H1; [done|]. by right.
  - rewrite app_assoc, drop_app_length' by done. done.
Qed.

(** Another district of the same fragment ends where [d] starts or before it. *)
Lemma below_top m k d f e :
  wf m -> live m !! k = Some d -> zget (free_mmfrag m) (mmfrag_id d) = Some f -> d_addr d + d_len d = f_addr f ->
  e ∈ take k (live m) ++ drop (S k) (live m) -> mmfrag_id e = mmfrag_id d -> d_addr e + d_len e <= d_addr d.
Proof.
  intros Hwf Hk Hf Htop He Hid. pose proof (wf_apart _ Hwf) as Ha. rewrite <- (take_drop_middle (live m) k d Hk) in Ha.
  assert (placed (free_mmfrag m) e) as (b & f' & _ & Hf' & [_ _ Hl' Hend _]).
  { apply (proj1 (Forall_forall _ _) (wf_placed _ Hwf)). rewrite <- (take_drop_middle (live m) k d Hk). rewrite elem_of_app in *. rewrite elem_of_cons. tauto. }
  rewrite Hid, Hf in Hf'. injection Hf' as <-. assert (apart d e) as Hap.
  { apply StronglySorted_app in Ha as (H1 & _ & H4). apply StronglySorted_cons in H4 as [H4 _]. apply elem_of_app in He as [He|He].
    - apply apart_sym, H1; [done|]. by left.
    - by apply (proj1 (Forall_forall _ _) H4). }
  assert (0 < d_len d) by (apply (Forall_lookup_1 _ _ _ _ (wf_placed _ Hwf)) in Hk as (? & ? & _ & _ & [_ _ ? _ _]); done).
  destruct (Hap (eq_sym Hid)); lia.
Qed.

Definition grown (d : odp_mm_district) (f : odp_mmfrag) : odp_mmfrag :=
  Frag (f_phys_addr f) (d_addr d) (f_len f + d_len d) (f_hugepage_sz f) (f_socket_id f) (channel_num f) (rank_num f).

(** Where the memory of a district goes. *)
Lemma give_back_spec m k d : wf m -> live m !! k = Some d ->
  exists f, zget (free_mmfrag m) (mmfrag_id d) = Some f /\
    give_back d m =
      if d_addr d + d_len d =? f_addr f then Some (Some (set_free_mmfrag (<[Z.to_nat (mmfrag_id d) := grown d f]> (free_mmfrag m)) m))
      else if free_district_idx m <? 128 then
        Some (Some (set_free_district (free_district_idx m + 1) (<[Z.to_nat (free_district_idx m) := d]> (free_mm_district m)) m))
      else Some None.
Proof.
  intros Hwf Hk. destruct (Forall_lookup_1 _ _ _ _ (wf_placed _ Hwf) Hk) as (b & f & Hb & Hf & [H0 H1 H2 H3 _]). exists f. split; [done|].
  destruct (fg_addr _ (base_good _ _ Hb) H0) as (Hb1 & Hb2 & Hb3). destruct (rest_at m _ f Hwf Hf ltac:(lia)) as (b' & Hb' & _ & _ & [_ Hr2 Hr3 _ _]).
  rewrite Hb in Hb'. injection Hb' as <-. unfold give_back. rewrite Hf. cbn [mbind option_bind].
  rewrite (u64_small (f_addr f + f_len f)), (u64_small (d_addr d + d_len d)) by (unfold is_u64; lia). rewrite (proj2 (Z.eqb_neq _ _)) by lia.
  pose proof (zget_bound _ _ _ Hf). destruct (Z.eqb_spec (d_addr d + d_len d) (f_addr f)) as [E|E].
  { rewrite zset_Some by done. cbn [mbind option_bind]. rewrite (u64_small (f_len f + d_len d)) by (unfold is_u64; lia). done. }
  unfold ODP_MAX_MM_DISTRICT. destruct (Z.ltb_spec (free_district_idx m) 128) as [Hlt|Hge]; [|done]. destruct (wf_idx _ Hwf) as [_ Hx]. destruct (wf_tables _ Hwf) as [_ Ht].
  rewrite zset_Some by (unfold zlen; lia). cbn [mbind option_bind]. by rewrite u32_small by (unfold is_u32; lia).
Qed.

Lemma grown_rest m k d b f : wf m -> live m !! k = Some d -> zget base (mmfrag_id d) = Some b -> zget (free_mmfrag m) (mmfrag_id d) = Some f ->
  d_addr d + d_len d = f_addr f -> f_addr b <> 0 /\ rest_of b (grown d f).
Proof.
  intros Hwf Hk Hb Hf E. destruct (Forall_lookup_1 _ _ _ _ (wf_placed _ Hwf) Hk) as (b' & f' & Hb' & Hf' & [H0 H1 H2 H3 [H4 H5]]).
  rewrite Hb in Hb'. rewrite Hf in Hf'. injection Hb' as <-. injection Hf' as <-. destruct (fg_addr _ (base_good _ _ Hb) H0) as (Hb1 & Hb2 & Hb3).
  destruct (rest_at m _ f Hwf Hf ltac:(lia)) as (b' & Hb' & _ & _ & [Hr1 Hr2 Hr3 Hr4 Hr5]). rewrite Hb in Hb'. injection Hb' as <-.
  split; [done|]. destruct (Hr5 ltac:(lia)) as (Hl1 & Hl2 & Hl3). split; simpl; [lia|lia|lia|done|intros _]. split_and!; [done|by apply Z.divide_add_r|done].
Qed.

Lemma live_others m k d e : live m !! k = Some d -> e ∈ take k (live m) ++ drop (S k) (live m) -> e ∈ live m.
Proof. intros Hk He. rewrite <- (take_drop_middle (live m) k d Hk). rewrite elem_of_app in *. rewrite elem_of_cons. tauto. Qed.

(** The second half of the call: the search again, and the removal. *)
Definition drop_entry (name : string) (m : odp_sys_layout) : option (Z * odp_sys_layout) :=
  match mm_district_lookup name m with
  | None => Some (u32 (-1), m)
  | Some index =>
      let n := Z.to_nat (mm_district_idx m - index) in
      l ← shift_down n index (mm_district m);
      l ← zset l (index + Z.of_nat n) unused_district;
      Some (0, set_district (mm_district_idx m -u32 1) l m)
  end.

Lemma drop_entry_spec name m m1 k d :
  wf m -> mm_district_idx m < 128 -> mm_district_lookup name m = Some (Z.of_nat k) -> live m !! k = Some d ->
  mm_district m1 = mm_district m -> mm_district_idx m1 = mm_district_idx m -> length (free_mm_district m1) = 128%nat -> 0 <= free_district_idx m1 <= 128 ->
  Forall2 part base (free_mmfrag m1) -> Forall (placed (free_mmfrag m1)) (take k (live m) ++ drop (S k) (live m)) ->
  exists m', drop_entry name m1 = Some (0, m') /\ wf m' /\ live m' = take k (live m) ++ drop (S k) (live m).
Proof.
  intros Hwf Hidx El Hk Em Ei Hfl Hfi H2 Hp. destruct (remove_entry m k d Hwf Hidx Hk) as (rest & Hrest & Hl & Hrm). destruct (wf_idx _ Hwf) as [Hx _].
  pose proof (lookup_lt_Some _ _ _ Hk) as Hkl. rewrite (live_length m Hwf) in Hkl.
  exists (set_district (mm_district_idx m - 1) (take k (live m) ++ drop (S k) (live m) ++ rest) m1). split_and!.
  - unfold drop_entry, mm_district_lookup. rewrite Em. fold (mm_district_lookup name m). rewrite El, Ei. revert Hrm. cbn zeta.
    destruct (shift_down _ _ _) as [l|]; [|done]. cbn [mbind option_bind]. intros ->. cbn [mbind option_bind]. by rewrite u32_small by (unfold is_u32; lia).
  - by eapply removed_wf.
  - unfold live at 1. cbn [mm_district_idx mm_district set_district]. rewrite app_assoc, take_app_length'; [done|].
    rewrite length_app, length_take, length_drop, (live_length m Hwf). lia.
Qed.

(** A call returns, keeps the invariant, and takes exactly the named district off
    the table. *)
Lemma unreserve_total name m : wf m -> mm_district_idx m < 128 ->
  exists r m', mm_district_unreserve name m = Some (r, m') /\ wf m' /\
    match mm_district_lookup name m with
    | None => r = u32 (-1) /\ m' = m
    | Some i => (r = 0 /\ live m' = take (Z.to_nat i) (live m) ++ drop (S (Z.to_nat i)) (live m)) \/
                (r = u32 (-1) /\ m' = m /\ free_district_idx m = 128)
    end.
Proof.
  intros Hwf Hidx. pose proof (lookup_live name m Hwf) as Hlk. unfold mm_district_unreserve. destruct (mm_district_lookup name m) as [i|] eqn:El; [|by eauto 10].
  destruct Hlk as (k & d & -> & Hk & Hnm & _). rewrite Nat2Z.id.
  assert (zget (mm_district m) (Z.of_nat k) = Some d) as -> by (rewrite zget_of_nat, live_rest; by apply lookup_app_l_Some).
  cbn [mbind option_bind]. destruct (give_back_spec m k d Hwf Hk) as (f & Hf & ->). destruct (wf_idx _ Hwf) as [Hx Hxf]. destruct (wf_tables _ Hwf) as [Ht Htf].
  assert (Forall (placed (free_mmfrag m)) (take k (live m) ++ drop (S k) (live m))) as Hothers.
  { apply Forall_forall. intros e He. apply (proj1 (Forall_forall _ _) (wf_placed _ Hwf)). by eapply live_others. }
  destruct (Z.eqb_spec (d_addr d + d_len d) (f_addr f)) as [E|E]; cbn [mbind option_bind].
  - destruct (part_at m _ f Hwf Hf) as (b & Hb & _). destruct (grown_rest m k d b f Hwf Hk Hb Hf E) as [Hb0 Hr]. fold (drop_entry name (set_free_mmfrag (<[Z.to_nat (mmfrag_id d):=grown d f]> (free_mmfrag m)) m)).
    destruct (drop_entry_spec name m (set_free_mmfrag (<[Z.to_nat (mmfrag_id d):=grown d f]> (free_mmfrag m)) m) k d) as (m' & -> & Hwf' & Hlv); [done..|by eapply parts_insert| |by eauto 10].
    apply Forall_forall. intros e He. apply placed_insert; [done| |by eapply Forall_forall|intros Ee; by eapply below_top].
    pose proof (zget_bound _ _ _ Hb) as Hbd. unfold zlen in Hbd. lia.
  - destruct (Z.ltb_spec (free_district_idx m) 128) as [Hlt|Hge]; cbn [mbind option_bind].
    + set (m1 := set_free_district _ _ m). fold (drop_entry name m1).
      destruct (drop_entry_spec name m m1 k d) as (m' & -> & Hwf' & Hlv); [done..|unfold m1; simpl; by rewrite length_insert|simpl; lia|apply (wf_frags _ Hwf)|done|by eauto 10].
    + eexists _, m. split_and!; [done|done|]. right. split_and!; [done|done|lia].
Qed.

End table.

End DistrictProofs.
