(* ===== verification/DistrictSpec.v ===== *)
(** Memory districts (District): the theorems on any history of calls after
    start-up, the instances, and the inputs on which the code does otherwise. *)

From S2P Require Import Prelude District DistrictProofs.
From stdpp Require Import sorting.

Open Scope Z_scope.
Open Scope c_scope.

Module DistrictSpec.
Import District DistrictProofs.

Lemma sorted_apart {A} (R : A -> A -> Prop) (l : list A) i j x y :
  Symmetric R -> StronglySorted R l -> i <> j -> l !! i = Some x -> l !! j = Some y -> R x y.
Proof.
  intros HR Hs. assert (forall i j x y, (i < j)%nat -> l !! i = Some x -> l !! j = Some y -> R x y) as Hlt.
  { intros i' j' f g Hij Hi Hj. rewrite <- (take_drop_middle _ i' f Hi) in Hs. apply StronglySorted_app in Hs as (_ & _ & [H _]%StronglySorted_cons).
    apply (proj1 (Forall_forall _ _) H). apply list_elem_of_lookup. exists (j' - S i')%nat. rewrite lookup_drop. by replace (S i' + (j' - S i'))%nat with j' by lia. }
  intros Hij Hi Hj. destruct (decide (i < j)%nat); [by eapply Hlt|]. symmetry. eapply (Hlt j i); [lia|done..].
Qed.

(** ** Start-up *)

(** A fragment of physically contiguous memory as it is found at start-up. *)
Record frag_raw (f : odp_mmfrag) : Prop := {
  fr_addr : 0 < f_addr f;
  fr_len : 0 <= f_len f;
  fr_end : f_addr f + f_len f <= 2 ^ 62;
  fr_phys : 0 <= f_phys_addr f;
  fr_phys_end : f_phys_addr f + f_len f <= 2 ^ 62
}.
Definition sep_virt (f g : odp_mmfrag) : Prop := f_addr f + f_len f <= f_addr g \/ f_addr g + f_len g <= f_addr f.
Definition sep_phys (f g : odp_mmfrag) : Prop := f_phys_addr f + f_len f <= f_phys_addr g \/ f_phys_addr g + f_len g <= f_phys_addr f.

(** The shared layout before the first initialisation. *)
Record layout_ok (l : odp_sys_layout) : Prop := {
  lo_len : length (mmfrag l) = 128%nat;
  lo_free : free_mmfrag l = replicate 128 zero_frag;
  lo_table : length (free_mm_district l) = 128%nat /\ free_district_idx l = 0;
  lo_raw : Forall frag_raw (known_frags (mmfrag l));
  lo_virt : StronglySorted sep_virt (known_frags (mmfrag l));
  lo_phys : StronglySorted sep_phys (known_frags (mmfrag l))
}.

Lemma copy_frags_fresh l : forall i,
  snd (copy_frags i l (replicate (length l) zero_frag)) =
  known_frags l ++ replicate (length l - length (known_frags l)) zero_frag.
Proof.
  induction l as [|f l IH]; intros i; [done|]. cbn [length replicate copy_frags known_frags]. destruct (Z.eqb_spec (f_addr f) 0) as [E|E]; [done|].
  specialize (IH (i + 1)). destruct (copy_frags (i + 1) l _) as [n rest]. simpl in *. by rewrite IH.
Qed.

(** A fragment and what start-up makes of it: its whole cache lines. *)
Record trimmed (f b : odp_mmfrag) : Prop := {
  tr_good : frag_good b;
  tr_addr : f_addr f <= f_addr b;
  tr_end : f_addr b + f_len b <= f_addr f + f_len f;
  tr_len : 0 <= f_len b;
  tr_phys : f_phys_addr b - f_addr b = f_phys_addr f - f_addr f
}.

Lemma sanitize_trimmed f b : frag_raw f -> mmfrag_sanitize f = Some b -> trimmed f b.
Proof.
  intros [H1 H2 H3 H4 H5]. unfold mmfrag_sanitize. change ODP_CACHE_LINE_MASK with (2 ^ 6 - 1). rewrite !land_pow2_mask by lia. change (2 ^ 6) with 64.
  destruct (Z.eqb_spec (f_phys_addr f mod 64) (f_addr f mod 64)) as [E|E]; [|done]. cbn [negb]. unfold ODP_CACHE_LINE_SIZE.
  destruct (Z.ltb_spec (f_len f) (2 * 64)) as [Hs|Hs]; intros [= <-].
  { split; simpl; [split; simpl; [unfold is_u64; lia|lia|lia]|lia..]. }
  change (64 - f_phys_addr f mod 64) with (2 ^ 6 - f_phys_addr f mod 64). set (off := (2 ^ 6 - f_phys_addr f mod 64) mod 64).
  assert (off = pad 64 (f_phys_addr f) /\ off = pad 64 (f_addr f)) as [Ep Ea].
  { unfold off, pad. change (2 ^ 6) with 64. split; Z.div_mod_to_equations; lia. }
  pose proof (pad_bound 64 (f_phys_addr f) ltac:(lia)) as Hb. rewrite <- Ep in Hb. pose proof (pad_aligned 64 (f_phys_addr f) ltac:(lia)) as Dp. rewrite <- Ep in Dp.
  pose proof (pad_aligned 64 (f_addr f) ltac:(lia)) as Da. rewrite <- Ea in Da.
  rewrite (u64_small (f_phys_addr f + off)), (u64_small (f_addr f + off)), (u64_small (f_len f - off)) by (unfold is_u64; lia).
  rewrite align_floor_spec by ((unfold is_u64; lia) || by exists 6). pose proof (Z.mod_pos_bound (f_len f - off) 64 ltac:(lia)).
  assert ((64 | f_len f - off - (f_len f - off) mod 64)) as Dl.
  { exists ((f_len f - off) / 64). pose proof (Z.div_mod (f_len f - off) 64 ltac:(lia)). lia. }
  split; simpl; [split; simpl; [unfold is_u64; lia|lia|done]|lia..].
Qed.

Lemma sanitize_all_spec l n : Forall frag_raw l -> fst (sanitize_all (l ++ replicate n zero_frag)) = true ->
  exists bs, Forall2 trimmed l bs /\ snd (sanitize_all (l ++ replicate n zero_frag)) = bs ++ replicate n zero_frag.
Proof.
  induction 1 as [|f l Hf Hl IH]; intros H.
  { exists []. split; [constructor|]. by destruct n. }
  cbn [app sanitize_all] in *. rewrite (proj2 (Z.eqb_neq _ _)) in * by (destruct Hf; lia). destruct (mmfrag_sanitize f) as [b|] eqn:E; [|done].
  destruct (sanitize_all (l ++ replicate n zero_frag)) as [ok r]. simpl in *. destruct (IH H) as (bs & H2 & ->).
  exists (b :: bs). split; [constructor; [by apply sanitize_trimmed|done]|done].
Qed.

(** The state after start-up. *)
Lemma init_spec l m0 : layout_ok l -> odp_mm_district_init false l = (0, m0) ->
  Forall frag_good (free_mmfrag m0) /\ length (free_mmfrag m0) = 128%nat /\ wf (free_mmfrag m0) m0 /\
  (exists bs n, free_mmfrag m0 = bs ++ replicate n zero_frag /\ Forall2 trimmed (known_frags (mmfrag l)) bs) /\ mm_district m0 = replicate 128 zero_district /\ mm_district_idx m0 = 0.
Proof.
  intros [Hl Hfree [Hft Hfi] Hraw _ _] Hinit. unfold odp_mm_district_init in Hinit. rewrite Hfree in Hinit.
  pose proof (copy_frags_fresh (mmfrag l) 0) as Hc. rewrite Hl in Hc. destruct (copy_frags 0 (mmfrag l) (replicate 128 zero_frag)) as [i free]. cbn [snd] in Hc.
  set (n := (128 - length (known_frags (mmfrag l)))%nat) in Hc. subst free. pose proof (sanitize_all_spec (known_frags (mmfrag l)) n Hraw) as Hs.
  destruct (sanitize_all _) as [ok free]. destruct ok; [|done]. cbn [fst snd] in Hs. destruct (Hs eq_refl) as (bs & H2 & ->). apply (f_equal snd) in Hinit. cbn [snd] in Hinit. subst m0.
  cbn [free_mmfrag set_free_mmfrag set_district mm_district mm_district_idx]. clear Hs. pose proof (Forall2_length _ _ _ H2) as Hlb.
  assert (Forall frag_good bs) as Hg by (clear -H2; induction H2 as [|f b fs bs [] _ IH]; by constructor).
  assert (length (known_frags (mmfrag l)) <= 128)%nat as Hk.
  { rewrite <- Hl. clear. induction (mmfrag l) as [|f r IH]; simpl; [done|]. destruct (f_addr f =? 0); simpl; lia. }
  assert (Forall frag_good (replicate n zero_frag)) as Hz by (apply Forall_replicate; split; simpl; done).
  assert (length (bs ++ replicate n zero_frag) = 128%nat) as Hlen by (rewrite length_app, length_replicate; unfold n; lia).
  split_and!; [by apply Forall_app|done| |by eexists _, _|done|done].
  split; cbn [mm_district free_mm_district mm_district_idx free_district_idx free_mmfrag set_district set_free_mmfrag set_free_frag_idx].
  - done.
  - lia.
  - apply Forall_Forall2_diag. apply Forall_app. split.
    + eapply Forall_impl; [exact Hg|]. intros b [H1 H3 H4]. unfold part. destruct (Z.eqb_spec (f_addr b) 0); [done|]. specialize (H3 n0). split; [lia|lia|done|done|by apply H4].
    + apply Forall_replicate. done.
  - constructor.
  - constructor.
  - change (Z.to_nat 0) with 0%nat. rewrite drop_0. by apply Forall_replicate.
Qed.

(** ** Histories of calls *)

Inductive op :=
  | Reserve (name orig_name : string) (len socket_id flags align bound : Z)
  | Unreserve (name : string).
Inductive answer := Got (district : Z) | Err (err : Z) | Ret (ret : Z).

Definition call (o : op) (m : odp_sys_layout) : option (answer * odp_sys_layout) :=
  match o with
  | Reserve name orig_name len socket_id flags align bound =>
      '(r, m) ← odp_mm_district_reserve_bounded name orig_name len socket_id flags align bound m;
      Some (match r with inl d => Got d | inr e => Err e end, m)
  | Unreserve name => '(r, m) ← odp_mm_district_unreserve name m; Some (Ret r, m)
  end.

(** Parameters of the width C has; the rest of a fragment only without a
    boundary; and nothing is given back while the table is full. *)
Definition legal (o : op) (m : odp_sys_layout) : Prop :=
  match o with
  | Reserve _ _ len _ _ align bound => params_ok len align bound
  | Unreserve _ => mm_district_idx m < 128
  end.
Definition reserves (o : op) : Prop := match o with Reserve _ _ _ _ _ _ _ => True | Unreserve _ => False end.

Inductive reach (P : op -> Prop) (m0 : odp_sys_layout) : odp_sys_layout -> Prop :=
  | reach_start : reach P m0 m0
  | reach_call m o a m' : reach P m0 m -> P o -> legal o m -> call o m = Some (a, m') -> reach P m0 m'.

Section history.
Context (l m0 : odp_sys_layout) (Hl : layout_ok l) (Hinit : odp_mm_district_init false l = (0, m0)).
Abbreviation base := (free_mmfrag m0).

Lemma call_total o m : wf base m -> legal o m -> exists a m', call o m = Some (a, m') /\ wf base m'.
Proof.
  destruct (init_spec l m0 Hl Hinit) as (Hg & Hlen & _). intros Hwf Ho. destruct o as [name orig_name len socket_id flags align bound|name]; cbn [call].
  - unfold odp_mm_district_reserve_bounded. destruct (both_sizes flags); [cbn [mbind option_bind]; eauto|].
    destruct (reserve_total base Hg Hlen name orig_name len socket_id flags align bound m Hwf Ho) as (r & m' & -> & Hs).
    pose proof (reserve_state_wf base Hg Hlen name orig_name m m' Hwf Hs). cbn [mbind option_bind]. eauto.
  - unfold odp_mm_district_unreserve. destruct (unreserve_total base Hg Hlen name m Hwf Ho) as (r & m' & -> & Hwf' & _). cbn [mbind option_bind]. eauto.
Qed.

Lemma reach_wf P m : reach P m0 m -> wf base m.
Proof.
  induction 1 as [|m o a m' _ IH _ Ho Hc]; [by apply (init_spec l m0 Hl Hinit)|].
  destruct (call_total o m IH Ho) as (a' & m'' & Hc' & Hwf). rewrite Hc in Hc'. by injection Hc' as -> ->.
Qed.

(** The fragment of the layout a district belongs to. *)
Lemma frag_of_base i b : zget base i = Some b -> f_addr b <> 0 ->
  exists f, known_frags (mmfrag l) !! Z.to_nat i = Some f /\ frag_raw f /\ trimmed f b.
Proof.
  intros Hb H0. destruct (init_spec l m0 Hl Hinit) as (_ & _ & _ & (bs & n & Eb & H2) & _). pose proof (zget_bound _ _ _ Hb). rewrite zget_nonneg, Eb in Hb by lia.
  apply lookup_app_Some in Hb as [Hb|[_ [-> _]%lookup_replicate]]; [|by simpl in H0].
  destruct (Forall2_lookup_r _ _ _ _ _ H2 Hb) as (f & Hf & Ht). exists f. split_and!; [done|by apply (Forall_lookup_1 _ _ _ _ (lo_raw _ Hl) Hf)|done].
Qed.

Lemma placed_in m d : wf base m -> d ∈ live m ->
  exists f, known_frags (mmfrag l) !! Z.to_nat (mmfrag_id d) = Some f /\ 0 <= mmfrag_id d /\ f_addr f <= d_addr d /\ 0 < d_len d /\
    d_addr d + d_len d <= f_addr f + f_len f /\ (64 | d_addr d) /\ (64 | d_len d).
Proof.
  intros Hwf Hd. destruct (proj1 (Forall_forall _ _) (wf_placed _ _ Hwf) d Hd) as (b & g & Hb & Hg & [H0 H1 H2 H3 [H4 H5]]).
  destruct (frag_of_base _ b Hb H0) as (f & Hf & _ & [_ Ht1 Ht2 Ht3 _]). pose proof (zget_bound _ _ _ Hb). exists f.
  destruct (init_spec l m0 Hl Hinit) as (Hgood & Hlen & _). destruct (fg_addr _ (base_good _ Hgood Hlen _ b Hb) H0).
  destruct (rest_at _ Hgood Hlen m _ g Hwf Hg ltac:(lia)) as (b' & Hb' & _ & _ & [_ Hr2 Hr3 _ _]). rewrite Hb in Hb'. injection Hb' as <-. split_and!; [done|lia|lia|done|lia|done|done].
Qed.

Lemma sep_virt_sym : Symmetric sep_virt.
Proof. intros f g. unfold sep_virt. tauto. Qed.
Lemma sep_phys_sym : Symmetric sep_phys.
Proof. intros f g. unfold sep_phys. tauto. Qed.

Lemma districts_apart m i j d e : wf base m -> i <> j -> live m !! i = Some d -> live m !! j = Some e ->
  d_addr d + d_len d <= d_addr e \/ d_addr e + d_len e <= d_addr d.
Proof.
  intros Hwf Hij Hi Hj. assert (d ∈ live m) as Hd by (by eapply list_elem_of_lookup_2). assert (e ∈ live m) as He by (by eapply list_elem_of_lookup_2).
  destruct (placed_in m d Hwf Hd) as (f & Hf & Hp1 & Hf1 & _ & Hf2 & _). destruct (placed_in m e Hwf He) as (g & Hg & Hp2 & Hg1 & _ & Hg2 & _).
  destruct (decide (mmfrag_id d = mmfrag_id e)) as [E|E].
  - apply (sorted_apart apart (live m) i j d e); [exact apart_sym|apply (wf_apart _ _ Hwf)|done..].
  - assert (Z.to_nat (mmfrag_id d) <> Z.to_nat (mmfrag_id e)) as Hne by lia.
    destruct (sorted_apart sep_virt _ _ _ f g sep_virt_sym (lo_virt _ Hl) Hne Hf Hg); lia.
Qed.

(** Nor does a district overlap what is left of a fragment. *)
Lemma district_off_free m d i f : wf base m -> d ∈ live m -> zget (free_mmfrag m) i = Some f -> f_addr f <> 0 ->
  d_addr d + d_len d <= f_addr f \/ f_addr f + f_len f <= d_addr d.
Proof.
  intros Hwf Hd Hf H0. destruct (init_spec l m0 Hl Hinit) as (Hgood & Hlen & _). destruct (rest_at _ Hgood Hlen m i f Hwf Hf H0) as (b & Hb & _ & Hb0 & [Hr1 Hr2 Hr3 _ _]).
  destruct (frag_of_base _ b Hb Hb0) as (g & Hg & _ & [_ Ht1 Ht2 _ _]). destruct (decide (mmfrag_id d = i)) as [E|E].
  - destruct (proj1 (Forall_forall _ _) (wf_placed _ _ Hwf) d Hd) as (b' & f' & _ & Hf' & [_ _ _ ? _]). rewrite E, Hf in Hf'. injection Hf' as <-. by left.
  - destruct (placed_in m d Hwf Hd) as (g' & Hg' & Hp1 & H1 & _ & H2 & _). pose proof (zget_bound _ _ _ Hb).
    assert (Z.to_nat i <> Z.to_nat (mmfrag_id d)) as Hne by lia.
    destruct (sorted_apart sep_virt _ _ _ g g' sep_virt_sym (lo_virt _ Hl) Hne Hg Hg'); lia.
Qed.

End history.

(** C29: memory districts do not overlap.  The histories are those of [reach]:
    start-up on any set of disjoint fragments, then any sequence of reservations
    and of districts given back, in which sizes and alignments have the width of C,
    the rest of a fragment (length 0) is asked for without a boundary (see
    [bounded_rest_overflows]) and nothing is given back while the table has 128
    districts (see [unreserve_full_table]).  In every state of such a history every
    further call of this kind returns without an access outside the tables; the
    districts on the table lie inside their fragments, are whole cache lines, and
    no two of them, nor a district and the memory that is still free, have a byte
    in common. *)
Theorem district_safe (l m0 m : odp_sys_layout) :
  layout_ok l -> odp_mm_district_init false l = (0, m0) -> reach (fun _ => True) m0 m ->
  (forall o, legal o m -> exists a m', call o m = Some (a, m')) /\
  (forall d, d ∈ live m ->
     (exists f, known_frags (mmfrag l) !! Z.to_nat (mmfrag_id d) = Some f /\ f_addr f <= d_addr d /\ d_addr d + d_len d <= f_addr f + f_len f) /\
     0 < d_len d /\ (64 | d_addr d) /\ (64 | d_len d) /\
     forall i f, zget (free_mmfrag m) i = Some f -> f_addr f <> 0 -> d_addr d + d_len d <= f_addr f \/ f_addr f + f_len f <= d_addr d) /\
  (forall i j d e, i <> j -> live m !! i = Some d -> live m !! j = Some e -> d_addr d + d_len d <= d_addr e \/ d_addr e + d_len e <= d_addr d).
Proof.
  intros Hl Hinit Hr. pose proof (reach_wf l m0 Hl Hinit _ m Hr) as Hwf. split_and!.
  - intros o Ho. destruct (call_total l m0 Hl Hinit o m Hwf Ho) as (a & m' & Hc & _). eauto.
  - intros d Hd. destruct (placed_in l m0 Hl Hinit m d Hwf Hd) as (f & Hf & _ & H1 & H2 & H3 & H4 & H5). split_and!; [by exists f|done..|].
    intros i g. by apply (district_off_free l m0 Hl Hinit).
  - intros i j d e. by apply (districts_apart l m0 Hl Hinit).
Qed.

(** ** What a reservation returns *)

(** Room for a piece in a fragment, behind what alignment leaves unused. *)
Record room (socket_id flags align len : Z) (f : odp_mmfrag) : Prop := {
  rm_socket : other_socket socket_id f = false;
  rm_pages : other_pages flags f = false;
  rm_fits : pad align (f_phys_addr f) + len <= f_len f
}.
Definition some_room (socket_id flags align len : Z) (m : odp_sys_layout) : Prop :=
  exists k f, known_frags (free_mmfrag m) !! k = Some f /\ room socket_id flags align len f.

Lemma room_suits socket_id flags align len f :
  pow2 align -> is_u64 (f_phys_addr f) -> room socket_id flags align len f -> suits len socket_id flags align 0 f (pad align (f_phys_addr f)).
Proof.
  intros Ha Hp [H1 H2 H3]. pose proof (pow2_pos align Ha). pose proof (pad_bound align (f_phys_addr f) ltac:(lia)).
  split; [done|done|by apply boundary_plain|lia|lia].
Qed.
Lemma suits_room socket_id flags align len f off :
  pow2 align -> is_u64 (f_phys_addr f) -> suits len socket_id flags align 0 f off -> room socket_id flags align len f.
Proof.
  intros Ha Hp [H1 H2 H3 H4 H5]. rewrite boundary_plain in H3 by done. injection H3 as <-. by split.
Qed.

Lemma pow2_is_power n : pow2 n -> odp_is_power_of_2 n = true.
Proof.
  intros Hn. pose proof (pow2_pos n Hn). unfold odp_is_power_of_2. rewrite (proj2 (Z.eqb_neq _ _)) by lia. rewrite u32_small by (unfold is_u32; lia).
  destruct Hn as (k & Hk & ->). rewrite land_pow2_mask, Z.mod_same by lia. done.
Qed.

Lemma valid_plain len align : 0 <= len <= 2 ^ 43 -> align = 0 \/ pow2 align -> valid len align 0 = true.
Proof.
  intros Hl Ha. unfold valid. replace ((align =? 0) || odp_is_power_of_2 align) with true by (symmetry; destruct Ha as [->|Ha]; [done|rewrite pow2_is_power by done; apply orb_true_r]).
  unfold MEM_SIZE_MAX, ODP_CACHE_LINE_MASK, ODP_CACHE_LINE_SIZE. rewrite (proj2 (Z.leb_le _ _)) by lia. done.
Qed.

Lemma norm_align_idem align : norm_align (norm_align align) = norm_align align.
Proof. unfold norm_align, ODP_CACHE_LINE_SIZE. destruct (Z.ltb_spec align 64); [done|]. by rewrite (proj2 (Z.ltb_ge _ _)) by lia. Qed.
Lemma norm_len_idem len : 0 <= len <= 2 ^ 43 -> norm_len (norm_len len) = norm_len len /\ 0 <= norm_len len <= 2 ^ 43 + 64.
Proof.
  intros Hl. destruct (norm_len_spec len) as (_ & H2 & q & H3); [unfold MEM_SIZE_MAX, ODP_CACHE_LINE_MASK, ODP_CACHE_LINE_SIZE; lia|].
  destruct (norm_len_spec (norm_len len)) as (E & _ & _); [unfold MEM_SIZE_MAX, ODP_CACHE_LINE_MASK, ODP_CACHE_LINE_SIZE; lia|]. split; [|lia]. rewrite E, H3. Z.div_mod_to_equations. lia.
Qed.

Section reserve.
Context (base : list odp_mmfrag) (Hg : Forall frag_good base) (Hlen : length base = 128%nat).
Context (name orig_name : string) (len socket_id flags align : Z) (m : odp_sys_layout).
Context (Hwf : wf base m) (Hidx : mm_district_idx m < 128) (Hlk : mm_district_lookup name m = None) (Hnm : (String.length name <= 63)%nat).
Context (Hl : 0 <= len <= 2 ^ 43) (Ha : align = 0 \/ pow2 align).

Lemma plain_params : params_ok len align 0 /\ params_ok (norm_len len) (norm_align align) 0 /\ valid (norm_len len) (norm_align align) 0 = true.
Proof.
  assert (is_u32 align) as Hu by (destruct Ha as [->|Ha']; [done|pose proof (pow2_pos align Ha'); unfold is_u32; lia]).
  destruct (norm_align_pow2 align Hu Ha) as [Hp _]. pose proof (pow2_pos _ Hp). destruct (norm_len_idem len Hl) as [Hi Hr]. split_and!.
  - split; [unfold is_u64; lia|done|done|done].
  - split; [unfold is_u64; lia|unfold is_u32; lia|done|done].
  - unfold valid. rewrite pow2_is_power by done. rewrite orb_true_r. unfold MEM_SIZE_MAX, ODP_CACHE_LINE_MASK, ODP_CACHE_LINE_SIZE. by rewrite (proj2 (Z.leb_le _ _)) by lia.
Qed.

(** The state after a piece was cut off. *)
Definition made (m' : odp_sys_layout) : Prop :=
  exists d, live m' = live m ++ [d] /\ d_name d = name /\ (norm_align align | d_phys_addr d) /\ len <= d_len d /\ (0 < len -> d_len d < len + 64) /\
    mm_district_lookup name m' = Some (mm_district_idx m) /\ wf base m'.

Lemma reserved_made l a fl k f off :
  params_ok l a 0 -> valid l a 0 = true -> norm_len l = norm_len len -> norm_align a = norm_align align ->
  known_frags (free_mmfrag m) !! k = Some f -> suits (req_len l) socket_id fl (norm_align a) 0 f off -> made (reserved name orig_name l (Z.of_nat k) f off m).
Proof.
  intros Hpar Hv El Ea Hk Hsu. pose proof (reserved_wf base Hg Hlen name orig_name l socket_id fl a 0 m k f off Hwf Hidx Hpar Hv Hk Hsu) as Hwf'.
  destruct (valid_demand l a 0 Hpar Hv) as (Hd & _ & _). destruct (known_frags_lookup _ _ _ Hk) as [Hkf Hf0].
  pose proof (Forall_lookup_1 _ _ _ _ (free_phys base Hg m Hwf) Hkf) as Hph. simpl in Hph. pose proof (suits_offset _ _ _ _ _ Hd f off Hph Hsu) as [_ Hoal _ _].
  destruct Hsu as [_ _ _ Ho Hfit]. assert (reserved name orig_name l (Z.of_nat k) f off m = reserved name orig_name len (Z.of_nat k) f off m) as Er by (unfold reserved, req_len; by rewrite El).
  rewrite Er in *. clear Er. unfold reserved in *. set (d := new_district _ _ _ _ _ _) in *.
  pose proof (live_with_district base Hlen (Z.of_nat k) (cut_frag f (off + piece_len (norm_len len) (req_len len) f off)) d m Hwf Hidx) as Hlv.
  set (m' := with_district _ _ d m) in *. clearbody m'. exists d. assert (d_name d = name) as En by (by apply substring_all).
  destruct (norm_len_spec len) as (_ & Hn & _); [unfold MEM_SIZE_MAX, ODP_CACHE_LINE_MASK, ODP_CACHE_LINE_SIZE; lia|]. unfold req_len in *. rewrite El in *. rewrite Ea in *.
  split_and!; [done|done| | | | |done].
  - apply u64_divide; [apply pow2_divide_64; apply Hd|done].
  - simpl. unfold piece_len. destruct (Z.eqb_spec (norm_len len) 0); unfold ODP_CACHE_LINE_SIZE in *; lia.
  - intros H0. simpl. unfold piece_len. destruct (Z.eqb_spec (norm_len len) 0); unfold ODP_CACHE_LINE_SIZE in *; lia.
  - pose proof (lookup_live base Hg Hlen name _ Hwf') as Hlk'. pose proof (lookup_live base Hg Hlen name m Hwf) as Hold. rewrite Hlk in Hold. rewrite Hlv in Hlk'.
    assert ((live m ++ [d]) !! length (live m) = Some d) as Hlast by (by apply list_lookup_middle). assert (named name d = true) as Hnamed.
    { unfold named, strn_eq. rewrite En. by rewrite String.eqb_refl. }
    destruct (mm_district_lookup name m') as [j|]; [|by rewrite (Hlk' _ _ Hlast) in Hnamed]. destruct Hlk' as (k' & e & -> & Hk' & He & Hfirst).
    apply lookup_app_Some in Hk' as [Hk'|[Hge _]]; [by rewrite (Hold _ _ Hk') in He|]. destruct (decide (k' = length (live m))) as [->|Hne].
    + f_equal. rewrite (live_length base Hlen m Hwf). destruct (wf_idx _ _ Hwf). lia.
    + by rewrite (Hfirst (length (live m)) d ltac:(lia) Hlast) in Hnamed.
Qed.

Lemma align_good : pow2 (norm_align align).
Proof. apply norm_align_pow2; [|done]. destruct Ha as [->|Ha']; [done|]. pose proof (pow2_pos align Ha'). unfold is_u32. lia. Qed.

Lemma no_room fl r : (forall k f off, known_frags (free_mmfrag m) !! k = Some f -> ~ suits r socket_id fl (norm_align align) 0 f off) <->
  ~ some_room socket_id fl (norm_align align) r m.
Proof.
  assert (forall k f, known_frags (free_mmfrag m) !! k = Some f -> is_u64 (f_phys_addr f)) as Hph.
  { intros k f Hk. destruct (known_frags_lookup _ _ _ Hk) as [Hkf _]. by apply (Forall_lookup_1 _ _ _ _ (free_phys base Hg m Hwf) Hkf). }
  split.
  - intros H (k & f & Hk & Hr). eapply H; [exact Hk|]. apply room_suits; [apply align_good|by eapply Hph|done].
  - intros H k f off Hk Hs. apply H. exists k, f. split; [done|]. eapply suits_room; [apply align_good|by eapply Hph|done].
Qed.

Definition can_reserve : Prop :=
  some_room socket_id flags (norm_align align) (req_len len) m \/ hinted flags = true /\ some_room socket_id 0 (norm_align align) (req_len len) m.

Lemma suits_some_room fl k f off :
  known_frags (free_mmfrag m) !! k = Some f -> suits (req_len len) socket_id fl (norm_align align) 0 f off -> some_room socket_id fl (norm_align align) (req_len len) m.
Proof.
  intros Hk Hsu. destruct (known_frags_lookup _ _ _ Hk) as [Hkf _]. exists k, f. split; [done|].
  eapply suits_room; [apply align_good|by apply (Forall_lookup_1 _ _ _ _ (free_phys base Hg m Hwf) Hkf)|done].
Qed.

Lemma reserve_cases :
  (can_reserve /\ exists m', mm_district_reserve_aligned reserve_fuel name orig_name len socket_id flags align 0 m = Some (inl (mm_district_idx m), m') /\ made m') \/
  (~ can_reserve /\ mm_district_reserve_aligned reserve_fuel name orig_name len socket_id flags align 0 m = Some (inr ENOMEM, m)).
Proof.
  destruct plain_params as (Hpar & Hpar' & Hv'). pose proof (valid_plain len align Hl Ha) as Hv. destruct (norm_len_idem len Hl) as [Hi _]. unfold reserve_fuel, can_reserve.
  assert (req_len (norm_len len) = req_len len) as Hreq by (unfold req_len; by rewrite Hi).
  destruct (level base Hg Hlen name orig_name len socket_id flags align 0 m 1 Hwf Hidx Hlk Hpar Hv) as [(k & f & off & Hk & Hsu & ->)|[Hno ->]].
  { left. split; [left; by eapply suits_some_room|]. eexists. split; [done|by eapply reserved_made]. }
  apply no_room in Hno. destruct (hinted flags); [|right; split; [naive_solver|done]].
  destruct (level base Hg Hlen name orig_name (norm_len len) socket_id 0 (norm_align align) 0 m 0 Hwf Hidx Hlk Hpar' Hv') as [(k & f & off & Hk & Hsu & ->)|[Hno' ->]];
    rewrite Hreq, norm_align_idem in *.
  - left. split; [right; split; [done|by eapply suits_some_room]|]. eexists. split; [done|].
    eapply reserved_made; [exact Hpar'|exact Hv'|exact Hi|apply norm_align_idem|exact Hk|]. rewrite Hreq, norm_align_idem. exact Hsu.
  - apply no_room in Hno'. right. split; [naive_solver|done].
Qed.

End reserve.

(** a reservation takes the room there is.  In every reachable state whose
    table is not full, a call with a new name, a length up to 2^43 and an
    alignment that is 0 or a power of two succeeds exactly when some fragment of
    the socket has room for the piece behind what alignment leaves unused, on
    pages of the size asked for or, when that is only a hint, on any; the new
    district is entered behind the others, which stay as they are, has the name,
    the physical alignment and at least the length asked for, less than a cache
    line more, and the name finds it.  Otherwise the call reports that there is
    no memory and changes nothing. *)
Theorem reserve_correct (l m0 m : odp_sys_layout) (name orig_name : string) (len socket_id flags align : Z) :
  layout_ok l -> odp_mm_district_init false l = (0, m0) -> reach (fun _ => True) m0 m ->
  mm_district_idx m < 128 -> mm_district_lookup name m = None -> (String.length name <= 63)%nat ->
  0 <= len <= 2 ^ 43 -> align = 0 \/ pow2 align -> both_sizes flags = false ->
  let a := norm_align align in
  let n := req_len len in
  let can := some_room socket_id flags a n m \/ hinted flags = true /\ some_room socket_id 0 a n m in
  (can -> exists m' d, odp_mm_district_reserve_aligned name orig_name len socket_id flags align m = Some (inl (mm_district_idx m), m') /\
     live m' = live m ++ [d] /\ d_name d = name /\ (a | d_phys_addr d) /\ len <= d_len d /\ (0 < len -> d_len d < len + 64) /\
     mm_district_lookup name m' = Some (mm_district_idx m)) /\
  (~ can -> odp_mm_district_reserve_aligned name orig_name len socket_id flags align m = Some (inr ENOMEM, m)).
Proof.
  intros Hl Hinit Hr Hidx Hlk Hnm Hlen Ha Hb a n can. destruct (init_spec l m0 Hl Hinit) as (Hg & Hbl & _). pose proof (reach_wf l m0 Hl Hinit _ m Hr) as Hwf.
  unfold odp_mm_district_reserve_aligned. rewrite Hb.
  destruct (reserve_cases _ Hg Hbl name orig_name len socket_id flags align m Hwf Hidx Hlk Hnm Hlen Ha) as [(Hc & m' & -> & d & Hd)|[Hc ->]].
  - split; [|done]. intros _. exists m', d. tauto.
  - split; [|done]. intros Hc'. by destruct (Hc Hc').
Qed.

(** ** Addresses *)

(** The searches, on a table of districts followed by unused entries. *)
Lemma by_vaddress_spec a (ds rest : list odp_mm_district) :
  Forall (fun d => d_addr d <> 0 /\ 0 <= d_addr d /\ d_addr d + d_len d < 2 ^ 64 /\ 0 < d_len d) ds -> Forall (fun d => d_addr d = 0) rest ->
  match by_vaddress a (ds ++ rest) with
  | Some d => d ∈ ds /\ d_addr d <= a < d_addr d + d_len d
  | None => forall d, d ∈ ds -> ~ d_addr d <= a < d_addr d + d_len d
  end.
Proof.
  intros Hds Hr. induction Hds as [|d ds (H0 & H1 & H2 & H3) _ IH].
  { destruct Hr as [|d rest Hd _]; simpl; [set_solver|]. rewrite Hd. simpl. set_solver. }
  cbn [by_vaddress app]. rewrite (proj2 (Z.eqb_neq _ _)) by done. rewrite u64_small by (unfold is_u64; lia). rewrite Z.geb_leb.
  destruct (Z.leb_spec (d_addr d) a), (Z.ltb_spec a (d_addr d + d_len d)); cbn [andb]; [by split; [left|]|..];
    (destruct (by_vaddress a (ds ++ rest)) as [e|]; [destruct IH; split; [by right|done]|intros e [->|He]%elem_of_cons; [lia|by apply IH]]).
Qed.

Lemma by_phys_spec p (ds rest : list odp_mm_district) : Forall (fun d => d_addr d <> 0) ds -> forall i,
  match by_phys p i (ds ++ rest) with
  | (Some d, j) => has_phys p d = true /\ (d ∈ ds \/ d ∈ rest) /\ i <= j < i + zlen (ds ++ rest)
  | (None, j) => forall d, d ∈ ds -> has_phys p d = false
  end.
Proof.
  induction 1 as [|d ds H0 _ IH]; intros i.
  { simpl. revert i. induction rest as [|d rest IH]; intros i; simpl; [set_solver|]. destruct (d_addr d =? 0); [set_solver|]. destruct (has_phys p d) eqn:E.
    - split_and!; [done|right; by left|lia|unfold zlen; simpl; lia].
    - specialize (IH (i + 1)). destruct (by_phys p (i + 1) rest) as [[e|] j]; [|set_solver]. destruct IH as (? & [?|?] & ?); [set_solver|].
      split_and!; [done|right; by right|lia|unfold zlen in *; simpl; lia]. }
  cbn [by_phys app]. rewrite (proj2 (Z.eqb_neq _ _)) by done. destruct (has_phys p d) eqn:E.
  - split_and!; [done|left; by left|lia|unfold zlen; simpl; lia].
  - specialize (IH (i + 1)). destruct (by_phys p (i + 1) (ds ++ rest)) as [[e|] j].
    + destruct IH as (? & Hin & ?). split_and!; [done|destruct Hin; [left; by right|by right]|lia|unfold zlen in *; simpl; lia].
    + intros e [->|He]%elem_of_cons; [done|by apply IH].
Qed.

Section addresses.
Context (l m0 : odp_sys_layout) (Hl : layout_ok l) (Hinit : odp_mm_district_init false l = (0, m0)).
Abbreviation base := (free_mmfrag m0).

(** Virtual and physical addresses go together in what is left of a fragment. *)
Definition in_step (b f : odp_mmfrag) : Prop := f_addr b <> 0 -> f_phys_addr f - f_addr f = f_phys_addr b - f_addr b.

Record maps (d : odp_mm_district) : Prop := {
  mp_phys : exists b, zget base (mmfrag_id d) = Some b /\ f_addr b <> 0 /\ d_phys_addr d = d_addr d + (f_phys_addr b - f_addr b);
  mp_end : d_phys_addr_end d = d_phys_addr d + d_len d;
  mp_excursion : excursion_addr d = u64 (d_addr d - d_phys_addr d)
}.

Record linear (m : odp_sys_layout) : Prop := {
  ln_frags : Forall2 in_step base (free_mmfrag m);
  ln_live : Forall maps (live m);
  ln_unused : Forall (eq zero_district) (drop (Z.to_nat (mm_district_idx m)) (mm_district m))
}.

Lemma init_linear : linear m0.
Proof.
  destruct (init_spec l m0 Hl Hinit) as (_ & _ & _ & _ & Ht & Hi). split.
  - apply Forall_Forall2_diag, Forall_true. by intros b H.
  - unfold live. rewrite Hi. constructor.
  - rewrite Ht, Hi. by apply Forall_replicate.
Qed.

(** Physical addresses of a fragment stay below 2^62. *)
Lemma base_phys i b : zget base i = Some b -> f_addr b <> 0 -> 0 <= f_phys_addr b /\ f_phys_addr b + f_len b <= 2 ^ 62.
Proof.
  intros Hb H0. destruct (frag_of_base l m0 Hl Hinit i b Hb H0) as (f & _ & [] & []). lia.
Qed.

Lemma reserve_state_linear name orig_name m m' : wf base m -> linear m -> reserve_state name orig_name m m' -> linear m'.
Proof.
  destruct (init_spec l m0 Hl Hinit) as (Hg & Hlen & _). intros Hwf [H1 H2 H3] [->|(len & socket_id & flags & align & bound & k & f & off & Hidx & Hpar & Hv & Hk & Hsu & ->)]; [done|].
  destruct (known_frags_lookup _ _ _ Hk) as [Hkf Hf0]. destruct Hsu as [_ _ _ Ho Hfit]. unfold reserved. set (n := piece_len _ _ f off).
  assert (0 < req_len len) as Hreq by (unfold req_len, ODP_CACHE_LINE_SIZE; lia). assert (0 <= off + n <= f_len f) as Hn by (unfold n, piece_len; destruct (_ =? 0); lia).
  destruct (rest_at base Hg Hlen m (Z.of_nat k) f Hwf ltac:(by rewrite zget_of_nat) Hf0) as (b & Hb & _ & Hb0 & [Hr1 Hr2 Hr3 _ _]).
  destruct (base_phys _ b Hb Hb0) as [Hp1 Hp2]. rewrite zget_of_nat in Hb.
  assert (f_phys_addr f - f_addr f = f_phys_addr b - f_addr b) as Hst by (by apply (Forall2_lookup_lr _ _ _ _ _ _ H1 Hb Hkf)).
  destruct (wf_idx _ _ Hwf) as [Hx _]. destruct (wf_tables _ _ Hwf) as [Ht _]. split; rewrite ?(live_with_district base Hlen) by done.
  - cbn [with_district free_mmfrag set_free_mmfrag]. rewrite Nat2Z.id. rewrite <- (list_insert_id base k b) by done. apply Forall2_insert; [done|].
    intros _. cbn [cut_frag f_phys_addr f_addr]. rewrite u64_small by (unfold is_u64; lia). lia.
  - apply Forall_app. split; [done|]. constructor; [|done]. split; cbn [new_district d_phys_addr d_phys_addr_end d_addr d_len excursion_addr mmfrag_id].
    + exists b. rewrite zget_of_nat. split_and!; [done|done|]. rewrite u64_small by (unfold is_u64; lia). lia.
    + rewrite (u64_small (f_phys_addr f + off)), u64_small by (unfold is_u64; lia). done.
    + rewrite (u64_small (f_phys_addr f + off)) by (unfold is_u64; lia). done.
  - cbn [with_district mm_district mm_district_idx set_free_mmfrag set_district]. rewrite drop_insert_lt by lia.
    replace (Z.to_nat (mm_district_idx m + 1)) with (Z.to_nat (mm_district_idx m) + 1)%nat by lia. rewrite <- drop_drop. by apply Forall_drop.
Qed.

Lemma reach_linear m : reach reserves m0 m -> linear m.
Proof.
  induction 1 as [|m o a m' Hr IH Hres Ho Hc]; [apply init_linear|]. destruct o as [name orig_name len socket_id flags align bound|]; [|done].
  pose proof (reach_wf l m0 Hl Hinit _ m Hr) as Hwf. destruct (init_spec l m0 Hl Hinit) as (Hg & Hlen & _). cbn [call] in Hc. unfold odp_mm_district_reserve_bounded in Hc.
  destruct (both_sizes flags); [cbn [mbind option_bind] in Hc; by injection Hc as _ <-|].
  destruct (reserve_total base Hg Hlen name orig_name len socket_id flags align bound m Hwf Ho) as (r & m'' & Hc' & Hs). rewrite Hc' in Hc. cbn [mbind option_bind] in Hc.
  injection Hc as _ <-. by eapply reserve_state_linear.
Qed.

Lemma maps_frag m d : wf base m -> linear m -> d ∈ live m ->
  exists f, known_frags (mmfrag l) !! Z.to_nat (mmfrag_id d) = Some f /\ 0 <= mmfrag_id d /\ frag_raw f /\ f_addr f <= d_addr d /\
    d_addr d + d_len d <= f_addr f + f_len f /\ d_phys_addr d = d_addr d + (f_phys_addr f - f_addr f) /\ 0 < d_len d.
Proof.
  intros Hwf [_ Hm _] Hd. destruct (placed_in l m0 Hl Hinit m d Hwf Hd) as (f & Hf & Hid & H1 & H2 & H3 & _).
  destruct (proj1 (Forall_forall _ _) Hm d Hd) as [(b & Hb & Hb0 & Hp) _ _]. destruct (frag_of_base l m0 Hl Hinit _ b Hb Hb0) as (f' & Hf' & Hraw & [_ _ _ _ Ht]).
  rewrite Hf in Hf'. injection Hf' as <-. exists f. split_and!; [done..|lia|done].
Qed.

(** A district that has the physical address leads back to the same byte. *)
Lemma phys_back m d e a : wf base m -> linear m -> d ∈ live m -> e ∈ live m -> d_addr d <= a < d_addr d + d_len d ->
  has_phys (a + (d_phys_addr d - d_addr d)) e = true -> excursion_addr e +u64 (a + (d_phys_addr d - d_addr d)) = a.
Proof.
  intros Hwf Hln Hd He Ha Hp. destruct (maps_frag m d Hwf Hln Hd) as (f & Hf & Hi1 & [] & H1 & H2 & H3 & _). destruct (maps_frag m e Hwf Hln He) as (g & Hg & Hi2 & [] & H4 & H5 & H6 & _).
  destruct (proj1 (Forall_forall _ _) (ln_live _ Hln) e He) as [_ Hend Hex]. unfold has_phys in Hp. apply andb_prop in Hp as [Hp1%Z.geb_le Hp2%Z.ltb_lt].
  assert (f_phys_addr f - f_addr f = f_phys_addr g - f_addr g) as Hst.
  { destruct (decide (mmfrag_id d = mmfrag_id e)) as [E|E]; [rewrite E, Hg in Hf; by injection Hf as ->|]. assert (Z.to_nat (mmfrag_id d) <> Z.to_nat (mmfrag_id e)) as Hne by lia.
    destruct (sorted_apart sep_phys _ _ _ f g sep_phys_sym (lo_phys _ Hl) Hne Hf Hg); lia. }
  rewrite Hex. unfold u64, wrap. rewrite Zplus_mod_idemp_l. rewrite Z.mod_small; lia.
Qed.

Lemma v2p_spec m d a : wf base m -> linear m -> d ∈ live m -> d_addr d <= a < d_addr d + d_len d -> odp_v2p a m = a + (d_phys_addr d - d_addr d).
Proof.
  intros Hwf Hln Hd Ha. pose proof (by_vaddress_spec a (live m) (drop (Z.to_nat (mm_district_idx m)) (mm_district m))) as Hs. rewrite <- live_rest in Hs.
  assert (Forall (fun d => d_addr d <> 0 /\ 0 <= d_addr d /\ d_addr d + d_len d < 2 ^ 64 /\ 0 < d_len d) (live m)) as Hgood.
  { apply Forall_forall. intros e He. destruct (maps_frag m e Hwf Hln He) as (g & _ & _ & [] & ? & ? & _ & ?). lia. }
  specialize (Hs Hgood (wf_unused _ _ Hwf)). unfold odp_v2p, get_mm_district_by_vaddress. destruct (by_vaddress a (mm_district m)) as [e|]; [|by destruct (Hs d Hd Ha)].
  destruct Hs as [He Hae]. assert (e = d) as ->.
  { apply list_elem_of_lookup in Hd as [j Hj]. apply list_elem_of_lookup in He as [k Hk]. destruct (decide (k = j)) as [->|Hne]; [congruence|].
    destruct (districts_apart l m0 Hl Hinit m k j e d Hwf Hne Hk Hj); lia. }
  destruct (maps_frag m d Hwf Hln Hd) as (g & _ & _ & [] & ? & ? & ? & ?). rewrite (u64_small (a - d_addr d)), u64_small by (unfold is_u64; lia). lia.
Qed.

Lemma p2v_spec m d a i : wf base m -> linear m -> d ∈ live m -> d_addr d <= a < d_addr d + d_len d -> 0 <= i < 128 ->
  exists i', odp_p2v (a + (d_phys_addr d - d_addr d)) i m = Some (a, i') /\ 0 <= i' < 128.
Proof.
  intros Hwf Hln Hd Ha Hi. set (p := a + (d_phys_addr d - d_addr d)). unfold odp_p2v. destruct (wf_tables _ _ Hwf) as [Ht _].
  destruct (zget_Some (mm_district m) i) as [c Hc]; [unfold zlen; lia|]. rewrite Hc. cbn [mbind option_bind].
  destruct (maps_frag m d Hwf Hln Hd) as (f & _ & _ & [] & ? & ? & ? & ?). destruct (proj1 (Forall_forall _ _) (ln_live _ Hln) d Hd) as [_ Hend _].
  assert (has_phys p d = true) as Hpd by (unfold has_phys, p; rewrite Z.geb_leb, (proj2 (Z.leb_le _ _)), (proj2 (Z.ltb_lt _ _)) by lia; done).
  assert (forall e, has_phys p e = true -> e ∈ live m \/ e ∈ drop (Z.to_nat (mm_district_idx m)) (mm_district m) -> e ∈ live m) as Hlive.
  { intros e He [?|Hu]; [done|]. apply (proj1 (Forall_forall _ _) (ln_unused _ Hln)) in Hu. subst e. unfold has_phys in He. cbn in He. apply andb_prop in He as [?%Z.geb_le ?%Z.ltb_lt]. lia. }
  destruct (has_phys p c) eqn:Ec.
  { exists i. split; [|done]. f_equal. f_equal. apply (phys_back m d c a Hwf Hln Hd); [|done|done]. apply Hlive; [done|].
    rewrite zget_nonneg in Hc by lia. rewrite (live_rest m) in Hc. apply list_elem_of_lookup_2 in Hc. by apply elem_of_app in Hc. }
  destruct (init_spec l m0 Hl Hinit) as (Hg & Hlen & _). pose proof (by_phys_spec p (live m) (drop (Z.to_nat (mm_district_idx m)) (mm_district m)) (live_addr base Hg Hlen m Hwf) 0) as Hs.
  rewrite <- live_rest in Hs. destruct (by_phys p 0 (mm_district m)) as [[e|] j]; [|by rewrite (Hs d Hd) in Hpd].
  destruct Hs as (He & Hin & Hj). exists j. split; [|unfold zlen in Hj; lia]. f_equal. f_equal. by apply (phys_back m d e a Hwf Hln Hd); [apply Hlive|..].
Qed.

End addresses.


(** ** Instances *)

Definition ex_layout : odp_sys_layout :=
  Lay 0 0 0 (Frag 0x10000 0x7000010000 0x10000 ODP_PGSIZE_2M 0 0 0 :: Frag 0x80000 0x7100080000 0x20000 ODP_PGSIZE_2M 1 0 0 :: replicate 126 zero_frag)
    (replicate 128 zero_district) (replicate 128 zero_district) (replicate 128 zero_frag).
Definition ex_m0 : odp_sys_layout := snd (odp_mm_district_init false ex_layout).
Definition after (o : op) (m : odp_sys_layout) : odp_sys_layout := default m (snd <$> call o m).
Definition ask (name : string) (len align : Z) : op := Reserve name name len SOCKET_ID_ANY 0 align 0.
Definition ex_m1 : odp_sys_layout := after (ask "a" 1000 0) ex_m0.
Definition ex_m2 : odp_sys_layout := after (ask "b" 0x4000 4096) ex_m1.
Definition ex_m3 : odp_sys_layout := after (ask "c" 64 0) (after (Unreserve "a") ex_m2).

Lemma ex_layout_ok : layout_ok ex_layout.
Proof.
  split; [done|done|done| | |].
  - repeat constructor; simpl; lia.
  - cbn. repeat constructor; simpl; lia.
  - cbn. repeat constructor; simpl; lia.
Qed.

Lemma reach_after P m0 m o : reach P m0 m -> P o -> legal o m -> (exists a m', call o m = Some (a, m')) -> reach P m0 (after o m).
Proof.
  intros Hr Hp Ho (a & m' & Hc). eapply reach_call; [done..|]. unfold after. rewrite Hc. done.
Qed.

Ltac ran := apply reach_after; [|done|repeat split; simpl; lia|vm_compute; eauto].

Lemma ex_reach2 P : P (ask "a" 1000 0) -> P (ask "b" 0x4000 4096) -> reach P ex_m0 ex_m2.
Proof. intros. unfold ex_m2, ex_m1. ran. ran. constructor. Qed.

Lemma district_safe_witness :
  exists d e, live ex_m3 = [d; e] /\ d_name d = "b"%string /\ d_name e = "c"%string /\ (d_addr d + d_len d <= d_addr e \/ d_addr e + d_len e <= d_addr d).
Proof.
  assert (reach (fun _ => True) ex_m0 ex_m3) as Hr.
  { unfold ex_m3. apply reach_after; [|done|repeat split; simpl; lia|vm_compute; eauto]. apply reach_after; [by apply ex_reach2|done|by vm_compute|vm_compute; eauto]. }
  destruct (district_safe ex_layout ex_m0 ex_m3 ex_layout_ok ltac:(by vm_compute) Hr) as (_ & _ & H).
  destruct (live ex_m3) as [|d [|e [|x r]]] eqn:E; [by vm_compute in E..| |by vm_compute in E].
  exists d, e. split_and!; [done|by vm_compute in E; injection E as <- <-|by vm_compute in E; injection E as <- <-|exact (H 0%nat 1%nat d e ltac:(done) eq_refl eq_refl)].
Defined.

Lemma reserve_correct_witness :
  exists m' d, odp_mm_district_reserve_aligned "c" "c" 100 1 0 4096 ex_m2 = Some (inl 2, m') /\ (4096 | d_phys_addr d) /\ 100 <= d_len d /\
    mm_district_lookup "c" m' = Some 2.
Proof.
  destruct (reserve_correct ex_layout ex_m0 ex_m2 "c" "c" 100 1 0 4096) as [H _];
    [exact ex_layout_ok|by vm_compute|by apply ex_reach2|by vm_compute|by vm_compute|simpl; lia|lia|right; by exists 12|by vm_compute|].
  destruct H as (m' & d & Hr & _ & _ & Ha & Hd & _ & Hlk).
  { left. exists 1%nat, (Frag 0x80000 0x7100080000 0x20000 ODP_PGSIZE_2M 1 0 0). split; [by vm_compute|]. split; by vm_compute. }
  exists m', d. exact (conj Hr (conj Ha (conj Hd Hlk))).
Defined.


(** ** Where the code does otherwise *)

(** When the last district of a fragment is given back, its address goes back but
    not its physical address: the next district is at the same place with
    another physical address. *)
Theorem unreserve_keeps_physical :
  let m := after (ask "b" 1000 0) (after (Unreserve "a") ex_m1) in
  (d_addr <$> live ex_m1, d_phys_addr <$> live ex_m1) = ([0x7000010000], [0x10000]) /\
  (d_addr <$> live m, d_phys_addr <$> live m) = ([0x7000010000], [0x10400]).
Proof. split; by vm_compute. Qed.

(** What is given back out of order is never used again: with nothing in use, half
    of the fragment is lost. *)
Theorem unreserve_out_of_order :
  let half name := Reserve name name 0x8000 0 0 0 0 in
  let m := after (Unreserve "b") (after (Unreserve "a") (after (half "b") (after (half "a") ex_m0))) in
  live m = [] /\ (fst <$> call (half "c") m) = Some (Got 0) /\ (fst <$> call (half "d") (after (half "c") m)) = Some (Err ENOMEM).
Proof. split_and!; by vm_compute. Qed.

(** The rest of a fragment up to a boundary behind its end: the length that is
    left wraps around. *)
Theorem bounded_rest_overflows :
  let m := after (Reserve "a" "a" 0 0 0 0 0x40000) ex_m0 in
  d_len <$> live m = [0x30000] /\ f_len <$> head (free_mmfrag m) = Some (2 ^ 64 - 0x20000).
Proof. split; by vm_compute. Qed.

(** A name of 64 characters is stored without its last one and is not found: it
    can be reserved again and cannot be given back. *)
Definition long_name : string := String.string_of_list_ascii (replicate 64 (Ascii.ascii_of_nat 120)).
Theorem long_name_lost :
  let m := after (ask long_name 64 0) (after (ask long_name 64 0) ex_m0) in
  length (live m) = 2%nat /\ fst <$> call (Unreserve long_name) m = Some (Ret 0xFFFFFFFF).
Proof. split; by vm_compute. Qed.

(** When the table is full, removing an entry reads and clears the entry behind
    its end. *)
Lemma shift_down_end n : forall i ds, 0 <= i -> i + Z.of_nat (S n) = zlen ds -> shift_down (S n) i ds = None.
Proof.
  induction n as [|n IH]; intros i ds Hi H; cbn [shift_down].
  - destruct (zget ds (i + 1)) eqn:E; [apply zget_bound in E; lia|done].
  - destruct (zget_Some ds (i + 1)) as [d Hd]; [lia|]. rewrite Hd. cbn [mbind option_bind]. destruct (zset ds i d) as [ds'|] eqn:Es; [|done].
    cbn [mbind option_bind]. change (shift_down (S n) (i + 1) ds' = None). apply IH; [lia|]. rewrite (zset_len _ _ _ _ Es). lia.
Qed.
Theorem unreserve_full_table name m i d m1 :
  mm_district_idx m = 128 -> length (mm_district m) = 128%nat -> mm_district_lookup name m = Some i -> zget (mm_district m) i = Some d ->
  give_back d m = Some (Some m1) -> odp_mm_district_unreserve name m = None.
Proof.
  intros Hidx Hlen Hlk Hd Hg. unfold odp_mm_district_unreserve, mm_district_unreserve. rewrite Hlk, Hd. cbn [mbind option_bind]. rewrite Hg. cbn [mbind option_bind].
  assert (mm_district m1 = mm_district m /\ mm_district_idx m1 = 128) as [E1 E2].
  { unfold give_back in Hg. destruct (zget (free_mmfrag m) (mmfrag_id d)); [|done]. cbn [mbind option_bind] in Hg.
    repeat case_match; try done; destruct (zset _ _ _); try done; cbn [mbind option_bind] in Hg; by injection Hg as <-. }
  unfold mm_district_lookup in *. rewrite E1, Hlk, E2. pose proof (zget_bound _ _ _ Hd) as Hb. unfold zlen in Hb.
  destruct (Z.to_nat (128 - i)) as [|n] eqn:En; [lia|]. rewrite shift_down_end; [done|lia|unfold zlen; lia].
Qed.

(** A translation that fails leaves the number of districts in the static
    variable; when the table is full the next one reads behind its end. *)
Theorem p2v_after_miss p q i m d :
  length (mm_district m) = 128%nat -> Forall (fun e => d_addr e <> 0 /\ has_phys p e = false) (mm_district m) -> zget (mm_district m) i = Some d ->
  odp_p2v p i m = Some (0, 128) /\ odp_p2v q 128 m = None.
Proof.
  intros Hlen Hall Hi. assert (forall j ds, Forall (fun e => d_addr e <> 0 /\ has_phys p e = false) ds -> by_phys p j ds = (None, j + zlen ds)) as Hmiss.
  { intros j ds H. revert j. induction H as [|e ds [H0 Hp] _ IH]; intros j; simpl; [f_equal; unfold zlen; simpl; lia|].
    rewrite (proj2 (Z.eqb_neq _ _)), Hp, IH by done. f_equal. unfold zlen. simpl. lia. }
  split.
  - unfold odp_p2v. rewrite Hi. cbn [mbind option_bind]. pose proof (zget_bound _ _ _ Hi) as Hb. rewrite zget_nonneg in Hi by lia.
    rewrite (proj2 (Forall_lookup_1 _ _ _ _ Hall Hi)), Hmiss by done. f_equal. f_equal. unfold zlen. lia.
  - unfold odp_p2v. destruct (zget (mm_district m) 128) eqn:E; [apply zget_bound in E; unfold zlen in E; lia|done].
Qed.

End DistrictSpec.
