(* ===== verification/Shm.v ===== *)
(** Shared memory blocks: platform/linux-generic/odp_shared_memory.c.

    The table of blocks is a list of 64 entries; memory comes from the operating
    system or, for physically contiguous blocks, from the districts of District.
    System calls are the members of the class [ShmSys] over a state [W] of the
    operating system.  The code for huge pages is not compiled: the file
    undefines MAP_HUGETLB.  Names are strings without NUL; the table is locked
    during each call.  A division by zero, a NULL pointer followed and an access
    outside a table are [None].  *)

From S2P Require Import Prelude District.
From stdpp Require Import pretty.

Open Scope Z_scope.
Open Scope c_scope.

Module Shm.
Import District.

Definition ODP_CONFIG_SHM_BLOCKS : Z := 16 + 48.
Definition ODP_SHM_NAME_LEN : nat := 32.
Definition ODP_SHM_INVALID : Z := 0.
Definition ODP_SHM_PROC : Z := 0x2.
Definition ODP_SHM_MONOPOLIZE_CNTNUS_PHY : Z := 0x4.
Definition ODP_SHM_SHARE_CNTNUS_PHY : Z := 0x8.

(** ** Data *)

Record odp_shm_block_t := Block {
  b_name : string; b_size : Z; b_align : Z; b_alloc_size : Z; addr_orig : Z; b_addr : Z; huge : Z; hdl : Z; b_flags : Z; page_sz : Z; b_fd : Z }.
Definition zero_block : odp_shm_block_t := Block "" 0 0 0 0 0 0 0 0 0 0.

Record odp_shm_info_t := Info { i_name : string; i_addr : Z; i_size : Z; i_page_size : Z; i_flags : Z }.

(** The operating system: [shm_open] returns a descriptor, [mmap] an address,
    [None] being their failure; the others return true on success. *)
Class ShmSys (W : Type) := {
  s_page_size : W -> Z;
  s_getpid : W -> Z;
  s_shm_open : string -> W -> option Z * W;
  s_ftruncate : Z -> Z -> W -> bool * W;
  s_mmap : Z -> Z -> W -> option Z * W;
  s_munmap : Z -> Z -> W -> bool * W;
  s_shm_unlink : string -> W -> bool * W
}.

Record shm_sys (W : Type) := Sys { block : list odp_shm_block_t; layout : odp_sys_layout; world : W }.
Arguments Sys {W}.
Arguments block {W}.
Arguments layout {W}.
Arguments world {W}.

Definition from_handle (shm : Z) : Z := shm -u32 1.
Definition to_handle (index : Z) : Z := index +u32 1.

Section shm.
Context {W : Type} `{ShmSys W}.

Definition set_block (l : list odp_shm_block_t) (s : shm_sys W) : shm_sys W := Sys l (layout s) (world s).
Definition set_layout (m : odp_sys_layout) (s : shm_sys W) : shm_sys W := Sys (block s) m (world s).
Definition set_world (w : W) (s : shm_sys W) : shm_sys W := Sys (block s) (layout s) w.

(** ** Start-up *)

Definition odp_shm_init_global (sizeof_table : Z) (m : odp_sys_layout) (w : W) : option (shm_sys W) * W :=
  match s_mmap sizeof_table (-1) w with
  | (None, w) => (None, w)
  | (Some _, w) => (Some (Sys (replicate 64 zero_block) m w), w)
  end.
Definition odp_shm_term_global (tbl sizeof_table : Z) (w : W) : Z * W :=
  let '(ok, w) := s_munmap tbl sizeof_table w in (if ok then 0 else -1, w).

(** ** Searches *)

Fixpoint find_block (name : string) (i : Z) (l : list odp_shm_block_t) : option Z :=
  match l with
  | [] => None
  | b :: l => if (name =? b_name b)%string then Some i else find_block name (i + 1) l
  end.
Fixpoint find_free (i : Z) (l : list odp_shm_block_t) : option Z :=
  match l with
  | [] => None
  | b :: l => if b_addr b =? 0 then Some i else find_free (i + 1) l
  end.

Definition odp_shm_lookup (name : string) (s : shm_sys W) : option Z :=
  match find_block name 0 (block s) with
  | None => Some ODP_SHM_INVALID
  | Some i => b ← zget (block s) i; Some (hdl b)
  end.
Definition odp_shm_addr (shm : Z) (s : shm_sys W) : option Z :=
  let i := from_handle shm in
  if i >? ODP_CONFIG_SHM_BLOCKS - 1 then Some 0 else b ← zget (block s) i; Some (b_addr b).
Definition odp_shm_info (shm : Z) (s : shm_sys W) : option (Z * option odp_shm_info_t) :=
  let i := from_handle shm in
  if i >? ODP_CONFIG_SHM_BLOCKS - 1 then Some (-1, None)
  else b ← zget (block s) i; Some (0, Some (Info (b_name b) (b_addr b) (b_size b) (page_sz b) (b_flags b))).

(** ** Reservation *)

(** [snprintf(buf, ODP_SHM_NAME_LEN + 8, "%s_%d", name, pid)] *)
Definition district_name (name : string) (pid : Z) : string := String.substring 0 39 (name +:+ "_" +:+ pretty pid).

(** The address of a district, NULL being [None]. *)
Definition district (name orig_name : string) (alloc_size : Z) (s : shm_sys W) : option (option Z * shm_sys W) :=
  '(r, m) ← odp_mm_district_reserve name orig_name alloc_size 0 (Z.lor ODP_MEMZONE_2MB ODP_MEMZONE_SIZE_HINT_ONLY) (layout s);
  match r with
  | inl i => d ← zget (mm_district m) i; Some (Some (d_addr d), set_layout m s)
  | inr _ => Some (None, set_layout m s)
  end.

(** What is opened before the table is locked: the descriptor and the district;
    [None] inside when that fails. *)
Definition open_memory (name : string) (alloc_size flags : Z) (s : shm_sys W) : option (option (Z * option Z) * shm_sys W) :=
  if flag flags ODP_SHM_PROC then
    let '(fd, w) := s_shm_open name (world s) in
    Some (match fd with Some fd => Some (fd, None) | None => None end, set_world w s)
  else if flag flags ODP_SHM_MONOPOLIZE_CNTNUS_PHY then
    '(zone, s) ← district (district_name name (s_getpid (world s))) name alloc_size s;
    Some (match zone with Some z => Some (-1, Some z) | None => None end, s)
  else if flag flags ODP_SHM_SHARE_CNTNUS_PHY then
    '(zone, s) ← district name name alloc_size s;
    Some (match zone with Some z => Some (-1, Some z) | None => None end, s)
  else Some (Some (-1, None), s).

Definition contiguous (flags : Z) : bool := flag flags ODP_SHM_MONOPOLIZE_CNTNUS_PHY || flag flags ODP_SHM_SHARE_CNTNUS_PHY.

(** [ODP_ALIGN_ROUNDUP_PTR] *)
Definition align_roundup (x align : Z) : option Z :=
  if align =? 0 then None else Some (align *u64 ((x +u64 align -u64 1) / align)).

(** The block with its handle and nothing else, as a failure leaves it. *)
Definition set_hdl (h : Z) (b : odp_shm_block_t) : odp_shm_block_t :=
  Block (b_name b) (b_size b) (b_align b) (b_alloc_size b) (addr_orig b) (b_addr b) (huge b) h (b_flags b) (page_sz b) (b_fd b).

(** [ftruncate] and [mmap]: the address, [MAP_FAILED] being [None]. *)
Definition map_memory (alloc_size flags fd : Z) (w : W) : option Z * W :=
  let '(ok, w) := if flag flags ODP_SHM_PROC then s_ftruncate fd alloc_size w else (true, w) in
  if negb ok then (None, w) else s_mmap alloc_size fd w.

Definition fill_block (name : string) (size align flags fd : Z) (alloc_size addr0 addr h hg pg : Z) : odp_shm_block_t :=
  Block (String.substring 0 (ODP_SHM_NAME_LEN - 1) name) size align alloc_size addr0 addr hg h flags pg fd.

Definition odp_shm_reserve (name : string) (size align flags : Z) (s : shm_sys W) : option (Z * shm_sys W) :=
  let pg := s_page_size (world s) in
  let alloc_size := size +u64 align in
  '(opened, s) ← open_memory name alloc_size flags s;
  match opened with
  | None => Some (ODP_SHM_INVALID, s)
  | Some (fd, zone) =>
      match find_block name 0 (block s), find_free 0 (block s) with
      | Some _, _ => Some (ODP_SHM_INVALID, s)
      | None, None => Some (ODP_SHM_INVALID, s)
      | None, Some i =>
          b ← zget (block s) i;
          let h := to_handle i in
          if contiguous flags then
            addr0 ← zone;
            addr ← align_roundup addr0 align;
            l ← zset (block s) i (fill_block name size align flags (-1) alloc_size addr0 addr h 1 ODP_MEMZONE_2MB);
            Some (h, set_block l s)
          else
            let '(addr0, w) := map_memory alloc_size flags fd (world s) in
            let s := set_world w s in
            match addr0 with
            | None => l ← zset (block s) i (set_hdl h b); Some (ODP_SHM_INVALID, set_block l s)
            | Some addr0 =>
                addr ← align_roundup addr0 align;
                l ← zset (block s) i (fill_block name size align flags fd alloc_size addr0 addr h 0 pg);
                Some (h, set_block l s)
            end
      end
  end.

(** ** Giving a block back *)

(** [junk] is what the local array [name] holds, which is not initialised. *)
Definition odp_shm_free (junk : string) (shm : Z) (s : shm_sys W) : option (Z * shm_sys W) :=
  if shm =? ODP_SHM_INVALID then Some (-1, s)
  else
    let i := from_handle shm in
    if i >=? ODP_CONFIG_SHM_BLOCKS then Some (-1, s)
    else
      b ← zget (block s) i;
      if b_addr b =? 0 then Some (0, s)
      else if flag (b_flags b) ODP_SHM_MONOPOLIZE_CNTNUS_PHY then
        '(_, m) ← odp_mm_district_unreserve (district_name (b_name b) (s_getpid (world s))) (layout s);
        l ← zset (block s) i zero_block;
        Some (0, set_block l (set_layout m s))
      else if flag (b_flags b) ODP_SHM_SHARE_CNTNUS_PHY then
        '(_, m) ← odp_mm_district_unreserve junk (layout s);
        l ← zset (block s) i zero_block;
        Some (0, set_block l (set_layout m s))
      else
        let '(ok, w) := s_munmap (addr_orig b) (b_alloc_size b) (world s) in
        let s := set_world w s in
        if negb ok then Some (-1, s)
        else
          let '(ok, w) := if flag (b_flags b) ODP_SHM_PROC then s_shm_unlink (b_name b) (world s) else (true, world s) in
          let s := set_world w s in
          if negb ok then Some (-1, s)
          else l ← zset (block s) i zero_block; Some (0, set_block l s).

End shm.

End Shm.
