(* ===== verification/ShmProofs.v ===== *)
(** Shared memory blocks (Shm): the table in every reachable state, a block from
    its reservation to its return, physically contiguous blocks, and the inputs
    on which the code does otherwise. *)

From S2P Require Import Prelude District DistrictProofs DistrictSpec Shm.

Open Scope Z_scope.
Open Scope c_scope.

Module ShmProofs.
Import District Shm.

(** What is relied on of the operating system: [mmap] returns a range of user
    addresses that overlaps no other mapping and refuses length 0, and [munmap]
    of a whole mapping removes it. *)
Class ShmLaws (W : Type) `{ShmSys W} := {
  regions : W -> gmap Z Z;
  mmap_ok n fd w a w' : s_mmap n fd w = (Some a, w') ->
    0 < n /\ 0 < a /\ a + n < 2 ^ 63 /\ regions w' = <[a := n]> (regions w) /\
    forall a' n', regions w !! a' = Some n' -> a + n <= a' \/ a' + n' <= a;
  mmap_fail n fd w w' : s_mmap n fd w = (None, w') -> regions w' = regions w;
  munmap_ok a n w w' : s_munmap a n w = (true, w') -> regions w !! a = Some n -> regions w' = delete a (regions w);
  munmap_fail a n w w' : s_munmap a n w = (false, w') -> regions w' = regions w;
  shm_open_regions name w : regions (snd (s_shm_open name w)) = regions w;
  ftruncate_regions fd n w : regions (snd (s_ftruncate fd n w)) = regions w;
  shm_unlink_regions name w : regions (snd (s_shm_unlink name w)) = regions w
}.

(** ** Searches *)

Lemma find_block_spec name l : forall i,
  match find_block name i l with
  | Some j => exists k b, j = i + Z.of_nat k /\ l !! k = Some b /\ b_name b = name /\ forall k' b', (k' < k)%nat -> l !! k' = Some b' -> b_name b' <> name
  | None => forall k b, l !! k = Some b -> b_name b <> name
  end.
Proof.
  induction l as [|b l IH]; intros i; [done|]. simpl. destruct (String.eqb_spec name (b_name b)) as [E|E].
  { exists 0%nat, b. split_and!; [lia|done|done|lia]. }
  specialize (IH (i + 1)). destruct (find_block name (i + 1) l) as [j|].
  - destruct IH as (k & c & -> & Hk & Hc & Hno). exists (S k), c. split_and!; [lia|done|done|]. intros [|k'] b' Hlt Hk'; [injection Hk' as <-; congruence|].
    eapply Hno; [|done]. lia.
  - intros [|k] c Hk; [injection Hk as <-; congruence|by eapply IH].
Qed.

Lemma find_free_spec l : forall i,
  match find_free i l with
  | Some j => exists k b, j = i + Z.of_nat k /\ l !! k = Some b /\ b_addr b = 0 /\ forall k' b', (k' < k)%nat -> l !! k' = Some b' -> b_addr b' <> 0
  | None => forall k b, l !! k = Some b -> b_addr b <> 0
  end.
Proof.
  induction l as [|b l IH]; intros i; [done|]. simpl. destruct (Z.eqb_spec (b_addr b) 0) as [E|E].
  { exists 0%nat, b. split_and!; [lia|done|done|lia]. }
  specialize (IH (i + 1)). destruct (find_free (i + 1) l) as [j|].
  - destruct IH as (k & c & -> & Hk & Hc & Hno). exists (S k), c. split_and!; [lia|done|done|]. intros [|k'] b' Hlt Hk'; [by injection Hk' as <-|]. eapply Hno; [|done]. lia.
  - intros [|k] c Hk; [by injection Hk as <-|by eapply IH].
Qed.

(** ** Alignment *)

Lemma align_roundup_spec x align : 0 <= x -> 0 < align -> x + align < 2 ^ 64 ->
  exists y, align_roundup x align = Some y /\ (align | y) /\ x <= y < x + align.
Proof.
  intros Hx Ha Hs. unfold align_roundup. rewrite (proj2 (Z.eqb_neq _ _)) by lia. rewrite (u64_small (x + align)), (u64_small (x + align - 1)) by (unfold is_u64; lia).
  pose proof (Z.div_mod (x + align - 1) align ltac:(lia)) as E. pose proof (Z.mod_pos_bound (x + align - 1) align Ha). set (q := (x + align - 1) / align) in *.
  rewrite u64_small by (unfold is_u64; lia). exists (align * q). split_and!; [done|by exists q; lia|lia|lia].
Qed.

(** ** The invariant *)

Section table.
Context {W : Type} `{ShmLaws W}.

(** A block in use: its handle, its place in the mapping, its name. *)
Record used (i : nat) (b : odp_shm_block_t) (w : W) : Prop := {
  us_hdl : hdl b = Z.of_nat i + 1;
  us_map : regions w !! addr_orig b = Some (b_alloc_size b);
  us_size : 0 <= b_size b;
  us_place : addr_orig b <= b_addr b /\ b_addr b + b_size b <= addr_orig b + b_alloc_size b;
  us_align : 0 < b_align b /\ (b_align b | b_addr b);
  us_name : b_name b <> ""%string;
  us_flags : contiguous (b_flags b) = false
}.

Record inv (s : shm_sys W) : Prop := {
  in_len : length (block s) = 64%nat;
  in_used i b : block s !! i = Some b -> b_addr b <> 0 -> used i b (world s);
  in_idle i b : block s !! i = Some b -> b_addr b = 0 -> b_name b = ""%string;
  in_distinct i j b c : block s !! i = Some b -> block s !! j = Some c -> i <> j -> b_addr b <> 0 -> b_addr c <> 0 -> b_name b <> b_name c /\ addr_orig b <> addr_orig c;
  in_pos a n : regions (world s) !! a = Some n -> 0 < n;
  in_apart a n a' n' : regions (world s) !! a = Some n -> regions (world s) !! a' = Some n' -> a <> a' -> a + n <= a' \/ a' + n' <= a
}.

(** ** Calls *)

Inductive op := Reserve (name : string) (size align flags : Z) | Free (junk : string) (shm : Z).

Definition call (o : op) (s : shm_sys W) : option (Z * shm_sys W) :=
  match o with
  | Reserve name size align flags => odp_shm_reserve name size align flags s
  | Free junk shm => odp_shm_free junk shm s
  end.

(** Memory of the operating system with an alignment and a size that fits, and a
    name of the length the interface allows; when a block that is shared with
    other processes is given back its object still exists. *)
Definition legal (o : op) (s : shm_sys W) : Prop :=
  match o with
  | Reserve name size align flags =>
      contiguous flags = false /\ 0 < align /\ 0 <= size /\ size + align < 2 ^ 64 /\ (String.length name <= 31)%nat
  | Free _ shm => is_u64 shm /\ forall b, zget (block s) (from_handle shm) = Some b -> flag (b_flags b) ODP_SHM_PROC = true ->
      fst (s_shm_unlink (b_name b) (snd (s_munmap (addr_orig b) (b_alloc_size b) (world s)))) = true
  end.

Lemma contiguous_false flags : contiguous flags = false -> flag flags ODP_SHM_MONOPOLIZE_CNTNUS_PHY = false /\ flag flags ODP_SHM_SHARE_CNTNUS_PHY = false.
Proof. apply orb_false_elim. Qed.

(** Opening changes neither the table nor the mappings. *)
Lemma open_memory_os name n flags s : contiguous flags = false ->
  exists r s', open_memory name n flags s = Some (r, s') /\ block s' = block s /\ layout s' = layout s /\ regions (world s') = regions (world s) /\
    match r with Some (_, zone) => zone = None | None => flag flags ODP_SHM_PROC = true /\ fst (s_shm_open name (world s)) = None end.
Proof.
  intros [Hm Hs]%contiguous_false. unfold open_memory. rewrite Hm, Hs. pose proof (shm_open_regions name (world s)) as Hr.
  destruct (flag flags ODP_SHM_PROC); [|eexists _, s; by split_and!].
  destruct (s_shm_open name (world s)) as [[fd|] w]; eexists _, (set_world w s); by split_and!.
Qed.

Lemma map_memory_spec n flags fd w :
  match map_memory n flags fd w with
  | (Some a, w') => 0 < n /\ 0 < a /\ a + n < 2 ^ 63 /\ regions w' = <[a := n]> (regions w) /\ forall a' n', regions w !! a' = Some n' -> a + n <= a' \/ a' + n' <= a
  | (None, w') => regions w' = regions w
  end.
Proof.
  unfold map_memory. assert (exists ok w1, (if flag flags ODP_SHM_PROC then s_ftruncate fd n w else (true, w)) = (ok, w1) /\ regions w1 = regions w) as (ok & w1 & -> & Hr).
  { destruct (flag flags ODP_SHM_PROC); [|by eexists _, _]. pose proof (ftruncate_regions fd n w). destruct (s_ftruncate fd n w) as [ok w1]. by exists ok, w1. }
  destruct ok; [|done]. cbn [negb]. destruct (s_mmap n fd w1) as [[a|] w'] eqn:E.
  - apply mmap_ok in E as (? & ? & ? & Hr' & Hd). rewrite Hr in *. done.
  - apply mmap_fail in E. by rewrite E.
Qed.

(** What a reservation does to the table: nothing, a handle on a block that is
    not in use, or a block in use. *)
Lemma reserve_spec name size align flags s : inv s -> legal (Reserve name size align flags) s ->
  exists h s', odp_shm_reserve name size align flags s = Some (h, s') /\ layout s' = layout s /\
    ((h = 0 /\ regions (world s') = regions (world s) /\
      (block s' = block s \/ exists i b, block s !! i = Some b /\ b_addr b = 0 /\ block s' = <[i := set_hdl (Z.of_nat i + 1) b]> (block s))) \/
     (exists i b a fd addr, h = Z.of_nat i + 1 /\ block s !! i = Some b /\ b_addr b = 0 /\ (forall k c, block s !! k = Some c -> b_name c <> name) /\
        0 < a /\ a + (size + align) < 2 ^ 63 /\ regions (world s') = <[a := size + align]> (regions (world s)) /\
        (forall a' n', regions (world s) !! a' = Some n' -> a + (size + align) <= a' \/ a' + n' <= a) /\
        (align | addr) /\ a <= addr < a + align /\
        block s' = <[i := fill_block name size align flags fd (size + align) a addr h 0 (s_page_size (world s))]> (block s))).
Proof.
  intros Hinv (Hc & Ha & Hsz & Hsum & Hname). unfold odp_shm_reserve. rewrite (u64_small (size + align)) by (unfold is_u64; lia).
  destruct (open_memory_os name (size + align) flags s Hc) as (r & s1 & -> & Hb1 & Hl1 & Hr1 & Hz). cbn [mbind option_bind].
  destruct r as [[fd zone]|]; [|exists 0, s1; split_and!; [done|done|left; split_and!; [done|done|by left]]].
  pose proof (find_block_spec name (block s1) 0) as Hfb. destruct (find_block name 0 (block s1)) as [j|]; [exists 0, s1; split_and!; [done|done|left; split_and!; [done|done|by left]]|].
  pose proof (find_free_spec (block s1) 0) as Hff. destruct (find_free 0 (block s1)) as [i|]; [|exists 0, s1; split_and!; [done|done|left; split_and!; [done|done|by left]]].
  destruct Hff as (k & b & -> & Hk & Hb0 & _). pose proof (lookup_lt_Some _ _ _ Hk) as Hlt. rewrite Z.add_0_l, zget_of_nat, Hk. cbn [mbind option_bind]. rewrite Hc.
  assert (to_handle (Z.of_nat k) = Z.of_nat k + 1) as Hh by (unfold to_handle; rewrite Hb1, (in_len _ Hinv) in Hlt; rewrite u32_small; [lia|unfold is_u32; lia]).
  pose proof (map_memory_spec (size + align) flags fd (world s1)) as Hm. destruct (map_memory (size + align) flags fd (world s1)) as [[a|] w].
  - destruct Hm as (_ & Hm2 & Hm3 & Hm4 & Hm5). destruct (align_roundup_spec a align ltac:(lia) Ha ltac:(lia)) as (addr & -> & Hd & Hr). cbn [mbind option_bind].
    rewrite zset_Some by (unfold zlen; cbn [block set_world]; lia). cbn [mbind option_bind]. eexists _, _. split_and!; [done|done|]. right.
    exists k, b, a, fd, addr. rewrite Hb1 in *. rewrite Hr1 in *. rewrite Hh. cbn [block set_block set_world world]. rewrite Nat2Z.id, ?Hb1. split_and!; try done; lia.
  - rewrite zset_Some by (unfold zlen; cbn [block set_world]; lia). cbn [mbind option_bind]. eexists _, _. split_and!; [done|done|]. left. cbn [world set_block set_world block].
    rewrite Hm, Hr1, Nat2Z.id, Hh, Hb1. rewrite Hb1 in Hk. split_and!; [done|done|]. right. by exists k, b.
Qed.

(** Returning a block: nothing changes, or the block is cleared and its mapping
    removed. *)
Lemma free_spec junk shm s : inv s -> legal (Free junk shm) s ->
  exists r s', odp_shm_free junk shm s = Some (r, s') /\ layout s' = layout s /\
    ((block s' = block s /\ regions (world s') = regions (world s) /\
      (r = 0 -> exists b, block s !! Z.to_nat (from_handle shm) = Some b /\ b_addr b = 0)) \/
     (exists b, r = 0 /\ 0 <= from_handle shm < 64 /\ block s !! Z.to_nat (from_handle shm) = Some b /\ b_addr b <> 0 /\
        block s' = <[Z.to_nat (from_handle shm) := zero_block]> (block s) /\ regions (world s') = delete (addr_orig b) (regions (world s)))).
Proof.
  intros Hinv [Hu Hlegal]. unfold odp_shm_free. destruct (Z.eqb_spec shm ODP_SHM_INVALID); [exists (-1), s; split_and!; [done|done|by left]|].
  unfold ODP_CONFIG_SHM_BLOCKS. pose proof (u32_bound (shm - 1)) as Hb. fold (from_handle shm) in Hb. unfold is_u32 in Hb. set (i := from_handle shm) in *.
  rewrite Z.geb_leb. destruct (Z.leb_spec (16 + 48) i); [exists (-1), s; split_and!; [done|done|by left]|].
  destruct (zget_Some (block s) i) as [b Hi]; [unfold zlen; rewrite (in_len _ Hinv); lia|]. specialize (Hlegal b Hi). rewrite Hi. cbn [mbind option_bind]. rewrite zget_nonneg in Hi by lia.
  destruct (Z.eqb_spec (b_addr b) 0) as [E|E]; [exists 0, s; split_and!; [done|done|left; split_and!; [done|done|eauto]]|].
  pose proof (in_used _ Hinv _ b Hi E) as [_ Hmap _ _ _ _ Hf]. destruct (contiguous_false _ Hf) as [-> ->].
  destruct (s_munmap (addr_orig b) (b_alloc_size b) (world s)) as [[] w] eqn:Em; cbn [negb].
  2: { exists (-1), (set_world w s). apply munmap_fail in Em. split_and!; [done|done|left; by split_and!]. }
  assert (exists w', (if flag (b_flags b) ODP_SHM_PROC then s_shm_unlink (b_name b) (world (set_world w s)) else (true, world (set_world w s))) = (true, w') /\ regions w' = regions w) as (w' & -> & Hw').
  { destruct (flag (b_flags b) ODP_SHM_PROC); [|by eexists]. specialize (Hlegal eq_refl). cbn [snd] in Hlegal. cbn [world set_world]. pose proof (shm_unlink_regions (b_name b) w).
    destruct (s_shm_unlink (b_name b) w) as [ok w']. cbn [fst snd] in *. subst ok. by exists w'. }
  cbn [negb]. rewrite zset_Some by (unfold zlen; cbn [block set_world]; rewrite (in_len _ Hinv); lia). cbn [mbind option_bind]. eexists 0, _. split_and!; [done|done|]. right.
  exists b. cbn [block set_block set_world world]. rewrite Hw', (munmap_ok _ _ _ _ Em Hmap). split_and!; [done|lia|lia|done|done|done|done].
Qed.

Lemma used_other i b w w' : used i b w -> regions w' !! addr_orig b = regions w !! addr_orig b -> used i b w'.
Proof. intros [] E. split; [done|by rewrite E|done..]. Qed.

Lemma filled_used i name size align flags fd a addr h pg w :
  legal (Reserve name size align flags) w -> name <> ""%string -> h = Z.of_nat i + 1 -> regions (world w) !! a = Some (size + align) -> (align | addr) -> a <= addr < a + align ->
  used i (fill_block name size align flags fd (size + align) a addr h 0 pg) (world w).
Proof.
  intros (Hc & Ha & Hs & _ & Hn) Hne -> Hr Hd Hb. split; cbn [fill_block hdl addr_orig b_alloc_size b_size b_addr b_align b_name b_flags]; [done|done|done|lia|done| |done].
  by rewrite substring_all.
Qed.

Lemma reserve_inv name size align flags s h s' : inv s -> legal (Reserve name size align flags) s -> odp_shm_reserve name size align flags s = Some (h, s') -> inv s'.
Proof.
  intros Hinv Hlegal Hc. destruct (reserve_spec name size align flags s Hinv Hlegal) as (h' & s'' & Hc' & _ & Hcase). rewrite Hc in Hc'. injection Hc' as <- <-.
  destruct Hinv as [H1 H2 H3 H4 H5 H6]. destruct Hcase as [(_ & Hr & [Hb|(i & b & Hi & Hb0 & Hb)])|(i & b & a & fd & addr & -> & Hi & Hb0 & Hno & Ha & Hend & Hr & Hd & Hal & Had & Hb)].
  - split; rewrite ?Hb, ?Hr; [done| |done|done|done|done]. intros j c Hj Hc0. eapply used_other; [by apply H2|]. by rewrite Hr.
  - split; rewrite ?Hb, ?Hr; [by rewrite length_insert| | | |done|done].
    + intros j c [[<- [<- _]]|[_ Hj]]%list_lookup_insert_Some Hc0; [done|]. eapply used_other; [by apply H2|]. by rewrite Hr.
    + intros j c [[<- [<- _]]|[_ Hj]]%list_lookup_insert_Some Hc0; [by eapply (H3 i b)|by eapply H3].
    + intros j k c d [[<- [<- _]]|[_ Hj]]%list_lookup_insert_Some [[<- [<- _]]|[_ Hk]]%list_lookup_insert_Some Hjk Hc0 Hd0; [done..|by eapply (H4 j k)].
  - assert (name <> ""%string) as Hne by (intros ->; by apply (Hno i b Hi), (H3 i b)). pose proof Hlegal as (Hcf & Halign & Hsz & _ & Hname).
    assert (forall a' n', regions (world s) !! a' = Some n' -> a <> a') as Hnew by (intros a' n' E <-; pose proof (H5 _ _ E); destruct (Hd _ _ E); lia).
    split; rewrite ?Hb; [by rewrite length_insert| | | | |].
    + intros j c [[<- [<- _]]|[_ Hj]]%list_lookup_insert_Some Hc0.
      * apply (filled_used i name size align flags fd a addr _ _ s'); [exact Hlegal|done|done|by rewrite Hr, lookup_insert_eq|done|lia].
      * pose proof (H2 j c Hj Hc0) as Hu. eapply used_other; [exact Hu|]. rewrite Hr, lookup_insert_ne; [done|]. by eapply Hnew, Hu.
    + intros j c [[<- [<- _]]|[_ Hj]]%list_lookup_insert_Some Hc0; [simpl in Hc0; lia|by eapply H3].
    + assert (forall k d, block s !! k = Some d -> b_addr d <> 0 -> b_name d <> String.substring 0 31 name /\ addr_orig d <> a) as Hother.
      { intros k d Hk Hd0. rewrite substring_all by done. split; [by eapply Hno|]. intros E. by apply (Hnew (addr_orig d) (b_alloc_size d)), eq_sym; [apply (H2 k d Hk Hd0)|]. }
      intros j k c d [[<- [<- _]]|[_ Hj]]%list_lookup_insert_Some [[<- [<- _]]|[_ Hk]]%list_lookup_insert_Some Hjk Hc0 Hd0; [done| | |by eapply (H4 j k)].
      * destruct (Hother k d Hk Hd0). simpl. by split; apply not_eq_sym.
      * by apply (Hother j c Hj Hc0).
    + rewrite Hr. intros a' n' [[<- <-]|[_ E]]%lookup_insert_Some; [lia|by eapply H5].
    + rewrite Hr. intros a1 n1 a2 n2 [[<- <-]|[_ E1]]%lookup_insert_Some [[<- <-]|[_ E2]]%lookup_insert_Some Hn12; [done|by apply Hd| |by eapply H6].
      destruct (Hd _ _ E1); lia.
Qed.

Lemma free_inv junk shm s r s' : inv s -> legal (Free junk shm) s -> odp_shm_free junk shm s = Some (r, s') -> inv s'.
Proof.
  intros Hinv Hlegal Hc. destruct (free_spec junk shm s Hinv Hlegal) as (r' & s'' & Hc' & _ & Hcase). rewrite Hc in Hc'. injection Hc' as <- <-.
  pose proof Hinv as [H1 H2 H3 H4 H5 H6]. destruct Hcase as [(Hb & Hr & _)|(b & _ & Hi & Hib & Hb0 & Hb & Hr)].
  { split; rewrite ?Hb, ?Hr; [done| |done|done|done|done]. intros j c Hj Hc0. eapply used_other; [by apply H2|]. by rewrite Hr. }
  split; rewrite ?Hb; [by rewrite length_insert| | | | |].
  - intros j c [[<- [<- _]]|[Hne Hj]]%list_lookup_insert_Some Hc0; [done|]. eapply used_other; [by apply H2|]. rewrite Hr, lookup_delete_ne; [done|].
    by apply (H4 _ j b c Hib Hj).
  - intros j c [[<- [<- _]]|[_ Hj]]%list_lookup_insert_Some Hc0; [done|by eapply H3].
  - intros j k c d [[<- [<- _]]|[_ Hj]]%list_lookup_insert_Some [[<- [<- _]]|[_ Hk]]%list_lookup_insert_Some Hjk Hc0 Hd0; [done..|by eapply (H4 j k)].
  - rewrite Hr. intros a n [_ E]%lookup_delete_Some. by eapply H5.
  - rewrite Hr. intros a1 n1 a2 n2 [_ E1]%lookup_delete_Some [_ E2]%lookup_delete_Some. by apply H6.
Qed.

Lemma shm_call_total o s : inv s -> legal o s -> exists r s', call o s = Some (r, s') /\ inv s'.
Proof.
  intros Hinv Ho. destruct o as [name size align flags|junk shm]; cbn [call].
  - destruct (reserve_spec name size align flags s Hinv Ho) as (h & s' & Hc & _). exists h, s'. split; [done|]. by eapply reserve_inv.
  - destruct (free_spec junk shm s Hinv Ho) as (h & s' & Hc & _). exists h, s'. split; [done|]. by eapply free_inv.
Qed.

(** ** Histories *)

Inductive reach (s0 : shm_sys W) : shm_sys W -> Prop :=
  | reach_start : reach s0 s0
  | reach_call s o r s' : reach s0 s -> legal o s -> call o s = Some (r, s') -> reach s0 s'.

(** The table after start-up; other mappings may exist. *)
Record fresh (s : shm_sys W) : Prop := {
  fr_blocks : block s = replicate 64 zero_block;
  fr_pos a n : regions (world s) !! a = Some n -> 0 < n;
  fr_apart a n a' n' : regions (world s) !! a = Some n -> regions (world s) !! a' = Some n' -> a <> a' -> a + n <= a' \/ a' + n' <= a
}.

Lemma fresh_inv s : fresh s -> inv s.
Proof.
  intros [Hb H5 H6]. split; rewrite ?Hb; [done| | | |done|done].
  - by intros i b [-> _]%lookup_replicate.
  - by intros i b [-> _]%lookup_replicate.
  - by intros i j b c [-> _]%lookup_replicate.
Qed.

Lemma shm_reach_inv s0 s : fresh s0 -> reach s0 s -> inv s.
Proof.
  intros Hf. induction 1 as [|s o r s' _ IH Ho Hc]; [by apply fresh_inv|]. destruct (shm_call_total o s IH Ho) as (r' & s'' & Hc' & Hi).
  rewrite Hc in Hc'. by injection Hc' as -> ->.
Qed.

(** ** Search by name *)

Lemma lookup_used s i b : inv s -> block s !! i = Some b -> b_addr b <> 0 -> odp_shm_lookup (b_name b) s = Some (Z.of_nat i + 1).
Proof.
  intros Hinv Hi Hb. pose proof (in_used _ Hinv i b Hi Hb) as Hu. unfold odp_shm_lookup. pose proof (find_block_spec (b_name b) (block s) 0) as Hf.
  destruct (find_block (b_name b) 0 (block s)) as [j|]; [|by destruct (Hf i b Hi)]. destruct Hf as (k & c & -> & Hk & Hc & _). rewrite Z.add_0_l, zget_of_nat, Hk. cbn [mbind option_bind].
  destruct (decide (b_addr c = 0)) as [E|E]; [apply (in_idle _ Hinv k c Hk) in E; destruct (us_name _ _ _ Hu); congruence|].
  destruct (decide (i = k)) as [->|Hne]; [|by destruct (in_distinct _ Hinv i k b c Hi Hk Hne Hb E)]. rewrite Hi in Hk. injection Hk as <-. by rewrite (us_hdl _ _ _ Hu).
Qed.

Lemma lookup_missing s n : inv s -> n <> ""%string -> (forall i b, block s !! i = Some b -> b_addr b <> 0 -> b_name b <> n) -> odp_shm_lookup n s = Some 0.
Proof.
  intros Hinv Hn Hno. unfold odp_shm_lookup. pose proof (find_block_spec n (block s) 0) as Hf. destruct (find_block n 0 (block s)) as [j|]; [|done].
  destruct Hf as (k & c & _ & Hk & Hc & _). destruct (decide (b_addr c = 0)) as [E|E]; [apply (in_idle _ Hinv k c Hk) in E; congruence|]. by destruct (Hno k c Hk E).
Qed.

(** Two tables with the same blocks of a name answer the same. *)
Lemma lookup_same s s' n : inv s -> inv s' -> n <> ""%string ->
  (forall i b, b_addr b <> 0 -> b_name b = n -> block s !! i = Some b <-> block s' !! i = Some b) -> odp_shm_lookup n s' = odp_shm_lookup n s.
Proof.
  intros Hi Hi' Hn Hsame. destruct (decide (Exists (fun b => b_addr b <> 0 /\ b_name b = n) (block s))) as [Hex|Hno].
  - apply Exists_exists in Hex as (b & [i Hb]%list_elem_of_lookup & Ha & <-). rewrite (lookup_used s i b) by done. by rewrite (lookup_used s' i b) by (done || by apply Hsame).
  - assert (forall i b, block s !! i = Some b -> b_addr b <> 0 -> b_name b <> n) as H1.
    { intros i b Hb Ha E. apply Hno, Exists_exists. exists b. split; [by eapply list_elem_of_lookup_2|done]. }
    rewrite !lookup_missing; [done|done|done|done|done|done|]. intros i b Hb Ha E. apply (H1 i b); [by apply Hsame|done|done].
Qed.

Lemma handle_block h s i b : inv s -> h = Z.of_nat i + 1 -> block s !! i = Some b ->
  from_handle h = Z.of_nat i /\ odp_shm_addr h s = Some (b_addr b) /\
  odp_shm_info h s = Some (0, Some (Info (b_name b) (b_addr b) (b_size b) (page_sz b) (b_flags b))).
Proof.
  intros Hinv -> Hi. pose proof (lookup_lt_Some _ _ _ Hi) as Hlt. rewrite (in_len _ Hinv) in Hlt. assert (from_handle (Z.of_nat i + 1) = Z.of_nat i) as E.
  { unfold from_handle. rewrite u32_small; [lia|unfold is_u32; lia]. }
  unfold odp_shm_addr, odp_shm_info. rewrite E. unfold ODP_CONFIG_SHM_BLOCKS. rewrite Z.gtb_ltb, (proj2 (Z.ltb_ge _ _)) by lia. rewrite zget_of_nat, Hi. done.
Qed.

End table.

(** C31: shared memory blocks are apart.  The histories are those of [reach]:
    start-up, then any sequence of blocks reserved and given back, with the
    conditions of [legal]: no flag for contiguous memory, an alignment that is not
    0 and with the size fits 64 bits, names of at most 31 characters, and
    shm_unlink succeeds for the blocks that are given back.  (What happens
    otherwise is in ShmSpec.v: [reserve_align_zero], [shm_names],
    [unlink_failure_dangles].)  In every state of such a history every further
    call of this kind returns; each block in use is aligned as asked for and lies
    inside the mapping that was made for it, blocks in use have no byte in common,
    the name of each finds its handle, and the handle its address. *)
Theorem shm_blocks_safe {W} `{ShmLaws W} (s0 s : shm_sys W) :
  fresh s0 -> reach s0 s ->
  (forall o, legal o s -> exists r s', call o s = Some (r, s')) /\
  (forall i b, block s !! i = Some b -> b_addr b <> 0 ->
     (b_align b | b_addr b) /\ regions (world s) !! addr_orig b = Some (b_alloc_size b) /\
     addr_orig b <= b_addr b /\ b_addr b + b_size b <= addr_orig b + b_alloc_size b /\
     odp_shm_lookup (b_name b) s = Some (hdl b) /\ odp_shm_addr (hdl b) s = Some (b_addr b)) /\
  (forall i j b c, block s !! i = Some b -> block s !! j = Some c -> i <> j -> b_addr b <> 0 -> b_addr c <> 0 ->
     b_addr b + b_size b <= b_addr c \/ b_addr c + b_size c <= b_addr b).
Proof.
  intros Hf Hr. pose proof (shm_reach_inv s0 s Hf Hr) as Hinv. split_and!.
  - intros o Ho. destruct (shm_call_total o s Hinv Ho) as (r & s' & Hc & _). eauto.
  - intros i b Hi Hb. destruct (in_used _ Hinv i b Hi Hb) as [H1 H2 H3 [H4 H5] [_ H6] _ _]. destruct (handle_block (hdl b) s i b Hinv H1 Hi) as (_ & Hadr & _).
    split_and!; try done. rewrite H1. by apply lookup_used.
  - intros i j b c Hi Hj Hij Hb Hc. destruct (in_used _ Hinv i b Hi Hb) as [_ Hm1 Hs1 [Hp1 Hp2] _ _ _]. destruct (in_used _ Hinv j c Hj Hc) as [_ Hm2 Hs2 [Hp3 Hp4] _ _ _].
    destruct (in_distinct _ Hinv i j b c Hi Hj Hij Hb Hc) as [_ Hne]. destruct (in_apart _ Hinv _ _ _ _ Hm1 Hm2 Hne); lia.
Qed.

(** a block from reservation to return.  When a reservation in a reachable
    state returns a handle, the name was not in use and now finds the handle, the
    handle gives the address, aligned as asked for, the size and the flags, and
    no other name is affected; when the block is then given back the name finds
    nothing, the address is NULL, and again no other name is affected. *)
Theorem shm_reserve_free {W} `{ShmLaws W} (s0 s s1 : shm_sys W) (name : string) (size align flags h : Z) :
  fresh s0 -> reach s0 s -> legal (Reserve name size align flags) s -> odp_shm_reserve name size align flags s = Some (h, s1) -> h <> 0 ->
  odp_shm_lookup name s = Some 0 /\ odp_shm_lookup name s1 = Some h /\
  (exists addr, odp_shm_addr h s1 = Some addr /\ addr <> 0 /\ (align | addr) /\
     odp_shm_info h s1 = Some (0, Some (Info name addr size (s_page_size (world s)) flags))) /\
  (forall n, n <> ""%string -> n <> name -> odp_shm_lookup n s1 = odp_shm_lookup n s) /\
  forall junk s2, legal (Free junk h) s1 -> odp_shm_free junk h s1 = Some (0, s2) ->
    odp_shm_lookup name s2 = Some 0 /\ odp_shm_addr h s2 = Some 0 /\ forall n, n <> ""%string -> n <> name -> odp_shm_lookup n s2 = odp_shm_lookup n s1.
Proof.
  intros Hf Hr Hlegal Hc Hh. pose proof (shm_reach_inv s0 s Hf Hr) as Hinv. pose proof (reserve_inv _ _ _ _ _ _ _ Hinv Hlegal Hc) as Hinv1.
  destruct (reserve_spec name size align flags s Hinv Hlegal) as (h' & s' & Hc' & _ & Hcase). rewrite Hc in Hc'. injection Hc' as <- <-.
  destruct Hcase as [(-> & _)|(i & b & a & fd & addr & Eh & Hi & Hb0 & Hno & Ha & Hend & _ & _ & Hal & Had & Hb)]; [done|].
  destruct Hlegal as (_ & _ & _ & _ & Hname). set (nb := fill_block name size align flags fd (size + align) a addr h 0 (s_page_size (world s))) in *.
  assert (b_name nb = name) as En by (by apply substring_all). assert (name <> ""%string) as Hne by (intros ->; by apply (Hno i b Hi), (in_idle _ Hinv i b)).
  assert (block s1 !! i = Some nb) as Hi1 by (rewrite Hb; apply list_lookup_insert_eq; by eapply lookup_lt_Some). assert (b_addr nb <> 0) as Hnb by (simpl; lia).
  destruct (handle_block h s1 i nb Hinv1 Eh Hi1) as (Hfh & Haddr & Hinfo). rewrite En in Hinfo. split_and!.
  - apply lookup_missing; [done|done|]. intros j c Hj _. by eapply Hno.
  - rewrite <- En, Eh. by apply lookup_used.
  - exists addr. by split_and!.
  - intros n Hn1 Hn2. apply lookup_same; [done..|]. intros j c Hc0 Hcn. rewrite Hb. rewrite list_lookup_insert_Some. split.
    + intros Hj. right. split; [|done]. intros <-. rewrite Hi in Hj. by injection Hj as <-.
    + intros [(_ & <- & _)|[_ Hj]]; [|done]. by rewrite En in Hcn.
  - intros junk s2 Hl2 Hc2. pose proof (free_inv _ _ _ _ _ Hinv1 Hl2 Hc2) as Hinv2. destruct (free_spec junk h s1 Hinv1 Hl2) as (r & s2' & Hc2' & _ & Hcase2).
    rewrite Hc2 in Hc2'. injection Hc2' as <- <-. rewrite Hfh, Nat2Z.id in Hcase2. destruct Hcase2 as [(_ & _ & Hz)|(c & _ & _ & Hci & _ & Hb2 & _)].
    { destruct (Hz eq_refl) as (c & Hci & Hc0). rewrite Hi1 in Hci. by injection Hci as <-. }
    assert (block s2 !! i = Some zero_block) as Hi2 by (rewrite Hb2; apply list_lookup_insert_eq; by eapply lookup_lt_Some). split_and!.
    + apply lookup_missing; [done|done|]. intros j d Hj Hd0 E. rewrite Hb2 in Hj. apply list_lookup_insert_Some in Hj as [(_ & <- & _)|[Hij Hj]]; [done|].
      destruct (in_distinct _ Hinv1 i j nb d Hi1 Hj Hij Hnb Hd0) as [Hn _]. congruence.
    + by apply (handle_block h s2 i zero_block Hinv2 Eh Hi2).
    + intros n Hn1 Hn2. apply lookup_same; [done..|]. intros j d Hd0 Hdn. rewrite Hb2, list_lookup_insert_Some. split.
      * intros Hj. right. split; [|done]. intros <-. rewrite Hi1 in Hj. injection Hj as <-. by rewrite En in Hdn.
      * intros [(_ & <- & _)|[_ Hj]]; done.
Qed.

End ShmProofs.
