(* ===== verification/ShmSpec.v ===== *)
(** Shared memory blocks (Shm): physically contiguous blocks over the districts of
    District, an operating system to run on, the instances, and the inputs on
    which the code does otherwise. *)

From S2P Require Import Prelude District DistrictProofs DistrictSpec Shm ShmProofs.

Open Scope Z_scope.
Open Scope c_scope.

Module ShmSpec.
Import District DistrictProofs Shm ShmProofs.

(** ** Physically contiguous blocks *)

Lemma substring_length s n : (String.length (String.substring 0 n s) <= n)%nat.
Proof. revert n. induction s as [|c s IH]; intros [|n]; simpl; [lia..|]. specialize (IH n). lia. Qed.

Section contiguous.
Context {W : Type} `{ShmSys W} (l m0 : odp_sys_layout) (Hl : DistrictSpec.layout_ok l) (Hinit : odp_mm_district_init false l = (0, m0)).

(** A new district for a block. *)
Lemma district_new name orig_name n (s : shm_sys W) z s' :
  DistrictSpec.reach DistrictSpec.reserves m0 (layout s) -> 0 <= n <= 2 ^ 43 -> (String.length name <= 63)%nat ->
  mm_district_lookup name (layout s) = None -> district name orig_name n s = Some (Some z, s') ->
  DistrictSpec.reach DistrictSpec.reserves m0 (layout s') /\ block s' = block s /\ world s' = world s /\
  exists d, d ∈ live (layout s') /\ d_addr d = z /\ n <= d_len d.
Proof.
  intros Hr Hn Hname Hlk Hd. unfold district in Hd. unfold odp_mm_district_reserve, odp_mm_district_reserve_aligned in Hd.
  change (both_sizes (Z.lor ODP_MEMZONE_2MB ODP_MEMZONE_SIZE_HINT_ONLY)) with false in Hd. cbv iota in Hd.
  set (flags := Z.lor ODP_MEMZONE_2MB ODP_MEMZONE_SIZE_HINT_ONLY) in *.
  destruct (mm_district_reserve_aligned reserve_fuel name orig_name n 0 flags ODP_CACHE_LINE_SIZE 0 (layout s)) as [[r m']|] eqn:Er; [|done]. cbn [mbind option_bind] in Hd.
  assert (DistrictSpec.reach DistrictSpec.reserves m0 m') as Hr'.
  { eapply (DistrictSpec.reach_call _ _ (layout s) (DistrictSpec.Reserve name orig_name n 0 flags ODP_CACHE_LINE_SIZE 0)); [done|done|split; unfold is_u64, is_u32, ODP_CACHE_LINE_SIZE; lia|].
    unfold DistrictSpec.call, odp_mm_district_reserve_bounded. change (both_sizes flags) with false. cbv iota. rewrite Er. done. }
  pose proof (DistrictSpec.reach_wf l m0 Hl Hinit _ _ Hr) as Hwf. destruct (DistrictSpec.init_spec l m0 Hl Hinit) as (Hg & Hbl & _).
  destruct (Z.ltb_spec (mm_district_idx (layout s)) 128) as [Hidx|Hidx].
  2: { unfold reserve_fuel in Er. rewrite reserve_unfold, Z.geb_leb, (proj2 (Z.leb_le _ _)) in Er by lia. injection Er as <- <-. done. }
  destruct (DistrictSpec.reserve_cases _ Hg Hbl name orig_name n 0 flags ODP_CACHE_LINE_SIZE (layout s) Hwf Hidx Hlk Hname Hn) as [(_ & m'' & Er' & d & Hlv & _ & _ & Hdl & _ & _ & Hwf')|[_ Er']];
    [right; by exists 6|rewrite Er in Er'|rewrite Er in Er'; injection Er' as -> ->; done].
  assert (r = inl (mm_district_idx (layout s)) /\ m' = m'') as [-> ->] by (by injection Er'). clear Er'.
  assert (zget (mm_district m'') (mm_district_idx (layout s)) = Some d) as Hz.
  { destruct (wf_idx _ _ Hwf). rewrite zget_nonneg by lia. rewrite (live_rest m''), Hlv, <- app_assoc. rewrite lookup_app_r by (rewrite (live_length _ Hbl _ Hwf); lia).
    by rewrite (live_length _ Hbl _ Hwf), Nat.sub_diag. }
  rewrite Hz in Hd. cbn [mbind option_bind] in Hd. injection Hd as <- <-. cbn [layout set_layout block world]. split_and!; [done|done|done|].
  exists d. split_and!; [rewrite Hlv; set_solver|done|done].
Qed.

End contiguous.


(** ** An operating system *)

(** Named objects with their length, open files, mappings, and the address of the
    next one. *)
Record os := Os { objs : gmap string Z; fds : list string; maps : gmap Z Z; brk : Z }.

Definition os_shm_open (name : string) (w : os) : option Z * os :=
  (Some (zlen (fds w)), Os (<[name := 0]> (objs w)) (fds w ++ [name]) (maps w) (brk w)).
Definition os_ftruncate (fd n : Z) (w : os) : bool * os :=
  match zget (fds w) fd with
  | Some name => (true, Os (<[name := n]> (objs w)) (fds w) (maps w) (brk w))
  | None => (false, w)
  end.
Definition room_at (a n : Z) (m : gmap Z Z) : Prop := map_Forall (fun a' n' => a + n <= a' \/ a' + n' <= a) m.
#[export] Instance room_at_dec a n m : Decision (room_at a n m).
Proof. unfold room_at. apply _. Defined.
Definition os_mmap (n fd : Z) (w : os) : option Z * os :=
  if bool_decide (0 < n /\ 0 < brk w /\ brk w + n < 2 ^ 63 /\ room_at (brk w) n (maps w))
  then (Some (brk w), Os (objs w) (fds w) (<[brk w := n]> (maps w)) (brk w + 4096 * (n / 4096 + 1))) else (None, w).
Definition os_munmap (a n : Z) (w : os) : bool * os :=
  if bool_decide (maps w !! a = Some n) then (true, Os (objs w) (fds w) (delete a (maps w)) (brk w)) else (false, w).
Definition os_shm_unlink (name : string) (w : os) : bool * os :=
  match objs w !! name with Some _ => (true, Os (delete name (objs w)) (fds w) (maps w) (brk w)) | None => (false, w) end.

#[export] Instance os_sys : ShmSys os := {|
  s_page_size _ := 4096; s_getpid _ := 7; s_shm_open := os_shm_open; s_ftruncate := os_ftruncate; s_mmap := os_mmap; s_munmap := os_munmap;
  s_shm_unlink := os_shm_unlink |}.

#[export] Program Instance os_laws : ShmLaws os := {| regions := maps |}.
Next Obligation.
  intros n fd w a w'. simpl. unfold os_mmap. case_bool_decide as E; [|done]. intros [= <- <-]. destruct E as (? & ? & ? & Hr). split_and!; [done..|].
  intros a' n' Ha. by apply (Hr a' n').
Qed.
Next Obligation. intros n fd w w'. simpl. unfold os_mmap. case_bool_decide; [done|]. by intros [= <-]. Qed.
Next Obligation. intros a n w w'. simpl. unfold os_munmap. case_bool_decide; [|done]. by intros [= <-]. Qed.
Next Obligation. intros a n w w'. simpl. unfold os_munmap. case_bool_decide; [done|]. by intros [= <-]. Qed.
Next Obligation. done. Qed.
Next Obligation. intros fd n w. simpl. unfold os_ftruncate. by destruct (zget _ _). Qed.
Next Obligation. intros name w. simpl. unfold os_shm_unlink. by destruct (objs w !! name). Qed.

(** ** Instances *)

Definition shm0 : shm_sys os := Sys (replicate 64 zero_block) DistrictSpec.ex_m0 (Os ∅ [] ∅ 0x10000).
Definition after (o : op) (s : shm_sys os) : shm_sys os := default s (snd <$> call o s).
Definition shm1 : shm_sys os := after (Reserve "pool" 1000 64 0) shm0.
Definition shm2 : shm_sys os := after (Reserve "ring" 5000 4096 ODP_SHM_PROC) shm1.

Lemma shm0_fresh : fresh shm0.
Proof. by split. Qed.

Lemma shm_reach_after s0 s o : reach s0 s -> legal o s -> (exists r s', call o s = Some (r, s')) -> reach s0 (after o s).
Proof. intros Hr Ho (r & s' & Hc). eapply reach_call; [done..|]. unfold after. rewrite Hc. done. Qed.

Lemma shm1_reach : reach shm0 shm1.
Proof. apply shm_reach_after; [constructor|by repeat split; simpl; lia|vm_compute; eauto]. Qed.
Lemma shm2_reach : reach shm0 shm2.
Proof. apply shm_reach_after; [apply shm1_reach|by repeat split; simpl; lia|vm_compute; eauto]. Qed.

Lemma shm_blocks_safe_witness :
  exists b c, take 2 (block shm2) = [b; c] /\ (4096 | b_addr c) /\ (b_addr b + b_size b <= b_addr c \/ b_addr c + b_size c <= b_addr b).
Proof.
  destruct (shm_blocks_safe shm0 shm2 shm0_fresh shm2_reach) as (_ & H1 & H2).
  destruct (take 2 (block shm2)) as [|b [|c [|x r]]] eqn:E; [by vm_compute in E..| |by vm_compute in E].
  assert (block shm2 !! 0%nat = Some b /\ block shm2 !! 1%nat = Some c) as [Hb Hc] by (vm_compute in E; injection E as <- <-; by vm_compute).
  assert (b_addr b <> 0 /\ b_addr c <> 0 /\ b_align c = 4096) as (Hb0 & Hc0 & Hal) by (clear -E; vm_compute in E; injection E as <- <-; by vm_compute).
  destruct (H1 1%nat c Hc Hc0) as [Ha _]. rewrite Hal in Ha. exists b, c. split_and!; [done|exact Ha|exact (H2 0%nat 1%nat b c Hb Hc ltac:(done) Hb0 Hc0)].
Defined.

Lemma shm_reserve_free_witness :
  odp_shm_lookup "ring" shm1 = Some 0 /\ odp_shm_lookup "ring" shm2 = Some 2 /\ exists s3, odp_shm_free "" 2 shm2 = Some (0, s3) /\ odp_shm_lookup "ring" s3 = Some 0.
Proof.
  destruct (shm_reserve_free shm0 shm1 shm2 "ring" 5000 4096 ODP_SHM_PROC 2 shm0_fresh shm1_reach) as (H1 & H2 & _ & _ & H3); [by repeat split; simpl; lia|by vm_compute|done|].
  split_and!; [exact H1|exact H2|]. destruct (odp_shm_free "" 2 shm2) as [[r s3]|] eqn:E; [|by vm_compute in E].
  assert (r = 0) as -> by (vm_compute in E; by injection E as <- _). exists s3. split; [reflexivity|]. apply (H3 ""%string s3); [|exact E].
  clear. split; [unfold is_u64; lia|]. intros b Hb _. vm_compute in Hb. injection Hb as <-. by vm_compute.
Defined.


(** ** Where the code does otherwise *)

(** Reserving a shared name that is in use fails, but truncates the object of the
    block that is in use. *)
Theorem proc_reserve_truncates :
  objs (world shm2) !! "ring"%string = Some 9096 /\
  (let r := odp_shm_reserve "ring" 100 64 ODP_SHM_PROC shm2 in
   fst <$> r = Some 0 /\ (fun x => objs (world (snd x)) !! "ring"%string) <$> r = Some (Some 0) /\ (fun x => odp_shm_lookup "ring" (snd x)) <$> r = Some (Some 2)).
Proof. split_and!; by vm_compute. Qed.

(** A block that shares a district is given back under the name an array on the
    stack happens to hold: its own district stays, and another one may go. *)
Theorem share_free_wrong_district :
  let s := after (Reserve "two" 100 64 ODP_SHM_SHARE_CNTNUS_PHY) (after (Reserve "one" 100 64 ODP_SHM_SHARE_CNTNUS_PHY) shm0) in
  d_name <$> live (layout s) = ["one"; "two"]%string /\
  (fun x => d_name <$> live (layout (snd x))) <$> odp_shm_free "" 1 s = Some ["one"; "two"]%string /\
  (fun x => d_name <$> live (layout (snd x))) <$> odp_shm_free "two" 1 s = Some ["one"]%string.
Proof. split_and!; by vm_compute. Qed.

(** A district that another process reserved with fewer bytes is taken as it is:
    the block ends behind it. *)
Theorem share_smaller_district :
  let s := set_layout (DistrictSpec.after (DistrictSpec.ask "log" 64 0) (layout shm0)) shm0 in
  let s' := after (Reserve "log" 1000 64 ODP_SHM_SHARE_CNTNUS_PHY) s in
  (fun d => d_addr d + d_len d) <$> live (layout s') = [0x7000010040] /\ (fun b => b_addr b + b_size b) <$> head (block s') = Some 0x70000103E8.
Proof. split; by vm_compute. Qed.

(** Alignment 0 divides by zero; a shared block that is to be contiguous follows a
    NULL pointer. *)
Theorem reserve_align_zero : odp_shm_reserve "a" 100 0 0 shm0 = None /\ odp_shm_reserve "a" 100 64 (Z.lor ODP_SHM_PROC ODP_SHM_MONOPOLIZE_CNTNUS_PHY) shm0 = None.
Proof. split; by vm_compute. Qed.

(** A name of 32 characters is stored without its last one: it can be reserved
    twice and is not found; the empty name finds a block that is not in use. *)
Definition name32 : string := String.string_of_list_ascii (replicate 32 (Ascii.ascii_of_nat 120)).
Theorem shm_names :
  let s := after (Reserve name32 100 64 0) (after (Reserve name32 100 64 0) shm0) in
  b_addr <$> take 3 (block s) = [0x10000; 0x11000; 0] /\ odp_shm_lookup name32 s = Some 0 /\
  fst <$> odp_shm_reserve "" 100 64 0 shm0 = Some 0.
Proof. split_and!; by vm_compute. Qed.

(** When the object was removed by another process, the memory of a block is
    unmapped but the block stays in the table with its address. *)
Theorem unlink_failure_dangles :
  let s := set_world (Os ∅ (fds (world shm2)) (maps (world shm2)) (brk (world shm2))) shm2 in
  fst <$> odp_shm_free "" 2 s = Some (-1) /\
  (fun x => (odp_shm_lookup "ring" (snd x), maps (world (snd x)) !! 0x11000)) <$> odp_shm_free "" 2 s = Some (Some 2, None).
Proof. split; by vm_compute. Qed.

(** The page size of a contiguous block is reported as 1: the flag that asks for
    pages of two megabytes is stored in place of their size. *)
Theorem contiguous_page_size :
  ('(_, info) ← odp_shm_info 1 (after (Reserve "dma" 100 64 ODP_SHM_MONOPOLIZE_CNTNUS_PHY) shm0); i ← info; Some (i_page_size i)) = Some 1.
Proof. by vm_compute. Qed.

End ShmSpec.
