(* ===== verification/PktIo.v ===== *)
(** Packet interfaces: platform/linux-generic/odp_packet_io.c, and the loop driver,
    pktio/loop.c, with the table of drivers of pktio/io_ops.c.

    The table of interfaces is a list of 64 entries; a pointer to an entry is its
    index.  A driver is a record of functions, [pktio_if_ops_t], over a state [W]
    of drivers, queues and packets; functions that may be NULL are options.  The
    class [PktioWorld] states what interfaces use of queues, packets and the
    scheduler.  A driver keeps its own data in [W] and does not change the fields
    of the entry modelled here.  Entries are locked during each call; a NULL
    pointer followed, a failed ODP_ASSERT and ODP_ABORT are [None].  Functions that
    report a handle without an entry read [unused_dummy_var] behind the handle, which
    is no address: that is [None] too.  *)

From stdpp Require Import pretty.

From S2P Require Import Prelude Pool PoolProofs PoolCreate Buffer Packet Parse Classify.

Open Scope Z_scope.
Open Scope c_scope.

Module PktIo.

Definition ODP_CONFIG_PKTIO_ENTRIES : Z := 64.
Definition PKTIO_MAX_QUEUES : Z := 64.
Definition PKTIO_NAME_LEN : nat := 256.
Definition ODP_PKTIO_INVALID : Z := 0.
Definition ODP_QUEUE_INVALID : Z := 0.
Definition ETH_ALEN : Z := 6.
Definition INT_MAX : Z := 2 ^ 31 - 1.

(** ** Data *)

Inductive odp_pktin_mode_t := ODP_PKTIN_MODE_DIRECT | ODP_PKTIN_MODE_SCHED | ODP_PKTIN_MODE_QUEUE | ODP_PKTIN_MODE_DISABLED.
Inductive odp_pktout_mode_t := ODP_PKTOUT_MODE_DIRECT | ODP_PKTOUT_MODE_TM | ODP_PKTOUT_MODE_DISABLED.
Inductive odp_queue_type_t := ODP_QUEUE_TYPE_SCHED | ODP_QUEUE_TYPE_PLAIN | ODP_QUEUE_TYPE_PKTIN | ODP_QUEUE_TYPE_PKTOUT.
Inductive pktio_state := STATE_START | STATE_STOP.

#[export] Instance odp_pktin_mode_dec : EqDecision odp_pktin_mode_t.
Proof. solve_decision. Defined.
#[export] Instance odp_pktout_mode_dec : EqDecision odp_pktout_mode_t.
Proof. solve_decision. Defined.
#[export] Instance odp_queue_type_dec : EqDecision odp_queue_type_t.
Proof. solve_decision. Defined.
#[export] Instance pktio_state_dec : EqDecision pktio_state.
Proof. solve_decision. Defined.

Record odp_pktio_param_t := PktioParam { in_mode : odp_pktin_mode_t; out_mode : odp_pktout_mode_t }.
(** [odp_pktin_queue_t] and [odp_pktout_queue_t]: the interface and an index. *)
Record pktio_queue_t := PQ { q_pktio : Z; q_index : Z }.
Definition PKTIN_INVALID : pktio_queue_t := PQ ODP_PKTIO_INVALID 0.

Record pktio_entry := Entry {
  ops : option nat; taken : bool; cls_enabled : Z; handle : Z; outq_default : Z; state : pktio_state; cls : list Classify.classifier_t;
  name : string; id : Z; param : odp_pktio_param_t; num_in_queue : Z; num_out_queue : Z; in_queue : list (Z * pktio_queue_t);
  out_queue : list pktio_queue_t }.

Record odp_pktio_capability_t := Capa { max_input_queues : Z; max_output_queues : Z }.

(** The functions of a driver, given the index of the entry. *)
Record pktio_if_ops_t (W : Type) := Ops {
  op_init : option (W -> option (Z * W));
  op_term : option (W -> option (Z * W));
  op_open : Z -> string -> Z -> W -> option (Z * W);
  op_close : Z -> W -> option (Z * W);
  op_start : option (Z -> W -> option (Z * W));
  op_stop : option (Z -> W -> option (Z * W));
  op_stats : option (Z -> W -> option (Z * W));
  op_stats_reset : option (Z -> W -> option (Z * W));
  op_recv : Z -> Z -> W -> option (Z * list Z * W);
  op_send : Z -> list Z -> W -> option (Z * W);
  op_mtu_get : Z -> W -> option (Z * W);
  op_promisc_mode_set : Z -> bool -> W -> option (Z * W);
  op_promisc_mode_get : Z -> W -> option (Z * W);
  op_mac_get : Z -> W -> option (Z * W);
  op_link_status : option (Z -> W -> option (Z * W));
  op_capability : option (Z -> W -> option (Z * odp_pktio_capability_t * W));
  op_input_queues_config : option (Z -> Z -> W -> option (Z * W));
  op_output_queues_config : option (Z -> Z -> W -> option (Z * W));
  op_in_queues : option (Z -> Z -> W -> option (Z * list Z * W));
  op_pktin_queues : option (Z -> Z -> W -> option (Z * list pktio_queue_t * W));
  op_pktout_queues : option (Z -> Z -> W -> option (Z * list pktio_queue_t * W));
  op_recv_queue : option (Z -> Z -> Z -> W -> option (Z * list Z * W));
  op_send_queue : option (Z -> Z -> list Z -> W -> option (Z * W))
}.
Arguments op_init {W}. Arguments op_term {W}. Arguments op_open {W}. Arguments op_close {W}. Arguments op_start {W}. Arguments op_stop {W}. Arguments op_stats {W}.
Arguments op_stats_reset {W}. Arguments op_recv {W}. Arguments op_send {W}. Arguments op_mtu_get {W}. Arguments op_promisc_mode_set {W}.
Arguments op_promisc_mode_get {W}. Arguments op_mac_get {W}. Arguments op_link_status {W}. Arguments op_capability {W}.
Arguments op_input_queues_config {W}. Arguments op_output_queues_config {W}. Arguments op_in_queues {W}. Arguments op_pktin_queues {W}.
Arguments op_pktout_queues {W}. Arguments op_recv_queue {W}. Arguments op_send_queue {W}.

(** Queues, packets, the scheduler, and the table of drivers. *)
Class PktioWorld (W : Type) := {
  pktio_if_ops : list (pktio_if_ops_t W);
  w_queue_create : string -> odp_queue_type_t -> W -> option (Z * W);
  w_queue_destroy : Z -> W -> option (Z * W);
  w_queue_type : Z -> W -> option odp_queue_type_t;
  w_queue_set_pktin : Z -> pktio_queue_t -> W -> option W;
  w_queue_set_pktin_hooks : Z -> W -> option W;
  w_queue_set_pktout : Z -> Z -> W -> option W;
  w_packet_set_input : Z -> Z -> W -> option W;
  w_pool_is_packet : Z -> W -> bool;
  w_schedule_pktio_start : Z -> Z -> W -> option W
}.

Record pktio_sys (W : Type) := Psys { entries : list pktio_entry; world : W }.
Arguments Psys {W}.
Arguments entries {W}.
Arguments world {W}.

(** ** Fields *)

Definition set_taken (v : bool) (e : pktio_entry) : pktio_entry :=
  Entry (ops e) v (cls_enabled e) (handle e) (outq_default e) (state e) (cls e) (name e) (id e) (param e) (num_in_queue e) (num_out_queue e) (in_queue e) (out_queue e).
Definition set_state (v : pktio_state) (e : pktio_entry) : pktio_entry :=
  Entry (ops e) (taken e) (cls_enabled e) (handle e) (outq_default e) v (cls e) (name e) (id e) (param e) (num_in_queue e) (num_out_queue e) (in_queue e) (out_queue e).
Definition set_handle (v : Z) (e : pktio_entry) : pktio_entry :=
  Entry (ops e) (taken e) (cls_enabled e) v (outq_default e) (state e) (cls e) (name e) (id e) (param e) (num_in_queue e) (num_out_queue e) (in_queue e) (out_queue e).
Definition set_outq (v : Z) (e : pktio_entry) : pktio_entry :=
  Entry (ops e) (taken e) (cls_enabled e) (handle e) v (state e) (cls e) (name e) (id e) (param e) (num_in_queue e) (num_out_queue e) (in_queue e) (out_queue e).
Definition set_ops (v : nat) (e : pktio_entry) : pktio_entry :=
  Entry (Some v) (taken e) (cls_enabled e) (handle e) (outq_default e) (state e) (cls e) (name e) (id e) (param e) (num_in_queue e) (num_out_queue e) (in_queue e) (out_queue e).
Definition set_name (v : string) (e : pktio_entry) : pktio_entry :=
  Entry (ops e) (taken e) (cls_enabled e) (handle e) (outq_default e) (state e) (cls e) v (id e) (param e) (num_in_queue e) (num_out_queue e) (in_queue e) (out_queue e).
Definition set_param_id (p : odp_pktio_param_t) (i : Z) (e : pktio_entry) : pktio_entry :=
  Entry (ops e) (taken e) (cls_enabled e) (handle e) (outq_default e) (state e) (cls e) (name e) i p (num_in_queue e) (num_out_queue e) (in_queue e) (out_queue e).
Definition set_num_in (v : Z) (e : pktio_entry) : pktio_entry :=
  Entry (ops e) (taken e) (cls_enabled e) (handle e) (outq_default e) (state e) (cls e) (name e) (id e) (param e) v (num_out_queue e) (in_queue e) (out_queue e).
Definition set_num_out (v : Z) (e : pktio_entry) : pktio_entry :=
  Entry (ops e) (taken e) (cls_enabled e) (handle e) (outq_default e) (state e) (cls e) (name e) (id e) (param e) (num_in_queue e) v (in_queue e) (out_queue e).
Definition set_in_queue (v : list (Z * pktio_queue_t)) (e : pktio_entry) : pktio_entry :=
  Entry (ops e) (taken e) (cls_enabled e) (handle e) (outq_default e) (state e) (cls e) (name e) (id e) (param e) (num_in_queue e) (num_out_queue e) v (out_queue e).
Definition set_out_queue (v : list pktio_queue_t) (e : pktio_entry) : pktio_entry :=
  Entry (ops e) (taken e) (cls_enabled e) (handle e) (outq_default e) (state e) (cls e) (name e) (id e) (param e) (num_in_queue e) (num_out_queue e) (in_queue e) v.

(** An entry in memory cleared to zero: the state is STATE_START and the modes are
    the direct ones. *)
Definition zero_entry : pktio_entry :=
  Entry None false 0 0 0 STATE_START (replicate 17 Classify.zero_cls) "" 0 (PktioParam ODP_PKTIN_MODE_DIRECT ODP_PKTOUT_MODE_DIRECT) 0 0
    (replicate 64 (0, PQ 0 0)) (replicate 64 (PQ 0 0)).

(** ** Access *)

Section pktio.
Context {W : Type} `{PktioWorld W}.

Definition set_entries (l : list pktio_entry) (s : pktio_sys W) : pktio_sys W := Psys l (world s).
Definition set_world (w : W) (s : pktio_sys W) : pktio_sys W := Psys (entries s) w.
Definition put (i : Z) (e : pktio_entry) (s : pktio_sys W) : option (pktio_sys W) := l ← zset (entries s) i e; Some (set_entries l s).

(** [get_pktio_entry] *)
Definition get_pktio_entry (pktio : Z) : option Z :=
  if pktio =? ODP_PKTIO_INVALID then None else if pktio >? ODP_CONFIG_PKTIO_ENTRIES then None else Some (pktio - 1).

(** The driver an entry points to. *)
Definition driver (e : pktio_entry) : option (pktio_if_ops_t W) := k ← ops e; pktio_if_ops !! k.

Definition is_free (e : pktio_entry) : bool := negb (taken e).

(** ** Opening and closing *)

Definition init_pktio_entry (e : pktio_entry) : pktio_entry :=
  Entry (ops e) true 0 (handle e) (outq_default e) (state e) (Classify.cls_init <$> cls e) (name e) (id e) (param e) (num_in_queue e) (num_out_queue e)
    ((fun _ => (ODP_QUEUE_INVALID, PKTIN_INVALID)) <$> in_queue e) ((fun _ => PKTIN_INVALID) <$> out_queue e).

Fixpoint first_free (i : Z) (l : list pktio_entry) : option Z :=
  match l with
  | [] => None
  | e :: l => if is_free e then Some i else first_free (i + 1) l
  end.
Definition alloc_lock_pktio_entry (s : pktio_sys W) : option (Z * pktio_sys W) :=
  match first_free 0 (entries s) with
  | None => Some (ODP_PKTIO_INVALID, s)
  | Some i => e ← zget (entries s) i; s ← put i (init_pktio_entry e) s; Some (i + 1, s)
  end.
Definition free_pktio_entry (pktio : Z) (s : pktio_sys W) : option (Z * pktio_sys W) :=
  match get_pktio_entry pktio with
  | None => Some (-1, s)
  | Some i => e ← zget (entries s) i; s ← put i (set_taken false e) s; Some (0, s)
  end.

(** The drivers in order, from number [k] on: the one that opens the device. *)
Fixpoint try_open (k : nat) (drivers : list (pktio_if_ops_t W)) (i : Z) (dev : string) (pool : Z) (w : W) : option (option nat * W) :=
  match drivers with
  | [] => Some (None, w)
  | d :: drivers =>
      '(ret, w) ← op_open d i dev pool w;
      if ret =? 0 then Some (Some k, w) else try_open (S k) drivers i dev pool w
  end.

Definition setup_pktio_entry (dev : string) (pool : Z) (par : odp_pktio_param_t) (s : pktio_sys W) : option (Z * pktio_sys W) :=
  if Nat.leb (PKTIO_NAME_LEN - 1) (String.length dev) then Some (ODP_PKTIO_INVALID, s)
  else
    '(h, s) ← alloc_lock_pktio_entry s;
    if h =? ODP_PKTIO_INVALID then Some (ODP_PKTIO_INVALID, s)
    else
      match get_pktio_entry h with
      | None => Some (ODP_PKTIO_INVALID, s)
      | Some i =>
          e ← zget (entries s) i;
          let e := set_param_id par h e in
          '(opened, w) ← try_open 0 pktio_if_ops i dev pool (world s);
          let s := set_world w s in
          match opened with
          | None => s ← put i (set_handle ODP_PKTIO_INVALID (set_taken false e)) s; Some (ODP_PKTIO_INVALID, s)
          | Some k => s ← put i (set_handle h (set_state STATE_STOP (set_name dev (set_ops k e)))) s; Some (h, s)
          end
      end.

Fixpoint lookup_loop (dev : string) (i : Z) (l : list pktio_entry) : Z :=
  match l with
  | [] => ODP_PKTIO_INVALID
  | e :: l => if negb (is_free e) && (name e =? dev)%string then i else lookup_loop dev (i + 1) l
  end.
Definition odp_pktio_lookup (dev : string) (s : pktio_sys W) : Z := lookup_loop dev 1 (entries s).

Definition odp_pktio_open (dev : string) (pool : Z) (par : odp_pktio_param_t) (s : pktio_sys W) : option (Z * pktio_sys W) :=
  if negb (w_pool_is_packet pool (world s)) then None
  else if negb (odp_pktio_lookup dev s =? ODP_PKTIO_INVALID) then Some (ODP_PKTIO_INVALID, s)
  else setup_pktio_entry dev pool par s.

(** The first [n] input queues from [i] on. *)
Fixpoint destroy_in_queues (n : nat) (i : Z) (l : list (Z * pktio_queue_t)) (w : W) : option (list (Z * pktio_queue_t) * W) :=
  match n with
  | O => Some (l, w)
  | S n =>
      '(q, pktin) ← zget l i;
      if negb (q =? ODP_QUEUE_INVALID) then
        '(_, w) ← w_queue_destroy q w;
        l ← zset l i (ODP_QUEUE_INVALID, pktin);
        destroy_in_queues n (i + 1) l w
      else destroy_in_queues n (i + 1) l w
  end.

(** [_pktio_close]: the driver, and the entry. *)
Definition pktio_close (i : Z) (e : pktio_entry) (w : W) : option (Z * pktio_entry * W) :=
  d ← driver e;
  '(ret, w) ← op_close d i w;
  if negb (ret =? 0) then Some (-1, e, w) else Some (0, set_taken false e, w).

Definition odp_pktio_close (pktio : Z) (s : pktio_sys W) : option (Z * pktio_sys W) :=
  match get_pktio_entry pktio with
  | None => Some (-1, s)
  | Some i =>
      e ← zget (entries s) i;
      '(l, w) ← destroy_in_queues (Z.to_nat (num_in_queue e)) 0 (in_queue e) (world s);
      let e := set_in_queue l e in
      if negb (is_free e) then
        '(res, e, w) ← pktio_close i e w;
        if negb (res =? 0) then None else s ← put i e (set_world w s); Some (0, s)
      else s ← put i e (set_world w s); Some (0, s)
  end.

(** ** Starting and stopping *)

Definition call_opt (f : option (Z -> W -> option (Z * W))) (default : Z) (i : Z) (w : W) : option (Z * W) :=
  match f with Some f => f i w | None => Some (default, w) end.

(** Input queues [k] and on are handed to the scheduler. *)
Fixpoint start_queues (n : nat) (k : Z) (pktio : Z) (l : list (Z * pktio_queue_t)) (w : W) : option (bool * W) :=
  match n with
  | O => Some (true, w)
  | S n =>
      '(q, _) ← zget l k;
      if q =? ODP_QUEUE_INVALID then Some (false, w)
      else w ← w_schedule_pktio_start pktio k w; start_queues n (k + 1) pktio l w
  end.

Definition odp_pktio_start (pktio : Z) (s : pktio_sys W) : option (Z * pktio_sys W) :=
  match get_pktio_entry pktio with
  | None => Some (-1, s)
  | Some i =>
      e ← zget (entries s) i;
      if bool_decide (state e = STATE_START) then Some (-1, s)
      else
        d ← driver e;
        '(res, w) ← call_opt (op_start d) 0 i (world s);
        let e := if res =? 0 then set_state STATE_START e else e in
        s ← put i e (set_world w s);
        if bool_decide (in_mode (param e) = ODP_PKTIN_MODE_SCHED) then
          '(ok, w) ← start_queues (Z.to_nat (num_in_queue e)) 0 pktio (in_queue e) (world s);
          Some (if ok : bool then res else -1, set_world w s)
        else Some (res, s)
  end.

(** [_pktio_stop] *)
Definition pktio_stop (i : Z) (e : pktio_entry) (w : W) : option (Z * pktio_entry * W) :=
  if bool_decide (state e = STATE_STOP) then Some (-1, e, w)
  else
    d ← driver e;
    '(res, w) ← call_opt (op_stop d) 0 i w;
    Some (res, if res =? 0 then set_state STATE_STOP e else e, w).

Definition odp_pktio_stop (pktio : Z) (s : pktio_sys W) : option (Z * pktio_sys W) :=
  match get_pktio_entry pktio with
  | None => Some (-1, s)
  | Some i => e ← zget (entries s) i; '(res, e, w) ← pktio_stop i e (world s); s ← put i e (set_world w s); Some (res, s)
  end.

(** ** Receiving and sending *)

Fixpoint set_inputs (pktio : Z) (pkts : list Z) (w : W) : option W :=
  match pkts with
  | [] => Some w
  | p :: pkts => w ← w_packet_set_input p pktio w; set_inputs pktio pkts w
  end.

(** The second result are the packets in [pkt_table]. *)
Definition odp_pktio_recv (pktio len : Z) (s : pktio_sys W) : option (Z * list Z * pktio_sys W) :=
  i ← get_pktio_entry pktio;
  e ← zget (entries s) i;
  if bool_decide (state e = STATE_STOP \/ in_mode (param e) = ODP_PKTIN_MODE_DISABLED) then Some (-1, [], s)
  else
    d ← driver e;
    '(ret, pkts, w) ← op_recv d i len (world s);
    w ← set_inputs pktio (take (Z.to_nat ret) pkts) w;
    Some (ret, pkts, set_world w s).

Definition odp_pktio_send (pktio : Z) (pkts : list Z) (s : pktio_sys W) : option (Z * pktio_sys W) :=
  i ← get_pktio_entry pktio;
  e ← zget (entries s) i;
  if bool_decide (state e = STATE_STOP \/ out_mode (param e) = ODP_PKTOUT_MODE_DISABLED) then Some (-1, s)
  else
    d ← driver e;
    '(ret, w) ← op_send d i pkts (world s);
    Some (ret, set_world w s).

Definition single_recv_queue (e : pktio_entry) (index num : Z) (s : pktio_sys W) : option (Z * list Z * pktio_sys W) := odp_pktio_recv (handle e) num s.
Definition single_send_queue (e : pktio_entry) (index : Z) (pkts : list Z) (s : pktio_sys W) : option (Z * pktio_sys W) := odp_pktio_send (handle e) pkts s.

Definition odp_pktio_recv_queue (queue : pktio_queue_t) (num : Z) (s : pktio_sys W) : option (Z * list Z * pktio_sys W) :=
  i ← get_pktio_entry (q_pktio queue);
  e ← zget (entries s) i;
  d ← driver e;
  match op_recv_queue d with
  | Some f => '(ret, pkts, w) ← f i (q_index queue) num (world s); Some (ret, pkts, set_world w s)
  | None => single_recv_queue e (q_index queue) num s
  end.
Definition odp_pktio_send_queue (queue : pktio_queue_t) (pkts : list Z) (s : pktio_sys W) : option (Z * pktio_sys W) :=
  i ← get_pktio_entry (q_pktio queue);
  e ← zget (entries s) i;
  d ← driver e;
  match op_send_queue d with
  | Some f => '(ret, w) ← f i (q_index queue) pkts (world s); Some (ret, set_world w s)
  | None => single_send_queue e (q_index queue) pkts s
  end.

(** ** Configuration of queues *)

Definition single_capability : Z * odp_pktio_capability_t := (0, Capa 1 1).

Definition odp_pktio_capability (pktio : Z) (s : pktio_sys W) : option (Z * option odp_pktio_capability_t * pktio_sys W) :=
  match get_pktio_entry pktio with
  | None => None
  | Some i =>
      e ← zget (entries s) i;
      d ← driver e;
      match op_capability d with
      | Some f => '(ret, capa, w) ← f i (world s); Some (ret, Some capa, set_world w s)
      | None => let '(ret, capa) := single_capability in Some (ret, Some capa, s)
      end
  end.

(** Input queues [k] and on; the result says whether all could be created. *)
Fixpoint create_in_queues (n : nat) (k : Z) (pktio h : Z) (mode : odp_pktin_mode_t) (l : list (Z * pktio_queue_t)) (w : W)
    : option (bool * list (Z * pktio_queue_t) * W) :=
  match n with
  | O => Some (true, l, w)
  | S n =>
      if bool_decide (mode = ODP_PKTIN_MODE_QUEUE \/ mode = ODP_PKTIN_MODE_SCHED) then
        let type := if bool_decide (mode = ODP_PKTIN_MODE_SCHED) then ODP_QUEUE_TYPE_SCHED else ODP_QUEUE_TYPE_PLAIN in
        '(queue, w) ← w_queue_create "pktio_in" type w;
        if queue =? ODP_QUEUE_INVALID then
          '(l, w) ← destroy_in_queues (Z.to_nat (k + 1)) 0 l w;
          Some (false, l, w)
        else
          w ← (if bool_decide (mode = ODP_PKTIN_MODE_QUEUE) then w ← w_queue_set_pktin queue (PQ pktio k) w; w_queue_set_pktin_hooks queue w else Some w);
          l ← zset l k (queue, PQ h k);
          create_in_queues n (k + 1) pktio h mode l w
      else
        l ← zset l k (ODP_QUEUE_INVALID, PQ h k);
        create_in_queues n (k + 1) pktio h mode l w
  end.

(** [param] is the number of queues, [None] being NULL; [garbage] is what the
    local variable [capa] holds when the driver does not fill it in. *)
Definition odp_pktin_queue_config (garbage : odp_pktio_capability_t) (pktio : Z) (par : option Z) (s : pktio_sys W) : option (Z * pktio_sys W) :=
  match par, get_pktio_entry pktio with
  | None, _ => Some (-1, s)
  | _, None => None
  | Some num_queues, Some i =>
      e ← zget (entries s) i;
      let mode := in_mode (param e) in
      if bool_decide (state e <> STATE_STOP) then Some (-1, s)
      else if bool_decide (mode = ODP_PKTIN_MODE_DISABLED) then Some (-1, s)
      else if num_queues =? 0 then Some (-1, s)
      else
        '(_, capa, s) ← odp_pktio_capability pktio s;
        let capa := default garbage capa in
        if num_queues >? max_input_queues capa then Some (-1, s)
        else
          '(l, w) ← destroy_in_queues (Z.to_nat (num_in_queue e)) 0 (in_queue e) (world s);
          '(ok, l, w) ← create_in_queues (Z.to_nat num_queues) 0 pktio (handle e) mode l w;
          if negb ok then s ← put i (set_in_queue l e) (set_world w s); Some (-1, s)
          else
            s ← put i (set_num_in num_queues (set_in_queue l e)) (set_world w s);
            d ← driver e;
            match op_input_queues_config d with
            | Some f => '(ret, w) ← f i num_queues (world s); Some (ret, set_world w s)
            | None => Some (0, s)
            end
  end.

Fixpoint fill_out_queues (n : nat) (k h : Z) (l : list pktio_queue_t) : option (list pktio_queue_t) :=
  match n with
  | O => Some l
  | S n => l ← zset l k (PQ h k); fill_out_queues n (k + 1) h l
  end.

Definition odp_pktout_queue_config (garbage : odp_pktio_capability_t) (pktio : Z) (par : option Z) (s : pktio_sys W) : option (Z * pktio_sys W) :=
  match par, get_pktio_entry pktio with
  | None, _ => Some (-1, s)
  | _, None => None
  | Some num_queues, Some i =>
      e ← zget (entries s) i;
      let mode := out_mode (param e) in
      if bool_decide (state e <> STATE_STOP) then Some (-1, s)
      else if bool_decide (mode = ODP_PKTOUT_MODE_DISABLED) then Some (-1, s)
      else if bool_decide (mode <> ODP_PKTOUT_MODE_DIRECT) then Some (-1, s)
      else if num_queues =? 0 then Some (-1, s)
      else
        '(_, capa, s) ← odp_pktio_capability pktio s;
        let capa := default garbage capa in
        if num_queues >? max_output_queues capa then Some (-1, s)
        else
          l ← fill_out_queues (Z.to_nat num_queues) 0 (handle e) (out_queue e);
          s ← put i (set_num_out num_queues (set_out_queue l e)) s;
          d ← driver e;
          match op_output_queues_config d with
          | Some f => '(ret, w) ← f i num_queues (world s); Some (ret, set_world w s)
          | None => Some (0, s)
          end
  end.

(** The queues of an interface: the number there is, and up to [num] of them. *)
Definition single_in_queues (e : pktio_entry) (num : Z) : option (Z * list Z) :=
  if num >? 0 then '(q, _) ← zget (in_queue e) 0; Some (1, [q]) else Some (1, []).
Definition single_pktin_queues (e : pktio_entry) (num : Z) : option (Z * list pktio_queue_t) :=
  if num >? 0 then '(_, q) ← zget (in_queue e) 0; Some (1, [q]) else Some (1, []).
Definition single_pktout_queues (e : pktio_entry) (num : Z) : option (Z * list pktio_queue_t) :=
  if num >? 0 then q ← zget (out_queue e) 0; Some (1, [q]) else Some (1, []).

Definition odp_pktin_event_queue (pktio num : Z) (s : pktio_sys W) : option (Z * list Z * pktio_sys W) :=
  match get_pktio_entry pktio with
  | None => None
  | Some i =>
      e ← zget (entries s) i;
      if bool_decide (in_mode (param e) <> ODP_PKTIN_MODE_QUEUE /\ in_mode (param e) <> ODP_PKTIN_MODE_SCHED) then Some (-1, [], s)
      else
        d ← driver e;
        match op_in_queues d with
        | Some f => '(ret, qs, w) ← f i num (world s); Some (ret, qs, set_world w s)
        | None => '(ret, qs) ← single_in_queues e num; Some (ret, qs, s)
        end
  end.
Definition odp_pktin_queue (pktio num : Z) (s : pktio_sys W) : option (Z * list pktio_queue_t * pktio_sys W) :=
  match get_pktio_entry pktio with
  | None => None
  | Some i =>
      e ← zget (entries s) i;
      if bool_decide (in_mode (param e) <> ODP_PKTIN_MODE_DIRECT) then Some (-1, [], s)
      else
        d ← driver e;
        match op_pktin_queues d with
        | Some f => '(ret, qs, w) ← f i num (world s); Some (ret, qs, set_world w s)
        | None => '(ret, qs) ← single_pktin_queues e num; Some (ret, qs, s)
        end
  end.
Definition odp_pktout_queue (pktio num : Z) (s : pktio_sys W) : option (Z * list pktio_queue_t * pktio_sys W) :=
  match get_pktio_entry pktio with
  | None => None
  | Some i =>
      e ← zget (entries s) i;
      if bool_decide (out_mode (param e) <> ODP_PKTOUT_MODE_DIRECT) then Some (-1, [], s)
      else
        d ← driver e;
        match op_pktout_queues d with
        | Some f => '(ret, qs, w) ← f i num (world s); Some (ret, qs, set_world w s)
        | None => '(ret, qs) ← single_pktout_queues e num; Some (ret, qs, s)
        end
  end.

(** The default input queue. *)
Definition odp_pktio_inq_setdef (pktio queue : Z) (s : pktio_sys W) : option (Z * pktio_sys W) :=
  match get_pktio_entry pktio with
  | None => Some (-1, s)
  | Some i =>
      if queue =? ODP_QUEUE_INVALID then Some (-1, s)
      else
        type ← w_queue_type queue (world s);
        if bool_decide (type <> ODP_QUEUE_TYPE_PKTIN) then Some (-1, s)
        else
          e ← zget (entries s) i;
          if bool_decide (state e <> STATE_STOP) then Some (-1, s)
          else
            l ← zset (in_queue e) 0 (queue, PQ pktio 0);
            s ← put i (set_num_in 1 (set_in_queue l e)) s;
            w ← w_queue_set_pktin queue (PQ pktio 0) (world s);
            Some (0, set_world w s)
  end.
Definition odp_pktio_inq_remdef (pktio : Z) (s : pktio_sys W) : option (Z * pktio_sys W) :=
  match get_pktio_entry pktio with
  | None => Some (-1, s)
  | Some i =>
      e ← zget (entries s) i;
      if bool_decide (state e <> STATE_STOP) then Some (-1, s)
      else
        '(queue, _) ← zget (in_queue e) 0;
        w ← w_queue_set_pktin queue PKTIN_INVALID (world s);
        l ← zset (in_queue e) 0 (ODP_QUEUE_INVALID, PQ ODP_PKTIO_INVALID 0);
        s ← put i (set_num_in 0 (set_in_queue l e)) (set_world w s);
        Some (0, s)
  end.
Definition odp_pktio_inq_getdef (pktio : Z) (s : pktio_sys W) : option Z :=
  match get_pktio_entry pktio with
  | None => Some ODP_QUEUE_INVALID
  | Some i => e ← zget (entries s) i; '(queue, _) ← zget (in_queue e) 0; Some queue
  end.
Definition odp_pktio_outq_getdef (pktio : Z) (s : pktio_sys W) : option Z :=
  match get_pktio_entry pktio with None => Some ODP_QUEUE_INVALID | Some i => e ← zget (entries s) i; Some (outq_default e) end.

(** ** Attributes *)

(** A call that is refused on a free entry and goes to the driver otherwise. *)
Definition on_open (pktio : Z) (f : pktio_if_ops_t W -> Z -> pktio_entry -> W -> option (Z * W)) (s : pktio_sys W) : option (Z * pktio_sys W) :=
  match get_pktio_entry pktio with
  | None => None
  | Some i =>
      e ← zget (entries s) i;
      if is_free e then Some (-1, s)
      else d ← driver e; '(ret, w) ← f d i e (world s); Some (ret, set_world w s)
  end.
Definition odp_pktio_mtu (pktio : Z) : pktio_sys W -> option (Z * pktio_sys W) := on_open pktio (fun d i _ => op_mtu_get d i).
Definition odp_pktio_promisc_mode_set (pktio : Z) (enable : bool) : pktio_sys W -> option (Z * pktio_sys W) :=
  on_open pktio (fun d i e w => if bool_decide (state e <> STATE_STOP) then Some (-1, w) else op_promisc_mode_set d i enable w).
Definition odp_pktio_promisc_mode (pktio : Z) : pktio_sys W -> option (Z * pktio_sys W) := on_open pktio (fun d i _ => op_promisc_mode_get d i).
Definition odp_pktio_mac_addr (pktio addr_size : Z) (s : pktio_sys W) : option (Z * pktio_sys W) :=
  if addr_size <? ETH_ALEN then Some (-1, s) else on_open pktio (fun d i _ => op_mac_get d i) s.
Definition odp_pktio_link_status (pktio : Z) : pktio_sys W -> option (Z * pktio_sys W) := on_open pktio (fun d i _ => call_opt (op_link_status d) (-1) i).
Definition odp_pktio_stats (pktio : Z) : pktio_sys W -> option (Z * pktio_sys W) := on_open pktio (fun d i _ => call_opt (op_stats d) (-1) i).
(** The test is on [stats]; [stats_reset] is called. *)
Definition odp_pktio_stats_reset (pktio : Z) : pktio_sys W -> option (Z * pktio_sys W) :=
  on_open pktio (fun d i _ w => match op_stats d with None => Some (-1, w) | Some _ => f ← op_stats_reset d; f i w end).

(** ** Start-up and shut-down *)

(** [n] entries from number [id] on get their default output queue. *)
Fixpoint init_entries (n : nat) (k : Z) (pre : list pktio_entry) (w : W) : option (option (list pktio_entry) * W) :=
  match n with
  | O => Some (Some pre, w)
  | S n =>
      '(qid, w) ← w_queue_create (pretty k +:+ "-pktio_outq_default") ODP_QUEUE_TYPE_PKTOUT w;
      if qid =? ODP_QUEUE_INVALID then Some (None, w)
      else w ← w_queue_set_pktout qid k w; init_entries n (k + 1) (pre ++ [set_outq qid zero_entry]) w
  end.
(** A driver that fails to start is only reported. *)
Fixpoint init_drivers (drivers : list (pktio_if_ops_t W)) (w : W) : option W :=
  match drivers with
  | [] => Some w
  | d :: drivers =>
      match op_init d with
      | Some f => '(_, w) ← f w; init_drivers drivers w
      | None => init_drivers drivers w
      end
  end.
Definition odp_pktio_init_global (shm : bool) (w : W) : option (option (pktio_sys W) * W) :=
  if negb shm then Some (None, w)
  else
    '(l, w) ← init_entries 64 1 [] w;
    match l with
    | None => Some (None, w)
    | Some l => w ← init_drivers pktio_if_ops w; Some (Some (Psys l w), w)
    end.

(** Every entry from [i] on: its default queue, and the interface when it is open. *)
Fixpoint term_entries (n : nat) (i : Z) (s : pktio_sys W) : option (pktio_sys W) :=
  match n with
  | O => Some s
  | S n =>
      e ← zget (entries s) i;
      '(ret, w) ← w_queue_destroy (outq_default e) (world s);
      if negb (ret =? 0) then None
      else if is_free e then term_entries n (i + 1) (set_world w s)
      else
        '(ret, e, w) ← (if bool_decide (state e <> STATE_STOP) then pktio_stop i e w else Some (0, e, w));
        if negb (ret =? 0) then None
        else
          '(ret, e, w) ← pktio_close i e w;
          if negb (ret =? 0) then None
          else s ← put i e (set_world w s); term_entries n (i + 1) s
  end.
Fixpoint term_drivers (drivers : list (pktio_if_ops_t W)) (w : W) : option W :=
  match drivers with
  | [] => Some w
  | d :: drivers =>
      match op_term d with
      | Some f => '(ret, w) ← f w; if negb (ret =? 0) then None else term_drivers drivers w
      | None => term_drivers drivers w
      end
  end.
Definition odp_pktio_term_global (shm_free : Z) (s : pktio_sys W) : option (Z * pktio_sys W) :=
  s ← term_entries 64 0 s; w ← term_drivers pktio_if_ops (world s); Some (shm_free, set_world w s).

End pktio.

End PktIo.
