(* ===== verification/PktIoProofs.v ===== *)
(** Packet interfaces (PktIo): the contract between the table of interfaces and
    the drivers, and that the table keeps its side of it.

    A driver is promised that an interface is opened before it is used, started
    before packets are received or sent, and closed once; with that, its functions
    return.  [PktioLaws] states this with the phase of each interface.  *)

From S2P Require Import Prelude Pool PoolProofs PoolCreate Buffer Packet Parse Classify PktIo.

Open Scope Z_scope.
Open Scope c_scope.

Module PktIoProofs.
Import PktIo.

(** ** The contract of drivers *)

(** Driver [k] has the interface, and runs it. *)
Inductive phase := Closed | Opened (k : nat) (running : bool).
Definition upd (ph : Z -> phase) (i : Z) (p : phase) : Z -> phase := fun j => if bool_decide (j = i) then p else ph j.

Lemma phase_upd_eq ph i p : upd ph i p i = p.
Proof. unfold upd. by rewrite bool_decide_eq_true_2. Qed.
Lemma phase_upd_ne ph i p j : j <> i -> upd ph i p j = ph j.
Proof. intros. unfold upd. by rewrite bool_decide_eq_false_2. Qed.

Definition has_start {W} (d : pktio_if_ops_t W) : bool := match op_start d with Some _ => true | None => false end.

(** [ok w ph Q]: in world [w] the interfaces are in phases [ph], and [Q] are event
    queues, each listed once, that no driver uses.  [commands]: the commands that
    are left in the pool of the scheduler; schedule_pktio_start takes one, and
    ends the program when there is none.  [returns x P]: the call returns and [P]
    holds of its result. *)
Definition returns {A} (x : option A) (P : A -> Prop) : Prop := exists a, x = Some a /\ P a.

Class PktioLaws (W : Type) `{PktioWorld W} := {
  ok : W -> (Z -> phase) -> list Z -> Prop;
  pkt_ok : W -> Z -> Prop;
  closable : W -> Z -> Prop;
  burst : nat -> Z;
  commands : W -> nat;
  ok_perm w ph Q Q' : Q ≡ₚ Q' -> ok w ph Q -> ok w ph Q';
  ok_drop w ph q Q : ok w ph (q :: Q) -> ok w ph Q;
  (** drivers *)
  law_init k d f w ph Q : pktio_if_ops !! k = Some d -> op_init d = Some f -> ok w ph Q -> returns (f w) (fun '(_, w') => ok w' ph Q);
  law_open k d i dev pool w ph Q : pktio_if_ops !! k = Some d -> 0 <= i < 64 -> ok w ph Q -> ph i = Closed ->
    returns (op_open d i dev pool w) (fun '(r, w') => ok w' (if r =? 0 then upd ph i (Opened k false) else ph) Q);
  law_close k d i run w ph Q : pktio_if_ops !! k = Some d -> 0 <= i < 64 -> ok w ph Q -> ph i = Opened k run ->
    returns (op_close d i w) (fun '(r, w') => ok w' (if r =? 0 then upd ph i Closed else ph) Q /\ (closable w i -> r = 0));
  law_start k d f i w ph Q : pktio_if_ops !! k = Some d -> op_start d = Some f -> 0 <= i < 64 -> ok w ph Q -> ph i = Opened k false ->
    returns (f i w) (fun '(r, w') => ok w' (if r =? 0 then upd ph i (Opened k true) else ph) Q /\ (commands w <= commands w')%nat);
  law_stop k d f i w ph Q : pktio_if_ops !! k = Some d -> op_stop d = Some f -> 0 <= i < 64 -> ok w ph Q -> ph i = Opened k true ->
    returns (f i w) (fun '(r, w') => ok w' (if r =? 0 then upd ph i (Opened k false) else ph) Q);
  law_paired k d : pktio_if_ops !! k = Some d -> is_Some (op_start d) <-> is_Some (op_stop d);
  law_recv k d i len w ph Q : pktio_if_ops !! k = Some d -> 0 <= i < 64 -> ok w ph Q -> ph i = Opened k (has_start d) -> 0 <= len <= burst k ->
    returns (op_recv d i len w) (fun '(r, pkts, w') => ok w' ph Q /\ Forall (pkt_ok w') (take (Z.to_nat r) pkts));
  law_send k d i pkts w ph Q : pktio_if_ops !! k = Some d -> 0 <= i < 64 -> ok w ph Q -> ph i = Opened k (has_start d) -> zlen pkts <= burst k ->
    Forall (pkt_ok w) pkts -> returns (op_send d i pkts w) (fun '(r, w') => ok w' ph Q);
  law_recv_queue k d f i idx len w ph Q : pktio_if_ops !! k = Some d -> op_recv_queue d = Some f -> 0 <= i < 64 -> ok w ph Q -> ph i = Opened k (has_start d) ->
    0 <= len <= burst k -> returns (f i idx len w) (fun '(_, w') => ok w' ph Q);
  law_send_queue k d f i idx pkts w ph Q : pktio_if_ops !! k = Some d -> op_send_queue d = Some f -> 0 <= i < 64 -> ok w ph Q -> ph i = Opened k (has_start d) ->
    zlen pkts <= burst k -> Forall (pkt_ok w) pkts -> returns (f i idx pkts w) (fun '(_, w') => ok w' ph Q);
  (** functions that change no phase *)
  law_query k d f i run w ph Q : pktio_if_ops !! k = Some d -> 0 <= i < 64 -> ok w ph Q -> ph i = Opened k run ->
    (f = op_mtu_get d \/ f = op_promisc_mode_get d \/ f = op_mac_get d \/ op_link_status d = Some f \/ op_stats d = Some f \/ op_stats_reset d = Some f \/
     exists b, f = fun i => op_promisc_mode_set d i b) -> returns (f i w) (fun '(_, w') => ok w' ph Q);
  law_config k d f i n run w ph Q : pktio_if_ops !! k = Some d -> op_input_queues_config d = Some f \/ op_output_queues_config d = Some f -> 0 <= i < 64 ->
    ok w ph Q -> ph i = Opened k run -> 1 <= n <= 64 -> returns (f i n w) (fun '(_, w') => ok w' ph Q);
  law_capability k d f i run w ph Q : pktio_if_ops !! k = Some d -> op_capability d = Some f -> 0 <= i < 64 -> ok w ph Q -> ph i = Opened k run ->
    returns (f i w) (fun '(_, c, w') => ok w' ph Q /\ max_input_queues c <= 64 /\ max_output_queues c <= 64);
  law_in_queues k d f i n run w ph Q : pktio_if_ops !! k = Some d -> op_in_queues d = Some f -> 0 <= i < 64 -> ok w ph Q -> ph i = Opened k run ->
    returns (f i n w) (fun '(_, w') => ok w' ph Q);
  law_pkt_queues k d f i n run w ph Q : pktio_if_ops !! k = Some d -> op_pktin_queues d = Some f \/ op_pktout_queues d = Some f -> 0 <= i < 64 -> ok w ph Q ->
    ph i = Opened k run -> returns (f i n w) (fun '(_, w') => ok w' ph Q);
  law_stats_reset k d : pktio_if_ops !! k = Some d -> is_Some (op_stats d) -> is_Some (op_stats_reset d);
  (** queues, packets and the scheduler *)
  law_queue_create name t w ph Q : ok w ph Q -> returns (w_queue_create name t w) (fun '(q, w') => ok w' ph (if q =? 0 then Q else q :: Q));
  law_queue_destroy q w ph Q : ok w ph (q :: Q) ->
    returns (w_queue_destroy q w) (fun '(_, w') => ok w' ph Q /\ forall i k run, ph i = Opened k run -> closable w i -> closable w' i);
  law_queue_type q w ph Q : ok w ph (q :: Q) -> is_Some (w_queue_type q w);
  law_queue_pktin q p w ph Q : ok w ph (q :: Q) -> returns (w_queue_set_pktin q p w) (fun w' => ok w' ph (q :: Q));
  law_queue_hooks q w ph Q : ok w ph (q :: Q) -> returns (w_queue_set_pktin_hooks q w) (fun w' => ok w' ph (q :: Q));
  law_queue_pktout q h w ph Q : ok w ph (q :: Q) -> returns (w_queue_set_pktout q h w) (fun w' => ok w' ph (q :: Q));
  law_set_input p h w ph Q : ok w ph Q -> pkt_ok w p -> returns (w_packet_set_input p h w) (fun w' => ok w' ph Q /\ forall p', pkt_ok w p' -> pkt_ok w' p');
  law_poll h k w ph Q : ok w ph Q -> (0 < commands w)%nat ->
    returns (w_schedule_pktio_start h k w) (fun w' => ok w' ph Q /\ (commands w <= S (commands w'))%nat)
}.

(** ** The queues interfaces hold *)

Definition flat {A B} (g : A -> list B) (l : list A) : list B := foldr (fun x acc => g x ++ acc) [] l.

Lemma flat_at {A B} (g : A -> list B) l i x : l !! i = Some x -> flat g l ≡ₚ g x ++ flat g (delete i l).
Proof.
  revert i. induction l as [|y l IH]; intros [|i] Hi; simplify_eq/=; [done|]. rewrite (IH i Hi). rewrite !app_assoc. apply Permutation_app_tail, Permutation_app_comm.
Qed.
Lemma flat_insert {A B} (g : A -> list B) l i x : (i < length l)%nat -> flat g (<[i := x]> l) ≡ₚ g x ++ flat g (delete i l).
Proof.
  intros Hi. rewrite (flat_at g _ i x) by (by apply list_lookup_insert_eq). apply Permutation_app_head.
  assert (delete i (<[i := x]> l) = delete i l) as ->; [|done].
  revert i Hi. induction l as [|y l IH]; intros [|i] Hi; simpl in *; [lia|lia|done|]. f_equal. apply IH. lia.
Qed.
Lemma flat_nil {A B} (g : A -> list B) l : (forall x, x ∈ l -> g x = []) -> flat g l = [].
Proof. induction l as [|x l IH]; intros Hg; simpl; [done|]. rewrite Hg, IH; set_solver. Qed.

Definition held_queue (x : Z * pktio_queue_t) : list Z := if fst x =? ODP_QUEUE_INVALID then [] else [fst x].
Definition held_by (l : list (Z * pktio_queue_t)) : list Z := flat held_queue l.
Definition held (l : list pktio_entry) : list Z := flat (fun e => held_by (in_queue e)) l.
(** The queues of the other entries. *)
Definition held_else (i : Z) (l : list pktio_entry) : list Z := held (delete (Z.to_nat i) l).

Lemma held_at l i e : zget l i = Some e -> held l ≡ₚ held_by (in_queue e) ++ held_else i l.
Proof. intros Hg. pose proof (zget_bound _ _ _ Hg). rewrite zget_nonneg in Hg by lia. by apply (flat_at (fun e => held_by (in_queue e))). Qed.
Lemma held_put l i e : 0 <= i < zlen l -> held (<[Z.to_nat i := e]> l) ≡ₚ held_by (in_queue e) ++ held_else i l.
Proof. unfold zlen. intros. apply (flat_insert (fun e => held_by (in_queue e))). lia. Qed.
Lemma held_at_queue l k q p : zget l k = Some (q, p) -> q <> 0 -> held_by l ≡ₚ q :: held_by (<[Z.to_nat k := (ODP_QUEUE_INVALID, p)]> l).
Proof.
  intros Hg Hq. pose proof (zget_bound _ _ _ Hg). rewrite zget_nonneg in Hg by lia. unfold zlen in *. unfold held_by. rewrite (flat_at held_queue _ _ _ Hg), (flat_insert held_queue) by lia.
  unfold held_queue. cbn [fst]. apply Z.eqb_neq in Hq. unfold ODP_QUEUE_INVALID. by rewrite Hq.
Qed.

Section laws.
Context {W : Type} `{PktioLaws W}.
Implicit Types (s : pktio_sys W) (w : W) (e : pktio_entry) (ph : Z -> phase).

#[export] Instance ok_proper w ph : Proper (Permutation ==> iff) (ok w ph).
Proof. intros Q Q' HQ. split; by apply ok_perm. Qed.

Lemma ok_drops w ph Q Q' : ok w ph (Q ++ Q') -> ok w ph Q'.
Proof. induction Q as [|q Q IH]; simpl; [done|]. intros Ho. by eapply IH, ok_drop. Qed.

(** ** The invariant of the table *)

Definition runs (d : pktio_if_ops_t W) e : bool := match state e with STATE_START => has_start d | STATE_STOP => false end.

Record entry_ok ph (i : Z) e : Prop := {
  eo_in : length (in_queue e) = 64%nat;
  eo_out : length (out_queue e) = 64%nat;
  eo_num : 0 <= num_in_queue e <= 64;
  eo_free : taken e = false -> ph i = Closed;
  eo_open : taken e = true -> handle e = i + 1 /\ exists k d, ops e = Some k /\ pktio_if_ops !! k = Some d /\ ph i = Opened k (runs d e)
}.

Record inv ph s : Prop := {
  in_len : length (entries s) = 64%nat;
  in_ok : ok (world s) ph (held (entries s));
  in_entry i e : zget (entries s) i = Some e -> entry_ok ph i e;
  in_names i j e e' : zget (entries s) i = Some e -> zget (entries s) j = Some e' -> i <> j -> taken e = true -> taken e' = true -> name e <> name e'
}.

Lemma inv_world ph s w : inv ph s -> ok w ph (held (entries s)) -> inv ph (set_world w s).
Proof. intros [] Ho. by split. Qed.

(** Entry [i] takes no name another open entry has. *)
Definition name_free (i : Z) e s : Prop := forall j e', zget (entries s) j = Some e' -> j <> i -> taken e' = true -> name e' <> name e.

Lemma name_free_same ph i e e' s : inv ph s -> zget (entries s) i = Some e -> taken e = true -> name e' = name e -> name_free i e' s.
Proof. intros Hi He Ht Hn j e2 Hj Hne Ht2. rewrite Hn. by eapply (in_names _ _ Hi j i). Qed.

Lemma inv_put ph ph' s i e e' w : inv ph s -> zget (entries s) i = Some e -> (forall j, j <> i -> ph' j = ph j) ->
  ok w ph' (held_by (in_queue e') ++ held_else i (entries s)) -> entry_ok ph' i e' -> (taken e' = true -> name_free i e' s) ->
  exists s', put i e' (set_world w s) = Some s' /\ inv ph' s' /\ world s' = w /\ entries s' = <[Z.to_nat i := e']> (entries s).
Proof.
  intros Hi He Hph Hok He' Hn. pose proof (zget_bound _ _ _ He) as Hb. unfold put. cbn [entries set_world]. rewrite zset_Some by done. cbn [mbind option_bind]. eexists. split; [done|].
  split_and!; [|done|done]. destruct Hi as [Hl _ Hen Hnm]. split; cbn [entries world set_entries set_world].
  - by rewrite length_insert.
  - by rewrite held_put.
  - intros j x. rewrite zget_insert by done. case_bool_decide as E; [subst j; by intros [= <-]|]. intros Hj. destruct (Hen j x Hj) as [H1 H2 H3 H4 H5].
    split; [done..| |]; rewrite Hph by congruence; done.
  - intros j1 j2 x1 x2. rewrite !zget_insert by done. intros H1 H2 Hne T1 T2. case_bool_decide as E1; case_bool_decide as E2; simplify_eq.
    + by apply (Hn T2 j1 x1 H1).
    + intros E. by apply (Hn T1 j2 x2 H2).
    + by eapply Hnm.
Qed.

(** An open interface, and its driver. *)
Definition is_open (h : Z) s : Prop := 1 <= h <= 64 /\ exists e, zget (entries s) (h - 1) = Some e /\ taken e = true.

Lemma handle_entry h : 1 <= h <= 64 -> get_pktio_entry h = Some (h - 1).
Proof. intros. unfold get_pktio_entry, ODP_PKTIO_INVALID, ODP_CONFIG_PKTIO_ENTRIES. rewrite (proj2 (Z.eqb_neq _ _)), Z.gtb_ltb, (proj2 (Z.ltb_ge _ _)) by lia. done. Qed.

Record opened ph s (h : Z) e (k : nat) (d : pktio_if_ops_t W) : Prop := {
  op_entry : get_pktio_entry h = Some (h - 1);
  op_range : 0 <= h - 1 < 64;
  op_get : zget (entries s) (h - 1) = Some e;
  op_ok : entry_ok ph (h - 1) e;
  op_taken : taken e = true;
  op_handle : handle e = h;
  op_ops : ops e = Some k;
  op_tbl : pktio_if_ops !! k = Some d;
  op_driver : driver e = Some d;
  op_phase : ph (h - 1) = Opened k (runs d e)
}.

Lemma open_opened ph s h : inv ph s -> is_open h s -> exists e k d, opened ph s h e k d.
Proof.
  intros Hi [Hh (e & He & Ht)]. pose proof (in_entry _ _ Hi _ _ He) as Hok. destruct (eo_open _ _ _ Hok Ht) as (Hhd & k & d & Hops & Hd & Hp). exists e, k, d.
  split; [by apply handle_entry|lia|done|done|done|lia|done|done| |done]. unfold driver. rewrite Hops. done.
Qed.

(** ** Queues *)

Lemma destroy_ok n ph : forall k l w R, 0 <= k -> k + Z.of_nat n <= zlen l -> ok w ph (held_by l ++ R) ->
  returns (destroy_in_queues n k l w) (fun '(l', w') => length l' = length l /\ ok w' ph (held_by l' ++ R) /\
    forall i j run, ph i = Opened j run -> closable w i -> closable w' i).
Proof.
  induction n as [|n IH]; intros k l w R Hk Hl Hok; cbn [destroy_in_queues]; [by exists (l, w)|].
  destruct (zget_Some l k) as [[q p] Hg]; [lia|]. rewrite Hg. cbn [mbind option_bind]. destruct (Z.eqb_spec q ODP_QUEUE_INVALID) as [E|E]; cbn [negb].
  - apply IH; [lia|lia|done].
  - assert (ok w ph (q :: held_by (<[Z.to_nat k := (ODP_QUEUE_INVALID, p)]> l) ++ R)) as Hq by (eapply ok_perm; [|exact Hok]; by rewrite (held_at_queue l k q p Hg E)).
    destruct (law_queue_destroy q w ph _ Hq) as ([r w'] & -> & Hok' & Hc). cbn [mbind option_bind]. rewrite zset_Some by lia. cbn [mbind option_bind].
    destruct (IH (k + 1) (<[Z.to_nat k := (ODP_QUEUE_INVALID, p)]> l) w' R) as ([l' w2] & -> & Hl' & Hok2 & Hc2); [lia| |done|].
    { unfold zlen in *. rewrite length_insert. lia. }
    exists (l', w2). split; [done|]. rewrite length_insert in Hl'. split_and!; [done|done|]. eauto.
Qed.

(** A queue is put into the list; the one that was there is left alone. *)
Lemma ok_set ph w l k q p R : 0 <= k < zlen l -> ok w ph (held_queue (q, p) ++ held_by l ++ R) -> ok w ph (held_by (<[Z.to_nat k := (q, p)]> l) ++ R).
Proof.
  intros Hk Hok. destruct (zget_Some l k Hk) as [x Hx]. rewrite zget_nonneg in Hx by lia. unfold zlen in Hk. unfold held_by in *. rewrite (flat_insert held_queue) by lia.
  rewrite (flat_at held_queue _ _ _ Hx) in Hok. apply (ok_drops _ _ (held_queue x)). eapply ok_perm; [|exact Hok]. rewrite <- !app_assoc.
  rewrite (Permutation_app_comm (held_queue (q, p))). rewrite <- !app_assoc. apply Permutation_app_head. rewrite (app_assoc (flat _ _)), (Permutation_app_comm _ (held_queue (q, p))). by rewrite <- ?app_assoc.
Qed.

Lemma create_ok n ph : forall k pktio h mode l w R, 0 <= k -> k + Z.of_nat n <= zlen l -> ok w ph (held_by l ++ R) ->
  returns (create_in_queues n k pktio h mode l w) (fun '(_, l', w') => length l' = length l /\ ok w' ph (held_by l' ++ R)).
Proof.
  induction n as [|n IH]; intros k pktio h mode l w R Hk Hl Hok; cbn [create_in_queues]; [by exists (true, l, w)|].
  assert (forall q p w', ok w' ph (held_queue (q, p) ++ held_by l ++ R) ->
    returns (l ← zset l k (q, p); create_in_queues n (k + 1) pktio h mode l w') (fun '(_, l', w') => length l' = length l /\ ok w' ph (held_by l' ++ R))) as Hrest.
  { intros q p w' Hq. rewrite zset_Some by lia. cbn [mbind option_bind]. destruct (IH (k + 1) pktio h mode (<[Z.to_nat k := (q, p)]> l) w' R) as ([[b l'] w2] & -> & Hl' & Hok2).
    - lia.
    - unfold zlen in *. rewrite length_insert. lia.
    - apply ok_set; [lia|done].
    - exists (b, l', w2). by rewrite length_insert in Hl'. }
  case_bool_decide; [|by apply Hrest].
  match goal with |- context [w_queue_create ?n ?t w] => destruct (law_queue_create n t w ph _ Hok) as ([q w'] & -> & Hq) end. cbn [mbind option_bind]. change ODP_QUEUE_INVALID with 0.
  destruct (Z.eqb_spec q 0) as [E|E].
  - destruct (destroy_ok (Z.to_nat (k + 1)) ph 0 l w' R) as ([l' w2] & -> & Hl' & Hok2 & _); [lia|lia|done|]. cbn [mbind option_bind]. by exists (false, l', w2).
  - assert (returns (if bool_decide (mode = ODP_PKTIN_MODE_QUEUE) then w ← w_queue_set_pktin q (PQ pktio k) w'; w_queue_set_pktin_hooks q w else Some w')
      (fun w' => ok w' ph (q :: held_by l ++ R))) as (w2 & -> & Hok2).
    { case_bool_decide; [|by exists w']. destruct (law_queue_pktin q (PQ pktio k) w' ph _ Hq) as (w2 & -> & Hq2). cbn [mbind option_bind]. by apply law_queue_hooks. }
    cbn [mbind option_bind]. apply Hrest. unfold held_queue. cbn [fst]. change ODP_QUEUE_INVALID with 0. by rewrite (proj2 (Z.eqb_neq _ _) E).
Qed.

Lemma fill_ok n h : forall k l, 0 <= k -> k + Z.of_nat n <= zlen l -> returns (fill_out_queues n k h l) (fun l' => length l' = length l).
Proof.
  induction n as [|n IH]; intros k l Hk Hl; cbn [fill_out_queues]; [by exists l|]. rewrite zset_Some by lia. cbn [mbind option_bind].
  destruct (IH (k + 1) (<[Z.to_nat k := PQ h k]> l)) as (l' & -> & Hl'); [lia|unfold zlen in *; rewrite length_insert; lia|]. exists l'. by rewrite length_insert in Hl'.
Qed.

Lemma start_queues_ok n ph : forall k pktio l w Q, 0 <= k -> k + Z.of_nat n <= zlen l -> ok w ph Q -> (n <= commands w)%nat ->
  returns (start_queues n k pktio l w) (fun '(_, w') => ok w' ph Q).
Proof.
  induction n as [|n IH]; intros k pktio l w Q Hk Hl Hok Hn; cbn [start_queues]; [by exists (true, w)|]. destruct (zget_Some l k) as [[q p] ->]; [lia|]. cbn [mbind option_bind].
  destruct (q =? ODP_QUEUE_INVALID); [by exists (false, w)|]. destruct (law_poll pktio k w ph Q Hok ltac:(lia)) as (w' & -> & Hok' & Hc). cbn [mbind option_bind]. apply IH; [lia|lia|done|lia].
Qed.

Lemma set_inputs_ok ph h Q pkts : forall w, ok w ph Q -> Forall (pkt_ok w) pkts -> returns (set_inputs h pkts w) (fun w' => ok w' ph Q).
Proof.
  induction pkts as [|p pkts IH]; intros w Hok Hp; cbn [set_inputs]; [by exists w|]. apply Forall_cons_1 in Hp as [Hp Hr].
  destruct (law_set_input p h w ph Q Hok Hp) as (w' & -> & Hok' & Hk). cbn [mbind option_bind]. apply IH; [done|]. eapply Forall_impl; [exact Hr|exact Hk].
Qed.

(** ** Opening and closing *)

Lemma try_open_ok ph i dev pool Q : forall ds k0 w, 0 <= i < 64 -> ok w ph Q -> ph i = Closed -> (forall j d, ds !! j = Some d -> pktio_if_ops !! (k0 + j)%nat = Some d) ->
  returns (try_open k0 ds i dev pool w) (fun '(r, w') => match r with
    | None => ok w' ph Q
    | Some k => is_Some (pktio_if_ops !! k) /\ ok w' (upd ph i (Opened k false)) Q
    end).
Proof.
  induction ds as [|d ds IH]; intros k0 w Hi Hok Hph Hds; cbn [try_open]; [by exists (None, w)|].
  pose proof (Hds 0%nat d eq_refl) as Hd. rewrite Nat.add_0_r in Hd. destruct (law_open k0 d i dev pool w ph Q Hd Hi Hok Hph) as ([r w'] & -> & Hok'). cbn [mbind option_bind].
  destruct (r =? 0); [by exists (Some k0, w')|]. apply IH; [done..|]. intros j d' Hj. replace (S k0 + j)%nat with (k0 + S j)%nat by lia. by apply Hds.
Qed.

Lemma first_free_spec l : forall i0, match first_free i0 l with
  | Some i => exists n e, i = i0 + Z.of_nat n /\ l !! n = Some e /\ taken e = false
  | None => Forall (fun e => taken e = true) l
  end.
Proof.
  induction l as [|e l IH]; intros i0; cbn [first_free]; [done|]. unfold is_free. destruct (taken e) eqn:Et; cbn [negb].
  - specialize (IH (i0 + 1)). destruct (first_free (i0 + 1) l) as [i|]; [|by constructor]. destruct IH as (n & e' & -> & Hn & Ht). exists (S n), e'. split_and!; [lia|done|done].
  - exists 0%nat, e. split_and!; [lia|done|done].
Qed.

(** The names of the open interfaces by handle. *)
Definition view s (h : Z) : option string := e ← zget (entries s) (h - 1); if taken e then Some (name e) else None.

Lemma view_open s h n : length (entries s) = 64%nat -> view s h = Some n -> 1 <= h <= 64 /\ is_open h s.
Proof.
  unfold view. intros Hl Hv. destruct (zget (entries s) (h - 1)) as [e|] eqn:E; [|done]. cbn [mbind option_bind] in Hv. destruct (taken e) eqn:Et; [|done].
  pose proof (zget_bound _ _ _ E) as Hb. unfold zlen in Hb. split; [lia|]. split; [lia|eauto].
Qed.
Lemma open_view s h : is_open h s -> exists n, view s h = Some n.
Proof. intros [Hh (e & He & Ht)]. exists (name e). unfold view. rewrite He. cbn [mbind option_bind]. by rewrite Ht. Qed.
Lemma view_inj ph s h h' n : inv ph s -> view s h = Some n -> view s h' = Some n -> h = h'.
Proof.
  unfold view. intros Hi Hv Hv'. destruct (zget (entries s) (h - 1)) as [e|] eqn:E; [|done]. destruct (zget (entries s) (h' - 1)) as [e'|] eqn:E'; [|done]. cbn [mbind option_bind] in *.
  destruct (taken e) eqn:T; [|done]. destruct (taken e') eqn:T'; [|done]. destruct (decide (h = h')); [done|]. destruct (in_names _ _ Hi (h - 1) (h' - 1) e e'); [done|done|lia|done|done|congruence].
Qed.
Lemma view_put s i e h w : 0 <= i < zlen (entries s) -> view (Psys (<[Z.to_nat i := e]> (entries s)) w) h = if bool_decide (h = i + 1) then (if taken e then Some (name e) else None) else view s h.
Proof.
  intros Hi. unfold view. cbn [entries]. rewrite zget_insert by done. case_bool_decide as E; case_bool_decide as E'; [done|lia|lia|done].
Qed.

Lemma pktio_lookup_spec dev l : forall i0, 1 <= i0 -> let h := lookup_loop dev i0 l in
  (h = 0 /\ forall n e, l !! n = Some e -> taken e = true -> name e <> dev) \/
  exists n e, h = i0 + Z.of_nat n /\ l !! n = Some e /\ taken e = true /\ name e = dev.
Proof.
  induction l as [|e l IH]; intros i0 Hi; cbn [lookup_loop]; [by left|]. unfold is_free. rewrite negb_involutive. destruct (taken e) eqn:Et; cbn [andb].
  - destruct (String.eqb_spec (name e) dev) as [E|E]; [right; exists 0%nat, e; split_and!; [lia|done..]|].
    destruct (IH (i0 + 1) ltac:(lia)) as [[Hz Hn]|(n & e' & Hh & Hn & Ht & Hnm)].
    + left. split; [done|]. intros [|n] e' He' Ht'; simplify_eq/=; [done|eauto].
    + right. exists (S n), e'. split_and!; [lia|done..].
  - destruct (IH (i0 + 1) ltac:(lia)) as [[Hz Hn]|(n & e' & Hh & Hn & Ht & Hnm)].
    + left. split; [done|]. intros [|n] e' He' Ht'; simplify_eq/=; [congruence|eauto].
    + right. exists (S n), e'. split_and!; [lia|done..].
Qed.

Lemma lookup_view ph s dev h : inv ph s -> view s h = Some dev -> odp_pktio_lookup dev s = h.
Proof.
  intros Hi Hv. destruct (pktio_lookup_spec dev (entries s) 1 ltac:(lia)) as [[_ Hn]|(n & e & Hh & Hn & Ht & Hnm)].
  - unfold view in Hv. destruct (zget (entries s) (h - 1)) as [e|] eqn:E; [|done]. cbn [mbind option_bind] in Hv. destruct (taken e) eqn:Et; [|done]. injection Hv as Hv.
    pose proof (zget_bound _ _ _ E). rewrite zget_nonneg in E by lia. by destruct (Hn _ e E Et).
  - unfold odp_pktio_lookup. rewrite Hh. apply (view_inj ph s _ h dev Hi); [|done]. unfold view. replace (1 + Z.of_nat n - 1) with (Z.of_nat n) by lia. rewrite zget_of_nat, Hn. cbn [mbind option_bind].
    by rewrite Ht, Hnm.
Qed.
Lemma lookup_none s dev : odp_pktio_lookup dev s = 0 <-> forall h, view s h <> Some dev.
Proof.
  destruct (pktio_lookup_spec dev (entries s) 1 ltac:(lia)) as [[Hz Hn]|(n & e & Hh & Hn & Ht & Hnm)]; unfold odp_pktio_lookup.
  - rewrite Hz. split; [|done]. intros _ h. unfold view. destruct (zget (entries s) (h - 1)) as [e|] eqn:E; [|done]. cbn [mbind option_bind]. destruct (taken e) eqn:Et; [|done].
    pose proof (zget_bound _ _ _ E). rewrite zget_nonneg in E by lia. intros [= E']. by destruct (Hn _ e E Et).
  - rewrite Hh. split; [lia|]. intros Hv. destruct (Hv (1 + Z.of_nat n)). unfold view. replace (1 + Z.of_nat n - 1) with (Z.of_nat n) by lia. rewrite zget_of_nat, Hn. cbn [mbind option_bind].
    by rewrite Ht, Hnm.
Qed.

Lemma zset_twice {A} (l : list A) i x y : 0 <= i < zlen l -> zset (<[Z.to_nat i := x]> l) i y = Some (<[Z.to_nat i := y]> l).
Proof. unfold zlen. intros. rewrite zset_Some by (unfold zlen; rewrite length_insert; lia). by rewrite list_insert_insert_eq. Qed.

(** An entry that was just opened by driver [k]. *)
Definition fresh_entry (dev : string) (par : odp_pktio_param_t) (k : nat) (i : Z) e : pktio_entry :=
  set_handle (i + 1) (set_state STATE_STOP (set_name dev (set_ops k (set_param_id par (i + 1) (init_pktio_entry e))))).

Lemma fresh_held dev par k i e : held_by (in_queue (fresh_entry dev par k i e)) = [].
Proof. apply flat_nil. simpl. intros x (y & -> & _)%list_elem_of_fmap. done. Qed.
Lemma init_held e : held_by (in_queue (init_pktio_entry e)) = [].
Proof. apply flat_nil. simpl. intros x (y & -> & _)%list_elem_of_fmap. done. Qed.

(** Why a device is not opened. *)
Definition refused (dev : string) (pool : Z) s : Prop :=
  odp_pktio_lookup dev s <> 0 \/ (255 <= String.length dev)%nat \/ Forall (fun e => taken e = true) (entries s) \/
  exists i w, first_free 0 (entries s) = Some i /\ try_open 0 pktio_if_ops i dev pool (world s) = Some (None, w).

Lemma setup_ok ph s dev pool par : inv ph s -> odp_pktio_lookup dev s = 0 ->
  returns (setup_pktio_entry dev pool par s) (fun '(h, s') => (exists ph', inv ph' s') /\
    ((h = 0 /\ refused dev pool s /\ forall j, view s' j = view s j) \/
     (1 <= h <= 64 /\ view s h = None /\ (String.length dev < 255)%nat /\ (forall j, view s' j = if bool_decide (j = h) then Some dev else view s j) /\
      exists e k, zget (entries s') (h - 1) = Some (fresh_entry dev par k (h - 1) e)))).
Proof.
  intros Hi Hlk. unfold setup_pktio_entry, PKTIO_NAME_LEN. change (256 - 1)%nat with 255%nat. destruct (Nat.leb_spec 255 (String.length dev)) as [Hlen|Hlen].
  { eexists. split; [done|]. split; [eauto|]. left. split_and!; [done|by right; left|done]. }
  unfold alloc_lock_pktio_entry. pose proof (first_free_spec (entries s) 0) as Hff. destruct (first_free 0 (entries s)) as [i|] eqn:Ef.
  2: { eexists. split; [done|]. split; [eauto|]. left. split_and!; [done|by do 2 right; left|done]. }
  destruct Hff as (n & e & -> & Hn & Ht). rewrite Z.add_0_l in *. pose proof (lookup_lt_Some _ _ _ Hn) as Hlt. rewrite (in_len _ _ Hi) in Hlt. set (i := Z.of_nat n) in *.
  assert (zget (entries s) i = Some e) as He by (unfold i; by rewrite zget_of_nat). pose proof (zget_bound _ _ _ He) as Hb. rewrite He. cbn [mbind option_bind].
  pose proof (in_entry _ _ Hi _ _ He) as Heo. pose proof (eo_free _ _ _ Heo Ht) as Hcl.
  unfold put. rewrite zset_Some by done. cbn [mbind option_bind]. unfold ODP_PKTIO_INVALID. rewrite (proj2 (Z.eqb_neq (i + 1) 0)) by lia. rewrite handle_entry by lia.
  replace (i + 1 - 1) with i by lia. cbn [entries set_entries set_world world]. rewrite zget_insert, bool_decide_eq_true_2 by done. cbn [mbind option_bind].
  pose proof (in_ok _ _ Hi) as Hok. rewrite (held_at _ _ _ He) in Hok. apply ok_drops in Hok.
  destruct (try_open_ok ph i dev pool _ pktio_if_ops 0 (world s) ltac:(lia) Hok Hcl ltac:(done)) as ([r w'] & Htry & Hr). rewrite Htry. cbn [mbind option_bind].
  assert (view s (i + 1) = None) as Hvn by (unfold view; replace (i + 1 - 1) with i by lia; rewrite He; cbn [mbind option_bind]; by rewrite Ht).
  destruct Heo as [H1 H2 H3 _ _]. destruct r as [k|].
  - destruct Hr as [[d Hd] Hok']. destruct (inv_put ph (upd ph i (Opened k false)) s i e (fresh_entry dev par k i e) w' Hi He) as (s' & Hp & Hi' & Hw & Hen).
    + intros j Hj. by apply phase_upd_ne.
    + by rewrite fresh_held.
    + split; simpl; [by rewrite length_fmap|by rewrite length_fmap|done|done|]. intros _. split; [done|]. exists k, d. by rewrite phase_upd_eq.
    + intros _ j e' Hj Hne Ht'. simpl. intros <-. apply (proj1 (lookup_none s (name e')) Hlk (j + 1)). unfold view. replace (j + 1 - 1) with j by lia. rewrite Hj. cbn [mbind option_bind]. by rewrite Ht'.
    + change (set_entries (<[Z.to_nat i := init_pktio_entry e]> (entries s)) s) with (Psys (<[Z.to_nat i := init_pktio_entry e]> (entries s)) (world s)).
      unfold put in Hp. cbn [entries set_world set_entries world] in Hp |- *. rewrite zset_Some in Hp by done. cbn [mbind option_bind] in Hp. injection Hp as <-.
      rewrite zset_twice by done. cbn [mbind option_bind]. eexists. split; [done|]. split; [eauto|]. right.
      split; [lia|]. do 2 (split; [done|]). split.
      * intros j. etrans; [apply (view_put s i)|]; [done|]. done.
      * exists e, k. replace (i + 1 - 1) with i by lia. cbn [entries set_entries set_world]. by rewrite zget_insert, bool_decide_eq_true_2.
  - set (e' := set_handle 0 (set_taken false (set_param_id par (i + 1) (init_pktio_entry e)))). destruct (inv_put ph ph s i e e' w' Hi He) as (s' & Hp & Hi' & Hw & Hen).
    + done.
    + unfold e'. simpl. pose proof (init_held e) as Hh. simpl in Hh. by rewrite Hh.
    + split; simpl; [by rewrite length_fmap|by rewrite length_fmap|done|done|done].
    + done.
    + unfold put in Hp. cbn [entries set_world set_entries world] in Hp |- *. rewrite zset_Some in Hp by done. cbn [mbind option_bind] in Hp. injection Hp as <-.
      rewrite zset_twice by done. cbn [mbind option_bind]. eexists. split; [done|]. split; [eauto|]. left.
      split_and!; [done|do 3 right; eauto|]. intros j. etrans; [apply (view_put s i)|]; [done|]. case_bool_decide; subst; done.
Qed.

Lemma open_ok ph s dev pool par : inv ph s -> w_pool_is_packet pool (world s) = true ->
  returns (odp_pktio_open dev pool par s) (fun '(h, s') => (exists ph', inv ph' s') /\
    ((h = 0 /\ refused dev pool s /\ forall j, view s' j = view s j) \/
     (1 <= h <= 64 /\ view s h = None /\ odp_pktio_lookup dev s = 0 /\ (String.length dev < 255)%nat /\ (forall j, view s' j = if bool_decide (j = h) then Some dev else view s j) /\
      exists e k, zget (entries s') (h - 1) = Some (fresh_entry dev par k (h - 1) e)))).
Proof.
  intros Hi Hp. unfold odp_pktio_open. rewrite Hp. cbn [negb]. destruct (Z.eqb_spec (odp_pktio_lookup dev s) ODP_PKTIO_INVALID) as [E|E]; cbn [negb].
  - destruct (setup_ok ph s dev pool par Hi E) as ([h s'] & -> & Hi' & Hc). exists (h, s'). split; [done|]. split; [done|]. destruct Hc as [?|(? & ? & ? & ?)]; [by left|right]. done.
  - eexists. split; [done|]. split; [eauto|]. left. split_and!; [done|by left|done].
Qed.

(** A call returns, the invariant holds again, and the same interfaces are open. *)
Definition keeps {A} s (x : option (A * pktio_sys W)) : Prop := returns x (fun '(_, s') => (exists ph, inv ph s') /\ forall j, view s' j = view s j).

Lemma keeps_same {A} (a : A) ph s : inv ph s -> keeps s (Some (a, s)).
Proof. intros Hi. eexists. split; [done|]. simpl. eauto. Qed.
Lemma keeps_world {A} (a : A) ph s w : inv ph s -> ok w ph (held (entries s)) -> keeps s (Some (a, set_world w s)).
Proof. intros Hi Hok. eexists. split; [done|]. split; [|done]. eexists. by apply inv_world. Qed.
Lemma keeps_trans {A} s s1 (x : option (A * pktio_sys W)) : (forall j, view s1 j = view s j) -> keeps s1 x -> keeps s x.
Proof. intros Hv ([a s2] & -> & Hi & Hv2). exists (a, s2). split; [done|]. split; [done|]. intros j. by rewrite Hv2. Qed.

(** A driver is asked, and the table stays as it is. *)
Lemma keeps_call {A} ph s (x : option (A * W)) : inv ph s -> returns x (fun '(_, w) => ok w ph (held (entries s))) -> keeps s ('(a, w) ← x; Some (a, set_world w s)).
Proof. intros Hi ([a w] & -> & Hok). cbn [mbind option_bind]. by eapply keeps_world. Qed.

(** Changing the queues of an open entry. *)
Lemma entry_queues ph i e e' : entry_ok ph i e -> taken e' = taken e -> handle e' = handle e -> ops e' = ops e -> state e' = state e ->
  length (in_queue e') = 64%nat -> length (out_queue e') = 64%nat -> 0 <= num_in_queue e' <= 64 -> entry_ok ph i e'.
Proof. intros [H1 H2 H3 H4 H5] Et Eh Eo Es. split; [done..| |]; rewrite Et, ?Eh, ?Eo; unfold runs; rewrite ?Es; done. Qed.

Lemma put_queues ph s h e k d e' w : inv ph s -> opened ph s h e k d -> taken e' = taken e -> handle e' = handle e -> ops e' = ops e -> state e' = state e -> name e' = name e ->
  length (in_queue e') = 64%nat -> length (out_queue e') = 64%nat -> 0 <= num_in_queue e' <= 64 -> ok w ph (held_by (in_queue e') ++ held_else (h - 1) (entries s)) ->
  exists s', put (h - 1) e' (set_world w s) = Some s' /\ inv ph s' /\ world s' = w /\ forall j, view s' j = view s j.
Proof.
  intros Hi Ho Et Eh Eo Es En L1 L2 Hn Hok. destruct (inv_put ph ph s (h - 1) e e' w Hi (op_get _ _ _ _ _ _ Ho)) as (s' & Hp & Hi' & Hw & Hen); [done|done| | |].
  - eapply entry_queues; [apply Ho|done..].
  - intros _. eapply name_free_same; [done|apply Ho|apply Ho|done].
  - exists s'. split_and!; [done..|]. intros j. destruct s' as [l w']. simpl in Hen. subst l. rewrite view_put by (eapply zget_bound, Ho). case_bool_decide as E; [|done]. subst j.
    unfold view. replace (h - 1 + 1 - 1) with (h - 1) by lia. rewrite (op_get _ _ _ _ _ _ Ho). cbn [mbind option_bind]. by rewrite Et, En.
Qed.


Lemma close_ok ph s h : inv ph s -> 1 <= h <= 64 -> (is_open h s -> closable (world s) (h - 1)) ->
  returns (odp_pktio_close h s) (fun '(r, s') => r = 0 /\ (exists ph', inv ph' s') /\ forall j, view s' j = if bool_decide (j = h) then None else view s j).
Proof.
  intros Hi Hh Hc. unfold odp_pktio_close. rewrite handle_entry by done. destruct (zget_Some (entries s) (h - 1)) as [e He]; [unfold zlen; rewrite (in_len _ _ Hi); lia|]. rewrite He. cbn [mbind option_bind].
  pose proof (zget_bound _ _ _ He) as Hb. pose proof (in_entry _ _ Hi _ _ He) as Heo. pose proof (in_ok _ _ Hi) as Hok. rewrite (held_at _ _ _ He) in Hok.
  destruct (destroy_ok (Z.to_nat (num_in_queue e)) ph 0 (in_queue e) (world s) _ ltac:(lia) ltac:(unfold zlen; destruct Heo; lia) Hok) as ([l w] & -> & Hl & Hok' & Hcl). cbn [mbind option_bind].
  destruct Heo as [H1 H2 H3 H4 H5]. rewrite H1 in Hl. unfold is_free. cbn [set_in_queue taken]. rewrite negb_involutive.
  assert (forall ph' e' w', (forall j, j <> h - 1 -> ph' j = ph j) -> entry_ok ph' (h - 1) e' -> taken e' = false -> ok w' ph' (held_by (in_queue e') ++ held_else (h - 1) (entries s)) ->
    returns (s ← put (h - 1) e' (set_world w' s); Some (0, s)) (fun '(r, s') => r = 0 /\ (exists ph', inv ph' s') /\ forall j, view s' j = if bool_decide (j = h) then None else view s j)) as Hput.
  { intros ph' e' w' Hph He' Ht' Hok2. destruct (inv_put ph ph' s (h - 1) e e' w' Hi He) as ([l' w2] & -> & Hi' & Hw & Hen); [done|done|done|by rewrite Ht'|]. cbn [mbind option_bind]. eexists. split; [done|].
    split; [done|]. split; [eauto|]. intros j. simpl in Hen. subst l'. rewrite view_put by done. replace (h - 1 + 1) with h by lia. by rewrite Ht'. }
  destruct (taken e) eqn:Et.
  - destruct (H5 eq_refl) as (_ & k & d & Hops & Hd & Hp). unfold pktio_close, driver. cbn [set_in_queue ops]. rewrite Hops. cbn [mbind option_bind]. rewrite Hd. cbn [mbind option_bind].
    destruct (law_close k d (h - 1) _ w ph _ Hd ltac:(lia) Hok' Hp) as ([r w'] & -> & Hok2 & Hr). cbn [mbind option_bind]. rewrite Hr in * by (eapply Hcl; [done|]; apply Hc; split; eauto). cbn [Z.eqb negb mbind option_bind].
    apply (Hput (upd ph (h - 1) Closed)); [intros; by apply phase_upd_ne| |done|done]. split; [done..| |done]. intros _. apply phase_upd_eq.
  - apply (Hput ph); [done| |done|done]. split; [done..| |]; simpl; rewrite Et; done.
Qed.


(** ** Starting and stopping *)

(** The phase of an open entry changes with its state. *)
Lemma put_state ph ph' s h e k d st w : inv ph s -> opened ph s h e k d -> (forall j, j <> h - 1 -> ph' j = ph j) -> ph' (h - 1) = Opened k (runs d (set_state st e)) ->
  ok w ph' (held (entries s)) -> exists s', put (h - 1) (set_state st e) (set_world w s) = Some s' /\ inv ph' s' /\ world s' = w /\ forall j, view s' j = view s j.
Proof.
  intros Hi Ho Hph Hp Hok. destruct Ho as [Hen Hr He Heo Ht Hh Hops Hd Hdr Hpr]. destruct Heo as [L1 L2 L3 L4 L5]. clear Hen. rewrite (held_at _ _ _ He) in Hok.
  destruct (inv_put ph ph' s (h - 1) e (set_state st e) w Hi He Hph Hok) as ([l w'] & Hput & Hi' & Hw & Hen).
  - split; simpl; [done|done|done|by rewrite Ht|]. intros _. split; [lia|]. by exists k, d.
  - intros _. by eapply name_free_same.
  - eexists. split; [done|]. split_and!; [done..|]. intros j. simpl in Hen. subst l. rewrite view_put by (by eapply zget_bound). replace (h - 1 + 1) with h by lia.
    case_bool_decide as E; [|done]. subst j. unfold view. by rewrite He.
Qed.

(** The scheduler has a command for every input queue it is to poll. *)
Definition can_poll (h : Z) s : Prop :=
  forall e, zget (entries s) (h - 1) = Some e -> in_mode (param e) = ODP_PKTIN_MODE_SCHED -> (Z.to_nat (num_in_queue e) <= commands (world s))%nat.

Lemma start_ok ph s h : inv ph s -> is_open h s -> can_poll h s -> keeps s (odp_pktio_start h s).
Proof.
  intros Hi Hop Hcan. destruct (open_opened ph s h Hi Hop) as (e & k & d & Ho). unfold odp_pktio_start. rewrite (op_entry _ _ _ _ _ _ Ho), (op_get _ _ _ _ _ _ Ho). cbn [mbind option_bind].
  case_bool_decide as Es; [by eapply keeps_same|]. rewrite (op_driver _ _ _ _ _ _ Ho). cbn [mbind option_bind].
  pose proof (op_phase _ _ _ _ _ _ Ho) as Hp. unfold runs in Hp. destruct (state e) eqn:Est; [done|].
  assert (returns (call_opt (op_start d) 0 (h - 1) (world s)) (fun '(res, w) => exists s1,
      put (h - 1) (if res =? 0 then set_state STATE_START e else e) (set_world w s) = Some s1 /\ (exists ph1, inv ph1 s1) /\ (forall j, view s1 j = view s j) /\ (commands (world s) <= commands (world s1))%nat)) as ([res w] & -> & s1 & Hs1 & [ph1 Hi1] & Hv & Hcmd).
  { unfold call_opt. destruct (op_start d) as [f|] eqn:Ef.
    - destruct (law_start k d f (h - 1) (world s) ph _ (op_tbl _ _ _ _ _ _ Ho) Ef (op_range _ _ _ _ _ _ Ho) (in_ok _ _ Hi) Hp) as ([r w] & -> & Hok & Hcw). exists (r, w). split; [done|].
      destruct (r =? 0).
      + destruct (put_state ph (upd ph (h - 1) (Opened k true)) s h e k d STATE_START w Hi Ho) as (s1 & Hs1 & Hi1 & <- & Hv); [intros; by apply phase_upd_ne|rewrite phase_upd_eq|done|exists s1; split_and!; eauto].
        unfold runs, has_start. simpl. by rewrite Ef.
      + destruct (put_queues ph s h e k d e w Hi Ho) as (s1 & Hs1 & Hi1 & <- & Hv); [done..|apply Ho|apply Ho|apply Ho| |exists s1; split_and!; eauto]. rewrite <- (held_at _ _ _ (op_get _ _ _ _ _ _ Ho)). done.
    - exists (0, world s). split; [done|]. cbn [Z.eqb]. destruct (put_state ph ph s h e k d STATE_START (world s) Hi Ho) as (s1 & Hs1 & Hi1 & Ew & Hv); [done| |apply Hi|exists s1; rewrite Ew; split_and!; eauto].
      rewrite Hp. unfold runs, has_start. simpl. by rewrite Ef. }
  cbn [mbind option_bind]. rewrite Hs1. cbn [mbind option_bind]. apply (keeps_trans s s1); [done|]. case_bool_decide as Em; [|by eapply keeps_same].
  assert (forall e', e' = (if res =? 0 then set_state STATE_START e else e) -> num_in_queue e' = num_in_queue e /\ in_queue e' = in_queue e /\ param e' = param e) as Hsame by (intros e' ->; by destruct (res =? 0)).
  destruct (Hsame _ eq_refl) as (-> & -> & Ep). rewrite Ep in Em. pose proof (Hcan e (op_get _ _ _ _ _ _ Ho) Em) as Hn. pose proof (op_ok _ _ _ _ _ _ Ho) as [L1 L2 L3 _ _].
  destruct (start_queues_ok (Z.to_nat (num_in_queue e)) ph1 0 h (in_queue e) (world s1) (held (entries s1))) as ([b w'] & -> & Hok); [lia|unfold zlen; lia|apply Hi1|lia|]. cbn [mbind option_bind].
  by eapply keeps_world.
Qed.

Lemma stop_ok ph s h : inv ph s -> is_open h s -> keeps s (odp_pktio_stop h s).
Proof.
  intros Hi Hop. destruct (open_opened ph s h Hi Hop) as (e & k & d & Ho). unfold odp_pktio_stop, pktio_stop. rewrite (op_entry _ _ _ _ _ _ Ho), (op_get _ _ _ _ _ _ Ho). cbn [mbind option_bind].
  assert (exists s1, put (h - 1) e (set_world (world s) s) = Some s1 /\ inv ph s1 /\ forall j, view s1 j = view s j) as (s1 & Hs1 & Hi1 & Hv1).
  { destruct (put_queues ph s h e k d e (world s) Hi Ho) as (s1 & ? & ? & _ & ?); [done..|apply Ho|apply Ho|apply Ho| |by eauto]. rewrite <- (held_at _ _ _ (op_get _ _ _ _ _ _ Ho)). apply Hi. }
  case_bool_decide as Es; [cbn [mbind option_bind]; rewrite Hs1; cbn [mbind option_bind]; by apply (keeps_trans s s1); [|eapply keeps_same]|].
  rewrite (op_driver _ _ _ _ _ _ Ho). cbn [mbind option_bind]. pose proof (op_phase _ _ _ _ _ _ Ho) as Hp. pose proof (law_paired k d (op_tbl _ _ _ _ _ _ Ho)) as Hpair. unfold runs, has_start in Hp.
  destruct (state e) eqn:Est; [|done]. unfold call_opt. destruct (op_stop d) as [f|] eqn:Ef.
  - destruct Hpair as [_ Hpair]. destruct (op_start d) eqn:Efs; [|by destruct (Hpair (mk_is_Some _ _ eq_refl))].
    destruct (law_stop k d f (h - 1) (world s) ph _ (op_tbl _ _ _ _ _ _ Ho) Ef (op_range _ _ _ _ _ _ Ho) (in_ok _ _ Hi) Hp) as ([r w] & -> & Hok). cbn [mbind option_bind]. destruct (r =? 0).
    + destruct (put_state ph (upd ph (h - 1) (Opened k false)) s h e k d STATE_STOP w Hi Ho) as (s2 & -> & Hi2 & _ & Hv); [intros; by apply phase_upd_ne|by rewrite phase_upd_eq|done|].
      cbn [mbind option_bind]. apply (keeps_trans s s2); [done|by eapply keeps_same].
    + destruct (put_queues ph s h e k d e w Hi Ho) as (s2 & -> & Hi2 & _ & Hv); [done..|apply Ho|apply Ho|apply Ho| |].
      { by rewrite <- (held_at _ _ _ (op_get _ _ _ _ _ _ Ho)). }
      cbn [mbind option_bind]. apply (keeps_trans s s2); [done|by eapply keeps_same].
  - destruct Hpair as [Hpair _]. destruct (op_start d) eqn:Efs; [by destruct (Hpair (mk_is_Some _ _ eq_refl))|]. cbn [mbind option_bind Z.eqb].
    destruct (put_state ph ph s h e k d STATE_STOP (world s) Hi Ho) as (s2 & -> & Hi2 & _ & Hv); [done|done|apply Hi|].
    cbn [mbind option_bind]. apply (keeps_trans s s2); [done|by eapply keeps_same].
Qed.

(** ** Receiving and sending *)

(** The number of packets the driver of an interface takes at once. *)
Definition burst_ok (h n : Z) s : Prop := 0 <= n /\ forall e k, zget (entries s) (h - 1) = Some e -> ops e = Some k -> n <= burst k.

Lemma burst_opened ph s h e k d n : opened ph s h e k d -> burst_ok h n s -> 0 <= n <= burst k.
Proof. intros Ho [Hn Hb]. split; [done|]. apply (Hb e); apply Ho. Qed.

Lemma opened_started ph s h e k d : opened ph s h e k d -> state e <> STATE_STOP -> ph (h - 1) = Opened k (has_start d).
Proof. intros Ho Hs. rewrite (op_phase _ _ _ _ _ _ Ho). unfold runs. by destruct (state e). Qed.

Lemma recv_ok ph s h len : inv ph s -> is_open h s -> burst_ok h len s -> keeps s (odp_pktio_recv h len s).
Proof.
  intros Hi Hop Hb. destruct (open_opened ph s h Hi Hop) as (e & k & d & Ho). unfold odp_pktio_recv. rewrite (op_entry _ _ _ _ _ _ Ho). cbn [mbind option_bind]. rewrite (op_get _ _ _ _ _ _ Ho). cbn [mbind option_bind].
  case_bool_decide as Es; [by eapply keeps_same|]. apply Decidable.not_or in Es as [Es _]. rewrite (op_driver _ _ _ _ _ _ Ho). cbn [mbind option_bind].
  destruct (law_recv k d (h - 1) len (world s) ph _ (op_tbl _ _ _ _ _ _ Ho) (op_range _ _ _ _ _ _ Ho) (in_ok _ _ Hi) (opened_started _ _ _ _ _ _ Ho Es) (burst_opened _ _ _ _ _ _ _ Ho Hb))
    as ([[r pkts] w] & -> & Hok & Hpk). cbn [mbind option_bind].
  destruct (set_inputs_ok ph h _ _ w Hok Hpk) as (w' & -> & Hok'). cbn [mbind option_bind]. by eapply keeps_world.
Qed.

Lemma send_ok ph s h pkts : inv ph s -> is_open h s -> burst_ok h (zlen pkts) s -> Forall (pkt_ok (world s)) pkts -> keeps s (odp_pktio_send h pkts s).
Proof.
  intros Hi Hop Hb Hpk. destruct (open_opened ph s h Hi Hop) as (e & k & d & Ho). unfold odp_pktio_send. rewrite (op_entry _ _ _ _ _ _ Ho). cbn [mbind option_bind]. rewrite (op_get _ _ _ _ _ _ Ho). cbn [mbind option_bind].
  case_bool_decide as Es; [by eapply keeps_same|]. apply Decidable.not_or in Es as [Es _]. rewrite (op_driver _ _ _ _ _ _ Ho). cbn [mbind option_bind]. eapply keeps_call; [done|].
  apply (law_send k d (h - 1) pkts (world s) ph); [apply Ho|apply Ho|apply Hi|by eapply opened_started| |done]. by eapply burst_opened.
Qed.

(** The functions of a driver for single queues are called in any state of the
    interface; without them the state is looked at. *)
Definition queue_ready {A} (h : Z) (f : pktio_if_ops_t W -> option A) s : Prop :=
  forall e d, zget (entries s) (h - 1) = Some e -> driver e = Some d -> is_Some (f d) -> state e = STATE_START.

Lemma ready_phase {A} ph s h e k d (f : pktio_if_ops_t W -> option A) g :
  opened ph s h e k d -> queue_ready h f s -> f d = Some g -> ph (h - 1) = Opened k (has_start d).
Proof. intros Ho Hq Hf. eapply opened_started; [done|]. rewrite (Hq e d); [done|apply Ho|apply Ho|by eexists]. Qed.

Lemma recv_queue_ok ph s q n : inv ph s -> is_open (q_pktio q) s -> queue_ready (q_pktio q) op_recv_queue s -> burst_ok (q_pktio q) n s -> keeps s (odp_pktio_recv_queue q n s).
Proof.
  intros Hi Hop Hq Hb. destruct (open_opened ph s _ Hi Hop) as (e & k & d & Ho). unfold odp_pktio_recv_queue. rewrite (op_entry _ _ _ _ _ _ Ho). cbn [mbind option_bind]. rewrite (op_get _ _ _ _ _ _ Ho). cbn [mbind option_bind].
  rewrite (op_driver _ _ _ _ _ _ Ho). cbn [mbind option_bind]. destruct (op_recv_queue d) as [f|] eqn:Ef.
  - destruct (law_recv_queue k d f _ (q_index q) n (world s) ph _ (op_tbl _ _ _ _ _ _ Ho) Ef (op_range _ _ _ _ _ _ Ho) (in_ok _ _ Hi) (ready_phase _ _ _ _ _ _ _ _ Ho Hq Ef) (burst_opened _ _ _ _ _ _ _ Ho Hb))
      as ([[r pkts] w] & -> & Hok). cbn [mbind option_bind]. by eapply keeps_world.
  - unfold single_recv_queue. rewrite (op_handle _ _ _ _ _ _ Ho). by eapply recv_ok.
Qed.

Lemma send_queue_ok ph s q pkts : inv ph s -> is_open (q_pktio q) s -> queue_ready (q_pktio q) op_send_queue s -> burst_ok (q_pktio q) (zlen pkts) s -> Forall (pkt_ok (world s)) pkts -> keeps s (odp_pktio_send_queue q pkts s).
Proof.
  intros Hi Hop Hq Hb Hpk. destruct (open_opened ph s _ Hi Hop) as (e & k & d & Ho). unfold odp_pktio_send_queue. rewrite (op_entry _ _ _ _ _ _ Ho). cbn [mbind option_bind]. rewrite (op_get _ _ _ _ _ _ Ho). cbn [mbind option_bind].
  rewrite (op_driver _ _ _ _ _ _ Ho). cbn [mbind option_bind]. destruct (op_send_queue d) as [f|] eqn:Ef.
  - eapply keeps_call; [done|]. apply (law_send_queue k d f _ _ pkts); [apply Ho|done|apply Ho|apply Hi|by eapply ready_phase| |done]. by eapply burst_opened.
  - unfold single_send_queue. rewrite (op_handle _ _ _ _ _ _ Ho). by eapply send_ok.
Qed.

(** ** Configuration *)

Lemma capability_ok ph s h : inv ph s -> is_open h s ->
  returns (odp_pktio_capability h s) (fun '(_, c, s') => exists w, s' = set_world w s /\ ok w ph (held (entries s)) /\
    exists c', c = Some c' /\ max_input_queues c' <= 64 /\ max_output_queues c' <= 64).
Proof.
  intros Hi Hop. destruct (open_opened ph s _ Hi Hop) as (e & k & d & Ho). unfold odp_pktio_capability. rewrite (op_entry _ _ _ _ _ _ Ho), (op_get _ _ _ _ _ _ Ho). cbn [mbind option_bind].
  rewrite (op_driver _ _ _ _ _ _ Ho). cbn [mbind option_bind]. destruct (op_capability d) as [f|] eqn:Ef.
  - destruct (law_capability k d f _ _ (world s) ph _ (op_tbl _ _ _ _ _ _ Ho) Ef (op_range _ _ _ _ _ _ Ho) (in_ok _ _ Hi) (op_phase _ _ _ _ _ _ Ho)) as ([[r c] w] & -> & Hok & Hc). cbn [mbind option_bind].
    eexists. split; [done|]. exists w. eauto.
  - eexists. split; [done|]. exists (world s). split; [by destruct s|]. split; [apply Hi|]. eexists. split; [done|]. simpl. lia.
Qed.

(** The entry after its driver was asked something. *)
Lemma opened_world ph s h e k d w : opened ph s h e k d -> opened ph (set_world w s) h e k d.
Proof. intros []. by split. Qed.

Lemma in_config_ok ph s g h par : inv ph s -> is_open h s -> (forall n, par = Some n -> 0 <= n) -> keeps s (odp_pktin_queue_config g h par s).
Proof.
  intros Hi Hop Hn. destruct (open_opened ph s _ Hi Hop) as (e & k & d & Ho). unfold odp_pktin_queue_config. destruct par as [n|]; [|by eapply keeps_same]. specialize (Hn n eq_refl).
  rewrite (op_entry _ _ _ _ _ _ Ho), (op_get _ _ _ _ _ _ Ho). cbn [mbind option_bind]. do 2 (case_bool_decide; [by eapply keeps_same|]). destruct (Z.eqb_spec n 0); [by eapply keeps_same|].
  destruct (capability_ok ph s h Hi Hop) as ([[r c] s1] & -> & w1 & -> & Hok1 & c' & -> & Hc1 & _). cbn [mbind option_bind default Datatypes.id]. pose proof (inv_world ph s w1 Hi Hok1) as Hi1.
  apply (keeps_trans s (set_world w1 s)); [done|]. rewrite Z.gtb_ltb. destruct (Z.ltb_spec (max_input_queues c') n); [by eapply keeps_same|]. cbn [world set_world].
  pose proof (op_ok _ _ _ _ _ _ Ho) as [L1 L2 L3 _ _]. rewrite (held_at _ _ _ (op_get _ _ _ _ _ _ Ho)) in Hok1.
  destruct (destroy_ok (Z.to_nat (num_in_queue e)) ph 0 (in_queue e) w1 _ ltac:(lia) ltac:(unfold zlen; lia) Hok1) as ([l w2] & -> & Hl & Hok2 & _). cbn [mbind option_bind].
  destruct (create_ok (Z.to_nat n) ph 0 h (handle e) (in_mode (param e)) l w2 _ ltac:(lia) ltac:(unfold zlen; lia) Hok2) as ([[b l2] w3] & -> & Hl2 & Hok3). cbn [mbind option_bind].
  apply opened_world with (w := w1) in Ho. set (s1 := set_world w1 s) in *. destruct b; cbn [negb].
  - destruct (put_queues ph s1 h e k d (set_num_in n (set_in_queue l2 e)) w3 Hi1 Ho) as (s2 & -> & Hi2 & Hw2 & Hv2); [done..|simpl; lia|done|simpl; lia|done|]. cbn [mbind option_bind].
    rewrite (op_driver _ _ _ _ _ _ Ho). cbn [mbind option_bind]. apply (keeps_trans s1 s2); [done|]. destruct (op_input_queues_config d) as [f|] eqn:Ef; [|by eapply keeps_same].
    eapply keeps_call; [done|]. apply (law_config k d f _ n (runs d e)); [apply Ho|by left|apply Ho|apply Hi2|apply Ho|lia].
  - destruct (put_queues ph s1 h e k d (set_in_queue l2 e) w3 Hi1 Ho) as (s2 & -> & Hi2 & Hw2 & Hv2); [done..|simpl; lia|done|done|done|]. cbn [mbind option_bind].
    apply (keeps_trans s1 s2); [done|by eapply keeps_same].
Qed.

Lemma out_config_ok ph s g h par : inv ph s -> is_open h s -> (forall n, par = Some n -> 0 <= n) -> keeps s (odp_pktout_queue_config g h par s).
Proof.
  intros Hi Hop Hn. destruct (open_opened ph s _ Hi Hop) as (e & k & d & Ho). unfold odp_pktout_queue_config. destruct par as [n|]; [|by eapply keeps_same]. specialize (Hn n eq_refl).
  rewrite (op_entry _ _ _ _ _ _ Ho), (op_get _ _ _ _ _ _ Ho). cbn [mbind option_bind]. do 3 (case_bool_decide; [by eapply keeps_same|]). destruct (Z.eqb_spec n 0); [by eapply keeps_same|].
  destruct (capability_ok ph s h Hi Hop) as ([[r c] s1] & -> & w1 & -> & Hok1 & c' & -> & _ & Hc1). cbn [mbind option_bind default Datatypes.id]. pose proof (inv_world ph s w1 Hi Hok1) as Hi1.
  apply (keeps_trans s (set_world w1 s)); [done|]. rewrite Z.gtb_ltb. destruct (Z.ltb_spec (max_output_queues c') n); [by eapply keeps_same|].
  pose proof (op_ok _ _ _ _ _ _ Ho) as [L1 L2 L3 _ _]. rewrite (held_at _ _ _ (op_get _ _ _ _ _ _ Ho)) in Hok1.
  destruct (fill_ok (Z.to_nat n) (handle e) 0 (out_queue e)) as (l & -> & Hl); [lia|unfold zlen; lia|]. cbn [mbind option_bind]. apply opened_world with (w := w1) in Ho. set (s1 := set_world w1 s) in *.
  destruct (put_queues ph s1 h e k d (set_num_out n (set_out_queue l e)) w1 Hi1 Ho) as (s2 & Hs2 & Hi2 & Hw2 & Hv2); [done..|simpl; lia|done|done|]. change (set_world w1 s1) with s1 in Hs2. rewrite Hs2. cbn [mbind option_bind].
  rewrite (op_driver _ _ _ _ _ _ Ho). cbn [mbind option_bind]. apply (keeps_trans s1 s2); [done|]. destruct (op_output_queues_config d) as [f|] eqn:Ef; [|by eapply keeps_same].
  eapply keeps_call; [done|]. apply (law_config k d f _ n (runs d e)); [apply Ho|by right|apply Ho|apply Hi2|apply Ho|lia].
Qed.

Lemma event_queue_ok ph s h n : inv ph s -> is_open h s -> keeps s (odp_pktin_event_queue h n s).
Proof.
  intros Hi Hop. destruct (open_opened ph s _ Hi Hop) as (e & k & d & Ho). unfold odp_pktin_event_queue. rewrite (op_entry _ _ _ _ _ _ Ho), (op_get _ _ _ _ _ _ Ho). cbn [mbind option_bind].
  case_bool_decide; [by eapply keeps_same|]. rewrite (op_driver _ _ _ _ _ _ Ho). cbn [mbind option_bind]. destruct (op_in_queues d) as [f|] eqn:Ef.
  - destruct (law_in_queues k d f (h - 1) n (runs d e) (world s) ph (held (entries s))) as ([[r qs] w] & -> & Hok); [apply Ho|done|apply Ho|apply Hi|apply Ho|]. cbn [mbind option_bind]. by eapply keeps_world.
  - unfold single_in_queues. destruct (n >? 0); [|by eapply keeps_same]. destruct (zget_Some (in_queue e) 0) as [[q p] ->]; [unfold zlen; rewrite (eo_in _ _ _ (op_ok _ _ _ _ _ _ Ho)); lia|].
    by eapply keeps_same.
Qed.

Lemma pktin_queue_ok ph s h n : inv ph s -> is_open h s -> keeps s (odp_pktin_queue h n s).
Proof.
  intros Hi Hop. destruct (open_opened ph s _ Hi Hop) as (e & k & d & Ho). unfold odp_pktin_queue. rewrite (op_entry _ _ _ _ _ _ Ho), (op_get _ _ _ _ _ _ Ho). cbn [mbind option_bind].
  case_bool_decide; [by eapply keeps_same|]. rewrite (op_driver _ _ _ _ _ _ Ho). cbn [mbind option_bind]. destruct (op_pktin_queues d) as [f|] eqn:Ef.
  - destruct (law_pkt_queues k d f (h - 1) n (runs d e) (world s) ph (held (entries s))) as ([[r qs] w] & -> & Hok); [apply Ho|by left|apply Ho|apply Hi|apply Ho|]. cbn [mbind option_bind]. by eapply keeps_world.
  - unfold single_pktin_queues. destruct (n >? 0); [|by eapply keeps_same]. destruct (zget_Some (in_queue e) 0) as [[q p] ->]; [unfold zlen; rewrite (eo_in _ _ _ (op_ok _ _ _ _ _ _ Ho)); lia|].
    by eapply keeps_same.
Qed.

Lemma pktout_queue_ok ph s h n : inv ph s -> is_open h s -> keeps s (odp_pktout_queue h n s).
Proof.
  intros Hi Hop. destruct (open_opened ph s _ Hi Hop) as (e & k & d & Ho). unfold odp_pktout_queue. rewrite (op_entry _ _ _ _ _ _ Ho), (op_get _ _ _ _ _ _ Ho). cbn [mbind option_bind].
  case_bool_decide; [by eapply keeps_same|]. rewrite (op_driver _ _ _ _ _ _ Ho). cbn [mbind option_bind]. destruct (op_pktout_queues d) as [f|] eqn:Ef.
  - destruct (law_pkt_queues k d f (h - 1) n (runs d e) (world s) ph (held (entries s))) as ([[r qs] w] & -> & Hok); [apply Ho|by right|apply Ho|apply Hi|apply Ho|]. cbn [mbind option_bind]. by eapply keeps_world.
  - unfold single_pktout_queues. destruct (n >? 0); [|by eapply keeps_same]. destruct (zget_Some (out_queue e) 0) as [q ->]; [unfold zlen; rewrite (eo_out _ _ _ (op_ok _ _ _ _ _ _ Ho)); lia|].
    by eapply keeps_same.
Qed.

(** A queue of the application that it may hand over. *)
Definition spare (q : Z) s : Prop := forall ph, ok (world s) ph (held (entries s)) -> ok (world s) ph (q :: held (entries s)).

Lemma put_default ph s h e k d q p n w : inv ph s -> opened ph s h e k d -> 0 <= n <= 64 -> ok w ph (held_queue (q, p) ++ held (entries s)) ->
  exists l s', zset (in_queue e) 0 (q, p) = Some l /\ put (h - 1) (set_num_in n (set_in_queue l e)) (set_world w s) = Some s' /\ inv ph s' /\ world s' = w /\
    (forall j, view s' j = view s j) /\ exists Q, held (entries s') ≡ₚ held_queue (q, p) ++ Q.
Proof.
  intros Hi Ho Hn Hok. pose proof (op_ok _ _ _ _ _ _ Ho) as [L1 L2 L3 _ _]. rewrite zset_Some by (unfold zlen; lia). eexists. rewrite (held_at _ _ _ (op_get _ _ _ _ _ _ Ho)) in Hok.
  assert (ok w ph (held_by (<[Z.to_nat 0 := (q, p)]> (in_queue e)) ++ held_else (h - 1) (entries s))) as Hok' by (apply ok_set; [unfold zlen; lia|done]).
  destruct (put_queues ph s h e k d (set_num_in n (set_in_queue (<[Z.to_nat 0 := (q, p)]> (in_queue e)) e)) w Hi Ho) as (s' & Hp & Hi' & Hw & Hv); [done..| |done|done|done|].
  { cbn [in_queue set_num_in set_in_queue]. by rewrite length_insert. }
  exists s'. split_and!; [done|exact Hp|done..|]. unfold put in Hp. cbn [entries set_world] in Hp. rewrite zset_Some in Hp by (eapply zget_bound, Ho). cbn [mbind option_bind] in Hp. injection Hp as <-.
  cbn [entries set_entries]. eexists. etrans; [apply held_put; eapply zget_bound, Ho|]. cbn [in_queue set_num_in set_in_queue]. unfold held_by at 1. rewrite (flat_insert held_queue) by lia. by rewrite <- app_assoc.
Qed.

Lemma setdef_ok ph s h q : inv ph s -> is_open h s -> spare q s -> keeps s (odp_pktio_inq_setdef h q s).
Proof.
  intros Hi Hop Hq. destruct (open_opened ph s _ Hi Hop) as (e & k & d & Ho). specialize (Hq ph (in_ok _ _ Hi)). unfold odp_pktio_inq_setdef. rewrite (op_entry _ _ _ _ _ _ Ho).
  change ODP_QUEUE_INVALID with 0. destruct (Z.eqb_spec q 0) as [E|E]; [by eapply keeps_same|]. destruct (law_queue_type q (world s) ph _ Hq) as [t ->]. cbn [mbind option_bind].
  case_bool_decide; [by eapply keeps_same|]. rewrite (op_get _ _ _ _ _ _ Ho). cbn [mbind option_bind]. case_bool_decide; [by eapply keeps_same|].
  assert (held_queue (q, PQ h 0) = [q]) as Hh by (unfold held_queue; cbn [fst]; change ODP_QUEUE_INVALID with 0; by rewrite (proj2 (Z.eqb_neq _ _) E)).
  destruct (put_default ph s h e k d q (PQ h 0) 1 (world s) Hi Ho) as (l & s1 & -> & Hp & Hi1 & Hw & Hv & Q & HQ); [lia|by rewrite Hh|]. cbn [mbind option_bind].
  replace s with (set_world (world s) s) by (by destruct s). rewrite Hp. cbn [mbind option_bind]. pose proof (in_ok _ _ Hi1) as Hok1. rewrite HQ, Hh in Hok1.
  destruct (law_queue_pktin q (PQ h 0) (world s1) ph Q Hok1) as (w2 & -> & Hok2). cbn [mbind option_bind]. apply (keeps_trans _ s1); [done|]. eapply keeps_world; [done|]. by rewrite HQ, Hh.
Qed.

Definition has_default (h : Z) s : Prop := forall e, zget (entries s) (h - 1) = Some e -> state e = STATE_STOP -> exists q p, zget (in_queue e) 0 = Some (q, p) /\ q <> 0.

Lemma remdef_ok ph s h : inv ph s -> is_open h s -> has_default h s -> keeps s (odp_pktio_inq_remdef h s).
Proof.
  intros Hi Hop Hq. destruct (open_opened ph s _ Hi Hop) as (e & k & d & Ho). unfold odp_pktio_inq_remdef. rewrite (op_entry _ _ _ _ _ _ Ho), (op_get _ _ _ _ _ _ Ho). cbn [mbind option_bind].
  case_bool_decide as Es; [by eapply keeps_same|]. destruct (Hq e (op_get _ _ _ _ _ _ Ho) Es) as (q & p & Hg & Hqn). rewrite Hg. cbn [mbind option_bind].
  pose proof (in_ok _ _ Hi) as Hok. rewrite (held_at _ _ _ (op_get _ _ _ _ _ _ Ho)), (held_at_queue _ _ _ _ Hg Hqn) in Hok.
  destruct (law_queue_pktin q PKTIN_INVALID (world s) ph _ Hok) as (w1 & -> & Hok1). cbn [mbind option_bind].
  assert (ok w1 ph (held (entries s))) as Hok2 by (by rewrite (held_at _ _ _ (op_get _ _ _ _ _ _ Ho)), (held_at_queue _ _ _ _ Hg Hqn)).
  destruct (put_default ph s h e k d ODP_QUEUE_INVALID (PQ ODP_PKTIO_INVALID 0) 0 w1 Hi Ho) as (l & s1 & -> & Hp & Hi1 & Hw & Hv & _); [lia|done|]. cbn [mbind option_bind]. rewrite Hp. cbn [mbind option_bind].
  apply (keeps_trans _ s1); [done|by eapply keeps_same].
Qed.

(** ** Attributes *)

Lemma on_open_ok ph s h (f : pktio_if_ops_t W -> Z -> pktio_entry -> W -> option (Z * W)) : inv ph s -> 1 <= h <= 64 ->
  (forall e k d, opened ph s h e k d -> returns (f d (h - 1) e (world s)) (fun '(_, w) => ok w ph (held (entries s)))) -> keeps s (on_open h f s).
Proof.
  intros Hi Hh Hf. unfold on_open. rewrite handle_entry by done. destruct (zget_Some (entries s) (h - 1)) as [e He]; [unfold zlen; rewrite (in_len _ _ Hi); lia|]. rewrite He. cbn [mbind option_bind].
  unfold is_free. destruct (taken e) eqn:Et; cbn [negb]; [|by eapply keeps_same]. assert (is_open h s) as Hop by (split; eauto). destruct (open_opened ph s _ Hi Hop) as (e' & k & d & Ho).
  assert (e' = e) as -> by (pose proof (op_get _ _ _ _ _ _ Ho); congruence). rewrite (op_driver _ _ _ _ _ _ Ho). cbn [mbind option_bind]. eapply keeps_call; [done|]. by eapply Hf.
Qed.

Lemma query_ok ph s h e k d f : inv ph s -> opened ph s h e k d ->
  (f = op_mtu_get d \/ f = op_promisc_mode_get d \/ f = op_mac_get d \/ op_link_status d = Some f \/ op_stats d = Some f \/ op_stats_reset d = Some f \/
   exists b, f = fun i => op_promisc_mode_set d i b) -> returns (f (h - 1) (world s)) (fun '(_, w) => ok w ph (held (entries s))).
Proof. intros Hi Ho Hf. eapply (law_query k d); [apply Ho|apply Ho|apply Hi|apply Ho|done]. Qed.

Lemma world_returns ph s (r : Z) : inv ph s -> returns (Some (r, world s)) (fun '(_, w) => ok w ph (held (entries s))).
Proof. intros Hi. eexists. split; [done|]. apply Hi. Qed.

Lemma attrs_ok ph s h : inv ph s -> 1 <= h <= 64 ->
  keeps s (odp_pktio_mtu h s) /\ (forall b, keeps s (odp_pktio_promisc_mode_set h b s)) /\ keeps s (odp_pktio_promisc_mode h s) /\ (forall n, keeps s (odp_pktio_mac_addr h n s)) /\
  keeps s (odp_pktio_link_status h s) /\ keeps s (odp_pktio_stats h s) /\ keeps s (odp_pktio_stats_reset h s).
Proof.
  intros Hi Hh. split_and!.
  - eapply on_open_ok; [done..|]. intros e k d Ho. eapply query_ok; [done..|]. by left.
  - intros b. eapply on_open_ok; [done..|]. intros e k d Ho. case_bool_decide; [by apply world_returns|]. apply (query_ok ph s h e k d (fun i => op_promisc_mode_set d i b) Hi Ho). do 6 right. by exists b.
  - eapply on_open_ok; [done..|]. intros e k d Ho. eapply query_ok; [done..|]. by right; left.
  - intros n. unfold odp_pktio_mac_addr. destruct (n <? ETH_ALEN); [by eapply keeps_same|]. eapply on_open_ok; [done..|]. intros e k d Ho. eapply query_ok; [done..|]. by do 2 right; left.
  - eapply on_open_ok; [done..|]. intros e k d Ho. unfold call_opt. destruct (op_link_status d) eqn:E; [|by apply world_returns]. eapply query_ok; [done..|]. by do 3 right; left.
  - eapply on_open_ok; [done..|]. intros e k d Ho. unfold call_opt. destruct (op_stats d) eqn:E; [|by apply world_returns]. eapply query_ok; [done..|]. by do 4 right; left.
  - eapply on_open_ok; [done..|]. intros e k d Ho. destruct (op_stats d) eqn:E; [|by apply world_returns]. destruct (law_stats_reset k d (op_tbl _ _ _ _ _ _ Ho)) as [f Hf]; [by eexists|].
    rewrite Hf. cbn [mbind option_bind]. eapply query_ok; [done..|]. by do 5 right; left.
Qed.

(** ** Start-up *)

Definition all_closed : Z -> phase := fun _ => Closed.

Lemma init_entries_ok n : forall k pre w, ok w all_closed [] -> Forall (fun e => exists q, e = set_outq q zero_entry) pre ->
  returns (init_entries n k pre w) (fun '(r, w') => ok w' all_closed [] /\ forall l, r = Some l -> length l = (length pre + n)%nat /\ Forall (fun e => exists q, e = set_outq q zero_entry) l).
Proof.
  induction n as [|n IH]; intros k pre w Hok Hp; cbn [init_entries].
  - eexists. split; [done|]. split; [done|]. intros l [= <-]. split; [lia|done].
  - match goal with |- context [w_queue_create ?x ?t w] => destruct (law_queue_create x t w _ _ Hok) as ([q w'] & -> & Hq) end. cbn [mbind option_bind]. change ODP_QUEUE_INVALID with 0.
    destruct (q =? 0); [by eexists|]. destruct (law_queue_pktout q k w' _ _ Hq) as (w2 & -> & Hok2). cbn [mbind option_bind].
    destruct (IH (k + 1) (pre ++ [set_outq q zero_entry]) w2) as ([r w3] & -> & Hok3 & Hr); [by eapply ok_drop|apply Forall_app; split; [done|]; repeat constructor; by eexists|].
    eexists. split; [done|]. split; [done|]. intros l Hl. destruct (Hr l Hl) as [E ?]. rewrite length_app in E. simpl in E. split; [lia|done].
Qed.

Lemma init_drivers_ok ds : forall w, ok w all_closed [] -> (forall d, d ∈ ds -> d ∈ pktio_if_ops) -> returns (init_drivers ds w) (fun w' => ok w' all_closed []).
Proof.
  induction ds as [|d ds IH]; intros w Hok Hds; cbn [init_drivers]; [by exists w|]. assert (forall d', d' ∈ ds -> d' ∈ pktio_if_ops) as Hds' by set_solver. destruct (op_init d) as [f|] eqn:Ef; [|by apply IH].
  destruct (proj1 (list_elem_of_lookup _ _) (Hds d ltac:(set_solver))) as [k Hk]. destruct (law_init k d f w _ _ Hk Ef Hok) as ([r w'] & -> & Hok'). cbn [mbind option_bind]. by apply IH.
Qed.

Lemma pktio_init_inv w : ok w all_closed [] -> returns (odp_pktio_init_global true w) (fun '(r, _) => forall s, r = Some s -> inv all_closed s /\ forall h, view s h = None).
Proof.
  intros Hok. unfold odp_pktio_init_global. cbn [negb]. destruct (init_entries_ok 64 1 [] w Hok ltac:(constructor)) as ([r w1] & -> & Hok1 & Hr). cbn [mbind option_bind].
  destruct r as [l|]; [|by eexists]. destruct (Hr l eq_refl) as [Hl Hz]. destruct (init_drivers_ok pktio_if_ops w1 Hok1 ltac:(done)) as (w2 & -> & Hok2). cbn [mbind option_bind]. eexists. split; [done|].
  intros s [= <-]. rewrite Forall_forall in Hz.
  assert (forall i e, zget l i = Some e -> exists q, e = set_outq q zero_entry) as Hget.
  { intros i e He. pose proof (zget_bound _ _ _ He). rewrite zget_nonneg in He by lia. apply Hz. by eapply list_elem_of_lookup_2. }
  split; [split; cbn [entries world]|].
  - done.
  - assert (held l = []) as ->; [|done]. apply flat_nil. intros e He. destruct (Hz e He) as [q ->]. apply flat_nil. intros x Hx. apply elem_of_replicate in Hx as [-> _]. done.
  - intros i e He. destruct (Hget i e He) as [q ->]. by split.
  - intros i j e e' He _ _ Ht. destruct (Hget i e He) as [q ->]. done.
  - intros h. unfold view. cbn [entries]. destruct (zget l (h - 1)) as [e|] eqn:E; [|done]. destruct (Hget _ e E) as [q ->]. done.
Qed.

(** ** Histories *)

Inductive op :=
  | Open (dev : string) (pool : Z) (par : odp_pktio_param_t) | Close (h : Z) | Start (h : Z) | Stop (h : Z) | Recv (h len : Z) | Send (h : Z) (pkts : list Z)
  | RecvQueue (q : pktio_queue_t) (n : Z) | SendQueue (q : pktio_queue_t) (pkts : list Z) | InConfig (g : odp_pktio_capability_t) (h : Z) (par : option Z)
  | OutConfig (g : odp_pktio_capability_t) (h : Z) (par : option Z) | Capability (h : Z) | EventQueues (h n : Z) | PktinQueues (h n : Z) | PktoutQueues (h n : Z)
  | SetDefault (h q : Z) | RemDefault (h : Z) | Mtu (h : Z) | PromiscSet (h : Z) (enable : bool) | Promisc (h : Z) | MacAddr (h n : Z) | LinkStatus (h : Z)
  | Stats (h : Z) | StatsReset (h : Z).

Definition ret3 {A} (x : option (Z * A * pktio_sys W)) : option (Z * pktio_sys W) := '(r, _, s) ← x; Some (r, s).

Definition call (o : op) s : option (Z * pktio_sys W) :=
  match o with
  | Open dev pool par => odp_pktio_open dev pool par s
  | Close h => odp_pktio_close h s
  | Start h => odp_pktio_start h s
  | Stop h => odp_pktio_stop h s
  | Recv h len => ret3 (odp_pktio_recv h len s)
  | Send h pkts => odp_pktio_send h pkts s
  | RecvQueue q n => ret3 (odp_pktio_recv_queue q n s)
  | SendQueue q pkts => odp_pktio_send_queue q pkts s
  | InConfig g h par => odp_pktin_queue_config g h par s
  | OutConfig g h par => odp_pktout_queue_config g h par s
  | Capability h => ret3 (odp_pktio_capability h s)
  | EventQueues h n => ret3 (odp_pktin_event_queue h n s)
  | PktinQueues h n => ret3 (odp_pktin_queue h n s)
  | PktoutQueues h n => ret3 (odp_pktout_queue h n s)
  | SetDefault h q => odp_pktio_inq_setdef h q s
  | RemDefault h => odp_pktio_inq_remdef h s
  | Mtu h => odp_pktio_mtu h s
  | PromiscSet h b => odp_pktio_promisc_mode_set h b s
  | Promisc h => odp_pktio_promisc_mode h s
  | MacAddr h n => odp_pktio_mac_addr h n s
  | LinkStatus h => odp_pktio_link_status h s
  | Stats h => odp_pktio_stats h s
  | StatsReset h => odp_pktio_stats_reset h s
  end.

(** The calls the interface of the library allows: on open interfaces, with packets
    of the application, as many at once as the driver takes; an interface may be
    closed when its driver lets go of it; it may be started in scheduled mode when
    the scheduler has a command for each input queue; the functions of a driver for
    single queues are used on started interfaces.  Attributes may also be asked of
    an interface that is not open. *)
Definition legal (o : op) s : Prop :=
  match o with
  | Open _ pool _ => w_pool_is_packet pool (world s) = true
  | Close h => 1 <= h <= 64 /\ (is_open h s -> closable (world s) (h - 1))
  | Start h => is_open h s /\ can_poll h s
  | Stop h | Capability h | EventQueues h _ | PktinQueues h _ | PktoutQueues h _ => is_open h s
  | Recv h n => is_open h s /\ burst_ok h n s
  | Send h pkts => is_open h s /\ burst_ok h (zlen pkts) s /\ Forall (pkt_ok (world s)) pkts
  | RecvQueue q n => is_open (q_pktio q) s /\ queue_ready (q_pktio q) op_recv_queue s /\ burst_ok (q_pktio q) n s
  | SendQueue q pkts => is_open (q_pktio q) s /\ queue_ready (q_pktio q) op_send_queue s /\ burst_ok (q_pktio q) (zlen pkts) s /\ Forall (pkt_ok (world s)) pkts
  | InConfig _ h par | OutConfig _ h par => is_open h s /\ forall n, par = Some n -> 0 <= n
  | SetDefault h q => is_open h s /\ spare q s
  | RemDefault h => is_open h s /\ has_default h s
  | Mtu h | PromiscSet h _ | Promisc h | MacAddr h _ | LinkStatus h | Stats h | StatsReset h => 1 <= h <= 64
  end.

Inductive reach : pktio_sys W -> Prop :=
  | reach_start w0 w s : ok w0 all_closed [] -> odp_pktio_init_global true w0 = Some (Some s, w) -> reach s
  | reach_call s o r s' : reach s -> legal o s -> call o s = Some (r, s') -> reach s'.

Lemma keeps_ret3 {A} s (x : option (Z * A * pktio_sys W)) : keeps s x -> keeps s (ret3 x).
Proof. intros ([[r a] s'] & -> & Hk). by exists (r, s'). Qed.

Lemma capability_keeps ph s h : inv ph s -> is_open h s -> keeps s (odp_pktio_capability h s).
Proof. intros Hi Hop. destruct (capability_ok ph s h Hi Hop) as ([[r c] s'] & -> & w & -> & Hok & _). by eapply keeps_world. Qed.

Definition opens_closes (o : op) : bool := match o with Open _ _ _ | Close _ => true | _ => false end.

Lemma others_ok ph s o : inv ph s -> legal o s -> opens_closes o = false -> keeps s (call o s).
Proof.
  intros Hi Hl Ho. destruct o; try done; cbn [call legal] in *.
  - destruct Hl. by eapply start_ok.
  - by eapply stop_ok.
  - destruct Hl. by eapply keeps_ret3, recv_ok.
  - destruct Hl as (? & ? & ?). by eapply send_ok.
  - destruct Hl as (? & ? & ?). by eapply keeps_ret3, recv_queue_ok.
  - destruct Hl as (? & ? & ? & ?). by eapply send_queue_ok.
  - destruct Hl. by eapply in_config_ok.
  - destruct Hl. by eapply out_config_ok.
  - by eapply keeps_ret3, capability_keeps.
  - by eapply keeps_ret3, event_queue_ok.
  - by eapply keeps_ret3, pktin_queue_ok.
  - by eapply keeps_ret3, pktout_queue_ok.
  - destruct Hl. by eapply setdef_ok.
  - destruct Hl. by eapply remdef_ok.
  - by eapply (attrs_ok ph).
  - by eapply (attrs_ok ph).
  - by eapply (attrs_ok ph).
  - by eapply (attrs_ok ph).
  - by eapply (attrs_ok ph).
  - by eapply (attrs_ok ph).
  - by eapply (attrs_ok ph).
Qed.

Lemma call_inv ph s o : inv ph s -> legal o s -> returns (call o s) (fun '(_, s') => exists ph', inv ph' s').
Proof.
  intros Hi Hl. destruct (opens_closes o) eqn:E.
  - destruct o; try done; cbn [call legal] in *.
    + destruct (open_ok ph s dev pool par Hi Hl) as ([h s'] & -> & Hi' & _). by exists (h, s').
    + destruct Hl as [Hh Hc]. destruct (close_ok ph s h Hi Hh Hc) as ([r s'] & -> & _ & Hi' & _). by exists (r, s').
  - destruct (others_ok ph s o Hi Hl E) as ([r s'] & -> & Hi' & _). by exists (r, s').
Qed.

Lemma pktio_reach_inv s : reach s -> exists ph, inv ph s.
Proof.
  induction 1 as [w0 w s Hok Hs|s o r s' _ [ph Hi] Hl Hc].
  - destruct (pktio_init_inv w0 Hok) as ([r w'] & Hr & Hinv). rewrite Hs in Hr. assert (r = Some s) as -> by congruence. exists all_closed. by apply Hinv.
  - destruct (call_inv ph s o Hi Hl) as ([r2 s2] & Hc2 & Hi2). rewrite Hc in Hc2. assert (s2 = s') as -> by congruence. done.
Qed.

(** ** The open interfaces as a map *)

(** A map from the names of the open interfaces to their handles. *)
Definition represents s (m : gmap string Z) : Prop := forall dev h, m !! dev = Some h <-> view s h = Some dev.

Inductive spec_step (m : gmap string Z) : op -> Z -> gmap string Z -> Prop :=
  | spec_open dev pool par h : m !! dev = None -> 1 <= h <= 64 -> (forall dev', m !! dev' <> Some h) -> (String.length dev < 255)%nat ->
      spec_step m (Open dev pool par) h (<[dev := h]> m)
  | spec_refuse dev pool par : spec_step m (Open dev pool par) 0 m
  | spec_close h : spec_step m (Close h) 0 (filter (fun '(_, h') => h' <> h) m)
  | spec_other o r : opens_closes o = false -> spec_step m o r m.

Lemma represents_same s s' m : (forall j, view s' j = view s j) -> represents s m -> represents s' m.
Proof. intros Hv Hr dev h. by rewrite Hv. Qed.

Lemma represents_open s s' m dev h : (forall j, view s' j = if bool_decide (j = h) then Some dev else view s j) -> view s h = None -> odp_pktio_lookup dev s = 0 -> represents s m ->
  m !! dev = None /\ (forall dev', m !! dev' <> Some h) /\ represents s' (<[dev := h]> m).
Proof.
  intros Hv Hn Hlk Hr. assert (m !! dev = None) as Hm.
  { destruct (m !! dev) as [h'|] eqn:E; [|done]. apply Hr in E. by apply (proj1 (lookup_none s dev) Hlk) in E. }
  split_and!; [done| |].
  - intros dev' E. apply Hr in E. congruence.
  - intros dev' h'. rewrite Hv, lookup_insert_Some. case_bool_decide as E.
    + subst h'. split; [|intros [= ->]; by left]. intros [[-> _]|[_ E]]; [done|]. apply Hr in E. congruence.
    + rewrite <- (Hr dev' h'). split; [|intros E'; right; split; [congruence|done]]. intros [[_ E']|[_ E']]; congruence.
Qed.

Lemma represents_close s s' m h : (forall j, view s' j = if bool_decide (j = h) then None else view s j) -> represents s m -> represents s' (filter (fun '(_, h') => h' <> h) m).
Proof.
  intros Hv Hr dev h'. rewrite Hv, map_lookup_filter_Some, (Hr dev h'). case_bool_decide; naive_solver.
Qed.

Lemma lookup_represents ph s m dev : inv ph s -> represents s m -> odp_pktio_lookup dev s = default 0 (m !! dev).
Proof.
  intros Hi Hr. destruct (m !! dev) as [h|] eqn:E; simpl.
  - apply Hr in E. by eapply lookup_view.
  - apply lookup_none. intros h Hv. apply Hr in Hv. congruence.
Qed.

End laws.


End PktIoProofs.
