(* ===== verification/PktLoop.v ===== *)
(** The loop interface, platform/linux-generic/pktio/loop.c: packets sent on it are
    received from it.  Its functions are the first driver of the table of
    pktio/io_ops.c; the drivers behind it are a parameter.  The laws of a driver
    (PktIoProofs) are proved of it, from the laws of queues and packets. *)

From stdpp Require Import pretty.
From S2P Require Import Prelude Pool PoolProofs PoolCreate Buffer Packet Parse Classify PktIo PktIoProofs.

Open Scope Z_scope.
Open Scope c_scope.

Module PktLoop.
Import PktIo PktIoProofs.

(** ** Data *)

(** The fields of an entry the driver keeps: [pkt_loop] and [stats]. *)
Record loop_port := Port { loopq : Z; promisc : bool; rx_stats : Classify.loop_stats; out_octets : Z; out_ucast_pkts : Z }.
Definition zero_port : loop_port := Port 0 false (Classify.LS 0 0) 0 0.

(** The ports by entry, the tables of classification, and queues and packets. *)
Record loopw (V : Type) := LW { ports : list loop_port; classes : Classify.cls_state; base : V }.
Arguments LW {V}.
Arguments ports {V}.
Arguments classes {V}.
Arguments base {V}.

(** Queues, pools, the scheduler, and the drivers behind this one. *)
Class LoopWorld (V : Type) `{Classify.PacketWorld V} := {
  v_queue_create : string -> odp_queue_type_t -> V -> option (Z * V);
  v_queue_destroy : Z -> V -> option (Z * V);
  v_queue_type : Z -> V -> option odp_queue_type_t;
  v_queue_set_pktin : Z -> pktio_queue_t -> V -> option V;
  v_queue_set_pktin_hooks : Z -> V -> option V;
  v_queue_set_pktout : Z -> Z -> V -> option V;
  v_queue_enq_multi : Z -> list Z -> V -> option (Z * V);
  v_pool_is_packet : Z -> V -> bool;
  v_schedule_pktio_start : Z -> Z -> V -> option V;
  other_drivers : list (pktio_if_ops_t (loopw V))
}.

Section loop.
Context {V : Type} `{LoopWorld V}.
Implicit Types (w : loopw V) (v : V).

Definition set_base v w : loopw V := LW (ports w) (classes w) v.
Definition set_port (i : Z) (p : loop_port) w : option (loopw V) := l ← zset (ports w) i p; Some (LW l (classes w) (base w)).

(** ** The driver *)

Definition loopback_stats_reset (i : Z) w : option (Z * loopw V) :=
  p ← zget (ports w) i; w ← set_port i (Port (loopq p) (promisc p) (Classify.LS 0 0) 0 0) w; Some (0, w).

Definition loopback_open (i : Z) (devname : string) (pool : Z) w : option (Z * loopw V) :=
  if negb (devname =? "loop")%string then Some (-1, w)
  else
    '(q, v) ← v_queue_create (pretty (i + 1) +:+ "-pktio_loopq") ODP_QUEUE_TYPE_PLAIN (base w);
    p ← zget (ports w) i;
    w ← set_port i (Port q (promisc p) (rx_stats p) (out_octets p) (out_ucast_pkts p)) (set_base v w);
    if q =? ODP_QUEUE_INVALID then Some (-1, w)
    else '(_, w) ← loopback_stats_reset i w; Some (0, w).

Definition loopback_close (i : Z) w : option (Z * loopw V) :=
  p ← zget (ports w) i; '(ret, v) ← v_queue_destroy (loopq p) (base w); Some (ret, set_base v w).

(** [Classify.loopback_recv] on the fields of the port; the array of the caller has
    room for [len] packets. *)
Definition port_recv (i len : Z) w : option (Z * list Z * loopw V) :=
  p ← zget (ports w) i;
  '(nbr, pkts, st, cs, v) ← Classify.loopback_recv i (loopq p) len (replicate (Z.to_nat len) 0) (rx_stats p) (classes w) (base w);
  l ← zset (ports w) i (Port (loopq p) (promisc p) st (out_octets p) (out_ucast_pkts p));
  Some (nbr, pkts, LW l cs v).

(** The headers of the packets from number [k] on go into [hdr_tbl]; their lengths
    are added up. *)
Fixpoint send_headers (k : Z) (pkts : list Z) (bytes : Z) v : option Z :=
  match pkts with
  | [] => Some bytes
  | pkt :: pkts =>
      if k >=? Classify.QUEUE_MULTI_MAX then None
      else len ← Classify.packet_length pkt v; send_headers (k + 1) pkts (bytes +u32 len) v
  end.
Definition loopback_send (i : Z) (pkt_tbl : list Z) w : option (Z * loopw V) :=
  bytes ← send_headers 0 pkt_tbl 0 (base w);
  p ← zget (ports w) i;
  '(ret, v) ← v_queue_enq_multi (loopq p) pkt_tbl (base w);
  let w := set_base v w in
  if ret >? 0 then
    w ← set_port i (Port (loopq p) (promisc p) (rx_stats p) (out_octets p +u64 bytes) (out_ucast_pkts p +u64 ret)) w;
    Some (ret, w)
  else Some (ret, w).

Definition loopback_mtu_get (i : Z) w : option (Z * loopw V) := Some (INT_MAX, w).
Definition loopback_mac_addr_get (i : Z) w : option (Z * loopw V) := Some (ETH_ALEN, w).
Definition loopback_promisc_mode_set (i : Z) (enable : bool) w : option (Z * loopw V) :=
  p ← zget (ports w) i; w ← set_port i (Port (loopq p) enable (rx_stats p) (out_octets p) (out_ucast_pkts p)) w; Some (0, w).
Definition loopback_promisc_mode_get (i : Z) w : option (Z * loopw V) := p ← zget (ports w) i; Some (if promisc p then 1 else 0, w).
(** The statistics that are copied out, and the result. *)
Definition loopback_stats (i : Z) w : option (Z * loop_port * loopw V) := p ← zget (ports w) i; Some (0, p, w).

Definition loopback_pktio_ops : pktio_if_ops_t (loopw V) := {|
  op_init := None;
  op_term := None;
  op_open := loopback_open;
  op_close := loopback_close;
  op_start := None;
  op_stop := None;
  op_stats := Some (fun i w => '(r, _, w) ← loopback_stats i w; Some (r, w));
  op_stats_reset := Some loopback_stats_reset;
  op_recv := port_recv;
  op_send := loopback_send;
  op_mtu_get := loopback_mtu_get;
  op_promisc_mode_set := loopback_promisc_mode_set;
  op_promisc_mode_get := loopback_promisc_mode_get;
  op_mac_get := loopback_mac_addr_get;
  op_link_status := None;
  op_capability := None;
  op_input_queues_config := None;
  op_output_queues_config := None;
  op_in_queues := None;
  op_pktin_queues := None;
  op_pktout_queues := None;
  op_recv_queue := None;
  op_send_queue := None
|}.

(** The table of drivers. *)
Definition loop_drivers : list (pktio_if_ops_t (loopw V)) := loopback_pktio_ops :: other_drivers.

Definition on_base {A} (x : option (A * V)) w : option (A * loopw V) := '(a, v) ← x; Some (a, set_base v w).
Definition on_base_only (x : option V) w : option (loopw V) := v ← x; Some (set_base v w).

#[export] Instance loop_pktio_world : PktioWorld (loopw V) := {|
  pktio_if_ops := loop_drivers;
  w_queue_create name t w := on_base (v_queue_create name t (base w)) w;
  w_queue_destroy q w := on_base (v_queue_destroy q (base w)) w;
  w_queue_type q w := v_queue_type q (base w);
  w_queue_set_pktin q p w := on_base_only (v_queue_set_pktin q p (base w)) w;
  w_queue_set_pktin_hooks q w := on_base_only (v_queue_set_pktin_hooks q (base w)) w;
  w_queue_set_pktout q h w := on_base_only (v_queue_set_pktout q h (base w)) w;
  w_packet_set_input p h w := '(_, hdr) ← Classify.w_hdr p (base w); Some (set_base (Classify.w_put_hdr p (Packet.set_input h hdr) (base w)) w);
  w_pool_is_packet pool w := v_pool_is_packet pool (base w);
  w_schedule_pktio_start h k w := on_base_only (v_schedule_pktio_start h k (base w)) w
|}.

End loop.

End PktLoop.
