(* ===== verification/PktLoopProofs.v ===== *)
(** The loop interface (PktLoop) keeps the contract of drivers, given the laws of
    queues and packets; what is sent on it is received from it in order. *)

From S2P Require Import Prelude Pool PoolProofs PoolCreate Buffer Packet Parse Classify PktIo PktIoProofs PktLoop.

Open Scope Z_scope.
Open Scope c_scope.

Module PktLoopProofs.
Import PktIo PktIoProofs PktLoop.

Lemma zlen_nat {A} (l : list A) : Z.to_nat (zlen l) = length l.
Proof. unfold zlen. lia. Qed.

(** ** Queues and packets *)

Definition has_hdr {V} `{Classify.PacketWorld V} (v : V) (p : Z) : Prop := is_Some (Classify.w_hdr p v).

(** [live]: the queues there are; [items]: what is on a queue; [cmds]: the commands
    the scheduler has left.  The drivers behind this one in the table take no device:
    there are no ports for them. *)
Class LoopLaws (V : Type) `{LoopWorld V} := {
  live : V -> gset Z;
  items : V -> Z -> list Z;
  cmds : V -> nat;
  ll_others_open d i dev pool w : d ∈ other_drivers -> returns (op_open d i dev pool w) (fun '(r, w') => r <> 0 /\ w' = w);
  ll_others_init d f w : d ∈ other_drivers -> op_init d = Some f -> returns (f w) (fun '(_, w') => w' = w);
  ll_others_shape d : d ∈ other_drivers -> (is_Some (op_start d) <-> is_Some (op_stop d)) /\ (is_Some (op_stats d) -> is_Some (op_stats_reset d));
  ll_zero v : 0 ∉ live v;
  ll_create name t v : returns (v_queue_create name t v) (fun '(q, v') =>
    (if q =? 0 then (live v' = live v) else (q ∉ live v) /\ live v' = {[q]} ∪ live v /\ items v' q = []) /\
    (forall q', q' ∈ live v -> items v' q' = items v q') /\ forall p, has_hdr v p -> has_hdr v' p);
  ll_destroy q v : q ∈ live v -> returns (v_queue_destroy q v) (fun '(r, v') =>
    live v' = (if r =? 0 then live v ∖ {[q]} else live v) /\ (items v q = [] -> r = 0) /\
    (forall q', q' ∈ live v' -> items v' q' = items v q') /\ forall p, has_hdr v p -> has_hdr v' p);
  ll_enq q pkts v : q ∈ live v -> returns (v_queue_enq_multi q pkts v) (fun '(r, v') =>
    r = zlen pkts /\ live v' = live v /\ items v' q = items v q ++ pkts /\
    (forall q', q' ∈ live v -> q' <> q -> items v' q' = items v q') /\ forall p, has_hdr v p -> has_hdr v' p);
  ll_deq q n v : q ∈ live v -> 0 <= n -> returns (Classify.w_queue_deq_multi q n v) (fun '(l, v') =>
    l = take (Z.to_nat n) (items v q) /\ live v' = live v /\ items v' q = drop (Z.to_nat n) (items v q) /\
    (forall q', q' ∈ live v -> q' <> q -> items v' q' = items v q') /\ forall p, has_hdr v p -> has_hdr v' p);
  same v v' : Prop := live v' = live v /\ (forall q, q ∈ live v -> items v' q = items v q) /\ forall p, has_hdr v p -> has_hdr v' p;
  ll_put p h v : has_hdr v p -> same v (Classify.w_put_hdr p h v);
  ll_type q v : q ∈ live v -> is_Some (v_queue_type q v);
  ll_pktin q p v : q ∈ live v -> returns (v_queue_set_pktin q p v) (same v);
  ll_hooks q v : q ∈ live v -> returns (v_queue_set_pktin_hooks q v) (same v);
  ll_pktout q h v : q ∈ live v -> returns (v_queue_set_pktout q h v) (same v);
  ll_poll h k v : (0 < cmds v)%nat -> returns (v_schedule_pktio_start h k v) (fun v' => same v v' /\ (cmds v <= S (cmds v'))%nat)
}.

Section laws.
Context {V : Type} `{LoopLaws V}.
Implicit Types (w : loopw V) (v : V) (ph : Z -> phase).

#[export] Instance same_preorder : PreOrder (same (V := V)).
Proof.
  split; [by intros v|]. intros v1 v2 v3 (L1 & I1 & X1) (L2 & I2 & X2). split_and!; [congruence| |eauto].
  intros q Hq. rewrite I2, I1 by (by rewrite ?L1). done.
Qed.

(** ** The state of the driver *)

Definition queues_of w : list Z := loopq <$> ports w.

Record loop_ok w ph (Q : list Z) : Prop := {
  lo_len : length (ports w) = 64%nat;
  lo_cls i : 0 <= i < 64 -> exists e, zget (Classify.pktio_tbl (classes w)) i = Some e /\ Classify.pktio_cls_enabled e 0 = false;
  lo_nodup : NoDup Q;
  lo_live q : q ∈ Q -> q ∈ live (base w);
  lo_port i k run : 0 <= i < 64 -> ph i = Opened k run -> (k = 0%nat /\ run = false) /\ exists q, zget (queues_of w) i = Some q /\ q ∈ live (base w) /\ (q ∉ Q) /\ Forall (has_hdr (base w)) (items (base w) q);
  lo_apart i j q : ph i <> Closed -> ph j <> Closed -> zget (queues_of w) i = Some q -> zget (queues_of w) j = Some q -> i = j
}.

(** Queues come and go, but not those of open ports and of [Q]. *)
Lemma loop_ok_frame w w' ph Q Q' : loop_ok w ph Q -> classes w' = classes w -> queues_of w' = queues_of w -> NoDup Q' -> (forall q, q ∈ Q' -> q ∈ live (base w')) ->
  (forall i k run q, ph i = Opened k run -> zget (queues_of w) i = Some q -> q ∈ live (base w) -> q ∉ Q -> Forall (has_hdr (base w)) (items (base w) q) ->
    q ∈ live (base w') /\ (q ∉ Q') /\ Forall (has_hdr (base w')) (items (base w') q)) -> loop_ok w' ph Q'.
Proof.
  intros [K1 K2 K3 K4 K5 K6] Ec Eq Hn Hq Hp. split; rewrite ?Ec, ?Eq; [|done|done|done| |done].
  - assert (length (queues_of w') = length (queues_of w)) as E by (by rewrite Eq). unfold queues_of in E. rewrite !length_fmap in E. congruence.
  - intros i k run Hi Ho. destruct (K5 i k run Hi Ho) as (Hr & q & Hg & Hl & HQ & Hh). split; [done|]. exists q. split; [done|]. eauto.
Qed.

Lemma loop_ok_same w w' ph Q : loop_ok w ph Q -> classes w' = classes w -> queues_of w' = queues_of w -> same (base w) (base w') -> loop_ok w' ph Q.
Proof.
  intros Hok Ec Eq (L & I & Hh). eapply loop_ok_frame; [done..|apply Hok| |].
  - intros q Hq. rewrite L. by eapply lo_live.
  - intros i k run q _ _ Hl HQ Hf. rewrite L, I by done. split_and!; [done..|]. by eapply Forall_impl.
Qed.

Lemma queues_set l i p p' l' : zget l i = Some p -> loopq p' = loopq p -> zset l i p' = Some l' -> loopq <$> l' = loopq <$> l.
Proof.
  intros Hg Eq Hz. apply zset_inv in Hz as [Hb ->]. rewrite list_fmap_insert, Eq. apply list_insert_id. rewrite zget_nonneg in Hg by lia. by rewrite list_lookup_fmap, Hg.
Qed.
Lemma queues_get w i q : zget (queues_of w) i = Some q -> exists p, zget (ports w) i = Some p /\ loopq p = q.
Proof.
  intros Hg. pose proof (zget_bound _ _ _ Hg). rewrite zget_nonneg in Hg by lia. unfold queues_of in Hg. rewrite list_lookup_fmap in Hg. destruct (ports w !! Z.to_nat i) as [p|] eqn:E; [|done].
  exists p. rewrite zget_nonneg by lia. split; [done|]. by injection Hg.
Qed.
Lemma get_queues w i p : zget (ports w) i = Some p -> zget (queues_of w) i = Some (loopq p).
Proof. intros Hg. pose proof (zget_bound _ _ _ Hg). rewrite zget_nonneg in Hg by lia. rewrite zget_nonneg by lia. unfold queues_of. by rewrite list_lookup_fmap, Hg. Qed.

Lemma port_get w ph Q i : loop_ok w ph Q -> 0 <= i < 64 -> exists p, zget (ports w) i = Some p.
Proof. intros Hok Hi. apply zget_Some. unfold zlen. rewrite (lo_len _ _ _ Hok). lia. Qed.

(** A port whose queue stays is written. *)
Lemma set_port_ok w ph Q i p p' : loop_ok w ph Q -> zget (ports w) i = Some p -> loopq p' = loopq p -> exists w', set_port i p' w = Some w' /\ loop_ok w' ph Q /\ base w' = base w /\ queues_of w' = queues_of w.
Proof.
  intros Hok Hg Eq. unfold set_port. rewrite zset_Some by (by eapply zget_bound). cbn [mbind option_bind]. eexists. split; [done|].
  assert (queues_of (LW (<[Z.to_nat i := p']> (ports w)) (classes w) (base w)) = queues_of w) as E.
  { eapply queues_set; [done|done|]. apply zset_Some. by eapply zget_bound. }
  split_and!; [|done|done]. by eapply loop_ok_same.
Qed.

(** ** Receiving *)

Lemma recv_plain_ok hdrs : forall i pkts st v, 0 <= i -> i + zlen hdrs <= zlen pkts -> Forall (has_hdr v) hdrs ->
  exists st' v', Classify.recv_plain hdrs i pkts st v = Some (take (Z.to_nat i) pkts ++ hdrs ++ drop (Z.to_nat i + length hdrs) pkts, st', v') /\ same v v'.
Proof.
  induction hdrs as [|p hdrs IH]; intros i pkts st v Hi Hl Hh; cbn [Classify.recv_plain].
  - exists st, v. split; [|done]. simpl. by rewrite Nat.add_0_r, take_drop.
  - unfold zlen in *. cbn [length] in *. rewrite zset_Some by (unfold zlen; lia). cbn [mbind option_bind]. apply Forall_cons_1 in Hh as [Hp Hh].
    unfold Classify.reset_l2, Classify.packet_length. destruct Hp as [[b h] Hp]. rewrite Hp. cbn [mbind option_bind].
    match goal with |- context [Classify.w_put_hdr p ?x v] => set (v1 := Classify.w_put_hdr p x v); assert (same v v1) as Hs by (apply ll_put; by eexists) end.
    assert (has_hdr v1 p) as [[b1 h1] Hp1] by (apply Hs; by eexists). rewrite Hp1. cbn [mbind option_bind].
    match goal with |- context [Classify.recv_plain hdrs (i + 1) ?l ?st1 v1] => destruct (IH (i + 1) l st1 v1) as (st' & v' & -> & Hs') end.
    + lia.
    + rewrite length_insert. lia.
    + eapply Forall_impl; [exact Hh|]. apply Hs.
    + exists st', v'. split; [|by etrans]. f_equal. f_equal. f_equal. replace (Z.to_nat (i + 1)) with (S (Z.to_nat i)) by lia.
      rewrite (take_S_r _ _ p) by (apply list_lookup_insert_eq; lia). rewrite take_insert_ge by lia. rewrite drop_insert_lt by lia. rewrite <- !app_assoc. simpl. do 4 f_equal. lia.
Qed.

Lemma port_recv_ok w ph Q i run k len q : loop_ok w ph Q -> 0 <= i < 64 -> ph i = Opened k run -> zget (queues_of w) i = Some q -> 0 <= len <= 8 ->
  exists pkts w', port_recv i len w = Some (zlen (take (Z.to_nat len) (items (base w) q)), pkts, w') /\
    take (length (take (Z.to_nat len) (items (base w) q))) pkts = take (Z.to_nat len) (items (base w) q) /\
    loop_ok w' ph Q /\ Forall (has_hdr (base w')) (items (base w) q) /\ items (base w') q = drop (Z.to_nat len) (items (base w) q) /\ queues_of w' = queues_of w /\
    forall p, has_hdr (base w) p -> has_hdr (base w') p.
Proof.
  intros Hok Hi Hph Hq Hlen. destruct (lo_port _ _ _ Hok i k run Hi Hph) as (_ & q' & Hq' & Hl & HnQ & Hh). assert (q' = q) as -> by congruence. destruct (queues_get w i q Hq) as (p & Hp & Eq).
  unfold port_recv, Classify.loopback_recv. rewrite Hp. cbn [mbind option_bind]. rewrite Eq. destruct (ll_deq q len (base w) Hl ltac:(lia)) as ([hdrs v1] & -> & -> & L1 & I1 & O1 & X1). cbn [mbind option_bind].
  destruct (lo_cls _ _ _ Hok i Hi) as (e & -> & Hoff). cbn [mbind option_bind]. set (hdrs := take (Z.to_nat len) (items (base w) q)) in *.
  assert (length hdrs <= Z.to_nat len)%nat as Hle by (unfold hdrs; rewrite length_take; lia). unfold Classify.QUEUE_MULTI_MAX. rewrite Z.gtb_ltb, (proj2 (Z.ltb_ge _ _)) by (unfold zlen; lia). rewrite Hoff.
  assert (Forall (has_hdr v1) hdrs) as Hh1 by (apply Forall_take; by eapply Forall_impl).
  destruct (recv_plain_ok hdrs 0 (replicate (Z.to_nat len) 0) (rx_stats p) v1 ltac:(lia) ltac:(unfold zlen; rewrite length_replicate; lia) Hh1) as (st & v2 & -> & L2 & I2 & X2). cbn [mbind option_bind].
  rewrite zset_Some by (by eapply zget_bound). cbn [mbind option_bind]. eexists _, _. split; [done|]. split; [change (Z.to_nat 0) with 0%nat; rewrite take_0; by rewrite app_nil_l, take_app_length|].
  assert (queues_of (LW (<[Z.to_nat i := Port q (promisc p) (Classify.LS (Classify.in_octets st) (Classify.in_ucast_pkts st +u64 zlen hdrs)) (out_octets p) (out_ucast_pkts p)]> (ports w)) (classes w) v2) = queues_of w) as E.
  { eapply (queues_set (ports w) i p); [done| |apply zset_Some; by eapply zget_bound]. by rewrite Eq. }
  assert (forall p', has_hdr (base w) p' -> has_hdr v2 p') as X by eauto. split_and!; [|by eapply Forall_impl|cbn [base]; rewrite I2, I1; [done|by rewrite L1]|done|done].
  eapply (loop_ok_frame w); [done|done|done|apply Hok| |].
  - intros q' Hq2. cbn [base]. rewrite L2, L1. by eapply lo_live.
  - intros j k' run' q' _ _ Hlq HQq Hhq. cbn [base]. rewrite L2, L1. split_and!; [done..|]. rewrite I2 by (by rewrite L1). destruct (decide (q' = q)) as [->|Hne].
    + rewrite I1. apply Forall_drop. by eapply Forall_impl.
    + rewrite O1 by done. by eapply Forall_impl.
Qed.

(** ** Sending *)

Lemma send_headers_ok pkts v : forall k bytes, 0 <= k -> k + zlen pkts <= 8 -> Forall (has_hdr v) pkts -> is_Some (send_headers k pkts bytes v).
Proof.
  induction pkts as [|p pkts IH]; intros k bytes Hk Hl Hh; cbn [send_headers]; [done|]. unfold zlen in *. cbn [length] in Hl. unfold Classify.QUEUE_MULTI_MAX. rewrite Z.geb_leb, (proj2 (Z.leb_gt _ _)) by lia.
  apply Forall_cons_1 in Hh as [[[b h] Hp] Hh]. unfold Classify.packet_length. rewrite Hp. cbn [mbind option_bind]. apply IH; [lia|lia|done].
Qed.

Lemma loop_send_ok w ph Q i run k pkts q : loop_ok w ph Q -> 0 <= i < 64 -> ph i = Opened k run -> zget (queues_of w) i = Some q -> zlen pkts <= 8 -> Forall (has_hdr (base w)) pkts ->
  exists w', loopback_send i pkts w = Some (zlen pkts, w') /\ loop_ok w' ph Q /\ items (base w') q = items (base w) q ++ pkts /\ queues_of w' = queues_of w /\
    forall p, has_hdr (base w) p -> has_hdr (base w') p.
Proof.
  intros Hok Hi Hph Hq Hlen Hpk. destruct (lo_port _ _ _ Hok i k run Hi Hph) as (_ & q' & Hq' & Hl & HnQ & Hh). assert (q' = q) as -> by congruence. destruct (queues_get w i q Hq) as (p & Hp & Eq).
  unfold loopback_send. destruct (send_headers_ok pkts (base w) 0 0 ltac:(lia) ltac:(lia) Hpk) as [bytes ->]. cbn [mbind option_bind]. rewrite Hp. cbn [mbind option_bind]. rewrite Eq.
  destruct (ll_enq q pkts (base w) Hl) as ([r v1] & -> & -> & L1 & I1 & O1 & X1). cbn [mbind option_bind].
  assert (loop_ok (set_base v1 w) ph Q) as Hok1.
  { eapply (loop_ok_frame w); [done|done|done|apply Hok| |].
    - intros q' Hq2. cbn [base set_base]. rewrite L1. by eapply lo_live.
    - intros j k' run' q' _ _ Hlq HQq Hhq. cbn [base set_base]. rewrite L1. split_and!; [done..|]. destruct (decide (q' = q)) as [->|Hne].
      + rewrite I1. apply Forall_app. split; by eapply Forall_impl.
      + rewrite O1 by done. by eapply Forall_impl. }
  destruct (zlen pkts >? 0); [|by exists (set_base v1 w)].
  destruct (set_port_ok (set_base v1 w) ph Q i p (Port q (promisc p) (rx_stats p) (out_octets p +u64 bytes) (out_ucast_pkts p +u64 zlen pkts)) Hok1 Hp (eq_sym Eq)) as (w' & -> & Hok2 & Eb & Eqs).
  cbn [mbind option_bind]. exists w'. rewrite Eb, Eqs. done.
Qed.

(** ** Opening and closing *)

Lemma set_closed_ok w ph Q i p' : loop_ok w ph Q -> 0 <= i < 64 -> ph i = Closed ->
  exists w', set_port i p' w = Some w' /\ loop_ok w' ph Q /\ base w' = base w /\ zget (ports w') i = Some p' /\ forall j, j <> i -> zget (queues_of w') j = zget (queues_of w) j.
Proof.
  intros [K1 K2 K3 K4 K5 K6] Hi Hc. assert (0 <= i < zlen (ports w)) as Hb by (unfold zlen; lia). unfold set_port. rewrite zset_Some by done. cbn [mbind option_bind]. eexists. split; [done|].
  assert (forall j, j <> i -> zget (queues_of (LW (<[Z.to_nat i := p']> (ports w)) (classes w) (base w))) j = zget (queues_of w) j) as E.
  { intros j Hj. unfold queues_of. cbn [ports]. rewrite list_fmap_insert. rewrite zget_insert by (unfold zlen in *; by rewrite length_fmap). by rewrite bool_decide_eq_false_2. }
  split_and!; [|done|cbn [ports]; by rewrite zget_insert, bool_decide_eq_true_2|done]. split; cbn [base classes]; [cbn [ports]; by rewrite length_insert|done|done|done| |].
  - intros j k run Hj Ho. rewrite E by congruence. eauto.
  - intros j1 j2 q H1' H2'. rewrite !E by congruence. eauto.
Qed.

Lemma open_port w ph Q i q : loop_ok w ph Q -> zget (queues_of w) i = Some q -> q ∈ live (base w) -> q ∉ Q -> items (base w) q = [] ->
  (forall j q', j <> i -> ph j <> Closed -> zget (queues_of w) j = Some q' -> q' <> q) -> loop_ok w (upd ph i (Opened 0 false)) Q.
Proof.
  intros [K1 K2 K3 K4 K5 K6] Hq Hl HQ Hit Hne. split; [done..| |].
  - intros j k' run Hj. destruct (decide (j = i)) as [->|Hji]; [|rewrite phase_upd_ne by done; eauto]. rewrite phase_upd_eq. intros [= <- <-]. split; [by split|]. exists q. by rewrite Hit.
  - intros j1 j2 q' H1' H2' G1 G2. destruct (decide (j1 = i)) as [->|N1]; destruct (decide (j2 = i)) as [->|N2]; [done| | |].
    + rewrite phase_upd_ne in H2' by done. by destruct (Hne j2 q' N2 H2' G2); congruence.
    + rewrite phase_upd_ne in H1' by done. by destruct (Hne j1 q' N1 H1' G1); congruence.
    + rewrite phase_upd_ne in H1', H2' by done. eauto.
Qed.

Lemma close_phase w ph Q i : loop_ok w ph Q -> loop_ok w (upd ph i Closed) Q.
Proof.
  intros [K1 K2 K3 K4 K5 K6]. split; [done..| |].
  - intros j k run Hj. destruct (decide (j = i)) as [->|Hji]; [by rewrite phase_upd_eq|rewrite phase_upd_ne by done; eauto].
  - intros j1 j2 q. destruct (decide (j1 = i)) as [->|N1]; [by rewrite phase_upd_eq|]. destruct (decide (j2 = i)) as [->|N2]; [by rewrite (phase_upd_eq ph i)|]. rewrite !phase_upd_ne by done. eauto.
Qed.

Lemma loop_open_ok w ph Q i dev pool : loop_ok w ph Q -> 0 <= i < 64 -> ph i = Closed ->
  returns (loopback_open i dev pool w) (fun '(r, w') => loop_ok w' (if r =? 0 then upd ph i (Opened 0 false) else ph) Q).
Proof.
  intros Hok Hi Hc. unfold loopback_open. destruct (dev =? "loop")%string; cbn [negb]; [|by exists (-1, w)].
  match goal with |- context [v_queue_create ?n ?t (base w)] => destruct (ll_create n t (base w)) as ([q v1] & -> & Hq & I1 & X1) end. cbn [mbind option_bind].
  destruct (port_get w ph Q i Hok Hi) as [p Hp]. rewrite Hp. cbn [mbind option_bind].
  assert (live (base w) ⊆ live v1) as HL by (destruct (q =? 0); [by rewrite Hq|destruct Hq as (_ & -> & _); set_solver]).
  assert (loop_ok (set_base v1 w) ph Q) as Hok1.
  { eapply (loop_ok_frame w); [done|done|done|apply Hok| |]; cbn [base set_base].
    - intros q' Hq'. apply HL. by eapply lo_live.
    - intros j k run q' _ _ Hlq HQq Hhq. rewrite I1 by done. split_and!; [by apply HL|done|]. by eapply Forall_impl. }
  match goal with |- context [set_port i ?x (set_base v1 w)] => destruct (set_closed_ok (set_base v1 w) ph Q i x Hok1 Hi Hc) as (w2 & -> & Hok2 & Eb & Hp2 & Hoth) end. cbn [mbind option_bind].
  change ODP_QUEUE_INVALID with 0. destruct (Z.eqb_spec q 0) as [E|E]; [by exists (-1, w2)|]. destruct Hq as (Hnew & Hlv & Hit). unfold loopback_stats_reset. rewrite Hp2. cbn [mbind option_bind loopq].
  match goal with |- context [set_port i ?x w2] => destruct (set_port_ok w2 ph Q i _ x Hok2 Hp2 eq_refl) as (w3 & -> & Hok3 & Eb3 & Eq3) end. cbn [mbind option_bind]. eexists. split; [done|]. cbn [Z.eqb].
  assert (base w3 = v1) as Eb' by (by rewrite Eb3, Eb). apply (open_port w3 ph Q i q).
  - done.
  - rewrite Eq3. by rewrite (get_queues _ _ _ Hp2).
  - rewrite Eb', Hlv. set_solver.
  - intros HQ. apply Hnew. by eapply lo_live.
  - by rewrite Eb'.
  - intros j q' Hj Ho Hg ->. rewrite Eq3, Hoth in Hg by done. apply Hnew. pose proof (zget_bound _ _ _ Hg) as Hb. unfold zlen, queues_of in Hb. rewrite length_fmap in Hb. change (ports (set_base v1 w)) with (ports w) in Hb. rewrite (lo_len _ _ _ Hok) in Hb.
    destruct (ph j) as [|k run] eqn:Ej; [done|]. destruct (lo_port _ _ _ Hok j k run ltac:(lia) Ej) as (_ & q2 & Hg2 & Hl2 & _). assert (q2 = q) as -> by (change (queues_of (set_base v1 w)) with (queues_of w) in Hg; congruence). done.
Qed.

Definition loop_closable w (i : Z) : Prop := forall q, zget (queues_of w) i = Some q -> items (base w) q = [].

Lemma loop_close_ok w ph Q i k run : loop_ok w ph Q -> 0 <= i < 64 -> ph i = Opened k run ->
  returns (loopback_close i w) (fun '(r, w') => loop_ok w' (if r =? 0 then upd ph i Closed else ph) Q /\ (loop_closable w i -> r = 0)).
Proof.
  intros Hok Hi Hph. destruct (lo_port _ _ _ Hok i k run Hi Hph) as (_ & q & Hq & Hl & HnQ & Hh). destruct (queues_get w i q Hq) as (p & Hp & Eq).
  unfold loopback_close. rewrite Hp. cbn [mbind option_bind]. rewrite Eq. destruct (ll_destroy q (base w) Hl) as ([r v1] & -> & L1 & Hr & I1 & X1). cbn [mbind option_bind]. eexists. split; [done|].
  split; [|intros Hcl; by apply Hr, Hcl]. destruct (r =? 0).
  - eapply (loop_ok_frame w); [by apply close_phase|done|done|apply Hok| |]; cbn [base set_base]; rewrite L1.
    + intros q' Hq'. pose proof (lo_live _ _ _ Hok q' Hq'). set_solver.
    + intros j k' run' q' Ho Hg Hlq HQq Hhq. assert (j <> i) as Hne by (intros ->; by rewrite phase_upd_eq in Ho). rewrite phase_upd_ne in Ho by done.
      assert (q' <> q) as Hqq by (intros ->; apply Hne; eapply (lo_apart _ _ _ Hok); [by rewrite Ho|by rewrite Hph|done|done]).
      rewrite I1 by (rewrite L1; set_solver). split_and!; [set_solver|done|by eapply Forall_impl].
  - eapply (loop_ok_frame w); [done|done|done|apply Hok| |]; cbn [base set_base]; rewrite L1.
    + intros q' Hq'. by eapply lo_live.
    + intros j k' run' q' Ho Hg Hlq HQq Hhq. rewrite I1 by (by rewrite L1). split_and!; [done|done|by eapply Forall_impl].
Qed.

(** ** The contract of drivers *)

Lemma loop_driver k d : pktio_if_ops (W := loopw V) !! k = Some d -> (k = 0%nat /\ d = loopback_pktio_ops) \/ (k <> 0%nat /\ d ∈ other_drivers).
Proof. destruct k as [|k]; [by intros [= <-]; left|]. intros Hd. right. split; [done|]. by apply (list_elem_of_lookup_2 _ k). Qed.

(** Only the loop driver has interfaces. *)
Lemma only_loop w ph Q i k d run : loop_ok w ph Q -> pktio_if_ops (W := loopw V) !! k = Some d -> 0 <= i < 64 -> ph i = Opened k run ->
  k = 0%nat /\ d = loopback_pktio_ops.
Proof.
  intros Hok Hd Hi Hp. destruct (lo_port _ _ _ Hok i k run Hi Hp) as ([-> _] & _). destruct (loop_driver 0 d Hd) as [Hz|[Hz _]]; [exact Hz|congruence].
Qed.

(** A function of the world behind the driver. *)
Lemma on_base_ok ph Q w (x : option V) : loop_ok w ph Q -> returns x (same (base w)) -> returns (on_base_only x w) (fun w' => loop_ok w' ph Q).
Proof. intros Hok (v & -> & Hs). unfold on_base_only. cbn [mbind option_bind]. eexists. split; [done|]. by eapply loop_ok_same. Qed.

Lemma loop_query_ok (f : Z -> loopw V -> option (Z * loopw V)) i w ph Q : 0 <= i < 64 -> loop_ok w ph Q ->
  (f = op_mtu_get loopback_pktio_ops \/ f = op_promisc_mode_get loopback_pktio_ops \/ f = op_mac_get loopback_pktio_ops \/ op_link_status loopback_pktio_ops = Some f \/
   op_stats loopback_pktio_ops = Some f \/ op_stats_reset loopback_pktio_ops = Some f \/ exists b, f = fun i => op_promisc_mode_set loopback_pktio_ops i b) ->
  returns (f i w) (fun '(_, w') => loop_ok w' ph Q).
Proof.
  intros Hi Hok Hf. destruct (port_get w ph Q i Hok Hi) as [p Hp]. destruct Hf as [->|[->|[->|[Hf|[Hf|[Hf|[b ->]]]]]]]; cbn in *.
  - by eexists.
  - unfold loopback_promisc_mode_get. rewrite Hp. by eexists.
  - by eexists.
  - done.
  - injection Hf as <-. unfold loopback_stats. rewrite Hp. by eexists.
  - injection Hf as <-. unfold loopback_stats_reset. rewrite Hp. cbn [mbind option_bind].
    match goal with |- context [set_port i ?x w] => destruct (set_port_ok w ph Q i p x Hok Hp eq_refl) as (w' & -> & Hok' & _) end. by eexists.
  - unfold loopback_promisc_mode_set. rewrite Hp. cbn [mbind option_bind].
    match goal with |- context [set_port i ?x w] => destruct (set_port_ok w ph Q i p x Hok Hp eq_refl) as (w' & -> & Hok' & _) end. by eexists.
Qed.

Lemma loop_create_ok name t w ph Q : loop_ok w ph Q -> returns (w_queue_create name t w) (fun '(q, w') => loop_ok w' ph (if q =? 0 then Q else q :: Q)).
Proof.
  intros Hok. cbn. destruct (ll_create name t (base w)) as ([q v1] & -> & Hq & I1 & X1). unfold on_base. cbn [mbind option_bind]. eexists. split; [done|].
  cbv beta iota. destruct (q =? 0).
  - eapply (loop_ok_same w); [done|done|done|]. split_and!; done.
  - destruct Hq as (Hnew & Hlv & _). eapply (loop_ok_frame w); [done|done|done| | |]; cbn [base set_base]; rewrite ?Hlv.
    + constructor; [|apply Hok]. intros Hin. apply Hnew. by eapply lo_live.
    + intros q'. rewrite elem_of_cons. intros [->|Hin]; [set_solver|]. pose proof (lo_live _ _ _ Hok q' Hin). set_solver.
    + intros j k run q' _ _ Hlq HQq Hhq. rewrite I1 by done. split_and!; [set_solver| |by eapply Forall_impl]. rewrite elem_of_cons. intros [->|Hin]; done.
Qed.

Lemma loop_destroy_ok q w ph Q : loop_ok w ph (q :: Q) ->
  returns (w_queue_destroy q w) (fun '(_, w') => loop_ok w' ph Q /\ forall i k run, ph i = Opened k run -> loop_closable w i -> loop_closable w' i).
Proof.
  intros Hok. cbn. pose proof (lo_live _ _ _ Hok q ltac:(set_solver)) as Hl. pose proof (lo_nodup _ _ _ Hok) as [Hnq Hnd]%NoDup_cons. destruct (ll_destroy q (base w) Hl) as ([r v1] & -> & L1 & _ & I1 & X1).
  unfold on_base. cbn [mbind option_bind]. eexists. split; [done|].
  assert (forall q', q' ∈ live (base w) -> q' <> q -> q' ∈ live v1) as Hkeep by (intros q'; rewrite L1; destruct (r =? 0); set_solver). split.
  - eapply (loop_ok_frame w); [done|done|done|done| |]; cbn [base set_base].
    + intros q' Hq'. apply Hkeep; [eapply lo_live; [done|set_solver]|]. by intros ->.
    + intros j k run q' _ _ Hlq HQq Hhq. assert (q' ∈ live v1) as Hl' by (apply Hkeep; set_solver). rewrite I1 by done. split_and!; [done|set_solver|by eapply Forall_impl].
  - intros i k run Ho Hcl q' Hg. cbn [base set_base]. change (queues_of (set_base v1 w)) with (queues_of w) in Hg. pose proof (zget_bound _ _ _ Hg) as Hb. unfold zlen, queues_of in Hb. rewrite length_fmap, (lo_len _ _ _ Hok) in Hb.
    destruct (lo_port _ _ _ Hok i k run ltac:(lia) Ho) as (_ & q2 & Hg2 & Hl2 & HnQ & _). assert (q2 = q') as -> by congruence. rewrite I1; [by apply Hcl|]. apply Hkeep; [done|set_solver].
Qed.

#[export] Program Instance loop_laws : PktioLaws (loopw V) := {| ok := loop_ok; pkt_ok w := has_hdr (base w); closable := loop_closable; burst _ := 8; commands w := cmds (base w) |}.
Next Obligation.
  intros w ph Q Q' HQ Hok. eapply (loop_ok_frame w); [done|done|done|rewrite <- HQ; apply Hok| |].
  - intros q. rewrite <- HQ. by eapply lo_live.
  - intros j k run q _ _ ? ? ?. by rewrite <- HQ.
Qed.
Next Obligation.
  intros w ph q Q Hok. pose proof (lo_nodup _ _ _ Hok) as [_ ?]%NoDup_cons. eapply (loop_ok_frame w); [done|done|done|done| |].
  - intros q' Hq'. eapply lo_live; [done|]. set_solver.
  - intros j k run q' _ _ ? ? ?. split_and!; [done|set_solver|done].
Qed.
Next Obligation.
  intros k d f w ph Q Hd Hf Hok. destruct (loop_driver k d Hd) as [[-> ->]|[_ Hin]]; [done|].
  destruct (ll_others_init d f w Hin Hf) as ([r w'] & -> & ->). by eexists.
Qed.
Next Obligation.
  intros k d i dev pool w ph Q Hd Hi Hok Hp. destruct (loop_driver k d Hd) as [[-> ->]|[_ Hin]]; [by apply loop_open_ok|].
  destruct (ll_others_open d i dev pool w Hin) as ([r w'] & -> & Hr & ->). eexists. split; [done|]. cbn beta iota. by rewrite (proj2 (Z.eqb_neq r 0) Hr).
Qed.
Next Obligation. intros k d i run w ph Q Hd Hi Hok Hp. destruct (only_loop _ _ _ _ _ _ _ Hok Hd Hi Hp) as [-> ->]. by eapply loop_close_ok. Qed.
Next Obligation. intros k d f i w ph Q Hd Hf Hi Hok Hp. by destruct (only_loop _ _ _ _ _ _ _ Hok Hd Hi Hp) as [-> ->]. Qed.
Next Obligation. intros k d f i w ph Q Hd Hf Hi Hok Hp. by destruct (only_loop _ _ _ _ _ _ _ Hok Hd Hi Hp) as [-> ->]. Qed.
Next Obligation. intros k d Hd. destruct (loop_driver k d Hd) as [[-> ->]|[_ Hin]]; [done|]. by apply ll_others_shape. Qed.
Next Obligation.
  intros k d i len w ph Q Hd Hi Hok Hp Hlen. destruct (only_loop _ _ _ _ _ _ _ Hok Hd Hi Hp) as [-> ->]. destruct (lo_port _ _ _ Hok i _ _ Hi Hp) as (_ & q & Hq & _).
  destruct (port_recv_ok w ph Q i _ _ len q Hok Hi Hp Hq Hlen) as (pkts & w' & E & Ht & Hok' & Hh & _). eexists. split; [exact E|]. split; [done|]. rewrite zlen_nat, Ht. by apply Forall_take.
Qed.
Next Obligation.
  intros k d i pkts w ph Q Hd Hi Hok Hp Hlen Hpk. destruct (only_loop _ _ _ _ _ _ _ Hok Hd Hi Hp) as [-> ->]. destruct (lo_port _ _ _ Hok i _ _ Hi Hp) as (_ & q & Hq & _).
  destruct (loop_send_ok w ph Q i _ _ pkts q Hok Hi Hp Hq Hlen Hpk) as (w' & E & Hok' & _). eexists. split; [exact E|]. done.
Qed.
Next Obligation. intros k d f i idx len w ph Q Hd Hf Hi Hok Hp. by destruct (only_loop _ _ _ _ _ _ _ Hok Hd Hi Hp) as [-> ->]. Qed.
Next Obligation. intros k d f i idx pkts w ph Q Hd Hf Hi Hok Hp. by destruct (only_loop _ _ _ _ _ _ _ Hok Hd Hi Hp) as [-> ->]. Qed.
Next Obligation.
  intros k d f i run w ph Q Hd Hi Hok Hp Hf. destruct (only_loop _ _ _ _ _ _ _ Hok Hd Hi Hp) as [-> ->]. by apply loop_query_ok.
Qed.
Next Obligation. intros k d f i n run w ph Q Hd Hf Hi Hok Hp. destruct (only_loop _ _ _ _ _ _ _ Hok Hd Hi Hp) as [-> ->]. by destruct Hf. Qed.
Next Obligation. intros k d f i run w ph Q Hd Hf Hi Hok Hp. by destruct (only_loop _ _ _ _ _ _ _ Hok Hd Hi Hp) as [-> ->]. Qed.
Next Obligation. intros k d f i n run w ph Q Hd Hf Hi Hok Hp. by destruct (only_loop _ _ _ _ _ _ _ Hok Hd Hi Hp) as [-> ->]. Qed.
Next Obligation. intros k d f i n run w ph Q Hd Hf Hi Hok Hp. destruct (only_loop _ _ _ _ _ _ _ Hok Hd Hi Hp) as [-> ->]. by destruct Hf. Qed.
Next Obligation. intros k d Hd. destruct (loop_driver k d Hd) as [[-> ->]|[_ Hin]]; [simpl; eauto|]. by apply ll_others_shape. Qed.
Next Obligation. intros name t w ph Q. apply loop_create_ok. Qed.
Next Obligation. intros q w ph Q. apply loop_destroy_ok. Qed.
Next Obligation. intros q w ph Q Hok. apply ll_type. eapply lo_live; [done|set_solver]. Qed.
Next Obligation. intros q p w ph Q Hok. apply on_base_ok; [done|]. apply ll_pktin. eapply lo_live; [done|set_solver]. Qed.
Next Obligation. intros q w ph Q Hok. apply on_base_ok; [done|]. apply ll_hooks. eapply lo_live; [done|set_solver]. Qed.
Next Obligation. intros q h w ph Q Hok. apply on_base_ok; [done|]. apply ll_pktout. eapply lo_live; [done|set_solver]. Qed.
Next Obligation.
  intros p h w ph Q Hok [[b hd] Hp]. cbn. rewrite Hp. cbn [mbind option_bind]. eexists. split; [done|].
  assert (same (base w) (Classify.w_put_hdr p (Packet.set_input h hd) (base w))) as Hs by (apply ll_put; by eexists). split; [by eapply loop_ok_same|]. apply Hs.
Qed.
Next Obligation.
  intros h k w ph Q Hok Hc. destruct (ll_poll h k (base w) Hc) as (v & E & Hs & Hn). cbn. unfold on_base_only. rewrite E. cbn [mbind option_bind].
  eexists. split; [done|]. split; [by eapply loop_ok_same|exact Hn].
Qed.

(** ** Traffic *)

Lemma set_inputs_same h pkts : forall w, Forall (has_hdr (base w)) pkts ->
  exists w', set_inputs h pkts w = Some w' /\ same (base w) (base w') /\ ports w' = ports w /\ classes w' = classes w.
Proof.
  induction pkts as [|p pkts IH]; intros w Hh; cbn [set_inputs]; [by exists w|]. apply Forall_cons_1 in Hh as [[[b hd] Hp] Hh]. cbn. rewrite Hp. cbn [mbind option_bind].
  assert (same (base w) (Classify.w_put_hdr p (Packet.set_input h hd) (base w))) as Hs by (apply ll_put; by eexists).
  destruct (IH (set_base (Classify.w_put_hdr p (Packet.set_input h hd) (base w)) w)) as (w' & -> & Hs' & Hp' & Hc'); [eapply Forall_impl; [exact Hh|apply Hs]|].
  exists w'. split_and!; [done|by etrans|done|done].
Qed.

(** An interface of the loop driver that was started, with queue [q]. *)
Record running ph (s : pktio_sys (loopw V)) (h q : Z) : Prop := {
  rn_inv : inv ph s;
  rn_open : is_open h s;
  rn_started e : zget (entries s) (h - 1) = Some e -> state e = STATE_START /\ in_mode (param e) <> ODP_PKTIN_MODE_DISABLED /\ out_mode (param e) <> ODP_PKTOUT_MODE_DISABLED;
  rn_queue : zget (queues_of (world s)) (h - 1) = Some q
}.

Lemma running_world ph s h q w : running ph s h q -> loop_ok w ph (held (entries s)) -> queues_of w = queues_of (world s) -> running ph (set_world w s) h q.
Proof. intros [Hi Ho Hs Hq] Hok Eq. split; [by apply inv_world|done|done|]. simpl. by rewrite Eq. Qed.

Lemma running_loop ph s h q : running ph s h q -> exists e, opened ph s h e 0 loopback_pktio_ops /\ state e = STATE_START /\ in_mode (param e) <> ODP_PKTIN_MODE_DISABLED /\
  out_mode (param e) <> ODP_PKTOUT_MODE_DISABLED /\ ph (h - 1) = Opened 0 false.
Proof.
  intros [Hi Ho Hs Hq]. destruct (open_opened ph s h Hi Ho) as (e & k & d & Hop).
  destruct (only_loop _ _ _ _ _ _ _ (in_ok _ _ Hi) (op_tbl _ _ _ _ _ _ Hop) (op_range _ _ _ _ _ _ Hop) (op_phase _ _ _ _ _ _ Hop)) as [-> ->]. destruct (Hs e (op_get _ _ _ _ _ _ Hop)) as (E & ? & ?).
  exists e. split_and!; [done..|]. rewrite (op_phase _ _ _ _ _ _ Hop). unfold runs. by rewrite E.
Qed.

Lemma run_send ph s h q pkts : running ph s h q -> zlen pkts <= 8 -> Forall (has_hdr (base (world s))) pkts ->
  exists s', odp_pktio_send h pkts s = Some (zlen pkts, s') /\ running ph s' h q /\ items (base (world s')) q = items (base (world s)) q ++ pkts /\
    forall p, has_hdr (base (world s)) p -> has_hdr (base (world s')) p.
Proof.
  intros Hr Hl Hp. destruct (running_loop _ _ _ _ Hr) as (e & Ho & Es & _ & Em & Hph). unfold odp_pktio_send. rewrite (op_entry _ _ _ _ _ _ Ho). cbn [mbind option_bind]. rewrite (op_get _ _ _ _ _ _ Ho). cbn [mbind option_bind].
  rewrite bool_decide_eq_false_2 by (rewrite Es; naive_solver). rewrite (op_driver _ _ _ _ _ _ Ho). cbn [mbind option_bind].
  destruct (loop_send_ok (world s) ph (held (entries s)) (h - 1) false 0 pkts q (in_ok _ _ (rn_inv _ _ _ _ Hr)) (op_range _ _ _ _ _ _ Ho) Hph (rn_queue _ _ _ _ Hr) Hl Hp) as (w' & E & Hok & Hit & Eq & Hh).
  change (op_send loopback_pktio_ops) with (loopback_send (V := V)). rewrite E. cbn [mbind option_bind]. exists (set_world w' s). split_and!; [done|by apply running_world|done|done].
Qed.

Lemma run_recv ph s h q len : running ph s h q -> 0 <= len <= 8 ->
  exists pkts s', odp_pktio_recv h len s = Some (zlen (take (Z.to_nat len) (items (base (world s)) q)), pkts, s') /\
    take (length (take (Z.to_nat len) (items (base (world s)) q))) pkts = take (Z.to_nat len) (items (base (world s)) q) /\
    running ph s' h q /\ items (base (world s')) q = drop (Z.to_nat len) (items (base (world s)) q) /\ forall p, has_hdr (base (world s)) p -> has_hdr (base (world s')) p.
Proof.
  intros Hr Hl. destruct (running_loop _ _ _ _ Hr) as (e & Ho & Es & Em & _ & Hph). unfold odp_pktio_recv. rewrite (op_entry _ _ _ _ _ _ Ho). cbn [mbind option_bind]. rewrite (op_get _ _ _ _ _ _ Ho). cbn [mbind option_bind].
  rewrite bool_decide_eq_false_2 by (rewrite Es; naive_solver). rewrite (op_driver _ _ _ _ _ _ Ho). cbn [mbind option_bind]. pose proof (in_ok _ _ (rn_inv _ _ _ _ Hr)) as Hok0. cbn [ok loop_laws] in Hok0.
  destruct (port_recv_ok (world s) ph (held (entries s)) (h - 1) false 0 len q Hok0 (op_range _ _ _ _ _ _ Ho) Hph (rn_queue _ _ _ _ Hr) Hl) as (pkts & w' & E & Ht & Hok & Hfor & Hit & Eq & Hh).
  change (op_recv loopback_pktio_ops) with (port_recv (V := V)). rewrite E. cbn [mbind option_bind]. rewrite zlen_nat, Ht.
  destruct (set_inputs_same h (take (Z.to_nat len) (items (base (world s)) q)) w') as (w2 & -> & Hs & Hp2 & Hc2); [by apply Forall_take|]. cbn [mbind option_bind]. exists pkts, (set_world w2 s).
  assert (queues_of w2 = queues_of w') as Eq2 by (unfold queues_of; by rewrite Hp2). destruct (lo_port _ _ _ Hok (h - 1) 0 false (op_range _ _ _ _ _ _ Ho) Hph) as (_ & q' & Hq' & Hl' & _).
  assert (q' = q) as -> by (pose proof (rn_queue _ _ _ _ Hr); congruence). pose proof Hs as (_ & I2 & X2). split_and!; [done|done| | |].
  - apply running_world; [done|by eapply loop_ok_same|congruence].
  - simpl. by rewrite I2.
  - simpl. eauto.
Qed.

Inductive traffic := Tx (pkts : list Z) | Rx (len : Z).
(** The packets taken for sending, and those received. *)
Fixpoint exchange (h : Z) (ts : list traffic) (s : pktio_sys (loopw V)) : option (list Z * list Z * pktio_sys (loopw V)) :=
  match ts with
  | [] => Some ([], [], s)
  | Tx pkts :: ts => '(n, s) ← odp_pktio_send h pkts s; '(sent, got, s) ← exchange h ts s; Some (take (Z.to_nat n) pkts ++ sent, got, s)
  | Rx len :: ts => '(n, pkts, s) ← odp_pktio_recv h len s; '(sent, got, s) ← exchange h ts s; Some (sent, take (Z.to_nat n) pkts ++ got, s)
  end.
Definition traffic_ok (v : V) (t : traffic) : Prop := match t with Tx pkts => zlen pkts <= 8 /\ Forall (has_hdr v) pkts | Rx len => 0 <= len <= 8 end.
Definition offered (ts : list traffic) : list Z := ts ≫= fun t => match t with Tx pkts => pkts | Rx _ => [] end.

Lemma exchange_ok ph h q ts : forall s, running ph s h q -> Forall (traffic_ok (base (world s))) ts ->
  exists got s', exchange h ts s = Some (offered ts, got, s') /\ running ph s' h q /\ got ++ items (base (world s')) q = items (base (world s)) q ++ offered ts.
Proof.
  induction ts as [|t ts IH]; intros s Hr Hok; cbn [exchange]; [exists [], s; by rewrite app_nil_r|]. apply Forall_cons_1 in Hok as [Ht Hok].
  assert (forall v', (forall p, has_hdr (base (world s)) p -> has_hdr v' p) -> Forall (traffic_ok v') ts) as Hrest.
  { intros v' Hm. eapply Forall_impl; [exact Hok|]. intros [pkts|len]; simpl; [|done]. intros [? Hf]. split; [done|]. by eapply Forall_impl. }
  destruct t as [pkts|len]; simpl in Ht.
  - destruct Ht as [Hl Hp]. destruct (run_send ph s h q pkts Hr Hl Hp) as (s1 & -> & Hr1 & Hi1 & Hm). cbn [mbind option_bind]. destruct (IH s1 Hr1 (Hrest _ Hm)) as (got & s' & -> & Hr' & Hg). cbn [mbind option_bind].
    exists got, s'. rewrite zlen_nat, firstn_all. split_and!; [done|done|]. rewrite Hg, Hi1. cbn. by rewrite <- app_assoc.
  - destruct (run_recv ph s h q len Hr Ht) as (pkts & s1 & -> & Htk & Hr1 & Hi1 & Hm). cbn [mbind option_bind]. destruct (IH s1 Hr1 (Hrest _ Hm)) as (got & s' & -> & Hr' & Hg). cbn [mbind option_bind].
    rewrite zlen_nat, Htk. eexists _, s'. split_and!; [done|done|]. rewrite <- app_assoc, Hg, Hi1, app_assoc, take_drop. done.
Qed.

End laws.


End PktLoopProofs.
