(* ===== verification/PktIoSpec.v ===== *)
(** Packet interfaces (PktIo, PktLoop): queues and packets to run them on, the
    instances, and the inputs on which the code does otherwise. *)

From S2P Require Import Prelude Pool PoolProofs PoolCreate Buffer Packet Parse Classify ClassifyProofs ClassifySpec PktIo PktIoProofs PktLoop PktLoopProofs.

Open Scope Z_scope.
Open Scope c_scope.

Module PktIoSpec.
Import PktIo PktIoProofs PktLoop PktLoopProofs.

(** ** Queues and packets *)

Record mini := Mini { m_hdrs : gmap Z (Pool.buffer_hdr * Packet.packet_hdr); m_queues : gmap Z (list Z); m_next : Z; m_cmds : nat }.

Definition set_queues (qs : gmap Z (list Z)) (v : mini) : mini := Mini (m_hdrs v) qs (m_next v) (m_cmds v).

#[export] Instance mini_packets : Classify.PacketWorld mini := {|
  Classify.w_mem _ := ∅;
  Classify.w_hdr p v := m_hdrs v !! p;
  Classify.w_put_hdr p h v := Mini (alter (fun x => (fst x, h)) p (m_hdrs v)) (m_queues v) (m_next v) (m_cmds v);
  Classify.w_packet_pool _ _ := 1;
  Classify.w_packet_free p v := Some (Mini (delete p (m_hdrs v)) (m_queues v) (m_next v) (m_cmds v));
  Classify.w_packet_copy _ _ v := Some (0, v);
  Classify.w_packet_alloc _ _ v := Some (0, v);
  Classify.w_copydata_in _ _ _ _ v := Some (0, v);
  Classify.w_pull_tail _ _ v := Some v;
  Classify.w_queue_enq q p v := l ← m_queues v !! q; Some (0, set_queues (<[q := l ++ [p]]> (m_queues v)) v);
  Classify.w_queue_deq_multi q n v := l ← m_queues v !! q; Some (take (Z.to_nat n) l, set_queues (<[q := drop (Z.to_nat n) l]> (m_queues v)) v)
|}.

Definition mini_create (v : mini) : Z * mini :=
  if bool_decide (m_next v = 0 \/ is_Some (m_queues v !! m_next v)) then (0, v) else (m_next v, Mini (m_hdrs v) (<[m_next v := []]> (m_queues v)) (m_next v + 1) (m_cmds v)).
Definition mini_destroy (q : Z) (v : mini) : Z * mini :=
  match m_queues v !! q with Some [] => (0, set_queues (delete q (m_queues v)) v) | _ => (-1, v) end.
Definition mini_known (q : Z) (v : mini) : option mini := _ ← m_queues v !! q; Some v.

(** A driver without a port. *)
Definition no_device : pktio_if_ops_t (loopw mini) := {|
  op_init := None; op_term := None; op_open _ _ _ w := Some (-1, w); op_close _ w := Some (-1, w); op_start := None; op_stop := None; op_stats := None;
  op_stats_reset := None; op_recv _ _ w := Some (-1, [], w); op_send _ _ w := Some (-1, w); op_mtu_get _ w := Some (0, w);
  op_promisc_mode_set _ _ w := Some (-1, w); op_promisc_mode_get _ w := Some (-1, w); op_mac_get _ w := Some (-1, w); op_link_status := None;
  op_capability := None; op_input_queues_config := None; op_output_queues_config := None; op_in_queues := None; op_pktin_queues := None;
  op_pktout_queues := None; op_recv_queue := None; op_send_queue := None
|}.

#[export] Instance mini_loop : LoopWorld mini := {|
  v_queue_create _ _ v := Some (mini_create v);
  v_queue_destroy q v := Some (mini_destroy q v);
  v_queue_type q v := _ ← m_queues v !! q; Some ODP_QUEUE_TYPE_PLAIN;
  v_queue_set_pktin q _ := mini_known q;
  v_queue_set_pktin_hooks := mini_known;
  v_queue_set_pktout q _ := mini_known q;
  v_queue_enq_multi q pkts v := l ← m_queues v !! q; Some (zlen pkts, set_queues (<[q := l ++ pkts]> (m_queues v)) v);
  v_pool_is_packet _ _ := true;
  v_schedule_pktio_start _ _ v :=
    match m_cmds v with O => None | S n => Some (Mini (m_hdrs v) (m_queues v) (m_next v) n) end;
  other_drivers := [no_device]
|}.

Lemma mini_queue q (v : mini) : q ∈ dom (m_queues v) ∖ {[0]} -> exists l, m_queues v !! q = Some l.
Proof. intros [Hq _]%elem_of_difference. by apply elem_of_dom in Hq. Qed.
Lemma mini_hdr_put p p' h (v : mini) : has_hdr v p' -> has_hdr (Classify.w_put_hdr p h v) p'.
Proof. unfold has_hdr. simpl. rewrite lookup_alter_is_Some. done. Qed.
Lemma mini_dom q l (v : mini) : is_Some (m_queues v !! q) -> dom (<[q := l]> (m_queues v)) = dom (m_queues v).
Proof. intros Hq. rewrite dom_insert_L. apply elem_of_dom in Hq. set_solver. Qed.

#[export] Program Instance mini_laws : LoopLaws mini := {| live v := dom (m_queues v) ∖ {[0]}; items v q := default [] (m_queues v !! q); cmds := m_cmds |}.
Next Obligation. intros d i dev pool w ->%list_elem_of_singleton. eexists. by split. Qed.
Next Obligation. intros d f w ->%list_elem_of_singleton. done. Qed.
Next Obligation. intros d ->%list_elem_of_singleton. split; [done|]. by intros [? ?]. Qed.
Next Obligation. intros v. set_solver. Qed.
Next Obligation.
  intros name t v. simpl. eexists. split; [done|]. unfold mini_create. case_bool_decide as E; cbn [Z.eqb]; [by split_and!|]. apply Decidable.not_or in E as [E0 E]. rewrite (proj2 (Z.eqb_neq _ _) E0).
  assert (m_queues v !! m_next v = None) as En by (by apply eq_None_not_Some). split_and!.
  - intros [Hd _]%elem_of_difference. by apply elem_of_dom in Hd.
  - simpl. rewrite dom_insert_L. set_solver.
  - simpl. by rewrite lookup_insert_eq.
  - intros q' Hq'. destruct (mini_queue q' v Hq') as [l Hl]. simpl. rewrite lookup_insert_ne; [done|]. congruence.
  - done.
Qed.
Next Obligation.
  intros q v Hq. destruct (mini_queue q v Hq) as [l Hl]. simpl. eexists. split; [done|]. unfold mini_destroy. rewrite Hl. destruct l as [|x l]; simpl.
  - split_and!; [rewrite dom_delete_L; set_solver|done| |done]. intros q' Hq'. rewrite lookup_delete_ne; [done|]. rewrite dom_delete_L in Hq'. set_solver.
  - split_and!; done.
Qed.
Next Obligation.
  intros q pkts v Hq. destruct (mini_queue q v Hq) as [l Hl]. simpl. rewrite Hl. cbn [mbind option_bind]. eexists. split; [done|]. simpl. split_and!; [done|by rewrite mini_dom|by rewrite lookup_insert_eq| |done].
  intros q' _ Hne. by rewrite lookup_insert_ne.
Qed.
Next Obligation.
  intros q n v Hq _. destruct (mini_queue q v Hq) as [l Hl]. simpl. rewrite Hl. cbn [mbind option_bind]. eexists. split; [done|]. simpl. split_and!; [done|by rewrite mini_dom|by rewrite lookup_insert_eq| |done].
  intros q' _ Hne. by rewrite lookup_insert_ne.
Qed.
Next Obligation. intros p h v _. split_and!; [done|done|]. intros p'. apply mini_hdr_put. Qed.
Next Obligation. intros q v Hq. destruct (mini_queue q v Hq) as [l Hl]. simpl. rewrite Hl. by eexists. Qed.
Next Obligation. intros q p v Hq. destruct (mini_queue q v Hq) as [l Hl]. exists v. simpl. unfold mini_known. by rewrite Hl. Qed.
Next Obligation. intros q v Hq. destruct (mini_queue q v Hq) as [l Hl]. exists v. simpl. unfold mini_known. by rewrite Hl. Qed.
Next Obligation. intros q h v Hq. destruct (mini_queue q v Hq) as [l Hl]. exists v. simpl. unfold mini_known. by rewrite Hl. Qed.
Next Obligation. intros h k v Hc. simpl. destruct (m_cmds v) as [|n] eqn:E; [lia|]. eexists. split; [done|]. split; [by split_and!|]. simpl. lia. Qed.

(** ** Instances *)

(** Three packets, no queue, and nothing classified. *)
Definition mini0 : mini :=
  Mini (list_to_map [(71, (ClassifySpec.toy_buf 1000, Packet.raw_pkt)); (72, (ClassifySpec.toy_buf 2000, Packet.raw_pkt)); (73, (ClassifySpec.toy_buf 3000, Packet.raw_pkt))]) ∅ 1 3.
Definition world0 : loopw mini := LW (replicate 64 zero_port) (Classify.CS [] [] [] (replicate 64 Classify.zero_pktio)) mini0.

Definition sys0 : pktio_sys (loopw mini) := match odp_pktio_init_global true world0 with Some (Some s, _) => s | _ => Psys [] world0 end.
Definition after (o : op) (s : pktio_sys (loopw mini)) : pktio_sys (loopw mini) := default s (snd <$> call o s).
Definition direct : odp_pktio_param_t := PktioParam ODP_PKTIN_MODE_DIRECT ODP_PKTOUT_MODE_DIRECT.
Definition sys1 := after (Open "loop" 1 direct) sys0.
Definition sys2 := after (Start 1) sys1.

Lemma world0_ok : ok world0 all_closed [].
Proof.
  split; [done| |constructor|set_solver|done|done]. intros i Hi. exists Classify.zero_pktio. split; [|done]. cbn [classes world0 Classify.pktio_tbl]. rewrite zget_nonneg by lia. apply lookup_replicate. split; [done|lia].
Qed.
Lemma sys0_init : odp_pktio_init_global true world0 = Some (Some sys0, world sys0).
Proof. vm_compute. done. Qed.
Lemma sys0_reach : reach sys0.
Proof. exact (reach_start world0 _ _ world0_ok sys0_init). Qed.
Lemma reach_step s o : reach s -> legal o s -> (exists r s', call o s = Some (r, s')) -> reach (after o s).
Proof. intros Hr Hl (r & s' & Hc). eapply reach_call; [done|done|]. unfold after. by rewrite Hc. Qed.

Lemma open_dec h s : (if bool_decide (1 <= h <= 64) then match zget (entries s) (h - 1) with Some e => taken e | None => false end else false) = true -> is_open (W := loopw mini) h s.
Proof. case_bool_decide; [|done]. destruct (zget _ _) as [e|] eqn:E; [|done]. intros Ht. split; [done|]. eauto. Qed.

Lemma sys1_reach : reach sys1.
Proof. apply reach_step; [apply sys0_reach|done|]. vm_compute. eauto. Qed.
Lemma sys2_reach : reach sys2.
Proof.
  apply reach_step; [apply sys1_reach| |vm_compute; eauto]. split; [apply open_dec; by vm_compute|].
  intros e He Hm. exfalso. vm_compute in He. injection He as <-. discriminate Hm.
Qed.

Lemma sys0_empty : represents sys0 ∅.
Proof.
  intros dev h. destruct (pktio_init_inv world0 world0_ok) as ([r w] & Hr & Hv). rewrite sys0_init in Hr. apply (f_equal (fmap fst)) in Hr. cbn [fmap option_fmap option_map fst] in Hr. assert (r = Some sys0) as -> by congruence.
  destruct (Hv sys0 eq_refl) as [_ Hn]. rewrite Hn, lookup_empty. clear. by split.
Qed.


Definition ex_traffic : list traffic := [Tx [71; 72]; Rx 1; Tx [73]; Rx 8].

Lemma ex_traffic_ok : Forall (traffic_ok (base (world sys2))) ex_traffic.
Proof.
  assert (Forall (has_hdr (base (world sys2))) [71; 72; 73]) as Hh by (repeat constructor; eexists; vm_compute; reflexivity). rewrite !Forall_cons in Hh. destruct Hh as (H1 & H2 & H3 & _).
  repeat apply Forall_cons_2; [split; [unfold zlen; simpl; lia|]|simpl; lia|split; [unfold zlen; simpl; lia|]|simpl; lia|constructor]; repeat apply Forall_cons_2; auto.
Qed.


(** ** Where the code does otherwise *)

Definition result (x : option (Z * pktio_sys (loopw mini))) : option Z := fst <$> x.

(** The table is cleared to zero, which is STATE_START: an interface that was never
    opened passes for a started one, and receiving follows its NULL driver. *)
Theorem recv_never_opened : odp_pktio_recv 5 8 sys0 = None /\ odp_pktio_send 5 [71] sys0 = None.
Proof. split; by vm_compute. Qed.

(** The number of input queues outlives the interface: opened again for scheduling and
    not configured, starting fails with no input queue, and the interface runs. *)
Definition sched : odp_pktio_param_t := PktioParam ODP_PKTIN_MODE_SCHED ODP_PKTOUT_MODE_DIRECT.
Definition stale : pktio_sys (loopw mini) :=
  foldl (fun s o => after o s) sys0 [Open "loop" 1 sched; InConfig (Capa 0 0) 1 (Some 1); Close 1; Open "loop" 1 sched].
Theorem start_fails_and_runs : result (call (Start 1) stale) = Some (-1) /\ zget (entries (after (Start 1) stale)) 0 ≫= (fun e => Some (state e)) = Some STATE_START.
Proof. split; by vm_compute. Qed.

(** Every start in scheduled mode takes a command of the scheduler and stopping gives
    none back (the scheduler drops a command only when the interface is closed or
    has no input queue): with three commands the fourth start aborts the program. *)
Definition polled : pktio_sys (loopw mini) := foldl (fun s o => after o s) sys0 [Open "loop" 1 sched; InConfig (Capa 0 0) 1 (Some 1)].
Definition restart (s : pktio_sys (loopw mini)) : option (pktio_sys (loopw mini)) :=
  '(r, s) ← odp_pktio_start 1 s; '(r', s) ← odp_pktio_stop 1 s; if (r =? 0) && (r' =? 0) then Some s else None.
Theorem start_stop_exhausts :
  exists s, (s ← restart polled; s ← restart s; restart s) = Some s /\ m_cmds (base (world s)) = 0%nat /\ odp_pktio_start 1 s = None.
Proof.
  assert (match (s ← restart polled; s ← restart s; restart s) with
          | Some s => (m_cmds (base (world s)) =? 0)%nat && (if odp_pktio_start 1 s then false else true)
          | None => false end = true) as E by (by vm_compute).
  destruct (s ← restart polled; s ← restart s; restart s) as [s|]; [|done]. exists s. apply andb_prop in E as [E1%Nat.eqb_eq E2].
  split_and!; [done|done|]. by destruct (odp_pktio_start 1 s).
Qed.

(** Taking the default input queue away when there is none looks up the queue of the
    invalid handle. *)
Theorem remdef_without_default : odp_pktio_inq_remdef 1 sys1 = None.
Proof. by vm_compute. Qed.

(** A stopped loop interface is not closed with packets on its queue: the program
    aborts. *)
Theorem close_with_packets : odp_pktio_close 1 (after (Stop 1) (after (Send 1 [71]) sys2)) = None.
Proof. by vm_compute. Qed.

(** More than eight packets at once do not fit the array of the sending function. *)
Theorem loop_send_overflows : result (odp_pktio_send 1 (replicate 8 71) sys2) = Some 8 /\ odp_pktio_send 1 (replicate 9 71) sys2 = None.
Proof. split; by vm_compute. Qed.

(** A handle without an entry is reported by reading behind the handle. *)
Theorem bad_handle_read {W} `{PktioWorld W} (s : pktio_sys W) : odp_pktio_mtu ODP_PKTIO_INVALID s = None /\ odp_pktio_stats 65 s = None /\ odp_pktin_queue 0 1 s = None.
Proof. done. Qed.

End PktIoSpec.
