(* ===== verification/Chksum.v ===== *)
(** Checksums: helper/include/odp/helper/chksum.h, and the checksum functions of ip.h
    and udp.h, on packets of Packet and Parse, against the Internet checksum of
    RFC 1071.  The processor is little-endian.  *)

From S2P Require Import Prelude Pool Buffer Packet Parse.

Open Scope Z_scope.
Open Scope c_scope.

Module Chksum.
Import Pool Buffer Packet Parse.

(** ** The code *)

(** The words at a pointer to the bytes [buf]; [len] counts down. *)
Fixpoint chksum_loop (buf : list Z) (len sum : Z) : option (list Z * Z * Z) :=
  if len >? 1 then
    match buf with
    | b0 :: b1 :: buf => chksum_loop buf (len - 2) (sum +u32 (b0 + 256 * b1))
    | _ => None
    end
  else Some (buf, len, sum).

(** Two times the carry is added; the complement is cut to 16 bits. *)
Definition fold_sum (sum : Z) : Z :=
  let sum := Z.shiftr sum 16 +u32 (sum & 0xFFFF) in
  sum +u32 Z.shiftr sum 16.

Definition odp_chksum (buffer : list Z) (len : Z) : option Z :=
  '(buf, len, sum) ← chksum_loop buffer len 0;
  sum ← (if len =? 1 then b ← head buf; Some (sum +u32 b) else Some sum);
  Some (u16 (Z.lnot (fold_sum sum))).

(** The field [chksum] of an IPv4 header. *)
Definition get_chksum (ip : list Z) : option Z := b0 ← ip !! 10%nat; b1 ← ip !! 11%nat; Some (b0 + 256 * b1).
Definition set_chksum (v : Z) (ip : list Z) : list Z := <[11%nat := v `div` 256]> (<[10%nat := v `mod` 256]> ip).

(** [ip0] is what the local variable [ip] holds; it stays when nothing is copied. *)
Definition odph_ipv4_csum_valid (ip0 : list Z) (m : mem) (b : buffer_hdr) (p : packet_hdr) : option (Z * packet_hdr) :=
  '(off, p) ← odp_packet_l3_offset m b p;
  if off =? 0 then Some (0, p)
  else
    '(off, p) ← odp_packet_l3_offset m b p;
    '(ret, dst) ← odp_packet_copydata_out m b p off 20;
    let ip := if ret =? 0 then dst else ip0 in
    chksum ← get_chksum ip;
    res ← odp_chksum (set_chksum 0 ip) 20;
    Some (if res =? chksum then 1 else 0, p).

(** The header is where [odp_packet_l3_ptr] points; the number of bytes there is not
    asked for. *)
Definition odph_ipv4_csum_update (m : mem) (b : buffer_hdr) (p : packet_hdr) : option (Z * mem * packet_hdr) :=
  '(off, p) ← odp_packet_l3_offset m b p;
  if off =? 0 then Some (0, m, p)
  else
    '(ip, _, p) ← odp_packet_l3_ptr m b p;
    w ← load m ip 20;
    sum ← odp_chksum w 20;
    m ← store m (ip + 10) [sum `mod` 256; sum `div` 256];
    Some (sum, m, p).

(** The words from address [buf] on. *)
Fixpoint udp_loop (fuel : nat) (m : mem) (buf udplen sum : Z) : option (Z * Z * Z) :=
  if udplen >? 1 then
    match fuel with
    | O => None
    | S fuel => l ← load m buf 2; match l with [b0; b1] => udp_loop fuel m (buf + 2) (udplen - 2) (sum +u32 (b0 + 256 * b1)) | _ => None end
    end
  else Some (buf, udplen, sum).

(** [ld16]: a 16-bit word in host order. *)
Definition ld16 (m : mem) (a : Z) : option Z := l ← load m a 2; match l with [b0; b1] => Some (b0 + 256 * b1) | _ => None end.

Definition odph_ipv4_udp_chksum (m : mem) (b : buffer_hdr) (p : packet_hdr) : option (Z * packet_hdr) :=
  '(off, p) ← odp_packet_l4_offset m b p;
  if off =? ODP_PACKET_OFFSET_INVALID then Some (0, p)
  else
    '(iph, _, p) ← odp_packet_l3_ptr m b p;
    '(udph, _, p) ← odp_packet_l4_ptr m b p;
    s0 ← ld16 m (iph + 12); s1 ← ld16 m (iph + 14); d0 ← ld16 m (iph + 16); d1 ← ld16 m (iph + 18); length ← ld16 m (udph + 4);
    proto ← m !! (iph + 9);
    let sum := (s0 + s1 + d0 + d1 + length) +u32 (256 * proto) in
    let udplen := length `mod` 256 * 256 + length `div` 256 in
    '(buf, udplen, sum) ← udp_loop (Z.to_nat udplen) m udph udplen sum;
    sum ← (if negb (udplen =? 0) then w ← ld16 m buf; Some (sum +u32 (w `mod` 256)) else Some sum);
    let sum := u32 (Z.lnot (fold_sum sum)) in
    Some (if sum =? 0 then 0xFFFF else u16 sum, p).

(** ** The Internet checksum *)

(** Words in network byte order; an odd byte is padded with zero. *)
Fixpoint net_words (l : list Z) : list Z :=
  match l with
  | b0 :: b1 :: l => (256 * b0 + b1) :: net_words l
  | [b0] => [256 * b0]
  | [] => []
  end.
(** Addition with end-around carry. *)
Definition ones_add (x y : Z) : Z := let s := x + y in if s >? 0xFFFF then s - 0xFFFF else s.
Definition rfc1071 (l : list Z) : Z := 0xFFFF - foldr ones_add 0 (net_words l).

Definition swap16 (x : Z) : Z := 256 * (x `mod` 256) + x `div` 256.

Definition byte_list (l : list Z) : Prop := Forall (fun b => 0 <= b < 256) l.

Example chksum_ex : odp_chksum [0x00; 0x01; 0xf2; 0x03; 0xf4; 0xf5; 0xf6; 0xf7] 8 = Some (swap16 0x220d) /\ rfc1071 [0x00; 0x01; 0xf2; 0x03; 0xf4; 0xf5; 0xf6; 0xf7] = 0x220d.
Proof. split; by vm_compute. Qed.

(** ** Numbers modulo 65535 *)

(** The number from 1 to 65535 with the same remainder; 0 for 0. *)
Definition norm (n : Z) : Z := if n =? 0 then 0 else (n - 1) `mod` 65535 + 1.

Lemma norm_range n : 0 <= n -> 0 <= norm n <= 65535.
Proof. intros. unfold norm. destruct (n =? 0); [lia|]. pose proof (Z.mod_pos_bound (n - 1) 65535). lia. Qed.

Lemma norm_unique n x k : 0 <= n -> 0 <= x <= 65535 -> n = x + 65535 * k -> (x = 0 <-> n = 0) -> x = norm n.
Proof.
  intros Hn Hx E Hz. unfold norm. destruct (Z.eqb_spec n 0) as [->|Hne]; [tauto|]. assert (1 <= x) by lia. replace (n - 1) with (x - 1 + k * 65535) by lia. rewrite Z.mod_add by lia. rewrite Z.mod_small by lia. lia.
Qed.
Lemma norm_eq n : 0 <= n -> exists k, n = norm n + 65535 * k.
Proof. intros. unfold norm. destruct (Z.eqb_spec n 0) as [->|]; [by exists 0|]. exists ((n - 1) `div` 65535). pose proof (Z.div_mod (n - 1) 65535). lia. Qed.
Lemma norm_zero n : 0 <= n -> norm n = 0 <-> n = 0.
Proof. intros. unfold norm. destruct (Z.eqb_spec n 0) as [->|]; [done|]. pose proof (Z.mod_pos_bound (n - 1) 65535). lia. Qed.

Lemma norm_shift n n' k : 0 <= n -> 0 <= n' -> n' = n + 65535 * k -> (n' = 0 <-> n = 0) -> norm n' = norm n.
Proof.
  intros Hn Hn' E Hz. destruct (norm_eq n Hn) as [j Hj]. symmetry. apply (norm_unique n' (norm n) (j + k)); [done|by apply norm_range|lia|]. rewrite norm_zero by done. tauto.
Qed.

Lemma ones_add_norm x n : 0 <= x <= 65535 -> 0 <= n -> ones_add x (norm n) = norm (x + n).
Proof.
  intros Hx Hn. destruct (norm_eq n Hn) as [k Hk]. pose proof (norm_range n Hn) as Hr. pose proof (norm_zero n Hn) as Hz. unfold ones_add. cbv zeta.
  rewrite Z.gtb_ltb. destruct (Z.ltb_spec 0xFFFF (x + norm n)).
  - apply (norm_unique _ _ (k + 1)); lia.
  - apply (norm_unique _ _ k); lia.
Qed.

Lemma fold_norm S : 0 <= S < 2 ^ 32 -> u16 (Z.lnot (fold_sum S)) = 65535 - norm S.
Proof.
  intros HS. unfold fold_sum. change 0xFFFF with (Z.ones 16). rewrite Z.land_ones, !Z.shiftr_div_pow2 by lia. change (2 ^ 16) with 65536.
  pose proof (Z.div_mod S 65536 ltac:(lia)) as Hd. pose proof (Z.mod_pos_bound S 65536 ltac:(lia)) as Hm. pose proof (Z.div_pos S 65536 ltac:(lia) ltac:(lia)). assert (S `div` 65536 < 65536) by (apply Z.div_lt_upper_bound; lia).
  set (q := S `div` 65536) in *. set (r := S `mod` 65536) in *. rewrite (u32_small (q + r)) by (unfold is_u32; lia). unfold Z.lnot, u16, wrap. change (2 ^ 16) with 65536.
  destruct (Z.ltb_spec (q + r) 65536) as [Hlt|Hge].
  - rewrite (Z.div_small (q + r)), Z.add_0_r by lia. rewrite (u32_small (q + r)) by (unfold is_u32; lia). rewrite <- (norm_unique S (q + r) q) by lia.
    replace (Z.pred (- (q + r))) with (65535 - (q + r) + (-1) * 65536) by lia. rewrite Z.mod_add, Z.mod_small by lia. done.
  - assert ((q + r) `div` 65536 = 1) as -> by (symmetry; apply (Z.div_unique_pos _ _ 1 (q + r - 65536)); lia). rewrite u32_small by (unfold is_u32; lia). rewrite <- (norm_unique S (q + r - 65535) (q + 1)) by lia.
    replace (Z.pred (- (q + r + 1))) with (65535 - (q + r - 65535) + (-2) * 65536) by lia. rewrite Z.mod_add, Z.mod_small by lia. done.
Qed.

(** ** Sums of words *)

Fixpoint host_sum (l : list Z) : Z := match l with b0 :: b1 :: l => b0 + 256 * b1 + host_sum l | [b0] => b0 | [] => 0 end.
Fixpoint odd_sum (l : list Z) : Z := match l with _ :: b1 :: l => b1 + odd_sum l | _ => 0 end.

(** Induction on the words of a list. *)
Lemma words_ind (P : list Z -> Prop) : P [] -> (forall b, P [b]) -> (forall b0 b1 l, P l -> P (b0 :: b1 :: l)) -> forall l, P l.
Proof. intros H0 H1 H2. fix IH 1. intros [|b0 [|b1 l]]; [done|done|]. apply H2, IH. Qed.

Lemma host_sum_range l : byte_list l -> 0 <= host_sum l <= 65535 * ((zlen l + 1) `div` 2) /\ 0 <= odd_sum l.
Proof.
  unfold byte_list, zlen. induction l as [|b|b0 b1 l IH] using words_ind; intros Hl; cbn [host_sum odd_sum length].
  - done.
  - apply Forall_cons_1 in Hl as [? _]. change ((Z.of_nat 1 + 1) `div` 2) with 1. lia.
  - apply Forall_cons_1 in Hl as [? Hl]. apply Forall_cons_1 in Hl as [? Hl]. specialize (IH Hl). replace (Z.of_nat (S (S (length l))) + 1) with (Z.of_nat (length l) + 1 + 1 * 2) by lia. rewrite Z.div_add by lia. lia.
Qed.

Lemma net_sum l : byte_list l -> foldr ones_add 0 (net_words l) = norm (256 * host_sum l).
Proof.
  unfold byte_list. induction l as [|b|b0 b1 l IH] using words_ind; intros Hl; cbn [net_words foldr host_sum].
  - done.
  - apply Forall_cons_1 in Hl as [? _]. change 0 with (norm 0). rewrite ones_add_norm by lia. f_equal. lia.
  - apply Forall_cons_1 in Hl as [? Hl]. apply Forall_cons_1 in Hl as [? Hl]. rewrite IH by done. destruct (host_sum_range l Hl). rewrite ones_add_norm by lia. symmetry. apply (norm_shift _ _ b1); lia.
Qed.

Lemma chksum_loop_spec l : forall s, byte_list l -> 0 <= s -> s + host_sum l < 2 ^ 32 ->
  exists rest s', chksum_loop l (zlen l) s = Some (rest, zlen rest, s') /\ ((rest = [] /\ s' = s + host_sum l) \/ exists b, rest = [b] /\ 0 <= b < 256 /\ 0 <= s' /\ s' + b = s + host_sum l).
Proof.
  unfold byte_list, zlen. induction l as [|b|b0 b1 l IH] using words_ind; intros s Hl Hs Hb.
  - exists [], s. split; [done|]. left. simpl. split; [done|lia].
  - apply Forall_cons_1 in Hl as [? _]. exists [b], s. split; [done|]. right. exists b. simpl in *. split_and!; [done|lia..].
  - apply Forall_cons_1 in Hl as [? Hl]. apply Forall_cons_1 in Hl as [? Hl]. destruct (host_sum_range l Hl) as [Hr _]. cbn [chksum_loop length host_sum] in *. rewrite Z.gtb_ltb, (proj2 (Z.ltb_lt _ _)) by lia.
    rewrite u32_small by (unfold is_u32; lia). replace (Z.of_nat (S (S (length l))) - 2) with (Z.of_nat (length l)) by lia.
    destruct (IH (s + (b0 + 256 * b1)) Hl ltac:(lia) ltac:(lia)) as (rest & s' & -> & Hc). exists rest, s'. split; [done|]. destruct Hc as [[-> ->]|(b & -> & ? & ? & ?)]; [left; split; [done|lia]|right]. exists b. split_and!; [done|lia..].
Qed.

Lemma chksum_norm l : byte_list l -> zlen l <= 131072 -> odp_chksum l (zlen l) = Some (65535 - norm (host_sum l)).
Proof.
  intros Hl Hn. destruct (host_sum_range l Hl) as [Hr _]. assert ((zlen l + 1) `div` 2 < 65537) by (apply Z.div_lt_upper_bound; lia).
  unfold odp_chksum. destruct (chksum_loop_spec l 0 Hl ltac:(lia) ltac:(lia)) as (rest & s' & -> & [[-> ->]|(b & -> & ? & ? & Hs)]); cbn [mbind option_bind].
  - change (zlen [] =? 1) with false. cbn [mbind option_bind]. by rewrite Z.add_0_l, fold_norm by lia.
  - change (zlen [b] =? 1) with true. cbn [head mbind option_bind]. rewrite u32_small by (unfold is_u32; lia). rewrite Hs, Z.add_0_l, fold_norm by lia. done.
Qed.

Lemma swap_norm n : 0 <= n -> swap16 (norm n) = norm (256 * n).
Proof.
  intros Hn. pose proof (norm_range n Hn) as Hr. destruct (norm_eq n Hn) as [k Hk]. pose proof (norm_zero n Hn) as Hz. set (x := norm n) in *.
  pose proof (Z.div_mod x 256 ltac:(lia)). pose proof (Z.mod_pos_bound x 256 ltac:(lia)). assert (0 <= x `div` 256 < 256) by (split; [apply Z.div_pos; lia|apply Z.div_lt_upper_bound; lia]).
  unfold swap16. apply (norm_unique (256 * n) _ (x `div` 256 + 256 * k)); lia.
Qed.
Lemma swap_complement y : 0 <= y <= 65535 -> swap16 (65535 - y) = 65535 - swap16 y.
Proof.
  intros Hy. unfold swap16. pose proof (Z.div_mod y 256 ltac:(lia)) as Hd. pose proof (Z.mod_pos_bound y 256 ltac:(lia)).
  assert (65535 - y = (255 - y `mod` 256) + (255 - y `div` 256) * 256) as -> by lia. rewrite Z.mod_add, Z.div_add, Z.mod_small, Z.div_small by lia. lia.
Qed.

(** C37: the checksum.  For a buffer of up to 131072 bytes, on a little-endian host,
    [odp_chksum] reads exactly its bytes and returns the Internet checksum of RFC 1071
    with its bytes swapped, so that the result stored as it is in memory is in network
    byte order.  (The interface says host order, see [chksum_network_order].) *)
Theorem odp_chksum_rfc1071 (l : list Z) : byte_list l -> zlen l <= 131072 -> exists c, odp_chksum l (zlen l) = Some c /\ 0 <= c < 2 ^ 16 /\ swap16 c = rfc1071 l.
Proof.
  intros Hl Hn. rewrite chksum_norm by done. destruct (host_sum_range l Hl) as [Hr _]. pose proof (norm_range (host_sum l) ltac:(lia)). eexists. split; [done|]. split; [lia|].
  rewrite swap_complement by done. rewrite swap_norm by lia. unfold rfc1071. by rewrite net_sum.
Qed.
Lemma odp_chksum_rfc1071_witness : exists c, odp_chksum [0x45; 0; 0; 60; 1] (zlen [0x45; 0; 0; 60; 1]) = Some c /\ 0 <= c < 2 ^ 16 /\ swap16 c = rfc1071 [0x45; 0; 0; 60; 1].
Proof. apply (odp_chksum_rfc1071 [0x45; 0; 0; 60; 1]); [repeat constructor; lia|vm_compute; discriminate]. Defined.

(** The checksum of the word 0x1234 is 0xEDCB; the value returned is 0xCBED, the same
    bytes in network order. *)
Theorem chksum_network_order : rfc1071 [0x12; 0x34] = 0xEDCB /\ odp_chksum [0x12; 0x34] 2 = Some 0xCBED.
Proof. split; by vm_compute. Qed.

(** ** Words of a header *)

Definition word (j : nat) (l : list Z) : Z := default 0 (l !! (2 * j)%nat) + 256 * default 0 (l !! (2 * j + 1)%nat).
Definition set_word (j : nat) (v : Z) (l : list Z) : list Z := <[(2 * j + 1)%nat := v `div` 256]> (<[(2 * j)%nat := v `mod` 256]> l).

Lemma host_sum_set l : forall j v, (2 * j + 1 < length l)%nat -> host_sum (set_word j v l) = host_sum l - word j l + v.
Proof.
  induction l as [|b|b0 b1 l IH] using words_ind; intros j v Hj; [simpl in Hj; lia..|]. destruct j as [|j].
  - unfold set_word, word. simpl. pose proof (Z.div_mod v 256). lia.
  - simpl in Hj. specialize (IH j v ltac:(lia)). unfold set_word, word in *. replace (2 * S j)%nat with (S (S (2 * j)))%nat by lia. replace (S (S (2 * j)) + 1)%nat with (S (S (2 * j + 1)))%nat by lia.
    change (b0 + 256 * b1 + host_sum (<[(2 * j + 1)%nat := v `div` 256]> (<[(2 * j)%nat := v `mod` 256]> l)) =
      b0 + 256 * b1 + host_sum l - (default 0 (l !! (2 * j)%nat) + 256 * default 0 (l !! (2 * j + 1)%nat)) + v). rewrite IH. lia.
Qed.
Lemma set_word_length j v l : length (set_word j v l) = length l.
Proof. unfold set_word. by rewrite !length_insert. Qed.
Lemma word_set j v l : (2 * j + 1 < length l)%nat -> word j (set_word j v l) = v.
Proof.
  intros Hj. unfold word, set_word. rewrite list_lookup_insert_ne, list_lookup_insert_eq by lia. rewrite list_lookup_insert_eq by (rewrite length_insert; lia). simpl. pose proof (Z.div_mod v 256). lia.
Qed.
Lemma word_set_ne i j v l : i <> j -> word i (set_word j v l) = word i l.
Proof. intros Hij. unfold word, set_word. by rewrite !list_lookup_insert_ne by lia. Qed.
Lemma word_range j l : byte_list l -> 0 <= word j l < 65536.
Proof.
  intros Hl. assert (forall k, 0 <= default 0 (l !! k) < 256) as Hk by (intros k; destruct (l !! k) eqn:E; simpl; [by eapply (Forall_lookup_1 _ _ _ _ Hl)|lia]). unfold word. pose proof (Hk (2 * j)%nat). pose proof (Hk (2 * j + 1)%nat). lia.
Qed.
Lemma set_word_bytes j v l : byte_list l -> 0 <= v < 65536 -> byte_list (set_word j v l).
Proof.
  intros Hl Hv. unfold byte_list, set_word. apply Forall_insert; [apply Forall_insert; [done|]|]; [apply Z.mod_pos_bound; lia|]. split; [apply Z.div_pos; lia|apply Z.div_lt_upper_bound; lia].
Qed.

(** The test of the code on the 20 bytes of a header. *)
Definition csum_ok (h : list Z) : bool := 65535 - norm (host_sum h - word 5 h) =? word 5 h.

Lemma csum_valid_bytes h : length h = 20%nat -> byte_list h ->
  (chksum ← get_chksum h; res ← odp_chksum (set_chksum 0 h) 20; Some (if res =? chksum then 1 else 0)) = Some (if csum_ok h then 1 else 0).
Proof.
  intros Hlen Hb. unfold get_chksum. destruct (lookup_lt_is_Some_2 h 10 ltac:(lia)) as [b0 E0]. destruct (lookup_lt_is_Some_2 h 11 ltac:(lia)) as [b1 E1]. rewrite E0, E1. cbn [mbind option_bind].
  change (set_chksum 0 h) with (set_word 5 0 h). assert (zlen (set_word 5 0 h) = 20) as Hz by (unfold zlen; rewrite set_word_length; lia).
  rewrite <- Hz at 1. rewrite chksum_norm; [|apply set_word_bytes; [done|lia]|lia]. cbn [mbind option_bind]. rewrite host_sum_set, Z.add_0_r by lia. unfold csum_ok.
  assert (word 5 h = b0 + 256 * b1) as -> by (unfold word; simpl; by rewrite E0, E1). done.
Qed.

(** A changed word is found. *)
Lemma csum_detects h j y : length h = 20%nat -> byte_list h -> csum_ok h = true -> (j < 10)%nat -> 0 <= y < 65536 -> y <> word j h ->
  ~ (word j h = 0 /\ y = 65535) -> ~ (word j h = 65535 /\ y = 0) -> csum_ok (set_word j y h) = false.
Proof.
  intros Hlen Hb Hok Hj Hy Hne H1 H2. unfold csum_ok in *. apply Z.eqb_eq in Hok. apply Z.eqb_neq. rewrite host_sum_set by lia. pose proof (word_range j h Hb) as Hx. destruct (decide (j = 5)%nat) as [->|Hj5].
  - rewrite word_set by lia. replace (host_sum h - word 5 h + y - y) with (host_sum h - word 5 h) by lia. lia.
  - rewrite word_set_ne by lia. intros E. assert (norm (host_sum h - word j h + y - word 5 h) = norm (host_sum h - word 5 h)) as En by lia.
    assert (0 <= host_sum h - word 5 h) as Ha.
    { rewrite <- (Z.add_0_r (_ - _)). rewrite <- (host_sum_set h 5 0) by lia. by apply host_sum_range, set_word_bytes. }
    assert (0 <= host_sum h - word j h + y - word 5 h) as Hb'.
    { rewrite <- (host_sum_set h j y) by lia. rewrite <- (word_set_ne 5 j y h) by lia. rewrite <- (Z.add_0_r (_ - _)). rewrite <- (host_sum_set _ 5 0) by (rewrite set_word_length; lia).
      apply host_sum_range, set_word_bytes; [|lia]. by apply set_word_bytes. }
    destruct (norm_eq _ Ha) as [k1 K1]. destruct (norm_eq _ Hb') as [k2 K2]. rewrite En in K2. assert (y - word j h = 65535 * (k2 - k1)) as Ed by lia.
    assert (k2 - k1 = 0 \/ k2 - k1 = 1 \/ k2 - k1 = -1) as [D|[D|D]] by lia; rewrite D in Ed; lia.
Qed.

(** ** Packets *)

(** A parsed packet with an IPv4 header at [off], in one segment. *)
Record ip_packet (b : buffer_hdr) (p : packet_hdr) (off : Z) : Prop := {
  ip_pkt : pkt_ok b p;
  ip_parsed : get_in F_parsed_all p = true;
  ip_off : l3_offset p = off;
  ip_pos : 0 < off;
  ip_fits : off + 20 <= frame_len p;
  ip_seg : 20 <= h_segsize b - (headroom p + off) `mod` h_segsize b
}.
Definition header (off : Z) (d : list Z) : list Z := take 20 (drop (Z.to_nat off) d).

Lemma l3_parsed m b p : get_in F_parsed_all p = true -> odp_packet_l3_offset m b p = Some (l3_offset p, p).
Proof. intros Hf. unfold odp_packet_l3_offset, lazily. by rewrite Hf. Qed.

Lemma csum_valid_spec ip0 m b p off d : ip_packet b p off -> pdata m b p = Some d -> byte_list d ->
  odph_ipv4_csum_valid ip0 m b p = Some (if csum_ok (header off d) then 1 else 0, p).
Proof.
  intros [Hp Hf Ho Hpos Hfit _] Hd Hb. unfold odph_ipv4_csum_valid. rewrite l3_parsed by done. cbn [mbind option_bind]. rewrite Ho, (proj2 (Z.eqb_neq off 0)) by lia. rewrite l3_parsed by done. cbn [mbind option_bind]. rewrite Ho.
  destruct (pdata_split m b p d off 20 Hp Hd ltac:(lia) ltac:(lia) Hfit) as (d1 & d2 & d3 & -> & E1 & E2 & E3 & L1 & L2).
  rewrite (copydata_out_ok m b p off 20 d2) by (done || lia). cbn [mbind option_bind Z.eqb].
  assert (header off (d1 ++ d2 ++ d3) = d2) as -> by (apply take_mid; done || lia).
  pose proof (csum_valid_bytes d2 ltac:(lia) ltac:(unfold byte_list in *; rewrite !Forall_app in Hb; tauto)) as Hv.
  destruct (get_chksum d2) as [c|]; [|done]. cbn [mbind option_bind] in *. destruct (odp_chksum (set_chksum 0 d2) 20) as [r|]; [|done]. cbn [mbind option_bind] in *. by injection Hv as ->.
Qed.

(** Two bytes of the header are written in place. *)
Lemma store_header m b p off d v : ip_packet b p off -> pdata m b p = Some d -> 0 <= v < 65536 ->
  exists m', store m (daddr b p off + 10) [v `mod` 256; v `div` 256] = Some m' /\ pdata m' b p = Some (take (Z.to_nat off) d ++ set_word 5 v (header off d) ++ drop (Z.to_nat off + 20) d).
Proof.
  intros [Hp _ _ Hpos Hfit Hseg] Hd Hv. pose proof (po_buf b p Hp) as Hbuf. pose proof (po_hr b p Hp). pose proof (bo_segsize b Hbuf).
  destruct (pdata_split m b p d (off + 10) 2 Hp Hd ltac:(lia) ltac:(lia) ltac:(lia)) as (d1 & d2 & d3 & -> & E1 & E2 & E3 & L1 & L2).
  set (l := [v `mod` 256; v `div` 256]). destruct (copydata_in_ok m b p l (off + 10) 2 d1 d2 d3 Hp ltac:(lia) ltac:(lia) ltac:(lia) eq_refl E1 E2 E3) as (m' & Hin & _ & Hd' & _). exists m'. split.
  - unfold odp_packet_copydata_in in Hin. destruct (pkt_u32 b p Hp) as (_ & Hfl & _). unfold is_u32 in Hfl. rewrite u32_small in Hin by (unfold is_u32; lia). rewrite gtb_false in Hin by lia.
    rewrite copy_in_loop_spec in Hin by (done || lia || by eapply bytes_mapped). cbn [mbind option_bind] in Hin. injection Hin as <-.
    assert (daddr b p off + 10 = baddr b (headroom p + (off + 10))) as -> by (unfold daddr; rewrite (Z.add_assoc (headroom p)), (baddr_step b (headroom p + off) 10) by (done || lia); done).
    assert ((headroom p + (off + 10)) `mod` h_segsize b = (headroom p + off) `mod` h_segsize b + 10) as Hmod.
    { rewrite Z.add_assoc. rewrite <- Z.add_mod_idemp_l by lia. pose proof (Z.mod_pos_bound (headroom p + off) (h_segsize b)). rewrite Z.mod_small; lia. }
    apply store_seg; [done|lia|rewrite Hmod; simpl; lia|]. by eapply bytes_mapped.
  - rewrite Hd'. f_equal. destruct d2 as [|x0 [|x1 [|]]]; simpl in L2; try lia. unfold header. replace (Z.to_nat (off + 10)) with (Z.to_nat off + 10)%nat in L1 by lia.
    rewrite <- (take_drop (Z.to_nat off) d1) at 1. set (h1 := drop (Z.to_nat off) d1) in *. assert (length h1 = 10%nat) as Lh by (unfold h1; rewrite length_drop; lia).
    assert (length (take (Z.to_nat off) d1) = Z.to_nat off) as Lt by (rewrite length_take; lia). rewrite (take_app_le d1) by lia. rewrite drop_app_le by lia. fold h1.
    do 10 (destruct h1 as [|? h1]; [simpl in Lh; lia|]). destruct h1; [|simpl in Lh; lia]. rewrite <- app_assoc. f_equal.
    replace (Z.to_nat off + 20)%nat with (length d1 + 10)%nat by lia. rewrite drop_app_add. cbn -[take drop]. by rewrite <- (take_drop 8 d3) at 1.
Qed.

(** C38: the header checksum of IPv4.  For a parsed packet whose header of 20 bytes
    is in one segment and has a checksum field of zero (the code does not clear it, see
    [csum_update_twice]), updating the checksum writes the Internet checksum of these 20
    bytes into this field and nothing else, and returns it in network byte order; the
    packet is then valid, and it is not valid any more when one 16-bit word of the 20
    bytes is changed, unless 0 is changed for 0xFFFF or the other way round.  Options
    behind them are never summed up ([csum_without_options]). *)
Theorem ipv4_csum_roundtrip (m : mem) (b : buffer_hdr) (p : packet_hdr) (off : Z) (d : list Z) :
  ip_packet b p off -> pdata m b p = Some d -> byte_list d -> word 5 (header off d) = 0 ->
  exists c m', odph_ipv4_csum_update m b p = Some (c, m', p) /\ swap16 c = rfc1071 (header off d) /\
    pdata m' b p = Some (take (Z.to_nat off) d ++ set_word 5 c (header off d) ++ drop (Z.to_nat off + 20) d) /\
    (forall ip0, odph_ipv4_csum_valid ip0 m' b p = Some (1, p)) /\
    (forall ip0 m2 d2 j y, pdata m2 b p = Some d2 -> byte_list d2 -> header off d2 = set_word j y (set_word 5 c (header off d)) -> (j < 10)%nat -> 0 <= y < 65536 ->
       y <> word j (set_word 5 c (header off d)) -> ~ (word j (set_word 5 c (header off d)) = 0 /\ y = 65535) -> ~ (word j (set_word 5 c (header off d)) = 65535 /\ y = 0) ->
       odph_ipv4_csum_valid ip0 m2 b p = Some (0, p)).
Proof.
  intros Hip Hd Hb Hz. pose proof Hip as [Hp Hf Ho Hpos Hfit Hseg]. pose proof (pkt_bounds b p Hp) as [Hsz _]. pose proof (po_hr b p Hp).
  destruct (pdata_split m b p d off 20 Hp Hd ltac:(lia) ltac:(lia) Hfit) as (d1 & h & d3 & Ed & E1 & E2 & E3 & L1 & L2).
  assert (header off d = h) as Eh by (rewrite Ed; apply take_mid; done || lia). assert (byte_list h) as Hh by (unfold byte_list in *; rewrite Ed, !Forall_app in Hb; tauto). rewrite Eh in *.
  assert (odp_chksum h 20 = Some (65535 - norm (host_sum h))) as Hc by (rewrite <- (chksum_norm h Hh); [|unfold zlen; lia]; f_equal; unfold zlen; lia).
  destruct (host_sum_range h Hh) as [Hr _]. pose proof (norm_range (host_sum h) ltac:(lia)) as Hnr. set (c := 65535 - norm (host_sum h)) in *.
  destruct (store_header m b p off d c Hip Hd ltac:(lia)) as (m' & Hst & Hd'). rewrite Eh in Hd'. exists c, m'.
  assert (csum_ok (set_word 5 c h) = true) as Hok by (unfold csum_ok; rewrite host_sum_set, word_set by lia; apply Z.eqb_eq; rewrite Hz; unfold c; do 2 f_equal; lia).
  assert (byte_list (set_word 5 c h)) as Hb' by (apply set_word_bytes; [done|lia]). split_and!.
  - unfold odph_ipv4_csum_update. rewrite l3_parsed by done. cbn [mbind option_bind]. rewrite Ho, (proj2 (Z.eqb_neq off 0)) by lia. unfold odp_packet_l3_ptr, lazily. rewrite Hf. cbn [negb mbind option_bind]. rewrite Ho.
    rewrite packet_map_spec by (done || lia). cbn [mbind option_bind]. assert (load m (daddr b p off) 20 = Some h) as ->.
    { rewrite load_bytes. unfold daddr. change 20%nat with (Z.to_nat 20). rewrite <- baddrs_seg by (apply Hp || lia). done. }
    cbn [mbind option_bind]. rewrite Hc. cbn [mbind option_bind]. rewrite Hst. done.
  - unfold c. rewrite swap_complement, swap_norm by lia. unfold rfc1071. by rewrite net_sum.
  - done.
  - intros ip0. rewrite (csum_valid_spec ip0 m' b p off _ Hip Hd').
    + assert (header off (take (Z.to_nat off) d ++ set_word 5 c h ++ drop (Z.to_nat off + 20) d) = set_word 5 c h) as ->; [|by rewrite Hok].
      apply take_mid; [rewrite Ed, length_take, !length_app; lia|rewrite set_word_length; lia].
    + unfold byte_list in *. rewrite !Forall_app. split_and!; [by apply Forall_take|done|by apply Forall_drop].
  - intros ip0 m2 d2 j y Hd2 Hb2 Eh2 Hj Hy N1 N2 N3. rewrite (csum_valid_spec ip0 m2 b p off d2 Hip Hd2 Hb2), Eh2. rewrite (csum_detects _ j y); [done|by rewrite set_word_length|done..].
Qed.

(** ** Instances *)

(** A datagram from 1.2.3.4 to 5.6.7.8 without data, behind the default headroom. *)
Definition udp_frame : list Z := replicate 12 0 ++ [8; 0; 0x45; 0; 0; 28; 0; 0; 0; 0; 64; 17; 0; 0; 1; 2; 3; 4; 5; 6; 7; 8; 0; 7; 0; 9; 0; 8; 0; 0].
Definition udp_pkt : packet_hdr := set_in F_parsed_all true (set_l4_offset 34 (set_l3_offset 14 (set_tailroom 3414 (set_frame_len 42 (cache_pkt_hdr 128))))).
Definition udp_mem (l : list Z) : mem := frame_mem 0x100C0 l.

Lemma udp_pkt_ip : ip_packet two_segs udp_pkt 14.
Proof. destruct two_segs_ok as [[Hb _ _ _ _] _]. split; [split; [done|by vm_compute..]|by vm_compute|done|lia|by vm_compute|by vm_compute]. Qed.

Lemma ipv4_csum_roundtrip_witness : exists c m', odph_ipv4_csum_update (udp_mem udp_frame) two_segs udp_pkt = Some (c, m', udp_pkt) /\ swap16 c = rfc1071 (header 14 udp_frame) /\
  forall ip0, odph_ipv4_csum_valid ip0 m' two_segs udp_pkt = Some (1, udp_pkt).
Proof.
  assert (byte_list udp_frame) as Hb by (repeat constructor; lia).
  destruct (ipv4_csum_roundtrip (udp_mem udp_frame) two_segs udp_pkt 14 udp_frame udp_pkt_ip eq_refl Hb eq_refl) as (c & m' & Hu & Hc & _ & Hv & _). exact (ex_intro _ c (ex_intro _ m' (conj Hu (conj Hc Hv)))).
Defined.

(** ** Where the code does otherwise *)

(** The checksum of a header that has one already, say after the time to live was
    counted down, is computed over the old value too: the packet is not valid
    afterwards. *)
Definition again : option Z :=
  '(_, m, p) ← odph_ipv4_csum_update (udp_mem udp_frame) two_segs udp_pkt;
  '(_, m, p) ← odph_ipv4_csum_update (<[0x100C0 + 22 := 63]> m) two_segs p;
  fst <$> odph_ipv4_csum_valid [] m two_segs p.
Theorem csum_update_twice : again = Some 0.
Proof. by vm_compute. Qed.

(** Options of the header are not covered: only 20 bytes are summed up. *)
Definition opt_pkt : packet_hdr := set_tailroom 3402 (set_frame_len 54 udp_pkt).
Theorem csum_without_options :
  (fun x => swap16 (fst (fst x))) <$> odph_ipv4_csum_update (udp_mem (<[36%nat := 9]> ipv4_frame)) two_segs opt_pkt = Some (rfc1071 (take 20 (drop 14 ipv4_frame))) /\
  rfc1071 (take 24 (drop 14 (<[36%nat := 9]> ipv4_frame))) <> rfc1071 (take 20 (drop 14 ipv4_frame)).
Proof. split; by vm_compute. Qed.

(** The checksum of a datagram includes what its checksum field holds. *)
Theorem udp_chksum_not_cleared : fst <$> odph_ipv4_udp_chksum (udp_mem udp_frame) two_segs udp_pkt <> fst <$> odph_ipv4_udp_chksum (udp_mem (<[40%nat := 1]> udp_frame)) two_segs udp_pkt.
Proof. by vm_compute. Qed.

(** A checksum of zero is to be sent as 0xFFFF; the test is on 32 bits of the
    complement and never holds. *)
Theorem udp_zero_not_replaced (sum : Z) : 0 <= sum < 2 ^ 32 -> (u32 (Z.lnot (fold_sum sum)) =? 0) = false.
Proof.
  intros Hs. apply Z.eqb_neq. unfold fold_sum. change 0xFFFF with (Z.ones 16). rewrite Z.land_ones, !Z.shiftr_div_pow2 by lia. unfold Z.lnot, u32, wrap. change (2 ^ 16) with 65536. change (2 ^ 32) with 4294967296 in *.
  Z.div_mod_to_equations. lia.
Qed.

End Chksum.
