(* ===== verification/Init.v ===== *)
(** Start-up and shut-down: odp_init.c.

    A component is named by the stage that is reached when it has started.  What
    starting and terminating it does is a parameter: functions of the state [W] of the
    program. *)

From S2P Require Import Prelude.

Open Scope Z_scope.

Module Init.

Inductive init_stage :=
  | NO_INIT | TIME_INIT | SYSINFO_INIT | HISI_INIT | SHM_INIT | THREAD_INIT | POOL_INIT | QUEUE_INIT | SCHED_INIT | PKTIO_INIT | TIMER_INIT | CRYPTO_INIT
  | CLASSIFICATION_INIT | UIO_INIT | ALL_INIT.
#[export] Instance init_stage_dec : EqDecision init_stage.
Proof. solve_decision. Defined.

(** [log_fn] and [abort_fn] of the global data; 0 is NULL. *)
Record odp_global_data_s := Global { log_fn : Z; abort_fn : Z }.
Definition set_functions (override_log override_abort : Z) (params : option (Z * Z)) : odp_global_data_s :=
  match params with
  | None => Global override_log override_abort
  | Some (l, a) => Global (if l =? 0 then override_log else l) (if a =? 0 then override_abort else a)
  end.

Section init.
Context {W : Type} (init term : init_stage -> W -> Z * W).

(** The cases of a switch with fall-through, from [stage] on. *)
Fixpoint fall_through (stage : init_stage) (cases : list init_stage) : list init_stage :=
  match cases with
  | [] => []
  | c :: rest => if bool_decide (c = stage) then cases else fall_through stage rest
  end.

(** ** The program *)

Definition term_cases : list init_stage :=
  [CLASSIFICATION_INIT; CRYPTO_INIT; TIMER_INIT; PKTIO_INIT; SCHED_INIT; QUEUE_INIT; POOL_INIT; THREAD_INIT; SHM_INIT; SYSINFO_INIT; TIME_INIT; HISI_INIT; UIO_INIT].
Fixpoint terminate (cases : list init_stage) (rc : Z) (w : W) : Z * W :=
  match cases with
  | [] => (rc, w)
  | c :: cases => let '(r, w) := term c w in terminate cases (if r =? 0 then rc else -1) w
  end.
Definition _odp_term_global (stage : init_stage) (w : W) : Z * W :=
  terminate (if bool_decide (stage = ALL_INIT) then term_cases else fall_through stage term_cases) 0 w.
Definition odp_term_global (w : W) : Z * W := _odp_term_global ALL_INIT w.

Definition init_order : list init_stage :=
  [TIME_INIT; SYSINFO_INIT; HISI_INIT; SHM_INIT; THREAD_INIT; POOL_INIT; QUEUE_INIT; SCHED_INIT; PKTIO_INIT; TIMER_INIT; CRYPTO_INIT; CLASSIFICATION_INIT; UIO_INIT].
(** The components in order, at [stage]; [undo] is what init_failed does. *)
Fixpoint start (undo : init_stage -> W -> Z * W) (order : list init_stage) (stage : init_stage) (w : W) : Z * W :=
  match order with
  | [] => (0, w)
  | c :: order =>
      let '(r, w) := init c w in
      if negb (r =? 0) then let '(_, w) := undo stage w in (-1, w) else start undo order c w
  end.
Definition odp_init_global (override_log override_abort : Z) (params : option (Z * Z)) (w : W) : Z * odp_global_data_s * W :=
  let g := set_functions override_log override_abort params in
  let '(r, w) := start _odp_term_global init_order NO_INIT w in (r, g, w).

(** ** A thread *)

Definition local_cases : list init_stage := [SCHED_INIT; POOL_INIT; THREAD_INIT].
(** The result of the thread component is passed on when nothing failed. *)
Fixpoint terminate_local (cases : list init_stage) (rc : Z) (w : W) : Z * W :=
  match cases with
  | [] => (rc, w)
  | c :: cases =>
      let '(r, w) := term c w in
      let rc := if bool_decide (c = THREAD_INIT) then (if r <? 0 then -1 else if rc =? 0 then r else rc) else if r =? 0 then rc else -1 in
      terminate_local cases rc w
  end.
Definition _odp_term_local (stage : init_stage) (w : W) : Z * W :=
  terminate_local (if bool_decide (stage = ALL_INIT) then local_cases else fall_through stage local_cases) 0 w.
Definition odp_term_local (w : W) : Z * W := _odp_term_local ALL_INIT w.

Definition local_order : list init_stage := [SHM_INIT; THREAD_INIT; PKTIO_INIT; POOL_INIT; SCHED_INIT].
Definition odp_init_local (w : W) : Z * W := start _odp_term_local local_order NO_INIT w.

End init.

(** ** The calls that are made *)

Inductive event := Start (c : init_stage) | Term (c : init_stage).
Definition log_init (fails : init_stage -> bool) (c : init_stage) (w : list event) : Z * list event := (if fails c then -1 else 0, w ++ [Start c]).
Definition log_term (results : init_stage -> Z) (c : init_stage) (w : list event) : Z * list event := (results c, w ++ [Term c]).

Section order.
Context (fails : init_stage -> bool) (results : init_stage -> Z).
Abbreviation run_global := (odp_init_global (log_init fails) (log_term results)).
Abbreviation run_local := (odp_init_local (log_init fails) (log_term results)).

Lemma terminate_log cases : forall rc w, snd (terminate (log_term results) cases rc w) = w ++ (Term <$> cases).
Proof. induction cases as [|c cases IH]; intros rc w; cbn [terminate log_term fmap list_fmap]; [by rewrite app_nil_r|]. rewrite IH. by rewrite <- app_assoc. Qed.
Lemma terminate_local_log cases : forall rc w, snd (terminate_local (log_term results) cases rc w) = w ++ (Term <$> cases).
Proof. induction cases as [|c cases IH]; intros rc w; cbn [terminate_local log_term fmap list_fmap]; [by rewrite app_nil_r|]. rewrite IH. by rewrite <- app_assoc. Qed.

(** Components that start, and then one that does not. *)
Lemma start_fails undo order1 c order2 : forall stage w, Forall (fun c => fails c = false) order1 -> fails c = true ->
  start (log_init fails) undo (order1 ++ c :: order2) stage w = (-1, snd (undo (default stage (last order1)) (w ++ (Start <$> order1) ++ [Start c]))).
Proof.
  induction order1 as [|c1 order1 IH]; intros stage w Hok Hc; cbn [start app fmap list_fmap log_init].
  - rewrite Hc. cbn [negb Z.eqb last default]. by destruct (undo stage (w ++ [Start c])).
  - apply Forall_cons_1 in Hok as [-> Hok]. cbn [negb Z.eqb]. rewrite IH by done. rewrite last_cons, <- !app_assoc. by destruct (last order1).
Qed.
Lemma start_all undo order : forall stage w, Forall (fun c => fails c = false) order -> start (log_init fails) undo order stage w = (0, w ++ (Start <$> order)).
Proof.
  induction order as [|c order IH]; intros stage w Hok; cbn [start fmap list_fmap log_init]; [by rewrite app_nil_r|]. apply Forall_cons_1 in Hok as [-> Hok]. cbn [negb Z.eqb]. rewrite IH by done. by rewrite <- app_assoc.
Qed.

(** What [odp_init_global] undoes after [pre] has started. *)
Definition undone (pre : list init_stage) : list init_stage := fall_through (default NO_INIT (last pre)) term_cases.
Lemma term_global_log stage w : stage <> ALL_INIT -> snd (_odp_term_global (log_term results) stage w) = w ++ (Term <$> fall_through stage term_cases).
Proof. intros Hs. unfold _odp_term_global. rewrite bool_decide_eq_false_2 by done. apply terminate_log. Qed.
Lemma term_global_all w : snd (odp_term_global (log_term results) w) = w ++ (Term <$> term_cases).
Proof. apply terminate_log. Qed.

(** A prefix of the order of the start that holds the shared memory. *)
Lemma undone_late pre c post : init_order = pre ++ c :: post -> SHM_INIT ∈ pre ->
  default NO_INIT (last pre) <> ALL_INIT /\ undone pre = reverse (filter (fun x => x <> HISI_INIT) pre) ++ [HISI_INIT; UIO_INIT].
Proof.
  intros Ho Hin. unfold init_order in Ho. do 4 (destruct pre as [|? pre]; injection Ho as ? Ho; subst; [set_solver|]). clear Hin.
  repeat (destruct pre as [|? pre]; [split; [done|reflexivity]|]; injection Ho as ? Ho; subst). by destruct pre.
Qed.
(** The results of the terminations: the first failure decides. *)
Lemma terminate_rc cases : forall rc w, fst (terminate (log_term results) cases rc w) = if bool_decide (Exists (fun c => results c <> 0) cases) then -1 else rc.
Proof.
  induction cases as [|c cases IH]; intros rc w; cbn [terminate log_term fst]; [by rewrite bool_decide_eq_false_2 by (intros Hx; inversion Hx)|]. rewrite IH.
  destruct (results c =? 0) eqn:E; rewrite ?Z.eqb_eq, ?Z.eqb_neq in E.
  - apply (f_equal (fun b : bool => if b then -1 else rc)), bool_decide_ext. rewrite Exists_cons. naive_solver.
  - rewrite (bool_decide_eq_true_2 (Exists _ (c :: cases))) by (rewrite Exists_cons; by left). by case_bool_decide.
Qed.

End order.

(** C39: When a component that is started after the shared memory fails,
    [odp_init_global] returns -1 and the components that were started are terminated
    in the reverse order, each once - followed by the hisilicon support and the drivers in user
    space, which are last in the switch.  When every component starts the result is 0
    and nothing is terminated; [odp_term_global] then terminates every component that was started,
    each exactly once, and returns 0 exactly when all of the terminations do. *)
Theorem init_failure_undone (fails : init_stage -> bool) (results : init_stage -> Z) log abort params :
  (forall pre c post, init_order = pre ++ c :: post -> SHM_INIT ∈ pre -> Forall (fun c => fails c = false) pre -> fails c = true ->
    odp_init_global (log_init fails) (log_term results) log abort params [] =
      (-1, set_functions log abort params,
       (Start <$> pre) ++ [Start c] ++ (Term <$> reverse (filter (fun x => x <> HISI_INIT) pre) ++ [HISI_INIT; UIO_INIT]))) /\
  (Forall (fun c => fails c = false) init_order ->
    odp_init_global (log_init fails) (log_term results) log abort params [] = (0, set_functions log abort params, Start <$> init_order)) /\
  (forall w, exists ended, snd (odp_term_global (log_term results) w) = w ++ (Term <$> ended) /\ ended ≡ₚ init_order /\
    (fst (odp_term_global (log_term results) w) = 0 <-> Forall (fun c => results c = 0) ended)).
Proof.
  split_and!.
  - intros pre c post Ho Hs Hpre Hc. destruct (undone_late _ _ _ Ho Hs) as [Hl Hu]. unfold odp_init_global. rewrite Ho, start_fails by done.
    rewrite term_global_log by done. unfold undone in Hu. rewrite Hu, app_nil_l, <- app_assoc. reflexivity.
  - intros Hok. unfold odp_init_global. by rewrite start_all.
  - intros w. exists term_cases. split_and!.
    + apply term_global_all.
    + apply (bool_decide_unpack _). by vm_compute.
    + unfold odp_term_global, _odp_term_global. rewrite bool_decide_eq_true_2, terminate_rc by done. case_bool_decide as Hx.
      * split; [done|]. intros Hf. apply Exists_exists in Hx as (c & Hin & Hc). rewrite Forall_forall in Hf. by apply Hf in Hin.
      * split; [intros _|done]. apply Forall_forall. intros c Hin. destruct (decide (results c = 0)) as [|Hc]; [done|].
        destruct Hx. apply Exists_exists. by exists c.
Qed.
(** The scheduler fails to start. *)
Lemma init_failure_undone_witness :
  odp_init_global (log_init (fun c => bool_decide (c = SCHED_INIT))) (log_term (fun _ => 0)) 1 2 None [] =
    (-1, Global 1 2,
     (Start <$> [TIME_INIT; SYSINFO_INIT; HISI_INIT; SHM_INIT; THREAD_INIT; POOL_INIT; QUEUE_INIT; SCHED_INIT]) ++
     (Term <$> [QUEUE_INIT; POOL_INIT; THREAD_INIT; SHM_INIT; SYSINFO_INIT; TIME_INIT; HISI_INIT; UIO_INIT])).
Proof.
  apply (proj1 (init_failure_undone (fun c => bool_decide (c = SCHED_INIT)) (fun _ => 0) 1 2 None)
    [TIME_INIT; SYSINFO_INIT; HISI_INIT; SHM_INIT; THREAD_INIT; POOL_INIT; QUEUE_INIT] SCHED_INIT [PKTIO_INIT; TIMER_INIT; CRYPTO_INIT; CLASSIFICATION_INIT; UIO_INIT]);
    [reflexivity | apply (bool_decide_unpack _); reflexivity | apply (bool_decide_unpack _); reflexivity | reflexivity].
Defined.

(** *** Where the order of the switch is not the order of the start *)

(** The shared memory fails to start: only the hisilicon support is terminated, and the
    drivers in user space, which were not started; time and system information
    stay started. *)
Theorem shm_failure_left results :
  odp_init_global (log_init (fun c => bool_decide (c = SHM_INIT))) (log_term results) 1 2 None [] =
    (-1, Global 1 2, (Start <$> [TIME_INIT; SYSINFO_INIT; HISI_INIT; SHM_INIT]) ++ (Term <$> [HISI_INIT; UIO_INIT])).
Proof. reflexivity. Qed.
(** The system information fails: two components that were not started are
    terminated. *)
Theorem sysinfo_failure_extra results :
  odp_init_global (log_init (fun c => bool_decide (c = SYSINFO_INIT))) (log_term results) 1 2 None [] =
    (-1, Global 1 2, (Start <$> [TIME_INIT; SYSINFO_INIT]) ++ (Term <$> [TIME_INIT; HISI_INIT; UIO_INIT])).
Proof. reflexivity. Qed.
(** The pools fail to start for a thread, at the stage of packet input/output, which the
    switch does not have: the thread is not terminated and keeps its number. *)
Theorem local_failure_left results :
  odp_init_local (log_init (fun c => bool_decide (c = POOL_INIT))) (log_term results) [] = (-1, Start <$> [SHM_INIT; THREAD_INIT; PKTIO_INIT; POOL_INIT]).
Proof. reflexivity. Qed.
(** A failure of the scheduler for a thread undoes the pools and the thread. *)
Theorem local_failure_undone results :
  odp_init_local (log_init (fun c => bool_decide (c = SCHED_INIT))) (log_term results) [] =
    (-1, (Start <$> [SHM_INIT; THREAD_INIT; PKTIO_INIT; POOL_INIT; SCHED_INIT]) ++ (Term <$> [POOL_INIT; THREAD_INIT])).
Proof. reflexivity. Qed.

End Init.
