(* ===== verification/Crypto.v ===== *)
(** Crypto: odp_crypto.c.

    The algorithms are those of OpenSSL: members of the class [OpenSSL], on lists of
    bytes.  A session is an index into the table of sessions plus one, 0 being NULL.
    Packets, queues and the memory of the application are members of [CryptoWorld];
    the data of a packet are the bytes from [odp_packet_data] to the end of its first
    segment, and an access outside of them is [None]. *)

From S2P Require Import Prelude.

Open Scope Z_scope.
Open Scope c_scope.

Module Crypto.

Definition MAX_SESSIONS : Z := 32.
Definition OP_RESULT_MAGIC : Z := 0x91919191.
Definition ODP_QUEUE_INVALID : Z := 0.
Definition ODP_POOL_INVALID : Z := 0xffffffff.
Definition ODP_PACKET_INVALID : Z := 0.

(** ** Data *)

Inductive odp_crypto_op_t := ODP_CRYPTO_OP_ENCODE | ODP_CRYPTO_OP_DECODE.
Inductive odp_cipher_alg_t := ODP_CIPHER_ALG_NULL | ODP_CIPHER_ALG_DES | ODP_CIPHER_ALG_3DES_CBC | ODP_CIPHER_ALG_AES128_CBC | ODP_CIPHER_ALG_AES128_GCM.
Inductive odp_auth_alg_t := ODP_AUTH_ALG_NULL | ODP_AUTH_ALG_MD5_96 | ODP_AUTH_ALG_SHA256_128 | ODP_AUTH_ALG_AES128_GCM.
Inductive odp_crypto_ses_create_err_t :=
  | ODP_CRYPTO_SES_CREATE_ERR_NONE | ODP_CRYPTO_SES_CREATE_ERR_ENOMEM | ODP_CRYPTO_SES_CREATE_ERR_INV_CIPHER | ODP_CRYPTO_SES_CREATE_ERR_INV_AUTH.
Inductive odp_crypto_alg_err_t :=
  | ODP_CRYPTO_ALG_ERR_NONE | ODP_CRYPTO_ALG_ERR_DATA_SIZE | ODP_CRYPTO_ALG_ERR_KEY_SIZE | ODP_CRYPTO_ALG_ERR_ICV_CHECK | ODP_CRYPTO_ALG_ERR_IV_INVALID.

#[export] Instance odp_crypto_op_dec : EqDecision odp_crypto_op_t.
Proof. solve_decision. Defined.
#[export] Instance odp_cipher_alg_dec : EqDecision odp_cipher_alg_t.
Proof. solve_decision. Defined.
#[export] Instance odp_auth_alg_dec : EqDecision odp_auth_alg_t.
Proof. solve_decision. Defined.
#[export] Instance odp_crypto_alg_err_dec : EqDecision odp_crypto_alg_err_t.
Proof. solve_decision. Defined.

(** Keys and initialisation vectors: a pointer into memory and a length. *)
Record odp_crypto_key_t := Key { k_data : Z; k_length : Z }.
Record odp_crypto_data_range_t := Range { r_offset : Z; r_length : Z }.
Record odp_crypto_session_params_t := SesParams {
  par_op : odp_crypto_op_t; auth_cipher_text : bool; cipher_alg : odp_cipher_alg_t; cipher_key : odp_crypto_key_t; iv : odp_crypto_key_t;
  auth_alg : odp_auth_alg_t; auth_key : odp_crypto_key_t; par_compl_queue : Z; par_output_pool : Z }.
Record odp_crypto_op_params_t := OpParams {
  session : Z; ctx : Z; pkt : Z; out_pkt : Z; override_iv_ptr : Z; hash_result_offset : Z; cipher_range : odp_crypto_data_range_t;
  auth_range : odp_crypto_data_range_t }.
(** [ok], [ctx], [pkt], and the algorithm errors; hardware errors are always none. *)
Record odp_crypto_op_result_t := OpResult { ok : bool; res_ctx : Z; res_pkt : Z; cipher_status : odp_crypto_alg_err_t; auth_status : odp_crypto_alg_err_t }.

(** The functions a session points to, and the keys they use.  [UNSET] is NULL. *)
Inductive cipher_func :=
  | UNSET | NULL_CIPHER | DES (enc : bool) (k1 k2 k3 : list Z) | AES (enc : bool) (key : list Z) | AES_GCM (enc : bool) (key : list Z) (ivlen : Z).
Inductive auth_func := UNSET_AUTH | NULL_AUTH | MD5 (gen : bool) (key : list Z) (bytes : Z) | SHA256 (gen : bool) (key : list Z) (bytes : Z).

Record odp_crypto_generic_session_t := Ses {
  next : Z; op : odp_crypto_op_t; do_cipher_first : bool; compl_queue : Z; output_pool : Z; iv_data : Z; iv_len : Z; cipher : cipher_func; auth : auth_func }.
Definition zero_session : odp_crypto_generic_session_t := Ses 0 ODP_CRYPTO_OP_ENCODE false 0 0 0 0 UNSET UNSET_AUTH.
Definition set_next (n : Z) (s : odp_crypto_generic_session_t) : odp_crypto_generic_session_t :=
  Ses n (op s) (do_cipher_first s) (compl_queue s) (output_pool s) (iv_data s) (iv_len s) (cipher s) (auth s).

Record odp_crypto_global_t := Glob { free : Z; sessions : list odp_crypto_generic_session_t }.
Definition get_session (h : Z) (g : odp_crypto_global_t) : option odp_crypto_generic_session_t := zget (sessions g) (h - 1).
Definition put_session (h : Z) (s : odp_crypto_generic_session_t) (g : odp_crypto_global_t) : option odp_crypto_global_t :=
  l ← zset (sessions g) (h - 1) s; Some (Glob (free g) l).

(** ** OpenSSL *)

Class OpenSSL := {
  hmac_md5 : list Z -> list Z -> list Z;
  hmac_sha256 : list Z -> list Z -> list Z;
  des_ede3_cbc : bool -> list Z -> list Z -> list Z -> list Z -> list Z -> list Z;
  aes_cbc : bool -> list Z -> list Z -> list Z -> list Z;
  (** key, length and bytes of the vector, data in front, text, data behind *)
  gcm_encrypt : list Z -> Z -> list Z -> list Z -> list Z -> list Z -> list Z * list Z;
  (** the text, and the result of [EVP_DecryptFinal_ex] for a tag *)
  gcm_decrypt : list Z -> Z -> list Z -> list Z -> list Z -> list Z -> list Z -> list Z * Z
}.

(** Memory of the application, packets, queues. *)
Class CryptoWorld (W : Type) := {
  c_read : Z -> nat -> W -> option (list Z);
  c_data : Z -> W -> option (list Z);
  c_set_data : Z -> list Z -> W -> W;
  c_packet_len : Z -> W -> option Z;
  c_packet_alloc : Z -> Z -> W -> option (Z * W);
  c_copy_to_packet : Z -> Z -> Z -> W -> option W;
  c_copy_md : Z -> Z -> W -> option W;
  c_packet_free : Z -> W -> option W;
  c_set_compl : Z -> bool -> W -> option W;
  c_is_compl : Z -> W -> option bool;
  c_set_op_result : Z -> Z * odp_crypto_op_result_t -> W -> option W;
  c_op_result : Z -> W -> option (Z * odp_crypto_op_result_t);
  c_queue_enq : Z -> Z -> W -> option (Z * W)
}.

(** ** Sessions *)

Definition alloc_session (g : odp_crypto_global_t) : option (Z * odp_crypto_global_t) :=
  let h := free g in
  if h =? 0 then Some (0, g) else s ← get_session h g; Some (h, Glob (next s) (sessions g)).
Definition free_session (h : Z) (g : odp_crypto_global_t) : option odp_crypto_global_t :=
  s ← get_session h g; g ← put_session h (set_next (free g) s) g; Some (Glob h (sessions g)).

Section crypto.
Context {W : Type} `{OpenSSL} `{CryptoWorld W}.
Implicit Types (w : W) (g : odp_crypto_global_t).

(** The cipher of a session, and its key; [None] inside is an error. *)
Definition process_aes_params (params : odp_crypto_session_params_t) w : option (option cipher_func) :=
  if negb ((k_length (iv params) =? 0) || (k_length (iv params) =? 16)) then Some None
  else key ← c_read (k_data (cipher_key params)) 16 w; Some (Some (AES (bool_decide (par_op params = ODP_CRYPTO_OP_ENCODE)) key)).
Definition process_aes_gcm_params (params : odp_crypto_session_params_t) w : option (option cipher_func) :=
  if negb (k_length (cipher_key params) =? 16) then Some None
  else key ← c_read (k_data (cipher_key params)) 16 w; Some (Some (AES_GCM (bool_decide (par_op params = ODP_CRYPTO_OP_ENCODE)) key (k_length (iv params)))).
Definition process_des_params (params : odp_crypto_session_params_t) w : option (option cipher_func) :=
  if negb ((k_length (iv params) =? 0) || (k_length (iv params) =? 8)) then Some None
  else
    let p := k_data (cipher_key params) in
    k1 ← c_read p 8 w; k2 ← c_read (p + 8) 8 w; k3 ← c_read (p + 16) 8 w;
    Some (Some (DES (bool_decide (par_op params = ODP_CRYPTO_OP_ENCODE)) k1 k2 k3)).
Definition process_md5_params (params : odp_crypto_session_params_t) (bits : Z) w : option auth_func :=
  key ← c_read (k_data (auth_key params)) 16 w; Some (MD5 (bool_decide (par_op params = ODP_CRYPTO_OP_ENCODE)) key (bits `div` 8)).
Definition process_sha256_params (params : odp_crypto_session_params_t) (bits : Z) w : option auth_func :=
  key ← c_read (k_data (auth_key params)) 32 w; Some (SHA256 (bool_decide (par_op params = ODP_CRYPTO_OP_ENCODE)) key (bits `div` 8)).

Definition process_cipher (params : odp_crypto_session_params_t) w : option (option cipher_func) :=
  match cipher_alg params with
  | ODP_CIPHER_ALG_NULL => Some (Some NULL_CIPHER)
  | ODP_CIPHER_ALG_DES | ODP_CIPHER_ALG_3DES_CBC => process_des_params params w
  | ODP_CIPHER_ALG_AES128_CBC => process_aes_params params w
  | ODP_CIPHER_ALG_AES128_GCM => if bool_decide (auth_alg params <> ODP_AUTH_ALG_AES128_GCM) then Some None else process_aes_gcm_params params w
  end.
Definition process_auth (params : odp_crypto_session_params_t) w : option (option auth_func) :=
  match auth_alg params with
  | ODP_AUTH_ALG_NULL => Some (Some NULL_AUTH)
  | ODP_AUTH_ALG_MD5_96 => f ← process_md5_params params 96 w; Some (Some f)
  | ODP_AUTH_ALG_SHA256_128 => f ← process_sha256_params params 128 w; Some (Some f)
  | ODP_AUTH_ALG_AES128_GCM => if bool_decide (cipher_alg params <> ODP_CIPHER_ALG_AES128_GCM) then Some None else Some (Some NULL_AUTH)
  end.

(** The result, [*status], [*session_out] when it is written, and the table. *)
Definition odp_crypto_session_create (params : odp_crypto_session_params_t) w g : option (Z * odp_crypto_ses_create_err_t * option Z * odp_crypto_global_t) :=
  '(h, g) ← alloc_session g;
  if h =? 0 then Some (-1, ODP_CRYPTO_SES_CREATE_ERR_ENOMEM, None, g)
  else
    s ← get_session h g;
    let first := match par_op params with ODP_CRYPTO_OP_ENCODE => auth_cipher_text params | ODP_CRYPTO_OP_DECODE => negb (auth_cipher_text params) end in
    let s := Ses (next s) (par_op params) first (par_compl_queue params) (par_output_pool params) (k_data (iv params)) (k_length (iv params)) (cipher s) (auth s) in
    c ← process_cipher params w;
    match c with
    | None => g ← put_session h s g; Some (-1, ODP_CRYPTO_SES_CREATE_ERR_INV_CIPHER, None, g)
    | Some c =>
        let s := Ses (next s) (op s) (do_cipher_first s) (compl_queue s) (output_pool s) (iv_data s) (iv_len s) c (auth s) in
        a ← process_auth params w;
        match a with
        | None => g ← put_session h s g; Some (-1, ODP_CRYPTO_SES_CREATE_ERR_INV_AUTH, None, g)
        | Some a =>
            g ← put_session h (Ses (next s) (op s) (do_cipher_first s) (compl_queue s) (output_pool s) (iv_data s) (iv_len s) (cipher s) a) g;
            Some (0, ODP_CRYPTO_SES_CREATE_ERR_NONE, Some h, g)
        end
    end.

Definition odp_crypto_session_destroy (h : Z) g : option (Z * odp_crypto_global_t) :=
  g ← put_session h zero_session g; g ← free_session h g; Some (0, g).

(** ** Algorithms *)

(** Bytes of the data of a packet. *)
Definition get_range (off len : Z) (d : list Z) : option (list Z) :=
  if bool_decide (0 <= off /\ 0 <= len /\ off + len <= zlen d) then Some (take (Z.to_nat len) (drop (Z.to_nat off) d)) else None.
Definition put_range (off : Z) (x d : list Z) : option (list Z) :=
  if bool_decide (0 <= off /\ off + zlen x <= zlen d) then Some (take (Z.to_nat off) d ++ x ++ drop (Z.to_nat off + length x) d) else None.

(** [md5_gen] and [sha256_gen]: the first [bytes] bytes of the hash are written. *)
Definition gen_icv (hash : list Z -> list Z) (bytes : Z) (p : odp_crypto_op_params_t) (d : list Z) : option (odp_crypto_alg_err_t * list Z) :=
  data ← get_range (r_offset (auth_range p)) (r_length (auth_range p)) d;
  d ← put_range (hash_result_offset p) (take (Z.to_nat bytes) (hash data)) d;
  Some (ODP_CRYPTO_ALG_ERR_NONE, d).
(** [md5_check] and [sha256_check]: they are taken out, cleared and compared. *)
Definition check_icv (hash : list Z -> list Z) (bytes : Z) (p : odp_crypto_op_params_t) (d : list Z) : option (odp_crypto_alg_err_t * list Z) :=
  hash_in ← get_range (hash_result_offset p) bytes d;
  d ← put_range (hash_result_offset p) (replicate (Z.to_nat bytes) 0) d;
  data ← get_range (r_offset (auth_range p)) (r_length (auth_range p)) d;
  Some (if bool_decide (hash_in = take (Z.to_nat bytes) (hash data)) then ODP_CRYPTO_ALG_ERR_NONE else ODP_CRYPTO_ALG_ERR_ICV_CHECK, d).
Definition md5_gen (key : list Z) (bytes : Z) := gen_icv (hmac_md5 key) bytes.
Definition md5_check (key : list Z) (bytes : Z) := check_icv (hmac_md5 key) bytes.
Definition sha256_gen (key : list Z) (bytes : Z) := gen_icv (hmac_sha256 key) bytes.
Definition sha256_check (key : list Z) (bytes : Z) := check_icv (hmac_sha256 key) bytes.
Definition call_auth (f : auth_func) (p : odp_crypto_op_params_t) (d : list Z) : option (odp_crypto_alg_err_t * list Z) :=
  match f with
  | UNSET_AUTH => None
  | NULL_AUTH => Some (ODP_CRYPTO_ALG_ERR_NONE, d)
  | MD5 gen key bytes => if gen then md5_gen key bytes p d else md5_check key bytes p d
  | SHA256 gen key bytes => if gen then sha256_gen key bytes p d else sha256_check key bytes p d
  end.

(** The vector: [n] bytes behind the pointer in use. *)
Definition iv_ptr (s : odp_crypto_generic_session_t) (p : odp_crypto_op_params_t) : Z := if negb (override_iv_ptr p =? 0) then override_iv_ptr p else iv_data s.

(** [aes_encrypt], [aes_decrypt], [des_encrypt], [des_decrypt]: [f] on the range, in
    place. *)
Definition in_place (f : list Z -> list Z -> list Z) (n : nat) (s : odp_crypto_generic_session_t) (p : odp_crypto_op_params_t) w (d : list Z)
    : option (odp_crypto_alg_err_t * list Z) :=
  if iv_ptr s p =? 0 then Some (ODP_CRYPTO_ALG_ERR_IV_INVALID, d)
  else
    iv ← c_read (iv_ptr s p) n w;
    data ← get_range (r_offset (cipher_range p)) (r_length (cipher_range p)) d;
    d ← put_range (r_offset (cipher_range p)) (f iv data) d;
    Some (ODP_CRYPTO_ALG_ERR_NONE, d).
Definition aes_crypt (enc : bool) (key : list Z) := in_place (aes_cbc enc key) 16.
Definition des_crypt (enc : bool) (k1 k2 k3 : list Z) := in_place (des_ede3_cbc enc k1 k2 k3) 8.

(** All cipher data are authenticated; sums are of 32 bits. *)
Definition gcm_ranges_bad (p : odp_crypto_op_params_t) : bool :=
  (r_offset (auth_range p) >? r_offset (cipher_range p)) || ((r_offset (auth_range p) +u32 r_length (auth_range p)) <? (r_offset (cipher_range p) +u32 r_length (cipher_range p))).
(** The authenticated data in front of and behind the text. *)
Definition gcm_head (p : odp_crypto_op_params_t) (d : list Z) : option (list Z) := get_range (r_offset (auth_range p)) (r_offset (cipher_range p) - r_offset (auth_range p)) d.
Definition gcm_tail (p : odp_crypto_op_params_t) (d : list Z) : option (list Z) :=
  let tail := r_offset (cipher_range p) + r_length (cipher_range p) in
  if r_offset (auth_range p) + r_length (auth_range p) >? tail then get_range tail (r_length (auth_range p) - (tail - r_offset (auth_range p))) d else Some [].

Definition aes_gcm_encrypt (key : list Z) (ivlen : Z) (s : odp_crypto_generic_session_t) (p : odp_crypto_op_params_t) w (d : list Z) : option (odp_crypto_alg_err_t * list Z) :=
  if iv_ptr s p =? 0 then Some (ODP_CRYPTO_ALG_ERR_IV_INVALID, d)
  else if gcm_ranges_bad p then Some (ODP_CRYPTO_ALG_ERR_DATA_SIZE, d)
  else
    iv ← c_read (iv_ptr s p) 16 w;
    head ← gcm_head p d;
    plain ← get_range (r_offset (cipher_range p)) (r_length (cipher_range p)) d;
    tail ← gcm_tail p d;
    let '(text, tag) := gcm_encrypt key ivlen iv head plain tail in
    d ← put_range (r_offset (cipher_range p)) text d;
    d ← put_range (hash_result_offset p) tag d;
    Some (ODP_CRYPTO_ALG_ERR_NONE, d).
(** The result of the library is compared with "less than 0". *)
Definition aes_gcm_decrypt (key : list Z) (ivlen : Z) (s : odp_crypto_generic_session_t) (p : odp_crypto_op_params_t) w (d : list Z) : option (odp_crypto_alg_err_t * list Z) :=
  if iv_ptr s p =? 0 then Some (ODP_CRYPTO_ALG_ERR_IV_INVALID, d)
  else if gcm_ranges_bad p then Some (ODP_CRYPTO_ALG_ERR_DATA_SIZE, d)
  else
    iv ← c_read (iv_ptr s p) 16 w;
    head ← gcm_head p d;
    text ← get_range (r_offset (cipher_range p)) (r_length (cipher_range p)) d;
    tail ← gcm_tail p d;
    tag ← get_range (hash_result_offset p) 16 d;
    let '(plain, final) := gcm_decrypt key ivlen iv head text tail tag in
    d ← put_range (r_offset (cipher_range p)) plain d;
    Some (if final <? 0 then ODP_CRYPTO_ALG_ERR_ICV_CHECK else ODP_CRYPTO_ALG_ERR_NONE, d).

Definition call_cipher (s : odp_crypto_generic_session_t) (p : odp_crypto_op_params_t) w (d : list Z) : option (odp_crypto_alg_err_t * list Z) :=
  match cipher s with
  | UNSET => None
  | NULL_CIPHER => Some (ODP_CRYPTO_ALG_ERR_NONE, d)
  | DES enc k1 k2 k3 => des_crypt enc k1 k2 k3 s p w d
  | AES enc key => aes_crypt enc key s p w d
  | AES_GCM enc key ivlen => if enc then aes_gcm_encrypt key ivlen s p w d else aes_gcm_decrypt key ivlen s p w d
  end.

(** ** Operations *)

Definition set_pkts (pkt out : Z) (p : odp_crypto_op_params_t) : odp_crypto_op_params_t :=
  OpParams (session p) (ctx p) pkt out (override_iv_ptr p) (hash_result_offset p) (cipher_range p) (auth_range p).
(** The packet the functions work on, [out_pkt] of the parameters afterwards: the one of
    the caller, or a copy. *)
Definition resolve_output (s : odp_crypto_generic_session_t) (p : odp_crypto_op_params_t) w : option (odp_crypto_op_params_t * W) :=
  '(out, w) ← (if (out_pkt p =? ODP_PACKET_INVALID) && negb (output_pool s =? ODP_POOL_INVALID)
               then len ← c_packet_len (pkt p) w; c_packet_alloc (output_pool s) len w else Some (out_pkt p, w));
  if negb (pkt p =? out) then
    if out =? ODP_PACKET_INVALID then None
    else
      len ← c_packet_len (pkt p) w;
      w ← c_copy_to_packet (pkt p) out len w;
      w ← c_copy_md (pkt p) out w;
      w ← c_packet_free (pkt p) w;
      Some (set_pkts ODP_PACKET_INVALID out p, w)
  else Some (set_pkts (pkt p) out p, w).

(** Cipher and authentication in the order of the session: the cipher's error, the
    authentication's error, and the data. *)
Definition invoke (s : odp_crypto_generic_session_t) (p : odp_crypto_op_params_t) w (d : list Z) : option (odp_crypto_alg_err_t * odp_crypto_alg_err_t * list Z) :=
  if do_cipher_first s then
    '(rc_cipher, d) ← call_cipher s p w d; '(rc_auth, d) ← call_auth (auth s) p d; Some (rc_cipher, rc_auth, d)
  else
    '(rc_auth, d) ← call_auth (auth s) p d; '(rc_cipher, d) ← call_cipher s p w d; Some (rc_cipher, rc_auth, d).

Definition odp_crypto_compl_from_event (ev : Z) w : option Z := b ← c_is_compl ev w; if b : bool then Some ev else None.
Definition odp_crypto_compl_result (ev : Z) w : option odp_crypto_op_result_t := '(magic, r) ← c_op_result ev w; if negb (magic =? OP_RESULT_MAGIC) then None else Some r.
Definition odp_crypto_compl_free (ev : Z) w : option W := c_set_compl ev false w.
(** [odp_event_free] of an event that is a packet or a completion: a completion is
    turned into a packet again. *)
Definition odp_event_free (ev : Z) w : option W :=
  b ← c_is_compl ev w; if b : bool then ev ← odp_crypto_compl_from_event ev w; odp_crypto_compl_free ev w else c_packet_free ev w.

(** [wants]: the caller passes a place for the result.  Results: the return value,
    [*posted] when it is written, the result when it is written, the parameters. *)
Definition odp_crypto_operation (p : odp_crypto_op_params_t) (wants : bool) g w : option (Z * option bool * option odp_crypto_op_result_t * odp_crypto_op_params_t * W) :=
  s ← get_session (session p) g;
  '(p, w) ← resolve_output s p w;
  let out := out_pkt p in
  d ← c_data out w;
  '(rc_cipher, rc_auth, d) ← invoke s p w d;
  let w := c_set_data out d w in
  let result := OpResult (bool_decide (rc_cipher = ODP_CRYPTO_ALG_ERR_NONE) && bool_decide (rc_auth = ODP_CRYPTO_ALG_ERR_NONE)) (ctx p) out rc_cipher rc_auth in
  if negb (compl_queue s =? ODP_QUEUE_INVALID) then
    w ← c_set_compl out true w;
    w ← c_set_op_result out (OP_RESULT_MAGIC, result) w;
    '(ret, w) ← c_queue_enq (compl_queue s) out w;
    if negb (ret =? 0) then w ← odp_event_free out w; Some (-1, None, None, p, w)
    else Some (0, Some true, None, p, w)
  else if negb wants then Some (-1, None, None, p, w)
  else Some (0, Some false, Some result, p, w).

End crypto.

(** ** Start-up and shut-down *)

(** Session [idx] and on are put in front of the free list. *)
Fixpoint link_sessions (n : nat) (idx : Z) (g : odp_crypto_global_t) : option odp_crypto_global_t :=
  match n with
  | O => Some g
  | S n => s ← zget (sessions g) idx; l ← zset (sessions g) idx (set_next (free g) s); link_sessions n (idx + 1) (Glob (idx + 1) l)
  end.
(** The memory may be missing; it is cleared without a test. *)
Definition odp_crypto_init_global (shm : bool) : option (Z * odp_crypto_global_t) :=
  if negb shm then None else g ← link_sessions 32 0 (Glob 0 (replicate 32 zero_session)); Some (0, g).

(** [fuel] bounds the walk over the free list. *)
Fixpoint count_free (fuel : nat) (h : Z) (g : odp_crypto_global_t) (count : Z) : option Z :=
  if h =? 0 then Some count
  else match fuel with O => None | S fuel => s ← get_session h g; count_free fuel (next s) g (count + 1) end.
Definition odp_crypto_term_global (shm_free : Z) (g : odp_crypto_global_t) : option Z :=
  count ← count_free 33 (free g) g 0;
  let rc := if negb (count =? MAX_SESSIONS) then -1 else 0 in
  Some (if shm_free <? 0 then -1 else rc).

(** [RAND_bytes] returned [rc]. *)
Definition odp_random_data (rc len : Z) : Z := if rc =? 1 then len else -1.

End Crypto.
