(* ===== verification/CryptoProofs.v ===== *)
(** Crypto: the sessions, and what decoding gives after encoding. *)

From S2P Require Import Prelude Crypto.

Open Scope Z_scope.
Open Scope c_scope.

Module CryptoProofs.
Import Crypto.

(** ** The free list *)

(** The sessions in [l] are linked, starting at [h]. *)
Fixpoint chain (ss : list odp_crypto_generic_session_t) (h : Z) (l : list Z) : Prop :=
  match l with
  | [] => h = 0
  | x :: l => h = x /\ x <> 0 /\ exists s, zget ss (x - 1) = Some s /\ chain ss (next s) l
  end.
Record table_ok (g : odp_crypto_global_t) (live lost l : list Z) : Prop := TableOk {
  tab_len : zlen (sessions g) = MAX_SESSIONS;
  tab_chain : chain (sessions g) (free g) l;
  tab_perm : l ++ live ++ lost ≡ₚ seqZ 1 MAX_SESSIONS }.

Lemma chain_set ss ss' x s l : zset ss (x - 1) s = Some ss' -> (x ∉ l) -> forall h, chain ss h l -> chain ss' h l.
Proof.
  intros Hs. induction l as [|y l IH]; intros Hx h; cbn [chain]; [done|]. apply not_elem_of_cons in Hx as [Hne Hx].
  intros (-> & Hy & s' & Hg & Hc). split_and!; [done|done|]. exists s'. split; [|by apply IH].
  rewrite (zget_zset _ _ _ _ _ Hs), bool_decide_eq_false_2 by lia. done.
Qed.
Lemma table_nodup g live lost l : table_ok g live lost l -> NoDup (l ++ live ++ lost).
Proof. intros [_ _ Hp]. rewrite Hp. apply NoDup_seqZ. Qed.
Lemma table_bound g live lost l h : table_ok g live lost l -> h ∈ l ++ live ++ lost -> 1 <= h <= MAX_SESSIONS.
Proof. intros [_ _ Hp]. rewrite Hp, elem_of_seqZ. unfold MAX_SESSIONS. lia. Qed.
Lemma table_count g live lost l : table_ok g live lost l -> (length l + length live + length lost = 32)%nat.
Proof. intros [_ _ Hp]. apply Permutation_length in Hp. rewrite !length_app, length_seqZ in Hp. unfold MAX_SESSIONS in Hp. lia. Qed.

(** The walk of [odp_crypto_term_global] counts the list. *)
Lemma count_chain g l : forall fuel h n, chain (sessions g) h l -> (length l < fuel)%nat -> count_free fuel h g n = Some (n + zlen l).
Proof.
  induction l as [|x l IH]; intros fuel h n; cbn [chain length].
  - intros -> Hf. destruct fuel; cbn [count_free Z.eqb]; f_equal; unfold zlen; cbn [length]; lia.
  - intros (-> & Hx & s & Hg & Hc) Hf. destruct fuel as [|fuel]; [lia|]. cbn [count_free]. replace (x =? 0) with false by lia.
    unfold get_session. rewrite Hg. cbn [mbind option_bind]. rewrite (IH fuel _ _ Hc) by lia. f_equal. unfold zlen. cbn [length]. lia.
Qed.

(** [session h] of the table, after a write to the table. *)
Lemma put_session_inv h s g g' : put_session h s g = Some g' -> free g' = free g /\ zset (sessions g) (h - 1) s = Some (sessions g').
Proof. unfold put_session. destruct (zset _ _ _) as [l|]; [|done]. by intros [= <-]. Qed.
Lemma put_session_ok h s g : 1 <= h <= zlen (sessions g) -> exists g', put_session h s g = Some g'.
Proof. intros Hh. unfold put_session. rewrite zset_Some by lia. by eexists. Qed.
Lemma get_put h h' s g g' : put_session h s g = Some g' -> get_session h' g' = if bool_decide (h = h') then Some s else get_session h' g.
Proof.
  intros [_ Hs]%put_session_inv. unfold get_session. rewrite (zget_zset _ _ _ _ _ Hs). by repeat case_bool_decide; try lia.
Qed.
Lemma get_session_ok h g : 1 <= h <= zlen (sessions g) -> exists s, get_session h g = Some s.
Proof. intros Hh. apply zget_Some. lia. Qed.

(** A write to a session that is not free. *)
Lemma table_put h s g g' live lost l : table_ok g live lost l -> (h ∉ l) -> put_session h s g = Some g' -> table_ok g' live lost l.
Proof.
  intros [Hlen Hc Hp] Hh [Hf Hs]%put_session_inv. split; [by rewrite (zset_len _ _ _ _ Hs)|rewrite Hf; by eapply chain_set|done].
Qed.

(** ** Taking and giving back *)

Lemma alloc_empty g live lost : table_ok g live lost [] -> alloc_session g = Some (0, g).
Proof. intros [_ Hc _]. cbn in Hc. unfold alloc_session. by rewrite Hc. Qed.
Lemma alloc_head g live lost h l : table_ok g live lost (h :: l) -> exists g', alloc_session g = Some (h, g') /\ h <> 0 /\ sessions g' = sessions g /\
  table_ok g' (h :: live) lost l /\ table_ok g' live (h :: lost) l.
Proof.
  intros [Hlen (Hf & Hh & s & Hg & Hc) Hp]. unfold alloc_session, get_session. rewrite Hf, Hg. replace (h =? 0) with false by lia. cbn [mbind option_bind].
  eexists. split_and!; [done|done|done|split; [done|done|]|split; [done|done|]]; cbn; rewrite <- Hp; solve_Permutation.
Qed.
Lemma free_ok g live lost l h live' : table_ok g live lost l -> live ≡ₚ h :: live' -> exists g', free_session h g = Some g' /\ table_ok g' live' lost (h :: l) /\
  forall h', h' <> h -> get_session h' g' = get_session h' g.
Proof.
  intros Ht Hl. assert (Hin : h ∈ live) by (rewrite Hl; set_solver). assert (Hb : 1 <= h <= MAX_SESSIONS) by (apply (table_bound _ _ _ _ h Ht); set_solver).
  assert (Hnl : h ∉ l). { pose proof (table_nodup _ _ _ _ Ht) as Hn. apply NoDup_app in Hn as (_ & Hn & _). intros Hx. apply (Hn _ Hx). set_solver. }
  destruct Ht as [Hlen Hc Hp]. unfold free_session. destruct (get_session_ok h g) as [s Hs]; [by rewrite Hlen|]. rewrite Hs. cbn [mbind option_bind].
  destruct (put_session_ok h (set_next (free g) s) g) as [g' Hg']; [by rewrite Hlen|]. rewrite Hg'. cbn [mbind option_bind]. eexists. split_and!; [done| |].
  - pose proof (put_session_inv _ _ _ _ Hg') as [_ Hz]. split; [by rewrite <- Hlen, <- (zset_len _ _ _ _ Hz)| |].
    + cbn [free sessions chain]. split_and!; [done|lia|]. eexists. split; [by rewrite (zget_zset _ _ _ _ _ Hz), bool_decide_eq_true_2|]. by eapply chain_set.
    + rewrite <- Hp, Hl. solve_Permutation.
  - intros h' Hne. change (get_session h' g' = get_session h' g). by rewrite (get_put _ _ _ _ _ Hg'), bool_decide_eq_false_2.
Qed.

(** ** Creating *)

(** The error a set of parameters has. *)
Definition params_err (p : odp_crypto_session_params_t) : odp_crypto_ses_create_err_t :=
  let cipher_ok := match cipher_alg p with
                   | ODP_CIPHER_ALG_NULL => true
                   | ODP_CIPHER_ALG_DES | ODP_CIPHER_ALG_3DES_CBC => (k_length (iv p) =? 0) || (k_length (iv p) =? 8)
                   | ODP_CIPHER_ALG_AES128_CBC => (k_length (iv p) =? 0) || (k_length (iv p) =? 16)
                   | ODP_CIPHER_ALG_AES128_GCM => bool_decide (auth_alg p = ODP_AUTH_ALG_AES128_GCM) && (k_length (cipher_key p) =? 16)
                   end in
  let auth_ok := bool_decide (auth_alg p = ODP_AUTH_ALG_AES128_GCM -> cipher_alg p = ODP_CIPHER_ALG_AES128_GCM) in
  if negb cipher_ok then ODP_CRYPTO_SES_CREATE_ERR_INV_CIPHER else if negb auth_ok then ODP_CRYPTO_SES_CREATE_ERR_INV_AUTH else ODP_CRYPTO_SES_CREATE_ERR_NONE.

Section sessions.
Context {W : Type} `{OpenSSL} `{CryptoWorld W}.
Implicit Types (w : W) (g : odp_crypto_global_t) (params : odp_crypto_session_params_t).

(** The bytes of the keys that creating a session reads are memory. *)
Definition keys_readable params w : Prop :=
  let readable a n := exists l, c_read a n w = Some l in
  match cipher_alg params with
  | ODP_CIPHER_ALG_NULL => True
  | ODP_CIPHER_ALG_DES | ODP_CIPHER_ALG_3DES_CBC => readable (k_data (cipher_key params)) 8%nat /\ readable (k_data (cipher_key params) + 8) 8%nat /\ readable (k_data (cipher_key params) + 16) 8%nat
  | ODP_CIPHER_ALG_AES128_CBC | ODP_CIPHER_ALG_AES128_GCM => readable (k_data (cipher_key params)) 16%nat
  end /\
  match auth_alg params with
  | ODP_AUTH_ALG_MD5_96 => readable (k_data (auth_key params)) 16%nat
  | ODP_AUTH_ALG_SHA256_128 => readable (k_data (auth_key params)) 32%nat
  | _ => True
  end.

(** What a session does to the data of a packet: the algorithm of the library that the
    parameters name, with the bytes of memory that their key points to. *)
Definition ciphers_as params w (s : odp_crypto_generic_session_t) : Prop :=
  let enc := bool_decide (par_op params = ODP_CRYPTO_OP_ENCODE) in
  let key := k_data (cipher_key params) in
  match cipher_alg params with
  | ODP_CIPHER_ALG_NULL => forall p w' d, call_cipher s p w' d = Some (ODP_CRYPTO_ALG_ERR_NONE, d)
  | ODP_CIPHER_ALG_DES | ODP_CIPHER_ALG_3DES_CBC => exists k1 k2 k3, c_read key 8 w = Some k1 /\ c_read (key + 8) 8 w = Some k2 /\ c_read (key + 16) 8 w = Some k3 /\
      forall p w' d, call_cipher s p w' d = in_place (des_ede3_cbc enc k1 k2 k3) 8 s p w' d
  | ODP_CIPHER_ALG_AES128_CBC => exists k, c_read key 16 w = Some k /\ forall p w' d, call_cipher s p w' d = in_place (aes_cbc enc k) 16 s p w' d
  | ODP_CIPHER_ALG_AES128_GCM => exists k, c_read key 16 w = Some k /\
      forall p w' d, call_cipher s p w' d = (if enc then aes_gcm_encrypt else aes_gcm_decrypt) k (k_length (iv params)) s p w' d
  end.
Definition authenticates_as params w (s : odp_crypto_generic_session_t) : Prop :=
  let icv := if bool_decide (par_op params = ODP_CRYPTO_OP_ENCODE) then gen_icv else check_icv in
  let key := k_data (auth_key params) in
  match auth_alg params with
  | ODP_AUTH_ALG_NULL | ODP_AUTH_ALG_AES128_GCM => forall p d, call_auth (auth s) p d = Some (ODP_CRYPTO_ALG_ERR_NONE, d)
  | ODP_AUTH_ALG_MD5_96 => exists k, c_read key 16 w = Some k /\ forall p d, call_auth (auth s) p d = icv (hmac_md5 k) 12 p d
  | ODP_AUTH_ALG_SHA256_128 => exists k, c_read key 32 w = Some k /\ forall p d, call_auth (auth s) p d = icv (hmac_sha256 k) 16 p d
  end.

(** A session that was made from [params]. *)
Record made params w (s : odp_crypto_generic_session_t) : Prop := Made {
  made_op : op s = par_op params;
  made_first : do_cipher_first s = match par_op params with ODP_CRYPTO_OP_ENCODE => auth_cipher_text params | ODP_CRYPTO_OP_DECODE => negb (auth_cipher_text params) end;
  made_queue : compl_queue s = par_compl_queue params;
  made_pool : output_pool s = par_output_pool params;
  made_iv : iv_data s = k_data (iv params) /\ iv_len s = k_length (iv params);
  made_valid : params_err params = ODP_CRYPTO_SES_CREATE_ERR_NONE;
  made_cipher : ciphers_as params w s;
  made_auth : authenticates_as params w s }.

Lemma process_cipher_as params w s : process_cipher params w = Some (Some (cipher s)) -> ciphers_as params w s.
Proof.
  unfold process_cipher, process_des_params, process_aes_params, process_aes_gcm_params, ciphers_as, call_cipher, mbind, option_bind.
  destruct (cipher_alg params); intros Hp; repeat case_match; simplify_eq; repeat match goal with E : _ = cipher s |- _ => rewrite <- E; clear E end; try done;
    try (do 3 eexists; by split_and!); eexists; (split; [done|]); intros; by case_bool_decide.
Qed.
Lemma process_auth_as params w s : process_auth params w = Some (Some (auth s)) -> authenticates_as params w s.
Proof.
  unfold process_auth, process_md5_params, process_sha256_params, authenticates_as, mbind, option_bind.
  destruct (auth_alg params); intros Hp; repeat case_match; simplify_eq; repeat match goal with E : _ = auth s |- _ => rewrite <- E; clear E end; try done;
    eexists; (split; [done|]); intros; by case_bool_decide.
Qed.

Lemma process_ok params w : keys_readable params w -> exists c a, process_cipher params w = Some c /\ process_auth params w = Some a /\
  params_err params = match c, a with
                      | None, _ => ODP_CRYPTO_SES_CREATE_ERR_INV_CIPHER
                      | Some _, None => ODP_CRYPTO_SES_CREATE_ERR_INV_AUTH
                      | Some _, Some _ => ODP_CRYPTO_SES_CREATE_ERR_NONE
                      end.
Proof.
  unfold keys_readable, process_cipher, process_auth, params_err, process_des_params, process_aes_params, process_aes_gcm_params, process_md5_params, process_sha256_params.
  intros [Hc Ha].
  destruct (cipher_alg params), (auth_alg params); destruct_and?; repeat match goal with Hr : exists _, c_read _ _ _ = _ |- _ => destruct Hr as [? ->] end;
    cbn [mbind option_bind];
    repeat match goal with |- context [if negb (?b || ?c) then _ else _] => destruct (b || c) | |- context [if negb (?b =? ?c) then _ else _] => destruct (b =? c) eqn:? end;
    do 2 eexists; split_and!; try reflexivity.
Qed.
(** The result of creating a session, as the table and the parameters decide it. *)
Definition create_result (l : list Z) params : Z * odp_crypto_ses_create_err_t * option Z :=
  match l, params_err params with
  | [], _ => (-1, ODP_CRYPTO_SES_CREATE_ERR_ENOMEM, None)
  | h :: _, ODP_CRYPTO_SES_CREATE_ERR_NONE => (0, ODP_CRYPTO_SES_CREATE_ERR_NONE, Some h)
  | _ :: _, e => (-1, e, None)
  end.
Definition is_invalid (e : odp_crypto_ses_create_err_t) : bool :=
  match e with ODP_CRYPTO_SES_CREATE_ERR_INV_CIPHER | ODP_CRYPTO_SES_CREATE_ERR_INV_AUTH => true | _ => false end.

Lemma session_create_ok params w g live lost l : table_ok g live lost l -> keys_readable params w -> exists g',
  odp_crypto_session_create params w g = Some (create_result l params, g') /\
  table_ok g' (option_list (create_result l params).2 ++ live) (if is_invalid (create_result l params).1.2 then free g :: lost else lost) (drop 1 l) /\
  (forall h, head l <> Some h -> get_session h g' = get_session h g) /\
  (forall h, (create_result l params).2 = Some h -> exists s, get_session h g' = Some s /\ made params w s).
Proof.
  intros Ht Hk. destruct l as [|h l].
  { exists g. unfold odp_crypto_session_create. rewrite (alloc_empty _ _ _ Ht). cbn [mbind option_bind Z.eqb]. by split_and!. }
  assert (Hb : 1 <= h <= MAX_SESSIONS) by (apply (table_bound _ _ _ _ h Ht); set_solver).
  assert (Hn : h ∉ l) by (pose proof (table_nodup _ _ _ _ Ht) as Hn; apply NoDup_cons in Hn as [Hn _]; set_solver).
  assert (Hf : free g = h) by apply (tab_chain _ _ _ _ Ht). rewrite Hf.
  destruct (alloc_head _ _ _ _ _ Ht) as (g1 & Ha & Hh & Hss & Ht1 & Ht2). unfold odp_crypto_session_create. rewrite Ha. cbn [mbind option_bind].
  replace (h =? 0) with false by lia. assert (Hl1 : zlen (sessions g1) = MAX_SESSIONS) by apply Ht1.
  destruct (get_session_ok h g1) as [s Hs]; [by rewrite Hl1|]. rewrite Hs. cbn [mbind option_bind].
  destruct (process_ok params w Hk) as (c & a & Hc & Hau & He). rewrite Hc, Hau. cbn [mbind option_bind]. unfold create_result. rewrite He.
  assert (Hfr : forall s' g', put_session h s' g1 = Some g' -> forall h', head (h :: l) <> Some h' -> get_session h' g' = get_session h' g).
  { intros s' g' Hg' h' Hne. rewrite (get_put _ _ _ _ _ Hg'), bool_decide_eq_false_2 by (by cbn in Hne; congruence). unfold get_session. by rewrite Hss. }
  destruct c as [c|]; [destruct a as [a|]|];
    match goal with |- context [put_session h ?s g1] => destruct (put_session_ok h s g1) as [g' Hg']; [by rewrite Hl1|] end;
    rewrite Hg'; cbn [mbind option_bind]; exists g'; (split_and!; [done| | by eapply Hfr |]); try (by eapply table_put); try done.
  intros h' [= <-]. eexists. split; [by rewrite (get_put _ _ _ _ _ Hg'), bool_decide_eq_true_2|].
  by split; [| | | | |rewrite He|apply process_cipher_as; rewrite Hc|apply process_auth_as; rewrite Hau].
Qed.

Lemma session_destroy_ok h live' g live lost l : table_ok g live lost l -> live ≡ₚ h :: live' -> exists g',
  odp_crypto_session_destroy h g = Some (0, g') /\ table_ok g' live' lost (h :: l) /\ forall h', h' <> h -> get_session h' g' = get_session h' g.
Proof.
  intros Ht Hl. assert (Hin : h ∈ live) by (rewrite Hl; set_solver). assert (Hb : 1 <= h <= MAX_SESSIONS) by (apply (table_bound _ _ _ _ h Ht); set_solver).
  assert (Hnl : h ∉ l). { pose proof (table_nodup _ _ _ _ Ht) as Hn. apply NoDup_app in Hn as (_ & Hn & _). intros Hx. apply (Hn _ Hx). set_solver. }
  unfold odp_crypto_session_destroy. destruct (put_session_ok h zero_session g) as [g1 Hg1]; [by rewrite (tab_len _ _ _ _ Ht)|]. rewrite Hg1. cbn [mbind option_bind].
  destruct (free_ok _ _ _ _ h live' (table_put _ _ _ _ _ _ _ Ht Hnl Hg1) Hl) as (g2 & Hg2 & Ht2 & Hfr). rewrite Hg2. cbn [mbind option_bind].
  exists g2. split_and!; [done|done|]. intros h' Hne. by rewrite Hfr, (get_put _ _ _ _ _ Hg1), bool_decide_eq_false_2 by congruence.
Qed.

(** ** Histories *)

(** The tables that calls lead to, with the sessions that are in use and those that a failed
    call has taken. *)
Inductive reach : odp_crypto_global_t -> list Z -> list Z -> Prop :=
  | reach_init g : odp_crypto_init_global true = Some (0, g) -> reach g [] []
  | reach_create params w r st out g g' live lost : reach g live lost -> keys_readable params w ->
      odp_crypto_session_create params w g = Some (r, st, out, g') -> reach g' (option_list out ++ live) (if is_invalid st then free g :: lost else lost)
  | reach_destroy h r g g' live live' lost : reach g live lost -> live ≡ₚ h :: live' -> odp_crypto_session_destroy h g = Some (r, g') -> reach g' live' lost.

Lemma init_ok g : odp_crypto_init_global true = Some (0, g) -> table_ok g [] [] (reverse (seqZ 1 MAX_SESSIONS)).
Proof.
  intros Hg. vm_compute in Hg. injection Hg as <-. split; [done| |by rewrite app_nil_r, reverse_Permutation].
  vm_compute. repeat (split; [done|]; split; [done|]; eexists; split; [done|]). done.
Qed.
Lemma reach_table g live lost : reach g live lost -> exists l, table_ok g live lost l.
Proof.
  induction 1 as [g Hg|params w r st out g g' live lost _ [l IH] Hk Hc|h r g g' live live' lost _ [l IH] Hl Hd].
  - eexists. by apply init_ok.
  - destruct (session_create_ok params w g live lost l IH Hk) as (g1 & Hc1 & Ht & _). rewrite Hc1 in Hc. injection Hc as Hr <-. rewrite Hr in Ht. by eexists.
  - destruct (session_destroy_ok h live' g live lost l IH Hl) as (g1 & Hd1 & Ht & _). rewrite Hd1 in Hd. injection Hd as <- <-. by eexists.
Qed.
Lemma term_ok rc g live lost l : table_ok g live lost l ->
  odp_crypto_term_global rc g = Some (if bool_decide (live = [] /\ lost = [] /\ 0 <= rc) then 0 else -1).
Proof.
  intros Ht. pose proof (table_count _ _ _ _ Ht) as Hn. unfold odp_crypto_term_global. rewrite (count_chain g l) by (apply Ht || lia). cbn [mbind option_bind].
  unfold MAX_SESSIONS, zlen. f_equal. destruct live as [|? live], lost as [|? lost]; cbn [length] in *; case_bool_decide; destruct_and?; try done; repeat case_match; try lia; try done.
  naive_solver lia.
Qed.

(** C35: The sessions.  After any history of creations and destructions, from
    [odp_crypto_init_global] on, the sessions in use and those taken by failed calls
    are different ones.  Creating, with keys in memory, returns: out of memory, and
    nothing changes, exactly when no session is left; otherwise the error the parameters
    have ([params_err]); without one, a session that is not in use and that does what
    the parameters ask for ([made]): the order, queue, pool and vector, the algorithm of
    the library that the parameters name with the bytes at the address of its key, and
    the hash they name with its key and length.  The other sessions stay as they are.  A
    failed creation writes no session handle, where the interface promises
    ODP_CRYPTO_SESSION_INVALID.  Destroying a session in use returns 0 and leaves the others.
    Terminating returns 0 exactly when no session is in use or lost and the memory is freed. *)
Theorem crypto_sessions g live lost : reach g live lost ->
  NoDup (live ++ lost) /\
  (forall params w, keys_readable params w -> exists r st out g', odp_crypto_session_create params w g = Some (r, st, out, g') /\
    (forall h, h ∈ live -> get_session h g' = get_session h g) /\
    (if bool_decide (length live + length lost = 32)%nat then r = -1 /\ st = ODP_CRYPTO_SES_CREATE_ERR_ENOMEM /\ out = None /\ g' = g
     else st = params_err params /\
       (st = ODP_CRYPTO_SES_CREATE_ERR_NONE -> r = 0 /\ exists h s, out = Some h /\ (h ∉ live ++ lost) /\ 1 <= h <= MAX_SESSIONS /\ get_session h g' = Some s /\ made params w s) /\
       (st <> ODP_CRYPTO_SES_CREATE_ERR_NONE -> r = -1 /\ out = None))) /\
  (forall h, h ∈ live -> exists g', odp_crypto_session_destroy h g = Some (0, g') /\ forall h', h' ∈ live -> h' <> h -> get_session h' g' = get_session h' g) /\
  (forall rc, odp_crypto_term_global rc g = Some (if bool_decide (live = [] /\ lost = [] /\ 0 <= rc) then 0 else -1)).
Proof.
  intros [l Ht]%reach_table. pose proof (table_count _ _ _ _ Ht) as Hn. pose proof (table_nodup _ _ _ _ Ht) as Hd. apply NoDup_app in Hd as (_ & Hdis & Hd2). split_and!; [done| | |].
  - intros params w Hk. destruct (session_create_ok params w g live lost l Ht Hk) as (g' & Hc & Ht' & Hfr & Hm).
    destruct (create_result l params) as [[r st] out] eqn:E. exists r, st, out, g'. split_and!; [done| |].
    { intros h Hh. apply Hfr. destruct l as [|x l]; [done|]. intros [= ->]. apply (Hdis h); set_solver. }
    unfold create_result in E. destruct l as [|x l]; cbn [length] in Hn.
    + rewrite bool_decide_eq_true_2 by lia. injection E as <- <- <-. unfold odp_crypto_session_create in Hc. rewrite (alloc_empty _ _ _ Ht) in Hc. injection Hc as <-. done.
    + rewrite bool_decide_eq_false_2 by lia. assert (Hx : x ∉ live ++ lost) by (apply Hdis; set_solver).
      assert (Hb : 1 <= x <= MAX_SESSIONS) by (apply (table_bound _ _ _ _ x Ht); set_solver).
      destruct (params_err params); injection E as <- <- <-; (split_and!; [done|intros; try done|intros; try done]). split; [done|].
      destruct (Hm x eq_refl) as (s & Hs & Hma). by exists x, s.
  - intros h Hh. destruct (elem_of_Permutation live h) as [[live' Hl] _]; [done|]. destruct (session_destroy_ok h live' g live lost l Ht Hl) as (g' & Hg & _ & Hfr).
    exists g'. split; [done|]. intros h' _ Hne. by apply Hfr.
  - intros rc. by eapply term_ok.
Qed.

End sessions.

End CryptoProofs.
