(* ===== verification/CryptoSpec.v ===== *)
(** Crypto: decoding undoes encoding; what an attacker's packet gives; witnesses. *)

From S2P Require Import Prelude Crypto CryptoProofs.

Open Scope Z_scope.
Open Scope c_scope.

Module CryptoSpec.
Import Crypto CryptoProofs.

(** ** Ranges of the data of a packet *)

Lemma zlist_eq {A} (l1 l2 : list A) : zlen l1 = zlen l2 -> (forall i, 0 <= i < zlen l1 -> zget l1 i = zget l2 i) -> l1 = l2.
Proof.
  unfold zlen. intros Hl Hi. apply list_eq. intros i. destruct (decide (i < length l1)%nat) as [Hlt|Hge].
  - specialize (Hi (Z.of_nat i) ltac:(lia)). by rewrite !zget_of_nat in Hi.
  - rewrite !lookup_ge_None_2 by lia. done.
Qed.
Lemma put_range_inv o x d d' : put_range o x d = Some d' -> 0 <= o /\ o + zlen x <= zlen d /\ zlen d' = zlen d /\
  forall i, 0 <= i < zlen d -> zget d' i = if bool_decide (o <= i < o + zlen x) then zget x (i - o) else zget d i.
Proof.
  unfold put_range, zlen. case_bool_decide as Hb; [|done]. intros [= <-]. split_and!; [lia|lia| |].
  - rewrite !length_app, length_take, length_drop. lia.
  - intros i Hi. rewrite zget_nonneg by lia. case_bool_decide as Hc.
    + rewrite lookup_app_r by (rewrite length_take; lia). rewrite lookup_app_l by (rewrite length_take; lia). rewrite zget_nonneg by lia. f_equal. rewrite length_take. lia.
    + rewrite zget_nonneg by lia. destruct (decide (i < o)).
      * rewrite lookup_app_l by (rewrite length_take; lia). by rewrite lookup_take_lt by lia.
      * rewrite lookup_app_r by (rewrite length_take; lia). rewrite lookup_app_r by (rewrite length_take; lia). rewrite lookup_drop, length_take. f_equal. lia.
Qed.
Lemma put_range_ok o x d : 0 <= o -> o + zlen x <= zlen d -> exists d', put_range o x d = Some d'.
Proof. intros. unfold put_range. rewrite bool_decide_eq_true_2 by lia. by eexists. Qed.
Lemma get_range_inv o n d x : get_range o n d = Some x -> 0 <= o /\ 0 <= n /\ o + n <= zlen d /\ zlen x = n /\ forall i, 0 <= i < n -> zget x i = zget d (o + i).
Proof.
  unfold get_range, zlen. case_bool_decide as Hb; [|done]. intros [= <-]. split_and!; [lia|lia|lia| |].
  - rewrite length_take, length_drop. lia.
  - intros i Hi. rewrite !zget_nonneg by lia. rewrite lookup_take_lt, lookup_drop by lia. f_equal. lia.
Qed.
Lemma get_range_ok o n d : 0 <= o -> 0 <= n -> o + n <= zlen d -> exists x, get_range o n d = Some x.
Proof. intros. unfold get_range. rewrite bool_decide_eq_true_2 by lia. by eexists. Qed.
(** A range is determined by its bytes. *)
Lemma get_range_eq o n d x : 0 <= o -> o + n <= zlen d -> zlen x = n -> (forall i, 0 <= i < n -> zget d (o + i) = zget x i) -> get_range o n d = Some x.
Proof.
  intros Ho Hn Hx Hi. destruct (get_range_ok o n d) as [y Hy]; [lia|unfold zlen in Hx; lia|lia|]. rewrite Hy. f_equal. apply get_range_inv in Hy as (_ & _ & _ & Hl & Hyi).
  apply zlist_eq; [lia|]. intros i Hr. rewrite Hyi by lia. apply Hi. lia.
Qed.

Definition apart (o1 n1 o2 n2 : Z) : Prop := o1 + n1 <= o2 \/ o2 + n2 <= o1.

Lemma get_put_same o x d d' : put_range o x d = Some d' -> get_range o (zlen x) d' = Some x.
Proof.
  intros (Ho & Hb & Hl & Hi)%put_range_inv. apply get_range_eq; [lia|lia|done|]. intros i Hr. rewrite Hi, bool_decide_eq_true_2 by lia. f_equal. lia.
Qed.
Lemma get_put_apart o x d d' o' n : put_range o x d = Some d' -> apart o (zlen x) o' n -> get_range o' n d' = get_range o' n d.
Proof.
  intros (Ho & Hb & Hl & Hi)%put_range_inv Ha. unfold apart in Ha. destruct (get_range o' n d) as [y|] eqn:Hy.
  - apply get_range_inv in Hy as (Ho' & Hn & Hb' & Hly & Hyi). apply get_range_eq; [lia|lia|done|]. intros i Hr. rewrite Hi, bool_decide_eq_false_2 by lia. by rewrite Hyi.
  - revert Hy. unfold get_range. by rewrite Hl; case_bool_decide.
Qed.
Lemma put_put o x y d d' : put_range o x d = Some d' -> zlen y = zlen x -> put_range o y d' = put_range o y d.
Proof.
  intros (Ho & Hb & Hl & Hi)%put_range_inv Hxy. destruct (put_range_ok o y d) as [d1 H1]; [lia|lia|]. destruct (put_range_ok o y d') as [d2 H2]; [lia|lia|].
  rewrite H1, H2. f_equal. apply put_range_inv in H1 as (_ & _ & Hl1 & Hi1), H2 as (_ & _ & Hl2 & Hi2). apply zlist_eq; [lia|]. intros i Hr.
  rewrite Hi1, Hi2 by lia. case_bool_decide; [done|]. by rewrite Hi, bool_decide_eq_false_2 by lia.
Qed.
Lemma put_comm o x o' y d d1 d2 : put_range o x d = Some d1 -> put_range o' y d = Some d2 -> apart o (zlen x) o' (zlen y) -> put_range o' y d1 = put_range o x d2.
Proof.
  intros (Ho & Hb & Hl & Hi)%put_range_inv (Ho' & Hb' & Hl' & Hi')%put_range_inv Ha. unfold apart in Ha.
  destruct (put_range_ok o' y d1) as [e1 H1]; [lia|lia|]. destruct (put_range_ok o x d2) as [e2 H2]; [lia|lia|].
  rewrite H1, H2. f_equal. apply put_range_inv in H1 as (_ & _ & Hl1 & Hi1), H2 as (_ & _ & Hl2 & Hi2). apply zlist_eq; [lia|]. intros i Hr.
  rewrite Hi1, Hi2 by lia. rewrite Hi, Hi' by lia. repeat case_bool_decide; try done; lia.
Qed.
Lemma put_get o n d x : get_range o n d = Some x -> put_range o x d = Some d.
Proof.
  intros (Ho & Hn & Hb & Hl & Hi)%get_range_inv. destruct (put_range_ok o x d) as [d' H1]; [lia|lia|]. rewrite H1. f_equal.
  apply put_range_inv in H1 as (_ & _ & Hl1 & Hi1). apply zlist_eq; [lia|]. intros i Hr. rewrite Hi1 by lia. case_bool_decide; [|done]. rewrite Hi by lia. f_equal. lia.
Qed.
Lemma put_len o x d d' : put_range o x d = Some d' -> zlen d' = zlen d.
Proof. by intros (_ & _ & ? & _)%put_range_inv. Qed.

(** ** Laws of the libraries *)

Class OpenSSLLaws `{OpenSSL} : Prop := {
  md5_length k x : length (hmac_md5 k x) = 16%nat;
  sha256_length k x : length (hmac_sha256 k x) = 32%nat;
  des_length e k1 k2 k3 v x : (8 | zlen x) -> length (des_ede3_cbc e k1 k2 k3 v x) = length x;
  des_inverse k1 k2 k3 v x : (8 | zlen x) -> des_ede3_cbc false k1 k2 k3 v (des_ede3_cbc true k1 k2 k3 v x) = x;
  aes_length e k v x : (16 | zlen x) -> length (aes_cbc e k v x) = length x;
  aes_inverse k v x : (16 | zlen x) -> aes_cbc false k v (aes_cbc true k v x) = x;
  gcm_length k n v a x : length (gcm_encrypt k n v a x []).1 = length x /\ length (gcm_encrypt k n v a x []).2 = 16%nat;
  gcm_inverse k n v a x : gcm_decrypt k n v a (gcm_encrypt k n v a x []).1 [] (gcm_encrypt k n v a x []).2 = (x, 1)
}.
(** Writing the data of a packet: they can be read, and keys and vectors are elsewhere. *)
Class CryptoWorldLaws W `{CryptoWorld W} : Prop := {
  data_set h d d0 (w : W) : c_data h w = Some d0 -> length d = length d0 -> c_data h (c_set_data h d w) = Some d;
  read_set a n h d (w : W) : c_read a n (c_set_data h d w) = c_read a n w
}.

(** ** Algorithms as functions on a range *)

Definition icv_len (a : odp_auth_alg_t) : Z := match a with ODP_AUTH_ALG_NULL => 0 | ODP_AUTH_ALG_MD5_96 => 12 | ODP_AUTH_ALG_SHA256_128 | ODP_AUTH_ALG_AES128_GCM => 16 end.
Definition cipher_block (c : odp_cipher_alg_t) : Z :=
  match c with ODP_CIPHER_ALG_NULL | ODP_CIPHER_ALG_AES128_GCM => 1 | ODP_CIPHER_ALG_DES | ODP_CIPHER_ALG_3DES_CBC => 8 | ODP_CIPHER_ALG_AES128_CBC => 16 end.
Definition iv_size (c : odp_cipher_alg_t) : nat := match c with ODP_CIPHER_ALG_NULL => 0%nat | ODP_CIPHER_ALG_DES | ODP_CIPHER_ALG_3DES_CBC => 8%nat | _ => 16%nat end.
Definition on_range (f : list Z -> list Z) (p : odp_crypto_op_params_t) (d : list Z) : option (odp_crypto_alg_err_t * list Z) :=
  data ← get_range (r_offset (cipher_range p)) (r_length (cipher_range p)) d;
  d ← put_range (r_offset (cipher_range p)) (f data) d;
  Some (ODP_CRYPTO_ALG_ERR_NONE, d).

(** The ranges are in the data, and the check value is outside of what is
    enciphered and authenticated. *)
Record ranges_ok (n : Z) (p : odp_crypto_op_params_t) (d : list Z) : Prop := RangesOk {
  ro_cipher : 0 <= r_offset (cipher_range p) /\ 0 <= r_length (cipher_range p) /\ r_offset (cipher_range p) + r_length (cipher_range p) <= zlen d;
  ro_auth : 0 <= r_offset (auth_range p) /\ 0 <= r_length (auth_range p) /\ r_offset (auth_range p) + r_length (auth_range p) <= zlen d;
  ro_icv : 0 <= hash_result_offset p /\ hash_result_offset p + n <= zlen d;
  ro_icv_cipher : apart (hash_result_offset p) n (r_offset (cipher_range p)) (r_length (cipher_range p));
  ro_icv_auth : apart (hash_result_offset p) n (r_offset (auth_range p)) (r_length (auth_range p)) }.

Lemma on_range_ok f n p d d' : ranges_ok n p d -> zlen d' = zlen d -> (forall x, zlen x = r_length (cipher_range p) -> zlen (f x) = r_length (cipher_range p)) ->
  exists x d1, get_range (r_offset (cipher_range p)) (r_length (cipher_range p)) d' = Some x /\ zlen x = r_length (cipher_range p) /\
    put_range (r_offset (cipher_range p)) (f x) d' = Some d1 /\ on_range f p d' = Some (ODP_CRYPTO_ALG_ERR_NONE, d1).
Proof.
  intros [Hc _ _ _ _] Hd Hf. destruct (get_range_ok (r_offset (cipher_range p)) (r_length (cipher_range p)) d') as [x Hx]; [lia..|].
  pose proof (get_range_inv _ _ _ _ Hx) as (_ & _ & _ & Hl & _). destruct (put_range_ok (r_offset (cipher_range p)) (f x) d') as [d1 H1]; [lia|rewrite Hf by done; lia|].
  exists x, d1. unfold on_range. rewrite Hx. cbn [mbind option_bind]. rewrite H1. done.
Qed.
Lemma on_range_undo E D p d d1 d2 x : (forall x, zlen x = r_length (cipher_range p) -> D (E x) = x /\ zlen (E x) = r_length (cipher_range p)) ->
  get_range (r_offset (cipher_range p)) (r_length (cipher_range p)) d = Some x -> put_range (r_offset (cipher_range p)) (E x) d = Some d1 ->
  get_range (r_offset (cipher_range p)) (r_length (cipher_range p)) d2 = get_range (r_offset (cipher_range p)) (r_length (cipher_range p)) d1 ->
  on_range D p d2 = d3 ← put_range (r_offset (cipher_range p)) x d2; Some (ODP_CRYPTO_ALG_ERR_NONE, d3).
Proof.
  intros HE Hx H1 H2. pose proof (get_range_inv _ _ _ _ Hx) as (_ & _ & _ & Hl & _). destruct (HE x Hl) as [HD HL].
  unfold on_range. rewrite H2, <- HL, (get_put_same _ _ _ _ H1). cbn [mbind option_bind]. by rewrite HD.
Qed.

Section pure.
Context (E D hash : list Z -> list Z) (n : Z) (p : odp_crypto_op_params_t) (d : list Z).
Context (Hn : 0 <= n) (Hr : ranges_ok n p d).
Context (HE : forall x, zlen x = r_length (cipher_range p) -> D (E x) = x /\ zlen (E x) = r_length (cipher_range p)).
Context (Hh : forall x, n <= zlen (hash x)).
Abbreviation tag x := (take (Z.to_nat n) (hash x)).
Abbreviation zeros := (replicate (Z.to_nat n) 0).
Abbreviation io := (hash_result_offset p).
Abbreviation ao := (r_offset (auth_range p)).
Abbreviation al := (r_length (auth_range p)).
Abbreviation co := (r_offset (cipher_range p)).
Abbreviation cl := (r_length (cipher_range p)).

Lemma tag_len x : zlen (tag x) = n.
Proof. specialize (Hh x). unfold zlen in *. rewrite length_take. lia. Qed.
Lemma zeros_len : zlen zeros = n.
Proof. unfold zlen. rewrite length_replicate. lia. Qed.
Lemma ranges_apart_sym o1 n1 o2 n2 : apart o1 n1 o2 n2 -> apart o2 n2 o1 n1.
Proof. unfold apart. lia. Qed.

Lemma gen_icv_ok d1 : zlen d1 = zlen d -> exists a d2, get_range ao al d1 = Some a /\ put_range io (tag a) d1 = Some d2 /\ gen_icv hash n p d1 = Some (ODP_CRYPTO_ALG_ERR_NONE, d2).
Proof.
  intros Hd. destruct Hr as [_ Ha Hi _ _]. destruct (get_range_ok ao al d1) as [a Ha1]; [lia..|]. destruct (put_range_ok io (tag a) d1) as [d2 H2]; [lia|rewrite tag_len; lia|].
  exists a, d2. unfold gen_icv. rewrite Ha1. cbn [mbind option_bind]. by rewrite H2.
Qed.
(** The check finds the value that was generated over the same bytes. *)
Lemma check_icv_ok d1 d2 a : zlen d1 = zlen d -> get_range ao al d1 = Some a -> put_range io (tag a) d1 = Some d2 ->
  exists d3, put_range io zeros d1 = Some d3 /\ check_icv hash n p d2 = Some (ODP_CRYPTO_ALG_ERR_NONE, d3).
Proof.
  intros Hd Ha1 H2. destruct Hr as [_ Ha Hi _ Hia]. destruct (put_range_ok io zeros d1) as [d3 H3]; [lia|rewrite zeros_len; lia|]. exists d3. split; [done|].
  unfold check_icv. pose proof (get_put_same _ _ _ _ H2) as Hg. rewrite tag_len in Hg. rewrite Hg. cbn [mbind option_bind].
  rewrite (put_put _ _ _ _ _ H2) by (by rewrite zeros_len, tag_len). rewrite H3. cbn [mbind option_bind].
  rewrite (get_put_apart _ _ _ _ ao al H3) by (by rewrite zeros_len). rewrite Ha1. cbn [mbind option_bind]. by rewrite bool_decide_eq_true_2.
Qed.

(** The text is authenticated after it was enciphered. *)
Lemma cipher_then_auth : exists d1 d2 d3 d4,
  on_range E p d = Some (ODP_CRYPTO_ALG_ERR_NONE, d1) /\ gen_icv hash n p d1 = Some (ODP_CRYPTO_ALG_ERR_NONE, d2) /\
  check_icv hash n p d2 = Some (ODP_CRYPTO_ALG_ERR_NONE, d3) /\ on_range D p d3 = Some (ODP_CRYPTO_ALG_ERR_NONE, d4) /\
  zlen d1 = zlen d /\ zlen d2 = zlen d /\ zlen d3 = zlen d /\ zlen d4 = zlen d /\ put_range io zeros d = Some d4.
Proof.
  destruct (on_range_ok E n p d d Hr eq_refl) as (x & d1 & Hx & Hxl & H1 & He); [by apply HE|]. pose proof (put_len _ _ _ _ H1) as L1.
  destruct (gen_icv_ok d1 L1) as (a & d2 & Ha & H2 & Hg). pose proof (put_len _ _ _ _ H2) as L2.
  destruct (check_icv_ok d1 d2 a L1 Ha H2) as (d3 & H3 & Hc). pose proof (put_len _ _ _ _ H3) as L3.
  destruct (put_range_ok io zeros d) as [d4 H4]; [apply Hr|rewrite zeros_len; apply Hr|]. pose proof (put_len _ _ _ _ H4) as L4.
  assert (Hic : apart io (zlen zeros) co (zlen (E x))) by (rewrite zeros_len, (proj2 (HE x Hxl)); apply Hr).
  assert (Hd3 : get_range co cl d3 = get_range co cl d1) by (apply (get_put_apart _ _ _ _ co cl H3); rewrite zeros_len; apply Hr).
  exists d1, d2, d3, d4. split_and!; try done; try lia. rewrite (on_range_undo E D p d d1 d3 x HE Hx H1 Hd3).
  pose proof (put_comm _ _ _ _ _ _ _ H4 H1 Hic) as Hcm. rewrite H3 in Hcm. rewrite (put_put _ _ x _ _ Hcm) by (rewrite (proj2 (HE x Hxl)); done).
  assert (Hx4 : get_range co cl d4 = Some x) by (rewrite <- Hx; apply (get_put_apart _ _ _ _ co cl H4); rewrite zeros_len; apply Hr).
  by rewrite (put_get _ _ _ _ Hx4).
Qed.
(** The text is enciphered after it was authenticated. *)
Lemma auth_then_cipher : exists d1 d2 d3 d4,
  gen_icv hash n p d = Some (ODP_CRYPTO_ALG_ERR_NONE, d1) /\ on_range E p d1 = Some (ODP_CRYPTO_ALG_ERR_NONE, d2) /\
  on_range D p d2 = Some (ODP_CRYPTO_ALG_ERR_NONE, d3) /\ check_icv hash n p d3 = Some (ODP_CRYPTO_ALG_ERR_NONE, d4) /\
  zlen d1 = zlen d /\ zlen d2 = zlen d /\ zlen d3 = zlen d /\ zlen d4 = zlen d /\ put_range io zeros d = Some d4.
Proof.
  destruct (gen_icv_ok d eq_refl) as (a & d1 & Ha & H1 & Hg). pose proof (put_len _ _ _ _ H1) as L1.
  destruct (on_range_ok E n p d d1 Hr L1) as (x & d2 & Hx & Hxl & H2 & He); [by apply HE|]. pose proof (put_len _ _ _ _ H2) as L2.
  destruct (check_icv_ok d d1 a eq_refl Ha H1) as (d4 & H4 & Hc). pose proof (put_len _ _ _ _ H4) as L4.
  exists d1, d2, d1, d4. split_and!; try done; try lia. rewrite (on_range_undo E D p d1 d2 d2 x HE Hx H2 eq_refl).
  rewrite (put_put _ _ x _ _ H2) by (rewrite (proj2 (HE x Hxl)); done). by rewrite (put_get _ _ _ _ Hx).
Qed.
End pure.

(** ** Sessions of the same parameters *)

Definition set_op (o : odp_crypto_op_t) (params : odp_crypto_session_params_t) : odp_crypto_session_params_t :=
  SesParams o (auth_cipher_text params) (cipher_alg params) (cipher_key params) (iv params) (auth_alg params) (auth_key params) (par_compl_queue params) (par_output_pool params).
Definition set_session (h : Z) (p : odp_crypto_op_params_t) : odp_crypto_op_params_t :=
  OpParams h (ctx p) (pkt p) (out_pkt p) (override_iv_ptr p) (hash_result_offset p) (cipher_range p) (auth_range p).

Section roundtrip.
Context {W : Type} `{!OpenSSL} `{!CryptoWorld W} `{!OpenSSLLaws} `{!CryptoWorldLaws W}.
Implicit Types (w : W) (s : odp_crypto_generic_session_t) (params : odp_crypto_session_params_t) (p : odp_crypto_op_params_t).

(** The initialisation vector is given and is memory. *)
Definition vector_ok params p w : Prop := cipher_alg params <> ODP_CIPHER_ALG_NULL ->
  let ip := if negb (override_iv_ptr p =? 0) then override_iv_ptr p else k_data (iv params) in
  ip <> 0 /\ exists v, c_read ip (iv_size (cipher_alg params)) w = Some v.
Definition same_memory w w' : Prop := forall a n, c_read a n w' = c_read a n w.

Lemma in_place_range f v params p w w' s d : made params w s -> vector_ok params p w -> cipher_alg params <> ODP_CIPHER_ALG_NULL ->
  c_read (if negb (override_iv_ptr p =? 0) then override_iv_ptr p else k_data (iv params)) (iv_size (cipher_alg params)) w = Some v -> same_memory w w' ->
  in_place f (iv_size (cipher_alg params)) s p w' d = on_range (f v) p d.
Proof.
  intros Hm Hv Hc Hr Hsm. destruct (Hv Hc) as [Hip _]. unfold in_place, iv_ptr. rewrite (proj1 (made_iv _ _ _ Hm)). rewrite (proj2 (Z.eqb_neq _ 0)) by exact Hip.
  rewrite Hsm, Hr. done.
Qed.

(** Two functions on the range, inverse to each other, are what the sessions do. *)
Definition inverse_ciphers params p w : Prop := exists E D : list Z -> list Z,
  (forall x, zlen x = r_length (cipher_range p) -> D (E x) = x /\ zlen (E x) = r_length (cipher_range p)) /\
  (forall o s w' n d, ranges_ok n p d -> made (set_op o params) w s -> same_memory w w' ->
    call_cipher s p w' d = on_range (match o with ODP_CRYPTO_OP_ENCODE => E | ODP_CRYPTO_OP_DECODE => D end) p d).
Lemma block_cipher (crypt : bool -> list Z -> list Z -> list Z) params p w : cipher_alg params <> ODP_CIPHER_ALG_NULL -> vector_ok params p w ->
  (forall e v x, zlen x = r_length (cipher_range p) -> length (crypt e v x) = length x) ->
  (forall v x, zlen x = r_length (cipher_range p) -> crypt false v (crypt true v x) = x) ->
  (forall o s w' d, made (set_op o params) w s -> call_cipher s p w' d = in_place (crypt (bool_decide (o = ODP_CRYPTO_OP_ENCODE))) (iv_size (cipher_alg params)) s p w' d) ->
  inverse_ciphers params p w.
Proof.
  intros Hn Hv Hlen Hinv Hcall. destruct (Hv Hn) as (_ & v & Hr). exists (crypt true v), (crypt false v). split.
  - intros x Hx. split; [by apply Hinv|]. unfold zlen in *. by rewrite Hlen.
  - intros o s w' n d _ Hm Hsm. rewrite (Hcall o) by done. rewrite (in_place_range _ v (set_op o params) p w w' s d Hm Hv Hn Hr Hsm). by destruct o.
Qed.
Lemma des_cipher params p w : cipher_alg params = ODP_CIPHER_ALG_DES \/ cipher_alg params = ODP_CIPHER_ALG_3DES_CBC -> (8 | r_length (cipher_range p)) ->
  keys_readable params w -> vector_ok params p w -> inverse_ciphers params p w.
Proof.
  intros Ha Hb [Hk _] Hv. assert (Hk' : (exists k1, c_read (k_data (cipher_key params)) 8 w = Some k1) /\ (exists k2, c_read (k_data (cipher_key params) + 8) 8 w = Some k2) /\
    (exists k3, c_read (k_data (cipher_key params) + 16) 8 w = Some k3)) by (by destruct Ha as [Ha|Ha]; rewrite Ha in Hk).
  destruct Hk' as ([k1 Hk1] & [k2 Hk2] & [k3 Hk3]). apply (block_cipher (fun e v x => des_ede3_cbc e k1 k2 k3 v x)); [destruct Ha; congruence|done| | |].
  - intros e v x Hx. apply des_length. by rewrite Hx.
  - intros v x Hx. apply des_inverse. by rewrite Hx.
  - intros o s w' d Hm. pose proof (made_cipher _ _ _ Hm) as Hp. unfold ciphers_as in Hp. cbn [cipher_alg set_op cipher_key par_op] in Hp.
    destruct Ha as [Ha|Ha]; rewrite Ha in *; destruct Hp as (k1' & k2' & k3' & ? & ? & ? & ->); by simplify_eq.
Qed.
Lemma aes_cipher params p w : cipher_alg params = ODP_CIPHER_ALG_AES128_CBC -> (16 | r_length (cipher_range p)) ->
  keys_readable params w -> vector_ok params p w -> inverse_ciphers params p w.
Proof.
  intros Ha Hb [Hk _] Hv. rewrite Ha in Hk. destruct Hk as [k Hk]. apply (block_cipher (fun e v x => aes_cbc e k v x)); [congruence|done| | |].
  - intros e v x Hx. apply aes_length. by rewrite Hx.
  - intros v x Hx. apply aes_inverse. by rewrite Hx.
  - intros o s w' d Hm. pose proof (made_cipher _ _ _ Hm) as Hp. unfold ciphers_as in Hp. cbn [cipher_alg set_op cipher_key par_op] in Hp.
    rewrite Ha in *. destruct Hp as (k' & ? & ->). by simplify_eq.
Qed.
Lemma null_cipher params p w : cipher_alg params = ODP_CIPHER_ALG_NULL -> inverse_ciphers params p w.
Proof.
  intros Ha. exists id, id. split; [done|]. intros o s w' n d [Hc _ _ _ _] Hm _. pose proof (made_cipher _ _ _ Hm) as Hp. unfold ciphers_as in Hp. cbn [cipher_alg set_op] in Hp. rewrite Ha in Hp. rewrite Hp. destruct (get_range_ok (r_offset (cipher_range p)) (r_length (cipher_range p)) d) as [x Hx]; [lia..|].
  unfold on_range. rewrite Hx. cbn [mbind option_bind]. by destruct o; cbn [id]; rewrite (put_get _ _ _ _ Hx).
Qed.
Lemma cipher_functions params p w : cipher_alg params <> ODP_CIPHER_ALG_AES128_GCM -> (cipher_block (cipher_alg params) | r_length (cipher_range p)) ->
  keys_readable params w -> vector_ok params p w -> inverse_ciphers params p w.
Proof.
  intros Hg Hb Hk Hv. destruct (cipher_alg params) eqn:Ha; [by apply null_cipher|apply des_cipher; auto..|by apply aes_cipher|done].
Qed.

(** The authentication: a hash, of which the first bytes are kept. *)
Lemma auth_functions params p w : auth_alg params <> ODP_AUTH_ALG_AES128_GCM -> keys_readable params w -> exists hash : list Z -> list Z,
  (forall x, icv_len (auth_alg params) <= zlen (hash x)) /\
  (forall o s d, ranges_ok (icv_len (auth_alg params)) p d -> made (set_op o params) w s ->
    call_auth (auth s) p d = match o with ODP_CRYPTO_OP_ENCODE => gen_icv | ODP_CRYPTO_OP_DECODE => check_icv end hash (icv_len (auth_alg params)) p d).
Proof.
  intros Hg [_ Hk]. destruct (auth_alg params) eqn:Ha; [|destruct Hk as [k Hk]..|done].
  - exists (fun _ => []). split; [done|]. intros o s d [_ Hau Hi _ _] Hm. pose proof (made_auth _ _ _ Hm) as Hp. unfold authenticates_as in Hp. cbn [auth_alg set_op] in Hp.
    rewrite Ha in Hp. rewrite Hp. cbn [icv_len] in *.
    destruct (get_range_ok (r_offset (auth_range p)) (r_length (auth_range p)) d) as [a Hra]; [lia..|].
    assert (Hri : get_range (hash_result_offset p) 0 d = Some []) by (apply get_range_eq; [lia|lia|done|lia]). pose proof (put_get _ _ _ _ Hri) as Hpi.
    destruct o; unfold gen_icv, check_icv; [rewrite Hra|rewrite Hri]; cbn [mbind option_bind]; change (Z.to_nat 0) with 0%nat; cbn [firstn replicate]; rewrite Hpi; cbn [mbind option_bind]; [done|]. by rewrite Hra.
  - exists (hmac_md5 k). split; [intros x; unfold zlen; rewrite md5_length; cbn; lia|]. intros o s d _ Hm. pose proof (made_auth _ _ _ Hm) as Hp.
    unfold authenticates_as in Hp. cbn [auth_alg set_op auth_key par_op] in Hp. rewrite Ha in Hp. destruct Hp as (k' & ? & ->). simplify_eq. by destruct o.
  - exists (hmac_sha256 k). split; [intros x; unfold zlen; rewrite sha256_length; cbn; lia|]. intros o s d _ Hm. pose proof (made_auth _ _ _ Hm) as Hp.
    unfold authenticates_as in Hp. cbn [auth_alg set_op auth_key par_op] in Hp. rewrite Ha in Hp. destruct Hp as (k' & ? & ->). simplify_eq. by destruct o.
Qed.

(** AES-GCM: the text is at the end of what is authenticated. *)
Definition gcm_ranges p : Prop := r_offset (auth_range p) <= r_offset (cipher_range p) /\
  r_offset (auth_range p) + r_length (auth_range p) = r_offset (cipher_range p) + r_length (cipher_range p).

Lemma gcm_ranges_fit p d : gcm_ranges p -> gcm_ranges_bad p = false /\ gcm_tail p d = Some [].
Proof.
  intros [Ho Hs]. unfold gcm_ranges_bad, gcm_tail. rewrite Hs, Z.ltb_irrefl. split; [|by rewrite Z.gtb_ltb, Z.ltb_irrefl].
  rewrite Z.gtb_ltb, (proj2 (Z.ltb_ge _ _)) by lia. done.
Qed.
Lemma gcm_session o params w s : cipher_alg params = ODP_CIPHER_ALG_AES128_GCM -> keys_readable params w -> made (set_op o params) w s -> exists k,
  c_read (k_data (cipher_key params)) 16 w = Some k /\
  (forall p w' d, call_cipher s p w' d = (if bool_decide (o = ODP_CRYPTO_OP_ENCODE) then aes_gcm_encrypt else aes_gcm_decrypt) k (k_length (iv params)) s p w' d) /\
  (forall p d, call_auth (auth s) p d = Some (ODP_CRYPTO_ALG_ERR_NONE, d)) /\ auth_alg params = ODP_AUTH_ALG_AES128_GCM.
Proof.
  intros Ha _ Hm. pose proof (made_cipher _ _ _ Hm) as Hp. pose proof (made_auth _ _ _ Hm) as Hq. pose proof (made_valid _ _ _ Hm) as Hv.
  unfold ciphers_as in Hp. unfold authenticates_as in Hq. unfold params_err in Hv. cbn [cipher_alg set_op iv cipher_key par_op auth_alg] in Hp, Hq, Hv. rewrite Ha in *.
  destruct (decide (auth_alg params = ODP_AUTH_ALG_AES128_GCM)) as [Hau|Hau]; [|by rewrite bool_decide_eq_false_2 in Hv].
  rewrite Hau in Hq. destruct Hp as (k & Hk & Hp). by exists k.
Qed.
Lemma gcm_roundtrip params p w w' d se sd : cipher_alg params = ODP_CIPHER_ALG_AES128_GCM -> gcm_ranges p -> ranges_ok 16 p d -> keys_readable params w -> vector_ok params p w ->
  same_memory w w' -> made (set_op ODP_CRYPTO_OP_ENCODE params) w se -> made (set_op ODP_CRYPTO_OP_DECODE params) w sd -> exists d1 d2 x,
  call_cipher se p w d = Some (ODP_CRYPTO_ALG_ERR_NONE, d1) /\ call_cipher sd p w' d1 = Some (ODP_CRYPTO_ALG_ERR_NONE, d2) /\
  zlen d1 = zlen d /\ put_range (hash_result_offset p) x d = Some d2 /\ zlen x = 16.
Proof.
  intros Ha Hg Hr Hk Hv Hsm He Hd. destruct (gcm_session _ _ _ _ Ha Hk He) as (k & Hk1 & Hce & _). destruct (gcm_session _ _ _ _ Ha Hk Hd) as (k' & Hk2 & Hcd & _).
  rewrite Hk1 in Hk2. injection Hk2 as <-. setoid_rewrite Hce. setoid_rewrite Hcd. rewrite bool_decide_eq_true_2, bool_decide_eq_false_2 by done.
  destruct (Hv ltac:(congruence)) as (Hip & v & Hread). rewrite Ha in Hread. cbn [iv_size] in Hread. unfold aes_gcm_encrypt, aes_gcm_decrypt, iv_ptr.
  rewrite (proj1 (made_iv _ _ _ He)), (proj1 (made_iv _ _ _ Hd)). cbn [set_op iv]. rewrite !(proj2 (Z.eqb_neq (if negb (override_iv_ptr p =? 0) then _ else _) 0)) by exact Hip.
  rewrite !(proj1 (gcm_ranges_fit p d Hg)), Hsm, Hread. cbn [mbind option_bind]. destruct Hg as [Ho Hs]. destruct Hr as [Hc Hau Hi Hic Hia].
  unfold gcm_head. destruct (get_range_ok (r_offset (auth_range p)) (r_offset (cipher_range p) - r_offset (auth_range p)) d) as [a Hh]; [lia..|].
  destruct (get_range_ok (r_offset (cipher_range p)) (r_length (cipher_range p)) d) as [x Hx]; [lia..|]. pose proof (get_range_inv _ _ _ _ Hx) as (_ & _ & _ & Hxl & _).
  rewrite Hh, Hx, (proj2 (gcm_ranges_fit p d (conj Ho Hs))). cbn [mbind option_bind].
  pose proof (gcm_length k (k_length (iv params)) v a x) as [Lt Lg]. pose proof (gcm_inverse k (k_length (iv params)) v a x) as Hinv.
  destruct (gcm_encrypt k (k_length (iv params)) v a x []) as [text tag]. cbn [fst snd] in *. assert (Lt' : zlen text = r_length (cipher_range p)) by (unfold zlen in *; lia).
  assert (Lg' : zlen tag = 16) by (unfold zlen; lia).
  destruct (put_range_ok (r_offset (cipher_range p)) text d) as [d1 H1]; [lia|lia|]. rewrite H1. cbn [mbind option_bind]. pose proof (put_len _ _ _ _ H1) as L1.
  destruct (put_range_ok (hash_result_offset p) tag d1) as [d2 H2]; [lia|lia|]. rewrite H2. cbn [mbind option_bind]. pose proof (put_len _ _ _ _ H2) as L2.
  destruct (put_range_ok (hash_result_offset p) tag d) as [d3 H3]; [lia|lia|]. exists d2, d3, tag. split_and!; [done| |lia|done|done].
  assert (Ga : get_range (r_offset (auth_range p)) (r_offset (cipher_range p) - r_offset (auth_range p)) d2 = Some a).
  { rewrite (get_put_apart _ _ _ _ _ _ H2) by (unfold apart in *; lia). rewrite (get_put_apart _ _ _ _ _ _ H1) by (unfold apart in *; lia). done. }
  assert (Gt : get_range (r_offset (cipher_range p)) (r_length (cipher_range p)) d2 = Some text).
  { rewrite (get_put_apart _ _ _ _ _ _ H2) by (by rewrite Lg'). rewrite <- Lt'. by eapply get_put_same. }
  assert (Gg : get_range (hash_result_offset p) 16 d2 = Some tag) by (rewrite <- Lg'; by eapply get_put_same).
  rewrite Ga, Gt, (proj2 (gcm_ranges_fit p d2 (conj Ho Hs))), Gg. cbn [mbind option_bind]. rewrite Hinv.
  assert (Hap : apart (hash_result_offset p) (zlen tag) (r_offset (cipher_range p)) (zlen text)) by (by rewrite Lg', Lt').
  pose proof (put_comm _ _ _ _ _ _ _ H3 H1 Hap) as Hcm. rewrite H2 in Hcm. rewrite (put_put _ _ x _ _ Hcm) by lia.
  assert (Hx3 : get_range (r_offset (cipher_range p)) (r_length (cipher_range p)) d3 = Some x) by (rewrite (get_put_apart _ _ _ _ _ _ H3) by (by rewrite Lg'); done).
  by rewrite (put_get _ _ _ _ Hx3).
Qed.

(** What an operation needs: ranges, whole blocks, keys and a vector. *)
Record operation_ok params p w (d : list Z) : Prop := OperationOk {
  oo_ranges : ranges_ok (icv_len (auth_alg params)) p d;
  oo_blocks : (cipher_block (cipher_alg params) | r_length (cipher_range p));
  oo_keys : keys_readable params w;
  oo_vector : vector_ok params p w;
  oo_gcm : cipher_alg params = ODP_CIPHER_ALG_AES128_GCM -> gcm_ranges p }.

Lemma auth_not_gcm o params w s : cipher_alg params <> ODP_CIPHER_ALG_AES128_GCM -> made (set_op o params) w s -> auth_alg params <> ODP_AUTH_ALG_AES128_GCM.
Proof.
  intros Hc Hm Ha. pose proof (made_valid _ _ _ Hm) as Hp. unfold params_err in Hp. cbn [set_op auth_alg cipher_alg] in Hp.
  rewrite (bool_decide_eq_false_2 (_ -> _)) in Hp by tauto. by destruct (negb _).
Qed.

(** What is left in the place of the check value: zeros, or the tag of AES-GCM. *)
Definition decoded params p (d d2 : list Z) : Prop := exists x, put_range (hash_result_offset p) x d = Some d2 /\ zlen x = icv_len (auth_alg params) /\
  (auth_alg params <> ODP_AUTH_ALG_AES128_GCM -> x = replicate (Z.to_nat (icv_len (auth_alg params))) 0).
Lemma invoke_roundtrip params p w w' d se sd : operation_ok params p w d -> same_memory w w' ->
  made (set_op ODP_CRYPTO_OP_ENCODE params) w se -> made (set_op ODP_CRYPTO_OP_DECODE params) w sd -> exists d1 d2,
  invoke se p w d = Some (ODP_CRYPTO_ALG_ERR_NONE, ODP_CRYPTO_ALG_ERR_NONE, d1) /\ invoke sd p w' d1 = Some (ODP_CRYPTO_ALG_ERR_NONE, ODP_CRYPTO_ALG_ERR_NONE, d2) /\
  zlen d1 = zlen d /\ decoded params p d d2.
Proof.
  intros [Hr Hb Hk Hv Hgr] Hsm He Hd. unfold invoke. rewrite (made_first _ _ _ He), (made_first _ _ _ Hd). cbn [set_op par_op auth_cipher_text].
  destruct (decide (cipher_alg params = ODP_CIPHER_ALG_AES128_GCM)) as [Hg|Hg].
  - destruct (gcm_session _ _ _ _ Hg Hk He) as (_ & _ & _ & Hae & Ha). destruct (gcm_session _ _ _ _ Hg Hk Hd) as (_ & _ & _ & Had & _).
    rewrite Ha in Hr. destruct (gcm_roundtrip params p w w' d se sd Hg (Hgr Hg) Hr Hk Hv Hsm He Hd) as (d1 & d2 & x & H1 & H2 & L1 & Hx & Lx).
    exists d1, d2.
    split_and!; [by destruct (auth_cipher_text params); rewrite ?Hae; cbn [mbind option_bind]; rewrite H1; cbn [mbind option_bind]; rewrite ?Hae|
      by destruct (auth_cipher_text params); cbn [negb]; rewrite ?Had; cbn [mbind option_bind]; rewrite H2; cbn [mbind option_bind]; rewrite ?Had|done|]. exists x. by rewrite Ha.
  - pose proof (auth_not_gcm _ _ _ _ Hg He) as Ha. destruct (cipher_functions params p w Hg Hb Hk Hv) as (E & D & HE & Hc). destruct (auth_functions params p w Ha Hk) as (hash & Hh & Hau).
    assert (Hn : 0 <= icv_len (auth_alg params)) by (by destruct (auth_alg params)).
    assert (Hr' : forall d', zlen d' = zlen d -> ranges_ok (icv_len (auth_alg params)) p d') by (intros d' Hl; destruct Hr; split; rewrite ?Hl; done).
    destruct (auth_cipher_text params); cbn [negb].
    + destruct (cipher_then_auth E D hash _ p d Hn Hr HE Hh) as (d1 & d2 & d3 & d4 & H1 & H2 & H3 & H4 & L1 & L2 & L3 & L4 & Hz). exists d2, d4.
      rewrite (Hc _ _ w _ d Hr He) by done. rewrite H1. cbn [mbind option_bind]. rewrite (Hau _ _ d1 (Hr' _ L1) He), H2. cbn [mbind option_bind].
      rewrite (Hau _ _ d2 (Hr' _ L2) Hd), H3. cbn [mbind option_bind]. rewrite (Hc _ _ w' _ d3 (Hr' _ L3) Hd Hsm), H4. split_and!; try done.
      eexists. split; [done|]. split; [|done]. unfold zlen. rewrite length_replicate. lia.
    + destruct (auth_then_cipher E D hash _ p d Hn Hr HE Hh) as (d1 & d2 & d3 & d4 & H1 & H2 & H3 & H4 & L1 & L2 & L3 & L4 & Hz). exists d2, d4.
      rewrite (Hau _ _ d Hr He), H1. cbn [mbind option_bind]. rewrite (Hc _ _ w _ d1 (Hr' _ L1) He) by done. rewrite H2. cbn [mbind option_bind].
      rewrite (Hc _ _ w' _ d2 (Hr' _ L2) Hd Hsm), H3. cbn [mbind option_bind]. rewrite (Hau _ _ d3 (Hr' _ L3) Hd), H4. split_and!; try done.
      eexists. split; [done|]. split; [|done]. unfold zlen. rewrite length_replicate. lia.
Qed.

(** A synchronous operation in place. *)
Lemma operation_sync h p s g w d d1 : get_session h g = Some s -> compl_queue s = ODP_QUEUE_INVALID -> pkt p = out_pkt p -> pkt p <> ODP_PACKET_INVALID ->
  c_data (pkt p) w = Some d -> invoke s p w d = Some (ODP_CRYPTO_ALG_ERR_NONE, ODP_CRYPTO_ALG_ERR_NONE, d1) ->
  odp_crypto_operation (set_session h p) true g w =
    Some (0, Some false, Some (OpResult true (ctx p) (pkt p) ODP_CRYPTO_ALG_ERR_NONE ODP_CRYPTO_ALG_ERR_NONE), set_session h p, c_set_data (pkt p) d1 w).
Proof.
  destruct p as [hs cx pk ou ov ho cr ar]; unfold set_session, odp_crypto_operation, resolve_output; cbn [session ctx pkt out_pkt override_iv_ptr hash_result_offset cipher_range auth_range].
  intros Hs Hq <- Hpk Hd Hi. rewrite Hs. cbn [mbind option_bind]. rewrite (proj2 (Z.eqb_neq _ _) Hpk). cbn [andb mbind option_bind]. rewrite Z.eqb_refl. cbn [negb mbind option_bind set_pkts session ctx pkt out_pkt override_iv_ptr hash_result_offset cipher_range auth_range].
  rewrite Hd. cbn [mbind option_bind].
  change (invoke s (set_pkts pk pk (OpParams h cx pk pk ov ho cr ar)) w d) with (invoke s (OpParams hs cx pk pk ov ho cr ar) w d). rewrite Hi. cbn [mbind option_bind]. by rewrite Hq.
Qed.

(** C36: Decoding undoes encoding.  Two sessions are created with the same parameters, one to encode and
    one to decode: any of the ciphers with any of the authentications, in either
    order.  The operations are those of [operation_ok]: the packet is worked on in place
    and without a completion queue; an initialisation vector is given and is memory;
    the ranges are in the data, the enciphered one of whole blocks, and the check value
    outside of both; with AES-GCM the text is at the end of what is authenticated.  Then
    both operations succeed, with no error, and afterwards the data are those before the
    encoding, except for the place of the check value, which is zero or holds the tag of
    AES-GCM.  The laws of the ciphers are those of [OpenSSLLaws]. *)
Theorem crypto_roundtrip params p g0 g1 g live lost w st st' he hd d : reach (W:=W) g0 live lost ->
  odp_crypto_session_create (set_op ODP_CRYPTO_OP_ENCODE params) w g0 = Some (0, st, Some he, g1) ->
  odp_crypto_session_create (set_op ODP_CRYPTO_OP_DECODE params) w g1 = Some (0, st', Some hd, g) ->
  par_compl_queue params = ODP_QUEUE_INVALID -> pkt p = out_pkt p -> pkt p <> ODP_PACKET_INVALID -> c_data (pkt p) w = Some d -> operation_ok params p w d ->
  exists d1 d2, let w1 := c_set_data (pkt p) d1 w in
    let done := OpResult true (ctx p) (pkt p) ODP_CRYPTO_ALG_ERR_NONE ODP_CRYPTO_ALG_ERR_NONE in
    odp_crypto_operation (set_session he p) true g w = Some (0, Some false, Some done, set_session he p, w1) /\
    odp_crypto_operation (set_session hd p) true g w1 = Some (0, Some false, Some done, set_session hd p, c_set_data (pkt p) d2 w1) /\
    decoded params p d d2.
Proof.
  intros [l Ht]%reach_table Hc1 Hc2 Hq Hp Hpk Hd Ho. pose proof (oo_keys _ _ _ _ Ho) as Hk.
  destruct (session_create_ok (set_op ODP_CRYPTO_OP_ENCODE params) w g0 live lost l Ht Hk) as (g1' & Hc1' & Ht1 & _ & Hm1). rewrite Hc1 in Hc1'. injection Hc1' as Hr1 <-. rewrite <- Hr1 in Ht1, Hm1.
  destruct (session_create_ok (set_op ODP_CRYPTO_OP_DECODE params) w g1 _ _ _ Ht1 Hk) as (g' & Hc2' & Ht2 & Hfr & Hm2). rewrite Hc2 in Hc2'. injection Hc2' as Hr2 <-. rewrite <- Hr2 in Hm2.
  destruct (Hm1 he eq_refl) as (se & Hse & He). destruct (Hm2 hd eq_refl) as (sd & Hsd & Hd').
  assert (Hse' : get_session he g = Some se).
  { rewrite <- Hse. apply Hfr. intros Hh. pose proof (table_nodup _ _ _ _ Ht1) as Hn. apply NoDup_app in Hn as (_ & Hn & _). apply head_Some_elem_of in Hh. apply (Hn _ Hh). cbn. set_solver. }
  assert (Hsm : forall d1, same_memory w (c_set_data (pkt p) d1 w)) by (intros d1 a n; apply read_set).
  destruct (invoke_roundtrip params p w w d se sd Ho) as (d1 & d2 & Hi1 & _ & L1 & _); [done..|].
  destruct (invoke_roundtrip params p w (c_set_data (pkt p) d1 w) d se sd Ho (Hsm d1) He Hd') as (d1' & d2' & Hi1' & Hi2 & _ & Hdec).
  rewrite Hi1 in Hi1'. injection Hi1' as <-. exists d1, d2'. cbv zeta. split_and!; [| |done].
  - eapply operation_sync; [done|by rewrite (made_queue _ _ _ He)|done..].
  - eapply operation_sync; [done|by rewrite (made_queue _ _ _ Hd')|done|done| |done]. eapply data_set; [done|]. unfold zlen in L1. lia.
Qed.

End roundtrip.

(** ** Errors that are not handled *)

Section flaws.
Context {W : Type} `{!OpenSSL} `{!CryptoWorld W}.
Implicit Types (w : W) (g : odp_crypto_global_t) (params : odp_crypto_session_params_t).

Fixpoint creates (n : nat) params w g : option odp_crypto_global_t :=
  match n with O => Some g | S n => '(_, g) ← odp_crypto_session_create params w g; creates n params w g end.
Lemma creates_lost n params w : forall g lost l, table_ok g [] lost l -> keys_readable params w -> is_invalid (params_err params) = true -> (n <= length l)%nat ->
  exists g' lost', creates n params w g = Some g' /\ table_ok g' [] lost' (drop n l).
Proof.
  induction n as [|n IH]; intros g lost l Ht Hk Hi Hn; [by exists g, lost|]. destruct l as [|h l]; cbn [length] in Hn; [lia|].
  destruct (session_create_ok params w g [] lost (h :: l) Ht Hk) as (g' & Hc & Ht' & _). cbn [creates]. rewrite Hc. cbn [mbind option_bind].
  unfold create_result in Ht'. assert (Hcr : create_result (h :: l) params = (-1, params_err params, None)) by (unfold create_result; by destruct (params_err params)).
  unfold create_result in Hcr. rewrite Hcr in Ht'. cbn [fst snd option_list app] in Ht'. rewrite Hi in Ht'. cbn [drop] in *. apply (IH g' _ l Ht' Hk Hi). lia.
Qed.
(** A failed creation keeps the session it has taken: after 32 failed ones there
    is no session for a correct one, although none is in use. *)
Theorem failed_creates_exhaust bad good w g : odp_crypto_init_global true = Some (0, g) -> keys_readable bad w -> is_invalid (params_err bad) = true ->
  exists g', creates 32 bad w g = Some g' /\ odp_crypto_session_create good w g' = Some (-1, ODP_CRYPTO_SES_CREATE_ERR_ENOMEM, None, g').
Proof.
  intros Hg Hk Hi. destruct (creates_lost 32 bad w g [] _ (init_ok g Hg) Hk Hi) as (g' & lost & Hc & Ht); [apply Nat.leb_le; by vm_compute|]. exists g'. split; [done|].
  assert (Hnil : drop 32 (reverse (seqZ 1 MAX_SESSIONS)) = []) by (by vm_compute). rewrite Hnil in Ht. unfold odp_crypto_session_create. by rewrite (alloc_empty _ _ _ Ht).
Qed.
(** A failed creation does not write the place of the session, where the interface
    promises ODP_CRYPTO_SESSION_INVALID. *)
Theorem failed_create_writes_nothing params w g r st out g' : odp_crypto_session_create params w g = Some (r, st, out, g') -> r <> 0 -> out = None.
Proof. unfold odp_crypto_session_create, mbind, option_bind. intros Hc Hr. repeat case_match; simplify_eq; done. Qed.
(** The library's final call returns 1 when the tag is right and 0 when it is
    wrong: decoding with AES-GCM never reports a wrong tag. *)
Theorem gcm_tag_not_checked k n s p w d e d' : (forall k n v a x b t, snd (gcm_decrypt k n v a x b t) = 0 \/ snd (gcm_decrypt k n v a x b t) = 1) ->
  aes_gcm_decrypt k n s p w d = Some (e, d') -> e <> ODP_CRYPTO_ALG_ERR_ICV_CHECK.
Proof.
  intros Hf. unfold aes_gcm_decrypt. destruct (_ =? 0); [by intros [= <- _]|]. destruct (gcm_ranges_bad p); [by intros [= <- _]|].
  destruct (c_read _ _ w) as [v|]; [|done]. cbn [mbind option_bind]. destruct (gcm_head p d) as [a|]; [|done]. cbn [mbind option_bind].
  destruct (get_range (r_offset (cipher_range p)) _ d) as [x|]; [|done]. cbn [mbind option_bind]. destruct (gcm_tail p d) as [b|]; [|done]. cbn [mbind option_bind].
  destruct (get_range _ 16 d) as [t|]; [|done]. cbn [mbind option_bind]. specialize (Hf k n v a x b t). destruct (gcm_decrypt k n v a x b t) as [y f]. cbn [snd] in Hf.
  destruct (put_range _ y d) as [d1|]; [|done]. cbn [mbind option_bind]. intros [= <- _]. by destruct Hf as [-> | ->].
Qed.
(** A completion that the queue refuses is turned into a packet again, and not freed. *)
Theorem refused_completion_kept (ev : Z) w : c_is_compl ev w = Some true -> odp_event_free ev w = c_set_compl ev false w.
Proof. intros Hc. unfold odp_event_free, odp_crypto_compl_from_event. by rewrite Hc. Qed.
End flaws.

(** ** An instance *)

(** Ciphers that flip bits and sums as hashes. *)
Definition flip (k : list Z) (x : list Z) : list Z := (fun b => Z.lxor b (90 + zlen k)) <$> x.
Definition toy_hash (n : nat) (x : list Z) : list Z := replicate n (foldr Z.add 0 x `mod` 256).
#[export] Instance toy_ssl : OpenSSL := {|
  hmac_md5 k x := toy_hash 16 (k ++ x);
  hmac_sha256 k x := toy_hash 32 (k ++ x);
  des_ede3_cbc _ k1 _ _ _ x := flip k1 x;
  aes_cbc _ k _ x := flip k x;
  gcm_encrypt k _ _ a x b := (flip k x, toy_hash 16 (a ++ flip k x ++ b));
  gcm_decrypt k _ _ a x b t := (flip k x, if bool_decide (t = toy_hash 16 (a ++ x ++ b)) then 1 else 0)
|}.
Lemma flip_flip k x : flip k (flip k x) = x.
Proof.
  unfold flip. rewrite <- list_fmap_compose. rewrite <- (list_fmap_id x) at 2. apply list_fmap_ext. intros i b _. cbn. by rewrite Z.lxor_assoc, Z.lxor_nilpotent, Z.lxor_0_r.
Qed.
#[export] Instance toy_ssl_laws : OpenSSLLaws.
Proof.
  split; intros; cbn -[flip toy_hash replicate]; unfold toy_hash; rewrite ?length_replicate, ?flip_flip; try done; try (unfold flip; by rewrite length_fmap).
  by rewrite bool_decide_eq_true_2.
Qed.

(** Memory, and the data of packet 1. *)
Definition toy_world : Type := list Z * list Z.
#[export] Instance toy_crypto_world : CryptoWorld toy_world := {|
  c_read a n w := if bool_decide (0 < a /\ a + Z.of_nat n <= zlen w.1) then Some (take n (drop (Z.to_nat a) w.1)) else None;
  c_data h w := if h =? 1 then Some w.2 else None;
  c_set_data h d w := if h =? 1 then (w.1, d) else w;
  c_packet_len h w := Some (zlen w.2);
  c_packet_alloc _ _ w := Some (0, w);
  c_copy_to_packet _ _ _ _ := None;
  c_copy_md _ _ _ := None;
  c_packet_free _ w := Some w;
  c_set_compl _ _ w := Some w;
  c_is_compl _ _ := Some false;
  c_set_op_result _ _ w := Some w;
  c_op_result _ _ := None;
  c_queue_enq _ _ w := Some (-1, w)
|}.
#[export] Instance toy_crypto_world_laws : CryptoWorldLaws toy_world.
Proof. split; cbn; [intros h d d0 w; by destruct (h =? 1)|intros a n h d w; by destruct (h =? 1)]. Qed.

Definition toy_memory : list Z := seqZ 0 128.
Definition toy_params : odp_crypto_session_params_t :=
  SesParams ODP_CRYPTO_OP_ENCODE true ODP_CIPHER_ALG_AES128_CBC (Key 16 16) (Key 64 16) ODP_AUTH_ALG_SHA256_128 (Key 32 32) ODP_QUEUE_INVALID ODP_POOL_INVALID.
Definition toy_op : odp_crypto_op_params_t := OpParams 0 7 1 1 0 48 (Range 16 32) (Range 8 40).
Definition toy_data : list Z := seqZ 100 64.
Definition toy_w : toy_world := (toy_memory, toy_data).
Definition table_of (r : option (Z * odp_crypto_ses_create_err_t * option Z * odp_crypto_global_t)) : odp_crypto_global_t := match r with Some (_, g) => g | None => Glob 0 [] end.
Definition toy_g0 : odp_crypto_global_t := match odp_crypto_init_global true with Some (_, g) => g | None => Glob 0 [] end.
Definition toy_g1 : odp_crypto_global_t := table_of (odp_crypto_session_create (set_op ODP_CRYPTO_OP_ENCODE toy_params) toy_w toy_g0).
Definition toy_g2 : odp_crypto_global_t := table_of (odp_crypto_session_create (set_op ODP_CRYPTO_OP_DECODE toy_params) toy_w toy_g1).

Lemma toy_keys o : keys_readable (set_op o toy_params) toy_w.
Proof. split; eexists; reflexivity. Qed.
Lemma toy_reach0 : reach (W:=toy_world) toy_g0 [] [].
Proof. apply reach_init. by vm_compute. Qed.
Lemma toy_reach1 : reach (W:=toy_world) toy_g1 [32] [].
Proof. apply (reach_create (set_op ODP_CRYPTO_OP_ENCODE toy_params) toy_w 0 ODP_CRYPTO_SES_CREATE_ERR_NONE (Some 32) toy_g0 toy_g1 [] [] toy_reach0 (toy_keys _)). by vm_compute. Qed.
Lemma toy_operation_ok : operation_ok toy_params toy_op toy_w toy_data.
Proof.
  split; [split; unfold apart; vm_compute; intuition congruence|exists 2; reflexivity|apply (toy_keys ODP_CRYPTO_OP_ENCODE)| |discriminate].
  intros _. cbn. split; [discriminate|]. by eexists.
Qed.

(** One session is in use: terminating reports it, and it can be destroyed. *)
Lemma crypto_sessions_witness : odp_crypto_term_global 0 toy_g1 = Some (-1) /\ exists g', odp_crypto_session_destroy 32 toy_g1 = Some (0, g').
Proof.
  destruct (crypto_sessions toy_g1 [32] [] toy_reach1) as (_ & _ & Hd & Ht). split; [exact (Ht 0)|].
  destruct (Hd 32) as (g' & Hg & _); [apply list_elem_of_here|]. exists g'. exact Hg.
Defined.
(** AES with SHA256, on a packet of 64 bytes. *)
Lemma crypto_roundtrip_witness : exists d1 d2,
  (exists p1 w1, odp_crypto_operation (set_session 32 toy_op) true toy_g2 toy_w =
    Some (0, Some false, Some (OpResult true 7 1 ODP_CRYPTO_ALG_ERR_NONE ODP_CRYPTO_ALG_ERR_NONE), p1, w1) /\ w1 = c_set_data 1 d1 toy_w) /\
  decoded toy_params toy_op toy_data d2.
Proof.
  destruct (crypto_roundtrip (W:=toy_world) toy_params toy_op toy_g0 toy_g1 toy_g2 [] [] toy_w ODP_CRYPTO_SES_CREATE_ERR_NONE ODP_CRYPTO_SES_CREATE_ERR_NONE 32 31 toy_data toy_reach0)
    as (d1 & d2 & He & Hd & Hdec); [by vm_compute|by vm_compute|reflexivity|reflexivity|discriminate|reflexivity|exact toy_operation_ok|].
  exists d1, d2. split; [|exact Hdec]. eexists _, _. split; [exact He|reflexivity].
Defined.
(** A tag that was changed is accepted. *)
Example gcm_forged : aes_gcm_decrypt (replicate 16 0) 12 (Ses 0 ODP_CRYPTO_OP_DECODE true 0 0 64 12 UNSET NULL_AUTH) (OpParams 0 7 1 1 0 48 (Range 16 32) (Range 8 40)) toy_w (replicate 64 1) =
  Some (ODP_CRYPTO_ALG_ERR_NONE, replicate 16 1 ++ replicate 32 (Z.lxor 1 106) ++ replicate 16 1).
Proof. by vm_compute. Qed.

End CryptoSpec.
