(* ===== verification/OdpTime.v ===== *)
(** Time: odp_time.c, odp_cpu.c and arch/linux/odp_cpu_arch.c.

    The clock is a parameter: [clock i] is what the [i]-th call of clock_gettime stores,
    [None] when it fails; the number of calls made so far is the state.  [None] as a
    result is ODP_ABORT, a division by zero, or a loop that has not ended. *)

From S2P Require Import Prelude.

Open Scope Z_scope.
Open Scope c_scope.

Module OdpTime.

Definition ODP_TIME_SEC_IN_NS : Z := 1000000000.
Definition s64 (x : Z) : Z := (x + 2 ^ 63) `mod` 2 ^ 64 - 2 ^ 63.

Record odp_time_t := Tm { tv_sec : Z; tv_nsec : Z }.
Definition ODP_TIME_NULL : odp_time_t := Tm 0 0.

(** ** Arithmetic *)

Definition time_to_ns (t : odp_time_t) : Z := u64 (tv_sec t) *u64 ODP_TIME_SEC_IN_NS +u64 u64 (tv_nsec t).
Definition time_diff (t2 t1 : odp_time_t) : odp_time_t :=
  let sec := s64 (tv_sec t2 - tv_sec t1) in
  let nsec := s64 (tv_nsec t2 - tv_nsec t1) in
  if nsec <? 0 then Tm (s64 (sec - 1)) (s64 (nsec + ODP_TIME_SEC_IN_NS)) else Tm sec nsec.
(** The difference of nanoseconds is returned as an [int]. *)
Definition time_cmp (t2 t1 : odp_time_t) : Z :=
  if tv_sec t2 <? tv_sec t1 then -1 else if tv_sec t2 >? tv_sec t1 then 1 else s32 (s64 (tv_nsec t2 - tv_nsec t1)).
Definition time_sum (t1 t2 : odp_time_t) : odp_time_t :=
  let sec := s64 (tv_sec t2 + tv_sec t1) in
  let nsec := s64 (tv_nsec t2 + tv_nsec t1) in
  if nsec >=? ODP_TIME_SEC_IN_NS then Tm (s64 (sec + 1)) (s64 (nsec - ODP_TIME_SEC_IN_NS)) else Tm sec nsec.
Definition time_local_from_ns (ns : Z) : odp_time_t :=
  let sec := s64 (ns `div` ODP_TIME_SEC_IN_NS) in
  Tm sec (s64 (ns -u64 (u64 sec *u64 ODP_TIME_SEC_IN_NS))).

(** [resolution] is what clock_getres stores in tv_nsec. *)
Definition time_local_res (resolution : option Z) : option Z :=
  r ← resolution; if u64 r =? 0 then None else Some (ODP_TIME_SEC_IN_NS `div` u64 r).
Definition odp_time_to_u64 (resolution : option Z) (t : odp_time_t) : option Z :=
  r ← resolution; if u64 r =? 0 then None else Some (time_to_ns t `div` u64 r).

(** ** The clock *)

Section clock.
Context (clock : nat -> option odp_time_t).

(** The result and [start_time]. *)
Definition odp_time_init_global (i : nat) : Z * odp_time_t * nat := match clock i with None => (-1, ODP_TIME_NULL, S i) | Some t => (0, t, S i) end.
Definition odp_time_term_global : Z := 0.

Section local.
Context (start_time : odp_time_t).
Definition time_local (i : nat) : option (odp_time_t * nat) := t ← clock i; Some (time_diff t start_time, S i).
Definition odp_time_local := time_local.
Definition odp_time_global := time_local.
(** [fuel] bounds the number of turns. *)
Fixpoint time_wait_until (fuel : nat) (t : odp_time_t) (i : nat) : option nat :=
  match fuel with
  | O => None
  | S fuel => '(cur, i) ← time_local i; if time_cmp t cur >? 0 then time_wait_until fuel t i else Some i
  end.
Definition odp_time_wait_ns (fuel : nat) (ns : Z) (i : nat) : option nat :=
  '(cur, i) ← time_local i; time_wait_until fuel (time_sum cur (time_local_from_ns ns)) i.
End local.

(** Cycles of a processor with [hz] cycles in a second. *)
Definition odp_cpu_cycles (hz : Z) (i : nat) : option (Z * nat) :=
  t ← clock i; Some ((u64 (tv_sec t) *u64 hz) +u64 ((u64 (tv_nsec t) *u64 hz) `div` 1000000000), S i).
End clock.

Definition odp_cpu_cycles_max : Z := 2 ^ 64 - 1.
Definition odp_cpu_cycles_diff (c2 c1 : Z) : Z := if c2 >=? c1 then c2 -u64 c1 else c2 +u64 (odp_cpu_cycles_max -u64 c1) +u64 1.

(** ** Times as numbers *)

Definition nanos (t : odp_time_t) : Z := tv_sec t * ODP_TIME_SEC_IN_NS + tv_nsec t.
(** Times of up to five hundred years. *)
Definition valid (t : odp_time_t) : Prop := 0 <= tv_sec t /\ 0 <= tv_nsec t < ODP_TIME_SEC_IN_NS /\ nanos t < 2 ^ 64.

Lemma s64_small x : - 2 ^ 63 <= x < 2 ^ 63 -> s64 x = x.
Proof. intros. unfold s64. rewrite Z.mod_small by lia. lia. Qed.
Lemma s32_fits x : - 2 ^ 31 <= x < 2 ^ 31 -> s32 x = x.
Proof. intros. unfold s32. rewrite Z.mod_small by lia. lia. Qed.

Lemma to_ns_eq t : valid t -> time_to_ns t = nanos t.
Proof.
  intros (Hs & Hn & Hb). unfold time_to_ns, nanos, ODP_TIME_SEC_IN_NS in *. rewrite (u64_small (tv_sec t)), (u64_small (tv_nsec t)) by (unfold is_u64; lia).
  rewrite (u64_small (tv_sec t * _)) by (unfold is_u64; lia). apply u64_small. unfold is_u64. lia.
Qed.
Lemma diff_eq t2 t1 : valid t2 -> valid t1 -> nanos t1 <= nanos t2 -> valid (time_diff t2 t1) /\ nanos (time_diff t2 t1) = nanos t2 - nanos t1.
Proof.
  intros (Hs2 & Hn2 & Hb2) (Hs1 & Hn1 & Hb1) Hle. unfold valid, time_diff, nanos, ODP_TIME_SEC_IN_NS in *. cbv zeta. rewrite (s64_small (tv_nsec t2 - _)), (s64_small (tv_sec t2 - _)) by lia.
  destruct (Z.ltb_spec (tv_nsec t2 - tv_nsec t1) 0); cbn [tv_sec tv_nsec]; rewrite ?s64_small by lia; lia.
Qed.
Lemma sum_eq t1 t2 : valid t1 -> valid t2 -> nanos t1 + nanos t2 < 2 ^ 64 -> valid (time_sum t1 t2) /\ nanos (time_sum t1 t2) = nanos t1 + nanos t2.
Proof.
  intros (Hs1 & Hn1 & Hb1) (Hs2 & Hn2 & Hb2) Hb. unfold valid, time_sum, nanos, ODP_TIME_SEC_IN_NS in *. cbv zeta. rewrite (s64_small (tv_nsec t2 + _)), (s64_small (tv_sec t2 + _)) by lia.
  rewrite Z.geb_leb. destruct (Z.leb_spec 1000000000 (tv_nsec t2 + tv_nsec t1)); cbn [tv_sec tv_nsec]; rewrite ?s64_small by lia; lia.
Qed.
Lemma cmp_eq t2 t1 : valid t2 -> valid t1 -> Z.sgn (time_cmp t2 t1) = Z.sgn (nanos t2 - nanos t1).
Proof.
  intros (Hs2 & Hn2 & Hb2) (Hs1 & Hn1 & Hb1). unfold time_cmp, nanos, ODP_TIME_SEC_IN_NS in *. destruct (Z.ltb_spec (tv_sec t2) (tv_sec t1)) as [Hlt|Hge].
  - rewrite !Z.sgn_neg by lia. done.
  - rewrite Z.gtb_ltb. destruct (Z.ltb_spec (tv_sec t1) (tv_sec t2)) as [Hgt|Hle]; [rewrite !Z.sgn_pos by lia; done|]. rewrite s64_small, s32_fits by lia. f_equal. lia.
Qed.
Lemma from_ns_eq ns : 0 <= ns < 2 ^ 64 -> valid (time_local_from_ns ns) /\ nanos (time_local_from_ns ns) = ns.
Proof.
  intros Hns. unfold valid, time_local_from_ns, nanos, ODP_TIME_SEC_IN_NS. cbv zeta. cbn [tv_sec tv_nsec]. pose proof (Z.div_mod ns 1000000000 ltac:(lia)). pose proof (Z.mod_pos_bound ns 1000000000 ltac:(lia)).
  assert (0 <= ns `div` 1000000000) by (apply Z.div_pos; lia).
  rewrite (s64_small (ns `div` _)) by lia. rewrite (u64_small (ns `div` _)) by (unfold is_u64; lia). rewrite (u64_small (ns `div` _ * _)) by (unfold is_u64; lia).
  rewrite u64_small by (unfold is_u64; lia). rewrite s64_small by lia. lia.
Qed.
Lemma valid_inj t1 t2 : valid t1 -> valid t2 -> nanos t1 = nanos t2 -> t1 = t2.
Proof. destruct t1 as [s1 n1], t2 as [s2 n2]. unfold valid, nanos, ODP_TIME_SEC_IN_NS. cbn. intros. assert (s1 = s2) by lia. assert (n1 = n2) by lia. by subst. Qed.

(** ** Waiting *)

(** The readings of a clock, from start-up on. *)
Record clock_ok (clock : nat -> option odp_time_t) (start_time : odp_time_t) : Prop := ClockOk {
  ck_start : valid start_time;
  ck_read : forall i, exists t, clock i = Some t /\ valid t /\ nanos start_time <= nanos t }.
(** What [odp_time_local] reads, in nanoseconds. *)
Definition now (clock : nat -> option odp_time_t) (start_time : odp_time_t) (i : nat) : Z := match clock i with Some t => nanos t - nanos start_time | None => 0 end.

Lemma local_ok clock start_time i : clock_ok clock start_time -> exists t, time_local clock start_time i = Some (t, S i) /\ valid t /\ nanos t = now clock start_time i.
Proof.
  intros [Hs Hr]. destruct (Hr i) as (t & Ht & Hv & Hle). destruct (diff_eq t start_time Hv Hs Hle) as [Hd Hn]. unfold time_local, now. rewrite Ht. cbn [mbind option_bind]. eexists. split_and!; done.
Qed.
Lemma wait_until_ok clock start_time t n : clock_ok clock start_time -> valid t -> forall i fuel, (n < fuel)%nat -> nanos t <= now clock start_time (i + n) ->
  exists j, (j <= n)%nat /\ time_wait_until clock start_time fuel t i = Some (S (i + j)) /\ nanos t <= now clock start_time (i + j) /\ forall k, (k < j)%nat -> now clock start_time (i + k) < nanos t.
Proof.
  intros Hc Ht. induction n as [|n IH]; intros i fuel Hf Hn; (destruct fuel as [|fuel]; [lia|]); cbn [time_wait_until].
  - destruct (local_ok clock start_time i Hc) as (cur & -> & Hv & Hcur). cbn [mbind option_bind]. pose proof (cmp_eq t cur Ht Hv) as Hcmp. rewrite Nat.add_0_r in Hn.
    exists 0%nat. rewrite Nat.add_0_r. split_and!; [lia| |done|lia]. rewrite Z.gtb_ltb, (proj2 (Z.ltb_ge _ _)) by lia. done.
  - destruct (local_ok clock start_time i Hc) as (cur & -> & Hv & Hcur). cbn [mbind option_bind]. pose proof (cmp_eq t cur Ht Hv) as Hcmp. rewrite Z.gtb_ltb. destruct (Z.ltb_spec 0 (time_cmp t cur)) as [Hgo|Hstop].
    + replace (i + S n)%nat with (S i + n)%nat in Hn by lia. destruct (IH (S i) fuel ltac:(lia) Hn) as (j & Hj & Hw & Hge & Hlt). exists (S j). replace (i + S j)%nat with (S i + j)%nat by lia.
      split_and!; [lia|done|done|]. intros k Hk. destruct k as [|k]; [rewrite Nat.add_0_r; lia|]. replace (i + S k)%nat with (S i + k)%nat by lia. apply Hlt. lia.
    + exists 0%nat. rewrite Nat.add_0_r. split_and!; [lia|done|lia|lia].
Qed.

(** Times are numbers of nanoseconds.  For times of up to five hundred years:
    converting to nanoseconds and back gives the same; sums, differences and comparisons
    are those of the numbers, without overflow.  On a clock that does not fail or
    go back behind the start, waiting for a number of nanoseconds returns, at the first
    reading that is at least so much later than the one at the call. *)
Theorem time_is_nanoseconds :
  (forall ns, 0 <= ns < 2 ^ 64 -> time_to_ns (time_local_from_ns ns) = ns) /\
  (forall t, valid t -> time_local_from_ns (time_to_ns t) = t) /\
  (forall t1 t2, valid t1 -> valid t2 -> nanos t1 + nanos t2 < 2 ^ 64 -> time_to_ns (time_sum t1 t2) = time_to_ns t1 + time_to_ns t2) /\
  (forall t1 t2, valid t1 -> valid t2 -> time_to_ns t1 <= time_to_ns t2 -> time_to_ns (time_diff t2 t1) = time_to_ns t2 - time_to_ns t1) /\
  (forall t1 t2, valid t1 -> valid t2 -> Z.sgn (time_cmp t2 t1) = Z.sgn (time_to_ns t2 - time_to_ns t1)) /\
  (forall clock start_time ns i n fuel, clock_ok clock start_time -> 0 <= ns -> now clock start_time i + ns < 2 ^ 63 ->
    now clock start_time i + ns <= now clock start_time (S i + n) -> (n < fuel)%nat ->
    exists j, (j <= n)%nat /\ odp_time_wait_ns clock start_time fuel ns i = Some (S (S i + j)) /\
      now clock start_time i + ns <= now clock start_time (S i + j) /\ forall k, (k < j)%nat -> now clock start_time (S i + k) < now clock start_time i + ns).
Proof.
  split_and!.
  - intros ns Hns. destruct (from_ns_eq ns Hns) as [Hv Hn]. by rewrite to_ns_eq.
  - intros t Hv. rewrite to_ns_eq by done. pose proof Hv as (Hs & Hn & Hb0). assert (0 <= nanos t < 2 ^ 64) as Hb by (unfold nanos, ODP_TIME_SEC_IN_NS in *; lia).
    destruct (from_ns_eq _ Hb) as [Hv' Hn']. by apply valid_inj.
  - intros t1 t2 H1 H2 Hb. destruct (sum_eq t1 t2 H1 H2 Hb) as [Hv Hn]. by rewrite !to_ns_eq.
  - intros t1 t2 H1 H2. rewrite !(to_ns_eq t1), !(to_ns_eq t2) by done. intros Hle. destruct (diff_eq t2 t1 H2 H1 Hle) as [Hv Hn]. by rewrite to_ns_eq.
  - intros t1 t2 H1 H2. rewrite !to_ns_eq by done. by apply cmp_eq.
  - intros clock st ns i n fuel Hc Hns Hb Hn Hf. destruct (local_ok clock st i Hc) as (cur & Hl & Hv & Hcur). pose proof Hv as (Hvs & Hvn & Hvb). assert (0 <= now clock st i) by (rewrite <- Hcur; unfold nanos, ODP_TIME_SEC_IN_NS in *; lia).
    destruct (from_ns_eq ns ltac:(lia)) as [Hw Hwn].  destruct (sum_eq cur (time_local_from_ns ns) Hv Hw) as [Hsv Hsn].
    { lia. }
    destruct (wait_until_ok clock st _ n Hc Hsv (S i) fuel Hf) as (j & Hj & Hu & Hge & Hlt); [lia|]. exists j. unfold odp_time_wait_ns. rewrite Hl. cbn [mbind option_bind]. split_and!; [done|done|lia|].
    intros k Hk. specialize (Hlt k Hk). lia.
Qed.

(** A clock that counts in steps of 300 ns, started at 5 s. *)
Definition steps (i : nat) : option odp_time_t := Some (time_local_from_ns (5000000000 + 300 * Z.of_nat (i `mod` 1000))).
Lemma steps_ok : clock_ok steps (Tm 5 0).
Proof.
  split; [by vm_compute|]. intros i. eexists. split; [done|]. assert (i `mod` 1000 < 1000)%nat by (apply Nat.mod_upper_bound; lia).
  destruct (from_ns_eq (5000000000 + 300 * Z.of_nat (i `mod` 1000)) ltac:(lia)) as [Hv ->]. split; [done|]. unfold nanos, ODP_TIME_SEC_IN_NS. cbn [tv_sec tv_nsec]. lia.
Qed.
(** Waiting for a microsecond takes five readings. *)
Lemma time_is_nanoseconds_witness : exists j, (j <= 6)%nat /\ odp_time_wait_ns steps (Tm 5 0) 10 1000 2 = Some (S (3 + j)) /\ 1600 <= now steps (Tm 5 0) (3 + j).
Proof.
  destruct time_is_nanoseconds as (_ & _ & _ & _ & _ & Hw).
  destruct (Hw steps (Tm 5 0) 1000 2%nat 6%nat 10%nat steps_ok ltac:(lia)) as (j & Hj & Hr & Hge & _); [by vm_compute|by vm_compute|lia|]. exists j. split; [exact Hj|]. split; [exact Hr|exact Hge].
Defined.

(** ** Cycles *)

(** The cycles are those of the whole time, rounded down. *)
Theorem cycles_of_time clock hz i t : clock i = Some t -> valid t -> 0 <= hz < 2 ^ 34 -> nanos t * hz < 2 ^ 63 * 1000000000 ->
  odp_cpu_cycles clock hz i = Some ((nanos t * hz) `div` 1000000000, S i).
Proof.
  intros Hc (Hs & Hn & Hb0) Hz Hb. unfold odp_cpu_cycles. rewrite Hc. cbn [mbind option_bind]. unfold nanos, ODP_TIME_SEC_IN_NS in *.
  rewrite (u64_small (tv_sec t)), (u64_small (tv_nsec t)) by (unfold is_u64; lia). rewrite (u64_small (tv_nsec t * hz)) by (unfold is_u64; nia).
  assert (0 <= tv_sec t * hz < 2 ^ 63) by nia. rewrite (u64_small (tv_sec t * hz)) by (unfold is_u64; lia).
  replace ((tv_sec t * 1000000000 + tv_nsec t) * hz) with (tv_nsec t * hz + tv_sec t * hz * 1000000000) by lia. rewrite Z.div_add by lia.
  assert (0 <= (tv_nsec t * hz) `div` 1000000000 < 2 ^ 63) by (split; [apply Z.div_pos; nia|apply Z.div_lt_upper_bound; nia]).
  rewrite u64_small by (unfold is_u64; lia). do 2 f_equal. lia.
Qed.
(** The difference of two counts is right across one wrap-around. *)
Theorem cycles_diff_wraps c n : is_u64 c -> is_u64 n -> odp_cpu_cycles_diff (c +u64 n) c = n.
Proof.
  intros Hc Hn. unfold odp_cpu_cycles_diff, odp_cpu_cycles_max, u64, wrap, is_u64 in *. rewrite Z.geb_leb. destruct (Z.ltb_spec (c + n) (2 ^ 64)).
  - rewrite (Z.mod_small (c + n)) by lia. rewrite (proj2 (Z.leb_le _ _)) by lia. rewrite Z.mod_small; lia.
  - assert ((c + n) `mod` 2 ^ 64 = c + n - 2 ^ 64) as -> by (symmetry; apply (Z.mod_unique_pos _ _ 1); lia). rewrite (proj2 (Z.leb_gt _ _)) by lia.
    rewrite (Z.mod_small (2 ^ 64 - 1 - c)) by lia. rewrite (Z.mod_small (c + n - 2 ^ 64 + _)) by lia. rewrite Z.mod_small; lia.
Qed.
(** Equal times compare as 0, which the interface's text calls greater than 0. *)
Theorem cmp_of_equal t : time_cmp t t = 0.
Proof. unfold time_cmp. rewrite Z.ltb_irrefl, Z.gtb_ltb, Z.ltb_irrefl, Z.sub_diag. done. Qed.

End OdpTime.
