(* ===== verification/Hugepage.v ===== *)
(** Huge pages: platform/linux-hisilicon/mem/odp_memops.c, the memory the districts are
    cut from.

    System calls are members of the class [HugeSys].  The text of
    /proc/self/numa_maps is taken as it is read: a list of addresses and sockets, with
    [None] for a line that cannot be read.  [None] as a result of a definition is an access outside
    of a table or a division by zero.  Pointers have 64 bits. *)

From S2P Require Import Prelude District.

Open Scope Z_scope.
Open Scope c_scope.

Module Hugepage.
Import District.

Definition ODP_MAX_NUMA_NODES : nat := 8.
Definition ODP_BAD_PHYS_ADDR : Z := 2 ^ 64 - 1.
Definition MAP_FAILED : Z := 2 ^ 64 - 1.

(** ** Data *)

(** The path is the directory and the number it is made from. *)
Record hugepage_file := Hp {
  orig_va : Z; final_va : Z; physaddr : Z; size : Z; socket_id : Z; file_id : Z; hp_mmfrag_id : Z; filepath : option string * Z }.
Definition zero_hp : hugepage_file := Hp 0 0 0 0 0 0 0 (None, 0).
Definition set_orig (v : Z) (h : hugepage_file) : hugepage_file := Hp v (final_va h) (physaddr h) (size h) (socket_id h) (file_id h) (hp_mmfrag_id h) (filepath h).
Definition set_final (v : Z) (h : hugepage_file) : hugepage_file := Hp (orig_va h) v (physaddr h) (size h) (socket_id h) (file_id h) (hp_mmfrag_id h) (filepath h).
Definition set_phys (v : Z) (h : hugepage_file) : hugepage_file := Hp (orig_va h) (final_va h) v (size h) (socket_id h) (file_id h) (hp_mmfrag_id h) (filepath h).
Definition set_socket (v : Z) (h : hugepage_file) : hugepage_file := Hp (orig_va h) (final_va h) (physaddr h) (size h) v (file_id h) (hp_mmfrag_id h) (filepath h).
Definition set_mmfrag_id (v : Z) (h : hugepage_file) : hugepage_file := Hp (orig_va h) (final_va h) (physaddr h) (size h) (socket_id h) (file_id h) v (filepath h).
Definition set_file (id sz : Z) (path : option string * Z) (h : hugepage_file) : hugepage_file := Hp (orig_va h) (final_va h) (physaddr h) sz (socket_id h) id (hp_mmfrag_id h) path.

Record odp_hugepage_type := Hpt { hugepage_sz : Z; hugedir : option string; num_pages : list Z }.
Definition set_pages (socket n : Z) (t : odp_hugepage_type) : option odp_hugepage_type := l ← zset (num_pages t) socket n; Some (Hpt (hugepage_sz t) (hugedir t) l).
Definition set_dir (d : option string) (t : odp_hugepage_type) : odp_hugepage_type := Hpt (hugepage_sz t) d (num_pages t).

(** The part of the configuration that is used; [types] has num_hugepage_types
    elements. *)
Record odp_local_config := Cfg {
  memory : Z; no_hugetlbfs : bool; force_sockets : bool; socket_mem : list Z; base_virtaddr : Z; types : list odp_hugepage_type }.
Definition set_types (l : list odp_hugepage_type) (c : odp_local_config) : odp_local_config := Cfg (memory c) (no_hugetlbfs c) (force_sockets c) (socket_mem c) (base_virtaddr c) l.

Class HugeSys (W : Type) := {
  h_page_size : Z;
  (** the entry of a page in /proc/self/pagemap *)
  h_pagemap : Z -> W -> option Z;
  h_open_zero : W -> bool * W;
  h_mmap_zero : Z -> Z -> W -> Z * W;
  h_munmap : Z -> Z -> W -> W;
  h_open : option string * Z -> W -> bool * W;
  h_mmap_file : option string * Z -> Z -> Z -> W -> Z * W;
  h_clear : Z -> Z -> W -> W;
  h_flock : option string * Z -> W -> bool * W;
  h_numa_maps : option string -> W -> option (list (option (Z * Z)));
  h_mmap_anonymous : Z -> W -> Z * W;
  h_malloc : Z -> W -> bool * W;
  (** create_shared_memory: 0 when the file cannot be made, or what mmap returns *)
  h_shared : Z -> W -> Z * W;
  (** the sockets of the cores that run, and the number of cores *)
  h_core_sockets : list Z;
  h_core_num : Z
}.

(** ** Sorting and copying *)

(** The inner loop: the smallest address so far and where it is. *)
Fixpoint find_min (l : list hugepage_file) (j compare_addr compare_idx : Z) : Z * Z :=
  match l with
  | [] => (compare_addr, compare_idx)
  | h :: l => if (compare_addr =? 0) || (physaddr h <? compare_addr) then find_min l (j + 1) (physaddr h) j else find_min l (j + 1) compare_addr compare_idx
  end.
Fixpoint sort_loop (n : nat) (i : Z) (tbl : list hugepage_file) : option (Z * list hugepage_file) :=
  match n with
  | O => Some (0, tbl)
  | S n =>
      let '(_, idx) := find_min (drop (Z.to_nat i) tbl) i 0 (-1) in
      if idx =? -1 then Some (-1, tbl)
      else
        tmp ← zget tbl idx; h ← zget tbl i;
        tbl ← zset tbl idx h; tbl ← zset tbl i tmp;
        sort_loop n (i + 1) tbl
  end.
(** The table has num_pages[0] elements. *)
Definition sort_hpt_by_physaddr (tbl : list hugepage_file) : option (Z * list hugepage_file) := sort_loop (length tbl) 0 tbl.

(** [dst_pos]: the next place in [dst]. *)
Fixpoint copy_pages (dst : list hugepage_file) (dst_pos dest_size : Z) (src : list hugepage_file) : option (Z * list hugepage_file) :=
  match src with
  | [] => Some (0, dst)
  | h :: src =>
      if negb (final_va h =? 0) then
        if dst_pos =? dest_size then Some (-1, dst)
        else dst ← zset dst dst_pos h; copy_pages dst (dst_pos + 1) dest_size src
      else copy_pages dst dst_pos dest_size src
  end.
Definition copy_hugepages_to_shared_mem (dst : list hugepage_file) (dest_size : Z) (src : list hugepage_file) : option (Z * list hugepage_file) := copy_pages dst 0 dest_size src.

(** ** Fragments *)

Definition new_mmfrag (prev : option hugepage_file) (h : hugepage_file) : bool :=
  match prev with
  | None => true
  | Some p =>
      negb (socket_id h =? socket_id p) || negb (size h =? size p) || negb ((physaddr h -u64 physaddr p) =? size h) || negb ((final_va h -u64 final_va p) =? size h)
  end.
(** The pages from [tbl] on, with [j] the fragment in use: whether all were taken,
    the pages, [j], the fragments. *)
Fixpoint build_frags (prev : option hugepage_file) (tbl : list hugepage_file) (j : Z) (frags : list odp_mmfrag) : option (bool * list hugepage_file * Z * list odp_mmfrag) :=
  match tbl with
  | [] => Some (true, [], j, frags)
  | h :: rest =>
      if new_mmfrag prev h then
        let j := j + 1 in
        if j =? ODP_MAX_MMFRAG then Some (false, tbl, j, frags)
        else
          f ← zget frags j;
          frags ← zset frags j (Frag (physaddr h) (final_va h) (size h) (size h) (socket_id h) (channel_num f) (rank_num f));
          '(all, rest, j', frags) ← build_frags (Some h) rest j frags;
          Some (all, set_mmfrag_id j h :: rest, j', frags)
      else
        f ← zget frags j;
        frags ← zset frags j (Frag (f_phys_addr f) (f_addr f) (f_len f +u64 f_hugepage_sz f) (f_hugepage_sz f) (f_socket_id f) (channel_num f) (rank_num f));
        '(all, rest, j', frags) ← build_frags (Some h) rest j frags;
        Some (all, set_mmfrag_id j h :: rest, j', frags)
  end.
(** The fragment in front of the first unused one; behind the end when all are used. *)
Fixpoint last_used (j : Z) (frags : list odp_mmfrag) : Z :=
  match frags with
  | [] => j
  | f :: frags => if f_addr f =? 0 then j - 1 else last_used (j + 1) frags
  end.

(** ** How many pages to use *)

Section calc.
Context `{HugeSys W}.

Definition get_socket_mem_size (socket : Z) (ts : list odp_hugepage_type) : option Z :=
  fold_left (fun acc t => size ← acc; match hugedir t with None => Some size | Some _ => n ← zget (num_pages t) socket; Some (size +u64 (hugepage_sz t *u64 n)) end) ts (Some 0).

Definition cpu_per_socket (socket : Z) : Z := zlen (filter (fun s => s = socket) h_core_sockets).
(** A share of the memory in proportion to the cores; [n] sockets are left. *)
Fixpoint share (n : nat) (socket : Z) (cfg : odp_local_config) (mem : list Z) (total_size : Z) : option (list Z * Z) :=
  match n with
  | O => Some (mem, total_size)
  | S n =>
      if total_size =? 0 then Some (mem, total_size)
      else if h_core_num =? 0 then None
      else
        avail ← get_socket_mem_size socket (types cfg);
        let default_size := Z.min ((memory cfg *u64 cpu_per_socket socket) `div` h_core_num) avail in
        mem ← zset mem socket default_size;
        share n (socket + 1) cfg mem (total_size -u64 default_size)
  end.
(** What is left over is given to the first sockets that have it. *)
Fixpoint spread (n : nat) (socket : Z) (cfg : odp_local_config) (mem : list Z) (total_size : Z) : option (list Z * Z) :=
  match n with
  | O => Some (mem, total_size)
  | S n =>
      if total_size =? 0 then Some (mem, total_size)
      else
        avail ← get_socket_mem_size socket (types cfg);
        cur ← zget mem socket;
        let default_size := Z.min (avail -u64 cur) total_size in
        mem ← zset mem socket (cur +u64 default_size);
        spread n (socket + 1) cfg mem (total_size -u64 default_size)
  end.

Fixpoint remaining_mem (socket : Z) (info : list odp_hugepage_type) (sum : Z) : option Z :=
  match info with
  | [] => Some sum
  | t :: info => n ← zget (num_pages t) socket; remaining_mem socket info (sum +u64 (hugepage_sz t *u64 n))
  end.
(** The types of pages for a socket that needs [mem] bytes: the used types, what is
    still needed, [total_mem] and the number of pages. *)
Fixpoint take_types (socket : Z) (info used : list odp_hugepage_type) (mem total_mem count : Z) : option (list odp_hugepage_type * Z * Z * Z) :=
  match info, used with
  | f :: info, u :: used =>
      if mem =? 0 then Some (u :: used, mem, total_mem, count)
      else if hugepage_sz f =? 0 then None
      else
        avail ← zget (num_pages f) socket;
        let n := Z.min (mem `div` hugepage_sz f) avail in
        u ← set_pages socket n (set_dir (hugedir f) u);
        let cur := n *u64 hugepage_sz u in
        let mem := mem -u64 cur in let total_mem := total_mem -u64 cur in let count := s32 (count + n) in
        if mem =? 0 then Some (u :: used, mem, total_mem, count)
        else if n =? avail then '(used, mem, total_mem, count) ← take_types socket info used mem total_mem count; Some (u :: used, mem, total_mem, count)
        else
          rest ← remaining_mem socket info 0;
          if rest <? mem then
            let cur := Z.min mem (hugepage_sz f) in
            u ← set_pages socket (n + 1) u;
            Some (u :: used, mem -u64 cur, total_mem -u64 cur, s32 (count + 1))
          else '(used, mem, total_mem, count) ← take_types socket info used mem total_mem count; Some (u :: used, mem, total_mem, count)
  | _, used => Some (used, mem, total_mem, count)
  end.
(** The sockets; the result is negative when a socket has not enough. *)
Fixpoint take_sockets (n : nat) (socket : Z) (info used : list odp_hugepage_type) (mem : list Z) (total_mem count : Z) : option (Z * list odp_hugepage_type * Z) :=
  match n with
  | O => Some (count, used, total_mem)
  | S n =>
      if total_mem =? 0 then Some (count, used, total_mem)
      else
        cur ← zget mem socket;
        '(used, cur, total_mem, count) ← take_types socket info used cur total_mem count;
        if cur >? 0 then Some (-1, used, total_mem) else take_sockets n (socket + 1) info used mem total_mem count
  end.
Definition calc_num_pages_per_socket (cfg : odp_local_config) (mem : list Z) (used : list odp_hugepage_type) : option (Z * list odp_hugepage_type) :=
  if (length (types cfg) =? 0)%nat then Some (-1, used)
  else
    mem ← (if force_sockets cfg then Some mem
           else '(mem, total_size) ← share ODP_MAX_NUMA_NODES 0 cfg mem (memory cfg);
                '(mem, _) ← spread ODP_MAX_NUMA_NODES 0 cfg mem total_size; Some mem);
    '(r, used, total_mem) ← take_sockets ODP_MAX_NUMA_NODES 0 (types cfg) used mem (memory cfg) 0;
    Some (if r <? 0 then (r, used) else if total_mem >? 0 then (-1, used) else (r, used)).

(** ** Mapping *)

Implicit Types (w : W) (tbl : list hugepage_file).

Definition odp_mem_virt2phy (virtaddr : Z) w : option Z :=
  if h_page_size =? 0 then None
  else match h_pagemap (virtaddr `div` h_page_size) w with
       | None => Some ODP_BAD_PHYS_ADDR
       | Some page => Some (((page & 0x7fffffffffffff) *u64 h_page_size) +u64 (virtaddr `mod` h_page_size))
       end.
Fixpoint find_hpt_physaddrs tbl w : option (Z * list hugepage_file) :=
  match tbl with
  | [] => Some (0, [])
  | h :: rest =>
      addr ← odp_mem_virt2phy (orig_va h) w;
      if addr =? ODP_BAD_PHYS_ADDR then Some (-1, tbl)
      else '(r, rest) ← find_hpt_physaddrs rest w; Some (r, set_phys addr h :: rest)
  end.

(** A hint, then MAP_FAILED as the hint; [*size] shrinks.  [fuel] bounds the turns. *)
Fixpoint area_loop (fuel : nat) (addr sz page : Z) w : option (Z * Z * W) :=
  match fuel with
  | O => None
  | S fuel =>
      let '(a, w) := h_mmap_zero addr (sz +u64 page) w in
      if a =? MAP_FAILED then let sz := sz -u64 page in if sz >? 0 then area_loop fuel MAP_FAILED sz page w else Some (MAP_FAILED, sz, w)
      else Some (a, sz, w)
  end.
(** [off] is [baseaddr_offset].  The address, [*size], [off]. *)
Definition get_virtual_area (base off sz page : Z) w : option (Z * Z * Z * W) :=
  let addr := if negb (base =? 0) then base +u64 off else 0 in
  let '(ok, w) := h_open_zero w in
  if negb ok then Some (0, sz, off, w)
  else
    '(a, sz, w) ← area_loop (S (Z.to_nat sz)) addr sz page w;
    if a =? MAP_FAILED then Some (0, sz, off, w)
    else
      let w := h_munmap a (sz +u64 page) w in
      Some ((a +u64 (page -u64 1)) & (2 ^ 64 - 1 - (page -u64 1)), sz, off +u64 sz, w).

(** The number of pages that follow [phys] without a gap. *)
Fixpoint contiguous_run (phys sz : Z) tbl : Z :=
  match tbl with
  | [] => 0
  | h :: tbl => if negb (physaddr h =? (phys +u64 sz)) then 0 else 1 + contiguous_run (physaddr h) sz tbl
  end.
Fixpoint map_loop (base : Z) (t : odp_hugepage_type) (orig : bool) (i : Z) tbl (vma_addr vma_len off : Z) w : option (Z * list hugepage_file * Z * W) :=
  match tbl with
  | [] => Some (0, [], off, w)
  | h :: rest =>
      let sz := hugepage_sz t in
      let h := if orig then set_file i sz (hugedir t, i) h else h in
      '(vma_addr, vma_len, off, w) ←
        (if negb orig && (vma_len =? 0) then
           '(a, len, off, w) ← get_virtual_area base off ((1 + contiguous_run (physaddr h) sz rest) *u64 sz) sz w;
           Some (a, if a =? 0 then sz else len, off, w)
         else Some (vma_addr, vma_len, off, w));
      let '(ok, w) := h_open (filepath h) w in
      if negb ok then Some (-1, h :: rest, off, w)
      else
        let '(va, w) := h_mmap_file (filepath h) vma_addr sz w in
        if va =? MAP_FAILED then Some (-1, h :: rest, off, w)
        else
          let '(h, w) := if orig then (set_orig va h, h_clear va sz w) else (set_final va h, w) in
          let '(ok, w) := h_flock (filepath h) w in
          if negb ok then Some (-1, h :: rest, off, w)
          else
            let vma_addr := (if vma_addr =? 0 then va else vma_addr) +u64 sz in
            '(r, rest, off, w) ← map_loop base t orig (i + 1) rest vma_addr (vma_len -u64 sz) off w;
            Some (r, h :: rest, off, w)
  end.
Definition map_hpt_hugepages (base : Z) (t : odp_hugepage_type) (orig : bool) tbl (off : Z) w : option (Z * list hugepage_file * Z * W) := map_loop base t orig 0 tbl 0 0 off w.

Fixpoint unmap_hpt_hugepages_orig (sz : Z) tbl w : list hugepage_file * W :=
  match tbl with
  | [] => ([], w)
  | h :: rest =>
      let '(h, w) := if negb (orig_va h =? 0) then (set_orig 0 h, h_munmap (orig_va h) sz w) else (h, w) in
      let '(rest, w) := unmap_hpt_hugepages_orig sz rest w in (h :: rest, w)
  end.

(** The pages at an address are given a socket, and counted. *)
Definition set_sockets (va socket : Z) tbl : list hugepage_file := (fun h => if orig_va h =? va then set_socket socket h else h) <$> tbl.
Fixpoint numa_loop (lines : list (option (Z * Z))) tbl (hp_count : Z) : Z * list hugepage_file :=
  match lines with
  | [] => (if hp_count <? zlen tbl then -1 else 0, tbl)
  | None :: _ => (-1, tbl)
  | Some (va, socket) :: lines => if va =? 0 then (-1, tbl) else numa_loop lines (set_sockets va socket tbl) (hp_count + zlen (filter (fun h => orig_va h = va) tbl))
  end.
Definition find_hpt_numasocket (t : odp_hugepage_type) tbl w : Z * list hugepage_file :=
  match h_numa_maps (hugedir t) w with
  | None => (0, tbl)
  | Some lines => numa_loop lines tbl 0
  end.

(** ** Pages that are not needed *)

Fixpoint unmap_pages (sz socket limit pages_found : Z) tbl w : list hugepage_file * W :=
  match tbl with
  | [] => ([], w)
  | h :: rest =>
      if (size h =? sz) && (socket_id h =? socket) then
        if pages_found =? limit then
          let w := h_munmap (final_va h) (size h) w in
          let '(rest, w) := unmap_pages sz socket limit pages_found rest w in (set_final 0 h :: rest, w)
        else let '(rest, w) := unmap_pages sz socket limit (pages_found + 1) rest w in (h :: rest, w)
      else let '(rest, w) := unmap_pages sz socket limit pages_found rest w in (h :: rest, w)
  end.
Fixpoint unmap_sockets (n : nat) (socket : Z) (u : odp_hugepage_type) tbl w : option (list hugepage_file * W) :=
  match n with
  | O => Some (tbl, w)
  | S n => limit ← zget (num_pages u) socket; let '(tbl, w) := unmap_pages (hugepage_sz u) socket limit 0 tbl w in unmap_sockets n (socket + 1) u tbl w
  end.
Fixpoint unmap_types (used : list odp_hugepage_type) tbl w : option (list hugepage_file * W) :=
  match used with
  | [] => Some (tbl, w)
  | u :: used => '(tbl, w) ← unmap_sockets ODP_MAX_NUMA_NODES 0 u tbl w; unmap_types used tbl w
  end.
Definition unmap_unneeded_hugepages (cfg : odp_local_config) (used : list odp_hugepage_type) tbl w : option (list hugepage_file * W) :=
  let nrpages := s32 (zsum (fun t => zsum id (take ODP_MAX_NUMA_NODES (num_pages t))) (types cfg)) in
  if nrpages >? zlen tbl then None
  else '(kept, w) ← unmap_types used (take (Z.to_nat nrpages) tbl) w; Some (kept ++ drop (Z.to_nat nrpages) tbl, w).

(** ** Start-up *)

(** A range of addresses that is not physically contiguous, under fragment 0. *)
Definition odp_no_hugetlbfs (cfg : odp_local_config) (frags : list odp_mmfrag) w : option (Z * list odp_mmfrag * W) :=
  let '(addr, w) := h_mmap_anonymous (memory cfg) w in
  if addr =? MAP_FAILED then Some (-1, frags, w)
  else
    f ← zget frags 0;
    frags ← zset frags 0 (Frag addr addr (memory cfg) (f_hugepage_sz f) SOCKET_ID_ANY (channel_num f) (rank_num f));
    Some (0, frags, w).

(** The pages of one type. *)
Definition map_type (base : Z) (t : odp_hugepage_type) tbl (off : Z) w : option (Z * list hugepage_file * Z * W) :=
  '(r, tbl, off, w) ← map_hpt_hugepages base t true tbl off w;
  if r <? 0 then Some (-1, tbl, off, w)
  else
    '(r, tbl) ← find_hpt_physaddrs tbl w;
    if r <? 0 then Some (-1, tbl, off, w)
    else
      let '(r, tbl) := find_hpt_numasocket t tbl w in
      if r <? 0 then Some (-1, tbl, off, w)
      else
        '(r, tbl) ← sort_hpt_by_physaddr tbl;
        if r <? 0 then Some (-1, tbl, off, w)
        else
          '(r, tbl, off, w) ← map_hpt_hugepages base t false tbl off w;
          if r <? 0 then Some (-1, tbl, off, w)
          else let '(tbl, w) := unmap_hpt_hugepages_orig (hugepage_sz t) tbl w in Some (0, tbl, off, w).
Fixpoint map_types (base : Z) (ts : list odp_hugepage_type) (hp_offset : nat) tbl (off : Z) w : option (Z * list hugepage_file * Z * W) :=
  match ts with
  | [] => Some (0, tbl, off, w)
  | t :: ts =>
      n ← zget (num_pages t) 0;
      if n =? 0 then map_types base ts hp_offset tbl off w
      else
        let pages := take (Z.to_nat n) (drop hp_offset tbl) in
        if zlen pages <? n then None
        else
          '(r, pages, off, w) ← map_type base t pages off w;
          let tbl := take hp_offset tbl ++ pages ++ drop (hp_offset + Z.to_nat n) tbl in
          if r <? 0 then Some (-1, tbl, off, w) else map_types base ts (hp_offset + Z.to_nat n) tbl off w
  end.

(** The pages of each type and socket are counted again. *)
Definition count_page (h : hugepage_file) (t : odp_hugepage_type) : option odp_hugepage_type :=
  if size h =? hugepage_sz t then n ← zget (num_pages t) (socket_id h); set_pages (socket_id h) (n +u32 1) t else Some t.
Fixpoint count_pages tbl (ts : list odp_hugepage_type) : option (list odp_hugepage_type) :=
  match tbl with
  | [] => Some ts
  | h :: tbl => ts ← mapM (count_page h) ts; count_pages tbl ts
  end.
Definition clear_counts (t : odp_hugepage_type) : odp_hugepage_type := Hpt (hugepage_sz t) (hugedir t) (replicate ODP_MAX_NUMA_NODES 0).

Definition set_frags (l : list odp_mmfrag) (m : odp_sys_layout) : odp_sys_layout :=
  Lay (mm_district_idx m) (free_frag_idx m) (free_district_idx m) l (mm_district m) (free_mm_district m) (free_mmfrag m).

(** The result, the configuration, the layout, [baseaddr_offset], and [frag_idx]
    when it is written. *)
Definition odp_hugepage_init (cfg : odp_local_config) (m : odp_sys_layout) (off : Z) w : option (Z * odp_local_config * odp_sys_layout * Z * option Z * W) :=
  '(r, frags, w) ← (if no_hugetlbfs cfg then odp_no_hugetlbfs cfg (mmfrag m) w else Some (0, mmfrag m, w));
  let m := set_frags frags m in
  if negb (r =? 0) then Some (-1, cfg, m, off, None, w)
  else
    let used := (fun t => Hpt (hugepage_sz t) None (replicate ODP_MAX_NUMA_NODES 0)) <$> types cfg in
    counts ← mapM (fun t => zget (num_pages t) 0) (types cfg);
    let nr := zsum id counts in
    let '(ok, w) := h_malloc nr w in
    if negb ok then Some (-1, cfg, m, off, None, w)
    else
      '(r, tbl, off, w) ← map_types (base_virtaddr cfg) (types cfg) 0 (replicate (Z.to_nat nr) zero_hp) off w;
      if r <? 0 then Some (-1, cfg, m, off, None, w)
      else
        ts ← count_pages tbl (clear_counts <$> types cfg);
        let cfg := set_types ts cfg in
        '(n, used) ← calc_num_pages_per_socket cfg (socket_mem cfg) used;
        if n <? 0 then Some (-1, cfg, m, off, None, w)
        else
          let '(shared, w) := h_shared nr w in
          if shared =? 0 then Some (-1, cfg, m, off, None, w)
          else if shared =? MAP_FAILED then None
          else
            '(tbl, w) ← unmap_unneeded_hugepages cfg used tbl w;
            '(r, hugepage) ← copy_hugepages_to_shared_mem (replicate (Z.to_nat nr) zero_hp) nr tbl;
            if r <? 0 then Some (-1, cfg, m, off, None, w)
            else
              '(all, _, j, frags) ← build_frags None hugepage (last_used 0 (mmfrag m)) (mmfrag m);
              let m := set_frags frags m in
              Some (if negb all then - ENOMEM else 0, cfg, m, off, Some j, w).

End calc.

End Hugepage.
