(* ===== verification/HugepageProofs.v ===== *)
(** Huge pages: the pages are sorted, and the fragments made of them are a layout for
    the memory districts. *)

From stdpp Require Import sorting.
From S2P Require Import Prelude District DistrictProofs DistrictSpec Hugepage.

Open Scope Z_scope.
Open Scope c_scope.

Module HugepageProofs.
Import District DistrictProofs DistrictSpec Hugepage.

(** ** Sorting *)

Definition phys_le (h g : hugepage_file) : Prop := physaddr h <= physaddr g.

Lemma find_min_spec l : forall j ca ci, 0 < ca -> Forall (fun h => 0 < physaddr h) l -> exists a idx, find_min l j ca ci = (a, idx) /\ a <= ca /\
  Forall (fun h => a <= physaddr h) l /\ ((a = ca /\ idx = ci) \/ exists k h, l !! k = Some h /\ physaddr h = a /\ idx = j + Z.of_nat k).
Proof.
  induction l as [|h l IH]; intros j ca ci Hca Hl; cbn [find_min].
  - exists ca, ci. split_and!; [done|lia|constructor|by left].
  - apply Forall_cons_1 in Hl as [Hh Hl]. rewrite (proj2 (Z.eqb_neq ca 0)) by lia. cbn [orb]. destruct (Z.ltb_spec (physaddr h) ca) as [Hlt|Hge].
    + destruct (IH (j + 1) (physaddr h) j Hh Hl) as (a & idx & -> & Hle & Hall & Hc). exists a, idx. split_and!; [done|lia|by constructor|]. right.
      destruct Hc as [[-> ->]|(k & g & Hk & Hg & ->)]; [exists 0%nat, h; split_and!; [done|done|lia]|]. exists (S k), g. split_and!; [done|done|lia].
    + destruct (IH (j + 1) ca ci Hca Hl) as (a & idx & -> & Hle & Hall & Hc). exists a, idx. split_and!; [done|lia|by constructor; [lia|]|].
      destruct Hc as [[-> ->]|(k & g & Hk & Hg & ->)]; [by left|]. right. exists (S k), g. split_and!; [done|done|lia].
Qed.
(** The search over a part of the table that is not empty. *)
Lemma find_min_part h l j : Forall (fun h => 0 < physaddr h) (h :: l) -> exists k g, (h :: l) !! k = Some g /\ snd (find_min (h :: l) j 0 (-1)) = j + Z.of_nat k /\ Forall (phys_le g) (h :: l).
Proof.
  intros Hl. pose proof (Forall_cons_1 _ _ _ Hl) as [Hh Hl']. cbn [find_min Z.eqb orb]. destruct (find_min_spec l (j + 1) (physaddr h) j Hh Hl') as (a & idx & -> & Hle & Hall & Hc).
  destruct Hc as [[-> ->]|(k & g & Hk & Hg & ->)].
  - exists 0%nat, h. split_and!; [done|cbn; lia|]. constructor; [done|]. exact Hall.
  - exists (S k), g. subst a. split_and!; [done|cbn; lia|]. by constructor.
Qed.
(** The two elements change places. *)
Lemma swap_front (A : list hugepage_file) h l k g : (h :: l) !! k = Some g -> exists l', g :: l' ≡ₚ h :: l /\
  (tmp ← zget (A ++ h :: l) (zlen A + Z.of_nat k); x ← zget (A ++ h :: l) (zlen A); t ← zset (A ++ h :: l) (zlen A + Z.of_nat k) x; zset t (zlen A) tmp) = Some (A ++ g :: l').
Proof.
  intros Hk. unfold zlen. replace (Z.of_nat (length A) + Z.of_nat k) with (Z.of_nat (length A + k)) by lia. rewrite !zget_of_nat. rewrite (lookup_app_r A (h :: l) (length A + k)) by lia. replace (length A + k - length A)%nat with k by lia. rewrite Hk. cbn [mbind option_bind].
  rewrite list_lookup_middle by done. cbn [mbind option_bind]. pose proof (lookup_lt_Some _ _ _ Hk) as Hb. cbn [length] in Hb.
  rewrite zset_Some by (unfold zlen; rewrite length_app; cbn [length]; lia). cbn [mbind option_bind]. rewrite zset_Some by (unfold zlen; rewrite length_insert, length_app; cbn [length]; lia). rewrite !Nat2Z.id.
  rewrite insert_app_r_alt by lia. replace (length A + k - length A)%nat with k by lia. rewrite insert_app_r_alt by lia. rewrite Nat.sub_diag. destruct k as [|k]; cbn in Hk.
  - injection Hk as <-. exists l. by split.
  - exists (<[k := h]> l). split; [|done]. rewrite insert_take_drop by (by eapply lookup_lt_Some). rewrite <- (take_drop_middle l k g Hk) at 3. solve_Permutation.
Qed.
Lemma sort_loop_spec n : forall A B, length B = n -> Forall (fun h => 0 < physaddr h) B -> exists B', sort_loop n (zlen A) (A ++ B) = Some (0, A ++ B') /\ B' ≡ₚ B /\ StronglySorted phys_le B'.
Proof.
  induction n as [|n IH]; intros A B Hn Hp; (destruct B as [|h B]; cbn [length] in Hn; [try lia|try lia]).
  - exists []. split_and!; [done|done|constructor].
  - destruct (find_min_part h B (zlen A) Hp) as (k & g & Hk & Hm & Hle). destruct (swap_front A h B k g Hk) as (B1 & HB1 & Hsw).
    cbn [sort_loop]. replace (drop (Z.to_nat (zlen A)) (A ++ h :: B)) with (h :: B) by (unfold zlen; by rewrite Nat2Z.id, drop_app_length). destruct (find_min (h :: B) (zlen A) 0 (-1)) as [a idx]. cbn [snd] in Hm. subst idx.
    rewrite (proj2 (Z.eqb_neq (zlen A + Z.of_nat k) (-1))) by (unfold zlen; lia).
    destruct (IH (A ++ [g]) B1) as (B2 & Hs & HB2 & Hsorted). { apply Permutation_length in HB1. cbn [length] in HB1. lia. } { rewrite <- HB1 in Hp. by apply Forall_cons_1 in Hp as [_ Hp]. }
    exists (g :: B2). split_and!; [|by rewrite HB2|].
    + destruct (zget (A ++ h :: B) (zlen A + Z.of_nat k)) as [tmp|]; [|done]. cbn [mbind option_bind] in *. destruct (zget (A ++ h :: B) (zlen A)) as [x|]; [|done]. cbn [mbind option_bind] in *.
      destruct (zset (A ++ h :: B) (zlen A + Z.of_nat k) x) as [t|]; [|done]. cbn [mbind option_bind] in *. rewrite Hsw. cbn [mbind option_bind].
      replace (zlen A + 1) with (zlen (A ++ [g])) by (unfold zlen; rewrite length_app; cbn [length]; lia). change (A ++ g :: B1) with (A ++ [g] ++ B1). rewrite (app_assoc A [g] B1), Hs. by rewrite <- app_assoc.
    + constructor; [done|]. rewrite <- HB1 in Hle. apply Forall_cons_1 in Hle as [_ Hle]. by rewrite HB2.
Qed.
(** Pages with physical addresses other than 0 are sorted by them. *)
Theorem sort_pages_correct tbl : Forall (fun h => 0 < physaddr h) tbl -> exists tbl', sort_hpt_by_physaddr tbl = Some (0, tbl') /\ tbl' ≡ₚ tbl /\ StronglySorted phys_le tbl'.
Proof. intros Hp. unfold sort_hpt_by_physaddr. exact (sort_loop_spec (length tbl) [] tbl eq_refl Hp). Qed.
(** A page at address 0 is not: 0 stands for "nothing found yet". *)
Theorem sort_of_page_zero : let page a := Hp 0 1 a 1 0 0 0 (None, 0) in sort_hpt_by_physaddr [page 4; page 0; page 8] = Some (0, [page 8; page 4; page 0]).
Proof. by vm_compute. Qed.

(** ** Fragments *)

Record page_ok (h : hugepage_file) : Prop := PageOk {
  pg_va : 0 < final_va h; pg_size : 0 < size h; pg_end : final_va h + size h <= 2 ^ 62; pg_phys : 0 <= physaddr h; pg_phys_end : physaddr h + size h <= 2 ^ 62;
  pg_aligned : (64 | final_va h) /\ (64 | physaddr h) }.
Definition pages_apart (h g : hugepage_file) : Prop :=
  (final_va h + size h <= final_va g \/ final_va g + size g <= final_va h) /\ (physaddr h + size h <= physaddr g \/ physaddr g + size g <= physaddr h).
Definition off_frag (f : odp_mmfrag) (h : hugepage_file) : Prop :=
  (f_addr f + f_len f <= final_va h \/ final_va h + size h <= f_addr f) /\ (f_phys_addr f + f_len f <= physaddr h \/ physaddr h + size h <= f_phys_addr f).
(** The page is in the fragment, at the same distance in both address spaces. *)
Definition holds (f : odp_mmfrag) (h : hugepage_file) : Prop :=
  f_addr f <= final_va h /\ final_va h + size h <= f_addr f + f_len f /\ physaddr h - f_phys_addr f = final_va h - f_addr f /\ f_socket_id f = socket_id h /\ f_hugepage_sz f = size h.
Definition grown (f g : odp_mmfrag) : Prop :=
  f_addr g = f_addr f /\ f_phys_addr g = f_phys_addr f /\ f_len f <= f_len g /\ f_socket_id g = f_socket_id f /\ f_hugepage_sz g = f_hugepage_sz f.

(** Fragments 0 to [j] are made; [rem] are the pages to come, [prev] the last one. *)
Record built (j : Z) (frags : list odp_mmfrag) (prev : option hugepage_file) (rem : list hugepage_file) : Prop := Built {
  bu_len : zlen frags = ODP_MAX_MMFRAG;
  bu_j : -1 <= j < ODP_MAX_MMFRAG;
  bu_good : forall i f, 0 <= i <= j -> zget frags i = Some f -> frag_raw f /\ 0 < f_len f /\ (64 | f_addr f) /\ (64 | f_phys_addr f);
  bu_zero : forall i, j < i < ODP_MAX_MMFRAG -> zget frags i = Some zero_frag;
  bu_sep : forall i k f g, 0 <= i < k -> k <= j -> zget frags i = Some f -> zget frags k = Some g -> sep_virt f g /\ sep_phys f g;
  bu_rem : forall i f h, 0 <= i <= j -> zget frags i = Some f -> h ∈ rem -> off_frag f h;
  bu_prev : match prev with
            | None => j = -1
            | Some p => page_ok p /\ exists f, 0 <= j /\ zget frags j = Some f /\ f_addr f + f_len f = final_va p + size p /\ f_phys_addr f + f_len f = physaddr p + size p /\
                f_socket_id f = socket_id p /\ f_hugepage_sz f = size p
            end }.

Lemma holds_grown f g h : holds f h -> grown f g -> holds g h.
Proof. unfold holds, grown. intros (? & ? & ? & ? & ?) (? & ? & ? & ? & ?). split_and!; lia. Qed.
Lemma grown_trans f g h : grown f g -> grown g h -> grown f h.
Proof. unfold grown. intros (? & ? & ? & ? & ?) (? & ? & ? & ? & ?). split_and!; lia. Qed.

(** A page starts a fragment. *)
Definition frag_of (h : hugepage_file) : odp_mmfrag := Frag (physaddr h) (final_va h) (size h) (size h) (socket_id h) 0 0.
Lemma step_new j frags prev h rem : built j frags prev (h :: rem) -> page_ok h -> Forall (pages_apart h) rem -> j + 1 < ODP_MAX_MMFRAG -> exists frags',
  zget frags (j + 1) = Some zero_frag /\ zset frags (j + 1) (frag_of h) = Some frags' /\ built (j + 1) frags' (Some h) rem /\
  (forall i, i <> j + 1 -> zget frags' i = zget frags i) /\ zget frags' (j + 1) = Some (frag_of h) /\ zsum f_len frags' = zsum f_len frags + size h.
Proof.
  intros [Hl Hj Hg Hz Hs Hr Hp] Hok Hap Hlt. pose proof (Hz (j + 1) ltac:(lia)) as Hz1. exists (<[Z.to_nat (j + 1) := frag_of h]> frags).
  assert (Hget : forall i, zget (<[Z.to_nat (j + 1) := frag_of h]> frags) i = if bool_decide (j + 1 = i) then Some (frag_of h) else zget frags i) by (intros i; apply zget_insert; lia).
  pose proof Hok as [H1 H2 H3 H4 H5 H6].
  split_and!; [done|apply zset_Some; lia| | | |].
  - split; [unfold zlen in *; by rewrite length_insert|lia| | | | |].
    + intros i f Hi. rewrite Hget. case_bool_decide; [|intros; apply (Hg i f); [lia|done]]. intros [= <-]. split; [split; cbn; lia|split; [cbn; lia|apply H6]].
    + intros i Hi. rewrite Hget, bool_decide_eq_false_2 by lia. apply Hz. lia.
    + intros i k f g Hi Hk. rewrite !Hget. rewrite (bool_decide_eq_false_2 (j + 1 = i)) by lia. case_bool_decide; [|intros; apply (Hs i k); [lia|lia|done|done]].
      intros Hf [= <-]. destruct (Hr i f h ltac:(lia) Hf ltac:(set_solver)) as [Hv Hph]. unfold sep_virt, sep_phys. cbn. tauto.
    + intros i f g Hi. rewrite Hget. case_bool_decide; [|intros ? ?; apply (Hr i); [lia|done|set_solver]]. intros [= <-] Hin. rewrite Forall_forall in Hap. destruct (Hap g Hin) as [Hv Hph]. split; cbn; tauto.
    + split; [done|]. exists (frag_of h). rewrite Hget, bool_decide_eq_true_2 by lia. split_and!; [lia|done..].
  - intros i Hi. rewrite Hget, bool_decide_eq_false_2 by lia. done.
  - by rewrite Hget, bool_decide_eq_true_2.
  - rewrite zget_nonneg in Hz1 by lia. rewrite (zsum_insert f_len frags _ zero_frag) by done. cbn. lia.
Qed.

(** A page that follows the last one extends its fragment. *)
Definition frag_ext (f : odp_mmfrag) : odp_mmfrag := Frag (f_phys_addr f) (f_addr f) (f_len f +u64 f_hugepage_sz f) (f_hugepage_sz f) (f_socket_id f) (channel_num f) (rank_num f).
Lemma follows p h : page_ok p -> page_ok h -> new_mmfrag (Some p) h = false -> socket_id h = socket_id p /\ size h = size p /\ physaddr h = physaddr p + size p /\ final_va h = final_va p + size p.
Proof.
  intros [P1 P2 P3 P4 P5 _] [Q1 Q2 Q3 Q4 Q5 _]. unfold new_mmfrag. rewrite !orb_false_iff, !negb_false_iff, !Z.eqb_eq. intros (((Hs & Hz) & Hp) & Hv). unfold u64, wrap in *.
  rewrite Hz in *. split_and!; [done|done| |].
  - destruct (Z.ltb_spec (physaddr h) (physaddr p)); [|rewrite Z.mod_small in Hp; lia].
    rewrite <- (Z.mod_add _ 1) in Hp by lia. rewrite Z.mod_small in Hp; lia.
  - destruct (Z.ltb_spec (final_va h) (final_va p)); [|rewrite Z.mod_small in Hv; lia].
    rewrite <- (Z.mod_add _ 1) in Hv by lia. rewrite Z.mod_small in Hv; lia.
Qed.
Lemma step_extend j frags p h rem : built j frags (Some p) (h :: rem) -> page_ok h -> Forall page_ok rem -> Forall (pages_apart h) rem -> new_mmfrag (Some p) h = false -> exists f frags',
  zget frags j = Some f /\ zset frags j (frag_ext f) = Some frags' /\ built j frags' (Some h) rem /\ 0 <= j /\ grown f (frag_ext f) /\ holds (frag_ext f) h /\
  (forall i, i <> j -> zget frags' i = zget frags i) /\ zget frags' j = Some (frag_ext f) /\ zsum f_len frags' = zsum f_len frags + size h.
Proof.
  intros [Hl Hj Hg Hz Hs Hr [Hpok (f & Hj0 & Hf & Fa & Fp & Fs & Fz)]] Hok Hoks Hap Hn. destruct (follows p h Hpok Hok Hn) as (Es & Ez & Ep & Ev). exists f, (<[Z.to_nat j := frag_ext f]> frags).
  assert (Hget : forall i, zget (<[Z.to_nat j := frag_ext f]> frags) i = if bool_decide (j = i) then Some (frag_ext f) else zget frags i) by (intros i; apply zget_insert; lia).
  pose proof Hok as [H1 H2 H3 H4 H5 H6]. destruct (Hg j f ltac:(lia) Hf) as [[R1 R2 R3 R4 R5] [R6 R7]].
  assert (El : f_len (frag_ext f) = f_len f + size h) by (cbn; rewrite Fz, u64_small by (unfold is_u64; lia); lia).
  split_and!; [done|apply zset_Some; lia| |lia| | | | |].
  - split; [unfold zlen in *; by rewrite length_insert|lia| | | | |].
    + intros i g Hi. rewrite Hget. case_bool_decide; [|intros; apply (Hg i g); [lia|done]]. intros [= <-]. rewrite El. split; [split; rewrite ?El; cbn [frag_ext f_addr f_phys_addr]; lia|split; [lia|exact R7]].
    + intros i Hi. rewrite Hget, bool_decide_eq_false_2 by lia. apply Hz. lia.
    + intros i k g g' Hi Hk. rewrite !Hget. rewrite (bool_decide_eq_false_2 (j = i)) by lia. case_bool_decide; [|intros; apply (Hs i k); [lia|lia|done|done]].
      intros Hgi [= <-]. destruct (Hs i j g f ltac:(lia) ltac:(lia) Hgi Hf) as [Sv Sp]. destruct (Hr i g h ltac:(lia) Hgi ltac:(set_solver)) as [Ov Op]. destruct (Hg i g ltac:(lia) Hgi) as (_ & Lg & _).
      unfold sep_virt, sep_phys in *. rewrite El. cbn [frag_ext f_addr f_phys_addr]. lia.
    + intros i g q Hi. rewrite Hget. case_bool_decide; [|intros ? ?; apply (Hr i); [lia|done|set_solver]]. intros [= <-] Hin. destruct (Hr j f q ltac:(lia) Hf ltac:(set_solver)) as [Ov Op].
      rewrite Forall_forall in Hap, Hoks. destruct (Hap q Hin) as [Av Ap]. pose proof (pg_size _ (Hoks q Hin)). unfold off_frag. rewrite El. cbn [frag_ext f_addr f_phys_addr]. lia.
    + split; [done|]. exists (frag_ext f). rewrite Hget, bool_decide_eq_true_2 by done. rewrite El. cbn [frag_ext f_addr f_phys_addr f_socket_id f_hugepage_sz]. split_and!; [lia|done|lia|lia|congruence|congruence].
  - unfold grown. rewrite El. cbn [frag_ext f_addr f_phys_addr f_socket_id f_hugepage_sz]. split_and!; [done|done|lia|done|done].
  - unfold holds. rewrite El. cbn [frag_ext f_addr f_phys_addr f_socket_id f_hugepage_sz]. split_and!; [lia|lia|lia|congruence|congruence].
  - intros i Hi. rewrite Hget, bool_decide_eq_false_2 by lia. done.
  - by rewrite Hget, bool_decide_eq_true_2.
  - rewrite zget_nonneg in Hf by lia. rewrite (zsum_insert f_len frags _ f) by done. rewrite El. lia.
Qed.

(** A page with the number of the fragment that holds it. *)
Definition placed (j : Z) (frags : list odp_mmfrag) (h h' : hugepage_file) : Prop :=
  h' = set_mmfrag_id (hp_mmfrag_id h') h /\ 0 <= hp_mmfrag_id h' <= j /\ exists f, zget frags (hp_mmfrag_id h') = Some f /\ holds f h.
(** The loop over pages [tbl], with what follows them: [tbl1] are taken; the rest does
    not fit when all fragments are in use. *)
Record outcome (prev : option hugepage_file) (tbl : list hugepage_file) (j : Z) (frags : list odp_mmfrag) (tbl1 tbl2 tbl1' : list hugepage_file) (j' : Z) (frags' : list odp_mmfrag) : Prop := Outcome {
  out_split : tbl = tbl1 ++ tbl2;
  out_j : j <= j';
  out_placed : Forall2 (placed j' frags') tbl1 tbl1';
  out_grown : forall i f, 0 <= i <= j -> zget frags i = Some f -> exists f', zget frags' i = Some f' /\ grown f f';
  out_sum : zsum f_len frags' = zsum f_len frags + zsum size tbl1;
  out_run : (tbl2 = [] /\ exists prev', built j' frags' prev' [] /\ (prev' = None -> tbl = [] /\ prev = None) /\
               forall zs, build_frags prev (tbl ++ zs) j frags = '(all, zs', j2, frags2) ← build_frags prev' zs j' frags'; Some (all, tbl1' ++ zs', j2, frags2)) \/
            (tbl2 <> [] /\ j' = ODP_MAX_MMFRAG - 1 /\ (exists prev', built j' frags' prev' tbl2) /\ forall zs, build_frags prev (tbl ++ zs) j frags = Some (false, tbl1' ++ tbl2 ++ zs, ODP_MAX_MMFRAG, frags')) }.

Lemma grown_refl f : grown f f.
Proof. unfold grown. split_and!; done || lia. Qed.
(** One page and then the rest. *)
Lemma outcome_cons prev h tbl j frags jh fragsh tbl1 tbl2 tbl1' j' frags' fh : outcome (Some h) tbl jh fragsh tbl1 tbl2 tbl1' j' frags' ->
  j <= jh -> 0 <= jh -> zget fragsh jh = Some fh -> holds fh h -> zsum f_len fragsh = zsum f_len frags + size h ->
  (forall i f, 0 <= i <= j -> zget frags i = Some f -> exists f', zget fragsh i = Some f' /\ grown f f') ->
  (forall zs, build_frags prev ((h :: tbl) ++ zs) j frags = '(all, zs', j2, frags2) ← build_frags (Some h) (tbl ++ zs) jh fragsh; Some (all, set_mmfrag_id jh h :: zs', j2, frags2)) ->
  outcome prev (h :: tbl) j frags (h :: tbl1) tbl2 (set_mmfrag_id jh h :: tbl1') j' frags'.
Proof.
  intros [O1 O2 O3 O4 O5 O6] Hj Hj0 Hf Hh Hs Hg Hb. split.
  - by rewrite O1.
  - lia.
  - constructor; [|done]. split; [done|]. cbn [set_mmfrag_id hp_mmfrag_id]. split; [lia|]. destruct (O4 jh fh ltac:(lia) Hf) as (f' & Hf' & Hgr). exists f'. split; [done|by eapply holds_grown].
  - intros i f Hi Hfi. destruct (Hg i f Hi Hfi) as (f1 & Hf1 & G1). destruct (O4 i f1 ltac:(lia) Hf1) as (f2 & Hf2 & G2). exists f2. split; [done|by eapply grown_trans].
  - rewrite O5, Hs. change (zsum size (h :: tbl1)) with (size h + zsum size tbl1). lia.
  - destruct O6 as [(E2 & prev' & Hbu & Hpn & Hrun)|(N2 & Ej & Hbu & Hrun)]; [left|right].
    + split; [done|]. exists prev'. split_and!; [done|intros ->; by destruct (Hpn eq_refl)|]. intros zs. rewrite Hb, Hrun. destruct (build_frags prev' zs j' frags') as [[[[? ?] ?] ?]|]; done.
    + split_and!; [done|done|done|]. intros zs. rewrite Hb, Hrun. done.
Qed.
Lemma build_pages tbl : forall prev j frags, built j frags prev tbl -> Forall page_ok tbl -> StronglySorted pages_apart tbl ->
  exists tbl1 tbl2 tbl1' j' frags', outcome prev tbl j frags tbl1 tbl2 tbl1' j' frags'.
Proof.
  induction tbl as [|h tbl IH]; intros prev j frags Hbu Hok Hap.
  - exists [], [], [], j, frags. split; [done|lia|constructor|intros i f _ Hf; exists f; split; [done|apply grown_refl]|change (zsum size []) with 0; lia|]. left. split; [done|]. exists prev. split_and!; [done|done|].
    intros zs. cbn [app]. by destruct (build_frags prev zs j frags) as [[[[? ?] ?] ?]|].
  - apply Forall_cons_1 in Hok as [Hh Hok]. apply StronglySorted_cons in Hap as [Hah Hap]. destruct (new_mmfrag prev h) eqn:Hnew.
    + destruct (Z.eqb_spec (j + 1) ODP_MAX_MMFRAG) as [Hfull|Hroom].
      * exists [], (h :: tbl), [], j, frags. split; [done|lia|constructor|intros i f _ Hf; exists f; split; [done|apply grown_refl]|change (zsum size []) with 0; lia|]. right. split_and!; [done|lia|by exists prev|].
        intros zs. cbn [app build_frags]. rewrite Hnew, (proj2 (Z.eqb_eq _ _) Hfull), Hfull. done.
      * pose proof (bu_j _ _ _ _ Hbu). destruct (step_new j frags prev h tbl Hbu Hh Hah ltac:(lia)) as (fragsh & Hz & Hset & Hbu' & Hne & Heq & Hsum). destruct (IH _ _ _ Hbu' Hok Hap) as (tbl1 & tbl2 & tbl1' & j' & frags' & Hout).
        eexists _, _, _, _, _. eapply outcome_cons; [exact Hout|lia|lia|exact Heq| |done| |].
        -- unfold holds, frag_of. cbn. split_and!; lia.
        -- intros i f Hi Hf. exists f. rewrite Hne by lia. split; [done|apply grown_refl].
        -- intros zs. cbn [app build_frags]. rewrite Hnew, (proj2 (Z.eqb_neq _ _) Hroom), Hz. cbn [mbind option_bind]. change (channel_num zero_frag) with 0. change (rank_num zero_frag) with 0. fold (frag_of h). rewrite Hset. done.
    + destruct prev as [p|]; [|done]. destruct (step_extend j frags p h tbl Hbu Hh Hok Hah Hnew) as (f & fragsh & Hf & Hset & Hbu' & Hj0 & Hgr & Hho & Hne & Heq & Hsum). destruct (IH _ _ _ Hbu' Hok Hap) as (tbl1 & tbl2 & tbl1' & j' & frags' & Hout).
      eexists _, _, _, _, _. eapply outcome_cons; [exact Hout|lia|lia|exact Heq|done|done| |].
      * intros i g Hi Hg. destruct (decide (i = j)) as [->|Hij]; [rewrite Hf in Hg; injection Hg as <-; by exists (frag_ext f)|]. exists g. rewrite Hne by done. split; [done|apply grown_refl].
      * intros zs. cbn [app build_frags]. rewrite Hnew, Hf. cbn [mbind option_bind]. fold (frag_ext f). rewrite Hset. done.
Qed.

(** Entries without a page: they ask for one more fragment, which stays empty. *)
Lemma zset_same (frags : list odp_mmfrag) i f : zget frags i = Some f -> zset frags i f = Some frags.
Proof. intros Hf. pose proof (zget_bound _ _ _ Hf). rewrite zset_Some by done. rewrite zget_nonneg in Hf by lia. by rewrite list_insert_id. Qed.
Lemma build_zeros_more k : forall j frags, zget frags j = Some zero_frag -> exists zs, build_frags (Some zero_hp) (replicate k zero_hp) j frags = Some (true, zs, j, frags).
Proof.
  induction k as [|k IH]; intros j frags Hz; cbn [replicate build_frags]; [by exists []|]. change (new_mmfrag (Some zero_hp) zero_hp) with false. cbn match. rewrite Hz. cbn [mbind option_bind].
  change (Frag _ _ _ _ _ _ _) with zero_frag. rewrite (zset_same _ _ _ Hz). cbn [mbind option_bind]. destruct (IH j frags Hz) as [zs ->]. cbn [mbind option_bind]. by eexists.
Qed.
Lemma build_zeros k j frags prev : built j frags prev [] -> exists zs j2,
  build_frags prev (replicate k zero_hp) j frags = Some (bool_decide (k = 0%nat \/ j + 1 < ODP_MAX_MMFRAG), zs, j2, frags).
Proof.
  intros [Hl Hj Hg Hz Hs Hr Hp]. destruct k as [|k]; [by exists [], j|]. cbn [replicate build_frags]. assert (new_mmfrag prev zero_hp = true) as ->.
  { destruct prev as [p|]; [|done]. destruct Hp as [[_ Hsz _ _ _ _] _]. unfold new_mmfrag. rewrite (proj2 (Z.eqb_neq (size zero_hp) (size p))) by (cbn; lia). cbn [negb]. by rewrite orb_true_r. }
  destruct (Z.eqb_spec (j + 1) ODP_MAX_MMFRAG) as [Hfull|Hroom].
  - rewrite bool_decide_eq_false_2 by lia. by eexists _, _.
  - rewrite bool_decide_eq_true_2 by lia. rewrite Hz by lia. cbn [mbind option_bind]. change (Frag _ _ _ _ _ _ _) with zero_frag. rewrite (zset_same _ _ zero_frag) by (apply Hz; lia). cbn [mbind option_bind].
    destruct (build_zeros_more k (j + 1) frags) as [zs ->]; [apply Hz; lia|]. cbn [mbind option_bind]. by eexists _, _.
Qed.

(** ** The layout *)

Lemma known_frags_app l1 l2 : Forall (fun f => f_addr f <> 0) l1 -> (forall f, head l2 = Some f -> f_addr f = 0) -> known_frags (l1 ++ l2) = l1.
Proof.
  induction 1 as [|f l1 Hf _ IH]; intros Hh; cbn [app known_frags].
  - destruct l2 as [|g l2]; [done|]. cbn [known_frags]. by rewrite (proj2 (Z.eqb_eq _ _) (Hh g eq_refl)).
  - rewrite (proj2 (Z.eqb_neq _ _) Hf). by rewrite IH.
Qed.
Lemma pairwise_sorted {A} (R : A -> A -> Prop) (l : list A) : (forall i k x y, (i < k)%nat -> l !! i = Some x -> l !! k = Some y -> R x y) -> StronglySorted R l.
Proof.
  induction l as [|x l IH]; intros HR; constructor; [apply IH; intros i k y z Hik Hi Hk; apply (HR (S i) (S k)); [lia|done|done]|].
  apply Forall_lookup. intros k y Hk. apply (HR 0%nat (S k)); [lia|done|done].
Qed.
Lemma known_take j frags prev rem : built j frags prev rem -> known_frags frags = take (Z.to_nat (j + 1)) frags.
Proof.
  intros [Hl Hj Hg Hz _ _ _]. unfold zlen, ODP_MAX_MMFRAG in *. rewrite <- (take_drop (Z.to_nat (j + 1)) frags) at 1. apply known_frags_app.
  - apply Forall_lookup. intros i f. rewrite lookup_take_Some. intros [Hi Hlt]. rewrite <- zget_of_nat in Hi. destruct (Hg (Z.of_nat i) f ltac:(lia) Hi) as [[Hr _ _ _ _] _]. lia.
  - intros f. rewrite head_lookup, lookup_drop, Nat.add_0_r. intros Hf. rewrite <- zget_of_nat, Z2Nat.id in Hf by lia. pose proof (zget_bound _ _ _ Hf) as Hb. unfold zlen in Hb. rewrite Hz in Hf by lia. by injection Hf as <-.
Qed.
Lemma known_lookup j frags prev rem i f : built j frags prev rem -> known_frags frags !! i = Some f <-> Z.of_nat i <= j /\ zget frags (Z.of_nat i) = Some f.
Proof. intros Hb. rewrite (known_take _ _ _ _ Hb), lookup_take_Some, zget_of_nat. pose proof (bu_j _ _ _ _ Hb). intuition lia. Qed.

Lemma built_layout j frags prev rem m : built j frags prev rem -> free_mmfrag m = replicate 128 zero_frag -> length (free_mm_district m) = 128%nat -> free_district_idx m = 0 -> layout_ok (set_frags frags m).
Proof.
  intros Hb Hf Hd Hi. pose proof (bu_j _ _ _ _ Hb). split; cbn [set_frags mmfrag free_mmfrag free_mm_district free_district_idx]; [|done|done| | |].
  - pose proof (bu_len _ _ _ _ Hb) as Hl. unfold zlen, ODP_MAX_MMFRAG in Hl. lia.
  - apply Forall_lookup. intros i f [Hi' Hif]%(known_lookup _ _ _ _ _ _ Hb). by apply (bu_good _ _ _ _ Hb (Z.of_nat i)); [lia|].
  - apply pairwise_sorted. intros i k f g Hik [Hi1 Hi2]%(known_lookup _ _ _ _ _ _ Hb) [Hk1 Hk2]%(known_lookup _ _ _ _ _ _ Hb). by apply (bu_sep _ _ _ _ Hb (Z.of_nat i) (Z.of_nat k)); [lia..| |].
  - apply pairwise_sorted. intros i k f g Hik [Hi1 Hi2]%(known_lookup _ _ _ _ _ _ Hb) [Hk1 Hk2]%(known_lookup _ _ _ _ _ _ Hb). by apply (bu_sep _ _ _ _ Hb (Z.of_nat i) (Z.of_nat k)); [lia..| |].
Qed.
(** The districts can start on it. *)
Lemma sanitize_ok f : (64 | f_addr f) -> (64 | f_phys_addr f) -> exists g, mmfrag_sanitize f = Some g.
Proof.
  intros [a Ha] [b Hb]. unfold mmfrag_sanitize, ODP_CACHE_LINE_MASK. change (ODP_CACHE_LINE_SIZE - 1) with (Z.ones 6). rewrite !Z.land_ones, Ha, Hb by lia. change (2 ^ 6) with 64. rewrite !Z.mod_mul by lia.
  cbn [Z.eqb negb]. destruct (_ <? _); by eexists.
Qed.
Lemma sanitize_all_ok l : Forall (fun f => (64 | f_addr f) /\ (64 | f_phys_addr f)) (known_frags l) -> fst (sanitize_all l) = true.
Proof.
  induction l as [|f l IH]; intros Hl; [done|]. cbn [known_frags sanitize_all] in *. destruct (f_addr f =? 0); [done|]. apply Forall_cons_1 in Hl as [[Ha Hb] Hl].
  destruct (sanitize_ok f Ha Hb) as [g ->]. specialize (IH Hl). by destruct (sanitize_all l).
Qed.
Lemma built_init j frags prev rem m : built j frags prev rem -> free_mmfrag m = replicate 128 zero_frag -> exists m0, odp_mm_district_init false (set_frags frags m) = (0, m0).
Proof.
  intros Hb Hf. unfold odp_mm_district_init. cbn [set_frags mmfrag free_mmfrag]. rewrite Hf. pose proof (bu_len _ _ _ _ Hb) as Hl. unfold zlen, ODP_MAX_MMFRAG in Hl.
  pose proof (copy_frags_fresh frags 0) as Hc. replace (length frags) with 128%nat in Hc by lia. destruct (copy_frags 0 frags (replicate 128 zero_frag)) as [n free]. cbn [snd] in Hc. subst free.
  assert (Hk : Forall (fun f => f_addr f <> 0) (known_frags frags)) by (apply Forall_lookup; intros i f [_ Hi]%known_frags_lookup; done).
  assert (Hs : fst (sanitize_all (known_frags frags ++ replicate (128 - length (known_frags frags)) zero_frag)) = true).
  { apply sanitize_all_ok. rewrite known_frags_app; [|done|]. 2:{ intros f. destruct (128 - length (known_frags frags))%nat; [done|]. by intros [= <-]. }
    apply Forall_lookup. intros i f [Hi Hif]%(known_lookup _ _ _ _ _ _ Hb). apply (bu_good _ _ _ _ Hb (Z.of_nat i)); [lia|done]. }
  destruct (sanitize_all _) as [ok free]. cbn [fst] in Hs. subst ok. by eexists.
Qed.

(** The pages that are still mapped; they are copied in order. *)
Definition mapped (l : list hugepage_file) : list hugepage_file := filter (fun h => final_va h <> 0) l.
Lemma copy_pages_spec src : forall done k n, Z.of_nat (length done + k) = n -> (length (mapped src) <= k)%nat ->
  copy_pages (done ++ replicate k zero_hp) (zlen done) n src =
    Some (0, done ++ mapped src ++ replicate (k - length (mapped src)) zero_hp).
Proof.
  induction src as [|h src IH]; intros dn k n Hn Hk; cbn [copy_pages]; [cbn; by rewrite Nat.sub_0_r|]. unfold mapped in *. rewrite filter_cons in *. destruct (Z.eqb_spec (final_va h) 0) as [Hz|Hz]; cbn [negb].
  - rewrite decide_False in * by (by intros []). by apply IH.
  - rewrite decide_True in * by done. cbn [length] in Hk. destruct k as [|k]; [lia|]. rewrite (proj2 (Z.eqb_neq (zlen dn) n)) by (unfold zlen; lia).
    rewrite zset_Some by (unfold zlen; rewrite length_app, length_replicate; lia). cbn [mbind option_bind]. unfold zlen at 1. rewrite Nat2Z.id, insert_app_r_alt, Nat.sub_diag by lia. cbn [replicate]. change (<[0%nat := h]> (zero_hp :: replicate k zero_hp)) with (h :: replicate k zero_hp).
    change (h :: replicate k zero_hp) with ([h] ++ replicate k zero_hp). rewrite app_assoc. replace (zlen dn + 1) with (zlen (dn ++ [h])) by (unfold zlen; rewrite length_app; cbn [length]; lia).
    rewrite IH; [|rewrite length_app; cbn [length]; lia|lia]. f_equal. f_equal. rewrite <- app_assoc. done.
Qed.
Lemma last_used_fresh n j : last_used j (replicate (S n) zero_frag) = j - 1.
Proof. done. Qed.
Lemma built_start pages : built (-1) (replicate 128 zero_frag) None pages.
Proof.
  split; [done|unfold ODP_MAX_MMFRAG; lia|lia| |lia|lia|done]. intros i Hi. unfold ODP_MAX_MMFRAG in Hi. rewrite zget_nonneg by lia. apply lookup_replicate_2. lia.
Qed.
Lemma zsum_app {A} (f : A -> Z) l1 l2 : zsum f (l1 ++ l2) = zsum f l1 + zsum f l2.
Proof. induction l1 as [|x l1 IH]; [done|]. change (f x + zsum f (l1 ++ l2) = f x + zsum f l1 + zsum f l2). rewrite IH. lia. Qed.
Lemma known_sum j frags prev rem : built j frags prev rem -> zsum f_len (known_frags frags) = zsum f_len frags.
Proof.
  intros Hb. rewrite (known_take _ _ _ _ Hb). rewrite <- (take_drop (Z.to_nat (j + 1)) frags) at 2. rewrite zsum_app. pose proof (bu_j _ _ _ _ Hb) as Hj. pose proof (bu_len _ _ _ _ Hb) as Hl. unfold zlen in Hl.
  assert (drop (Z.to_nat (j + 1)) frags = replicate (128 - Z.to_nat (j + 1)) zero_frag) as ->.
  { unfold ODP_MAX_MMFRAG in *. apply list_eq. intros i. rewrite lookup_drop. destruct (decide (i < 128 - Z.to_nat (j + 1))%nat) as [Hi|Hi].
    - rewrite (lookup_replicate_2 _ zero_frag i) by lia. rewrite <- zget_of_nat. apply (bu_zero _ _ _ _ Hb). unfold ODP_MAX_MMFRAG. lia.
    - rewrite !lookup_ge_None_2; [done|rewrite length_replicate; lia|lia]. }
  assert (forall n, zsum f_len (replicate n zero_frag) = 0) as ->; [|lia]. induction n as [|n IH]; [done|]. change (0 + zsum f_len (replicate n zero_frag) = 0). lia.
Qed.

(** C40: From pages to districts.  The pages that are mapped, apart from each other in both address
    spaces, are copied in order; the loop over them makes fragments that are apart
    and that the memory districts start on without an error.  Unless fragments
    run out, each page is in the fragment with its number, on the same socket, and at the same distance
    from its start in virtual and in physical memory; and the fragments are as long as the
    pages together.  They run out only when all 128 are in use. *)
Theorem huge_fragments (tbl : list hugepage_file) (m : odp_sys_layout) :
  Forall page_ok (mapped tbl) -> StronglySorted pages_apart (mapped tbl) ->
  mmfrag m = replicate 128 zero_frag -> free_mmfrag m = replicate 128 zero_frag -> length (free_mm_district m) = 128%nat -> free_district_idx m = 0 ->
  exists hugepage all tbl' j frags,
    copy_hugepages_to_shared_mem (replicate (length tbl) zero_hp) (zlen tbl) tbl = Some (0, hugepage) /\
    build_frags None hugepage (last_used 0 (mmfrag m)) (mmfrag m) = Some (all, tbl', j, frags) /\
    layout_ok (set_frags frags m) /\ (exists m0, odp_mm_district_init false (set_frags frags m) = (0, m0)) /\
    (all = true ->
      (forall i h, mapped tbl !! i = Some h -> exists h' f, tbl' !! i = Some h' /\ known_frags frags !! Z.to_nat (hp_mmfrag_id h') = Some f /\ holds f h) /\
      zsum f_len (known_frags frags) = zsum size (mapped tbl)) /\
    (all = false -> length (known_frags frags) = 128%nat).
Proof.
  intros Hok Hap Hm Hf Hd Hi. set (pages := mapped tbl) in *. assert (Hlen : (length pages <= length tbl)%nat) by apply length_filter.
  pose proof (copy_pages_spec tbl [] (length tbl) (zlen tbl) eq_refl Hlen) as Hcopy. fold pages in Hcopy. rewrite Hm. change (last_used 0 (replicate 128 zero_frag)) with (-1).
  destruct (build_pages pages None (-1) _ (built_start pages) Hok Hap) as (tbl1 & tbl2 & tbl1' & j & frags & [O1 O2 O3 _ O5 O6]).
  eexists (pages ++ replicate (length tbl - length pages) zero_hp). change (zsum f_len (replicate 128 zero_frag)) with 0 in O5.
  assert (Hfull : forall j2 prev rem, built j2 frags prev rem -> j2 = ODP_MAX_MMFRAG - 1 -> length (known_frags frags) = 128%nat).
  { intros j2 prev rem Hb ->. rewrite (known_take _ _ _ _ Hb), length_take. pose proof (bu_len _ _ _ _ Hb) as Hl. unfold zlen, ODP_MAX_MMFRAG in *. lia. }
  destruct O6 as [(-> & prev' & Hb & _ & Hrun)|(Hne & Ej & (prev' & Hb) & Hrun)].
  - rewrite app_nil_r in O1. subst tbl1. destruct (build_zeros (length tbl - length pages) j frags prev' Hb) as (zs & j2 & Hz). eexists _, _, _, _. split_and!; [exact Hcopy|rewrite Hrun, Hz; reflexivity| | | |].
    + by eapply built_layout.
    + by eapply built_init.
    + intros _. split; [|rewrite (known_sum _ _ _ _ Hb); lia]. intros i h Hh. destruct (Forall2_lookup_l _ _ _ _ _ O3 Hh) as (h' & Hh' & (_ & Hid & f & Hzf & Hho)). exists h', f. split_and!; [by apply lookup_app_l_Some| |done].
      apply (known_lookup _ _ _ _ _ _ Hb). rewrite Z2Nat.id by lia. split; [lia|done].
    + intros Hall. apply bool_decide_eq_false in Hall. apply (Hfull _ _ _ Hb). pose proof (bu_j _ _ _ _ Hb). lia.
  - eexists _, _, _, _. split_and!; [exact Hcopy|rewrite Hrun; reflexivity|by eapply built_layout|by eapply built_init|done|]. intros _. by eapply Hfull.
Qed.

(** ** How many pages are used *)

(** Pages of a type on a socket. *)
Definition pages_of (socket : Z) (t : odp_hugepage_type) : Z := default 0 (zget (num_pages t) socket).
Definition bytes_used (socket : Z) (t : odp_hugepage_type) : Z := pages_of socket t * hugepage_sz t.
Definition type_ok (socket : Z) (t : odp_hugepage_type) : Prop := 0 < hugepage_sz t /\ exists n, zget (num_pages t) socket = Some n /\ 0 <= n < 2 ^ 32.
(** The type [u] uses some of the pages of type [t]. *)
Definition uses (socket : Z) (t u : odp_hugepage_type) : Prop := hugepage_sz u = hugepage_sz t /\ 0 <= pages_of socket u <= pages_of socket t /\ exists n, zget (num_pages u) socket = Some n.

Lemma set_pages_ok socket n t x : zget (num_pages t) socket = Some x -> exists t', set_pages socket n t = Some t' /\ hugepage_sz t' = hugepage_sz t /\ zget (num_pages t') socket = Some n.
Proof.
  intros Hx. pose proof (zget_bound _ _ _ Hx) as Hb. unfold set_pages. rewrite zset_Some by done. cbn [mbind option_bind]. eexists. split_and!; [done|done|]. cbn [num_pages]. by rewrite zget_insert, bool_decide_eq_true_2.
Qed.
Lemma remaining_ok socket info : forall sum, Forall (type_ok socket) info -> exists r, remaining_mem socket info sum = Some r.
Proof.
  induction info as [|t info IH]; intros sum Hl; cbn [remaining_mem]; [by eexists|]. apply Forall_cons_1 in Hl as [(_ & n & -> & _) Hl]. cbn [mbind option_bind]. by apply IH.
Qed.
(** For a socket that needs [mem] bytes the call returns; it uses no more pages of a type than there
    are, and what it reports as found are bytes of used pages. *)
Theorem take_types_correct socket info : forall used mem total_mem count, Forall (type_ok socket) info -> Forall2 (uses socket) info used ->
  Forall (fun u => pages_of socket u = 0) used -> 0 <= mem <= total_mem -> total_mem < 2 ^ 63 -> exists used' mem' count',
    take_types socket info used mem total_mem count = Some (used', mem', total_mem - (mem - mem'), count') /\
    0 <= mem' <= mem /\ Forall2 (uses socket) info used' /\ mem - mem' <= zsum (bytes_used socket) used'.
Proof.
  induction info as [|f info IH]; intros used mem total count Hok Hu Hz Hm Ht; inversion Hu as [|f' u info' used0 Hfu Hu' E1 E2]; subst; cbn [take_types].
  - exists [], mem, count. split_and!; [by rewrite Z.sub_diag, Z.sub_0_r|lia|lia|done|cbn; lia].
  - apply Forall_cons_1 in Hok as [(Hsz & a & Ha & Hab) Hok]. apply Forall_cons_1 in Hz as [Hzu Hz].
    assert (Hnn : forall l, Forall2 (uses socket) info l -> Forall (type_ok socket) info -> 0 <= zsum (bytes_used socket) l).
    { clear. induction 1 as [|t v info l (Es & Hp & _) _ IHl]; [done|]. intros [[Hs _] Hok]%Forall_cons_1. change (0 <= bytes_used socket v + zsum (bytes_used socket) l). specialize (IHl Hok). unfold bytes_used at 1. nia. }
    destruct (Z.eqb_spec mem 0) as [->|Hne].
    { exists (u :: used0), 0, count. split_and!; [do 3 f_equal; lia|lia|lia|by constructor|]. pose proof (Hnn _ Hu' Hok). change (0 - 0 <= bytes_used socket u + zsum (bytes_used socket) used0). unfold bytes_used at 1. rewrite Hzu. lia. }
    rewrite (proj2 (Z.eqb_neq (hugepage_sz f) 0)) by lia. rewrite Ha. cbn [mbind option_bind]. destruct Hfu as (Es & _ & x & Hx). set (n := Z.min (mem `div` hugepage_sz f) a).
    assert (Hq : 0 <= mem `div` hugepage_sz f) by (apply Z.div_pos; lia). assert (Hn : 0 <= n <= a /\ n * hugepage_sz f <= mem).
    { pose proof (Z.mul_div_le mem (hugepage_sz f) Hsz). split; [lia|]. unfold n. nia. }
    destruct (set_pages_ok socket n (set_dir (hugedir f) u) x Hx) as (u1 & -> & Es1 & Hg1). cbn [mbind option_bind]. cbn [set_dir hugepage_sz] in Es1. rewrite Es1, Es. rewrite (u64_small (n * _)) by (unfold is_u64; lia).
    rewrite (u64_small (mem - _)), (u64_small (total - _)) by (unfold is_u64; lia). set (mem1 := mem - n * hugepage_sz f).
    assert (Hu1 : uses socket f u1) by (split; [congruence|]; unfold pages_of; rewrite Hg1, Ha; cbn [default from_option id]; split; [lia|by eexists]).
    assert (Hb1 : bytes_used socket u1 = n * hugepage_sz f) by (unfold bytes_used, pages_of; rewrite Hg1, Es1, Es; done).
    assert (Hrec : forall c, exists used' mem' count', (take_types socket info used0 mem1 (total - n * hugepage_sz f) c ≫= fun '(used, mem, total_mem, count) => Some (u1 :: used, mem, total_mem, count)) =
        Some (used', mem', total - (mem - mem'), count') /\ 0 <= mem' <= mem /\ Forall2 (uses socket) (f :: info) used' /\ mem - mem' <= zsum (bytes_used socket) used').
    { intros c. destruct (IH used0 mem1 (total - n * hugepage_sz f) c Hok Hu' Hz ltac:(lia) ltac:(lia)) as (used' & mem' & count' & -> & Hm' & Hf2 & Hs). cbn [mbind option_bind]. exists (u1 :: used'), mem', count'.
      split_and!; [do 3 f_equal; lia|lia|lia|by constructor|]. change (mem - mem' <= bytes_used socket u1 + zsum (bytes_used socket) used'). lia. }
    destruct (mem1 =? 0) eqn:Em1; [|destruct (n =? a) eqn:Ena; [apply Hrec|]].
    { apply Z.eqb_eq in Em1. eexists (u1 :: used0), mem1, _. split_and!; [do 3 f_equal; lia|lia|lia|by constructor|]. pose proof (Hnn _ Hu' Hok). change (mem - mem1 <= bytes_used socket u1 + zsum (bytes_used socket) used0). lia. }
    destruct (remaining_ok socket info 0 Hok) as [r ->]. cbn [mbind option_bind]. destruct (r <? mem1); [|apply Hrec]. apply Z.eqb_neq in Ena.
    destruct (set_pages_ok socket (n + 1) u1 n Hg1) as (u2 & -> & Es2 & Hg2). cbn [mbind option_bind]. rewrite !u64_small by (unfold is_u64; lia).
    eexists (u2 :: used0), (mem1 - Z.min mem1 (hugepage_sz f)), _. split_and!; [do 3 f_equal; lia|lia|lia| |].
    + constructor; [|done]. split; [congruence|]. unfold pages_of. rewrite Hg2, Ha. cbn [default from_option id]. split; [lia|by eexists].
    + pose proof (Hnn _ Hu' Hok). change (mem - (mem1 - Z.min mem1 (hugepage_sz f)) <= bytes_used socket u2 + zsum (bytes_used socket) used0). unfold bytes_used at 1, pages_of. rewrite Hg2, Es2, Es1, Es. cbn [default from_option id]. lia.
Qed.

(** ** Instances *)

Definition fresh_layout : odp_sys_layout := Lay 0 0 0 (replicate 128 zero_frag) (replicate 128 zero_district) (replicate 128 zero_district) (replicate 128 zero_frag).
Definition ex_page (va phys : Z) : hugepage_file := Hp 0 va phys (2 ^ 21) 0 0 0 (None, 0).
(** Two pages that follow each other, one that was unmapped, one elsewhere. *)
Definition ex_pages : list hugepage_file := [ex_page (2 ^ 30) (2 ^ 32); ex_page (2 ^ 30 + 2 ^ 21) (2 ^ 32 + 2 ^ 21); ex_page 0 (2 ^ 33); ex_page (2 ^ 31) (2 ^ 34)].
Lemma ex_pages_ok : Forall page_ok (mapped ex_pages) /\ StronglySorted pages_apart (mapped ex_pages).
Proof.
  split.
  - repeat constructor; try (by vm_compute); cbn [ex_page final_va physaddr]; by (apply Z.mod_divide; [lia|]; by vm_compute).
  - repeat constructor; cbn; lia.
Qed.
Lemma huge_fragments_witness : exists all tbl' j frags,
  build_frags None [ex_page (2 ^ 30) (2 ^ 32); ex_page (2 ^ 30 + 2 ^ 21) (2 ^ 32 + 2 ^ 21); ex_page (2 ^ 31) (2 ^ 34); zero_hp] (-1) (replicate 128 zero_frag) = Some (all, tbl', j, frags) /\
  layout_ok (set_frags frags fresh_layout).
Proof.
  destruct (huge_fragments ex_pages fresh_layout (proj1 ex_pages_ok) (proj2 ex_pages_ok) eq_refl eq_refl eq_refl eq_refl) as (hp & all & tbl' & j & frags & Hc & Hb & Hl & _).
  assert (Ehp : hp = [ex_page (2 ^ 30) (2 ^ 32); ex_page (2 ^ 30 + 2 ^ 21) (2 ^ 32 + 2 ^ 21); ex_page (2 ^ 31) (2 ^ 34); zero_hp]) by (clear - Hc; vm_compute in Hc; injection Hc as <-; reflexivity).
  rewrite Ehp in Hb. exists all, tbl', j, frags. exact (conj Hb Hl).
Defined.

(** A machine with four free pages, whose physical addresses go down. *)
#[export] Instance toy_huge_sys : HugeSys unit := {|
  h_page_size := 4096;
  h_pagemap pfn _ := Some (2 ^ 20 + (3 - (pfn - 2 ^ 28) `div` 512) * 512);
  h_open_zero w := (true, w);
  h_mmap_zero _ _ w := (2 ^ 41, w);
  h_munmap _ _ w := w;
  h_open _ w := (true, w);
  h_mmap_file _ hint _ w := (if hint =? 0 then 2 ^ 40 else hint, w);
  h_clear _ _ w := w;
  h_flock _ w := (true, w);
  h_numa_maps _ _ := Some ((fun i => Some (2 ^ 40 + i * 2 ^ 21, 0)) <$> seqZ 0 4);
  h_mmap_anonymous _ w := (2 ^ 42, w);
  h_malloc _ w := (true, w);
  h_shared _ w := (2 ^ 43, w);
  h_core_sockets := [0; 0];
  h_core_num := 2
|}.
Definition toy_cfg (mem : Z) : odp_local_config := Cfg mem false false (replicate 8 0) 0 [Hpt (2 ^ 21) (Some "/mnt/huge"%string) (4 :: replicate 7 0)].
(** The result, and the fragments, when [mem] bytes are asked for. *)
Definition start_huge (mem : Z) : option (Z * list odp_mmfrag) := (fun '(r, _, m, _, _, _) => (r, known_frags (mmfrag m))) <$> odp_hugepage_init (toy_cfg mem) fresh_layout 0 tt.
(** All pages make one fragment; for three pages of memory the last one is unmapped; for
    five the start-up fails. *)
Example huge_start : start_huge (4 * 2 ^ 21) = Some (0, [Frag (2 ^ 32) (2 ^ 41) (2 ^ 23) (2 ^ 21) 0 0 0]) /\
  start_huge (3 * 2 ^ 21) = Some (0, [Frag (2 ^ 32) (2 ^ 41) (3 * 2 ^ 21) (2 ^ 21) 0 0 0]) /\ start_huge (5 * 2 ^ 21) = Some (-1, []).
Proof. split_and!; by vm_compute. Qed.

(** 128 pages that are not contiguous have a fragment each; with an unmapped page behind them the
    loop reports that it ran out of fragments. *)
Theorem unmapped_page_needs_fragment : let pages := (fun i => ex_page (2 ^ 40 + i * 2 ^ 22) (2 ^ 32 + i * 2 ^ 22)) <$> seqZ 0 128 in
  (fun '(all, _, _, _) => all) <$> build_frags None pages (-1) (replicate 128 zero_frag) = Some true /\
  (fun '(all, _, _, _) => all) <$> build_frags None (pages ++ [zero_hp]) (-1) (replicate 128 zero_frag) = Some false.
Proof. split; by vm_compute. Qed.

End HugepageProofs.
